(* ===== verification/_CoqProject ===== *)
-Q . S2P
Prelude.v
Bytes.v
Pages.v
PageInit.v
Slab.v
SlabInv.v
SlabGrow.v
SlabOps.v
SlabTop.v
SlabSpec.v
HashMap.v
HashMapSpec.v
HashMapDemo.v
Vm.v
VmSpec.v
VmUnmap.v
VmCopy.v
VmTheorems.v
BlockDev.v
Ext2Cache.v
Ext2CacheSpec.v
Strict.v
Ext2.v
Ext2Logic.v
Ext2Alloc.v
Ext2Map.v
Ext2Tree.v
Ext2GetBlock.v
Ext2Dir.v
Ext2File.v
Ext2Strict.v
Ext2Data.v
Ext2Inode.v
Ext2FileSpec.v
Ext2Dirent.v
Ext2DirSpec.v
Ext2Theorems.v
Ext2Demo.v
Spinlock.v
Sched.v
SchedInv.v
SchedSteps.v
SchedSleep.v
SchedTheorems.v
Proc.v
ProcInv.v
ProcMoves.v
ProcSafe.v
ProcTree.v
ProcTheorems.v
VfsPath.v
Vfs.v
VfsInv.v
VfsCache.v
VfsWalk.v
VfsDir.v
VfsFile.v
VfsOpen.v
VfsProc.v
VfsMount.v
VfsAttach.v
VfsTable.v
Syscall.v
SyscallSpec.v
VfsTheorems.v
SyscallTheorems.v
VfsDemo.v
Fat.v
FatDir.v
FatFile.v
FatTable.v
FatRead.v
FatWrite.v
FatEntry.v
FatData.v
FatLookup.v
FatStrict.v
FatAdd.v
FatTheorems.v
FatDemo.v
