(* ===== verification/Prelude.v ===== *)
(** * A verification of the loeux-riscv kernel

    loeux-riscv is a small multi-hart RISC-V kernel in C.  This library models
    its memory management, its hash table, its ext2 and FAT32 file systems, its
    virtual file system with the system calls on files, its locks, its scheduler and
    the life of its processes as executable functions, and proves what each of them
    promises to the rest of the kernel.  Paths below are relative to src/.

    ** The parts and how they fit together

    - [mm/memory.c] hands out 4 KiB pages from the memory banks of the device
      tree; [mm/slab.c] cuts pages into objects of 8 to 4096 bytes;
      [mm/vm.c] builds three-level page tables out of pages and copies across
      the user boundary.
    - [utils/hashmap.c] is a chained hash table whose nodes and bucket array
      come from the slab allocator.
    - [fs/ext2.c] keeps a write-back cache of disk blocks in such a table,
      above a block driver, and on it the bitmaps, inode records, block maps,
      file data and directories of an ext2 volume.
    - [fs/fat32.c] does the same for FAT32 volumes, without a cache: a table
      that links clusters into chains, directories of 32-byte entries with 8.3
      names, time stamps of two 16-bit fields.
    - [fs/vfs.c] puts mounted file systems under one tree of paths: an inode
      cache with reference counts (a hash table), the mount tree, open files
      and the descriptors of processes.  [fs/char_dev.c] is the table of
      devices, [kernel/syscall_file.c] and [kernel/syscall.c] the way in for
      processes.
    - [kernel/spinlock.c], [kernel/sleeplock.c] and the scheduler of
      [kernel/proc.c] are what all of the above runs under: spinlocks that
      switch interrupts off, sleep locks with a wait queue, and tasks that
      harts pick up and put down.  The rest of [kernel/proc.c] creates
      processes, ends them and lets parents wait for them.

    ** Files

    - Prelude (this file): outcomes of kernel code ([Ok], [Halt] for
      [panic], [Fault] for a wild or null pointer, [NoFuel]), the state monad
      [M] with its notation, weakest preconditions [wp], machine-width
      integers as wrapped [Z], tactics and the hint database [kern].  Bytes:
      little-endian words in memory and in buffers.
    - Pages: [struct page], [struct gloal_memory_descriptor], [alloc_page] and
      [free_page] as their critical sections [take_page] and [put_page] and the
      [memset] behind them, and the refinement of a FIFO queue of free frames.
      PageInit: [init_memory].
    - Slab: [struct slab] as 64 bytes of RAM, [init_slab], [slab_alloc],
      [slab_free] and what they call.  SlabInv, SlabGrow, SlabOps, SlabTop:
      the invariant and its preservation.  SlabSpec: the contract on a table
      of live objects.
    - HashMap: all of utils/hashmap.c over an interface [Heap] (a class), with
      the slab allocator as an instance.  HashMapSpec: refinement of a finite
      map.  HashMapDemo: concrete tables.
    - Vm: all of mm/vm.c.  VmSpec, VmUnmap, VmCopy: page tables as trees of
      pages, unmapping, copying.  VmTheorems: the contract.
    - BlockDev: the interfaces ext2 is written against, [BlockDev] for
      include/drivers/block_device.h and [BlockMap] for the hash table with
      [uint32_t] keys; [hash_block_map] discharges the second one with
      HashMapSpec.
    - Ext2Cache, Ext2, Ext2Dir, Ext2File: the operations of fs/ext2.c, in the
      order of that file (cache; metadata; directories; inode, file and mount
      operations).  Ext2CacheSpec, Ext2Logic, Ext2Alloc, Ext2Map, Ext2Tree,
      Ext2GetBlock, Ext2Data, Ext2Inode, Ext2FileSpec, Ext2Dirent, Ext2DirSpec:
      their specifications, from the cache as an array of blocks up to
      directories as lists of entries.  Strict: clean runs, in which no
      transfer and no allocation fails.  Ext2Strict: the ext2 operations in
      such runs.  Ext2Theorems: the main theorems.  Ext2Demo: a small volume on
      a RAM disk with a limited heap on which they are applied.
    - Fat, FatDir, FatFile: the operations of fs/fat32.c (table, chains, names,
      times and entries; directories and inodes; file data, truncation and
      mounting).  FatTable: the logic of the FAT32 proofs, the table and its
      chains.  FatRead, FatWrite: the loops over file data.  FatEntry: time
      stamps, names and entries.  FatData: files with their entries, writing
      and truncation.  FatLookup: walking, finding and listing, inodes and
      mounting.  FatAdd: adding and removing names.  FatStrict: the FAT32
      operations in clean runs.  FatTheorems: the main theorems.  FatDemo: a small volume on which they are applied, and runs
      that lose data.
    - Spinlock: [acquire] and [release] as steps that harts interleave,
      [push_off] and [pop_off], the atomic specification and the simulation.
    - Sched: [scheduler], [sched], [yield], [acquire_sleep] and
      [_release_sleep_proto] as steps of harts and tasks over the atomic
      spinlocks.  SchedInv, SchedSteps, SchedSleep: the invariant and its
      preservation by every step.  SchedTheorems: the main theorems and the
      interleavings on which they are applied.
    - Proc: [alloc_task], [free_task], [kfork], [waitpid], [kexit],
      [wake_wait_parent], [yield] and the two halves of [scheduler] as steps
      of tasks over [tasks[]] with its locks; whether a file that [exit_fs] or
      [kfork] needs is in use by another task is open at every step.  ProcInv:
      the invariant, and the moves of the system as rules.  ProcMoves: every
      step is a move or the panic of a busy file.  ProcSafe, ProcTree: every
      move keeps the invariant.  ProcTheorems: the main theorems and a run.
    - VfsPath: [do_build_user_path] and [vfs_normalize] against a reference on
      lists of names.  Vfs: all of fs/vfs.c, the device table, and [set_cwd],
      [exit_fs] and the file part of [kfork].  VfsInv, VfsCache, VfsWalk,
      VfsDir, VfsFile, VfsOpen, VfsProc, VfsMount, VfsAttach: the
      invariant (exact reference counts, well-formed descriptor tables, the
      mount tree, the heap objects owned and, over file systems with exact
      directories, one inode per file) and a specification of every operation.  VfsTable: the two tables of the VFS
      as instances of utils/hashmap.c.  VfsTheorems: the main theorems.
    - Syscall: kernel/syscall_file.c, [sys_chdir] and [syscall].  SyscallSpec,
      SyscallTheorems: sequences of calls.  VfsDemo: a file system in
      memory, and sessions on which the theorems are applied.

    ** How the code is modelled

    Sequential code is a function in the monad [M] over the state of its
    component, one definition per C function or loop; the critical sections of
    memory.c, slab.c, hashmap.c and ext2.c are single transitions, which is
    what the lock theorems justify.  In memory.c a page is cleared after
    [memory_lock] is released: there the critical section and the clearing are
    separate transitions, which the theorem interleaves freely and
    [free_clears_late] uses to show the race.  RAM is a finite map from addresses to
    bytes where the code overlays structures on it (slabs, page tables);
    [struct page] pointers, hash chains, cache entries and inodes are records
    keyed by their index or address.  On-disk structures stay byte lists with
    the offsets of the packed structs.  Concurrency is an explicit step
    relation: any hart may move next, and an interrupt may strike wherever the
    [SIE] bit is set.

    A call of the VFS is sequential code too: it runs to its end, with the
    locks it takes as part of the state, where taking a lock against the order
    [rank], or twice, is a [Fault], like the use of a freed inode or file.
    [rank] is the order of the code, in which [fd_alloc] and [fd_get] take the
    sleep lock of a file under the spinlock of the task.  That nesting panics
    when another task holds the sleep lock; since calls run one at a time in
    this model the sleep lock is free there, and the panic is not seen.  The
    same nesting in [kexit] and [kfork] is seen in Proc.

    Code outside the sources, or that drives hardware, is an interface: the
    block driver ([BlockDev]), the clock that [ext2_now] reads, the key and
    hash functions given to a table; for the VFS a mounted file system
    ([FileSystem] with the laws [FsLaws]: struct inode_operations and struct
    file_operations), the drivers of devices ([CharDriver]) and the memory of
    a process ([UserMem]).  Each theorem over an interface is
    applied at a concrete instance.  The laws of [FsLaws] about directories
    (one name per file, a failed operation leaves the directory alone) hold
    only under [fs_exact], and so does every conclusion about the tree of
    files; ext2 and FAT32 do not have them, because [ext2_unlink] may fail
    behind the removal of the entry and FAT names that differ in case only are
    one entry.  The laws outside of [fs_exact] say that operations keep the
    state of the file system sound and hand out objects they have allocated;
    they are the documented contract of the operation tables and are shown of
    the in-memory file system of VfsDemo.

    ** What the theorems show

    - Pages: the critical sections of allocations and frees, in any order and
      with the clearing of pages anywhere in between, behave like a FIFO of
      frames with reference counts (not the LIFO the test of the repository
      expects); [init_memory] establishes the invariant.
    - Slab: an allocation is fresh, aligned, of the least sufficient class,
      disjoint from every live object, and leaves their contents alone; freeing
      undoes it; all reachable states keep live objects apart.
    - Hash table: insert, lookup, delete and iteration refine a finite map on
      every branch, out of memory included, and own exactly the heap objects
      they should; creation terminates.
    - Virtual memory: mapping installs exactly the requested translations,
      unmapping removes them and returns exactly the frames, copies to and from
      user space move exactly the bytes, page faults are served by one fresh
      zeroed frame.
    - ext2, in runs where no transfer and no allocation fails: the cache
      answers like an array of blocks; file data, inode records and directory
      entries round trip; mapping a file block keeps the block tree sound;
      what still fails is for want of a free block.  Without that proviso:
      flushing terminates and keeps the visible blocks, unmounting releases
      everything, block allocation is first fit.  [write_block_lost] of
      Ext2Demo shows why the proviso is needed: out of memory, a write may be
      dropped and answer 0.
    - FAT32, in runs where no transfer and no allocation fails: reads and
      writes move exactly the bytes of the range, truncation keeps what it
      should and frees exactly the rest; cluster allocation is first fit and
      freeing exact; a created name that does not start with byte 0xE5 is
      found again and other names stay as they are, removal is exact, listing
      reports every live entry once.  Names and time stamps round trip; a
      mount is given back whole.  A write that starts right behind the last
      cluster is part of the write theorem, which says what the code does
      there: the file starts over with the new cluster.  FatDemo runs this, the
      first cluster of a file, which no entry records, and the name 0xE5.
    - Spinlocks: every interleaving is a run of atomic locks; the panics fire
      exactly on misuse; [noff] counts the held locks and the interrupt bit is
      restored.
    - Scheduler and sleep locks: a task runs on at most one hart, sleep locks
      exclude, no wake-up is lost, and a panic needs a listed misuse, one of
      which is to wait for a sleep lock with a task lock held.
    - Processes: whatever forks, exits and waits on any harts, the processes
      form a tree under init, [waitpid] returns the status of a child that has
      really ended, a parent asleep in [waitpid] is always about to be woken
      for a child that has exited, [kfork] returns the pid of a child that is
      still there, and pids are distinct.  The only panics are those of an
      [exit_fs] or [kfork] that needs a file another task is using: they wait
      for its sleep lock under the lock of a task, and there they do panic.
    - VFS: the path resolver equals its reference; permissions are the Unix
      rule; open, dup and close change exactly one descriptor; mount and umount
      change exactly one mount, and umount only when nobody uses it; fork and
      exit count every reference.  Over a file system with exact directories a
      walk returns the inode that the directories on disk give the path, if
      every directory on the way may be searched, and create, unlink and rmdir
      change one entry.
    - System calls: after any sequence of calls that [allowed] admits, run one
      after the other, every further such call is safe (no freed object, no
      lock misused, nothing leaked) and descriptor tables are well formed;
      over file systems with exact directories there is one inode per file in
      memory.  [allowed] admits the calls on files by their number (so not the
      numbers from 18 on, which read beyond the table), fork and exit of the
      file side, mounts at targets of less than 128 bytes, and unmounts with
      at most 1024 cached inodes; what happens outside of these limits is in
      the findings of the manifest.  exec is not run.

    ** Fuel and bounds

    Loops without a syntactic bound carry fuel, and each theorem says that the
    fuel is enough: [slab_fuel] is the number of pages plus 2, since each slab
    of a class owns a page; [copy_fuel] and [data_fuel] are the number of
    pages or blocks in the range plus 3; [dir_fuel] is the block size, each
    record taking at least 8 bytes; [flush_fuel] is the number of cache entries
    plus 1, each round but the last cleaning one; [pow2_loop] has 33 steps and
    its theorem bounds the request by 2^31, beyond which the C loop diverges.
    [year_fuel] is more than the years in 2^32 seconds, [fat_data_fuel] one
    unit per sector of the range and three more; the loops of fat32.c over
    chains have the guard of the code, [find_tail], which has none, the number
    of clusters, and its theorem is about chains, which end.
    The scheduler relation needs none.  [build_loop] and [lookup_loop] have
    one unit per character of the path and one more; [dirents_loop] as many as
    records fit into the page.

    The ext2 theorems assume a sound volume: [geom_ok] (sizes of the mounted
    volume), [layout_ok] (metadata blocks apart from data), [tree_ok] (block
    map of the file), [dir_ok] (records of a directory).  The FAT32 theorems
    assume [fgeom] (the layout, which [parse_geometry] derives from the checks
    of [fat32_get_super] and the conditions [boot_ok] it does not check),
    [chain] (the clusters of a file or directory) and [entry_ok].  That nothing
    fails is a statement about one run, [clean] of Strict: the operation on
    the given device and heap does what it does on the strict versions of
    them, which stop at a failed transfer or allocation.  The specifications
    below the theorems are written with [reliable], [table_total] and
    [fat_reliable], which speak of all states; they are applied to the strict
    device, heap and table only, of which they hold, and never to a real heap,
    of which they do not.

    The VFS theorems assume a state with exact counts, which [start_good] shows
    of a booted system and [calls_safe] of every later one.  The scheduler
    theorems start from [boot]: tasks that exist have distinct non-zero pids,
    which holds until the pid counter wraps.

    ** Not modelled

    Trap vectors, control registers other than [SIE], boot code, SBI calls,
    device registers and virtqueues are hardware state.  Interleavings inside
    a VFS call are not modelled: its theorems are about calls that run one
    after the other, and the file systems are single transitions under it.
    Copies from user memory are the interface [UserMem], which answers with a
    result and the bytes; that [copy_data_str] calls [strlen] on a page that
    need not hold a NUL is not modelled.  [kexec] and the memory side of [kfork] in kernel/proc.c and the system
    calls on processes, the terminals, kernel/fdt.c, printk, mm/dma.c and user
    space are not modelled; the processes are next in the plan. *)
From stdpp Require Import base gmap list sets option.
From Stdlib Require Import ZArith Lia.
Open Scope Z_scope.

(** ** Outcomes of kernel code

    [panic(PANIC_ERROR, ...)] in kernel/panic.c prints and then spins for
    ever, so control never comes back: that is [Halt].  Dereferencing a null
    or wild pointer is [Fault].  Loops whose bound is not syntactic carry
    fuel, and running out of it is [NoFuel], which the termination theorems
    exclude. *)
Inductive result (A : Type) : Type :=
| Ok (a : A)
| Halt
| Fault
| NoFuel.
Arguments Ok {A} a.
Arguments Halt {A}.
Arguments Fault {A}.
Arguments NoFuel {A}.

Definition rbind {A B} (r : result A) (k : A -> result B) : result B :=
  match r with
  | Ok a => k a
  | Halt => Halt
  | Fault => Fault
  | NoFuel => NoFuel
  end.

(** State-passing computations over a state [S]. *)
Definition M (S A : Type) : Type := S -> result (A * S).

Definition mret {S A} (a : A) : M S A := fun s => Ok (a, s).
Definition mbind' {S A B} (m : M S A) (k : A -> M S B) : M S B :=
  fun s => match m s with
           | Ok (a, s') => k a s'
           | Halt => Halt
           | Fault => Fault
           | NoFuel => NoFuel
           end.
Definition get {S} : M S S := fun s => Ok (s, s).
Definition put {S} (s' : S) : M S unit := fun _ => Ok (tt, s').
Definition gets {S A} (f : S -> A) : M S A := fun s => Ok (f s, s).
Definition modify {S} (f : S -> S) : M S unit := fun s => Ok (tt, f s).
Definition halt {S A} : M S A := fun _ => Halt.
Definition fault {S A} : M S A := fun _ => Fault.
Definition nofuel {S A} : M S A := fun _ => NoFuel.

Declare Scope kern_scope.
Delimit Scope kern_scope with kern.
Notation "'let*' x ':=' m 'in' k" := (mbind' m (fun x => k))
  (at level 10, x pattern, m at level 200, k at level 200,
   format "'[v' 'let*'  x  ':='  m  'in' '/' k ']'") : kern_scope.
Notation "m ;;; k" := (mbind' m (fun _ => k))
  (at level 100, right associativity) : kern_scope.
Open Scope kern_scope.

Arguments mret {S A} a _ /.
Arguments mbind' {S A B} m k _ /.
Arguments get {S} _ /.
Arguments put {S} s' _ /.
Arguments gets {S A} f _ /.
Arguments modify {S} f _ /.
Arguments halt {S A} _ /.
Arguments fault {S A} _ /.
Arguments nofuel {S A} _ /.

(** A bounded [for (i = lo; i < hi; i++)] loop: [n] iterations from [i]. *)
Fixpoint for_loop {S} (n : nat) (i : Z) (body : Z -> M S unit) : M S unit :=
  match n with
  | O => mret tt
  | Datatypes.S n' => body i ;;; for_loop n' (i + 1) body
  end.

(** Run a computation over a part [T] of the state [S]. *)
Definition zoom {S T A} (proj : S -> T) (upd : T -> S -> S) (m : M T A) : M S A :=
  fun s => match m (proj s) with
           | Ok (a, t) => Ok (a, upd t s)
           | Halt => Halt
           | Fault => Fault
           | NoFuel => NoFuel
           end.
Arguments zoom {S T A} proj upd m _ /.

(** ** Reasoning about outcomes

    [wp m Q s]: from [s] the computation [m] either panics or ends, and when
    it ends its result and final state satisfy [Q].  It never faults and never
    runs out of fuel. *)
Definition wp {S A} (m : M S A) (Q : A -> S -> Prop) (s : S) : Prop :=
  match m s with
  | Ok (a, s') => Q a s'
  | Halt => True
  | Fault | NoFuel => False
  end.

Lemma wp_ret {S A} (a : A) (Q : A -> S -> Prop) s : Q a s -> wp (mret a) Q s.
Proof. done. Qed.

Lemma wp_bind {S A B} (m : M S A) (k : A -> M S B) (Q : B -> S -> Prop) s :
  wp m (fun a => wp (k a) Q) s -> wp (mbind' m k) Q s.
Proof. unfold wp, mbind'. by destruct (m s) as [[a s']| | |]. Qed.

Lemma wp_conseq {S A} (m : M S A) (Q R : A -> S -> Prop) s :
  wp m Q s -> (forall a s', Q a s' -> R a s') -> wp m R s.
Proof. unfold wp. intros W HQ. destruct (m s) as [[a s']| | |]; auto. Qed.

Lemma wp_and {S A} (m : M S A) (Q R : A -> S -> Prop) s :
  wp m Q s -> wp m R s -> wp m (fun a s' => Q a s' /\ R a s') s.
Proof. unfold wp. destruct (m s) as [[a s']| | |]; auto. Qed.

Lemma wp_ok {S A} (m : M S A) (Q : A -> S -> Prop) s a s' :
  wp m Q s -> m s = Ok (a, s') -> Q a s'.
Proof. unfold wp. by intros W E; rewrite E in W. Qed.

Lemma wp_zoom {S T A} (proj : S -> T) (upd : T -> S -> S) (m : M T A) (Q : A -> S -> Prop) s :
  wp m (fun a t => Q a (upd t s)) (proj s) -> wp (zoom proj upd m) Q s.
Proof. unfold wp, zoom. by destruct (m (proj s)) as [[a t]| | |]. Qed.

Lemma wp_gets {S A B} (f : S -> A) (k : A -> M S B) (Q : B -> S -> Prop) s :
  wp (k (f s)) Q s -> wp (mbind' (gets f) k) Q s.
Proof. done. Qed.

Lemma wp_modify {S B} (f : S -> S) (k : unit -> M S B) (Q : B -> S -> Prop) s :
  wp (k tt) Q (f s) -> wp (mbind' (modify f) k) Q s.
Proof. done. Qed.

Lemma wp_assoc {S A B C} (m : M S A) (n : A -> M S B) (k : B -> M S C) (Q : C -> S -> Prop) s :
  wp (mbind' (mbind' m n) k) Q s -> wp (mbind' m (fun a => mbind' (n a) k)) Q s.
Proof. unfold wp, mbind'. by destruct (m s) as [[a s']| | |]. Qed.

(** the value of a run that must have succeeded, with a default *)
Definition ok_or {A} (d : A) (r : result A) : A := match r with Ok a => a | _ => d end.

(** ** Machine-width integers: every value is a [Z] wrapped explicitly. *)
Definition u8 (z : Z) : Z := z mod 2 ^ 8.
Definition u16 (z : Z) : Z := z mod 2 ^ 16.
Definition u32 (z : Z) : Z := z mod 2 ^ 32.
Definition u64 (z : Z) : Z := z mod 2 ^ 64.
(** two's complement views *)
Definition s32 (z : Z) : Z := (z + 2 ^ 31) mod 2 ^ 32 - 2 ^ 31.
Definition s64 (z : Z) : Z := (z + 2 ^ 63) mod 2 ^ 64 - 2 ^ 63.

Lemma u8_range z : 0 <= u8 z < 2 ^ 8.
Proof. apply Z.mod_pos_bound; lia. Qed.
Lemma u16_range z : 0 <= u16 z < 2 ^ 16.
Proof. apply Z.mod_pos_bound; lia. Qed.
Lemma u32_range z : 0 <= u32 z < 2 ^ 32.
Proof. apply Z.mod_pos_bound; lia. Qed.
Lemma u64_range z : 0 <= u64 z < 2 ^ 64.
Proof. apply Z.mod_pos_bound; lia. Qed.
Lemma u8_small z : 0 <= z < 2 ^ 8 -> u8 z = z.
Proof. apply Z.mod_small. Qed.
Lemma u16_small z : 0 <= z < 2 ^ 16 -> u16 z = z.
Proof. apply Z.mod_small. Qed.
Lemma u32_small z : 0 <= z < 2 ^ 32 -> u32 z = z.
Proof. apply Z.mod_small. Qed.
Lemma u64_small z : 0 <= z < 2 ^ 64 -> u64 z = z.
Proof. apply Z.mod_small. Qed.
Lemma s32_small z : - 2 ^ 31 <= z < 2 ^ 31 -> s32 z = z.
Proof. intros. unfold s32. rewrite Z.mod_small by lia. lia. Qed.

(** [x << n | f] with [f] below bit [n] *)
Lemma lor_low x f n : 0 <= n -> 0 <= f < 2 ^ n -> Z.lor (x * 2 ^ n) f = x * 2 ^ n + f.
Proof.
  intros Hn Hf. pose proof (Z.add_lor_land (x * 2 ^ n) f) as E.
  assert (Z.land (x * 2 ^ n) f = 0) as E0; [|lia].
  apply Z.bits_inj'. intros k Hk. rewrite Z.land_spec, Z.bits_0.
  destruct (decide (k < n)).
  - by rewrite Z.mul_pow2_bits_low by lia.
  - assert (Z.testbit f k = false) as ->; [|apply andb_false_r].
    rewrite <- (Z.mod_small f (2 ^ n)) by lia. apply Z.mod_pow2_bits_high. lia.
Qed.

(** ** Automation *)
Create HintDb kern.
#[export] Hint Resolve u8_range u16_range u32_range u64_range : kern.

(** Split every [match] or [if] the goal or a hypothesis is stuck on. *)
Ltac case_step :=
  match goal with
  | |- context [match ?x with _ => _ end] => destruct x eqn:?
  | H : context [match ?x with _ => _ end] |- _ => destruct x eqn:?
  end.

(** Turn boolean comparisons in the context into propositions. *)
Ltac breflect :=
  repeat match goal with
  | H : _ && _ = true |- _ => apply andb_true_iff in H as [? ?]
  | H : _ || _ = false |- _ => apply orb_false_iff in H as [? ?]
  | H : negb _ = true |- _ => apply negb_true_iff in H
  | H : negb _ = false |- _ => apply negb_false_iff in H
  | H : (_ =? _) = true |- _ => apply Z.eqb_eq in H
  | H : (_ =? _) = false |- _ => apply Z.eqb_neq in H
  | H : (_ <? _) = true |- _ => apply Z.ltb_lt in H
  | H : (_ <? _) = false |- _ => apply Z.ltb_ge in H
  | H : (_ <=? _) = true |- _ => apply Z.leb_le in H
  | H : (_ <=? _) = false |- _ => apply Z.leb_gt in H
  end.

(** Invert an equation between outcomes. *)
Ltac inv_ok :=
  repeat match goal with
  | H : Ok _ = Ok _ |- _ => injection H as H; subst
  | H : Ok _ = _ |- _ => discriminate H
  | H : Halt = _ |- _ => discriminate H
  | H : Fault = _ |- _ => discriminate H
  | H : NoFuel = _ |- _ => discriminate H
  | H : (_, _) = (_, _) |- _ => injection H as ? ?; subst
  end.
