(* ===== verification/Bytes.v ===== *)
(** Little-endian encodings, byte buffers and byte-addressed RAM.

    The kernel reads and writes memory at widths of 1 to 8 bytes (page-table
    entries, free-list links, on-disk structures).  A byte is a [Z] in
    [0, 256); a buffer is a [list Z]; RAM is a finite map from addresses to
    bytes in which an absent address holds 0. *)
From stdpp Require Import base gmap list.
From Stdlib Require Import ZArith Lia.
From S2P Require Import Prelude.
Open Scope Z_scope.

(** ** Little-endian encoding *)
Fixpoint le_dec (l : list Z) : Z :=
  match l with
  | [] => 0
  | b :: l' => b + 256 * le_dec l'
  end.

Fixpoint le_enc (n : nat) (v : Z) : list Z :=
  match n with
  | O => []
  | S n' => v mod 256 :: le_enc n' (v / 256)
  end.

Definition byte_ok (b : Z) : Prop := 0 <= b < 256.
Definition bytes_ok (l : list Z) : Prop := Forall byte_ok l.

Lemma length_le_enc n v : length (le_enc n v) = n.
Proof. revert v; induction n; intros; simpl; auto. Qed.

Lemma le_enc_ok n v : bytes_ok (le_enc n v).
Proof.
  revert v; induction n as [|n IH]; intros v; simpl; constructor; [|apply IH].
  red. pose proof (Z.mod_pos_bound v 256); lia.
Qed.

Lemma le_dec_enc n v : le_dec (le_enc n v) = v mod 2 ^ (8 * Z.of_nat n).
Proof.
  revert v; induction n; intros v; cbn [le_enc le_dec].
  - by rewrite Z.mod_1_r.
  - rewrite IHn. replace (8 * Z.of_nat (S n)) with (8 + 8 * Z.of_nat n) by lia.
    rewrite Z.pow_add_r by lia. change (2 ^ 8) with 256.
    rewrite Z.rem_mul_r; [lia|lia|]. apply Z.pow_pos_nonneg; lia.
Qed.

Lemma le_dec_bound l : bytes_ok l -> 0 <= le_dec l < 2 ^ (8 * Z.of_nat (length l)).
Proof.
  induction 1 as [|b l Hb _ IH]; cbn [le_dec length]; [lia|].
  replace (8 * Z.of_nat (S (length l))) with (8 + 8 * Z.of_nat (length l)) by lia.
  rewrite Z.pow_add_r by lia. change (2 ^ 8) with 256. red in Hb. nia.
Qed.

Lemma le_enc_dec l : bytes_ok l -> le_enc (length l) (le_dec l) = l.
Proof.
  induction 1 as [|b l Hb _ IH]; cbn [le_dec le_enc length]; [done|].
  red in Hb. f_equal.
  - rewrite Z.mul_comm, Z.mod_add by lia. by apply Z.mod_small.
  - rewrite Z.mul_comm, Z.div_add, Z.div_small by lia. by rewrite Z.add_0_l.
Qed.

(** ** Buffers *)
Definition slice (off n : nat) (l : list Z) : list Z := take n (drop off l).
(** [memcpy(buf + off, bs, length bs)] *)
Definition splice (off : nat) (bs l : list Z) : list Z :=
  take off l ++ bs ++ drop (off + length bs) l.
(** the [n]-byte little-endian field of a buffer at [off], and its update *)
Definition field (n off : nat) (l : list Z) : Z := le_dec (slice off n l).
Definition set_field (n off : nat) (v : Z) (l : list Z) : list Z :=
  splice off (le_enc n v) l.

Lemma length_slice off n l :
  (off + n <= length l)%nat -> length (slice off n l) = n.
Proof. intros. unfold slice. rewrite length_take, length_drop. lia. Qed.

Lemma length_splice off bs l :
  (off + length bs <= length l)%nat -> length (splice off bs l) = length l.
Proof.
  intros. unfold splice. rewrite !length_app, length_take, length_drop. lia.
Qed.

Lemma slice_splice_same off bs l :
  (off <= length l)%nat -> slice off (length bs) (splice off bs l) = bs.
Proof.
  intros. unfold slice, splice.
  rewrite drop_app_length' by (rewrite length_take; lia).
  by rewrite take_app_length.
Qed.

Lemma slice_splice_before off bs off' n l :
  (off' + n <= off)%nat -> (off <= length l)%nat ->
  slice off' n (splice off bs l) = slice off' n l.
Proof.
  intros. unfold slice, splice.
  rewrite drop_app_le by (rewrite length_take; lia).
  rewrite take_app_le by (rewrite length_drop, length_take; lia).
  rewrite skipn_firstn_comm, firstn_firstn. f_equal. lia.
Qed.

Lemma slice_splice_after off bs off' n l :
  (off + length bs <= off')%nat -> (off + length bs <= length l)%nat ->
  slice off' n (splice off bs l) = slice off' n l.
Proof.
  intros. unfold slice, splice.
  rewrite app_assoc, drop_app_ge by (rewrite length_app, length_take; lia).
  rewrite drop_drop. f_equal. f_equal. rewrite length_app, length_take. lia.
Qed.

Lemma slice_splice_disjoint off bs off' n l :
  (off + length bs <= off' \/ off' + n <= off)%nat ->
  (off + length bs <= length l)%nat ->
  slice off' n (splice off bs l) = slice off' n l.
Proof.
  intros [H|H] ?; [by apply slice_splice_after|].
  apply slice_splice_before; lia.
Qed.

Lemma field_set_same n off v l :
  (off <= length l)%nat -> field n off (set_field n off v l) = v mod 2 ^ (8 * Z.of_nat n).
Proof.
  intros. unfold field, set_field.
  pose proof (slice_splice_same off (le_enc n v) l H) as E.
  rewrite length_le_enc in E. by rewrite E, le_dec_enc.
Qed.

Lemma field_set_disjoint n off v n' off' l :
  (off + n <= off' \/ off' + n' <= off)%nat -> (off + n <= length l)%nat ->
  field n' off' (set_field n off v l) = field n' off' l.
Proof.
  intros. unfold field, set_field.
  rewrite slice_splice_disjoint; rewrite ?length_le_enc; auto.
Qed.

Lemma length_set_field n off v l :
  (off + n <= length l)%nat -> length (set_field n off v l) = length l.
Proof. intros. apply length_splice. by rewrite length_le_enc. Qed.

(** the same facts for a buffer of a known length, for chains of stores *)
Lemma length_set_field_eq n off v l N :
  length l = N -> (off + n <= N)%nat -> length (set_field n off v l) = N.
Proof. intros <-. apply length_set_field. Qed.
Lemma field_set_same_len N n off v l :
  length l = N -> (off <= N)%nat -> field n off (set_field n off v l) = v mod 2 ^ (8 * Z.of_nat n).
Proof. intros <-. apply field_set_same. Qed.
Lemma field_set_disjoint_len N n off v n' off' l :
  length l = N -> (off + n <= off' \/ off' + n' <= off)%nat -> (off + n <= N)%nat ->
  field n' off' (set_field n off v l) = field n' off' l.
Proof. intros <-. apply field_set_disjoint. Qed.

Lemma splice_ok off bs l : bytes_ok bs -> bytes_ok l -> bytes_ok (splice off bs l).
Proof.
  intros. unfold splice, bytes_ok.
  rewrite !Forall_app. split_and!; auto; [by apply Forall_take|by apply Forall_drop].
Qed.

Lemma slice_ok off n l : bytes_ok l -> bytes_ok (slice off n l).
Proof. intros. by apply Forall_take, Forall_drop. Qed.

Lemma slice_all l : slice 0 (length l) l = l.
Proof. unfold slice. by rewrite drop_0, firstn_all. Qed.

Lemma splice_all bs l : length bs = length l -> splice 0 bs l = bs.
Proof.
  intros E. unfold splice. rewrite take_0, Nat.add_0_l, E, drop_all. simpl.
  by rewrite app_nil_r.
Qed.

Lemma splice_splice off bs bs' l :
  length bs = length bs' -> (off + length bs <= length l)%nat ->
  splice off bs' (splice off bs l) = splice off bs' l.
Proof.
  intros E Hl. unfold splice. rewrite take_app_le by (rewrite length_take; lia).
  rewrite take_take, Nat.min_id. f_equal. f_equal. rewrite <- E.
  rewrite app_assoc, drop_app_ge by (rewrite length_app, length_take; lia).
  rewrite length_app, length_take. rewrite drop_drop. f_equal. lia.
Qed.

Lemma splice_slice off n l : (off + n <= length l)%nat -> splice off (slice off n l) l = l.
Proof.
  intros Hl. unfold splice. rewrite length_slice by done. unfold slice.
  rewrite <- (take_drop off l) at 4. f_equal.
  rewrite <- drop_drop. apply take_drop.
Qed.

Lemma set_field_field n off l : bytes_ok l -> (off + n <= length l)%nat ->
  set_field n off (field n off l) l = l.
Proof.
  intros Hb Hl. unfold set_field, field.
  rewrite <- (length_slice off n l Hl) at 1. rewrite le_enc_dec by by apply slice_ok.
  by apply splice_slice.
Qed.

Lemma set_field_twice n off v w l : (off + n <= length l)%nat ->
  set_field n off w (set_field n off v l) = set_field n off w l.
Proof. intros. apply splice_splice; rewrite !length_le_enc; done. Qed.

(** ** RAM *)
Abbreviation ram := (gmap Z Z).

Definition ldb (m : ram) (a : Z) : Z := default 0 (m !! a).

Fixpoint ldbytes (m : ram) (a : Z) (n : nat) : list Z :=
  match n with
  | O => []
  | S n' => ldb m a :: ldbytes m (a + 1) n'
  end.

Fixpoint stbytes (m : ram) (a : Z) (l : list Z) : ram :=
  match l with
  | [] => m
  | b :: l' => stbytes (<[a := b]> m) (a + 1) l'
  end.

Definition ld64 (m : ram) (a : Z) : Z := le_dec (ldbytes m a 8).
Definition st64 (m : ram) (a : Z) (v : Z) : ram := stbytes m a (le_enc 8 v).
(** [memset(a, v, n)] *)
Definition memset (m : ram) (a v n : Z) : ram :=
  stbytes m a (replicate (Z.to_nat n) (u8 v)).
(** [memcpy]/[memmove]: the source bytes are read, then stored *)
Definition memcpy (m : ram) (dst src n : Z) : ram :=
  stbytes m dst (ldbytes m src (Z.to_nat n)).

Definition ram_ok (m : ram) : Prop := forall a b, m !! a = Some b -> byte_ok b.

Lemma ldb_insert m a b x :
  ldb (<[a := b]> m) x = if decide (a = x) then b else ldb m x.
Proof. unfold ldb. rewrite lookup_insert. by case_decide. Qed.

Lemma ldb_stbytes_ne m a l x :
  (x < a \/ a + Z.of_nat (length l) <= x) -> ldb (stbytes m a l) x = ldb m x.
Proof.
  revert m a; induction l as [|b l IH]; intros m a H; cbn [stbytes]; [done|].
  cbn [length] in H. rewrite IH by lia. rewrite ldb_insert, decide_False; [done|lia].
Qed.

Lemma ldb_stbytes_in m a l (i : nat) b :
  l !! i = Some b -> ldb (stbytes m a l) (a + Z.of_nat i) = b.
Proof.
  revert m a i; induction l as [|c l IH]; intros m a i H; [done|].
  destruct i as [|i]; cbn [stbytes]; simpl in H.
  - injection H as <-. rewrite ldb_stbytes_ne by lia.
    rewrite ldb_insert, decide_True; [done|lia].
  - replace (a + Z.of_nat (S i)) with (a + 1 + Z.of_nat i) by lia. by apply IH.
Qed.

Lemma length_ldbytes m a n : length (ldbytes m a n) = n.
Proof. revert a; induction n; intros; simpl; auto. Qed.

Lemma lookup_ldbytes m a n i :
  (i < n)%nat -> ldbytes m a n !! i = Some (ldb m (a + Z.of_nat i)).
Proof.
  revert a i; induction n as [|n IH]; intros a i H; [lia|].
  destruct i as [|i]; cbn [ldbytes]; simpl.
  - do 2 f_equal. lia.
  - rewrite IH by lia. do 2 f_equal. lia.
Qed.

Lemma ldbytes_ext m m' a n :
  (forall x, a <= x < a + Z.of_nat n -> ldb m x = ldb m' x) ->
  ldbytes m a n = ldbytes m' a n.
Proof.
  intros H. apply list_eq; intros i.
  destruct (decide (i < n)%nat).
  - rewrite !lookup_ldbytes by done. f_equal. apply H. lia.
  - rewrite !lookup_ge_None_2 by (rewrite length_ldbytes; lia). done.
Qed.

Lemma ldbytes_stbytes_same m a l : ldbytes (stbytes m a l) a (length l) = l.
Proof.
  apply list_eq; intros i. destruct (l !! i) as [b|] eqn:E.
  - pose proof (lookup_lt_Some _ _ _ E).
    rewrite lookup_ldbytes by done. f_equal. by apply ldb_stbytes_in.
  - apply lookup_ge_None_2. rewrite length_ldbytes. by apply lookup_ge_None_1.
Qed.

Lemma ldbytes_stbytes_disjoint m a l x n :
  (x + Z.of_nat n <= a \/ a + Z.of_nat (length l) <= x) ->
  ldbytes (stbytes m a l) x n = ldbytes m x n.
Proof. intros H. apply ldbytes_ext. intros y Hy. apply ldb_stbytes_ne. lia. Qed.

Lemma ld64_st64_same m a v : ld64 (st64 m a v) a = u64 v.
Proof.
  unfold ld64, st64. change 8%nat with (length (le_enc 8 v)) at 2.
  by rewrite ldbytes_stbytes_same, le_dec_enc.
Qed.

Lemma ld64_stbytes_disjoint m a l x :
  (x + 8 <= a \/ a + Z.of_nat (length l) <= x) -> ld64 (stbytes m a l) x = ld64 m x.
Proof. intros. unfold ld64. rewrite ldbytes_stbytes_disjoint; [done|lia]. Qed.

Lemma ld64_st64_disjoint m a v x :
  (x + 8 <= a \/ a + 8 <= x) -> ld64 (st64 m a v) x = ld64 m x.
Proof. intros. apply ld64_stbytes_disjoint. rewrite length_le_enc. lia. Qed.

Lemma ld64_memset_disjoint m a v n x :
  0 <= n -> (x + 8 <= a \/ a + n <= x) -> ld64 (memset m a v n) x = ld64 m x.
Proof. intros. apply ld64_stbytes_disjoint. rewrite length_replicate. lia. Qed.

Lemma ldb_memset_in m a v n x :
  a <= x < a + n -> ldb (memset m a v n) x = u8 v.
Proof.
  intros H. replace x with (a + Z.of_nat (Z.to_nat (x - a))) by lia.
  apply ldb_stbytes_in. apply lookup_replicate. split; [done|lia].
Qed.

Lemma ld64_memset_zero m a n x :
  a <= x -> x + 8 <= a + n -> ld64 (memset m a 0 n) x = 0.
Proof.
  intros. unfold ld64. cbn [ldbytes].
  rewrite !ldb_memset_in by lia. reflexivity.
Qed.

Lemma stbytes_ok m a l : ram_ok m -> bytes_ok l -> ram_ok (stbytes m a l).
Proof.
  intros Hm Hl; revert m a Hm; induction Hl as [|b l Hb _ IH]; intros m a Hm; simpl; auto.
  apply IH. intros x c. rewrite lookup_insert. case_decide; [naive_solver|apply Hm].
Qed.

Lemma ldb_ok m a : ram_ok m -> byte_ok (ldb m a).
Proof.
  intros H. unfold ldb. destruct (m !! a) eqn:E; simpl; [eauto|].
  unfold byte_ok; lia.
Qed.

Lemma ldbytes_ok m a n : ram_ok m -> bytes_ok (ldbytes m a n).
Proof.
  intros H; revert a; induction n as [|n IH]; intros; simpl; constructor;
    [by apply ldb_ok|apply IH].
Qed.

Lemma ld64_range m a : ram_ok m -> 0 <= ld64 m a < 2 ^ 64.
Proof.
  intros H. pose proof (le_dec_bound _ (ldbytes_ok m a 8 H)) as B.
  rewrite length_ldbytes in B. exact B.
Qed.

Lemma st64_ok m a v : ram_ok m -> ram_ok (st64 m a v).
Proof. intros. apply stbytes_ok; [done|apply le_enc_ok]. Qed.

Lemma memset_ok m a v n : ram_ok m -> ram_ok (memset m a v n).
Proof.
  intros. apply stbytes_ok; [done|]. apply Forall_replicate. apply u8_range.
Qed.

Lemma memcpy_ok m d s n : ram_ok m -> ram_ok (memcpy m d s n).
Proof. intros. apply stbytes_ok; [done|by apply ldbytes_ok]. Qed.

#[export] Hint Resolve le_enc_ok splice_ok slice_ok stbytes_ok ldbytes_ok st64_ok
  memset_ok memcpy_ok : kern.
