(* ===== verification/Pages.v ===== *)
(** The physical page allocator: mm/memory.c.

    The page descriptors ([struct page]) form the array at [_phy_start]; a
    [struct page *] is modelled by its index in that array ([None] is NULL).
    [kmem] is the state the file keeps: the descriptor array, the global
    descriptor [gmd] and the RAM that [memset] clears.  Each operation is a
    critical section of [memory_lock] ([take_page], [put_page]) followed by a
    [memset] outside of it ([clear_page]); other harts come in between.

    The second half relates the pointer structure to an abstract FIFO queue
    of free frames plus the table of allocated frames. *)
From stdpp Require Import base gmap list.
From Stdlib Require Import ZArith Lia.
From S2P Require Import Prelude Bytes.
Open Scope Z_scope.

Definition PG_4K_SHIFT : Z := 12.
Definition PG_4K_SIZE : Z := 4096.
Definition MEMORY_START : Z := 0x80000000.
Definition PG_FLAG_FREE : Z := 0.
Definition PG_FLAG_RESERVED : Z := 1.
Definition PG_FLAG_USED : Z := 2.
Definition DMA_PAGE_COUNT : Z := 4096.

(** ** Data *)
Record page := mkPage {
  pg_paddr : Z;
  pg_refcount : Z;   (* int32_t *)
  pg_flags : Z;
  pg_slab : Z;       (* address of the owning slab_t, 0 when none *)
  pg_prev : option Z;
  pg_next : option Z }.

Record gmd_t := mkGmd {
  kernel_head : option Z;
  kernel_tail : option Z;
  fdt_head : option Z;
  fdt_tail : option Z;
  dma_head : option Z;
  dma_tail : option Z;
  dma_start_at : Z;
  dma_end_at : Z;
  free_head : option Z;
  free_tail : option Z;
  free_start_at : Z;
  free_end_at : Z;
  page_length : Z }.

Record kmem := mkKmem {
  km_pages : gmap Z page;
  km_gmd : gmd_t;
  km_ram : ram }.

(** Field updates. *)
Definition set_next (n : option Z) (p : page) : page :=
  mkPage (pg_paddr p) (pg_refcount p) (pg_flags p) (pg_slab p) (pg_prev p) n.
Definition set_prev (n : option Z) (p : page) : page :=
  mkPage (pg_paddr p) (pg_refcount p) (pg_flags p) (pg_slab p) n (pg_next p).
Definition set_flags (f : Z) (p : page) : page :=
  mkPage (pg_paddr p) (pg_refcount p) f (pg_slab p) (pg_prev p) (pg_next p).
Definition set_refcount (r : Z) (p : page) : page :=
  mkPage (pg_paddr p) r (pg_flags p) (pg_slab p) (pg_prev p) (pg_next p).
Definition set_pslab (v : Z) (p : page) : page :=
  mkPage (pg_paddr p) (pg_refcount p) (pg_flags p) v (pg_prev p) (pg_next p).
Definition set_free (h t : option Z) (g : gmd_t) : gmd_t :=
  mkGmd (kernel_head g) (kernel_tail g) (fdt_head g) (fdt_tail g) (dma_head g)
    (dma_tail g) (dma_start_at g) (dma_end_at g) h t (free_start_at g)
    (free_end_at g) (page_length g).
Definition set_gmd (g : gmd_t) (s : kmem) : kmem := mkKmem (km_pages s) g (km_ram s).
Definition set_ram (m : ram) (s : kmem) : kmem := mkKmem (km_pages s) (km_gmd s) m.
Definition set_page (i : Z) (p : page) (s : kmem) : kmem :=
  mkKmem (<[i := p]> (km_pages s)) (km_gmd s) (km_ram s).

(** ** Access paths *)
(** [PHY_TO_PAGE(phys)]: index of the descriptor of a physical address. *)
Definition PHY_TO_PAGE (phys : Z) : Z :=
  Z.shiftr (u64 (phys - MEMORY_START)) PG_4K_SHIFT.

(** [*p] and the read-modify-write of [*p] through a [struct page *]. *)
Definition deref (p : option Z) : M kmem page := fun s =>
  match p with
  | None => Fault
  | Some i => match km_pages s !! i with
              | None => Fault
              | Some pg => Ok (pg, s)
              end
  end.

Definition update (p : option Z) (f : page -> page) : M kmem unit :=
  let* pg := deref p in
  match p with
  | None => fault
  | Some i => modify (set_page i (f pg))
  end.

(** ** Operations *)

(** the critical section of [alloc_page]: pop the head of the free list *)
Definition take_page : M kmem (option Z) :=
  let* g := gets km_gmd in
  match free_head g with
  | None => mret None
  | Some i =>
      let* pg := deref (Some i) in
      let h := pg_next pg in
      modify (set_gmd (set_free h (match h with
                                   | None => None
                                   | Some _ => free_tail g
                                   end) g)) ;;;
      update (Some i) (fun p =>
        set_pslab 0 (set_refcount (s32 (pg_refcount p + 1))
          (set_flags PG_FLAG_USED (set_prev None (set_next None p))))) ;;;
      mret (Some (pg_paddr pg))
  end.

(** [memset((char* )pg->paddr, 0, PG_4K_SIZE)], after the lock is released *)
Definition clear_page (pa : Z) : M kmem unit :=
  modify (fun s => set_ram (memset (km_ram s) pa 0 PG_4K_SIZE) s).

(** [void *alloc_page()], 0 for NULL *)
Definition alloc_page : M kmem Z :=
  let* o := take_page in
  match o with
  | None => mret 0
  | Some pa => clear_page pa ;;; mret pa
  end.

(** [int free_page(void *pa)] up to the release: validate, drop one reference,
    and append the page to the free list when it was the last one; the result
    is the address that is cleared next *)
Definition put_page (pa : Z) : M kmem (option Z) :=
  if pa =? 0 then halt else
  let* g := gets km_gmd in
  if negb (Z.land pa (PG_4K_SIZE - 1) =? 0) || (pa <? free_start_at g)
     || (free_end_at g <? pa)
  then halt else
  let i := PHY_TO_PAGE pa in
  let* pg := deref (Some i) in
  if negb (Z.land (pg_flags pg) PG_FLAG_RESERVED =? 0) then halt else
  if Z.land (pg_flags pg) PG_FLAG_USED =? 0 then halt else
  let rc := if 0 <? pg_refcount pg then pg_refcount pg - 1 else pg_refcount pg in
  update (Some i) (set_refcount rc) ;;;
  if 0 <? rc then mret None else
  update (Some i) (fun p =>
    set_prev (free_tail g) (set_next None (set_flags PG_FLAG_FREE p))) ;;;
  (match free_tail g with
   | Some t => update (Some t) (set_next (Some i)) ;;;
               modify (set_gmd (set_free (free_head g) (Some i) g))
   | None => modify (set_gmd (set_free (Some i) (Some i) g))
   end) ;;;
  mret (Some (pg_paddr pg)).

Definition free_page (pa : Z) : M kmem Z :=
  let* o := put_page pa in
  match o with
  | None => mret 0
  | Some a => clear_page a ;;; mret 0
  end.

(** [kalloc]/[kfree]: the whole-page interface used by the rest of the kernel. *)
Definition kalloc : M kmem Z := alloc_page.
Definition kfree (pa : Z) : M kmem Z := free_page pa.

(** ** Abstract specification: a FIFO queue of frames and a table of
    allocated frames with their reference counts. *)
Record frames := mkFrames {
  fr_free : list Z;
  fr_used : gmap Z Z }.

Definition page_addr (i : Z) : Z := MEMORY_START + PG_4K_SIZE * i.

Definition spec_alloc (a : frames) : option Z * frames :=
  match fr_free a with
  | [] => (None, a)
  | i :: l => (Some i, mkFrames l (<[i := 1]> (fr_used a)))
  end.

(** Drop one reference to an allocated frame. *)
Definition spec_free (i rc : Z) (a : frames) : frames :=
  if 1 <? rc then mkFrames (fr_free a) (<[i := rc - 1]> (fr_used a))
  else mkFrames (fr_free a ++ [i]) (delete i (fr_used a)).

(** [lseg ps h l e]: following [next] from [h] visits exactly [l] and leaves
    at [e]. *)
Fixpoint lseg (ps : gmap Z page) (h : option Z) (l : list Z) (e : option Z) : Prop :=
  match l with
  | [] => h = e
  | i :: l' => h = Some i /\ exists p, ps !! i = Some p /\ lseg ps (pg_next p) l' e
  end.

Definition in_range (g : gmd_t) (i : Z) : Prop :=
  free_start_at g <= page_addr i <= free_end_at g.

Definition flags_ok (f : Z) : Prop :=
  f = PG_FLAG_FREE \/ f = PG_FLAG_RESERVED \/ f = PG_FLAG_USED.

Record repr (s : kmem) (a : frames) : Prop := {
  r_desc : forall i p, km_pages s !! i = Some p ->
    0 <= i < 2 ^ 49 /\ pg_paddr p = page_addr i /\ flags_ok (pg_flags p);
  r_bounds : MEMORY_START <= free_start_at (km_gmd s) /\ free_end_at (km_gmd s) < 2 ^ 62;
  r_list : lseg (km_pages s) (free_head (km_gmd s)) (fr_free a) None;
  r_tail : free_tail (km_gmd s) = last (fr_free a);
  r_nodup : NoDup (fr_free a);
  r_free : forall i, i ∈ fr_free a -> exists p, km_pages s !! i = Some p /\
    pg_flags p = PG_FLAG_FREE /\ pg_refcount p = 0 /\ in_range (km_gmd s) i;
  r_used : forall i rc, fr_used a !! i = Some rc -> exists p, km_pages s !! i = Some p /\
    pg_flags p = PG_FLAG_USED /\ pg_refcount p = rc /\ 1 <= rc < 2 ^ 31 /\
    in_range (km_gmd s) i;
  r_used_conv : forall i p, km_pages s !! i = Some p -> pg_flags p = PG_FLAG_USED ->
    is_Some (fr_used a !! i) }.

(** The page allocator's invariant does not look at the RAM. *)
Lemma repr_set_ram m k fr : repr k fr -> repr (set_ram m k) fr.
Proof. intros []. by split. Qed.

(** ** Linked-segment lemmas *)
Lemma lseg_app ps h l1 l2 e :
  lseg ps h (l1 ++ l2) e <-> exists m, lseg ps h l1 m /\ lseg ps m l2 e.
Proof.
  revert h; induction l1 as [|i l1 IH]; intros h; simpl.
  - naive_solver.
  - setoid_rewrite IH. naive_solver.
Qed.

Lemma lseg_ext ps ps' h l e :
  (forall i, i ∈ l -> pg_next <$> ps' !! i = pg_next <$> ps !! i) ->
  lseg ps h l e -> lseg ps' h l e.
Proof.
  revert h; induction l as [|i l IH]; intros h Hx; simpl; [done|].
  intros (-> & p & Hp & Hl). split; [done|].
  pose proof (Hx i ltac:(left)) as E. rewrite Hp in E. simpl in E.
  destruct (ps' !! i) as [p'|]; [|done]. injection E as E.
  exists p'. split; [done|]. rewrite E. apply IH; [|done].
  intros j Hj. apply Hx. by right.
Qed.

(** Appending [i] after the last node [t]: [t] now points to [i], which ends
    the list; every other node keeps its [next]. *)
Lemma lseg_snoc ps ps' h l t i e p :
  lseg ps h l e -> NoDup l -> last l = Some t ->
  ps' !! i = Some p -> pg_next p = None ->
  pg_next <$> ps' !! t = Some (Some i) ->
  (forall j, j ∈ l -> j <> t -> pg_next <$> ps' !! j = pg_next <$> ps !! j) ->
  lseg ps' h (l ++ [i]) None.
Proof.
  intros Hl Hnd Hlast Hi Hni Ht Hx.
  apply last_Some in Hlast as [l' ->].
  apply NoDup_app in Hnd as (_ & Hdisj & _).
  apply lseg_app in Hl as (m & H1 & H2).
  apply lseg_app. exists (Some i). split.
  - apply lseg_app. exists m. split.
    + apply (lseg_ext ps); [|done]. intros j Hj. apply Hx.
      * apply elem_of_app. by left.
      * intros ->. eapply Hdisj; [done|]. by left.
    + simpl in H2 |- *. destruct H2 as (-> & q & Hq & _). split; [done|].
      destruct (ps' !! t) as [q'|]; [|done]. exists q'. split; [done|].
      simpl in Ht. by injection Ht.
  - simpl. eauto.
Qed.

Lemma lseg_last_mem ps h l e t : lseg ps h l e -> last l = Some t -> t ∈ l.
Proof. intros _ H. apply last_Some in H as [l' ->]. apply elem_of_app. right. by left. Qed.

(** ** Symbolic execution of the operations *)
Definition taken (p : page) : page :=
  mkPage (pg_paddr p) (s32 (pg_refcount p + 1)) PG_FLAG_USED 0 None None.

Lemma alloc_page_empty s :
  free_head (km_gmd s) = None -> alloc_page s = Ok (0, s).
Proof. intros H. unfold alloc_page, take_page, mbind'. simpl. by rewrite H. Qed.

Lemma alloc_page_cons s i p :
  free_head (km_gmd s) = Some i -> km_pages s !! i = Some p ->
  alloc_page s = Ok (pg_paddr p,
    mkKmem (<[i := taken p]> (km_pages s))
      (set_free (pg_next p) (match pg_next p with None => None
                             | Some _ => free_tail (km_gmd s) end) (km_gmd s))
      (memset (km_ram s) (pg_paddr p) 0 PG_4K_SIZE)).
Proof.
  intros H Hp. unfold alloc_page, take_page, update, deref, mbind'. simpl. rewrite H. simpl.
  rewrite Hp. simpl. rewrite Hp. simpl. done.
Qed.

Lemma page_addr_index i :
  0 <= i < 2 ^ 49 -> PHY_TO_PAGE (page_addr i) = i.
Proof.
  intros H. unfold PHY_TO_PAGE, page_addr, PG_4K_SIZE, PG_4K_SHIFT.
  rewrite Z.shiftr_div_pow2 by lia. rewrite u64_small by lia.
  replace (MEMORY_START + 4096 * i - MEMORY_START) with (i * 4096) by lia.
  apply Z.div_mul. lia.
Qed.

Lemma page_addr_inj i j : page_addr i = page_addr j -> i = j.
Proof. unfold page_addr, PG_4K_SIZE. lia. Qed.

Lemma page_addr_aligned i : Z.land (page_addr i) (PG_4K_SIZE - 1) = 0.
Proof.
  change (PG_4K_SIZE - 1) with (Z.ones 12). rewrite Z.land_ones by lia.
  unfold page_addr, PG_4K_SIZE, MEMORY_START. change (2 ^ 12) with 4096.
  rewrite Z.mul_comm, Z.mod_add by lia. reflexivity.
Qed.

(** The checks of [free_page] in the order of the code. *)
Definition bad_addr (s : kmem) (pa : Z) : bool :=
  (pa =? 0) || negb (Z.land pa (PG_4K_SIZE - 1) =? 0)
  || (pa <? free_start_at (km_gmd s)) || (free_end_at (km_gmd s) <? pa).

Lemma free_page_bad s pa : bad_addr s pa = true -> free_page pa s = Halt.
Proof.
  unfold bad_addr, free_page, put_page, mbind'. intros H. destruct (pa =? 0); [done|]. simpl in *.
  by rewrite H.
Qed.

Lemma free_page_unused s pa p :
  km_pages s !! PHY_TO_PAGE pa = Some p ->
  Z.land (pg_flags p) PG_FLAG_RESERVED <> 0 \/ Z.land (pg_flags p) PG_FLAG_USED = 0 ->
  free_page pa s = Halt.
Proof.
  intros Hp Hf. destruct (bad_addr s pa) eqn:B; [by apply free_page_bad|].
  unfold bad_addr in B. unfold free_page, put_page, mbind'.
  destruct (pa =? 0); [done|]. simpl in *. rewrite B. simpl. rewrite Hp. simpl.
  destruct (Z.land (pg_flags p) PG_FLAG_RESERVED =? 0) eqn:E; [|done]. simpl.
  apply Z.eqb_eq in E. destruct Hf as [Hf|Hf]; [congruence|].
  by rewrite Hf.
Qed.

Lemma free_page_shared s pa p :
  bad_addr s pa = false -> km_pages s !! PHY_TO_PAGE pa = Some p ->
  pg_flags p = PG_FLAG_USED -> 1 < pg_refcount p ->
  free_page pa s = Ok (0, set_page (PHY_TO_PAGE pa)
                            (set_refcount (pg_refcount p - 1) p) s).
Proof.
  intros B Hp Hf Hr. unfold bad_addr in B. unfold free_page, put_page, update, deref, mbind'.
  destruct (pa =? 0); [done|]. simpl in *. rewrite B. simpl. rewrite Hp. simpl.
  rewrite Hf. simpl. rewrite Hp. simpl.
  rewrite (proj2 (Z.ltb_lt 0 (pg_refcount p))) by lia.
  by rewrite (proj2 (Z.ltb_lt 0 (pg_refcount p - 1))) by lia.
Qed.

Lemma set_page_twice i p q s : set_page i p (set_page i q s) = set_page i p s.
Proof. unfold set_page. simpl. by rewrite insert_insert_eq. Qed.

Definition returned (t : option Z) (p : page) : page :=
  mkPage (pg_paddr p) 0 PG_FLAG_FREE (pg_slab p) t None.

Definition push_back (i : Z) (p : page) (s : kmem) : gmap Z page :=
  let ps := <[i := returned (free_tail (km_gmd s)) p]> (km_pages s) in
  match free_tail (km_gmd s) with
  | None => ps
  | Some t => alter (set_next (Some i)) t ps
  end.

Lemma free_page_last s pa p :
  bad_addr s pa = false -> km_pages s !! PHY_TO_PAGE pa = Some p ->
  pg_flags p = PG_FLAG_USED -> pg_refcount p = 1 ->
  (forall t, free_tail (km_gmd s) = Some t -> is_Some (km_pages s !! t)) ->
  free_page pa s = Ok (0,
    mkKmem (push_back (PHY_TO_PAGE pa) p s)
      (set_free (match free_tail (km_gmd s) with None => Some (PHY_TO_PAGE pa)
                 | Some _ => free_head (km_gmd s) end)
         (Some (PHY_TO_PAGE pa)) (km_gmd s))
      (memset (km_ram s) (pg_paddr p) 0 PG_4K_SIZE)).
Proof.
  intros B Hp Hf Hr Ht. unfold bad_addr in B.
  unfold free_page, put_page, clear_page, update, deref, push_back, mbind'.
  destruct (pa =? 0); [done|]. simpl in *. rewrite B. simpl. rewrite Hp. simpl.
  rewrite Hf, Hr. simpl. rewrite Hp. simpl. rewrite lookup_insert_eq. simpl.
  rewrite set_page_twice. change (1 - 1) with 0. fold (returned (free_tail (km_gmd s)) p).
  destruct (free_tail (km_gmd s)) as [t|]; simpl; [|done].
  destruct (Ht t eq_refl) as [q Hq].
  change (set_prev (Some t) _) with (returned (Some t) p).
  assert (exists q', (<[PHY_TO_PAGE pa := returned (Some t) p]> (km_pages s)) !! t
                     = Some q') as [q' Hq'].
  { rewrite lookup_insert. case_decide; eauto. }
  rewrite Hq'. simpl. unfold set_page, set_ram, set_gmd. simpl. do 3 f_equal.
  apply map_eq. intros j. rewrite lookup_alter, lookup_insert.
  destruct (decide (t = j)) as [->|]; [|done]. by rewrite Hq'.
Qed.

(** ** Refinement *)
Definition zeroed (m : ram) (a : Z) : Prop :=
  forall x, a <= x < a + PG_4K_SIZE -> ldb m x = 0.


Lemma repr_alloc s i l u p :
  repr s (mkFrames (i :: l) u) -> km_pages s !! i = Some p ->
  repr (mkKmem (<[i := taken p]> (km_pages s))
      (set_free (pg_next p) (match pg_next p with None => None
                             | Some _ => free_tail (km_gmd s) end) (km_gmd s))
      (memset (km_ram s) (pg_paddr p) 0 PG_4K_SIZE))
    (mkFrames l (<[i := 1]> u)).
Proof.
  intros [Hd Hbd Hl Ht Hnd Hf Hu Huc] Hp. simpl in *.
  apply NoDup_cons in Hnd as [Hi Hnd].
  destruct Hl as (_ & q & Hq & Hl). rewrite Hp in Hq. injection Hq as <-.
  destruct (Hf i ltac:(left)) as (q & Hq & Hqf & Hqr & Hri).
  rewrite Hp in Hq. injection Hq as <-.
  split; simpl.
  - intros j q. rewrite lookup_insert. case_decide; [|eauto].
    intros [= <-]. subst. simpl. destruct (Hd _ _ Hp) as (? & ? & ?).
    unfold flags_ok; auto.
  - done.
  - apply (lseg_ext (km_pages s)); [|done]. intros j Hj.
    rewrite lookup_insert_ne; [done|]. by intros ->.
  - rewrite Ht. destruct l as [|j l]; simpl in Hl.
    + by rewrite Hl.
    + destruct Hl as [-> _]. done.
  - done.
  - intros j Hj. rewrite lookup_insert_ne by (by intros ->). apply Hf. by right.
  - intros j rc. rewrite !lookup_insert. case_decide as E; [|eauto].
    intros [= <-]. subst. exists (taken p). split; [done|].
    unfold taken; simpl. rewrite Hqr. split_and!; try done; lia.
  - intros j q. rewrite !lookup_insert. case_decide; eauto.
Qed.

(** alloc_page refines the abstract pop: on the empty queue it returns NULL
    and changes nothing, otherwise it hands out the oldest free frame, zeroed,
    and records it as allocated. *)
Lemma alloc_page_spec s a :
  repr s a ->
  match spec_alloc a with
  | (None, _) => alloc_page s = Ok (0, s)
  | (Some i, a') => exists s', alloc_page s = Ok (page_addr i, s') /\ repr s' a' /\
      km_ram s' = memset (km_ram s) (page_addr i) 0 PG_4K_SIZE
  end.
Proof.
  destruct a as [[|i l] u]; intros R; simpl.
  - apply alloc_page_empty. by apply (r_list _ _ R).
  - destruct (r_list _ _ R) as (Hh & p & Hp & _).
    rewrite (alloc_page_cons s i p Hh Hp).
    destruct (r_desc _ _ R i p Hp) as (_ & -> & _).
    eexists. split; [done|]. split; [|done].
    replace (page_addr i) with (pg_paddr p) by apply (r_desc _ _ R i p Hp).
    by apply repr_alloc.
Qed.

Lemma repr_not_bad s a i :
  repr s a -> in_range (km_gmd s) i -> bad_addr s (page_addr i) = false.
Proof.
  intros R Hr. unfold bad_addr, in_range in *. rewrite page_addr_aligned.
  pose proof (r_bounds _ _ R). unfold MEMORY_START in *.
  rewrite (proj2 (Z.eqb_neq _ _)) by lia.
  rewrite (proj2 (Z.ltb_ge _ _)) by lia. by rewrite (proj2 (Z.ltb_ge _ _)) by lia.
Qed.

Lemma used_not_free s a i rc :
  repr s a -> fr_used a !! i = Some rc -> i ∉ fr_free a.
Proof.
  intros R Hu Hi. destruct (r_used _ _ R _ _ Hu) as (p & Hp & Hf & _).
  destruct (r_free _ _ R _ Hi) as (q & Hq & Hf' & _). rewrite Hp in Hq.
  injection Hq as <-. rewrite Hf in Hf'. discriminate.
Qed.

Lemma repr_shared s a i rc p :
  repr s a -> fr_used a !! i = Some rc -> 1 < rc -> km_pages s !! i = Some p ->
  repr (set_page i (set_refcount (rc - 1) p) s)
       (mkFrames (fr_free a) (<[i := rc - 1]> (fr_used a))).
Proof.
  intros R Hu Hrc Hp. pose proof (used_not_free _ _ _ _ R Hu) as Hni.
  destruct (r_used _ _ R _ _ Hu) as (q & Hq & Hfl & Hr & Hb & Hrg).
  rewrite Hp in Hq. injection Hq as <-.
  destruct R as [Hd Hbd Hl Ht Hnd Hf Hu' Huc]. split; simpl.
  - intros j q. rewrite lookup_insert. case_decide; [|eauto].
    intros [= <-]. subst. simpl. eauto.
  - done.
  - apply (lseg_ext (km_pages s)); [|done]. intros j Hj.
    rewrite lookup_insert_ne; [done|]. by intros ->.
  - done.
  - done.
  - intros j Hj. rewrite lookup_insert_ne by (by intros ->). by apply Hf.
  - intros j rc'. rewrite !lookup_insert. case_decide as E; [|eauto].
    intros [= <-]. subst. eexists. split; [done|]. simpl. split_and!; try done; lia.
  - intros j q. rewrite !lookup_insert. case_decide; eauto.
Qed.

Lemma push_back_lookup i p s j :
  (forall t, free_tail (km_gmd s) = Some t -> t <> i) ->
  push_back i p s !! j =
    if decide (i = j) then Some (returned (free_tail (km_gmd s)) p)
    else if decide (free_tail (km_gmd s) = Some j)
         then set_next (Some i) <$> km_pages s !! j
         else km_pages s !! j.
Proof.
  intros Hne. unfold push_back. destruct (free_tail (km_gmd s)) as [t|].
  - specialize (Hne t eq_refl). rewrite lookup_alter.
    destruct (decide (t = j)) as [->|Hj].
    + rewrite lookup_insert_ne by done. rewrite decide_False by done.
      by rewrite decide_True.
    + rewrite lookup_insert. case_decide; [done|].
      rewrite decide_False by naive_solver. done.
  - rewrite lookup_insert. case_decide; [done|]. by rewrite decide_False.
Qed.

Lemma set_next_flags n p : pg_flags (set_next n p) = pg_flags p.
Proof. done. Qed.

Lemma repr_last s a i p :
  repr s a -> fr_used a !! i = Some 1 -> km_pages s !! i = Some p ->
  repr (mkKmem (push_back i p s)
      (set_free (match free_tail (km_gmd s) with None => Some i
                 | Some _ => free_head (km_gmd s) end) (Some i) (km_gmd s))
      (memset (km_ram s) (pg_paddr p) 0 PG_4K_SIZE))
    (mkFrames (fr_free a ++ [i]) (delete i (fr_used a))).
Proof.
  intros R Hu Hp. pose proof (used_not_free _ _ _ _ R Hu) as Hni.
  destruct (r_used _ _ R _ _ Hu) as (q & Hq & Hfl & Hr & Hb & Hrg).
  rewrite Hp in Hq. injection Hq as <-.
  assert (Hne : forall t, free_tail (km_gmd s) = Some t -> t <> i).
  { intros t Ht ->. rewrite (r_tail _ _ R) in Ht. apply Hni.
    eapply lseg_last_mem; [apply (r_list _ _ R)|done]. }
  pose proof (fun j => push_back_lookup i p s j Hne) as Hlk.
  destruct R as [Hd Hbd Hl Ht Hnd Hf Hu' Huc]. split; simpl.
  - intros j q. rewrite Hlk. repeat case_decide.
    + intros [= <-]. subst. simpl. destruct (Hd _ _ Hp) as (? & ? & ?).
      unfold flags_ok; auto.
    + destruct (km_pages s !! j) as [r|] eqn:Hr'; [|done]. intros [= <-].
      simpl. apply (Hd _ _ Hr').
    + apply Hd.
  - done.
  - destruct (fr_free a) as [|h l] eqn:El.
    + rewrite Ht. simpl. split; [done|]. eexists. rewrite Hlk, decide_True by done.
      split; done.
    + assert (exists t, last (h :: l) = Some t) as [t Hlast].
      { rewrite <- (not_eq_None_Some (last (h :: l))). intros E.
        by apply last_None in E. }
      rewrite Ht, Hlast.
      apply (lseg_snoc (km_pages s) _ _ _ t i None
               (returned (free_tail (km_gmd s)) p)); try done.
      * rewrite Hlk. by rewrite decide_True.
      * rewrite Hlk, decide_False by (intros <-; eapply Hne; [|done]; congruence).
        rewrite decide_True by congruence.
        destruct (Hf t) as (q & -> & _); [|done].
        eapply (lseg_last_mem _ _ _ _ _ Hl); congruence.
      * intros j Hj Hjt. rewrite Hlk.
        rewrite decide_False by (by intros ->).
        rewrite decide_False; [done|]. rewrite Ht, Hlast. congruence.
  - by rewrite last_snoc.
  - apply NoDup_app. split; [done|]. split; [|apply NoDup_singleton].
    intros j Hj ->%list_elem_of_singleton. done.
  - intros j [Hj|Hj%list_elem_of_singleton]%elem_of_app.
    + destruct (Hf j Hj) as (q & Hq & ? & ? & ?). rewrite Hlk.
      rewrite decide_False by (by intros ->). rewrite Hq. simpl.
      case_decide; eexists; split_and!; try done.
    + subst. rewrite Hlk, decide_True by done. eexists. by split_and!.
  - intros j rc. rewrite lookup_delete. case_decide; [done|]. intros Hj.
    destruct (Hu' j rc Hj) as (q & Hq & Hq'). rewrite Hlk.
    rewrite decide_False by done. rewrite Hq. simpl.
    case_decide; eexists; (split; [done|exact Hq']).
  - intros j q. rewrite Hlk, lookup_delete. case_decide; [by intros [= <-]|].
    case_decide; [|apply Huc].
    destruct (km_pages s !! j) as [r|] eqn:Hr'; [|done]. intros [= <-].
    rewrite set_next_flags. eauto.
Qed.

Lemma free_page_spec s a i rc :
  repr s a -> fr_used a !! i = Some rc ->
  exists s', free_page (page_addr i) s = Ok (0, s') /\ repr s' (spec_free i rc a).
Proof.
  intros R Hu. destruct (r_used _ _ R _ _ Hu) as (p & Hp & Hfl & Hr & Hb & Hrg).
  pose proof (repr_not_bad _ _ _ R Hrg) as Hok.
  pose proof (page_addr_index i ltac:(apply (r_desc _ _ R _ _ Hp))) as Hix.
  unfold spec_free. destruct (1 <? rc) eqn:E; breflect.
  - rewrite (free_page_shared s _ p); rewrite ?Hix; [|done..|lia].
    eexists. split; [done|]. rewrite Hr. by apply repr_shared.
  - assert (rc = 1) as -> by lia.
    rewrite (free_page_last s _ p); rewrite ?Hix; [|done..|].
    + eexists. split; [done|]. by apply repr_last.
    + intros t Ht. rewrite (r_tail _ _ R) in Ht.
      destruct (r_free _ _ R t) as (q & -> & _); [|done].
      eapply lseg_last_mem; [apply (r_list _ _ R)|done].
Qed.

(** the critical sections of the calls *)
Lemma alloc_page_take s pa s' : alloc_page s = Ok (pa, s') ->
  exists o m, take_page s = Ok (o, set_ram m s') /\ pa = default 0 o.
Proof.
  unfold alloc_page, mbind'. destruct (take_page s) as [[[a|] s1]| | |]; [| |done..]; intros [= <- <-].
  - exists (Some a), (km_ram s1). split; [by destruct s1|done].
  - exists None, (km_ram s1). split; [by destruct s1|done].
Qed.
Lemma free_page_put pa s r s' : free_page pa s = Ok (r, s') -> exists o m, put_page pa s = Ok (o, set_ram m s') /\ r = 0.
Proof.
  unfold free_page, mbind'. destruct (put_page pa s) as [[[a|] s1]| | |]; [| |done..]; intros [= <- <-].
  - exists (Some a), (km_ram s1). split; [by destruct s1|done].
  - exists None, (km_ram s1). split; [by destruct s1|done].
Qed.

(** ** Calls of several harts

    The order in which the harts get [memory_lock], with the [memset]s outside
    of it wherever they fall. *)
Inductive page_op :=
| OpAlloc          (** the critical section of [alloc_page] *)
| OpFree (i : Z)   (** the critical section of [free_page] *)
| OpClear (pa : Z) (** the [memset] of a call that has left its critical section *).

Definition exec_op (o : page_op) : M kmem Z :=
  match o with
  | OpAlloc => let* p := take_page in mret (default 0 p)
  | OpFree i => put_page (page_addr i) ;;; mret 0
  | OpClear pa => clear_page pa ;;; mret 0
  end.

Fixpoint exec_ops (ops : list page_op) : M kmem (list Z) :=
  match ops with
  | [] => mret []
  | o :: ops' => let* r := exec_op o in let* rs := exec_ops ops' in mret (r :: rs)
  end.

(** [None]: the client released a frame it does not hold. *)
Definition spec_op (o : page_op) (a : frames) : option (Z * frames) :=
  match o with
  | OpAlloc => let '(r, a') := spec_alloc a in
               Some (from_option page_addr 0 r, a')
  | OpFree i => rc ← fr_used a !! i; Some (0, spec_free i rc a)
  | OpClear _ => Some (0, a)
  end.

Fixpoint spec_ops (ops : list page_op) (a : frames) : option (list Z * frames) :=
  match ops with
  | [] => Some ([], a)
  | o :: ops' => '(r, a') ← spec_op o a; '(rs, a'') ← spec_ops ops' a';
                 Some (r :: rs, a'')
  end.

Lemma exec_op_refines o s a r a' :
  repr s a -> spec_op o a = Some (r, a') ->
  exists s', exec_op o s = Ok (r, s') /\ repr s' a'.
Proof.
  intros R H. destruct o as [|i|pa]; simpl in *; unfold mbind'.
  - pose proof (alloc_page_spec s a R) as A.
    destruct (spec_alloc a) as [[i|] b] eqn:E; injection H as <- <-; simpl.
    + destruct A as (s' & (o & m & -> & Eo)%alloc_page_take & R' & _).
      exists (set_ram m s'). split; [cbn; by rewrite <- Eo|by apply repr_set_ram].
    + apply alloc_page_take in A as (o & m & -> & Eo). exists (set_ram m s). split; [by rewrite <- Eo|].
      unfold spec_alloc in E. destruct (fr_free a); [|done]. injection E as <-. by apply repr_set_ram.
  - destruct (fr_used a !! i) as [rc|] eqn:E; [|done]. simpl in H. injection H as <- <-.
    destruct (free_page_spec s a i rc R E) as (s' & (o & m & -> & _)%free_page_put & R').
    exists (set_ram m s'). split; [done|by apply repr_set_ram].
  - injection H as <- <-. eexists. split; [done|by apply repr_set_ram].
Qed.

(** The address of an allocated frame passes every check; no other address does. *)
Lemma free_page_ok_inv s a pa r :
  repr s a -> free_page pa s = Ok r ->
  exists i rc, pa = page_addr i /\ fr_used a !! i = Some rc.
Proof.
  intros R H. destruct (bad_addr s pa) eqn:B; [by rewrite free_page_bad in H|].
  destruct (km_pages s !! PHY_TO_PAGE pa) as [p|] eqn:Hp.
  2: { exfalso. revert H. unfold bad_addr in B. unfold free_page, put_page, deref, mbind'.
       destruct (pa =? 0); [done|]. simpl in *. rewrite B. simpl. by rewrite Hp. }
  assert (pg_flags p = PG_FLAG_USED) as Hf.
  { destruct (r_desc _ _ R _ _ Hp) as (_ & _ & [Hf|[Hf|Hf]]); [| |done];
      rewrite (free_page_unused s pa p) in H; rewrite ?Hf; auto; try done; by left. }
  destruct (r_used_conv _ _ R _ _ Hp Hf) as [rc Hrc].
  exists (PHY_TO_PAGE pa), rc. split; [|done].
  unfold bad_addr in B. breflect. pose proof (r_bounds _ _ R) as [B1 B2].
  change (PG_4K_SIZE - 1) with (Z.ones 12) in *. rewrite Z.land_ones in * by lia.
  unfold page_addr, PHY_TO_PAGE, PG_4K_SIZE, PG_4K_SHIFT, MEMORY_START in *.
  rewrite u64_small by lia. rewrite Z.shiftr_div_pow2 by lia.
  change (2 ^ 12) with 4096 in *. Z.div_mod_to_equations. lia.
Qed.

(** ** Theorems *)

(** [C1] Any interleaving of the critical sections of [alloc_page] and
    [free_page] on any number of harts, and of the [memset]s that the calls do
    after they have released [memory_lock], in which clients release only frames
    they hold, runs to completion on the linked descriptors, never panics or
    faults, returns exactly the addresses that a FIFO queue of free frames
    returns (a released frame goes to the tail, unlike what
    [test_page_alloc_free] of test/mem_test.c expects), and ends in a state that
    represents the specification's.  What the frames contain is not part of it:
    [free_clears_late] is an interleaving in which [free_page] clears a frame
    that has been handed out again. *)
Theorem page_ops_refine s a ops rs a' :
  repr s a -> spec_ops ops a = Some (rs, a') ->
  exists s', exec_ops ops s = Ok (rs, s') /\ repr s' a'.
Proof.
  revert s a rs; induction ops as [|o ops IH]; intros s a rs R H; simpl in *.
  - injection H as <- <-. eauto.
  - destruct (spec_op o a) as [[r b]|] eqn:E; [|done]. simpl in H.
    destruct (spec_ops ops b) as [[rs' c]|] eqn:E'; [|done].
    simpl in H. injection H as <- <-.
    destruct (exec_op_refines _ _ _ _ _ R E) as (s1 & -> & R1).
    destruct (IH _ _ _ R1 E') as (s2 & -> & R2). eauto.
Qed.

(** What [alloc_page] hands out: NULL exactly when no frame is free and
    then nothing changed; otherwise a page-aligned frame of the managed range
    that nobody holds, filled with zeros, and no byte outside it changed. *)
Theorem alloc_page_safe s a pa s' :
  repr s a -> alloc_page s = Ok (pa, s') ->
  (pa = 0 /\ s' = s /\ fr_free a = []) \/
  (exists i, pa = page_addr i /\ i ∈ fr_free a /\ fr_used a !! i = None /\
     Z.land pa (PG_4K_SIZE - 1) = 0 /\ in_range (km_gmd s) i /\
     zeroed (km_ram s') pa /\
     (forall x, x < pa \/ pa + PG_4K_SIZE <= x -> ldb (km_ram s') x = ldb (km_ram s) x)).
Proof.
  intros R H. pose proof (alloc_page_spec s a R) as A. unfold spec_alloc in A.
  destruct (fr_free a) as [|i l] eqn:E.
  - left. rewrite A in H. by inv_ok.
  - right. destruct A as (s1 & A & _ & Hram). rewrite A in H. inv_ok.
    exists i. assert (i ∈ fr_free a) as Hi by (rewrite E; left).
    destruct (r_free _ _ R i Hi) as (p & _ & _ & _ & Hr).
    split; [reflexivity|]. split; [by rewrite <- E|]. split.
    { destruct (fr_used a !! i) eqn:Hu; [|done].
      by destruct (used_not_free _ _ _ _ R Hu). }
    split; [apply page_addr_aligned|]. split; [exact Hr|]. split.
    + intros x Hx. rewrite Hram. by rewrite ldb_memset_in.
    + intros x Hx. rewrite Hram. unfold memset. rewrite ldb_stbytes_ne; [done|].
      rewrite length_replicate. unfold PG_4K_SIZE in *. lia.
Qed.

(** [free_page] succeeds exactly on the addresses of frames that are
    allocated: NULL, misaligned, out-of-range, reserved and already free
    pages (double frees) never return. *)
Theorem free_page_accepts s a pa :
  repr s a ->
  ((exists r, free_page pa s = Ok r) <->
   exists i rc, pa = page_addr i /\ fr_used a !! i = Some rc).
Proof.
  intros R. split.
  - intros [r H]. by eapply free_page_ok_inv.
  - intros (i & rc & -> & H). destruct (free_page_spec _ _ _ _ R H) as (s' & ? & _). eauto.
Qed.

(** A two-frame machine on which the theorems are instantiated. *)
Definition demo_gmd : gmd_t :=
  mkGmd None None None None None None 0 0 (Some 0) (Some 1) (page_addr 0) (page_addr 1) 2.
Definition demo_kmem : kmem :=
  mkKmem {[ 0 := mkPage (page_addr 0) 0 0 0 None (Some 1);
            1 := mkPage (page_addr 1) 0 0 0 (Some 0) None ]} demo_gmd ∅.
Definition demo_frames : frames := mkFrames [0; 1] ∅.

Lemma demo_repr : repr demo_kmem demo_frames.
Proof.
  split; simpl.
  - intros i p [[<- <-]|[_ [<- <-]%lookup_singleton_Some]]%lookup_insert_Some; simpl;
      (split; [lia|]); split; unfold flags_ok; auto.
  - unfold page_addr, MEMORY_START, PG_4K_SIZE. lia.
  - split; [done|]. eexists. split; [done|]. split; [done|]. eexists. by split.
  - done.
  - apply (bool_decide_unpack _). vm_compute. exact I.
  - intros i Hi. repeat (apply elem_of_cons in Hi as [->|Hi]); [..|by apply not_elem_of_nil in Hi];
      (eexists; split; [done|]); (split; [done|]); (split; [done|]);
      unfold in_range, demo_gmd, page_addr, MEMORY_START, PG_4K_SIZE; simpl; lia.
  - intros i rc Hi. by rewrite lookup_empty in Hi.
  - by intros i p [[<- <-]|[_ [<- <-]%lookup_singleton_Some]]%lookup_insert_Some.
Qed.

Lemma page_ops_refine_witness :
  exists s', exec_ops [OpAlloc; OpAlloc; OpClear (page_addr 1); OpAlloc; OpFree 0; OpAlloc; OpClear (page_addr 0)] demo_kmem
             = Ok ([page_addr 0; page_addr 1; 0; 0; 0; page_addr 0; 0], s') /\
             repr s' (mkFrames [] (<[0 := 1]> (delete 0 (<[1 := 1]> (<[0 := 1]> ∅))))).
Proof. apply (page_ops_refine demo_kmem demo_frames); [apply demo_repr|reflexivity]. Defined.

(** One hart releases frame 0 and is delayed before its [memset]; another gets
    the frame, which [alloc_page] clears, and stores 7 in it; the first hart goes
    on, and the 7 is gone. *)
Definition late_clear : M kmem (Z * Z * Z) :=
  let* _ := take_page in
  let* _ := take_page in
  let* late := put_page (page_addr 0) in
  let* got := alloc_page in
  modify (fun s => set_ram (stbytes (km_ram s) got [7]) s) ;;;
  let* before := gets (fun s => ldb (km_ram s) got) in
  clear_page (default 0 late) ;;;
  let* after := gets (fun s => ldb (km_ram s) got) in
  mret (got, before, after).
Example free_clears_late :
  match late_clear demo_kmem with Ok (r, _) => r | _ => (0, 0, 0) end = (page_addr 0, 7, 0).
Proof. vm_compute. reflexivity. Qed.

Lemma alloc_page_safe_witness :
  exists pa s', alloc_page demo_kmem = Ok (pa, s') /\
  ((pa = 0 /\ s' = demo_kmem /\ fr_free demo_frames = []) \/
  (exists i, pa = page_addr i /\ i ∈ fr_free demo_frames /\ fr_used demo_frames !! i = None /\
     Z.land pa (PG_4K_SIZE - 1) = 0 /\ in_range (km_gmd demo_kmem) i /\
     zeroed (km_ram s') pa /\
     (forall x, x < pa \/ pa + PG_4K_SIZE <= x ->
        ldb (km_ram s') x = ldb (km_ram demo_kmem) x))).
Proof.
  eexists _, _. split; [apply (alloc_page_cons demo_kmem 0); reflexivity|].
  eapply alloc_page_safe; [apply demo_repr|].
  apply (alloc_page_cons demo_kmem 0); reflexivity.
Defined.

Lemma free_page_accepts_witness :
  (exists r, free_page (page_addr 0) demo_kmem = Ok r) <->
  exists i rc, page_addr 0 = page_addr i /\ fr_used demo_frames !! i = Some rc.
Proof. apply (free_page_accepts demo_kmem demo_frames). apply demo_repr. Defined.
