(* ===== verification/PageInit.v ===== *)
(** Boot-time construction of the page lists: [init_memory] of mm/memory.c.

    The memory banks come from the device tree (argument [bt_banks]), the
    descriptor array starts at the linker symbol [_phy_start], and the
    flattened device tree occupies [bt_fdt_size] bytes at [bt_fdt_base].  The
    main result is that on a single bank the descriptors built here satisfy
    the representation invariant of Pages.v, with an explicit free list. *)
From stdpp Require Import base gmap list.
From Stdlib Require Import ZArith Lia.
From S2P Require Import Prelude Bytes Pages.
Open Scope Z_scope.

Definition SIZEOF_PAGE : Z := 48.

(** [PGROUNDDOWN], [PGROUNDUP] and [ALIGN_UP(_, PG_4K_SIZE)] *)
Definition PGROUNDDOWN (a : Z) : Z := Z.ldiff a 0xFFF.
Definition PGROUNDUP (sz : Z) : Z := Z.ldiff (u64 (sz + PG_4K_SIZE - 1)) 0xFFF.

Record boot := mkBoot {
  bt_banks : list (Z * Z);   (* mem_info.banks: base, size *)
  bt_phy_start : Z;          (* _phy_start *)
  bt_fdt_base : Z;           (* ft_base_addr *)
  bt_fdt_size : Z            (* fh_struct.totalsize *) }.

Definition set_kernel (h t : option Z) (len : Z) (g : gmd_t) : gmd_t :=
  mkGmd h t (fdt_head g) (fdt_tail g) (dma_head g) (dma_tail g) (dma_start_at g)
    (dma_end_at g) (free_head g) (free_tail g) (free_start_at g) (free_end_at g) len.
Definition set_dma (h t : option Z) (a e : Z) (g : gmd_t) : gmd_t :=
  mkGmd (kernel_head g) (kernel_tail g) (fdt_head g) (fdt_tail g) h t a e
    (free_head g) (free_tail g) (free_start_at g) (free_end_at g) (page_length g).
Definition set_fdt (h t : option Z) (g : gmd_t) : gmd_t :=
  mkGmd (kernel_head g) (kernel_tail g) h t (dma_head g) (dma_tail g)
    (dma_start_at g) (dma_end_at g) (free_head g) (free_tail g) (free_start_at g)
    (free_end_at g) (page_length g).
Definition set_free_range (a e : Z) (g : gmd_t) : gmd_t :=
  mkGmd (kernel_head g) (kernel_tail g) (fdt_head g) (fdt_tail g) (dma_head g)
    (dma_tail g) (dma_start_at g) (dma_end_at g) (free_head g) (free_tail g) a e
    (page_length g).

Definition reserve (p : page) : page := set_flags (Z.lor (pg_flags p) PG_FLAG_RESERVED) p.

(** [while (start < end)]: one descriptor per page of a bank, appended to the
    kernel list.  [idx] is the descriptor cursor [pg]. *)
Fixpoint bank_loop (n : nat) (start end_ idx : Z) : M kmem Z :=
  if negb (start <? end_) then mret idx else
  match n with
  | O => nofuel
  | S n' =>
      let* g := gets km_gmd in
      modify (set_page idx (mkPage start 0 0 0 (kernel_tail g) None)) ;;;
      (match kernel_tail g with
       | Some t => update (Some t) (set_next (Some idx)) ;;;
                   modify (set_gmd (set_kernel (kernel_head g) (Some idx)
                                      (page_length g + 1) g))
       | None => modify (set_gmd (set_kernel (Some idx) (Some idx)
                                    (page_length g + 1) g))
       end) ;;;
      bank_loop n' (start + PG_4K_SIZE) end_ (idx + 1)
  end.

Definition pages_between (start end_ : Z) : nat :=
  Z.to_nat ((end_ - start) / PG_4K_SIZE + 1).

Fixpoint banks_loop (banks : list (Z * Z)) (idx : Z) : M kmem Z :=
  match banks with
  | [] => mret idx
  | (base, size) :: bs =>
      let start := PGROUNDUP base in
      let* idx' := bank_loop (pages_between start (base + size)) start (base + size) idx in
      banks_loop bs idx'
  end.

(** Mark [MEMORY_START .. end) as reserved; returns the final [start] and [pg]. *)
Fixpoint reserve_loop (n : nat) (start end_ pg : Z) : M kmem (Z * Z) :=
  if negb (start <? end_) then mret (start, pg) else
  match n with
  | O => nofuel
  | S n' =>
      update (Some (PHY_TO_PAGE start)) reserve ;;;
      reserve_loop n' (start + PG_4K_SIZE) end_ (PHY_TO_PAGE start)
  end.

(** Detach the DMA window that follows the kernel pages; [pg] is its first page. *)
Definition carve_dma (pg : Z) : M kmem unit :=
  let dt := pg + DMA_PAGE_COUNT - 1 in
  let* ph := deref (Some pg) in
  let* pt := deref (Some dt) in
  let* g := gets km_gmd in
  modify (set_gmd (set_dma (Some pg) (Some dt) (pg_paddr ph) (pg_paddr pt) g)) ;;;
  for_loop (Z.to_nat DMA_PAGE_COUNT) pg (fun i => update (Some i) reserve) ;;;
  let* pt' := deref (Some dt) in
  let f := pg_next pt' in
  update f (set_prev None) ;;;
  update (Some pg) (set_prev None) ;;;
  update (Some dt) (set_next None) ;;;
  let* pf := deref f in
  let* g' := gets km_gmd in
  let* pe := deref (free_tail g') in
  modify (set_gmd (set_free_range (pg_paddr pf) (pg_paddr pe)
                     (set_free f (free_tail g') g'))) ;;;
  update f (set_prev None) ;;;
  update (free_tail g') (set_next None).

(** Unlink the device tree's pages from the free list and reserve them. *)
Definition carve_fdt (base size : Z) : M kmem unit :=
  let pg := PHY_TO_PAGE base in
  let tmp := PHY_TO_PAGE (PGROUNDDOWN (base + size)) in
  let* g := gets km_gmd in
  modify (set_gmd (set_fdt (Some pg) (Some tmp) g)) ;;;
  let* p := deref (Some pg) in
  let* t := deref (Some tmp) in
  (match pg_prev p with
   | Some q => update (Some q) (set_next (pg_next t))
   | None => mret tt
   end) ;;;
  (* the [tmp->next] test, then the store through [pg->next] *)
  let* t' := deref (Some tmp) in
  let* p' := deref (Some pg) in
  (match pg_next t' with
   | Some _ => update (pg_next p') (set_prev (pg_prev p'))
   | None => mret tt
   end) ;;;
  update (Some pg) (set_prev None) ;;;
  update (Some tmp) (set_next None) ;;;
  let lo := PGROUNDDOWN base in
  let hi := PGROUNDUP (base + size) in
  for_loop (Z.to_nat ((hi - lo) / PG_4K_SIZE)) 0
    (fun k => update (Some (PHY_TO_PAGE (lo + k * PG_4K_SIZE))) reserve).

(** [void init_memory()]; [status] is [memory_init_status]. *)
Definition init_memory (status : Z) (b : boot) : M kmem Z :=
  if status =? 1 then mret status else
  let* idx := banks_loop (bt_banks b) 0 in
  let end_ := bt_phy_start b + SIZEOF_PAGE * idx in
  let* (start, pg) := reserve_loop (pages_between MEMORY_START end_) MEMORY_START end_ idx in
  let* g := gets km_gmd in
  modify (set_gmd (set_kernel (kernel_head g) (Some pg) (page_length g)
                     (set_free (free_head g) (kernel_tail g) g))) ;;;
  update (Some pg) (set_next None) ;;;
  carve_dma (PHY_TO_PAGE start) ;;;
  carve_fdt (bt_fdt_base b) (bt_fdt_size b) ;;;
  mret 1.

Definition zero_gmd : gmd_t :=
  mkGmd None None None None None None 0 0 None None 0 0 0.
Definition boot_kmem : kmem := mkKmem ∅ zero_gmd ∅.

(** ** Reasoning about the boot-time descriptor array

    [view N s n p f] says that the first [N] descriptors exist, have the
    right addresses and no references, and that their [next], [prev] and
    [flags] fields are the functions [n], [p] and [f]. *)
Definition view (N : Z) (s : kmem) (n p : Z -> option Z) (f : Z -> Z) : Prop :=
  forall i, if decide (0 <= i < N)
            then exists sl, km_pages s !! i = Some (mkPage (page_addr i) 0 (f i) sl (p i) (n i))
            else km_pages s !! i = None.

Definition upd {A} (f : Z -> A) (i : Z) (v : A) : Z -> A :=
  fun j => if decide (j = i) then v else f j.

Lemma view_ext N s n p f n' p' f' :
  view N s n p f ->
  (forall i, 0 <= i < N -> n' i = n i /\ p' i = p i /\ f' i = f i) ->
  view N s n' p' f'.
Proof.
  intros V E i. specialize (V i). case_decide; [|done].
  by destruct (E i) as (-> & -> & ->).
Qed.

Lemma view_deref N s n p f i :
  view N s n p f -> 0 <= i < N ->
  exists sl, deref (Some i) s = Ok (mkPage (page_addr i) 0 (f i) sl (p i) (n i), s).
Proof.
  intros V Hi. specialize (V i). rewrite decide_True in V by done.
  destruct V as [sl Hsl]. exists sl. unfold deref. by rewrite Hsl.
Qed.

Lemma view_set N s n p f i pg :
  view N s n p f -> 0 <= i < N -> pg_paddr pg = page_addr i -> pg_refcount pg = 0 ->
  view N (set_page i pg s) (upd n i (pg_next pg)) (upd p i (pg_prev pg)) (upd f i (pg_flags pg)).
Proof.
  intros V Hi Ha Hr j. specialize (V j). simpl. rewrite lookup_insert. unfold upd.
  destruct (decide (i = j)) as [<-|Hne].
  - rewrite decide_True by done. rewrite !decide_True by done.
    exists (pg_slab pg). destruct pg; simpl in *. by subst.
  - case_decide; [|done]. by rewrite !decide_False by done.
Qed.

Lemma update_spec N s n p f i g :
  view N s n p f -> 0 <= i < N ->
  exists pg, update (Some i) g s = Ok (tt, set_page i (g pg) s) /\
    pg_paddr pg = page_addr i /\ pg_refcount pg = 0 /\ pg_next pg = n i /\
    pg_prev pg = p i /\ pg_flags pg = f i.
Proof.
  intros V Hi. destruct (view_deref _ _ _ _ _ _ V Hi) as [sl Hd].
  eexists. split.
  - unfold update. cbn [mbind']. rewrite Hd. reflexivity.
  - by split_and!.
Qed.

Lemma upd_next N s n p f i v :
  view N s n p f -> 0 <= i < N ->
  exists s', update (Some i) (set_next v) s = Ok (tt, s') /\
    km_gmd s' = km_gmd s /\ view N s' (upd n i v) p f.
Proof.
  intros V Hi. destruct (update_spec _ _ _ _ _ _ (set_next v) V Hi)
    as (pg & -> & ? & ? & ? & ? & ?).
  eexists. split; [done|]. split; [done|].
  eapply view_ext; [apply view_set; done|]. intros j _. unfold upd.
  split_and!; simpl; case_decide; congruence.
Qed.

Lemma upd_prev N s n p f i v :
  view N s n p f -> 0 <= i < N ->
  exists s', update (Some i) (set_prev v) s = Ok (tt, s') /\
    km_gmd s' = km_gmd s /\ view N s' n (upd p i v) f.
Proof.
  intros V Hi. destruct (update_spec _ _ _ _ _ _ (set_prev v) V Hi)
    as (pg & -> & ? & ? & ? & ? & ?).
  eexists. split; [done|]. split; [done|].
  eapply view_ext; [apply view_set; done|]. intros j _. unfold upd.
  split_and!; simpl; case_decide; congruence.
Qed.

Lemma upd_reserve N s n p f i :
  view N s n p f -> 0 <= i < N ->
  exists s', update (Some i) reserve s = Ok (tt, s') /\
    km_gmd s' = km_gmd s /\ view N s' n p (upd f i (Z.lor (f i) PG_FLAG_RESERVED)).
Proof.
  intros V Hi. destruct (update_spec _ _ _ _ _ _ reserve V Hi)
    as (pg & -> & ? & ? & ? & ? & ?).
  eexists. split; [done|]. split; [done|].
  eapply view_ext; [apply view_set; done|]. intros j _. unfold upd.
  split_and!; simpl; case_decide; congruence.
Qed.

Lemma update_ram i g s r s' : update i g s = Ok (r, s') -> km_ram s' = km_ram s.
Proof.
  unfold update, deref. destruct i as [i|]; [|done]. simpl.
  destruct (km_pages s !! i); [|done]. intros. by inv_ok.
Qed.

(** ** The loops *)
Definition chain_next (N : Z) (i : Z) : option Z :=
  if decide (i + 1 < N) then Some (i + 1) else None.
Definition chain_prev (i : Z) : option Z := if decide (0 < i) then Some (i - 1) else None.

(** The kernel list after [k] descriptors. *)
Definition kernel_list (k : Z) (g : gmd_t) : Prop :=
  kernel_head g = (if decide (0 < k) then Some 0 else None) /\
  kernel_tail g = chain_prev k.

Lemma bank_step k s :
  0 <= k -> view k s (chain_next k) chain_prev (fun _ => 0) -> kernel_list k (km_gmd s) ->
  exists s', (let* g := gets km_gmd in
      modify (set_page k (mkPage (page_addr k) 0 0 0 (kernel_tail g) None)) ;;;
      (match kernel_tail g with
       | Some t => update (Some t) (set_next (Some k)) ;;;
                   modify (set_gmd (set_kernel (kernel_head g) (Some k) (page_length g + 1) g))
       | None => modify (set_gmd (set_kernel (Some k) (Some k) (page_length g + 1) g))
       end)) s = Ok (tt, s') /\
    view (k + 1) s' (chain_next (k + 1)) chain_prev (fun _ => 0) /\
    kernel_list (k + 1) (km_gmd s') /\ km_ram s' = km_ram s.
Proof.
  intros Hk V [Hh Ht]. simpl. rewrite Ht, Hh.
  set (s1 := set_page k _ s).
  assert (view (k + 1) s1 (chain_next k) chain_prev (fun _ => 0)) as V1.
  { intros i. specialize (V i). subst s1. simpl. rewrite lookup_insert.
    destruct (decide (k = i)) as [<-|].
    - rewrite decide_True by lia. exists 0. do 2 f_equal. unfold chain_next.
      by rewrite decide_False by lia.
    - destruct (decide (0 <= i < k)); [rewrite decide_True by lia|rewrite decide_False by lia];
        done. }
  assert (km_gmd s1 = km_gmd s) as G1 by done.
  assert (km_ram s1 = km_ram s) as R1 by done. clearbody s1.
  destruct (decide (0 < k)).
  - destruct (upd_next _ _ _ _ _ (k - 1) (Some k) V1 ltac:(lia)) as (s2 & E & G & V2).
    replace (chain_prev k) with (Some (k - 1)) by (unfold chain_prev; by rewrite decide_True).
    cbn [mbind']. rewrite E. simpl.
    eexists. split; [done|]. split; [|split].
    + eapply (view_ext _ _ _ _ _ (chain_next (k + 1)) chain_prev (fun _ => 0)) in V2;
        [exact V2|]. intros i Hi. unfold upd, chain_next. split; [|done].
      repeat case_decide; (congruence || lia || f_equal; lia).
    + unfold kernel_list, chain_prev; simpl. rewrite !decide_True by lia.
      split; [done|]. f_equal. lia.
    + rewrite <- R1. exact (update_ram _ _ _ _ _ E).
  - replace (chain_prev k) with (@None Z) by (unfold chain_prev; by rewrite decide_False).
    simpl. eexists. split; [done|]. split; [|split]; [|split|done].
    + eapply view_ext; [exact V1|]. intros i Hi. split; [|done].
      unfold chain_next. rewrite !decide_False by lia. done.
    + simpl. rewrite decide_True by lia. f_equal. lia.
    + simpl. unfold chain_prev. rewrite decide_True by lia. f_equal; lia.
Qed.

Lemma page_addr_succ k : page_addr k + PG_4K_SIZE = page_addr (k + 1).
Proof. unfold page_addr, PG_4K_SIZE. lia. Qed.

Lemma bank_loop_spec n k N s :
  0 <= k <= N -> N - k <= Z.of_nat n ->
  view k s (chain_next k) chain_prev (fun _ => 0) -> kernel_list k (km_gmd s) ->
  exists s', bank_loop n (page_addr k) (page_addr N) k s = Ok (N, s') /\
    view N s' (chain_next N) chain_prev (fun _ => 0) /\ kernel_list N (km_gmd s') /\
    km_ram s' = km_ram s.
Proof.
  revert k s; induction n as [|n IH]; intros k s Hk Hn V K.
  - assert (k = N) by lia. subst. cbn [bank_loop]. rewrite Z.ltb_irrefl. simpl. eauto.
  - cbn [bank_loop]. destruct (page_addr k <? page_addr N) eqn:E; cbn [negb].
    + assert (k < N) by (breflect; unfold page_addr, PG_4K_SIZE in *; lia).
      destruct (bank_step k s ltac:(lia) V K) as (s1 & Es & V1 & K1 & R1).
      destruct (IH (k + 1) s1 ltac:(lia) ltac:(lia) V1 K1) as (s2 & E2 & V2 & K2 & R2).
      exists s2. split; [|split_and!; try done; congruence].
      rewrite page_addr_succ. revert Es. simpl. intros Es.
      destruct (kernel_tail (km_gmd s)); simpl in *.
      * case_step; [|done..]. case_step. inv_ok. done.
      * inv_ok. done.
    + assert (k = N) by (breflect; unfold page_addr, PG_4K_SIZE in *; lia). subst. eauto.
Qed.

(** Flags after the pages [lo, hi) were reserved. *)
Definition resv (lo hi : Z) (f : Z -> Z) : Z -> Z :=
  fun i => if decide (lo <= i < hi) then Z.lor (f i) PG_FLAG_RESERVED else f i.

Lemma resv_step N s n p f k hi :
  k < hi -> view N s n p (resv (k + 1) hi (upd f k (Z.lor (f k) PG_FLAG_RESERVED))) ->
  view N s n p (resv k hi f).
Proof.
  intros H V. eapply view_ext; [exact V|]. intros i _. split_and!; try done.
  unfold resv, upd. repeat case_decide; subst; try done; lia.
Qed.

Lemma resv_none N s n p f k hi :
  hi <= k -> view N s n p f -> view N s n p (resv k hi f).
Proof.
  intros H V. eapply view_ext; [exact V|]. intros i _. split_and!; try done.
  unfold resv. by rewrite decide_False by lia.
Qed.

Lemma reserve_loop_spec N n k K end_ pg s nx pv f :
  0 <= k <= K -> K <= N < 2 ^ 49 -> page_addr K - PG_4K_SIZE < end_ <= page_addr K ->
  K - k <= Z.of_nat n -> view N s nx pv f ->
  exists s', reserve_loop n (page_addr k) end_ pg s
      = Ok (page_addr K, if decide (k < K) then K - 1 else pg, s') /\
    km_gmd s' = km_gmd s /\ view N s' nx pv (resv k K f) /\ km_ram s' = km_ram s.
Proof.
  revert k s pg f; induction n as [|n IH]; intros k s pg f Hk HK He Hn V.
  - assert (k = K) by lia. subst. cbn [reserve_loop].
    rewrite (proj2 (Z.ltb_ge _ _)) by lia. rewrite decide_False by lia. simpl.
    exists s. split_and!; try done. apply resv_none; [lia|done].
  - cbn [reserve_loop]. destruct (page_addr k <? end_) eqn:E; cbn [negb]; breflect.
    + assert (k < K) by (unfold page_addr, PG_4K_SIZE in *; lia).
      rewrite page_addr_index by lia. rewrite decide_True by done.
      destruct (upd_reserve _ _ _ _ _ k V ltac:(lia)) as (s1 & E1 & G1 & V1).
      destruct (IH (k + 1) s1 k _ ltac:(lia) HK He ltac:(lia) V1) as (s2 & E2 & G2 & V2 & R2).
      exists s2. rewrite page_addr_succ. cbn [mbind']. rewrite E1, E2. split_and!.
      * case_decide; [done|]. do 3 f_equal. lia.
      * congruence.
      * by apply resv_step.
      * rewrite R2. by eapply update_ram.
    + assert (k = K) by (unfold page_addr, PG_4K_SIZE in *; lia). subst.
      rewrite decide_False by lia. exists s. split_and!; try done.
      apply resv_none; [lia|done].
Qed.

(** A counted loop that reserves the pages [ix k, ix (k + 1), ...]. *)
Lemma for_reserve_spec N m k c (ix : Z -> Z) s nx pv f :
  (forall j, k <= j < k + Z.of_nat m -> ix j = c + j) ->
  0 <= c + k -> c + k + Z.of_nat m <= N -> view N s nx pv f ->
  exists s', for_loop m k (fun i => update (Some (ix i)) reserve) s = Ok (tt, s') /\
    km_gmd s' = km_gmd s /\ view N s' nx pv (resv (c + k) (c + k + Z.of_nat m) f) /\
    km_ram s' = km_ram s.
Proof.
  revert k s f; induction m as [|m IH]; intros k s f Hix H0 HN V.
  - exists s. split_and!; try done. apply resv_none; [lia|done].
  - cbn [for_loop mbind']. rewrite (Hix k) by lia.
    destruct (upd_reserve _ _ _ _ _ (c + k) V ltac:(lia)) as (s1 & E1 & G1 & V1).
    destruct (IH (k + 1) s1 _ ltac:(intros; apply Hix; lia) ltac:(lia) ltac:(lia) V1)
      as (s2 & E2 & G2 & V2 & R2).
    rewrite E1, E2. exists s2. split_and!; try congruence.
    + replace (c + k + Z.of_nat (S m)) with (c + (k + 1) + Z.of_nat m) by lia.
      apply resv_step; [lia|]. by replace (c + k + 1) with (c + (k + 1)) by lia.
    + rewrite R2. by eapply update_ram.
Qed.

(** ** Carving out the DMA window and the device tree *)
Lemma carve_dma_spec N K s nx pv f :
  let D := K + DMA_PAGE_COUNT in
  0 <= K -> D < N -> view N s nx pv f -> nx (D - 1) = Some D ->
  free_tail (km_gmd s) = Some (N - 1) ->
  exists s', carve_dma K s = Ok (tt, s') /\
    free_head (km_gmd s') = Some D /\ free_tail (km_gmd s') = Some (N - 1) /\
    free_start_at (km_gmd s') = page_addr D /\
    free_end_at (km_gmd s') = page_addr (N - 1) /\
    view N s' (upd (upd nx (D - 1) None) (N - 1) None)
      (upd (upd (upd pv D None) K None) D None) (resv K D f).
Proof.
  intros D H0 HD V Hnx Hft. subst D. set (D := K + DMA_PAGE_COUNT) in *.
  assert (K < D) by (subst D; unfold DMA_PAGE_COUNT; lia).
  unfold carve_dma. fold D. cbn [mbind' gets modify].
  destruct (view_deref _ _ _ _ _ K V ltac:(lia)) as [sl1 ->]. cbn [mbind' gets modify].
  destruct (view_deref _ _ _ _ _ (D - 1) V ltac:(lia)) as [sl2 ->]. cbn [mbind' gets modify].
  set (s1 := set_gmd _ s).
  assert (view N s1 nx pv f) as V1 by exact V.
  destruct (for_reserve_spec N (Z.to_nat DMA_PAGE_COUNT) K 0 (fun i => i) s1 nx pv f
    ltac:(intros; cbn beta; lia) ltac:(lia) ltac:(subst D; unfold DMA_PAGE_COUNT in *; lia) V1)
    as (s2 & -> & G2 & V2 & _).
  replace (0 + K + Z.of_nat (Z.to_nat DMA_PAGE_COUNT)) with D in V2
    by (subst D; unfold DMA_PAGE_COUNT; lia).
  replace (0 + K) with K in V2 by lia.
  cbn [mbind' gets modify].
  destruct (view_deref _ _ _ _ _ (D - 1) V2 ltac:(lia)) as [sl3 ->].
  cbn [mbind' gets modify pg_next]. rewrite Hnx.
  destruct (upd_prev _ _ _ _ _ D None V2 ltac:(lia)) as (s3 & -> & G3 & V3).
  cbn [mbind'].
  destruct (upd_prev _ _ _ _ _ K None V3 ltac:(lia)) as (s4 & -> & G4 & V4).
  cbn [mbind'].
  destruct (upd_next _ _ _ _ _ (D - 1) None V4 ltac:(lia)) as (s5 & -> & G5 & V5).
  cbn [mbind'].
  destruct (view_deref _ _ _ _ _ D V5 ltac:(lia)) as [sl5 ->]. cbn [mbind' gets].
  assert (free_tail (km_gmd s5) = Some (N - 1)) as Hft5.
  { rewrite G5, G4, G3, G2. done. }
  rewrite Hft5.
  destruct (view_deref _ _ _ _ _ (N - 1) V5 ltac:(lia)) as [sl6 ->].
  cbn [mbind' modify].
  set (s6 := set_gmd _ s5). assert (view N s6 _ _ _) as V6 by exact V5.
  destruct (upd_prev _ _ _ _ _ D None V6 ltac:(lia)) as (s7 & -> & G7 & V7).
  cbn [mbind'].
  destruct (upd_next _ _ _ _ _ (N - 1) None V7 ltac:(lia)) as (s8 & -> & G8 & V8).
  exists s8. split; [done|]. rewrite G8, G7. by split_and!.
Qed.

Lemma carve_fdt_spec N base size F T h s nx pv f :
  PHY_TO_PAGE base = F -> PHY_TO_PAGE (PGROUNDDOWN (base + size)) = T ->
  PGROUNDDOWN base = page_addr F -> PGROUNDUP (base + size) = page_addr h ->
  F <= h <= T + 1 -> 0 < F -> F <= T -> T + 1 < N < 2 ^ 49 -> view N s nx pv f ->
  pv F = Some (F - 1) -> nx T = Some (T + 1) -> nx F = Some (F + 1) ->
  exists s', carve_fdt base size s = Ok (tt, s') /\
    (exists h' t', km_gmd s' = set_fdt h' t' (km_gmd s)) /\
    view N s' (upd (upd nx (F - 1) (Some (T + 1))) T None)
      (upd (upd pv (F + 1) (Some (F - 1))) F None) (resv F h f).
Proof.
  intros EF ET Elo Ehi Hh H0 HFT HN V Hpv HnT HnF.
  unfold carve_fdt. rewrite EF, ET, Elo, Ehi. cbn [mbind' gets modify].
  set (s1 := set_gmd _ s). assert (view N s1 nx pv f) as V1 by exact V.
  destruct (view_deref _ _ _ _ _ F V1 ltac:(lia)) as [sl1 ->]. cbn [mbind'].
  destruct (view_deref _ _ _ _ _ T V1 ltac:(lia)) as [sl2 ->].
  cbn [mbind' pg_prev pg_next]. rewrite Hpv, HnT.
  destruct (upd_next _ _ _ _ _ (F - 1) (Some (T + 1)) V1 ltac:(lia)) as (s2 & -> & G2 & V2).
  cbn [mbind'].
  destruct (view_deref _ _ _ _ _ T V2 ltac:(lia)) as [sl3 ->]. cbn [mbind'].
  destruct (view_deref _ _ _ _ _ F V2 ltac:(lia)) as [sl4 ->].
  cbn [mbind' pg_prev pg_next].
  replace (upd nx (F - 1) (Some (T + 1)) T) with (Some (T + 1))
    by (unfold upd; rewrite decide_False by lia; done).
  replace (upd nx (F - 1) (Some (T + 1)) F) with (Some (F + 1))
    by (unfold upd; rewrite decide_False by lia; done).
  rewrite Hpv.
  destruct (upd_prev _ _ _ _ _ (F + 1) (Some (F - 1)) V2 ltac:(lia)) as (s3 & -> & G3 & V3).
  cbn [mbind'].
  destruct (upd_prev _ _ _ _ _ F None V3 ltac:(lia)) as (s4 & -> & G4 & V4).
  cbn [mbind'].
  destruct (upd_next _ _ _ _ _ T None V4 ltac:(lia)) as (s5 & -> & G5 & V5).
  cbn [mbind'].
  replace ((page_addr h - page_addr F) / PG_4K_SIZE) with (h - F)
    by (unfold page_addr, PG_4K_SIZE; Z.div_mod_to_equations; lia).
  assert (forall j, 0 <= j < 0 + Z.of_nat (Z.to_nat (h - F)) ->
            (fun k => PHY_TO_PAGE (page_addr F + k * PG_4K_SIZE)) j = F + j) as Hix.
  { intros j Hj. cbn beta.
    replace (page_addr F + j * PG_4K_SIZE) with (page_addr (F + j))
      by (unfold page_addr, PG_4K_SIZE; lia).
    rewrite page_addr_index by lia. done. }
  destruct (for_reserve_spec N _ 0 F _ s5 _ _ _ Hix ltac:(lia) ltac:(lia) V5)
    as (s6 & -> & G6 & V6 & _).
  exists s6. split; [done|]. split.
  - rewrite G6, G5, G4, G3, G2. eexists _, _. done.
  - replace (F + 0 + Z.of_nat (Z.to_nat (h - F))) with h in V6 by lia.
    by replace (F + 0) with F in V6 by lia.
Qed.

Lemma lseg_range ps lo hi h e (n : nat) :
  hi = lo + Z.of_nat n -> lo < hi -> h = Some lo ->
  (forall i, lo <= i < hi -> exists p, ps !! i = Some p /\
     pg_next p = if decide (i + 1 < hi) then Some (i + 1) else e) ->
  lseg ps h (seqZ lo (hi - lo)) e.
Proof.
  revert lo h. induction n as [|n IH]; intros lo h Hhi Hlt -> H; [lia|].
  rewrite seqZ_cons by lia. simpl. split; [done|].
  destruct (H lo ltac:(lia)) as (p & Hp & Hn). exists p. split; [done|].
  rewrite Hn. destruct (decide (lo + 1 < hi)).
  - replace (Z.pred (hi - lo)) with (hi - Z.succ lo) by lia.
    apply IH; [lia|lia|f_equal; lia|]. intros i Hi. apply H. lia.
  - replace (Z.pred (hi - lo)) with 0 by lia. done.
Qed.

Lemma ldiff_page a : Z.ldiff a 0xFFF = 4096 * (a / 4096).
Proof.
  change 0xFFF with (Z.ones 12). rewrite Z.ldiff_ones_r by lia.
  rewrite Z.shiftl_mul_pow2, Z.shiftr_div_pow2 by lia. change (2 ^ 12) with 4096. lia.
Qed.

Lemma page_index_of a i :
  0 <= i < 2 ^ 49 -> page_addr i <= a < page_addr (i + 1) ->
  PHY_TO_PAGE a = i /\ PGROUNDDOWN a = page_addr i /\ PHY_TO_PAGE (PGROUNDDOWN a) = i.
Proof.
  intros Hi Ha. assert (PGROUNDDOWN a = page_addr i) as E.
  { unfold PGROUNDDOWN. rewrite ldiff_page.
    unfold page_addr, PG_4K_SIZE, MEMORY_START in *. Z.div_mod_to_equations. lia. }
  rewrite E. rewrite page_addr_index by lia. split; [|done].
  unfold PHY_TO_PAGE, page_addr, PG_4K_SIZE, PG_4K_SHIFT, MEMORY_START in *.
  rewrite u64_small by lia. rewrite Z.shiftr_div_pow2 by lia.
  change (2 ^ 12) with 4096. Z.div_mod_to_equations. lia.
Qed.

Lemma page_round_up a i :
  0 <= i < 2 ^ 49 -> page_addr i <= a < page_addr (i + 1) ->
  PGROUNDUP a = page_addr (if decide (a = page_addr i) then i else i + 1).
Proof.
  intros Hi Ha. unfold PGROUNDUP.
  unfold page_addr, PG_4K_SIZE, MEMORY_START in *. rewrite u64_small by lia.
  rewrite ldiff_page. case_decide; Z.div_mod_to_equations; lia.
Qed.

(** A machine with one bank of [N] pages, [K] of them under the kernel image
    and the descriptor array, and the device tree on pages [F .. T] of the
    free area. *)
Record boot_ok (b : boot) (N K F T : Z) : Prop := {
  bo_bank : bt_banks b = [(MEMORY_START, PG_4K_SIZE * N)];
  bo_kernel : page_addr K - PG_4K_SIZE < bt_phy_start b + SIZEOF_PAGE * N <= page_addr K;
  bo_fdt : page_addr F <= bt_fdt_base b < page_addr (F + 1);
  bo_fdt_end : page_addr T <= bt_fdt_base b + bt_fdt_size b < page_addr (T + 1);
  bo_order : 0 < K /\ K + DMA_PAGE_COUNT < F /\ F <= T /\ T + 1 < N /\ N < 2 ^ 49 }.

Lemma lor_reserved f : f = 0 \/ f = 1 -> Z.lor f PG_FLAG_RESERVED = 1.
Proof. by intros [->| ->]. Qed.

Lemma resv_flags lo hi f i : f i = 0 \/ f i = 1 -> resv lo hi f i = 0 \/ resv lo hi f i = 1.
Proof. intros H. unfold resv. case_decide; [rewrite lor_reserved by done; auto|done]. Qed.

(** Reading the representation invariant off the final view. *)
Lemma view_repr N D F T s n p f :
  view N s n p f -> 0 <= D -> D < F -> F <= T -> T + 1 < N < 2 ^ 49 ->
  (forall i, D <= i < F -> n i = Some (if decide (i + 1 < F) then i + 1 else T + 1)) ->
  (forall i, T < i < N -> n i = if decide (i + 1 < N) then Some (i + 1) else None) ->
  (forall i, D <= i < F \/ T < i < N -> f i = 0) ->
  (forall i, 0 <= i < N -> f i = 0 \/ f i = 1) ->
  free_head (km_gmd s) = Some D -> free_tail (km_gmd s) = Some (N - 1) ->
  free_start_at (km_gmd s) = page_addr D -> free_end_at (km_gmd s) = page_addr (N - 1) ->
  repr s (mkFrames (seqZ D (F - D) ++ seqZ (T + 1) (N - (T + 1))) ∅).
Proof.
  intros V HD HDF HFT HN Hn1 Hn2 Hf1 Hf2 Hh Ht Ha He.
  assert (forall i, 0 <= i < N -> exists sl, km_pages s !! i
            = Some (mkPage (page_addr i) 0 (f i) sl (p i) (n i))) as Vi.
  { intros i Hi. specialize (V i). by rewrite decide_True in V by done. }
  split; simpl.
  - intros i q Hq. pose proof (V i) as W. case_decide; [|congruence].
    destruct W as [sl W]. rewrite W in Hq. injection Hq as <-. simpl.
    split; [lia|]. split; [done|]. unfold flags_ok, PG_FLAG_FREE, PG_FLAG_RESERVED.
    destruct (Hf2 i ltac:(lia)); auto.
  - rewrite Ha, He. unfold page_addr, MEMORY_START, PG_4K_SIZE. lia.
  - apply lseg_app. exists (Some (T + 1)). rewrite Hh. split.
    + apply (lseg_range _ _ _ _ _ (Z.to_nat (F - D))); [lia|lia|done|].
      intros i Hi. destruct (Vi i ltac:(lia)) as [sl E]. eexists. split; [exact E|].
      simpl. rewrite Hn1 by lia. by case_decide.
    + apply (lseg_range _ _ _ _ _ (Z.to_nat (N - (T + 1)))); [lia|lia|done|].
      intros i Hi. destruct (Vi i ltac:(lia)) as [sl E]. eexists. split; [exact E|].
      simpl. rewrite Hn2 by lia. by case_decide.
  - rewrite Ht. replace (N - (T + 1)) with (Z.of_nat (S (Z.to_nat (N - T - 2)))) by lia.
    rewrite seqZ_S. rewrite app_assoc, last_snoc. f_equal. lia.
  - apply NoDup_app. split; [apply NoDup_seqZ|]. split; [|apply NoDup_seqZ].
    intros i Hi Hj. apply elem_of_seqZ in Hi, Hj. lia.
  - intros i Hi. rewrite elem_of_app, !elem_of_seqZ in Hi.
    destruct (Vi i ltac:(lia)) as [sl E]. eexists. split; [exact E|]. simpl.
    rewrite Hf1 by lia. split; [done|]. split; [done|].
    unfold in_range. rewrite Ha, He. unfold page_addr, PG_4K_SIZE. lia.
  - intros i rc H. by rewrite lookup_empty in H.
  - intros i q Hq Hfl. pose proof (V i) as W. case_decide; [|congruence].
    destruct W as [sl W]. rewrite W in Hq. injection Hq as <-. simpl in Hfl.
    unfold PG_FLAG_USED in Hfl. destruct (Hf2 i ltac:(lia)); lia.
Qed.

Lemma init_tail_repr N K F T base size s g :
  view N s (upd (chain_next N) (K - 1) None) chain_prev (resv 0 K (fun _ => 0)) ->
  page_addr F <= base < page_addr (F + 1) ->
  page_addr T <= base + size < page_addr (T + 1) ->
  0 < K -> K + DMA_PAGE_COUNT < F -> F <= T -> T + 1 < N -> N < 2 ^ 49 ->
  0 <= size -> free_tail (km_gmd s) = Some (N - 1) -> km_gmd s = g ->
  exists s', (carve_dma K ;;; carve_fdt base size ;;; mret 1) s = Ok (1, s') /\
    repr s' (mkFrames (seqZ (K + DMA_PAGE_COUNT) (F - (K + DMA_PAGE_COUNT))
                       ++ seqZ (T + 1) (N - (T + 1))) ∅).
Proof.
  intros V HF HT HK HD HFT HTN HN Hsz Hft Hg.
  set (D := K + DMA_PAGE_COUNT) in *.
  assert (K < D) by (subst D; unfold DMA_PAGE_COUNT; lia).
  destruct (carve_dma_spec N K s _ _ _ ltac:(lia) ltac:(fold D; lia) V
    ltac:(fold D; unfold upd, chain_next; rewrite decide_False by lia;
          rewrite decide_True by lia; f_equal; lia) Hft)
    as (s1 & E1 & H1 & H2 & H3 & H4 & V1).
  fold D in H1, H3, V1. cbn [mbind']. rewrite E1.
  destruct (page_index_of base F ltac:(lia) HF) as (EF & EFd & _).
  destruct (page_index_of (base + size) T ltac:(lia) HT) as (_ & _ & ET).
  pose proof (page_round_up (base + size) T ltac:(lia) HT) as Eh.
  set (h := if decide _ then _ else _) in Eh.
  assert (F <= h <= T + 1) as Hh by (subst h; case_decide; lia).
  destruct (carve_fdt_spec N base size F T h s1 _ _ _ EF ET EFd Eh Hh ltac:(lia)
    HFT ltac:(lia) V1
    ltac:(unfold upd, chain_prev; rewrite !decide_False by lia; by rewrite decide_True by lia)
    ltac:(unfold upd, chain_next; rewrite !decide_False by lia; by rewrite decide_True by lia)
    ltac:(unfold upd, chain_next; rewrite !decide_False by lia; by rewrite decide_True by lia))
    as (s2 & E2 & (h' & t' & G2) & V2).
  rewrite E2. exists s2. split; [done|].
  eapply (view_repr N D F T s2 _ _ _ V2); try (rewrite G2; simpl); try done; try lia.
  - intros i Hi. unfold upd, chain_next.
    repeat case_decide; subst; try lia; try done; f_equal; lia.
  - intros i Hi. unfold upd, chain_next.
    repeat case_decide; subst; try lia; try done; f_equal; lia.
  - intros i Hi. unfold resv. repeat case_decide; try lia; done.
  - intros i Hi. do 3 apply resv_flags. by left.
Qed.

(** Boot establishes the allocator's invariant: on one bank of [N] pages,
    [init_memory] terminates without a fault and leaves exactly the pages
    after the DMA window, minus those of the device tree, in the free list
    (in ascending order), with no page marked as allocated. *)
Theorem init_memory_repr b N K F T :
  boot_ok b N K F T -> 0 <= bt_fdt_size b ->
  exists s', init_memory 0 b boot_kmem = Ok (1, s') /\
    repr s' (mkFrames (seqZ (K + DMA_PAGE_COUNT) (F - (K + DMA_PAGE_COUNT))
                       ++ seqZ (T + 1) (N - (T + 1))) ∅).
Proof.
  intros [Hb Hk Hf Hfe (H0 & H1 & H2 & H3 & H4)] Hsz.
  assert (K < N) by (unfold DMA_PAGE_COUNT in *; lia).
  unfold init_memory. simpl (0 =? 1). cbv iota. rewrite Hb.
  cbn [banks_loop mbind' mret].
  change (PGROUNDUP MEMORY_START) with (page_addr 0).
  replace (MEMORY_START + PG_4K_SIZE * N) with (page_addr N) by done.
  assert (view 0 boot_kmem (chain_next 0) chain_prev (fun _ => 0)) as V0.
  { intros i. rewrite decide_False by lia. done. }
  destruct (bank_loop_spec (pages_between (page_addr 0) (page_addr N)) 0 N boot_kmem
    ltac:(lia) ltac:(unfold pages_between, page_addr, PG_4K_SIZE;
                     Z.div_mod_to_equations; lia) V0 ltac:(by split))
    as (s1 & -> & V1 & [K1 K2] & _).
  cbn [mbind' mret].
  change MEMORY_START with (page_addr 0) at 2.
  destruct (reserve_loop_spec N (pages_between MEMORY_START (bt_phy_start b + SIZEOF_PAGE * N))
    0 K _ N s1 _ _ _ ltac:(lia) ltac:(lia) Hk
    ltac:(unfold pages_between, page_addr, PG_4K_SIZE in *; Z.div_mod_to_equations; lia) V1)
    as (s2 & -> & G2 & V2 & _).
  rewrite decide_True by lia. cbn [mbind' gets modify].
  set (s3 := set_gmd _ s2). assert (view N s3 _ _ _) as V3 by exact V2.
  destruct (upd_next _ _ _ _ _ (K - 1) None V3 ltac:(lia)) as (s4 & -> & G4 & V4).
  cbn [mbind']. rewrite page_addr_index by lia.
  apply (init_tail_repr N K F T _ _ s4 (km_gmd s4)); try done.
  rewrite G4. simpl. rewrite G2, K2. unfold chain_prev. by rewrite decide_True by lia.
Qed.

(** A 5000-page machine whose device tree spans two pages. *)
Definition demo_boot : boot :=
  mkBoot [(MEMORY_START, PG_4K_SIZE * 5000)] (MEMORY_START + 0x210000)
    (page_addr 4690 + 64) 4200.

Lemma demo_boot_ok : boot_ok demo_boot 5000 587 4690 4691.
Proof.
  split; try done; unfold demo_boot, page_addr, MEMORY_START, PG_4K_SIZE, SIZEOF_PAGE,
    DMA_PAGE_COUNT; simpl; lia.
Qed.

Lemma init_memory_repr_witness :
  exists s', init_memory 0 demo_boot boot_kmem = Ok (1, s') /\
    repr s' (mkFrames (seqZ (587 + DMA_PAGE_COUNT) (4690 - (587 + DMA_PAGE_COUNT))
                       ++ seqZ (4691 + 1) (5000 - (4691 + 1))) ∅).
Proof. apply init_memory_repr; [apply demo_boot_ok|]. unfold demo_boot; simpl; lia. Defined.

(** The unlinking of a device tree of several pages leaves a stale back
    link: the first free page after the tree still points back into it,
    because the code stores through [pg->next] where the page after
    [fdt_tail] was meant. *)
Theorem fdt_stale_prev :
  exists s', init_memory 0 demo_boot boot_kmem = Ok (1, s') /\
    fdt_tail (km_gmd s') = Some 4691 /\
    pg_prev <$> km_pages s' !! 4692 = Some (Some 4691) /\
    pg_next <$> km_pages s' !! 4689 = Some (Some 4692).
Proof.
  assert (match init_memory 0 demo_boot boot_kmem with
          | Ok (r, s') => (r, fdt_tail (km_gmd s'), pg_prev <$> km_pages s' !! 4692,
                           pg_next <$> km_pages s' !! 4689)
                          = (1, Some 4691, Some (Some 4691), Some (Some 4692))
          | _ => False
          end) as H by (vm_compute; reflexivity).
  destruct (init_memory 0 demo_boot boot_kmem) as [[r s']| | |]; [|done..].
  exists s'. by inversion H.
Qed.
