(* ===== verification/Slab.v ===== *)
(** The slab allocator: mm/slab.c.

    [slab_t] structures are 64-byte blocks carved out of metadata pages; their
    fields, the metadata free list (linked through the first word of each free
    block) and the object free lists (linked through the first word of each
    free object) all live in RAM and are read and written with the widths and
    offsets of the C code.  Every operation runs under the lock of the
    structure it touches, so each is one atomic transition. *)
From stdpp Require Import base gmap list.
From Stdlib Require Import ZArith Lia.
From S2P Require Import Prelude Bytes Pages.
Open Scope Z_scope.

(** ** Layout of [struct slab] *)
Definition SIZEOF_SLAB : Z := 64.
Definition off_freelist : Z := 16.
Definition off_next : Z := 24.
Definition off_object_size : Z := 32.
Definition off_total : Z := 40.
Definition off_free : Z := 48.
Definition SLAB_META_POOL_INIT_PAGE_SIZE : Z := 3.

Record slab_state := mkSlab {
  sl_mem : kmem;
  sl_slabs : list Z;      (* slab_global_cache.slabs[10] *)
  mp_freelist : Z;        (* slab_meta_pool *)
  mp_end : Z;
  mp_total : Z;
  mp_free : Z }.

Definition set_mem (k : kmem) (s : slab_state) : slab_state :=
  mkSlab k (sl_slabs s) (mp_freelist s) (mp_end s) (mp_total s) (mp_free s).
Definition set_slabs (l : list Z) (s : slab_state) : slab_state :=
  mkSlab (sl_mem s) l (mp_freelist s) (mp_end s) (mp_total s) (mp_free s).
Definition set_pool (fl e t f : Z) (s : slab_state) : slab_state :=
  mkSlab (sl_mem s) (sl_slabs s) fl e t f.
Definition sl_ram (s : slab_state) : ram := km_ram (sl_mem s).

(** the 64-bit word at address [a], and its assignment *)
Definition rd (a : Z) : M slab_state Z := gets (fun s => ld64 (sl_ram s) a).
Definition wr (a v : Z) : M slab_state unit :=
  modify (fun s => set_mem (set_ram (st64 (sl_ram s) a v) (sl_mem s)) s).
Definition sl_alloc_page : M slab_state Z := zoom sl_mem set_mem alloc_page.
Definition sl_deref (i : Z) : M slab_state page := zoom sl_mem set_mem (deref (Some i)).
Definition sl_set_page_slab (i v : Z) : M slab_state unit :=
  zoom sl_mem set_mem (update (Some i) (set_pslab v)).

(** ** Size classes *)

(** [slab_round_up]: round to a power of two by smearing the top bit *)
Definition slab_round_up (size : Z) : Z :=
  if (size =? 0) || (4096 <? size) then 0
  else if size <=? 8 then 8
  else
    let s := u32 (size - 1) in
    let s := Z.lor s (Z.shiftr s 1) in
    let s := Z.lor s (Z.shiftr s 2) in
    let s := Z.lor s (Z.shiftr s 4) in
    let s := Z.lor s (Z.shiftr s 8) in
    let s := Z.lor s (Z.shiftr s 16) in
    u32 (s + 1).

(** One halving step of [__ctzdi2]: if the low [k] bits are clear, drop them
    and record the bit [k] in the count. *)
Definition ctz_step (k : Z) (xr : Z * Z) : Z * Z :=
  let '(x, ret) := xr in
  if Z.land x (Z.ones k) =? 0 then (Z.shiftr x k, Z.lor ret k) else (x, ret).

Definition ctzdi2 (x : Z) : Z :=
  if x =? 0 then 64
  else snd (ctz_step 1 (ctz_step 2 (ctz_step 4 (ctz_step 8
              (ctz_step 16 (ctz_step 32 (x, 0))))))).

(** [POW2_SHIFT_COUNT(x)] is [__builtin_ctz], compiled to [__ctzdi2]. *)
Definition POW2_SHIFT_COUNT (x : Z) : Z := ctzdi2 x.

(** ** Free-list construction *)

(** [for (i = 0; i < n - 1; i++) *(base + i*stride) = base + (i+1)*stride;] *)
Definition link_loop (base stride n : Z) : M slab_state unit :=
  for_loop (Z.to_nat (n - 1)) 0
    (fun i => wr (base + i * stride) (base + (i + 1) * stride)).

(** ** The metadata pool *)

(** body of the [while (page_size > 0)] loop of [inflate_slab_meta_pool]:
    [current] is the node the next page is linked after; returns [last] *)
Fixpoint inflate_loop (n : nat) (current last : Z) : M slab_state Z :=
  match n with
  | O => mret last
  | S n' =>
      let* mem_page := sl_alloc_page in
      if mem_page =? 0 then halt else
      let slab_count := PG_4K_SIZE / SIZEOF_SLAB in
      (if negb (current =? 0) then wr current mem_page
       else modify (fun s => set_pool mem_page (mp_end s) (mp_total s) (mp_free s) s)) ;;;
      link_loop mem_page SIZEOF_SLAB slab_count ;;;
      let last' := mem_page + (slab_count - 1) * SIZEOF_SLAB in
      inflate_loop n' last' last'
  end.

Definition inflate_slab_meta_pool (page_size : Z) : M slab_state unit :=
  if page_size =? 0 then mret tt else
  let* current := gets mp_end in
  let* last := inflate_loop (Z.to_nat page_size) current 0 in
  wr last 0 ;;;
  let added := page_size * (PG_4K_SIZE / SIZEOF_SLAB) in
  modify (fun s => set_pool (mp_freelist s) last (u64 (mp_total s + added))
                     (u64 (mp_free s + added)) s).

Definition init_slab_meta_pool : M slab_state unit :=
  let* mem_page := sl_alloc_page in
  if mem_page =? 0 then halt else
  let slab_count := PG_4K_SIZE / SIZEOF_SLAB in
  modify (fun s => set_pool mem_page (mp_end s) slab_count slab_count s) ;;;
  link_loop mem_page SIZEOF_SLAB slab_count ;;;
  let last := mem_page + (slab_count - 1) * SIZEOF_SLAB in
  wr last 0 ;;;
  modify (fun s => set_pool (mp_freelist s) last (mp_total s) (mp_free s) s) ;;;
  if 1 <? SLAB_META_POOL_INIT_PAGE_SIZE
  then inflate_slab_meta_pool (SLAB_META_POOL_INIT_PAGE_SIZE - 1) else mret tt.

Definition slab_free_meta (slab : Z) : M slab_state unit :=
  let* fl := gets mp_freelist in
  wr slab fl ;;;
  modify (fun s => set_pool slab (mp_end s) (mp_total s) (u64 (mp_free s + 1)) s).

Definition slab_alloc_meta : M slab_state Z :=
  let* f := gets mp_free in
  (if f =? 1 then inflate_slab_meta_pool 2 else mret tt) ;;;
  let* slab := gets mp_freelist in
  let* nxt := rd slab in
  modify (fun s => set_pool nxt (mp_end s) (mp_total s) (u64 (mp_free s - 1)) s) ;;;
  mret slab.

(** [init_spinlock(&s->lock)]: [val] and [holder] are the first two words *)
Definition init_slab_lock (s : Z) : M slab_state unit := wr s 0 ;;; wr (s + 8) 0.

(** ** Slabs *)
Definition do_create_slab_object_storage (s : Z) : M slab_state Z :=
  let* mem_page := sl_alloc_page in
  if mem_page =? 0 then mret (-1) else
  sl_set_page_slab (PHY_TO_PAGE mem_page) s ;;;
  wr (s + off_freelist) mem_page ;;;
  let* total := rd (s + off_total) in
  let* osz := rd (s + off_object_size) in
  link_loop mem_page osz total ;;;
  wr (mem_page + (total - 1) * osz) 0 ;;;
  mret 0.

Definition do_create_new_slab (father_slab : Z) : M slab_state Z :=
  let* s := slab_alloc_meta in
  if s =? 0 then mret 0 else
  let* osz := rd (father_slab + off_object_size) in
  wr (s + off_object_size) osz ;;;
  let* total := rd (father_slab + off_total) in
  wr (s + off_total) total ;;;
  wr (s + off_free) total ;;;
  wr (s + off_next) 0 ;;;
  init_slab_lock s ;;;
  let* r := do_create_slab_object_storage s in
  if negb (r =? 0) then slab_free_meta s ;;; mret 0 else mret s.

Definition init_slab_class (i : Z) : M slab_state unit :=
  let* s := slab_alloc_meta in
  modify (fun st => set_slabs (<[Z.to_nat i := s]> (sl_slabs st)) st) ;;;
  wr (s + off_object_size) (Z.shiftl 8 i) ;;;
  wr (s + off_next) 0 ;;;
  let* osz := rd (s + off_object_size) in
  wr (s + off_total) (PG_4K_SIZE / osz) ;;;
  let* total := rd (s + off_total) in
  wr (s + off_free) total ;;;
  init_slab_lock s ;;;
  let* mem_page := sl_alloc_page in
  if mem_page =? 0 then halt else
  sl_set_page_slab (PHY_TO_PAGE mem_page) s ;;;
  wr (s + off_freelist) mem_page ;;;
  link_loop mem_page osz total ;;;
  wr (mem_page + (total - 1) * osz) 0.

Definition init_slab : M slab_state unit :=
  init_slab_meta_pool ;;; for_loop 10 0 init_slab_class.

(** the [while (1)] loop of [slab_alloc] along the slabs of one class *)
Fixpoint slab_alloc_loop (n : nat) (s : Z) : M slab_state Z :=
  match n with
  | O => nofuel
  | S n' =>
      let* free := rd (s + off_free) in
      if negb (free =? 0) then
        let* mem_block := rd (s + off_freelist) in
        let* nxt := rd mem_block in
        wr (s + off_freelist) nxt ;;;
        wr (s + off_free) (u64 (free - 1)) ;;;
        mret mem_block
      else
        let* next := rd (s + off_next) in
        if negb (next =? 0) then slab_alloc_loop n' next else
        let* new_slab := do_create_new_slab s in
        if new_slab =? 0 then mret 0 else
        wr (s + off_next) new_slab ;;;
        slab_alloc_loop n' new_slab
  end.

Definition slab_alloc (fuel : nat) (size : Z) : M slab_state Z :=
  let round_size := slab_round_up size in
  if round_size =? 0 then mret 0 else
  let idx := POW2_SHIFT_COUNT round_size - 3 in
  if (idx <? 0) || (9 <? idx) then mret 0 else
  let* slabs := gets sl_slabs in
  match slabs !! Z.to_nat idx with
  | None => fault
  | Some s => slab_alloc_loop fuel s
  end.

Definition do_free_slab_object_from_out (s ptr : Z) : M slab_state unit :=
  let* fl := rd (s + off_freelist) in
  wr ptr fl ;;;
  wr (s + off_freelist) ptr ;;;
  let* free := rd (s + off_free) in
  wr (s + off_free) (u64 (free + 1)).

Definition slab_free (ptr : Z) : M slab_state unit :=
  if ptr =? 0 then halt else
  let* pg := sl_deref (PHY_TO_PAGE ptr) in
  let s := pg_slab pg in
  if s =? 0 then halt else
  let offset := u64 (ptr - pg_paddr pg) in
  let* osz := rd (s + off_object_size) in
  if (PG_4K_SIZE <=? offset) || negb (offset mod osz =? 0) then halt else
  do_free_slab_object_from_out s ptr.

(** ** Size-class arithmetic *)
Lemma lor_multiple j q : 0 <= j -> Z.lor (q * 2 ^ (j + 1)) (2 ^ j) = q * 2 ^ (j + 1) + 2 ^ j.
Proof.
  intros Hj.
  pose proof (Z.add_lor_land (q * 2 ^ (j + 1)) (2 ^ j)) as E.
  assert (Z.land (q * 2 ^ (j + 1)) (2 ^ j) = 0) as E0; [|lia].
  apply Z.bits_inj'. intros n Hn. rewrite Z.land_spec, Z.bits_0.
  destruct (decide (n = j)) as [->|].
  - rewrite Z.mul_pow2_bits_low by lia. done.
  - rewrite (Z.pow2_bits_false j n) by lia. by rewrite andb_false_r.
Qed.

Lemma ctz_step_spec j x ret q :
  0 <= j -> ret = q * 2 ^ (j + 1) -> x mod 2 ^ (2 * 2 ^ j) <> 0 ->
  exists x' ret' q', ctz_step (2 ^ j) (x, ret) = (x', ret') /\
    x' mod 2 ^ (2 ^ j) <> 0 /\ ret' = q' * 2 ^ j /\ ret <= ret' /\
    x = x' * 2 ^ (ret' - ret).
Proof.
  intros Hj Hret Hx. unfold ctz_step.
  assert (0 < 2 ^ j) by (apply Z.pow_pos_nonneg; lia).
  assert (0 < 2 ^ (2 ^ j)) by (apply Z.pow_pos_nonneg; lia).
  rewrite Z.land_ones by lia. destruct (x mod 2 ^ (2 ^ j) =? 0) eqn:E; breflect.
  - eexists _, _, (2 * q + 1). split; [done|].
    rewrite Z.shiftr_div_pow2 by lia.
    assert (x = x / 2 ^ 2 ^ j * 2 ^ 2 ^ j) as Ex.
    { pose proof (Z.div_mod x (2 ^ 2 ^ j) ltac:(lia)). lia. }
    assert (Z.lor ret (2 ^ j) = ret + 2 ^ j) as Er by (subst ret; by apply lor_multiple).
    rewrite Er. split_and!.
    + intros E0. apply Hx. replace (2 * 2 ^ j) with (2 ^ j + 2 ^ j) by lia.
      rewrite Z.pow_add_r by lia. rewrite Z.rem_mul_r by lia. rewrite E, E0. lia.
    + subst ret. rewrite Z.pow_add_r by lia. lia.
    + lia.
    + replace (ret + 2 ^ j - ret) with (2 ^ j) by lia. done.
  - eexists _, _, (2 * q). split; [done|]. split_and!; [done| |lia|].
    + subst ret. rewrite Z.pow_add_r by lia. lia.
    + rewrite Z.sub_diag. lia.
Qed.

Lemma ctzdi2_spec x :
  0 < x < 2 ^ 64 -> exists m, 0 <= ctzdi2 x < 64 /\ x = m * 2 ^ ctzdi2 x /\ m mod 2 <> 0.
Proof.
  intros Hx. unfold ctzdi2. rewrite (proj2 (Z.eqb_neq _ _)) by lia.
  destruct (ctz_step_spec 5 x 0 0 ltac:(lia) eq_refl) as (x1 & r1 & q1 & E1 & L1 & R1 & M1 & V1).
  { change (2 * 2 ^ 5) with 64. rewrite Z.mod_small by lia. lia. }
  change (2 ^ 5) with 32 in *. rewrite E1.
  destruct (ctz_step_spec 4 x1 r1 q1 ltac:(lia) R1 L1) as (x2 & r2 & q2 & E2 & L2 & R2 & M2 & V2).
  change (2 ^ 4) with 16 in *. rewrite E2.
  destruct (ctz_step_spec 3 x2 r2 q2 ltac:(lia) R2 L2) as (x3 & r3 & q3 & E3 & L3 & R3 & M3 & V3).
  change (2 ^ 3) with 8 in *. rewrite E3.
  destruct (ctz_step_spec 2 x3 r3 q3 ltac:(lia) R3 L3) as (x4 & r4 & q4 & E4 & L4 & R4 & M4 & V4).
  change (2 ^ 2) with 4 in *. rewrite E4.
  destruct (ctz_step_spec 1 x4 r4 q4 ltac:(lia) R4 L4) as (x5 & r5 & q5 & E5 & L5 & R5 & M5 & V5).
  change (2 ^ 1) with 2 in *. rewrite E5.
  destruct (ctz_step_spec 0 x5 r5 q5 ltac:(lia) R5 L5) as (x6 & r6 & q6 & E6 & L6 & _ & M6 & V6).
  change (2 ^ 0) with 1 in *. rewrite E6. simpl. exists x6.
  assert (x = x6 * 2 ^ r6) as Ex.
  { rewrite V1, V2, V3, V4, V5, V6, <- !Z.mul_assoc, <- !Z.pow_add_r by lia.
    do 2 f_equal. lia. }
  split_and!; [lia| |done|exact L6].
  assert (~ 64 <= r6) as Hlt; [|lia]. intros Hge.
  assert (x6 <> 0) by (intros ->; lia).
  assert (2 ^ 64 <= 2 ^ r6) by (apply Z.pow_le_mono_r; lia). nia.
Qed.

(** The size classes: every request of 1 to 4096 bytes is served by the
    smallest class that fits it. *)
Definition class_ok (size : Z) : bool :=
  let r := slab_round_up size in
  let k := POW2_SHIFT_COUNT r in
  (r =? Z.shiftl 1 k) && (3 <=? k) && (k <=? 12) && (size <=? r)
  && ((r =? 8) || (r <? 2 * size)).

Lemma class_ok_all : forallb class_ok (seqZ 1 4096) = true.
Proof. vm_compute. reflexivity. Qed.

Lemma class_of_size size :
  1 <= size <= 4096 ->
  exists k, 3 <= k <= 12 /\ slab_round_up size = 2 ^ k /\
    POW2_SHIFT_COUNT (slab_round_up size) = k /\ size <= 2 ^ k /\
    (k = 3 \/ 2 ^ (k - 1) < size).
Proof.
  intros H. pose proof (proj1 (forallb_forall _ _) class_ok_all size) as F.
  specialize (F ltac:(apply list_elem_of_In, elem_of_seqZ; lia)).
  unfold class_ok in F. breflect.
  exists (POW2_SHIFT_COUNT (slab_round_up size)).
  rewrite Z.shiftl_1_l in *. split; [lia|]. split; [done|]. split; [done|].
  split; [lia|]. set (k := POW2_SHIFT_COUNT _) in *.
  destruct (decide (k = 3)) as [|Hk]; [by left|right].
  assert (2 ^ k = 2 * 2 ^ (k - 1)) by (rewrite <- Z.pow_succ_r by lia; f_equal; lia).
  match goal with Hor : _ || _ = true |- _ => apply orb_true_iff in Hor as [Ho|Ho] end; breflect.
  - exfalso. assert (2 ^ 4 <= 2 ^ k) by (apply Z.pow_le_mono_r; lia). lia.
  - lia.
Qed.
