(* ===== verification/SlabInv.v ===== *)
(** Correctness of the slab allocator (Slab.v).

    [sinv] ties the words in RAM to a ghost description: the list of free
    metadata blocks, and for every slab its class, its page and the list of
    its free objects.  The free lists are chains of words in memory, disjoint
    from one another and from everything the page allocator may hand out. *)
From stdpp Require Import base gmap list.
From Stdlib Require Import ZArith Lia.
From S2P Require Import Prelude Bytes Pages Slab.
Open Scope Z_scope.

(** Symbolic execution of the slab primitives. *)
Ltac srun := repeat (cbn [rd wr gets modify mbind' mret negb]; cbv beta).

(** ** Chains of words *)
Fixpoint chain (m : ram) (h : Z) (l : list Z) : Prop :=
  match l with
  | [] => h = 0
  | a :: l' => h = a /\ a <> 0 /\ chain m (ld64 m a) l'
  end.

(** The same along the [next] field of [slab_t]. *)
Fixpoint nchain (m : ram) (h : Z) (l : list Z) : Prop :=
  match l with
  | [] => h = 0
  | a :: l' => h = a /\ a <> 0 /\ nchain m (ld64 m (a + off_next)) l'
  end.

Lemma chain_ext m m' h l :
  (forall a, a ∈ l -> ld64 m' a = ld64 m a) -> chain m h l -> chain m' h l.
Proof.
  revert h; induction l as [|a l IH]; intros h H; simpl; [done|].
  intros (-> & Ha & Hl). split; [done|]. split; [done|].
  rewrite H by left. apply IH; [|done]. intros b Hb. apply H. by right.
Qed.

Lemma nchain_ext m m' h l :
  (forall a, a ∈ l -> ld64 m' (a + off_next) = ld64 m (a + off_next)) ->
  nchain m h l -> nchain m' h l.
Proof.
  revert h; induction l as [|a l IH]; intros h H; simpl; [done|].
  intros (-> & Ha & Hl). split; [done|]. split; [done|].
  rewrite H by left. apply IH; [|done]. intros b Hb. apply H. by right.
Qed.

(** ** Ghost state *)
Record gslab := mkG {
  gs_addr : Z;        (* the slab_t *)
  gs_class : Z;       (* object size is [8 << gs_class] *)
  gs_page : Z;        (* frame that stores the objects *)
  gs_fl : list Z      (* its free objects *) }.


#[export] Instance gslab_eq_dec : EqDecision gslab.
Proof. solve_decision. Defined.

Record ghost := mkGhost {
  gh_fr : frames;
  gh_meta : list Z;   (* frames that hold slab_t blocks *)
  gh_ml : list Z;     (* free slab_t blocks *)
  gh_slabs : list gslab;
  gh_n : Z            (* size classes initialised so far; 10 after [init_slab] *) }.

Definition osize (k : Z) : Z := Z.shiftl 8 k.
Definition ototal (k : Z) : Z := PG_4K_SIZE / osize k.

Definition is_obj (g : gslab) (a : Z) : Prop :=
  exists j, 0 <= j < ototal (gs_class g) /\ a = page_addr (gs_page g) + j * osize (gs_class g).

Definition meta_block (meta : list Z) (a : Z) : Prop :=
  exists i j, i ∈ meta /\ 0 <= j < 64 /\ a = page_addr i + j * SIZEOF_SLAB.

(** What one slab owns in memory. *)
Record slab_ok (m : ram) (g : gslab) : Prop := {
  so_class : 0 <= gs_class g < 10;
  so_osize : ld64 m (gs_addr g + off_object_size) = osize (gs_class g);
  so_total : ld64 m (gs_addr g + off_total) = ototal (gs_class g);
  so_free : ld64 m (gs_addr g + off_free) = Z.of_nat (length (gs_fl g));
  so_chain : chain m (ld64 m (gs_addr g + off_freelist)) (gs_fl g);
  so_objs : Forall (is_obj g) (gs_fl g);
  so_nodup : NoDup (gs_fl g) }.

Definition of_class (k : Z) (G : ghost) : list gslab :=
  filter (fun g => gs_class g = k) (gh_slabs G).

Record sinv (s : slab_state) (G : ghost) : Prop := {
  si_repr : repr (sl_mem s) (gh_fr G);
  si_pool : chain (sl_ram s) (mp_freelist s) (gh_ml G);
  si_pool_end : last (gh_ml G) = Some (mp_end s);
  si_pool_free : mp_free s = Z.of_nat (length (gh_ml G));
  si_pool_small : Z.of_nat (length (gh_ml G)) < 2 ^ 40;
  si_meta : forall i, i ∈ gh_meta G -> is_Some (fr_used (gh_fr G) !! i) /\ 0 <= i < 2 ^ 49;
  (* every block is either free or a slab, and none is both *)
  si_blocks : Forall (meta_block (gh_meta G)) (gh_ml G ++ (gs_addr <$> gh_slabs G));
  si_distinct : NoDup (gh_ml G ++ (gs_addr <$> gh_slabs G));
  (* object pages are allocated frames, apart from the metadata's *)
  si_pages : forall g, g ∈ gh_slabs G ->
    is_Some (fr_used (gh_fr G) !! gs_page g) /\ (gs_page g ∉ gh_meta G) /\
    (exists p, km_pages (sl_mem s) !! gs_page g = Some p /\ pg_slab p = gs_addr g);
  si_pages_nodup : NoDup (gs_page <$> gh_slabs G);
  si_slabs : Forall (slab_ok (sl_ram s)) (gh_slabs G);
  si_cls : forall g, g ∈ gh_slabs G -> gs_class g < gh_n G;
  si_heads : forall k, 0 <= k < gh_n G -> exists h, sl_slabs s !! Z.to_nat k = Some h /\ h <> 0 /\
    nchain (sl_ram s) h (gs_addr <$> of_class k G) }.

(** ** Disjointness of what the invariant talks about *)
Lemma frames_disjoint i j :
  i <> j -> page_addr i + PG_4K_SIZE <= page_addr j \/ page_addr j + PG_4K_SIZE <= page_addr i.
Proof. unfold page_addr, PG_4K_SIZE. lia. Qed.

Lemma osize_cases k : 0 <= k < 10 -> 8 <= osize k <= 4096 /\ ototal k * osize k = 4096 /\
  1 <= ototal k <= 512.
Proof.
  intros H. unfold ototal, osize, PG_4K_SIZE.
  assert (k = 0 \/ k = 1 \/ k = 2 \/ k = 3 \/ k = 4 \/ k = 5 \/ k = 6 \/ k = 7 \/ k = 8 \/ k = 9)
    as C by lia.
  repeat destruct C as [->|C]; [..|subst]; cbv; split_and!; congruence.
Qed.

Lemma obj_in_page g a :
  0 <= gs_class g < 10 -> is_obj g a ->
  page_addr (gs_page g) <= a /\ a + 8 <= page_addr (gs_page g) + PG_4K_SIZE.
Proof.
  intros Hc (j & Hj & ->). destruct (osize_cases _ Hc) as (? & ? & ?).
  unfold PG_4K_SIZE. nia.
Qed.

Lemma obj_disjoint g a b :
  0 <= gs_class g < 10 -> is_obj g a -> is_obj g b -> a <> b -> a + 8 <= b \/ b + 8 <= a.
Proof.
  intros Hc (j & Hj & ->) (k & Hk & ->) Hne. destruct (osize_cases _ Hc) as (? & ? & ?).
  assert (j <> k) by congruence. nia.
Qed.

Lemma block_in_frame meta a :
  meta_block meta a -> exists i, i ∈ meta /\ page_addr i <= a /\ a + 64 <= page_addr i + PG_4K_SIZE.
Proof.
  intros (i & j & Hi & Hj & ->). exists i. split; [done|]. unfold SIZEOF_SLAB, PG_4K_SIZE. lia.
Qed.

Lemma blocks_disjoint meta a b :
  meta_block meta a -> meta_block meta b -> a <> b -> a + 64 <= b \/ b + 64 <= a.
Proof.
  intros (i & j & _ & Hj & ->) (i' & j' & _ & Hj' & ->) Hne.
  unfold page_addr, PG_4K_SIZE, SIZEOF_SLAB in *.
  destruct (decide (i = i')) as [->|]; [|lia]. assert (j <> j') by congruence. lia.
Qed.

Lemma block_pos meta a :
  meta_block meta a -> (forall i, i ∈ meta -> 0 <= i < 2 ^ 49) -> 0 < a < 2 ^ 62.
Proof.
  intros (i & j & Hi & Hj & ->) H. specialize (H i Hi).
  unfold page_addr, PG_4K_SIZE, SIZEOF_SLAB, MEMORY_START. lia.
Qed.

Lemma field_off o :
  o ∈ [off_freelist; off_object_size; off_total; off_free] -> 0 <= o <= 56.
Proof.
  unfold off_freelist, off_object_size, off_total, off_free.
  rewrite !elem_of_cons, elem_of_nil. lia.
Qed.

(** A slab's words are untouched by writes elsewhere. *)
Lemma slab_ok_ext m m' g :
  slab_ok m g ->
  (forall o, o ∈ [off_freelist; off_object_size; off_total; off_free] ->
     ld64 m' (gs_addr g + o) = ld64 m (gs_addr g + o)) ->
  (forall a, a ∈ gs_fl g -> ld64 m' a = ld64 m a) ->
  slab_ok m' g.
Proof.
  intros [] Hf Ha. split; try done.
  - by rewrite Hf by set_solver.
  - by rewrite Hf by set_solver.
  - by rewrite Hf by set_solver.
  - rewrite Hf by set_solver. by apply (chain_ext m).
Qed.

(** The word at [x] is neither in the block nor in the object page of [g]. *)
Definition outside (g : gslab) (x : Z) : Prop :=
  (x + 8 <= gs_addr g \/ gs_addr g + 64 <= x) /\
  (x + 8 <= page_addr (gs_page g) \/ page_addr (gs_page g) + PG_4K_SIZE <= x).

Lemma block_outside meta g b o :
  meta_block meta (gs_addr g) -> meta_block meta b -> b <> gs_addr g ->
  gs_page g ∉ meta -> 0 <= o <= 56 -> outside g (b + o).
Proof.
  intros Hg Hb Hne Hp Ho. split.
  - destruct (blocks_disjoint _ _ _ Hb Hg Hne); lia.
  - destruct (block_in_frame _ _ Hb) as (i & Hi & ? & ?).
    destruct (frames_disjoint i (gs_page g)); [by intros ->|lia..].
Qed.

Lemma obj_outside meta g g2 a :
  meta_block meta (gs_addr g) -> 0 <= gs_class g2 < 10 -> is_obj g2 a ->
  gs_page g <> gs_page g2 -> gs_page g2 ∉ meta -> outside g a.
Proof.
  intros Hg Hc Ha Hne Hp. destruct (obj_in_page _ _ Hc Ha). split.
  - destruct (block_in_frame _ _ Hg) as (i & Hi & ? & ?).
    destruct (frames_disjoint i (gs_page g2)); [by intros ->|lia..].
  - destruct (frames_disjoint (gs_page g) (gs_page g2)); [done|lia..].
Qed.

Definition same_place (g g' : gslab) : Prop :=
  gs_addr g' = gs_addr g /\ gs_class g' = gs_class g /\ gs_page g' = gs_page g.

Definition with_slabs (G : ghost) (l : list gslab) : ghost :=
  mkGhost (gh_fr G) (gh_meta G) (gh_ml G) l (gh_n G).

Lemma of_class_same l1 l2 g g' k :
  same_place g g' ->
  gs_addr <$> filter (fun g => gs_class g = k) (l1 ++ g' :: l2)
  = gs_addr <$> filter (fun g => gs_class g = k) (l1 ++ g :: l2).
Proof.
  intros (Ha & Hc & _). rewrite !filter_app, !fmap_app. f_equal.
  rewrite !filter_cons. rewrite Hc. case_decide; [|done]. simpl. by rewrite Ha.
Qed.

Lemma split_slab l1 l2 g g2 :
  NoDup (gs_addr <$> l1 ++ g :: l2) -> NoDup (gs_page <$> l1 ++ g :: l2) ->
  g2 ∈ l1 ++ l2 -> gs_addr g2 <> gs_addr g /\ gs_page g <> gs_page g2.
Proof.
  rewrite !fmap_app, !fmap_cons. intros Ha Hp Hin.
  assert (gs_addr g2 ∈ (gs_addr <$> l1) ++ (gs_addr <$> l2)) as I1.
  { rewrite <- fmap_app. by apply list_elem_of_fmap_2. }
  assert (gs_page g2 ∈ (gs_page <$> l1) ++ (gs_page <$> l2)) as I2.
  { rewrite <- fmap_app. by apply list_elem_of_fmap_2. }
  rewrite <- Permutation_middle in Ha, Hp.
  apply NoDup_cons in Ha as [Ha _]. apply NoDup_cons in Hp as [Hp _].
  split; intros E; [rewrite E in I1|rewrite <- E in I2]; done.
Qed.

(** Replacing one slab's words by words that still describe it (with another
    free list) preserves the invariant. *)
Lemma sinv_update s s' G l1 g g' l2 :
  sinv s G -> gh_slabs G = l1 ++ g :: l2 -> same_place g g' ->
  km_pages (sl_mem s') = km_pages (sl_mem s) -> km_gmd (sl_mem s') = km_gmd (sl_mem s) ->
  sl_slabs s' = sl_slabs s -> mp_freelist s' = mp_freelist s -> mp_end s' = mp_end s ->
  mp_free s' = mp_free s ->
  (forall x, outside g x -> ld64 (sl_ram s') x = ld64 (sl_ram s) x) ->
  ld64 (sl_ram s') (gs_addr g + off_next) = ld64 (sl_ram s) (gs_addr g + off_next) ->
  slab_ok (sl_ram s') g' ->
  sinv s' (with_slabs G (l1 ++ g' :: l2)).
Proof.
  intros [R Hp He Hf Hsm Hm Hb Hd Hpg Hpn Hs Hcls Hh] HG (Ea & Ec & Ep) Ek Eg Esl Efl Een Efr Ho Hn Hok.
  rewrite HG in *.
  assert (g ∈ l1 ++ g :: l2) as Hin by (apply elem_of_app; right; left).
  destruct (Hpg g Hin) as (_ & Hpm & _).
  pose proof Hb as Hb'. rewrite Forall_app in Hb'. destruct Hb' as [Hbm Hbs].
  rewrite Forall_fmap, Forall_forall in Hbs. rewrite Forall_forall in Hbm.
  assert (meta_block (gh_meta G) (gs_addr g)) as Hgb by (by apply (Hbs g)).
  assert (NoDup (gs_addr <$> l1 ++ g :: l2)) as Hnd by (by apply NoDup_app in Hd as (_ & _ & ?)).
  assert (forall o b, b ∈ gh_ml G -> 0 <= o <= 56 -> outside g (b + o)) as Opool.
  { intros o b Hbin Hor. apply (block_outside (gh_meta G)); auto.
    intros ->. apply NoDup_app in Hd as (_ & Hdj & _). apply (Hdj _ Hbin).
    by apply list_elem_of_fmap_2. }
  assert (forall o g2, g2 ∈ l1 ++ l2 -> 0 <= o <= 56 -> outside g (gs_addr g2 + o)) as Oslab.
  { intros o g2 H2 Hor. apply (block_outside (gh_meta G)); auto.
    - apply (Hbs g2). set_solver.
    - by destruct (split_slab _ _ _ _ Hnd Hpn H2). }
  rewrite Forall_forall in Hs.
  assert (forall a g2, g2 ∈ l1 ++ l2 -> a ∈ gs_fl g2 -> outside g a) as Oobj.
  { intros a g2 H2 Ha. assert (g2 ∈ l1 ++ g :: l2) as H2' by set_solver.
    destruct (Hs g2 H2') as [Hc _ _ _ _ Hobj _]. rewrite Forall_forall in Hobj.
    apply (obj_outside (gh_meta G) g g2); auto.
    - by destruct (split_slab _ _ _ _ Hnd Hpn H2).
    - by apply Hpg. }
  split; simpl; rewrite ?Efl, ?Een, ?Efr, ?Esl; try done.
  - destruct R. split; rewrite ?Ek, ?Eg; done.
  - apply (chain_ext (sl_ram s)); [|done]. intros a Ha. apply Ho.
    rewrite <- (Z.add_0_r a). apply Opool; [done|lia].
  - rewrite fmap_app, fmap_cons in Hb |- *. by rewrite Ea.
  - rewrite fmap_app, fmap_cons in Hd |- *. by rewrite Ea.
  - intros g2 H2. rewrite Ek. apply elem_of_app in H2 as [H2|[->|H2]%elem_of_cons].
    + apply Hpg. set_solver.
    + rewrite Ep, Ea. by apply Hpg.
    + apply Hpg. set_solver.
  - rewrite fmap_app, fmap_cons in Hpn |- *. by rewrite Ep.
  - apply Forall_forall. intros g2 H2.
    destruct (decide (g2 = g')) as [->|Hne]; [done|].
    assert (g2 ∈ l1 ++ l2) as H2' by set_solver.
    apply (slab_ok_ext (sl_ram s)); [apply Hs; set_solver| |].
    + intros o Hin'. apply Ho, Oslab; [done|]. by apply field_off.
    + intros a Ha. by apply Ho, (Oobj a g2).
  - intros g2 [H2|[->|H2]%elem_of_cons]%elem_of_app; [| |]; [|rewrite Ec|]; apply Hcls; set_solver.
  - intros k Hk. destruct (Hh k Hk) as (h & Hl & Hnz & Hc). exists h. split; [done|].
    split; [done|]. unfold of_class in *. simpl.
    rewrite (of_class_same l1 l2 g g' k) by done. rewrite HG in Hc.
    apply (nchain_ext (sl_ram s)); [|done]. intros a Ha.
    apply list_elem_of_fmap in Ha as (g2 & -> & Hg2).
    apply list_elem_of_filter in Hg2 as [_ Hg2].
    destruct (decide (g2 = g)) as [->|Hne]; [done|].
    apply Ho, Oslab; [set_solver|unfold off_next; lia].
Qed.

Lemma used_index s G i :
  sinv s G -> is_Some (fr_used (gh_fr G) !! i) -> 0 <= i < 2 ^ 49.
Proof.
  intros I [rc Hu]. destruct (r_used _ _ (si_repr _ _ I) _ _ Hu) as (p & Hp & _).
  by destruct (r_desc _ _ (si_repr _ _ I) _ _ Hp).
Qed.

Lemma obj_range s G g a :
  sinv s G -> g ∈ gh_slabs G -> is_obj g a -> 0 < a < 2 ^ 62 /\ a + 8 <= 2 ^ 62.
Proof.
  intros I Hg Ha. destruct (si_pages _ _ I g Hg) as (Hu & _ & _).
  pose proof (used_index _ _ _ I Hu).
  pose proof (si_slabs _ _ I) as Hs. rewrite Forall_forall in Hs.
  destruct (obj_in_page g a (so_class _ _ (Hs g Hg)) Ha).
  unfold page_addr, PG_4K_SIZE, MEMORY_START in *. lia.
Qed.

(** Heads of free lists are machine words. *)
Lemma chain_head_u64 m h l :
  chain m h l -> (forall a, a ∈ l -> 0 <= a < 2 ^ 64) -> u64 h = h.
Proof.
  destruct l as [|a l]; simpl.
  - intros -> _. done.
  - intros (-> & _) H. apply u64_small, H. left.
Qed.

Definition g_with (g : gslab) (fl : list Z) : gslab :=
  mkG (gs_addr g) (gs_class g) (gs_page g) fl.

Lemma fl_bound s G g : sinv s G -> g ∈ gh_slabs G -> (Z.of_nat (length (gs_fl g)) <= 512).
Proof.
  intros I Hg. pose proof (si_slabs _ _ I) as Hs. rewrite Forall_forall in Hs.
  destruct (Hs g Hg) as [Hc _ _ _ _ Ho Hn].
  destruct (osize_cases _ Hc) as (? & ? & ?).
  assert (gs_fl g ⊆ (fun j => page_addr (gs_page g) + j * osize (gs_class g)) <$>
            seqZ 0 (ototal (gs_class g))) as Hsub.
  { rewrite Forall_forall in Ho. intros a Ha. destruct (Ho a Ha) as (j & Hj & ->).
    apply list_elem_of_fmap. exists j. split; [done|]. apply elem_of_seqZ. lia. }
  pose proof (submseteq_length _ _ (NoDup_submseteq _ _ Hn Hsub)) as L.
  rewrite length_fmap, length_seqZ in L. lia.
Qed.

(** Chain of memory words of [g] after the three stores of a push or a pop. *)
Lemma slab_pop s G l1 g l2 a fl n :
  sinv s G -> gh_slabs G = l1 ++ g :: l2 -> gs_fl g = a :: fl ->
  exists s', slab_alloc_loop (S n) (gs_addr g) s = Ok (a, s') /\
    sinv s' (with_slabs G (l1 ++ g_with g fl :: l2)) /\
    (forall x, x + 8 <= gs_addr g \/ gs_addr g + 64 <= x ->
       ld64 (sl_ram s') x = ld64 (sl_ram s) x).
Proof.
  intros I HG Hfl. assert (g ∈ gh_slabs G) as Hg by (rewrite HG; set_solver).
  pose proof (si_slabs _ _ I) as Hs. rewrite Forall_forall in Hs.
  destruct (Hs g Hg) as [Hc Hos Hto Hfr Hch Hob Hnd]. pose proof (fl_bound _ _ _ I Hg) as HL.
  rewrite Hfl in *. destruct Hch as (Eh & Ha0 & Hch). apply NoDup_cons in Hnd as [Hna Hnd].
  apply Forall_cons in Hob as [Hoa Hob]. pose proof Hob as Hob'. rewrite Forall_forall in Hob'.
  assert (u64 (ld64 (sl_ram s) a) = ld64 (sl_ram s) a) as Hnx.
  { eapply chain_head_u64; [exact Hch|]. intros b Hb.
    destruct (obj_range _ _ _ _ I Hg (Hob' b Hb)). lia. }
  simpl length in *. cbn [slab_alloc_loop]. srun. rewrite Hfr.
  rewrite (proj2 (Z.eqb_neq _ _)) by lia. srun. rewrite Eh.
  eexists. split; [reflexivity|].
  set (m := sl_ram s) in *. set (A := gs_addr g) in *.
  match goal with |- sinv ?t _ /\ _ => set (s' := t) end.
  assert (sl_ram s' = st64 (st64 m (A + off_freelist) (ld64 m a)) (A + off_free)
                        (u64 (Z.of_nat (S (length fl)) - 1))) as Em by done.
  assert (forall x, x + 8 <= A \/ A + 64 <= x -> ld64 (sl_ram s') x = ld64 m x) as Hout.
  { intros x Hx. rewrite Em. unfold off_freelist, off_free in *.
    by rewrite !ld64_st64_disjoint by lia. }
  assert (forall o, o ∈ [off_next; off_object_size; off_total] ->
            ld64 (sl_ram s') (A + o) = ld64 m (A + o)) as Hkeep.
  { intros o Ho. rewrite Em. unfold off_freelist, off_free, off_next, off_object_size, off_total in *.
    rewrite !ld64_st64_disjoint; [done|..]; set_solver by lia. }
  split; [|exact Hout].
  pose proof (si_blocks _ _ I) as Hbl. rewrite Forall_app, Forall_fmap in Hbl.
  destruct Hbl as [_ Hbl]. rewrite Forall_forall in Hbl. pose proof (Hbl g Hg) as Hbg.
  destruct (si_pages _ _ I g Hg) as (_ & Hpm & _).
  apply (sinv_update s s' G l1 g (g_with g fl) l2 I HG); try done.
  - intros x [Hx _]. by apply Hout.
  - apply Hkeep. set_solver.
  - split; simpl; fold A; try done.
    + rewrite Hkeep by set_solver. done.
    + rewrite Hkeep by set_solver. done.
    + rewrite Em, ld64_st64_same. rewrite !u64_small by (rewrite ?u64_small; lia). lia.
    + rewrite Em at 2. unfold off_freelist, off_free.
      rewrite ld64_st64_disjoint by lia. rewrite ld64_st64_same, Hnx.
      apply (chain_ext m); [|done]. intros b Hb. apply Hout.
      destruct (obj_in_page _ _ Hc (Hob' b Hb)).
      destruct (block_in_frame _ _ Hbg) as (i & Hi & B1 & B2). fold A in B1, B2.
      destruct (frames_disjoint i (gs_page g)); [by intros ->|lia..].
Qed.

Lemma slab_block_page_disjoint s G g a :
  sinv s G -> g ∈ gh_slabs G -> is_obj g a ->
  a + 8 <= gs_addr g \/ gs_addr g + 64 <= a.
Proof.
  intros I Hg Ha. pose proof (si_blocks _ _ I) as Hbl. rewrite Forall_app, Forall_fmap in Hbl.
  destruct Hbl as [_ Hbl]. rewrite Forall_forall in Hbl. pose proof (Hbl g Hg) as Hbg.
  destruct (si_pages _ _ I g Hg) as (_ & Hpm & _).
  pose proof (si_slabs _ _ I) as Hs. rewrite Forall_forall in Hs.
  destruct (obj_in_page _ _ (so_class _ _ (Hs g Hg)) Ha).
  destruct (block_in_frame _ _ Hbg) as (i & Hi & ? & ?).
  destruct (frames_disjoint i (gs_page g)); [by intros ->|lia..].
Qed.

Lemma slab_addr_range s G g : sinv s G -> g ∈ gh_slabs G -> 0 < gs_addr g < 2 ^ 62.
Proof.
  intros I Hg. pose proof (si_blocks _ _ I) as Hbl. rewrite Forall_app, Forall_fmap in Hbl.
  destruct Hbl as [_ Hbl]. rewrite Forall_forall in Hbl.
  apply (block_pos (gh_meta G)); [by apply Hbl|]. intros i Hi. by apply (si_meta _ _ I).
Qed.

Lemma slab_push s G l1 g l2 a :
  sinv s G -> gh_slabs G = l1 ++ g :: l2 -> is_obj g a -> a ∉ gs_fl g ->
  exists s', do_free_slab_object_from_out (gs_addr g) a s = Ok (tt, s') /\
    sinv s' (with_slabs G (l1 ++ g_with g (a :: gs_fl g) :: l2)).
Proof.
  intros I HG Hoa Hna. assert (g ∈ gh_slabs G) as Hg by (rewrite HG; set_solver).
  pose proof (si_slabs _ _ I) as Hs. rewrite Forall_forall in Hs.
  destruct (Hs g Hg) as [Hc Hos Hto Hfr Hch Hob Hnd]. pose proof (fl_bound _ _ _ I Hg) as HL.
  pose proof Hob as Hob'. rewrite Forall_forall in Hob'.
  destruct (obj_range _ _ _ _ I Hg Hoa) as [Ra _].
  pose proof (slab_block_page_disjoint _ _ _ _ I Hg Hoa) as Da.
  assert (u64 (ld64 (sl_ram s) (gs_addr g + off_freelist))
          = ld64 (sl_ram s) (gs_addr g + off_freelist)) as Hnx.
  { eapply chain_head_u64; [exact Hch|]. intros b Hb.
    destruct (obj_range _ _ _ _ I Hg (Hob' b Hb)). lia. }
  unfold do_free_slab_object_from_out. srun. eexists. split; [reflexivity|].
  match goal with |- sinv ?t _ => set (s' := t) end.
  set (m := sl_ram s) in *. set (A := gs_addr g) in *.
  assert (sl_ram s' = st64 (st64 (st64 m a (ld64 m (A + off_freelist))) (A + off_freelist) a)
            (A + off_free) (u64 (Z.of_nat (length (gs_fl g)) + 1))) as Em.
  { unfold s', sl_ram. simpl. do 3 f_equal. rewrite <- Hfr. unfold off_freelist, off_free in *.
    rewrite !ld64_st64_disjoint by lia. done. }
  assert (forall x, x + 8 <= A \/ A + 64 <= x -> x + 8 <= a \/ a + 8 <= x ->
            ld64 (sl_ram s') x = ld64 m x) as Hout.
  { intros x Hx Hx'. rewrite Em. unfold off_freelist, off_free in *.
    by rewrite !ld64_st64_disjoint by lia. }
  assert (forall o, o ∈ [off_next; off_object_size; off_total] ->
            ld64 (sl_ram s') (A + o) = ld64 m (A + o)) as Hkeep.
  { intros o Ho. rewrite Em. unfold off_freelist, off_free, off_next, off_object_size, off_total in *.
    rewrite !ld64_st64_disjoint; [done|..]; set_solver by lia. }
  destruct (obj_in_page _ _ Hc Hoa) as [P1 P2].
  apply (sinv_update s s' G l1 g (g_with g (a :: gs_fl g)) l2 I HG); try done.
  - intros x [Hx Hx']. apply Hout; [done|]. lia.
  - apply Hkeep. set_solver.
  - split; simpl length; simpl gs_addr; simpl gs_class; simpl gs_fl; fold A; try done.
    + rewrite Hkeep by set_solver. done.
    + rewrite Hkeep by set_solver. done.
    + rewrite Em, ld64_st64_same. rewrite !u64_small by (rewrite ?u64_small; lia). lia.
    + replace (ld64 (sl_ram s') (A + off_freelist)) with a.
      2:{ rewrite Em. unfold off_freelist, off_free.
          rewrite ld64_st64_disjoint by lia. rewrite ld64_st64_same, u64_small; lia. }
      simpl. split; [done|]. split; [lia|].
      replace (ld64 (sl_ram s') a) with (ld64 m (A + off_freelist)).
      2:{ rewrite Em. unfold off_freelist, off_free in *.
          rewrite !ld64_st64_disjoint by lia. by rewrite ld64_st64_same, Hnx. }
      apply (chain_ext m); [|done]. intros b Hb.
      assert (a <> b) by (by intros ->).
      apply Hout; [by apply (slab_block_page_disjoint s G g b I Hg), Hob'|].
      destruct (obj_disjoint g a b); auto.
    + by constructor.
    + by constructor.
Qed.
