(* ===== verification/SlabGrow.v ===== *)
(** Growth of the slab allocator: inflating the metadata pool, creating slabs
    and the slow path of [slab_alloc] (Slab.v), against the invariant of
    SlabInv.v. *)
From stdpp Require Import base gmap list.
From Stdlib Require Import ZArith Lia.
From S2P Require Import Prelude Bytes Pages Slab SlabInv.
Open Scope Z_scope.

(** ** Open chains *)
Fixpoint cseg (m : ram) (h : Z) (l : list Z) (e : Z) : Prop :=
  match l with
  | [] => h = e
  | a :: l' => h = a /\ a <> 0 /\ cseg m (ld64 m a) l' e
  end.

Lemma chain_cseg m h l : chain m h l <-> cseg m h l 0.
Proof. revert h; induction l as [|a l IH]; intros h; simpl; [done|]. by rewrite IH. Qed.

Lemma cseg_app m h l1 l2 e :
  cseg m h (l1 ++ l2) e <-> exists x, cseg m h l1 x /\ cseg m x l2 e.
Proof.
  revert h; induction l1 as [|a l1 IH]; intros h; simpl.
  - split; [eauto|by intros (x & -> & ?)].
  - rewrite IH. split; [intros (? & ? & x & ? & ?)|intros (x & (? & ? & ?) & ?)]; eauto 10.
Qed.

Lemma cseg_ext m m' h l e :
  (forall a, a ∈ l -> ld64 m' a = ld64 m a) -> cseg m h l e -> cseg m' h l e.
Proof.
  revert h; induction l as [|a l IH]; intros h H; simpl; [done|].
  intros (-> & Ha & Hl). split; [done|]. split; [done|].
  rewrite H by left. apply IH; [|done]. intros b Hb. apply H. by right.
Qed.

(** Redirecting the word of the last node of a chain. *)
Lemma chain_relink m m' h l b v :
  chain m h (l ++ [b]) -> (forall a, a ∈ l -> ld64 m' a = ld64 m a) -> ld64 m' b = v ->
  cseg m' h (l ++ [b]) v.
Proof.
  rewrite chain_cseg, !cseg_app. intros (x & H1 & H2) He Hb. exists x. split.
  - by apply (cseg_ext m).
  - simpl in *. destruct H2 as (? & ? & _). done.
Qed.

(** ** Laying out a page *)
Fixpoint link_ram (m : ram) (base stride : Z) (n : nat) (i : Z) : ram :=
  match n with
  | O => m
  | S n' => link_ram (st64 m (base + i * stride) (base + (i + 1) * stride)) base stride n' (i + 1)
  end.

Definition cells (base stride n : Z) : list Z := (fun j => base + j * stride) <$> seqZ 0 n.

Lemma link_ram_other m base stride n i x :
  8 <= stride ->
  (x + 8 <= base + i * stride \/ base + (i + Z.of_nat n) * stride <= x) ->
  ld64 (link_ram m base stride n i) x = ld64 m x.
Proof.
  intros Hs. revert m i; induction n as [|n IH]; intros m i Hx; cbn [link_ram]; [done|].
  rewrite IH by nia. apply ld64_st64_disjoint. nia.
Qed.

Lemma link_ram_cell m base stride n i j :
  8 <= stride -> i <= j < i + Z.of_nat n ->
  ld64 (link_ram m base stride n i) (base + j * stride) = u64 (base + (j + 1) * stride).
Proof.
  intros Hs. revert m i; induction n as [|n IH]; intros m i Hj; [lia|]. cbn [link_ram].
  destruct (decide (j = i)) as [->|].
  - rewrite link_ram_other by nia. apply ld64_st64_same.
  - apply IH. lia.
Qed.

Lemma link_loop_eq base stride n s :
  link_loop base stride n s =
  Ok (tt, set_mem (set_ram (link_ram (sl_ram s) base stride (Z.to_nat (n - 1)) 0) (sl_mem s)) s).
Proof.
  unfold link_loop. generalize 0 as i. generalize (Z.to_nat (n - 1)) as k.
  intros k. revert s; induction k as [|k IH]; intros s i; cbn [for_loop link_ram].
  - simpl. by destruct s as [[] ? ? ? ? ?].
  - srun. rewrite IH. done.
Qed.

Lemma cells_seg m base stride (k : nat) i e :
  8 <= stride -> 0 < base -> 0 <= i -> base + (i + Z.of_nat k) * stride < 2 ^ 64 ->
  (forall j, i <= j < i + Z.of_nat k -> ld64 m (base + j * stride) = u64 (base + (j + 1) * stride)) ->
  ld64 m (base + (i + Z.of_nat k) * stride) = e ->
  cseg m (base + i * stride) ((fun j => base + j * stride) <$> seqZ i (Z.of_nat (S k))) e.
Proof.
  intros Hs Hb. revert i; induction k as [|k IH]; intros i Hi Hlt Hl He.
  - change (Z.of_nat 1) with 1. rewrite seqZ_cons by lia. simpl. split; [done|].
    split; [nia|]. change (Z.pred 1) with 0. simpl.
    change (Z.of_nat 0) with 0 in He. by rewrite Z.add_0_r in He.
  - rewrite seqZ_cons by lia. simpl. split; [done|]. split; [nia|].
    rewrite Hl by lia. rewrite u64_small by nia.
    replace (Z.pred (Z.of_nat (S (S k)))) with (Z.of_nat (S k)) by lia.
    replace (Z.succ i) with (i + 1) by lia.
    apply IH; [lia|nia| |].
    + intros j Hj. apply Hl. lia.
    + rewrite <- He. do 2 f_equal. lia.
Qed.

(** After [link_loop] the cells of the page form a chain that leaves through
    the word of the last cell. *)
Lemma link_cells m base stride n :
  8 <= stride -> 0 < base -> 1 <= n -> base + n * stride < 2 ^ 64 ->
  let m' := link_ram m base stride (Z.to_nat (n - 1)) 0 in
  cseg m' base (cells base stride n) (ld64 m (base + (n - 1) * stride)).
Proof.
  intros Hs Hb Hn Hlt m'. unfold cells.
  pose proof (cells_seg m' base stride (Z.to_nat (n - 1)) 0 (ld64 m (base + (n - 1) * stride))
    Hs Hb ltac:(lia) ltac:(nia)) as C.
  replace (base + 0 * stride) with base in C by lia.
  replace (Z.of_nat (S (Z.to_nat (n - 1)))) with n in C by lia.
  apply C; subst m'.
  - intros j Hj. apply link_ram_cell; lia.
  - rewrite link_ram_other by nia.
    by replace (0 + Z.of_nat (Z.to_nat (n - 1))) with (n - 1) by lia.
Qed.

Lemma cells_nodup base stride n : 0 < stride -> NoDup (cells base stride n).
Proof.
  intros H. apply NoDup_fmap_2; [|apply NoDup_seqZ]. intros i j E. nia.
Qed.

Lemma elem_of_cells base stride n a :
  a ∈ cells base stride n <-> exists j, 0 <= j < n /\ a = base + j * stride.
Proof.
  unfold cells. rewrite list_elem_of_fmap. setoid_rewrite elem_of_seqZ.
  split; intros (j & ? & ?); exists j; split; (done || lia).
Qed.

Lemma length_cells base stride n : 0 <= n -> length (cells base stride n) = Z.to_nat n.
Proof. intros. unfold cells. by rewrite length_fmap, length_seqZ. Qed.

Lemma last_cells base stride n : 1 <= n -> last (cells base stride n) = Some (base + (n - 1) * stride).
Proof.
  intros H. unfold cells. replace n with (Z.of_nat (S (Z.to_nat (n - 1)))) at 1 by lia.
  rewrite seqZ_S, fmap_app. simpl. rewrite last_snoc.
  by replace (Z.of_nat (Z.to_nat (n - 1))) with (n - 1) by lia.
Qed.

(** ** Taking a page *)
Definition with_frames (G : ghost) (fr : frames) : ghost :=
  mkGhost fr (gh_meta G) (gh_ml G) (gh_slabs G) (gh_n G).

(** Frames whose words the invariant mentions. *)
Definition owned (G : ghost) (i : Z) : Prop :=
  i ∈ gh_meta G \/ exists g, g ∈ gh_slabs G /\ gs_page g = i.

Definition in_owned (G : ghost) (x : Z) : Prop :=
  exists i, owned G i /\ page_addr i <= x /\ x + 8 <= page_addr i + PG_4K_SIZE.

Lemma block_owned G b o :
  meta_block (gh_meta G) b -> 0 <= o <= 56 -> in_owned G (b + o).
Proof.
  intros Hb Ho. destruct (block_in_frame _ _ Hb) as (i & Hi & ? & ?).
  exists i. split; [by left|]. lia.
Qed.

Lemma obj_owned s G g a : sinv s G -> g ∈ gh_slabs G -> a ∈ gs_fl g -> in_owned G a.
Proof.
  intros I Hg Ha. pose proof (si_slabs _ _ I) as Hs. rewrite Forall_forall in Hs.
  destruct (Hs g Hg) as [Hc _ _ _ _ Ho _]. rewrite Forall_forall in Ho.
  destruct (obj_in_page g a Hc (Ho a Ha)). exists (gs_page g).
  split; [right; eauto|lia].
Qed.

(** The words the invariant reads: those of free blocks and of slabs, and the
    link words of free objects. *)
Definition footprint (G : ghost) (x : Z) : Prop :=
  (exists b o, b ∈ gh_ml G ++ (gs_addr <$> gh_slabs G) /\ 0 <= o < 8 /\ x = b + 8 * o) \/
  (exists g, g ∈ gh_slabs G /\ x ∈ gs_fl g).

Lemma footprint_owned s G x : sinv s G -> footprint G x -> in_owned G x.
Proof.
  intros I [(b & o & Hb & Ho & ->)|(g & Hg & Hx)].
  - apply block_owned; [|lia]. pose proof (si_blocks _ _ I) as F. rewrite Forall_forall in F.
    by apply F.
  - by apply (obj_owned s G g).
Qed.

Lemma footprint_block G b : b ∈ gh_ml G -> footprint G b.
Proof. intros. left. exists b, 0. split; [set_solver|lia]. Qed.

Lemma footprint_slab G g o :
  g ∈ gh_slabs G -> o ∈ [off_freelist; off_object_size; off_total; off_free; off_next] ->
  footprint G (gs_addr g + o).
Proof.
  intros Hg Ho. left. exists (gs_addr g), (o / 8). split.
  - apply elem_of_app. right. by apply list_elem_of_fmap_2.
  - unfold off_freelist, off_object_size, off_total, off_free, off_next in Ho.
    rewrite !elem_of_cons, elem_of_nil in Ho.
    destruct Ho as [->|[->|[->|[->|[->|[]]]]]]; split; (done || lia).
Qed.

(** The invariant only reads its footprint: RAM, frames and descriptors may
    change elsewhere. *)
Lemma sinv_frame s s' G fr :
  sinv s G -> repr (sl_mem s') fr ->
  (forall i, owned G i -> is_Some (fr_used fr !! i)) ->
  (forall i, owned G i -> pg_slab <$> km_pages (sl_mem s') !! i
                          = pg_slab <$> km_pages (sl_mem s) !! i) ->
  (forall x, footprint G x -> ld64 (sl_ram s') x = ld64 (sl_ram s) x) ->
  sl_slabs s' = sl_slabs s -> mp_freelist s' = mp_freelist s -> mp_end s' = mp_end s ->
  mp_free s' = mp_free s ->
  sinv s' (with_frames G fr).
Proof.
  intros I R Hu Hpg Hx Esl Efl Een Efr. pose proof I as [R0 Hp He Hf Hsm Hm Hb Hd Hpgs Hpn Hs Hcls Hh].
  pose proof Hb as Hb'. rewrite Forall_app, Forall_fmap in Hb'. destruct Hb' as [Hbm Hbs].
  rewrite Forall_forall in Hbm. rewrite Forall_forall in Hbs. rewrite Forall_forall in Hs.
  split; simpl; rewrite ?Efl, ?Een, ?Efr, ?Esl; try done.
  - apply (chain_ext (sl_ram s)); [|done]. intros a Ha. apply Hx.
    by apply footprint_block.
  - intros i Hi. split; [apply Hu; by left|]. by apply Hm.
  - intros g Hg. assert (owned G (gs_page g)) as Ho by (right; eauto).
    destruct (Hpgs g Hg) as (_ & ? & p & Ep & Eps). split_and!; [by apply Hu|done|].
    pose proof (Hpg _ Ho) as E. rewrite Ep in E. simpl in E.
    destruct (km_pages (sl_mem s') !! gs_page g) as [q|]; [|done].
    exists q. split; [done|]. injection E. congruence.
  - apply Forall_forall. intros g Hg. apply (slab_ok_ext (sl_ram s)); [by apply Hs| |].
    + intros o Ho. apply Hx, footprint_slab; [done|set_solver].
    + intros a Ha. apply Hx. right. eauto.
  - intros k Hk. destruct (Hh k Hk) as (h & ? & ? & Hc). exists h. split; [done|]. split; [done|].
    apply (nchain_ext (sl_ram s)); [|done]. intros a Ha.
    apply list_elem_of_fmap in Ha as (g & -> & Hg). apply list_elem_of_filter in Hg as [_ Hg].
    apply Hx, footprint_slab; [done|set_solver].
Qed.

Lemma owned_used s G i : sinv s G -> owned G i -> is_Some (fr_used (gh_fr G) !! i).
Proof.
  intros I [Hi|(g & Hg & <-)]; [by apply (si_meta _ _ I)|by apply (si_pages _ _ I)].
Qed.

(** What the slab code gets from the page allocator. *)
Lemma sl_alloc_page_spec s G :
  sinv s G ->
  match fr_free (gh_fr G) with
  | [] => sl_alloc_page s = Ok (0, s)
  | i :: l =>
      let fr := mkFrames l (<[i := 1]> (fr_used (gh_fr G))) in
      exists k, sl_alloc_page s = Ok (page_addr i, set_mem k s) /\
        sinv (set_mem k s) (with_frames G fr) /\ ~ owned G i /\ 0 <= i < 2 ^ 49 /\
        is_Some (km_pages k !! i) /\
        (forall x, page_addr i <= x -> x + 8 <= page_addr i + PG_4K_SIZE -> ld64 (km_ram k) x = 0) /\
        (forall x, in_owned G x -> ld64 (km_ram k) x = ld64 (sl_ram s) x)
  end.
Proof.
  intros I. pose proof (alloc_page_spec _ _ (si_repr _ _ I)) as A. unfold spec_alloc in A.
  destruct (fr_free (gh_fr G)) as [|i l] eqn:Ef.
  - unfold sl_alloc_page. cbn [zoom]. rewrite A. by destruct s.
  - intros fr. destruct A as (k & A & R & Hram).
    assert (~ owned G i) as Hno.
    { intros Ho. destruct (owned_used _ _ _ I Ho) as [rc Hu].
      apply (used_not_free _ _ _ _ (si_repr _ _ I) Hu). rewrite Ef. left. }
    destruct (r_used _ _ R i 1 ltac:(simpl; by rewrite lookup_insert_eq)) as (p & Hp & _).
    assert (forall x, in_owned G x -> ld64 (km_ram k) x = ld64 (sl_ram s) x) as Hx.
    { intros x (j & Hj & ? & ?). rewrite Hram. apply ld64_memset_disjoint; [unfold PG_4K_SIZE; lia|].
      destruct (frames_disjoint i j); [intros ->; exact (Hno Hj)|lia|lia]. }
    assert (forall x, page_addr i <= x -> x + 8 <= page_addr i + PG_4K_SIZE ->
              ld64 (km_ram k) x = 0) as Hz.
    { intros x ? ?. rewrite Hram. apply ld64_memset_zero; lia. }
    clear Hram. destruct (r_desc _ _ R _ _ Hp) as (Hi & _).
    destruct (r_free _ _ (si_repr _ _ I) i) as (q & Hq & _); [rewrite Ef; left|].
    assert (free_head (km_gmd (sl_mem s)) = Some i) as Hh.
    { pose proof (r_list _ _ (si_repr _ _ I)) as L. rewrite Ef in L. apply L. }
    assert (km_pages k = <[i := taken q]> (km_pages (sl_mem s))) as Ek.
    { rewrite (alloc_page_cons _ i q Hh Hq) in A. by injection A as _ <-. }
    exists k. unfold sl_alloc_page. cbn [zoom]. rewrite A. clear A. split; [reflexivity|].
    split; [|eauto 10].
    apply (sinv_frame s); try done; [| |intros x Hf; by apply Hx, (footprint_owned s)].
    + intros j Hj. simpl. rewrite lookup_insert_ne by (intros ->; exact (Hno Hj)).
      by apply (owned_used s).
    + intros j Hj. simpl. rewrite Ek, lookup_insert_ne; [done|].
      intros ->. exact (Hno Hj).
Qed.

(** ** Inflating the metadata pool *)
Definition grown (G : ghost) (i : Z) (l : list Z) : ghost :=
  mkGhost (mkFrames l (<[i := 1]> (fr_used (gh_fr G)))) (i :: gh_meta G)
    (gh_ml G ++ cells (page_addr i) SIZEOF_SLAB 64) (gh_slabs G) (gh_n G).

Lemma meta_block_mono meta i a : meta_block meta a -> meta_block (i :: meta) a.
Proof. intros (j & o & Hj & H). exists j, o. split; [by right|done]. Qed.

Lemma cells_blocks i meta a :
  a ∈ cells (page_addr i) SIZEOF_SLAB 64 -> meta_block (i :: meta) a.
Proof. intros (j & Hj & ->)%elem_of_cells. exists i, j. split; [left|done]. Qed.

(** Once the RAM is known to link a fresh page behind the pool, the invariant
    holds for the grown ghost state. *)
Lemma sinv_grown s s' G i l ml0 :
  sinv s G -> fr_free (gh_fr G) = i :: l -> gh_ml G = ml0 ++ [mp_end s] ->
  repr (sl_mem s') (gh_fr (grown G i l)) -> ~ owned G i -> 0 <= i < 2 ^ 49 ->
  (forall j, owned G j -> pg_slab <$> km_pages (sl_mem s') !! j
                          = pg_slab <$> km_pages (sl_mem s) !! j) ->
  (forall x, in_owned G x -> x + 8 <= mp_end s \/ mp_end s + 8 <= x ->
     ld64 (sl_ram s') x = ld64 (sl_ram s) x) ->
  ld64 (sl_ram s') (mp_end s) = page_addr i ->
  cseg (sl_ram s') (page_addr i) (cells (page_addr i) SIZEOF_SLAB 64) 0 ->
  sl_slabs s' = sl_slabs s -> mp_freelist s' = mp_freelist s ->
  mp_end s' = page_addr i + 63 * SIZEOF_SLAB -> mp_free s' = mp_free s + 64 ->
  Z.of_nat (length (gh_ml G)) + 64 < 2 ^ 40 ->
  sinv s' (grown G i l).
Proof.
  intros I Ef Eml R Hno Hi Hpg Hx Hend Hc Esl Efl Een Efr Hsm'.
  pose proof I as [R0 Hp He Hf Hsm Hm Hb Hd Hpgs Hpn Hs Hcls Hh].
  pose proof Hb as Hb'. rewrite Forall_app, Forall_fmap in Hb'. destruct Hb' as [Hbm Hbs].
  rewrite Forall_forall in Hbm. rewrite Forall_forall in Hbs. rewrite Forall_forall in Hs.
  set (e := mp_end s) in *.
  assert (e ∈ gh_ml G) as Hein by (rewrite Eml; set_solver).
  assert (forall b o, meta_block (gh_meta G) b -> b <> e -> 0 <= o <= 56 ->
            ld64 (sl_ram s') (b + o) = ld64 (sl_ram s) (b + o)) as Hblk.
  { intros b o Hbb Hne Ho. apply Hx; [by apply block_owned|].
    destruct (blocks_disjoint _ _ _ Hbb (Hbm e Hein) Hne); lia. }
  assert (forall g, g ∈ gh_slabs G -> gs_addr g <> e) as Hge.
  { intros g Hg E. apply NoDup_app in Hd as (_ & Hdj & _). apply (Hdj e Hein).
    rewrite <- E. by apply list_elem_of_fmap_2. }
  assert (forall a, a ∈ cells (page_addr i) SIZEOF_SLAB 64 -> ~ meta_block (gh_meta G) a) as Hfresh.
  { intros a (j & Hj & ->)%elem_of_cells Hmb.
    destruct (block_in_frame _ _ Hmb) as (j' & Hj' & ? & ?).
    destruct (frames_disjoint i j'); [intros ->; apply Hno; by left| |];
      unfold SIZEOF_SLAB, PG_4K_SIZE in *; lia. }
  split; simpl; rewrite ?Efl, ?Esl; try done.
  - apply chain_cseg, cseg_app. exists (page_addr i). split; [|done].
    rewrite Eml. apply (chain_relink (sl_ram s)); [by rewrite <- Eml| |done].
    intros a Ha. rewrite <- (Z.add_0_r a). apply Hblk; [|..|lia].
    + apply Hbm. rewrite Eml. set_solver.
    + intros ->. apply NoDup_app in Hd as (Hd & _ & _). rewrite Eml in Hd.
      apply NoDup_app in Hd as (_ & Hd & _). apply (Hd _ Ha). set_solver.
  - rewrite last_app, last_cells by lia. by rewrite Een.
  - rewrite length_app, length_cells by lia. rewrite Efr, Hf. lia.
  - rewrite length_app, length_cells by lia. lia.
  - intros j [->|Hj]%elem_of_cons.
    + split; [by rewrite lookup_insert_eq|done].
    + split; [|by apply Hm]. rewrite lookup_insert_ne; [by apply Hm|].
      intros ->. apply Hno. by left.
  - rewrite <- app_assoc, !Forall_app, Forall_fmap. split_and!; apply Forall_forall.
    + intros a Ha. by apply meta_block_mono, Hbm.
    + intros a Ha. by apply cells_blocks.
    + intros g Hg. by apply meta_block_mono, (Hbs g).
  - rewrite <- app_assoc. apply NoDup_app in Hd as (Hd1 & Hd2 & Hd3).
    apply NoDup_app. split; [done|]. split.
    + intros a Ha [Hin|Hin]%elem_of_app; [|by apply (Hd2 a)].
      by apply (Hfresh a Hin), Hbm.
    + apply NoDup_app. split; [apply cells_nodup; unfold SIZEOF_SLAB; lia|]. split; [|done].
      intros a Ha (g & -> & Hg)%list_elem_of_fmap. by apply (Hfresh _ Ha), (Hbs g).
  - intros g Hg. assert (owned G (gs_page g)) as Ho by (right; eauto).
    assert (gs_page g <> i) as Hne by (intros E; apply Hno; by rewrite <- E).
    destruct (Hpgs g Hg) as (Hu & Hnm & p & Ep & Eps).
    split; [by rewrite lookup_insert_ne|]. split; [set_solver|].
    pose proof (Hpg _ Ho) as E. rewrite Ep in E. simpl in E.
    destruct (km_pages (sl_mem s') !! gs_page g) as [q|]; [|done].
    exists q. split; [done|]. injection E. congruence.
  - apply Forall_forall. intros g Hg. apply (slab_ok_ext (sl_ram s)); [by apply Hs| |].
    + intros o Ho. apply Hblk; [by apply (Hbs g)|by apply Hge|by apply field_off].
    + intros a Ha. apply Hx; [by apply (obj_owned s G g)|].
      destruct (Hs g Hg) as [Hcl _ _ _ _ Ho _]. rewrite Forall_forall in Ho.
      destruct (obj_in_page g a Hcl (Ho a Ha)).
      destruct (block_in_frame _ _ (Hbm e Hein)) as (j & Hj & ? & ?).
      destruct (frames_disjoint j (gs_page g)); [|lia..].
      intros ->. destruct (Hpgs g Hg) as (_ & Hnm & _). exact (Hnm Hj).
  - intros k Hk. destruct (Hh k Hk) as (h & ? & ? & Hnc). exists h. split; [done|]. split; [done|].
    apply (nchain_ext (sl_ram s)); [|done]. intros a Ha.
    apply list_elem_of_fmap in Ha as (g & -> & Hg). apply list_elem_of_filter in Hg as [_ Hg].
    apply Hblk; [by apply (Hbs g)|by apply Hge|unfold off_next; lia].
Qed.
