(* ===== verification/SlabOps.v ===== *)
(** The slow paths of the slab allocator: growing the metadata pool, creating
    a slab, and the complete [slab_alloc] and [slab_free]. *)
From stdpp Require Import base gmap list.
From Stdlib Require Import ZArith Lia.
From S2P Require Import Prelude Bytes Pages Slab SlabInv SlabGrow.
Open Scope Z_scope.

(** One page of inflation.  The pool's own counters are only updated at the
    end of [inflate_slab_meta_pool], so the result is stated on the state with
    the counters adjusted. *)
Lemma inflate_step n z s G i l :
  sinv s G -> fr_free (gh_fr G) = i :: l -> Z.of_nat (length (gh_ml G)) + 64 < 2 ^ 40 ->
  let last' := page_addr i + 63 * SIZEOF_SLAB in
  exists k, (forall s0, sl_mem s0 = sl_mem s ->
      inflate_loop (S n) (mp_end s) z s0 = inflate_loop n last' last' (set_mem k s0)) /\
    sinv (set_pool (mp_freelist s) last' (mp_total s) (mp_free s + 64) (set_mem k s))
      (grown G i l) /\
    ld64 (km_ram k) last' = 0 /\
    (forall x, in_owned G x -> x + 8 <= mp_end s \/ mp_end s + 8 <= x ->
       ld64 (km_ram k) x = ld64 (sl_ram s) x).
Proof.
  intros I Ef Hsm last'. pose proof (sl_alloc_page_spec s G I) as A. rewrite Ef in A.
  destruct A as (k0 & A & I0 & Hno & Hi & _ & Hz & Hx).
  assert (exists ml0, gh_ml G = ml0 ++ [mp_end s]) as [ml0 Eml].
  { by apply last_Some, (si_pool_end _ _ I). }
  pose proof (si_blocks _ _ I) as Hb. rewrite Forall_app in Hb. destruct Hb as [Hbm _].
  rewrite Forall_forall in Hbm. pose proof (Hbm (mp_end s) ltac:(rewrite Eml; set_solver)) as He.
  assert (0 < mp_end s < 2 ^ 62) as Hpos.
  { apply (block_pos (gh_meta G)); [done|]. intros j Hj. by apply (si_meta _ _ I). }
  set (e := mp_end s) in *. set (p := page_addr i) in *.
  assert (0 < p /\ p + PG_4K_SIZE < 2 ^ 62) as Hp
    by (unfold p, page_addr, MEMORY_START, PG_4K_SIZE; lia).
  assert (e + 64 <= p \/ p + PG_4K_SIZE <= e) as Dep.
  { destruct (block_in_frame _ _ He) as (j & Hj & ? & ?).
    destruct (frames_disjoint j i); [intros ->; apply Hno; by left|..]; subst p; lia. }
  set (m := link_ram (st64 (km_ram k0) e p) p SIZEOF_SLAB (Z.to_nat (64 - 1)) 0).
  exists (set_ram m k0). unfold SIZEOF_SLAB, PG_4K_SIZE in *.
  assert (forall x, x + 8 <= p \/ p + 4096 <= x -> x + 8 <= e \/ e + 8 <= x ->
            ld64 m x = ld64 (km_ram k0) x) as Hm.
  { intros x H1 H2. unfold m. rewrite link_ram_other by lia. apply ld64_st64_disjoint. lia. }
  assert (ld64 m e = p) as Hme.
  { unfold m. rewrite link_ram_other by lia. rewrite ld64_st64_same. apply u64_small. lia. }
  assert (ld64 m last' = 0) as Hlast.
  { unfold m, last'. rewrite link_ram_other by (subst p; lia).
    rewrite ld64_st64_disjoint by (subst p; lia). apply Hz; subst p; lia. }
  assert (cseg m p (cells p 64 64) 0) as Hcells.
  { pose proof (link_cells (st64 (km_ram k0) e p) p 64 64 ltac:(lia) ltac:(lia) ltac:(lia)
      ltac:(lia)) as C. cbv zeta in C. fold m in C.
    replace (ld64 (st64 (km_ram k0) e p) (p + (64 - 1) * 64)) with 0 in C; [exact C|].
    rewrite ld64_st64_disjoint by lia. symmetry. apply Hz; subst p; lia. }
  split.
  { intros s0 Es0. cbn [inflate_loop]. srun.
    unfold sl_alloc_page in A |- *. cbn [zoom] in A |- *. rewrite Es0.
    destruct (alloc_page (sl_mem s)) as [[pa k1]| | |]; [|done..].
    injection A as -> E1. subst k1.
    rewrite (proj2 (Z.eqb_neq p 0)) by lia.
    rewrite (proj2 (Z.eqb_neq e 0)) by lia. srun. rewrite link_loop_eq. srun. reflexivity. }
  clearbody m.
  assert (forall x, in_owned G x -> x + 8 <= e \/ e + 8 <= x ->
       ld64 m x = ld64 (sl_ram s) x) as Hkeep.
  { intros x Hox Hxe. rewrite Hm; [by apply Hx| |done].
    destruct Hox as (j & Hj & ? & ?). unfold PG_4K_SIZE in *.
    destruct (frames_disjoint j i); [intros ->; exact (Hno Hj)|..]; unfold PG_4K_SIZE in *;
      subst p; lia. }
  split; [|exact (conj Hlast Hkeep)].
  assert (forall j, owned G j -> pg_slab <$> km_pages k0 !! j
                          = pg_slab <$> km_pages (sl_mem s) !! j) as Hpgs.
  { intros j Hj. unfold sl_alloc_page in A. cbn [zoom] in A.
    destruct (r_free _ _ (si_repr _ _ I) i) as (q & Hq & _); [rewrite Ef; left|].
    assert (free_head (km_gmd (sl_mem s)) = Some i) as Hh.
    { pose proof (r_list _ _ (si_repr _ _ I)) as L. rewrite Ef in L. apply L. }
    rewrite (alloc_page_cons _ i q Hh Hq) in A. injection A as _ E1.
    rewrite <- E1. simpl. rewrite lookup_insert_ne; [done|]. intros ->. exact (Hno Hj). }
  pose proof (repr_set_ram m _ _ (si_repr _ _ I0)) as R. clear A I0.
  apply (sinv_grown s _ G i l ml0); try assumption; reflexivity.
Qed.

(** Every word of a page that stores objects. *)
Definition obj_word (G : ghost) (x : Z) : Prop :=
  exists g, g ∈ gh_slabs G /\ page_addr (gs_page g) <= x /\
    x + 8 <= page_addr (gs_page g) + PG_4K_SIZE.

(** [s'] still holds every word of the object pages of [G]. *)
Definition keeps (G : ghost) (s s' : slab_state) : Prop :=
  forall x, obj_word G x -> ld64 (sl_ram s') x = ld64 (sl_ram s) x.

Lemma keeps_trans G s1 s2 s3 : keeps G s1 s2 -> keeps G s2 s3 -> keeps G s1 s3.
Proof. intros H1 H2 x Hx. by rewrite H2, H1. Qed.

(** Words of a metadata block are not words of an object page. *)
Lemma obj_word_block s G b x :
  sinv s G -> meta_block (gh_meta G) b -> obj_word G x -> x + 8 <= b \/ b + 64 <= x.
Proof.
  intros I Hb (g & Hg & ? & ?). destruct (block_in_frame _ _ Hb) as (i & Hi & ? & ?).
  destruct (si_pages _ _ I g Hg) as (_ & Hn & _).
  destruct (frames_disjoint i (gs_page g)); [by intros ->|lia..].
Qed.

Lemma obj_word_owned G x : obj_word G x -> in_owned G x.
Proof. intros (g & Hg & ?). exists (gs_page g). split; [right; eauto|done]. Qed.

Lemma pool_nonempty s G : sinv s G -> exists a ml, gh_ml G = a :: ml.
Proof.
  intros I. pose proof (si_pool_end _ _ I) as H. destruct (gh_ml G) as [|a ml]; [done|eauto].
Qed.

(** A block that is neither free nor in use: the one being set up. *)
Definition floating (G : ghost) (a : Z) : Prop :=
  meta_block (gh_meta G) a /\ a ∉ gh_ml G ++ (gs_addr <$> gh_slabs G).

Lemma footprint_float s G a x :
  sinv s G -> floating G a -> footprint G x -> x + 8 <= a \/ a + 64 <= x.
Proof.
  intros I [Ha Hn] [(b & o & Hb & Ho & ->)|(g & Hg & Hx)].
  - pose proof (si_blocks _ _ I) as F. rewrite Forall_forall in F.
    destruct (blocks_disjoint _ _ _ (F b Hb) Ha); [by intros ->|lia..].
  - apply (obj_word_block s G); [done..|]. exists g. split; [done|].
    pose proof (si_slabs _ _ I) as Hs. rewrite Forall_forall in Hs.
    destruct (Hs g Hg) as [Hc _ _ _ _ Hob _]. rewrite Forall_forall in Hob.
    apply obj_in_page; auto.
Qed.

Lemma with_frames_id G : with_frames G (gh_fr G) = G.
Proof. by destruct G. Qed.

(** Writing a floating block keeps the invariant. *)
Lemma sinv_float s s' G a :
  sinv s G -> floating G a ->
  km_pages (sl_mem s') = km_pages (sl_mem s) -> km_gmd (sl_mem s') = km_gmd (sl_mem s) ->
  sl_slabs s' = sl_slabs s -> mp_freelist s' = mp_freelist s -> mp_end s' = mp_end s ->
  mp_free s' = mp_free s ->
  (forall x, x + 8 <= a \/ a + 64 <= x -> ld64 (sl_ram s') x = ld64 (sl_ram s) x) ->
  sinv s' G.
Proof.
  intros I Hf Ep Eg E1 E2 E3 E4 Hx. rewrite <- (with_frames_id G).
  apply (sinv_frame s); try done.
  - destruct (si_repr _ _ I). split; rewrite ?Ep, ?Eg; done.
  - intros i Hi. by apply (owned_used s).
  - intros i _. by rewrite Ep.
  - intros x Hfp. by apply Hx, (footprint_float s G).
Qed.

Lemma end_in_pool s G : sinv s G -> mp_end s ∈ gh_ml G.
Proof.
  intros I. pose proof (si_pool_end _ _ I) as H. apply last_Some in H as [l ->]. set_solver.
Qed.

Lemma end_block s G : sinv s G -> meta_block (gh_meta G) (mp_end s).
Proof.
  intros I. pose proof (si_blocks _ _ I) as F. rewrite Forall_forall in F.
  apply F, elem_of_app. left. by apply end_in_pool.
Qed.

Lemma obj_word_end s G x : sinv s G -> obj_word G x -> x + 8 <= mp_end s \/ mp_end s + 64 <= x.
Proof. intros I. apply (obj_word_block s G); [done|by apply end_block]. Qed.

Lemma footprint_end s G x :
  sinv s G -> footprint G x -> x = mp_end s \/ x + 8 <= mp_end s \/ mp_end s + 8 <= x.
Proof.
  intros I [(b & o & Hb & Ho & ->)|(g & Hg & Hx)].
  - pose proof (si_blocks _ _ I) as F. rewrite Forall_forall in F.
    destruct (decide (b = mp_end s)) as [->|Hne]; [lia|].
    destruct (blocks_disjoint _ _ _ (F b Hb) (end_block _ _ I) Hne); lia.
  - assert (obj_word G x) as Hw.
    { exists g. split; [done|]. pose proof (si_slabs _ _ I) as Hs. rewrite Forall_forall in Hs.
      destruct (Hs g Hg) as [Hc _ _ _ _ Hob _]. rewrite Forall_forall in Hob.
      apply obj_in_page; auto. }
    pose proof (obj_word_end _ _ _ I Hw). lia.
Qed.

(** The frames left after [inflate_slab_meta_pool(2)]. *)
Lemma inflate_two s G i j l :
  sinv s G -> fr_free (gh_fr G) = i :: j :: l -> Z.of_nat (length (gh_ml G)) + 128 < 2 ^ 40 ->
  exists s', inflate_slab_meta_pool 2 s = Ok (tt, s') /\
    sinv s' (grown (grown G i (j :: l)) j l) /\ keeps G s s' /\ sl_slabs s' = sl_slabs s.
Proof.
  intros I Ef Hsm.
  destruct (inflate_step 1 0 s G i (j :: l) I Ef ltac:(lia)) as (k1 & E1 & I1 & _ & K1).
  set (e1 := page_addr i + 63 * SIZEOF_SLAB) in *.
  match type of I1 with sinv ?t _ => set (s1 := t) in * end.
  destruct (inflate_step 0 e1 s1 (grown G i (j :: l)) j l I1 eq_refl) as (k2 & E2 & I2 & Z2 & K2).
  { simpl. rewrite length_app, length_cells by lia. lia. }
  set (e2 := page_addr j + 63 * SIZEOF_SLAB) in *.
  unfold inflate_slab_meta_pool. srun. change (2 =? 0) with false. cbv iota.
  srun. change (Z.to_nat 2) with 2%nat. rewrite (E1 s eq_refl).
  change e1 with (mp_end s1) at 1. rewrite (E2 (set_mem k1 s) eq_refl).
  cbn [inflate_loop]. srun. eexists. split; [reflexivity|].
  match goal with |- sinv ?t _ /\ _ => set (s' := t) end.
  assert (forall x, x = e2 \/ x + 8 <= e2 \/ e2 + 8 <= x ->
            ld64 (sl_ram s') x = ld64 (km_ram k2) x) as Hr.
  { intros x Hx. subst s'. unfold sl_ram. simpl. destruct Hx as [->|Hx].
    - by rewrite ld64_st64_same, Z2.
    - by apply ld64_st64_disjoint. }
  assert (mp_free s' = mp_free s + 128) as Hfr.
  { subst s'. simpl. pose proof (si_pool_free _ _ I). rewrite u64_small; [done|].
    change (PG_4K_SIZE / SIZEOF_SLAB) with 64. lia. }
  split; [|split; [|done]].
  - rewrite <- (with_frames_id (grown _ j l)).
    apply (sinv_frame _ s' _ _ I2); try reflexivity.
    + apply repr_set_ram. exact (si_repr _ _ I2).
    + intros x Hx. exact (owned_used _ _ _ I2 Hx).
    + intros x Hx. apply Hr. exact (footprint_end _ _ _ I2 Hx).
    + simpl. change (PG_4K_SIZE / SIZEOF_SLAB) with 64 in *. simpl in Hfr. lia.
  - intros x Hx. pose proof (obj_word_end _ _ _ I Hx) as D0.
    pose proof (obj_word_end _ _ x I1 Hx) as D1. pose proof (obj_word_end _ _ x I2 Hx) as D2.
    simpl in D1, D2. rewrite Hr, K2, <- K1; [done|by apply obj_word_owned|lia| |simpl; lia|lia].
    apply obj_word_owned, Hx.
Qed.

(** ** Taking and returning a metadata block *)
Definition with_ml (G : ghost) (ml : list Z) : ghost :=
  mkGhost (gh_fr G) (gh_meta G) ml (gh_slabs G) (gh_n G).

Definition meta_take : M slab_state Z :=
  let* slab := gets mp_freelist in
  let* nxt := rd slab in
  modify (fun s => set_pool nxt (mp_end s) (mp_total s) (u64 (mp_free s - 1)) s) ;;;
  mret slab.

Lemma meta_take_spec s G a ml :
  sinv s G -> gh_ml G = a :: ml -> ml <> [] ->
  exists s', meta_take s = Ok (a, s') /\ sinv s' (with_ml G ml) /\ floating (with_ml G ml) a /\
    sl_mem s' = sl_mem s /\ sl_slabs s' = sl_slabs s.
Proof.
  intros I Em Hne. pose proof I as [R Hp He Hf Hsm Hm Hb Hd Hpg Hpn Hs Hcls Hh].
  rewrite Em in *. simpl in Hp. destruct Hp as (Ea & Ha & Hc).
  unfold meta_take. srun. rewrite Ea. eexists. split; [reflexivity|].
  apply NoDup_cons in Hd as [Hd1 Hd2]. apply Forall_cons in Hb as [Hb1 Hb2].
  simpl length in *. split; [|split; [split; done|split; done]].
  split; simpl; try done.
  - rewrite <- He. destruct ml; done.
  - rewrite u64_small by lia. lia.
  - lia.
Qed.

(** [slab_free_meta] of a floating block. *)
Lemma slab_free_meta_spec s G a :
  sinv s G -> floating G a -> Z.of_nat (length (gh_ml G)) + 1 < 2 ^ 40 ->
  exists s', slab_free_meta a s = Ok (tt, s') /\ sinv s' (with_ml G (a :: gh_ml G)) /\
    keeps G s s' /\ sl_slabs s' = sl_slabs s.
Proof.
  intros I Hfl Hlen. assert (floating G a) as [Hmb Hn] by done.
  unfold slab_free_meta. srun. eexists. split; [reflexivity|].
  match goal with |- sinv ?t _ /\ _ => set (s' := t) end.
  assert (0 < a < 2 ^ 62) as Ra by (apply (block_pos _ _ Hmb), (fun i Hi => proj2 (si_meta _ _ I i Hi))).
  assert (forall x, x + 8 <= a \/ a + 64 <= x -> ld64 (sl_ram s') x = ld64 (sl_ram s) x) as Hx.
  { intros x ?. apply ld64_st64_disjoint. lia. }
  assert (ld64 (sl_ram s') a = mp_freelist s) as Hla.
  { unfold s', sl_ram. simpl. rewrite ld64_st64_same. eapply chain_head_u64; [apply (si_pool _ _ I)|].
    intros b Hb. pose proof (si_blocks _ _ I) as F. rewrite Forall_forall in F.
    assert (meta_block (gh_meta G) b) as Hbb by (apply F; set_solver).
    pose proof (block_pos _ _ Hbb (fun i Hi => proj2 (si_meta _ _ I i Hi))). lia. }
  assert (keeps G s s') as Hk by (intros x Hw; by apply Hx, (obj_word_block s G)).
  split; [|done].
  assert (sinv (set_mem (sl_mem s') s) G) as [R Hp He Hf Hsm Hm Hb Hd Hpg Hpn Hs Hcls Hh].
  { apply (sinv_float s _ G a); done. }
  change (sl_ram (set_mem (sl_mem s') s)) with (sl_ram s') in *.
  split; try done.
  - simpl. split; [done|]. split; [lia|]. by rewrite Hla.
  - simpl. destruct (gh_ml G); [done|]. exact He.
  - simpl. rewrite u64_small; simpl in Hf; lia.
  - simpl. lia.
  - simpl. by constructor.
  - simpl. by constructor.
Qed.

Lemma inflate_two_fails s G :
  sinv s G -> (length (fr_free (gh_fr G)) < 2)%nat -> Z.of_nat (length (gh_ml G)) + 64 < 2 ^ 40 ->
  inflate_slab_meta_pool 2 s = Halt.
Proof.
  intros I Hl Hsm. unfold inflate_slab_meta_pool. srun. change (2 =? 0) with false. cbv iota.
  srun. change (Z.to_nat 2) with 2%nat.
  pose proof (sl_alloc_page_spec s G I) as A.
  destruct (fr_free (gh_fr G)) as [|i [|]] eqn:Ef; [| |simpl in Hl; lia].
  - cbn [inflate_loop]. srun. by rewrite A.
  - destruct (inflate_step 1 0 s G i [] I Ef Hsm) as (k1 & E1 & I1 & _). rewrite (E1 s eq_refl).
    pose proof (sl_alloc_page_spec _ _ I1) as A1. simpl in A1. clear A.
    cbn [inflate_loop]. srun. unfold sl_alloc_page in A1 |- *. cbn [zoom] in A1 |- *.
    simpl sl_mem in *. destruct (alloc_page k1) as [[pa k2]| | |]; [|done..].
    by injection A1 as -> _.
Qed.

Lemma slab_alloc_meta_spec s G :
  sinv s G ->
  (exists a s' G', slab_alloc_meta s = Ok (a, s') /\ sinv s' G' /\ floating G' a /\
     keeps G s s' /\ gh_slabs G' = gh_slabs G /\ gh_n G' = gh_n G /\ sl_slabs s' = sl_slabs s /\
     (length (fr_free (gh_fr G)) <= length (fr_free (gh_fr G')) + 2)%nat /\
     Z.of_nat (length (gh_ml G')) + 1 < 2 ^ 40) \/
  (slab_alloc_meta s = Halt /\ (length (fr_free (gh_fr G)) < 2)%nat).
Proof.
  intros I. destruct (pool_nonempty _ _ I) as (a & ml & Em).
  pose proof (si_pool_free _ _ I) as Hf. rewrite Em in Hf. simpl length in Hf.
  pose proof (si_pool_small _ _ I) as Hsm. rewrite Em in Hsm. simpl length in Hsm.
  unfold slab_alloc_meta. srun. rewrite Hf. destruct ml as [|b ml].
  - cbn [length]. change (Z.of_nat 1 =? 1) with true. cbv iota.
    destruct (decide (length (fr_free (gh_fr G)) < 2)%nat) as [Hl|Hl].
    { right. split; [|done]. rewrite (inflate_two_fails s G) by (done || (rewrite Em; simpl; lia)).
      done. }
    left. destruct (fr_free (gh_fr G)) as [|i [|j l]] eqn:Ef; simpl in Hl; [lia..|].
    destruct (inflate_two s G i j l I Ef) as (s1 & E1 & I1 & K1 & S1).
    { rewrite Em. simpl. lia. }
    rewrite E1. set (G1 := grown (grown G i (j :: l)) j l) in *.
    assert (gh_ml G1 = a :: (cells (page_addr i) SIZEOF_SLAB 64 ++ cells (page_addr j) SIZEOF_SLAB 64)) as E.
    { unfold G1. simpl. rewrite Em. by rewrite <- app_assoc. }
    destruct (meta_take_spec s1 G1 a _ I1 E) as (s2 & E2 & I2 & F2 & M2 & S2); [done|].
    change (meta_take s1 = Ok (a, s2)) in E2. unfold meta_take in E2. srun. cbn in E2 |- *.
    exists a, s2, (with_ml G1 (cells (page_addr i) SIZEOF_SLAB 64 ++ cells (page_addr j) SIZEOF_SLAB 64)).
    split; [exact E2|]. split; [done|]. split; [done|]. split.
    { intros x Hx. unfold sl_ram. rewrite M2. by apply K1. }
    split; [done|]. split; [done|]. split; [by rewrite S2|]. split; [simpl; lia|].
    cbn [with_ml gh_ml]. rewrite length_app, !length_cells by lia. lia.
  - rewrite (proj2 (Z.eqb_neq _ _)) by (simpl length; lia). left.
    destruct (meta_take_spec s G a (b :: ml) I Em) as (s2 & E2 & I2 & F2 & M2 & S2); [done|].
    exists a, s2, (with_ml G (b :: ml)). split; [exact E2|]. split; [done|]. split; [done|].
    split; [intros x Hx; unfold sl_ram; by rewrite M2|].
    split; [done|]. split; [done|]. split; [done|]. simpl in *. lia.
Qed.

(** ** Creating a slab *)

(** A slab that is set up but not yet on its class's list. *)
Record pending (s : slab_state) (G : ghost) (g : gslab) : Prop := {
  pe_float : floating G (gs_addr g);
  pe_used : is_Some (fr_used (gh_fr G) !! gs_page g);
  pe_desc : exists p, km_pages (sl_mem s) !! gs_page g = Some p /\ pg_slab p = gs_addr g;
  pe_new : ~ owned G (gs_page g);
  pe_ok : slab_ok (sl_ram s) g;
  pe_next : ld64 (sl_ram s) (gs_addr g + off_next) = 0 }.

Lemma repr_set_pslab k fr i p v :
  repr k fr -> km_pages k !! i = Some p -> repr (set_page i (set_pslab v p) k) fr.
Proof.
  intros [Rd Rb Rl Rt Rn Rf Ru Rc] Hp.
  assert (forall j q, km_pages (set_page i (set_pslab v p) k) !! j = Some q ->
            exists q0, km_pages k !! j = Some q0 /\ pg_paddr q = pg_paddr q0 /\
              pg_flags q = pg_flags q0 /\ pg_refcount q = pg_refcount q0) as Hinv.
  { intros j q. simpl. destruct (decide (j = i)) as [->|Hne].
    - rewrite lookup_insert_eq. intros [= <-]. eauto.
    - rewrite lookup_insert_ne by done. eauto. }
  assert (forall j q, km_pages k !! j = Some q ->
            exists q0, km_pages (set_page i (set_pslab v p) k) !! j = Some q0 /\
              pg_flags q0 = pg_flags q /\ pg_refcount q0 = pg_refcount q) as Hfwd.
  { intros j q Hq. simpl. destruct (decide (j = i)) as [->|Hne].
    - rewrite lookup_insert_eq. eexists. split; [done|].
      rewrite Hp in Hq. injection Hq as <-. done.
    - rewrite lookup_insert_ne by done. eauto. }
  split; simpl; try done.
  - intros j q (q0 & Hq & E1 & E2 & _)%Hinv. rewrite E1, E2. by apply Rd.
  - eapply lseg_ext; [|done]. intros j _. simpl. destruct (decide (j = i)) as [->|Hne].
    + by rewrite lookup_insert_eq, Hp.
    + by rewrite lookup_insert_ne.
  - intros j Hj. destruct (Rf j Hj) as (q & Hq & E1 & E2 & E3).
    destruct (Hfwd j q Hq) as (q0 & ? & ? & ?). exists q0. split_and!; congruence || done.
  - intros j rc Hj. destruct (Ru j rc Hj) as (q & Hq & E1 & E2 & E3 & E4).
    destruct (Hfwd j q Hq) as (q0 & ? & ? & ?). exists q0.
    split; [done|]. split; [congruence|]. split; [congruence|done].
  - intros j q (q0 & Hq & _ & E2 & _)%Hinv. rewrite E2. by apply Rc.
Qed.

(** RAM after laying out the objects of a slab at [a] in the page at [p]. *)
Definition layout_ram (m : ram) (a p osz total : Z) : ram :=
  st64 (link_ram (st64 m (a + off_freelist) p) p osz (Z.to_nat (total - 1)) 0)
    (p + (total - 1) * osz) 0.

Lemma layout_other m a p k x :
  0 <= k < 10 -> x + 8 <= a + off_freelist \/ a + off_freelist + 8 <= x ->
  x + 8 <= p \/ p + 4096 <= x ->
  ld64 (layout_ram m a p (osize k) (ototal k)) x = ld64 m x.
Proof.
  intros Hk Hx Hp. destruct (osize_cases k Hk) as (? & ? & ?). unfold layout_ram.
  rewrite ld64_st64_disjoint by nia. rewrite link_ram_other by nia.
  by apply ld64_st64_disjoint.
Qed.

Lemma layout_chain m a p k :
  0 <= k < 10 -> 0 < p -> p + 4096 < 2 ^ 62 -> a + 64 <= p \/ p + 4096 <= a ->
  (forall x, p <= x -> x + 8 <= p + 4096 -> ld64 m x = 0) ->
  let m' := layout_ram m a p (osize k) (ototal k) in
  ld64 m' (a + off_freelist) = p /\ chain m' p (cells p (osize k) (ototal k)).
Proof.
  intros Hk Hp Hp' Hd Hz m'. destruct (osize_cases k Hk) as (? & ? & ?).
  unfold off_freelist in *. split.
  - unfold m', layout_ram, off_freelist. rewrite ld64_st64_disjoint by nia.
    rewrite link_ram_other by nia. rewrite ld64_st64_same. apply u64_small. lia.
  - apply chain_cseg.
    pose proof (link_cells (st64 m (a + 16) p) p (osize k) (ototal k) ltac:(lia) ltac:(lia)
      ltac:(lia) ltac:(lia)) as C. cbv zeta in C.
    rewrite ld64_st64_disjoint in C by nia. rewrite Hz in C by nia.
    eapply cseg_ext; [|exact C]. intros x (j & Hj & ->)%elem_of_cells.
    unfold m', layout_ram, off_freelist. destruct (decide (j = ototal k - 1)) as [->|].
    + rewrite ld64_st64_same, link_ram_other by nia.
      rewrite ld64_st64_disjoint by nia. by rewrite Hz by nia.
    + rewrite ld64_st64_disjoint by nia. done.
Qed.

Definition new_slab (a k i : Z) : gslab :=
  mkG a k i (cells (page_addr i) (osize k) (ototal k)).

(** [s] with the page [i] given to the slab at [a] and laid out. *)
Definition laid_out (s : slab_state) (a k i : Z) (p : page) : slab_state :=
  set_mem (set_ram (layout_ram (sl_ram s) a (page_addr i) (osize k) (ototal k))
             (set_page i (set_pslab a p) (sl_mem s))) s.

Lemma layout_pending s G a k i p :
  sinv s G -> floating G a -> ~ owned G i -> 0 <= i < 2 ^ 49 -> 0 <= k < 10 ->
  is_Some (fr_used (gh_fr G) !! i) -> km_pages (sl_mem s) !! i = Some p ->
  (forall x, page_addr i <= x -> x + 8 <= page_addr i + 4096 -> ld64 (sl_ram s) x = 0) ->
  ld64 (sl_ram s) (a + off_object_size) = osize k -> ld64 (sl_ram s) (a + off_total) = ototal k ->
  ld64 (sl_ram s) (a + off_free) = ototal k -> ld64 (sl_ram s) (a + off_next) = 0 ->
  let s' := laid_out s a k i p in
  sinv s' G /\ pending s' G (new_slab a k i) /\ keeps G s s'.
Proof.
  intros I Hfl Hno Hi Hk Hu Hp Hz Eos Eto Efr Enx s'. assert (floating G a) as [Hmb Hn] by done.
  destruct (osize_cases k Hk) as (Ho1 & Ho2 & Ho3).
  assert (0 < page_addr i /\ page_addr i + 4096 < 2 ^ 62) as Hpa
    by (unfold page_addr, MEMORY_START, PG_4K_SIZE; lia).
  assert (forall x, in_owned G x -> x + 8 <= page_addr i \/ page_addr i + 4096 <= x) as Hout.
  { intros x (j & Hj & ? & ?). unfold PG_4K_SIZE in *.
    destruct (frames_disjoint i j); [intros ->; exact (Hno Hj)|..]; unfold PG_4K_SIZE in *; lia. }
  assert (a + 64 <= page_addr i \/ page_addr i + 4096 <= a) as Da.
  { destruct (block_in_frame _ _ Hmb) as (j & Hj & ? & ?). unfold PG_4K_SIZE in *.
    destruct (frames_disjoint i j); [intros ->; apply Hno; by left|..]; unfold PG_4K_SIZE in *; lia. }
  assert (forall x, in_owned G x -> x + 8 <= a + 16 \/ a + 24 <= x ->
            ld64 (sl_ram s') x = ld64 (sl_ram s) x) as Hx.
  { intros x Hox Hxa. apply layout_other; [done|unfold off_freelist; lia|by apply Hout]. }
  assert (keeps G s s') as Hkeep.
  { intros x Hw. apply Hx; [by apply obj_word_owned|].
    pose proof (obj_word_block s G a x I Hmb Hw). lia. }
  assert (sinv s' G) as I'.
  { rewrite <- (with_frames_id G). apply (sinv_frame s); try done.
    - apply repr_set_ram, repr_set_pslab; [exact (si_repr _ _ I)|done].
    - intros j Hj. by apply (owned_used s).
    - intros j Hj. simpl. rewrite lookup_insert_ne; [done|]. intros ->. exact (Hno Hj).
    - intros x Hf. apply Hx; [by apply (footprint_owned s)|].
      pose proof (footprint_float s G a x I Hfl Hf). lia. }
  split; [done|]. split; [|done].
  destruct (layout_chain (sl_ram s) a (page_addr i) k Hk ltac:(lia) ltac:(lia) Da Hz) as [C1 C2].
  assert (forall o, o ∈ [off_next; off_object_size; off_total; off_free] ->
            ld64 (sl_ram s') (a + o) = ld64 (sl_ram s) (a + o)) as Hfield.
  { intros o Hin. apply Hx; [apply block_owned; [done|]|];
      unfold off_next, off_object_size, off_total, off_free in *;
      rewrite !elem_of_cons, elem_of_nil in Hin; lia. }
  split; simpl; try done.
  - exists (set_pslab a p). by rewrite lookup_insert_eq.
  - split; simpl; try done.
    + rewrite Hfield by set_solver. done.
    + rewrite Hfield by set_solver. done.
    + rewrite Hfield by set_solver. rewrite length_cells by lia. lia.
    + change (sl_ram s') with (layout_ram (sl_ram s) a (page_addr i) (osize k) (ototal k)).
      by rewrite C1.
    + apply Forall_forall. intros x (j & Hj & ->)%elem_of_cells. by exists j.
    + apply cells_nodup. lia.
  - rewrite Hfield by set_solver. done.
Qed.

Lemma floating_frames G fr a : floating G a -> floating (with_frames G fr) a.
Proof. done. Qed.

(** [do_create_slab_object_storage] on a block whose fields are set. *)
Lemma storage_spec s G a k :
  sinv s G -> floating G a -> 0 <= k < 10 ->
  ld64 (sl_ram s) (a + off_object_size) = osize k -> ld64 (sl_ram s) (a + off_total) = ototal k ->
  ld64 (sl_ram s) (a + off_free) = ototal k -> ld64 (sl_ram s) (a + off_next) = 0 ->
  match fr_free (gh_fr G) with
  | [] => do_create_slab_object_storage a s = Ok (-1, s)
  | i :: l =>
      let G' := with_frames G (mkFrames l (<[i := 1]> (fr_used (gh_fr G)))) in
      exists s', do_create_slab_object_storage a s = Ok (0, s') /\ sinv s' G' /\
        pending s' G' (new_slab a k i) /\ keeps G s s' /\ sl_slabs s' = sl_slabs s
  end.
Proof.
  intros I Hfl Hk Eos Eto Efr Enx. pose proof (sl_alloc_page_spec s G I) as A.
  unfold do_create_slab_object_storage. destruct (fr_free (gh_fr G)) as [|i l]; srun.
  - by rewrite A.
  - destruct A as (km & A & I1 & Hno & Hi & [p Hp] & Hz & Hx). rewrite A. clear A.
    set (G' := with_frames G _) in *.
    assert (0 < page_addr i) by (unfold page_addr, MEMORY_START, PG_4K_SIZE; lia).
    rewrite (proj2 (Z.eqb_neq (page_addr i) 0)) by lia. srun.
    unfold sl_set_page_slab. cbn [zoom]. unfold update, deref. srun. simpl sl_mem.
    rewrite page_addr_index by lia. rewrite Hp. srun.
    assert (floating G a) as [Hmb _] by done.
    assert (forall o, 0 <= o <= 56 -> ld64 (km_ram km) (a + o) = ld64 (sl_ram s) (a + o)) as Hf.
    { intros o Ho. by apply Hx, block_owned. }
    set (s1 := set_mem km s) in *.
    pose proof (layout_pending s1 G' a k i p I1 Hfl Hno Hi Hk) as L.
    destruct L as (I2 & P2 & K2); try done.
    { simpl. by rewrite lookup_insert_eq. }
    { unfold s1, sl_ram, off_object_size in *. simpl. by rewrite Hf by lia. }
    { unfold s1, sl_ram, off_total in *. simpl. by rewrite Hf by lia. }
    { unfold s1, sl_ram, off_free in *. simpl. by rewrite Hf by lia. }
    { unfold s1, sl_ram, off_next in *. simpl. by rewrite Hf by lia. }
    exists (laid_out s1 a k i p). rewrite link_loop_eq. srun. split.
    + unfold laid_out, layout_ram, sl_ram. cbn [set_mem set_ram set_page sl_mem km_ram km_pages km_gmd].
      unfold off_freelist, off_total, off_object_size in *.
      rewrite !ld64_st64_disjoint by lia. rewrite !Hf by lia. unfold sl_ram in *.
      by rewrite Eos, Eto.
    + split; [done|]. split; [done|]. split; [|done]. intros x Hw. rewrite K2 by done.
      apply Hx, obj_word_owned, Hw.
Qed.

Lemma keeps_same G G' s s' : gh_slabs G' = gh_slabs G -> keeps G' s s' -> keeps G s s'.
Proof. intros E H x (g & Hg & ?). apply H. exists g. by rewrite E. Qed.

(** The six stores that initialise a fresh [slab_t]. *)
Definition header_ram (m : ram) (a osz total : Z) : ram :=
  st64 (st64 (st64 (st64 (st64 (st64 m (a + off_object_size) osz) (a + off_total) total)
    (a + off_free) total) (a + off_next) 0) a 0) (a + 8) 0.

Lemma header_fields m a osz total :
  0 <= osz < 2 ^ 64 -> 0 <= total < 2 ^ 64 ->
  let m' := header_ram m a osz total in
  ld64 m' (a + off_object_size) = osz /\ ld64 m' (a + off_total) = total /\
  ld64 m' (a + off_free) = total /\ ld64 m' (a + off_next) = 0 /\
  (forall x, x + 8 <= a \/ a + 64 <= x -> ld64 m' x = ld64 m x).
Proof.
  intros H1 H2. unfold header_ram, off_object_size, off_total, off_free, off_next.
  repeat split; intros; repeat (rewrite ld64_st64_disjoint by lia);
    rewrite ?ld64_st64_same, ?u64_small by lia; done.
Qed.

(** Initialising a floating block. *)
Lemma sinv_header s G a k :
  sinv s G -> floating G a -> 0 <= k < 10 ->
  let s' := set_mem (set_ram (header_ram (sl_ram s) a (osize k) (ototal k)) (sl_mem s)) s in
  sinv s' G /\ keeps G s s' /\
  ld64 (sl_ram s') (a + off_object_size) = osize k /\ ld64 (sl_ram s') (a + off_total) = ototal k /\
  ld64 (sl_ram s') (a + off_free) = ototal k /\ ld64 (sl_ram s') (a + off_next) = 0.
Proof.
  intros I Hfl Hk s'. destruct (osize_cases k Hk) as (? & ? & ?).
  destruct (header_fields (sl_ram s) a (osize k) (ototal k)) as (F1 & F2 & F3 & F4 & F5); [lia..|].
  split; [by apply (sinv_float s _ G a)|]. split; [|done].
  intros x Hw. apply F5. by apply (obj_word_block s G); [..|apply Hfl|].
Qed.

Lemma create_spec s G h :
  sinv s G -> h ∈ gh_slabs G ->
  (exists a s' G' i, do_create_new_slab (gs_addr h) s = Ok (a, s') /\ a <> 0 /\ sinv s' G' /\
     pending s' G' (new_slab a (gs_class h) i) /\ keeps G s s' /\ gh_slabs G' = gh_slabs G /\
     gh_n G' = gh_n G /\ sl_slabs s' = sl_slabs s) \/
  ((length (fr_free (gh_fr G)) < 3)%nat /\
   (do_create_new_slab (gs_addr h) s = Halt \/
    exists s' G', do_create_new_slab (gs_addr h) s = Ok (0, s') /\ sinv s' G' /\ keeps G s s' /\
      gh_slabs G' = gh_slabs G /\ gh_n G' = gh_n G /\ sl_slabs s' = sl_slabs s /\
      fr_free (gh_fr G') = [])).
Proof.
  intros I Hh. unfold do_create_new_slab.
  destruct (slab_alloc_meta_spec s G I)
    as [(a & s1 & G1 & E1 & I1 & F1 & K1 & S1 & N1 & L1 & Hl & Hml)|[E1 Hl]]; srun; rewrite E1.
  2:{ right. split; [lia|]. by left. }
  assert (0 < a < 2 ^ 62) as Ra.
  { destruct F1 as [Hmb _]. apply (block_pos _ _ Hmb), (fun i Hi => proj2 (si_meta _ _ I1 i Hi)). }
  rewrite (proj2 (Z.eqb_neq a 0)) by lia. srun.
  rewrite <- S1 in Hh. pose proof (si_slabs _ _ I1) as Hs. rewrite Forall_forall in Hs.
  destruct (Hs h Hh) as [Hc Hos Hto _ _ _ _].
  destruct (sinv_header s1 G1 a (gs_class h) I1 F1 Hc) as (I2 & K2 & W1 & W2 & W3 & W4).
  unfold init_slab_lock. srun.
  assert (forall o, 0 <= o <= 56 -> gs_addr h + o + 8 <= a \/ a + 64 <= gs_addr h + o) as Dh.
  { intros o Ho. destruct F1 as [Hmb Hn]. pose proof (si_blocks _ _ I1) as F.
    rewrite Forall_forall in F.
    assert (gs_addr h ∈ gh_ml G1 ++ (gs_addr <$> gh_slabs G1)) as Hin.
    { apply elem_of_app. right. by apply list_elem_of_fmap_2. }
    destruct (blocks_disjoint _ _ _ (F _ Hin) Hmb); [by intros <-|lia..]. }
  set (s2 := set_mem (set_ram (header_ram _ _ _ _) _) _) in *.
  match goal with |- context [do_create_slab_object_storage a ?t] => replace t with s2 end.
  2:{ unfold s2, header_ram. simpl. unfold sl_ram in *. simpl. rewrite Hos.
      unfold off_total, off_object_size in *. rewrite ld64_st64_disjoint.
      - by rewrite Hto.
      - specialize (Dh 40). lia. }
  pose proof (storage_spec s2 G1 a (gs_class h) I2 F1 Hc W1 W2 W3 W4) as St.
  destruct (fr_free (gh_fr G1)) as [|i l] eqn:Ef; cbv zeta in St.
  - right. split; [simpl in Hl; lia|]. right. rewrite St. srun. change (-1 =? 0) with false.
    srun. destruct (slab_free_meta_spec s2 G1 a I2 F1 Hml) as (s3 & E3 & I3 & K3 & L3). rewrite E3.
    exists s3, (with_ml G1 (a :: gh_ml G1)). split; [done|]. split; [done|].
    split; [|split; [done|split; [done|split; [by rewrite L3|done]]]].
    apply (keeps_trans _ _ s1); [done|]. apply (keeps_same _ G1); [done|].
    by apply (keeps_trans _ _ s2).
  - left. destruct St as (s3 & E3 & I3 & P3 & K3 & L3). rewrite E3. srun.
    exists a, s3, (with_frames G1 (mkFrames l (<[i := 1]> (fr_used (gh_fr G1))))), i.
    split; [done|]. split; [lia|]. split; [done|]. split; [done|].
    split; [|split; [done|split; [done|by rewrite L3]]].
    apply (keeps_trans _ _ s1); [done|]. apply (keeps_same _ G1); [done|].
    by apply (keeps_trans _ _ s2).
Qed.

(** ** Linking a new slab behind its class *)
Definition add_slab_n (G : ghost) (g : gslab) (n : Z) : ghost :=
  mkGhost (gh_fr G) (gh_meta G) (gh_ml G) (gh_slabs G ++ [g]) n.
Definition add_slab (G : ghost) (g : gslab) : ghost := add_slab_n G g (gh_n G).

Lemma nchain_snoc m m' h l b v :
  nchain m h (l ++ [b]) -> v <> 0 ->
  (forall a, a ∈ l -> ld64 m' (a + off_next) = ld64 m (a + off_next)) ->
  ld64 m' (b + off_next) = v -> ld64 m' (v + off_next) = 0 ->
  nchain m' h ((l ++ [b]) ++ [v]).
Proof.
  intros H Hv He Hb Hz. revert h H. induction l as [|a l IH]; intros h H; simpl in *.
  - destruct H as (-> & ? & _). rewrite Hb. eauto 10.
  - destruct H as (-> & ? & H). split; [done|]. split; [done|].
    rewrite He by left. apply IH; [|done]. intros x Hx. apply He. by right.
Qed.

Lemma NoDup_fmap_inj {A B} (f : A -> B) l x y :
  NoDup (f <$> l) -> x ∈ l -> y ∈ l -> f x = f y -> x = y.
Proof.
  induction l as [|z l IH]; [by intros _ ?%elem_of_nil|].
  rewrite fmap_cons, NoDup_cons, !elem_of_cons. intros [Hn Hd] [->|Hx] [->|Hy] E; auto;
    exfalso; apply Hn; [rewrite E|rewrite <- E]; by apply list_elem_of_fmap_2.
Qed.

Lemma of_class_add G g n k :
  of_class k (add_slab_n G g n) = of_class k G ++ (if decide (gs_class g = k) then [g] else []).
Proof. unfold of_class. simpl. by rewrite filter_app. Qed.

(** The parts of the invariant that do not mention the class lists. *)
Lemma sinv_add s s' G g n :
  sinv s G -> pending s G g -> gs_class g < n -> gh_n G <= n ->
  sl_mem s' = sl_mem s \/ (exists h, h ∈ gh_slabs G /\
    sl_mem s' = set_ram (st64 (sl_ram s) (gs_addr h + off_next) (gs_addr g)) (sl_mem s)) ->
  mp_freelist s' = mp_freelist s -> mp_end s' = mp_end s -> mp_free s' = mp_free s ->
  (forall k, 0 <= k < n -> exists h, sl_slabs s' !! Z.to_nat k = Some h /\ h <> 0 /\
    nchain (sl_ram s') h (gs_addr <$> of_class k (add_slab_n G g n))) ->
  sinv s' (add_slab_n G g n).
Proof.
  intros I [[Fb Fn] Hu (p & Hp & Hps) Hno Hok Hnx] Hcn Hnn Hmem E1 E2 E3 Hheads.
  pose proof I as [R Hpl He Hf Hsm Hm Hb Hd Hpg Hpn Hs Hcls Hh].
  pose proof Hs as Hs'. rewrite Forall_forall in Hs'.
  pose proof Hb as Hb'. rewrite Forall_forall in Hb'.
  assert (km_pages (sl_mem s') = km_pages (sl_mem s) /\ km_gmd (sl_mem s') = km_gmd (sl_mem s))
    as [Ek Eg] by (destruct Hmem as [->|(h & _ & ->)]; done).
  assert (forall x, (forall h, h ∈ gh_slabs G -> x + 8 <= gs_addr h + 24 \/ gs_addr h + 32 <= x) ->
            ld64 (sl_ram s') x = ld64 (sl_ram s) x) as Hx.
  { intros x Hd'. unfold sl_ram. destruct Hmem as [->|(h & Hin & ->)]; [done|].
    apply ld64_st64_disjoint. unfold off_next. specialize (Hd' h Hin). lia. }
  assert (forall h, h ∈ gh_slabs G -> meta_block (gh_meta G) (gs_addr h)) as Hsb.
  { intros h Hh'. apply Hb', elem_of_app. right. by apply list_elem_of_fmap_2. }
  assert (forall b o h, meta_block (gh_meta G) b -> h ∈ gh_slabs G -> b <> gs_addr h ->
            0 <= o <= 56 -> b + o + 8 <= gs_addr h + 24 \/ gs_addr h + 32 <= b + o) as Dblk.
  { intros b o h Hbb Hin Hne Ho. destruct (blocks_disjoint _ _ _ Hbb (Hsb h Hin) Hne); lia. }
  assert (forall a g' h, h ∈ gh_slabs G -> 0 <= gs_class g' < 10 -> is_obj g' a ->
            gs_page g' ∉ gh_meta G -> a + 8 <= gs_addr h + 24 \/ gs_addr h + 32 <= a) as Dobj.
  { intros a g' h Hin Hc Ha Hpm. destruct (obj_in_page g' a Hc Ha).
    destruct (block_in_frame _ _ (Hsb h Hin)) as (i & Hi & ? & ?).
    destruct (frames_disjoint i (gs_page g')); [by intros ->|lia..]. }
  assert (gs_page g ∉ gh_meta G) as Hgm by (intros Hin; apply Hno; by left).
  split; rewrite ?E1, ?E2, ?E3; simpl; try done.
  - destruct R. split; rewrite ?Ek, ?Eg; done.
  - apply (chain_ext (sl_ram s)); [|done]. intros a Ha. apply Hx. intros h Hin.
    rewrite <- (Z.add_0_r a). apply Dblk; [apply Hb'; set_solver|done| |lia].
    intros ->. apply NoDup_app in Hd as (_ & Hd & _). apply (Hd _ Ha). by apply list_elem_of_fmap_2.
  - rewrite fmap_app, app_assoc. apply Forall_app. split; [done|]. simpl. by constructor.
  - rewrite fmap_app, app_assoc. apply NoDup_app. split; [done|]. split.
    + intros x Hin. simpl. intros E%list_elem_of_singleton. by rewrite E in Hin.
    + simpl. apply NoDup_singleton.
  - intros g' [Hg'|E%list_elem_of_singleton]%elem_of_app; rewrite Ek; [by apply Hpg|subst g'; eauto 10].
  - rewrite fmap_app. apply NoDup_app. split; [done|]. split.
    + intros x (g' & -> & Hg')%list_elem_of_fmap. simpl.
      intros E%list_elem_of_singleton. apply Hno. rewrite <- E. right. eauto.
    + simpl. apply NoDup_singleton.
  - apply Forall_forall. intros g' [Hg'|E%list_elem_of_singleton]%elem_of_app; [|subst g'].
    + apply (slab_ok_ext (sl_ram s)); [by apply Hs'| |].
      * intros o Ho. apply Hx. intros h Hin.
        destruct (decide (gs_addr g' = gs_addr h)) as [->|Hne].
        -- unfold off_freelist, off_object_size, off_total, off_free in Ho.
           rewrite !elem_of_cons, elem_of_nil in Ho. lia.
        -- apply Dblk; [by apply Hsb|done|done|by apply field_off].
      * intros a Ha. apply Hx. intros h Hin. destruct (Hs' g' Hg') as [Hc _ _ _ _ Hob _].
        rewrite Forall_forall in Hob. apply (Dobj a g'); auto. by apply Hpg.
    + apply (slab_ok_ext (sl_ram s)); [done| |].
      * intros o Ho. apply Hx. intros h Hin. apply Dblk; [done..| |by apply field_off].
        intros E. apply Fn, elem_of_app. right. rewrite E. by apply list_elem_of_fmap_2.
      * intros a Ha. apply Hx. intros h Hin. destruct Hok as [Hc _ _ _ _ Hob _].
        rewrite Forall_forall in Hob. by apply (Dobj a g); auto.
  - intros g' [Hg'|E%list_elem_of_singleton]%elem_of_app; [specialize (Hcls g' Hg'); lia|by subst g'].
Qed.

Lemma sinv_link s G g h pre :
  sinv s G -> pending s G g -> of_class (gs_class g) G = pre ++ [h] ->
  sinv (set_mem (set_ram (st64 (sl_ram s) (gs_addr h + off_next) (gs_addr g)) (sl_mem s)) s)
    (add_slab G g).
Proof.
  intros I P El. assert (h ∈ of_class (gs_class g) G) as Hin by (rewrite El; set_solver).
  apply list_elem_of_filter in Hin as [Hc Hin].
  assert (gs_class g < gh_n G) as Hn by (rewrite <- Hc; by apply (si_cls _ _ I)).
  apply (sinv_add s); try done; [right; eauto|].
  intros k Hk. destruct (si_heads _ _ I k Hk) as (x & Hx & Hx0 & Hch). exists x.
  split; [done|]. split; [done|]. rewrite of_class_add, fmap_app.
  set (m' := sl_ram (set_mem _ _)).
  assert (NoDup (gs_addr <$> gh_slabs G)) as Hnd.
  { by pose proof (si_distinct _ _ I) as (_ & _ & ?)%NoDup_app. }
  assert (forall g', g' ∈ gh_slabs G -> gs_addr g' <> gs_addr h ->
            ld64 m' (gs_addr g' + off_next) = ld64 (sl_ram s) (gs_addr g' + off_next)) as Hk'.
  { intros g' Hg' Hne. apply ld64_st64_disjoint.
    pose proof (si_blocks _ _ I) as F. rewrite Forall_app, Forall_fmap in F. destruct F as [_ F].
    rewrite Forall_forall in F. destruct (blocks_disjoint _ _ _ (F g' Hg') (F h Hin) Hne);
      unfold off_next; lia. }
  destruct P as [[Fb Fn] _ _ _ _ Hnx]. case_decide as Hd.
  - subst k. rewrite El, fmap_app in Hch |- *. simpl in Hch |- *.
    pose proof (block_pos _ _ Fb (fun i Hi => proj2 (si_meta _ _ I i Hi))).
    apply (nchain_snoc (sl_ram s)); [done|lia| | |].
    + intros a (g' & -> & Hg')%list_elem_of_fmap.
      assert (g' ∈ of_class (gs_class g) G) as Hg'' by (rewrite El; set_solver).
      apply list_elem_of_filter in Hg'' as [_ Hg'']. apply Hk'; [done|]. intros E.
      assert (NoDup (gs_addr <$> of_class (gs_class g) G)) as Hn2.
      { eapply sublist_NoDup; [exact Hnd|]. apply fmap_sublist, sublist_filter. }
      rewrite El, fmap_app in Hn2. apply NoDup_app in Hn2 as (_ & Hn2 & _).
      apply (Hn2 (gs_addr g')); [by apply list_elem_of_fmap_2|]. rewrite E. simpl. left.
    + unfold m', sl_ram. simpl. rewrite ld64_st64_same. apply u64_small. lia.
    + rewrite <- Hnx. apply ld64_st64_disjoint.
      pose proof (si_blocks _ _ I) as F. rewrite Forall_forall in F.
      assert (gs_addr h ∈ gh_ml G ++ (gs_addr <$> gh_slabs G)) as Hin'.
      { apply elem_of_app. right. by apply list_elem_of_fmap_2. }
      destruct (blocks_disjoint _ _ _ (F _ Hin') Fb); [intros E; rewrite E in Hin'; done|unfold off_next; lia..].
  - rewrite app_nil_r. apply (nchain_ext (sl_ram s)); [|done].
    intros a (g' & -> & Hg')%list_elem_of_fmap. apply list_elem_of_filter in Hg' as [Hc' Hg'].
    apply Hk'; [done|]. intros E. apply Hd. rewrite <- Hc, <- Hc'. f_equal.
    by apply (NoDup_fmap_inj gs_addr (gh_slabs G)).
Qed.

(** ** [slab_alloc] *)

(** The object at [b], of class [k], is allocated. *)
Definition live (G : ghost) (b k : Z) : Prop :=
  exists g, g ∈ gh_slabs G /\ gs_class g = k /\ is_obj g b /\ b ∉ gs_fl g.

Definition alloc_ok (k : Z) (s : slab_state) (G : ghost) (a : Z) (s' : slab_state) (G' : ghost) : Prop :=
  a <> 0 /\ sinv s' G' /\ keeps G s s' /\ (forall k', ~ live G a k') /\
  (forall b k', live G' b k' <-> live G b k' \/ (b = a /\ k' = k)) /\ gh_n G' = gh_n G.

Definition alloc_outcome (k : Z) (s : slab_state) (G : ghost) (r : result (Z * slab_state)) : Prop :=
  (exists a s' G', r = Ok (a, s') /\ alloc_ok k s G a s' G') \/
  ((length (fr_free (gh_fr G)) < 3)%nat /\
   (r = Halt \/ exists s' G', r = Ok (0, s') /\ sinv s' G' /\ keeps G s s' /\
      gh_slabs G' = gh_slabs G /\ gh_n G' = gh_n G /\ fr_free (gh_fr G') = [])).

(** An address is an object of at most one slab. *)
Lemma obj_unique s G g g' a :
  sinv s G -> g ∈ gh_slabs G -> g' ∈ gh_slabs G -> is_obj g a -> is_obj g' a -> g = g'.
Proof.
  intros I Hg Hg' Ha Ha'. pose proof (si_slabs _ _ I) as Hs. rewrite Forall_forall in Hs.
  destruct (obj_in_page g a (so_class _ _ (Hs g Hg)) Ha).
  destruct (obj_in_page g' a (so_class _ _ (Hs g' Hg')) Ha').
  apply (NoDup_fmap_inj gs_page (gh_slabs G)); [apply (si_pages_nodup _ _ I)|done..|].
  destruct (decide (gs_page g = gs_page g')) as [|Hne]; [done|].
  destruct (frames_disjoint _ _ Hne); lia.
Qed.

Lemma live_replace G l1 g l2 fl b k :
  live (with_slabs G (l1 ++ g_with g fl :: l2)) b k <->
  (exists g', g' ∈ l1 ++ l2 /\ gs_class g' = k /\ is_obj g' b /\ b ∉ gs_fl g') \/
  (gs_class g = k /\ is_obj g b /\ b ∉ fl).
Proof.
  unfold live, is_obj. simpl. split.
  - intros (g' & [Hg|[->|Hg]%elem_of_cons]%elem_of_app & H); [left|right|left].
    + exists g'. split; [set_solver|done].
    + exact H.
    + exists g'. split; [set_solver|done].
  - intros [(g' & Hg & H)|H].
    + exists g'. split; [set_solver|done].
    + exists (g_with g fl). split; [set_solver|exact H].
Qed.

(** A pop makes exactly the popped object live. *)
Lemma live_pop s G l1 g l2 a fl :
  sinv s G -> gh_slabs G = l1 ++ g :: l2 -> gs_fl g = a :: fl ->
  (forall k, ~ live G a k) /\
  (forall b k, live (with_slabs G (l1 ++ g_with g fl :: l2)) b k <->
               live G b k \/ (b = a /\ k = gs_class g)).
Proof.
  intros I HG Hfl. assert (g ∈ gh_slabs G) as Hg by (rewrite HG; set_solver).
  pose proof (si_slabs _ _ I) as Hs. rewrite Forall_forall in Hs.
  destruct (Hs g Hg) as [Hc _ _ _ _ Hob Hnd]. rewrite Hfl in Hob, Hnd.
  apply Forall_cons in Hob as [Hoa _]. apply NoDup_cons in Hnd as [Hna _]. split.
  - intros k (g' & Hg' & _ & Ho' & Hn). rewrite <- (obj_unique s G g g' a) in Hn by done.
    apply Hn. rewrite Hfl. left.
  - intros b k. rewrite live_replace.
    assert (live G b k <-> (exists g', g' ∈ l1 ++ l2 /\ gs_class g' = k /\ is_obj g' b /\ b ∉ gs_fl g')
              \/ (gs_class g = k /\ is_obj g b /\ b ∉ gs_fl g)) as ->.
    { rewrite <- (live_replace G l1 g l2 (gs_fl g)).
      assert (with_slabs G (l1 ++ g_with g (gs_fl g) :: l2) = G) as ->; [|done].
      unfold with_slabs, g_with. destruct G, g. simpl in *. by subst. }
    rewrite Hfl, elem_of_cons. split.
    + intros [H|(H1 & H2 & H3)]; [by left; left|].
      destruct (decide (b = a)) as [->|]; [right; by subst|left; right; naive_solver].
    + intros [[H|(H1 & H2 & H3)]|[-> ->]]; [by left|right; naive_solver|right; done].
Qed.

(** Serving a request from a slab with a free object. *)
Lemma alloc_from s G g a fl n :
  sinv s G -> g ∈ gh_slabs G -> gs_fl g = a :: fl ->
  exists s' G', slab_alloc_loop (S n) (gs_addr g) s = Ok (a, s') /\
    alloc_ok (gs_class g) s G a s' G'.
Proof.
  intros I Hg Hfl. destruct (list_elem_of_split _ _ Hg) as (l1 & l2 & HG).
  destruct (slab_pop s G l1 g l2 a fl n I HG Hfl) as (s' & E & I' & Hx).
  destruct (live_pop s G l1 g l2 a fl I HG Hfl) as [L1 L2].
  exists s', (with_slabs G (l1 ++ g_with g fl :: l2)). split; [done|].
  pose proof (si_slabs _ _ I) as Hs. rewrite Forall_forall in Hs.
  destruct (Hs g Hg) as [Hc _ _ _ _ Hob _]. rewrite Hfl in Hob. apply Forall_cons in Hob as [Hoa _].
  destruct (obj_range _ _ _ _ I Hg Hoa). split; [lia|]. split; [done|]. split; [|done].
  intros x Hw. apply Hx, (obj_word_block s G); [done| |done].
  pose proof (si_blocks _ _ I) as F. rewrite Forall_forall in F. apply F, elem_of_app. right.
  by apply list_elem_of_fmap_2.
Qed.

Lemma nchain_next m h pre a l :
  nchain m h (pre ++ a :: l) -> ld64 m (a + off_next) = default 0 (head l).
Proof.
  revert h; induction pre as [|b pre IH]; intros h; simpl.
  - intros (_ & _ & H). destruct l; simpl in *; [done|by destruct H].
  - intros (_ & _ & H). by eapply IH.
Qed.

(** A new slab has no live object. *)
Lemma live_add G a k i b k' :
  live (add_slab G (new_slab a k i)) b k' <-> live G b k'.
Proof.
  unfold live. simpl. split.
  - intros (g & [Hg|E%list_elem_of_singleton]%elem_of_app & Hc & Ho & Hn); [eauto 10|].
    subst g. exfalso. apply Hn. simpl. apply elem_of_cells.
    destruct Ho as (j & Hj & ->). by exists j.
  - intros (g & Hg & ?). exists g. split; [set_solver|done].
Qed.

Lemma live_same G G' b k : gh_slabs G' = gh_slabs G -> live G' b k <-> live G b k.
Proof. intros E. unfold live. by rewrite E. Qed.
