(* ===== verification/SlabTop.v ===== *)
(** The contract of the slab allocator: [slab_alloc], [slab_free] and
    [init_slab] against the invariant of SlabInv.v. *)
From stdpp Require Import base gmap list.
From Stdlib Require Import ZArith Lia.
From S2P Require Import Prelude Bytes Pages Slab SlabInv SlabGrow SlabOps.
Open Scope Z_scope.

(** A fresh slab behind the last one of its class, then the pop. *)
Lemma alloc_grow s G h pre n :
  sinv s G -> of_class (gs_class h) G = pre ++ [h] ->
  gs_fl h = [] -> ld64 (sl_ram s) (gs_addr h + off_next) = 0 ->
  alloc_outcome (gs_class h) s G (slab_alloc_loop (S (S n)) (gs_addr h) s).
Proof.
  intros I El Hfl Hnx. assert (h ∈ of_class (gs_class h) G) as Hin by (rewrite El; set_solver).
  apply list_elem_of_filter in Hin as [_ Hin].
  pose proof (si_slabs _ _ I) as Hs. rewrite Forall_forall in Hs.
  destruct (Hs h Hin) as [Hc _ _ Hfr _ _ _]. rewrite Hfl in Hfr. cbn [length] in Hfr. change (Z.of_nat 0) with 0 in Hfr.
  remember (S n) as n'. cbn [slab_alloc_loop]. srun. rewrite Hfr. cbn [negb Z.eqb]. srun.
  rewrite Hnx. cbn [negb Z.eqb]. srun.
  destruct (create_spec s G h I Hin)
    as [(a & s1 & G1 & i & E1 & Ha & I1 & P1 & K1 & S1 & N1 & L1)
       |[Hl [E1|(s1 & G1 & E1 & I1 & K1 & S1 & N1 & L1 & F1)]]]; rewrite E1.
  - rewrite (proj2 (Z.eqb_neq a 0)) by done. srun. left.
    set (g := new_slab a (gs_class h) i) in *.
    assert (of_class (gs_class g) G1 = pre ++ [h]) as El1 by (unfold of_class; rewrite S1; exact El).
    pose proof (sinv_link s1 G1 g h pre I1 P1 El1) as I2.
    match goal with |- context [slab_alloc_loop n' a ?t] => set (s2 := t) in * end.
    destruct (osize_cases _ Hc) as (? & ? & ?).
    destruct (gs_fl g) as [|b fl] eqn:Efl.
    { apply (f_equal length) in Efl. unfold g, new_slab in Efl. cbn [gs_fl] in Efl.
      rewrite length_cells in Efl by lia. simpl in Efl. lia. }
    subst n'.
    destruct (alloc_from s2 (add_slab G1 g) g b fl n I2) as (s3 & G3 & E3 & A0 & I3 & K3 & L3 & V3 & N3);
      [simpl; set_solver|done|].
    change (gs_addr g) with a in E3. rewrite E3. exists b, s3, G3. split; [done|].
    split; [done|]. split; [done|]. split; [|split; [|split]].
    + apply (keeps_trans _ _ s1); [done|]. intros x Hx.
      assert (obj_word (add_slab G1 g) x) as Hx'.
      { destruct Hx as (g' & Hg' & ?). exists g'. split; [|done]. simpl. rewrite S1. set_solver. }
      rewrite (K3 x Hx'). apply ld64_st64_disjoint.
      assert (obj_word G1 x) as Hx1 by (destruct Hx as (g' & Hg' & ?); exists g'; by rewrite S1).
      pose proof (si_blocks _ _ I1) as F. rewrite Forall_forall in F.
      assert (meta_block (gh_meta G1) (gs_addr h)) as Hbh.
      { apply F, elem_of_app. right. apply list_elem_of_fmap_2. by rewrite S1. }
      pose proof (obj_word_block s1 G1 (gs_addr h) x I1 Hbh Hx1). unfold off_next. lia.
    + intros k' Hl. apply (L3 k'). apply live_add. by rewrite (live_same G G1).
    + intros x k'. rewrite V3. unfold g. rewrite live_add. by rewrite (live_same G G1).
    + rewrite N3. exact N1.
  - right. split; [done|]. by left.
  - right. split; [done|]. right. exists s1, G1. split; [done|]. done.
Qed.

(** The walk along the slabs of a class terminates with the answer as soon as
    the fuel exceeds the number of slabs. *)
Lemma alloc_loop_spec l pre h n s G :
  sinv s G -> of_class (gs_class h) G = pre ++ h :: l -> (length l + 2 <= n)%nat ->
  alloc_outcome (gs_class h) s G (slab_alloc_loop n (gs_addr h) s).
Proof.
  revert pre h n. induction l as [|h' l IH]; intros pre h n I El Hn;
    (destruct n as [|[|n]]; [simpl in Hn; lia..|]);
    assert (h ∈ of_class (gs_class h) G) as Hin by (rewrite El; set_solver);
    apply list_elem_of_filter in Hin as [_ Hin];
    pose proof (si_cls _ _ I h Hin) as Hcn;
    pose proof (si_slabs _ _ I) as Hs; rewrite Forall_forall in Hs;
    pose proof (Hs h Hin) as [Hc _ _ Hfr _ _ _];
    destruct (si_heads _ _ I (gs_class h) ltac:(lia)) as (x & _ & _ & Hch);
    rewrite El, fmap_app, fmap_cons in Hch; apply nchain_next in Hch;
    (destruct (gs_fl h) as [|a fl] eqn:Efl;
      [|destruct (alloc_from s G h a fl (S n) I Hin Efl) as (s' & G' & E & A); left; by eauto]).
  - by apply (alloc_grow s G h pre n).
  - change (ld64 (sl_ram s) (gs_addr h + off_next) = gs_addr h') in Hch. cbn [length] in Hfr. change (Z.of_nat 0) with 0 in Hfr.
    assert (h' ∈ of_class (gs_class h) G) as Hin' by (rewrite El; set_solver).
    apply list_elem_of_filter in Hin' as [Hc' Hin'].
    remember (S n) as n1 eqn:En1.
    cbn [slab_alloc_loop]. srun. rewrite Hfr. cbn [negb Z.eqb]. srun. rewrite Hch.
    pose proof (slab_addr_range _ _ _ I Hin').
    rewrite (proj2 (Z.eqb_neq (gs_addr h') 0)) by lia. srun. rewrite <- Hc'.
    apply (IH (pre ++ [h])); [done|rewrite Hc', El; by rewrite <- app_assoc|simpl in Hn; lia].
Qed.

(** Index of the class that serves [size]. *)
Definition class_of (size : Z) : Z := POW2_SHIFT_COUNT (slab_round_up size) - 3.

Lemma slab_alloc_outcome s G size n :
  sinv s G -> gh_n G = 10 -> 1 <= size <= 4096 -> (length (gh_slabs G) + 2 <= n)%nat ->
  let k := class_of size in
  0 <= k < 10 /\ size <= osize k /\ (k = 0 \/ osize k < 2 * size) /\
    alloc_outcome k s G (slab_alloc n size s).
Proof.
  intros I H10 Hsz Hn k0. destruct (class_of_size size Hsz) as (k & Hk & E1 & E2 & Hle & Hlo).
  assert (osize (k - 3) = 2 ^ k) as Eo.
  { unfold osize. rewrite Z.shiftl_mul_pow2 by lia. change 8 with (2 ^ 3).
    rewrite <- Z.pow_add_r by lia. f_equal. lia. }
  assert (k0 = k - 3) as -> by (unfold k0, class_of; by rewrite E2).
  rewrite Eo. split; [lia|]. split; [done|]. split.
  { destruct Hlo as [->|Hlo]; [by left|right].
    replace (2 ^ k) with (2 * 2 ^ (k - 1)) by (rewrite <- Z.pow_succ_r by lia; f_equal; lia). lia. }
  unfold slab_alloc. rewrite E2, E1.
  assert (0 < 2 ^ k) by (apply Z.pow_pos_nonneg; lia).
  rewrite (proj2 (Z.eqb_neq (2 ^ k) 0)) by lia.
  rewrite (proj2 (Z.ltb_ge _ _)) by lia. rewrite (proj2 (Z.ltb_ge _ _)) by lia. cbn [orb]. srun.
  destruct (si_heads _ _ I (k - 3) ltac:(lia)) as (x & Hx & Hx0 & Hch). rewrite Hx.
  destruct (of_class (k - 3) G) as [|h l] eqn:El; simpl in Hch; [done|].
  destruct Hch as (-> & _ & _).
  assert (h ∈ of_class (k - 3) G) as Hin by (rewrite El; set_solver).
  apply list_elem_of_filter in Hin as [Hc _]. rewrite <- Hc in El |- *.
  apply (alloc_loop_spec l []); [done|done|].
  assert (length (of_class (gs_class h) G) <= length (gh_slabs G))%nat as Hlen.
  { apply length_filter. }
  rewrite El in Hlen. simpl in Hlen. lia.
Qed.

(** ** [slab_free] *)
Lemma page_of_addr i a :
  0 <= i < 2 ^ 49 -> page_addr i <= a < page_addr i + PG_4K_SIZE -> PHY_TO_PAGE a = i.
Proof.
  intros Hi Ha. unfold PHY_TO_PAGE, page_addr, MEMORY_START, PG_4K_SIZE, PG_4K_SHIFT in *.
  rewrite u64_small by lia. rewrite Z.shiftr_div_pow2 by lia. change (2 ^ 12) with 4096.
  symmetry. apply (Z.div_unique_pos _ _ _ (a - 2147483648 - 4096 * i)); lia.
Qed.

(** [slab_free] up to the offset check. *)
Lemma slab_free_find s G g a :
  sinv s G -> g ∈ gh_slabs G ->
  page_addr (gs_page g) <= a < page_addr (gs_page g) + PG_4K_SIZE ->
  slab_free a s =
  if negb ((a - page_addr (gs_page g)) mod osize (gs_class g) =? 0) then Halt
  else do_free_slab_object_from_out (gs_addr g) a s.
Proof.
  intros I Hg Ha. destruct (si_pages _ _ I g Hg) as (Hu & _ & p & Hp & Hps).
  pose proof (used_index _ _ _ I Hu) as Hi.
  destruct (r_desc _ _ (si_repr _ _ I) _ _ Hp) as (_ & Hpa & _).
  pose proof (slab_addr_range _ _ _ I Hg) as Hr.
  pose proof (si_slabs _ _ I) as Hs. rewrite Forall_forall in Hs.
  destruct (Hs g Hg) as [Hc Hos _ _ _ _ _].
  assert (0 < a) by (unfold page_addr, MEMORY_START, PG_4K_SIZE in *; lia).
  unfold slab_free. rewrite (proj2 (Z.eqb_neq a 0)) by lia. srun.
  unfold sl_deref. cbn [zoom]. rewrite (page_of_addr (gs_page g)) by done.
  unfold deref. rewrite Hp. rewrite Hps, Hpa. rewrite (proj2 (Z.eqb_neq (gs_addr g) 0)) by lia.
  srun. change (sl_ram (set_mem (sl_mem s) s)) with (sl_ram s). rewrite Hos.
  rewrite u64_small by (unfold PG_4K_SIZE in *; lia).
  rewrite (proj2 (Z.leb_gt _ _)) by lia. cbn [orb]. replace (set_mem (sl_mem s) s) with s by (by destruct s).
  by destruct (_ =? 0).
Qed.

Lemma live_push s G l1 g l2 a :
  sinv s G -> gh_slabs G = l1 ++ g :: l2 -> is_obj g a ->
  forall b k, live (with_slabs G (l1 ++ g_with g (a :: gs_fl g) :: l2)) b k <-> live G b k /\ b <> a.
Proof.
  intros I HG Hoa b k. assert (g ∈ gh_slabs G) as Hg by (rewrite HG; set_solver).
  rewrite live_replace, elem_of_cons.
  assert (live G b k <-> (exists g', g' ∈ l1 ++ l2 /\ gs_class g' = k /\ is_obj g' b /\ b ∉ gs_fl g')
            \/ (gs_class g = k /\ is_obj g b /\ b ∉ gs_fl g)) as ->.
  { rewrite <- (live_replace G l1 g l2 (gs_fl g)).
    assert (with_slabs G (l1 ++ g_with g (gs_fl g) :: l2) = G) as ->; [|done].
    unfold with_slabs, g_with. destruct G, g. simpl in *. by subst. }
  split; [|naive_solver]. intros [(g' & Hg' & Hk & Ho & Hn)|H]; [|naive_solver].
  split; [left; eauto|]. intros ->.
  assert (g' = g) as -> by (apply (obj_unique s G _ _ a); auto; rewrite HG; set_solver).
  assert (NoDup (gs_addr <$> gh_slabs G)) as Hnd
    by (by pose proof (si_distinct _ _ I) as (_ & _ & ?)%NoDup_app).
  rewrite HG in Hnd. pose proof (si_pages_nodup _ _ I) as Hpn. rewrite HG in Hpn.
  by destruct (split_slab l1 l2 g g Hnd Hpn Hg').
Qed.

Lemma push_words s a g s' x :
  do_free_slab_object_from_out (gs_addr g) a s = Ok (tt, s') ->
  x + 8 <= gs_addr g \/ gs_addr g + 64 <= x -> x + 8 <= a \/ a + 8 <= x ->
  ld64 (sl_ram s') x = ld64 (sl_ram s) x.
Proof.
  unfold do_free_slab_object_from_out. srun. intros [= <-] H1 H2. unfold sl_ram. simpl.
  unfold off_freelist, off_free. by rewrite !ld64_st64_disjoint by lia.
Qed.

Lemma slab_free_live s G a k :
  sinv s G -> live G a k ->
  exists s' G', slab_free a s = Ok (tt, s') /\ sinv s' G' /\ gh_n G' = gh_n G /\
    (forall b k', live G' b k' <-> live G b k' /\ b <> a) /\
    (forall x, obj_word G x -> x + 8 <= a \/ a + 8 <= x -> ld64 (sl_ram s') x = ld64 (sl_ram s) x) /\
    length (gh_slabs G') = length (gh_slabs G) /\ gh_fr G' = gh_fr G.
Proof.
  intros I (g & Hg & Hk & Ho & Hn). destruct (list_elem_of_split _ _ Hg) as (l1 & l2 & HG).
  pose proof (si_slabs _ _ I) as Hs. rewrite Forall_forall in Hs.
  pose proof (so_class _ _ (Hs g Hg)) as Hc. destruct (osize_cases _ Hc) as (? & ? & ?).
  destruct (obj_in_page g a Hc Ho).
  rewrite (slab_free_find s G g a) by (done || (unfold PG_4K_SIZE in *; lia)).
  assert ((a - page_addr (gs_page g)) mod osize (gs_class g) = 0) as ->.
  { destruct Ho as (j & Hj & ->).
    replace (_ + _ - _) with (j * osize (gs_class g)) by lia. apply Z.mod_mul. lia. }
  destruct (slab_push s G l1 g l2 a I HG Ho Hn) as (s' & E & I'). cbn [negb Z.eqb].
  exists s', (with_slabs G (l1 ++ g_with g (a :: gs_fl g) :: l2)).
  split; [done|]. split; [done|]. split; [done|]. split; [by apply (live_push s)|].
  split; [|split; [|done]].
  - intros x Hw Hx. apply (push_words s a g); [done| |done]. apply (obj_word_block s G); [done| |done].
    pose proof (si_blocks _ _ I) as F. rewrite Forall_forall in F. apply F, elem_of_app. right.
    by apply list_elem_of_fmap_2.
  - simpl. rewrite HG, !length_app. done.
Qed.

(** ** [init_slab] *)

(** The globals before [init_slab]: zeroed by the loader. *)
Definition boot_slab (k : kmem) : slab_state := mkSlab k (replicate 10 0) 0 0 0 0.

Lemma alloc_page_facts k fr i l :
  repr k fr -> fr_free fr = i :: l ->
  exists k', alloc_page k = Ok (page_addr i, k') /\
    repr k' (mkFrames l (<[i := 1]> (fr_used fr))) /\ 0 <= i < 2 ^ 49 /\
    (forall x, page_addr i <= x -> x + 8 <= page_addr i + PG_4K_SIZE -> ld64 (km_ram k') x = 0).
Proof.
  intros R Ef. pose proof (alloc_page_spec _ _ R) as A. unfold spec_alloc in A. rewrite Ef in A.
  destruct A as (k' & A & R' & Hram). exists k'. split; [done|]. split; [done|]. split.
  - destruct (r_used _ _ R' i 1 ltac:(simpl; by rewrite lookup_insert_eq)) as (p & Hp & _).
    by destruct (r_desc _ _ R' _ _ Hp).
  - intros x ? ?. rewrite Hram. apply ld64_memset_zero; lia.
Qed.

Definition pool_ghost (fr : frames) (i : Z) (l : list Z) : ghost :=
  mkGhost (mkFrames l (<[i := 1]> (fr_used fr))) [i] (cells (page_addr i) SIZEOF_SLAB 64) [] 0.

(** The pool's first page. *)
Lemma pool_first_page k fr i l fl e t f m :
  repr k (gh_fr (pool_ghost fr i l)) -> 0 <= i < 2 ^ 49 -> fl = page_addr i ->
  e = page_addr i + 63 * 64 -> f = 64 ->
  chain m (page_addr i) (cells (page_addr i) SIZEOF_SLAB 64) ->
  sinv (mkSlab (set_ram m k) (replicate 10 0) fl e t f) (pool_ghost fr i l).
Proof.
  intros R Hi -> -> -> C.
  split; cbn [pool_ghost gh_fr gh_meta gh_ml gh_slabs gh_n sl_mem sl_slabs mp_freelist mp_end mp_free
              fmap list_fmap].
  - by apply repr_set_ram.
  - exact C.
  - by rewrite last_cells by lia.
  - by rewrite length_cells by lia.
  - rewrite length_cells by lia. lia.
  - intros j ->%list_elem_of_singleton. cbn [fr_used]. by rewrite lookup_insert_eq.
  - rewrite app_nil_r. apply Forall_forall. intros a Ha. by apply cells_blocks.
  - rewrite app_nil_r. apply cells_nodup. unfold SIZEOF_SLAB; lia.
  - by intros g ?%elem_of_nil.
  - constructor.
  - constructor.
  - by intros g ?%elem_of_nil.
  - intros k' Hk. lia.
Qed.

Lemma init_meta_pool_spec k fr i1 i2 i3 l :
  repr k fr -> fr_free fr = i1 :: i2 :: i3 :: l ->
  exists s' G', init_slab_meta_pool (boot_slab k) = Ok (tt, s') /\ sinv s' G' /\
    fr_free (gh_fr G') = l /\ gh_slabs G' = [] /\ gh_n G' = 0 /\ sl_slabs s' = replicate 10 0 /\
    Z.of_nat (length (gh_ml G')) = 192.
Proof.
  intros R Ef. destruct (alloc_page_facts k fr i1 _ R Ef) as (k1 & A & R1 & Hi & Hz).
  set (p := page_addr i1) in *.
  assert (0 < p /\ p + 4096 < 2 ^ 62) as Hp
    by (unfold p, page_addr, MEMORY_START, PG_4K_SIZE; lia).
  unfold PG_4K_SIZE in Hz.
  unfold init_slab_meta_pool. srun. unfold sl_alloc_page. cbn [zoom]. simpl sl_mem. rewrite A.
  rewrite (proj2 (Z.eqb_neq p 0)) by lia. srun. rewrite link_loop_eq. srun.
  change (PG_4K_SIZE / SIZEOF_SLAB) with 64.
  change (1 <? SLAB_META_POOL_INIT_PAGE_SIZE) with true. cbv iota.
  change (SLAB_META_POOL_INIT_PAGE_SIZE - 1) with 2.
  cbn [set_pool set_mem set_ram sl_mem sl_slabs mp_freelist mp_end mp_total mp_free sl_ram km_ram
       km_pages km_gmd].
  set (m := st64 _ _ 0).
  assert (chain m p (cells p SIZEOF_SLAB 64)) as C.
  { pose proof (link_cells (km_ram k1) p 64 64 ltac:(lia) ltac:(lia) ltac:(lia) ltac:(lia)) as C.
    cbv zeta in C. rewrite Hz in C by lia. apply chain_cseg. eapply cseg_ext; [|exact C].
    unfold m, SIZEOF_SLAB. intros x (j & Hj & ->)%elem_of_cells.
    destruct (decide (j = 64 - 1)) as [->|].
    - rewrite ld64_st64_same, link_ram_other by lia. by rewrite Hz by lia.
    - rewrite ld64_st64_disjoint by lia. done. }
  clearbody m.
  match goal with |- context [inflate_slab_meta_pool 2 ?t] => set (s1 := t) end.
  assert (sinv s1 (pool_ghost fr i1 (i2 :: i3 :: l))) as I1.
  { apply (pool_first_page k1 fr i1 (i2 :: i3 :: l) _ _ 64); try done. }
  destruct (inflate_two s1 _ i2 i3 l I1 eq_refl) as (s2 & E2 & I2 & _ & S2).
  { simpl. lia. }
  exists s2. eexists. split; [exact E2|]. split; [exact I2|]. split; [done|]. split; [done|].
  split; [done|]. split; [by rewrite S2|].
  cbn [grown pool_ghost gh_ml]. rewrite !length_app, !length_cells by lia. lia.
Qed.

Lemma sinv_set_slabs s G l :
  sinv s G -> (forall k, 0 <= k < gh_n G -> l !! Z.to_nat k = sl_slabs s !! Z.to_nat k) ->
  sinv (set_slabs l s) G.
Proof.
  intros [R Hp He Hf Hsm Hm Hb Hd Hpg Hpn Hs Hcls Hh] H. split; try done.
  intros k Hk. destruct (Hh k Hk) as (h & ? & ?). exists h. split; [|done].
  simpl. by rewrite H.
Qed.

Lemma init_class_header m a osz total :
  0 <= osz < 2 ^ 64 -> 0 <= total < 2 ^ 64 ->
  let m' := st64 (st64 (st64 (st64 (st64 (st64 m (a + off_object_size) osz) (a + off_next) 0)
              (a + off_total) total) (a + off_free) total) a 0) (a + 8) 0 in
  ld64 m' (a + off_object_size) = osz /\ ld64 m' (a + off_total) = total /\
  ld64 m' (a + off_free) = total /\ ld64 m' (a + off_next) = 0 /\
  (forall x, x + 8 <= a \/ a + 64 <= x -> ld64 m' x = ld64 m x).
Proof.
  intros H1 H2. unfold off_object_size, off_total, off_free, off_next.
  repeat split; intros; repeat (rewrite ld64_st64_disjoint by lia);
    rewrite ?ld64_st64_same, ?u64_small by lia; done.
Qed.

Lemma init_class_spec s G k i l :
  sinv s G -> gh_n G = k -> 0 <= k < 10 -> length (sl_slabs s) = 10%nat ->
  (2 <= length (gh_ml G))%nat -> fr_free (gh_fr G) = i :: l ->
  exists s' G', init_slab_class k s = Ok (tt, s') /\ sinv s' G' /\ gh_n G' = k + 1 /\
    length (sl_slabs s') = 10%nat /\ S (length (gh_ml G')) = length (gh_ml G) /\
    fr_free (gh_fr G') = l /\
    ((forall b c, ~ live G b c) -> forall b c, ~ live G' b c) /\
    length (gh_slabs G') = S (length (gh_slabs G)).
Proof.
  intros I Hn Hk Hlen Hml Ef. destruct (osize_cases k Hk) as (Ho1 & Ho2 & Ho3).
  unfold init_slab_class, slab_alloc_meta. srun.
  rewrite (si_pool_free _ _ I). rewrite (proj2 (Z.eqb_neq _ 1)) by lia. srun.
  destruct (pool_nonempty _ _ I) as (a & ml & Em).
  destruct (meta_take_spec s G a ml I Em) as (s1 & E1 & I1 & F1 & M1 & S1).
  { intros ->. rewrite Em in Hml. simpl in Hml. lia. }
  unfold meta_take in E1. cbn [gets rd modify mbind' mret] in E1. cbv beta in E1.
  injection E1 as Ea E1. rewrite Ea. rewrite Ea in E1.
  match goal with |- context [set_pool ?x ?y ?z ?t s] =>
    replace (set_pool x y z t s) with s1 by (symmetry; exact E1) end.
  set (G1 := with_ml G ml) in *.
  assert (0 < a < 2 ^ 62) as Ra.
  { destruct F1 as [Hmb _]. apply (block_pos _ _ Hmb), (fun i Hi => proj2 (si_meta _ _ I1 i Hi)). }
  assert (sinv (set_slabs (<[Z.to_nat k := a]> (sl_slabs s1)) s1) G1) as I2.
  { apply sinv_set_slabs; [done|]. intros k' Hk'. simpl in Hk'.
    rewrite list_lookup_insert_ne by lia. done. }
  set (s2 := set_slabs _ s1) in *.
  destruct (init_class_header (sl_ram s2) a (osize k) (ototal k)) as (W1 & W2 & W3 & W4 & W5); [lia..|].
  change (Z.shiftl 8 k) with (osize k). unfold init_slab_lock. srun.
  cbn [set_mem set_ram sl_mem sl_ram km_ram].
  assert (ld64 (st64 (st64 (sl_ram s2) (a + off_object_size) (osize k)) (a + off_next) 0)
            (a + off_object_size) = osize k) as ->.
  { unfold off_object_size, off_next. rewrite ld64_st64_disjoint by lia.
    rewrite ld64_st64_same. apply u64_small. lia. }
  change (PG_4K_SIZE / osize k) with (ototal k).
  rewrite (ld64_st64_same _ (a + off_total)), (u64_small (ototal k)) by lia.
  match type of W1 with ld64 ?m _ = _ => set (m' := m) in * end.
  set (s3 := set_mem (set_ram m' (sl_mem s2)) s2).
  match goal with |- context [sl_alloc_page ?t] => replace t with s3 by reflexivity end.
  assert (sinv s3 G1) as I3 by (by apply (sinv_float s2 _ G1 a)).
  clearbody m'. pose proof (sl_alloc_page_spec s3 G1 I3) as A.
  change (fr_free (gh_fr G1)) with (fr_free (gh_fr G)) in A. rewrite Ef in A.
  destruct A as (km & A & I4 & Hno & Hi & [p Hp] & Hz & Hx). rewrite A. clear A.
  set (G2 := with_frames G1 _) in *.
  assert (0 < page_addr i) by (unfold page_addr, MEMORY_START, PG_4K_SIZE; lia).
  rewrite (proj2 (Z.eqb_neq (page_addr i) 0)) by lia. srun.
  unfold sl_set_page_slab. cbn [zoom]. unfold update, deref. srun. simpl sl_mem.
  rewrite page_addr_index by lia. rewrite Hp. srun. rewrite link_loop_eq. srun.
  assert (floating G1 a) as [Hmb _] by done.
  assert (forall o, 0 <= o <= 56 -> ld64 (km_ram km) (a + o) = ld64 m' (a + o)) as Hf.
  { intros o Ho. by apply Hx, block_owned. }
  destruct (layout_pending (set_mem km s3) G2 a k i p I4 F1 Hno Hi Hk) as (I5 & P5 & _); try done.
  { simpl. by rewrite lookup_insert_eq. }
  { unfold sl_ram. simpl. rewrite Hf by (unfold off_object_size; lia). done. }
  { unfold sl_ram. simpl. rewrite Hf by (unfold off_total; lia). done. }
  { unfold sl_ram. simpl. rewrite Hf by (unfold off_free; lia). done. }
  { unfold sl_ram. simpl. rewrite Hf by (unfold off_next; lia). done. }
  exists (laid_out (set_mem km s3) a k i p), (add_slab_n G2 (new_slab a k i) (k + 1)).
  split; [reflexivity|]. split.
  - apply (sinv_add (laid_out (set_mem km s3) a k i p)); try done.
    + simpl. lia.
    + simpl. lia.
    + by left.
    + intros k' Hk'. rewrite of_class_add. simpl gs_class. case_decide as Hd.
      * subst k'. exists a. split; [|split; [lia|]].
        { simpl. rewrite S1, list_lookup_insert_eq; [done|lia]. }
        assert (of_class k G2 = []) as ->.
        { destruct (of_class k G2) as [|g l0] eqn:E0; [done|].
          assert (g ∈ of_class k G2) as Hg by (rewrite E0; left).
          apply list_elem_of_filter in Hg as [Hc Hg]. pose proof (si_cls _ _ I g Hg). lia. }
        simpl. split; [done|]. split; [lia|]. apply (pe_next _ _ _ P5).
      * rewrite app_nil_r. apply (si_heads _ _ I5). simpl. lia.
  - split; [done|]. split; [simpl; by rewrite length_insert, S1|].
    split; [simpl; by rewrite Em|]. split; [done|]. split.
    + intros Hl b c Hlv. apply (Hl b c). apply (live_add G2 a k i) in Hlv. exact Hlv.
    + simpl. rewrite length_app. simpl. lia.
Qed.

Lemma init_classes_spec (n : nat) s G k :
  sinv s G -> gh_n G = k -> 0 <= k -> k + Z.of_nat n = 10 -> length (sl_slabs s) = 10%nat ->
  (n + 2 <= length (gh_ml G))%nat -> (n <= length (fr_free (gh_fr G)))%nat ->
  (forall b c, ~ live G b c) ->
  exists s' G', for_loop n k init_slab_class s = Ok (tt, s') /\ sinv s' G' /\ gh_n G' = 10 /\
    (forall b c, ~ live G' b c) /\ fr_free (gh_fr G') = drop n (fr_free (gh_fr G)) /\
    length (gh_slabs G') = (length (gh_slabs G) + n)%nat.
Proof.
  revert s G k; induction n as [|n IH]; intros s G k I Hn Hk Hs Hlen Hml Hfr Hlv.
  - exists s, G. simpl in Hs. split; [done|]. split; [done|]. split; [lia|]. split; [done|].
    split; [done|lia].
  - destruct (fr_free (gh_fr G)) as [|i l] eqn:Ef; [simpl in Hfr; lia|].
    destruct (init_class_spec s G k i l I Hn ltac:(lia) Hlen ltac:(lia) Ef)
      as (s1 & G1 & E1 & I1 & N1 & L1 & M1 & F1 & V1 & S1).
    cbn [for_loop]. srun. rewrite E1.
    destruct (IH s1 G1 (k + 1) I1 N1) as (s2 & G2 & E2 & I2 & N2 & V2 & F2 & S2);
      [lia|lia|done|lia|rewrite F1; simpl in Hfr; lia|by apply V1|].
    exists s2, G2. split; [done|]. split; [done|]. split; [done|]. split; [done|].
    split; [by rewrite F2, F1|]. rewrite S2, S1. lia.
Qed.

Lemma init_slab_spec k fr i1 i2 i3 l :
  repr k fr -> fr_free fr = i1 :: i2 :: i3 :: l -> (10 <= length l)%nat ->
  exists s G, init_slab (boot_slab k) = Ok (tt, s) /\ sinv s G /\ gh_n G = 10 /\
    (forall b c, ~ live G b c) /\ fr_free (gh_fr G) = drop 10 l /\
    length (gh_slabs G) = 10%nat.
Proof.
  intros R Ef Hl. destruct (init_meta_pool_spec k fr i1 i2 i3 l R Ef)
    as (s1 & G1 & E1 & I1 & F1 & S1 & N1 & L1 & M1).
  unfold init_slab. srun. rewrite E1.
  destruct (init_classes_spec 10 s1 G1 0 I1 N1) as (s2 & G2 & E2 & I2 & N2 & V2 & F2 & S2);
    [lia|lia|by rewrite L1|lia|by rewrite F1| |].
  { intros b c (g & Hg & _). rewrite S1 in Hg. by apply elem_of_nil in Hg. }
  exists s2, G2. split; [done|]. split; [done|]. split; [done|]. split; [done|].
  split; [by rewrite F2, F1|]. by rewrite S2, S1.
Qed.
