(* ===== verification/SlabSpec.v ===== *)
(** The promises of the slab allocator to the rest of the kernel, stated on a
    table of live objects: what [init_slab], [slab_alloc] and [slab_free] of
    mm/slab.c guarantee, and what [slab_free] rejects. *)
From stdpp Require Import base gmap list.
From Stdlib Require Import ZArith Lia.
From S2P Require Import Prelude Bytes Pages Slab SlabInv SlabGrow SlabOps SlabTop.
Open Scope Z_scope.

(** [L] maps every live object to its size class. *)
Definition slab_inv (s : slab_state) (L : gmap Z Z) : Prop :=
  exists G, sinv s G /\ gh_n G = 10 /\ (forall b k, L !! b = Some k <-> live G b k).

(** Fuel for the walk along a class: every slab owns a distinct page. *)
Definition slab_fuel (s : slab_state) : nat := (size (km_pages (sl_mem s)) + 2)%nat.
Definition do_slab_alloc (size : Z) : M slab_state Z := fun s => slab_alloc (slab_fuel s) size s.

Lemma slab_fuel_enough s G : sinv s G -> (length (gh_slabs G) + 2 <= slab_fuel s)%nat.
Proof.
  intros I. unfold slab_fuel. apply Nat.add_le_mono_r.
  rewrite <- (length_fmap gs_page). rewrite <- size_dom.
  rewrite <- (size_list_to_set (C := gset Z)) by apply (si_pages_nodup _ _ I).
  apply subseteq_size. intros i Hi. rewrite elem_of_list_to_set in Hi.
  apply list_elem_of_fmap in Hi as (g & -> & Hg).
  destruct (si_pages _ _ I g Hg) as (_ & _ & p & Hp & _). by apply elem_of_dom_2 in Hp.
Qed.

Lemma osize_divides k : 0 <= k < 10 -> (osize k | 4096).
Proof. intros Hk. destruct (osize_cases k Hk) as (_ & H & _). exists (ototal k). lia. Qed.

Lemma obj_aligned g a : 0 <= gs_class g < 10 -> is_obj g a -> a mod osize (gs_class g) = 0.
Proof.
  intros Hc (j & Hj & ->). destruct (osize_cases _ Hc) as (? & ? & ?).
  apply Z.mod_divide; [lia|]. apply Z.divide_add_r; [|by apply Z.divide_mul_r].
  unfold page_addr, MEMORY_START, PG_4K_SIZE.
  replace (2147483648 + 4096 * gs_page g) with (4096 * (524288 + gs_page g)) by lia.
  by apply Z.divide_mul_l, osize_divides.
Qed.

(** Live objects occupy disjoint ranges of memory. *)
Definition apart (a ka b kb : Z) : Prop := a + osize ka <= b \/ b + osize kb <= a.

Lemma obj_extent g a :
  0 <= gs_class g < 10 -> is_obj g a ->
  page_addr (gs_page g) <= a /\ a + osize (gs_class g) <= page_addr (gs_page g) + PG_4K_SIZE.
Proof.
  intros Hc (j & Hj & ->). destruct (osize_cases _ Hc) as (? & ? & ?). unfold PG_4K_SIZE. nia.
Qed.

Lemma live_apart s G a ka b kb :
  sinv s G -> live G a ka -> live G b kb -> a <> b -> apart a ka b kb.
Proof.
  intros I (g & Hg & <- & Ha & _) (g' & Hg' & <- & Hb & _) Hne.
  pose proof (si_slabs _ _ I) as Hs. rewrite Forall_forall in Hs.
  pose proof (so_class _ _ (Hs g Hg)) as Hc. pose proof (so_class _ _ (Hs g' Hg')) as Hc'.
  destruct (obj_extent g a Hc Ha), (obj_extent g' b Hc' Hb). unfold apart.
  destruct (decide (gs_page g = gs_page g')) as [E|E].
  - assert (g = g') as <- by (by apply (NoDup_fmap_inj gs_page (gh_slabs G));
      [apply (si_pages_nodup _ _ I)|..]).
    destruct Ha as (i & Hi & ->), Hb as (j & Hj & ->). destruct (osize_cases _ Hc) as (? & ? & ?).
    assert (i <> j) by congruence. nia.
  - destruct (frames_disjoint _ _ E); lia.
Qed.

(** The words of the live objects of [L] are the same in [s] and [s']. *)
Definition contents_kept (L : gmap Z Z) (s s' : slab_state) : Prop :=
  forall b k x, L !! b = Some k -> b <= x -> x + 8 <= b + osize k ->
    ld64 (sl_ram s') x = ld64 (sl_ram s) x.

Lemma live_word s G b k x :
  sinv s G -> live G b k -> b <= x -> x + 8 <= b + osize k -> obj_word G x.
Proof.
  intros I (g & Hg & <- & Ho & _) H1 H2. pose proof (si_slabs _ _ I) as Hs. rewrite Forall_forall in Hs.
  destruct (obj_extent g b (so_class _ _ (Hs g Hg)) Ho). exists g. split; [done|]. lia.
Qed.

Lemma live_class s G b k : sinv s G -> live G b k -> 0 <= k < 10 /\ b mod osize k = 0.
Proof.
  intros I (g & Hg & <- & Ho & _). pose proof (si_slabs _ _ I) as Hs. rewrite Forall_forall in Hs.
  pose proof (so_class _ _ (Hs g Hg)). split; [done|]. by apply obj_aligned.
Qed.

Lemma slab_inv_insert (L : gmap Z Z) G G' a k :
  (forall b k, L !! b = Some k <-> live G b k) -> (forall k', ~ live G a k') ->
  (forall b k', live G' b k' <-> live G b k' \/ (b = a /\ k' = k)) ->
  forall b k', <[a := k]> L !! b = Some k' <-> live G' b k'.
Proof.
  intros HL Hf HG b k'. rewrite HG, lookup_insert_Some, HL. split; [naive_solver|].
  intros [H|[-> ->]]; [right|by left]. split; [|done]. intros <-. by apply (Hf k').
Qed.

Lemma slab_inv_delete (L : gmap Z Z) G G' a :
  (forall b k, L !! b = Some k <-> live G b k) ->
  (forall b k', live G' b k' <-> live G b k' /\ b <> a) ->
  forall b k', delete a L !! b = Some k' <-> live G' b k'.
Proof. intros HL HG b k'. rewrite HG, lookup_delete_Some, HL. naive_solver. Qed.

(** What a successful allocation of [size] bytes guarantees. *)
Definition fresh_object (L : gmap Z Z) (size : Z) (s : slab_state) (a k : Z) (s' : slab_state) : Prop :=
  a <> 0 /\ L !! a = None /\ a mod osize k = 0 /\
  size <= osize k /\ (k = 0 \/ osize k < 2 * size) /\
  (forall b kb, L !! b = Some kb -> apart a k b kb) /\
  slab_inv s' (<[a := k]> L) /\ contents_kept L s s'.

Lemma alloc_ok_fresh s G L size k a s' G' :
  sinv s G -> gh_n G = 10 -> (forall b k, L !! b = Some k <-> live G b k) ->
  alloc_ok k s G a s' G' -> size <= osize k -> (k = 0 \/ osize k < 2 * size) ->
  fresh_object L size s a k s'.
Proof.
  intros I H10 HL (Ha & I' & Hk & Hf & HG & Hn) H1 H2.
  assert (live G' a k) as Hla by (apply HG; by right).
  split; [done|]. split.
  { destruct (L !! a) as [k'|] eqn:E; [|done]. by apply HL, Hf in E. }
  destruct (live_class _ _ _ _ I' Hla) as [_ Hal].
  split; [done|]. split; [done|]. split; [done|]. split; [|split].
  - intros b kb Hb. apply HL in Hb. apply (live_apart s' G'); auto.
    + apply HG. by left.
    + intros ->. by apply (Hf kb).
  - exists G'. split; [done|]. split; [congruence|]. by apply (slab_inv_insert L G).
  - intros b kb x Hb H3 H4. apply HL in Hb. apply Hk. by apply (live_word s G b kb).
Qed.

Lemma slab_alloc_ok s L size :
  slab_inv s L -> 1 <= size <= 4096 ->
  (exists a s', do_slab_alloc size s = Ok (a, s') /\ fresh_object L size s a (class_of size) s') \/
  ((exists fr, repr (sl_mem s) fr /\ (length (fr_free fr) < 3)%nat) /\
   (do_slab_alloc size s = Halt \/
    exists s', do_slab_alloc size s = Ok (0, s') /\ slab_inv s' L /\ contents_kept L s s')).
Proof.
  intros (G & I & H10 & HL) Hs.
  destruct (slab_alloc_outcome s G size (slab_fuel s) I H10 Hs (slab_fuel_enough s G I))
    as (Hk & H1 & H2 & [(a & s' & G' & E & A)|(Hfr & H)]).
  - left. exists a, s'. split; [done|]. by eapply alloc_ok_fresh.
  - right. split; [exists (gh_fr G); split; [apply (si_repr _ _ I)|done]|].
    destruct H as [H|(s' & G' & E & I' & Hk' & S' & N' & _)]; [by left|right].
    exists s'. split; [done|]. split.
    + exists G'. split; [done|]. split; [congruence|]. intros b kb. rewrite HL.
      by rewrite (live_same G G').
    + intros b kb x Hb H3 H4. apply HL in Hb. apply Hk'. by apply (live_word s G b kb).
Qed.

Lemma slab_free_ok s L a k :
  slab_inv s L -> L !! a = Some k ->
  exists s', slab_free a s = Ok (tt, s') /\ slab_inv s' (delete a L) /\
    contents_kept (delete a L) s s'.
Proof.
  intros (G & I & H10 & HL) Ha. apply HL in Ha.
  destruct (slab_free_live s G a k I Ha) as (s' & G' & E & I' & N' & V' & W' & _).
  exists s'. split; [done|]. split.
  - exists G'. split; [done|]. split; [congruence|]. by apply (slab_inv_delete L G).
  - intros b kb x Hb H3 H4. apply lookup_delete_Some in Hb as [Hne Hb]. apply HL in Hb.
    apply W'; [by apply (live_word s G b kb)|].
    assert (8 <= osize k) by (destruct (live_class _ _ _ _ I Ha) as [Hk _];
      destruct (osize_cases k Hk); lia).
    destruct (live_apart s G a k b kb I Ha Hb Hne); lia.
Qed.

(** ** Clients of the allocator as a transition system *)
Inductive slab_step : slab_state * gmap Z Z -> slab_state * gmap Z Z -> Prop :=
| st_alloc s L size a s' :
    1 <= size <= 4096 -> do_slab_alloc size s = Ok (a, s') -> a <> 0 ->
    slab_step (s, L) (s', <[a := class_of size]> L)
| st_null s L size s' :
    1 <= size <= 4096 -> do_slab_alloc size s = Ok (0, s') -> slab_step (s, L) (s', L)
| st_free s L a k s' :
    L !! a = Some k -> slab_free a s = Ok (tt, s') -> slab_step (s, L) (s', delete a L).

Lemma slab_step_inv c c' : slab_step c c' -> slab_inv c.1 c.2 -> slab_inv c'.1 c'.2.
Proof.
  intros [s L size a s' Hs E Ha|s L size s' Hs E|s L a k s' Ha E] I; simpl in *.
  - destruct (slab_alloc_ok s L size I Hs) as [(a' & s1 & E1 & F)|(_ & [E1|(s1 & E1 & _)])];
      rewrite E in E1; [|done|by injection E1].
    injection E1 as <- <-. apply F.
  - destruct (slab_alloc_ok s L size I Hs) as [(a' & s1 & E1 & F)|(_ & [E1|(s1 & E1 & F & _)])];
      rewrite E in E1; [|done|].
    + injection E1 as <- <-. by destruct F as [? _].
    + by injection E1 as <-.
  - destruct (slab_free_ok s L a k I Ha) as (s1 & E1 & F & _). rewrite E in E1. by injection E1 as <-.
Qed.

Lemma slab_steps_inv c c' : rtc slab_step c c' -> slab_inv c.1 c.2 -> slab_inv c'.1 c'.2.
Proof. induction 1 as [|c1 c2 c3 H _ IH]; [done|]. intros I. by apply IH, (slab_step_inv c1). Qed.

Lemma init_slab_inv k fr i1 i2 i3 l :
  repr k fr -> fr_free fr = i1 :: i2 :: i3 :: l -> (10 <= length l)%nat ->
  exists s, init_slab (boot_slab k) = Ok (tt, s) /\ slab_inv s ∅ /\
    exists fr', repr (sl_mem s) fr' /\ fr_free fr' = drop 10 l.
Proof.
  intros R Ef Hl. destruct (init_slab_spec k fr i1 i2 i3 l R Ef Hl) as (s & G & E & I & N & V & F & _).
  exists s. split; [done|]. split.
  - exists G. split; [done|]. split; [done|]. intros b c. rewrite lookup_empty.
    split; [done|]. by intros ?%V.
  - exists (gh_fr G). split; [apply (si_repr _ _ I)|done].
Qed.

(** ** A machine with sixteen free frames *)
Definition demo16_page (i : Z) : page :=
  mkPage (page_addr i) 0 0 0 (if i =? 0 then None else Some (i - 1))
    (if i =? 15 then None else Some (i + 1)).
Definition demo16 : kmem :=
  mkKmem (list_to_map ((fun i => (i, demo16_page i)) <$> seqZ 0 16))
    (mkGmd None None None None None None 0 0 (Some 0) (Some 15) (page_addr 0) (page_addr 15) 16) ∅.
Definition demo16_frames : frames := mkFrames (seqZ 0 16) ∅.

Lemma demo16_lookup i p : km_pages demo16 !! i = Some p -> 0 <= i < 16 /\ p = demo16_page i.
Proof.
  intros H%elem_of_list_to_map_2. apply list_elem_of_fmap in H as (j & [= -> ->] & Hj).
  apply elem_of_seqZ in Hj. split; [lia|done].
Qed.

Lemma demo16_lookup_2 i : 0 <= i < 16 -> km_pages demo16 !! i = Some (demo16_page i).
Proof.
  intros Hi. apply elem_of_list_to_map_1.
  - rewrite <- list_fmap_compose. apply NoDup_fmap_2; [by intros ? ? ?|apply NoDup_seqZ].
  - apply list_elem_of_fmap. exists i. split; [done|]. apply elem_of_seqZ. lia.
Qed.

Lemma demo16_lseg (n : nat) i :
  0 <= i -> i + Z.of_nat n = 15 -> lseg (km_pages demo16) (Some i) (seqZ i (Z.of_nat (S n))) None.
Proof.
  revert i; induction n as [|n IH]; intros i Hi E.
  - assert (i = 15) as -> by lia. split; [done|]. exists (demo16_page 15). by split.
  - rewrite seqZ_cons by lia. split; [done|]. exists (demo16_page i).
    split; [apply demo16_lookup_2; lia|]. unfold demo16_page. cbn [pg_next].
    rewrite (proj2 (Z.eqb_neq i 15)) by lia.
    replace (Z.pred (Z.of_nat (S (S n)))) with (Z.of_nat (S n)) by lia.
    apply IH; lia.
Qed.

Lemma demo16_repr : repr demo16 demo16_frames.
Proof.
  split.
  - intros i p [Hi ->]%demo16_lookup. split; [lia|]. split; [done|]. unfold flags_ok; auto.
  - cbn [demo16 km_gmd free_start_at free_end_at]. unfold page_addr, MEMORY_START, PG_4K_SIZE. lia.
  - apply (demo16_lseg 15); done.
  - done.
  - apply NoDup_seqZ.
  - intros i Hi%elem_of_seqZ. exists (demo16_page i). split; [apply demo16_lookup_2; lia|].
    split; [done|]. split; [done|]. unfold in_range.
    cbn [demo16 km_gmd free_start_at free_end_at]. unfold page_addr, MEMORY_START, PG_4K_SIZE. lia.
  - intros i rc H. simpl in H. by rewrite lookup_empty in H.
  - by intros i p [Hi ->]%demo16_lookup.
Qed.

Definition demo_slab : slab_state := (ok_or (tt, boot_slab demo16) (init_slab (boot_slab demo16))).2.

Lemma demo_slab_inv : slab_inv demo_slab ∅.
Proof.
  destruct (init_slab_inv demo16 demo16_frames 0 1 2 (seqZ 3 13) demo16_repr) as (s & E & I & _);
    [reflexivity|vm_compute; lia|].
  unfold demo_slab. by rewrite E.
Qed.

(** ** Theorems *)

(** [C2] [slab_alloc] on any size from 1 to 4096 always terminates.  It
    returns an object of the smallest class that fits: non-NULL, aligned to
    its size, disjoint from every live object and not live before, leaving the
    contents of all live objects unchanged.  NULL or a panic is possible only
    when fewer than three page frames are free; after NULL the invariant and
    the live set are unchanged.  Sizes from 2049 to 4096 are served like the
    others (slab_round_up has a class for them), although the comment at
    slab_alloc and test/slab_test.c ask for NULL there. *)
Theorem slab_alloc_correct s L size :
  slab_inv s L -> 1 <= size <= 4096 ->
  (exists a s', do_slab_alloc size s = Ok (a, s') /\ fresh_object L size s a (class_of size) s') \/
  ((exists fr, repr (sl_mem s) fr /\ (length (fr_free fr) < 3)%nat) /\
   (do_slab_alloc size s = Halt \/
    exists s', do_slab_alloc size s = Ok (0, s') /\ slab_inv s' L /\ contents_kept L s s')).
Proof. apply slab_alloc_ok. Qed.

Lemma slab_alloc_correct_witness :
  (exists a s', do_slab_alloc 100 demo_slab = Ok (a, s') /\
     fresh_object ∅ 100 demo_slab a (class_of 100) s') \/
  ((exists fr, repr (sl_mem demo_slab) fr /\ (length (fr_free fr) < 3)%nat) /\
   (do_slab_alloc 100 demo_slab = Halt \/
    exists s', do_slab_alloc 100 demo_slab = Ok (0, s') /\ slab_inv s' ∅ /\
      contents_kept ∅ demo_slab s')).
Proof. apply (slab_alloc_correct demo_slab ∅ 100); [apply demo_slab_inv|lia]. Defined.

(** Releasing an object that was just allocated brings back the table of
    live objects, and no other live object's contents change on the way. *)
Theorem slab_alloc_free_roundtrip s L size a s1 :
  slab_inv s L -> 1 <= size <= 4096 -> do_slab_alloc size s = Ok (a, s1) -> a <> 0 ->
  exists s2, slab_free a s1 = Ok (tt, s2) /\ slab_inv s2 L /\ contents_kept L s s2.
Proof.
  intros I Hs E Ha.
  destruct (slab_alloc_ok s L size I Hs) as [(a' & s' & E1 & F)|(_ & [E1|(s' & E1 & _)])];
    rewrite E in E1; [|done|by injection E1].
  injection E1 as <- <-. destruct F as (_ & Hn & _ & _ & _ & _ & I1 & K1).
  destruct (slab_free_ok s1 _ a (class_of size) I1 (lookup_insert_eq _ _ _)) as (s2 & E2 & I2 & K2).
  rewrite delete_insert_id in I2, K2 by done. exists s2. split; [done|]. split; [done|].
  intros b k x Hb H1 H2. rewrite (K2 b k x Hb H1 H2). by apply (K1 b k).
Qed.

Definition demo_alloc : Z * slab_state :=
  ok_or (0, demo_slab) (do_slab_alloc 100 demo_slab).

Lemma demo_alloc_nonnull : (demo_alloc.1 =? 0) = false.
Proof. vm_compute. reflexivity. Qed.

Lemma demo_alloc_eq : do_slab_alloc 100 demo_slab = Ok demo_alloc.
Proof.
  pose proof demo_alloc_nonnull as H. unfold demo_alloc in *.
  by destruct (do_slab_alloc 100 demo_slab).
Qed.

Lemma demo_alloc_pair : do_slab_alloc 100 demo_slab = Ok (demo_alloc.1, demo_alloc.2).
Proof. rewrite demo_alloc_eq. by destruct demo_alloc. Qed.

Lemma slab_alloc_free_roundtrip_witness :
  exists s2, slab_free demo_alloc.1 demo_alloc.2 = Ok (tt, s2) /\ slab_inv s2 ∅ /\
    contents_kept ∅ demo_slab s2.
Proof.
  apply (slab_alloc_free_roundtrip demo_slab ∅ 100); [apply demo_slab_inv|lia|..].
  - exact demo_alloc_pair.
  - exact (proj1 (Z.eqb_neq _ _) demo_alloc_nonnull).
Defined.

(** [slab_free] panics, instead of corrupting a free list, on NULL, on an
    address whose page belongs to no slab, and on an address inside an object
    page that is not the start of an object. *)
Theorem slab_free_rejects s G a :
  sinv s G ->
  (a = 0 \/
   (exists p, km_pages (sl_mem s) !! PHY_TO_PAGE a = Some p /\ pg_slab p = 0) \/
   (exists g, g ∈ gh_slabs G /\ page_addr (gs_page g) <= a < page_addr (gs_page g) + PG_4K_SIZE /\
      ~ is_obj g a)) ->
  slab_free a s = Halt.
Proof.
  intros I [->|[(p & Hp & Hs)|(g & Hg & Ha & Hn)]]; [done|..].
  - unfold slab_free. destruct (a =? 0); [done|]. srun. unfold sl_deref, zoom, deref.
    rewrite Hp. by rewrite Hs.
  - rewrite (slab_free_find s G g a) by done.
    pose proof (si_slabs _ _ I) as Hs. rewrite Forall_forall in Hs.
    pose proof (so_class _ _ (Hs g Hg)) as Hc. destruct (osize_cases _ Hc) as (? & ? & ?).
    destruct (_ =? 0) eqn:E; [|done]. breflect. exfalso. apply Hn.
    apply Z.mod_divide in E as [j Hj]; [|lia]. exists j. unfold PG_4K_SIZE in *. split; [nia|lia].
Qed.

Lemma slab_free_rejects_witness : slab_free 0 demo_slab = Halt.
Proof.
  destruct demo_slab_inv as (G & I & _). apply (slab_free_rejects demo_slab G 0 I). by left.
Defined.

(** [init_slab] on a fresh page allocator with at least thirteen free
    frames (three for metadata, one per class) succeeds, establishes the
    invariant with no live object, and takes exactly those thirteen frames. *)
Theorem init_slab_ready k fr :
  repr k fr -> (13 <= length (fr_free fr))%nat ->
  exists s, init_slab (boot_slab k) = Ok (tt, s) /\ slab_inv s ∅ /\
    exists fr', repr (sl_mem s) fr' /\ fr_free fr' = drop 13 (fr_free fr).
Proof.
  intros R Hl. destruct (fr_free fr) as [|i1 [|i2 [|i3 l]]] eqn:Ef; simpl in Hl; [lia..|].
  destruct (init_slab_inv k fr i1 i2 i3 l R Ef) as (s & E & I & F); [lia|]. by exists s.
Qed.

Lemma init_slab_ready_witness :
  exists s, init_slab (boot_slab demo16) = Ok (tt, s) /\ slab_inv s ∅ /\
    exists fr', repr (sl_mem s) fr' /\ fr_free fr' = drop 13 (fr_free demo16_frames).
Proof. apply (init_slab_ready demo16 demo16_frames); [apply demo16_repr|vm_compute; lia]. Defined.

(** [C24] Whatever sequence of allocations and releases clients make after
    boot, as long as they release live objects only, at every reachable state
    any two live objects are disjoint and aligned and any of them can be
    released. *)
Theorem slab_reachable_safe s0 s L :
  slab_inv s0 ∅ -> rtc slab_step (s0, ∅) (s, L) ->
  (forall a ka, L !! a = Some ka -> a mod osize ka = 0 /\
     (exists s', slab_free a s = Ok (tt, s')) /\
     (forall b kb, L !! b = Some kb -> a <> b -> apart a ka b kb)).
Proof.
  intros I0 Hr a ka Ha. pose proof (slab_steps_inv _ _ Hr I0) as I. simpl in I.
  destruct (slab_free_ok s L a ka I Ha) as (s' & E & _). destruct I as (G & I & _ & HL).
  apply HL in Ha. split; [by apply (live_class s G)|]. split; [eauto|].
  intros b kb Hb Hne. apply HL in Hb. by apply (live_apart s G).
Qed.

Lemma slab_reachable_safe_witness :
  (forall b kb, <[demo_alloc.1 := class_of 100]> (∅ : gmap Z Z) !! b = Some kb ->
     demo_alloc.1 <> b -> apart demo_alloc.1 (class_of 100) b kb) /\
  (exists s', slab_free demo_alloc.1 demo_alloc.2 = Ok (tt, s')).
Proof.
  edestruct (slab_reachable_safe demo_slab demo_alloc.2 (<[demo_alloc.1 := class_of 100]> ∅))
    as (_ & H1 & H2); [apply demo_slab_inv| |apply lookup_insert_eq|by split].
  apply rtc_once. apply (st_alloc demo_slab ∅ 100); [lia|..].
  - exact demo_alloc_pair.
  - exact (proj1 (Z.eqb_neq _ _) demo_alloc_nonnull).
Defined.

(** [C25] The rounding of request sizes: [slab_round_up] returns the least power
    of two from 8 to 4096 that is not below the request, [__ctzdi2] its
    exponent, and requests of 0 or more than 4096 bytes are refused with 0. *)
Theorem slab_round_up_least size :
  0 <= size < 2 ^ 32 ->
  (slab_round_up size = 0 <-> size = 0 \/ 4096 < size) /\
  (1 <= size <= 4096 -> exists k, 3 <= k <= 12 /\ slab_round_up size = 2 ^ k /\
     POW2_SHIFT_COUNT (slab_round_up size) = k /\ size <= 2 ^ k /\
     (forall k', 3 <= k' -> size <= 2 ^ k' -> k <= k')).
Proof.
  intros Hs. split.
  - split.
    + intros E. destruct (decide (1 <= size <= 4096)) as [Hin|]; [|lia].
      destruct (class_of_size size Hin) as (k & Hk & E1 & _).
      pose proof (Z.pow_pos_nonneg 2 k). lia.
    + unfold slab_round_up. intros [->|H]; [done|]. rewrite (proj2 (Z.ltb_lt _ _) H).
      by rewrite orb_true_r.
  - intros Hin. destruct (class_of_size size Hin) as (k & Hk & E1 & E2 & Hle & Hlo).
    exists k. split; [done|]. split; [done|]. split; [done|]. split; [done|].
    intros k' Hk' Hle'. destruct Hlo as [->|Hlo]; [done|].
    destruct (decide (k <= k')) as [|Hn]; [done|].
    assert (2 ^ k' <= 2 ^ (k - 1)) by (apply Z.pow_le_mono_r; lia). lia.
Qed.

Lemma slab_round_up_least_witness :
  (slab_round_up 100 = 0 <-> 100 = 0 \/ 4096 < 100) /\
  (1 <= 100 <= 4096 -> exists k, 3 <= k <= 12 /\ slab_round_up 100 = 2 ^ k /\
     POW2_SHIFT_COUNT (slab_round_up 100) = k /\ 100 <= 2 ^ k /\
     (forall k', 3 <= k' -> 100 <= 2 ^ k' -> k <= k')).
Proof. apply (slab_round_up_least 100). lia. Defined.

(** [__ctzdi2] counts trailing zeros: on any non-zero 64-bit word the
    result [n] is below 64 and the word is an odd multiple of [2 ^ n]; on zero
    it is 64. *)
Theorem ctzdi2_correct x :
  0 <= x < 2 ^ 64 ->
  (x = 0 -> ctzdi2 x = 64) /\
  (x <> 0 -> 0 <= ctzdi2 x < 64 /\ exists m, x = m * 2 ^ ctzdi2 x /\ m mod 2 <> 0).
Proof.
  intros Hx. split; [by intros ->|]. intros Hn.
  destruct (ctzdi2_spec x ltac:(lia)) as (m & H1 & H2 & H3). eauto.
Qed.

Lemma ctzdi2_correct_witness :
  (48 = 0 -> ctzdi2 48 = 64) /\
  (48 <> 0 -> 0 <= ctzdi2 48 < 64 /\ exists m, 48 = m * 2 ^ ctzdi2 48 /\ m mod 2 <> 0).
Proof. apply (ctzdi2_correct 48). lia. Defined.
