(* ===== verification/HashMap.v ===== *)
(** The hash table: utils/hashmap.c.

    A collision chain ([hash_node_t] linked through [next]) is the list of its
    nodes in chain order, each with the address it was allocated at; the
    bucket array is the list of its chains.  Keys are pointers into client
    memory [mem] that the client keeps unchanged while the entry lives, as
    hashmap.h requires.  The memory of nodes, bucket array and table comes
    from a [Heap], the interface the slab allocator implements
    ([slab_heap] below). *)
From stdpp Require Import base gmap list.
From Stdlib Require Import ZArith Lia.
From S2P Require Import Prelude Bytes Pages Slab SlabInv SlabGrow SlabOps SlabTop SlabSpec.
Open Scope Z_scope.

(** ** The allocator as its clients see it *)
Class Heap (H : Type) := {
  halloc : Z -> M H Z;
  hfree : Z -> M H unit;
  heap_inv : H -> gset Z -> Prop;   (* the live objects *)
  halloc_ok : forall h L n, heap_inv h L -> 1 <= n <= 4096 ->
    (exists a h', halloc n h = Ok (a, h') /\ a <> 0 /\ (a ∉ L) /\ heap_inv h' ({[a]} ∪ L)) \/
    (exists h', halloc n h = Ok (0, h') /\ heap_inv h' L) \/ halloc n h = Halt;
  halloc_bad : forall h n, n = 0 \/ 4096 < n -> halloc n h = Ok (0, h);
  hfree_ok : forall h L a, heap_inv h L -> a ∈ L ->
    exists h', hfree a h = Ok (tt, h') /\ heap_inv h' (L ∖ {[a]}) }.

Definition slab_heap_inv (s : slab_state) (L : gset Z) : Prop :=
  exists Lm : gmap Z Z, slab_inv s Lm /\ dom Lm = L.

#[export] Program Instance slab_heap : Heap slab_state :=
  {| halloc := do_slab_alloc; hfree := slab_free; heap_inv := slab_heap_inv |}.
Next Obligation.
  intros s L n (Lm & I & <-) Hn.
  destruct (slab_alloc_ok s Lm n I Hn) as [(a & s' & E & F)|(_ & [E|(s' & E & I' & _)])]; [left|..].
  - destruct F as (Ha & Hf & _ & _ & _ & _ & I' & _). exists a, s'. split; [done|]. split; [done|].
    split; [by apply not_elem_of_dom|]. exists (<[a := class_of n]> Lm). split; [done|].
    apply dom_insert_L.
  - right. by right.
  - right. left. exists s'. split; [done|]. by exists Lm.
Qed.
Next Obligation.
  intros s n Hn. unfold do_slab_alloc, slab_alloc, slab_round_up.
  destruct Hn as [->|Hn]; [done|]. rewrite (proj2 (Z.ltb_lt _ _) Hn), orb_true_r. done.
Qed.
Next Obligation.
  intros s L a (Lm & I & <-) Ha. apply elem_of_dom in Ha as [k Hk].
  destruct (slab_free_ok s Lm a k I Hk) as (s' & E & I' & _). exists s'. split; [done|].
  exists (delete a Lm). split; [done|]. apply dom_delete_L.
Qed.

(** ** Data *)
Definition HASH_TABLE_LOAD_FACTOR : Z := 75.
Definition HASH_TABLE_MIN_SIZE : Z := 8.
Definition SIZEOF_HASH_NODE : Z := 32.
Definition SIZEOF_HASH_TABLE : Z := 48.
Definition SIZEOF_PTR : Z := 8.

Record hash_node := mkNode {
  n_ptr : Z;
  n_key : Z;
  n_value : Z;
  n_key_len : Z;
  n_hash : Z }.

Record hash_table := mkTable {
  ht_ptr : Z;
  ht_buckets_ptr : Z;
  ht_buckets : list (list hash_node);
  ht_size : Z;
  ht_count : Z;
  ht_hash_func : Z -> Z -> Z;
  ht_key_equal : Z -> Z -> Z -> bool }.

Definition set_buckets (b : list (list hash_node)) (t : hash_table) : hash_table :=
  mkTable (ht_ptr t) (ht_buckets_ptr t) b (ht_size t) (ht_count t) (ht_hash_func t) (ht_key_equal t).
Definition set_count (c : Z) (t : hash_table) : hash_table :=
  mkTable (ht_ptr t) (ht_buckets_ptr t) (ht_buckets t) (ht_size t) c (ht_hash_func t) (ht_key_equal t).
Definition set_array (p : Z) (b : list (list hash_node)) (n : Z) (t : hash_table) : hash_table :=
  mkTable (ht_ptr t) p b n (ht_count t) (ht_hash_func t) (ht_key_equal t).
Definition set_value (v : Z) (n : hash_node) : hash_node :=
  mkNode (n_ptr n) (n_key n) v (n_key_len n) (n_hash n).

(** ** Hashing and comparing keys in client memory *)
Fixpoint fnv_loop (mem : ram) (n : nat) (p hash : Z) : Z :=
  match n with
  | O => hash
  | S n' => fnv_loop mem n' (p + 1) (u32 (Z.lxor hash (ldb mem p) * 16777619))
  end.
Definition default_hash_func (mem : ram) (key len : Z) : Z :=
  fnv_loop mem (Z.to_nat len) key 2166136261.

Fixpoint equal_loop (mem : ram) (n : nat) (p q : Z) : bool :=
  match n with
  | O => true
  | S n' => if negb (ldb mem p =? ldb mem q) then false else equal_loop mem n' (p + 1) (q + 1)
  end.
Definition default_key_equal (mem : ram) (key1 key2 len : Z) : bool :=
  if key1 =? key2 then true
  else if (key1 =? 0) || (key2 =? 0) then false
  else equal_loop mem (Z.to_nat len) key1 key2.

(** [while (p < n) p <<= 1;] — 32 doublings take [p] past any [uint32_t];
    for [n > 2^31] the C loop reaches 0 and never stops. *)
Fixpoint pow2_loop (fuel : nat) (p n : Z) : option Z :=
  match fuel with
  | O => None
  | S f => if p <? n then pow2_loop f (u32 (Z.shiftl p 1)) n else Some p
  end.
Definition round_up_pow2 (n : Z) : option Z := pow2_loop 33 HASH_TABLE_MIN_SIZE n.

Section Operations.
Context {H : Type} `{HH : Heap H}.

(** lift a pure fuelled result *)
Definition lift {A} (o : option A) : M H A :=
  match o with Some a => mret a | None => nofuel end.

Definition hash_table_create (mem : ram) (initial_size : Z) (hash_func : option (Z -> Z -> Z))
    (key_equal : option (Z -> Z -> Z -> bool)) : M H (option hash_table) :=
  let n0 := if initial_size <? HASH_TABLE_MIN_SIZE then HASH_TABLE_MIN_SIZE else initial_size in
  let* n := lift (round_up_pow2 n0) in
  let* ht := halloc SIZEOF_HASH_TABLE in
  if ht =? 0 then mret None else
  let* buckets := halloc (u32 (SIZEOF_PTR * n)) in
  if buckets =? 0 then hfree ht ;;; mret None else
  mret (Some (mkTable ht buckets (replicate (Z.to_nat n) []) n 0
                (default (default_hash_func mem) hash_func)
                (default (default_key_equal mem) key_equal))).

(** The two loops of [hash_table_destroy]. *)
Fixpoint free_chain (l : list hash_node) : M H unit :=
  match l with
  | [] => mret tt
  | node :: l' => hfree (n_ptr node) ;;; free_chain l'
  end.
Fixpoint free_buckets (bs : list (list hash_node)) : M H unit :=
  match bs with
  | [] => mret tt
  | b :: bs' => free_chain b ;;; free_buckets bs'
  end.
Definition hash_table_destroy (ht : option hash_table) : M H unit :=
  match ht with
  | None => mret tt
  | Some t => free_buckets (ht_buckets t) ;;; hfree (ht_buckets_ptr t) ;;; hfree (ht_ptr t)
  end.

(** [new_index = node->hash % new_size; push node on new_buckets[new_index]] *)
Definition rehash_node (new_size : Z) (nb : list (list hash_node)) (node : hash_node)
    : list (list hash_node) :=
  let i := Z.to_nat (n_hash node mod new_size) in
  <[i := node :: default [] (nb !! i)]> nb.
Definition rehash (new_size : Z) (bs : list (list hash_node)) : list (list hash_node) :=
  fold_left (fun nb b => fold_left (rehash_node new_size) b nb) bs
    (replicate (Z.to_nat new_size) []).

Definition hash_table_resize (t : hash_table) (new_size0 : Z) : M H (bool * hash_table) :=
  let* new_size := lift (round_up_pow2 new_size0) in
  if new_size <? HASH_TABLE_MIN_SIZE then mret (false, t) else
  let* nb := halloc (u32 (SIZEOF_PTR * new_size)) in
  if nb =? 0 then mret (false, t) else
  let bs := rehash new_size (ht_buckets t) in
  hfree (ht_buckets_ptr t) ;;;
  mret (true, set_array nb bs new_size t).

Definition key_match (t : hash_table) (hash key key_len : Z) (node : hash_node) : bool :=
  (n_hash node =? hash) && (n_key_len node =? key_len)
  && ht_key_equal t (n_key node) key key_len.

(** the [while (node)] search of a chain *)
Fixpoint chain_find (f : hash_node -> bool) (l : list hash_node) : option hash_node :=
  match l with
  | [] => None
  | node :: l' => if f node then Some node else chain_find f l'
  end.
(** the same search, storing [value] in the node found *)
Fixpoint chain_store (f : hash_node -> bool) (v : Z) (l : list hash_node) : list hash_node :=
  match l with
  | [] => []
  | node :: l' => if f node then set_value v node :: l' else node :: chain_store f v l'
  end.
(** the same search, unlinking the node found *)
Fixpoint chain_unlink (f : hash_node -> bool) (l : list hash_node) : list hash_node :=
  match l with
  | [] => []
  | node :: l' => if f node then l' else node :: chain_unlink f l'
  end.

Definition bucket (t : hash_table) (index : Z) : list hash_node :=
  default [] (ht_buckets t !! Z.to_nat index).
Definition set_bucket (index : Z) (b : list hash_node) (t : hash_table) : hash_table :=
  set_buckets (<[Z.to_nat index := b]> (ht_buckets t)) t.

(** the expansion check: a failed resize is only reported *)
Definition maybe_grow (t : hash_table) : M H hash_table :=
  if HASH_TABLE_LOAD_FACTOR <? u32 (u32 (ht_count t + 1) * 100) / ht_size t
  then let* r := hash_table_resize t (u32 (ht_size t * 2)) in mret (snd r)
  else mret t.

(** allocate the node and push it at the head of its chain *)
Definition push_node (t : hash_table) (hash key key_len value : Z) : M H (bool * hash_table) :=
  let index := hash mod ht_size t in
  let* p := halloc SIZEOF_HASH_NODE in
  if p =? 0 then mret (false, t) else
  let node := mkNode p key value key_len hash in
  mret (true, set_count (u32 (ht_count t + 1)) (set_bucket index (node :: bucket t index) t)).

(** The critical sections take the [hash] and the [index] computed before the
    lock was acquired. *)
Definition insert_locked (t : hash_table) (hash index key key_len value : Z) (overwrite : bool)
    : M H (bool * hash_table) :=
  match chain_find (key_match t hash key key_len) (bucket t index) with
  | Some _ =>
      if overwrite
      then mret (true, set_bucket index
                         (chain_store (key_match t hash key key_len) value (bucket t index)) t)
      else mret (false, t)
  | None => let* t' := maybe_grow t in push_node t' hash key key_len value
  end.

Definition hash_table_insert (t : hash_table) (key key_len value : Z) (overwrite : bool)
    : M H (bool * hash_table) :=
  if (key =? 0) || (key_len =? 0) then mret (false, t) else
  let hash := ht_hash_func t key key_len in
  insert_locked t hash (hash mod ht_size t) key key_len value overwrite.

Definition hash_table_insert_if_absent (t : hash_table) (key key_len value : Z)
    : M H (bool * hash_table) :=
  if (key =? 0) || (key_len =? 0) then mret (false, t) else
  let hash := ht_hash_func t key key_len in
  let index := hash mod ht_size t in
  match chain_find (key_match t hash key key_len) (bucket t index) with
  | Some _ => mret (false, t)
  | None => let* t' := maybe_grow t in push_node t' hash key key_len value
  end.

Definition lookup_locked (t : hash_table) (hash index key key_len : Z) : Z :=
  match chain_find (key_match t hash key key_len) (bucket t index) with
  | Some node => n_value node
  | None => 0
  end.
Definition hash_table_lookup (t : hash_table) (key key_len : Z) : Z :=
  if (key =? 0) || (key_len =? 0) then 0 else
  let hash := ht_hash_func t key key_len in
  lookup_locked t hash (hash mod ht_size t) key key_len.

Definition hash_table_delete (t : hash_table) (key key_len : Z) : M H (bool * hash_table) :=
  if (key =? 0) || (key_len =? 0) then mret (false, t) else
  let hash := ht_hash_func t key key_len in
  let index := hash mod ht_size t in
  let f := key_match t hash key key_len in
  match chain_find f (bucket t index) with
  | None => mret (false, t)
  | Some node =>
      let t1 := set_bucket index (chain_unlink f (bucket t index)) t in
      hfree (n_ptr node) ;;;
      let t2 := set_count (u32 (ht_count t1 - 1)) t1 in
      if (HASH_TABLE_MIN_SIZE <? ht_size t2)
         && (u32 (ht_count t2 * 100) / ht_size t2 <? HASH_TABLE_LOAD_FACTOR / 2)
      then let* r := hash_table_resize t2 (ht_size t2 / 2) in mret (true, snd r)
      else mret (true, t2)
  end.

Definition hash_table_count (ht : option hash_table) : Z :=
  match ht with None => 0 | Some t => ht_count t end.

(** [hash_table_foreach] with a callback on the client's state *)
Fixpoint foreach_chain {X} (cb : Z -> Z -> Z -> M X unit) (l : list hash_node) : M X unit :=
  match l with
  | [] => mret tt
  | node :: l' => cb (n_key node) (n_key_len node) (n_value node) ;;; foreach_chain cb l'
  end.
Fixpoint foreach_buckets {X} (cb : Z -> Z -> Z -> M X unit) (bs : list (list hash_node)) : M X unit :=
  match bs with
  | [] => mret tt
  | b :: bs' => foreach_chain cb b ;;; foreach_buckets cb bs'
  end.
Definition hash_table_foreach {X} (t : hash_table) (cb : Z -> Z -> Z -> M X unit) : M X unit :=
  foreach_buckets cb (ht_buckets t).

End Operations.
