(* ===== verification/HashMapSpec.v ===== *)
(** Correctness of the hash table (HashMap.v): a refinement of a finite map
    from key contents to values, with exact ownership of heap objects. *)
From stdpp Require Import base gmap list.
From Stdlib Require Import ZArith Lia.
From S2P Require Import Prelude Bytes HashMap.
Open Scope Z_scope.

(** ** Keys by content *)

(** [kv p len] is the content of the key at [p]; equality of contents is what
    [key_equal] decides and what the hash depends on. *)
Record key_laws (hf : Z -> Z -> Z) (eqf : Z -> Z -> Z -> bool) (kv : Z -> Z -> list Z) : Prop := {
  kl_equal : forall p q len, p <> 0 -> q <> 0 -> eqf p q len = true <-> kv p len = kv q len;
  kl_len : forall p q l1 l2, 0 < l1 -> 0 < l2 -> kv p l1 = kv q l2 -> l1 = l2;
  kl_hash : forall p q len, kv p len = kv q len -> hf p len = hf q len;
  kl_range : forall p len, 0 <= hf p len < 2 ^ 32 }.

Definition key_bytes (mem : ram) (p len : Z) : list Z := ldbytes mem p (Z.to_nat len).

Lemma fnv_loop_bytes mem n p q h :
  ldbytes mem p n = ldbytes mem q n -> fnv_loop mem n p h = fnv_loop mem n q h.
Proof.
  revert p q h; induction n as [|n IH]; intros p q h E; [done|]. simpl in *.
  injection E as E1 E2. rewrite E1. by apply IH.
Qed.

Lemma fnv_loop_range mem n p h : 0 <= h < 2 ^ 32 -> 0 <= fnv_loop mem n p h < 2 ^ 32.
Proof.
  revert p h; induction n as [|n IH]; intros p h Hh; [done|]. simpl. apply IH, u32_range.
Qed.

Lemma equal_loop_bytes mem n p q :
  equal_loop mem n p q = true <-> ldbytes mem p n = ldbytes mem q n.
Proof.
  revert p q; induction n as [|n IH]; intros p q; simpl; [done|].
  destruct (ldb mem p =? ldb mem q) eqn:E; breflect; cbn [negb].
  - rewrite IH, E. split; [by intros ->|by intros [= ->]].
  - split; [done|by intros [= ?]].
Qed.

Lemma default_key_laws mem :
  key_laws (default_hash_func mem) (default_key_equal mem) (key_bytes mem).
Proof.
  split.
  - intros p q len Hp Hq. unfold default_key_equal, key_bytes.
    destruct (p =? q) eqn:E; breflect; [by subst|].
    rewrite (proj2 (Z.eqb_neq p 0)), (proj2 (Z.eqb_neq q 0)) by done. apply equal_loop_bytes.
  - intros p q l1 l2 H1 H2 E. apply (f_equal length) in E. unfold key_bytes in E.
    rewrite !length_ldbytes in E. lia.
  - intros p q len E. by apply fnv_loop_bytes.
  - intros p len. apply fnv_loop_range. lia.
Qed.

(** ** Rounding the number of buckets *)
Lemma pow2_loop_spec n fuel k :
  n <= 2 ^ 31 -> 0 <= k <= 31 -> 31 < Z.of_nat fuel + k -> (k = 3 \/ 2 ^ (k - 1) < n) -> 3 <= k ->
  exists j, k <= j <= 31 /\ pow2_loop fuel (2 ^ k) n = Some (2 ^ j) /\ n <= 2 ^ j /\
    (j = 3 \/ 2 ^ (j - 1) < n).
Proof.
  intros Hn. revert k; induction fuel as [|f IH]; intros k Hk Hf Hlo H3; [lia|]. cbn [pow2_loop].
  destruct (2 ^ k <? n) eqn:E; breflect.
  - assert (k < 31) by (destruct (decide (k = 31)) as [->|]; lia).
    rewrite Z.shiftl_mul_pow2 by lia. rewrite <- Z.pow_add_r by lia.
    rewrite u32_small.
    2:{ split; [apply Z.pow_nonneg; lia|]. apply Z.pow_lt_mono_r; lia. }
    destruct (IH (k + 1)) as (j & Hj & Ej & ?); [lia|lia| |lia|].
    + right. by replace (k + 1 - 1) with k by lia.
    + exists j. split; [lia|done].
  - exists k. split; [lia|]. done.
Qed.

Lemma round_up_pow2_spec n :
  n <= 2 ^ 31 -> exists k, 3 <= k <= 31 /\ round_up_pow2 n = Some (2 ^ k) /\ n <= 2 ^ k /\
    (k = 3 \/ 2 ^ (k - 1) < n).
Proof. intros Hn. apply (pow2_loop_spec n 33 3); lia. Qed.

Lemma round_up_pow2_table n :
  n <= 1024 -> exists k, 3 <= k <= 10 /\ round_up_pow2 n = Some (2 ^ k) /\ n <= 2 ^ k /\
    (k = 3 \/ 2 ^ (k - 1) < n).
Proof.
  intros Hn. destruct (round_up_pow2_spec n ltac:(lia)) as (k & Hk & E & Hle & Hlo).
  exists k. split; [|done]. split; [lia|]. destruct Hlo as [->|Hlo]; [lia|].
  destruct (decide (k <= 10)) as [|Hk10]; [done|].
  assert (2 ^ 10 <= 2 ^ (k - 1)) by (apply Z.pow_le_mono_r; lia). lia.
Qed.

(** Past [2^31] the doubling wraps to 0 and the loop never ends. *)
Lemma pow2_loop_stuck n fuel : 0 < n -> pow2_loop fuel 0 n = None.
Proof.
  intros Hn. induction fuel as [|f IH]; [done|]. cbn [pow2_loop].
  rewrite (proj2 (Z.ltb_lt _ _)) by done. done.
Qed.

Lemma pow2_loop_diverges n fuel k :
  2 ^ 31 < n -> 0 <= k <= 31 -> pow2_loop fuel (2 ^ k) n = None.
Proof.
  intros Hn. revert k; induction fuel as [|f IH]; intros k Hk; [done|]. cbn [pow2_loop].
  assert (2 ^ k <= 2 ^ 31) by (apply Z.pow_le_mono_r; lia).
  rewrite (proj2 (Z.ltb_lt _ _)) by lia. rewrite Z.shiftl_mul_pow2 by lia.
  rewrite <- Z.pow_add_r by lia. destruct (decide (k = 31)) as [->|].
  - by apply pow2_loop_stuck; lia.
  - rewrite u32_small; [apply IH; lia|].
    split; [apply Z.pow_nonneg; lia|]. apply Z.pow_lt_mono_r; lia.
Qed.

(** ** Buckets and permutations *)
Lemma concat_insert {A} (bs : list (list A)) i b :
  bs !! i = Some b -> exists rest, concat bs ≡ₚ b ++ rest /\
    forall b', concat (<[i := b']> bs) ≡ₚ b' ++ rest.
Proof.
  revert i; induction bs as [|b0 bs IH]; intros i Hi; [done|]. destruct i as [|i]; simpl in *.
  - injection Hi as ->. exists (concat bs). done.
  - destruct (IH i Hi) as (rest & E1 & E2). exists (b0 ++ rest). split.
    + rewrite E1. by rewrite !(assoc_L (++)), (comm (++) b0 b).
    + intros b'. rewrite E2. by rewrite !(assoc_L (++)), (comm (++) b0 b').
Qed.

Lemma concat_replicate_nil {A} n : concat (replicate n (@nil A)) = [].
Proof. by induction n. Qed.

Lemma rehash_node_perm n nb node :
  0 < n -> length nb = Z.to_nat n ->
  concat (rehash_node n nb node) ≡ₚ node :: concat nb /\ length (rehash_node n nb node) = Z.to_nat n.
Proof.
  intros Hn Hl. pose proof (Z.mod_pos_bound (n_hash node) n Hn). unfold rehash_node.
  rewrite length_insert. split; [|done].
  destruct (lookup_lt_is_Some_2 nb (Z.to_nat (n_hash node mod n))) as [b Hb]; [lia|].
  destruct (concat_insert _ _ _ Hb) as (rest & E1 & E2). rewrite E2, E1, Hb. done.
Qed.

Lemma rehash_chain_perm n b nb :
  0 < n -> length nb = Z.to_nat n ->
  concat (fold_left (rehash_node n) b nb) ≡ₚ b ++ concat nb /\
  length (fold_left (rehash_node n) b nb) = Z.to_nat n.
Proof.
  intros Hn. revert nb; induction b as [|x b IH]; intros nb Hl; simpl; [done|].
  destruct (rehash_node_perm n nb x Hn Hl) as [E L]. destruct (IH _ L) as [E' L'].
  split; [|done]. rewrite E', E. by rewrite Permutation_middle.
Qed.

Lemma rehash_perm n bs :
  0 < n -> concat (rehash n bs) ≡ₚ concat bs /\ length (rehash n bs) = Z.to_nat n.
Proof.
  intros Hn. unfold rehash.
  assert (forall nb, length nb = Z.to_nat n ->
    concat (fold_left (fun nb b => fold_left (rehash_node n) b nb) bs nb) ≡ₚ concat bs ++ concat nb /\
    length (fold_left (fun nb b => fold_left (rehash_node n) b nb) bs nb) = Z.to_nat n) as G.
  { induction bs as [|b bs IH]; intros nb Hl; simpl; [done|].
    destruct (rehash_chain_perm n b nb Hn Hl) as [E L]. destruct (IH _ L) as [E' L'].
    split; [|done]. rewrite E', E. rewrite (assoc_L (++)), (comm (++) (concat bs) b). by rewrite <- (assoc_L (++)). }
  destruct (G (replicate (Z.to_nat n) [])) as [E L]; [by rewrite length_replicate|].
  split; [|done]. by rewrite E, concat_replicate_nil, app_nil_r.
Qed.

(** Every node sits in the bucket of its hash. *)
Definition placed (n : Z) (bs : list (list hash_node)) : Prop :=
  forall i b x, bs !! i = Some b -> x ∈ b -> Z.to_nat (n_hash x mod n) = i.

Lemma rehash_node_placed n nb node : placed n nb -> placed n (rehash_node n nb node).
Proof.
  intros P i b x. unfold rehash_node.
  intros [(Ej & <- & Hj)|[Hne Hi]]%list_lookup_insert_Some; rewrite ?Ej.
  - intros [->|Hx]%elem_of_cons; [done|]. destruct (nb !! i) as [b'|] eqn:E; simpl in Hx.
    + by apply (P i b').
    + by apply elem_of_nil in Hx.
  - by apply P.
Qed.

Lemma rehash_placed n bs : placed n (rehash n bs).
Proof.
  unfold rehash.
  assert (forall nb, placed n nb ->
    placed n (fold_left (fun nb b => fold_left (rehash_node n) b nb) bs nb)) as G.
  { induction bs as [|b bs IH]; intros nb P; simpl; [done|]. apply IH.
    revert nb P. induction b as [|x b IHb]; intros nb P; simpl; [done|].
    by apply IHb, rehash_node_placed. }
  apply G. intros i b x Hi Hx. apply lookup_replicate in Hi as [-> _]. by apply elem_of_nil in Hx.
Qed.

(** ** The invariant and the abstraction *)
Definition nodes (t : hash_table) : list hash_node := concat (ht_buckets t).

Section Spec.
Context (kv : Z -> Z -> list Z).

Definition nkey (x : hash_node) : list Z := kv (n_key x) (n_key_len x).

(** the map a table represents *)
Definition abs (t : hash_table) : gmap (list Z) Z :=
  list_to_map ((fun x => (nkey x, n_value x)) <$> nodes t).

Record table_ok (t : hash_table) : Prop := {
  tk_laws : key_laws (ht_hash_func t) (ht_key_equal t) kv;
  tk_size : exists k, 3 <= k <= 9 /\ ht_size t = 2 ^ k;
  tk_len : length (ht_buckets t) = Z.to_nat (ht_size t);
  tk_nodes : forall x, x ∈ nodes t ->
    n_key x <> 0 /\ 0 < n_key_len x /\ n_hash x = ht_hash_func t (n_key x) (n_key_len x);
  tk_placed : placed (ht_size t) (ht_buckets t);
  tk_keys : NoDup (nkey <$> nodes t);
  tk_count : ht_count t = u32 (Z.of_nat (length (nodes t))) }.

Lemma pow2_range k : 3 <= k <= 10 -> 8 <= 2 ^ k <= 1024.
Proof.
  intros. split; [change 8 with (2 ^ 3)|change 1024 with (2 ^ 10)]; apply Z.pow_le_mono_r; lia.
Qed.

Lemma size_range t : table_ok t -> 8 <= ht_size t <= 512.
Proof.
  intros [_ (k & Hk & ->) _ _ _ _ _]. split; [change 8 with (2 ^ 3)|change 512 with (2 ^ 9)];
    apply Z.pow_le_mono_r; lia.
Qed.

Lemma nodes_keys_fst (l : list hash_node) :
  ((fun x => (nkey x, n_value x)) <$> l).*1 = nkey <$> l.
Proof. by rewrite <- list_fmap_compose. Qed.

Lemma abs_lookup t x :
  table_ok t -> x ∈ nodes t -> abs t !! nkey x = Some (n_value x).
Proof.
  intros T Hx. apply elem_of_list_to_map_1.
  - rewrite nodes_keys_fst. apply (tk_keys _ T).
  - apply list_elem_of_fmap. by exists x.
Qed.

Lemma abs_lookup_None t k : (forall x, x ∈ nodes t -> nkey x <> k) -> abs t !! k = None.
Proof.
  intros Hn. apply not_elem_of_list_to_map_1. rewrite nodes_keys_fst.
  intros (x & -> & Hx)%list_elem_of_fmap. by apply (Hn x).
Qed.

(** Only the multiset of nodes matters. *)
Lemma abs_perm t l :
  NoDup (nkey <$> nodes t) -> nodes t ≡ₚ l ->
  abs t = list_to_map ((fun x => (nkey x, n_value x)) <$> l).
Proof.
  intros Hn Hp. unfold abs. apply list_to_map_proper.
  - by rewrite nodes_keys_fst.
  - by rewrite Hp.
Qed.

(** ** Searching a chain *)
Lemma chain_find_Some f l x :
  chain_find f l = Some x -> exists l1 l2, l = l1 ++ x :: l2 /\ f x = true /\
    Forall (fun y => f y = false) l1.
Proof.
  induction l as [|y l IH]; simpl; [done|]. destruct (f y) eqn:E.
  - intros [= ->]. by exists [], l.
  - intros H. destruct (IH H) as (l1 & l2 & -> & Hx & Hf). exists (y :: l1), l2. eauto.
Qed.

Lemma chain_find_None f l : chain_find f l = None -> Forall (fun y => f y = false) l.
Proof. induction l as [|y l IH]; simpl; [done|]. destruct (f y) eqn:E; [done|]. eauto. Qed.

Lemma chain_store_at f v l1 x l2 :
  Forall (fun y => f y = false) l1 -> f x = true ->
  chain_store f v (l1 ++ x :: l2) = l1 ++ set_value v x :: l2.
Proof. induction 1 as [|y l E _ IH]; intros Hx; simpl; [by rewrite Hx|]. by rewrite E, IH. Qed.

Lemma chain_unlink_at f l1 x l2 :
  Forall (fun y => f y = false) l1 -> f x = true ->
  chain_unlink f (l1 ++ x :: l2) = l1 ++ l2.
Proof. induction 1 as [|y l E _ IH]; intros Hx; simpl; [by rewrite Hx|]. by rewrite E, IH. Qed.

Lemma key_match_spec t key len x :
  table_ok t -> key <> 0 -> 0 < len -> x ∈ nodes t ->
  key_match t (ht_hash_func t key len) key len x = true <-> nkey x = kv key len.
Proof.
  intros T Hk Hl Hx. destruct (tk_nodes _ T x Hx) as (Hnz & Hlen & Hh).
  unfold key_match, nkey. split.
  - intros E. apply andb_true_iff in E as [E E2]. breflect.
    assert (n_key_len x = len) as El by done. rewrite El in *.
    by apply (kl_equal _ _ _ (tk_laws _ T)).
  - intros E. assert (n_key_len x = len) as El
      by (by eapply (kl_len _ _ _ (tk_laws _ T))). rewrite El in *.
    rewrite Hh, (kl_hash _ _ _ (tk_laws _ T) _ key len E), !Z.eqb_refl. simpl.
    by apply (kl_equal _ _ _ (tk_laws _ T)).
Qed.

Lemma bucket_elem t i x : x ∈ bucket t i -> x ∈ nodes t.
Proof.
  unfold bucket, nodes. destruct (_ !! _) as [b|] eqn:E; simpl; [|by intros ?%elem_of_nil].
  intros Hx. destruct (concat_insert _ _ _ E) as (rest & -> & _). set_solver.
Qed.

Lemma nodes_bucket t x : table_ok t -> x ∈ nodes t -> x ∈ bucket t (n_hash x mod ht_size t).
Proof.
  intros T Hx. unfold nodes in Hx. apply list_elem_of_In, in_concat in Hx as (b & Hb & Hx).
  apply list_elem_of_In in Hb, Hx. apply list_elem_of_lookup in Hb as [i Hi].
  unfold bucket. rewrite (tk_placed _ T i b x Hi Hx). by rewrite Hi.
Qed.

Lemma index_lt t h : table_ok t -> is_Some (ht_buckets t !! Z.to_nat (h mod ht_size t)).
Proof.
  intros T. pose proof (size_range t T). pose proof (Z.mod_pos_bound h (ht_size t) ltac:(lia)).
  apply lookup_lt_is_Some_2. rewrite (tk_len _ T). lia.
Qed.

(** The search of the key's own bucket decides membership in the map. *)
Lemma find_found t key len x :
  table_ok t -> key <> 0 -> 0 < len ->
  let h := ht_hash_func t key len in
  chain_find (key_match t h key len) (bucket t (h mod ht_size t)) = Some x ->
  x ∈ nodes t /\ nkey x = kv key len /\ abs t !! kv key len = Some (n_value x).
Proof.
  intros T Hk Hl h E. apply chain_find_Some in E as (l1 & l2 & Eb & Hx & _).
  assert (x ∈ nodes t) as Hin by (apply (bucket_elem t (h mod ht_size t)); rewrite Eb; set_solver).
  apply (key_match_spec t key len x T Hk Hl Hin) in Hx.
  split; [done|]. split; [done|]. rewrite <- Hx. by apply abs_lookup.
Qed.

Lemma find_absent t key len :
  table_ok t -> key <> 0 -> 0 < len ->
  let h := ht_hash_func t key len in
  chain_find (key_match t h key len) (bucket t (h mod ht_size t)) = None ->
  (forall x, x ∈ nodes t -> nkey x <> kv key len) /\ abs t !! kv key len = None.
Proof.
  intros T Hk Hl h E. apply chain_find_None in E. rewrite Forall_forall in E.
  assert (forall x, x ∈ nodes t -> nkey x <> kv key len) as Hn.
  { intros x Hx Ex. apply (key_match_spec t key len x T Hk Hl Hx) in Ex as Em.
    assert (n_hash x = h) as Eh.
    { unfold key_match in Em. apply andb_true_iff in Em as [Em _]. by breflect. }
    pose proof (nodes_bucket t x T Hx) as Hb. rewrite Eh in Hb. specialize (E x Hb). simpl in E.
    fold h in Em. by rewrite Em in E. }
  split; [done|]. by apply abs_lookup_None.
Qed.

(** ** Updates of the table *)
Definition same_funs (t t' : hash_table) : Prop :=
  ht_hash_func t' = ht_hash_func t /\ ht_key_equal t' = ht_key_equal t.

(** Replacing a bucket, by permutations of all nodes. *)
Lemma set_bucket_perm t i b' :
  table_ok t ->
  let t' := set_bucket (i mod ht_size t) b' t in
  exists rest, nodes t ≡ₚ bucket t (i mod ht_size t) ++ rest /\ nodes t' ≡ₚ b' ++ rest.
Proof.
  intros T t'. destruct (index_lt t i T) as [b Hb].
  destruct (concat_insert _ _ _ Hb) as (rest & E1 & E2). exists rest.
  unfold bucket, nodes, t'. rewrite Hb. split; [done|]. apply E2.
Qed.

Lemma set_bucket_placed t i b' :
  table_ok t -> (forall x, x ∈ b' -> n_hash x mod ht_size t = i mod ht_size t) ->
  placed (ht_size t) (<[Z.to_nat (i mod ht_size t) := b']> (ht_buckets t)).
Proof.
  intros T Hb j b x [(<- & <- & _)|[_ Hj]]%list_lookup_insert_Some Hx.
  - by rewrite Hb.
  - by apply (tk_placed _ T j b).
Qed.

Lemma bucket_hash t i x :
  table_ok t -> x ∈ bucket t (i mod ht_size t) -> n_hash x mod ht_size t = i mod ht_size t.
Proof.
  intros T. destruct (index_lt t i T) as [b Hb]. unfold bucket. rewrite Hb. simpl. intros Hx.
  pose proof (tk_placed _ T _ _ _ Hb Hx) as E. pose proof (size_range t T).
  pose proof (Z.mod_pos_bound (n_hash x) (ht_size t) ltac:(lia)).
  pose proof (Z.mod_pos_bound i (ht_size t) ltac:(lia)). lia.
Qed.

Lemma NoDup_perm_fmap (l l' : list hash_node) : l ≡ₚ l' -> NoDup (nkey <$> l) -> NoDup (nkey <$> l').
Proof. intros E. by rewrite E. Qed.

Lemma push_ok t x :
  table_ok t -> n_key x <> 0 -> 0 < n_key_len x ->
  n_hash x = ht_hash_func t (n_key x) (n_key_len x) ->
  (forall y, y ∈ nodes t -> nkey y <> nkey x) ->
  let i := n_hash x mod ht_size t in
  let t' := set_count (u32 (ht_count t + 1)) (set_bucket i (x :: bucket t i) t) in
  table_ok t' /\ nodes t' ≡ₚ x :: nodes t /\ abs t' = <[nkey x := n_value x]> (abs t).
Proof.
  intros T Hk Hl Hh Hn i t'.
  destruct (set_bucket_perm t (n_hash x) (x :: bucket t i) T) as (rest & E1 & E2).
  assert (nodes t' ≡ₚ x :: nodes t) as Ep by (rewrite E1; exact E2).
  assert (NoDup (nkey <$> nodes t')) as Hnd.
  { rewrite Ep. simpl. constructor; [|apply (tk_keys _ T)].
    intros (y & E & Hy)%list_elem_of_fmap. by apply (Hn y). }
  split; [|split; [done|]].
  - split; simpl; try apply T.
    + rewrite length_insert. apply (tk_len _ T).
    + intros y Hy. fold (nodes t') in Hy. rewrite Ep in Hy.
      apply elem_of_cons in Hy as [->|Hy]; [done|by apply (tk_nodes _ T)].
    + apply set_bucket_placed; [done|]. intros y [->|Hy]%elem_of_cons; [done|].
      by apply (bucket_hash t (n_hash x)).
    + done.
    + rewrite Ep. simpl length. rewrite (tk_count _ T). unfold u32. rewrite Zplus_mod_idemp_l.
      f_equal. lia.
  - rewrite (abs_perm t' (x :: nodes t)) by done. done.
Qed.

Lemma store_ok t key len v x :
  table_ok t -> key <> 0 -> 0 < len ->
  let h := ht_hash_func t key len in let i := h mod ht_size t in
  let f := key_match t h key len in
  chain_find f (bucket t i) = Some x ->
  let t' := set_bucket i (chain_store f v (bucket t i)) t in
  table_ok t' /\ abs t' = <[kv key len := v]> (abs t) /\ n_ptr <$> nodes t' ≡ₚ n_ptr <$> nodes t.
Proof.
  intros T Hk Hl h i f Ef t'. destruct (find_found t key len x T Hk Hl Ef) as (Hin & Ex & _).
  apply chain_find_Some in Ef as (l1 & l2 & Eb & Hx & Hf).
  assert (chain_store f v (bucket t i) = l1 ++ set_value v x :: l2) as Es.
  { rewrite Eb. by apply chain_store_at. }
  destruct (set_bucket_perm t h (chain_store f v (bucket t i)) T) as (rest & E1 & E2).
  fold i in E1. fold i t' in E2. rewrite Es in E2. rewrite Eb in E1.
  set (r := l1 ++ l2 ++ rest).
  assert (nodes t ≡ₚ x :: r) as P1 by (rewrite E1; unfold r; rewrite <- app_assoc; simpl; by rewrite <- Permutation_middle).
  assert (nodes t' ≡ₚ set_value v x :: r) as P2
    by (rewrite E2; unfold r; rewrite <- app_assoc; simpl; by rewrite <- Permutation_middle).
  assert (NoDup (nkey <$> (x :: r))) as Hnd by (eapply NoDup_perm_fmap; [exact P1|apply (tk_keys _ T)]).
  assert (NoDup (nkey <$> nodes t')) as Hnd' by (by rewrite P2).
  split; [|split].
  - split; simpl; try apply T.
    + rewrite length_insert. apply (tk_len _ T).
    + intros y Hy. fold (nodes t') in Hy. rewrite P2 in Hy. apply elem_of_cons in Hy as [->|Hy].
      * by apply (tk_nodes _ T x).
      * apply (tk_nodes _ T). rewrite P1. by right.
    + apply set_bucket_placed; [done|]. intros y Hy. fold i in Hy. rewrite Es in Hy.
      apply elem_of_app in Hy as [Hy|[->|Hy]%elem_of_cons].
      * apply (bucket_hash t h); [done|]. fold i. rewrite Eb. set_solver.
      * apply (bucket_hash t h x); [done|]. fold i. rewrite Eb. set_solver.
      * apply (bucket_hash t h); [done|]. fold i. rewrite Eb. set_solver.
    + done.
    + fold (nodes t'). rewrite (tk_count _ T), P1, P2. done.
  - rewrite (abs_perm t' _ Hnd' P2), (abs_perm t _ (tk_keys _ T) P1).
    rewrite !fmap_cons, !list_to_map_cons. rewrite <- Ex, insert_insert_eq. done.
  - rewrite P1, P2. done.
Qed.

Lemma unlink_ok t key len x :
  table_ok t -> key <> 0 -> 0 < len ->
  let h := ht_hash_func t key len in let i := h mod ht_size t in
  let f := key_match t h key len in
  chain_find f (bucket t i) = Some x ->
  let t1 := set_bucket i (chain_unlink f (bucket t i)) t in
  let t' := set_count (u32 (ht_count t1 - 1)) t1 in
  table_ok t' /\ abs t' = delete (kv key len) (abs t) /\ nodes t ≡ₚ x :: nodes t'.
Proof.
  intros T Hk Hl h i f Ef t1 t'. destruct (find_found t key len x T Hk Hl Ef) as (Hin & Ex & _).
  apply chain_find_Some in Ef as (l1 & l2 & Eb & Hx & Hf).
  assert (chain_unlink f (bucket t i) = l1 ++ l2) as Es by (rewrite Eb; by apply chain_unlink_at).
  destruct (set_bucket_perm t h (chain_unlink f (bucket t i)) T) as (rest & E1 & E2).
  fold i in E1. fold i t1 in E2. rewrite Es in E2. rewrite Eb in E1.
  change (nodes t1) with (nodes t') in E2.
  assert (nodes t ≡ₚ x :: nodes t') as P1
    by (rewrite E1, E2; rewrite <- !app_assoc; simpl; by rewrite <- Permutation_middle).
  assert (NoDup (nkey <$> (x :: nodes t'))) as Hnd
    by (eapply NoDup_perm_fmap; [exact P1|apply (tk_keys _ T)]).
  rewrite fmap_cons in Hnd. apply NoDup_cons in Hnd as [Hni Hnd].
  assert (ht_count t = u32 (Z.of_nat (length (nodes t')) + 1)) as Hc.
  { rewrite (tk_count _ T), P1. simpl length. f_equal. lia. }
  split; [|split; [|done]].
  - split; simpl; try apply T.
    + rewrite length_insert. apply (tk_len _ T).
    + intros y Hy. apply (tk_nodes _ T). rewrite P1. right. exact Hy.
    + apply set_bucket_placed; [done|]. intros y Hy. fold i in Hy. rewrite Es in Hy.
      apply (bucket_hash t h); [done|]. fold i. rewrite Eb.
      apply elem_of_app in Hy as [?|?]; set_solver.
    + done.
    + fold (nodes t1). change (nodes t1) with (nodes t'). rewrite Hc. unfold u32.
      rewrite Zminus_mod_idemp_l. f_equal. lia.
  - rewrite (abs_perm t _ (tk_keys _ T) P1). rewrite fmap_cons, list_to_map_cons, <- Ex.
    rewrite delete_insert_id; [done|]. apply abs_lookup_None. intros y Hy E.
    apply Hni, list_elem_of_fmap. by exists y.
Qed.

Lemma resize_ok t n p :
  table_ok t -> 3 <= n <= 9 ->
  let t' := set_array p (rehash (2 ^ n) (ht_buckets t)) (2 ^ n) t in
  table_ok t' /\ nodes t' ≡ₚ nodes t /\ abs t' = abs t.
Proof.
  intros T Hn t'. destruct (rehash_perm (2 ^ n) (ht_buckets t)) as [P L].
  { apply Z.pow_pos_nonneg; lia. }
  assert (nodes t' ≡ₚ nodes t) as E by exact P.
  assert (NoDup (nkey <$> nodes t')) as Hnd by (rewrite E; apply (tk_keys _ T)).
  split; [|split; [done|by rewrite (abs_perm t' (nodes t))]].
  split; simpl; try apply T; try done.
  - by exists n.
  - intros x Hx. apply (tk_nodes _ T). unfold nodes in *. by rewrite <- P.
  - apply rehash_placed.
  - rewrite (tk_count _ T). fold (nodes t'). by rewrite E.
Qed.

(** ** Ownership of heap objects *)
Context {H : Type} `{HH : Heap H}.

Definition ptrs (t : hash_table) : list Z :=
  ht_ptr t :: ht_buckets_ptr t :: (n_ptr <$> nodes t).

(** The live objects of the heap are [L0], owned by others, and exactly the
    table, its bucket array and its nodes. *)
Record owns (L0 : gset Z) (h : H) (l : list Z) : Prop := {
  ow_heap : heap_inv h (L0 ∪ list_to_set l);
  ow_nodup : NoDup l;
  ow_disj : forall p, p ∈ l -> p ∉ L0 }.

Lemma owns_perm L0 h l l' : l ≡ₚ l' -> owns L0 h l -> owns L0 h l'.
Proof.
  intros P [A B C]. split.
  - replace (list_to_set l' : gset Z) with (list_to_set l : gset Z); [done|].
    apply list_to_set_perm_L; done.
  - by rewrite <- P.
  - intros p. rewrite <- P. apply C.
Qed.

Lemma owns_alloc L0 h l n :
  owns L0 h l -> 1 <= n <= 4096 ->
  (exists a h', halloc n h = Ok (a, h') /\ a <> 0 /\ owns L0 h' (a :: l)) \/
  (exists h', halloc n h = Ok (0, h') /\ owns L0 h' l) \/ halloc n h = Halt.
Proof.
  intros [A B C] Hn. destruct (halloc_ok h _ n A Hn) as [(a & h' & E & Ha & Hni & I)|[(h' & E & I)|E]].
  - left. exists a, h'. split; [done|]. split; [done|]. split.
    + simpl. replace (L0 ∪ ({[a]} ∪ list_to_set l)) with ({[a]} ∪ (L0 ∪ list_to_set l)) by set_solver.
      done.
    + constructor; [|done]. set_solver.
    + intros p [->|Hp]%elem_of_cons; [set_solver|by apply C].
  - right. left. exists h'. split; [done|]. by split.
  - right. by right.
Qed.

Lemma owns_free L0 h l a :
  owns L0 h (a :: l) -> exists h', hfree a h = Ok (tt, h') /\ owns L0 h' l.
Proof.
  intros [A B C]. apply NoDup_cons in B as [Hn B].
  destruct (hfree_ok h _ a A) as (h' & E & I); [set_solver|]. exists h'. split; [done|]. split.
  - replace (L0 ∪ list_to_set l) with ((L0 ∪ list_to_set (a :: l)) ∖ {[a]}); [done|].
    pose proof (C a ltac:(left)). set_solver.
  - done.
  - intros p Hp. apply C. by right.
Qed.

Lemma owned_nil (L0 : gset Z) : L0 ∪ list_to_set [] = L0.
Proof. set_solver. Qed.

Record ht_inv (L0 : gset Z) (h : H) (t : hash_table) : Prop := {
  hi_ok : table_ok t;
  hi_owns : owns L0 h (ptrs t) }.

(** [hash_table_resize] to a size that fits: the map is unchanged whether or
    not the new array could be allocated. *)
Lemma resize_spec L0 h t n :
  ht_inv L0 h t -> 0 <= n <= 1024 ->
  (exists b t' h', hash_table_resize t n h = Ok ((b, t'), h') /\ ht_inv L0 h' t' /\
     abs t' = abs t /\ nodes t' ≡ₚ nodes t /\ same_funs t t' /\ ht_count t' = ht_count t) \/
  hash_table_resize t n h = Halt.
Proof.
  intros [T O] Hn. destruct (round_up_pow2_table n ltac:(lia)) as (k & Hk & E & _).
  unfold hash_table_resize. rewrite E. cbn [lift mbind' mret].
  pose proof (pow2_range k Hk). rewrite (proj2 (Z.ltb_ge _ _)) by (unfold HASH_TABLE_MIN_SIZE; lia).
  unfold SIZEOF_PTR. rewrite u32_small by lia. cbn [mbind' mret].
  destruct (decide (k = 10)) as [->|Hk10].
  - rewrite halloc_bad by lia. cbn [Z.eqb]. left. exists false, t, h. split; [done|].
    split; [by split|done].
  - assert (2 ^ k <= 2 ^ 9) by (apply Z.pow_le_mono_r; lia). change (2 ^ 9) with 512 in *.
    destruct (owns_alloc L0 h _ (8 * 2 ^ k) O ltac:(lia)) as [(a & h1 & E1 & Ha & O1)|[(h1 & E1 & O1)|E1]];
      rewrite E1; [|left|by right].
    + rewrite (proj2 (Z.eqb_neq a 0)) by done. cbn [mbind' mret]. left.
      destruct (owns_free L0 h1 (a :: ht_ptr t :: (n_ptr <$> nodes t)) (ht_buckets_ptr t))
        as (h2 & E2 & O2).
      { eapply owns_perm; [|exact O1]. unfold ptrs. solve_Permutation. }
      rewrite E2. destruct (resize_ok t k a T ltac:(lia)) as (T' & P' & A').
      eexists true, _, h2. split; [done|]. split; [|done]. split; [done|].
      eapply owns_perm; [|exact O2]. unfold ptrs. simpl ht_ptr. simpl ht_buckets_ptr. rewrite P'.
      solve_Permutation.
    + cbn [Z.eqb]. exists false, t, h1. split; [done|]. split; [by split|done].
Qed.

Lemma maybe_grow_spec L0 h t :
  ht_inv L0 h t ->
  (exists t' h', maybe_grow t h = Ok (t', h') /\ ht_inv L0 h' t' /\ abs t' = abs t /\
     nodes t' ≡ₚ nodes t /\ same_funs t t' /\ ht_count t' = ht_count t) \/
  maybe_grow t h = Halt.
Proof.
  intros I. unfold maybe_grow. pose proof (size_range t (hi_ok _ _ _ I)).
  destruct (_ <? _); [|left; exists t, h; done].
  rewrite u32_small by lia. cbn [mbind' mret].
  destruct (resize_spec L0 h t (ht_size t * 2) I ltac:(lia)) as [(b & t' & h' & E & ?)|E]; rewrite E.
  - left. exists t', h'. done.
  - by right.
Qed.

Lemma push_node_spec L0 h t key len v :
  ht_inv L0 h t -> key <> 0 -> 0 < len ->
  (forall y, y ∈ nodes t -> nkey y <> kv key len) ->
  let hash := ht_hash_func t key len in
  (exists t' h', push_node t hash key len v h = Ok ((true, t'), h') /\ ht_inv L0 h' t' /\
     abs t' = <[kv key len := v]> (abs t)) \/
  (exists h', push_node t hash key len v h = Ok ((false, t), h') /\ ht_inv L0 h' t) \/
  push_node t hash key len v h = Halt.
Proof.
  intros [T O] Hk Hl Hn hash. unfold push_node, SIZEOF_HASH_NODE. cbn [mbind' mret].
  destruct (owns_alloc L0 h _ 32 O ltac:(lia)) as [(a & h1 & E1 & Ha & O1)|[(h1 & E1 & O1)|E1]];
    rewrite E1; [left|right; left|by right; right].
  - rewrite (proj2 (Z.eqb_neq a 0)) by done.
    destruct (push_ok t (mkNode a key v len hash) T Hk Hl eq_refl Hn) as (T' & P' & A').
    eexists _, h1. split; [reflexivity|]. split; [|exact A']. split; [exact T'|].
    eapply owns_perm; [|exact O1]. unfold ptrs. cbn [set_count set_bucket set_buckets ht_ptr ht_buckets_ptr].
    simpl n_hash in P'. rewrite P'. rewrite fmap_cons. simpl n_ptr. solve_Permutation.
  - cbn [Z.eqb]. exists h1. split; [done|]. by split.
Qed.

(** ** The operations *)
Lemma ht_create_spec L0 h mem n hf eqf :
  heap_inv h L0 -> 0 <= n <= 2 ^ 31 ->
  key_laws (default (default_hash_func mem) hf) (default (default_key_equal mem) eqf) kv ->
  (exists t h', hash_table_create mem n hf eqf h = Ok (Some t, h') /\ ht_inv L0 h' t /\ abs t = ∅ /\
     ht_count t = 0) \/
  (exists h', hash_table_create mem n hf eqf h = Ok (None, h') /\ heap_inv h' L0) \/
  hash_table_create mem n hf eqf h = Halt.
Proof.
  intros I Hn K. unfold hash_table_create, HASH_TABLE_MIN_SIZE.
  set (n0 := if n <? 8 then 8 else n).
  assert (n0 <= 2 ^ 31) as Hn0 by (unfold n0; destruct (n <? 8); lia).
  destruct (round_up_pow2_spec n0 Hn0) as (k & Hk & E & _). rewrite E. cbn [lift mbind' mret].
  assert (owns L0 h []) as O0.
  { split; [by rewrite owned_nil|constructor|]. by intros p ?%elem_of_nil. }
  destruct (owns_alloc L0 h [] SIZEOF_HASH_TABLE O0) as [(a & h1 & E1 & Ha & O1)|[(h1 & E1 & O1)|E1]];
    [unfold SIZEOF_HASH_TABLE; lia| | |right; right; by rewrite E1].
  2:{ rewrite E1. right. left. exists h1. split; [done|].
      pose proof (ow_heap _ _ _ O1) as W. by rewrite owned_nil in W. }
  rewrite E1. rewrite (proj2 (Z.eqb_neq a 0)) by done. unfold SIZEOF_PTR. cbn [mbind' mret].
  assert (forall h2, halloc (u32 (8 * 2 ^ k)) h1 = Ok (0, h2) -> owns L0 h2 [a] ->
    exists h', (let* buckets := halloc (u32 (8 * 2 ^ k)) in
      if buckets =? 0 then hfree a ;;; mret (None : option hash_table)
      else mret (Some (mkTable a buckets (replicate (Z.to_nat (2 ^ k)) []) (2 ^ k) 0
         (default (default_hash_func mem) hf) (default (default_key_equal mem) eqf)))) h1
      = Ok (None, h') /\ heap_inv h' L0) as Hfail.
  { intros h2 E2 O2. cbn [mbind' mret]. rewrite E2. cbn [Z.eqb mbind' mret].
    destruct (owns_free L0 h2 [] a O2) as (h3 & E3 & O3). rewrite E3. exists h3. split; [done|].
    pose proof (ow_heap _ _ _ O3) as W. by rewrite owned_nil in W. }
  cbn [mbind' mret] in Hfail.
  destruct (decide (k <= 9)) as [Hk9|Hk9].
  - assert (2 ^ 3 <= 2 ^ k <= 2 ^ 9) as Hr by (split; apply Z.pow_le_mono_r; lia).
    change (2 ^ 3) with 8 in Hr. change (2 ^ 9) with 512 in Hr.
    rewrite (u32_small (8 * 2 ^ k)) in * by lia.
    destruct (owns_alloc L0 h1 [a] (8 * 2 ^ k) O1 ltac:(lia))
      as [(b & h2 & E2 & Hb & O2)|[(h2 & E2 & O2)|E2]];
      [left|right; left; by eapply Hfail|right; right; by rewrite E2].
    rewrite E2. rewrite (proj2 (Z.eqb_neq b 0)) by done. eexists _, h2. split; [reflexivity|].
    match goal with |- ht_inv _ _ ?t' /\ _ => set (t := t') end.
    assert (nodes t = []) as En by apply concat_replicate_nil.
    split; [split|].
    + split; rewrite ?En; simpl; try done.
      * exists k. split; [lia|done].
      * by rewrite length_replicate.
      * by intros x ?%elem_of_nil.
      * intros i b' x Hi Hx. apply lookup_replicate in Hi as [-> _]. by apply elem_of_nil in Hx.
      * constructor.
    + unfold ptrs. rewrite En. simpl. eapply owns_perm; [|exact O2]. solve_Permutation.
    + split; [|done]. unfold abs. by rewrite En.
  - right. left. apply (Hfail h1); [|done]. apply halloc_bad.
    replace k with (k - 10 + 10) by lia. rewrite Z.pow_add_r by lia. change (2 ^ 10) with 1024.
    unfold u32. destruct (decide (k <= 28)) as [Hk28|Hk28].
    + right. assert (2 ^ 0 <= 2 ^ (k - 10) <= 2 ^ 18) by (split; apply Z.pow_le_mono_r; lia).
      rewrite Z.mod_small by lia. lia.
    + left. replace (8 * (2 ^ (k - 10) * 1024)) with (2 ^ (k - 29) * 2 ^ 32);
        [apply Z.mod_mul; lia|].
      replace (k - 10) with (k - 29 + 19) by lia. rewrite Z.pow_add_r by lia. lia.
Qed.

Lemma insert_absent_spec L0 h t key len v :
  ht_inv L0 h t -> key <> 0 -> 0 < len ->
  (forall y, y ∈ nodes t -> nkey y <> kv key len) ->
  let hash := ht_hash_func t key len in
  (exists t' h', mbind' (maybe_grow t) (fun t' => push_node t' hash key len v) h = Ok ((true, t'), h') /\
     ht_inv L0 h' t' /\ abs t' = <[kv key len := v]> (abs t)) \/
  (exists t' h', mbind' (maybe_grow t) (fun t' => push_node t' hash key len v) h = Ok ((false, t'), h') /\
     ht_inv L0 h' t' /\ abs t' = abs t) \/
  mbind' (maybe_grow t) (fun t' => push_node t' hash key len v) h = Halt.
Proof.
  intros I Hk Hl Hn hash. cbn [mbind'].
  destruct (maybe_grow_spec L0 h t I) as [(t1 & h1 & E1 & I1 & A1 & P1 & [F1 F2] & C1)|E1]; rewrite E1;
    [|by right; right].
  unfold hash. rewrite <- F1.
  destruct (push_node_spec L0 h1 t1 key len v I1 Hk Hl) as [(t2 & h2 & E2 & I2 & A2)|[(h2 & E2 & I2)|E2]].
  - intros y Hy. apply Hn. by rewrite <- P1.
  - left. exists t2, h2. rewrite E2. split; [done|]. split; [done|]. by rewrite A2, A1.
  - right. left. exists t1, h2. rewrite E2. done.
  - right. right. done.
Qed.

Lemma free_chain_spec L0 l rest h :
  owns L0 h ((n_ptr <$> l) ++ rest) -> exists h', free_chain l h = Ok (tt, h') /\ owns L0 h' rest.
Proof.
  revert h; induction l as [|x l IH]; intros h O; simpl in *; [by exists h|].
  destruct (owns_free _ _ _ _ O) as (h1 & E1 & O1). rewrite E1. by apply IH.
Qed.

Lemma free_buckets_spec L0 bs rest h :
  owns L0 h ((n_ptr <$> concat bs) ++ rest) ->
  exists h', free_buckets bs h = Ok (tt, h') /\ owns L0 h' rest.
Proof.
  revert h; induction bs as [|b bs IH]; intros h O; simpl in *; [by exists h|].
  rewrite fmap_app, <- app_assoc in O. destruct (free_chain_spec _ _ _ _ O) as (h1 & E1 & O1).
  rewrite E1. by apply IH.
Qed.

Lemma insert_if_absent_spec L0 h t key len v :
  ht_inv L0 h t -> key <> 0 -> 0 < len ->
  match hash_table_insert_if_absent t key len v h with
  | Ok ((r, t'), h') => ht_inv L0 h' t' /\
      match abs t !! kv key len with
      | Some _ => r = false /\ t' = t /\ h' = h
      | None => abs t' = (if r then <[kv key len := v]> (abs t) else abs t)
      end
  | Halt => abs t !! kv key len = None
  | _ => False
  end.
Proof.
  intros I Hk Hl. assert (ht_inv L0 h t) as [T O] by done. unfold hash_table_insert_if_absent.
  rewrite (proj2 (Z.eqb_neq key 0)), (proj2 (Z.eqb_neq len 0)) by lia. cbn [orb].
  destruct (chain_find _ _) as [x|] eqn:Ef.
  - destruct (find_found t key len x T Hk Hl Ef) as (_ & _ & Ea). cbn [mret]. by rewrite Ea.
  - destruct (find_absent t key len T Hk Hl Ef) as [Hn Ea]. rewrite Ea.
    destruct (insert_absent_spec L0 h t key len v I Hk Hl Hn)
      as [(t' & h' & -> & ? & ?)|[(t' & h' & -> & ? & ?)| ->]]; done.
Qed.

Lemma hash_table_lookup_spec t key len :
  table_ok t -> key <> 0 -> 0 < len ->
  hash_table_lookup t key len = default 0 (abs t !! kv key len).
Proof.
  intros T Hk Hl. unfold hash_table_lookup, lookup_locked.
  rewrite (proj2 (Z.eqb_neq key 0)), (proj2 (Z.eqb_neq len 0)) by lia. cbn [orb].
  destruct (chain_find _ _) as [x|] eqn:Ef.
  - by destruct (find_found t key len x T Hk Hl Ef) as (_ & _ & ->).
  - by destruct (find_absent t key len T Hk Hl Ef) as [_ ->].
Qed.

Lemma delete_spec L0 h t key len :
  ht_inv L0 h t -> key <> 0 -> 0 < len ->
  match hash_table_delete t key len h with
  | Ok ((r, t'), h') => ht_inv L0 h' t' /\ abs t' = delete (kv key len) (abs t) /\
      r = bool_decide (is_Some (abs t !! kv key len))
  | Halt => is_Some (abs t !! kv key len)
  | _ => False
  end.
Proof.
  intros I Hk Hl. assert (ht_inv L0 h t) as [T O] by done. unfold hash_table_delete.
  rewrite (proj2 (Z.eqb_neq key 0)), (proj2 (Z.eqb_neq len 0)) by lia. cbn [orb]. cbv zeta.
  destruct (chain_find _ _) as [x|] eqn:Ef.
  - destruct (find_found t key len x T Hk Hl Ef) as (_ & _ & Ea). rewrite Ea.
    destruct (unlink_ok t key len x T Hk Hl Ef) as (T' & A' & P').
    set (t2 := set_count _ _) in *. cbn [mbind' mret].
    destruct (owns_free L0 h (ptrs t2) (n_ptr x)) as (h1 & E1 & O1).
    { eapply owns_perm; [|exact O]. unfold ptrs. rewrite P', fmap_cons. simpl. solve_Permutation. }
    rewrite E1. assert (ht_inv L0 h1 t2) as I2 by done. pose proof (size_range t2 T').
    destruct (_ && _); [|done].
    destruct (resize_spec L0 h1 t2 (ht_size t2 / 2) I2) as [(b & t3 & h3 & E3 & I3 & A3 & _)|E3].
    { split; [apply Z.div_pos; lia|]. apply Z.div_le_upper_bound; lia. }
    + cbn [mbind']. rewrite E3. simpl. split; [done|]. split; [congruence|done].
    + cbn [mbind']. rewrite E3. eauto.
  - destruct (find_absent t key len T Hk Hl Ef) as [_ Ea]. cbn [mret]. rewrite Ea.
    split; [done|]. split; [|by rewrite bool_decide_eq_false_2 by (by intros [])].
    by rewrite delete_id.
Qed.

Lemma destroy_spec L0 h t :
  ht_inv L0 h t -> exists h', hash_table_destroy (Some t) h = Ok (tt, h') /\ heap_inv h' L0.
Proof.
  intros [T O]. cbn [hash_table_destroy mbind'].
  destruct (free_buckets_spec L0 (ht_buckets t) [ht_buckets_ptr t; ht_ptr t] h) as (h1 & E1 & O1).
  { eapply owns_perm; [|exact O]. unfold ptrs, nodes. solve_Permutation. }
  rewrite E1. destruct (owns_free _ _ _ _ O1) as (h2 & E2 & O2). rewrite E2.
  destruct (owns_free _ _ _ _ O2) as (h3 & E3 & O3). rewrite E3. exists h3. split; [done|].
  pose proof (ow_heap _ _ _ O3) as W. by rewrite owned_nil in W.
Qed.

(** ** Theorems *)

(** [C11] [hash_table_insert] refines insertion into a finite map on every
    branch: an existing key is overwritten or, without [overwrite], nothing
    changes; a new key is added, growing the table when the load factor asks
    for it; if memory runs out the map is unchanged.  The table keeps owning
    exactly its own heap objects. *)
Theorem hash_table_insert_refines L0 h t key len v (overwrite : bool) :
  ht_inv L0 h t -> key <> 0 -> 0 < len ->
  match hash_table_insert t key len v overwrite h with
  | Ok ((r, t'), h') => ht_inv L0 h' t' /\
      match abs t !! kv key len with
      | Some _ => r = overwrite /\
          abs t' = (if overwrite then <[kv key len := v]> (abs t) else abs t)
      | None => abs t' = (if r then <[kv key len := v]> (abs t) else abs t)
      end
  | Halt => abs t !! kv key len = None
  | _ => False
  end.
Proof.
  intros I Hk Hl. assert (ht_inv L0 h t) as [T O] by done. unfold hash_table_insert, insert_locked.
  rewrite (proj2 (Z.eqb_neq key 0)), (proj2 (Z.eqb_neq len 0)) by lia. cbn [orb].
  destruct (chain_find _ _) as [x|] eqn:Ef.
  - destruct (find_found t key len x T Hk Hl Ef) as (_ & _ & Ea).
    destruct overwrite; cbn [mret]; rewrite Ea; [|by split].
    destruct (store_ok t key len v x T Hk Hl Ef) as (T' & A' & P').
    split; [|by split]. split; [done|]. eapply owns_perm; [|exact O]. unfold ptrs. simpl.
    do 2 constructor. symmetry. exact P'.
  - destruct (find_absent t key len T Hk Hl Ef) as [Hn Ea]. rewrite Ea.
    destruct (insert_absent_spec L0 h t key len v I Hk Hl Hn)
      as [(t' & h' & -> & ? & ?)|[(t' & h' & -> & ? & ?)| ->]]; done.
Qed.

(** [hash_table_insert_if_absent] adds the key if it is absent and changes
    nothing if it is present. *)
Theorem hash_table_insert_if_absent_refines L0 h t key len v :
  ht_inv L0 h t -> key <> 0 -> 0 < len ->
  match hash_table_insert_if_absent t key len v h with
  | Ok ((r, t'), h') => ht_inv L0 h' t' /\
      match abs t !! kv key len with
      | Some _ => r = false /\ t' = t /\ h' = h
      | None => abs t' = (if r then <[kv key len := v]> (abs t) else abs t)
      end
  | Halt => abs t !! kv key len = None
  | _ => False
  end.
Proof. apply insert_if_absent_spec. Qed.

(** [hash_table_lookup] returns the value the map has for the contents of
    the key, and NULL when it has none. *)
Theorem hash_table_lookup_refines t key len :
  table_ok t -> key <> 0 -> 0 < len ->
  hash_table_lookup t key len = default 0 (abs t !! kv key len).
Proof. apply hash_table_lookup_spec. Qed.

(** [C7] [hash_table_delete] removes the key, answers whether it was there,
    releases exactly the node it unlinked, and keeps the other entries through
    a possible shrink of the table. *)
Theorem hash_table_delete_refines L0 h t key len :
  ht_inv L0 h t -> key <> 0 -> 0 < len ->
  match hash_table_delete t key len h with
  | Ok ((r, t'), h') => ht_inv L0 h' t' /\ abs t' = delete (kv key len) (abs t) /\
      r = bool_decide (is_Some (abs t !! kv key len))
  | Halt => is_Some (abs t !! kv key len)
  | _ => False
  end.
Proof. apply delete_spec. Qed.

(** [hash_table_destroy] gives back every heap object the table owned, no
    more and no less. *)
Theorem hash_table_destroy_no_leak L0 h t :
  ht_inv L0 h t -> exists h', hash_table_destroy (Some t) h = Ok (tt, h') /\ heap_inv h' L0.
Proof. apply destroy_spec. Qed.

(** [hash_table_create] terminates for every requested size up to [2^31]
    and returns an empty table, or NULL with nothing leaked. *)
Theorem hash_table_create_empty L0 h mem n hf eqf :
  heap_inv h L0 -> 0 <= n <= 2 ^ 31 ->
  key_laws (default (default_hash_func mem) hf) (default (default_key_equal mem) eqf) kv ->
  match hash_table_create mem n hf eqf h with
  | Ok (Some t, h') => ht_inv L0 h' t /\ abs t = ∅ /\ hash_table_count (Some t) = 0
  | Ok (None, h') => heap_inv h' L0
  | Halt => True
  | _ => False
  end.
Proof.
  intros I Hn K. destruct (ht_create_spec L0 h mem n hf eqf I Hn K)
    as [(t & h' & -> & ? & ? & ?)|[(h' & -> & ?)| ->]]; done.
Qed.

(** [hash_table_foreach] calls the callback exactly once per entry: when
    the callback appends what it is given to a list, the list collected is, up
    to order, the entries of the map; [hash_table_count] is their
    number as a 32-bit counter. *)
Theorem hash_table_foreach_once t :
  table_ok t ->
  exists l, hash_table_foreach t
              (fun k len v => modify (fun acc => acc ++ [(kv k len, v)])) [] = Ok (tt, l) /\
    l ≡ₚ map_to_list (abs t) /\ hash_table_count (Some t) = u32 (Z.of_nat (size (abs t))).
Proof.
  intros T. set (cb := fun k len v => modify (fun acc => acc ++ [(kv k len, v)])).
  set (ent := fun x => (nkey x, n_value x)).
  assert (forall b acc, foreach_chain cb b acc = Ok (tt, acc ++ (ent <$> b))) as Hc.
  { induction b as [|x b IH]; intros acc; simpl; [by rewrite app_nil_r|].
    rewrite IH. by rewrite <- app_assoc. }
  assert (forall bs acc, foreach_buckets cb bs acc = Ok (tt, acc ++ (ent <$> concat bs))) as Hb.
  { induction bs as [|b bs IH]; intros acc; simpl; [by rewrite app_nil_r|].
    rewrite Hc, IH. by rewrite fmap_app, app_assoc. }
  exists (ent <$> nodes t). unfold hash_table_foreach. rewrite Hb. split; [done|].
  assert (map_to_list (abs t) ≡ₚ ent <$> nodes t) as P.
  { apply map_to_list_to_map. rewrite nodes_keys_fst. apply (tk_keys _ T). }
  split; [done|]. rewrite <- length_map_to_list, P, length_fmap. apply (tk_count _ T).
Qed.

End Spec.

(** Rounding the number of buckets: for requests up to [2^31] the loop of
    [round_up_pow2] ends at the least power of two that is at least 8 and at
    least the request; for larger requests no number of iterations ends it. *)
Theorem round_up_pow2_correct n :
  0 <= n < 2 ^ 32 ->
  (n <= 2 ^ 31 -> exists k, 3 <= k <= 31 /\ round_up_pow2 n = Some (2 ^ k) /\ n <= 2 ^ k /\
     (k = 3 \/ 2 ^ (k - 1) < n)) /\
  (2 ^ 31 < n -> forall fuel, pow2_loop fuel HASH_TABLE_MIN_SIZE n = None).
Proof.
  intros _. split; [apply round_up_pow2_spec|]. intros Hn fuel. by apply (pow2_loop_diverges n fuel 3).
Qed.

Lemma round_up_pow2_correct_witness :
  (100 <= 2 ^ 31 -> exists k, 3 <= k <= 31 /\ round_up_pow2 100 = Some (2 ^ k) /\ 100 <= 2 ^ k /\
     (k = 3 \/ 2 ^ (k - 1) < 100)) /\
  (2 ^ 31 < 100 -> forall fuel, pow2_loop fuel HASH_TABLE_MIN_SIZE 100 = None).
Proof. apply (round_up_pow2_correct 100). lia. Defined.
