(* ===== verification/HashMapDemo.v ===== *)
(** The hash table of HashMap.v running on the slab allocator: the instances
    on which the theorems of HashMapSpec.v are applied, and what happens when
    an index computed before the lock is taken meets a resized table. *)
From stdpp Require Import base gmap list.
From Stdlib Require Import ZArith Lia.
From S2P Require Import Prelude Bytes Pages Slab SlabInv SlabOps SlabTop SlabSpec HashMap HashMapSpec.
Open Scope Z_scope.

(** Client memory: the keys "ab" at 100 and 300, "ac" at 200. *)
Definition demo_mem : ram :=
  {[ 100 := 97; 101 := 98; 200 := 97; 201 := 99; 300 := 97; 301 := 98 ]}.
Definition demo_kv : Z -> Z -> list Z := key_bytes demo_mem.

Definition demo_created : option hash_table * slab_state :=
  ok_or (None, demo_slab) (hash_table_create demo_mem 8 None None demo_slab).
Definition demo_empty : hash_table :=
  default (mkTable 0 0 [] 0 0 (fun _ _ => 0) (fun _ _ _ => false)) demo_created.1.
Definition demo_heap : slab_state := demo_created.2.

Lemma demo_heap_inv : heap_inv demo_slab ∅.
Proof. exists ∅. split; [apply demo_slab_inv|]. apply dom_empty_L. Qed.

Lemma demo_created_some : bool_decide (is_Some demo_created.1) = true.
Proof. vm_compute. reflexivity. Qed.

Lemma demo_laws : key_laws (default (default_hash_func demo_mem) None)
  (default (default_key_equal demo_mem) None) demo_kv.
Proof. apply default_key_laws. Qed.

Lemma demo_empty_inv : ht_inv demo_kv ∅ demo_heap demo_empty.
Proof.
  pose proof demo_created_some as D. unfold demo_heap, demo_empty, demo_created in *.
  destruct (ht_create_spec demo_kv ∅ demo_slab demo_mem 8 None None demo_heap_inv ltac:(lia) demo_laws)
    as [(t & h' & E & I & _)|[(h' & E & _)|E]].
  - rewrite E. exact I.
  - rewrite E in D. discriminate D.
  - rewrite E in D. discriminate D.
Qed.

(** "ab" with value 7 *)
Definition demo_inserted : (bool * hash_table) * slab_state :=
  ok_or ((false, demo_empty), demo_heap) (hash_table_insert demo_empty 100 2 7 false demo_heap).
Definition demo_table : hash_table := demo_inserted.1.2.
Definition demo_heap1 : slab_state := demo_inserted.2.

Lemma demo_inserted_true : demo_inserted.1.1 = true.
Proof. vm_compute. reflexivity. Qed.

Lemma demo_absent :
  chain_find (key_match demo_empty (ht_hash_func demo_empty 100 2) 100 2)
    (bucket demo_empty (ht_hash_func demo_empty 100 2 mod ht_size demo_empty)) = None.
Proof. vm_compute. reflexivity. Qed.

Lemma demo_table_inv : ht_inv demo_kv ∅ demo_heap1 demo_table.
Proof.
  pose proof demo_inserted_true as D. pose proof demo_empty_inv as I.
  unfold demo_table, demo_heap1, demo_inserted in *.
  unfold hash_table_insert, insert_locked in *. cbn [Z.eqb orb] in *. rewrite demo_absent in *.
  destruct (insert_absent_spec demo_kv ∅ demo_heap demo_empty 100 2 7 I ltac:(lia) ltac:(lia))
    as [(t' & h' & E & I' & _)|[(t' & h' & E & I' & _)|E]].
  - apply (find_absent demo_kv demo_empty 100 2); [apply I|lia|lia|apply demo_absent].
  - rewrite E. exact I'.
  - rewrite E. exact I'.
  - rewrite E in D. discriminate D.
Qed.

Lemma hash_table_insert_refines_witness :
  match hash_table_insert demo_table 200 2 9 true demo_heap1 with
  | Ok ((r, t'), h') => ht_inv demo_kv ∅ h' t' /\
      match abs demo_kv demo_table !! demo_kv 200 2 with
      | Some _ => r = true /\ abs demo_kv t' = <[demo_kv 200 2 := 9]> (abs demo_kv demo_table)
      | None => abs demo_kv t' = (if r then <[demo_kv 200 2 := 9]> (abs demo_kv demo_table)
                                  else abs demo_kv demo_table)
      end
  | Halt => abs demo_kv demo_table !! demo_kv 200 2 = None
  | _ => False
  end.
Proof.
  apply (hash_table_insert_refines demo_kv ∅ demo_heap1 demo_table 200 2 9 true);
    [apply demo_table_inv|lia|lia].
Defined.

Lemma hash_table_insert_if_absent_refines_witness :
  match hash_table_insert_if_absent demo_table 300 2 9 demo_heap1 with
  | Ok ((r, t'), h') => ht_inv demo_kv ∅ h' t' /\
      match abs demo_kv demo_table !! demo_kv 300 2 with
      | Some _ => r = false /\ t' = demo_table /\ h' = demo_heap1
      | None => abs demo_kv t' = (if r then <[demo_kv 300 2 := 9]> (abs demo_kv demo_table)
                                  else abs demo_kv demo_table)
      end
  | Halt => abs demo_kv demo_table !! demo_kv 300 2 = None
  | _ => False
  end.
Proof.
  apply (hash_table_insert_if_absent_refines demo_kv ∅ demo_heap1 demo_table 300 2 9);
    [apply demo_table_inv|lia|lia].
Defined.

Lemma hash_table_lookup_refines_witness :
  hash_table_lookup demo_table 300 2 = default 0 (abs demo_kv demo_table !! demo_kv 300 2).
Proof. apply (hash_table_lookup_refines demo_kv demo_table 300 2); [apply demo_table_inv|lia|lia]. Defined.

Lemma hash_table_delete_refines_witness :
  match hash_table_delete demo_table 300 2 demo_heap1 with
  | Ok ((r, t'), h') => ht_inv demo_kv ∅ h' t' /\
      abs demo_kv t' = delete (demo_kv 300 2) (abs demo_kv demo_table) /\
      r = bool_decide (is_Some (abs demo_kv demo_table !! demo_kv 300 2))
  | Halt => is_Some (abs demo_kv demo_table !! demo_kv 300 2)
  | _ => False
  end.
Proof.
  apply (hash_table_delete_refines demo_kv ∅ demo_heap1 demo_table 300 2);
    [apply demo_table_inv|lia|lia].
Defined.

Lemma hash_table_destroy_no_leak_witness :
  exists h', hash_table_destroy (Some demo_table) demo_heap1 = Ok (tt, h') /\ heap_inv h' ∅.
Proof. apply (hash_table_destroy_no_leak demo_kv ∅ demo_heap1 demo_table), demo_table_inv. Defined.

Lemma hash_table_create_empty_witness :
  match hash_table_create demo_mem 8 None None demo_slab with
  | Ok (Some t, h') => ht_inv demo_kv ∅ h' t /\ abs demo_kv t = ∅ /\ hash_table_count (Some t) = 0
  | Ok (None, h') => heap_inv h' ∅
  | Halt => True
  | _ => False
  end.
Proof.
  apply (hash_table_create_empty demo_kv ∅ demo_slab demo_mem 8 None None);
    [apply demo_heap_inv|lia|apply demo_laws].
Defined.

Lemma hash_table_foreach_once_witness :
  exists l, hash_table_foreach demo_table
              (fun k len v => modify (fun acc => acc ++ [(demo_kv k len, v)])) [] = Ok (tt, l) /\
    l ≡ₚ map_to_list (abs demo_kv demo_table) /\
    hash_table_count (Some demo_table) = u32 (Z.of_nat (size (abs demo_kv demo_table))).
Proof. apply (hash_table_foreach_once demo_kv demo_table), demo_table_inv. Defined.

(** ** The index is computed before the lock is taken *)
Definition demo_resized : hash_table :=
  (ok_or ((false, demo_table), demo_heap1) (hash_table_resize demo_table 16 demo_heap1)).1.2.

(** A lookup whose index was computed before another core resized the
    table searches the wrong chain: the key "ab" is in the table before and
    after the resize, yet a lookup that read the old size and acquires the
    lock after the resize answers NULL. *)
Theorem stale_index_misses_key :
  let hash := ht_hash_func demo_table 100 2 in
  hash_table_lookup demo_table 100 2 = 7 /\
  hash_table_lookup demo_resized 100 2 = 7 /\
  lookup_locked demo_resized hash (hash mod ht_size demo_table) 100 2 = 0.
Proof. vm_compute. auto. Qed.
