(* ===== verification/Vm.v ===== *)
(** Virtual memory: mm/vm.c and include/mm/vm.h.

    Page tables are pages of RAM; a [page_table] is the physical address of
    its page (the kernel maps free memory identically), a [pte*] the address
    of the entry.  [pte_walk], [mappages], [pg_unmap], [freewalk] and the
    copying routines read and write those words with the code's own masks and
    shifts. *)
From stdpp Require Import base gmap list.
From Stdlib Require Import ZArith Lia.
From S2P Require Import Prelude Bytes Pages PageInit.
Open Scope Z_scope.

(** ** include/mm/vm.h, include/mm/memlayout.h *)
Definition PTE_V : Z := 1.
Definition PTE_R : Z := 2.
Definition PTE_W : Z := 4.
Definition PTE_X : Z := 8.
Definition PTE_U : Z := 16.
Definition PGSHIFT : Z := 12.
Definition PXMASK : Z := 0x1FF.
Definition PXSHIFT (level : Z) : Z := PGSHIFT + 9 * level.
Definition PX (level va : Z) : Z := Z.land (Z.shiftr va (PXSHIFT level)) PXMASK.
Definition PTE2PA (pte : Z) : Z := u64 (Z.shiftl (Z.shiftr pte 10) 12).
Definition PA2PTE (pa : Z) : Z := u64 (Z.shiftl (Z.shiftr pa 12) 10).
Definition PTE_FLAGS (pte : Z) : Z := Z.land pte 0x3FF.
Definition EFAULT : Z := -114514.

Definition MAX_VA : Z := Z.shiftl 1 38.
Definition KERNEL_START : Z := 0x80200000.
Definition MMIO_OFFEST : Z := MAX_VA - 0x08000000.
Definition UART_BASE : Z := 0x10000000.
Definition VIRTIO_MMIO_BASE : Z := 0x10001000.
Definition CLINT_BASE : Z := 0x2000000.
Definition PLIC_BASE : Z := 0xc000000.
Definition UART_PAGE_SIZE : Z := 1.
Definition VIRTIO_PAGE_SIZE : Z := 8.
Definition CLINT_PAGE_SIZE : Z := 16.
Definition PLIC_PAGE_SIZE : Z := 0x600.
Definition MMIO_UART_OFFEST : Z := MMIO_OFFEST.
Definition MMIO_VIRTIO_OFFEST : Z := MMIO_OFFEST + UART_PAGE_SIZE * 4096.
Definition MMIO_CLINT_OFFEST : Z := MMIO_OFFEST + UART_PAGE_SIZE * 4096 + VIRTIO_PAGE_SIZE * 4096.
Definition MMIO_PLIC_OFFEST : Z :=
  MMIO_OFFEST + UART_PAGE_SIZE * 4096 + VIRTIO_PAGE_SIZE * 4096 + CLINT_PAGE_SIZE * 4096.
Definition TRAMPOLINE : Z := MMIO_OFFEST - PG_4K_SIZE - PG_4K_SIZE.
Definition END_OF_KERNEL_STACK : Z := 0x3F7FFF2000.
Definition DMA_SIZE : Z := DMA_PAGE_COUNT * PG_4K_SIZE.
Definition DMA_END : Z := END_OF_KERNEL_STACK - PG_4K_SIZE.
Definition DMA_START_BASE : Z := DMA_END - DMA_SIZE.
Definition USER_STACK_PAGES : Z := 4.
Definition USER_STACK_TOP : Z := 0x80000000 - PG_4K_SIZE.
Definition USER_STACK_BASE : Z := USER_STACK_TOP - USER_STACK_PAGES * PG_4K_SIZE.
Definition USER_BASE_PROG_ADDR : Z := 0x1000.
Definition MAKE_SATP (pagetable : Z) : Z := Z.lor (Z.shiftl 8 60) (Z.shiftr pagetable 12).

(** ** Words of physical memory *)
Definition rdk (a : Z) : M kmem Z := gets (fun s => ld64 (km_ram s) a).
Definition wrk (a v : Z) : M kmem unit := modify (fun s => set_ram (st64 (km_ram s) a v) s).
(** [&pt[i]] *)
Definition pte_addr (pt i : Z) : Z := u64 (pt + 8 * i).

(** ** Walking and mapping *)

(** one iteration of the [for (level = 2; level > 0; level--)] loop: the next
    table, [None] when it is missing and not created ([return 0]) *)
Definition walk_level (level pt va : Z) (create : bool) : M kmem (option Z) :=
  let p := pte_addr pt (PX level va) in
  let* e := rdk p in
  if negb (Z.land e PTE_V =? 0) then mret (Some (PTE2PA e))
  else if negb create then mret None
  else
    let* pt' := alloc_page in
    if pt' =? 0 then mret None else
    wrk p (Z.lor (PA2PTE pt') PTE_V) ;;; mret (Some pt').

Definition pte_walk (pt va : Z) (create : bool) : M kmem Z :=
  if MAX_VA <? va then mret 0 else
  let* r2 := walk_level 2 pt va create in
  match r2 with
  | None => mret 0
  | Some pt1 =>
      let* r1 := walk_level 1 pt1 va create in
      match r1 with
      | None => mret 0
      | Some pt0 => mret (pte_addr pt0 (PX 0 va))
      end
  end.

(** the [for (;;)] of [mappages]; [n] bounds the pages left *)
Fixpoint map_loop (n : nat) (pagetable a pa last perm : Z) : M kmem Z :=
  match n with
  | O => nofuel
  | S n' =>
      let* p := pte_walk pagetable a true in
      if p =? 0 then mret (-1) else
      let* e := rdk p in
      if negb (Z.land e PTE_V =? 0) then halt else
      wrk p (Z.lor (Z.lor (PA2PTE pa) perm) PTE_V) ;;;
      if a =? last then mret 0
      else map_loop n' pagetable (u64 (a + PG_4K_SIZE)) (u64 (pa + PG_4K_SIZE)) last perm
  end.

Definition mappages (pagetable va size pa perm : Z) : M kmem Z :=
  if negb (va mod PG_4K_SIZE =? 0) then halt else
  if negb (size mod PG_4K_SIZE =? 0) then halt else
  if size =? 0 then halt else
  let last := u64 (va + size - PG_4K_SIZE) in
  map_loop (Z.to_nat (size / PG_4K_SIZE)) pagetable va pa last perm.

(** the [while (count < pages)] of [kvminit]; [count] is an [int] *)
Fixpoint kvminit_loop (n : nat) (pt vad pad flags count : Z) : M kmem Z :=
  match n with
  | O => mret count
  | S n' =>
      let* p := pte_walk pt vad true in
      if p =? 0 then halt else
      wrk p (Z.lor (PA2PTE pad) flags) ;;;
      kvminit_loop n' pt (u64 (vad + PG_4K_SIZE)) (u64 (pad + PG_4K_SIZE)) flags (s32 (count + 1))
  end.
Definition kvminit (pt va pa pages flags : Z) : M kmem Z :=
  kvminit_loop (Z.to_nat pages) pt (PGROUNDDOWN va) (PGROUNDDOWN pa) flags 0.

(** field [f] of the page a [gmd] pointer names *)
Definition gmd_paddr (f : gmd_t -> option Z) : M kmem Z :=
  let* g := gets km_gmd in let* pg := deref (f g) in mret (pg_paddr pg).

Definition kvm_do_mapping (_trampoline_jump pgtable : Z) : M kmem unit :=
  let rw := Z.lor (Z.lor PTE_V PTE_R) PTE_W in
  let* kt := gmd_paddr kernel_tail in
  kvminit pgtable KERNEL_START KERNEL_START (u64 (kt - KERNEL_START) / PG_4K_SIZE + 1)
    (Z.lor rw PTE_X) ;;;
  let* fh := gmd_paddr fdt_head in
  let* ft := gmd_paddr fdt_tail in
  kvminit pgtable fh fh (u64 (ft - fh) / PG_4K_SIZE + 1) (Z.lor PTE_V PTE_R) ;;;
  let* g := gets km_gmd in
  kvminit pgtable DMA_START_BASE (dma_start_at g)
    (u64 (dma_end_at g - dma_start_at g) / PG_4K_SIZE + 1) rw ;;;
  kvminit pgtable (free_start_at g) (free_start_at g)
    (u64 (free_end_at g - free_start_at g) / PG_4K_SIZE + 1) rw ;;;
  mappages pgtable MMIO_UART_OFFEST (UART_PAGE_SIZE * 4096) UART_BASE rw ;;;
  mappages pgtable MMIO_VIRTIO_OFFEST (VIRTIO_PAGE_SIZE * PG_4K_SIZE) VIRTIO_MMIO_BASE rw ;;;
  mappages pgtable MMIO_CLINT_OFFEST (CLINT_PAGE_SIZE * PG_4K_SIZE) CLINT_BASE rw ;;;
  mappages pgtable MMIO_PLIC_OFFEST (PLIC_PAGE_SIZE * PG_4K_SIZE) PLIC_BASE (Z.lor rw PTE_X) ;;;
  mappages pgtable TRAMPOLINE PG_4K_SIZE _trampoline_jump (Z.lor (Z.lor PTE_V PTE_R) PTE_X) ;;;
  mret tt.

(** The globals of vm.c and the [satp] register. *)
Record vm_globals := mkVmg {
  vg_mem : kmem;
  kernel_pt : Z;
  vm_init_status : Z;
  csr_satp : Z }.
Definition vg_zoom {A} (m : M kmem A) : M vm_globals A :=
  zoom vg_mem (fun k g => mkVmg k (kernel_pt g) (vm_init_status g) (csr_satp g)) m.

Definition init_kvmhart : M vm_globals unit :=
  modify (fun g => mkVmg (vg_mem g) (kernel_pt g) (vm_init_status g) (MAKE_SATP (kernel_pt g))).

Definition init_kvmmap (_trampoline_jump : Z) : M vm_globals unit :=
  let* st := gets vm_init_status in
  if st =? 1 then mret tt else
  let* pt := vg_zoom alloc_page in
  modify (fun g => mkVmg (vg_mem g) pt (vm_init_status g) (csr_satp g)) ;;;
  (if pt =? 0 then fault
   else vg_zoom (modify (fun k => set_ram (memset (km_ram k) pt 0 4096) k))) ;;;
  vg_zoom (kvm_do_mapping _trampoline_jump pt) ;;;
  vg_zoom (pte_walk pt MMIO_VIRTIO_OFFEST false) ;;;
  init_kvmhart ;;;
  modify (fun g => mkVmg (vg_mem g) (kernel_pt g) 1 (csr_satp g)).

Definition pg_create : M kmem Z :=
  let* pg := kalloc in
  if pg =? 0 then mret 0 else
  modify (fun k => set_ram (memset (km_ram k) pg 0 PG_4K_SIZE) k) ;;; mret pg.

(** ** Unmapping *)
Definition unmap_page (pagetable a : Z) (do_free : bool) : M kmem unit :=
  let* p := pte_walk pagetable a false in
  if p =? 0 then mret tt else
  let* e := rdk p in
  if Z.land e PTE_V =? 0 then mret tt else
  (if do_free then kfree (PTE2PA e) else mret 0) ;;;
  wrk p 0.

(** [for (a = va; a < va + npages * PG_4K_SIZE; a += PG_4K_SIZE)] *)
Fixpoint unmap_loop (n : nat) (pagetable a lim : Z) (do_free : bool) : M kmem unit :=
  match n with
  | O => nofuel
  | S n' => if a <? lim
            then unmap_page pagetable a do_free ;;;
                 unmap_loop n' pagetable (u64 (a + PG_4K_SIZE)) lim do_free
            else mret tt
  end.
Definition pg_unmap (pagetable va npages : Z) (do_free : bool) : M kmem unit :=
  if negb (va mod PG_4K_SIZE =? 0) then halt else
  unmap_loop (S (Z.to_nat npages)) pagetable va (u64 (va + npages * PG_4K_SIZE)) do_free.

(** [freewalk]: [fuel] bounds the depth of the tree, which is 3 in Sv39 *)
Fixpoint freewalk (fuel : nat) (pagetable : Z) : M kmem unit :=
  match fuel with
  | O => nofuel
  | S f =>
      for_loop 512 0 (fun i =>
        let* e := rdk (pte_addr pagetable i) in
        if negb (Z.land e PTE_V =? 0) && (Z.land e (Z.lor (Z.lor PTE_R PTE_W) PTE_X) =? 0)
        then freewalk f (PTE2PA e) ;;; wrk (pte_addr pagetable i) 0
        else if negb (Z.land e PTE_V =? 0) then halt else mret tt) ;;;
      kfree pagetable ;;; mret tt
  end.

(** The page count divides by [PG_4K_SHIFT] (12), as the code has it. *)
Definition pg_user_vmfree (fuel : nat) (pagetable sz : Z) : M kmem unit :=
  (if 0 <? sz then pg_unmap pagetable 0x1000 (PGROUNDUP sz / PG_4K_SHIFT) true else mret tt) ;;;
  pg_unmap pagetable USER_STACK_BASE USER_STACK_PAGES true ;;;
  freewalk fuel pagetable.

(** ** Translation *)
Definition walkaddr (pagetable va : Z) : M kmem Z :=
  if MAX_VA <=? va then mret 0 else
  let* p := pte_walk pagetable va false in
  if p =? 0 then mret 0 else
  let* e := rdk p in
  if Z.land e PTE_V =? 0 then mret 0 else
  if Z.land e PTE_U =? 0 then mret 0 else
  mret (PTE2PA e).

Definition va2pa (pt va : Z) : M kmem Z :=
  let* e2 := rdk (pte_addr pt (PX 2 va)) in
  if Z.land e2 PTE_V =? 0 then mret (u64 (-1)) else
  let* e1 := rdk (pte_addr (PTE2PA e2) (PX 1 va)) in
  if Z.land e1 PTE_V =? 0 then mret (u64 (-1)) else
  let* e0 := rdk (pte_addr (PTE2PA e1) (PX 0 va)) in
  if Z.land e0 PTE_V =? 0 then mret (u64 (-1)) else
  mret (Z.lor (PTE2PA e0) (Z.land va 0xFFF)).

(** ** The current task's view: heap bounds, page table, kill flag *)
Inductive page_fault_type := PF_LOAD | PF_STORE | PF_INSTRUCTION.

#[export] Instance page_fault_type_eq_dec : EqDecision page_fault_type.
Proof. solve_decision. Defined.

Record vtask := mkVtask {
  t_heap_start : Z;
  t_heap_brk : Z;
  t_pg : Z;
  t_dead : Z }.
Record vstate := mkVst { v_mem : kmem; v_task : vtask }.
Definition vz {A} (m : M kmem A) : M vstate A := zoom v_mem (fun k s => mkVst k (v_task s)) m.
Definition set_dead : M vstate unit :=
  modify (fun s => let t := v_task s in
    mkVst (v_mem s) (mkVtask (t_heap_start t) (t_heap_brk t) (t_pg t) 1)).

Definition get_page_fault_type (scause : Z) : page_fault_type :=
  if scause =? 13 then PF_LOAD
  else if scause =? 15 then PF_STORE
  else if scause =? 12 then PF_INSTRUCTION
  else PF_INSTRUCTION.

Definition pf_flags : Z := Z.lor (Z.lor (Z.lor PTE_V PTE_W) PTE_R) PTE_U.

(** [do_page_fault_with_new_pa]: the result and the address written to
    [*pa_ptr] on success *)
Definition do_page_fault_with_new_pa (fault_addr : Z) (type : page_fault_type)
    : M vstate (Z * Z) :=
  let* t := gets v_task in
  if negb (bool_decide (type = PF_LOAD) || bool_decide (type = PF_STORE)) then mret (-1, 0) else
  if (fault_addr <? t_heap_start t) || (t_heap_brk t <=? fault_addr) then mret (-1, 0) else
  let va := PGROUNDDOWN fault_addr in
  let* pa := vz kalloc in
  if pa =? 0 then mret (-1, 0) else
  vz (modify (fun k => set_ram (memset (km_ram k) pa 0 PG_4K_SIZE) k)) ;;;
  let* r := vz (mappages (t_pg t) va PG_4K_SIZE pa pf_flags) in
  if r <? 0 then vz (free_page pa) ;;; mret (-1, 0) else
  mret (0, pa).

Definition do_page_fault (fault_addr : Z) (type : page_fault_type) : M vstate unit :=
  let* t := gets v_task in
  if negb (bool_decide (type = PF_LOAD) || bool_decide (type = PF_STORE)) then set_dead else
  if (fault_addr <? t_heap_start t) || (t_heap_brk t <=? fault_addr) then set_dead else
  let va := PGROUNDDOWN fault_addr in
  let* pa := vz kalloc in
  if pa =? 0 then set_dead else
  vz (modify (fun k => set_ram (memset (km_ram k) pa 0 PG_4K_SIZE) k)) ;;;
  let* r := vz (mappages (t_pg t) va PG_4K_SIZE pa pf_flags) in
  if r <? 0 then vz (free_page pa) ;;; set_dead else
  mret tt.

(** the physical page of [va0], after a page fault if it is not there *)
Definition user_page (pagetable va0 : Z) (type : page_fault_type) : M vstate (option Z) :=
  let* pa0 := vz (walkaddr pagetable va0) in
  if pa0 =? 0 then
    let* r := do_page_fault_with_new_pa va0 type in
    if fst r <? 0 then mret None else mret (Some (snd r))
  else mret (Some pa0).

(** ** Copying across the user boundary *)
Fixpoint copy_to_user (fuel : nat) (pagetable dstva src len : Z) : M vstate Z :=
  match fuel with
  | O => nofuel
  | S f =>
      if len <=? 0 then mret 0 else
      let va0 := PGROUNDDOWN dstva in
      if MAX_VA <? va0 then mret (-1) else
      let* r := user_page pagetable va0 PF_STORE in
      match r with
      | None => mret EFAULT
      | Some pa0 =>
          let* p := vz (pte_walk pagetable va0 false) in
          if p =? 0 then fault else
          let* e := vz (rdk p) in
          if Z.land e PTE_W =? 0 then mret (-1) else
          let n0 := PG_4K_SIZE - (dstva - va0) in
          let n := if len <? n0 then len else n0 in
          vz (modify (fun k => set_ram (memcpy (km_ram k) (pa0 + (dstva - va0)) src n) k)) ;;;
          copy_to_user f pagetable (u64 (va0 + PG_4K_SIZE)) (src + n) (len - n)
      end
  end.

Fixpoint copy_from_user (fuel : nat) (pagetable dst srcva len : Z) : M vstate Z :=
  match fuel with
  | O => nofuel
  | S f =>
      if len <=? 0 then mret 0 else
      let va0 := PGROUNDDOWN srcva in
      if MAX_VA <? va0 then mret (-1) else
      let* r := user_page pagetable va0 PF_LOAD in
      match r with
      | None => mret EFAULT
      | Some pa0 =>
          let n0 := PG_4K_SIZE - (srcva - va0) in
          let n := if len <? n0 then len else n0 in
          vz (modify (fun k => set_ram (memcpy (km_ram k) dst (pa0 + (srcva - va0)) n) k)) ;;;
          copy_from_user f pagetable (dst + n) (u64 (va0 + PG_4K_SIZE)) (len - n)
      end
  end.

(** the inner [while (n > 0)] of [copy_str_from_user]: [true] when the
    terminator was copied *)
Fixpoint copy_str_page (n : nat) (dst p : Z) (m : ram) : bool * ram :=
  match n with
  | O => (false, m)
  | S n' =>
      if ldb m p =? 0 then (true, <[dst := 0]> m)
      else copy_str_page n' (dst + 1) (p + 1) (<[dst := ldb m p]> m)
  end.

Fixpoint copy_str_from_user (fuel : nat) (pagetable dst srcva max : Z) : M vstate Z :=
  match fuel with
  | O => nofuel
  | S f =>
      if max <=? 0 then mret (-1) else
      let va0 := PGROUNDDOWN srcva in
      if MAX_VA <? va0 then mret (-1) else
      let* r := user_page pagetable va0 PF_LOAD in
      match r with
      | None => mret EFAULT
      | Some pa0 =>
          let n0 := PG_4K_SIZE - (srcva - va0) in
          let n := if max <? n0 then max else n0 in
          let* m := gets (fun s => km_ram (v_mem s)) in
          let '(got_null, m') := copy_str_page (Z.to_nat n) dst (pa0 + (srcva - va0)) m in
          vz (modify (set_ram m')) ;;;
          if got_null then mret 0
          else copy_str_from_user f pagetable (dst + n) (u64 (va0 + PG_4K_SIZE)) (max - n)
      end
  end.

(** ** Duplicating an address space *)

(** the body shared by the two copies, for one page; [true] to go on *)
Definition copy_page (src_pg dst_pg va : Z) : M kmem bool :=
  let* p := pte_walk src_pg va false in
  if p =? 0 then mret true else
  let* e := rdk p in
  if Z.land e PTE_V =? 0 then mret true else
  let pa := PTE2PA e in
  if pa =? 0 then mret true else
  let flag := PTE_FLAGS e in
  let* chunk := kalloc in
  if chunk =? 0 then pg_unmap dst_pg va 1 true ;;; mret false else
  modify (fun k => set_ram (memcpy (km_ram k) chunk pa PG_4K_SIZE) k) ;;;
  let* r := mappages dst_pg va PG_4K_SIZE chunk flag in
  if r =? -1 then kfree chunk ;;; pg_unmap dst_pg va 1 true ;;; mret false
  else mret true.

Fixpoint copy_loop (n : nat) (src_pg dst_pg va : Z) : M kmem Z :=
  match n with
  | O => mret 0
  | S n' =>
      let* go := copy_page src_pg dst_pg va in
      if go then copy_loop n' src_pg dst_pg (u64 (va + PG_4K_SIZE)) else mret (-1)
  end.

(** [for (; va <= sz; va += PG_4K_SIZE)] *)
Definition vm_pagetbl_copy (src_pg dst_pg sz : Z) (is_user_copy : bool) : M kmem Z :=
  let va := if is_user_copy then USER_BASE_PROG_ADDR else 0 in
  copy_loop (Z.to_nat ((sz - va) / PG_4K_SIZE + 1)) src_pg dst_pg va.

(** [for (; va < va_start + sz; va += PG_4K_SIZE)] *)
Definition vm_pagetbl_copy_asign (src_pg dst_pg va_start sz : Z) : M kmem Z :=
  copy_loop (Z.to_nat ((sz + PG_4K_SIZE - 1) / PG_4K_SIZE)) src_pg dst_pg va_start.
