(* ===== verification/VmSpec.v ===== *)
(** Page tables as partial functions (Vm.v).

    A tree of page tables is a map from paths ([[]] the root, [[i]] and
    [[i; j]] the tables below it) to page frames.  [pt_wf] says that the RAM
    holds exactly that tree in allocated frames; [pte_of] is the leaf entry the
    tree has for a virtual address.  The walking and mapping routines are
    specified by what they do to [pte_of]. *)
From stdpp Require Import base gmap list.
From Stdlib Require Import ZArith Lia.
From S2P Require Import Prelude Bytes Pages PageInit Vm.
Open Scope Z_scope.

(** ** Entries *)
Lemma lor_flags x f : 0 <= f < 1024 -> Z.lor (x * 1024) f = x * 1024 + f.
Proof.
  apply (lor_low x f 10). lia.
Qed.

Lemma PA2PTE_eq pa : 0 <= pa < 2 ^ 64 -> PA2PTE pa = pa / 4096 * 1024.
Proof.
  intros H. unfold PA2PTE. rewrite Z.shiftr_div_pow2, Z.shiftl_mul_pow2 by lia.
  change (2 ^ 12) with 4096. change (2 ^ 10) with 1024. apply u64_small.
  pose proof (Z.div_le_upper_bound pa 4096 (2 ^ 52) ltac:(lia) ltac:(lia)).
  pose proof (Z.div_pos pa 4096). lia.
Qed.

(** An entry built from an address and flags gives both back. *)
Lemma pte_pa pa flags :
  0 <= pa < 2 ^ 64 -> 0 <= flags < 1024 ->
  PTE2PA (Z.lor (PA2PTE pa) flags) = pa / 4096 * 4096 /\
  PTE_FLAGS (Z.lor (PA2PTE pa) flags) = flags /\
  0 <= Z.lor (PA2PTE pa) flags < 2 ^ 64.
Proof.
  intros Hp Hf. rewrite PA2PTE_eq, lor_flags by done.
  assert (0 <= pa / 4096 < 2 ^ 52) as Hq.
  { split; [apply Z.div_pos; lia|]. apply Z.div_lt_upper_bound; lia. }
  split; [|split].
  - unfold PTE2PA. rewrite Z.shiftr_div_pow2, Z.shiftl_mul_pow2 by lia.
    change (2 ^ 10) with 1024. change (2 ^ 12) with 4096.
    rewrite Z.div_add_l, (Z.div_small flags) by lia. rewrite Z.add_0_r, u64_small; [done|lia].
  - unfold PTE_FLAGS. change 0x3FF with (Z.ones 10). rewrite Z.land_ones by lia.
    change (2 ^ 10) with 1024. rewrite Z.add_comm, Z.mod_add, Z.mod_small by lia. done.
  - lia.
Qed.

Lemma land_flag e b : 0 <= b < 10 -> Z.land e (2 ^ b) = if Z.testbit e b then 2 ^ b else 0.
Proof.
  intros Hb. apply Z.bits_inj'. intros n Hn. rewrite Z.land_spec, Z.pow2_bits_eqb by lia.
  destruct (Z.eqb_spec b n) as [<-|Hne].
  - rewrite andb_true_r. destruct (Z.testbit e b); [by rewrite Z.pow2_bits_true|by rewrite Z.bits_0].
  - rewrite andb_false_r. destruct (Z.testbit e b); [by rewrite Z.pow2_bits_false|by rewrite Z.bits_0].
Qed.

Lemma testbit_flags pa flags b :
  0 <= pa < 2 ^ 64 -> 0 <= b < 10 -> Z.testbit (Z.lor (PA2PTE pa) flags) b = Z.testbit flags b.
Proof.
  intros Hp Hb. rewrite Z.lor_spec, PA2PTE_eq by done. change 1024 with (2 ^ 10).
  by rewrite Z.mul_pow2_bits_low by lia.
Qed.

Definition table_pte (f : Z) : Z := Z.lor (PA2PTE (page_addr f)) PTE_V.

Lemma page_addr_range f : 0 <= f < 2 ^ 49 -> 0 < page_addr f /\ page_addr f + 4096 < 2 ^ 62.
Proof. unfold page_addr, MEMORY_START, PG_4K_SIZE. lia. Qed.

Lemma page_addr_down f : page_addr f / 4096 * 4096 = page_addr f.
Proof.
  unfold page_addr, MEMORY_START, PG_4K_SIZE.
  replace (2147483648 + 4096 * f) with ((524288 + f) * 4096) by lia. by rewrite Z.div_mul.
Qed.

Lemma table_pte_spec f :
  0 <= f < 2 ^ 49 ->
  PTE2PA (table_pte f) = page_addr f /\ Z.land (table_pte f) PTE_V = 1 /\ u64 (table_pte f) = table_pte f.
Proof.
  intros Hf. destruct (page_addr_range f Hf).
  destruct (pte_pa (page_addr f) PTE_V) as (E1 & _ & E3); [lia|unfold PTE_V; lia|].
  unfold table_pte. split; [by rewrite E1, page_addr_down|]. split; [|by apply u64_small].
  change PTE_V with (2 ^ 0). rewrite land_flag, testbit_flags by lia. done.
Qed.

Lemma PX_range level va : 0 <= PX level va < 512.
Proof.
  unfold PX, PXMASK. change 0x1FF with (Z.ones 9). rewrite Z.land_ones by lia.
  apply Z.mod_pos_bound. lia.
Qed.

(** ** Trees *)
Abbreviation ptree := (gmap (list Z) Z).

Record pt_wf (k : kmem) (fr : frames) (T : ptree) : Prop := {
  w_repr : repr k fr;
  w_root : is_Some (T !! []);
  w_depth : forall p f, T !! p = Some f -> (length p <= 2)%nat;
  w_used : forall p f, T !! p = Some f -> is_Some (fr_used fr !! f) /\ 0 <= f < 2 ^ 49;
  w_inj : forall p q f, T !! p = Some f -> T !! q = Some f -> p = q;
  w_parent : forall p i f, T !! (p ++ [i]) = Some f -> is_Some (T !! p) /\ 0 <= i < 512;
  w_entries : forall p f i, T !! p = Some f -> (length p <= 1)%nat -> 0 <= i < 512 ->
    match T !! (p ++ [i]) with
    | Some g => ld64 (km_ram k) (page_addr f + 8 * i) = table_pte g
    | None => Z.land (ld64 (km_ram k) (page_addr f + 8 * i)) PTE_V = 0
    end }.

(** Address of the leaf entry of [va], and the entry itself. *)
Definition slot (T : ptree) (va : Z) : option Z :=
  match T !! [PX 2 va; PX 1 va] with
  | Some f => Some (page_addr f + 8 * PX 0 va)
  | None => None
  end.
Definition pte_of (m : ram) (T : ptree) (va : Z) : Z :=
  match slot T va with Some a => ld64 m a | None => 0 end.

(** [f] holds a table of the tree *)
Definition tbl (T : ptree) (f : Z) : Prop := exists p, T !! p = Some f.

Lemma in_frame_disjoint f g x i :
  f <> g -> 0 <= i < 512 -> page_addr f <= x -> x + 8 <= page_addr f + 4096 ->
  x + 8 <= page_addr g + 8 * i \/ page_addr g + 8 * i + 8 <= x.
Proof. intros. unfold page_addr, PG_4K_SIZE in *. lia. Qed.

Lemma walk_found level va k fr T p f g create :
  pt_wf k fr T -> T !! p = Some f -> (length p <= 1)%nat -> T !! (p ++ [PX level va]) = Some g ->
  walk_level level (page_addr f) va create k = Ok (Some (page_addr g), k).
Proof.
  intros W Hp Hl Hg. pose proof (w_entries _ _ _ W p f (PX level va) Hp Hl (PX_range level va)) as E.
  rewrite Hg in E. destruct (w_used _ _ _ W _ _ Hg) as [_ Hgr].
  destruct (w_used _ _ _ W _ _ Hp) as [_ Hfr]. destruct (page_addr_range f Hfr).
  destruct (table_pte_spec g Hgr) as (E1 & E2 & _). pose proof (PX_range level va).
  unfold walk_level, pte_addr. cbn [rdk gets mbind' mret]. rewrite u64_small by lia.
  rewrite E, E2, E1. done.
Qed.

Lemma walk_missing level va k fr T p f :
  pt_wf k fr T -> T !! p = Some f -> (length p <= 1)%nat -> T !! (p ++ [PX level va]) = None ->
  walk_level level (page_addr f) va false k = Ok (None, k).
Proof.
  intros W Hp Hl Hg. pose proof (w_entries _ _ _ W p f (PX level va) Hp Hl (PX_range level va)) as E.
  rewrite Hg in E. destruct (w_used _ _ _ W _ _ Hp) as [_ Hfr]. destruct (page_addr_range f Hfr).
  pose proof (PX_range level va).
  unfold walk_level, pte_addr. cbn [rdk gets mbind' mret]. rewrite u64_small by lia.
  rewrite E. done.
Qed.

(** What creating tables may change: nothing that was mapped, no word of an
    allocated frame that is not a table. *)
Record pt_ext (k : kmem) (fr : frames) (T : ptree) (k' : kmem) (fr' : frames) (T' : ptree) : Prop := {
  x_wf : pt_wf k' fr' T';
  x_sub : T ⊆ T';
  x_pte : forall va, pte_of (km_ram k') T' va = pte_of (km_ram k) T va;
  x_used : forall f rc, fr_used fr !! f = Some rc -> fr_used fr' !! f = Some rc;
  x_words : forall f x, is_Some (fr_used fr !! f) -> ~ tbl T f ->
    page_addr f <= x < page_addr f + 4096 -> ldb (km_ram k') x = ldb (km_ram k) x;
  x_tbl : forall f, tbl T' f -> tbl T f \/ fr_used fr !! f = None }.

Lemma pt_ext_refl k fr T : pt_wf k fr T -> pt_ext k fr T k fr T.
Proof. intros W. split; try done. auto. Qed.

Lemma pt_ext_trans k1 f1 T1 k2 f2 T2 k3 f3 T3 :
  pt_ext k1 f1 T1 k2 f2 T2 -> pt_ext k2 f2 T2 k3 f3 T3 -> pt_ext k1 f1 T1 k3 f3 T3.
Proof.
  intros A B. split.
  - apply B.
  - etrans; [apply A|apply B].
  - intros va. rewrite (x_pte _ _ _ _ _ _ B). apply A.
  - intros f rc Hf. apply B, A, Hf.
  - intros f x [rc Hf] Hn Hx. rewrite (x_words _ _ _ _ _ _ B f x); [by apply (x_words _ _ _ _ _ _ A f)|..]; try done.
    + exists rc. by apply A.
    + intros Ht. destruct (x_tbl _ _ _ _ _ _ A f Ht) as [|Hnone]; [done|congruence].
  - intros f Hf. destruct (x_tbl _ _ _ _ _ _ B f Hf) as [Hf2|Hn].
    + by apply (x_tbl _ _ _ _ _ _ A).
    + right. destruct (fr_used f1 !! f) as [rc|] eqn:E; [|done].
      apply (x_used _ _ _ _ _ _ A) in E. congruence.
Qed.

Lemma ld64_ext m m' x : (forall y, x <= y < x + 8 -> ldb m' y = ldb m y) -> ld64 m' x = ld64 m x.
Proof. intros H. unfold ld64. f_equal. apply ldbytes_ext. intros y Hy. apply H. lia. Qed.

Lemma ldb_st64_ne m a v x : x < a \/ a + 8 <= x -> ldb (st64 m a v) x = ldb m x.
Proof. intros H. unfold st64. apply ldb_stbytes_ne. rewrite length_le_enc. lia. Qed.

Lemma ldb_memset_ne m a v n x : 0 <= n -> x < a \/ a + n <= x -> ldb (memset m a v n) x = ldb m x.
Proof. intros Hn H. unfold memset. apply ldb_stbytes_ne. rewrite length_replicate. lia. Qed.

(** The tree after hanging the new frame [g] at entry [i] of the table [p]. *)
Lemma pt_graft k fr T p f i g l k' :
  pt_wf k fr T -> T !! p = Some f -> (length p <= 1)%nat -> 0 <= i < 512 ->
  T !! (p ++ [i]) = None -> fr_free fr = g :: l ->
  let fr' := mkFrames l (<[g := 1]> (fr_used fr)) in
  repr k' fr' -> km_ram k' = memset (km_ram k) (page_addr g) 0 4096 ->
  pt_ext k fr T (set_ram (st64 (km_ram k') (page_addr f + 8 * i) (table_pte g)) k') fr'
    (<[p ++ [i] := g]> T).
Proof.
  intros W Hp Hl Hi Hnone Ef fr' R' Hram.
  assert (fr_used fr !! g = None) as Hgn.
  { destruct (fr_used fr !! g) as [rc|] eqn:E; [|done].
    exfalso. apply (used_not_free _ _ _ _ (w_repr _ _ _ W) E). rewrite Ef. left. }
  assert (0 <= g < 2 ^ 49) as Hg.
  { destruct (r_used _ _ R' g 1 ltac:(simpl; by rewrite lookup_insert_eq)) as (pg & Hpg & _).
    by destruct (r_desc _ _ R' _ _ Hpg). }
  destruct (table_pte_spec g Hg) as (_ & _ & Eu).
  assert (forall q h, T !! q = Some h -> h <> g) as Hne.
  { intros q h Hq ->. destruct (w_used _ _ _ W _ _ Hq) as [[rc E] _]. congruence. }
  set (k2 := set_ram _ k'). set (a := page_addr f + 8 * i) in *.
  assert (forall x, (x < a \/ a + 8 <= x) -> (x < page_addr g \/ page_addr g + 4096 <= x) ->
            ldb (km_ram k2) x = ldb (km_ram k) x) as Hb.
  { intros x H1 H2. simpl. rewrite ldb_st64_ne by done. rewrite Hram. by apply ldb_memset_ne. }
  assert (forall h j, 0 <= j < 512 -> h <> g -> (h <> f \/ j <> i) ->
            ld64 (km_ram k2) (page_addr h + 8 * j) = ld64 (km_ram k) (page_addr h + 8 * j)) as Hw.
  { intros h j Hj Hhg Hhf. apply ld64_ext. intros y Hy. apply Hb;
      unfold a, page_addr, PG_4K_SIZE in *; lia. }
  assert (forall j, 0 <= j < 512 -> ld64 (km_ram k2) (page_addr g + 8 * j) = 0) as Hz.
  { intros j Hj. simpl. pose proof (Hne _ _ Hp). rewrite ld64_st64_disjoint
      by (unfold a, page_addr, PG_4K_SIZE in *; lia).
    rewrite Hram. apply ld64_memset_zero; lia. }
  assert (ld64 (km_ram k2) a = table_pte g) as Hself by (simpl; by rewrite ld64_st64_same).
  assert (T ⊆ <[p ++ [i] := g]> T) as Hsub by (by apply insert_subseteq).
  assert (repr k2 fr') as R2 by (by apply repr_set_ram).
  clear Hram. clearbody k2. split.
  - split.
    + exact R2.
    + rewrite lookup_insert_ne by (by destruct p). apply (w_root _ _ _ W).
    + intros q h [[<- <-]|[_ Hq]]%lookup_insert_Some; [rewrite length_app; simpl; lia|].
      by apply (w_depth _ _ _ W q h).
    + intros q h [[<- <-]|[Hqe Hq]]%lookup_insert_Some; simpl.
      * by rewrite lookup_insert_eq.
      * rewrite lookup_insert_ne by (intros ->; by apply (Hne q h)). by apply (w_used _ _ _ W q).
    + intros q1 q2 h [[<- <-]|[_ H1]]%lookup_insert_Some [[<- E]|[_ H2]]%lookup_insert_Some.
      * done.
      * by apply Hne in H2.
      * subst h. by apply Hne in H1.
      * by apply (w_inj _ _ _ W q1 q2 h).
    + intros q j h [[E <-]|[_ Hq]]%lookup_insert_Some.
      * apply app_inj_tail in E as [<- <-]. split; [|done].
        rewrite lookup_insert_ne; [by eexists|]. intros E. apply (f_equal length) in E.
        rewrite length_app in E. simpl in E. lia.
      * destruct (w_parent _ _ _ W q j h Hq) as [[x Hx] Hj]. split; [|done].
        exists x. by apply (lookup_weaken T).
    + intros q h j [[<- <-]|[Hqe Hq]]%lookup_insert_Some Hlq Hj.
      * rewrite lookup_insert_ne.
        2:{ intros E. apply (f_equal length) in E. rewrite !length_app in E. simpl in E. lia. }
        destruct (T !! ((p ++ [i]) ++ [j])) as [x|] eqn:Ex.
        { destruct (w_parent _ _ _ W _ _ _ Ex) as [[y Hy] _]. congruence. }
        by rewrite Hz.
      * pose proof (w_entries _ _ _ W q h j Hq Hlq Hj) as E.
        destruct (decide (p ++ [i] = q ++ [j])) as [E1|E1].
        -- rewrite E1, lookup_insert_eq. apply app_inj_tail in E1 as [<- <-].
           assert (h = f) as -> by congruence. exact Hself.
        -- rewrite lookup_insert_ne by done. rewrite Hw; [done|done|by apply (Hne q)|].
           destruct (decide (h = f)) as [->|]; [right|by left]. intros ->. apply E1.
           by rewrite (w_inj _ _ _ W p q f Hp Hq).
  - done.
  - intros va. unfold pte_of, slot. destruct (decide (p ++ [i] = [PX 2 va; PX 1 va])) as [E|E].
    + rewrite <- E, lookup_insert_eq, Hnone. apply Hz, PX_range.
    + rewrite lookup_insert_ne by done. destruct (T !! [PX 2 va; PX 1 va]) as [h|] eqn:Eh; [|done].
      apply Hw; [apply PX_range|by apply (Hne _ _ Eh)|left]. intros ->.
      pose proof (w_inj _ _ _ W _ _ _ Hp Eh) as ->. simpl in Hl. lia.
  - intros h rc Hh. simpl. rewrite lookup_insert_ne; [done|]. intros ->. congruence.
  - intros h x [rc Hh] Ht Hx. apply Hb.
    + assert (h <> f) by (intros ->; apply Ht; by exists p).
      unfold a, page_addr, PG_4K_SIZE in *; lia.
    + assert (h <> g) by (intros ->; congruence). unfold page_addr, PG_4K_SIZE in *; lia.
  - intros h (q & [[<- <-]|[_ Hq]]%lookup_insert_Some); [by right|left]. by exists q.
Qed.

(** One level with [create]. *)
Lemma walk_create level va k fr T p f :
  pt_wf k fr T -> T !! p = Some f -> (length p <= 1)%nat ->
  (exists k' fr' T' g, walk_level level (page_addr f) va true k = Ok (Some (page_addr g), k') /\
     pt_ext k fr T k' fr' T' /\ T' !! (p ++ [PX level va]) = Some g) \/
  (walk_level level (page_addr f) va true k = Ok (None, k) /\ fr_free fr = []).
Proof.
  intros W Hp Hl. pose proof (PX_range level va) as Hi.
  destruct (T !! (p ++ [PX level va])) as [g|] eqn:Eg.
  - left. exists k, fr, T, g. split; [by apply (walk_found level va k fr T p f g)|].
    split; [by apply pt_ext_refl|done].
  - pose proof (w_entries _ _ _ W p f _ Hp Hl Hi) as E. rewrite Eg in E.
    destruct (w_used _ _ _ W _ _ Hp) as [_ Hfr]. destruct (page_addr_range f Hfr).
    pose proof (alloc_page_spec _ _ (w_repr _ _ _ W)) as A. unfold spec_alloc in A.
    unfold walk_level, pte_addr. cbn [rdk wrk gets modify mbind' mret].
    rewrite u64_small by lia. rewrite E. cbn [negb Z.eqb].
    destruct (fr_free fr) as [|g l] eqn:Ef.
    + right. split; [|done]. cbn [mbind']. by rewrite A.
    + left. destruct A as (k1 & A & R1 & Hram).
      pose proof (pt_graft k fr T p f (PX level va) g l k1 W Hp Hl Hi Eg Ef R1 Hram) as G. clear Hram.
      assert (0 <= g < 2 ^ 49) as Hg.
      { destruct (w_used _ _ _ (x_wf _ _ _ _ _ _ G) (p ++ [PX level va]) g) as [_ Hg]; [|done].
        by rewrite lookup_insert_eq. }
      destruct (page_addr_range g Hg).
      eexists _, _, _, g. split; [|split; [exact G|by rewrite lookup_insert_eq]].
      cbn [mbind']. rewrite A. rewrite (proj2 (Z.eqb_neq (page_addr g) 0)) by lia. reflexivity.
Qed.

(** ** [pte_walk] *)
Lemma pte_walk_lookup k fr T r va :
  pt_wf k fr T -> T !! [] = Some r -> va <= MAX_VA ->
  pte_walk (page_addr r) va false k = Ok (default 0 (slot T va), k).
Proof.
  intros W Hr Hva. unfold pte_walk, slot. rewrite (proj2 (Z.ltb_ge _ _)) by lia. cbn [mbind' mret].
  destruct (T !! [PX 2 va]) as [f1|] eqn:E1.
  - rewrite (walk_found 2 va k fr T [] r f1) by (done || simpl; lia).
    destruct (T !! [PX 2 va; PX 1 va]) as [f0|] eqn:E0; cbn [mbind' mret].
    + rewrite (walk_found 1 va k fr T [PX 2 va] f1 f0) by (done || simpl; lia).
      destruct (w_used _ _ _ W _ _ E0) as [_ H0]. destruct (page_addr_range f0 H0).
      pose proof (PX_range 0 va). unfold pte_addr. rewrite u64_small by lia. done.
    + by rewrite (walk_missing 1 va k fr T [PX 2 va] f1) by (done || simpl; lia).
  - rewrite (walk_missing 2 va k fr T [] r) by (done || simpl; lia).
    destruct (T !! [PX 2 va; PX 1 va]) as [f0|] eqn:E0; [|done].
    destruct (w_parent _ _ _ W [PX 2 va] _ _ E0) as [[x Hx] _]. congruence.
Qed.

Lemma slot_pos k fr T va a : pt_wf k fr T -> slot T va = Some a -> 0 < a /\ a + 8 < 2 ^ 62.
Proof.
  unfold slot. intros W H. destruct (T !! _) as [f|] eqn:E; [|done]. injection H as <-.
  destruct (w_used _ _ _ W _ _ E) as [_ Hf]. destruct (page_addr_range f Hf).
  pose proof (PX_range 0 va). lia.
Qed.

Lemma pte_walk_create k fr T r va :
  pt_wf k fr T -> T !! [] = Some r -> va <= MAX_VA ->
  (exists a k' fr' T', pte_walk (page_addr r) va true k = Ok (a, k') /\ pt_ext k fr T k' fr' T' /\
     slot T' va = Some a) \/
  (exists k' fr' T', pte_walk (page_addr r) va true k = Ok (0, k') /\ pt_ext k fr T k' fr' T' /\
     fr_free fr' = []).
Proof.
  intros W Hr Hva. unfold pte_walk. rewrite (proj2 (Z.ltb_ge _ _)) by lia. cbn [mbind' mret].
  destruct (walk_create 2 va k fr T [] r W Hr) as [(k1 & fr1 & T1 & g1 & E1 & X1 & H1)|[E1 Hf]];
    [simpl; lia| |right].
  2:{ rewrite E1. exists k, fr, T. split; [done|]. split; [by apply pt_ext_refl|done]. }
  rewrite E1. cbn [mbind' mret].
  destruct (walk_create 1 va k1 fr1 T1 [PX 2 va] g1 (x_wf _ _ _ _ _ _ X1) H1)
    as [(k2 & fr2 & T2 & g2 & E2 & X2 & H2)|[E2 Hf]]; [simpl; lia|left|right]; rewrite E2.
  - pose proof (pt_ext_trans _ _ _ _ _ _ _ _ _ X1 X2) as X.
    exists (page_addr g2 + 8 * PX 0 va), k2, fr2, T2.
    destruct (w_used _ _ _ (x_wf _ _ _ _ _ _ X) _ _ H2) as [_ Hg]. destruct (page_addr_range g2 Hg).
    pose proof (PX_range 0 va). split; [|split; [done|]].
    + unfold pte_addr. rewrite u64_small by lia. done.
    + unfold slot. simpl in H2. by rewrite H2.
  - exists k1, fr1, T1. done.
Qed.

(** ** Virtual page numbers *)
Definition vpn (va : Z) : Z := va / 4096.

Lemma PX_eq level va : 0 <= level -> PX level va = va / 2 ^ (12 + 9 * level) mod 512.
Proof.
  intros. unfold PX, PXMASK, PXSHIFT, PGSHIFT. change 0x1FF with (Z.ones 9).
  rewrite Z.land_ones by lia. rewrite Z.shiftr_div_pow2 by lia. done.
Qed.

Lemma PX_decompose va :
  0 <= va < 2 ^ 39 -> vpn va = (PX 2 va * 512 + PX 1 va) * 512 + PX 0 va.
Proof.
  intros H. rewrite !PX_eq by lia. unfold vpn.
  change (2 ^ (12 + 9 * 2)) with 1073741824. change (2 ^ (12 + 9 * 1)) with 2097152.
  change (2 ^ (12 + 9 * 0)) with 4096. change (2 ^ 39) with 549755813888 in H.
  Z.div_mod_to_equations. lia.
Qed.

Lemma slot_vpn T va va' :
  0 <= va < 2 ^ 39 -> 0 <= va' < 2 ^ 39 -> vpn va = vpn va' ->
  PX 2 va = PX 2 va' /\ PX 1 va = PX 1 va' /\ PX 0 va = PX 0 va' /\ slot T va = slot T va'.
Proof.
  intros H1 H2 E. rewrite (PX_decompose va), (PX_decompose va') in E by done.
  pose proof (PX_range 2 va). pose proof (PX_range 1 va). pose proof (PX_range 0 va).
  pose proof (PX_range 2 va'). pose proof (PX_range 1 va'). pose proof (PX_range 0 va').
  assert (PX 2 va = PX 2 va') as E2 by lia. assert (PX 1 va = PX 1 va') as E1 by lia.
  assert (PX 0 va = PX 0 va') as E0 by lia. split_and!; [done..|]. unfold slot. by rewrite E2, E1, E0.
Qed.

(** Different pages have different slots. *)
Lemma slot_inj k fr T va va' a a' :
  pt_wf k fr T -> 0 <= va < 2 ^ 39 -> 0 <= va' < 2 ^ 39 ->
  slot T va = Some a -> slot T va' = Some a' -> vpn va <> vpn va' ->
  a + 8 <= a' \/ a' + 8 <= a.
Proof.
  unfold slot. intros W H1 H2 Ea Ea' Hne.
  destruct (T !! [PX 2 va; PX 1 va]) as [f|] eqn:E1; [|done]. injection Ea as <-.
  destruct (T !! [PX 2 va'; PX 1 va']) as [f'|] eqn:E2; [|done]. injection Ea' as <-.
  pose proof (PX_range 0 va). pose proof (PX_range 0 va').
  destruct (decide (f = f')) as [->|Hf].
  - pose proof (w_inj _ _ _ W _ _ _ E1 E2) as E. injection E as E3 E4.
    assert (PX 0 va <> PX 0 va') as H5; [|lia]. intros E5. apply Hne.
    rewrite (PX_decompose va), (PX_decompose va') by done. congruence.
  - unfold page_addr, PG_4K_SIZE. lia.
Qed.

(** Storing a leaf entry. *)
Lemma pt_store k fr T va a v :
  pt_wf k fr T -> 0 <= va < 2 ^ 39 -> slot T va = Some a ->
  let k' := set_ram (st64 (km_ram k) a v) k in
  pt_wf k' fr T /\
  (forall va', 0 <= va' < 2 ^ 39 ->
     pte_of (km_ram k') T va' = if decide (vpn va' = vpn va) then u64 v else pte_of (km_ram k) T va') /\
  (forall f x, ~ tbl T f -> page_addr f <= x < page_addr f + 4096 ->
     ldb (km_ram k') x = ldb (km_ram k) x).
Proof.
  intros W Hva Ha k'.
  assert (exists f0, T !! [PX 2 va; PX 1 va] = Some f0 /\ a = page_addr f0 + 8 * PX 0 va)
    as (f0 & H0 & Ea).
  { unfold slot in Ha. destruct (T !! _) as [f0|]; [|done]. injection Ha as <-. eauto. }
  pose proof (PX_range 0 va) as R0. split; [|split].
  - destruct W as [Wr Wroot Wd Wu Wi Wp We]. split; try done; [by apply repr_set_ram|].
    intros p f i Hp Hl Hi. specialize (We p f i Hp Hl Hi).
    assert (ld64 (km_ram k') (page_addr f + 8 * i) = ld64 (km_ram k) (page_addr f + 8 * i)) as ->; [|done].
    apply ld64_st64_disjoint. subst a. assert (f <> f0).
    { intros ->. pose proof (Wi _ _ _ Hp H0) as ->. simpl in Hl. lia. }
    unfold page_addr, PG_4K_SIZE. lia.
  - intros va' Hva'. unfold pte_of. case_decide as Hd.
    + destruct (slot_vpn T va' va Hva' Hva Hd) as (_ & _ & _ & ->). rewrite Ha. apply ld64_st64_same.
    + destruct (slot T va') as [a'|] eqn:Ea'; [|done]. apply ld64_st64_disjoint.
      destruct (slot_inj k fr T va va' a a' W Hva Hva' Ha Ea'); [congruence|lia|lia].
  - intros f x Ht Hx. apply ldb_st64_ne. subst a.
    assert (f <> f0) by (intros ->; apply Ht; by exists [PX 2 va; PX 1 va]).
    unfold page_addr, PG_4K_SIZE in *. lia.
Qed.

(** ** Mapping a range *)
Record pt_grow (k : kmem) (fr : frames) (T : ptree) (k' : kmem) (fr' : frames) (T' : ptree) : Prop := {
  g_wf : pt_wf k' fr' T';
  g_sub : T ⊆ T';
  g_used : forall f rc, fr_used fr !! f = Some rc -> fr_used fr' !! f = Some rc;
  g_words : forall f x, is_Some (fr_used fr !! f) -> ~ tbl T f ->
    page_addr f <= x < page_addr f + 4096 -> ldb (km_ram k') x = ldb (km_ram k) x;
  g_tbl : forall f, tbl T' f -> tbl T f \/ fr_used fr !! f = None }.

Lemma ext_grow k fr T k' fr' T' : pt_ext k fr T k' fr' T' -> pt_grow k fr T k' fr' T'.
Proof. intros []. by split. Qed.

Lemma pt_grow_refl k fr T : pt_wf k fr T -> pt_grow k fr T k fr T.
Proof. intros W. by apply ext_grow, pt_ext_refl. Qed.

Lemma pt_grow_trans k1 f1 T1 k2 f2 T2 k3 f3 T3 :
  pt_grow k1 f1 T1 k2 f2 T2 -> pt_grow k2 f2 T2 k3 f3 T3 -> pt_grow k1 f1 T1 k3 f3 T3.
Proof.
  intros A B. split.
  - apply B.
  - etrans; [apply A|apply B].
  - intros f rc Hf. apply B, A, Hf.
  - intros f x [rc Hf] Hn Hx.
    rewrite (g_words _ _ _ _ _ _ B f x); [by apply (g_words _ _ _ _ _ _ A f)|..]; try done.
    + exists rc. by apply A.
    + intros Ht. destruct (g_tbl _ _ _ _ _ _ A f Ht) as [|Hnone]; [done|congruence].
  - intros f Hf. destruct (g_tbl _ _ _ _ _ _ B f Hf) as [Hf2|Hn].
    + by apply (g_tbl _ _ _ _ _ _ A).
    + right. destruct (fr_used f1 !! f) as [rc|] eqn:E; [|done].
      apply (g_used _ _ _ _ _ _ A) in E. congruence.
Qed.

Lemma store_grow k fr T va a v :
  pt_wf k fr T -> 0 <= va < 2 ^ 39 -> slot T va = Some a ->
  pt_grow k fr T (set_ram (st64 (km_ram k) a v) k) fr T.
Proof.
  intros W Hva Ha. destruct (pt_store k fr T va a v W Hva Ha) as (W' & _ & Hx).
  split; try done; [|auto]. intros f x _ Ht. by apply Hx.
Qed.

Definition map_pte (pa perm : Z) : Z := Z.lor (Z.lor (PA2PTE pa) perm) PTE_V.

Lemma map_pte_range pa perm : 0 <= pa < 2 ^ 64 -> 0 <= perm < 1024 -> u64 (map_pte pa perm) = map_pte pa perm.
Proof.
  intros Hp Hf. apply u64_small. unfold map_pte. rewrite <- Z.lor_assoc.
  apply pte_pa; [done|]. split; [apply Z.lor_nonneg; unfold PTE_V; lia|].
  assert (Z.lor perm PTE_V <> 0 -> Z.log2 (Z.lor perm PTE_V) < 10) as Hl.
  { intros _. rewrite Z.log2_lor by (unfold PTE_V; lia). apply Z.max_lub_lt; [|simpl; lia].
    destruct (decide (perm = 0)) as [->|]; [simpl; lia|]. apply Z.log2_lt_pow2; lia. }
  destruct (decide (Z.lor perm PTE_V = 0)) as [->|Hn]; [lia|].
  apply (Z.log2_lt_pow2 (Z.lor perm PTE_V) 10); [|by apply Hl].
  pose proof (proj2 (Z.lor_nonneg perm PTE_V)). unfold PTE_V in *. lia.
Qed.

(** [m'] and [T'] are [m] and [T] with [j] pages from [a] mapped to [pa]. *)
Definition mapped (m : ram) (T : ptree) (m' : ram) (T' : ptree) (a j pa perm : Z) : Prop :=
  forall va, 0 <= va < 2 ^ 39 ->
    pte_of m' T' va =
    if decide (vpn a <= vpn va < vpn a + j)
    then map_pte (pa + (vpn va - vpn a) * 4096) perm else pte_of m T va.

Definition valid (e : Z) : bool := negb (Z.land e PTE_V =? 0).

Lemma vpn_step a : vpn (a + 4096) = vpn a + 1.
Proof. unfold vpn. Z.div_mod_to_equations. lia. Qed.

Lemma vpn_pages a i : vpn (a + 4096 * i) = vpn a + i.
Proof. unfold vpn. replace (4096 * i) with (i * 4096) by lia. by rewrite Z.div_add by lia. Qed.

(** The first page of the loop: the walk, the check and the store. *)
Lemma map_first n k fr T r a pa last perm :
  pt_wf k fr T -> T !! [] = Some r -> 0 <= a < MAX_VA -> 0 <= pa < 2 ^ 64 -> 0 <= perm < 1024 ->
  (exists k' fr' T',
     map_loop (S n) (page_addr r) a pa last perm k =
       (if a =? last then Ok (0, k')
        else map_loop n (page_addr r) (u64 (a + PG_4K_SIZE)) (u64 (pa + PG_4K_SIZE)) last perm k') /\
     pt_grow k fr T k' fr' T' /\ mapped (km_ram k) T (km_ram k') T' a 1 pa perm /\
     valid (pte_of (km_ram k) T a) = false) \/
  (map_loop (S n) (page_addr r) a pa last perm k = Halt /\ valid (pte_of (km_ram k) T a) = true) \/
  (exists k' fr' T', map_loop (S n) (page_addr r) a pa last perm k = Ok (-1, k') /\
     pt_ext k fr T k' fr' T' /\ fr_free fr' = []).
Proof.
  intros W Hr Ha Hpa Hperm. change MAX_VA with (2 ^ 38) in Ha. cbn [map_loop mbind' mret].
  destruct (pte_walk_create k fr T r a W Hr) as [(p & k1 & fr1 & T1 & E1 & X1 & S1)|(k1 & fr1 & T1 & E1 & X1 & F1)];
    [change MAX_VA with (2 ^ 38); lia|..]; rewrite E1.
  2:{ right. right. exists k1, fr1, T1. done. }
  pose proof (x_wf _ _ _ _ _ _ X1) as W1.
  pose proof (slot_pos _ _ _ _ _ W1 S1). rewrite (proj2 (Z.eqb_neq p 0)) by lia.
  cbn [rdk wrk gets modify mbind' mret].
  assert (ld64 (km_ram k1) p = pte_of (km_ram k) T a) as Ep.
  { rewrite <- (x_pte _ _ _ _ _ _ X1 a). unfold pte_of. by rewrite S1. }
  rewrite Ep. fold (valid (pte_of (km_ram k) T a)).
  destruct (valid (pte_of (km_ram k) T a)) eqn:V; [by right; left|left].
  cbn [wrk modify mbind' mret]. fold (map_pte pa perm).
  pose proof (store_grow k1 fr1 T1 a p (map_pte pa perm) W1 ltac:(lia) S1) as G2.
  destruct (pt_store k1 fr1 T1 a p (map_pte pa perm) W1 ltac:(lia) S1) as (_ & P2 & _).
  eexists _, fr1, T1. split; [by destruct (a =? last)|]. split; [|split; [|done]].
  - eapply pt_grow_trans; [by apply ext_grow|exact G2].
  - intros va Hva. rewrite P2 by done. rewrite map_pte_range by done.
    destruct (decide (vpn va = vpn a)) as [E|E].
    + rewrite decide_True by lia. f_equal. lia.
    + rewrite decide_False by lia. apply (x_pte _ _ _ _ _ _ X1).
Qed.

Lemma map_loop_spec n k fr T r a pa last perm :
  pt_wf k fr T -> T !! [] = Some r -> 0 <= a -> a + Z.of_nat (S n) * 4096 <= MAX_VA ->
  0 <= pa -> pa + Z.of_nat (S n) * 4096 < 2 ^ 64 -> 0 <= perm < 1024 ->
  last = a + Z.of_nat n * 4096 ->
  (forall i, 0 <= i <= Z.of_nat n -> valid (pte_of (km_ram k) T (a + 4096 * i)) = false) ->
  exists k' fr' T' res, map_loop (S n) (page_addr r) a pa last perm k = Ok (res, k') /\
    pt_grow k fr T k' fr' T' /\
    ((res = 0 /\ mapped (km_ram k) T (km_ram k') T' a (Z.of_nat (S n)) pa perm) \/
     (res = -1 /\ fr_free fr' = [] /\ exists j, 0 <= j <= Z.of_nat n /\
        mapped (km_ram k) T (km_ram k') T' a j pa perm)).
Proof.
  revert k fr T a pa. induction n as [|n IH]; intros k fr T a pa W Hr Ha Hlim Hpa Hpl Hperm El Hv;
    change MAX_VA with (2 ^ 38) in *;
    pose proof (Hv 0 ltac:(lia)) as Hv0; rewrite Z.mul_0_r, Z.add_0_r in Hv0.
  - destruct (map_first 0 k fr T r a pa last perm W Hr)
      as [(k1 & fr1 & T1 & E1 & G1 & M1 & _)|[[_ V]|(k1 & fr1 & T1 & E1 & X1 & F1)]];
      [change MAX_VA with (2 ^ 38); lia|lia|done|..]; [|congruence|].
    + rewrite E1, (proj2 (Z.eqb_eq a last)) by lia. exists k1, fr1, T1, 0.
      split; [done|]. split; [done|]. by left.
    + rewrite E1. exists k1, fr1, T1, (-1). split; [done|]. split; [by apply ext_grow|]. right.
      split; [done|]. split; [done|]. exists 0. split; [lia|]. intros va Hva.
      rewrite decide_False by lia. apply (x_pte _ _ _ _ _ _ X1).
  - destruct (map_first (S n) k fr T r a pa last perm W Hr)
      as [(k1 & fr1 & T1 & E1 & G1 & M1 & _)|[[_ V]|(k1 & fr1 & T1 & E1 & X1 & F1)]];
      [change MAX_VA with (2 ^ 38); lia|lia|done|..]; [|congruence|].
    + rewrite E1, (proj2 (Z.eqb_neq a last)) by lia. unfold PG_4K_SIZE.
      rewrite !u64_small by lia.
      destruct (IH k1 fr1 T1 (a + 4096) (pa + 4096)) as (k2 & fr2 & T2 & res & E2 & G2 & H2);
        try lia; [apply (g_wf _ _ _ _ _ _ G1)|by apply (lookup_weaken T), (g_sub _ _ _ _ _ _ G1)| |].
      { intros i Hi. rewrite (M1 (a + 4096 + 4096 * i)) by lia.
        replace (a + 4096 + 4096 * i) with (a + 4096 * (i + 1)) by lia.
        rewrite vpn_pages, decide_False by lia. apply Hv. lia. }
      exists k2, fr2, T2, res. split; [done|]. split; [by eapply pt_grow_trans|].
      assert (forall j, 0 <= j -> mapped (km_ram k1) T1 (km_ram k2) T2 (a + 4096) j (pa + 4096) perm ->
                mapped (km_ram k) T (km_ram k2) T2 a (j + 1) pa perm) as Hj.
      { intros j Hj0 M2 va Hva. rewrite (M2 va Hva), (M1 va Hva), vpn_step.
        destruct (decide (vpn a + 1 <= vpn va < vpn a + 1 + j)) as [D|D].
        - rewrite decide_True by lia. f_equal. lia.
        - destruct (decide (vpn a <= vpn va < vpn a + 1)) as [D'|D'].
          + rewrite decide_True by lia. done.
          + rewrite decide_False by lia. done. }
      destruct H2 as [[-> M2]|(-> & F2 & j & Hj0 & M2)]; [left|right].
      * split; [done|]. replace (Z.of_nat (S (S n))) with (Z.of_nat (S n) + 1) by lia.
        apply Hj; [lia|done].
      * split; [done|]. split; [done|]. exists (j + 1). split; [lia|]. apply Hj; [lia|done].
    + rewrite E1. exists k1, fr1, T1, (-1). split; [done|]. split; [by apply ext_grow|]. right.
      split; [done|]. split; [done|]. exists 0. split; [lia|]. intros va Hva.
      rewrite decide_False by lia. apply (x_pte _ _ _ _ _ _ X1).
Qed.
