(* ===== verification/VmUnmap.v ===== *)
(** Unmapping, translating and copying (Vm.v) against the trees of VmSpec.v. *)
From stdpp Require Import base gmap list.
From Stdlib Require Import ZArith Lia.
From S2P Require Import Prelude Bytes Pages PageInit Vm VmSpec.
Open Scope Z_scope.

(** [free_page] writes only the page it frees. *)
Lemma free_page_words s a i rc s' r x :
  repr s a -> fr_used a !! i = Some rc -> free_page (page_addr i) s = Ok (r, s') ->
  (x < page_addr i \/ page_addr i + 4096 <= x) -> ldb (km_ram s') x = ldb (km_ram s) x.
Proof.
  intros R Hu E Hx. destruct (r_used _ _ R _ _ Hu) as (p & Hp & Hfl & Hr & Hb & Hrg).
  pose proof (repr_not_bad _ _ _ R Hrg) as Hok. destruct (r_desc _ _ R _ _ Hp) as (Hi & Hpa & _).
  pose proof (page_addr_index i ltac:(lia)) as Hix.
  destruct (decide (1 < rc)) as [Hrc|Hrc].
  - rewrite (free_page_shared s _ p) in E; rewrite ?Hix; [|done..|lia]. by injection E as <- <-.
  - assert (rc = 1) as -> by lia.
    rewrite (free_page_last s _ p) in E; rewrite ?Hix; [|done..|].
    2:{ intros t Ht. rewrite (r_tail _ _ R) in Ht.
        destruct (r_free _ _ R t) as (q & -> & _); [|done].
        eapply lseg_last_mem; [apply (r_list _ _ R)|done]. }
    injection E as <- <-. cbn [km_ram set_ram]. rewrite Hpa. by apply ldb_memset_ne.
Qed.

(** Releasing a frame that is not a table keeps the tree. *)
Lemma free_wf k fr T f rc :
  pt_wf k fr T -> fr_used fr !! f = Some rc -> ~ tbl T f ->
  exists k', kfree (page_addr f) k = Ok (0, k') /\ pt_wf k' (spec_free f rc fr) T /\
    (forall x, (x < page_addr f \/ page_addr f + 4096 <= x) -> ldb (km_ram k') x = ldb (km_ram k) x).
Proof.
  intros W Hu Ht. destruct (free_page_spec _ _ _ _ (w_repr _ _ _ W) Hu) as (k' & E & R').
  exists k'. split; [done|].
  assert (forall x, (x < page_addr f \/ page_addr f + 4096 <= x) -> ldb (km_ram k') x = ldb (km_ram k) x)
    as Hx by (intros x; exact (free_page_words k fr f rc k' 0 x (w_repr _ _ _ W) Hu E)).
  split; [|done]. destruct W as [Wr Wroot Wd Wu Wi Wp We]. split; try done.
  - intros p g Hg. destruct (Wu p g Hg) as [[rcg Hug] Hgr]. split; [|done].
    assert (g <> f) by (intros ->; apply Ht; by exists p). unfold spec_free.
    destruct (1 <? rc); simpl; [rewrite lookup_insert_ne|rewrite lookup_delete_ne]; eauto.
  - intros p g i Hp Hl Hi. specialize (We p g i Hp Hl Hi).
    assert (ld64 (km_ram k') (page_addr g + 8 * i) = ld64 (km_ram k) (page_addr g + 8 * i)) as ->; [|done].
    apply ld64_ext. intros y Hy. apply Hx. assert (g <> f) by (intros ->; apply Ht; by exists p).
    unfold page_addr, PG_4K_SIZE in *. lia.
Qed.

Lemma pte_of_ext m m' T va :
  (forall a, slot T va = Some a -> forall y, a <= y < a + 8 -> ldb m' y = ldb m y) ->
  pte_of m' T va = pte_of m T va.
Proof.
  intros H. unfold pte_of. destruct (slot T va) as [a|] eqn:E; [|done]. apply ld64_ext. by apply H.
Qed.

Lemma slot_in_table T va a :
  slot T va = Some a -> exists f, tbl T f /\ page_addr f <= a /\ a + 8 <= page_addr f + 4096.
Proof.
  unfold slot. destruct (T !! _) as [f|] eqn:E; [|done]. intros [= <-]. pose proof (PX_range 0 va).
  exists f. split; [by eexists|]. lia.
Qed.

(** Words of frames that are not tables do not affect translation. *)
Lemma pte_of_frame m m' T va f :
  ~ tbl T f -> (forall y, (y < page_addr f \/ page_addr f + 4096 <= y) -> ldb m' y = ldb m y) ->
  pte_of m' T va = pte_of m T va.
Proof.
  intros Ht H. apply pte_of_ext. intros a Ha y Hy. apply H.
  destruct (slot_in_table T va a Ha) as (g & Hg & ? & ?).
  assert (g <> f) by (by intros ->). unfold page_addr, PG_4K_SIZE in *. lia.
Qed.

(** ** [pg_unmap] *)

(** [m', T] is [m, T] with the entries of [n] pages from [a] cleared. *)
Definition cleared (m m' : ram) (T : ptree) (a n : Z) : Prop :=
  forall va, 0 <= va < 2 ^ 39 ->
    if decide (vpn a <= vpn va < vpn a + n) then valid (pte_of m' T va) = false
    else pte_of m' T va = pte_of m T va.

Lemma unmap_page_spec k fr T r a (do_free : bool) :
  pt_wf k fr T -> T !! [] = Some r -> 0 <= a <= MAX_VA ->
  (valid (pte_of (km_ram k) T a) = true -> do_free = true ->
     exists f rc, PTE2PA (pte_of (km_ram k) T a) = page_addr f /\ fr_used fr !! f = Some rc /\ ~ tbl T f) ->
  exists k' fr', unmap_page (page_addr r) a do_free k = Ok (tt, k') /\ pt_wf k' fr' T /\
    cleared (km_ram k) (km_ram k') T a 1 /\
    (if valid (pte_of (km_ram k) T a) && do_free
     then exists f rc, PTE2PA (pte_of (km_ram k) T a) = page_addr f /\ fr_used fr !! f = Some rc /\
            fr' = spec_free f rc fr
     else fr' = fr).
Proof.
  intros W Hr Ha Hf. change MAX_VA with (2 ^ 38) in Ha. unfold unmap_page. cbn [mbind' mret].
  rewrite (pte_walk_lookup k fr T r a W Hr) by (change MAX_VA with (2 ^ 38); lia).
  assert (cleared (km_ram k) (km_ram k) T a 1 \/ valid (pte_of (km_ram k) T a) = true) as Hc.
  { destruct (valid (pte_of (km_ram k) T a)) eqn:V; [by right|left]. intros va Hva.
    case_decide as D; [|done]. unfold pte_of.
    destruct (slot_vpn T va a) as (_ & _ & _ & ->); [lia..|]. exact V. }
  destruct (slot T a) as [p|] eqn:Sl;
    [change (default 0 (Some p)) with p|change (default 0 (@None Z)) with 0].
  2:{ assert (pte_of (km_ram k) T a = 0) as E0 by (unfold pte_of; by rewrite Sl).
      rewrite E0 in *. exists k, fr. split; [done|]. split; [done|]. split; [|done].
      by destruct Hc. }
  pose proof (slot_pos _ _ _ _ _ W Sl). rewrite (proj2 (Z.eqb_neq p 0)) by lia.
  cbn [rdk wrk gets modify mbind' mret].
  assert (ld64 (km_ram k) p = pte_of (km_ram k) T a) as Ep by (unfold pte_of; by rewrite Sl).
  rewrite Ep. destruct (valid (pte_of (km_ram k) T a)) eqn:V.
  2:{ unfold valid in V. apply negb_false_iff in V. rewrite V. exists k, fr. split; [done|].
      split; [done|]. split; [by destruct Hc|done]. }
  assert ((Z.land (pte_of (km_ram k) T a) PTE_V =? 0) = false) as V' by (by apply negb_true_iff).
  rewrite V'. cbn [andb]. cbn [mbind' mret].
  assert (forall k1 fr1, pt_wf k1 fr1 T -> (forall va, pte_of (km_ram k1) T va = pte_of (km_ram k) T va) ->
    pt_wf (set_ram (st64 (km_ram k1) p 0) k1) fr1 T /\
    cleared (km_ram k) (st64 (km_ram k1) p 0) T a 1) as Hst.
  { intros k1 fr1 W1 P1. destruct (pt_store k1 fr1 T a p 0 W1 ltac:(lia) Sl) as (W2 & P2 & _).
    split; [done|]. intros va Hva. cbn [km_ram set_ram] in P2. rewrite (P2 va Hva).
    destruct (decide (vpn a <= vpn va < vpn a + 1)) as [D|D].
    - by rewrite decide_True by lia.
    - rewrite decide_False by lia. apply P1. }
  destruct do_free.
  - destruct (Hf eq_refl eq_refl) as (f & rc & Ef & Hu & Ht). rewrite Ef.
    destruct (free_wf k fr T f rc W Hu Ht) as (k1 & E1 & W1 & X1). rewrite E1.
    destruct (Hst k1 _ W1) as [W2 C2]; [intros va; by apply (pte_of_frame _ _ _ _ f)|].
    eexists _, (spec_free f rc fr). split; [reflexivity|]. split; [done|]. split; [done|]. eauto 10.
  - destruct (Hst k fr W) as [W2 C2]; [done|].
    eexists _, fr. split; [reflexivity|]. done.
Qed.

(** The pages of a range that are mapped own distinct, singly referenced
    frames that hold no table. *)
Record owned_range (m : ram) (fr : frames) (T : ptree) (a n : Z) : Prop := {
  or_frame : forall i, 0 <= i < n -> valid (pte_of m T (a + 4096 * i)) = true ->
    exists f, PTE2PA (pte_of m T (a + 4096 * i)) = page_addr f /\ fr_used fr !! f = Some 1 /\ ~ tbl T f;
  or_inj : forall i j, 0 <= i < n -> 0 <= j < n -> i <> j ->
    valid (pte_of m T (a + 4096 * i)) = true -> valid (pte_of m T (a + 4096 * j)) = true ->
    PTE2PA (pte_of m T (a + 4096 * i)) <> PTE2PA (pte_of m T (a + 4096 * j)) }.

Definition freed (m : ram) (T : ptree) (a n f : Z) : Prop :=
  exists i, 0 <= i < n /\ valid (pte_of m T (a + 4096 * i)) = true /\
    PTE2PA (pte_of m T (a + 4096 * i)) = page_addr f.

Lemma unmap_loop_spec (n : nat) k fr T r a lim (do_free : bool) :
  pt_wf k fr T -> T !! [] = Some r -> 0 <= a -> lim = a + Z.of_nat n * 4096 -> lim <= MAX_VA ->
  (do_free = true -> owned_range (km_ram k) fr T a (Z.of_nat n)) ->
  exists k' fr', unmap_loop (S n) (page_addr r) a lim do_free k = Ok (tt, k') /\ pt_wf k' fr' T /\
    cleared (km_ram k) (km_ram k') T a (Z.of_nat n) /\
    (do_free = false -> fr' = fr) /\
    (forall f, (do_free = true /\ freed (km_ram k) T a (Z.of_nat n) f -> fr_used fr' !! f = None) /\
               (~ freed (km_ram k) T a (Z.of_nat n) f -> fr_used fr' !! f = fr_used fr !! f)).
Proof.
  revert k fr a. induction n as [|n IH]; intros k fr a W Hr Ha El Hlim Ho; cbn [unmap_loop].
  - rewrite (proj2 (Z.ltb_ge _ _)) by lia. exists k, fr. split; [done|]. split; [done|].
    split; [intros va Hva; by rewrite decide_False by lia|]. split; [done|].
    intros f. split; [|done]. intros (_ & i & Hi & _). lia.
  - change MAX_VA with (2 ^ 38) in *. rewrite (proj2 (Z.ltb_lt _ _)) by lia. cbn [mbind'].
    pose proof (fun E => or_frame _ _ _ _ _ (Ho E) 0 ltac:(lia)) as Ho0.
    rewrite Z.mul_0_r, Z.add_0_r in Ho0.
    destruct (unmap_page_spec k fr T r a do_free W Hr) as (k1 & fr1 & E1 & W1 & C1 & F1).
    { change MAX_VA with (2 ^ 38). lia. }
    { intros V D. destruct (Ho0 D V) as (f & ? & ? & ?). eauto. }
    rewrite E1. unfold PG_4K_SIZE. rewrite u64_small by lia.
    assert (forall i, 0 <= i < Z.of_nat n ->
      pte_of (km_ram k1) T (a + 4096 + 4096 * i) = pte_of (km_ram k) T (a + 4096 * (i + 1))) as Hsame.
    { intros i Hi. specialize (C1 (a + 4096 * (i + 1)) ltac:(lia)).
      rewrite vpn_pages, decide_False in C1 by lia. rewrite <- C1. f_equal. lia. }
    assert (forall f, PTE2PA (pte_of (km_ram k) T a) = page_addr f ->
      valid (pte_of (km_ram k) T a) = true -> do_free = true -> fr_used fr1 !! f = None) as Hgone.
    { intros f Ef V ->. rewrite V in F1. destruct F1 as (f' & rc & Ef' & Hu & ->).
      assert (f' = f) as -> by (apply page_addr_inj; congruence).
      destruct (Ho0 eq_refl V) as (f2 & Ef2 & Hu2 & _).
      assert (f2 = f) as -> by (apply page_addr_inj; congruence).
      assert (rc = 1) as -> by congruence. simpl. by rewrite lookup_delete_eq. }
    assert (forall f, ~ (valid (pte_of (km_ram k) T a) = true /\ do_free = true /\
      PTE2PA (pte_of (km_ram k) T a) = page_addr f) -> fr_used fr1 !! f = fr_used fr !! f) as Hkeep.
    { intros f Hn. destruct (valid (pte_of (km_ram k) T a)) eqn:V, do_free; simpl in F1;
        try by (subst fr1). destruct F1 as (f' & rc & Ef' & Hu & ->).
      assert (f' <> f) by (intros ->; apply Hn; done). unfold spec_free.
      destruct (1 <? rc); simpl; [by rewrite lookup_insert_ne|by rewrite lookup_delete_ne]. }
    destruct (IH k1 fr1 (a + 4096) W1 Hr) as (k2 & fr2 & E2 & W2 & C2 & D2 & U2);
      [lia|lia|change MAX_VA with (2 ^ 38); lia| |].
    { intros D. specialize (Ho D). split.
      - intros i Hi V. rewrite Hsame in * by done.
        destruct (or_frame _ _ _ _ _ Ho (i + 1) ltac:(lia) V) as (f & Ef & Hu & Ht).
        exists f. split; [done|]. split; [|done]. rewrite Hkeep; [done|].
        intros (V0 & _ & E0). apply (or_inj _ _ _ _ _ Ho 0 (i + 1)); [lia|lia|lia|..];
          rewrite ?Z.mul_0_r, ?Z.add_0_r; [done|done|congruence].
      - intros i j Hi Hj Hne Vi Vj. rewrite !Hsame in * by done.
        apply (or_inj _ _ _ _ _ Ho); [lia|lia|lia|done|done]. }
    assert (forall f, freed (km_ram k) T a (Z.of_nat (S n)) f <->
      (valid (pte_of (km_ram k) T a) = true /\ PTE2PA (pte_of (km_ram k) T a) = page_addr f) \/
      freed (km_ram k1) T (a + 4096) (Z.of_nat n) f) as Hfreed.
    { intros f. split.
      - intros (i & Hi & V & E). destruct (decide (i = 0)) as [->|Hi0].
        + rewrite Z.mul_0_r, Z.add_0_r in *. by left.
        + right. exists (i - 1). rewrite Hsame by lia. replace (i - 1 + 1) with i by lia.
          split; [lia|done].
      - intros [[V E]|(i & Hi & V & E)].
        + exists 0. rewrite Z.mul_0_r, Z.add_0_r. split; [lia|done].
        + rewrite Hsame in * by lia. exists (i + 1). split; [lia|done]. }
    exists k2, fr2. split; [done|]. split; [done|]. split; [|split].
    + intros va Hva. specialize (C2 va Hva). specialize (C1 va Hva). rewrite vpn_step in C2.
      destruct (decide (vpn a + 1 <= vpn va < vpn a + 1 + Z.of_nat n)) as [D|D].
      * rewrite decide_True by lia. done.
      * destruct (decide (vpn a <= vpn va < vpn a + 1)) as [D'|D'].
        -- rewrite decide_True by lia. by rewrite C2.
        -- rewrite decide_False by lia. congruence.
    + intros D. rewrite (D2 D). rewrite D in F1. by rewrite andb_false_r in F1.
    + intros f. rewrite Hfreed. destruct (U2 f) as [U2a U2b]. split.
      * intros (D & [[V E]|Hf]); [|by apply U2a].
        rewrite U2b; [by apply Hgone|]. intros (i & Hi & Vi & Ei). rewrite Hsame in * by lia.
        apply (or_inj _ _ _ _ _ (Ho D) 0 (i + 1)); [lia|lia|lia|..];
          rewrite ?Z.mul_0_r, ?Z.add_0_r; [done|done|congruence].
      * intros Hn. rewrite U2b by tauto. apply Hkeep. tauto.
Qed.

(** ** Translation *)
Lemma land_V_testbit e : (Z.land e PTE_V =? 0) = negb (Z.testbit e 0).
Proof. change PTE_V with (2 ^ 0). rewrite land_flag by lia. by destruct (Z.testbit e 0). Qed.
Lemma land_U_testbit e : (Z.land e PTE_U =? 0) = negb (Z.testbit e 4).
Proof. change PTE_U with (2 ^ 4). rewrite land_flag by lia. by destruct (Z.testbit e 4). Qed.
Lemma land_W_testbit e : (Z.land e PTE_W =? 0) = negb (Z.testbit e 2).
Proof. change PTE_W with (2 ^ 2). rewrite land_flag by lia. by destruct (Z.testbit e 2). Qed.

Lemma walkaddr_spec k fr T r va :
  pt_wf k fr T -> T !! [] = Some r -> 0 <= va ->
  walkaddr (page_addr r) va k =
  Ok (let e := pte_of (km_ram k) T va in
      if (va <? MAX_VA) && Z.testbit e 0 && Z.testbit e 4 then PTE2PA e else 0, k).
Proof.
  intros W Hr Ha. unfold walkaddr. rewrite Z.leb_antisym.
  destruct (va <? MAX_VA) eqn:E; breflect; cbn [negb andb]; [|done]. cbn [mbind' mret].
  rewrite (pte_walk_lookup k fr T r va W Hr) by lia. unfold pte_of.
  destruct (slot T va) as [p|] eqn:Sl; [change (default 0 (Some p)) with p|done].
  pose proof (slot_pos _ _ _ _ _ W Sl). rewrite (proj2 (Z.eqb_neq p 0)) by lia.
  cbn [rdk gets mbind' mret]. rewrite land_V_testbit, land_U_testbit.
  destruct (Z.testbit _ 0); cbn [negb andb]; [|done]. by destruct (Z.testbit _ 4).
Qed.

Lemma va2pa_spec k fr T r va :
  pt_wf k fr T -> T !! [] = Some r ->
  va2pa (page_addr r) va k =
  Ok (let e := pte_of (km_ram k) T va in
      if Z.testbit e 0 then Z.lor (PTE2PA e) (Z.land va 0xFFF) else u64 (-1), k).
Proof.
  intros W Hr. unfold va2pa, pte_of, slot. cbn [rdk gets mbind' mret].
  pose proof (PX_range 2 va). pose proof (PX_range 1 va). pose proof (PX_range 0 va).
  destruct (w_used _ _ _ W _ _ Hr) as [_ Hrr]. destruct (page_addr_range r Hrr).
  pose proof (w_entries _ _ _ W [] r (PX 2 va) Hr ltac:(simpl; lia) ltac:(lia)) as E2.
  unfold pte_addr. rewrite !(u64_small (page_addr r + 8 * PX 2 va)) by lia. simpl app in E2.
  destruct (T !! [PX 2 va]) as [f1|] eqn:L1.
  2:{ rewrite E2. change (0 =? 0) with true. cbv iota.
      destruct (T !! [PX 2 va; PX 1 va]) as [f0|] eqn:L0; [|done].
      destruct (w_parent _ _ _ W [PX 2 va] _ _ L0) as [[x Hx] _]. congruence. }
  destruct (w_used _ _ _ W _ _ L1) as [_ Hr1]. destruct (page_addr_range f1 Hr1).
  destruct (table_pte_spec f1 Hr1) as (P1 & P2 & _). rewrite E2, P2. change (1 =? 0) with false.
  cbn [rdk gets mbind' mret]. rewrite ?E2, P1.
  pose proof (w_entries _ _ _ W [PX 2 va] f1 (PX 1 va) L1 ltac:(simpl; lia) ltac:(lia)) as E1.
  simpl app in E1. rewrite (u64_small (page_addr f1 + 8 * PX 1 va)) by lia.
  destruct (T !! [PX 2 va; PX 1 va]) as [f0|] eqn:L0; [|by rewrite E1].
  destruct (w_used _ _ _ W _ _ L0) as [_ Hr0]. destruct (page_addr_range f0 Hr0).
  destruct (table_pte_spec f0 Hr0) as (Q1 & Q2 & _). rewrite E1, Q2. change (1 =? 0) with false.
  cbn [rdk gets mbind' mret]. rewrite ?E1, Q1, (u64_small (page_addr f0 + 8 * PX 0 va)) by lia.
  rewrite land_V_testbit. by destruct (Z.testbit _ 0).
Qed.
