(* ===== verification/VmCopy.v ===== *)
(** Copying across the user boundary (Vm.v): [copy_from_user], [copy_to_user]
    and [copy_str_from_user] against the user's view of memory. *)
From stdpp Require Import base gmap list.
From Stdlib Require Import ZArith Lia.
From S2P Require Import Prelude Bytes Pages PageInit Vm VmSpec VmUnmap.
Open Scope Z_scope.

(** The physical byte behind a user address, and the pages a copy may use. *)
Definition uaddr (m : ram) (T : ptree) (va : Z) : Z := PTE2PA (pte_of m T va) + va mod 4096.
Definition readable (m : ram) (T : ptree) (va : Z) : Prop :=
  Z.testbit (pte_of m T va) 0 = true /\ Z.testbit (pte_of m T va) 4 = true /\
  PTE2PA (pte_of m T va) <> 0.
Definition writable (m : ram) (T : ptree) (va : Z) : Prop :=
  readable m T va /\ Z.testbit (pte_of m T va) 2 = true.

(** [x] is a byte of a page table *)
Definition in_table (T : ptree) (x : Z) : Prop :=
  exists f, tbl T f /\ page_addr f <= x < page_addr f + 4096.

Lemma wf_write k fr T m' :
  pt_wf k fr T -> (forall x, in_table T x -> ldb m' x = ldb (km_ram k) x) ->
  pt_wf (set_ram m' k) fr T /\ (forall va, pte_of m' T va = pte_of (km_ram k) T va).
Proof.
  intros W H. split.
  - destruct W as [Wr Wroot Wd Wu Wi Wp We]. split; try done; [by apply repr_set_ram|].
    intros p f i Hp Hl Hi. specialize (We p f i Hp Hl Hi).
    assert (ld64 (km_ram (set_ram m' k)) (page_addr f + 8 * i) = ld64 (km_ram k) (page_addr f + 8 * i))
      as ->; [|done].
    apply ld64_ext. intros y Hy. apply H. exists f. split; [by exists p|lia].
  - intros va. apply pte_of_ext. intros a Ha y Hy. apply H.
    destruct (slot_in_table T va a Ha) as (f & Hf & ? & ?). exists f. split; [done|lia].
Qed.

Lemma round_down va : PGROUNDDOWN va = 4096 * vpn va.
Proof. unfold PGROUNDDOWN. by rewrite ldiff_page. Qed.

Lemma off_split va : va = 4096 * vpn va + va mod 4096 /\ 0 <= va mod 4096 < 4096.
Proof.
  unfold vpn. split; [apply Z.div_mod; lia|apply Z.mod_pos_bound; lia].
Qed.

Lemma vpn_of q o : 0 <= o < 4096 -> vpn (4096 * q + o) = q /\ (4096 * q + o) mod 4096 = o.
Proof.
  intros H. unfold vpn. split.
  - rewrite Z.mul_comm, Z.div_add_l, Z.div_small by lia. lia.
  - rewrite Z.mul_comm, Z.add_comm, Z.mod_add, Z.mod_small by lia. done.
Qed.

Lemma pte_of_page m T va va' :
  0 <= va < 2 ^ 39 -> 0 <= va' < 2 ^ 39 -> vpn va = vpn va' -> pte_of m T va = pte_of m T va'.
Proof. intros H1 H2 E. unfold pte_of. by destruct (slot_vpn T va va' H1 H2 E) as (_ & _ & _ & ->). Qed.

(** The chunk the loops copy from one page. *)
Definition chunk (va len : Z) : Z := Z.min len (4096 - va mod 4096).

Lemma chunk_bounds va len : 0 < len -> 0 < chunk va len <= len /\ va mod 4096 + chunk va len <= 4096.
Proof. unfold chunk. pose proof (off_split va). lia. Qed.

Lemma chunk_uaddr m T va len i :
  0 <= va -> va + len <= 2 ^ 38 -> 0 < len -> 0 <= i < chunk va len ->
  uaddr m T (va + i) = PTE2PA (pte_of m T va) + va mod 4096 + i /\ vpn (va + i) = vpn va.
Proof.
  intros Ha Hlim Hlen Hi. pose proof (chunk_bounds va len Hlen) as [Hc1 Hc2].
  destruct (off_split va) as [E Ho]. set (o := va mod 4096) in *. set (q := vpn va) in *.
  assert (va + i = 4096 * q + (o + i)) as Ei by lia.
  destruct (vpn_of q (o + i) ltac:(lia)) as [V1 V2]. unfold uaddr. rewrite Ei, V2, V1.
  split; [|done]. rewrite (pte_of_page m T (4096 * q + (o + i)) va); [lia|lia|lia|]. by rewrite V1.
Qed.

Lemma next_page va len :
  0 <= va -> va + len <= 2 ^ 38 -> 0 < len ->
  u64 (PGROUNDDOWN va + PG_4K_SIZE) = va - va mod 4096 + 4096 /\
  (chunk va len < len -> va - va mod 4096 + 4096 = va + chunk va len).
Proof.
  intros Ha Hlim Hlen. destruct (off_split va) as [E Ho]. rewrite round_down. unfold PG_4K_SIZE, chunk.
  rewrite u64_small by lia. lia.
Qed.

(** How many iterations a range needs. *)
Definition enough (fuel : nat) (va len : Z) : Prop :=
  0 < Z.of_nat fuel /\ (0 < len -> vpn (va + len - 1) - vpn va + 2 <= Z.of_nat fuel).

Lemma enough_next f va len :
  0 <= va -> va + len <= 2 ^ 38 -> 0 < len -> enough (S f) va len ->
  enough f (va - va mod 4096 + 4096) (len - chunk va len).
Proof.
  intros Ha Hlim Hlen [_ He]. specialize (He Hlen). destruct (off_split va) as [E Ho].
  assert (vpn va <= vpn (va + len - 1)) by (apply Z.div_le_mono; lia).
  split; [lia|]. intros Hl.
  destruct (next_page va len Ha Hlim Hlen) as [_ En]. rewrite En by lia.
  replace (va + chunk va len + (len - chunk va len) - 1) with (va + len - 1) by lia.
  assert (vpn (va + chunk va len) = vpn va + 1); [|lia]. rewrite <- En by lia.
  replace (va - va mod 4096 + 4096) with (4096 * (vpn va + 1) + 0) by lia.
  by apply vpn_of.
Qed.

Lemma user_page_mapped k fr T r t va type :
  pt_wf k fr T -> T !! [] = Some r -> 0 <= va < 2 ^ 38 -> readable (km_ram k) T va ->
  user_page (page_addr r) (PGROUNDDOWN va) type (mkVst k t)
  = Ok (Some (PTE2PA (pte_of (km_ram k) T va)), mkVst k t).
Proof.
  intros W Hr Ha (R1 & R2 & R3). unfold user_page, vz. cbn [mbind' mret zoom v_mem v_task].
  destruct (off_split va) as [E Ho]. rewrite round_down.
  rewrite (walkaddr_spec k fr T r (4096 * vpn va) W Hr) by lia. cbv zeta.
  rewrite (pte_of_page _ T (4096 * vpn va) va).
  2,3: lia.
  2:{ replace (4096 * vpn va) with (4096 * vpn va + 0) by lia. by apply vpn_of. }
  rewrite R1, R2. rewrite (proj2 (Z.ltb_lt _ _)) by (change MAX_VA with (2 ^ 38); lia).
  cbn [andb]. by rewrite (proj2 (Z.eqb_neq _ 0)).
Qed.

Lemma readable_ext m m' T va :
  (forall va, pte_of m' T va = pte_of m T va) -> readable m T va -> readable m' T va.
Proof. intros E. unfold readable. by rewrite E. Qed.

Lemma ldb_memcpy_in m dst src n i :
  0 <= i < n -> ldb (memcpy m dst src n) (dst + i) = ldb m (src + i).
Proof.
  intros Hi. unfold memcpy. replace i with (Z.of_nat (Z.to_nat i)) at 1 by lia.
  apply ldb_stbytes_in. rewrite lookup_ldbytes by lia. do 2 f_equal. lia.
Qed.

Lemma ldb_memcpy_ne m dst src n x :
  0 <= n -> x < dst \/ dst + n <= x -> ldb (memcpy m dst src n) x = ldb m x.
Proof. intros Hn H. unfold memcpy. apply ldb_stbytes_ne. rewrite length_ldbytes. lia. Qed.

Lemma copy_size va len :
  (if len <? PG_4K_SIZE - (va - PGROUNDDOWN va) then len else PG_4K_SIZE - (va - PGROUNDDOWN va))
  = chunk va len.
Proof.
  destruct (off_split va) as [E Ho]. rewrite round_down. unfold chunk, PG_4K_SIZE.
  destruct (_ <? _) eqn:L; breflect; lia.
Qed.

(** ** [copy_from_user] *)
Lemma copy_from_user_spec fuel k fr T r t dst va len :
  pt_wf k fr T -> T !! [] = Some r -> 0 <= va -> 0 <= len -> va + len <= 2 ^ 38 ->
  enough fuel va len ->
  (forall x, va <= x < va + len -> readable (km_ram k) T x) ->
  (forall j, 0 <= j < len -> ~ in_table T (dst + j)) ->
  (forall i j, 0 <= i < len -> 0 <= j < len -> dst + j <> uaddr (km_ram k) T (va + i)) ->
  exists m', copy_from_user fuel (page_addr r) dst va len (mkVst k t) = Ok (0, mkVst (set_ram m' k) t) /\
    (forall i, 0 <= i < len -> ldb m' (dst + i) = ldb (km_ram k) (uaddr (km_ram k) T (va + i))) /\
    (forall x, x < dst \/ dst + len <= x -> ldb m' x = ldb (km_ram k) x).
Proof.
  revert k dst va len. induction fuel as [|f IH]; intros k dst va len W Hr Ha Hlen Hlim He Hrd Ht Hd.
  { destruct He as [? _]. lia. }
  cbn [copy_from_user]. destruct (len <=? 0) eqn:E0; breflect.
  { exists (km_ram k). split; [by destruct k|]. split; [intros; lia|done]. }
  destruct (off_split va) as [Ev Ho].
  rewrite (proj2 (Z.ltb_ge _ _)) by (rewrite round_down; change MAX_VA with (2 ^ 38); lia).
  cbn [mbind' mret]. rewrite (user_page_mapped k fr T r t va PF_LOAD W Hr) by (lia || apply Hrd; lia).
  rewrite copy_size. unfold vz. cbn [mbind' zoom modify v_mem v_task]. destruct (next_page va len Ha Hlim ltac:(lia)) as [-> En].
  destruct (chunk_bounds va len ltac:(lia)) as [Hc1 Hc2]. set (n := chunk va len) in *.
  replace (va - PGROUNDDOWN va) with (va mod 4096) by (rewrite round_down; lia).
  set (m1 := memcpy (km_ram k) dst _ n).
  assert (forall i, 0 <= i < n -> ldb m1 (dst + i) = ldb (km_ram k) (uaddr (km_ram k) T (va + i))) as M1.
  { intros i Hi. unfold m1. rewrite ldb_memcpy_in by lia.
    by destruct (chunk_uaddr (km_ram k) T va len i Ha Hlim ltac:(lia) Hi) as [-> _]. }
  assert (forall x, x < dst \/ dst + n <= x -> ldb m1 x = ldb (km_ram k) x) as M2.
  { intros x Hx. apply ldb_memcpy_ne; [lia|done]. }
  clearbody m1. destruct (wf_write k fr T m1 W) as [W1 P1].
  { intros x Hx. apply M2. destruct (decide (dst <= x < dst + n)) as [Hin|]; [|lia]. exfalso.
    apply (Ht (x - dst) ltac:(lia)). by replace (dst + (x - dst)) with x by lia. }
  destruct (decide (n < len)) as [Hn|Hn].
  - specialize (En Hn). rewrite En.
    assert (forall x, uaddr m1 T x = uaddr (km_ram k) T x) as U1 by (intros x; unfold uaddr; by rewrite P1).
    destruct (IH (set_ram m1 k) (dst + n) (va + n) (len - n) W1 Hr) as (m2 & E2 & A2 & B2);
      cbn [km_ram set_ram] in *; [lia|lia|lia| | | | |].
    { pose proof (enough_next f va len Ha Hlim ltac:(lia) He) as He2. by rewrite En in He2. }
    { intros x Hx. apply (readable_ext (km_ram k)); [done|]. apply Hrd. lia. }
    { intros j Hj. rewrite <- Z.add_assoc. apply Ht. lia. }
    { intros i j Hi Hj. rewrite U1. rewrite <- !Z.add_assoc. apply Hd; lia. }
    exists m2. split; [exact E2|]. split.
    + intros i Hi. destruct (decide (i < n)) as [Hin|Hin].
      * rewrite B2 by lia. apply M1; lia.
      * replace (dst + i) with (dst + n + (i - n)) by lia. rewrite A2 by lia. rewrite U1.
        replace (va + n + (i - n)) with (va + i) by lia. apply M2.
        destruct (decide (dst <= uaddr (km_ram k) T (va + i) < dst + n)) as [Hb|]; [|lia]. exfalso.
        apply (Hd i (uaddr (km_ram k) T (va + i) - dst) Hi); lia.
    + intros x Hx. rewrite B2 by lia. apply M2. lia.
  - assert (n = len) as En' by lia. rewrite En', Z.sub_diag.
    destruct (enough_next f va len Ha Hlim ltac:(lia) He) as [Hf _].
    destruct f as [|f]; [simpl in Hf; lia|]. cbn [copy_from_user]. exists m1.
    split; [done|]. rewrite <- En'. done.
Qed.

(** ** [copy_to_user] *)
Lemma pte_walk_mapped k fr T r va :
  pt_wf k fr T -> T !! [] = Some r -> 0 <= va < 2 ^ 38 -> readable (km_ram k) T va ->
  exists p, pte_walk (page_addr r) (PGROUNDDOWN va) false k = Ok (p, k) /\ p <> 0 /\
    ld64 (km_ram k) p = pte_of (km_ram k) T va.
Proof.
  intros W Hr Ha (R1 & _ & _). destruct (off_split va) as [E Ho]. rewrite round_down.
  rewrite (pte_walk_lookup k fr T r _ W Hr) by (change MAX_VA with (2 ^ 38); lia).
  assert (slot T (4096 * vpn va) = slot T va) as Es.
  { apply slot_vpn; [lia|lia|]. replace (4096 * vpn va) with (4096 * vpn va + 0) by lia.
    by apply vpn_of. }
  rewrite Es. unfold pte_of in *. destruct (slot T va) as [p|] eqn:Sl; [|by rewrite Z.bits_0 in R1].
  pose proof (slot_pos _ _ _ _ _ W Sl). exists p. split; [done|]. split; [lia|done].
Qed.

(** Distinct user pages of the range have distinct frames. *)
Definition frames_apart (m : ram) (T : ptree) (va len : Z) : Prop :=
  forall x y, va <= x < va + len -> va <= y < va + len -> x <> y -> uaddr m T x <> uaddr m T y.

Lemma copy_to_user_spec fuel k fr T r t va src len :
  pt_wf k fr T -> T !! [] = Some r -> 0 <= va -> 0 <= len -> va + len <= 2 ^ 38 ->
  enough fuel va len ->
  (forall x, va <= x < va + len -> writable (km_ram k) T x) ->
  (forall x, va <= x < va + len -> ~ in_table T (uaddr (km_ram k) T x)) ->
  (forall i j, 0 <= i < len -> 0 <= j < len -> src + j <> uaddr (km_ram k) T (va + i)) ->
  frames_apart (km_ram k) T va len ->
  exists m', copy_to_user fuel (page_addr r) va src len (mkVst k t) = Ok (0, mkVst (set_ram m' k) t) /\
    (forall i, 0 <= i < len -> ldb m' (uaddr (km_ram k) T (va + i)) = ldb (km_ram k) (src + i)) /\
    (forall x, (forall i, 0 <= i < len -> x <> uaddr (km_ram k) T (va + i)) ->
       ldb m' x = ldb (km_ram k) x).
Proof.
  revert k src va len. induction fuel as [|f IH]; intros k src va len W Hr Ha Hlen Hlim He Hwr Ht Hd Hap.
  { destruct He as [? _]. lia. }
  cbn [copy_to_user]. destruct (len <=? 0) eqn:E0; breflect.
  { exists (km_ram k). split; [by destruct k|]. split; [intros; lia|done]. }
  destruct (off_split va) as [Ev Ho]. destruct (Hwr va ltac:(lia)) as [Hrd Hw].
  rewrite (proj2 (Z.ltb_ge _ _)) by (rewrite round_down; change MAX_VA with (2 ^ 38); lia).
  cbn [mbind' mret]. rewrite (user_page_mapped k fr T r t va PF_STORE W Hr) by (lia || done).
  destruct (pte_walk_mapped k fr T r va W Hr ltac:(lia) Hrd) as (p & Ep & Hp & Elp).
  unfold vz. cbn [mbind' mret zoom v_mem v_task rdk gets]. rewrite Ep.
  rewrite (proj2 (Z.eqb_neq p 0)) by done. cbn [mbind' mret zoom v_mem v_task rdk gets].
  rewrite Elp, land_W_testbit, Hw. cbn [negb].
  rewrite copy_size. cbn [mbind' zoom modify v_mem v_task].
  destruct (next_page va len Ha Hlim ltac:(lia)) as [-> En].
  destruct (chunk_bounds va len ltac:(lia)) as [Hc1 Hc2]. set (n := chunk va len) in *.
  replace (va - PGROUNDDOWN va) with (va mod 4096) by (rewrite round_down; lia).
  set (d := PTE2PA (pte_of (km_ram k) T va) + va mod 4096). set (m1 := memcpy (km_ram k) d src n).
  assert (forall i, 0 <= i < n -> uaddr (km_ram k) T (va + i) = d + i) as Hu.
  { intros i Hi. by destruct (chunk_uaddr (km_ram k) T va len i Ha Hlim ltac:(lia) Hi) as [-> _]. }
  assert (forall i, 0 <= i < n -> ldb m1 (d + i) = ldb (km_ram k) (src + i)) as M1
    by (intros i Hi; by apply ldb_memcpy_in).
  assert (forall x, x < d \/ d + n <= x -> ldb m1 x = ldb (km_ram k) x) as M2
    by (intros x Hx; apply ldb_memcpy_ne; [lia|done]).
  clearbody m1. destruct (wf_write k fr T m1 W) as [W1 P1].
  { intros x Hx. apply M2. destruct (decide (d <= x < d + n)) as [Hin|]; [|lia]. exfalso.
    apply (Ht (va + (x - d)) ltac:(lia)). rewrite Hu by lia. by replace (d + (x - d)) with x by lia. }
  destruct (decide (n < len)) as [Hn|Hn].
  - specialize (En Hn). rewrite En.
    assert (forall x, uaddr m1 T x = uaddr (km_ram k) T x) as U1 by (intros x; unfold uaddr; by rewrite P1).
    destruct (IH (set_ram m1 k) (src + n) (va + n) (len - n) W1 Hr) as (m2 & E2 & A2 & B2);
      cbn [km_ram set_ram] in *; [lia|lia|lia| | | | | |].
    { pose proof (enough_next f va len Ha Hlim ltac:(lia) He) as He2. by rewrite En in He2. }
    { intros x Hx. destruct (Hwr x ltac:(lia)) as [H1 H2]. split; [by apply (readable_ext (km_ram k))|].
      by rewrite P1. }
    { intros x Hx. rewrite U1. apply Ht. lia. }
    { intros i j Hi Hj. rewrite U1. rewrite <- !Z.add_assoc. apply Hd; lia. }
    { intros x y Hx Hy Hne. rewrite !U1. apply Hap; lia. }
    exists m2. split; [exact E2|]. split.
    + intros i Hi. destruct (decide (i < n)) as [Hin|Hin].
      * rewrite B2; [rewrite Hu by lia; apply M1; lia|]. intros j Hj. rewrite U1, <- Z.add_assoc.
        apply Hap; lia.
      * replace (va + i) with (va + n + (i - n)) by lia. rewrite <- U1, A2 by lia.
        replace (src + n + (i - n)) with (src + i) by lia. apply M2.
        destruct (decide (d <= src + i < d + n)) as [Hb|]; [|lia]. exfalso.
        apply (Hd (src + i - d) i ltac:(lia) Hi). rewrite Hu by lia. lia.
    + intros x Hx. rewrite B2.
      * apply M2. destruct (decide (d <= x < d + n)) as [Hb|]; [|lia]. exfalso.
        apply (Hx (x - d) ltac:(lia)). rewrite Hu by lia. lia.
      * intros i Hi. rewrite U1, <- Z.add_assoc. apply Hx. lia.
  - assert (n = len) as En' by lia. rewrite En', Z.sub_diag.
    destruct (enough_next f va len Ha Hlim ltac:(lia) He) as [Hf _].
    destruct f as [|f]; [simpl in Hf; lia|]. cbn [copy_to_user]. exists m1.
    split; [done|]. split.
    + intros i Hi. rewrite Hu by lia. apply M1. lia.
    + intros x Hx. apply M2. destruct (decide (d <= x < d + n)) as [Hb|]; [|lia]. exfalso.
      apply (Hx (x - d) ltac:(lia)). rewrite Hu by lia. lia.
Qed.

(** ** [copy_str_from_user] *)
Definition copied (m m' : ram) (dst : Z) (u : Z -> Z) (n : Z) : Prop :=
  (forall i, 0 <= i < n -> ldb m' (dst + i) = u i) /\
  (forall x, x < dst \/ dst + n <= x -> ldb m' x = ldb m x).

Lemma copy_str_page_spec n dst p m :
  (forall i j, 0 <= i < Z.of_nat n -> 0 <= j < Z.of_nat n -> dst + j <> p + i) ->
  (exists z m', 0 <= z < Z.of_nat n /\ (forall i, 0 <= i < z -> ldb m (p + i) <> 0) /\
     ldb m (p + z) = 0 /\ copy_str_page n dst p m = (true, m') /\
     copied m m' dst (fun i => ldb m (p + i)) (z + 1)) \/
  ((forall i, 0 <= i < Z.of_nat n -> ldb m (p + i) <> 0) /\
   exists m', copy_str_page n dst p m = (false, m') /\
     copied m m' dst (fun i => ldb m (p + i)) (Z.of_nat n)).
Proof.
  revert dst p m. induction n as [|n IH]; intros dst p m Hd; cbn [copy_str_page].
  { right. split; [intros; lia|]. exists m. split; [done|]. split; [intros; lia|done]. }
  destruct (ldb m p =? 0) eqn:E; breflect.
  - left. exists 0, (<[dst := 0]> m). rewrite Z.add_0_r. split; [lia|]. split; [intros; lia|].
    split; [done|]. split; [done|]. split.
    + intros i Hi. assert (i = 0) as -> by lia. rewrite !Z.add_0_r, ldb_insert, decide_True; done.
    + intros x Hx. rewrite ldb_insert, decide_False; [done|lia].
  - set (m1 := <[dst := ldb m p]> m).
    assert (forall i, 0 <= i < Z.of_nat n -> ldb m1 (p + 1 + i) = ldb m (p + (i + 1))) as Hp.
    { intros i Hi. unfold m1. rewrite ldb_insert, decide_False; [f_equal; lia|].
      pose proof (Hd (i + 1) 0 ltac:(lia) ltac:(lia)). lia. }
    assert (ldb m1 dst = ldb m p) as H0 by (unfold m1; by rewrite ldb_insert, decide_True).
    assert (forall x, x <> dst -> ldb m1 x = ldb m x) as Hne
      by (intros x Hx; unfold m1; rewrite ldb_insert, decide_False; done).
    clearbody m1.
    assert (forall m' q, 0 <= q <= Z.of_nat n ->
      copied m1 m' (dst + 1) (fun i => ldb m1 (p + 1 + i)) q ->
      copied m m' dst (fun i => ldb m (p + i)) (q + 1)) as Hc.
    { intros m' q Hq [C1 C2]. split.
      - intros i Hi. destruct (decide (i = 0)) as [->|].
        + rewrite Z.add_0_r, C2, H0 by lia. by rewrite Z.add_0_r.
        + replace (dst + i) with (dst + 1 + (i - 1)) by lia. rewrite C1, Hp by lia.
          do 2 f_equal. lia.
      - intros x Hx. rewrite C2 by lia. apply Hne. lia. }
    destruct (IH (dst + 1) (p + 1) m1) as [(z & m' & Hz & Hnz & Hz0 & Ec & C)|(Hnz & m' & Ec & C)].
    { intros i j Hi Hj. pose proof (Hd (i + 1) (j + 1) ltac:(lia) ltac:(lia)). lia. }
    + left. exists (z + 1), m'. split; [lia|]. split; [|split; [|split; [done|by apply Hc; [lia|]]]].
      * intros i Hi. destruct (decide (i = 0)) as [->|]; [by rewrite Z.add_0_r|].
        specialize (Hnz (i - 1) ltac:(lia)). rewrite Hp in Hnz by lia.
        by replace (i - 1 + 1) with i in Hnz by lia.
      * rewrite Hp in Hz0 by lia. done.
    + right. split.
      * intros i Hi. destruct (decide (i = 0)) as [->|]; [by rewrite Z.add_0_r|].
        specialize (Hnz (i - 1) ltac:(lia)). rewrite Hp in Hnz by lia.
        by replace (i - 1 + 1) with i in Hnz by lia.
      * exists m'. split; [done|]. replace (Z.of_nat (S n)) with (Z.of_nat n + 1) by lia.
        apply Hc; [lia|done].
Qed.

(** The user's string: [found] with its terminator at [z], or [max] bytes
    without one. *)
Definition ustring (u : Z -> Z) (max z : Z) (found : bool) : Prop :=
  if found then 0 <= z < max /\ (forall i, 0 <= i < z -> u i <> 0) /\ u z = 0
  else z = max - 1 /\ forall i, 0 <= i < max -> u i <> 0.

Lemma copy_str_spec fuel k fr T r t dst va max z found :
  pt_wf k fr T -> T !! [] = Some r -> 0 <= va -> 0 < max -> va + max <= 2 ^ 38 ->
  enough fuel va max ->
  ustring (fun i => ldb (km_ram k) (uaddr (km_ram k) T (va + i))) max z found ->
  (forall x, va <= x <= va + z -> readable (km_ram k) T x) ->
  (forall j, 0 <= j < max -> ~ in_table T (dst + j)) ->
  (forall i j, 0 <= i < max -> 0 <= j < max -> dst + j <> uaddr (km_ram k) T (va + i)) ->
  exists m', copy_str_from_user fuel (page_addr r) dst va max (mkVst k t)
             = Ok (if found then 0 else -1, mkVst (set_ram m' k) t) /\
    copied (km_ram k) m' dst (fun i => ldb (km_ram k) (uaddr (km_ram k) T (va + i))) (z + 1).
Proof.
  revert k dst va max z. induction fuel as [|f IH]; intros k dst va max z W Hr Ha Hm Hlim He Hu Hrd Ht Hd.
  { destruct He as [? _]. lia. }
  assert (0 <= z < max) as Hz0 by (destruct found, Hu; lia).
  cbn [copy_str_from_user]. rewrite (proj2 (Z.leb_gt _ _)) by lia.
  destruct (off_split va) as [Ev Ho].
  rewrite (proj2 (Z.ltb_ge _ _)) by (rewrite round_down; change MAX_VA with (2 ^ 38); lia).
  cbn [mbind' mret]. rewrite (user_page_mapped k fr T r t va PF_LOAD W Hr) by (lia || apply Hrd; lia).
  rewrite copy_size. cbn [gets mbind' mret v_mem]. destruct (next_page va max Ha Hlim ltac:(lia)) as [-> En].
  destruct (chunk_bounds va max ltac:(lia)) as [Hc1 Hc2]. set (n := chunk va max) in *.
  replace (va - PGROUNDDOWN va) with (va mod 4096) by (rewrite round_down; lia).
  set (p := PTE2PA (pte_of (km_ram k) T va) + va mod 4096).
  assert (forall i, 0 <= i < n -> uaddr (km_ram k) T (va + i) = p + i) as Hp.
  { intros i Hi. by destruct (chunk_uaddr (km_ram k) T va max i Ha Hlim ltac:(lia) Hi) as [-> _]. }
  destruct (copy_str_page_spec (Z.to_nat n) dst p (km_ram k))
    as [(z' & m1 & Hz' & Hnz & Hz'0 & Ec & C)|(Hnz & m1 & Ec & C)].
  { intros i j Hi Hj. rewrite <- Hp by lia. apply Hd; lia. }
  - rewrite Ec. unfold vz. cbn [mbind' zoom modify v_mem v_task mret].
    assert (found = true /\ z = z') as [-> ->].
    { destruct found.
      - split; [done|]. destruct Hu as (_ & H1 & H2).
        destruct (Z.lt_trichotomy z z') as [L|[L|L]]; [|done|].
        + exfalso. apply (Hnz z ltac:(lia)). rewrite <- Hp by lia. done.
        + exfalso. apply (H1 z' ltac:(lia)). rewrite Hp by lia. done.
      - exfalso. destruct Hu as [_ H1]. apply (H1 z' ltac:(lia)). rewrite Hp by lia. done. }
    exists m1. split; [done|]. destruct C as [C1 C2]. split; [|done].
    intros i Hi. rewrite C1 by done. by rewrite Hp by lia.
  - rewrite Ec. unfold vz. cbn [mbind' zoom modify v_mem v_task mret].
    rewrite Z2Nat.id in C by lia. destruct C as [C1 C2].
    destruct (wf_write k fr T m1 W) as [W1 P1].
    { intros x Hx. apply C2. destruct (decide (dst <= x < dst + n)) as [Hin|]; [|lia]. exfalso.
      apply (Ht (x - dst) ltac:(lia)). by replace (dst + (x - dst)) with x by lia. }
    assert (forall x, uaddr m1 T x = uaddr (km_ram k) T x) as U1 by (intros x; unfold uaddr; by rewrite P1).
    assert (forall i, n <= i < max -> ldb m1 (uaddr m1 T (va + i)) = ldb (km_ram k) (uaddr (km_ram k) T (va + i)))
      as Hub.
    { intros i Hi. rewrite U1. apply C2.
      destruct (decide (dst <= uaddr (km_ram k) T (va + i) < dst + n)) as [Hb|]; [|lia]. exfalso.
      apply (Hd i (uaddr (km_ram k) T (va + i) - dst)); lia. }
    destruct (decide (n < max)) as [Hn|Hn].
    + specialize (En Hn). rewrite En.
      assert (n <= z) as Hzn.
      { destruct found; [|destruct Hu; lia]. destruct Hu as (? & _ & Hz).
        destruct (decide (n <= z)) as [|L]; [done|]. exfalso. apply (Hnz z ltac:(lia)).
        rewrite <- Hp by lia. done. }
      destruct (IH (set_ram m1 k) (dst + n) (va + n) (max - n) (z - n) W1 Hr) as (m2 & E2 & A2 & B2);
        cbn [km_ram set_ram] in *; [lia|lia|lia| | | | | |].
      { pose proof (enough_next f va max Ha Hlim ltac:(lia) He) as He2. by rewrite En in He2. }
      { destruct found; cbn [ustring] in *.
        - destruct Hu as (H1 & H2 & H3). split; [lia|]. split.
          + intros i Hi. rewrite <- Z.add_assoc, Hub by lia. apply H2. lia.
          + rewrite <- Z.add_assoc, Hub by lia. by replace (n + (z - n)) with z by lia.
        - destruct Hu as (H1 & H2). split; [lia|]. intros i Hi. rewrite <- Z.add_assoc, Hub by lia.
          apply H2. lia. }
      { intros x Hx. apply (readable_ext (km_ram k)); [done|]. apply Hrd. lia. }
      { intros j Hj. rewrite <- Z.add_assoc. apply Ht. lia. }
      { intros i j Hi Hj. rewrite U1. rewrite <- !Z.add_assoc. apply Hd; lia. }
      exists m2. split; [exact E2|]. split.
      * intros i Hi. destruct (decide (i < n)) as [Hin|Hin].
        -- rewrite B2 by lia. rewrite C1 by lia. by rewrite Hp by lia.
        -- replace (dst + i) with (dst + n + (i - n)) by lia. rewrite A2 by lia.
           rewrite <- Z.add_assoc, Hub by lia. by replace (n + (i - n)) with i by lia.
      * intros x Hx. rewrite B2 by lia. apply C2. lia.
    + assert (n = max) as En' by lia. rewrite En', Z.sub_diag.
      assert (found = false /\ z = max - 1) as [-> ->].
      { destruct found; [|by destruct Hu]. exfalso. destruct Hu as (H1 & _ & H2).
        apply (Hnz z ltac:(lia)). rewrite <- Hp by lia. done. }
      destruct (enough_next f va max Ha Hlim ltac:(lia) He) as [Hf _].
      destruct f as [|f]; [simpl in Hf; lia|]. cbn [copy_str_from_user]. exists m1.
      split; [done|]. replace (max - 1 + 1) with n by lia. split; [|done].
      intros i Hi. rewrite C1 by lia. by rewrite Hp by lia.
Qed.
