(* ===== verification/VmTheorems.v ===== *)
(** The contract of virtual memory (Vm.v): creating a table, mapping,
    unmapping, translating, copying across the user boundary and serving page
    faults, with the instances on which the theorems are applied. *)
From stdpp Require Import base gmap list.
From Stdlib Require Import ZArith Lia.
From S2P Require Import Prelude Bytes Pages PageInit SlabSpec Vm VmSpec VmUnmap VmCopy.
Open Scope Z_scope.

(** ** Fresh pages *)


(** A new root: [pg_create]. *)
Lemma pg_create_spec k fr :
  repr k fr ->
  match fr_free fr with
  | [] => pg_create k = Ok (0, k)
  | g :: l => exists k', pg_create k = Ok (page_addr g, k') /\
      pt_wf k' (mkFrames l (<[g := 1]> (fr_used fr))) {[ [] := g ]} /\
      (forall va, pte_of (km_ram k') {[ [] := g ]} va = 0)
  end.
Proof.
  intros R. pose proof (alloc_page_spec _ _ R) as A. unfold spec_alloc in A.
  unfold pg_create, kalloc. cbn [mbind' mret modify]. destruct (fr_free fr) as [|g l].
  - by rewrite A.
  - destruct A as (k' & A & R' & Hram). rewrite A.
    assert (0 <= g < 2 ^ 49) as Hg.
    { clear Hram. destruct (r_used _ _ R' g 1 ltac:(simpl; by rewrite lookup_insert_eq)) as (pg & Hpg & _).
      by destruct (r_desc _ _ R' _ _ Hpg). }
    destruct (page_addr_range g Hg). rewrite (proj2 (Z.eqb_neq (page_addr g) 0)) by lia.
    eexists. split; [reflexivity|].
    set (k2 := set_ram _ k'). assert (repr k2 (mkFrames l (<[g := 1]> (fr_used fr)))) as R2
      by (by apply repr_set_ram).
    assert (forall i, 0 <= i < 512 -> ld64 (km_ram k2) (page_addr g + 8 * i) = 0) as Hz
      by (intros i Hi; apply ld64_memset_zero; unfold PG_4K_SIZE; lia).
    clear Hram. clearbody k2. split.
    + split.
      * exact R2.
      * exists g. apply lookup_singleton_eq.
      * intros p f [<- <-]%lookup_singleton_Some. simpl. lia.
      * intros p f [<- <-]%lookup_singleton_Some. split; [|done]. simpl. by rewrite lookup_insert_eq.
      * intros p q f [<- <-]%lookup_singleton_Some [<- _]%lookup_singleton_Some. done.
      * intros p i f [E _]%lookup_singleton_Some. by destruct p.
      * intros p f i [<- <-]%lookup_singleton_Some Hl Hi. rewrite lookup_singleton_ne by done.
        by rewrite Hz.
    + intros va. unfold pte_of, slot. by rewrite lookup_singleton_ne by done.
Qed.

(** ** [mappages] *)
Lemma mappages_loop va size pa perm pagetable k :
  va mod 4096 = 0 -> size mod 4096 = 0 -> 0 < size -> 0 <= va -> va + size < 2 ^ 63 ->
  mappages pagetable va size pa perm k =
  map_loop (Z.to_nat (size / 4096)) pagetable va pa (va + size - 4096) perm k.
Proof.
  intros H1 H2 H3 H4 H5. assert (4096 <= size) by (pose proof (Z.div_mod size 4096); lia).
  unfold mappages, PG_4K_SIZE. rewrite H1, H2. cbn [Z.eqb negb].
  rewrite (proj2 (Z.eqb_neq size 0)) by lia. by rewrite u64_small by lia.
Qed.

Definition unmapped (m : ram) (T : ptree) (va n : Z) : Prop :=
  forall i, 0 <= i < n -> valid (pte_of m T (va + 4096 * i)) = false.

Lemma mappages_spec k fr T r va n pa perm :
  pt_wf k fr T -> T !! [] = Some r -> 0 <= va -> va mod 4096 = 0 -> 0 < n -> va + n * 4096 <= MAX_VA ->
  0 <= pa -> pa + n * 4096 < 2 ^ 64 -> 0 <= perm < 1024 -> unmapped (km_ram k) T va n ->
  exists k' fr' T' res, mappages (page_addr r) va (n * 4096) pa perm k = Ok (res, k') /\
    pt_grow k fr T k' fr' T' /\
    ((res = 0 /\ mapped (km_ram k) T (km_ram k') T' va n pa perm) \/
     (res = -1 /\ fr_free fr' = [] /\ exists j, 0 <= j < n /\
        mapped (km_ram k) T (km_ram k') T' va j pa perm)).
Proof.
  intros W Hr Ha Hal Hn Hlim Hpa Hpl Hperm Hu. change MAX_VA with (2 ^ 38) in Hlim.
  rewrite mappages_loop by (done || lia || (rewrite Z.mod_mul; lia)). rewrite Z.div_mul by lia.
  replace (Z.to_nat n) with (S (Z.to_nat (n - 1))) by lia.
  destruct (map_loop_spec (Z.to_nat (n - 1)) k fr T r va pa (va + n * 4096 - 4096) perm)
    as (k' & fr' & T' & res & E & G & H); try done; try lia;
    [change MAX_VA with (2 ^ 38); lia|intros i Hi; apply Hu; lia|].
  exists k', fr', T', res. split; [done|]. split; [done|].
  destruct H as [[-> M]|(-> & Hf & j & Hj & M)]; [left|right].
  - split; [done|]. by replace (Z.of_nat (S (Z.to_nat (n - 1)))) with n in M by lia.
  - split; [done|]. split; [done|]. exists j. split; [lia|done].
Qed.

(** [C17] [mappages] on a free range installs exactly the requested entries: on
    success the [n] pages from [va] translate to consecutive frames from [pa]
    with the given permissions, every other address translates as before, and
    no allocated page other than the tables changes.  It fails, after mapping a
    prefix, only when no page frame is left for a table. *)
Theorem mappages_maps k fr T r va n pa perm :
  pt_wf k fr T -> T !! [] = Some r -> 0 <= va -> va mod 4096 = 0 -> 0 < n -> va + n * 4096 <= MAX_VA ->
  0 <= pa -> pa + n * 4096 < 2 ^ 64 -> 0 <= perm < 1024 -> unmapped (km_ram k) T va n ->
  exists k' fr' T' res, mappages (page_addr r) va (n * 4096) pa perm k = Ok (res, k') /\
    pt_grow k fr T k' fr' T' /\
    ((res = 0 /\ mapped (km_ram k) T (km_ram k') T' va n pa perm) \/
     (res = -1 /\ fr_free fr' = [] /\ exists j, 0 <= j < n /\
        mapped (km_ram k) T (km_ram k') T' va j pa perm)).
Proof. apply mappages_spec. Qed.

(** [mappages] panics when a page of the range is already mapped (unless
    memory for a table ran out before it was reached) and on unaligned or empty
    requests. *)
Theorem mappages_remap_panics k fr T r va pa perm :
  pt_wf k fr T -> T !! [] = Some r -> 0 <= va < MAX_VA -> 0 <= pa < 2 ^ 64 -> 0 <= perm < 1024 ->
  (va mod 4096 <> 0 -> forall size, mappages (page_addr r) va size pa perm k = Halt) /\
  (va mod 4096 = 0 -> mappages (page_addr r) va 0 pa perm k = Halt) /\
  (va mod 4096 = 0 -> valid (pte_of (km_ram k) T va) = true ->
   forall n, 0 < n -> va + n * 4096 <= MAX_VA ->
   mappages (page_addr r) va (n * 4096) pa perm k = Halt \/
   exists k', mappages (page_addr r) va (n * 4096) pa perm k = Ok (-1, k')).
Proof.
  intros W Hr Ha Hpa Hperm. split; [|split].
  - intros Hm size. unfold mappages, PG_4K_SIZE. by rewrite (proj2 (Z.eqb_neq _ 0) Hm).
  - intros Hm. unfold mappages, PG_4K_SIZE. by rewrite Hm.
  - intros Hm V n Hn Hlim. change MAX_VA with (2 ^ 38) in *.
    rewrite mappages_loop by (done || lia || (rewrite Z.mod_mul; lia)). rewrite Z.div_mul by lia.
    replace (Z.to_nat n) with (S (Z.to_nat (n - 1))) by lia.
    destruct (map_first (Z.to_nat (n - 1)) k fr T r va pa (va + n * 4096 - 4096) perm W Hr)
      as [(? & ? & ? & _ & _ & _ & V')|[[E _]|(k1 & ? & ? & E & _)]]; try done;
      [congruence|by left|right; eauto].
Qed.

(** Mapping then translating gives the address back: after a successful
    [mappages], [va2pa] of any address in the range is the physical address at
    the same offset. *)
Theorem mappages_va2pa k fr T r va n pa perm k' x :
  pt_wf k fr T -> T !! [] = Some r -> 0 <= va -> va mod 4096 = 0 -> 0 < n -> va + n * 4096 <= MAX_VA ->
  0 <= pa -> pa mod 4096 = 0 -> pa + n * 4096 < 2 ^ 64 -> 0 <= perm < 1024 ->
  unmapped (km_ram k) T va n ->
  mappages (page_addr r) va (n * 4096) pa perm k = Ok (0, k') -> va <= x < va + n * 4096 ->
  va2pa (page_addr r) x k' = Ok (pa + (x - va), k').
Proof.
  intros W Hr Ha Hal Hn Hlim Hpa Hpal Hpl Hperm Hu E Hx. change MAX_VA with (2 ^ 38) in *.
  destruct (mappages_spec k fr T r va n pa perm) as (k1 & fr1 & T1 & res & E1 & G & H); try done.
  rewrite E in E1. injection E1 as <- <-. destruct H as [[_ M]|[? _]]; [|done].
  rewrite (va2pa_spec k' fr1 T1 r x (g_wf _ _ _ _ _ _ G)
             (lookup_weaken _ _ _ _ Hr (g_sub _ _ _ _ _ _ G))).
  rewrite (M x) by lia. cbv zeta. f_equal. f_equal.
  destruct (off_split va) as [Ev _]. rewrite Hal in Ev. destruct (off_split x) as [Ex Ho].
  assert (vpn va <= vpn x < vpn va + n) as Hv by lia. rewrite decide_True by done.
  set (q := pa + (vpn x - vpn va) * 4096).
  assert (q mod 4096 = 0) as Hq by (unfold q; by rewrite Z.mod_add).
  assert (0 <= q < 2 ^ 64) as Hqr by (unfold q; lia).
  unfold map_pte. rewrite <- Z.lor_assoc.
  destruct (pte_pa q (Z.lor perm PTE_V) Hqr) as (P1 & _ & _).
  { split; [apply Z.lor_nonneg; unfold PTE_V; lia|].
    destruct (decide (Z.lor perm PTE_V = 0)) as [->|Hnz]; [lia|].
    pose proof (proj2 (Z.lor_nonneg perm PTE_V)). unfold PTE_V in *.
    apply (Z.log2_lt_pow2 _ 10); [lia|]. rewrite Z.log2_lor by lia. apply Z.max_lub_lt; [|simpl; lia].
    destruct (decide (perm = 0)) as [->|]; [simpl; lia|]. apply Z.log2_lt_pow2; lia. }
  rewrite testbit_flags by lia. rewrite Z.lor_spec. change (Z.testbit PTE_V 0) with true.
  rewrite orb_true_r, P1. change 0xFFF with (Z.ones 12). rewrite Z.land_ones by lia.
  change (2 ^ 12) with 4096.
  assert (q / 4096 * 4096 = q) as -> by (pose proof (Z.div_mod q 4096); lia).
  assert (Z.lor q (x mod 4096) = q + x mod 4096) as ->.
  { pose proof (Z.add_lor_land q (x mod 4096)) as L.
    assert (Z.land q (x mod 4096) = 0) as L0; [|lia].
    apply Z.bits_inj'. intros b Hb. rewrite Z.land_spec, Z.bits_0.
    replace q with (q / 4096 * 2 ^ 12) by (change (2 ^ 12) with 4096; pose proof (Z.div_mod q 4096); lia).
    change 4096 with (2 ^ 12) at 2. rewrite <- Z.land_ones by lia.
    rewrite Z.land_spec, Z.testbit_ones by lia. destruct (decide (b < 12)).
    - by rewrite Z.mul_pow2_bits_low by lia.
    - rewrite (proj2 (Z.ltb_ge b 12)) by lia. by rewrite andb_false_r, andb_false_r, andb_false_r. }
  unfold q. lia.
Qed.

(** [pg_unmap] invalidates exactly the entries of the range; with
    [do_free] it releases the frame of every page that was mapped there, once,
    and no other frame. *)
Theorem pg_unmap_unmaps k fr T r va n (do_free : bool) :
  pt_wf k fr T -> T !! [] = Some r -> 0 <= va -> va mod 4096 = 0 -> 0 <= n ->
  va + n * 4096 <= MAX_VA ->
  (do_free = true -> owned_range (km_ram k) fr T va n) ->
  exists k' fr', pg_unmap (page_addr r) va n do_free k = Ok (tt, k') /\ pt_wf k' fr' T /\
    cleared (km_ram k) (km_ram k') T va n /\
    (do_free = false -> fr' = fr) /\
    (forall f, (do_free = true /\ freed (km_ram k) T va n f -> fr_used fr' !! f = None) /\
               (~ freed (km_ram k) T va n f -> fr_used fr' !! f = fr_used fr !! f)).
Proof.
  intros W Hr Ha Hal Hn Hlim Ho. change MAX_VA with (2 ^ 38) in *.
  unfold pg_unmap, PG_4K_SIZE. rewrite Hal. cbn [Z.eqb negb]. rewrite u64_small by lia.
  destruct (unmap_loop_spec (Z.to_nat n) k fr T r va (va + n * 4096) do_free)
    as (k' & fr' & E & H); rewrite ?Z2Nat.id in * by lia;
    [done|done|done|lia|change MAX_VA with (2 ^ 38); lia|done|].
  exists k', fr'. split; [done|]. exact H.
Qed.

(** ** Page faults *)
Lemma pf_range : 0 <= pf_flags < 1024.
Proof. vm_compute. split; [discriminate|reflexivity]. Qed.




(** ** Copies *)

(** Iterations that are always enough. *)
Definition copy_fuel (len : Z) : nat := Z.to_nat (len / 4096 + 3).

Lemma copy_fuel_enough va len : 0 <= va -> 0 <= len -> enough (copy_fuel len) va len.
Proof.
  intros Ha Hl. unfold enough, copy_fuel, vpn. pose proof (Z.div_pos len 4096).
  rewrite Z2Nat.id by lia. split; [lia|]. intros Hpos. Z.div_mod_to_equations. lia.
Qed.

(** [C12] What the kernel copies out to user memory is what it copies back in:
    over writable user pages with distinct frames, disjoint from the kernel
    buffers and the page tables, [copy_to_user] followed by [copy_from_user]
    both succeed and reproduce the bytes; user memory outside the range is
    untouched. *)
Theorem copy_to_from_user k fr T r t va src dst len :
  pt_wf k fr T -> T !! [] = Some r -> 0 <= va -> 0 <= len -> va + len <= MAX_VA ->
  (forall x, va <= x < va + len -> writable (km_ram k) T x) ->
  (forall x, va <= x < va + len -> ~ in_table T (uaddr (km_ram k) T x)) ->
  (forall j, 0 <= j < len -> ~ in_table T (dst + j)) ->
  (forall i j, 0 <= i < len -> 0 <= j < len -> src + j <> uaddr (km_ram k) T (va + i)) ->
  (forall i j, 0 <= i < len -> 0 <= j < len -> dst + j <> uaddr (km_ram k) T (va + i)) ->
  frames_apart (km_ram k) T va len ->
  exists m1 m2,
    copy_to_user (copy_fuel len) (page_addr r) va src len (mkVst k t)
      = Ok (0, mkVst (set_ram m1 k) t) /\
    copy_from_user (copy_fuel len) (page_addr r) dst va len (mkVst (set_ram m1 k) t)
      = Ok (0, mkVst (set_ram m2 (set_ram m1 k)) t) /\
    (forall i, 0 <= i < len -> ldb m2 (dst + i) = ldb (km_ram k) (src + i)) /\
    (forall x, (forall i, 0 <= i < len -> x <> uaddr (km_ram k) T (va + i)) ->
       x < dst \/ dst + len <= x -> ldb m2 x = ldb (km_ram k) x).
Proof.
  intros W Hr Ha Hl Hlim Hw Ht Htd Hs Hd Hap. change MAX_VA with (2 ^ 38) in Hlim.
  pose proof (copy_fuel_enough va len Ha Hl) as Hf.
  destruct (copy_to_user_spec (copy_fuel len) k fr T r t va src len) as (m1 & E1 & A1 & B1); try done.
  destruct (wf_write k fr T m1 W) as [W1 P1].
  { intros x Hx. apply B1. intros i Hi ->. by apply (Ht (va + i) ltac:(lia)). }
  assert (forall x, uaddr m1 T x = uaddr (km_ram k) T x) as U1 by (intros x; unfold uaddr; by rewrite P1).
  destruct (copy_from_user_spec (copy_fuel len) (set_ram m1 k) fr T r t dst va len) as (m2 & E2 & A2 & B2);
    try done.
  { intros x Hx. apply (readable_ext (km_ram k)); [done|]. by apply Hw. }
  { intros i j Hi Hj. cbn [km_ram set_ram]. rewrite U1. by apply Hd. }
  exists m1, m2. split; [done|]. split; [done|]. cbn [km_ram set_ram] in *. split.
  - intros i Hi. rewrite A2, U1 by done. by apply A1.
  - intros x Hx Hx'. rewrite B2 by done. by apply B1.
Qed.

(** [copy_str_from_user] copies a user string of at most [max] bytes
    including its terminator and answers 0; when there is no terminator within
    [max] bytes it answers -1.  It always terminates and never writes more than
    [max] bytes of the destination. *)
Theorem copy_str_from_user_correct k fr T r t dst va max z found :
  pt_wf k fr T -> T !! [] = Some r -> 0 <= va -> 0 < max -> va + max <= MAX_VA ->
  ustring (fun i => ldb (km_ram k) (uaddr (km_ram k) T (va + i))) max z found ->
  (forall x, va <= x <= va + z -> readable (km_ram k) T x) ->
  (forall j, 0 <= j < max -> ~ in_table T (dst + j)) ->
  (forall i j, 0 <= i < max -> 0 <= j < max -> dst + j <> uaddr (km_ram k) T (va + i)) ->
  exists m', copy_str_from_user (copy_fuel max) (page_addr r) dst va max (mkVst k t)
             = Ok (if found then 0 else -1, mkVst (set_ram m' k) t) /\
    z + 1 <= max /\
    copied (km_ram k) m' dst (fun i => ldb (km_ram k) (uaddr (km_ram k) T (va + i))) (z + 1).
Proof.
  intros W Hr Ha Hm Hlim Hu Hrd Ht Hd. change MAX_VA with (2 ^ 38) in Hlim.
  destruct (copy_str_spec (copy_fuel max) k fr T r t dst va max z found) as (m' & E & C); try done.
  { apply copy_fuel_enough; lia. }
  exists m'. split; [done|]. split; [|done]. destruct found, Hu; lia.
Qed.

(** [pg_create] returns an empty page table in a fresh frame: nothing
    translates in it; it returns NULL, without side effect, exactly when no
    frame is free. *)
Theorem pg_create_empty k fr :
  repr k fr ->
  match fr_free fr with
  | [] => pg_create k = Ok (0, k)
  | g :: l => exists k', pg_create k = Ok (page_addr g, k') /\
      pt_wf k' (mkFrames l (<[g := 1]> (fr_used fr))) {[ [] := g ]} /\
      (forall va, pte_of (km_ram k') {[ [] := g ]} va = 0)
  end.
Proof. apply pg_create_spec. Qed.

(** ** Instances *)
Lemma pg_create_empty_witness :
  exists k', pg_create demo16 = Ok (page_addr 0, k') /\
    pt_wf k' (mkFrames (seqZ 1 15) (<[0 := 1]> ∅)) {[ [] := 0 ]} /\
    (forall va, pte_of (km_ram k') {[ [] := 0 ]} va = 0).
Proof. exact (pg_create_empty demo16 demo16_frames demo16_repr). Defined.

(** An empty table on the sixteen-frame machine. *)
Definition demo_pt : kmem := (ok_or (0, demo16) (pg_create demo16)).2.
Definition demo_tree : ptree := {[ [] := 0 ]}.
Definition demo_pt_frames : frames := mkFrames (seqZ 1 15) (<[0 := 1]> ∅).

Lemma demo_pt_wf :
  pt_wf demo_pt demo_pt_frames demo_tree /\ forall va, pte_of (km_ram demo_pt) demo_tree va = 0.
Proof.
  destruct (pg_create_spec demo16 demo16_frames demo16_repr) as (k' & E & W & P).
  unfold demo_pt. rewrite E. by split.
Qed.

Lemma demo_unmapped va n : unmapped (km_ram demo_pt) demo_tree va n.
Proof. intros i _. by rewrite (proj2 demo_pt_wf). Qed.

(** Two user pages at 0x1000, readable and writable, over device memory. *)
Definition demo_perm : Z := pf_flags.

Definition ok_value {A} (o : result (Z * A)) : option Z :=
  match o with Ok (v, _) => Some v | _ => None end.
Lemma ok_value_eq {A} (o : result (Z * A)) v r x : o = Ok (r, x) -> ok_value o = Some v -> r = v.
Proof. intros ->. by injection 1. Qed.

Lemma demo_mapped :
  exists k fr T, pt_wf k fr T /\ T !! [] = Some 0 /\
    mapped (km_ram demo_pt) demo_tree (km_ram k) T 0x1000 2 0x10000000 demo_perm /\
    mappages (page_addr 0) 0x1000 (2 * 4096) 0x10000000 demo_perm demo_pt = Ok (0, k).
Proof.
  destruct demo_pt_wf as [W _].
  destruct (mappages_spec demo_pt demo_pt_frames demo_tree 0 0x1000 2 0x10000000 demo_perm)
    as (k' & fr' & T' & res & E & G & H);
    [exact W|reflexivity|lia|reflexivity|lia|change MAX_VA with (2 ^ 38); lia|lia|lia|
     exact pf_range|apply demo_unmapped|].
  assert (res = 0) as ->.
  { apply (ok_value_eq _ 0 _ _ E). vm_compute. reflexivity. }
  destruct H as [[_ M]|[E1 _]]; [|discriminate E1]. exists k', fr', T'. split; [apply G|].
  split; [apply (lookup_weaken demo_tree); [reflexivity|apply G]|]. split; [exact M|exact E].
Qed.

Lemma mappages_maps_witness :
  exists k' fr' T' res, mappages (page_addr 0) 0x1000 (2 * 4096) 0x10000000 demo_perm demo_pt = Ok (res, k') /\
    pt_grow demo_pt demo_pt_frames demo_tree k' fr' T' /\
    ((res = 0 /\ mapped (km_ram demo_pt) demo_tree (km_ram k') T' 0x1000 2 0x10000000 demo_perm) \/
     (res = -1 /\ fr_free fr' = [] /\ exists j, 0 <= j < 2 /\
        mapped (km_ram demo_pt) demo_tree (km_ram k') T' 0x1000 j 0x10000000 demo_perm)).
Proof.
  apply (mappages_maps demo_pt demo_pt_frames demo_tree 0 0x1000 2 0x10000000 demo_perm);
    [exact (proj1 demo_pt_wf)|reflexivity|lia|reflexivity|lia|change MAX_VA with (2 ^ 38); lia|lia|lia|
     exact pf_range|apply demo_unmapped].
Defined.

(** What [demo_mapped] says about each byte of its two pages. *)
Lemma demo_pte m m0 T0 T x :
  mapped m0 T0 m T 0x1000 2 0x10000000 demo_perm -> 0x1000 <= x < 0x3000 ->
  writable m T x /\ uaddr m T x = 0x10000000 + (x - 0x1000).
Proof.
  intros M Hx. destruct (off_split x) as [Ex Ho].
  assert (vpn x = 1 \/ vpn x = 2) as Hv by lia.
  assert (pte_of m T x = map_pte (0x10000000 + (vpn x - 1) * 4096) demo_perm) as E.
  { rewrite (M x) by lia. change (vpn 4096) with 1. rewrite decide_True by lia. done. }
  unfold writable, readable, uaddr. rewrite E.
  destruct Hv as [Hv|Hv]; rewrite Hv in *; (split; [vm_compute; repeat split; discriminate|]).
  - replace (PTE2PA _) with 0x10000000 by (vm_compute; reflexivity). lia.
  - replace (PTE2PA _) with 0x10001000 by (vm_compute; reflexivity). lia.
Qed.

Lemma low_not_table k fr T x : pt_wf k fr T -> x < MEMORY_START -> ~ in_table T x.
Proof.
  intros W Hx (f & (p & Hp) & ? & _). destruct (w_used _ _ _ W _ _ Hp) as [_ ?].
  unfold page_addr, PG_4K_SIZE in *. lia.
Qed.

Lemma mappages_remap_panics_witness :
  exists k, (mappages (page_addr 0) 0x1000 (1 * 4096) 0 0 k = Halt \/
    exists k', mappages (page_addr 0) 0x1000 (1 * 4096) 0 0 k = Ok (-1, k')).
Proof.
  destruct demo_mapped as (k & fr & T & W & Hr & M & _). exists k.
  destruct (mappages_remap_panics k fr T 0 0x1000 0 0 W Hr) as (_ & _ & H);
    [change MAX_VA with (2 ^ 38); lia|lia|lia|].
  apply H; [reflexivity| |lia|change MAX_VA with (2 ^ 38); lia].
  destruct (demo_pte _ _ _ _ 0x1000 M ltac:(lia)) as [[(V & _) _] _].
  unfold valid. by rewrite land_V_testbit, V.
Defined.

Lemma mappages_va2pa_witness :
  exists k', mappages (page_addr 0) 0x1000 (2 * 4096) 0x10000000 demo_perm demo_pt = Ok (0, k') /\
    va2pa (page_addr 0) 0x2005 k' = Ok (0x10000000 + (0x2005 - 0x1000), k').
Proof.
  destruct demo_mapped as (k & fr & T & W & Hr & M & E). exists k. split; [exact E|].
  apply (mappages_va2pa demo_pt demo_pt_frames demo_tree 0 0x1000 2 0x10000000 demo_perm);
    [exact (proj1 demo_pt_wf)|reflexivity|lia|reflexivity|lia|change MAX_VA with (2 ^ 38); lia|lia|reflexivity|lia|
     exact pf_range|apply demo_unmapped|exact E|lia].
Defined.

Lemma pg_unmap_unmaps_witness :
  exists k fr T k' fr', pt_wf k fr T /\
    pg_unmap (page_addr 0) 0x1000 2 false k = Ok (tt, k') /\ pt_wf k' fr' T /\
    cleared (km_ram k) (km_ram k') T 0x1000 2.
Proof.
  destruct demo_mapped as (k & fr & T & W & Hr & M & _). exists k, fr, T.
  destruct (pg_unmap_unmaps k fr T 0 0x1000 2 false W Hr) as (k' & fr' & E & W' & C & _);
    [lia|reflexivity|lia|change MAX_VA with (2 ^ 38); lia|discriminate|].
  exists k', fr'. split; [exact W|]. split; [exact E|]. split; [exact W'|exact C].
Defined.

Definition demo_task : vtask := mkVtask 0x1000 0x3000 (page_addr 0) 0.


Lemma copy_to_from_user_witness :
  exists k m1 m2,
    copy_to_user (copy_fuel 5000) (page_addr 0) 0x1800 0x2000 5000 (mkVst k demo_task)
      = Ok (0, mkVst (set_ram m1 k) demo_task) /\
    copy_from_user (copy_fuel 5000) (page_addr 0) 0x8000 0x1800 5000 (mkVst (set_ram m1 k) demo_task)
      = Ok (0, mkVst (set_ram m2 (set_ram m1 k)) demo_task) /\
    (forall i, 0 <= i < 5000 -> ldb m2 (0x8000 + i) = ldb (km_ram k) (0x2000 + i)).
Proof.
  destruct demo_mapped as (k & fr & T & W & Hr & M & _). exists k.
  assert (forall x, 0x1800 <= x < 0x1800 + 5000 -> uaddr (km_ram k) T x = 0x10000000 + (x - 0x1000)) as U
    by (intros x Hx; apply (demo_pte _ _ _ _ x M); lia).
  destruct (copy_to_from_user k fr T 0 demo_task 0x1800 0x2000 0x8000 5000)
    as (m1 & m2 & E1 & E2 & H & _); [exact W|exact Hr|lia|lia|change MAX_VA with (2 ^ 38); lia|..].
  - intros x Hx. apply (demo_pte _ _ _ _ x M). lia.
  - intros x Hx. apply (low_not_table k fr T _ W). rewrite U by lia. unfold MEMORY_START. lia.
  - intros j Hj. apply (low_not_table k fr T _ W). unfold MEMORY_START. lia.
  - intros i j Hi Hj. rewrite U by lia. lia.
  - intros i j Hi Hj. rewrite U by lia. lia.
  - intros x y Hx Hy Hne. rewrite !U by lia. lia.
  - exists m1, m2. split; [exact E1|]. split; [exact E2|exact H].
Defined.

Lemma copy_str_from_user_correct_witness :
  exists k m', copy_str_from_user (copy_fuel 16) (page_addr 0) 0x8000 0x1ffc 16 (mkVst k demo_task)
               = Ok (0, mkVst (set_ram m' k) demo_task).
Proof.
  destruct demo_mapped as (k & fr & T & W & Hr & M & E).
  assert (forall x, 0x1ffc <= x < 0x1ffc + 16 -> uaddr (km_ram k) T x = 0x10000000 + (x - 0x1000)) as U
    by (intros x Hx; apply (demo_pte _ _ _ _ x M); lia).
  pose (m0 := <[0x10000ffc := 104]> (<[0x10000ffd := 105]> (<[0x10000ffe := 0]> (km_ram k)))).
  destruct (wf_write k fr T m0 W) as [W0 P0].
  { intros x Hx. assert (~ x < MEMORY_START) by (intros Hlt; by apply (low_not_table k fr T x W Hlt)).
    unfold m0, MEMORY_START in *. rewrite !ldb_insert, !decide_False by lia. done. }
  assert (forall x, uaddr m0 T x = uaddr (km_ram k) T x) as U0 by (intros x; unfold uaddr; by rewrite P0).
  exists (set_ram m0 k).
  destruct (copy_str_from_user_correct (set_ram m0 k) fr T 0 demo_task 0x8000 0x1ffc 16 2 true)
    as (m' & E' & _); cbn [km_ram set_ram];
    [exact W0|exact Hr|lia|lia|change MAX_VA with (2 ^ 38); lia|..|by exists m'].
  - split; [lia|]. split.
    + intros i Hi. rewrite U0, U by lia. unfold m0. rewrite !ldb_insert.
      assert (i = 0 \/ i = 1) as [-> | ->] by lia; rewrite ?decide_True by lia; [done|].
      rewrite decide_False by lia. rewrite decide_True by lia. done.
    + rewrite U0, U by lia. unfold m0. rewrite !ldb_insert.
      rewrite decide_False by lia. rewrite decide_False by lia. by rewrite decide_True by lia.
  - intros x Hx. apply (readable_ext (km_ram k)); [done|]. apply (demo_pte _ _ _ _ x M). lia.
  - intros j Hj. apply (low_not_table k fr T _ W). unfold MEMORY_START. lia.
  - intros i j Hi Hj. rewrite U0, U by lia. lia.
Defined.
