(* ===== verification/BlockDev.v ===== *)
(** The block-device interface (include/drivers/block_device.h) and the
    hash table as the block cache of ext2 sees it.

    [BlockDev] is what a [struct block_driver] promises about 512-byte
    sectors; the virtio driver behind it talks to hardware and is a parameter.
    [BlockMap] is what [utils/hashmap.c] promises to a client whose keys are
    [uint32_t] block numbers; [hash_block_map] discharges it with the
    operations and theorems of HashMap.v and HashMapSpec.v. *)
From stdpp Require Import base gmap list.
From Stdlib Require Import ZArith Lia.
From S2P Require Import Prelude Bytes HashMap HashMapSpec.
Open Scope Z_scope.

(** ** Devices *)

(** A negative result means the transfer failed: what a failed read left in
    the buffer is not used, what a failed write left in the sector is
    unknown. *)
Class BlockDev (D : Type) := {
  dev_read : Z -> M D (Z * list Z);
  dev_write : Z -> list Z -> M D Z;
  sector_data : D -> Z -> list Z;
  sector_len : forall d s, length (sector_data d s) = 512%nat;
  sector_ok : forall d s, bytes_ok (sector_data d s);
  dev_read_ok : forall d s, wp (dev_read s)
    (fun '(r, bs) d' => (forall x, sector_data d' x = sector_data d x) /\
                        (0 <= r -> bs = sector_data d s)) d;
  dev_write_ok : forall d s bs, length bs = 512%nat -> bytes_ok bs -> wp (dev_write s bs)
    (fun r d' => (forall x, x <> s -> sector_data d' x = sector_data d x) /\
                 (0 <= r -> sector_data d' s = bs)) d }.

(** Devices and heaps on which nothing fails.  No theorem asks this of the
    kernel's own device and allocator: Strict.v turns these assumptions into
    conditions on a single run. *)
Definition dev_reliable {D} `{BlockDev D} : Prop := forall d s, wp (dev_read s) (fun r (_ : D) => 0 <= r.1) d.
Definition dev_writes {D} `{BlockDev D} : Prop :=
  forall d s bs, length bs = 512%nat -> bytes_ok bs -> wp (dev_write s bs) (fun r (_ : D) => 0 <= r) d.
Definition heap_reliable {H} `{Heap H} : Prop :=
  forall (h h' : H) n, 1 <= n <= 4096 -> halloc n h <> Ok (0, h').

Lemma dev_read_rel {D} `{BlockDev D} d s : wp (dev_read s) (fun r (_ : D) => dev_reliable (D := D) -> 0 <= r.1) d.
Proof.
  pose proof (dev_read_ok d s) as W. unfold wp in *. destruct (dev_read s d) as [[r d']| | |] eqn:E; try done.
  intros R. specialize (R d s). unfold wp in R. by rewrite E in R.
Qed.
Lemma dev_write_rel {D} `{BlockDev D} d s bs : length bs = 512%nat -> bytes_ok bs ->
  wp (dev_write s bs) (fun r (_ : D) => dev_writes (D := D) -> 0 <= r) d.
Proof.
  intros Hl Hb. pose proof (dev_write_ok d s bs Hl Hb) as W. unfold wp in *. destruct (dev_write s bs d) as [[r d']| | |] eqn:E; try done.
  intros R. specialize (R d s bs Hl Hb). unfold wp in R. by rewrite E in R.
Qed.

(** A RAM disk with a set of bad sectors. *)
Record ramdisk := mkDisk { rd_sectors : gmap Z (list Z); rd_bad : gset Z }.

Definition as_sector (l : list Z) : list Z := u8 <$> take 512 (l ++ replicate 512 0).

Lemma length_as_sector l : length (as_sector l) = 512%nat.
Proof. unfold as_sector. rewrite length_fmap, length_take, length_app, length_replicate. lia. Qed.

Lemma as_sector_ok l : bytes_ok (as_sector l).
Proof. apply Forall_fmap, Forall_true. intros x. apply u8_range. Qed.

Lemma as_sector_id l : length l = 512%nat -> bytes_ok l -> as_sector l = l.
Proof.
  intros Hl Hb. unfold as_sector. rewrite <- Hl, take_app_length.
  clear Hl. induction Hb as [|b l Hb _ IH]; [done|]. rewrite fmap_cons, IH. by rewrite u8_small.
Qed.

Definition rd_data (d : ramdisk) (s : Z) : list Z := as_sector (default [] (rd_sectors d !! s)).
Definition rd_read (s : Z) : M ramdisk (Z * list Z) := fun d =>
  if decide (s ∈ rd_bad d) then Ok ((-1, []), d) else Ok ((0, rd_data d s), d).
Definition rd_write (s : Z) (bs : list Z) : M ramdisk Z := fun d =>
  if decide (s ∈ rd_bad d) then Ok (-1, d)
  else Ok (0, mkDisk (<[s := bs]> (rd_sectors d)) (rd_bad d)).

#[export] Program Instance ramdisk_dev : BlockDev ramdisk :=
  {| dev_read := rd_read; dev_write := rd_write; sector_data := rd_data |}.
Next Obligation. intros. apply length_as_sector. Qed.
Next Obligation. intros. apply as_sector_ok. Qed.
Next Obligation. intros d s. unfold wp, rd_read. case_decide; split; [done|lia|done|done]. Qed.
Next Obligation.
  intros d s bs Hl Hb. unfold wp, rd_write. case_decide; split; [done|lia| |].
  - intros x Hx. unfold rd_data. simpl. by rewrite lookup_insert_ne.
  - intros _. unfold rd_data. simpl. rewrite lookup_insert_eq. by apply as_sector_id.
Qed.

(** ** Maps keyed by block numbers *)

Definition u32_ok (z : Z) : Prop := 0 <= z < 2 ^ 32.

(** [bm_rep L h t m]: the table [t] holds the map [m] from block numbers to
    entry pointers; the heap's live objects are [L] and the table's own. *)
Class BlockMap (H T : Type) {HH : Heap H} := {
  bm_create : M H (option T);
  bm_lookup : T -> Z -> Z;
  bm_insert_if_absent : T -> Z -> Z -> M H (bool * T);
  bm_delete : T -> Z -> M H (bool * T);
  bm_values : T -> list Z;
  bm_destroy : T -> M H unit;
  bm_rep : gset Z -> H -> T -> gmap Z Z -> Prop;
  bm_create_ok : forall L h, heap_inv h L ->
    wp bm_create (fun o h' => match o with
                              | Some t => bm_rep L h' t ∅
                              | None => heap_inv h' L end) h;
  bm_lookup_ok : forall L h t m b, bm_rep L h t m -> u32_ok b -> bm_lookup t b = default 0 (m !! b);
  bm_keys : forall L h t m b p, bm_rep L h t m -> m !! b = Some p -> u32_ok b;
  bm_insert_ok : forall L h t m b p, bm_rep L h t m -> u32_ok b ->
    wp (bm_insert_if_absent t b p)
       (fun '(r, t') h' => bm_rep L h' t' (if r : bool then <[b := p]> m else m) /\
                           (r = true -> m !! b = None)) h;
  bm_delete_ok : forall L h t m b, bm_rep L h t m -> u32_ok b ->
    wp (bm_delete t b) (fun '(_, t') h' => bm_rep L h' t' (delete b m)) h;
  bm_values_ok : forall L h t m, bm_rep L h t m -> bm_values t ≡ₚ (map_to_list m).*2;
  bm_destroy_ok : forall L h t m, bm_rep L h t m ->
    wp (bm_destroy t) (fun _ h' => heap_inv h' L) h;
  bm_alloc : forall L h t m n, bm_rep L h t m -> 1 <= n <= 4096 ->
    wp (halloc n) (fun a h' => (a = 0 /\ bm_rep L h' t m) \/
                               (a <> 0 /\ (a ∉ L) /\ bm_rep ({[a]} ∪ L) h' t m)) h;
  bm_free : forall L h t m a, bm_rep L h t m -> a ∈ L ->
    wp (hfree a) (fun _ h' => bm_rep (L ∖ {[a]}) h' t m) h }.
Arguments bm_rep {H T HH _} L h t m.

(** ** The hash table as a block map

    The table stores [&entry->block], a pointer to a block number that the
    entry keeps while it lives.  Passing the number [b] as the key [b + 1]
    represents such a pointer by its contents; on memory the default
    functions agree with the ones below ([block_key_default]). *)
Fixpoint fnv_bytes (l : list Z) (hash : Z) : Z :=
  match l with
  | [] => hash
  | b :: l' => fnv_bytes l' (u32 (Z.lxor hash b * 16777619))
  end.
Definition block_kv (p len : Z) : list Z := le_enc (Z.to_nat len) (p - 1).
Definition block_hash (p len : Z) : Z := fnv_bytes (block_kv p len) 2166136261.
Definition block_key_equal (p q len : Z) : bool := bool_decide (block_kv p len = block_kv q len).

Lemma fnv_bytes_loop mem n p h : fnv_loop mem n p h = fnv_bytes (ldbytes mem p n) h.
Proof. revert p h; induction n as [|n IH]; intros p h; simpl; [done|apply IH]. Qed.

Lemma block_key_default mem p q b c :
  p <> 0 -> q <> 0 -> ldbytes mem p 4 = le_enc 4 b -> ldbytes mem q 4 = le_enc 4 c ->
  default_hash_func mem p 4 = block_hash (b + 1) 4 /\
  default_key_equal mem p q 4 = block_key_equal (b + 1) (c + 1) 4.
Proof.
  intros Hp Hq Eb Ec. unfold block_hash, block_key_equal, block_kv. rewrite !Z.add_simpl_r. split.
  - unfold default_hash_func. rewrite fnv_bytes_loop. change (Z.to_nat 4) with 4%nat. by rewrite Eb.
  - apply Bool.eq_true_iff_eq. rewrite bool_decide_eq_true.
    rewrite (kl_equal _ _ _ (default_key_laws mem) p q 4 Hp Hq). unfold key_bytes.
    change (Z.to_nat 4) with 4%nat. by rewrite Eb, Ec.
Qed.

Lemma fnv_bytes_range l h : 0 <= h < 2 ^ 32 -> 0 <= fnv_bytes l h < 2 ^ 32.
Proof. revert h; induction l as [|b l IH]; intros h Hh; [done|]. simpl. apply IH, u32_range. Qed.

Lemma block_key_laws : key_laws block_hash block_key_equal block_kv.
Proof.
  split.
  - intros. unfold block_key_equal. by rewrite bool_decide_eq_true.
  - intros p q l1 l2 H1 H2 E. apply (f_equal length) in E. unfold block_kv in E.
    rewrite !length_le_enc in E. lia.
  - intros p q len E. unfold block_hash. by rewrite E.
  - intros p len. apply fnv_bytes_range. lia.
Qed.

Lemma le_enc4_inj b c : u32_ok b -> u32_ok c -> le_enc 4 b = le_enc 4 c -> b = c.
Proof.
  intros Hb Hc E. apply (f_equal le_dec) in E. rewrite !le_dec_enc in E.
  change (2 ^ (8 * Z.of_nat 4)) with (2 ^ 32) in E. by rewrite !Z.mod_small in E.
Qed.

Section HashBlockMap.
Context {H : Type} `{HH : Heap H}.

Definition block_table_rep (L : gset Z) (h : H) (t : hash_table) (m : gmap Z Z) : Prop :=
  ht_inv block_kv L h t /\
  (forall k v, abs block_kv t !! k = Some v <-> exists b, u32_ok b /\ k = le_enc 4 b /\ m !! b = Some v) /\
  (forall b v, m !! b = Some v -> u32_ok b).

Lemma block_kv_key b : block_kv (b + 1) 4 = le_enc 4 b.
Proof. unfold block_kv. by rewrite Z.add_simpl_r. Qed.

Lemma rep_lookup L h t m b : block_table_rep L h t m -> u32_ok b ->
  abs block_kv t !! le_enc 4 b = m !! b.
Proof.
  intros (_ & R & _) Hb. destruct (m !! b) as [v|] eqn:E.
  - apply R. by exists b.
  - destruct (abs block_kv t !! le_enc 4 b) as [v|] eqn:E'; [|done].
    apply R in E' as (c & Hc & Ek & Em). apply le_enc4_inj in Ek; [|done..]. congruence.
Qed.

Definition block_create : M H (option hash_table) :=
  hash_table_create ∅ 16 (Some block_hash) (Some block_key_equal).
Definition block_lookup (t : hash_table) (b : Z) : Z := hash_table_lookup t (b + 1) 4.
Definition block_insert (t : hash_table) (b p : Z) : M H (bool * hash_table) :=
  hash_table_insert_if_absent t (b + 1) 4 p.
Definition block_delete (t : hash_table) (b : Z) : M H (bool * hash_table) :=
  hash_table_delete t (b + 1) 4.
Definition block_values (t : hash_table) : list Z := n_value <$> nodes t.
Definition block_destroy (t : hash_table) : M H unit := hash_table_destroy (Some t).

(** [block_values] is the order in which [hash_table_foreach] visits. *)
Lemma foreach_values {X} (t : hash_table) (cb : Z -> M X unit) s :
  hash_table_foreach t (fun _ _ v => cb v) s = foldr (fun v k => cb v ;;; k) (mret tt) (block_values t) s.
Proof.
  unfold hash_table_foreach, block_values, nodes.
  assert (forall b (K : M X unit) s0,
    mbind' (foreach_chain (fun _ _ v => cb v) b) (fun _ => K) s0
    = foldr (fun v k => cb v ;;; k) K (n_value <$> b) s0) as Hc.
  { induction b as [|x b IH]; intros K s0; [done|]. simpl.
    destruct (cb (n_value x) s0) as [[[] s1]| | |]; [|done..]. apply IH. }
  revert s; induction (ht_buckets t) as [|b bs IH]; intros s; [done|].
  cbn [foreach_buckets concat]. rewrite Hc, fmap_app, foldr_app.
  assert (forall l (K K' : M X unit) s0, (forall s1, K s1 = K' s1) ->
    foldr (fun v k => cb v ;;; k) K l s0 = foldr (fun v k => cb v ;;; k) K' l s0) as Hx.
  { induction l as [|v l IHl]; intros K K' s0 E; simpl; [apply E|].
    destruct (cb v s0) as [[[] s1]| | |]; [|done..]. by apply IHl. }
  apply Hx, IH.
Qed.

Lemma rep_insert L h t m b p h' t' (r : bool) :
  block_table_rep L h t m -> u32_ok b -> ht_inv block_kv L h' t' ->
  match m !! b with
  | Some _ => r = false /\ abs block_kv t' = abs block_kv t
  | None => abs block_kv t' = (if r then <[le_enc 4 b := p]> (abs block_kv t) else abs block_kv t)
  end ->
  block_table_rep L h' t' (if r then <[b := p]> m else m) /\ (r = true -> m !! b = None).
Proof.
  intros (I & R & K) Hb I' E.
  assert (abs block_kv t' = abs block_kv t -> block_table_rep L h' t' m) as Hsame.
  { intros Ea. split; [done|]. by rewrite Ea. }
  destruct (m !! b) as [q|] eqn:Em.
  { destruct E as [-> E]. split; [auto|done]. }
  split; [|done]. destruct r; [|auto]. split; [done|]. split.
  - intros k v. rewrite E, lookup_insert. case_decide as D.
    + subst k. split.
      * intros [= <-]. exists b. by rewrite lookup_insert_eq.
      * intros (c & Hc & Ek & Ev). apply le_enc4_inj in Ek as <-; [|done..].
        by rewrite lookup_insert_eq in Ev.
    + rewrite R. split; intros (c & Hc & -> & Ev); exists c; (split; [done|]; split; [done|]).
      * rewrite lookup_insert_ne; [done|]. congruence.
      * rewrite lookup_insert_ne in Ev; [done|]. congruence.
  - intros c v. rewrite lookup_insert. case_decide; [by subst|apply K].
Qed.

Lemma rep_delete L h t m b h' t' :
  block_table_rep L h t m -> u32_ok b -> ht_inv block_kv L h' t' ->
  abs block_kv t' = delete (le_enc 4 b) (abs block_kv t) -> block_table_rep L h' t' (delete b m).
Proof.
  intros (I & R & K) Hb I' E. split; [done|]. split.
  - intros k v. rewrite E, lookup_delete_Some, R. split.
    + intros (Hk & c & Hc & -> & Ev). exists c. split; [done|]. split; [done|].
      rewrite lookup_delete_ne; [done|]. congruence.
    + intros (c & Hc & -> & [Hne Ev]%lookup_delete_Some). split; [|by exists c].
      intros Ek. by apply le_enc4_inj in Ek.
  - intros c v [_ Ev]%lookup_delete_Some. by apply (K c v).
Qed.

Lemma rep_values L h t m : block_table_rep L h t m -> block_values t ≡ₚ (map_to_list m).*2.
Proof.
  intros (I & R & K).
  assert (block_values t ≡ₚ (map_to_list (abs block_kv t)).*2) as P.
  { unfold block_values, abs. rewrite map_to_list_to_map.
    - rewrite <- list_fmap_compose. done.
    - rewrite nodes_keys_fst. apply I. }
  rewrite P. clear P I. revert R K.
  generalize (abs block_kv t) as A. intros A. revert A.
  induction m as [|b v m Hm IH] using map_ind; intros A R K.
  - assert (A = ∅) as ->.
    { apply map_eq. intros k. rewrite lookup_empty. destruct (A !! k) eqn:E; [|done].
      apply R in E as (b & _ & _ & Hb). by rewrite lookup_empty in Hb. }
    by rewrite !map_to_list_empty.
  - assert (u32_ok b) as Hb by (apply (K b v); by rewrite lookup_insert_eq).
    assert (A !! le_enc 4 b = Some v) as EA.
    { apply R. exists b. by rewrite lookup_insert_eq. }
    rewrite <- (insert_delete_id A (le_enc 4 b) v EA).
    rewrite !map_to_list_insert by (done || by rewrite lookup_delete_eq).
    rewrite !fmap_cons. f_equiv. apply IH.
    + intros k w. rewrite lookup_delete_Some, R. split.
      * intros (Hk & c & Hc & -> & Ev). exists c. split; [done|]. split; [done|].
        rewrite lookup_insert_ne in Ev; [done|]. congruence.
      * intros (c & Hc & -> & Ev). split; [intros Ek; apply le_enc4_inj in Ek; [|done..]; congruence|].
        exists c. split; [done|]. split; [done|]. rewrite lookup_insert_ne; [done|]. congruence.
    + intros c w Hc. apply (K c w). rewrite lookup_insert_ne; [done|]. congruence.
Qed.

Lemma rep_alloc L h t m n :
  block_table_rep L h t m -> 1 <= n <= 4096 ->
  wp (halloc n) (fun a h' => (a = 0 /\ block_table_rep L h' t m) \/
                             (a <> 0 /\ (a ∉ L) /\ block_table_rep ({[a]} ∪ L) h' t m)) h.
Proof.
  intros ([I O] & R & K) Hn. unfold wp.
  destruct (owns_alloc block_kv L h _ n O Hn) as [(a & h' & -> & Ha & O')|[(h' & -> & O')| ->]]; [right|left|done].
  - destruct O' as [A B C]. apply NoDup_cons in B as [Bn B]. split; [done|].
    assert (a ∉ L) by (apply C; left). split; [done|]. split; [|done]. split; [done|]. split.
    + replace ({[a]} ∪ L ∪ list_to_set (ptrs t)) with (L ∪ list_to_set (a :: ptrs t)); [done|].
      simpl list_to_set. set_solver.
    + done.
    + intros q Hq. rewrite not_elem_of_union, not_elem_of_singleton. split; [congruence|].
      apply C. by right.
  - split; [done|]. split; [|done]. by split.
Qed.

Lemma rep_free L h t m a :
  block_table_rep L h t m -> a ∈ L -> wp (hfree a) (fun _ h' => block_table_rep (L ∖ {[a]}) h' t m) h.
Proof.
  intros ([I [A B C]] & R & K) Ha. unfold wp.
  destruct (hfree_ok h _ a A) as (h' & -> & A'); [set_solver|]. split; [|done]. split; [done|]. split.
  - replace (L ∖ {[a]} ∪ list_to_set (ptrs t)) with ((L ∪ list_to_set (ptrs t)) ∖ {[a]}); [done|].
    assert (a ∉ ptrs t) by (intros Hi; by apply (C a)). set_solver.
  - done.
  - intros q Hq. specialize (C q Hq). set_solver.
Qed.

#[export] Program Instance hash_block_map : BlockMap H hash_table :=
  {| bm_create := block_create; bm_lookup := block_lookup; bm_insert_if_absent := block_insert;
     bm_delete := block_delete; bm_values := block_values; bm_destroy := block_destroy;
     bm_rep := block_table_rep; bm_values_ok := rep_values; bm_alloc := rep_alloc;
     bm_free := rep_free |}.
Next Obligation.
  intros L h I. unfold wp, block_create.
  destruct (ht_create_spec block_kv L h ∅ 16 (Some block_hash) (Some block_key_equal) I ltac:(lia)
    block_key_laws) as [(t & h' & -> & I' & A & _)|[(h' & -> & I')| ->]]; [|done|done].
  split; [done|]. rewrite A. split; [|by intros]. intros k v. rewrite lookup_empty. split; [done|].
  intros (b & _ & _ & Hb). by rewrite lookup_empty in Hb.
Qed.
Next Obligation.
  intros L h t m b R Hb. unfold block_lookup.
  rewrite (hash_table_lookup_spec block_kv) by (apply R || unfold u32_ok in Hb; lia).
  by rewrite block_kv_key, (rep_lookup L h t m).
Qed.
Next Obligation. intros L h t m b p (_ & _ & K). apply K. Qed.
Next Obligation.
  intros L h t m b p R Hb. unfold wp, block_insert.
  pose proof (insert_if_absent_spec block_kv L h t (b + 1) 4 p (proj1 R)) as W.
  rewrite block_kv_key, (rep_lookup L h t m b R Hb) in W. unfold u32_ok in Hb.
  specialize (W ltac:(lia) ltac:(lia)).
  destruct (hash_table_insert_if_absent t (b + 1) 4 p h) as [[[r t'] h']| | |]; try done.
  destruct W as [I' W]. apply (rep_insert L h t); [done|done|done|].
  destruct (m !! b); [|done]. destruct W as (-> & -> & ->). done.
Qed.
Next Obligation.
  intros L h t m b R Hb. unfold wp, block_delete.
  pose proof (delete_spec block_kv L h t (b + 1) 4 (proj1 R)) as W.
  rewrite block_kv_key in W. assert (u32_ok b) as Hb' by done. unfold u32_ok in Hb.
  specialize (W ltac:(lia) ltac:(lia)).
  destruct (hash_table_delete t (b + 1) 4 h) as [[[r t'] h']| | |]; try done.
  destruct W as (I' & W & _). by apply (rep_delete L h t).
Qed.
Next Obligation.
  intros L h t m R. unfold wp, block_destroy.
  destruct (destroy_spec block_kv L h t (proj1 R)) as (h' & -> & I). done.
Qed.

End HashBlockMap.
