(* ===== verification/Ext2Cache.v ===== *)
(** The block layer of ext2 (fs/ext2.c): raw block transfers and the
    write-back buffer cache.

    Cache entries are heap structs: [fs_ents] maps the address of a
    [struct ext2_cache_entry] to its contents, the table maps a block number
    to that address.  Everything above this file goes through
    [ext2_read_block] and [ext2_write_block]. *)
From stdpp Require Import base gmap list.
From Stdlib Require Import ZArith Lia.
From S2P Require Import Prelude Bytes HashMap BlockDev.
Open Scope Z_scope.

(** The fields of [struct ext2_fs_priv] that mounting fixes; the mutable ones
    ([free_inodes], [free_blocks], [cache]) are in [fs_state]. *)
Record ext2_fs_priv := mkPriv {
  block_size : Z;
  inodes_per_group : Z;
  blocks_per_group : Z;
  inode_size : Z;
  num_groups : Z;
  inodes_count : Z;
  blocks_count : Z;
  first_data_block : Z;
  ptrs_per_block : Z }.

Record ext2_cache_entry := mkEntry {
  ce_block : Z;
  ce_data_ptr : Z;
  ce_data : list Z;
  ce_dirty : bool }.

Definition SIZEOF_CACHE_ENTRY : Z := 24.
Definition EXT2_FLUSH_BATCH : Z := 512.

Record fs_state (D H T : Type) := mkFs {
  fs_dev : D;
  fs_heap : H;
  fs_cache : option T;
  fs_ents : gmap Z ext2_cache_entry;
  fs_free_inodes : Z;
  fs_free_blocks : Z }.
Arguments mkFs {D H T}.
Arguments fs_dev {D H T}.
Arguments fs_heap {D H T}.
Arguments fs_cache {D H T}.
Arguments fs_ents {D H T}.
Arguments fs_free_inodes {D H T}.
Arguments fs_free_blocks {D H T}.

Section Cache.
Context {D H T : Type} `{DD : BlockDev D} `{HH : Heap H} `{BM : !BlockMap H T}.
Abbreviation St := (fs_state D H T).

Definition set_dev (d : D) (s : St) : St :=
  mkFs d (fs_heap s) (fs_cache s) (fs_ents s) (fs_free_inodes s) (fs_free_blocks s).
Definition set_heap (h : H) (s : St) : St :=
  mkFs (fs_dev s) h (fs_cache s) (fs_ents s) (fs_free_inodes s) (fs_free_blocks s).
Definition set_cache (c : option T) (s : St) : St :=
  mkFs (fs_dev s) (fs_heap s) c (fs_ents s) (fs_free_inodes s) (fs_free_blocks s).
Definition set_ents (e : gmap Z ext2_cache_entry) (s : St) : St :=
  mkFs (fs_dev s) (fs_heap s) (fs_cache s) e (fs_free_inodes s) (fs_free_blocks s).
Definition set_free_inodes (n : Z) (s : St) : St :=
  mkFs (fs_dev s) (fs_heap s) (fs_cache s) (fs_ents s) n (fs_free_blocks s).
Definition set_free_blocks (n : Z) (s : St) : St :=
  mkFs (fs_dev s) (fs_heap s) (fs_cache s) (fs_ents s) (fs_free_inodes s) n.

Definition on_dev {A} (m : M D A) : M St A := zoom fs_dev set_dev m.
Definition on_heap {A} (m : M H A) : M St A := zoom fs_heap set_heap m.
(** [slab_alloc] and [slab_free] on the heap of the state *)
Definition salloc (n : Z) : M St Z := on_heap (halloc n).
Definition sfree (p : Z) : M St unit := on_heap (hfree p).

(** [buf = slab_alloc(n); if (buf == NULL) return fail; ...; slab_free(buf)],
    the free on every return of the body *)
Definition with_buf {A} (n : Z) (fail : A) (body : M St A) : M St A :=
  let* buf := salloc n in
  if buf =? 0 then mret fail else
  let* r := body in
  sfree buf ;;; mret r.

(** a cache entry reached through its pointer *)
Definition get_entry (p : Z) : M St ext2_cache_entry :=
  let* es := gets fs_ents in
  match es !! p with Some e => mret e | None => fault end.
Definition put_entry (p : Z) (e : ext2_cache_entry) : M St unit :=
  modify (fun s => set_ents (<[p := e]> (fs_ents s)) s).
Definition drop_entry (p : Z) : M St unit :=
  modify (fun s => set_ents (delete p (fs_ents s)) s).

(** ** Block I/O *)
Definition ext2_block_sectors (fs : ext2_fs_priv) : Z := block_size fs / 512.
Definition ext2_block_to_sector (fs : ext2_fs_priv) (block : Z) : Z :=
  u64 (block * ext2_block_sectors fs).

Fixpoint read_sectors (n : nat) (sector : Z) : M D (option (list Z)) :=
  match n with
  | O => mret (Some [])
  | S n' =>
      let* r := dev_read sector in
      if r.1 <? 0 then mret None else
      let* rest := read_sectors n' (sector + 1) in
      mret (app r.2 <$> rest)
  end.
Definition ext2_disk_read_raw (fs : ext2_fs_priv) (block : Z) : M St (option (list Z)) :=
  on_dev (read_sectors (Z.to_nat (ext2_block_sectors fs)) (ext2_block_to_sector fs block)).

Fixpoint write_sectors (n : nat) (sector : Z) (buf : list Z) : M D Z :=
  match n with
  | O => mret 0
  | S n' =>
      let* r := dev_write sector (take 512 buf) in
      if r <? 0 then mret (-1) else write_sectors n' (sector + 1) (drop 512 buf)
  end.
Definition ext2_disk_write_raw (fs : ext2_fs_priv) (block : Z) (buf : list Z) : M St Z :=
  on_dev (write_sectors (Z.to_nat (ext2_block_sectors fs)) (ext2_block_to_sector fs block) buf).

(** ** The cache *)
Definition ext2_cache_init : M St Z :=
  let* c := on_heap bm_create in
  modify (set_cache c) ;;;
  mret (match c with None => -1 | Some _ => 0 end).

Definition ce_set_dirty (b : bool) (e : ext2_cache_entry) : ext2_cache_entry :=
  mkEntry (ce_block e) (ce_data_ptr e) (ce_data e) b.
Definition ce_store (buf : list Z) (e : ext2_cache_entry) : ext2_cache_entry :=
  mkEntry (ce_block e) (ce_data_ptr e) buf true.

(** The callback collects at most [cap] dirty entries, clearing their flag. *)
Definition ext2_cache_gather_cb (cap : Z) (ents : list Z) (value : Z) : M St (list Z) :=
  if value =? 0 then mret ents else
  let* e := get_entry value in
  if ce_dirty e && (Z.of_nat (length ents) <? cap)
  then put_entry value (ce_set_dirty false e) ;;; mret (ents ++ [value])
  else mret ents.
Fixpoint gather (cap : Z) (values ents : list Z) : M St (list Z) :=
  match values with
  | [] => mret ents
  | v :: vs => let* ents' := ext2_cache_gather_cb cap ents v in gather cap vs ents'
  end.

(** write one batch back; the number of failures *)
Fixpoint flush_batch (fs : ext2_fs_priv) (ents : list Z) (failed : Z) : M St Z :=
  match ents with
  | [] => mret failed
  | p :: ps =>
      let* e := get_entry p in
      let* r := ext2_disk_write_raw fs (ce_block e) (ce_data e) in
      if r <? 0
      then let* e' := get_entry p in
           put_entry p (ce_set_dirty true e') ;;; flush_batch fs ps (u32 (failed + 1))
      else flush_batch fs ps failed
  end.

Fixpoint flush_loop (fuel : nat) (fs : ext2_fs_priv) (t : T) (ret : Z) : M St Z :=
  match fuel with
  | O => nofuel
  | S fuel' =>
      let* ents := gather EXT2_FLUSH_BATCH (bm_values t) [] in
      let n := Z.of_nat (length ents) in
      if n =? 0 then mret ret else
      let* failed := flush_batch fs ents 0 in
      let ret' := if failed =? 0 then ret else -1 in
      if n <? EXT2_FLUSH_BATCH then mret ret' else
      if failed =? n then mret ret' else
      flush_loop fuel' fs t ret'
  end.

(** Every round but the last writes at least one dirty entry. *)
Definition flush_fuel (s : St) : nat := S (size (fs_ents s)).

Definition ext2_cache_flush (fs : ext2_fs_priv) : M St Z :=
  let* c := gets fs_cache in
  match c with
  | None => mret 0
  | Some t =>
      with_buf (EXT2_FLUSH_BATCH * SIZEOF_PTR) (-1)
        (let* fuel := gets flush_fuel in flush_loop fuel fs t 0)
  end.

Definition ext2_cache_free_cb (value : Z) : M St unit :=
  if value =? 0 then mret tt else
  let* e := get_entry value in
  (if ce_data_ptr e =? 0 then mret tt else sfree (ce_data_ptr e)) ;;;
  drop_entry value ;;;
  sfree value.
Fixpoint free_values (vs : list Z) : M St unit :=
  match vs with
  | [] => mret tt
  | v :: vs' => ext2_cache_free_cb v ;;; free_values vs'
  end.
Definition ext2_cache_destroy : M St unit :=
  let* c := gets fs_cache in
  match c with
  | None => mret tt
  | Some t =>
      free_values (bm_values t) ;;;
      on_heap (bm_destroy t) ;;;
      modify (set_cache None)
  end.

(** give back an entry that could not be kept *)
Definition release_entry (e : Z) (d : Z) : M St unit :=
  sfree d ;;; drop_entry e ;;; sfree e.

Definition table_insert (t : T) (block e : Z) : M St bool :=
  let* r := on_heap (bm_insert_if_absent t block e) in
  modify (set_cache (Some r.2)) ;;; mret r.1.

Definition ext2_read_block (fs : ext2_fs_priv) (block : Z) : M St (option (list Z)) :=
  let* c := gets fs_cache in
  match c with
  | None => ext2_disk_read_raw fs block
  | Some t =>
      let p := bm_lookup t block in
      if negb (p =? 0) then (let* e := get_entry p in mret (Some (ce_data e))) else
      let* e := salloc SIZEOF_CACHE_ENTRY in
      if e =? 0 then ext2_disk_read_raw fs block else
      let* d := salloc (block_size fs) in
      if d =? 0 then sfree e ;;; ext2_disk_read_raw fs block else
      let* r := ext2_disk_read_raw fs block in
      match r with
      | None => sfree d ;;; sfree e ;;; ext2_disk_read_raw fs block
      | Some data =>
          put_entry e (mkEntry block d data false) ;;;
          let* t' := (if negb (bm_lookup t block =? 0)
                      then let* r := on_heap (bm_delete t block) in
                           modify (set_cache (Some r.2)) ;;; mret r.2
                      else mret t) in
          let* ok := table_insert t' block e in
          if negb ok then release_entry e d ;;; ext2_disk_read_raw fs block
          else mret (Some data)
      end
  end.

Definition ext2_write_block (fs : ext2_fs_priv) (block : Z) (buf : list Z) : M St Z :=
  let* c := gets fs_cache in
  match c with
  | None => ext2_disk_write_raw fs block buf
  | Some t =>
      let p := bm_lookup t block in
      if negb (p =? 0)
      then (let* e := get_entry p in put_entry p (ce_store buf e) ;;; mret 0) else
      let* e := salloc SIZEOF_CACHE_ENTRY in
      if e =? 0 then ext2_disk_write_raw fs block buf else
      let* d := salloc (block_size fs) in
      if d =? 0 then sfree e ;;; ext2_disk_write_raw fs block buf else
      put_entry e (mkEntry block d buf true) ;;;
      let* ok := table_insert t block e in
      if negb ok
      then (let* c2 := gets fs_cache in
            let old := match c2 with Some t2 => bm_lookup t2 block | None => 0 end in
            (if negb (old =? 0)
             then let* o := get_entry old in put_entry old (ce_store buf o)
             else mret tt) ;;;
            release_entry e d ;;; mret 0)
      else mret 0
  end.

End Cache.
