(* ===== verification/Ext2CacheSpec.v ===== *)
(** The buffer cache of ext2 (Ext2Cache.v) is transparent: blocks read back
    what was last written to them, whether or not they are cached, and a
    flush brings the disk up to date.  Every path gives back the heap objects
    it took, except those of cached entries. *)
From stdpp Require Import base gmap list.
From Stdlib Require Import ZArith Lia.
From S2P Require Import Prelude Bytes HashMap BlockDev Ext2Cache.
Open Scope Z_scope.

(** What mounting guarantees about the block size. *)
Definition block_size_ok (fs : ext2_fs_priv) : Prop :=
  block_size fs = 1024 \/ block_size fs = 2048 \/ block_size fs = 4096.

(** a buffer that holds a block *)
Definition block_ok (fs : ext2_fs_priv) (l : list Z) : Prop :=
  Z.of_nat (length l) = block_size fs /\ bytes_ok l.

Section CacheSpec.
Context {D H T : Type} `{DD : BlockDev D} `{HH : Heap H} `{BM : !BlockMap H T}.
Abbreviation St := (fs_state D H T).
Implicit Types (st : fs_state D H T) (L : gset Z).
Abbreviation dev_reliable := (BlockDev.dev_reliable (D := D)).
Abbreviation dev_writes := (BlockDev.dev_writes (D := D)).
Abbreviation heap_reliable := (BlockDev.heap_reliable (H := H)).

(** ** Raw transfers *)
Fixpoint disk_sectors (n : nat) (s : Z) (d : D) : list Z :=
  match n with
  | O => []
  | S n' => sector_data d s ++ disk_sectors n' (s + 1) d
  end.

Lemma disk_sectors_ext n s d d' :
  (forall x, s <= x < s + Z.of_nat n -> sector_data d' x = sector_data d x) ->
  disk_sectors n s d' = disk_sectors n s d.
Proof.
  revert s; induction n as [|n IH]; intros s E; simpl; [done|].
  rewrite E, IH; [done| |lia]. intros x Hx. apply E. lia.
Qed.

Lemma length_disk_sectors n s d : length (disk_sectors n s d) = (512 * n)%nat.
Proof.
  revert s; induction n as [|n IH]; intros s; [done|]. cbn [disk_sectors].
  rewrite length_app, IH, sector_len. lia.
Qed.

Lemma disk_sectors_bytes n s d : bytes_ok (disk_sectors n s d).
Proof.
  revert s; induction n as [|n IH]; intros s; cbn [disk_sectors]; [constructor|].
  apply Forall_app. split; [apply sector_ok|apply IH].
Qed.

Lemma read_sectors_ok n s d :
  wp (read_sectors n s) (fun r d' => (forall x, sector_data d' x = sector_data d x) /\
     (r = None \/ r = Some (disk_sectors n s d)) /\ (dev_reliable -> r <> None)) d.
Proof.
  revert s d; induction n as [|n IH]; intros s d; cbn [read_sectors].
  { apply wp_ret. split; [done|]. split; [by right|done]. }
  apply wp_bind.
  eapply wp_conseq; [exact (wp_and _ _ _ _ (dev_read_ok d s) (dev_read_rel d s))|].
  intros [r bs] d1 [[S1 E1] R1]. simpl. destruct (r <? 0) eqn:Hr; breflect.
  { apply wp_ret. split; [done|]. split; [by left|]. intros Q. specialize (R1 Q). simpl in R1. lia. }
  apply wp_bind. eapply wp_conseq; [apply IH|]. intros o d2 (S2 & E2 & R2). apply wp_ret.
  split; [intros x; by rewrite S2|]. split.
  - destruct E2 as [->| ->]; [by left|right]. simpl. rewrite (E1 Hr).
    by rewrite (disk_sectors_ext n (s + 1) d d1).
  - intros Q. specialize (R2 Q). by destruct o.
Qed.

Lemma write_sectors_ok n s buf d :
  length buf = (512 * n)%nat -> bytes_ok buf ->
  wp (write_sectors n s buf) (fun r d' => (r = 0 \/ (r = -1 /\ ~ dev_writes)) /\
     (forall x, x < s \/ s + Z.of_nat n <= x -> sector_data d' x = sector_data d x) /\
     (r = 0 -> disk_sectors n s d' = buf)) d.
Proof.
  revert s buf d; induction n as [|n IH]; intros s buf d Hl Hb; cbn [write_sectors].
  { apply wp_ret. split; [by left|]. split; [done|]. intros _.
    symmetry. apply nil_length_inv. simpl in *. lia. }
  apply wp_bind. assert (length (take 512 buf) = 512%nat) as Hlt by (rewrite length_take; lia).
  assert (bytes_ok (take 512 buf)) as Hbt by by apply Forall_take.
  eapply wp_conseq; [exact (wp_and _ _ _ _ (dev_write_ok d s (take 512 buf) Hlt Hbt) (dev_write_rel d s _ Hlt Hbt))|].
  intros r d1 [[S1 E1] R]. destruct (r <? 0) eqn:Hr; breflect.
  { apply wp_ret. split; [right; split; [done|intros Q; specialize (R Q); lia]|].
    split; [|done]. intros x Hx. apply S1. lia. }
  eapply wp_conseq; [apply (IH (s + 1) (drop 512 buf)); [rewrite length_drop; lia|by apply Forall_drop]|].
  intros r2 d2 (R2 & S2 & E2). split; [done|]. split.
  - intros x Hx. rewrite S2 by lia. apply S1. lia.
  - intros Hr2. cbn [disk_sectors]. rewrite (E2 Hr2), (S2 s) by lia. rewrite (E1 Hr). apply take_drop.
Qed.

Context (fs : ext2_fs_priv) (BS : block_size_ok fs).

Definition nsec : nat := Z.to_nat (block_size fs / 512).
Definition disk_block (d : D) (b : Z) : list Z := disk_sectors nsec (b * Z.of_nat nsec) d.

Lemma nsec_spec : Z.of_nat nsec = block_size fs / 512 /\ Z.of_nat (512 * nsec) = block_size fs /\
  2 <= Z.of_nat nsec <= 8.
Proof. unfold nsec. destruct BS as [->|[->| ->]]; split; [done|by split|done|by split|done|by split]. Qed.

Lemma block_to_sector b : u32_ok b -> ext2_block_to_sector fs b = b * Z.of_nat nsec.
Proof.
  intros Hb. destruct nsec_spec as (E & _ & Hn). unfold ext2_block_to_sector, ext2_block_sectors.
  rewrite <- E. apply u64_small. unfold u32_ok in Hb. nia.
Qed.

Lemma disk_block_ok d b : block_ok fs (disk_block d b).
Proof.
  split; [|apply disk_sectors_bytes]. unfold disk_block. rewrite length_disk_sectors. apply nsec_spec.
Qed.

Lemma disk_read_raw_ok st b : u32_ok b ->
  wp (ext2_disk_read_raw fs b) (fun r st' => exists d', st' = set_dev d' st /\
     (forall c, disk_block d' c = disk_block (fs_dev st) c) /\
     (r = None \/ r = Some (disk_block (fs_dev st) b)) /\ (dev_reliable -> r <> None)) st.
Proof.
  intros Hb. apply wp_zoom. rewrite block_to_sector by done. eapply wp_conseq; [apply read_sectors_ok|].
  intros r d' (S & E & R). exists d'. split; [done|]. split; [|done].
  intros c. apply disk_sectors_ext. intros x _. apply S.
Qed.

Lemma disk_write_raw_ok st b buf : u32_ok b -> block_ok fs buf ->
  wp (ext2_disk_write_raw fs b buf) (fun r st' => (r = 0 \/ (r = -1 /\ ~ dev_writes)) /\ exists d', st' = set_dev d' st /\
     (forall c, c <> b -> disk_block d' c = disk_block (fs_dev st) c) /\
     (r = 0 -> disk_block d' b = buf)) st.
Proof.
  intros Hb [Hl Hk]. apply wp_zoom. rewrite block_to_sector by done.
  destruct nsec_spec as (_ & E & Hn). eapply wp_conseq.
  { apply (write_sectors_ok nsec (b * Z.of_nat nsec) buf); [lia|done]. }
  intros r d' (R & S & W). split; [done|]. exists d'. split; [done|]. split.
  - intros c Hc. apply disk_sectors_ext. intros x Hx. apply S.
    destruct (decide (c < b)); [left|right]; nia.
  - exact W.
Qed.

(** ** The view through the cache *)
Definition view st (b : Z) : list Z :=
  match fs_cache st with
  | None => disk_block (fs_dev st) b
  | Some t =>
      let p := bm_lookup t b in
      if p =? 0 then disk_block (fs_dev st) b
      else match fs_ents st !! p with Some e => ce_data e | None => [] end
  end.

(** the same blocks and the same counters *)
Definition eqv st st' : Prop :=
  (forall b, u32_ok b -> view st' b = view st b) /\
  fs_free_inodes st' = fs_free_inodes st /\ fs_free_blocks st' = fs_free_blocks st.

(** the same counters and the same blocks except [b] *)
Definition eqv_but (b : Z) st st' : Prop :=
  (forall c, u32_ok c -> c <> b -> view st' c = view st c) /\
  fs_free_inodes st' = fs_free_inodes st /\ fs_free_blocks st' = fs_free_blocks st.

#[export] Instance eqv_refl : Reflexive eqv.
Proof. intros st. done. Qed.
#[export] Instance eqv_trans : Transitive eqv.
Proof.
  intros a b c (A & B & C) (A' & B' & C'). split; [|split; congruence].
  intros x Hx. rewrite A' by done. by apply A.
Qed.

(** ** The invariant *)
Definition owned (ents : gmap Z ext2_cache_entry) : list Z :=
  concat ((fun pe => [pe.1; ce_data_ptr pe.2]) <$> map_to_list ents).

Definition entry_ok (d : D) (e : ext2_cache_entry) : Prop :=
  block_ok fs (ce_data e) /\ (ce_dirty e = false -> ce_data e = disk_block d (ce_block e)).

(** [L] are the objects of others; every cached block has one entry, its
    struct and its buffer are live and owned by the cache alone, and clean
    entries agree with the disk. *)
Record cache_inv L st (t : T) (m : gmap Z Z) : Prop := {
  ci_cache : fs_cache st = Some t;
  ci_rep : bm_rep (L ∪ list_to_set (owned (fs_ents st))) (fs_heap st) t m;
  ci_nodup : NoDup (owned (fs_ents st));
  ci_disj : forall p, p ∈ owned (fs_ents st) -> p ∉ L;
  ci_map : forall b p, m !! b = Some p -> p <> 0 /\ exists e, fs_ents st !! p = Some e /\ ce_block e = b;
  ci_ent : forall p e, fs_ents st !! p = Some e ->
    m !! ce_block e = Some p /\ ce_data_ptr e <> 0 /\ entry_ok (fs_dev st) e }.
Definition fs_inv L st : Prop := exists t m, cache_inv L st t m.

Lemma owned_insert ents p e :
  ents !! p = None -> owned (<[p := e]> ents) ≡ₚ p :: ce_data_ptr e :: owned ents.
Proof. intros E. unfold owned. rewrite map_to_list_insert by done. done. Qed.

Lemma owned_delete ents p e :
  ents !! p = Some e -> owned ents ≡ₚ p :: ce_data_ptr e :: owned (delete p ents).
Proof.
  intros E. rewrite <- (insert_delete_id ents p e E) at 1.
  rewrite owned_insert by apply lookup_delete_eq. done.
Qed.

Lemma owned_update ents p e e' :
  ents !! p = Some e -> ce_data_ptr e' = ce_data_ptr e -> owned (<[p := e']> ents) ≡ₚ owned ents.
Proof.
  intros E E'. rewrite (owned_delete ents p e E).
  rewrite <- insert_delete_eq, owned_insert by apply lookup_delete_eq. by rewrite E'.
Qed.

Lemma owned_elem ents p e : ents !! p = Some e -> p ∈ owned ents /\ ce_data_ptr e ∈ owned ents.
Proof.
  intros E. rewrite (owned_delete ents p e E). split; [left|right; left].
Qed.

Lemma owned_set_perm ents ents' : owned ents ≡ₚ owned ents' ->
  list_to_set (owned ents) =@{gset Z} list_to_set (owned ents').
Proof. intros P. by apply list_to_set_perm_L. Qed.

Section Inv.
Context {L st t m} (I : cache_inv L st t m).

Lemma inv_lookup b : u32_ok b -> bm_lookup t b = default 0 (m !! b).
Proof. intros. eapply bm_lookup_ok; [apply I|done]. Qed.

Lemma view_cached b p e : m !! b = Some p -> fs_ents st !! p = Some e -> view st b = ce_data e.
Proof.
  intros Em Ee. assert (u32_ok b) as Hb by (eapply bm_keys; [apply I|done]).
  unfold view. rewrite (ci_cache _ _ _ _ I), inv_lookup, Em by done. simpl.
  destruct (ci_map _ _ _ _ I b p Em) as [Hp _]. rewrite (proj2 (Z.eqb_neq _ _) Hp). by rewrite Ee.
Qed.

Lemma view_uncached b : u32_ok b -> m !! b = None -> view st b = disk_block (fs_dev st) b.
Proof.
  intros Hb Em. unfold view. rewrite (ci_cache _ _ _ _ I), inv_lookup, Em by done. done.
Qed.

Lemma view_ok b : u32_ok b -> block_ok fs (view st b).
Proof.
  intros Hb. destruct (m !! b) as [p|] eqn:Em.
  - destruct (ci_map _ _ _ _ I b p Em) as [_ (e & Ee & _)]. rewrite (view_cached b p e) by done.
    apply (ci_ent _ _ _ _ I p e Ee).
  - rewrite view_uncached by done. apply disk_block_ok.
Qed.

(** reading the device changes nothing *)
Lemma inv_set_dev d' : (forall c, disk_block d' c = disk_block (fs_dev st) c) ->
  cache_inv L (set_dev d' st) t m /\ eqv st (set_dev d' st).
Proof.
  intros E. split.
  - destruct I as [A B C F G K]. split; try done. intros p e Ee.
    destruct (K p e Ee) as (? & ? & Hd & Hc). split; [done|]. split; [done|]. split; [done|].
    intros Hf. simpl. rewrite E. by apply Hc.
  - split; [|done]. intros b Hb. unfold view. simpl. by rewrite E.
Qed.

Lemma inv_alloc n : 1 <= n <= 4096 ->
  wp (salloc n) (fun a st' => exists h', st' = set_heap h' st /\
    ((a = 0 /\ cache_inv L st' t m) \/
     (a <> 0 /\ (a ∉ L ∪ list_to_set (owned (fs_ents st))) /\ cache_inv ({[a]} ∪ L) st' t m))) st.
Proof.
  intros Hn. apply wp_zoom. eapply wp_conseq; [eapply bm_alloc; [apply I|done]|].
  intros a h' [[-> R]|(Ha & Hi & R)]; exists h'; (split; [done|]); [left|right].
  - split; [done|]. destruct I. by split.
  - split; [done|]. split; [done|]. destruct I. split; try done.
    + simpl. by rewrite <- (assoc_L (∪)).
    + intros p Hp. simpl in Hp. set_solver.
Qed.

Lemma inv_free a : a ∈ L ->
  wp (sfree a) (fun _ st' => exists h', st' = set_heap h' st /\ cache_inv (L ∖ {[a]}) st' t m) st.
Proof.
  intros Ha. apply wp_zoom. eapply wp_conseq; [eapply (bm_free _ _ _ _ a); [apply I|set_solver]|].
  intros u h' R. exists h'. split; [done|].
  assert (a ∉ owned (fs_ents st)) as Hn by (intros Hp; by apply (ci_disj _ _ _ _ I a)).
  destruct I as [A B C F G K]. split; try done.
  - simpl. replace (L ∖ {[a]} ∪ list_to_set (owned (fs_ents st)))
      with ((L ∪ list_to_set (owned (fs_ents st))) ∖ {[a]}); [done|]. set_solver.
  - intros p Hp. specialize (F p Hp). set_solver.
Qed.

(** a dirty entry for [b] whose struct and buffer were just allocated *)
Lemma inv_add_entry e d data (dirty : bool) h' t' b :
  e ∈ L -> d ∈ L -> e <> d -> e <> 0 -> d <> 0 -> u32_ok b -> m !! b = None -> block_ok fs data ->
  (dirty = false -> data = disk_block (fs_dev st) b) ->
  bm_rep (L ∪ list_to_set (owned (fs_ents st))) h' t' (<[b := e]> m) ->
  cache_inv (L ∖ {[d]} ∖ {[e]})
    (mkFs (fs_dev st) h' (Some t') (<[e := mkEntry b d data dirty]> (fs_ents st))
       (fs_free_inodes st) (fs_free_blocks st)) t' (<[b := e]> m).
Proof.
  intros He Hd Hed He0 Hd0 Hb Em Hdata Hclean R.
  assert (e ∉ owned (fs_ents st)) as Ne by (intros Hp; by apply (ci_disj _ _ _ _ I e)).
  assert (d ∉ owned (fs_ents st)) as Nd by (intros Hp; by apply (ci_disj _ _ _ _ I d)).
  assert (fs_ents st !! e = None) as Ee.
  { destruct (fs_ents st !! e) as [x|] eqn:Ex; [|done]. by apply owned_elem in Ex as [? _]. }
  pose proof (owned_insert (fs_ents st) e (mkEntry b d data dirty) Ee) as P. simpl in P.
  destruct I as [A B C F G K]. split; simpl; [done|..].
  - replace (list_to_set (owned (<[e:=mkEntry b d data dirty]> (fs_ents st))) : gset Z)
      with ({[e]} ∪ ({[d]} ∪ list_to_set (owned (fs_ents st))) : gset Z).
    2:{ symmetry. rewrite (list_to_set_perm_L _ _ P). done. }
    replace (L ∖ {[d]} ∖ {[e]} ∪ ({[e]} ∪ ({[d]} ∪ list_to_set (owned (fs_ents st)))))
      with (L ∪ list_to_set (owned (fs_ents st))); [done|].
    apply set_eq. intros x. destruct (decide (x = e)), (decide (x = d)); set_solver.
  - rewrite P. constructor; [|by constructor]. intros [?|?]%elem_of_cons; done.
  - intros p. rewrite P. intros [->|[->|Hp]%elem_of_cons]%elem_of_cons; [set_solver..|].
    specialize (F p Hp). set_solver.
  - intros c p. rewrite lookup_insert. case_decide as Dc; [intros [= <-]; subst|intros Hc].
    + split; [done|]. eexists. rewrite lookup_insert_eq. done.
    + destruct (G c p Hc) as [Hp (x & Ex & Ec)]. split; [done|]. exists x. split; [|done].
      rewrite lookup_insert_ne; [done|]. congruence.
  - intros p x. rewrite lookup_insert. case_decide as Dp; [intros [= <-]; subst p|intros Hp]; simpl.
    + rewrite lookup_insert_eq. done.
    + destruct (K p x Hp) as (Hm & ?). split; [|done]. rewrite lookup_insert_ne; [done|]. congruence.
Qed.

(** rewriting a cached block in place *)
Lemma inv_store p e buf : fs_ents st !! p = Some e -> block_ok fs buf ->
  cache_inv L (set_ents (<[p := ce_store buf e]> (fs_ents st)) st) t m.
Proof.
  intros Ee Hb. pose proof (owned_update (fs_ents st) p e (ce_store buf e) Ee eq_refl) as P.
  destruct I as [A B C F G K]. split; simpl; [done|..].
  - by rewrite (owned_set_perm _ _ P).
  - by rewrite P.
  - intros q. rewrite P. apply F.
  - intros b q Hq. destruct (G b q Hq) as [H0 (x & Ex & Ec)]. split; [done|].
    rewrite lookup_insert. case_decide as Dq; [|by exists x]. subst q. eexists. split; [done|].
    rewrite Ee in Ex. injection Ex as ->. done.
  - intros q x. rewrite lookup_insert. case_decide as Dq; [intros [= <-]; subst q|apply K].
    destruct (K p e Ee) as (Hm & Hd & _). done.
Qed.

Lemma inv_u32 p e : fs_ents st !! p = Some e -> u32_ok (ce_block e).
Proof.
  intros Ee. destruct (ci_ent _ _ _ _ I p e Ee) as (Hm & _). eapply bm_keys; [apply I|exact Hm].
Qed.
End Inv.

(** the table never runs out of memory for a new node *)
Definition table_total : Prop :=
  forall L h (t : T) m b p, bm_rep L h t m -> m !! b = None -> u32_ok b ->
    wp (bm_insert_if_absent t b p) (fun r _ => r.1 = true) h.

Lemma bs_range : 1024 <= block_size fs <= 4096.
Proof. destruct BS as [->|[->| ->]]; lia. Qed.

Lemma wp_get_entry {B} p e (k : ext2_cache_entry -> M St B) Q st :
  fs_ents st !! p = Some e -> wp (k e) Q st -> wp (mbind' (get_entry p) k) Q st.
Proof. intros E W. unfold wp, get_entry in *. simpl. by rewrite E. Qed.

(** what a read through the cache promises *)
Definition read_post L st b (r : option (list Z)) st' : Prop :=
  fs_inv L st' /\ eqv st st' /\ (r = None \/ r = Some (view st b)) /\ (dev_reliable -> r <> None).

Lemma raw_read_ok L st t m b :
  cache_inv L st t m -> u32_ok b -> m !! b = None -> wp (ext2_disk_read_raw fs b) (read_post L st b) st.
Proof.
  intros I Hb Em. eapply wp_conseq; [by apply disk_read_raw_ok|].
  intros r st' (d' & -> & E & R & Q). destruct (inv_set_dev I d' E) as [I' V].
  split; [by exists t, m|]. split; [done|]. by rewrite (view_uncached I).
Qed.

Lemma read_post_eqv L st st1 b r st' :
  u32_ok b -> eqv st st1 -> read_post L st1 b r st' -> read_post L st b r st'.
Proof.
  intros Hb E (I & V & R & Q). split; [done|]. split; [by etrans|].
  destruct E as [E _]. rewrite E in R by done. done.
Qed.

(** [wp] rules for the allocator, on the invariant *)
Lemma salloc_reliable L st t m n : cache_inv L st t m -> 1 <= n <= 4096 ->
  wp (salloc n) (fun a (_ : St) => heap_reliable -> a <> 0) st.
Proof.
  intros I Hn. pose proof (inv_alloc I n Hn) as W. unfold salloc, on_heap, wp, zoom in *.
  destruct (halloc n (fs_heap st)) as [[a h]| | |] eqn:E; try done. intros R ->. by apply (R _ _ _ Hn E).
Qed.

Lemma wp_salloc {B} L st t m n (k : Z -> M St B) Q :
  cache_inv L st t m -> 1 <= n <= 4096 ->
  (forall h', cache_inv L (set_heap h' st) t m -> ~ heap_reliable -> wp (k 0) Q (set_heap h' st)) ->
  (forall a h', a <> 0 -> a ∉ L ∪ list_to_set (owned (fs_ents st)) ->
     cache_inv ({[a]} ∪ L) (set_heap h' st) t m -> wp (k a) Q (set_heap h' st)) ->
  wp (mbind' (salloc n) k) Q st.
Proof.
  intros I Hn W0 W1. apply wp_bind.
  eapply wp_conseq; [exact (wp_and _ _ _ _ (inv_alloc I n Hn) (salloc_reliable L st t m n I Hn))|].
  intros a st' [(h' & -> & [[-> I']|(Ha & Hf & I')]) R]; [|by apply W1].
  apply W0; [done|]. intros HR. by apply R.
Qed.

Lemma wp_sfree {B} L L' st t m a (k : unit -> M St B) Q :
  cache_inv L' st t m -> a ∈ L' -> L' ∖ {[a]} = L ->
  (forall h', cache_inv L (set_heap h' st) t m -> wp (k tt) Q (set_heap h' st)) ->
  wp (mbind' (sfree a) k) Q st.
Proof.
  intros I Ha <- W. apply wp_bind. eapply wp_conseq; [by apply (inv_free I)|].
  intros [] st' (h' & -> & I'). by apply W.
Qed.

Lemma inv_change_heap L L' st t m h :
  cache_inv L st t m -> bm_rep (L' ∪ list_to_set (owned (fs_ents st))) h t m ->
  (forall p, p ∈ owned (fs_ents st) -> p ∉ L') -> cache_inv L' (set_heap h st) t m.
Proof. intros [A B C F G K] R Hd. by split. Qed.

Lemma diff_singleton_union (a : Z) L : a ∉ L -> ({[a]} ∪ L) ∖ {[a]} = L.
Proof. set_solver. Qed.

(** ** Insertion of a fresh entry, and giving it back *)
Lemma wp_table_insert L st t m b e ent :
  cache_inv L st t m -> u32_ok b -> m !! b = None -> ce_block ent = b -> ce_data_ptr ent <> 0 ->
  e ∈ L -> ce_data_ptr ent ∈ L -> e <> ce_data_ptr ent -> e <> 0 -> block_ok fs (ce_data ent) ->
  (ce_dirty ent = false -> ce_data ent = disk_block (fs_dev st) b) ->
  wp (put_entry e ent ;;; table_insert t b e) (fun ok st' => exists t' h',
    st' = set_cache (Some t') (set_heap h' (set_ents (<[e := ent]> (fs_ents st)) st)) /\
    (if ok : bool then cache_inv (L ∖ {[ce_data_ptr ent]} ∖ {[e]}) st' t' (<[b := e]> m)
     else cache_inv L (set_cache (Some t') (set_heap h' st)) t' m /\ ~ table_total)) st.
Proof.
  intros I Hb Em Eb Hd0 He Hd Hne He0 Hok Hcl. unfold put_entry, table_insert. apply wp_modify.
  apply wp_bind. apply wp_zoom. simpl.
  assert (wp (bm_insert_if_absent t b e) (fun r (_ : H) => table_total -> r.1 = true) (fs_heap st)) as Tot.
  { pose proof (bm_insert_ok _ _ _ _ b e (ci_rep _ _ _ _ I) Hb) as W. unfold wp in *.
    destruct (bm_insert_if_absent t b e (fs_heap st)) as [[r h']| | |] eqn:E; try done.
    intros TT. specialize (TT _ _ _ _ b e (ci_rep _ _ _ _ I) Em Hb). unfold wp in TT.
    by rewrite E in TT. }
  eapply wp_conseq; [exact (wp_and _ _ _ _ (bm_insert_ok _ _ _ _ b e (ci_rep _ _ _ _ I) Hb) Tot)|].
  intros [r t'] h' [[R _] HT]. apply wp_modify, wp_ret. exists t', h'. split; [done|].
  destruct ent as [b' d data dirty]; simpl in *; subst b'. destruct r.
  - apply (inv_add_entry I e d data dirty h' t' b); done.
  - split; [|by intros TT; specialize (HT TT)]. destruct I as [A B C F G K]. by split.
Qed.

Lemma fresh_not_entry L st t m a : cache_inv L st t m -> a ∉ L ∪ list_to_set (owned (fs_ents st)) ->
  fs_ents st !! a = None.
Proof.
  intros I Ha. destruct (fs_ents st !! a) as [x|] eqn:Ex; [|done]. apply owned_elem in Ex as [Hi _].
  set_solver.
Qed.

Lemma wp_release_entry L st t m e d ent :
  cache_inv L st t m -> fs_ents st !! e = None -> e ∈ L -> d ∈ L -> e <> d ->
  wp (release_entry e d) (fun _ st' => exists h', st' = set_heap h' st /\
     cache_inv (L ∖ {[d]} ∖ {[e]}) st' t m) (set_ents (<[e := ent]> (fs_ents st)) st).
Proof.
  intros I Ee He Hd Hne. unfold release_entry. apply wp_bind, wp_zoom. simpl.
  assert (wp (sfree d) (fun _ st' => exists h', st' = set_heap h' st /\
    cache_inv (L ∖ {[d]}) st' t m) st) as W1 by by apply (inv_free I).
  unfold sfree, on_heap, wp, zoom in W1 |- *.
  destruct (hfree d (fs_heap st)) as [[[] h1]| | |]; try done.
  destruct W1 as (h1' & E1 & I1). injection E1 as <-.
  apply wp_modify. simpl.
  replace (set_ents _ _) with (set_heap h1 st).
  2:{ unfold set_ents, set_heap. simpl. rewrite delete_insert_id by done. done. }
  eapply wp_conseq; [apply (inv_free I1 e)|]. { set_solver. }
  intros u st' (h' & -> & I'). exists h'. done.
Qed.

Lemma eqv_set_cache L st t m t' h' :
  cache_inv L st t m -> cache_inv L (set_cache (Some t') (set_heap h' st)) t' m ->
  eqv st (set_cache (Some t') (set_heap h' st)).
Proof.
  intros I I'. split; [|done]. intros b Hb. destruct (m !! b) as [p|] eqn:Em.
  - destruct (ci_map _ _ _ _ I b p Em) as [_ (e & Ee & _)].
    by rewrite (view_cached I b p e), (view_cached I' b p e).
  - by rewrite (view_uncached I), (view_uncached I').
Qed.

(** the state after a fresh entry for [b] was put in the table *)
Lemma view_add_entry L L' st t m t' h' b e ent c :
  cache_inv L st t m -> m !! b = None -> u32_ok c ->
  cache_inv L' (set_cache (Some t') (set_heap h' (set_ents (<[e := ent]> (fs_ents st)) st))) t' (<[b := e]> m) ->
  fs_ents st !! e = None ->
  view (set_cache (Some t') (set_heap h' (set_ents (<[e := ent]> (fs_ents st)) st))) c
  = if decide (c = b) then ce_data ent else view st c.
Proof.
  intros I Em Hc I' Ee. case_decide as Dc.
  - subst c. apply (view_cached I' b e ent); [apply lookup_insert_eq|]. simpl. apply lookup_insert_eq.
  - destruct (m !! c) as [p|] eqn:Emc.
    + destruct (ci_map _ _ _ _ I c p Emc) as [_ (x & Ex & _)]. rewrite (view_cached I c p x) by done.
      apply (view_cached I' c p x); [by rewrite lookup_insert_ne|]. simpl.
      rewrite lookup_insert_ne; [done|]. congruence.
    + rewrite (view_uncached I) by done. rewrite (view_uncached I'); [done|done|].
      by rewrite lookup_insert_ne.
Qed.

(** ** [ext2_read_block] *)
Lemma read_block_ok L st b : fs_inv L st -> u32_ok b -> wp (ext2_read_block fs b) (read_post L st b) st.
Proof.
  intros (t & m & I) Hb. pose proof bs_range as Hbs. unfold ext2_read_block. apply wp_gets.
  rewrite (ci_cache _ _ _ _ I). cbv zeta. rewrite (inv_lookup I b Hb).
  destruct (m !! b) as [p|] eqn:Em; cbn [default].
  { destruct (ci_map _ _ _ _ I b p Em) as [Hp (e & Ee & Eb)].
    unfold default, id. rewrite (proj2 (Z.eqb_neq _ _) Hp). cbn [negb].
    apply (wp_get_entry p e); [done|]. apply wp_ret. split; [by exists t, m|]. split; [done|].
    split; [|done]. right. by rewrite (view_cached I b p e). }
  cbn [Z.eqb negb]. apply (wp_salloc L st t m); [done|unfold SIZEOF_CACHE_ENTRY; lia|..].
  { intros h1 I1 NR. cbn [Z.eqb]. eapply wp_conseq; [by eapply raw_read_ok|].
    intros r st'. by apply read_post_eqv. }
  intros e h1 He Fe I1. rewrite (proj2 (Z.eqb_neq _ _) He).
  apply (wp_salloc ({[e]} ∪ L) _ t m); [done|lia|..].
  { intros h2 I2 NR. cbn [Z.eqb]. apply (wp_sfree L _ _ t m e _ _ I2); [set_solver|set_solver|].
    intros h3 I3. eapply wp_conseq; [by eapply raw_read_ok|]. intros r st'. by apply read_post_eqv. }
  intros d h2 Hd Fd I2. rewrite (proj2 (Z.eqb_neq _ _) Hd).
  apply wp_bind. eapply wp_conseq; [by apply disk_read_raw_ok|].
  intros r st3 (d3 & -> & Ed & R & Q). destruct (inv_set_dev I2 d3 Ed) as [I3 V3].
  set (st3 := set_dev d3 _) in *. assert (eqv st st3) as V by (etrans; [|exact V3]; done).
  assert (e ∈ {[d]} ∪ ({[e]} ∪ L)) by set_solver. assert (d ∈ {[d]} ∪ ({[e]} ∪ L)) by set_solver.
  assert (e <> d) by (simpl in Fd; set_solver).
  assert (({[d]} ∪ ({[e]} ∪ L)) ∖ {[d]} ∖ {[e]} = L) as EL by (simpl in Fd; set_solver).
  assert (fs_ents st3 !! e = None) as Ee by by apply (fresh_not_entry L st t m).
  destruct r as [data|].
  - destruct R as [R|[= ->]]; [done|]. clear Q.
    apply (wp_conseq (mbind' _ _) (read_post L st3 b)); [|intros r st'; by apply read_post_eqv].
    assert (disk_block (fs_dev st3) b = disk_block (fs_dev st) b) as E3 by apply Ed. rewrite <- E3. clear E3.
    set (ent := mkEntry b d (disk_block (fs_dev st3) b) false).
    pose proof (wp_table_insert _ st3 t m b e ent I3 Hb Em eq_refl Hd ltac:(done) ltac:(done)
      ltac:(done) He (disk_block_ok _ _) ltac:(done)) as W.
    apply wp_assoc. change (mbind' (mret t) ?k) with (k t). apply wp_assoc, wp_bind.
    eapply wp_conseq; [exact W|]. clear W.
    intros ok s4 (t' & h' & -> & W). destruct ok; cbn [negb].
    + simpl ce_data_ptr in W. rewrite EL in W. apply wp_ret. split; [by eexists _, _|]. split.
      * split; [|done]. intros c Hc. erewrite view_add_entry; [|done..].
        case_decide; [subst c; by rewrite (view_uncached I3)|done].
      * split; [right; by rewrite (view_uncached I3)|done].
    + destruct W as [I5 _]. set (s5 := set_cache _ (set_heap _ st3)) in *.
      apply wp_bind. eapply wp_conseq.
      { apply (wp_release_entry _ s5 t' m e d ent I5 Ee); done. }
      intros [] s6 (h6 & -> & I6). rewrite EL in I6.
      eapply wp_conseq; [by apply (raw_read_ok L _ t' m b)|].
      intros r s7. apply read_post_eqv; [done|]. exact (eqv_set_cache _ st3 t m t' h' I3 I5).
  - apply (wp_sfree ({[e]} ∪ L) _ _ t m d _ _ I3); [done|simpl in Fd; set_solver|].
    intros h4 I4. apply (wp_sfree L _ _ t m e _ _ I4); [set_solver|set_solver|].
    intros h5 I5. eapply wp_conseq; [by eapply raw_read_ok|]. intros r st'. by apply read_post_eqv.
Qed.

(** ** [ext2_write_block] *)

(** The raw fallback: the block is not cached, the device is written. *)
Lemma raw_write_ok L st t m b buf :
  cache_inv L st t m -> u32_ok b -> m !! b = None -> block_ok fs buf ->
  wp (ext2_disk_write_raw fs b buf) (fun r st' => fs_inv L st' /\ eqv_but b st st' /\
     (r = 0 \/ r = -1) /\ (r = 0 -> view st' b = buf)) st.
Proof.
  intros I Hb Em Hok. eapply wp_conseq; [by apply disk_write_raw_ok|].
  intros r st' (R & d' & -> & E & W). assert (r = 0 \/ r = -1) as R' by tauto. clear R.
  assert (cache_inv L (set_dev d' st) t m) as I'.
  { destruct I as [A B C F G K]. split; try done. intros p e Ee.
    destruct (K p e Ee) as (Hm & ? & Hd & Hc). split; [done|]. split; [done|]. split; [done|].
    intros Hf. simpl. rewrite E; [by apply Hc|]. congruence. }
  split; [by exists t, m|]. split; [|split; [done|]].
  - split; [|done]. intros c Hc Hne. unfold view. simpl. by rewrite E.
  - intros Hr. rewrite (view_uncached I') by done. by apply W.
Qed.

(** what a write through the cache promises: the block holds [buf], or the
    write failed; without [table_total] a write may also be dropped *)
Definition write_post L st b buf (r : Z) st' : Prop :=
  fs_inv L st' /\ eqv_but b st st' /\ (r = 0 \/ (r = -1 /\ ~ heap_reliable)) /\
  (r = 0 -> view st' b = buf \/ (~ table_total /\ view st' b = view st b)).

Lemma eqv_but_trans b st st1 st2 : eqv st st1 -> eqv_but b st1 st2 -> eqv_but b st st2.
Proof.
  intros (A & B & C) (A' & B' & C'). split; [|split; congruence].
  intros c Hc Hne. rewrite A' by done. by apply A.
Qed.

Lemma raw_write_post L st st1 t m b buf : ~ heap_reliable ->
  cache_inv L st1 t m -> eqv st st1 -> u32_ok b -> m !! b = None -> block_ok fs buf ->
  wp (ext2_disk_write_raw fs b buf) (write_post L st b buf) st1.
Proof.
  intros NR I V Hb Em Hok. eapply wp_conseq; [by eapply raw_write_ok|].
  intros r st' (I' & V' & R & W). split; [done|]. split; [by eapply eqv_but_trans|].
  split; [destruct R as [->| ->]; auto|]. intros Hr. left. auto.
Qed.

Lemma write_block_ok L st b buf :
  fs_inv L st -> u32_ok b -> block_ok fs buf -> wp (ext2_write_block fs b buf) (write_post L st b buf) st.
Proof.
  intros (t & m & I) Hb Hok. pose proof bs_range as Hbs. unfold ext2_write_block. apply wp_gets.
  rewrite (ci_cache _ _ _ _ I). cbv zeta. rewrite (inv_lookup I b Hb).
  destruct (m !! b) as [p|] eqn:Em; unfold default, id.
  { destruct (ci_map _ _ _ _ I b p Em) as [Hp (e & Ee & Eb)].
    rewrite (proj2 (Z.eqb_neq _ _) Hp). cbn [negb].
    apply (wp_get_entry p e); [done|]. unfold put_entry. apply wp_modify, wp_ret.
    pose proof (inv_store I p e buf Ee Hok) as I'.
    split; [by exists t, m|]. split; [split; [|done]|split; [by left|]].
    - intros c Hc Hne. destruct (m !! c) as [q|] eqn:Emc.
      + destruct (ci_map _ _ _ _ I c q Emc) as [_ (x & Ex & Ec)]. rewrite (view_cached I c q x) by done.
        apply (view_cached I' c q x); [done|]. simpl. rewrite lookup_insert_ne; [done|]. congruence.
      + by rewrite (view_uncached I), (view_uncached I').
    - intros _. left. rewrite (view_cached I' b p (ce_store buf e)); [done|done|].
      simpl. apply lookup_insert_eq. }
  cbn [Z.eqb negb]. apply (wp_salloc L st t m); [done|unfold SIZEOF_CACHE_ENTRY; lia|..].
  { intros h1 I1 NR. cbn [Z.eqb]. by eapply raw_write_post. }
  intros e h1 He Fe I1. rewrite (proj2 (Z.eqb_neq _ _) He).
  apply (wp_salloc ({[e]} ∪ L) _ t m); [done|lia|..].
  { intros h2 I2 NR. cbn [Z.eqb]. apply (wp_sfree L _ _ t m e _ _ I2); [set_solver|set_solver|].
    intros h3 I3. by eapply raw_write_post. }
  intros d h2 Hd Fd I2. rewrite (proj2 (Z.eqb_neq _ _) Hd). set (st3 := set_heap h2 _) in *.
  assert (e ∈ {[d]} ∪ ({[e]} ∪ L)) by set_solver. assert (d ∈ {[d]} ∪ ({[e]} ∪ L)) by set_solver.
  assert (e <> d) by (simpl in Fd; set_solver).
  assert (({[d]} ∪ ({[e]} ∪ L)) ∖ {[d]} ∖ {[e]} = L) as EL by (simpl in Fd; set_solver).
  assert (fs_ents st3 !! e = None) as Ee by by apply (fresh_not_entry L st t m).
  set (ent := mkEntry b d buf true).
  pose proof (wp_table_insert _ st3 t m b e ent I2 Hb Em eq_refl Hd ltac:(done) ltac:(done)
    ltac:(done) He Hok ltac:(done)) as W.
  apply wp_assoc, wp_bind. eapply wp_conseq; [exact W|]. clear W.
  intros ok s4 (t' & h' & -> & W). destruct ok; cbn [negb].
  - simpl ce_data_ptr in W. rewrite EL in W. apply wp_ret. split; [by eexists _, _|].
    split; [split; [|done]|split; [by left|]].
    + intros c Hc Hne. erewrite view_add_entry; [|done..]. by rewrite decide_False by done.
    + intros _. left. erewrite view_add_entry; [|done..]. by rewrite decide_True by done.
  - destruct W as [I5 NT]. set (s5 := set_cache _ (set_heap _ st3)) in *.
    apply wp_gets. simpl fs_cache. cbv iota. rewrite (inv_lookup I5 b Hb), Em. cbn [default Z.eqb negb].
    change (mbind' (mret tt) ?k) with (k tt). cbv beta.
    apply wp_bind. eapply wp_conseq.
    { apply (wp_release_entry _ s5 t' m e d ent I5 Ee); done. }
    intros [] s6 (h6 & -> & I6). rewrite EL in I6. apply wp_ret.
    pose proof (eqv_set_cache _ st3 t m t' h' I2 I5) as [V5 [V6 V7]].
    split; [by exists t', m|]. split; [split; [|done]|split; [by left|]].
    + intros c Hc _. exact (V5 c Hc).
    + intros _. right. split; [done|]. exact (V5 b Hb).
Qed.

(** ** Temporary buffers *)
Lemma wp_with_buf {A} L st n (fail : A) body (Q : A -> St -> Prop) :
  fs_inv L st -> 1 <= n <= 4096 -> (forall r h s, Q r s -> Q r (set_heap h s)) ->
  (~ heap_reliable -> Q fail st) ->
  (forall L1 h, fs_inv L1 (set_heap h st) -> wp body (fun r s => fs_inv L1 s /\ Q r s) (set_heap h st)) ->
  wp (with_buf n fail body) (fun r s => fs_inv L s /\ Q r s) st.
Proof.
  intros (t & m & I) Hn Hq W0 W1. unfold with_buf. apply wp_bind.
  eapply wp_conseq; [exact (wp_and _ _ _ _ (inv_alloc I n Hn) (salloc_reliable L st t m n I Hn))|].
  intros a st' [(h' & -> & [[-> I']|(Ha & Hf & I')]) R'].
  - apply wp_ret. split; [by exists t, m|]. apply Hq, W0. intros HR. by apply R'.
  - rewrite (proj2 (Z.eqb_neq _ _) Ha). apply wp_bind. eapply wp_conseq.
    { apply (W1 ({[a]} ∪ L) h'). by exists t, m. }
    intros r s [(t1 & m1 & I1) Hr]. apply (wp_sfree L _ _ t1 m1 a _ _ I1); [set_solver|set_solver|].
    intros h2 I2. apply wp_ret. split; [by exists t1, m1|]. by apply Hq.
Qed.

(** ** Flushing

    Between the collection of a batch and its write-back the flags of the
    batch [X] are clear although the disk is not up to date.  [pending X E]:
    the entries would be [E] with the flags of [X] still set. *)
Definition pending (X : gset Z) (E ents : gmap Z ext2_cache_entry) : Prop :=
  (forall p, ents !! p = (fun e => if decide (p ∈ X) then ce_set_dirty false e else e) <$> E !! p) /\
  (forall p, p ∈ X -> exists e, E !! p = Some e /\ ce_dirty e = true).

Definition dirty_set (E : gmap Z ext2_cache_entry) : gset Z :=
  dom (filter (fun pe => ce_dirty pe.2 = true) E).

Lemma elem_dirty_set E p : p ∈ dirty_set E <-> exists e, E !! p = Some e /\ ce_dirty e = true.
Proof.
  unfold dirty_set. rewrite elem_of_dom. split.
  - intros [e He]. apply map_lookup_filter_Some in He as [? ?]. by exists e.
  - intros (e & He & Hd). exists e. by apply map_lookup_filter_Some.
Qed.

Lemma dirty_set_size E : (size (dirty_set E) <= size E)%nat.
Proof. unfold dirty_set. rewrite size_dom. apply map_size_filter. Qed.

Lemma pending_empty E ents : pending ∅ E ents -> ents = E.
Proof.
  intros [P _]. apply map_eq. intros p. rewrite P.
  destruct (E !! p); simpl; [|done]. by rewrite decide_False by set_solver.
Qed.

Lemma pending_refl E : pending ∅ E E.
Proof.
  split; [|set_solver]. intros p. destruct (E !! p); simpl; [|done]. by rewrite decide_False by set_solver.
Qed.

Lemma pending_lookup X E ents p e : pending X E ents -> E !! p = Some e ->
  exists e', ents !! p = Some e' /\ ce_block e' = ce_block e /\ ce_data e' = ce_data e /\
    (ce_dirty e' = true <-> ce_dirty e = true /\ p ∉ X).
Proof.
  intros [P _] Ee. specialize (P p). rewrite Ee in P. simpl in P. eexists. split; [exact P|].
  case_decide; simpl; naive_solver.
Qed.

Record flush_inv (X : gset Z) L st (t : T) m (E : gmap Z ext2_cache_entry) : Prop := {
  fl_inv : cache_inv L (set_ents E st) t m;
  fl_pend : pending X E (fs_ents st) }.

Lemma gather_ok L st0 t m E cap vs : forall acc st,
  0 <= cap -> (forall v, v ∈ vs -> is_Some (E !! v) /\ v <> 0) ->
  flush_inv (list_to_set acc) L st t m E -> NoDup acc -> st = set_ents (fs_ents st) st0 ->
  Z.of_nat (length acc) <= cap ->
  wp (gather cap vs acc) (fun acc' st' => flush_inv (list_to_set acc') L st' t m E /\ NoDup acc' /\
     st' = set_ents (fs_ents st') st0 /\ Z.of_nat (length acc') <= cap /\ acc ⊆ acc' /\
     (Z.of_nat (length acc') < cap -> forall v e, v ∈ vs -> E !! v = Some e -> ce_dirty e = true -> v ∈ acc')) st.
Proof.
  induction vs as [|v vs IH]; intros acc st Hcap Hv I Hnd Est Hlen; cbn [gather].
  { apply wp_ret. repeat (split; [done|]). intros _ v e Hin. by apply elem_of_nil in Hin. }
  destruct (Hv v ltac:(left)) as [[e Ee] Hv0].
  destruct (pending_lookup _ _ _ v e (fl_pend _ _ _ _ _ _ I) Ee) as (e' & Ee' & _ & _ & Hd).
  unfold ext2_cache_gather_cb. rewrite (proj2 (Z.eqb_neq _ _) Hv0). apply wp_bind, (wp_get_entry v e' _ _ _ Ee').
  destruct (ce_dirty e' && (Z.of_nat (length acc) <? cap)) eqn:Hc.
  - apply andb_true_iff in Hc as [Hc1 Hc2]. breflect. apply Hd in Hc1 as [Hde Hni].
    rewrite elem_of_list_to_set in Hni. unfold put_entry. apply wp_modify, wp_ret.
    eapply wp_conseq; [apply IH|].
    + done.
    + intros w Hw. apply Hv. by right.
    + destruct I as [I1 [P1 P2]]. split; [exact I1|]. split.
      * intros q. simpl. rewrite lookup_insert. case_decide as Dq.
        -- subst q. rewrite Ee. simpl. rewrite decide_True by set_solver. specialize (P1 v).
           rewrite Ee in P1. simpl in P1. rewrite decide_False in P1 by (by rewrite elem_of_list_to_set).
           congruence.
        -- rewrite P1. destruct (E !! q); [|done]. simpl. f_equal.
           destruct (decide (q ∈ (list_to_set acc : gset Z))).
           ++ rewrite decide_True by set_solver. done.
           ++ rewrite decide_False by set_solver. done.
      * intros q Hq. destruct (decide (q = v)) as [->|Dq]; [by exists e|]. apply P2. set_solver.
    + apply NoDup_app. split; [done|]. split; [set_solver|apply NoDup_singleton].
    + by rewrite Est.
    + rewrite length_app. simpl. lia.
    + intros acc' st' (I' & N' & E' & L' & S' & D'). split; [done|]. split; [done|]. split; [done|].
      split; [done|]. split; [set_solver|]. intros Hlt w x [->|Hw]%elem_of_cons Ew Hdw.
      * apply S'. set_solver.
      * by eapply D'.
  - apply wp_ret. eapply wp_conseq; [apply IH; try done|].
    + intros w Hw. apply Hv. by right.
    + intros acc' st' (I' & N' & E' & L' & S' & D'). repeat (split; [done|]).
      intros Hlt w x [->|Hw]%elem_of_cons Ew Hdw; [|by eapply D'].
      apply andb_false_iff in Hc as [Hc|Hc].
      * rewrite Ee in Ew. injection Ew as ->. destruct (decide (v ∈ acc)) as [?|Hn]; [by apply S'|].
        exfalso. rewrite (proj2 Hd) in Hc; [done|]. split; [done|]. by rewrite elem_of_list_to_set.
      * breflect. exfalso.
        assert (length acc <= length acc')%nat; [|lia].
        apply submseteq_length, NoDup_submseteq; [done|]. intros y Hy. by apply S'.
Qed.

(** a block of a cached entry was transferred to the device *)
Lemma inv_written L st t m p e d' (ok : bool) :
  cache_inv L st t m -> fs_ents st !! p = Some e -> (ok = false -> ce_dirty e = true) ->
  (forall c, c <> ce_block e -> disk_block d' c = disk_block (fs_dev st) c) ->
  (ok = true -> disk_block d' (ce_block e) = ce_data e) ->
  let e' := if ok then ce_set_dirty false e else e in
  let st' := set_dev d' (set_ents (<[p := e']> (fs_ents st)) st) in
  cache_inv L st' t m /\ eqv st st'.
Proof.
  intros I Ee Hdirty Hne Hw e' st'.
  assert (owned (fs_ents st') ≡ₚ owned (fs_ents st)) as P.
  { apply (owned_update _ p e); [done|]. by destruct ok. }
  assert (cache_inv L st' t m) as I'.
  { destruct I as [A B C F G K]. split; [done|..].
    - by rewrite (owned_set_perm _ _ P).
    - by rewrite P.
    - intros q. rewrite P. apply F.
    - intros b q Hq. destruct (G b q Hq) as [H0 (x & Ex & Ec)]. split; [done|]. simpl.
      rewrite lookup_insert. case_decide as Dq; [|by exists x]. subst q. exists e'. split; [done|].
      rewrite Ee in Ex. injection Ex as ->. by destruct ok.
    - intros q x. simpl. rewrite lookup_insert. case_decide as Dq.
      + intros [= <-]. subst q. destruct (K p e Ee) as (Hm & Hp & Hb & Hc).
        unfold e'. destruct ok; (split; [done|]; split; [done|]; split; [done|]); simpl.
        * intros _. by rewrite Hw.
        * by rewrite Hdirty.
      + intros Eq. destruct (K q x Eq) as (Hm & Hp & Hb & Hc). split; [done|]. split; [done|].
        split; [done|]. intros Hf. rewrite Hne; [by apply Hc|].
        destruct (K p e Ee) as (Hmp & _). congruence. }
  split; [done|]. split; [|done]. intros b Hb. destruct (m !! b) as [q|] eqn:Em.
  - destruct (ci_map _ _ _ _ I b q Em) as [_ (x & Ex & Ec)]. rewrite (view_cached I b q x) by done.
    destruct (decide (p = q)) as [<-|Dq].
    + rewrite (view_cached I' b p e'); [|done|apply lookup_insert_eq].
      rewrite Ee in Ex. injection Ex as ->. by destruct ok.
    + apply (view_cached I' b q x); [done|]. simpl. by rewrite lookup_insert_ne.
  - rewrite (view_uncached I), (view_uncached I') by done. simpl. apply Hne. intros ->.
    destruct (ci_ent _ _ _ _ I p e Ee) as [Hm _]. congruence.
Qed.

Lemma dirty_set_clean E p e : E !! p = Some e ->
  dirty_set (<[p := ce_set_dirty false e]> E) = dirty_set E ∖ {[p]}.
Proof.
  intros Ee. apply set_eq. intros q. rewrite elem_of_difference, elem_of_singleton, !elem_dirty_set.
  rewrite lookup_insert. case_decide as Dq; [subst q|].
  - split; [intros (x & [= <-] & Hx); done|]. by intros [_ ?].
  - naive_solver.
Qed.

Lemma pending_drop X E ents p e e' : p ∉ X -> pending ({[p]} ∪ X) E ents -> E !! p = Some e ->
  ce_data_ptr e' = ce_data_ptr e -> pending X (<[p := e']> E) (<[p := e']> ents).
Proof.
  intros Hp [P1 P2] Ee Ed. split.
  - intros q. rewrite !lookup_insert. case_decide as Dq; [subst q|].
    + simpl. by rewrite decide_False by done.
    + rewrite P1. destruct (E !! q); [|done]. simpl. f_equal.
      destruct (decide (q ∈ X)); [rewrite decide_True by set_solver|rewrite decide_False by set_solver]; done.
  - intros q Hq. rewrite lookup_insert_ne by set_solver. apply P2. set_solver.
Qed.

Lemma flush_batch_ok L t m ps : forall st E failed,
  flush_inv (list_to_set ps) L st t m E -> NoDup ps -> 0 <= failed ->
  failed + Z.of_nat (length ps) < 2 ^ 32 ->
  wp (flush_batch fs ps failed) (fun r st' => exists E' k,
     r = failed + k /\ 0 <= k <= Z.of_nat (length ps) /\ (dev_writes -> k = 0) /\ flush_inv ∅ L st' t m E' /\
     eqv (set_ents E st) (set_ents E' st') /\ size E' = size E /\
     Z.of_nat (size (dirty_set E')) + Z.of_nat (length ps) = Z.of_nat (size (dirty_set E)) + k /\
     (k = 0 -> dirty_set E' = dirty_set E ∖ list_to_set ps)) st.
Proof.
  induction ps as [|p ps IH]; intros st E failed I Hnd H0 Hlt; cbn [flush_batch].
  { apply wp_ret. exists E, 0. split; [lia|]. split; [done|]. split; [done|]. split; [done|]. split; [done|].
    split; [done|]. split; [simpl; lia|]. intros _. simpl. set_solver. }
  apply NoDup_cons in Hnd as [Hni Hnd]. destruct I as [I P].
  destruct (proj2 P p ltac:(set_solver)) as (e & Ee & Hd).
  destruct (pending_lookup _ _ _ p e P Ee) as (e1 & Ee1 & Eb & Edata & _).
  apply (wp_get_entry p e1 _ _ _ Ee1). rewrite Eb, Edata. apply wp_bind.
  destruct (ci_ent _ _ _ _ I p e Ee) as (Hm & Hp0 & Hok & _).
  eapply wp_conseq; [apply disk_write_raw_ok; [by eapply (inv_u32 I)|done]|].
  intros r st1 (Hr & d' & -> & Hne & Hw). simpl length in Hlt.
  assert (p ∈ dirty_set E) as Hpd by (apply elem_dirty_set; by exists e).
  destruct (r <? 0) eqn:Hr0; breflect.
  - apply (wp_get_entry p e1); [exact Ee1|]. unfold put_entry. apply wp_modify. simpl fs_ents.
    rewrite (u32_small (failed + 1)) by lia.
    destruct (inv_written L _ t m p e d' false I Ee ltac:(done) Hne ltac:(done)) as [I1 V1].
    simpl in I1, V1. rewrite insert_id in I1, V1 by done.
    assert (ce_set_dirty true e1 = e) as Ee2.
    { destruct P as [P _]. specialize (P p). rewrite Ee, Ee1 in P. simpl in P.
      rewrite decide_True in P by set_solver. injection P as ->. destruct e; simpl in *. by rewrite Hd. }
    rewrite Ee2. eapply wp_conseq; [apply (IH _ E (failed + 1))|].
    + split; [exact I1|]. simpl. rewrite <- (insert_id E p e Ee) at 1.
      eapply pending_drop; [|exact P|exact Ee|done]. by rewrite elem_of_list_to_set.
    + done.
    + lia.
    + lia.
    + intros r' st' (E' & k & -> & Hk & _ & I' & V' & Hs & Hc & _). exists E', (k + 1).
      split; [lia|]. split; [simpl length; lia|]. split; [intros Q; destruct Hr as [?|[_ NQ]]; [lia|done]|]. split; [done|]. split; [etrans; [exact V1|exact V']|].
      split; [done|]. split; [simpl length; lia|]. intros; lia.
  - assert (r = 0) as -> by lia.
    destruct (inv_written L _ t m p e d' true I Ee ltac:(done) Hne) as [I1 V1]; [intros _; by apply Hw|].
    simpl in I1, V1.
    assert (e1 = ce_set_dirty false e) as ->.
    { destruct P as [P _]. specialize (P p). rewrite Ee, Ee1 in P. simpl in P.
      rewrite decide_True in P by set_solver. congruence. }
    set (E1 := <[p := ce_set_dirty false e]> E).
    eapply wp_conseq; [apply (IH _ E1 failed)|].
    + split; [exact I1|]. simpl. rewrite <- (insert_id (fs_ents st) p (ce_set_dirty false e) Ee1) at 1.
      eapply pending_drop; [|exact P|exact Ee|done]. by rewrite elem_of_list_to_set.
    + done.
    + lia.
    + lia.
    + intros r' st' (E' & k & -> & Hk & Hk0' & I' & V' & Hs & Hc & Hz). exists E', k.
      unfold E1 in Hc, Hz, Hs. rewrite dirty_set_clean in Hc, Hz by done.
      rewrite size_difference in Hc by set_solver. rewrite size_singleton in Hc.
      assert (1 <= size (dirty_set E))%nat.
      { rewrite <- (size_singleton (C := gset Z) p). apply subseteq_size. set_solver. }
      rewrite map_size_insert_Some in Hs by (rewrite Ee; done).
      split; [lia|]. split; [simpl length; lia|]. split; [done|]. split; [done|]. split; [etrans; [exact V1|exact V']|].
      split; [done|]. split; [simpl length; lia|]. intros Hk0. rewrite (Hz Hk0). simpl. set_solver.
Qed.

Lemma inv_values L st t m : cache_inv L st t m ->
  forall v, v ∈ bm_values t <-> is_Some (fs_ents st !! v).
Proof.
  intros I v. rewrite (bm_values_ok _ _ _ _ (ci_rep _ _ _ _ I)). rewrite list_elem_of_fmap. split.
  - intros ([b p] & -> & Hb). apply elem_of_map_to_list in Hb.
    destruct (ci_map _ _ _ _ I b p Hb) as [_ (e & Ee & _)]. by exists e.
  - intros [e Ee]. exists (ce_block e, v). split; [done|]. apply elem_of_map_to_list.
    apply (ci_ent _ _ _ _ I v e Ee).
Qed.

Lemma inv_nonnull L st t m v : cache_inv L st t m -> is_Some (fs_ents st !! v) -> v <> 0.
Proof.
  intros I [e Ee]. destruct (ci_ent _ _ _ _ I v e Ee) as [Hm _]. by apply (ci_map _ _ _ _ I _ _ Hm).
Qed.

(** Enough fuel: one more round than there are dirty entries. *)
Lemma flush_loop_ok L t m fuel : forall st ret,
  cache_inv L st t m -> (size (dirty_set (fs_ents st)) < fuel)%nat -> (ret = 0 \/ (ret = -1 /\ ~ dev_writes)) ->
  wp (flush_loop fuel fs t ret) (fun r st' => cache_inv L st' t m /\ eqv st st' /\ (r = 0 \/ (r = -1 /\ ~ dev_writes)) /\
     (r = 0 -> dirty_set (fs_ents st') = ∅)) st.
Proof.
  induction fuel as [|fuel IH]; intros st ret I Hf Hret; [lia|]. cbn [flush_loop].
  apply wp_bind. eapply wp_conseq.
  { apply (gather_ok L st t m (fs_ents st) EXT2_FLUSH_BATCH (bm_values t) [] st).
    - by vm_compute.
    - intros v Hv. apply (inv_values _ _ _ _ I) in Hv. split; [done|]. by eapply inv_nonnull.
    - split; [by destruct st|apply pending_refl].
    - constructor.
    - by destruct st.
    - by vm_compute. }
  intros ents st1 (I1 & N1 & E1 & L1 & _ & D1). cbv zeta.
  assert (Z.of_nat (length ents) < EXT2_FLUSH_BATCH -> dirty_set (fs_ents st) ⊆ list_to_set ents) as Hall.
  { intros Hlt v (e & Ee & Hd)%elem_dirty_set. rewrite elem_of_list_to_set.
    apply (D1 Hlt v e); [|done|done]. apply (inv_values _ _ _ _ I). by exists e. }
  destruct (_ =? 0) eqn:Hn; breflect.
  { assert (ents = []) as -> by (destruct ents; simpl in Hn; [done|lia]).
    apply wp_ret. destruct I1 as [I1 P1]. apply pending_empty in P1.
    assert (st1 = st) as -> by (rewrite E1, P1; by destruct st).
    split; [done|]. split; [done|]. split; [done|]. intros _.
    specialize (Hall ltac:(by vm_compute)). simpl in Hall. set_solver. }
  apply wp_bind. unfold EXT2_FLUSH_BATCH in *. eapply wp_conseq; [apply (flush_batch_ok L t m ents _ _ _ I1 N1); lia|].
  intros failed st2 (E2 & k & -> & Hk & Hkw & [I2 P2] & V2 & Hs & Hc & Hz).
  apply pending_empty in P2. rewrite <- P2 in *. clear P2.
  assert (set_ents (fs_ents st2) st2 = st2) as R2 by (by destruct st2). rewrite R2 in I2, V2.
  assert (set_ents (fs_ents st) st1 = st) as R1 by (rewrite E1; by destruct st). rewrite R1 in V2.
  rewrite Z.add_0_l.
  assert (forall ret', (ret' = 0 -> k = 0) -> (ret' = 0 \/ (ret' = -1 /\ ~ dev_writes)) -> (Z.of_nat (length ents) < 512 \/ k <> 0) ->
    cache_inv L st2 t m /\ eqv st st2 /\ (ret' = 0 \/ (ret' = -1 /\ ~ dev_writes)) /\ (ret' = 0 -> dirty_set (fs_ents st2) = ∅)) as Hend.
  { intros ret' H0 Hr' Hor. split; [done|]. split; [done|]. split; [done|]. intros Hr0.
    rewrite (Hz (H0 Hr0)). destruct Hor as [Hlt|Hk0]; [|specialize (H0 Hr0); lia].
    specialize (Hall Hlt). clear -Hall. set_solver. }
  set (ret' := if k =? 0 then ret else -1).
  assert (ret' = 0 -> k = 0) as Hr1 by (unfold ret'; destruct (Z.eqb_spec k 0); lia).
  assert (ret' = 0 \/ (ret' = -1 /\ ~ dev_writes)) as Hr2.
  { unfold ret'. destruct (Z.eqb_spec k 0) as [|Hk0]; [done|right]. split; [done|]. intros Q. by apply Hk0, Hkw. }
  clearbody ret'.
  destruct (_ <? 512) eqn:Hlt; breflect; [apply wp_ret, Hend; auto|].
  destruct (k =? _) eqn:Hfk; breflect; [apply wp_ret, Hend; auto; right; lia|].
  eapply wp_conseq; [apply (IH st2 ret' I2); [lia|done]|].
  intros r st' (I3 & V3 & R3 & D3). split; [done|]. split; [by etrans|done].
Qed.

(** the device holds what the cache shows *)
Definition synced st : Prop := forall b, u32_ok b -> disk_block (fs_dev st) b = view st b.

Lemma clean_synced L st t m : cache_inv L st t m -> dirty_set (fs_ents st) = ∅ -> synced st.
Proof.
  intros I Hd b Hb. destruct (m !! b) as [p|] eqn:Em; [|by rewrite (view_uncached I)].
  destruct (ci_map _ _ _ _ I b p Em) as [_ (e & Ee & Eb)]. rewrite (view_cached I b p e) by done.
  destruct (ci_ent _ _ _ _ I p e Ee) as (_ & _ & _ & Hc). rewrite <- Eb. symmetry. apply Hc.
  destruct (ce_dirty e) eqn:Hde; [|done]. assert (p ∈ dirty_set (fs_ents st)); [|set_solver].
  apply elem_dirty_set. by exists e.
Qed.

Lemma cache_flush_ok L st : fs_inv L st ->
  wp (ext2_cache_flush fs) (fun r st' => fs_inv L st' /\ eqv st st' /\
     (r = 0 \/ (r = -1 /\ ~ (dev_writes /\ heap_reliable))) /\
     (r = 0 -> synced st')) st.
Proof.
  intros (t & m & I). unfold ext2_cache_flush. apply wp_gets. rewrite (ci_cache _ _ _ _ I). unfold with_buf.
  apply (wp_salloc L st t m); [done|by vm_compute|..].
  - intros h I1 NR. cbn [Z.eqb]. apply wp_ret. split; [by exists t, m|]. split; [done|]. split; [right; tauto|done].
  - intros a h Ha Fa I1. rewrite (proj2 (Z.eqb_neq _ _) Ha). apply wp_bind, wp_gets.
    eapply wp_conseq; [apply (flush_loop_ok _ t m _ _ 0 I1); [|by left]|].
    { unfold flush_fuel. pose proof (dirty_set_size (fs_ents (set_heap h st))). lia. }
    intros r st' (I2 & V2 & R2 & D2). apply (wp_sfree L _ _ t m a _ _ I2); [set_solver|set_solver|].
    intros h2 I3. apply wp_ret. split; [by exists t, m|]. split; [exact V2|]. split; [tauto|].
    intros Hr. eapply (clean_synced L); [exact I3|]. by apply D2.
Qed.

(** ** Destroying the cache *)
Lemma free_values_ok L t m vs : forall st,
  bm_rep (L ∪ list_to_set (owned (fs_ents st))) (fs_heap st) t m ->
  NoDup (owned (fs_ents st)) -> (forall p, p ∈ owned (fs_ents st) -> p ∉ L) -> NoDup vs ->
  (forall v, v ∈ vs <-> is_Some (fs_ents st !! v)) ->
  (forall p e, fs_ents st !! p = Some e -> p <> 0 /\ ce_data_ptr e <> 0) ->
  wp (free_values vs) (fun _ st' => bm_rep L (fs_heap st') t m /\ fs_dev st' = fs_dev st /\
     fs_ents st' = ∅) st.
Proof.
  induction vs as [|v vs IH]; intros st R N Dj Nv Hv Hnz; cbn [free_values].
  { assert (fs_ents st = ∅) as E0.
    { apply map_eq. intros p. rewrite lookup_empty. apply eq_None_not_Some. intros Hs.
      apply Hv in Hs. by apply elem_of_nil in Hs. }
    apply wp_ret. split; [|done]. rewrite E0 in R. unfold owned in R. rewrite map_to_list_empty in R.
    simpl in R. by rewrite union_empty_r_L in R. }
  apply NoDup_cons in Nv as [Hni Nv]. destruct (proj1 (Hv v) ltac:(left)) as [e Ee].
  destruct (Hnz v e Ee) as [Hv0 Hd0]. unfold ext2_cache_free_cb.
  rewrite (proj2 (Z.eqb_neq _ _) Hv0). apply wp_bind, (wp_get_entry v e _ _ _ Ee).
  rewrite (proj2 (Z.eqb_neq _ _) Hd0).
  pose proof (owned_delete _ v e Ee) as P. set (rest := owned (delete v (fs_ents st))) in *.
  assert (forall p, p ∈ rest -> p <> v /\ p <> ce_data_ptr e /\ p ∉ L) as Hrest.
  { intros p Hp. rewrite P in N. apply NoDup_cons in N as [N1 N]. apply NoDup_cons in N as [N2 _].
    split; [intros ->; apply N1; by right|]. split; [by intros ->|]. apply Dj. rewrite P. right. by right. }
  assert (v <> ce_data_ptr e /\ (v ∉ L) /\ (ce_data_ptr e ∉ L)) as (Hve & HvL & HdL).
  { rewrite P in N. apply NoDup_cons in N as [N1 _]. split; [intros E; apply N1; rewrite <- E; left|].
    split; apply Dj; rewrite P; [left|right; left]. }
  rewrite (list_to_set_perm_L _ _ P) in R. simpl in R.
  apply wp_bind, wp_zoom. eapply wp_conseq; [apply (bm_free _ _ _ _ (ce_data_ptr e) R); set_solver|].
  intros [] h1 R1. unfold drop_entry. apply wp_modify, wp_zoom.
  eapply wp_conseq; [apply (bm_free _ _ _ _ v R1); set_solver|].
  intros [] h2 R2. eapply wp_conseq; [apply IH; simpl|].
  - fold rest. replace (L ∪ list_to_set rest) with
      ((L ∪ ({[v]} ∪ ({[ce_data_ptr e]} ∪ list_to_set rest))) ∖ {[ce_data_ptr e]} ∖ {[v]}); [done|].
    apply set_eq. intros x.
    rewrite !elem_of_difference, !elem_of_union, !elem_of_singleton, elem_of_list_to_set.
    specialize (Hrest x). naive_solver.
  - fold rest. rewrite P in N. by apply NoDup_cons in N as [_ [_ ?]%NoDup_cons].
  - fold rest. intros p Hp. by apply Hrest.
  - done.
  - intros w. destruct (decide (w = v)) as [->|Dw].
    + rewrite lookup_delete_eq. split; [done|by intros [? ?]].
    + rewrite lookup_delete_ne by done. rewrite <- Hv, elem_of_cons. naive_solver.
  - intros p x [_ Hx]%lookup_delete_Some. by apply Hnz.
  - intros u st' (R3 & E3 & E4). done.
Qed.

Lemma values_nodup L st t m : cache_inv L st t m -> NoDup (bm_values t).
Proof.
  intros I. rewrite (bm_values_ok _ _ _ _ (ci_rep _ _ _ _ I)).
  apply NoDup_fmap_2_strong; [|apply NoDup_map_to_list].
  intros [b p] [c q] H1%elem_of_map_to_list H2%elem_of_map_to_list Eq. simpl in Eq. subst q.
  destruct (ci_map _ _ _ _ I b p H1) as [_ (x & Ex & <-)].
  destruct (ci_map _ _ _ _ I c p H2) as [_ (y & Ey & <-)]. congruence.
Qed.

Lemma cache_destroy_ok L st : fs_inv L st ->
  wp ext2_cache_destroy (fun _ st' => heap_inv (fs_heap st') L /\ fs_cache st' = None /\
     fs_ents st' = ∅ /\ fs_dev st' = fs_dev st) st.
Proof.
  intros (t & m & I). unfold ext2_cache_destroy. apply wp_gets. rewrite (ci_cache _ _ _ _ I).
  apply wp_bind. eapply wp_conseq; [apply (free_values_ok L t m); try apply I|].
  - by eapply values_nodup.
  - by eapply inv_values.
  - intros p e Ee. split; [eapply inv_nonnull; [exact I|by exists e]|]. by apply (ci_ent _ _ _ _ I p e).
  - intros [] s1 (R1 & E1 & E2). apply wp_bind, wp_zoom. eapply wp_conseq; [by apply (bm_destroy_ok _ _ _ _ R1)|].
    intros [] h Hh. unfold wp, modify. simpl. done.
Qed.

End CacheSpec.
