(* ===== verification/Strict.v ===== *)
(** Runs in which nothing fails.

    A driver may answer a transfer with a negative number and the allocator a
    request with NULL, at any time.  What code does in a run where this does
    not happen is stated per run, not per device: [strict_dev] and
    [strict_heap] are the same device and the same heap, but stop the machine
    where the originals report a failure.  An operation on the strict
    instances either stops or does exactly what it does on the originals
    ([refines]); a run is [clean] when it does not stop.  The strict instances
    satisfy [dev_reliable], [dev_writes] and [heap_reliable], whatever the
    device and the heap. *)
From stdpp Require Import base gmap list.
From Stdlib Require Import ZArith Lia.
From S2P Require Import Prelude Bytes HashMap HashMapSpec BlockDev Ext2Cache Ext2CacheSpec.
Open Scope Z_scope.

(** ** Refinement *)
Definition refines {S A} (m1 m2 : M S A) : Prop := forall s, m1 s = Halt \/ m1 s = m2 s.

Section Rules.
Context {S : Type}.

Lemma refines_refl {A} (m : M S A) : refines m m.
Proof. intros s. by right. Qed.

Lemma refines_bind {A B} (m1 m2 : M S A) (k1 k2 : A -> M S B) :
  refines m1 m2 -> (forall a, refines (k1 a) (k2 a)) -> refines (mbind' m1 k1) (mbind' m2 k2).
Proof.
  intros Hm Hk s. unfold mbind'. destruct (Hm s) as [-> | ->]; [by left|].
  destruct (m2 s) as [[a s']| | |]; [apply Hk|by right..].
Qed.

Lemma refines_zoom {T A} (proj : S -> T) upd (m1 m2 : M T A) :
  refines m1 m2 -> refines (zoom proj upd m1) (zoom proj upd m2).
Proof. intros Hm s. unfold zoom. destruct (Hm (proj s)) as [-> | ->]; [by left|by right]. Qed.

(** a statement about the strict run is one about the run, if it is clean *)
Lemma refines_wp {A} (m1 m2 : M S A) (Q : A -> S -> Prop) s :
  refines m1 m2 -> m1 s <> Halt -> wp m1 Q s -> wp m2 Q s.
Proof. intros Hr Hn W. unfold wp in *. by destruct (Hr s) as [E|<-]. Qed.
End Rules.

Create HintDb strict.

(** One step along two copies of the same code. *)
Ltac refine_step :=
  match goal with
  | |- refines ?m ?m => apply refines_refl
  | |- forall _, _ => intros ?
  | |- refines (let _ := _ in _) _ => cbv zeta
  | |- refines (match ?x with _ => _ end) (match ?x with _ => _ end) => destruct x
  | |- refines (mbind' _ _) (mbind' _ _) => apply refines_bind
  | |- refines (zoom _ _ _) (zoom _ _ _) => apply refines_zoom
  | _ => solve [eauto 3 with strict]
  end.
Ltac refine_all := repeat refine_step.

(** ** The strict device and the strict heap *)
Section Strict.
Context {D H : Type} {DD : BlockDev D} {HH : Heap H}.

Definition strict_read (s : Z) : M D (Z * list Z) :=
  let* r := dev_read s in if r.1 <? 0 then halt else mret r.
Definition strict_write (s : Z) (bs : list Z) : M D Z :=
  let* r := dev_write s bs in if r <? 0 then halt else mret r.
(** requests that no slab can serve fail as before *)
Definition strict_alloc (n : Z) : M H Z :=
  let* a := halloc n in if (a =? 0) && (1 <=? n) && (n <=? 4096) then halt else mret a.

Lemma refines_read s : refines (strict_read s) (dev_read s).
Proof.
  intros d. unfold strict_read, mbind'. destruct (dev_read s d) as [[r d']| | |]; [|by right..].
  destruct (r.1 <? 0); [by left|by right].
Qed.
Lemma refines_write s bs : refines (strict_write s bs) (dev_write s bs).
Proof.
  intros d. unfold strict_write, mbind'. destruct (dev_write s bs d) as [[r d']| | |]; [|by right..].
  destruct (r <? 0); [by left|by right].
Qed.
Lemma refines_alloc n : refines (strict_alloc n) (halloc n).
Proof.
  intros h. unfold strict_alloc, mbind'. destruct (halloc n h) as [[a h']| | |]; [|by right..].
  destruct (_ && _); [by left|by right].
Qed.

(** what holds of every run holds of the strict ones *)
Lemma refines_wp_back {S A} (m1 m2 : M S A) (Q : A -> S -> Prop) s : refines m1 m2 -> wp m2 Q s -> wp m1 Q s.
Proof. intros Hr W. unfold wp in *. by destruct (Hr s) as [-> | ->]. Qed.

Program Definition strict_dev : BlockDev D :=
  {| dev_read := strict_read; dev_write := strict_write; sector_data := sector_data |}.
Next Obligation. intros. apply sector_len. Qed.
Next Obligation. intros. apply sector_ok. Qed.
Next Obligation. intros d s. eapply refines_wp_back; [apply refines_read|apply dev_read_ok]. Qed.
Next Obligation. intros d s bs Hl Hb. eapply refines_wp_back; [apply refines_write|by apply dev_write_ok]. Qed.

Program Definition strict_heap : Heap H :=
  {| halloc := strict_alloc; hfree := hfree; heap_inv := heap_inv |}.
Next Obligation.
  intros h L n I Hn. unfold strict_alloc, mbind'.
  destruct (halloc_ok h L n I Hn) as [(a & h' & -> & Ha & R)|[(h' & -> & R)| ->]]; [left| |by right; right].
  - exists a, h'. rewrite (proj2 (Z.eqb_neq a 0)) by done. done.
  - right; right. rewrite (proj2 (Z.leb_le 1 n)), (proj2 (Z.leb_le n 4096)) by lia. done.
Qed.
Next Obligation.
  intros h n Hn. unfold strict_alloc, mbind'. rewrite halloc_bad by done. cbn [Z.eqb andb].
  destruct (1 <=? n) eqn:E1; [|done]. destruct (n <=? 4096) eqn:E2; [breflect; lia|done].
Qed.
Next Obligation. intros. by apply hfree_ok. Qed.

(** the strict instances do not fail *)
Lemma strict_reads : @dev_reliable D strict_dev.
Proof.
  intros d s. pose proof (dev_read_ok d s) as W. unfold wp in *. simpl. unfold strict_read, mbind'.
  destruct (dev_read s d) as [[r d']| | |]; try done. destruct (r.1 <? 0) eqn:E; [done|]. simpl. breflect. lia.
Qed.
Lemma strict_writes : @dev_writes D strict_dev.
Proof.
  intros d s bs Hl Hb. pose proof (dev_write_ok d s bs Hl Hb) as W. unfold wp in *. simpl. unfold strict_write, mbind'.
  destruct (dev_write s bs d) as [[r d']| | |]; try done. destruct (r <? 0) eqn:E; [done|]. simpl. breflect. lia.
Qed.
Lemma strict_allocs : @heap_reliable H strict_heap.
Proof.
  intros h h' n Hn. simpl. unfold strict_alloc, mbind'. destruct (halloc n h) as [[a h1]| | |]; [|done..].
  destruct (decide (a = 0)) as [->|Ha].
  - rewrite (proj2 (Z.leb_le 1 n)), (proj2 (Z.leb_le n 4096)) by lia. done.
  - rewrite (proj2 (Z.eqb_neq a 0)) by done. cbn. congruence.
Qed.
End Strict.
Lemma s_dev_read {D} {DD : BlockDev D} s : refines (dev_read (BlockDev := strict_dev) s) (dev_read s).
Proof. apply refines_read. Qed.
Lemma s_dev_write {D} {DD : BlockDev D} s bs : refines (dev_write (BlockDev := strict_dev) s bs) (dev_write s bs).
Proof. apply refines_write. Qed.
Arguments strict_dev {D} DD.
Arguments strict_heap {H} HH.

(** ** Clean runs

    [m DD HH] is a computation over a device and a heap: the run of it from [s]
    is clean when no transfer and no allocation in it fails. *)
Section Clean.
Context {D H S A : Type} {DD : BlockDev D} {HH : Heap H}.
Definition clean (m : BlockDev D -> Heap H -> M S A) (s : S) : Prop := m (strict_dev DD) (strict_heap HH) s <> Halt.

Lemma clean_wp (m : BlockDev D -> Heap H -> M S A) Q s : refines (m (strict_dev DD) (strict_heap HH)) (m DD HH) ->
  clean m s -> wp (m (strict_dev DD) (strict_heap HH)) Q s -> wp (m DD HH) Q s.
Proof. intros Hr Hc. by apply refines_wp. Qed.
Lemma clean_run (m : BlockDev D -> Heap H -> M S A) s :
  match m (strict_dev DD) (strict_heap HH) s with Halt => false | _ => true end = true -> clean m s.
Proof. unfold clean. intros E Hh. by rewrite Hh in E. Qed.
End Clean.

(** the hash table finds memory for a node whenever the heap does *)
Lemma hash_table_total {H} `{HH : Heap H} : heap_reliable (H := H) ->
  table_total (H := H) (T := hash_table).
Proof.
  intros RH L h t m b p R Hm Hb. simpl. unfold block_insert.
  pose proof (insert_if_absent_spec block_kv L h t (b + 1) 4 p (proj1 R)) as W.
  rewrite block_kv_key, (rep_lookup L h t m b R Hb), Hm in W. unfold u32_ok in Hb.
  specialize (W ltac:(lia) ltac:(lia)). unfold wp, hash_table_insert_if_absent in *.
  rewrite (proj2 (Z.eqb_neq (b + 1) 0)) in * by lia. cbn [Z.eqb orb] in *.
  destruct (chain_find _ _) as [x|] eqn:Ef.
  - exfalso. simpl in W. destruct R as ([T0 O] & R & K).
    destruct (find_found block_kv t (b + 1) 4 x T0 ltac:(lia) ltac:(lia) Ef) as (_ & _ & Ea).
    rewrite block_kv_key in Ea. apply R in Ea as (c & Hc & Ek & Ev).
    apply le_enc4_inj in Ek as ->; [congruence|unfold u32_ok; lia|done].
  - unfold mbind', push_node in *. destruct (maybe_grow t h) as [[t1 h1]| | |]; try done. unfold mbind' in *.
    destruct (halloc SIZEOF_HASH_NODE h1) as [[q h2]| | |] eqn:Eq; try done.
    destruct (q =? 0) eqn:E0; [|done]. breflect. subst q. exfalso.
    eapply (RH h1 h2 SIZEOF_HASH_NODE); [unfold SIZEOF_HASH_NODE; lia|done].
Qed.


(** ** The hash table on the strict heap *)
Section Table.
Context {H : Type} {HH : Heap H}.
Abbreviation SH := (strict_heap HH).

Lemma s_halloc n : refines (halloc (Heap := SH) n) (halloc n).
Proof. apply refines_alloc. Qed.
Lemma s_hfree p : refines (hfree (Heap := SH) p) (hfree p).
Proof. apply refines_refl. Qed.
#[local] Hint Resolve s_halloc s_hfree : strict.

Lemma s_resize t n : refines (hash_table_resize (HH := SH) t n) (hash_table_resize t n).
Proof. unfold hash_table_resize. refine_all. Qed.
#[local] Hint Resolve s_resize : strict.
Lemma s_grow t : refines (maybe_grow (HH := SH) t) (maybe_grow t).
Proof. unfold maybe_grow. refine_all. Qed.
Lemma s_push t hash key len v : refines (push_node (HH := SH) t hash key len v) (push_node t hash key len v).
Proof. unfold push_node. refine_all. Qed.
#[local] Hint Resolve s_grow s_push : strict.
Lemma s_insert t b p : refines (bm_insert_if_absent (BlockMap := hash_block_map (HH := SH)) t b p) (bm_insert_if_absent t b p).
Proof. simpl. unfold block_insert, hash_table_insert_if_absent. refine_all. Qed.
Lemma s_delete t b : refines (bm_delete (BlockMap := hash_block_map (HH := SH)) t b) (bm_delete t b).
Proof. simpl. unfold block_delete, hash_table_delete. refine_all. Qed.
Lemma strict_table : @table_total H hash_table SH hash_block_map.
Proof. apply hash_table_total, strict_allocs. Qed.
End Table.
#[export] Hint Resolve s_halloc s_hfree s_insert s_delete s_dev_read s_dev_write : strict.

(** ** Devices and heaps of the examples *)

(** a heap that hands out numbers and never runs out *)
Record counter := mkCounter { c_next : positive; c_live : gset Z }.

Definition counter_alloc (n : Z) : M counter Z := fun h =>
  if (n <? 1) || (4096 <? n) then Ok (0, h) else
  Ok (Z.pos (c_next h), mkCounter (Pos.succ (c_next h)) ({[Z.pos (c_next h)]} ∪ c_live h)).
Definition counter_free (a : Z) : M counter unit := fun h =>
  if decide (a ∈ c_live h) then Ok (tt, mkCounter (c_next h) (c_live h ∖ {[a]})) else Halt.
Definition counter_inv (h : counter) (L : gset Z) : Prop :=
  c_live h = L /\ forall x, x ∈ L -> x < Z.pos (c_next h).

#[export] Program Instance counter_heap : Heap counter :=
  {| halloc := counter_alloc; hfree := counter_free; heap_inv := counter_inv |}.
Next Obligation.
  intros h L n [<- Hb] Hn. unfold counter_alloc.
  rewrite (proj2 (orb_false_iff _ _)) by (split; apply Z.ltb_ge; lia).
  left. eexists _, _. split; [done|]. split; [done|]. split; [intros Hx%Hb; lia|]. split; [done|].
  intros x [->%elem_of_singleton|Hx]%elem_of_union; simpl; [lia|]. specialize (Hb x Hx). lia.
Qed.
Next Obligation.
  intros h n Hn. unfold counter_alloc. rewrite (proj2 (orb_true_iff _ _)); [done|].
  destruct (decide (n < 1)); [left|right]; apply Z.ltb_lt; lia.
Qed.
Next Obligation.
  intros h L a [<- Hb] Ha. unfold counter_free. rewrite decide_True by done. eexists. split; [done|].
  split; [done|]. intros x Hx. apply Hb. set_solver.
Qed.

(** the same with a number of allocations left *)
Record limited := mkLimited { l_left : nat; l_heap : counter }.
Definition limited_alloc (n : Z) : M limited Z := fun h =>
  match l_left h with
  | O => Ok (0, h)
  | S k => match counter_alloc n (l_heap h) with
           | Ok (a, c) => if a =? 0 then Ok (0, h) else Ok (a, mkLimited k c)
           | _ => Halt
           end
  end.
Definition limited_free (a : Z) : M limited unit := fun h =>
  match counter_free a (l_heap h) with Ok (_, c) => Ok (tt, mkLimited (l_left h) c) | _ => Halt end.

#[export] Program Instance limited_heap : Heap limited :=
  {| halloc := limited_alloc; hfree := limited_free; heap_inv := fun h L => counter_inv (l_heap h) L |}.
Next Obligation.
  intros h L n I Hn. unfold limited_alloc. destruct (l_left h) as [|k]; [right; left; by exists h|].
  destruct (halloc_ok (Heap := counter_heap) (l_heap h) L n I Hn) as [(a & c & E & Ha & Hf & I')|[(c & E & _)|E]]; simpl in E; rewrite E.
  - left. rewrite (proj2 (Z.eqb_neq a 0)) by done. by exists a, (mkLimited k c).
  - right. left. by exists h.
  - by right; right.
Qed.
Next Obligation.
  intros h n Hn. unfold limited_alloc. destruct (l_left h); [done|].
  pose proof (halloc_bad (Heap := counter_heap) (l_heap h) n Hn) as E. simpl in E. by rewrite E.
Qed.
Next Obligation.
  intros h L a I Ha. unfold limited_free. destruct (hfree_ok (Heap := counter_heap) (l_heap h) L a I Ha) as (c & E & I').
  simpl in E. rewrite E. by eexists.
Qed.
