(* ===== verification/Ext2.v ===== *)
(** ext2 metadata (fs/ext2.c): superblock, group descriptors, bitmaps, inode
    records, allocation of inodes and blocks, and the mapping from file blocks
    to disk blocks.

    On-disk structures are kept as the bytes the code copies with [memcpy];
    their fields are the little-endian fields at the offsets of the packed C
    structs.  An access outside a buffer is [Fault].  Functions that answer
    through an [out] pointer and 0/-1 return an [option]. *)
From stdpp Require Import base gmap list.
From Stdlib Require Import ZArith Lia.
From S2P Require Import Prelude Bytes HashMap BlockDev Ext2Cache.
Open Scope Z_scope.

(** ** On-disk layouts *)
Definition EXT2_MAGIC : Z := 0xEF53.
Definition EXT2_MAX_BLOCK_SIZE : Z := 4096.
Definition EXT2_INODE_SIZE_DEFAULT : Z := 128.
Definition EXT2_ROOT_INO : Z := 2.
Definition EXT2_N_BLOCKS : nat := 15.
Definition EXT2_IND_BLOCK : nat := 12.
Definition EXT2_DIND_BLOCK : nat := 13.
Definition SIZEOF_SUPERBLOCK : Z := 248.
Definition SIZEOF_BG_DESC : Z := 32.
Definition SIZEOF_INODE : Z := 128.

(** [struct ext2_superblock] *)
Definition s_inodes_count := field 4 0.
Definition s_blocks_count := field 4 4.
Definition s_free_blocks_count := field 4 12.
Definition s_free_inodes_count := field 4 16.
Definition s_first_data_block := field 4 20.
Definition s_log_block_size := field 4 24.
Definition s_blocks_per_group := field 4 32.
Definition s_inodes_per_group := field 4 40.
Definition s_magic := field 2 56.
Definition s_state := field 2 58.
Definition s_rev_level := field 4 76.
Definition s_inode_size := field 2 88.

(** [struct ext2_bg_desc] *)
Definition bg_block_bitmap := field 4 0.
Definition bg_inode_bitmap := field 4 4.
Definition bg_inode_table := field 4 8.
Definition bg_free_blocks_count := field 2 12.
Definition bg_free_inodes_count := field 2 14.
Definition set_bg_free_blocks_count (v : Z) := set_field 2 12 (u16 v).
Definition set_bg_free_inodes_count (v : Z) := set_field 2 14 (u16 v).

(** [struct ext2_inode] *)
Definition di_mode := field 2 0.
Definition di_uid := field 2 2.
Definition di_size := field 4 4.
Definition di_atime := field 4 8.
Definition di_ctime := field 4 12.
Definition di_mtime := field 4 16.
Definition di_gid := field 2 24.
Definition di_links_count := field 2 26.
Definition di_blocks := field 4 28.
Definition di_block (i : nat) := field 4 (40 + 4 * i).
Definition set_di_dtime (v : Z) := set_field 4 20 v.
Definition set_di_links_count (v : Z) := set_field 2 26 v.

(** [struct ext2_inode_priv] *)
Record ext2_inode_priv := mkInodePriv {
  p_ino : Z;
  p_uid : Z;
  p_gid : Z;
  p_size : Z;
  p_mode : Z;
  p_links_count : Z;
  p_blocks : Z;
  p_atime : Z;
  p_ctime : Z;
  p_mtime : Z;
  p_block : list Z }.

Definition set_p_block (i : nat) (v : Z) (p : ext2_inode_priv) : ext2_inode_priv :=
  mkInodePriv (p_ino p) (p_uid p) (p_gid p) (p_size p) (p_mode p) (p_links_count p) (p_blocks p)
    (p_atime p) (p_ctime p) (p_mtime p) (<[i := v]> (p_block p)).
Definition set_p_size (v : Z) (p : ext2_inode_priv) : ext2_inode_priv :=
  mkInodePriv (p_ino p) (p_uid p) (p_gid p) v (p_mode p) (p_links_count p) (p_blocks p)
    (p_atime p) (p_ctime p) (p_mtime p) (p_block p).
Definition set_p_links_count (v : Z) (p : ext2_inode_priv) : ext2_inode_priv :=
  mkInodePriv (p_ino p) (p_uid p) (p_gid p) (p_size p) (p_mode p) v (p_blocks p)
    (p_atime p) (p_ctime p) (p_mtime p) (p_block p).
Definition set_p_blocks (v : Z) (p : ext2_inode_priv) : ext2_inode_priv :=
  mkInodePriv (p_ino p) (p_uid p) (p_gid p) (p_size p) (p_mode p) (p_links_count p) v
    (p_atime p) (p_ctime p) (p_mtime p) (p_block p).
Definition set_p_times (ctime mtime : Z) (p : ext2_inode_priv) : ext2_inode_priv :=
  mkInodePriv (p_ino p) (p_uid p) (p_gid p) (p_size p) (p_mode p) (p_links_count p) (p_blocks p)
    (p_atime p) ctime mtime (p_block p).

(** [priv->i_block[i]] *)
Definition blk (p : ext2_inode_priv) (i : nat) : Z := default 0 (p_block p !! i).

(** The fields of [struct ext2_inode] that [ext2_priv_to_disk] fills, on a
    zeroed record. *)
Fixpoint put_blocks (i : nat) (bs : list Z) (out : list Z) : list Z :=
  match bs with
  | [] => out
  | b :: bs' => put_blocks (S i) bs' (set_field 4 (40 + 4 * i) b out)
  end.
Definition ext2_priv_to_disk (p : ext2_inode_priv) : list Z :=
  let out := replicate 128 0 in
  let out := set_field 2 0 (u16 (p_mode p)) out in
  let out := set_field 2 2 (u16 (p_uid p)) out in
  let out := set_field 4 4 (p_size p) out in
  let out := set_field 4 8 (p_atime p) out in
  let out := set_field 4 12 (p_ctime p) out in
  let out := set_field 4 16 (p_mtime p) out in
  let out := set_field 2 24 (u16 (p_gid p)) out in
  let out := set_field 2 26 (u16 (p_links_count p)) out in
  let out := set_field 4 28 (p_blocks p) out in
  put_blocks 0 (take EXT2_N_BLOCKS (p_block p)) out.
Definition ext2_disk_to_priv (di : list Z) (ino : Z) : ext2_inode_priv :=
  mkInodePriv ino (di_uid di) (di_gid di) (di_size di) (di_mode di) (di_links_count di)
    (di_blocks di) (di_atime di) (di_ctime di) (di_mtime di)
    ((fun i => di_block i di) <$> seq 0 EXT2_N_BLOCKS).

(** [ext2_now] at a value of the system tick counter *)
Definition ext2_now (ticks : Z) : Z := u32 (u32 (ticks / 100) + 1700000000).

(** Outcome of scanning one group or one block: go on, stop with a value, or
    stop with an error. *)
Inductive scan (A : Type) : Type :=
| Continue
| Found (a : A)
| Error.
Arguments Continue {A}.
Arguments Found {A} a.
Arguments Error {A}.

Section Ext2.
Context {D H T : Type} `{DD : BlockDev D} `{HH : Heap H} `{BM : !BlockMap H T}.
Abbreviation St := (fs_state D H T).
Implicit Types (fs : ext2_fs_priv).

(** ** Buffer accesses *)
Definition in_buf (off n : Z) (buf : list Z) : bool :=
  (0 <=? off) && (off + n <=? Z.of_nat (length buf)).
Definition ldf (n : nat) (off : Z) (buf : list Z) : M St Z :=
  if in_buf off (Z.of_nat n) buf then mret (field n (Z.to_nat off) buf) else fault.
Definition lds (off n : Z) (buf : list Z) : M St (list Z) :=
  if in_buf off n buf then mret (slice (Z.to_nat off) (Z.to_nat n) buf) else fault.
Definition stb (off : Z) (bs buf : list Z) : M St (list Z) :=
  if in_buf off (Z.of_nat (length bs)) buf then mret (splice (Z.to_nat off) bs buf) else fault.
Definition stf (n : nat) (off v : Z) (buf : list Z) : M St (list Z) := stb off (le_enc n v) buf.

(** [with_buf] around a read of block [b]; [None] and [-1] on failure *)
Definition with_block {A} fs (b : Z) (fail : A) (body : list Z -> M St A) : M St A :=
  with_buf (block_size fs) fail
    (let* r := ext2_read_block fs b in
     match r with None => mret fail | Some buf => body buf end).

(** ** Superblock and group descriptors *)
Definition ext2_sb_block fs : Z := if first_data_block fs =? 0 then 0 else 1.
Definition sb_off fs : Z := if block_size fs =? 1024 then 0 else 1024 mod block_size fs.

Definition ext2_load_super fs : M St (option (list Z)) :=
  with_block fs (ext2_sb_block fs) None (fun buf =>
    let* sb := lds (sb_off fs) SIZEOF_SUPERBLOCK buf in mret (Some sb)).
Definition ext2_save_super fs (sb : list Z) : M St Z :=
  with_block fs (ext2_sb_block fs) (-1) (fun buf =>
    let* buf' := stb (sb_off fs) sb buf in ext2_write_block fs (ext2_sb_block fs) buf').

Definition ext2_bgdt_block fs : Z := ext2_sb_block fs + 1.
Definition bgs_per_block fs : Z := block_size fs / SIZEOF_BG_DESC.
Definition bg_blk fs (group : Z) : Z := u32 (ext2_bgdt_block fs + group / bgs_per_block fs).
Definition bg_off fs (group : Z) : Z := group mod bgs_per_block fs * SIZEOF_BG_DESC.

Definition ext2_load_bg fs (group : Z) : M St (option (list Z)) :=
  with_block fs (bg_blk fs group) None (fun buf =>
    let* bg := lds (bg_off fs group) SIZEOF_BG_DESC buf in mret (Some bg)).
Definition ext2_save_bg fs (group : Z) (bg : list Z) : M St Z :=
  with_block fs (bg_blk fs group) (-1) (fun buf =>
    let* buf' := stb (bg_off fs group) bg buf in ext2_write_block fs (bg_blk fs group) buf').

(** ** Bitmaps *)
Definition bit_mask (bit : Z) : Z := u8 (Z.shiftl 1 (bit mod 8)).

Definition ext2_bitmap_test fs (bitmap_block bit : Z) : M St Z :=
  with_block fs bitmap_block (-1) (fun buf =>
    let* b := ldf 1 (bit / 8) buf in
    mret (if Z.land b (bit_mask bit) =? 0 then 0 else 1)).
Definition ext2_bitmap_set fs (bitmap_block bit : Z) : M St Z :=
  with_block fs bitmap_block (-1) (fun buf =>
    let* b := ldf 1 (bit / 8) buf in
    let* buf' := stf 1 (bit / 8) (u8 (Z.lor b (bit_mask bit))) buf in
    ext2_write_block fs bitmap_block buf').
Definition ext2_bitmap_clear fs (bitmap_block bit : Z) : M St Z :=
  with_block fs bitmap_block (-1) (fun buf =>
    let* b := ldf 1 (bit / 8) buf in
    let* buf' := stf 1 (bit / 8) (u8 (Z.land b (Z.lnot (bit_mask bit)))) buf in
    ext2_write_block fs bitmap_block buf').

(** ** Inode records *)
Definition ino_group fs (ino : Z) : Z := u32 (ino - 1) / inodes_per_group fs.
Definition ino_idx fs (ino : Z) : Z := u32 (ino - 1) mod inodes_per_group fs.
Definition inode_blk fs (bg : list Z) (idx : Z) : Z :=
  u32 (bg_inode_table bg + u32 (idx * inode_size fs) / block_size fs).
Definition inode_off fs (idx : Z) : Z := u32 (idx * inode_size fs) mod block_size fs.

Definition ext2_inode_read fs (ino : Z) : M St (option (list Z)) :=
  if (ino =? 0) || (inodes_count fs <? ino) then mret None else
  let* r := ext2_load_bg fs (ino_group fs ino) in
  match r with
  | None => mret None
  | Some bg =>
      with_block fs (inode_blk fs bg (ino_idx fs ino)) None (fun buf =>
        let* di := lds (inode_off fs (ino_idx fs ino)) SIZEOF_INODE buf in mret (Some di))
  end.
Definition ext2_inode_write fs (ino : Z) (inode : list Z) : M St Z :=
  if (ino =? 0) || (inodes_count fs <? ino) then mret (-1) else
  let* r := ext2_load_bg fs (ino_group fs ino) in
  match r with
  | None => mret (-1)
  | Some bg =>
      with_block fs (inode_blk fs bg (ino_idx fs ino)) (-1) (fun buf =>
        let* buf' := stb (inode_off fs (ino_idx fs ino)) inode buf in
        ext2_write_block fs (inode_blk fs bg (ino_idx fs ino)) buf')
  end.

(** ** Allocation *)
Fixpoint alloc_inode_bits (n : nat) fs (g : Z) (bg : list Z) (i : Z) : M St (scan Z) :=
  match n with
  | O => mret Continue
  | S n' =>
      let* used := ext2_bitmap_test fs (bg_inode_bitmap bg) i in
      if used <? 0 then mret Error else
      if negb (used =? 0) then alloc_inode_bits n' fs g bg (i + 1) else
      let* r := ext2_bitmap_set fs (bg_inode_bitmap bg) i in
      if r <? 0 then mret Error else
      let bg' := set_bg_free_inodes_count (bg_free_inodes_count bg - 1) bg in
      let* r := ext2_save_bg fs g bg' in
      if r <? 0 then mret Error else
      modify (fun s => set_free_inodes (u32 (fs_free_inodes s - 1)) s) ;;;
      mret (Found (u32 (u32 (g * inodes_per_group fs + 1) + i)))
  end.
Fixpoint alloc_inode_groups (n : nat) fs (g : Z) : M St (option Z) :=
  match n with
  | O => mret None
  | S n' =>
      let* r := ext2_load_bg fs g in
      match r with
      | None => mret None
      | Some bg =>
          let* r := alloc_inode_bits (Z.to_nat (inodes_per_group fs)) fs g bg 0 in
          match r with
          | Continue => alloc_inode_groups n' fs (g + 1)
          | Found ino => mret (Some ino)
          | Error => mret None
          end
      end
  end.
Definition ext2_alloc_inode fs : M St (option Z) :=
  alloc_inode_groups (Z.to_nat (num_groups fs)) fs 0.

Definition ext2_free_inode fs (ino : Z) : M St Z :=
  let* r := ext2_load_bg fs (ino_group fs ino) in
  match r with
  | None => mret (-1)
  | Some bg =>
      let* r := ext2_bitmap_clear fs (bg_inode_bitmap bg) (ino_idx fs ino) in
      if r <? 0 then mret (-1) else
      let bg' := set_bg_free_inodes_count (bg_free_inodes_count bg + 1) bg in
      let* r := ext2_save_bg fs (ino_group fs ino) bg' in
      if r <? 0 then mret (-1) else
      modify (fun s => set_free_inodes (u32 (fs_free_inodes s + 1)) s) ;;;
      mret 0
  end.

Definition blk_base fs (g : Z) : Z := u32 (first_data_block fs + u32 (g * blocks_per_group fs)).
Fixpoint alloc_block_bits (n : nat) fs (g : Z) (bg : list Z) (i : Z) : M St (scan Z) :=
  match n with
  | O => mret Continue
  | S n' =>
      let b := u32 (blk_base fs g + i) in
      if blocks_count fs <=? b then mret Continue else
      let* used := ext2_bitmap_test fs (bg_block_bitmap bg) i in
      if used <? 0 then mret Error else
      if negb (used =? 0) then alloc_block_bits n' fs g bg (i + 1) else
      let* r := ext2_bitmap_set fs (bg_block_bitmap bg) i in
      if r <? 0 then mret Error else
      let bg' := set_bg_free_blocks_count (bg_free_blocks_count bg - 1) bg in
      let* r := ext2_save_bg fs g bg' in
      if r <? 0 then mret Error else
      modify (fun s => set_free_blocks (u32 (fs_free_blocks s - 1)) s) ;;;
      mret (Found b)
  end.
Fixpoint alloc_block_groups (n : nat) fs (g : Z) : M St (option Z) :=
  match n with
  | O => mret None
  | S n' =>
      let* r := ext2_load_bg fs g in
      match r with
      | None => mret None
      | Some bg =>
          let* r := alloc_block_bits (Z.to_nat (blocks_per_group fs)) fs g bg 0 in
          match r with
          | Continue => alloc_block_groups n' fs (g + 1)
          | Found b => mret (Some b)
          | Error => mret None
          end
      end
  end.
Definition ext2_alloc_block fs : M St (option Z) :=
  alloc_block_groups (Z.to_nat (num_groups fs)) fs 0.

Definition blk_group fs (b : Z) : Z := u32 (b - first_data_block fs) / blocks_per_group fs.
Definition blk_idx fs (b : Z) : Z := u32 (b - first_data_block fs) mod blocks_per_group fs.
Definition ext2_free_block fs (b : Z) : M St Z :=
  let* r := ext2_load_bg fs (blk_group fs b) in
  match r with
  | None => mret (-1)
  | Some bg =>
      let* r := ext2_bitmap_clear fs (bg_block_bitmap bg) (blk_idx fs b) in
      if r <? 0 then mret (-1) else
      let bg' := set_bg_free_blocks_count (bg_free_blocks_count bg + 1) bg in
      let* r := ext2_save_bg fs (blk_group fs b) bg' in
      if r <? 0 then mret (-1) else
      modify (fun s => set_free_blocks (u32 (fs_free_blocks s + 1)) s) ;;;
      mret 0
  end.

Definition zero_block fs : list Z := replicate (Z.to_nat (block_size fs)) 0.
Definition ext2_alloc_zero_block fs : M St (option Z) :=
  with_buf (block_size fs) None
    (let* r := ext2_alloc_block fs in
     match r with
     | None => mret None
     | Some b =>
         let* w := ext2_write_block fs b (zero_block fs) in
         if w <? 0 then ext2_free_block fs b ;;; mret None else mret (Some b)
     end).

(** ** The block map *)
Definition ext2_ind_get fs (ind_blk idx : Z) : M St (option Z) :=
  with_block fs ind_blk None (fun buf =>
    let* v := ldf 4 (idx * 4) buf in mret (Some v)).
Definition ext2_ind_set fs (ind_blk idx val : Z) : M St Z :=
  with_block fs ind_blk (-1) (fun buf =>
    let* buf' := stf 4 (idx * 4) val buf in ext2_write_block fs ind_blk buf').

(** the slot [idx] of the indirect block [ind], allocated if it is empty *)
Definition ind_slot fs (ind idx : Z) : M St (option Z) :=
  let* r := ext2_ind_get fs ind idx in
  match r with
  | None => mret None
  | Some cur =>
      if negb (cur =? 0) then mret (Some cur) else
      let* r := ext2_alloc_zero_block fs in
      match r with
      | None => mret None
      | Some nb =>
          let* w := ext2_ind_set fs ind idx nb in
          if w <? 0 then mret None else mret (Some nb)
      end
  end.
(** [v = 0; ext2_ind_get(..., &v); *out = v;] — the result is not checked *)
Definition ind_peek fs (ind idx : Z) : M St (option Z) :=
  let* r := ext2_ind_get fs ind idx in mret (Some (default 0 r)).

(** [priv->i_block[i]], allocated if it is empty; [None] on failure *)
Definition slot_alloc fs (p : ext2_inode_priv) (i : nat) : M St (option Z * ext2_inode_priv) :=
  if negb (blk p i =? 0) then mret (Some (blk p i), p) else
  let* r := ext2_alloc_zero_block fs in
  match r with
  | None => mret (None, p)
  | Some nb => mret (Some nb, set_p_block i nb p)
  end.

Definition ext2_get_block (p : ext2_inode_priv) fs (lblk : Z) (allocate : bool)
    : M St (option Z * ext2_inode_priv) :=
  let ptrs := ptrs_per_block fs in
  let bound_ind := u32 (12 + ptrs) in
  let bound_dind := u32 (bound_ind + u32 (ptrs * ptrs)) in
  if lblk <? 12 then
    (if allocate then slot_alloc fs p (Z.to_nat lblk)
     else mret (Some (blk p (Z.to_nat lblk)), p))
  else if lblk <? bound_ind then
    let idx := lblk - 12 in
    (if (blk p EXT2_IND_BLOCK =? 0) && negb allocate then mret (Some 0, p) else
     let* r := slot_alloc fs p EXT2_IND_BLOCK in
     match r with
     | (None, p') => mret (None, p')
     | (Some ind, p') =>
         let* v := (if allocate then ind_slot fs ind idx else ind_peek fs ind idx) in
         mret (v, p')
     end)
  else if lblk <? bound_dind then
    let off := lblk - bound_ind in
    let idx1 := off / ptrs in
    let idx2 := off mod ptrs in
    (if (blk p EXT2_DIND_BLOCK =? 0) && negb allocate then mret (Some 0, p) else
     let* r := slot_alloc fs p EXT2_DIND_BLOCK in
     match r with
     | (None, p') => mret (None, p')
     | (Some dind, p') =>
         let* r := ext2_ind_get fs dind idx1 in
         match r with
         | None => mret (None, p')
         | Some ind0 =>
             if (ind0 =? 0) && negb allocate then mret (Some 0, p') else
             let* r := (if negb (ind0 =? 0) then mret (Some ind0) else
                        let* r := ext2_alloc_zero_block fs in
                        match r with
                        | None => mret None
                        | Some nb =>
                            let* w := ext2_ind_set fs dind idx1 nb in
                            if w <? 0 then mret None else mret (Some nb)
                        end) in
             match r with
             | None => mret (None, p')
             | Some ind =>
                 let* v := (if allocate then ind_slot fs ind idx2 else ind_peek fs ind idx2) in
                 mret (v, p')
             end
         end
     end)
  else mret (None, p).

(** ** Releasing all blocks of an inode *)
Fixpoint free_direct (n : nat) fs (i : nat) (p : ext2_inode_priv) : M St ext2_inode_priv :=
  match n with
  | O => mret p
  | S n' =>
      if blk p i =? 0 then free_direct n' fs (S i) p else
      ext2_free_block fs (blk p i) ;;; free_direct n' fs (S i) (set_p_block i 0 p)
  end.
(** free the blocks a pointer block names *)
Fixpoint free_ptrs (n : nat) fs (buf : list Z) (i : Z) : M St unit :=
  match n with
  | O => mret tt
  | S n' =>
      let* v := ldf 4 (i * 4) buf in
      (if v =? 0 then mret tt else ext2_free_block fs v ;;; mret tt) ;;;
      free_ptrs n' fs buf (i + 1)
  end.
Definition free_ind fs (ind : Z) : M St unit :=
  with_block fs ind tt (fun ibuf =>
    free_ptrs (Z.to_nat (ptrs_per_block fs)) fs ibuf 0 ;;;
    ext2_free_block fs ind ;;; mret tt).
Fixpoint free_dind (n : nat) fs (buf : list Z) (i : Z) : M St unit :=
  match n with
  | O => mret tt
  | S n' =>
      let* ind := ldf 4 (i * 4) buf in
      (if ind =? 0 then mret tt else free_ind fs ind) ;;;
      free_dind n' fs buf (i + 1)
  end.
Definition ext2_free_all_blocks fs (p : ext2_inode_priv) : M St (Z * ext2_inode_priv) :=
  let* p := free_direct 12 fs 0 p in
  let* r :=
    (if blk p EXT2_IND_BLOCK =? 0 then mret (0, p) else
     with_block fs (blk p EXT2_IND_BLOCK) (-1, p) (fun buf =>
       free_ptrs (Z.to_nat (ptrs_per_block fs)) fs buf 0 ;;;
       ext2_free_block fs (blk p EXT2_IND_BLOCK) ;;;
       mret (0, set_p_block EXT2_IND_BLOCK 0 p))) in
  if r.1 <? 0 then mret r else
  let p := r.2 in
  if blk p EXT2_DIND_BLOCK =? 0 then mret (0, p) else
  with_block fs (blk p EXT2_DIND_BLOCK) (-1, p) (fun buf =>
    free_dind (Z.to_nat (ptrs_per_block fs)) fs buf 0 ;;;
    ext2_free_block fs (blk p EXT2_DIND_BLOCK) ;;;
    mret (0, set_p_block EXT2_DIND_BLOCK 0 p)).

(** ** The private inode and its record *)
Fixpoint count_blocks (n : nat) (p : ext2_inode_priv) fs (l used : Z) : M St Z :=
  match n with
  | O => mret used
  | S n' =>
      let* r := ext2_get_block p fs l false in
      match r.1 with
      | None => mret used
      | Some phys => count_blocks n' p fs (l + 1) (if phys =? 0 then used else u32 (used + 1))
      end
  end.
Definition nblocks fs (size : Z) : Z := u32 (size + block_size fs - 1) / block_size fs.
Definition ext2_refresh_i_blocks fs (p : ext2_inode_priv) : M St ext2_inode_priv :=
  let* used := count_blocks (Z.to_nat (nblocks fs (p_size p))) p fs 0 0 in
  mret (set_p_blocks (u32 (used * (block_size fs / 512))) p).
Definition ext2_priv_save fs (p : ext2_inode_priv) : M St Z :=
  ext2_inode_write fs (p_ino p) (ext2_priv_to_disk p).

End Ext2.
