(* ===== verification/Ext2Logic.v ===== *)
(** A program logic for ext2 over the abstract block store.

    [astate] is what a client of the cache sees: the contents of every block
    and the two free counters.  [triple a m R]: started in any state that
    satisfies the cache invariant and shows [a], [m] keeps the invariant (so
    releases every buffer it takes) and ends in a state that shows some [a']
    with [R] of the result and [a'], unless the kernel panics. *)
From stdpp Require Import base gmap list.
From Stdlib Require Import ZArith Lia.
From S2P Require Import Prelude Bytes HashMap BlockDev Ext2Cache Ext2CacheSpec Ext2.
Open Scope Z_scope.

Record astate := mkA { a_view : Z -> list Z; a_fi : Z; a_fb : Z }.

Definition a_write (b : Z) (l : list Z) (a : astate) : astate :=
  mkA (fun c => if decide (c = b) then l else a_view a c) (a_fi a) (a_fb a).
Definition a_set_fb (n : Z) (a : astate) : astate := mkA (a_view a) (a_fi a) n.
Definition a_set_fi (n : Z) (a : astate) : astate := mkA (a_view a) n (a_fb a).

(** the same block store, except for block [b] *)
Definition differs (b : Z) (a a' : astate) : Prop :=
  (forall c, c <> b -> a_view a' c = a_view a c) /\ a_fi a' = a_fi a /\ a_fb a' = a_fb a.

Lemma a_write_eq b l a : a_view (a_write b l a) b = l.
Proof. simpl. by rewrite decide_True. Qed.
Lemma a_write_ne b l a c : c <> b -> a_view (a_write b l a) c = a_view a c.
Proof. intros. simpl. by rewrite decide_False. Qed.
Lemma differs_refl b a : differs b a a.
Proof. done. Qed.
Lemma differs_write b l a : differs b a (a_write b l a).
Proof. split; [|done]. intros c Hc. by apply a_write_ne. Qed.

Section Logic.
Context {D H T : Type} `{DD : BlockDev D} `{HH : Heap H} `{BM : !BlockMap H T}.
Abbreviation St := (fs_state D H T).
Context (fs : ext2_fs_priv) (BS : block_size_ok fs).

Definition reliable : Prop := dev_reliable (D := D) /\ heap_reliable (H := H).

Definition models (st : St) (a : astate) : Prop :=
  (forall b, u32_ok b -> view fs st b = a_view a b) /\
  fs_free_inodes st = a_fi a /\ fs_free_blocks st = a_fb a.

Definition triple {A} (a : astate) (m : M St A) (R : A -> astate -> Prop) : Prop :=
  forall L st, fs_inv fs L st -> models st a ->
    wp m (fun r st' => fs_inv fs L st' /\ exists a', models st' a' /\ R r a') st.

(** every block the store shows is a block *)
Definition blocks_ok (a : astate) : Prop := forall b, u32_ok b -> block_ok fs (a_view a b).

Lemma triple_blocks {A} a (m : M St A) R : (blocks_ok a -> triple a m R) -> triple a m R.
Proof.
  intros W L st I Mo. apply W; [|done|done]. intros b Hb. destruct Mo as [Mo _].
  rewrite <- Mo by done. destruct I as (t & m' & I). by eapply (view_ok fs BS I).
Qed.

Lemma triple_ret {A} a (x : A) (R : A -> astate -> Prop) : R x a -> triple a (mret x) R.
Proof. intros HR L st I Mo. apply wp_ret. split; [done|]. by exists a. Qed.

Lemma triple_bind {A B} a (m : M St A) (k : A -> M St B) R R' :
  triple a m R -> (forall x a', R x a' -> triple a' (k x) R') -> triple a (mbind' m k) R'.
Proof.
  intros W1 W2 L st I Mo. apply wp_bind. eapply wp_conseq; [by apply W1|].
  intros x st' (I' & a' & Mo' & HR). by apply (W2 x a').
Qed.

Lemma triple_conseq {A} a (m : M St A) (R R' : A -> astate -> Prop) :
  triple a m R -> (forall x a', R x a' -> R' x a') -> triple a m R'.
Proof.
  intros W HR L st I Mo. eapply wp_conseq; [by apply W|].
  intros x st' (I' & a' & Mo' & Hx). split; [done|]. exists a'. auto.
Qed.

Lemma triple_with_buf {A} a n (fail : A) body (R : A -> astate -> Prop) :
  1 <= n <= 4096 -> (~ reliable -> R fail a) -> triple a body R -> triple a (with_buf n fail body) R.
Proof.
  intros Hn Hf W L st I Mo.
  apply (wp_with_buf fs BS L st n fail body (fun r s => exists a', models s a' /\ R r a')); [done|done|..].
  - intros r h s (a' & Mo' & HR). exists a'. split; [|done]. exact Mo'.
  - intros HH'. exists a. split; [done|]. apply Hf. intros [_ ?]. done.
  - intros L1 h I1. by apply W.
Qed.

Lemma triple_read_block a b : u32_ok b ->
  triple a (ext2_read_block fs b)
    (fun r a' => a' = a /\ (r = Some (a_view a b) \/ (r = None /\ ~ reliable))).
Proof.
  intros Hb L st I Mo. eapply wp_conseq; [by apply read_block_ok|].
  intros r st' (I' & [V [V1 V2]] & R & Q). split; [done|]. exists a. destruct Mo as (Mo & M1 & M2).
  split; [|split; [done|]].
  - split; [|split; congruence]. intros c Hc. rewrite V by done. by apply Mo.
  - destruct R as [->| ->]; [right|left; by rewrite Mo]. split; [done|]. intros [HD _]. by apply (Q HD).
Qed.

Lemma triple_with_block {A} a b (fail : A) body (R : A -> astate -> Prop) :
  u32_ok b -> (~ reliable -> R fail a) ->
  (block_ok fs (a_view a b) -> triple a (body (a_view a b)) R) ->
  triple a (with_block fs b fail body) R.
Proof.
  intros Hb Hf W. apply triple_blocks. intros Hok. pose proof (bs_range fs BS).
  apply triple_with_buf; [lia|done|]. eapply triple_bind; [by apply triple_read_block|].
  intros r a' (-> & [->|[-> Hr]]).
  - by apply W, Hok.
  - by apply triple_ret, Hf.
Qed.

Lemma triple_set_fb {A} a f (k : unit -> M St A) R :
  triple (a_set_fb (f (a_fb a)) a) (k tt) R ->
  triple a (modify (fun s => set_free_blocks (f (fs_free_blocks s)) s) ;;; k tt) R.
Proof.
  intros W L st (t & m & I) Mo. apply wp_modify. destruct Mo as (M0 & M1 & M2). apply W.
  - exists t, m. destruct I as [A1 B C F G K]. by split.
  - split; [exact M0|]. split; [done|]. simpl. by rewrite M2.
Qed.

Lemma triple_set_fi {A} a f (k : unit -> M St A) R :
  triple (a_set_fi (f (a_fi a)) a) (k tt) R ->
  triple a (modify (fun s => set_free_inodes (f (fs_free_inodes s)) s) ;;; k tt) R.
Proof.
  intros W L st (t & m & I) Mo. apply wp_modify. destruct Mo as (M0 & M1 & M2). apply W.
  - exists t, m. destruct I as [A1 B C F G K]. by split.
  - split; [exact M0|]. split; [|done]. simpl. by rewrite M1.
Qed.

(** ** Accesses inside a block *)
Lemma in_buf_true l off n : 0 <= off -> off + n <= Z.of_nat (length l) -> in_buf off n l = true.
Proof. intros. unfold in_buf. apply andb_true_iff. split; apply Z.leb_le; lia. Qed.

Lemma triple_ldf {A} a n off l (k : Z -> M St A) R :
  0 <= off -> off + Z.of_nat n <= Z.of_nat (length l) ->
  triple a (k (field n (Z.to_nat off) l)) R -> triple a (mbind' (ldf n off l) k) R.
Proof. intros. unfold ldf. rewrite in_buf_true by done. done. Qed.

Lemma triple_lds {A} a off n l (k : list Z -> M St A) R :
  0 <= off -> off + n <= Z.of_nat (length l) ->
  triple a (k (slice (Z.to_nat off) (Z.to_nat n) l)) R -> triple a (mbind' (lds off n l) k) R.
Proof. intros. unfold lds. rewrite in_buf_true by done. done. Qed.

Lemma triple_stb {A} a off bs l (k : list Z -> M St A) R :
  0 <= off -> off + Z.of_nat (length bs) <= Z.of_nat (length l) ->
  triple a (k (splice (Z.to_nat off) bs l)) R -> triple a (mbind' (stb off bs l) k) R.
Proof. intros. unfold stb. rewrite in_buf_true by done. done. Qed.

Lemma triple_stf {A} a n off v l (k : list Z -> M St A) R :
  0 <= off -> off + Z.of_nat n <= Z.of_nat (length l) ->
  triple a (k (set_field n (Z.to_nat off) v l)) R -> triple a (mbind' (stf n off v l) k) R.
Proof. intros. apply triple_stb; [done|by rewrite length_le_enc|done]. Qed.

Lemma block_ok_splice off bs l :
  0 <= off -> off + Z.of_nat (length bs) <= block_size fs -> block_ok fs l -> bytes_ok bs ->
  block_ok fs (splice (Z.to_nat off) bs l).
Proof.
  intros H0 H1 [Hl Hb] Hbs. split; [rewrite length_splice by lia; done|by apply splice_ok].
Qed.

Lemma block_ok_set_field n off v l :
  0 <= off -> off + Z.of_nat n <= block_size fs -> block_ok fs l ->
  block_ok fs (set_field n (Z.to_nat off) v l).
Proof. intros. apply block_ok_splice; [done|by rewrite length_le_enc|done|apply le_enc_ok]. Qed.

Lemma field_range n off l : bytes_ok l -> 0 <= field n off l < 2 ^ (8 * Z.of_nat n).
Proof.
  intros Hl. unfold field. pose proof (le_dec_bound _ (slice_ok off n l Hl)) as B.
  split; [lia|]. eapply Z.lt_le_trans; [apply B|]. apply Z.pow_le_mono_r; [lia|].
  unfold slice. rewrite length_take. lia.
Qed.

Lemma field4_u32 off l : bytes_ok l -> u32_ok (field 4 off l).
Proof. apply (field_range 4). Qed.

(** ** Writes, when the table of the cache does not run out of nodes *)
Context (TT : table_total (H := H) (T := T)).

(** a write that happened, or one that failed and may have damaged [b] *)
Definition wrote (b : Z) (l : list Z) (a : astate) (r : Z) (a' : astate) : Prop :=
  (r = 0 /\ a' = a_write b l a) \/ (r = -1 /\ ~ reliable /\ differs b a a').

Lemma triple_write_block a b buf : u32_ok b -> block_ok fs buf ->
  triple a (ext2_write_block fs b buf) (wrote b buf a).
Proof.
  intros Hb Hok L st I Mo. eapply wp_conseq; [by apply write_block_ok|].
  intros r st' (I' & [V [V1 V2]] & R & Q). split; [done|]. destruct Mo as (Mo & M1 & M2).
  exists (a_write b (view fs st' b) a). split.
  - split; [|simpl; split; congruence]. intros c Hc. simpl. case_decide; [by subst|].
    rewrite V by done. by apply Mo.
  - destruct R as [->|[-> NR]]; [left|right; split; [done|split; [by intros [_ ?]|apply differs_write]]].
    split; [done|]. destruct (Q eq_refl) as [->|[? _]]; done.
Qed.

Lemma wrote_cases b l a r a' : wrote b l a r a' ->
  ((r <? 0) = false /\ r = 0 /\ a' = a_write b l a) \/ ((r <? 0) = true /\ r = -1 /\ ~ reliable /\ differs b a a').
Proof. intros [[-> ->]|(-> & ? & ?)]; [left|right]; done. Qed.

End Logic.
