(* ===== verification/Ext2Alloc.v ===== *)
(** Allocation in ext2: descriptors, bitmaps, and the first-fit search for a
    free block or inode. *)
From stdpp Require Import base gmap list.
From Stdlib Require Import ZArith Lia.
From S2P Require Import Prelude Bytes HashMap BlockDev Ext2Cache Ext2CacheSpec Ext2 Ext2Logic.
Open Scope Z_scope.

(** ** Geometry: what the superblock of a sound image gives *)
Record geom_ok (fs : ext2_fs_priv) : Prop := {
  go_bs : block_size_ok fs;
  go_ptrs : ptrs_per_block fs = block_size fs / 4;
  go_fdb : first_data_block fs = 0 \/ first_data_block fs = 1;
  go_bpg : 1 <= blocks_per_group fs <= 8 * block_size fs;
  go_ipg : 1 <= inodes_per_group fs <= 8 * block_size fs;
  go_isz : exists k, 7 <= k <= 12 /\ inode_size fs = 2 ^ k /\ 2 ^ k <= block_size fs;
  go_groups : 0 <= num_groups fs < 2 ^ 31;
  go_blocks : first_data_block fs + num_groups fs * blocks_per_group fs <= 2 ^ 32;
  go_inodes : num_groups fs * inodes_per_group fs < 2 ^ 32;
  go_icount : inodes_count fs <= num_groups fs * inodes_per_group fs }.

#[export] Hint Extern 0 (block_size_ok _) => (apply go_bs; assumption) : core.

(** ** Bits of a bitmap block *)
Definition bit_at (l : list Z) (bit : Z) : bool :=
  Z.testbit (field 1 (Z.to_nat (bit / 8)) l) (bit mod 8).
Definition set_bit (l : list Z) (bit : Z) : list Z :=
  set_field 1 (Z.to_nat (bit / 8))
    (u8 (Z.lor (field 1 (Z.to_nat (bit / 8)) l) (bit_mask bit))) l.
Definition clear_bit (l : list Z) (bit : Z) : list Z :=
  set_field 1 (Z.to_nat (bit / 8))
    (u8 (Z.land (field 1 (Z.to_nat (bit / 8)) l) (Z.lnot (bit_mask bit)))) l.

Lemma bit_mask_pow bit : bit_mask bit = 2 ^ (bit mod 8).
Proof.
  unfold bit_mask. pose proof (Z.mod_pos_bound bit 8 ltac:(lia)).
  rewrite Z.shiftl_1_l. apply u8_small. split; [apply Z.pow_nonneg; lia|].
  apply Z.pow_lt_mono_r; lia.
Qed.

Lemma land_bit_mask b bit : (Z.land b (bit_mask bit) =? 0) = negb (Z.testbit b (bit mod 8)).
Proof.
  rewrite bit_mask_pow. pose proof (Z.mod_pos_bound bit 8 ltac:(lia)) as Hk.
  generalize dependent (bit mod 8). intros k Hk.
  destruct (Z.testbit b k) eqn:E; cbn [negb].
  - apply Z.eqb_neq. intros E0. assert (Z.testbit (Z.land b (2 ^ k)) k = false) as Hf by by rewrite E0, Z.bits_0.
    rewrite Z.land_spec, E, Z.pow2_bits_true in Hf by lia. done.
  - apply Z.eqb_eq. apply Z.bits_inj'. intros n Hn. rewrite Z.land_spec, Z.bits_0.
    destruct (decide (n = k)) as [->|Hne]; [by rewrite E|].
    rewrite Z.pow2_bits_false by lia. apply andb_false_r.
Qed.

Lemma testbit_u8 z k : 0 <= k < 8 -> Z.testbit (u8 z) k = Z.testbit z k.
Proof. intros. unfold u8. by rewrite Z.mod_pow2_bits_low by lia. Qed.

Lemma field1_range off l : bytes_ok l -> 0 <= field 1 off l < 2 ^ 8.
Proof. apply (field_range 1). Qed.

Lemma field1_set l off v off' :
  bytes_ok l -> (off < length l)%nat -> 0 <= v < 2 ^ 8 ->
  field 1 off' (set_field 1 off v l) = if decide (off' = off) then v else field 1 off' l.
Proof.
  intros Hb Hl Hv. case_decide as Do.
  - subst off'. rewrite field_set_same by lia. apply Z.mod_small. done.
  - apply field_set_disjoint; lia.
Qed.

Section Bits.
Context (fs : ext2_fs_priv) (l : list Z) (bit : Z).
Context (Hl : block_ok fs l) (Hbit : 0 <= bit < 8 * block_size fs).

Lemma bit_byte : (Z.to_nat (bit / 8) < length l)%nat.
Proof.
  destruct Hl as [Hlen _]. assert (bit / 8 < block_size fs) by (apply Z.div_lt_upper_bound; lia).
  assert (0 <= bit / 8) by (apply Z.div_pos; lia). lia.
Qed.

Lemma bit_eq bit' : 0 <= bit' -> Z.to_nat (bit' / 8) = Z.to_nat (bit / 8) -> bit' mod 8 = bit mod 8 -> bit' = bit.
Proof.
  intros H0 E1 E2. assert (0 <= bit / 8) by (apply Z.div_pos; lia).
  assert (0 <= bit' / 8) by (apply Z.div_pos; lia).
  pose proof (Z.div_mod bit 8 ltac:(lia)). pose proof (Z.div_mod bit' 8 ltac:(lia)). lia.
Qed.

Lemma bit_at_set bit' : 0 <= bit' ->
  bit_at (set_bit l bit) bit' = (bit' =? bit) || bit_at l bit'.
Proof.
  intros H0. pose proof bit_byte. destruct Hl as [Hlen Hb]. unfold bit_at, set_bit.
  rewrite field1_set by (done || lia || apply u8_range).
  pose proof (Z.mod_pos_bound bit 8 ltac:(lia)). pose proof (Z.mod_pos_bound bit' 8 ltac:(lia)).
  case_decide as Dq; [|destruct (Z.eqb_spec bit' bit); [subst; done|done]].
  rewrite testbit_u8 by lia. rewrite Z.lor_spec, bit_mask_pow, Z.pow2_bits_eqb by lia. rewrite Dq.
  destruct (Z.eqb_spec (bit mod 8) (bit' mod 8)) as [Em|Em].
  - assert (bit' = bit) as -> by by apply bit_eq. rewrite Z.eqb_refl. apply orb_true_r.
  - destruct (Z.eqb_spec bit' bit); [subst; done|]. by rewrite orb_false_r.
Qed.

Lemma bit_at_clear bit' : 0 <= bit' ->
  bit_at (clear_bit l bit) bit' = negb (bit' =? bit) && bit_at l bit'.
Proof.
  intros H0. pose proof bit_byte. destruct Hl as [Hlen Hb]. unfold bit_at, clear_bit.
  rewrite field1_set by (done || lia || apply u8_range).
  pose proof (Z.mod_pos_bound bit 8 ltac:(lia)). pose proof (Z.mod_pos_bound bit' 8 ltac:(lia)).
  case_decide as Dq; [|destruct (Z.eqb_spec bit' bit); [subst; done|done]].
  rewrite testbit_u8 by lia. rewrite Z.land_spec, Z.lnot_spec, bit_mask_pow, Z.pow2_bits_eqb by lia. rewrite Dq.
  destruct (Z.eqb_spec (bit mod 8) (bit' mod 8)) as [Em|Em].
  - assert (bit' = bit) as -> by by apply bit_eq. rewrite Z.eqb_refl. apply andb_false_r.
  - destruct (Z.eqb_spec bit' bit); [subst; done|]. rewrite andb_true_r. done.
Qed.

Lemma set_bit_ok : block_ok fs (set_bit l bit).
Proof.
  pose proof bit_byte. destruct Hl as [Hlen Hb]. unfold set_bit. rewrite <- (Nat2Z.id (Z.to_nat (bit / 8))).
  apply block_ok_set_field; [lia|lia|done].
Qed.
Lemma clear_bit_ok : block_ok fs (clear_bit l bit).
Proof.
  pose proof bit_byte. destruct Hl as [Hlen Hb]. unfold clear_bit. rewrite <- (Nat2Z.id (Z.to_nat (bit / 8))).
  apply block_ok_set_field; [lia|lia|done].
Qed.

Lemma clear_set_bit : bit_at l bit = false -> clear_bit (set_bit l bit) bit = l.
Proof.
  intros Hf. pose proof bit_byte. destruct Hl as [Hlen Hb]. unfold clear_bit, set_bit.
  set (off := Z.to_nat (bit / 8)) in *. set (x := field 1 off l) in *.
  pose proof (field1_range off l Hb) as Hx. fold x in Hx.
  pose proof (Z.mod_pos_bound bit 8 ltac:(lia)) as Hk.
  rewrite field1_set by (done || lia || apply u8_range). rewrite decide_True by done.
  rewrite set_field_twice by lia.
  transitivity (set_field 1 off x l); [|apply set_field_field; [done|lia]]. f_equal.
  apply Z.bits_inj'. intros n Hn. destruct (decide (n < 8)) as [Hn8|Hn8].
  - rewrite testbit_u8 by lia. rewrite Z.land_spec, testbit_u8, Z.lor_spec, Z.lnot_spec by lia.
    rewrite bit_mask_pow, Z.pow2_bits_eqb by lia. destruct (Z.eqb_spec (bit mod 8) n) as [En|En].
    + subst n. unfold bit_at in Hf. fold off x in Hf. rewrite Hf. done.
    + rewrite orb_false_r. apply andb_true_r.
  - unfold u8. rewrite Z.mod_pow2_bits_high by lia. symmetry.
    rewrite <- (Z.mod_small x (2 ^ 8)) by done. apply Z.mod_pow2_bits_high. lia.
Qed.
End Bits.

(** ** Descriptors and bitmaps in the block store *)
Section Store.
Context (fs : ext2_fs_priv).
Implicit Types (a : astate) (g j : Z).

Definition bg_of a g : list Z := slice (Z.to_nat (bg_off fs g)) 32 (a_view a (bg_blk fs g)).
Definition bb a g : Z := bg_block_bitmap (bg_of a g).
Definition ib a g : Z := bg_inode_bitmap (bg_of a g).
Definition used a g j : bool := bit_at (a_view a (bb a g)) j.
Definition iused a g j : bool := bit_at (a_view a (ib a g)) j.

Definition put_bg (g : Z) (bg : list Z) (a : astate) : astate :=
  a_write (bg_blk fs g) (splice (Z.to_nat (bg_off fs g)) bg (a_view a (bg_blk fs g))) a.

(** the whole effect of taking or returning bit [j] of group [g] *)
Definition alloc_eff a g j : astate :=
  a_set_fb (u32 (a_fb a - 1))
    (put_bg g (set_bg_free_blocks_count (bg_free_blocks_count (bg_of a g) - 1) (bg_of a g))
       (a_write (bb a g) (set_bit (a_view a (bb a g)) j) a)).
Definition free_eff a g j : astate :=
  a_set_fb (u32 (a_fb a + 1))
    (put_bg g (set_bg_free_blocks_count (bg_free_blocks_count (bg_of a g) + 1) (bg_of a g))
       (a_write (bb a g) (clear_bit (a_view a (bb a g)) j) a)).
Definition ialloc_eff a g j : astate :=
  a_set_fi (u32 (a_fi a - 1))
    (put_bg g (set_bg_free_inodes_count (bg_free_inodes_count (bg_of a g) - 1) (bg_of a g))
       (a_write (ib a g) (set_bit (a_view a (ib a g)) j) a)).
Definition ifree_eff a g j : astate :=
  a_set_fi (u32 (a_fi a + 1))
    (put_bg g (set_bg_free_inodes_count (bg_free_inodes_count (bg_of a g) + 1) (bg_of a g))
       (a_write (ib a g) (clear_bit (a_view a (ib a g)) j) a)).

(** an operation gave up half-way: only the bitmap block [b] and the
    descriptor block of [g] may have changed *)
Definition damaged (b g : Z) (a a' : astate) : Prop :=
  (forall c, c <> b -> c <> bg_blk fs g -> a_view a' c = a_view a c) /\
  a_fi a' = a_fi a /\ a_fb a' = a_fb a.

Lemma damaged_refl b g a : damaged b g a a.
Proof. done. Qed.
Lemma damaged_bitmap b g a a' : differs b a a' -> damaged b g a a'.
Proof. intros (A & B & C). split; [|done]. intros c Hc _. by apply A. Qed.
Lemma damaged_desc b g l a a' : differs (bg_blk fs g) (a_write b l a) a' -> damaged b g a a'.
Proof.
  intros (A & B & C). split; [|done]. intros c Hc Hg. rewrite A by done. by apply a_write_ne.
Qed.
End Store.

Section Alloc.
Context {D H T : Type} `{DD : BlockDev D} `{HH : Heap H} `{BM : !BlockMap H T}.
Abbreviation St := (fs_state D H T).
Context (fs : ext2_fs_priv) (G : geom_ok fs).
Context (TT : table_total (H := H) (T := T)).
Abbreviation rel := (reliable (D := D) (H := H)).
Abbreviation triple := (triple (D := D) (H := H) (T := T) fs).
Implicit Types (a : astate) (g j : Z).

Lemma bg_off_range g : 0 <= bg_off fs g /\ bg_off fs g + 32 <= block_size fs.
Proof.
  unfold bg_off, bgs_per_block, SIZEOF_BG_DESC.
  assert (0 < block_size fs / 32 /\ block_size fs / 32 * 32 = block_size fs) as [H1 H2].
  { destruct (go_bs fs G) as [->|[->| ->]]; done. }
  pose proof (Z.mod_pos_bound g (block_size fs / 32) H1). nia.
Qed.

Lemma bg_blk_u32 g : u32_ok (bg_blk fs g).
Proof. apply u32_range. Qed.

Lemma length_bg_of a g : blocks_ok fs a -> length (bg_of fs a g) = 32%nat.
Proof.
  intros Hok. destruct (Hok (bg_blk fs g) (bg_blk_u32 g)) as [Hl _]. pose proof (bg_off_range g).
  apply length_slice. lia.
Qed.
Lemma bg_of_bytes a g : blocks_ok fs a -> bytes_ok (bg_of fs a g).
Proof. intros Hok. apply slice_ok, Hok, bg_blk_u32. Qed.
Lemma bb_u32 a g : blocks_ok fs a -> u32_ok (bb fs a g).
Proof. intros Hok. by apply field4_u32, bg_of_bytes. Qed.
Lemma ib_u32 a g : blocks_ok fs a -> u32_ok (ib fs a g).
Proof. intros Hok. by apply field4_u32, bg_of_bytes. Qed.

Lemma load_bg_ok a g :
  triple a (ext2_load_bg fs g)
    (fun r a' => a' = a /\ (r = Some (bg_of fs a g) \/ (r = None /\ ~ rel))).
Proof.
  pose proof (bg_off_range g). apply triple_with_block; [done|apply bg_blk_u32|by auto|].
  intros [Hl _]. unfold SIZEOF_BG_DESC. apply triple_lds; [lia|lia|].
  apply triple_ret. split; [done|]. by left.
Qed.

Lemma save_bg_ok a g bg : length bg = 32%nat -> bytes_ok bg ->
  triple a (ext2_save_bg fs g bg)
    (wrote (bg_blk fs g) (splice (Z.to_nat (bg_off fs g)) bg (a_view a (bg_blk fs g))) a).
Proof.
  intros Hlen Hb. pose proof (bg_off_range g). apply triple_with_block; [done|apply bg_blk_u32|..].
  { intros NR. right. split; [done|]. split; [done|apply differs_refl]. }
  intros Hok. assert (block_ok fs (a_view a (bg_blk fs g))) as [Hl _] by done.
  apply triple_stb; [lia|lia|]. apply triple_write_block; [done|done|apply bg_blk_u32|].
  apply block_ok_splice; [lia|lia|done|done].
Qed.

Section Bitmap.
Context (b bit : Z) (Hb : u32_ok b) (Hbit : 0 <= bit < 8 * block_size fs).

Lemma byte_range : 0 <= bit / 8 /\ bit / 8 + 1 <= block_size fs.
Proof.
  split; [apply Z.div_pos; lia|]. assert (bit / 8 < block_size fs); [|lia].
  apply Z.div_lt_upper_bound; lia.
Qed.

Lemma bitmap_test_ok a :
  triple a (ext2_bitmap_test fs b bit)
    (fun r a' => a' = a /\ (r = Z.b2z (bit_at (a_view a b) bit) \/ (r = -1 /\ ~ rel))).
Proof.
  pose proof byte_range. apply triple_with_block; [done|done|by auto|].
  intros [Hl _]. apply triple_ldf; [lia|lia|]. apply triple_ret. split; [done|]. left.
  unfold bit_at. rewrite land_bit_mask. by destruct (Z.testbit _ _).
Qed.

Lemma bitmap_set_ok a :
  triple a (ext2_bitmap_set fs b bit) (wrote b (set_bit (a_view a b) bit) a).
Proof.
  pose proof byte_range. apply triple_with_block; [done|done|..].
  { intros NR. right. split; [done|]. split; [done|apply differs_refl]. }
  intros Hok. assert (block_ok fs (a_view a b)) as [Hl _] by done.
  apply triple_ldf; [lia|lia|]. apply triple_stf; [lia|lia|].
  apply triple_write_block; [done|done|done|by apply set_bit_ok].
Qed.

Lemma bitmap_clear_ok a :
  triple a (ext2_bitmap_clear fs b bit) (wrote b (clear_bit (a_view a b) bit) a).
Proof.
  pose proof byte_range. apply triple_with_block; [done|done|..].
  { intros NR. right. split; [done|]. split; [done|apply differs_refl]. }
  intros Hok. assert (block_ok fs (a_view a b)) as [Hl _] by done.
  apply triple_ldf; [lia|lia|]. apply triple_stf; [lia|lia|].
  apply triple_write_block; [done|done|done|by apply clear_bit_ok].
Qed.
End Bitmap.

(** ** Blocks *)
Lemma blk_base_small g k : 0 <= g < num_groups fs -> 0 <= k < blocks_per_group fs ->
  u32 (blk_base fs g + k) = first_data_block fs + g * blocks_per_group fs + k.
Proof.
  intros Hg Hk. pose proof (go_blocks fs G). pose proof (go_fdb fs G).
  assert (g * blocks_per_group fs + k < num_groups fs * blocks_per_group fs) by nia.
  unfold blk_base. rewrite (u32_small (g * _)) by nia. rewrite (u32_small (first_data_block fs + _)) by nia.
  apply u32_small. nia.
Qed.

Definition block_no g j : Z := first_data_block fs + g * blocks_per_group fs + j.

Definition bits_post a g i (n : nat) (r : scan Z) (a' : astate) : Prop :=
  match r with
  | Found b => exists j, i <= j < i + Z.of_nat n /\ b = block_no g j /\ b < blocks_count fs /\
      (forall k, i <= k < j -> used fs a g k = true) /\ used fs a g j = false /\ a' = alloc_eff fs a g j
  | Continue => a' = a /\ forall k, i <= k < i + Z.of_nat n ->
      used fs a g k = true \/ blocks_count fs <= block_no g k
  | Error => ~ rel /\ damaged fs (bb fs a g) g a a'
  end.

Lemma alloc_block_bits_ok a g n : forall i,
  0 <= g < num_groups fs -> 0 <= i -> i + Z.of_nat n <= blocks_per_group fs ->
  triple a (alloc_block_bits n fs g (bg_of fs a g) i) (bits_post a g i n).
Proof.
  induction n as [|n IH]; intros i Hg Hi Hn; cbn [alloc_block_bits].
  { apply triple_ret. split; [done|]. intros k Hk. lia. }
  apply triple_blocks; [done|]. intros Hok. pose proof (go_bpg fs G).
  rewrite blk_base_small by lia. fold (block_no g i). cbv zeta.
  destruct (blocks_count fs <=? _) eqn:Hc; breflect.
  { apply triple_ret. split; [done|]. intros k Hk. right. unfold block_no in *. lia. }
  eapply triple_bind; [apply bitmap_test_ok; [by apply bb_u32|lia]|].
  intros u a' (-> & Hu). fold (bb fs a g) in Hu. fold (used fs a g i) in Hu.
  destruct Hu as [->|[-> NR]]; [|cbn; apply triple_ret; split; [done|apply damaged_refl]].
  destruct (used fs a g i) eqn:Eu; cbn [Z.b2z Z.ltb Z.compare Z.eqb negb].
  { eapply triple_conseq; [apply IH; lia|]. intros r a' Hr. destruct r as [|b|]; [|..|done]; simpl in Hr |- *.
    - destruct Hr as [-> Hr]. split; [done|]. intros k Hk.
      destruct (decide (k = i)) as [->|]; [by left|]. apply Hr. lia.
    - destruct Hr as (j & Hj & Hb & Hlt & Hall & Hf & ->). exists j. split; [lia|]. split; [done|].
      split; [done|]. split; [|done]. intros k Hk. destruct (decide (k = i)) as [->|]; [done|].
      apply Hall. lia. }
  eapply triple_bind; [apply bitmap_set_ok; [by apply bb_u32|lia]|].
  intros r a1 [(-> & -> & ->)|(-> & -> & NR & Hd)]%wrote_cases; [|apply triple_ret; split; [done|by apply damaged_bitmap]].
  eapply triple_bind; [apply save_bg_ok|].
  { unfold set_bg_free_blocks_count. rewrite length_set_field; rewrite length_bg_of by done; lia. }
  { apply splice_ok; [apply le_enc_ok|by apply bg_of_bytes]. }
  intros r a2 [(-> & -> & ->)|(-> & -> & NR & Hd)]%wrote_cases; [|apply triple_ret; split; [done|by eapply damaged_desc]].
  apply (triple_set_fb fs _ (fun x => u32 (x - 1)) (fun _ => mret (Found (block_no g i)))).
  apply triple_ret. exists i. split; [lia|]. split; [done|]. split; [done|]. split; [intros; lia|].
  split; [done|]. done.
Qed.

(** [(g', k)] comes before [(g, j)] in the search order *)
Definition before g' k g j : Prop := g' < g \/ (g' = g /\ k < j).

Definition block_full a : Prop := forall g k, 0 <= g < num_groups fs -> 0 <= k < blocks_per_group fs ->
  block_no g k < blocks_count fs -> used fs a g k = true.

Definition alloc_block_post a (r : option Z) (a' : astate) : Prop :=
  match r with
  | Some b => exists g j, 0 <= g < num_groups fs /\ 0 <= j < blocks_per_group fs /\ b = block_no g j /\
      b < blocks_count fs /\ used fs a g j = false /\
      (forall g' k, 0 <= g' -> 0 <= k < blocks_per_group fs -> before g' k g j ->
         block_no g' k < blocks_count fs -> used fs a g' k = true) /\
      a' = alloc_eff fs a g j
  | None => (a' = a /\ (~ rel \/ block_full a)) \/ (~ rel /\ exists g, damaged fs (bb fs a g) g a a')
  end.

Lemma alloc_block_groups_ok a n : forall g,
  0 <= g -> g + Z.of_nat n = num_groups fs ->
  (forall g' k, 0 <= g' < g -> 0 <= k < blocks_per_group fs -> block_no g' k < blocks_count fs ->
     used fs a g' k = true) ->
  triple a (alloc_block_groups n fs g) (alloc_block_post a).
Proof.
  induction n as [|n IH]; intros g Hg Hn Hprev; cbn [alloc_block_groups].
  { apply triple_ret. left. split; [done|]. right. intros g' k Hg'. apply Hprev. lia. }
  eapply triple_bind; [apply load_bg_ok|]. intros r a' (-> & [->|[-> Hr]]).
  2:{ apply triple_ret. left. auto. }
  pose proof (go_bpg fs G).
  eapply triple_bind; [apply (alloc_block_bits_ok a g _ 0); lia|].
  intros r a' Hr. destruct r as [|b|]; simpl in Hr.
  - destruct Hr as [-> Hr]. apply IH; [lia|lia|]. intros g' k Hg' Hk Hlt.
    destruct (decide (g' = g)) as [->|]; [|apply Hprev; [lia|done|done]].
    destruct (Hr k ltac:(lia)) as [?|?]; [done|lia].
  - destruct Hr as (j & Hj & -> & Hlt & Hall & Hf & ->). apply triple_ret. exists g, j.
    split; [lia|]. split; [lia|]. split; [done|]. split; [done|]. split; [done|]. split; [|done].
    intros g' k Hg' Hk [Hb|[-> Hb]] Hlt'; [apply Hprev; [lia|done|done]|]. apply Hall. lia.
  - destruct Hr. apply triple_ret. right. split; [done|by exists g].
Qed.

Lemma alloc_block_ok a : triple a (ext2_alloc_block fs) (alloc_block_post a).
Proof.
  pose proof (go_groups fs G). apply alloc_block_groups_ok; [lia|lia|]. intros; lia.
Qed.

Lemma block_no_group g j : 0 <= g < num_groups fs -> 0 <= j < blocks_per_group fs ->
  blk_group fs (block_no g j) = g /\ blk_idx fs (block_no g j) = j.
Proof.
  intros Hg Hj. pose proof (go_blocks fs G). pose proof (go_fdb fs G).
  assert (g * blocks_per_group fs + j < num_groups fs * blocks_per_group fs) by nia.
  unfold blk_group, blk_idx, block_no.
  replace (first_data_block fs + g * blocks_per_group fs + j - first_data_block fs)
    with (j + g * blocks_per_group fs) by lia.
  rewrite u32_small by nia. rewrite Z.div_add, Z.mod_add by lia.
  rewrite Z.div_small, Z.mod_small by lia. done.
Qed.

Lemma free_block_ok a g j : 0 <= g < num_groups fs -> 0 <= j < blocks_per_group fs ->
  triple a (ext2_free_block fs (block_no g j))
    (fun r a' => (r = 0 /\ a' = free_eff fs a g j) \/ (r = -1 /\ ~ rel /\ damaged fs (bb fs a g) g a a')).
Proof.
  intros Hg Hj. destruct (block_no_group g j Hg Hj) as [Eg Ej]. pose proof (go_bpg fs G).
  unfold ext2_free_block. rewrite Eg, Ej. apply triple_blocks; [done|]. intros Hok.
  eapply triple_bind; [apply load_bg_ok|]. intros r a' (-> & [->|[-> Hr]]).
  2:{ apply triple_ret. right. split; [done|]. split; [done|apply damaged_refl]. }
  eapply triple_bind; [apply bitmap_clear_ok; [by apply bb_u32|lia]|].
  intros r a1 [(-> & -> & ->)|(-> & -> & NR & Hd)]%wrote_cases.
  2:{ apply triple_ret. right. split; [done|]. split; [done|by apply damaged_bitmap]. }
  eapply triple_bind; [apply save_bg_ok|].
  { unfold set_bg_free_blocks_count. rewrite length_set_field; rewrite length_bg_of by done; lia. }
  { apply splice_ok; [apply le_enc_ok|by apply bg_of_bytes]. }
  intros r a2 [(-> & -> & ->)|(-> & -> & NR & Hd)]%wrote_cases.
  2:{ apply triple_ret. right. split; [done|]. split; [done|by eapply damaged_desc]. }
  apply (triple_set_fb fs _ (fun x => u32 (x + 1)) (fun _ => mret 0)).
  apply triple_ret. left. done.
Qed.

(** ** Inodes *)
Definition inode_no g j : Z := g * inodes_per_group fs + 1 + j.

Lemma inode_no_small g j : 0 <= g < num_groups fs -> 0 <= j < inodes_per_group fs ->
  u32 (u32 (g * inodes_per_group fs + 1) + j) = inode_no g j /\ 1 <= inode_no g j <= num_groups fs * inodes_per_group fs.
Proof.
  intros Hg Hj. pose proof (go_inodes fs G). unfold inode_no.
  assert (g * inodes_per_group fs + 1 + j <= num_groups fs * inodes_per_group fs) by nia.
  rewrite (u32_small (g * _ + 1)) by nia. rewrite u32_small by nia. nia.
Qed.

Definition ibits_post a g i (n : nat) (r : scan Z) (a' : astate) : Prop :=
  match r with
  | Found b => exists j, i <= j < i + Z.of_nat n /\ b = inode_no g j /\
      (forall k, i <= k < j -> iused fs a g k = true) /\ iused fs a g j = false /\ a' = ialloc_eff fs a g j
  | Continue => a' = a /\ forall k, i <= k < i + Z.of_nat n -> iused fs a g k = true
  | Error => ~ rel /\ damaged fs (ib fs a g) g a a'
  end.

Lemma alloc_inode_bits_ok a g n : forall i,
  0 <= g < num_groups fs -> 0 <= i -> i + Z.of_nat n <= inodes_per_group fs ->
  triple a (alloc_inode_bits n fs g (bg_of fs a g) i) (ibits_post a g i n).
Proof.
  induction n as [|n IH]; intros i Hg Hi Hn; cbn [alloc_inode_bits].
  { apply triple_ret. split; [done|]. intros k Hk. lia. }
  apply triple_blocks; [done|]. intros Hok. pose proof (go_ipg fs G).
  rewrite (proj1 (inode_no_small g i ltac:(lia) ltac:(lia))). cbv zeta.
  eapply triple_bind; [apply bitmap_test_ok; [by apply ib_u32|lia]|].
  intros u a' (-> & Hu). fold (ib fs a g) in Hu. fold (iused fs a g i) in Hu.
  destruct Hu as [->|[-> NR]]; [|cbn; apply triple_ret; split; [done|apply damaged_refl]].
  destruct (iused fs a g i) eqn:Eu; cbn [Z.b2z Z.ltb Z.compare Z.eqb negb].
  { eapply triple_conseq; [apply IH; lia|]. intros r a' Hr. destruct r as [|b|]; [|..|done]; simpl in Hr |- *.
    - destruct Hr as [-> Hr]. split; [done|]. intros k Hk.
      destruct (decide (k = i)) as [->|]; [done|]. apply Hr. lia.
    - destruct Hr as (j & Hj & Hb & Hall & Hf & ->). exists j. split; [lia|]. split; [done|].
      split; [|done]. intros k Hk. destruct (decide (k = i)) as [->|]; [done|].
      apply Hall. lia. }
  eapply triple_bind; [apply bitmap_set_ok; [by apply ib_u32|lia]|].
  intros r a1 [(-> & -> & ->)|(-> & -> & NR & Hd)]%wrote_cases; [|apply triple_ret; split; [done|by apply damaged_bitmap]].
  eapply triple_bind; [apply save_bg_ok|].
  { unfold set_bg_free_inodes_count. rewrite length_set_field; rewrite length_bg_of by done; lia. }
  { apply splice_ok; [apply le_enc_ok|by apply bg_of_bytes]. }
  intros r a2 [(-> & -> & ->)|(-> & -> & NR & Hd)]%wrote_cases; [|apply triple_ret; split; [done|by eapply damaged_desc]].
  apply (triple_set_fi fs _ (fun x => u32 (x - 1)) (fun _ => mret (Found (inode_no g i)))).
  apply triple_ret. exists i. split; [lia|]. split; [done|]. split; [intros; lia|]. done.
Qed.

Definition inode_full a : Prop := forall g k, 0 <= g < num_groups fs -> 0 <= k < inodes_per_group fs ->
  iused fs a g k = true.

Definition alloc_inode_post a (r : option Z) (a' : astate) : Prop :=
  match r with
  | Some b => exists g j, 0 <= g < num_groups fs /\ 0 <= j < inodes_per_group fs /\ b = inode_no g j /\
      iused fs a g j = false /\
      (forall g' k, 0 <= g' -> 0 <= k < inodes_per_group fs -> before g' k g j -> iused fs a g' k = true) /\
      a' = ialloc_eff fs a g j
  | None => (a' = a /\ (~ rel \/ inode_full a)) \/ (~ rel /\ exists g, damaged fs (ib fs a g) g a a')
  end.

Lemma alloc_inode_groups_ok a n : forall g,
  0 <= g -> g + Z.of_nat n = num_groups fs ->
  (forall g' k, 0 <= g' < g -> 0 <= k < inodes_per_group fs -> iused fs a g' k = true) ->
  triple a (alloc_inode_groups n fs g) (alloc_inode_post a).
Proof.
  induction n as [|n IH]; intros g Hg Hn Hprev; cbn [alloc_inode_groups].
  { apply triple_ret. left. split; [done|]. right. intros g' k Hg'. apply Hprev. lia. }
  eapply triple_bind; [apply load_bg_ok|]. intros r a' (-> & [->|[-> Hr]]).
  2:{ apply triple_ret. left. auto. }
  pose proof (go_ipg fs G).
  eapply triple_bind; [apply (alloc_inode_bits_ok a g _ 0); lia|].
  intros r a' Hr. destruct r as [|b|]; simpl in Hr.
  - destruct Hr as [-> Hr]. apply IH; [lia|lia|]. intros g' k Hg' Hk.
    destruct (decide (g' = g)) as [->|]; [|apply Hprev; [lia|done]]. apply Hr. lia.
  - destruct Hr as (j & Hj & -> & Hall & Hf & ->). apply triple_ret. exists g, j.
    split; [lia|]. split; [lia|]. split; [done|]. split; [done|]. split; [|done].
    intros g' k Hg' Hk [Hb|[-> Hb]]; [apply Hprev; [lia|done]|]. apply Hall. lia.
  - destruct Hr. apply triple_ret. right. split; [done|by exists g].
Qed.

Lemma alloc_inode_ok a : triple a (ext2_alloc_inode fs) (alloc_inode_post a).
Proof. pose proof (go_groups fs G). apply alloc_inode_groups_ok; [lia|lia|]. intros; lia. Qed.

Lemma inode_no_group g j : 0 <= g < num_groups fs -> 0 <= j < inodes_per_group fs ->
  ino_group fs (inode_no g j) = g /\ ino_idx fs (inode_no g j) = j.
Proof.
  intros Hg Hj. destruct (inode_no_small g j Hg Hj) as [_ Hr]. pose proof (go_inodes fs G).
  unfold ino_group, ino_idx. rewrite (u32_small (inode_no g j - 1)) by lia. unfold inode_no in *.
  replace (g * inodes_per_group fs + 1 + j - 1) with (j + g * inodes_per_group fs) by lia.
  rewrite Z.div_add, Z.mod_add by lia. rewrite Z.div_small, Z.mod_small by lia. done.
Qed.

Lemma free_inode_ok a g j : 0 <= g < num_groups fs -> 0 <= j < inodes_per_group fs ->
  triple a (ext2_free_inode fs (inode_no g j))
    (fun r a' => (r = 0 /\ a' = ifree_eff fs a g j) \/ (r = -1 /\ ~ rel /\ damaged fs (ib fs a g) g a a')).
Proof.
  intros Hg Hj. destruct (inode_no_group g j Hg Hj) as [Eg Ej]. pose proof (go_ipg fs G).
  unfold ext2_free_inode. rewrite Eg, Ej. apply triple_blocks; [done|]. intros Hok.
  eapply triple_bind; [apply load_bg_ok|]. intros r a' (-> & [->|[-> Hr]]).
  2:{ apply triple_ret. right. split; [done|]. split; [done|apply damaged_refl]. }
  eapply triple_bind; [apply bitmap_clear_ok; [by apply ib_u32|lia]|].
  intros r a1 [(-> & -> & ->)|(-> & -> & NR & Hd)]%wrote_cases.
  2:{ apply triple_ret. right. split; [done|]. split; [done|by apply damaged_bitmap]. }
  eapply triple_bind; [apply save_bg_ok|].
  { unfold set_bg_free_inodes_count. rewrite length_set_field; rewrite length_bg_of by done; lia. }
  { apply splice_ok; [apply le_enc_ok|by apply bg_of_bytes]. }
  intros r a2 [(-> & -> & ->)|(-> & -> & NR & Hd)]%wrote_cases.
  2:{ apply triple_ret. right. split; [done|]. split; [done|by eapply damaged_desc]. }
  apply (triple_set_fi fs _ (fun x => u32 (x + 1)) (fun _ => mret 0)).
  apply triple_ret. left. done.
Qed.

(** ** The effects, read back *)

(** the descriptor of another group in the same or another block *)
Lemma bg_of_put_same g bg a : blocks_ok fs a -> length bg = 32%nat -> bg_of fs (put_bg fs g bg a) g = bg.
Proof.
  intros Hok Hl. unfold bg_of, put_bg. rewrite a_write_eq. pose proof (bg_off_range g).
  destruct (Hok (bg_blk fs g) (bg_blk_u32 g)) as [Hlen _].
  rewrite <- Hl. apply slice_splice_same. lia.
Qed.

Lemma bg_of_put_ne g g' bg a : blocks_ok fs a -> length bg = 32%nat -> 0 <= g < 2 ^ 31 -> 0 <= g' < 2 ^ 31 ->
  g <> g' -> bg_of fs (put_bg fs g bg a) g' = bg_of fs a g'.
Proof.
  intros Hok Hl Hg Hg' Hne. unfold bg_of, put_bg. destruct (decide (bg_blk fs g' = bg_blk fs g)) as [E|E].
  2:{ by rewrite a_write_ne. }
  rewrite E, a_write_eq. pose proof (bg_off_range g). pose proof (bg_off_range g').
  destruct (Hok (bg_blk fs g) (bg_blk_u32 g)) as [Hlen _].
  apply slice_splice_disjoint; [|lia]. rewrite Hl. unfold bg_blk, ext2_bgdt_block, bg_off, SIZEOF_BG_DESC in *.
  assert (32 <= bgs_per_block fs) as Hn.
  { unfold bgs_per_block, SIZEOF_BG_DESC. destruct (go_bs fs G) as [->|[->| ->]]; done. }
  assert (0 <= ext2_sb_block fs <= 1) by (unfold ext2_sb_block; destruct (_ =? 0); lia).
  assert (forall x, 0 <= x < 2 ^ 31 -> 0 <= x / bgs_per_block fs < 2 ^ 31) as Hd.
  { intros x Hx. split; [apply Z.div_pos; lia|]. apply Z.div_lt_upper_bound; nia. }
  pose proof (Hd g Hg). pose proof (Hd g' Hg'). rewrite !u32_small in E by lia.
  pose proof (Z.div_mod g (bgs_per_block fs) ltac:(lia)). pose proof (Z.div_mod g' (bgs_per_block fs) ltac:(lia)).
  assert (g mod bgs_per_block fs <> g' mod bgs_per_block fs) by nia.
  pose proof (Z.mod_pos_bound g (bgs_per_block fs) ltac:(lia)).
  pose proof (Z.mod_pos_bound g' (bgs_per_block fs) ltac:(lia)). lia.
Qed.

Lemma blocks_ok_write a b l : blocks_ok fs a -> block_ok fs l -> blocks_ok fs (a_write b l a).
Proof. intros Hok Hl c Hc. simpl. case_decide; [done|by apply Hok]. Qed.

Lemma blocks_ok_put a g bg : blocks_ok fs a -> length bg = 32%nat -> bytes_ok bg -> blocks_ok fs (put_bg fs g bg a).
Proof.
  intros Hok Hl Hb. pose proof (bg_off_range g). apply blocks_ok_write; [done|].
  apply block_ok_splice; [lia|lia|apply Hok, bg_blk_u32|done].
Qed.

End Alloc.
