(* ===== verification/Ext2Tree.v ===== *)
(** The tree of blocks of an inode: direct blocks, one indirect and one
    double-indirect block.

    Keys name the nodes: [l >= 0] is the data block of file block [l], [-1]
    the indirect block, [-2] the double-indirect block, and [-3 - i] the
    indirect block in slot [i] of the latter.  [nodeb] is the disk block of a
    node, 0 when it is absent. *)
From stdpp Require Import base gmap list.
From Stdlib Require Import ZArith Lia.
From S2P Require Import Prelude Bytes HashMap BlockDev Ext2Cache Ext2CacheSpec Ext2 Ext2Logic Ext2Alloc Ext2Map.
Open Scope Z_scope.

Section Tree.
Context (fs : ext2_fs_priv) (G : geom_ok fs).
Implicit Types (a : astate) (p : ext2_inode_priv) (k : Z).

Abbreviation P := (ptrs_per_block fs).

Lemma ptrs_range : 256 <= P <= 1024 /\ 4 * P = block_size fs.
Proof. rewrite (go_ptrs fs G). destruct (go_bs fs G) as [->|[->| ->]]; done. Qed.

Definition ptr_at a (b i : Z) : Z := if b =? 0 then 0 else field 4 (Z.to_nat (i * 4)) (a_view a b).

Definition nodeb a p k : Z :=
  if k <? -2 then ptr_at a (blk p EXT2_DIND_BLOCK) (-3 - k)
  else if k =? -2 then blk p EXT2_DIND_BLOCK
  else if k =? -1 then blk p EXT2_IND_BLOCK
  else if k <? 12 then blk p (Z.to_nat k)
  else if k <? 12 + P then ptr_at a (blk p EXT2_IND_BLOCK) (k - 12)
  else ptr_at a (ptr_at a (blk p EXT2_DIND_BLOCK) ((k - 12 - P) / P)) ((k - 12 - P) mod P).

Definition max_blocks : Z := 12 + P + P * P.
Definition key_ok k : Prop := -2 - P <= k < max_blocks.

Definition good a (c : Z) : Prop :=
  u32_ok c /\ ~ meta fs a c /\
  exists g j, group_ok fs g /\ 0 <= j < blocks_per_group fs /\ c = block_no fs g j /\ used fs a g j = true.

Record tree_ok a p : Prop := {
  to_len : length (p_block p) = EXT2_N_BLOCKS;
  to_good : forall k, key_ok k -> nodeb a p k <> 0 -> good a (nodeb a p k);
  to_inj : forall k k', key_ok k -> key_ok k' -> nodeb a p k <> 0 ->
    nodeb a p k' = nodeb a p k -> k' = k }.

(** *** Reading [nodeb] at each kind of key *)
Lemma nodeb_ind1 a p i : 0 <= i -> nodeb a p (-3 - i) = ptr_at a (blk p EXT2_DIND_BLOCK) i.
Proof.
  intros. unfold nodeb. rewrite (proj2 (Z.ltb_lt _ _)) by lia. f_equal. lia.
Qed.
Lemma nodeb_dir a p l : 0 <= l < 12 -> nodeb a p l = blk p (Z.to_nat l).
Proof.
  intros. unfold nodeb. rewrite (proj2 (Z.ltb_ge _ _)), (proj2 (Z.eqb_neq _ _)), (proj2 (Z.eqb_neq _ _)) by lia.
  by rewrite (proj2 (Z.ltb_lt _ _)) by lia.
Qed.
Lemma nodeb_ind a p l : 12 <= l < 12 + P -> nodeb a p l = ptr_at a (blk p EXT2_IND_BLOCK) (l - 12).
Proof.
  intros. unfold nodeb. rewrite (proj2 (Z.ltb_ge _ _)), (proj2 (Z.eqb_neq _ _)), (proj2 (Z.eqb_neq _ _)) by lia.
  rewrite (proj2 (Z.ltb_ge l 12)) by lia. by rewrite (proj2 (Z.ltb_lt l _)) by lia.
Qed.
Lemma nodeb_dind a p l : 12 + P <= l ->
  nodeb a p l = ptr_at a (nodeb a p (-3 - (l - 12 - P) / P)) ((l - 12 - P) mod P).
Proof.
  intros. pose proof ptrs_range. rewrite nodeb_ind1 by (apply Z.div_pos; lia).
  unfold nodeb. rewrite (proj2 (Z.ltb_ge _ _)), (proj2 (Z.eqb_neq _ _)), (proj2 (Z.eqb_neq _ _)) by lia.
  rewrite (proj2 (Z.ltb_ge l 12)) by lia. by rewrite (proj2 (Z.ltb_ge l (12 + P))) by lia.
Qed.

Lemma dind_range l : 12 + P <= l < max_blocks ->
  0 <= (l - 12 - P) / P < P /\ 0 <= (l - 12 - P) mod P < P /\
  l = 12 + P + (l - 12 - P) / P * P + (l - 12 - P) mod P.
Proof.
  unfold max_blocks. intros Hl. pose proof ptrs_range.
  pose proof (Z.mod_pos_bound (l - 12 - P) P ltac:(lia)).
  pose proof (Z.div_mod (l - 12 - P) P ltac:(lia)).
  split; [|lia]. split; [apply Z.div_pos; lia|]. apply Z.div_lt_upper_bound; lia.
Qed.

(** every key is of one of these kinds *)
Lemma key_cases k : key_ok k ->
  (exists i, 0 <= i < P /\ k = -3 - i) \/ k = -2 \/ k = -1 \/ (0 <= k < 12) \/
  (12 <= k < 12 + P) \/ (12 + P <= k < max_blocks).
Proof.
  unfold key_ok. intros Hk. destruct (decide (k < -2)); [left; exists (-3 - k); lia|]. lia.
Qed.

Lemma key_ind1 i : 0 <= i < P -> key_ok (-3 - i).
Proof. unfold key_ok, max_blocks. nia. Qed.
Lemma key_m1 : key_ok (-1).
Proof. pose proof ptrs_range. unfold key_ok, max_blocks. nia. Qed.
Lemma key_m2 : key_ok (-2).
Proof. pose proof ptrs_range. unfold key_ok, max_blocks. nia. Qed.

Lemma ptr_at_0 a i : ptr_at a 0 i = 0.
Proof. done. Qed.

(** ** Framing *)

(** Only the pointer blocks of the tree matter. *)
Lemma nodeb_frame a a' p :
  (forall k, key_ok k -> k < 0 -> nodeb a p k <> 0 -> a_view a' (nodeb a p k) = a_view a (nodeb a p k)) ->
  forall k, key_ok k -> nodeb a' p k = nodeb a p k.
Proof.
  intros F.
  assert (forall b i, (b = 0 \/ a_view a' b = a_view a b) -> ptr_at a' b i = ptr_at a b i) as Hp.
  { intros b i [->|E]; [done|]. unfold ptr_at. by rewrite E. }
  assert (forall k, key_ok k -> k < 0 -> nodeb a p k = 0 \/ a_view a' (nodeb a p k) = a_view a (nodeb a p k)) as F'.
  { intros k Hk Hn. destruct (decide (nodeb a p k = 0)); [by left|right; by apply F]. }
  assert (forall i, 0 <= i < P -> nodeb a' p (-3 - i) = nodeb a p (-3 - i)) as H1.
  { intros i Hi. rewrite !nodeb_ind1 by lia. apply Hp. exact (F' (-2) key_m2 ltac:(lia)). }
  intros k Hk. destruct (key_cases k Hk) as [(i & Hi & ->)|[->|[->|[Hr|[Hr|Hr]]]]].
  - by apply H1.
  - done.
  - done.
  - by rewrite !nodeb_dir.
  - rewrite !nodeb_ind by lia. apply Hp. exact (F' (-1) key_m1 ltac:(lia)).
  - rewrite (nodeb_dind a' p k), (nodeb_dind a p k) by lia.
    destruct (dind_range k Hr) as (H2 & _). rewrite H1 by done.
    apply Hp. apply F'; [by apply key_ind1|lia].
Qed.

(** ** Storing a pointer *)

(** in a slot of the inode *)
Definition slot_key (i : nat) : Z :=
  if (i =? 12)%nat then -1 else if (i =? 13)%nat then -2 else Z.of_nat i.

Lemma blk_set p i v i' : (i < length (p_block p))%nat ->
  blk (set_p_block i v p) i' = if decide (i' = i) then v else blk p i'.
Proof.
  intros Hi. unfold blk, set_p_block. simpl. case_decide as Dq.
  - subst. by rewrite list_lookup_insert_eq.
  - by rewrite list_lookup_insert_ne by done.
Qed.

Lemma field_zeros n off m : field n off (replicate m 0) = 0.
Proof.
  unfold field, slice. rewrite drop_replicate, take_replicate.
  generalize (Nat.min n (m - off)). intros q. induction q as [|q IH]; [done|]. simpl. rewrite IH. lia.
Qed.

Lemma ptr_at_zero a b i : a_view a b = zero_block fs -> ptr_at a b i = 0.
Proof. intros E. unfold ptr_at. destruct (b =? 0); [done|]. rewrite E. apply field_zeros. Qed.

Lemma nodeb_set_slot a p (i : nat) nb k :
  length (p_block p) = EXT2_N_BLOCKS -> (i < 14)%nat -> blk p i = 0 ->
  a_view a nb = zero_block fs -> key_ok k ->
  nodeb a (set_p_block i nb p) k = if decide (k = slot_key i) then nb else nodeb a p k.
Proof.
  intros Hlen Hi H0 Hz Hk. pose proof ptrs_range as HP.
  assert (i < length (p_block p))%nat as Hil by (rewrite Hlen; unfold EXT2_N_BLOCKS; lia).
  unfold slot_key. destruct (Nat.eqb_spec i 12) as [->|Hn12]; [|destruct (Nat.eqb_spec i 13) as [->|Hn13]].
  - destruct (key_cases k Hk) as [(j & Hj & ->)|[->|[->|[Hr|[Hr|Hr]]]]].
    + rewrite decide_False by lia. rewrite !nodeb_ind1, blk_set by lia. by rewrite decide_False.
    + rewrite decide_False by lia. unfold nodeb. simpl. rewrite blk_set by done. by rewrite decide_False.
    + unfold nodeb. simpl. rewrite blk_set by done. by rewrite decide_True.
    + rewrite decide_False by lia. rewrite !nodeb_dir, blk_set by lia. by rewrite decide_False by lia.
    + rewrite decide_False by lia. rewrite !nodeb_ind, blk_set by lia. rewrite decide_True by done.
      rewrite ptr_at_zero by done. unfold EXT2_IND_BLOCK. by rewrite H0.
    + rewrite decide_False by lia. destruct (dind_range k Hr) as (? & _).
      rewrite (nodeb_dind _ (set_p_block _ _ _) k), (nodeb_dind _ p k), !nodeb_ind1, blk_set by lia. by rewrite decide_False.
  - destruct (key_cases k Hk) as [(j & Hj & ->)|[->|[->|[Hr|[Hr|Hr]]]]].
    + rewrite decide_False by lia. rewrite !nodeb_ind1, blk_set by lia. rewrite decide_True by done.
      rewrite ptr_at_zero by done. unfold EXT2_DIND_BLOCK. by rewrite H0.
    + unfold nodeb. simpl. rewrite blk_set by done. by rewrite decide_True.
    + rewrite decide_False by lia. unfold nodeb. simpl. rewrite blk_set by done. by rewrite decide_False.
    + rewrite decide_False by lia. rewrite !nodeb_dir, blk_set by lia. by rewrite decide_False by lia.
    + rewrite decide_False by lia. rewrite !nodeb_ind, blk_set by lia. by rewrite decide_False.
    + rewrite decide_False by lia. destruct (dind_range k Hr) as (? & _).
      rewrite (nodeb_dind _ (set_p_block _ _ _) k), (nodeb_dind _ p k), !nodeb_ind1, blk_set by lia. rewrite decide_True by done.
      rewrite (ptr_at_zero a nb) by done. unfold EXT2_DIND_BLOCK. by rewrite H0.
  - destruct (key_cases k Hk) as [(j & Hj & ->)|[->|[->|[Hr|[Hr|Hr]]]]].
    + rewrite decide_False by lia. rewrite !nodeb_ind1, blk_set by lia. by rewrite decide_False.
    + rewrite decide_False by lia. unfold nodeb. simpl. rewrite blk_set by done. by rewrite decide_False.
    + rewrite decide_False by lia. unfold nodeb. simpl. rewrite blk_set by done. by rewrite decide_False.
    + rewrite !nodeb_dir, blk_set by lia.
      destruct (decide (k = Z.of_nat i)) as [->|Hne]; [rewrite decide_True by lia|rewrite decide_False by lia]; done.
    + rewrite decide_False by lia. rewrite !nodeb_ind, blk_set by lia. by rewrite decide_False.
    + rewrite decide_False by lia. destruct (dind_range k Hr) as (? & _).
      rewrite (nodeb_dind _ (set_p_block _ _ _) k), (nodeb_dind _ p k), !nodeb_ind1, blk_set by lia. by rewrite decide_False.
Qed.

(** in an entry of a pointer block *)
Definition store_ptr a (q i v : Z) : astate :=
  a_write q (set_field 4 (Z.to_nat (i * 4)) v (a_view a q)) a.

Lemma ptr_at_store a q i v b j :
  block_ok fs (a_view a q) -> q <> 0 -> u32_ok v -> 0 <= i < P -> 0 <= j < P ->
  ptr_at (store_ptr a q i v) b j = if decide (b = q /\ j = i) then v else ptr_at a b j.
Proof.
  intros [Hl Hb] Hq Hv Hi Hj. pose proof ptrs_range. unfold ptr_at.
  destruct (Z.eqb_spec b 0) as [->|Hb0]; [by rewrite decide_False by naive_solver|].
  unfold store_ptr. destruct (decide (b = q)) as [->|Hne].
  - rewrite a_write_eq. destruct (decide (j = i)) as [->|Hji].
    + rewrite decide_True by done. rewrite field_set_same by lia.
      change (2 ^ (8 * Z.of_nat 4)) with (2 ^ 32). by apply Z.mod_small.
    + rewrite decide_False by naive_solver. apply field_set_disjoint; lia.
  - rewrite a_write_ne by done. by rewrite decide_False by naive_solver.
Qed.

(** the key whose pointer is entry [i] of the pointer block with key [kp] *)
Definition child (kp i : Z) : Z :=
  if kp =? -1 then 12 + i else if kp =? -2 then -3 - i else 12 + P + (-3 - kp) * P + i.

Lemma child_key kp i : key_ok kp -> kp < 0 -> 0 <= i < P -> key_ok (child kp i).
Proof.
  unfold key_ok, max_blocks, child. intros Hk Hn Hi.
  destruct (kp =? -1) eqn:E1; breflect; [nia|]. destruct (kp =? -2) eqn:E2; breflect; nia.
Qed.

Lemma nodeb_child a p kp i : key_ok kp -> kp < 0 -> 0 <= i < P ->
  nodeb a p (child kp i) = ptr_at a (nodeb a p kp) i.
Proof.
  intros Hk Hn Hi. pose proof ptrs_range. unfold child.
  destruct (kp =? -1) eqn:E1; breflect; [subst; rewrite nodeb_ind by lia; f_equal; lia|].
  destruct (kp =? -2) eqn:E2; breflect; [subst; by rewrite nodeb_ind1 by lia|].
  unfold key_ok in Hk. rewrite nodeb_dind by nia.
  replace (12 + P + (-3 - kp) * P + i - 12 - P) with (i + (-3 - kp) * P) by lia.
  rewrite Z.div_add, Z.mod_add by lia. rewrite Z.div_small, Z.mod_small by lia.
  f_equal. f_equal. lia.
Qed.

(** every data or indirect key below a pointer block is a child *)
Lemma key_child k : key_ok k -> k = -1 \/ k = -2 \/ 0 <= k < 12 \/
  exists kp i, key_ok kp /\ kp < 0 /\ 0 <= i < P /\ k = child kp i /\ (kp = -1 \/ kp = -2 \/ 12 + P <= k).
Proof.
  intros Hk. destruct (key_cases k Hk) as [(i & Hi & ->)|[->|[->|[Hr|[Hr|Hr]]]]]; [|auto..| |].
  - right; right; right. exists (-2), i. split; [apply key_m2|]. split; [lia|]. split; [done|]. split; [done|]. auto.
  - right; right; right. exists (-1), (k - 12). split; [apply key_m1|]. split; [lia|]. split; [lia|].
    split; [unfold child; simpl; lia|]. auto.
  - right; right; right. destruct (dind_range k Hr) as (H1 & H2 & H3).
    exists (-3 - (k - 12 - P) / P), ((k - 12 - P) mod P). split; [by apply key_ind1|]. split; [lia|].
    split; [done|]. split; [|lia]. unfold child. rewrite !(proj2 (Z.eqb_neq _ _)) by lia. lia.
Qed.

Lemma child_inj kp i kp' i' : key_ok kp -> kp < 0 -> key_ok kp' -> kp' < 0 -> 0 <= i < P -> 0 <= i' < P ->
  child kp i = child kp' i' -> kp = kp' /\ i = i'.
Proof.
  unfold key_ok, child. intros Hk Hn Hk' Hn' Hi Hi'.
  pose proof ptrs_range.
  assert (forall x y, 0 <= y -> x * P + i = y * P + i' -> x = y) as Hd.
  { intros x y Hy E. destruct (Z.lt_trichotomy x y) as [?|[?|?]]; [nia|done|nia]. }
  destruct (kp =? -1) eqn:E1, (kp' =? -1) eqn:E2; breflect; [lia|..];
    destruct (kp =? -2) eqn:E3; destruct (kp' =? -2) eqn:E4; breflect; try nia.
  all: intros E; specialize (Hd (-3 - kp) (-3 - kp') ltac:(lia) ltac:(lia)); lia.
Qed.

Lemma child_not_root kp i : key_ok kp -> kp < 0 -> 0 <= i < P ->
  child kp i <> -1 /\ child kp i <> -2 /\ ~ 0 <= child kp i < 12.
Proof.
  unfold key_ok, child. intros Hk Hn Hi.
  destruct (kp =? -1) eqn:E1; breflect; [lia|]. destruct (kp =? -2) eqn:E2; breflect; [lia|nia].
Qed.

Lemma nodeb_root a a' p k : k = -1 \/ k = -2 \/ 0 <= k < 12 -> nodeb a' p k = nodeb a p k.
Proof. intros [->|[->|Hk]]; [done|done|]. by rewrite !nodeb_dir. Qed.

Lemma nodeb_store_ptr a p kp i nb k :
  tree_ok a p -> key_ok kp -> kp < 0 -> 0 <= i < P -> nodeb a p kp <> 0 ->
  nodeb a p (child kp i) = 0 -> block_ok fs (a_view a (nodeb a p kp)) ->
  a_view a nb = zero_block fs -> nb <> nodeb a p kp -> u32_ok nb -> key_ok k ->
  nodeb (store_ptr a (nodeb a p kp) i nb) p k = if decide (k = child kp i) then nb else nodeb a p k.
Proof.
  intros Tr Hkp Hn Hi Hq H0 Hok Hz Hne Hu Hk. set (q := nodeb a p kp) in *. set (a' := store_ptr a q i nb).
  destruct (child_not_root kp i Hkp Hn Hi) as (C1 & C2 & C3).
  assert (forall kp' j, key_ok kp' -> kp' < 0 -> 0 <= j < P -> nodeb a' p kp' = nodeb a p kp' ->
    nodeb a' p (child kp' j) = if decide (child kp' j = child kp i) then nb else nodeb a p (child kp' j)) as Hstep.
  { intros kp' j Hk' Hn' Hj E. rewrite !nodeb_child, E by done. unfold a'. rewrite ptr_at_store by done.
    destruct (decide (child kp' j = child kp i)) as [Ec|Ec].
    - apply child_inj in Ec as [-> ->]; [|done..]. by rewrite decide_True.
    - rewrite decide_False; [done|]. intros [Eq ->]. apply Ec. f_equal.
      by apply (to_inj a p Tr kp kp'). }
  destruct (key_child k Hk) as [->|[->|[Hr|(kp' & j & Hk' & Hn' & Hj & -> & Hlev)]]].
  - by rewrite decide_False.
  - by rewrite decide_False.
  - rewrite decide_False by (intros ->; done). apply nodeb_root. auto.
  - destruct Hlev as [->|[->|Hl]]; [by apply Hstep|by apply Hstep|].
    destruct (decide (kp' = child kp i)) as [E|E].
    + rewrite decide_False by lia. rewrite !nodeb_child by done.
      destruct (key_child kp' Hk') as [->|[->|[Hr|(kp2 & j2 & Hk2 & Hn2 & Hj2 & E2 & Hlev)]]]; [done|done|lia|].
      destruct (decide (12 + P <= kp')) as [?|Hlow]; [pose proof ptrs_range; lia|].
      assert (nodeb a' p kp' = nb) as ->.
      { rewrite E2. rewrite Hstep by (done || (destruct Hlev as [->|[->|?]]; [done|done|lia])).
        rewrite decide_True by congruence. done. }
      rewrite E, H0. simpl. unfold a'. rewrite ptr_at_store by done.
      rewrite decide_False by naive_solver. by apply ptr_at_zero.
    + apply Hstep; [done|done|done|].
      destruct (key_child kp' Hk') as [->|[->|[Hr|(kp2 & j2 & Hk2 & Hn2 & Hj2 & E2 & Hlev)]]]; [done|done|lia|].
      rewrite E2. rewrite Hstep by (done || (destruct Hlev as [->|[->|?]]; [done|done|pose proof ptrs_range; lia])).
      rewrite decide_False by congruence. done.
Qed.

(** ** Growing the tree by one node *)

(** the fields of an inode other than the slots of its tree *)
Definition strip p : ext2_inode_priv :=
  mkInodePriv (p_ino p) (p_uid p) (p_gid p) (p_size p) (p_mode p) (p_links_count p) (p_blocks p)
    (p_atime p) (p_ctime p) (p_mtime p) (drop 14 (p_block p)).

(** [c] is not a pointer block of the tree *)
Definition not_ptr a p (c : Z) : Prop := forall k, key_ok k -> k < 0 -> nodeb a p k <> c.

Record grow a p k a' p' : Prop := {
  gr_layout : layout_ok fs a';
  gr_tree : tree_ok a' p';
  gr_strip : strip p' = strip p;
  gr_node : nodeb a' p' k <> 0;
  gr_other : forall k', key_ok k' -> k' <> k -> nodeb a' p' k' = nodeb a p k';
  gr_old : nodeb a p k <> 0 -> a' = a /\ p' = p;
  gr_new : nodeb a p k = 0 -> a_view a' (nodeb a' p' k) = zero_block fs /\ ~ good a (nodeb a' p' k);
  gr_frame : forall c, good a c -> not_ptr a p c -> a_view a' c = a_view a c;
  gr_good : forall c, good a c -> good a' c }.

Lemma grow_refl a p k : layout_ok fs a -> tree_ok a p -> nodeb a p k <> 0 -> grow a p k a p.
Proof. intros Lo Tr Hk. by split. Qed.

(** what a fresh zeroed block is *)
Record fresh a nb a' : Prop := {
  fr_u32 : u32_ok nb;
  fr_nz : nb <> 0;
  fr_layout : layout_ok fs a';
  fr_blocks : blocks_ok fs a';
  fr_zero : a_view a' nb = zero_block fs;
  fr_new : ~ good a nb;
  fr_good_new : good a' nb;
  fr_good : forall c, good a c -> good a' c;
  fr_frame : forall c, good a c -> a_view a' c = a_view a c }.

Lemma fresh_ne a nb a' c : fresh a nb a' -> good a c -> c <> nb.
Proof. intros F Hc ->. by apply (fr_new _ _ _ F). Qed.

Lemma fresh_tree a nb a' p : fresh a nb a' -> tree_ok a p ->
  tree_ok a' p /\ forall k, key_ok k -> nodeb a' p k = nodeb a p k.
Proof.
  intros F Tr. assert (forall k, key_ok k -> nodeb a' p k = nodeb a p k) as E.
  { apply nodeb_frame. intros k Hk _ Hn. by apply (fr_frame _ _ _ F), (to_good a p Tr). }
  split; [|done]. split; [apply Tr|..].
  - intros k Hk. rewrite E by done. intros Hn. by apply (fr_good _ _ _ F), (to_good a p Tr).
  - intros k k' Hk Hk'. rewrite !E by done. by apply (to_inj a p Tr).
Qed.

(** the tree after the pointer to a fresh block was stored *)
Lemma tree_add a p a' p' k nb :
  tree_ok a p -> length (p_block p') = EXT2_N_BLOCKS -> key_ok k -> nb <> 0 -> nodeb a p k = 0 ->
  (forall k', key_ok k' -> nodeb a' p' k' = if decide (k' = k) then nb else nodeb a p k') ->
  (forall c, good a c -> good a' c) -> good a' nb -> (forall k', key_ok k' -> nodeb a p k' <> nb) ->
  tree_ok a' p'.
Proof.
  intros Tr Hl Hk Hnb H0 E Hg Hgn Hne. split; [done|..].
  - intros k1 H1. rewrite E by done. case_decide; [done|]. intros Hn. by apply Hg, (to_good a p Tr).
  - intros k1 k2 H1 H2. rewrite !E by done. repeat case_decide; subst; try done.
    + intros _ Eq. exfalso. by apply (Hne k2).
    + intros Hn Eq. exfalso. by apply (Hne k1).
    + by apply (to_inj a p Tr).
Qed.

Lemma good_write a c l x : ~ meta fs a c -> good a x -> good (a_write c l a) x.
Proof.
  intros Hm (Hu & Hmx & g & j & Hg & Hj & -> & Hus). split; [done|]. split.
  - by rewrite (meta_same fs _ _ _ (data_same_ptrs fs a c l Hm)).
  - exists g, j. split; [done|]. split; [done|]. split; [done|]. by rewrite data_used.
Qed.

Lemma slot_key_ok i : (i < 14)%nat -> key_ok (slot_key i).
Proof.
  intros Hi. pose proof ptrs_range. unfold slot_key, key_ok, max_blocks.
  destruct (Nat.eqb_spec i 12); [nia|]. destruct (Nat.eqb_spec i 13); nia.
Qed.

Lemma nodeb_slot a p i : (i < 14)%nat -> nodeb a p (slot_key i) = blk p i.
Proof.
  intros Hi. unfold slot_key. destruct (Nat.eqb_spec i 12) as [->|]; [done|].
  destruct (Nat.eqb_spec i 13) as [->|]; [done|]. rewrite nodeb_dir by lia. by rewrite Nat2Z.id.
Qed.

Lemma grow_slot a p i nb a' : (i < 14)%nat -> tree_ok a p -> blk p i = 0 -> fresh a nb a' ->
  grow a p (slot_key i) a' (set_p_block i nb p).
Proof.
  intros Hi Tr H0 F. destruct (fresh_tree a nb a' p F Tr) as [Tr' E].
  assert (forall k, key_ok k -> nodeb a' (set_p_block i nb p) k = if decide (k = slot_key i) then nb else nodeb a p k) as E2.
  { intros k Hk. rewrite nodeb_set_slot; [|apply Tr|done|done|apply F|done].
    case_decide; [done|by apply E]. }
  assert (nodeb a' (set_p_block i nb p) (slot_key i) = nb) as Enb
    by (rewrite E2 by (by apply slot_key_ok); by rewrite decide_True).
  split.
  - apply F.
  - apply (tree_add a p a' _ (slot_key i) nb); try done; [|by apply slot_key_ok|apply F|by rewrite nodeb_slot|apply F..|].
    + simpl. rewrite length_insert. apply Tr.
    + intros k Hk Eq. apply (fr_new _ _ _ F). rewrite <- Eq. apply (to_good a p Tr k Hk). rewrite Eq. apply F.
  - unfold strip, set_p_block; simpl; by rewrite drop_insert_lt by lia.
  - rewrite Enb. apply F.
  - intros k Hk Hne. rewrite E2 by done. by rewrite decide_False.
  - intros Hn. by rewrite nodeb_slot in Hn.
  - intros _. rewrite Enb. split; apply F.
  - intros c Hc _. by apply (fr_frame _ _ _ F).
  - apply F.
Qed.

Lemma grow_child a p kp i nb a' : tree_ok a p -> key_ok kp -> kp < 0 -> 0 <= i < P ->
  nodeb a p kp <> 0 -> nodeb a p (child kp i) = 0 -> fresh a nb a' ->
  grow a p (child kp i) (store_ptr a' (nodeb a p kp) i nb) p.
Proof.
  intros Tr Hkp Hn Hi Hq H0 F. destruct (fresh_tree a nb a' p F Tr) as [Tr' E].
  set (q := nodeb a p kp) in *. assert (good a q) as Gq by by apply (to_good a p Tr).
  assert (good a' q) as Gq' by by apply F. assert (~ meta fs a' q) as Mq by apply Gq'.
  assert (q <> nb) as Hne by by apply (fresh_ne a nb a').
  assert (key_ok (child kp i)) as Hck by by apply child_key.
  assert (forall k, key_ok k -> nodeb (store_ptr a' q i nb) p k = if decide (k = child kp i) then nb else nodeb a p k) as E2.
  { intros k Hk. unfold q in *. rewrite <- (E kp Hkp) in *. rewrite nodeb_store_ptr; try done.
    - case_decide; [done|by apply E].
    - by rewrite E.
    - apply (fr_blocks _ _ _ F). apply Gq'.
    - apply F.
    - apply F. }
  assert (nodeb (store_ptr a' q i nb) p (child kp i) = nb) as Enb by (rewrite (E2 _ Hck); by rewrite decide_True).
  split.
  - apply data_layout; [done|apply F].
  - apply (tree_add a p _ _ (child kp i) nb); try done; [apply Tr|apply F|..].
    + intros c Hc. apply good_write; [done|]. by apply F.
    + apply good_write; [done|apply F].
    + intros k Hk Eq. apply (fr_new _ _ _ F). rewrite <- Eq. apply (to_good a p Tr k Hk). rewrite Eq. apply F.
  - done.
  - rewrite Enb. apply F.
  - intros k Hk Hnk. rewrite E2 by done. by rewrite decide_False.
  - done.
  - intros _. rewrite Enb. split; [|apply F]. unfold store_ptr. rewrite a_write_ne by done. apply F.
  - intros c Hc Hnp. unfold store_ptr. rewrite a_write_ne.
    + by apply (fr_frame _ _ _ F).
    + intros ->. by apply (Hnp kp).
  - intros c Hc. apply good_write; [done|]. by apply F.
Qed.

(** ** Growing along a path *)

(** the block of file block [l] is there; everything else is as before *)
Record mapped a p l a' p' : Prop := {
  mp_layout : layout_ok fs a';
  mp_tree : tree_ok a' p';
  mp_strip : strip p' = strip p;
  mp_node : nodeb a' p' l <> 0;
  mp_other : forall k, key_ok k -> 0 <= k -> k <> l -> nodeb a' p' k = nodeb a p k;
  mp_old : nodeb a p l <> 0 -> a' = a /\ p' = p;
  mp_new : nodeb a p l = 0 -> a_view a' (nodeb a' p' l) = zero_block fs /\ ~ good a (nodeb a' p' l);
  mp_ptr : forall k, key_ok k -> nodeb a' p' k = nodeb a p k \/ ~ good a (nodeb a' p' k);
  mp_frame : forall c, good a c -> not_ptr a p c -> a_view a' c = a_view a c;
  mp_good : forall c, good a c -> good a' c }.

Lemma grow_mapped a p l a' p' : grow a p l a' p' -> mapped a p l a' p'.
Proof.
  intros Gr. pose proof Gr as []. split; auto. intros k Hk. destruct (decide (k = l)) as [->|Hne]; [|auto].
  destruct (decide (nodeb a p l = 0)) as [H0|H0]; [right; by apply (gr_new _ _ _ _ _ Gr)|].
  left. by destruct (gr_old _ _ _ _ _ Gr H0) as [-> ->].
Qed.

(** first an ancestor [k], then the rest of the path *)
Lemma grow_then a p k a1 p1 l a2 p2 : k < 0 -> key_ok k -> 0 <= l -> key_ok l ->
  (nodeb a p k = 0 -> nodeb a p l = 0) ->
  grow a p k a1 p1 -> mapped a1 p1 l a2 p2 -> mapped a p l a2 p2.
Proof.
  intros Hk Hkk Hl Hlk Habs G1 M2. destruct (decide (nodeb a p k = 0)) as [H0|H0].
  2:{ by destruct (gr_old _ _ _ _ _ G1 H0) as [-> ->]. }
  assert (nodeb a1 p1 l = nodeb a p l) as El by (apply (gr_other _ _ _ _ _ G1); [done|lia]).
  split.
  - apply M2.
  - apply M2.
  - rewrite (mp_strip _ _ _ _ _ M2). apply G1.
  - apply M2.
  - intros k' Hk' H0' Hne. rewrite (mp_other _ _ _ _ _ M2) by done.
    apply (gr_other _ _ _ _ _ G1); [done|lia].
  - intros Hn. by rewrite Habs in Hn.
  - intros _. rewrite Habs in El by done. destruct (mp_new _ _ _ _ _ M2 El) as [Hz Hg]. split; [done|].
    intros Hgood. apply Hg. by apply (gr_good _ _ _ _ _ G1).
  - intros k' Hk'. destruct (mp_ptr _ _ _ _ _ M2 k' Hk') as [E|E].
    + destruct (decide (k' = k)) as [->|Hne].
      * right. rewrite E. by apply (gr_new _ _ _ _ _ G1).
      * left. rewrite E. by apply (gr_other _ _ _ _ _ G1).
    + right. intros Hg. apply E. by apply (gr_good _ _ _ _ _ G1).
  - intros c Hc Hnp. rewrite (mp_frame _ _ _ _ _ M2).
    + by apply (gr_frame _ _ _ _ _ G1).
    + by apply (gr_good _ _ _ _ _ G1).
    + intros k' Hk' Hn' Eq. destruct (decide (k' = k)) as [->|Hne].
      * apply (gr_new _ _ _ _ _ G1 H0). by rewrite Eq.
      * rewrite (gr_other _ _ _ _ _ G1) in Eq by done. by apply (Hnp k').
  - intros c Hc. by apply (mp_good _ _ _ _ _ M2), (gr_good _ _ _ _ _ G1).
Qed.

(** ** Growing only pointer blocks: what an allocation that failed half way leaves *)
Record kept a p a' p' : Prop := {
  kp_layout : layout_ok fs a';
  kp_tree : tree_ok a' p';
  kp_strip : strip p' = strip p;
  kp_data : forall k, key_ok k -> 0 <= k -> nodeb a' p' k = nodeb a p k;
  kp_ptr : forall k, key_ok k -> nodeb a' p' k = nodeb a p k \/ ~ good a (nodeb a' p' k);
  kp_frame : forall c, good a c -> not_ptr a p c -> a_view a' c = a_view a c;
  kp_good : forall c, good a c -> good a' c }.

Lemma kept_refl a p : layout_ok fs a -> tree_ok a p -> kept a p a p.
Proof. intros Lo Tr. split; auto. Qed.
Lemma kept_grow a p k a' p' : k < 0 -> grow a p k a' p' -> kept a p a' p'.
Proof.
  intros Hk Gr. pose proof (grow_mapped a p k a' p' Gr) as Mp. split; [apply Gr..| |apply Mp|apply Mp|apply Mp].
  intros k' Hk' H0. apply (gr_other _ _ _ _ _ Gr); [done|lia].
Qed.
Lemma kept_trans a p a1 p1 a2 p2 : kept a p a1 p1 -> kept a1 p1 a2 p2 -> kept a p a2 p2.
Proof.
  intros K1 K2. split; [apply K2|apply K2|rewrite (kp_strip _ _ _ _ K2); apply K1|..].
  - intros k Hk H0. rewrite (kp_data _ _ _ _ K2) by done. by apply (kp_data _ _ _ _ K1).
  - intros k Hk. destruct (kp_ptr _ _ _ _ K2 k Hk) as [->|E]; [by apply (kp_ptr _ _ _ _ K1)|].
    right. intros Hg. by apply E, (kp_good _ _ _ _ K1).
  - intros c Hc Hn. rewrite (kp_frame _ _ _ _ K2); [by apply (kp_frame _ _ _ _ K1)|by apply (kp_good _ _ _ _ K1)|].
    intros k Hk Hk0 E. destruct (kp_ptr _ _ _ _ K1 k Hk) as [E'|E']; [by apply (Hn k Hk Hk0); congruence|]. by rewrite E in E'.
  - intros c Hc. by apply (kp_good _ _ _ _ K2), (kp_good _ _ _ _ K1).
Qed.

End Tree.
