(* ===== verification/Ext2GetBlock.v ===== *)
(** [ext2_get_block] against the tree of blocks of Ext2Tree.v. *)
From stdpp Require Import base gmap list.
From Stdlib Require Import ZArith Lia.
From S2P Require Import Prelude Bytes HashMap BlockDev Ext2Cache Ext2CacheSpec Ext2 Ext2Logic Ext2Alloc Ext2Map Ext2Tree.
Open Scope Z_scope.

Section GetBlock.
Context {D H T : Type} `{DD : BlockDev D} `{HH : Heap H} `{BM : !BlockMap H T}.
Abbreviation St := (fs_state D H T).
Context (fs : ext2_fs_priv) (G : geom_ok fs).
Context (TT : table_total (H := H) (T := T)).
Abbreviation rel := (reliable (D := D) (H := H)).
Abbreviation triple := (triple (D := D) (H := H) (T := T) fs).
Abbreviation P := (ptrs_per_block fs).
Implicit Types (a : astate) (p : ext2_inode_priv) (k : Z).

Lemma zero_block_ok : block_ok fs (zero_block fs).
Proof.
  pose proof (bs_range fs (go_bs fs G)). split.
  - unfold zero_block. rewrite length_replicate. lia.
  - apply Forall_replicate. unfold byte_ok. lia.
Qed.

Lemma block_no_inj g j g' j' : group_ok fs g -> 0 <= j < blocks_per_group fs ->
  group_ok fs g' -> 0 <= j' < blocks_per_group fs -> block_no fs g j = block_no fs g' j' -> g = g' /\ j = j'.
Proof.
  intros Hg Hj Hg' Hj' E. destruct (block_no_group fs G g j Hg Hj) as [E1 E2].
  destruct (block_no_group fs G g' j' Hg' Hj') as [E3 E4]. rewrite E in E1, E2. split; congruence.
Qed.

Lemma block_no_u32 g j : group_ok fs g -> 0 <= j < blocks_per_group fs -> u32_ok (block_no fs g j).
Proof.
  intros Hg Hj. unfold block_no, group_ok, u32_ok in *.
  pose proof (go_blocks fs G). pose proof (go_fdb fs G). pose proof (go_bpg fs G). nia.
Qed.

Lemma alloc_fresh a g j : blocks_ok fs a -> layout_ok fs a -> group_ok fs g -> 0 <= j < blocks_per_group fs ->
  used fs a g j = false ->
  fresh fs a (block_no fs g j) (a_write (block_no fs g j) (zero_block fs) (alloc_eff fs a g j)).
Proof.
  intros Hok Lo Hg Hj Hu. set (nb := block_no fs g j). set (a1 := alloc_eff fs a g j).
  assert (~ meta fs a nb) as Hm.
  { intros Hm. rewrite (lo_used fs a Lo g j Hg Hj Hm) in Hu. done. }
  assert (same_ptrs fs a a1) as SP by by apply alloc_same_ptrs.
  assert (~ meta fs a1 nb) as Hm1 by by rewrite (meta_same fs a a1 nb SP).
  assert (~ good fs a nb) as Hng.
  { intros (_ & _ & g' & j' & Hg' & Hj' & E & Hu'). apply block_no_inj in E as [<- <-]; [|done..].
    by rewrite Hu in Hu'. }
  assert (forall c, good fs a c -> good fs a1 c) as Hgood.
  { intros c (Hc & Hmc & g' & j' & Hg' & Hj' & -> & Hu'). split; [done|].
    split; [by rewrite (meta_same fs a a1 _ SP)|]. exists g', j'. split; [done|]. split; [done|].
    split; [done|]. unfold a1. rewrite alloc_used by (done || lia). rewrite Hu'. apply orb_true_r. }
  split.
  - by apply block_no_u32.
  - intros E. apply Hm. left. exact E.
  - apply data_layout; [done|]. by apply alloc_layout.
  - apply blocks_ok_write; [by apply alloc_blocks_ok|apply zero_block_ok].
  - apply a_write_eq.
  - done.
  - apply good_write; [done|]. split; [by apply block_no_u32|]. split; [done|].
    exists g, j. split; [done|]. split; [done|]. split; [done|]. unfold a1.
    rewrite alloc_used by (done || lia). by rewrite !Z.eqb_refl.
  - intros c Hc. apply good_write; [done|]. by apply Hgood.
  - intros c Hc. rewrite a_write_ne by (intros ->; done). destruct Hc as (_ & Hmc & _).
    apply alloc_view; intros ->; apply Hmc; right; exists g; auto.
Qed.

(** why an allocation fails: no free block, or a failing device or heap *)
Definition no_room a : Prop := ~ rel \/ block_full fs a.
(** and then nothing has changed, unless something failed *)
Definition no_block a a' : Prop := ~ rel \/ (a' = a /\ block_full fs a).

Lemma alloc_zero_block_ok a : layout_ok fs a ->
  triple a (ext2_alloc_zero_block fs)
    (fun r a' => match r with Some nb => fresh fs a nb a' | None => no_block a a' end).
Proof.
  intros Lo. pose proof (bs_range fs (go_bs fs G)). apply triple_blocks; [done|]. intros Hok.
  apply triple_with_buf; [done|lia|by left|]. eapply triple_bind; [by apply alloc_block_ok|].
  intros [b|] a1 Hr.
  2:{ apply triple_ret. destruct Hr as [[-> [?|?]]|[? _]]; [by left|right; by split|by left]. } destruct Hr as (g & j & Hg & Hj & -> & _ & Hu & _ & ->).
  eapply triple_bind; [apply triple_write_block; [done|done|by apply block_no_u32|apply zero_block_ok]|].
  intros r a2 [(-> & -> & ->)|(-> & -> & NR & Hd)]%wrote_cases.
  - apply triple_ret. by apply alloc_fresh.
  - eapply triple_bind; [by apply free_block_ok|]. intros. apply triple_ret. by left.
Qed.

Lemma ind_get_ok a q i : u32_ok q -> 0 <= i < P ->
  triple a (ext2_ind_get fs q i)
    (fun r a' => a' = a /\ (r = Some (field 4 (Z.to_nat (i * 4)) (a_view a q)) \/ (r = None /\ ~ rel))).
Proof.
  intros Hq Hi. pose proof (ptrs_range fs G). apply triple_with_block; [done|done|by auto|].
  intros [Hl _]. apply triple_ldf; [lia|lia|]. apply triple_ret. split; [done|by left].
Qed.

Lemma ind_set_ok a q i v : u32_ok q -> 0 <= i < P ->
  triple a (ext2_ind_set fs q i v) (wrote q (set_field 4 (Z.to_nat (i * 4)) v (a_view a q)) a).
Proof.
  intros Hq Hi. pose proof (ptrs_range fs G). apply triple_with_block; [done|done|..].
  { intros NR. right. split; [done|]. split; [done|apply differs_refl]. }
  intros Hok. assert (block_ok fs (a_view a q)) as [Hl _] by done. apply triple_stf; [lia|lia|].
  apply triple_write_block; [done|done|done|]. apply block_ok_set_field; [lia|lia|done].
Qed.

(** an absent child of the pointer block [kp] gets a fresh block *)
Lemma add_child_ok a p kp i : layout_ok fs a -> tree_ok fs a p -> key_ok fs kp -> kp < 0 -> 0 <= i < P ->
  nodeb fs a p kp <> 0 -> nodeb fs a p (child fs kp i) = 0 ->
  triple a (let* r := ext2_alloc_zero_block fs in
            match r with
            | None => mret None
            | Some nb =>
                let* w := ext2_ind_set fs (nodeb fs a p kp) i nb in
                if w <? 0 then mret None else mret (Some nb)
            end)
    (fun r a' => match r with
                 | Some v => grow fs a p (child fs kp i) a' p /\ nodeb fs a' p (child fs kp i) = v
                 | None => no_block a a' end).
Proof.
  intros Lo Tr Hkp Hn Hi Hq H0. eapply triple_bind; [by apply alloc_zero_block_ok|].
  intros [nb|] a1 F; [|by apply triple_ret].
  assert (good fs a1 (nodeb fs a p kp)) as Gq by (by apply (fr_good _ _ _ _ F), (to_good fs a p Tr)).
  eapply triple_bind; [apply ind_set_ok; [apply Gq|done]|].
  intros w a2 [(-> & -> & ->)|(-> & -> & NR & _)]%wrote_cases; [|apply triple_ret; by left].
  apply triple_ret. pose proof (grow_child fs G a p kp i nb a1 Tr Hkp Hn Hi Hq H0 F) as Gr.
  split; [exact Gr|]. fold (store_ptr a1 (nodeb fs a p kp) i nb).
  destruct (fresh_tree fs G a nb a1 p F Tr) as [Tr1 E1]. rewrite <- (E1 kp Hkp).
  rewrite (nodeb_store_ptr fs G); try done.
  - by rewrite decide_True.
  - by rewrite E1.
  - rewrite E1; [done|by apply child_key].
  - rewrite E1 by done. apply (fr_blocks _ _ _ _ F). apply Gq.
  - apply F.
  - rewrite E1 by done. intros ->. by apply (fr_new _ _ _ _ F), (to_good fs a p Tr).
  - apply F.
  - by apply child_key.
Qed.

Lemma ind_slot_ok a p kp i : layout_ok fs a -> tree_ok fs a p -> key_ok fs kp -> kp < 0 -> 0 <= i < P ->
  nodeb fs a p kp <> 0 ->
  triple a (ind_slot fs (nodeb fs a p kp) i)
    (fun r a' => match r with
                 | Some v => grow fs a p (child fs kp i) a' p /\ nodeb fs a' p (child fs kp i) = v
                 | None => no_block a a' end).
Proof.
  intros Lo Tr Hkp Hn Hi Hq. assert (good fs a (nodeb fs a p kp)) as Gq by by apply (to_good fs a p Tr).
  assert (nodeb fs a p (child fs kp i) = field 4 (Z.to_nat (i * 4)) (a_view a (nodeb fs a p kp))) as Ec.
  { rewrite (nodeb_child fs G) by done. unfold ptr_at. by rewrite (proj2 (Z.eqb_neq _ _) Hq). }
  eapply triple_bind; [apply ind_get_ok; [apply Gq|done]|].
  intros r a' (-> & [->|[-> NR]]); [|apply triple_ret; by left]. rewrite <- Ec.
  destruct (Z.eqb_spec (nodeb fs a p (child fs kp i)) 0) as [H0|H0]; cbn [negb].
  - by apply add_child_ok.
  - apply triple_ret. split; [|done]. by apply grow_refl.
Qed.

Lemma slot_alloc_ok a p i : layout_ok fs a -> tree_ok fs a p -> (i < 14)%nat ->
  triple a (slot_alloc fs p i)
    (fun r a' => match r.1 with
                 | Some v => grow fs a p (slot_key i) a' r.2 /\ nodeb fs a' r.2 (slot_key i) = v
                 | None => r.2 = p /\ no_block a a' end).
Proof.
  intros Lo Tr Hi. unfold slot_alloc. destruct (Z.eqb_spec (blk p i) 0) as [H0|H0]; cbn [negb].
  - eapply triple_bind; [by apply alloc_zero_block_ok|]. intros [nb|] a' F; [|by apply triple_ret].
    apply triple_ret. simpl. split; [by apply grow_slot|].
    rewrite (nodeb_slot fs) by done. rewrite blk_set by (rewrite (to_len _ _ _ Tr); unfold EXT2_N_BLOCKS; lia).
    by rewrite decide_True.
  - apply triple_ret. simpl. split; [|by apply nodeb_slot]. apply grow_refl; [done|done|].
    by rewrite (nodeb_slot fs).
Qed.

(** ** The bounds of the three zones do not wrap *)
Lemma bounds : u32 (12 + P) = 12 + P /\ u32 (u32 (12 + P) + u32 (P * P)) = max_blocks fs.
Proof.
  pose proof (ptrs_range fs G) as [HP _]. unfold max_blocks. rewrite (u32_small (12 + P)) by lia.
  rewrite (u32_small (P * P)) by nia. split; [done|]. apply u32_small. nia.
Qed.

Definition got a p l (r : option Z * ext2_inode_priv) a' : Prop :=
  match r.1 with
  | Some b => l < max_blocks fs /\ mapped fs a p l a' r.2 /\ nodeb fs a' r.2 l = b
  | None => (max_blocks fs <= l /\ a' = a /\ r.2 = p) \/ ~ rel \/ (kept fs a p a' r.2 /\ block_full fs a')
  end.
Lemma got_none a p l p' a' : got a p l (None, p') a' -> max_blocks fs <= l \/ no_room a'.
Proof. unfold got, no_room. simpl. tauto. Qed.
(** the failure of a step after the pointer blocks for [a1] were made *)
Lemma kept_none a p a1 p1 a' : kept fs a p a1 p1 -> no_block a1 a' -> ~ rel \/ (kept fs a p a' p1 /\ block_full fs a').
Proof. intros K [?|[-> ?]]; [by left|by right]. Qed.

Lemma get_block_alloc_ok a p l : layout_ok fs a -> tree_ok fs a p -> 0 <= l ->
  triple a (ext2_get_block p fs l true) (got a p l).
Proof.
  intros Lo Tr Hl. pose proof (ptrs_range fs G) as [HP _]. destruct bounds as [B1 B2].
  unfold ext2_get_block. cbv zeta. rewrite B2, B1. cbn [negb]. rewrite !andb_false_r.
  destruct (l <? 12) eqn:E1; breflect.
  { eapply triple_conseq; [apply slot_alloc_ok; [done|done|lia]|]. intros [[b|] p'] a' Hr.
    2:{ destruct Hr as [Ep Hr]. simpl in Ep. subst p'. right. eapply kept_none; [by apply kept_refl|done]. }
    assert (slot_key (Z.to_nat l) = l) as Ek.
    { unfold slot_key. rewrite !(proj2 (Nat.eqb_neq _ _)) by lia. lia. }
    simpl in *. rewrite Ek in Hr. destruct Hr as [Gr E].
    split; [unfold max_blocks; nia|]. split; [by apply grow_mapped|done]. }
  destruct (l <? 12 + P) eqn:E2; breflect.
  { eapply triple_bind; [apply (slot_alloc_ok a p EXT2_IND_BLOCK); [done|done|unfold EXT2_IND_BLOCK; lia]|].
    intros [[ind|] p'] a1 Hr.
    2:{ apply triple_ret. destruct Hr as [Ep Hr]. simpl in Ep. subst p'. right. eapply kept_none; [by apply kept_refl|done]. }
    simpl in Hr. destruct Hr as [Gr <-]. assert (kept fs a p a1 p') as K1 by (apply (kept_grow fs _ _ (-1)); [lia|done]).
    assert (child fs (-1) (l - 12) = l) as Ec by (unfold child; simpl; lia).
    assert (key_ok fs l) as Hkl by (unfold key_ok, max_blocks; nia).
    eapply triple_bind.
    { apply (ind_slot_ok a1 p' (-1) (l - 12)); [apply Gr|apply Gr|by apply key_m1|lia|lia|apply Gr]. }
    rewrite Ec. intros [v|] a2 Hr; apply triple_ret; [|right; by eapply kept_none]. destruct Hr as [Gr2 Hv].
    split; [unfold max_blocks; nia|]. split; [|done].
    apply (grow_then fs a p (-1) a1 p'); [lia|by apply key_m1|lia|done| |done|by apply grow_mapped].
    intros H0. rewrite <- Ec, (nodeb_child fs G) by (try apply key_m1; try done; lia). by rewrite H0. }
  destruct (l <? max_blocks fs) eqn:E3; breflect; [|apply triple_ret; by left].
  destruct (dind_range fs G l ltac:(lia)) as (R1 & R2 & R3).
  replace (l - (12 + P)) with (l - 12 - P) by lia.
  set (i1 := (l - 12 - P) / P) in *. set (i2 := (l - 12 - P) mod P) in *.
  assert (key_ok fs l) as Hkl by (unfold key_ok; lia).
  assert (child fs (-2) i1 = -3 - i1) as Ec1 by done.
  assert (child fs (-3 - i1) i2 = l) as Ec2.
  { unfold child. rewrite !(proj2 (Z.eqb_neq _ _)) by lia. lia. }
  pose proof (key_m2 fs G) as K2. assert (key_ok fs (-3 - i1)) as K3 by by apply key_ind1.
  assert (forall a0 p0, nodeb fs a0 p0 (-3 - i1) = 0 -> nodeb fs a0 p0 l = 0) as Z1.
  { intros a0 p0 H0. rewrite <- Ec2, (nodeb_child fs G) by (done || lia). by rewrite H0. }
  assert (forall a0 p0, nodeb fs a0 p0 (-2) = 0 -> nodeb fs a0 p0 l = 0) as Z2.
  { intros a0 p0 H0. apply Z1. rewrite <- Ec1, (nodeb_child fs G) by (done || lia). by rewrite H0. }
  eapply triple_bind; [apply (slot_alloc_ok a p EXT2_DIND_BLOCK); [done|done|unfold EXT2_DIND_BLOCK; lia]|].
  intros [[dind|] p'] a1 Hr.
  2:{ apply triple_ret. destruct Hr as [Ep Hr]. simpl in Ep. subst p'. right. eapply kept_none; [by apply kept_refl|done]. }
  simpl in Hr. destruct Hr as [Gr <-]. assert (kept fs a p a1 p') as K1 by (apply (kept_grow fs _ _ (-2)); [lia|done]).
  change (slot_key EXT2_DIND_BLOCK) with (-2) in *.
  assert (good fs a1 (nodeb fs a1 p' (-2))) as Gq by (apply (to_good fs a1 p' (gr_tree _ _ _ _ _ _ Gr)); [done|apply Gr]).
  eapply triple_bind; [apply ind_get_ok; [apply Gq|done]|].
  intros r a' (-> & [->|[-> NR]]); [|apply triple_ret; right; by left].
  assert (field 4 (Z.to_nat (i1 * 4)) (a_view a1 (nodeb fs a1 p' (-2))) = nodeb fs a1 p' (child fs (-2) i1)) as Ef.
  { rewrite (nodeb_child fs G) by (done || lia). unfold ptr_at.
    by rewrite (proj2 (Z.eqb_neq _ _) (gr_node _ _ _ _ _ _ Gr)). }
  rewrite Ef, andb_false_r.
  eapply triple_bind with (R := fun (r : option Z) a2 => match r with
    | Some v => grow fs a1 p' (child fs (-2) i1) a2 p' /\ nodeb fs a2 p' (child fs (-2) i1) = v
    | None => no_block a1 a2 end).
  { destruct (Z.eqb_spec (nodeb fs a1 p' (child fs (-2) i1)) 0) as [H0|H0]; cbn [negb].
    - apply add_child_ok; try done; apply Gr.
    - apply triple_ret. split; [|done]. apply grow_refl; [apply Gr|apply Gr|done]. }
  intros [ind|] a2 Hr; [|apply triple_ret; right; by eapply kept_none]. rewrite Ec1 in Hr. destruct Hr as [Gr2 <-].
  assert (kept fs a p a2 p') as Kp2 by (eapply (kept_trans fs); [exact K1|apply (kept_grow fs _ _ (-3 - i1)); [lia|done]]).
  eapply triple_bind.
  { apply (ind_slot_ok a2 p' (-3 - i1) i2); [apply Gr2|apply Gr2|done|lia|done|apply Gr2]. }
  rewrite Ec2. intros [v|] a3 Hr; apply triple_ret; [|right; by eapply kept_none]. destruct Hr as [Gr3 Hv].
  split; [done|]. split; [|done].
  apply (grow_then fs a p (-2) a1 p'); [lia|done|lia|done|apply Z2|done|].
  apply (grow_then fs a1 p' (-3 - i1) a2 p'); [lia|done|lia|done|apply Z1|done|].
  by apply grow_mapped.
Qed.

(** Looking up without allocating: the block of the map, or 0 when a read
    failed on the way. *)
Definition looked a p l (r : option Z * ext2_inode_priv) a' : Prop :=
  a' = a /\ r.2 = p /\
  (max_blocks fs <= l -> r.1 = None) /\
  (l < max_blocks fs -> r.1 = Some (nodeb fs a p l) \/ (~ rel /\ (r.1 = Some 0 \/ r.1 = None))).

Lemma ind_peek_ok a p kp i : tree_ok fs a p -> key_ok fs kp -> kp < 0 -> 0 <= i < P -> nodeb fs a p kp <> 0 ->
  triple a (ind_peek fs (nodeb fs a p kp) i)
    (fun r a' => a' = a /\ (r = Some (nodeb fs a p (child fs kp i)) \/ (~ rel /\ r = Some 0))).
Proof.
  intros Tr Hkp Hn Hi Hq. eapply triple_bind; [apply ind_get_ok; [by apply (to_good fs a p Tr)|done]|].
  intros r a' (-> & [->|[-> Hr]]); apply triple_ret; (split; [done|]); [left|by right].
  rewrite (nodeb_child fs G) by done. unfold ptr_at. by rewrite (proj2 (Z.eqb_neq _ _) Hq).
Qed.

Lemma get_block_look_ok a p l : tree_ok fs a p -> 0 <= l ->
  triple a (ext2_get_block p fs l false) (looked a p l).
Proof.
  intros Tr Hl. pose proof (ptrs_range fs G) as [HP _]. destruct bounds as [B1 B2].
  unfold ext2_get_block. cbv zeta. rewrite B2, B1. cbn [negb]. rewrite !andb_true_r.
  destruct (l <? 12) eqn:E1; breflect.
  { apply triple_ret. split; [done|]. split; [done|]. split; [unfold max_blocks; nia|]. intros _. left.
    by rewrite (nodeb_dir fs) by lia. }
  destruct (l <? 12 + P) eqn:E2; breflect.
  { assert (child fs (-1) (l - 12) = l) as Ec by (unfold child; simpl; lia).
    assert (nodeb fs a p l = ptr_at a (blk p EXT2_IND_BLOCK) (l - 12)) as En by (apply nodeb_ind; lia).
    destruct (Z.eqb_spec (blk p EXT2_IND_BLOCK) 0) as [H0|H0].
    { apply triple_ret. split; [done|]. split; [done|]. split; [unfold max_blocks; nia|]. intros _. left.
      by rewrite En, H0. }
    unfold slot_alloc. rewrite (proj2 (Z.eqb_neq _ _) H0). cbn [negb].
    change (mbind' (mret ?x) ?f) with (f x). cbv beta iota.
    eapply triple_bind; [apply (ind_peek_ok a p (-1) (l - 12)); [done|by apply key_m1|lia|lia|done]|].
    rewrite Ec. intros v a' (-> & Hv). apply triple_ret. split; [done|]. split; [done|].
    split; [unfold max_blocks; nia|]. intros _. simpl. destruct Hv as [->|[? ->]]; auto. }
  destruct (l <? max_blocks fs) eqn:E3; breflect.
  2:{ apply triple_ret. split; [done|]. split; [done|]. split; [done|lia]. }
  destruct (dind_range fs G l ltac:(lia)) as (R1 & R2 & R3).
  replace (l - (12 + P)) with (l - 12 - P) by lia.
  set (i1 := (l - 12 - P) / P) in *. set (i2 := (l - 12 - P) mod P) in *.
  assert (nodeb fs a p l = ptr_at a (nodeb fs a p (-3 - i1)) i2) as En by (apply nodeb_dind; [done|lia]).
  assert (nodeb fs a p (-3 - i1) = ptr_at a (blk p EXT2_DIND_BLOCK) i1) as En1 by (apply nodeb_ind1; lia).
  assert (child fs (-3 - i1) i2 = l) as Ec2.
  { unfold child. rewrite !(proj2 (Z.eqb_neq _ _)) by lia. lia. }
  assert (forall v : Z, v = nodeb fs a p l -> looked a p l (Some v, p) a) as Hok.
  { intros v ->. split; [done|]. split; [done|]. split; [lia|]. intros _. by left. }
  assert (forall v : option Z, ~ rel -> v = Some 0 \/ v = None -> looked a p l (v, p) a) as Hbad.
  { intros v Hr Hv. split; [done|]. split; [done|]. split; [lia|]. intros _. by right. }
  destruct (Z.eqb_spec (blk p EXT2_DIND_BLOCK) 0) as [H0|H0].
  { apply triple_ret, Hok. by rewrite En, En1, H0. }
  unfold slot_alloc. rewrite (proj2 (Z.eqb_neq _ _) H0). cbn [negb].
  change (mbind' (mret ?x) ?f) with (f x). cbv beta iota.
  assert (good fs a (blk p EXT2_DIND_BLOCK)) as Gd by (apply (to_good fs a p Tr (-2)); [by apply key_m2|done]).
  eapply triple_bind; [apply ind_get_ok; [apply Gd|done]|].
  intros r a' (-> & [->|[-> Hr]]); [|apply triple_ret, Hbad; auto].
  assert (field 4 (Z.to_nat (i1 * 4)) (a_view a (blk p EXT2_DIND_BLOCK)) = nodeb fs a p (-3 - i1)) as ->.
  { rewrite En1. unfold ptr_at. by rewrite (proj2 (Z.eqb_neq _ _) H0). }
  rewrite andb_true_r.
  destruct (Z.eqb_spec (nodeb fs a p (-3 - i1)) 0) as [H1|H1]; cbn [negb].
  { apply triple_ret, Hok. by rewrite En, H1. }
  change (mbind' (mret ?x) ?f) with (f x). cbv beta iota.
  eapply triple_bind; [apply (ind_peek_ok a p (-3 - i1) i2); [done|by apply key_ind1|lia|done|done]|].
  rewrite Ec2. intros v a' (-> & [->|[Hr ->]]); apply triple_ret; [by apply Hok|apply Hbad; auto].
Qed.

End GetBlock.
