(* ===== verification/Ext2Dir.v ===== *)
(** ext2 directories (fs/ext2.c): searching, scanning, adding and removing
    entries, and the emptiness test.

    A directory block is a chain of [struct ext2_dirent] records linked by
    their lengths; the loops over a block stop at its end or at a record
    shorter than its header.  Every record skipped is at least 8 bytes long,
    so [dir_fuel] steps are enough for a block. *)
From stdpp Require Import base gmap list.
From Stdlib Require Import ZArith Lia.
From S2P Require Import Prelude Bytes HashMap BlockDev Ext2Cache Ext2.
Open Scope Z_scope.

Definition SIZEOF_DIRENT : Z := 8.
Definition EXT2_FT_REG_FILE : Z := 1.
Definition EXT2_FT_DIR : Z := 2.
Definition EXT2_FT_SYMLINK : Z := 7.
Definition VFS_NAME_MAX : Z := 255.
Definition DOT : Z := 46.

(** [(sizeof(struct ext2_dirent) + n + 3) & ~3u], as a [uint16_t] *)
Definition dirent_size (n : Z) : Z := u16 (Z.land (SIZEOF_DIRENT + n + 3) (Z.lnot 3)).

(** What [ext2_dir_scan] found *)
Record ext2_dir_scan_t := mkScan {
  sc_ino : Z;
  sc_type : Z;
  sc_name : list Z;
  sc_next_off : Z }.

Section Dir.
Context {D H T : Type} `{DD : BlockDev D} `{HH : Heap H} `{BM : !BlockMap H T}.
Abbreviation St := (fs_state D H T).
Implicit Types (fs : ext2_fs_priv).

(** the fields of the record at [off] *)
Definition e_inode (off : Z) (buf : list Z) : M St Z := ldf 4 off buf.
Definition e_rec_len (off : Z) (buf : list Z) : M St Z := ldf 2 (off + 4) buf.
Definition e_name_len (off : Z) (buf : list Z) : M St Z := ldf 1 (off + 6) buf.
Definition e_file_type (off : Z) (buf : list Z) : M St Z := ldf 1 (off + 7) buf.

(** [memcmp(buf + off, name, n) == 0] *)
Fixpoint memcmp_eq (off : Z) (name buf : list Z) : M St bool :=
  match name with
  | [] => mret true
  | c :: name' =>
      let* b := ldf 1 off buf in
      if negb (b =? c) then mret false else memcmp_eq (off + 1) name' buf
  end.

(** [e->inode != 0 && e->name_len == name_len && memcmp(...) == 0] *)
Definition entry_is (off : Z) (name buf : list Z) : M St bool :=
  let* ino := e_inode off buf in
  if ino =? 0 then mret false else
  let* nl := e_name_len off buf in
  if negb (nl =? Z.of_nat (length name)) then mret false else
  memcmp_eq (off + SIZEOF_DIRENT) name buf.

Definition dir_fuel fs : nat := Z.to_nat (block_size fs).

(** [while (off + sizeof(dirent) <= block_size)] over the records of a block *)
Fixpoint entries {A} (fuel : nat) fs (buf : list Z) (off : Z) (body : Z -> Z -> M St (scan A))
    : M St (scan A) :=
  match fuel with
  | O => nofuel
  | S fuel' =>
      if block_size fs <? off + SIZEOF_DIRENT then mret Continue else
      let* rec := e_rec_len off buf in
      if rec <? SIZEOF_DIRENT then mret Continue else
      let* r := body off rec in
      match r with
      | Continue => entries fuel' fs buf (off + rec) body
      | Found x => mret (Found x)
      | Error => mret Error
      end
  end.

(** the loop over the blocks of a directory, from [lblk] on *)
Fixpoint dir_blocks {A} (n : nat) fs (dir : ext2_inode_priv) (lblk : Z)
    (body : Z -> Z -> list Z -> M St (scan A)) : M St (scan A) :=
  match n with
  | O => mret Continue
  | S n' =>
      let* r := ext2_get_block dir fs lblk false in
      match r.1 with
      | None => mret Error
      | Some phys =>
          if phys =? 0 then dir_blocks n' fs dir (lblk + 1) body else
          let* b := ext2_read_block fs phys in
          match b with
          | None => mret Error
          | Some buf =>
              let* r := body lblk phys buf in
              match r with
              | Continue => dir_blocks n' fs dir (lblk + 1) body
              | Found x => mret (Found x)
              | Error => mret Error
              end
          end
      end
  end.

(** ** Searching *)
Definition find_entry (name buf : list Z) (off rec : Z) : M St (scan Z) :=
  let* m := entry_is off name buf in
  if m : bool then (let* ino := e_inode off buf in mret (Found ino)) else mret Continue.

Definition ext2_dir_find fs (dir : ext2_inode_priv) (name : list Z) : M St (option Z) :=
  with_buf (block_size fs) None
    (let* r := dir_blocks (Z.to_nat (nblocks fs (p_size dir))) fs dir 0
                 (fun _ _ buf => entries (dir_fuel fs) fs buf 0 (find_entry name buf)) in
     mret (match r with Found ino => Some ino | _ => None end)).

(** ** Scanning from a cookie *)
Definition scan_entry fs (buf : list Z) (lblk start_off off rec : Z) : M St (scan ext2_dir_scan_t) :=
  if off <? start_off then mret Continue else
  let* ino := e_inode off buf in
  if ino =? 0 then mret Continue else
  let* nl0 := e_name_len off buf in
  let nl := if VFS_NAME_MAX <? nl0 then VFS_NAME_MAX else nl0 in
  let* name := lds (off + SIZEOF_DIRENT) nl buf in
  let* ty := e_file_type off buf in
  mret (Found (mkScan ino ty name (u32 (lblk * block_size fs + off + rec)))).

(** [None]: error; [Some None]: no entry at or after the cookie *)
Definition ext2_dir_scan fs (dir : ext2_inode_priv) (offset : Z) : M St (option (option ext2_dir_scan_t)) :=
  let start_blk := u32 (offset / block_size fs) in
  with_buf (block_size fs) None
    (let* r := dir_blocks (Z.to_nat (nblocks fs (p_size dir) - start_blk)) fs dir start_blk
                 (fun lblk _ buf =>
                    let start_off := if lblk =? start_blk then offset mod block_size fs else 0 in
                    entries (dir_fuel fs) fs buf start_off (scan_entry fs buf lblk start_off)) in
     mret (match r with
           | Error => None
           | Found sc => Some (Some sc)
           | Continue => Some None
           end)).

(** ** Adding *)

(** write the header fields and the name of a record; [rec_len] if given *)
Definition put_entry_at (off : Z) (rec_len : option Z) (ino file_type : Z) (name buf : list Z)
    : M St (list Z) :=
  let* buf := stf 4 off ino buf in
  let* buf := match rec_len with None => mret buf | Some r => stf 2 (off + 4) r buf end in
  let* buf := stf 1 (off + 6) (u8 (Z.of_nat (length name))) buf in
  let* buf := stf 1 (off + 7) file_type buf in
  stb (off + SIZEOF_DIRENT) name buf.

(** an unused record that is large enough is split *)
Definition use_slot (off rec need ino file_type : Z) (name buf : list Z) : M St (list Z) :=
  let rest := u16 (rec - need) in
  let* buf := (if SIZEOF_DIRENT <=? rest then
                 let* buf := stf 2 (off + 4) need buf in
                 let* buf := stf 4 (off + need) 0 buf in
                 let* buf := stf 2 (off + need + 4) rest buf in
                 let* buf := stf 1 (off + need + 6) 0 buf in
                 stf 1 (off + need + 7) 0 buf
               else mret buf) in
  put_entry_at off None ino file_type name buf.

(** the search for an unused record, remembering the last record seen *)
Fixpoint add_scan (fuel : nat) fs (buf : list Z) (off : Z) (last : option (Z * Z)) (need : Z)
    : M St (Z * Z + option (Z * Z)) :=
  match fuel with
  | O => nofuel
  | S fuel' =>
      if block_size fs <? off + SIZEOF_DIRENT then mret (inr last) else
      let* rec := e_rec_len off buf in
      if rec <? SIZEOF_DIRENT then mret (inr last) else
      let* ino := e_inode off buf in
      if (ino =? 0) && (need <=? rec) then mret (inl (off, rec)) else
      add_scan fuel' fs buf (off + rec) (Some (off, rec)) need
  end.

(** the tail of the last record of a block *)
Definition use_tail (last : option (Z * Z)) (need ino file_type : Z) (name buf : list Z)
    : M St (option (list Z)) :=
  match last with
  | None => mret None
  | Some (last_off, last_rec) =>
      let* nl := e_name_len last_off buf in
      let real_len := dirent_size nl in
      let tail := u16 (last_rec - real_len) in
      if tail <? need then mret None else
      let* buf := stf 2 (last_off + 4) real_len buf in
      let* buf := put_entry_at (last_off + real_len) (Some tail) ino file_type name buf in
      mret (Some buf)
  end.

Definition add_in_block fs (need ino file_type : Z) (name : list Z) (phys : Z) (buf : list Z)
    : M St (scan unit) :=
  let* r := add_scan (dir_fuel fs) fs buf 0 None need in
  let* nb := match r with
             | inl (off, rec) => let* b := use_slot off rec need ino file_type name buf in mret (Some b)
             | inr last => use_tail last need ino file_type name buf
             end in
  match nb with
  | None => mret Continue
  | Some buf' =>
      let* w := ext2_write_block fs phys buf' in
      if w <? 0 then mret Error else mret (Found tt)
  end.

Definition ext2_dir_add fs (dir : ext2_inode_priv) (name : list Z) (ino file_type : Z)
    : M St (Z * ext2_inode_priv) :=
  let need := dirent_size (Z.of_nat (length name)) in
  let max_blk := nblocks fs (p_size dir) in
  with_buf (block_size fs) (-1, dir)
    (let* r := dir_blocks (Z.to_nat max_blk) fs dir 0
                 (fun _ phys buf => add_in_block fs need ino file_type name phys buf) in
     match r with
     | Error => mret (-1, dir)
     | Found _ => mret (0, dir)
     | Continue =>
         let* r := ext2_get_block dir fs max_blk true in
         match r with
         | (None, dir') => mret (-1, dir')
         | (Some new_phys, dir') =>
             if new_phys =? 0 then mret (-1, dir') else
             let* buf := put_entry_at 0 (Some (u16 (block_size fs))) ino file_type name (zero_block fs) in
             let* w := ext2_write_block fs new_phys buf in
             if w <? 0 then mret (-1, dir') else
             mret (0, set_p_size (u32 (u32 (max_blk + 1) * block_size fs)) dir')
         end
     end).

(** ** Removing *)

(** the record before the one at [off] takes over its [rec] bytes *)
Fixpoint merge_prev (fuel : nat) (p off rec : Z) (buf : list Z) : M St (list Z) :=
  match fuel with
  | O => nofuel
  | S fuel' =>
      if off <=? p then mret buf else
      let* pr := e_rec_len p buf in
      if p + pr =? off then stf 2 (p + 4) (u16 (pr + rec)) buf
      else merge_prev fuel' (p + pr) off rec buf
  end.

Definition remove_entry fs (phys : Z) (name buf : list Z) (off rec : Z) : M St (scan unit) :=
  let* m := entry_is off name buf in
  if negb m then mret Continue else
  let* buf := (if off =? 0 then mret buf else merge_prev (dir_fuel fs) 0 off rec buf) in
  let* buf := stf 4 off 0 buf in
  let* w := ext2_write_block fs phys buf in
  if w <? 0 then mret Error else mret (Found tt).

Definition ext2_dir_remove fs (dir : ext2_inode_priv) (name : list Z) : M St Z :=
  with_buf (block_size fs) (-1)
    (let* r := dir_blocks (Z.to_nat (nblocks fs (p_size dir))) fs dir 0
                 (fun _ phys buf => entries (dir_fuel fs) fs buf 0 (remove_entry fs phys name buf)) in
     mret (match r with Found _ => 0 | _ => -1 end)).

(** ** Emptiness *)
Definition empty_entry (buf : list Z) (off rec : Z) : M St (scan unit) :=
  let* ino := e_inode off buf in
  if ino =? 0 then mret Continue else
  let* nl := e_name_len off buf in
  let* n0 := (if (nl =? 1) || (nl =? 2) then ldf 1 (off + SIZEOF_DIRENT) buf else mret 0) in
  let* n1 := (if (nl =? 2) && (n0 =? DOT) then ldf 1 (off + SIZEOF_DIRENT + 1) buf else mret 0) in
  if negb ((nl =? 1) && (n0 =? DOT)) && negb ((nl =? 2) && (n0 =? DOT) && (n1 =? DOT))
  then mret (Found tt) else mret Continue.

(** 1: empty, 0: not empty, -1: error *)
Definition ext2_dir_empty fs (dir : ext2_inode_priv) : M St Z :=
  with_buf (block_size fs) (-1)
    (let* r := dir_blocks (Z.to_nat (nblocks fs (p_size dir))) fs dir 0
                 (fun _ _ buf => entries (dir_fuel fs) fs buf 0 (empty_entry buf)) in
     mret (match r with Found _ => 0 | Error => -1 | Continue => 1 end)).

(** ** "." and ".." *)
Definition ext2_dir_init_dot fs (dir : ext2_inode_priv) (parent_ino : Z) : M St (Z * ext2_inode_priv) :=
  let* r := ext2_get_block dir fs 0 true in
  match r with
  | (None, dir') => mret (-1, dir')
  | (Some phys, dir') =>
      if phys =? 0 then mret (-1, dir') else
      let* buf := salloc (block_size fs) in
      if buf =? 0 then mret (-1, dir') else
      let* b := put_entry_at 0 (Some 12) (p_ino dir') EXT2_FT_DIR [DOT] (zero_block fs) in
      let* b := put_entry_at 12 (Some (u16 (block_size fs - 12))) parent_ino EXT2_FT_DIR [DOT; DOT] b in
      let* ret := ext2_write_block fs phys b in
      sfree buf ;;;
      mret (ret, set_p_size (block_size fs) dir')
  end.

End Dir.
