(* ===== verification/Ext2File.v ===== *)
(** ext2 files and the operations it registers with the VFS (fs/ext2.c):
    reading and writing data, the inode and file operations, mounting and
    unmounting.

    A VFS inode is a record with the addresses of its two heap objects; the
    operations take the inodes they are given and return them updated.  The
    null-pointer guards of the C functions have no counterpart here: the
    arguments are values.  [clk k] is the tick counter at the [k]-th call of
    [ext2_now] in an operation. *)
From stdpp Require Import base gmap list.
From Stdlib Require Import ZArith Lia.
From S2P Require Import Prelude Bytes HashMap BlockDev Ext2Cache Ext2 Ext2Dir.
Open Scope Z_scope.

Definition S_IFMT : Z := 0xF000.
Definition S_IFREG : Z := 0x8000.
Definition S_IFDIR : Z := 0x4000.
Definition S_IFLNK : Z := 0xA000.
Definition SIZEOF_VFS_INODE : Z := 224.
Definition SIZEOF_INODE_PRIV : Z := 100.
Definition SIZEOF_FS_PRIV : Z := 72.
Definition SIZEOF_SUPER_BLOCK : Z := 32.

Record inode := mkInode {
  in_ptr : Z;
  in_priv_ptr : Z;
  in_ino : Z;
  in_mode : Z;
  in_uid : Z;
  in_gid : Z;
  in_size : Z;
  in_private : ext2_inode_priv }.
Definition set_in_private (p : ext2_inode_priv) (i : inode) : inode :=
  mkInode (in_ptr i) (in_priv_ptr i) (in_ino i) (in_mode i) (in_uid i) (in_gid i) (in_size i) p.
Definition set_in_size (n : Z) (i : inode) : inode :=
  mkInode (in_ptr i) (in_priv_ptr i) (in_ino i) (in_mode i) (in_uid i) (in_gid i) n (in_private i).

Record super_block := mkSuper { sb_ptr : Z; sb_priv_ptr : Z; sb_root : inode }.

Record vfs_dirent := mkDirent { d_ino : Z; d_type : Z; d_name : list Z }.
Record vfs_kstat := mkStat {
  st_ino : Z; st_mode : Z; st_uid : Z; st_gid : Z; st_size : Z; st_nlink : Z; st_nblocks : Z;
  st_blksize : Z; st_atime : Z; st_mtime : Z; st_ctime : Z }.

Definition is_type (mode ty : Z) : bool := Z.land mode S_IFMT =? ty.

Section File.
Context {D H T : Type} `{DD : BlockDev D} `{HH : Heap H} `{BM : !BlockMap H T}.
Abbreviation St := (fs_state D H T).
Implicit Types (fs : ext2_fs_priv).

(** ** Inodes in memory *)
Definition ext2_inode_create (ino : Z) (di : list Z) : M St (option inode) :=
  let* i := salloc SIZEOF_VFS_INODE in
  let* q := salloc SIZEOF_INODE_PRIV in
  if (i =? 0) || (q =? 0) then
    (if i =? 0 then mret tt else sfree i) ;;;
    (if q =? 0 then mret tt else sfree q) ;;;
    mret None
  else
    let p := ext2_disk_to_priv di ino in
    mret (Some (mkInode i q ino (p_mode p) (p_uid p) (p_gid p) (p_size p) p)).
(** also what [inode_put] does with the last reference *)
Definition ext2_inode_destroy (i : inode) : M St unit :=
  (if in_priv_ptr i =? 0 then mret tt else sfree (in_priv_ptr i)) ;;; sfree (in_ptr i).

(** ** Data *)
Fixpoint read_loop (fuel : nat) fs (p : ext2_inode_priv) (pos remaining : Z) : M St (option (list Z)) :=
  match fuel with
  | O => nofuel
  | S fuel' =>
      if remaining <=? 0 then mret (Some []) else
      let lblk := u32 (pos / block_size fs) in
      let boff := pos mod block_size fs in
      let n := if remaining <? block_size fs - boff then remaining else block_size fs - boff in
      let* r := ext2_get_block p fs lblk false in
      match r.1 with
      | None => mret None
      | Some phys =>
          let* chunk := (if phys =? 0 then mret (Some (replicate (Z.to_nat n) 0)) else
                         let* b := ext2_read_block fs phys in
                         match b with
                         | None => mret None
                         | Some scratch => let* c := lds boff n scratch in mret (Some c)
                         end) in
          match chunk with
          | None => mret None
          | Some c =>
              let* rest := read_loop fuel' fs p (pos + n) (remaining - n) in
              mret (app c <$> rest)
          end
      end
  end.
(** every round but the last ends at a block boundary *)
Definition data_fuel fs (count : Z) : nat := Z.to_nat (count / block_size fs + 3).

Definition ext2_read_data fs (i : inode) (pos count : Z) : M St (option (list Z)) :=
  if in_size i <=? pos then mret (Some []) else
  let avail := in_size i - pos in
  let count := if avail <? count then u32 avail else count in
  with_buf (block_size fs) None (read_loop (data_fuel fs count) fs (in_private i) pos count).

(** the bytes of [buf] from [f - pos] on are still to be written *)
Fixpoint write_loop (fuel : nat) fs (p : ext2_inode_priv) (f : Z) (buf : list Z)
    : M St (bool * ext2_inode_priv) :=
  match fuel with
  | O => nofuel
  | S fuel' =>
      let left := Z.of_nat (length buf) in
      if left <=? 0 then mret (true, p) else
      let lblk := u32 (f / block_size fs) in
      let boff := f mod block_size fs in
      let n := if left <? block_size fs - boff then left else block_size fs - boff in
      let* r := ext2_get_block p fs lblk true in
      match r with
      | (None, p') => mret (false, p')
      | (Some phys, p') =>
          if phys =? 0 then mret (false, p') else
          let chunk := take (Z.to_nat n) buf in
          let* w := (if (boff =? 0) && (n =? block_size fs) then ext2_write_block fs phys chunk else
                     let* b := ext2_read_block fs phys in
                     match b with
                     | None => mret (-1)
                     | Some scratch =>
                         let* scratch' := stb boff chunk scratch in
                         ext2_write_block fs phys scratch'
                     end) in
          if w <? 0 then mret (false, p') else
          write_loop fuel' fs p' (f + n) (drop (Z.to_nat n) buf)
      end
  end.

(** [None] is -1; the inode is updated in either case *)
Definition ext2_write_data (clk : nat -> Z) fs (i : inode) (pos : Z) (buf : list Z)
    : M St (option Z * inode) :=
  let count := Z.of_nat (length buf) in
  let end_ := u64 (pos + count) in
  with_buf (block_size fs) (None, i)
    (let* r := write_loop (data_fuel fs count) fs (in_private i) pos buf in
     let '(ok, p) := r in
     if negb ok then mret (None, set_in_private p i) else
     let grown := in_size i <? end_ in
     let p := if grown then set_p_size (u32 end_) p else p in
     let i := if grown then set_in_size end_ i else i in
     let p := set_p_times (ext2_now (clk 0%nat)) (ext2_now (clk 0%nat)) p in
     if (0 <? count) || grown then
       let* p := ext2_refresh_i_blocks fs p in
       let* w := ext2_priv_save fs p in
       if w <? 0 then mret (None, set_in_private p i) else mret (Some count, set_in_private p i)
     else mret (Some count, set_in_private p i)).

(** ** File operations; [pos] is [file->pos] *)
Definition ext2_read fs (i : inode) (pos count : Z) : M St (option (list Z)) :=
  if negb (is_type (in_mode i) S_IFREG) then mret None else
  if count =? 0 then mret (Some []) else
  let count := if 0xFFFFFFFF <? count then 0xFFFFFFFF else count in
  ext2_read_data fs i pos count.
Definition ext2_write (clk : nat -> Z) fs (i : inode) (pos : Z) (buf : list Z) : M St (option Z * inode) :=
  if negb (is_type (in_mode i) S_IFREG) then mret (None, i) else
  if Z.of_nat (length buf) =? 0 then mret (Some 0, i) else
  let* r := ext2_write_data clk fs i pos (take (Z.to_nat 0xFFFFFFFF) buf) in
  match r.1 with
  | None => mret r
  | Some n => ext2_cache_flush fs ;;; mret r
  end.
Definition SEEK_SET : Z := 0.
Definition SEEK_CUR : Z := 1.
Definition SEEK_END : Z := 2.
Definition ext2_seek (i : inode) (pos offset whence : Z) : option Z :=
  let npos :=
    if whence =? SEEK_SET then Some offset
    else if whence =? SEEK_CUR then Some (s64 (s64 pos + offset))
    else if whence =? SEEK_END then Some (s64 (s64 (in_size i) + offset))
    else None in
  match npos with
  | None => None
  | Some n => if n <? 0 then None else Some n
  end.
Definition ext2_close : Z := 0.

(** ** Inode operations *)
Definition ext2_lookup fs (dir : inode) (name : list Z) : M St (option inode) :=
  if negb (is_type (in_mode dir) S_IFDIR) then mret None else
  if bool_decide (name = [DOT]) || bool_decide (name = [DOT; DOT]) then mret None else
  if VFS_NAME_MAX <? Z.of_nat (length name) then mret None else
  let* r := ext2_dir_find fs (in_private dir) name in
  match r with
  | None => mret None
  | Some ino =>
      let* r := ext2_inode_read fs ino in
      match r with
      | None => mret None
      | Some di => ext2_inode_create ino di
      end
  end.

(** a new inode record: mode, size, times and link count on zeroes *)
Definition new_record (mode size now links : Z) : list Z :=
  let di := replicate 128 0 in
  let di := set_field 2 0 (u16 mode) di in
  let di := set_field 4 4 size di in
  let di := set_field 4 8 now di in
  let di := set_field 4 12 now di in
  let di := set_field 4 16 now di in
  set_field 2 26 links di.

Definition name_ok (name : list Z) : bool :=
  negb (Z.of_nat (length name) =? 0) && negb (VFS_NAME_MAX <? Z.of_nat (length name)).

(** create and mkdir start alike: refuse a name that exists, take an inode,
    write its record and enter it in the directory; [None] is -1 *)
Definition new_inode fs (dir : ext2_inode_priv) (name di : list Z) (file_type : Z)
    : M St (option Z * ext2_inode_priv) :=
  let* r := ext2_dir_find fs dir name in
  match r with
  | Some _ => mret (None, dir)
  | None =>
      let* r := ext2_alloc_inode fs in
      match r with
      | None => mret (None, dir)
      | Some new_ino =>
          let* w := ext2_inode_write fs new_ino di in
          if w <? 0 then ext2_free_inode fs new_ino ;;; mret (None, dir) else
          let* r := ext2_dir_add fs dir name new_ino file_type in
          if r.1 <? 0 then ext2_free_inode fs new_ino ;;; mret (None, r.2)
          else mret (Some new_ino, r.2)
      end
  end.

Definition ext2_create (clk : nat -> Z) fs (dir : inode) (name : list Z) (mode0 : Z)
    : M St (option inode * inode) :=
  let mode := if is_type mode0 0 then Z.lor mode0 S_IFREG else mode0 in
  if negb (is_type mode S_IFREG) then mret (None, dir) else
  if negb (name_ok name) then mret (None, dir) else
  let now := ext2_now (clk 0%nat) in
  let di := new_record (Z.lor S_IFREG (Z.land mode 0x1FF)) 0 now 1 in
  let* r := new_inode fs (in_private dir) name di EXT2_FT_REG_FILE in
  match r with
  | (None, dp) => mret (None, set_in_private dp dir)
  | (Some new_ino, dp) =>
      let* dp := ext2_refresh_i_blocks fs (set_p_times now now dp) in
      ext2_priv_save fs dp ;;;
      let dir := set_in_private dp dir in
      let* ni := ext2_inode_create new_ino di in
      match ni with
      | None => ext2_free_inode fs new_ino ;;; mret (None, dir)
      | Some ni => ext2_cache_flush fs ;;; mret (Some ni, dir)
      end
  end.

(** undo a directory that could not be completed *)
Definition mkdir_rollback fs (dp : ext2_inode_priv) (name : list Z) (ni : inode) (ino : Z) : M St unit :=
  ext2_inode_destroy ni ;;; ext2_dir_remove fs dp name ;;; ext2_free_inode fs ino ;;; mret tt.

Definition ext2_mkdir (clk : nat -> Z) fs (dir : inode) (name : list Z) (mode : Z)
    : M St (option inode * inode) :=
  if negb (is_type mode S_IFDIR) then mret (None, dir) else
  if negb (name_ok name) then mret (None, dir) else
  let now := ext2_now (clk 0%nat) in
  let di := new_record (Z.lor S_IFDIR (Z.land mode 0x1FF)) (block_size fs) now 2 in
  let* r := new_inode fs (in_private dir) name di EXT2_FT_DIR in
  match r with
  | (None, dp) => mret (None, set_in_private dp dir)
  | (Some new_ino, dp) =>
      let* ni := ext2_inode_create new_ino di in
      match ni with
      | None => ext2_free_inode fs new_ino ;;; mret (None, set_in_private dp dir)
      | Some ni =>
          let* r := ext2_dir_init_dot fs (in_private ni) (p_ino dp) in
          if r.1 <? 0 then
            mkdir_rollback fs dp name ni new_ino ;;; mret (None, set_in_private dp dir)
          else
          let* np := ext2_refresh_i_blocks fs r.2 in
          let* w := ext2_priv_save fs np in
          if w <? 0 then
            mkdir_rollback fs dp name ni new_ino ;;; mret (None, set_in_private dp dir)
          else
          let dp := set_p_times now now (set_p_links_count (u32 (p_links_count dp + 1)) dp) in
          let* dp := ext2_refresh_i_blocks fs dp in
          ext2_priv_save fs dp ;;;
          ext2_cache_flush fs ;;;
          mret (Some (set_in_private np ni), set_in_private dp dir)
      end
  end.

Definition ext2_unlink (clk : nat -> Z) fs (dir : inode) (name : list Z) : M St (Z * inode) :=
  if negb (name_ok name) then mret (-1, dir) else
  let dp := in_private dir in
  let* r := ext2_dir_find fs dp name in
  match r with
  | None => mret (-1, dir)
  | Some ino =>
      let* r := ext2_inode_read fs ino in
      match r with
      | None => mret (-1, dir)
      | Some di =>
          if is_type (di_mode di) S_IFDIR then mret (-1, dir) else
          let* r := ext2_dir_remove fs dp name in
          if r <? 0 then mret (-1, dir) else
          ext2_free_all_blocks fs (ext2_disk_to_priv di ino) ;;;
          let links := if 0 <? di_links_count di then di_links_count di - 1 else di_links_count di in
          let di := set_di_dtime (ext2_now (clk 0%nat)) (set_di_links_count links di) in
          let* w := ext2_inode_write fs ino di in
          if w <? 0 then mret (-1, dir) else
          (if di_links_count di =? 0 then ext2_free_inode fs ino ;;; mret tt else mret tt) ;;;
          let now := ext2_now (clk 1%nat) in
          let dp := set_p_times now now dp in
          ext2_priv_save fs dp ;;;
          ext2_cache_flush fs ;;;
          mret (0, set_in_private dp dir)
      end
  end.

Definition ext2_rmdir (clk : nat -> Z) fs (dir : inode) (name : list Z) : M St (Z * inode) :=
  if negb (name_ok name) then mret (-1, dir) else
  let dp := in_private dir in
  let* r := ext2_dir_find fs dp name in
  match r with
  | None => mret (-1, dir)
  | Some ino =>
      let* r := ext2_inode_read fs ino in
      match r with
      | None => mret (-1, dir)
      | Some di =>
          if negb (is_type (di_mode di) S_IFDIR) then mret (-1, dir) else
          let target := ext2_disk_to_priv di ino in
          if 2 <? di_links_count di then mret (-1, dir) else
          let* e := ext2_dir_empty fs target in
          if negb (e =? 1) then mret (-1, dir) else
          let* r := ext2_dir_remove fs dp name in
          if r <? 0 then mret (-1, dir) else
          ext2_free_all_blocks fs target ;;;
          let di := set_di_links_count 0 (set_di_dtime (ext2_now (clk 0%nat)) di) in
          let* w := ext2_inode_write fs ino di in
          if w <? 0 then mret (-1, dir) else
          ext2_free_inode fs ino ;;;
          let links := if 0 <? p_links_count dp then p_links_count dp - 1 else p_links_count dp in
          let now := ext2_now (clk 1%nat) in
          let dp := set_p_times now now (set_p_links_count links dp) in
          ext2_priv_save fs dp ;;;
          ext2_cache_flush fs ;;;
          mret (0, set_in_private dp dir)
      end
  end.

(** the entry and the next cookie; [None] at the end or on error *)
Definition ext2_readdir fs (dir : inode) (offset : Z) : M St (option (vfs_dirent * Z)) :=
  if negb (is_type (in_mode dir) S_IFDIR) then mret None else
  let* r := ext2_dir_scan fs (in_private dir) offset in
  match r with
  | None | Some None => mret None
  | Some (Some sc) =>
      let ty := if sc_type sc =? EXT2_FT_DIR then S_IFDIR
                else if sc_type sc =? EXT2_FT_REG_FILE then S_IFREG
                else if sc_type sc =? EXT2_FT_SYMLINK then S_IFLNK
                else S_IFREG in
      mret (Some (mkDirent (sc_ino sc) ty (sc_name sc), sc_next_off sc))
  end.

Definition ext2_getattr fs (i : inode) : vfs_kstat :=
  let p := in_private i in
  mkStat (in_ino i) (in_mode i) (in_uid i) (in_gid i) (in_size i) (p_links_count p)
    (u64 (in_size i + 511) / 512) (block_size fs) (p_atime p) (p_mtime p) (p_ctime p).

(** the loop of [ext2_truncate] over the blocks past the new end *)
Fixpoint truncate_loop (n : nat) fs (p : ext2_inode_priv) (lblk : Z) : M St (bool * ext2_inode_priv) :=
  match n with
  | O => mret (true, p)
  | S n' =>
      let* r := ext2_get_block p fs lblk false in
      match r.1 with
      | None => mret (false, p)
      | Some phys =>
          if phys =? 0 then truncate_loop n' fs p (lblk + 1) else
          ext2_free_block fs phys ;;;
          truncate_loop n' fs (if lblk <? 12 then set_p_block (Z.to_nat lblk) 0 p else p) (lblk + 1)
      end
  end.
Definition ext2_truncate (clk : nat -> Z) fs (i : inode) (size : Z) : M St (Z * inode) :=
  if negb (is_type (in_mode i) S_IFREG) then mret (-1, i) else
  let p := in_private i in
  let old_blocks := nblocks fs (p_size p) in
  let new_blocks := u32 (u64 (size + block_size fs - 1) / block_size fs) in
  let* r := (if new_blocks <? old_blocks then
               let* r := truncate_loop (Z.to_nat (old_blocks - new_blocks)) fs p new_blocks in
               if negb r.1 then mret r else
               if new_blocks =? 0 then
                 let* f := ext2_free_all_blocks fs r.2 in mret (true, f.2)
               else mret r
             else mret (true, p)) in
  let '(ok, p) := r in
  if negb ok then mret (-1, set_in_private p i) else
  let p := set_p_times (ext2_now (clk 1%nat)) (ext2_now (clk 0%nat)) (set_p_size (u32 size) p) in
  let i := set_in_size size i in
  let* p := ext2_refresh_i_blocks fs p in
  let i := set_in_private p i in
  let* w := ext2_priv_save fs p in
  if w <? 0 then mret (-1, i) else
  ext2_cache_flush fs ;;;
  mret (0, i).

(** ** Mounting and unmounting *)

(** two sectors at byte 1024 *)
Definition read_super_sectors : M St (option (list Z)) :=
  let* r1 := on_dev (dev_read 2) in
  if r1.1 <? 0 then mret None else
  let* r2 := on_dev (dev_read 3) in
  if r2.1 <? 0 then mret None else
  mret (Some (r1.2 ++ r2.2)).

(** the parameters of the mount, or [None] when the superblock is refused;
    the shift count of [1024u << s_log_block_size] is taken modulo 32, as the
    hardware does.  The divisions by the group sizes, unchecked in the code,
    are [fault] in [ext2_get_super] when a size is 0. *)
Definition parse_super (sb : list Z) : option ext2_fs_priv :=
  if negb (s_magic sb =? EXT2_MAGIC) then None else
  if 1 <? s_rev_level sb then None else
  let block_size := u32 (Z.shiftl 1024 (s_log_block_size sb mod 32)) in
  if EXT2_MAX_BLOCK_SIZE <? block_size then None else
  let first := if block_size =? 1024 then 1 else 0 in
  let ngroups := u32 (u32 (u32 (s_blocks_count sb - s_first_data_block sb) + s_blocks_per_group sb) - 1)
                 / s_blocks_per_group sb in
  let isize := if (s_rev_level sb =? 0) || (s_inode_size sb =? 0) then EXT2_INODE_SIZE_DEFAULT
               else s_inode_size sb in
  Some (mkPriv block_size (s_inodes_per_group sb) (s_blocks_per_group sb) isize ngroups
          (s_inodes_count sb) (s_blocks_count sb) first (block_size / 4)).

Definition inode_size_bad fs : bool :=
  (inode_size fs <? EXT2_INODE_SIZE_DEFAULT) || (block_size fs <? inode_size fs)
  || negb (Z.land (inode_size fs) (inode_size fs - 1) =? 0).

Definition ext2_get_super : M St (option (ext2_fs_priv * super_block)) :=
  let* r := read_super_sectors in
  match r with
  | None => mret None
  | Some sb =>
      match parse_super sb with
      | None => mret None
      | Some fs =>
          if blocks_per_group fs =? 0 then fault else
          let* q := salloc SIZEOF_FS_PRIV in
          if q =? 0 then mret None else
          if inode_size_bad fs then sfree q ;;; mret None else
          modify (set_free_inodes (s_free_inodes_count sb)) ;;;
          modify (set_free_blocks (s_free_blocks_count sb)) ;;;
          let* c := ext2_cache_init in
          if c <? 0 then sfree q ;;; mret None else
          let* s := salloc SIZEOF_SUPER_BLOCK in
          if s =? 0 then ext2_cache_destroy ;;; sfree q ;;; mret None else
          if inodes_per_group fs =? 0 then fault else
          let* r := ext2_inode_read fs EXT2_ROOT_INO in
          let fail := sfree s ;;; ext2_cache_destroy ;;; sfree q ;;; mret None in
          match r with
          | None => fail
          | Some di =>
              let* root := ext2_inode_create EXT2_ROOT_INO di in
              match root with
              | None => fail
              | Some root =>
                  if negb (is_type (in_mode root) S_IFDIR) then ext2_inode_destroy root ;;; fail
                  else mret (Some (fs, mkSuper s q root))
              end
          end
      end
  end.

Definition ext2_kill_sb fs (sb : super_block) : M St unit :=
  ext2_inode_destroy (sb_root sb) ;;;
  ext2_cache_flush fs ;;;
  ext2_cache_destroy ;;;
  sfree (sb_priv_ptr sb) ;;;
  sfree (sb_ptr sb).

End File.
