(* ===== verification/Ext2Strict.v ===== *)
(** The operations of fs/ext2.c in runs where nothing fails: on the strict
    device and heap, with the kernel's hash table on that heap, every operation
    refines the same operation on the device and the heap themselves. *)
From stdpp Require Import base gmap list.
From Stdlib Require Import ZArith Lia.
From S2P Require Import Prelude Bytes HashMap HashMapSpec BlockDev Strict Ext2Cache Ext2CacheSpec Ext2 Ext2Logic Ext2Dir Ext2File.
Open Scope Z_scope.

Section Strict.
Context {D H : Type} {DD : BlockDev D} {HH : Heap H}.
Abbreviation St := (fs_state D H hash_table).
Abbreviation SD := (strict_dev DD).
Abbreviation SH := (strict_heap HH).
Abbreviation SB := (hash_block_map (HH := SH)).

Lemma s_salloc n : refines (salloc (D := D) (T := hash_table) (HH := SH) n) (salloc n).
Proof. unfold salloc, on_heap. refine_all. Qed.
Lemma s_sfree p : refines (sfree (D := D) (T := hash_table) (HH := SH) p) (sfree p).
Proof. unfold sfree, on_heap. refine_all. Qed.
#[local] Hint Resolve s_salloc s_sfree : strict.
Lemma s_with_buf {A} n (fail : A) (b1 b2 : M St A) : refines b1 b2 -> refines (with_buf (HH := SH) n fail b1) (with_buf n fail b2).
Proof. intros Hb. unfold with_buf. refine_all. Qed.
#[local] Hint Extern 2 (refines (with_buf _ _ _) _) => apply s_with_buf; refine_all : strict.
Lemma s_read_sectors n s : refines (read_sectors (DD := SD) n s) (read_sectors n s).
Proof. revert s; induction n as [|n IH]; intros; cbn [read_sectors]; refine_all. Qed.
Lemma s_write_sectors n s buf : refines (write_sectors (DD := SD) n s buf) (write_sectors n s buf).
Proof. revert s buf; induction n as [|n IH]; intros; cbn [write_sectors]; refine_all. Qed.
#[local] Hint Resolve s_read_sectors s_write_sectors : strict.
Lemma s_read_raw fs b : refines (ext2_disk_read_raw (D := D) (H := H) (T := hash_table) (DD := SD) fs b) (ext2_disk_read_raw fs b).
Proof. unfold ext2_disk_read_raw, on_dev. refine_all. Qed.
Lemma s_write_raw fs b buf : refines (ext2_disk_write_raw (D := D) (H := H) (T := hash_table) (DD := SD) fs b buf) (ext2_disk_write_raw fs b buf).
Proof. unfold ext2_disk_write_raw, on_dev. refine_all. Qed.
#[local] Hint Resolve s_read_raw s_write_raw : strict.
Lemma s_flush_batch fs n k : refines (flush_batch (D := D) (H := H) (T := hash_table) (DD := SD) fs n k) (flush_batch fs n k).
Proof. revert k; induction n as [|p n IH]; intros; cbn [flush_batch]; refine_all. Qed.
#[local] Hint Resolve s_flush_batch : strict.
Lemma s_flush_loop n fs t r : refines (flush_loop (DD := SD) (HH := SH) (BM := SB) n fs t r) (flush_loop (D := D) n fs t r).
Proof. revert r; induction n as [|n IH]; intros; cbn [flush_loop]; [apply refines_refl|].
  change (bm_values (BlockMap := SB) t) with (bm_values t). refine_all.
Qed.
#[local] Hint Resolve s_flush_loop : strict.
Lemma s_cache_flush fs : refines (ext2_cache_flush (DD := SD) (HH := SH) (BM := SB) fs) (ext2_cache_flush (D := D) fs).
Proof. unfold ext2_cache_flush. refine_all. Qed.
#[local] Hint Resolve s_cache_flush : strict.
Lemma s_table_insert t b e : refines (table_insert (HH := SH) (BM := SB) t b e) (table_insert (D := D) t b e).
Proof. unfold table_insert, on_heap. refine_all. Qed.
#[local] Hint Resolve s_table_insert : strict.
Lemma s_release e p : refines (release_entry (D := D) (T := hash_table) (HH := SH) e p) (release_entry e p).
Proof. unfold release_entry. refine_all. Qed.
#[local] Hint Resolve s_release : strict.
Lemma s_read_block fs b : refines (ext2_read_block (DD := SD) (HH := SH) (BM := SB) fs b) (ext2_read_block (D := D) fs b).
Proof.
  unfold ext2_read_block, on_heap. refine_step; [refine_step|]. intros [t|]; [|refine_all].
  change (bm_lookup (BlockMap := SB) t b) with (bm_lookup t b). refine_all.
Qed.
Lemma s_write_block fs b buf : refines (ext2_write_block (DD := SD) (HH := SH) (BM := SB) fs b buf) (ext2_write_block (D := D) fs b buf).
Proof.
  unfold ext2_write_block. refine_step; [refine_step|]. intros [t|]; [|refine_all].
  change (bm_lookup (BlockMap := SB)) with (bm_lookup (BlockMap := hash_block_map)). refine_all.
Qed.
#[local] Hint Resolve s_read_block s_write_block : strict.
Lemma s_with_block {A} fs b (fail : A) k1 k2 : (forall buf, refines (k1 buf) (k2 buf)) ->
  refines (with_block (DD := SD) (HH := SH) (BM := SB) fs b fail k1) (with_block (D := D) fs b fail k2).
Proof. intros Hk. unfold with_block. refine_all. Qed.
#[local] Hint Extern 2 (refines (with_block _ _ _ _) _) => apply s_with_block; refine_all : strict.
Lemma s_load_super fs : refines (ext2_load_super (DD := SD) (HH := SH) (BM := SB) fs) (ext2_load_super (D := D) fs).
Proof. unfold ext2_load_super. refine_all. Qed.
#[local] Hint Resolve s_load_super : strict.
Lemma s_save_super fs sb : refines (ext2_save_super (DD := SD) (HH := SH) (BM := SB) fs sb) (ext2_save_super (D := D) fs sb).
Proof. unfold ext2_save_super. refine_all. Qed.
#[local] Hint Resolve s_save_super : strict.
Lemma s_load_bg fs g : refines (ext2_load_bg (DD := SD) (HH := SH) (BM := SB) fs g) (ext2_load_bg (D := D) fs g).
Proof. unfold ext2_load_bg. refine_all. Qed.
#[local] Hint Resolve s_load_bg : strict.
Lemma s_save_bg fs g bg : refines (ext2_save_bg (DD := SD) (HH := SH) (BM := SB) fs g bg) (ext2_save_bg (D := D) fs g bg).
Proof. unfold ext2_save_bg. refine_all. Qed.
#[local] Hint Resolve s_save_bg : strict.
Lemma s_bitmap_test fs b i : refines (ext2_bitmap_test (DD := SD) (HH := SH) (BM := SB) fs b i) (ext2_bitmap_test (D := D) fs b i).
Proof. unfold ext2_bitmap_test. refine_all. Qed.
#[local] Hint Resolve s_bitmap_test : strict.
Lemma s_bitmap_set fs b i : refines (ext2_bitmap_set (DD := SD) (HH := SH) (BM := SB) fs b i) (ext2_bitmap_set (D := D) fs b i).
Proof. unfold ext2_bitmap_set. refine_all. Qed.
#[local] Hint Resolve s_bitmap_set : strict.
Lemma s_bitmap_clear fs b i : refines (ext2_bitmap_clear (DD := SD) (HH := SH) (BM := SB) fs b i) (ext2_bitmap_clear (D := D) fs b i).
Proof. unfold ext2_bitmap_clear. refine_all. Qed.
#[local] Hint Resolve s_bitmap_clear : strict.
Lemma s_inode_read fs ino : refines (ext2_inode_read (DD := SD) (HH := SH) (BM := SB) fs ino) (ext2_inode_read (D := D) fs ino).
Proof. unfold ext2_inode_read. refine_all. Qed.
#[local] Hint Resolve s_inode_read : strict.
Lemma s_inode_write fs ino di : refines (ext2_inode_write (DD := SD) (HH := SH) (BM := SB) fs ino di) (ext2_inode_write (D := D) fs ino di).
Proof. unfold ext2_inode_write. refine_all. Qed.
#[local] Hint Resolve s_inode_write : strict.
Lemma s_alloc_block_bits n fs g bg i : refines (alloc_block_bits (DD := SD) (HH := SH) (BM := SB) n fs g bg i) (alloc_block_bits (D := D) n fs g bg i).
Proof. revert g bg i; induction n as [|n IH]; intros; cbn [alloc_block_bits]; refine_all. Qed.
#[local] Hint Resolve s_alloc_block_bits : strict.
Lemma s_alloc_block_groups n fs g : refines (alloc_block_groups (DD := SD) (HH := SH) (BM := SB) n fs g) (alloc_block_groups (D := D) n fs g).
Proof. revert g; induction n as [|n IH]; intros; cbn [alloc_block_groups]; refine_all. Qed.
#[local] Hint Resolve s_alloc_block_groups : strict.
Lemma s_alloc_block fs : refines (ext2_alloc_block (DD := SD) (HH := SH) (BM := SB) fs) (ext2_alloc_block (D := D) fs).
Proof. unfold ext2_alloc_block. refine_all. Qed.
#[local] Hint Resolve s_alloc_block : strict.
Lemma s_free_block fs b : refines (ext2_free_block (DD := SD) (HH := SH) (BM := SB) fs b) (ext2_free_block (D := D) fs b).
Proof. unfold ext2_free_block. refine_all. Qed.
#[local] Hint Resolve s_free_block : strict.
Lemma s_alloc_zero_block fs : refines (ext2_alloc_zero_block (DD := SD) (HH := SH) (BM := SB) fs) (ext2_alloc_zero_block (D := D) fs).
Proof. unfold ext2_alloc_zero_block. refine_all. Qed.
#[local] Hint Resolve s_alloc_zero_block : strict.
Lemma s_ind_get fs b i : refines (ext2_ind_get (DD := SD) (HH := SH) (BM := SB) fs b i) (ext2_ind_get (D := D) fs b i).
Proof. unfold ext2_ind_get. refine_all. Qed.
#[local] Hint Resolve s_ind_get : strict.
Lemma s_ind_set fs b i v : refines (ext2_ind_set (DD := SD) (HH := SH) (BM := SB) fs b i v) (ext2_ind_set (D := D) fs b i v).
Proof. unfold ext2_ind_set. refine_all. Qed.
#[local] Hint Resolve s_ind_set : strict.
Lemma s_ind_slot fs b i : refines (ind_slot (DD := SD) (HH := SH) (BM := SB) fs b i) (ind_slot (D := D) fs b i).
Proof. unfold ind_slot. refine_all. Qed.
#[local] Hint Resolve s_ind_slot : strict.
Lemma s_ind_peek fs b i : refines (ind_peek (DD := SD) (HH := SH) (BM := SB) fs b i) (ind_peek (D := D) fs b i).
Proof. unfold ind_peek. refine_all. Qed.
#[local] Hint Resolve s_ind_peek : strict.
Lemma s_slot_alloc fs p i : refines (slot_alloc (DD := SD) (HH := SH) (BM := SB) fs p i) (slot_alloc (D := D) fs p i).
Proof. unfold slot_alloc. refine_all. Qed.
#[local] Hint Resolve s_slot_alloc : strict.
Lemma s_get_block p fs l a : refines (ext2_get_block (DD := SD) (HH := SH) (BM := SB) p fs l a) (ext2_get_block (D := D) p fs l a).
Proof. unfold ext2_get_block. refine_all. Qed.
#[local] Hint Resolve s_get_block : strict.
Lemma s_count_blocks n p fs l u : refines (count_blocks (DD := SD) (HH := SH) (BM := SB) n p fs l u) (count_blocks (D := D) n p fs l u).
Proof. revert p l u; induction n as [|n IH]; intros; cbn [count_blocks]; refine_all. Qed.
#[local] Hint Resolve s_count_blocks : strict.
Lemma s_refresh_i_blocks fs p : refines (ext2_refresh_i_blocks (DD := SD) (HH := SH) (BM := SB) fs p) (ext2_refresh_i_blocks (D := D) fs p).
Proof. unfold ext2_refresh_i_blocks. refine_all. Qed.
#[local] Hint Resolve s_refresh_i_blocks : strict.
Lemma s_priv_save fs p : refines (ext2_priv_save (DD := SD) (HH := SH) (BM := SB) fs p) (ext2_priv_save (D := D) fs p).
Proof. unfold ext2_priv_save. refine_all. Qed.
#[local] Hint Resolve s_priv_save : strict.
Lemma s_dir_blocks {A} n fs p l (k1 k2 : Z -> Z -> list Z -> M St (scan A)) : (forall l b buf, refines (k1 l b buf) (k2 l b buf)) ->
  refines (dir_blocks (DD := SD) (HH := SH) (BM := SB) n fs p l k1) (dir_blocks (D := D) n fs p l k2).
Proof. intros Hk. revert l; induction n as [|n IH]; intros; cbn [dir_blocks]; refine_all. Qed.
#[local] Hint Extern 2 (refines (dir_blocks _ _ _ _ _) _) => apply s_dir_blocks; refine_all : strict.
Lemma s_dir_find fs dir name : refines (ext2_dir_find (DD := SD) (HH := SH) (BM := SB) fs dir name) (ext2_dir_find (D := D) fs dir name).
Proof. unfold ext2_dir_find. refine_all. Qed.
#[local] Hint Resolve s_dir_find : strict.
Lemma s_add_in_block fs need ino ty name b buf : refines (add_in_block (DD := SD) (HH := SH) (BM := SB) fs need ino ty name b buf) (add_in_block (D := D) fs need ino ty name b buf).
Proof. unfold add_in_block. refine_all. Qed.
#[local] Hint Resolve s_add_in_block : strict.
Lemma s_dir_add fs dir name ino ty : refines (ext2_dir_add (DD := SD) (HH := SH) (BM := SB) fs dir name ino ty) (ext2_dir_add (D := D) fs dir name ino ty).
Proof. unfold ext2_dir_add. refine_all. Qed.
#[local] Hint Resolve s_dir_add : strict.
Lemma s_entries {A} n fs buf off (k1 k2 : Z -> Z -> M St (scan A)) : (forall off rec, refines (k1 off rec) (k2 off rec)) ->
  refines (entries (D := D) (H := H) n fs buf off k1) (entries n fs buf off k2).
Proof. intros Hk. revert off; induction n as [|n IH]; intros; cbn [entries]; refine_all. Qed.
#[local] Hint Extern 2 (refines (entries _ _ _ _ _) _) => apply s_entries; refine_all : strict.
Lemma s_remove_entry fs b name buf off rec : refines (remove_entry (DD := SD) (HH := SH) (BM := SB) fs b name buf off rec) (remove_entry (D := D) fs b name buf off rec).
Proof. unfold remove_entry. refine_all. Qed.
#[local] Hint Resolve s_remove_entry : strict.
Lemma s_dir_remove fs dir name : refines (ext2_dir_remove (DD := SD) (HH := SH) (BM := SB) fs dir name) (ext2_dir_remove (D := D) fs dir name).
Proof. unfold ext2_dir_remove. refine_all. Qed.
#[local] Hint Resolve s_dir_remove : strict.
Lemma s_dir_empty fs dir : refines (ext2_dir_empty (DD := SD) (HH := SH) (BM := SB) fs dir) (ext2_dir_empty (D := D) fs dir).
Proof. unfold ext2_dir_empty. refine_all. Qed.
#[local] Hint Resolve s_dir_empty : strict.
Lemma s_read_loop n fs p pos r : refines (read_loop (DD := SD) (HH := SH) (BM := SB) n fs p pos r) (read_loop (D := D) n fs p pos r).
Proof. revert p pos r; induction n as [|n IH]; intros; cbn [read_loop]; refine_all. Qed.
#[local] Hint Resolve s_read_loop : strict.
Lemma s_read_data fs i pos count : refines (ext2_read_data (DD := SD) (HH := SH) (BM := SB) fs i pos count) (ext2_read_data (D := D) fs i pos count).
Proof. unfold ext2_read_data. refine_all. Qed.
#[local] Hint Resolve s_read_data : strict.
Lemma s_write_loop n fs p f buf : refines (write_loop (DD := SD) (HH := SH) (BM := SB) n fs p f buf) (write_loop (D := D) n fs p f buf).
Proof. revert p f buf; induction n as [|n IH]; intros; cbn [write_loop]; refine_all. Qed.
#[local] Hint Resolve s_write_loop : strict.
Lemma s_write_data clk fs i pos buf : refines (ext2_write_data (DD := SD) (HH := SH) (BM := SB) clk fs i pos buf) (ext2_write_data (D := D) clk fs i pos buf).
Proof. unfold ext2_write_data. refine_all. Qed.
#[local] Hint Resolve s_write_data : strict.

(** ** The invariant of the cache does not see the difference *)
Lemma strict_owns (L : gset Z) (h : H) l : owns (HH := SH) L h l <-> owns L h l.
Proof. split; intros []; by split. Qed.
Lemma strict_rep (L : gset Z) (h : H) t m : bm_rep (HH := SH) L h t m <-> bm_rep L h t m.
Proof.
  simpl. unfold block_table_rep. apply and_iff_compat_r.
  split; intros [T0 O]; (split; [done|]); by apply strict_owns.
Qed.
Lemma strict_inv fs L (st : St) : fs_inv (DD := SD) (HH := SH) (BM := SB) fs L st <-> fs_inv fs L st.
Proof.
  split; intros (t & m & [A1 A2 A3 A4 A5 A6]); exists t, m; split; try done; by apply strict_rep.
Qed.

(** ** The logic on clean runs

    As [triple], of the run from a state that shows [a], if it is clean.  The
    table of the cache is the kernel's hash table, on the same heap. *)
Definition etriple {A} fs (a : astate) (m : BlockDev D -> Heap H -> M St A) (R : A -> astate -> Prop) : Prop :=
  forall L st, fs_inv fs L st -> models fs st a -> clean m st ->
    wp (m DD HH) (fun r st' => fs_inv fs L st' /\ exists a', models fs st' a' /\ R r a') st.
Lemma etriple_intro {A} fs a (m : BlockDev D -> Heap H -> M St A) R : refines (m SD SH) (m DD HH) ->
  triple (DD := SD) (HH := SH) (BM := SB) fs a (m SD SH) R -> etriple fs a m R.
Proof.
  intros Hr W L st I Mo Hc. eapply clean_wp; [done|done|]. apply strict_inv in I. eapply wp_conseq; [by apply (W L st)|].
  intros r st' (I' & a' & Mo' & HR). split; [by apply strict_inv|]. by exists a'.
Qed.

(** nothing fails on the strict instances *)
Lemma strict_ext2 : @reliable D H SD SH.
Proof. split; [apply strict_reads|apply strict_allocs]. Qed.
End Strict.
#[export] Hint Resolve s_read_block s_write_block s_cache_flush s_alloc_block s_free_block s_get_block s_read_data s_write_data s_dir_find s_dir_add s_dir_remove s_dir_empty s_inode_read s_priv_save : strict.
