(* ===== verification/Ext2Data.v ===== *)
(** File contents: [ext2_read_data] returns the bytes of the file and
    [ext2_write_data] replaces exactly the bytes it is given.

    [fbyte] is the byte of a file at an offset: the byte of the block the tree
    gives, or 0 in a hole. *)
From stdpp Require Import base gmap list numbers.
From Stdlib Require Import ZArith Lia.
From S2P Require Import Prelude Bytes HashMap BlockDev Ext2Cache Ext2CacheSpec Ext2 Ext2Logic Ext2Alloc Ext2Map Ext2Tree Ext2GetBlock Ext2Dir Ext2File.
Open Scope Z_scope.

Definition byte_at (l : list Z) (i : Z) : Z := default 0 (l !! Z.to_nat i).

Lemma byte_at_splice off bs l i : 0 <= i -> 0 <= off ->
  off + Z.of_nat (length bs) <= Z.of_nat (length l) ->
  byte_at (splice (Z.to_nat off) bs l) i
  = if decide (off <= i < off + Z.of_nat (length bs)) then byte_at bs (i - off) else byte_at l i.
Proof.
  intros Hi Ho Hl. unfold byte_at, splice. case_decide as Dq.
  - rewrite lookup_app_r by (rewrite length_take; lia). rewrite lookup_app_l by (rewrite length_take; lia).
    rewrite length_take. do 2 f_equal. lia.
  - destruct (decide (i < off)).
    + rewrite lookup_app_l by (rewrite length_take; lia). by rewrite lookup_take_lt by lia.
    + rewrite lookup_app_r by (rewrite length_take; lia). rewrite lookup_app_r by (rewrite length_take; lia).
      rewrite lookup_drop, length_take. do 2 f_equal. lia.
Qed.

Section Data.
Context (fs : ext2_fs_priv) (G : geom_ok fs).
Implicit Types (a : astate) (p : ext2_inode_priv).

Definition fbyte a p (pos : Z) : Z :=
  let b := nodeb fs a p (pos / block_size fs) in
  if b =? 0 then 0 else byte_at (a_view a b) (pos mod block_size fs).

(** the [n] bytes from [pos] on *)
Definition fdata a p (pos n : Z) : list Z := fbyte a p <$> seqZ pos n.

(** offsets that the tree can reach *)
Definition max_bytes : Z := max_blocks fs * block_size fs.

Lemma length_fdata a p pos n : length (fdata a p pos n) = Z.to_nat n.
Proof. unfold fdata. by rewrite length_fmap, length_seqZ. Qed.

Lemma fdata_lookup a p pos n (i : nat) : Z.of_nat i < n -> fdata a p pos n !! i = Some (fbyte a p (pos + Z.of_nat i)).
Proof. intros Hi. unfold fdata. rewrite list_lookup_fmap, lookup_seqZ_lt by lia. done. Qed.

Lemma fdata_app a p pos n m : 0 <= n -> 0 <= m -> fdata a p pos (n + m) = fdata a p pos n ++ fdata a p (pos + n) m.
Proof. intros. unfold fdata. rewrite seqZ_app by lia. by rewrite fmap_app. Qed.

(** bytes of one block *)
Lemma fdata_block a p pos n :
  block_size fs > 0 -> 0 <= pos -> 0 < n <= block_size fs - pos mod block_size fs ->
  fdata a p pos n =
    (let b := nodeb fs a p (pos / block_size fs) in
     if b =? 0 then replicate (Z.to_nat n) 0
     else byte_at (a_view a b) <$> seqZ (pos mod block_size fs) n).
Proof.
  intros Hbs Hpos Hn. pose proof (Z.mod_pos_bound pos (block_size fs) ltac:(lia)).
  pose proof (Z.div_mod pos (block_size fs) ltac:(lia)). cbv zeta.
  apply list_eq. intros i. destruct (decide (Z.of_nat i < n)) as [Hi|Hi].
  - rewrite fdata_lookup by done. unfold fbyte.
    assert ((pos + Z.of_nat i) / block_size fs = pos / block_size fs) as ->.
    { symmetry. apply (Z.div_unique_pos _ _ _ (pos mod block_size fs + Z.of_nat i)); lia. }
    assert ((pos + Z.of_nat i) mod block_size fs = pos mod block_size fs + Z.of_nat i) as ->.
    { symmetry. apply (Z.mod_unique_pos _ _ (pos / block_size fs)); lia. }
    destruct (_ =? 0).
    + symmetry. apply lookup_replicate. split; [done|lia].
    + rewrite list_lookup_fmap, lookup_seqZ_lt by lia. done.
  - rewrite lookup_ge_None_2 by (rewrite length_fdata; lia). destruct (_ =? 0).
    + symmetry. apply lookup_ge_None_2. rewrite length_replicate. lia.
    + symmetry. apply lookup_ge_None_2. rewrite length_fmap, length_seqZ. lia.
Qed.

Lemma slice_bytes l off n : 0 <= off -> 0 <= n -> off + n <= Z.of_nat (length l) ->
  slice (Z.to_nat off) (Z.to_nat n) l = byte_at l <$> seqZ off n.
Proof.
  intros Ho Hn Hl. apply list_eq. intros i. unfold slice. destruct (decide (Z.of_nat i < n)) as [Hi|Hi].
  - rewrite lookup_take_lt, lookup_drop by lia. rewrite list_lookup_fmap, lookup_seqZ_lt by lia. simpl.
    unfold byte_at. replace (Z.to_nat (off + Z.of_nat i)) with (Z.to_nat off + i)%nat by lia.
    destruct (l !! (Z.to_nat off + i)%nat) eqn:E; [done|]. apply lookup_ge_None_1 in E. lia.
  - rewrite !lookup_ge_None_2; [done|rewrite length_fmap, length_seqZ; lia|].
    rewrite length_take, length_drop. lia.
Qed.

(** ** What a write leaves *)
Definition in_tree a p (c : Z) : Prop := exists k, key_ok fs k /\ nodeb fs a p k = c.

Record file_written a p (pos : Z) (buf : list Z) a' p' : Prop := {
  fw_layout : layout_ok fs a';
  fw_tree : tree_ok fs a' p';
  fw_strip : strip p' = strip p;
  fw_data : forall x, 0 <= x < max_bytes -> fbyte a' p' x =
    if decide (pos <= x < pos + Z.of_nat (length buf)) then byte_at buf (x - pos) else fbyte a p x;
  fw_frame : forall c, good fs a c -> ~ in_tree a p c -> a_view a' c = a_view a c;
  fw_good : forall c, good fs a c -> good fs a' c;
  fw_tree_new : forall k, key_ok fs k -> in_tree a p (nodeb fs a' p' k) \/ ~ good fs a (nodeb fs a' p' k) }.

Lemma file_written_nil a p pos : layout_ok fs a -> tree_ok fs a p -> file_written a p pos [] a p.
Proof.
  intros Lo Tr. split; try done.
  - intros x _. rewrite decide_False by (simpl; lia). done.
  - intros k Hk. left. by exists k.
Qed.

Lemma tree_data_write a p l new : tree_ok fs a p -> key_ok fs l -> 0 <= l -> nodeb fs a p l <> 0 ->
  let a' := a_write (nodeb fs a p l) new a in
  tree_ok fs a' p /\ (forall k, key_ok fs k -> nodeb fs a' p k = nodeb fs a p k) /\
  (forall c, good fs a c -> good fs a' c).
Proof.
  intros Tr Hl H0 Hn a'. assert (~ meta fs a (nodeb fs a p l)) as Hm by apply (to_good fs a p Tr l Hl Hn).
  assert (forall k, key_ok fs k -> nodeb fs a' p k = nodeb fs a p k) as E.
  { apply (nodeb_frame fs G). intros k Hk Hneg Hnz. apply a_write_ne. intros Eq.
    assert (k = l); [|lia]. by apply (to_inj fs a p Tr). }
  assert (forall c, good fs a c -> good fs a' c) as Hg by (intros c Hc; by apply good_write).
  split; [|done]. split; [apply Tr|..].
  - intros k Hk. rewrite E by done. intros Hk0. by apply Hg, (to_good fs a p Tr).
  - intros k k' Hk Hk'. rewrite !E by done. by apply (to_inj fs a p Tr).
Qed.

(** one step: map the block of [pos], then store a chunk in it *)
Lemma file_written_step a p pos chunk a1 p1 :
  layout_ok fs a -> tree_ok fs a p -> blocks_ok fs a1 -> 0 <= pos ->
  let l := pos / block_size fs in let boff := pos mod block_size fs in
  l < max_blocks fs -> chunk <> [] -> boff + Z.of_nat (length chunk) <= block_size fs ->
  mapped fs a p l a1 p1 ->
  file_written a p pos chunk
    (a_write (nodeb fs a1 p1 l) (splice (Z.to_nat boff) chunk (a_view a1 (nodeb fs a1 p1 l))) a1) p1.
Proof.
  intros Lo Tr Hok Hpos l boff Hl Hne Hlen M. pose proof (bs_range fs (go_bs fs G)) as Hbs.
  pose proof (ptrs_range fs G) as [HP _].
  assert (0 <= l) as Hl0 by (apply Z.div_pos; lia).
  assert (key_ok fs l) as Hk by (unfold key_ok; lia).
  pose proof (Z.mod_pos_bound pos (block_size fs) ltac:(lia)) as Hb. fold boff in Hb.
  pose proof (Z.div_mod pos (block_size fs) ltac:(lia)) as Hdm. fold l boff in Hdm.
  set (b := nodeb fs a1 p1 l) in *. set (new := splice _ _ _). set (a2 := a_write b new a1).
  assert (good fs a1 b) as Gb by (apply (to_good fs a1 p1 (mp_tree _ _ _ _ _ _ M) l Hk); apply M).
  assert (block_ok fs (a_view a1 b)) as [Hblen _] by apply Hok, Gb.
  destruct (tree_data_write a1 p1 l new (mp_tree _ _ _ _ _ _ M) Hk Hl0 (mp_node _ _ _ _ _ _ M)) as (Tr2 & En & Hg2).
  fold b a2 in Tr2, En, Hg2.
  split.
  - apply data_layout; [apply Gb|apply M].
  - done.
  - apply M.
  - intros x Hx. unfold fbyte. set (lx := x / block_size fs).
    pose proof (Z.mod_pos_bound x (block_size fs) ltac:(lia)). pose proof (Z.div_mod x (block_size fs) ltac:(lia)) as Hdx.
    fold lx in Hdx. assert (0 <= lx) by (apply Z.div_pos; lia).
    assert (lx < max_blocks fs) by (apply Z.div_lt_upper_bound; [lia|]; unfold max_bytes in Hx; lia).
    assert (key_ok fs lx) as Hkx by (unfold key_ok; lia). rewrite (En lx Hkx).
    destruct (decide (lx = l)) as [->|Hnl].
    + fold b. rewrite (proj2 (Z.eqb_neq b 0)) by apply M. unfold a2. rewrite a_write_eq.
      unfold new. rewrite byte_at_splice by lia.
      destruct (decide (nodeb fs a p l = 0)) as [E0|E0].
      * destruct (mp_new _ _ _ _ _ _ M E0) as [Hz _]. fold b in Hz. rewrite E0, Hz. cbn [Z.eqb].
        repeat case_decide; try lia; try (f_equal; lia).
        unfold byte_at, zero_block. destruct (replicate _ _ !! _) eqn:Er; [|done].
        by apply lookup_replicate in Er as [-> _].
      * destruct (mp_old _ _ _ _ _ _ M E0) as [-> ->]. fold b in E0. fold b.
        rewrite (proj2 (Z.eqb_neq b 0)) by done.
        repeat case_decide; try lia; try done; f_equal; lia.
    + rewrite decide_False by nia. rewrite (mp_other _ _ _ _ _ _ M) by done.
      destruct (Z.eqb_spec (nodeb fs a p lx) 0) as [E0|E0]; [done|].
      assert (nodeb fs a1 p1 lx = nodeb fs a p lx) as E1 by by apply (mp_other _ _ _ _ _ _ M).
      f_equal. unfold a2. rewrite a_write_ne.
      * apply (mp_frame _ _ _ _ _ _ M); [by apply (to_good fs a p Tr)|].
        intros k Hk' Hneg Eq. assert (k = lx); [|lia]. by apply (to_inj fs a p Tr).
      * intros Eq. apply Hnl. apply (to_inj fs a1 p1 (mp_tree _ _ _ _ _ _ M) l lx Hk Hkx);
          [apply M|by rewrite E1].
  - intros c Hc Hnt. unfold a2. rewrite a_write_ne.
    + apply (mp_frame _ _ _ _ _ _ M); [done|]. intros k Hk' _ Eq. apply Hnt. by exists k.
    + intros ->. destruct (mp_ptr _ _ _ _ _ _ M l Hk) as [Eq|Eq]; fold b in Eq; [|done].
      apply Hnt. exists l. done.
  - intros c Hc. by apply Hg2, (mp_good _ _ _ _ _ _ M).
  - intros k Hk'. rewrite (En k Hk'). destruct (mp_ptr _ _ _ _ _ _ M k Hk') as [Eq|Eq]; [left|by right].
    exists k. done.
Qed.

Lemma file_written_app a p pos b1 b2 a1 p1 a2 p2 :
  file_written a p pos b1 a1 p1 -> file_written a1 p1 (pos + Z.of_nat (length b1)) b2 a2 p2 ->
  file_written a p pos (b1 ++ b2) a2 p2.
Proof.
  intros W1 W2.
  assert (forall c, good fs a c -> ~ in_tree a p c -> ~ in_tree a1 p1 c) as Hnt.
  { intros c Hc Hn (k & Hk & <-). by destruct (fw_tree_new _ _ _ _ _ _ W1 k Hk). }
  split.
  - apply W2.
  - apply W2.
  - rewrite (fw_strip _ _ _ _ _ _ W2). apply W1.
  - intros x Hx. rewrite (fw_data _ _ _ _ _ _ W2), (fw_data _ _ _ _ _ _ W1) by done.
    rewrite length_app. unfold byte_at. repeat case_decide; try lia.
    + rewrite lookup_app_r by lia. do 2 f_equal. lia.
    + rewrite lookup_app_l by lia. done.
  - intros c Hc Hn. rewrite (fw_frame _ _ _ _ _ _ W2).
    + by apply W1.
    + by apply W1.
    + by apply Hnt.
  - intros c Hc. by apply W2, W1.
  - intros k Hk. destruct (fw_tree_new _ _ _ _ _ _ W2 k Hk) as [(k' & Hk' & <-)|Hn].
    + by apply W1.
    + right. intros Hg. apply Hn. by apply W1.
Qed.

End Data.

Section DataOps.
Context {D H T : Type} `{DD : BlockDev D} `{HH : Heap H} `{BM : !BlockMap H T}.
Abbreviation St := (fs_state D H T).
Context (fs : ext2_fs_priv) (G : geom_ok fs).
Context (TT : table_total (H := H) (T := T)).
Abbreviation rel := (reliable (D := D) (H := H)).
Abbreviation triple := (triple (D := D) (H := H) (T := T) fs).
Implicit Types (a : astate) (p : ext2_inode_priv).

(** The chunk of one round never leaves its block; the fuel counts blocks. *)
Lemma chunk_size pos left : 0 <= pos -> 0 < left ->
  let boff := pos mod block_size fs in
  let n := if left <? block_size fs - boff then left else block_size fs - boff in
  0 <= boff < block_size fs /\ 0 < n <= block_size fs - boff /\ n <= left /\
  (n = left \/ (pos + n) mod block_size fs = 0).
Proof.
  intros Hpos Hl boff n. pose proof (bs_range fs (go_bs fs G)).
  pose proof (Z.mod_pos_bound pos (block_size fs) ltac:(lia)) as Hb. fold boff in Hb.
  split; [done|]. unfold n. destruct (left <? _) eqn:E; breflect; [lia|].
  split; [lia|]. split; [lia|]. right.
  pose proof (Z.div_mod pos (block_size fs) ltac:(lia)) as Hd. fold boff in Hd.
  replace (pos + (block_size fs - boff)) with ((pos / block_size fs + 1) * block_size fs) by lia.
  apply Z.mod_mul. lia.
Qed.

(** rounds needed for [left] bytes from [pos] on *)
Definition rounds pos left : Z :=
  if left <=? 0 then 0 else (pos mod block_size fs + left + block_size fs - 1) / block_size fs.

Lemma rounds_step pos left : 0 <= pos -> 0 < left ->
  let n := if left <? block_size fs - pos mod block_size fs then left
           else block_size fs - pos mod block_size fs in
  rounds (pos + n) (left - n) + 1 <= rounds pos left.
Proof.
  intros Hpos Hl n. pose proof (bs_range fs (go_bs fs G)).
  destruct (chunk_size pos left Hpos Hl) as (Hb & Hn & Hnl & Hor). fold n in Hn, Hnl, Hor.
  unfold rounds. rewrite (proj2 (Z.leb_gt left 0)) by lia.
  destruct (left - n <=? 0) eqn:E; breflect.
  - assert (1 <= (pos mod block_size fs + left + block_size fs - 1) / block_size fs); [|lia].
    apply Z.div_le_lower_bound; lia.
  - assert (n = block_size fs - pos mod block_size fs) as ->.
    { unfold n in *. destruct (left <? _); lia. }
    destruct Hor as [?|Em]; [lia|]. rewrite Em.
    replace (pos mod block_size fs + left + block_size fs - 1)
      with (0 + (left - (block_size fs - pos mod block_size fs)) + block_size fs - 1 + 1 * block_size fs) by lia.
    rewrite Z.div_add by lia. lia.
Qed.

Lemma rounds_fuel pos left : 0 <= pos -> 0 <= left -> rounds pos left < Z.of_nat (data_fuel fs left).
Proof.
  intros Hpos Hl. pose proof (bs_range fs (go_bs fs G)). unfold rounds, data_fuel.
  pose proof (Z.mod_pos_bound pos (block_size fs) ltac:(lia)).
  assert (0 <= left / block_size fs) by (apply Z.div_pos; lia). rewrite Z2Nat.id by lia.
  destruct (left <=? 0); [lia|].
  pose proof (Z.div_mod left (block_size fs) ltac:(lia)).
  pose proof (Z.mod_pos_bound left (block_size fs) ltac:(lia)).
  apply Z.div_lt_upper_bound; lia.
Qed.

Lemma rounds_pos pos left : 0 <= pos -> 0 <= left -> 0 <= rounds pos left.
Proof.
  intros. pose proof (bs_range fs (go_bs fs G)). unfold rounds. destruct (left <=? 0); [lia|].
  apply Z.div_pos; [|lia]. pose proof (Z.mod_pos_bound pos (block_size fs) ltac:(lia)). lia.
Qed.

(** the block number of an offset that the tree can reach does not wrap *)
Lemma lblk_small pos : 0 <= pos < max_bytes fs ->
  u32 (pos / block_size fs) = pos / block_size fs /\ 0 <= pos / block_size fs < max_blocks fs.
Proof.
  intros Hp. pose proof (bs_range fs (go_bs fs G)). pose proof (ptrs_range fs G) as [HP _].
  assert (0 <= pos / block_size fs < max_blocks fs) as Hr.
  { split; [apply Z.div_pos; lia|]. apply Z.div_lt_upper_bound; [lia|]. unfold max_bytes in Hp. lia. }
  split; [|done]. apply u32_small. unfold max_blocks in Hr. nia.
Qed.

Lemma read_loop_ok a p fuel : forall pos left,
  tree_ok fs a p -> 0 <= pos -> 0 <= left -> pos + left <= max_bytes fs ->
  rounds pos left < Z.of_nat fuel ->
  triple a (read_loop fuel fs p pos left)
    (fun r a' => a' = a /\ (r = Some (fdata fs a p pos left) \/ ~ rel)).
Proof.
  induction fuel as [|fuel IH]; intros pos left Tr Hpos Hl Hmax Hf.
  { pose proof (rounds_pos pos left Hpos Hl). lia. }
  cbn [read_loop]. destruct (left <=? 0) eqn:E0; breflect.
  { apply triple_ret. split; [done|]. left. assert (left = 0) as -> by lia. done. }
  pose proof (rounds_step pos left Hpos ltac:(lia)) as Hstep.
  destruct (chunk_size pos left Hpos ltac:(lia)) as (Hb & Hn & Hnl & _).
  cbv zeta in *. set (boff := pos mod block_size fs) in *. set (n := if left <? block_size fs - boff then left else block_size fs - boff) in *.
  clearbody n. destruct (lblk_small pos ltac:(lia)) as [El Hlr]. rewrite El. set (l := pos / block_size fs) in *.
  pose proof (ptrs_range fs G) as [HP _].
  assert (key_ok fs l) as Hk by (unfold key_ok; lia).
  eapply triple_bind; [apply (get_block_look_ok fs G); [done|lia]|].
  intros [o p'] a' (-> & Ep & _ & Hlook). simpl in Ep, Hlook |- *. clear Ep. specialize (Hlook ltac:(lia)).
  assert (forall (c : list Z), c = fdata fs a p pos n \/ ~ rel ->
    triple a (let* rest := read_loop fuel fs p (pos + n) (left - n) in mret (app c <$> rest))
      (fun r a' => a' = a /\ (r = Some (fdata fs a p pos left) \/ ~ rel))) as Hrest.
  { intros c Hc. eapply triple_bind; [apply IH; [done|lia|lia|lia|lia]|].
    intros r a' (-> & Hr). apply triple_ret. split; [done|]. destruct Hc as [->|?]; [|by right].
    destruct Hr as [->|?]; [|by right]. left. simpl. f_equal.
    rewrite <- fdata_app by lia. f_equal. lia. }
  assert (~ rel -> triple a (mret (None : option (list Z)))
    (fun r a' => a' = a /\ (r = Some (fdata fs a p pos left) \/ ~ rel))) as Hbad.
  { intros Hr. apply triple_ret. auto. }
  pose proof (bs_range fs (go_bs fs G)) as Hbs.
  pose proof (fdata_block fs a p pos n ltac:(lia) Hpos ltac:(lia)) as Hblk. cbv zeta in Hblk. fold l boff in Hblk.
  destruct Hlook as [->|[Hr [->| ->]]]; [..|by apply Hbad].
  - destruct (Z.eqb_spec (nodeb fs a p l) 0) as [E1|E1].
    + change (mbind' (mret ?x) ?f) with (f x). cbv beta iota. apply Hrest. by left.
    + eapply triple_bind with (R := fun (r : option (list Z)) a' => a' = a /\ (r = Some (fdata fs a p pos n) \/ (r = None /\ ~ rel))).
      * apply triple_blocks; [done|]. intros Hok. destruct (to_good fs a p Tr l Hk E1) as [Hu _].
        eapply triple_bind; [by apply triple_read_block|]. intros r a' (-> & [->|[-> Hr]]); [|apply triple_ret; auto].
        destruct (Hok _ Hu) as [Hlen _].
        apply triple_lds; [lia|lia|]. apply triple_ret. split; [done|]. left. f_equal.
        rewrite Hblk. apply slice_bytes; lia.
      * intros r a' (-> & [->|[-> Hr]]); [apply Hrest; by left|by apply Hbad].
  - change (mbind' (mret ?x) ?f) with (f x). cbv beta iota. apply Hrest. by right.
Qed.

Lemma write_loop_ok fuel : forall a p f buf,
  layout_ok fs a -> tree_ok fs a p -> bytes_ok buf -> 0 <= f -> f + Z.of_nat (length buf) <= max_bytes fs ->
  rounds f (Z.of_nat (length buf)) < Z.of_nat fuel ->
  triple a (write_loop fuel fs p f buf)
    (fun r a' => if r.1 then file_written fs a p f buf a' r.2 else no_room (D := D) (H := H) fs a').
Proof.
  induction fuel as [|fuel IH]; intros a p f buf Lo Tr Hb Hf Hmax Hfuel.
  { pose proof (rounds_pos f (Z.of_nat (length buf)) Hf ltac:(lia)). lia. }
  cbn [write_loop]. cbv zeta. destruct (_ <=? 0) eqn:E0; breflect.
  { apply triple_ret. simpl. assert (buf = []) as -> by (destruct buf; simpl in *; [done|lia]).
    by apply file_written_nil. }
  set (left := Z.of_nat (length buf)) in *.
  pose proof (rounds_step f left Hf ltac:(lia)) as Hstep.
  destruct (chunk_size f left Hf ltac:(lia)) as (Hbo & Hn & Hnl & _).
  cbv zeta in *. set (boff := f mod block_size fs) in *. set (n := if left <? block_size fs - boff then left else block_size fs - boff) in *.
  clearbody n. destruct (lblk_small f ltac:(lia)) as [El Hlr]. rewrite El. set (l := f / block_size fs) in *.
  pose proof (ptrs_range fs G) as [HP _]. pose proof (bs_range fs (go_bs fs G)) as Hbs.
  assert (key_ok fs l) as Hk by (unfold key_ok; lia).
  eapply triple_bind; [apply get_block_alloc_ok; [done|done|done|done|lia]|].
  intros [[phys|] p1] a1 Hg; [|apply triple_ret; apply got_none in Hg as [?|Hg]; [lia|exact Hg]]. destruct Hg as (_ & Mp & Ep). simpl in Mp, Ep. subst phys.
  rewrite (proj2 (Z.eqb_neq _ _) (mp_node _ _ _ _ _ _ Mp)).
  set (b := nodeb fs a1 p1 l) in *. set (chunk := take (Z.to_nat n) buf).
  assert (Z.of_nat (length chunk) = n) as Hlc by (unfold chunk; rewrite length_take; lia).
  assert (good fs a1 b) as Gb by (apply (to_good fs a1 p1 (mp_tree _ _ _ _ _ _ Mp) l Hk); apply Mp).
  apply triple_blocks; [done|]. intros Hok1. assert (block_ok fs (a_view a1 b)) as Hbok by apply Hok1, Gb.
  set (a2 := a_write b (splice (Z.to_nat boff) chunk (a_view a1 b)) a1).
  assert (file_written fs a p f chunk a2 p1) as W1.
  { apply file_written_step; try done; [lia| |lia]. intros E. rewrite E in Hlc. simpl in Hlc. lia. }
  assert (bytes_ok chunk) as Hcb by by apply Forall_take.
  eapply triple_bind with (R := fun w a' => (w = 0 /\ a' = a2) \/ (w = -1 /\ ~ rel)).
  { destruct ((boff =? 0) && (n =? block_size fs)) eqn:Efull.
    - apply andb_true_iff in Efull as [Ebo En]. breflect. eapply triple_conseq.
      { apply triple_write_block; [done|done|apply Gb|]. split; [lia|done]. }
      intros w a' [[-> ->]|(-> & NR & _)]; [left|by right]. split; [done|]. unfold a2. f_equal.
      rewrite Ebo. symmetry. apply splice_all. destruct Hbok as [Hlen _]. lia.
    - eapply triple_bind; [by apply triple_read_block, Gb|].
      intros r a' (-> & [->|[-> NR]]); [|apply triple_ret; by right]. destruct Hbok as [Hlen Hbb].
      apply triple_stb; [lia|lia|]. eapply triple_conseq.
      { apply triple_write_block; [done|done|apply Gb|]. apply block_ok_splice; [lia|lia|by split|done]. }
      intros w a' [[-> ->]|(-> & NR & _)]; [by left|by right]. }
  intros w a' [[-> ->]|[-> NR]]; [|apply triple_ret; by left]. cbn [Z.ltb Z.compare].
  eapply triple_conseq.
  { apply (IH a2 p1 (f + n) (drop (Z.to_nat n) buf)).
    - apply W1.
    - apply W1.
    - by apply Forall_drop.
    - lia.
    - rewrite length_drop. lia.
    - rewrite length_drop. replace (Z.of_nat (length buf - Z.to_nat n)) with (left - n) by lia. lia. }
  intros [[] p2] a' Hr; [|done]. simpl in Hr |- *. rewrite <- (take_drop (Z.to_nat n) buf).
  eapply file_written_app; [exact W1|]. fold chunk. by rewrite Hlc.
Qed.

End DataOps.
