(* ===== verification/Ext2Inode.v ===== *)
(** Inode records: locating them in the inode tables, reading and writing
    them, and the conversion to and from [struct ext2_inode_priv]. *)
From stdpp Require Import base gmap list numbers.
From Stdlib Require Import ZArith Lia.
From S2P Require Import Prelude Bytes HashMap BlockDev Ext2Cache Ext2CacheSpec Ext2 Ext2Logic Ext2Alloc Ext2Map Ext2Tree Ext2GetBlock.
Open Scope Z_scope.

(** ** The record of an inode *)
Record priv_ok (p : ext2_inode_priv) : Prop := {
  po_ino : u32_ok (p_ino p);
  po_mode : 0 <= p_mode p < 2 ^ 16;
  po_uid : 0 <= p_uid p < 2 ^ 16;
  po_gid : 0 <= p_gid p < 2 ^ 16;
  po_links : 0 <= p_links_count p < 2 ^ 16;
  po_size : u32_ok (p_size p);
  po_blocks : u32_ok (p_blocks p);
  po_atime : u32_ok (p_atime p);
  po_ctime : u32_ok (p_ctime p);
  po_mtime : u32_ok (p_mtime p);
  po_len : length (p_block p) = EXT2_N_BLOCKS;
  po_block : Forall u32_ok (p_block p) }.

Lemma length_put_blocks bs : forall i out, (40 + 4 * (i + length bs) <= length out)%nat ->
  length (put_blocks i bs out) = length out.
Proof.
  induction bs as [|b bs IH]; intros i out Hl; simpl in *; [done|].
  rewrite (IH (S i)) by (rewrite length_set_field; lia). apply length_set_field. lia.
Qed.

Lemma put_blocks_before bs : forall i out n off, (40 + 4 * (i + length bs) <= length out)%nat ->
  (off + n <= 40 + 4 * i)%nat -> field n off (put_blocks i bs out) = field n off out.
Proof.
  induction bs as [|b bs IH]; intros i out n off Hl Ho; simpl in *; [done|].
  rewrite (IH (S i)) by (rewrite ?length_set_field; lia). apply field_set_disjoint; lia.
Qed.

Lemma put_blocks_at bs : forall i out k, (40 + 4 * (i + length bs) <= length out)%nat ->
  Forall u32_ok bs -> (k < length bs)%nat ->
  field 4 (40 + 4 * (i + k)) (put_blocks i bs out) = default 0 (bs !! k).
Proof.
  induction bs as [|b bs IH]; intros i out k Hl Hb Hk; cbn [length put_blocks] in *; [lia|].
  apply Forall_cons_iff in Hb as [Hb Hbs]. destruct k as [|k].
  - rewrite Nat.add_0_r. rewrite put_blocks_before by (rewrite ?length_set_field; lia).
    cbn [lookup list_lookup default id]. rewrite field_set_same by lia. change (2 ^ (8 * Z.of_nat 4)) with (2 ^ 32). by apply Z.mod_small.
  - replace (i + S k)%nat with (S i + k)%nat by lia. apply IH; [rewrite length_set_field; lia|done|lia].
Qed.

(** successive stores into a buffer of a known length *)
Ltac solve_len := repeat (apply length_set_field_eq; [|lia]); apply length_replicate.

Ltac solve_field :=
  repeat first
    [ rewrite (field_set_same_len 128); [|solve_len|lia]
    | rewrite (field_set_disjoint_len 128); [|solve_len|lia|lia] ].

Lemma priv_to_disk_ok p : priv_ok p -> length (ext2_priv_to_disk p) = 128%nat /\ bytes_ok (ext2_priv_to_disk p).
Proof.
  intros Hp. unfold ext2_priv_to_disk. rewrite take_ge by (rewrite (po_len p Hp); done). split.
  - set (out := set_field 4 28 _ _). assert (length out = 128%nat) as Hl by solve_len.
    rewrite length_put_blocks; [done|]. rewrite Hl, (po_len p Hp). unfold EXT2_N_BLOCKS. lia.
  - generalize 0%nat. assert (forall bs i out, bytes_ok out -> bytes_ok (put_blocks i bs out)) as Hb.
    { induction bs as [|b bs IH]; intros i out Ho; simpl; [done|]. apply IH. apply splice_ok; auto with kern. }
    intros i. apply Hb. unfold set_field. repeat (apply splice_ok; [apply le_enc_ok|]).
    apply Forall_replicate. unfold byte_ok. lia.
Qed.

Lemma disk_priv_roundtrip p : priv_ok p -> ext2_disk_to_priv (ext2_priv_to_disk p) (p_ino p) = p.
Proof.
  intros Hp. pose proof Hp as [H1 H2 H3 H4 H5 H6 H7 H8 H9 H10 H11 H12].
  unfold ext2_priv_to_disk. rewrite take_ge by (rewrite H11; done).
  set (out := set_field 4 28 _ _).
  assert (length out = 128%nat) as Hl by solve_len.
  assert (40 + 4 * (0 + length (p_block p)) <= length out)%nat as Hfit
    by (rewrite Hl, H11; unfold EXT2_N_BLOCKS; lia).
  unfold ext2_disk_to_priv, di_uid, di_gid, di_size, di_mode, di_links_count, di_blocks, di_atime, di_ctime,
    di_mtime, di_block. rewrite !put_blocks_before by (done || lia).
  destruct p as [ino uid gid size mode links blocks atime ctime mtime bs].
  cbn [p_ino p_uid p_gid p_size p_mode p_links_count p_blocks p_atime p_ctime p_mtime p_block] in *.
  f_equal.
  all: try (unfold out; solve_field; unfold u16; change (2 ^ (8 * Z.of_nat 2)) with (2 ^ 16);
            change (2 ^ (8 * Z.of_nat 4)) with (2 ^ 32); rewrite ?Z.mod_mod by lia; by apply Z.mod_small).
  apply list_eq. intros k. destruct (decide (k < 15)%nat) as [Hk|Hk].
  - rewrite list_lookup_fmap, lookup_seq_lt by done. cbn [fmap option_fmap option_map].
    pose proof (put_blocks_at bs 0 out k Hfit H12 ltac:(rewrite H11; done)) as Hat.
    rewrite Hat. destruct (bs !! k) eqn:E; [done|]. apply lookup_ge_None_1 in E. unfold EXT2_N_BLOCKS in *. lia.
  - rewrite !lookup_ge_None_2; [done|rewrite H11; unfold EXT2_N_BLOCKS; lia|].
    rewrite length_fmap, length_seq. unfold EXT2_N_BLOCKS. lia.
Qed.

(** ** Records in the inode tables *)
Section Table.
Context (fs : ext2_fs_priv) (G : geom_ok fs).
Implicit Types (a : astate) (g j : Z).

Definition inode_pos_ok g j : Prop :=
  group_ok fs g /\ 0 <= j < inodes_per_group fs /\ inode_no fs g j <= inodes_count fs.

Lemma isz_range : 128 <= inode_size fs <= 4096 /\ exists q, 0 < q /\ block_size fs = q * inode_size fs.
Proof.
  destruct (go_isz fs G) as (k & Hk & -> & Hle). split.
  - split; [change 128 with (2 ^ 7)|change 4096 with (2 ^ 12)]; apply Z.pow_le_mono_r; lia.
  - assert (exists m, k <= m <= 12 /\ block_size fs = 2 ^ m) as (m & Hm & Em).
    { destruct (go_bs fs G) as [E|[E|E]]; rewrite E in *.
      - exists 10. split; [|done]. split; [|lia]. destruct (decide (k <= 10)); [done|].
        assert (2 ^ 11 <= 2 ^ k) by (apply Z.pow_le_mono_r; lia). lia.
      - exists 11. split; [|done]. split; [|lia]. destruct (decide (k <= 11)); [done|].
        assert (2 ^ 12 <= 2 ^ k) by (apply Z.pow_le_mono_r; lia). lia.
      - exists 12. split; [lia|done]. }
    exists (2 ^ (m - k)). split; [apply Z.pow_pos_nonneg; lia|].
    rewrite <- Z.pow_add_r by lia. rewrite Em. f_equal. lia.
Qed.

Lemma idx_small j : 0 <= j < inodes_per_group fs -> u32 (j * inode_size fs) = j * inode_size fs.
Proof.
  intros Hj. pose proof isz_range as [Hs _]. pose proof (go_ipg fs G). pose proof (bs_range fs (go_bs fs G)).
  apply u32_small. nia.
Qed.

Lemma inode_off_range j : 0 <= j < inodes_per_group fs ->
  0 <= inode_off fs j /\ inode_off fs j + inode_size fs <= block_size fs.
Proof.
  intros Hj. destruct isz_range as (Hs & q & Hq & Eq). unfold inode_off. rewrite idx_small by done.
  rewrite Eq, Z.mul_mod_distr_r by lia. pose proof (Z.mod_pos_bound j q Hq). nia.
Qed.

(** different slots of a table do not overlap *)
Lemma inode_off_disjoint bg j j' : 0 <= j < inodes_per_group fs -> 0 <= j' < inodes_per_group fs ->
  j <> j' -> 0 <= bg_inode_table bg -> bg_inode_table bg + inodes_per_group fs < 2 ^ 32 ->
  inode_blk fs bg j = inode_blk fs bg j' ->
  inode_off fs j + inode_size fs <= inode_off fs j' \/ inode_off fs j' + inode_size fs <= inode_off fs j.
Proof.
  intros Hj Hj' Hne H0 Hfit. destruct isz_range as (Hs & q & Hq & Eq). unfold inode_off, inode_blk.
  rewrite !idx_small by done. rewrite Eq, !Z.mul_mod_distr_r, !Z.div_mul_cancel_r by lia.
  assert (forall x, 0 <= x < inodes_per_group fs -> 0 <= x / q < inodes_per_group fs) as Hd.
  { intros x Hx. split; [apply Z.div_pos; lia|]. apply Z.div_lt_upper_bound; nia. }
  pose proof (Hd j Hj). pose proof (Hd j' Hj'). rewrite !u32_small by lia. intros E.
  pose proof (Z.div_mod j q ltac:(lia)). pose proof (Z.div_mod j' q ltac:(lia)).
  assert (j mod q <> j' mod q) by nia. nia.
Qed.

(** the record of an inode in the block store *)
Definition di_of a g j : list Z :=
  slice (Z.to_nat (inode_off fs j)) 128 (a_view a (inode_blk fs (bg_of fs a g) j)).
Definition put_di g j (di : list Z) a : astate :=
  let b := inode_blk fs (bg_of fs a g) j in
  a_write b (splice (Z.to_nat (inode_off fs j)) di (a_view a b)) a.

Lemma inode_blk_u32 bg j : u32_ok (inode_blk fs bg j).
Proof. apply u32_range. Qed.

Section Stored.
Context (a : astate) (g j : Z) (di : list Z).
Context (Lo : layout_ok fs a) (Hok : blocks_ok fs a) (Hg : group_ok fs g) (Hj : 0 <= j < inodes_per_group fs).
Context (Hl : length di = 128%nat) (Hb : bytes_ok di).

Lemma put_di_same_ptrs : same_ptrs fs a (put_di g j di a).
Proof.
  intros g' Hg'. unfold bg_of, put_di. rewrite a_write_ne; [done|].
  intros E. destruct (lo_it fs a Lo g g' j Hg Hg' Hj) as [H1 _]. done.
Qed.

Lemma put_di_used g' k : group_ok fs g' -> used fs (put_di g j di a) g' k = used fs a g' k.
Proof.
  intros Hg'. unfold used. rewrite (same_ptrs_bb fs a _ g' put_di_same_ptrs Hg').
  unfold put_di. rewrite a_write_ne; [done|]. intros E. destruct (lo_it fs a Lo g g' j Hg Hg' Hj) as (_ & H1 & _). done.
Qed.

Lemma put_di_layout : layout_ok fs (put_di g j di a).
Proof.
  eapply layout_same; [apply put_di_same_ptrs| |exact Lo]. intros g' k Hg' _ _ Hu. by rewrite put_di_used.
Qed.

Lemma put_di_good c : good fs a c -> good fs (put_di g j di a) c /\ a_view (put_di g j di a) c = a_view a c.
Proof.
  intros (Hu & Hm & g' & k & Hg' & Hk & -> & Hus). split.
  - split; [done|]. split; [by rewrite (meta_same fs _ _ _ put_di_same_ptrs)|].
    exists g', k. split; [done|]. split; [done|]. split; [done|]. by rewrite put_di_used.
  - unfold put_di. apply a_write_ne. intros E. apply Hm. right. exists g. split; [done|].
    right; right; right. by exists j.
Qed.

Lemma put_di_tree p : tree_ok fs a p ->
  tree_ok fs (put_di g j di a) p /\ forall k, key_ok fs k -> nodeb fs (put_di g j di a) p k = nodeb fs a p k.
Proof.
  intros Tr. assert (forall k, key_ok fs k -> nodeb fs (put_di g j di a) p k = nodeb fs a p k) as E.
  { apply (nodeb_frame fs G). intros k Hk _ Hn. by apply put_di_good, (to_good fs a p Tr). }
  split; [|done]. split; [apply Tr|..].
  - intros k Hk. rewrite E by done. intros Hn. by apply put_di_good, (to_good fs a p Tr).
  - intros k k' Hk Hk'. rewrite !E by done. by apply (to_inj fs a p Tr).
Qed.

Lemma di_of_put : di_of (put_di g j di a) g j = di.
Proof.
  unfold di_of. rewrite (same_ptrs_it fs a _ g j put_di_same_ptrs Hg). unfold put_di. rewrite a_write_eq.
  rewrite <- Hl. apply slice_splice_same. pose proof (inode_off_range j Hj). pose proof isz_range as [? _].
  destruct (Hok _ (inode_blk_u32 (bg_of fs a g) j)) as [Hlen _]. lia.
Qed.
End Stored.
End Table.

Section InodeOps.
Context {D H T : Type} `{DD : BlockDev D} `{HH : Heap H} `{BM : !BlockMap H T}.
Abbreviation St := (fs_state D H T).
Context (fs : ext2_fs_priv) (G : geom_ok fs).
Context (TT : table_total (H := H) (T := T)).
Abbreviation rel := (reliable (D := D) (H := H)).
Abbreviation triple := (triple (D := D) (H := H) (T := T) fs).
Implicit Types (a : astate) (g j : Z).

Lemma ino_check g j : inode_pos_ok fs g j ->
  (inode_no fs g j =? 0) || (inodes_count fs <? inode_no fs g j) = false.
Proof.
  intros (Hg & Hj & Hle). destruct (inode_no_small fs G g j Hg Hj) as [_ Hr].
  apply orb_false_iff. split; [apply Z.eqb_neq; lia|apply Z.ltb_ge; lia].
Qed.

Lemma inode_read_ok a g j : inode_pos_ok fs g j ->
  triple a (ext2_inode_read fs (inode_no fs g j))
    (fun r a' => a' = a /\ (r = Some (di_of fs a g j) \/ (r = None /\ ~ rel))).
Proof.
  intros Hpos. unfold ext2_inode_read. rewrite ino_check by done. destruct Hpos as (Hg & Hj & _).
  destruct (inode_no_group fs G g j Hg Hj) as [-> ->]. pose proof (inode_off_range fs G j Hj).
  pose proof (isz_range fs G) as [? _].
  eapply triple_bind; [by apply load_bg_ok|]. intros r a' (-> & [->|[-> Hr]]); [|apply triple_ret; auto].
  apply triple_with_block; [done|apply inode_blk_u32|by auto|]. intros [Hlen _]. unfold SIZEOF_INODE.
  apply triple_lds; [lia|lia|]. apply triple_ret. split; [done|by left].
Qed.

Lemma inode_write_ok a g j di : inode_pos_ok fs g j -> length di = 128%nat -> bytes_ok di ->
  triple a (ext2_inode_write fs (inode_no fs g j) di)
    (fun r a' => (r = 0 /\ a' = put_di fs g j di a) \/
                 (r = -1 /\ ~ rel /\ differs (inode_blk fs (bg_of fs a g) j) a a')).
Proof.
  intros Hpos Hl Hb. unfold ext2_inode_write. rewrite ino_check by done. destruct Hpos as (Hg & Hj & _).
  destruct (inode_no_group fs G g j Hg Hj) as [-> ->]. pose proof (inode_off_range fs G j Hj).
  pose proof (isz_range fs G) as [? _].
  eapply triple_bind; [by apply load_bg_ok|].
  intros r a' (-> & [->|[-> Hr]]); [|apply triple_ret; right; split; [done|split; [done|apply differs_refl]]].
  apply triple_with_block; [done|apply inode_blk_u32|..].
  { intros NR. right. split; [done|]. split; [done|apply differs_refl]. }
  intros Hok. assert (block_ok fs (a_view a (inode_blk fs (bg_of fs a g) j))) as [Hlen _] by done.
  apply triple_stb; [lia|lia|].
  apply triple_write_block; [done|done|apply inode_blk_u32|]. apply block_ok_splice; [lia|lia|done|done].
Qed.

(** out of range: refused without any access *)
Lemma inode_read_refused a ino : ino = 0 \/ inodes_count fs < ino ->
  triple a (ext2_inode_read fs ino) (fun r a' => a' = a /\ r = None).
Proof.
  intros Hb. unfold ext2_inode_read.
  replace ((ino =? 0) || (inodes_count fs <? ino)) with true; [by apply triple_ret|].
  symmetry. apply orb_true_iff. destruct Hb as [->|Hb]; [by left|right; by apply Z.ltb_lt].
Qed.

(** *** Counting the blocks of a file *)
Definition blocks_used a p (n : Z) : Z :=
  Z.of_nat (length (filter (fun l => nodeb fs a p l <> 0) (seqZ 0 n))).

Lemma blocks_used_S a p n : 0 <= n ->
  blocks_used a p (n + 1) = blocks_used a p n + (if nodeb fs a p n =? 0 then 0 else 1).
Proof.
  intros Hn. unfold blocks_used. rewrite seqZ_app by lia. rewrite list.filter_app, length_app. rewrite Z.add_0_l.
  rewrite (seqZ_cons n 1) by lia.
  change (Z.pred 1) with 0. rewrite (seqZ_nil _ 0) by lia. rewrite list.filter_cons, list.filter_nil.
  destruct (Z.eqb_spec (nodeb fs a p n) 0) as [E|E]; [rewrite decide_False by naive_solver|rewrite decide_True by done];
    simpl length; lia.
Qed.

Lemma count_blocks_ok a p n : forall l used,
  tree_ok fs a p -> 0 <= l -> l + Z.of_nat n < 2 ^ 32 -> 0 <= used <= l -> (used = blocks_used a p l \/ ~ rel) ->
  triple a (count_blocks n p fs l used)
    (fun r a' => a' = a /\ (~ rel \/ (max_blocks fs <= l /\ r = used) \/
                            r = blocks_used a p (Z.min (l + Z.of_nat n) (Z.max l (max_blocks fs))))).
Proof.
  induction n as [|n IH]; intros l used Tr Hl Hn Hu Hc; cbn [count_blocks].
  { apply triple_ret. split; [done|]. destruct Hc as [->|?]; [|by left]. right; right. f_equal. lia. }
  eapply triple_bind; [by apply (get_block_look_ok fs G)|].
  intros [o p'] a' (-> & Ep & Hbig & Hlook). simpl in Ep, Hbig, Hlook |- *. subst p'.
  destruct (decide (max_blocks fs <= l)) as [Hge|Hlt].
  { rewrite (Hbig Hge). apply triple_ret. split; [done|]. right; left. done. }
  assert (forall used', used' <= l + 1 -> 0 <= used' -> (used' = blocks_used a p (l + 1) \/ ~ rel) ->
    triple a (count_blocks n p fs (l + 1) used')
      (fun r a' => a' = a /\ (~ rel \/ (max_blocks fs <= l /\ r = used) \/
          r = blocks_used a p (Z.min (l + Z.of_nat (S n)) (Z.max l (max_blocks fs)))))) as Hnext.
  { intros used' H1 H2 H3. eapply triple_conseq; [apply IH; [done|lia|lia|lia|done]|].
    intros r a' (-> & [?|[[Hge ->]| ->]]); (split; [done|]); [by left|..].
    - destruct H3 as [->|?]; [|by left]. right; right. f_equal. lia.
    - right; right. f_equal. lia. }
  destruct (Hlook ltac:(lia)) as [->|[Hr [->| ->]]].
  - destruct Hc as [->|Hr]; [|apply Hnext; [destruct (_ =? 0); [lia|rewrite u32_small by lia; lia]|
      destruct (_ =? 0); [lia|rewrite u32_small by lia; lia]|by right]].
    apply Hnext.
    + destruct (_ =? 0); [lia|rewrite u32_small by lia; lia].
    + destruct (_ =? 0); [lia|rewrite u32_small by lia; lia].
    + left. rewrite blocks_used_S by done. destruct (_ =? 0); [lia|by rewrite u32_small by lia].
  - cbn [Z.eqb]. apply Hnext; [lia|lia|by right].
  - apply triple_ret. split; [done|by left].
Qed.

End InodeOps.
