(* ===== verification/Ext2FileSpec.v ===== *)
(** [ext2_read_data] and [ext2_write_data] as a whole: the bytes of the file,
    its size and the inode record on the block store. *)
From stdpp Require Import base gmap list numbers.
From Stdlib Require Import ZArith Lia.
From S2P Require Import Prelude Bytes HashMap BlockDev Ext2Cache Ext2CacheSpec Ext2 Ext2Logic Ext2Alloc Ext2Map Ext2Tree Ext2GetBlock Ext2Dir Ext2File Ext2Data Ext2Inode.
Open Scope Z_scope.

Section Facts.
Context (fs : ext2_fs_priv) (G : geom_ok fs).
Implicit Types (a : astate) (p : ext2_inode_priv).

(** the tree and the bytes of a file depend on the slots only *)
Lemma nodeb_slots a p p' k : p_block p' = p_block p -> nodeb fs a p' k = nodeb fs a p k.
Proof. intros E. unfold nodeb, blk. by rewrite E. Qed.

Lemma fbyte_slots a p p' x : p_block p' = p_block p -> fbyte fs a p' x = fbyte fs a p x.
Proof. intros E. unfold fbyte. by rewrite (nodeb_slots a p p'). Qed.

Lemma tree_slots a p p' : p_block p' = p_block p -> tree_ok fs a p -> tree_ok fs a p'.
Proof.
  intros E [A B C]. split; [by rewrite E|..]; intros k; rewrite (nodeb_slots a p p') by done; [apply B|].
  intros k'. rewrite (nodeb_slots a p p') by done. apply C.
Qed.

Lemma priv_ok_grown a p p' : priv_ok p -> tree_ok fs a p' -> strip p' = strip p -> priv_ok p'.
Proof.
  intros Hp Tr E. destruct p as [A1 A2 A3 A4 A5 A6 A7 A8 A9 A10 bs], p' as [B1 B2 B3 B4 B5 B6 B7 B8 B9 B10 bs'].
  injection E as -> -> -> -> -> -> -> -> -> -> Ed. pose proof Hp as []. split; try done; [apply Tr|].
  simpl in *. apply Forall_lookup. intros i b Hb.
  destruct (decide (i < 14)%nat) as [Hi|Hi].
  - set (p' := mkInodePriv A1 A2 A3 A4 A5 A6 A7 A8 A9 A10 bs') in *.
    destruct (decide (b = 0)) as [->|Hb0]; [done|].
    assert (blk p' i = b) as Eb by (unfold blk; simpl; by rewrite Hb).
    rewrite <- Eb. rewrite <- (nodeb_slot fs a p' i Hi). apply (to_good fs a p' Tr); [by apply slot_key_ok|].
    by rewrite (nodeb_slot fs a p' i Hi), Eb.
  - assert (drop 14 bs' !! (i - 14)%nat = Some b) as Hd by (rewrite lookup_drop, <- Hb; f_equal; lia).
    rewrite Ed, lookup_drop in Hd. eapply Forall_lookup_1; [exact po_block|exact Hd].
Qed.

Lemma fbyte_put_di a p g j di x : layout_ok fs a -> group_ok fs g -> 0 <= j < inodes_per_group fs ->
  tree_ok fs a p -> 0 <= x < max_bytes fs -> fbyte fs (put_di fs g j di a) p x = fbyte fs a p x.
Proof.
  intros Lo Hg Hj Tr Hx. destruct (put_di_tree fs G a g j di Lo Hg Hj p Tr) as [_ E].
  destruct (lblk_small fs G x Hx) as [_ Hl]. pose proof (ptrs_range fs G).
  assert (key_ok fs (x / block_size fs)) as Hk by (unfold key_ok; lia).
  unfold fbyte. rewrite E by done. destruct (Z.eqb_spec (nodeb fs a p (x / block_size fs)) 0) as [H0|H0]; [done|].
  f_equal. by apply put_di_good, (to_good fs a p Tr).
Qed.
End Facts.

Section FileOps.
Context {D H T : Type} `{DD : BlockDev D} `{HH : Heap H} `{BM : !BlockMap H T}.
Abbreviation St := (fs_state D H T).
Context (fs : ext2_fs_priv) (G : geom_ok fs).
Context (TT : table_total (H := H) (T := T)).
Abbreviation rel := (reliable (D := D) (H := H)).
Abbreviation triple := (triple (D := D) (H := H) (T := T) fs).
Implicit Types (a : astate) (p : ext2_inode_priv) (i : inode).

Lemma read_data_ok a i pos count :
  tree_ok fs a (in_private i) -> 0 <= pos -> 0 <= count < 2 ^ 32 -> 0 <= in_size i <= max_bytes fs ->
  triple a (ext2_read_data fs i pos count)
    (fun r a' => a' = a /\
       (r = Some (fdata fs a (in_private i) pos (Z.min count (Z.max 0 (in_size i - pos)))) \/ ~ rel)).
Proof.
  intros Tr Hpos Hc Hs. unfold ext2_read_data. pose proof (bs_range fs (go_bs fs G)).
  destruct (in_size i <=? pos) eqn:E; breflect.
  { apply triple_ret. split; [done|]. left. rewrite Z.min_r by lia. rewrite Z.max_l by lia.
    unfold fdata. by rewrite seqZ_nil by lia. }
  rewrite Z.max_r by lia. cbv zeta. apply triple_with_buf; [done|lia|by auto|].
  assert ((if in_size i - pos <? count then u32 (in_size i - pos) else count)
    = Z.min count (in_size i - pos)) as ->.
  { destruct (_ <? count) eqn:E1; breflect; [rewrite u32_small by lia|]; lia. }
  apply (read_loop_ok fs G); [done|done|lia|lia|]. apply (rounds_fuel fs G); lia.
Qed.

Lemma refresh_ok a p : tree_ok fs a p ->
  triple a (ext2_refresh_i_blocks fs p)
    (fun p' a' => a' = a /\ exists n, u32_ok n /\ p' = set_p_blocks n p /\
       (n = u32 (blocks_used fs a p (Z.min (nblocks fs (p_size p)) (max_blocks fs)) * (block_size fs / 512)) \/ ~ rel)).
Proof.
  intros Tr. pose proof (bs_range fs (go_bs fs G)). pose proof (ptrs_range fs G) as [HP _].
  pose proof (u32_range (p_size p + block_size fs - 1)) as Hr.
  assert (0 <= nblocks fs (p_size p) < 2 ^ 32) as Hn.
  { unfold nblocks. split; [apply Z.div_pos; lia|]. apply Z.div_lt_upper_bound; nia. }
  assert (0 < max_blocks fs) by (unfold max_blocks; nia).
  eapply triple_bind.
  { apply (count_blocks_ok fs G a p _ 0 0 Tr); [done|lia|done|]. left. unfold blocks_used. by rewrite seqZ_nil. }
  intros used a' (-> & Hu). apply triple_ret. split; [done|]. eexists. split; [apply u32_range|]. split; [done|].
  destruct Hu as [?|[[? _]| ->]]; [by right|lia|left]. do 3 f_equal. lia.
Qed.

(** what a successful write leaves: the bytes, the size and the record *)
Record data_written a i g j pos (buf : list Z) a' i' : Prop := {
  dw_layout : layout_ok fs a';
  dw_tree : tree_ok fs a' (in_private i');
  dw_priv : priv_ok (in_private i');
  dw_data : forall x, 0 <= x < max_bytes fs -> fbyte fs a' (in_private i') x =
    if decide (pos <= x < pos + Z.of_nat (length buf)) then byte_at buf (x - pos)
    else fbyte fs a (in_private i) x;
  dw_size : in_size i' = Z.max (in_size i) (pos + Z.of_nat (length buf));
  dw_psize : p_size (in_private i') =
    if in_size i <? pos + Z.of_nat (length buf) then u32 (pos + Z.of_nat (length buf)) else p_size (in_private i);
  dw_record : di_of fs a' g j = ext2_priv_to_disk (in_private i');
  dw_frame : forall c, good fs a c -> ~ in_tree fs a (in_private i) c -> a_view a' c = a_view a c }.

Lemma ext2_now_u32 t : u32_ok (ext2_now t).
Proof. apply u32_range. Qed.

Lemma data_written_intro a i g j pos buf a1 p1 p2 :
  inode_pos_ok fs g j -> file_written fs a (in_private i) pos buf a1 p1 -> blocks_ok fs a1 ->
  priv_ok p2 -> p_block p2 = p_block p1 ->
  p_size p2 = (if in_size i <? pos + Z.of_nat (length buf) then u32 (pos + Z.of_nat (length buf))
               else p_size (in_private i)) ->
  forall i', in_private i' = p2 -> in_size i' = Z.max (in_size i) (pos + Z.of_nat (length buf)) ->
  data_written a i g j pos buf (put_di fs g j (ext2_priv_to_disk p2) a1) i'.
Proof.
  intros (Hg & Hj & Hle) W Hok Hp2 Eb Es i' <- Esz. destruct (priv_to_disk_ok _ Hp2) as [Hlen Hby].
  pose proof (fw_layout _ _ _ _ _ _ _ W) as Lo1. pose proof (fw_tree _ _ _ _ _ _ _ W) as Tr1.
  assert (tree_ok fs a1 (in_private i')) as Tr2 by by apply (tree_slots fs a1 p1).
  split.
  - by apply put_di_layout.
  - by apply put_di_tree.
  - done.
  - intros x Hx. rewrite (fbyte_put_di fs G) by done. rewrite (fbyte_slots fs a1 p1) by done.
    by apply (fw_data _ _ _ _ _ _ _ W).
  - done.
  - done.
  - apply (di_of_put fs G); done.
  - intros c Hc Hn. rewrite <- (fw_frame _ _ _ _ _ _ _ W c Hc Hn).
    by apply put_di_good, (fw_good _ _ _ _ _ _ _ W).
Qed.

Lemma write_data_ok clk a i g j pos buf :
  layout_ok fs a -> tree_ok fs a (in_private i) -> priv_ok (in_private i) -> inode_pos_ok fs g j ->
  p_ino (in_private i) = inode_no fs g j -> bytes_ok buf -> buf <> [] -> 0 <= pos -> 0 <= in_size i ->
  pos + Z.of_nat (length buf) <= max_bytes fs ->
  triple a (ext2_write_data clk fs i pos buf)
    (fun r a' => match r.1 with
                 | Some n => n = Z.of_nat (length buf) /\ data_written a i g j pos buf a' r.2
                 | None => no_room (D := D) (H := H) fs a'
                 end).
Proof.
  intros Lo Tr Hp Hpos Eino Hb Hne H0 Hs Hmax. unfold ext2_write_data. cbv zeta.
  pose proof (bs_range fs (go_bs fs G)) as Hbs. pose proof (ptrs_range fs G) as [HP _].
  assert (0 < Z.of_nat (length buf)) as Hlen by (destruct buf; simpl; [done|lia]).
  set (count := Z.of_nat (length buf)) in *.
  assert (max_bytes fs < 2 ^ 64) by (unfold max_bytes, max_blocks; nia).
  rewrite (u64_small (pos + count)) by lia.
  apply triple_with_buf; [done|lia|by left|].
  eapply triple_bind; [apply (write_loop_ok fs G TT); try done; apply (rounds_fuel fs G); lia|].
  intros [ok p1] a1 W. destruct ok; cbn [negb fst snd] in *; [|by apply triple_ret].
  rewrite (proj2 (Z.ltb_lt 0 count)) by done. cbn [orb].
  apply triple_blocks; [done|]. intros Hok1.
  set (p2 := set_p_times _ _ _). set (i2 := if in_size i <? pos + count then _ else _).
  assert (p_block p2 = p_block p1) as Eb2 by (unfold p2; destruct (_ <? _); done).
  assert (tree_ok fs a1 p2) as Tr2 by (apply (tree_slots fs a1 p1); [done|apply W]).
  assert (priv_ok p1) as Hp1 by (apply (priv_ok_grown fs G a1 (in_private i)); [done|apply W|apply W]).
  pose proof (fw_strip _ _ _ _ _ _ _ W) as Es.
  eapply triple_bind; [by apply refresh_ok|]. intros p3 a' (-> & n & Hn & -> & _).
  set (p3 := set_p_blocks n p2).
  assert (priv_ok p3) as Hp3.
  { unfold p3, p2. destruct Hp1. destruct (_ <? _); split; simpl; try done; try apply ext2_now_u32. apply u32_range. }
  destruct (priv_to_disk_ok p3 Hp3) as [Hl3 Hb3].
  assert (p_ino p3 = inode_no fs g j) as Eino3.
  { rewrite <- Eino. injection Es as Ei. unfold p3, p2. destruct (_ <? _); simpl; done. }
  eapply triple_bind. { unfold ext2_priv_save. rewrite Eino3. by apply (inode_write_ok fs G TT). }
  intros w a2 [[-> ->]|(-> & NR & _)]; cbn [Z.ltb Z.compare]; apply triple_ret; simpl; [|by left].
  split; [done|]. apply (data_written_intro a i g j pos buf a1 p1 p3); try done.
  - unfold p3, p2. fold count. destruct (_ <? _); simpl; [done|]. by injection Es.
  - unfold i2. fold count. destruct (in_size i <? pos + count) eqn:E; breflect; simpl; lia.
Qed.

End FileOps.
