(* ===== verification/Ext2Dirent.v ===== *)
(** Directory blocks as sequences of records.

    A record is the list of its bytes; a directory block is the concatenation
    of well-formed records ([recs] splits it), and its live entries are those
    of the records with a nonzero inode number.  The updates that adding and
    removing make are stated on records: filling an unused record, splitting
    the slack off a record, absorbing the following record. *)
From stdpp Require Import base gmap list numbers.
From Stdlib Require Import ZArith Lia.
From S2P Require Import Prelude Bytes HashMap BlockDev Ext2Cache Ext2CacheSpec Ext2 Ext2Dir.
Open Scope Z_scope.

(** ** Slices of a concatenation *)
Lemma slice_mid pre l post k n : (k + n <= length l)%nat ->
  slice (length pre + k) n (pre ++ l ++ post) = slice k n l.
Proof.
  intros Hl. unfold slice. rewrite drop_app_add.
  rewrite drop_app_le by lia. apply take_app_le. rewrite length_drop. lia.
Qed.

Lemma splice_mid pre l post k bs : (k + length bs <= length l)%nat ->
  splice (length pre + k) bs (pre ++ l ++ post) = pre ++ splice k bs l ++ post.
Proof.
  intros Hl. unfold splice. rewrite take_app_add. rewrite take_app_le by lia.
  rewrite <- Nat.add_assoc, drop_app_add.
  rewrite drop_app_le by lia. by rewrite <- !app_assoc.
Qed.

Lemma field_mid pre l post k n : (k + n <= length l)%nat ->
  field n (length pre + k) (pre ++ l ++ post) = field n k l.
Proof. intros. unfold field. by rewrite slice_mid. Qed.

Lemma set_field_mid pre l post k n v : (k + n <= length l)%nat ->
  set_field n (length pre + k) v (pre ++ l ++ post) = pre ++ set_field n k v l ++ post.
Proof. intros. unfold set_field. apply splice_mid. by rewrite length_le_enc. Qed.

(** ** Sizes *)
Lemma dirent_size_eq n : 0 <= n <= 255 -> dirent_size n = 4 * ((n + 11) / 4).
Proof.
  intros Hn. unfold dirent_size, SIZEOF_DIRENT.
  replace (8 + n + 3) with (n + 11) by lia.
  assert (Z.land (n + 11) (Z.lnot 3) = 4 * ((n + 11) / 4)) as ->.
  { change 3 with (Z.ones 2). rewrite <- Z.ldiff_land, Z.ldiff_ones_r by lia.
    rewrite Z.shiftl_mul_pow2, Z.shiftr_div_pow2 by lia. change (2 ^ 2) with 4. lia. }
  apply u16_small. pose proof (Z.div_mod (n + 11) 4 ltac:(lia)).
  pose proof (Z.mod_pos_bound (n + 11) 4 ltac:(lia)). lia.
Qed.

Lemma dirent_size_bounds n : 0 <= n <= 255 -> n + 8 <= dirent_size n <= n + 11.
Proof.
  intros Hn. rewrite dirent_size_eq by done. pose proof (Z.div_mod (n + 11) 4 ltac:(lia)).
  pose proof (Z.mod_pos_bound (n + 11) 4 ltac:(lia)). lia.
Qed.

(** ** Records *)
Definition r_ino := field 4 0.
Definition r_len := field 2 4.
Definition r_nl := field 1 6.
Definition r_ty := field 1 7.
Definition r_name (l : list Z) : list Z := slice 8 (Z.to_nat (r_nl l)) l.

Record rec_ok (l : list Z) : Prop := {
  ro_min : 8 <= Z.of_nat (length l);
  ro_len : r_len l = Z.of_nat (length l);
  ro_fit : dirent_size (r_nl l) <= Z.of_nat (length l);
  ro_bytes : bytes_ok l }.

(** name, inode number, type *)
Definition dentry : Type := list Z * Z * Z.
Definition rec_ents (l : list Z) : list dentry :=
  if r_ino l =? 0 then [] else [(r_name l, r_ino l, r_ty l)].
Definition ents_of (rs : list (list Z)) : list dentry := concat (rec_ents <$> rs).

Lemma ents_of_app rs rs' : ents_of (rs ++ rs') = ents_of rs ++ ents_of rs'.
Proof. unfold ents_of. by rewrite fmap_app, concat_app. Qed.
Lemma ents_of_cons l rs : ents_of (l :: rs) = rec_ents l ++ ents_of rs.
Proof. done. Qed.

Lemma r_nl_range l : bytes_ok l -> 0 <= r_nl l <= 255.
Proof.
  intros Hb. unfold r_nl, field. pose proof (le_dec_bound _ (slice_ok 6 1 l Hb)) as B.
  assert (2 ^ (8 * Z.of_nat (length (slice 6 1 l))) <= 2 ^ 8); [|lia].
  apply Z.pow_le_mono_r; [lia|]. unfold slice. rewrite length_take. lia.
Qed.

Lemma rec_name_fits l : rec_ok l -> r_nl l + 8 <= Z.of_nat (length l).
Proof.
  intros [A B C E]. pose proof (dirent_size_bounds _ (r_nl_range l E)). lia.
Qed.

(** *** Splitting a block into records *)
Fixpoint split_recs (n : nat) (buf : list Z) : list (list Z) :=
  match n with
  | O => []
  | S n' =>
      if (length buf <? 8)%nat then [] else
      let r := Z.to_nat (r_len buf) in
      if (r <? 8)%nat then [] else take r buf :: split_recs n' (drop r buf)
  end.
Definition recs (buf : list Z) : list (list Z) := split_recs (length buf) buf.

Definition recs_ok (rs : list (list Z)) : Prop := Forall rec_ok rs.
Definition dir_block_ok (buf : list Z) : Prop := exists rs, recs_ok rs /\ buf = concat rs.
Definition block_ents (buf : list Z) : list dentry := ents_of (recs buf).

Lemma split_recs_concat rs : recs_ok rs -> forall n, (length (concat rs) <= n)%nat ->
  split_recs n (concat rs) = rs.
Proof.
  induction rs as [|l rs IH]; intros Hok n Hn; [by destruct n|].
  apply Forall_cons_iff in Hok as [Hl Hrs]. simpl in Hn |- *. rewrite length_app in Hn.
  pose proof (ro_min l Hl). destruct n as [|n]; [lia|]. cbn [split_recs].
  rewrite (proj2 (Nat.ltb_ge _ _)) by (rewrite length_app; lia).
  assert (r_len (l ++ concat rs) = Z.of_nat (length l)) as ->.
  { rewrite <- (ro_len l Hl). apply (field_mid [] l (concat rs) 4 2). lia. }
  rewrite Nat2Z.id. cbv zeta. rewrite (proj2 (Nat.ltb_ge _ _)) by lia.
  rewrite take_app_length, drop_app_length. f_equal. apply IH; [done|lia].
Qed.

Lemma recs_concat rs : recs_ok rs -> recs (concat rs) = rs.
Proof. intros Hok. by apply split_recs_concat. Qed.
Lemma block_ents_concat rs : recs_ok rs -> block_ents (concat rs) = ents_of rs.
Proof. intros Hok. unfold block_ents. by rewrite recs_concat. Qed.

Lemma recs_count rs : recs_ok rs -> (8 * length rs <= length (concat rs))%nat.
Proof.
  induction 1 as [|l rs Hl _ IH]; simpl; [lia|]. rewrite length_app. pose proof (ro_min l Hl). lia.
Qed.

(** *** Filling a record *)
Definition put_rec (rl : option Z) (ino ty : Z) (name l : list Z) : list Z :=
  let l := set_field 4 0 ino l in
  let l := match rl with None => l | Some r => set_field 2 4 r l end in
  let l := set_field 1 6 (u8 (Z.of_nat (length name))) l in
  let l := set_field 1 7 ty l in
  splice 8 name l.

Definition entry_ok (name : list Z) (ino ty : Z) : Prop :=
  (1 <= length name <= 255)%nat /\ bytes_ok name /\ u32_ok ino /\ ino <> 0 /\ 0 <= ty < 256.

Lemma field_splice_before n off off' bs l :
  (off + n <= off')%nat -> (off' <= length l)%nat -> field n off (splice off' bs l) = field n off l.
Proof. intros. unfold field. by rewrite slice_splice_before. Qed.

Lemma length_put_rec rl ino ty name l : (8 + length name <= length l)%nat ->
  length (put_rec rl ino ty name l) = length l.
Proof.
  intros Hl. unfold put_rec. rewrite length_splice.
  - destruct rl; repeat (apply length_set_field_eq; [|lia]); done.
  - assert (forall m, m = length l -> 8 + length name <= m)%nat as Hm by lia. apply Hm.
    destruct rl; repeat (apply length_set_field_eq; [|lia]); done.
Qed.

Lemma put_rec_ok rl ino ty name l :
  entry_ok name ino ty -> 8 <= Z.of_nat (length l) < 2 ^ 16 -> bytes_ok l ->
  dirent_size (Z.of_nat (length name)) <= Z.of_nat (length l) ->
  (match rl with None => r_len l | Some r => r end) = Z.of_nat (length l) ->
  rec_ok (put_rec rl ino ty name l) /\ rec_ents (put_rec rl ino ty name l) = [(name, ino, ty)].
Proof.
  intros (Hn & Hnb & Hi & Hi0 & Hty) Hl Hb Hfit Hrl.
  pose proof (dirent_size_bounds (Z.of_nat (length name)) ltac:(lia)) as Hd.
  assert (8 + length name <= length l)%nat as Hle by lia.
  pose proof (length_put_rec rl ino ty name l Hle) as Hlen.
  set (l1 := set_field 4 0 ino l) in *.
  set (l2 := match rl with None => l1 | Some r => set_field 2 4 r l1 end).
  set (l3 := set_field 1 6 (u8 (Z.of_nat (length name))) l2). set (l4 := set_field 1 7 ty l3).
  assert (length l1 = length l) as L1 by (apply length_set_field; lia).
  assert (length l2 = length l) as L2 by (unfold l2; destruct rl; [apply length_set_field_eq; [done|lia]|done]).
  assert (length l3 = length l) as L3 by (apply length_set_field_eq; [done|lia]).
  assert (length l4 = length l) as L4 by (apply length_set_field_eq; [done|lia]).
  assert (put_rec rl ino ty name l = splice 8 name l4) as E by done. rewrite E in *.
  assert (r_nl (splice 8 name l4) = Z.of_nat (length name)) as Enl.
  { unfold r_nl. rewrite field_splice_before by lia. unfold l4. rewrite field_set_disjoint by lia.
    unfold l3. rewrite field_set_same by lia. rewrite Z.mod_small by apply u8_range. apply u8_small. lia. }
  assert (r_ino (splice 8 name l4) = ino) as Eino.
  { unfold r_ino. rewrite field_splice_before by lia. unfold l4. rewrite field_set_disjoint by lia. unfold l3. rewrite field_set_disjoint by lia.
    assert (field 4 0 l1 = ino) as E1 by (unfold l1; rewrite field_set_same by lia; by apply Z.mod_small).
    unfold l2. destruct rl; [rewrite field_set_disjoint by lia|]; done. }
  assert (r_ty (splice 8 name l4) = ty) as Ety.
  { unfold r_ty. rewrite field_splice_before by lia. unfold l4. rewrite field_set_same by lia. by apply Z.mod_small. }
  assert (r_len (splice 8 name l4) = Z.of_nat (length l)) as Elen.
  { unfold r_len. rewrite field_splice_before by lia. unfold l4. rewrite field_set_disjoint by lia. unfold l3. rewrite field_set_disjoint by lia.
    unfold l2. destruct rl as [r|]; [rewrite field_set_same by lia; rewrite Hrl; apply Z.mod_small; lia|].
    unfold l1. rewrite field_set_disjoint by lia. exact Hrl. }
  split.
  - split; rewrite ?Hlen, ?Enl; [lia|done|done|]. apply splice_ok; [done|]. unfold l4, l3, l2, l1, set_field.
    destruct rl; repeat (apply splice_ok; [apply le_enc_ok|]); done.
  - unfold rec_ents. rewrite Eino, Ety, (proj2 (Z.eqb_neq _ _)) by done. unfold r_name. rewrite Enl, Nat2Z.id.
    rewrite slice_splice_same by lia. done.
Qed.

(** an unused record *)
Lemma zero_rec_ok l : 8 <= Z.of_nat (length l) < 2 ^ 16 -> bytes_ok l ->
  let l' := set_field 1 7 0 (set_field 1 6 0 (set_field 2 4 (Z.of_nat (length l)) (set_field 4 0 0 l))) in
  rec_ok l' /\ rec_ents l' = [].
Proof.
  intros Hl Hb l'. set (N := length l) in *.
  assert (length (set_field 4 0 0 l) = N) as L1 by (apply length_set_field_eq; [done|lia]).
  assert (length (set_field 2 4 (Z.of_nat N) (set_field 4 0 0 l)) = N) as L2
    by (apply length_set_field_eq; [done|lia]).
  assert (length (set_field 1 6 0 (set_field 2 4 (Z.of_nat N) (set_field 4 0 0 l))) = N) as L3
    by (apply length_set_field_eq; [done|lia]).
  assert (length l' = N) as L4 by (apply length_set_field_eq; [done|lia]).
  assert (r_ino l' = 0) as Ei.
  { unfold r_ino, l'. rewrite !(field_set_disjoint_len N) by (done || lia). by rewrite field_set_same by lia. }
  split.
  - split; rewrite ?L4; [lia|..].
    + unfold r_len, l'. rewrite !(field_set_disjoint_len N) by (done || lia).
      rewrite field_set_same by lia. apply Z.mod_small. lia.
    + assert (r_nl l' = 0) as ->; [|change (dirent_size 0) with 8; lia].
      unfold r_nl, l'. rewrite (field_set_disjoint_len N) by (done || lia). by rewrite field_set_same by lia.
    + unfold l', set_field. repeat (apply splice_ok; [apply le_enc_ok|]). done.
  - unfold rec_ents. by rewrite Ei.
Qed.

(** *** Changing the length of a record *)
Lemma relen_ok l m : rec_ok l -> bytes_ok m -> dirent_size (r_nl l) <= Z.of_nat (length m) < 2 ^ 16 ->
  (forall off n, (Z.of_nat (off + n) <= dirent_size (r_nl l)) -> slice off n m = slice off n l) ->
  let m' := set_field 2 4 (Z.of_nat (length m)) m in rec_ok m' /\ rec_ents m' = rec_ents l.
Proof.
  intros Hl Hb Hm Hs m'. pose proof (dirent_size_bounds _ (r_nl_range l (ro_bytes l Hl))) as Hd.
  pose proof (r_nl_range l (ro_bytes l Hl)).
  assert (length m' = length m) as Hlen by (apply length_set_field; lia).
  assert (r_nl m' = r_nl l) as Enl.
  { unfold r_nl, m'. rewrite field_set_disjoint by lia. unfold field. rewrite Hs; [done|lia]. }
  assert (r_ino m' = r_ino l) as Ei.
  { unfold r_ino, m'. rewrite field_set_disjoint by lia. unfold field. rewrite Hs; [done|lia]. }
  assert (r_ty m' = r_ty l) as Et.
  { unfold r_ty, m'. rewrite field_set_disjoint by lia. unfold field. rewrite Hs; [done|lia]. }
  assert (r_name m' = r_name l) as En.
  { unfold r_name. rewrite Enl. unfold m', set_field. rewrite slice_splice_after by (rewrite length_le_enc; lia).
    apply Hs. lia. }
  split; [|unfold rec_ents; by rewrite Ei, En, Et]. split; rewrite ?Hlen, ?Enl; [lia| |lia|].
  - unfold r_len, m'. rewrite field_set_same by lia. apply Z.mod_small. lia.
  - apply splice_ok; [apply le_enc_ok|done].
Qed.

Lemma slice_app_l (l m : list Z) off n : (off + n <= length l)%nat -> slice off n (l ++ m) = slice off n l.
Proof. intros. apply (slice_mid [] l m off n). lia. Qed.

(** cutting the slack of a record off *)
Lemma cut_rec_ok l x y : rec_ok l -> l = x ++ y -> Z.of_nat (length x) = dirent_size (r_nl l) ->
  rec_ok (set_field 2 4 (dirent_size (r_nl l)) x) /\ rec_ents (set_field 2 4 (dirent_size (r_nl l)) x) = rec_ents l.
Proof.
  intros Hl E Hx. rewrite <- Hx. pose proof (dirent_size_bounds _ (r_nl_range l (ro_bytes l Hl))) as Hd.
  pose proof (r_nl_range l (ro_bytes l Hl)). apply relen_ok; [done|..].
  - pose proof (ro_bytes l Hl) as Hb. rewrite E in Hb. by apply Forall_app in Hb as [? _].
  - lia.
  - intros off n Hn. rewrite E. rewrite slice_app_l by lia. done.
Qed.

(** taking over the bytes that follow *)
Lemma absorb_ok l m : rec_ok l -> bytes_ok m -> Z.of_nat (length l) + Z.of_nat (length m) < 2 ^ 16 ->
  rec_ok (set_field 2 4 (Z.of_nat (length (l ++ m))) (l ++ m)) /\
  rec_ents (set_field 2 4 (Z.of_nat (length (l ++ m))) (l ++ m)) = rec_ents l.
Proof.
  intros Hl Hm Hlt. pose proof (ro_fit l Hl). apply relen_ok; [done|..].
  - apply Forall_app. split; [apply Hl|done].
  - rewrite length_app. lia.
  - intros off n Hn. apply slice_app_l. lia.
Qed.

(** dropping the entry *)
Lemma kill_rec_ok l : rec_ok l -> rec_ok (set_field 4 0 0 l) /\ rec_ents (set_field 4 0 0 l) = [].
Proof.
  intros Hl. pose proof (ro_min l Hl). assert (length (set_field 4 0 0 l) = length l) as Hlen by (apply length_set_field; lia).
  split.
  - split; rewrite ?Hlen; [lia|..].
    + unfold r_len. rewrite field_set_disjoint by lia. apply Hl.
    + unfold r_nl. rewrite field_set_disjoint by lia. apply Hl.
    + apply splice_ok; [apply le_enc_ok|apply Hl].
  - unfold rec_ents, r_ino. by rewrite field_set_same by lia.
Qed.

(** an unused record split in two: the first part is filled, the rest unused *)
Definition split_free (need rest : Z) (l : list Z) : list Z :=
  set_field 1 (Z.to_nat (need + 7)) 0 (set_field 1 (Z.to_nat (need + 6)) 0
    (set_field 2 (Z.to_nat (need + 4)) rest (set_field 4 (Z.to_nat need) 0 (set_field 2 4 need l)))).

Lemma split_free_eq need x y : Z.of_nat (length x) = need -> 8 <= need -> (8 <= length y)%nat ->
  split_free need (Z.of_nat (length y)) (x ++ y) = set_field 2 4 need x ++
    set_field 1 7 0 (set_field 1 6 0 (set_field 2 4 (Z.of_nat (length y)) (set_field 4 0 0 y))).
Proof.
  intros Hx H8 Hy. unfold split_free. subst need.
  assert (set_field 2 4 (Z.of_nat (length x)) (x ++ y) = set_field 2 4 (Z.of_nat (length x)) x ++ y) as ->.
  { pose proof (set_field_mid [] x y 4 2 (Z.of_nat (length x)) ltac:(lia)) as E. exact E. }
  set (x1 := set_field 2 4 _ x). assert (length x1 = length x) as Hx1 by (apply length_set_field; lia).
  assert (forall k n v m, (k + n <= length m)%nat ->
    set_field n (Z.to_nat (Z.of_nat (length x) + Z.of_nat k)) v (x1 ++ m) = x1 ++ set_field n k v m) as Hs.
  { intros k n v m Hm. pose proof (set_field_mid x1 m [] k n v Hm) as E. rewrite !app_nil_r in E.
    rewrite <- E. f_equal. lia. }
  pose proof (Hs 0%nat 4%nat 0 y ltac:(lia)) as E0. rewrite Z.add_0_r in E0. rewrite E0. clear E0.
  set (N := length y) in *.
  assert (length (set_field 4 0 0 y) = N) as L1 by (apply length_set_field_eq; [done|lia]).
  rewrite (Hs 4%nat) by lia.
  assert (length (set_field 2 4 (Z.of_nat N) (set_field 4 0 0 y)) = N) as L2
    by (apply length_set_field_eq; [done|lia]).
  rewrite (Hs 6%nat) by lia. rewrite (Hs 7%nat); [done|].
  rewrite (length_set_field_eq 1 6 0 _ N L2); lia.
Qed.
