(* ===== verification/Ext2DirSpec.v ===== *)
(** Directories refine a list of entries.

    [dents] lists the live entries of a directory; searching answers from
    this list, adding extends it by one entry, removing deletes the first
    entry with the name and the emptiness test sees only "." and "..".
    [dir_ok] is the invariant: every block of the directory is a sequence of
    well-formed records. *)
From stdpp Require Import base gmap list numbers.
From Stdlib Require Import ZArith Lia.
From S2P Require Import Prelude Bytes HashMap BlockDev Ext2Cache Ext2CacheSpec Ext2 Ext2Logic Ext2Alloc Ext2Map Ext2Tree Ext2GetBlock Ext2Dir Ext2File Ext2Data Ext2Inode Ext2FileSpec Ext2Dirent.
Open Scope Z_scope.

(** ** Records inside a block *)
Section Buffer.
Context {D H T : Type} `{DD : BlockDev D} `{HH : Heap H} `{BM : !BlockMap H T}.
Abbreviation St := (fs_state D H T).

(** [o] is offset [k] of the record [l] *)
Lemma ldf_rec pre l post n k o : o = Z.of_nat (length pre + k) -> (k + n <= length l)%nat ->
  ldf n o (pre ++ l ++ post) = (mret (field n k l) : M St Z).
Proof.
  intros -> Hk. unfold ldf. rewrite in_buf_true by (rewrite ?length_app; lia).
  by rewrite Nat2Z.id, field_mid.
Qed.
Lemma stb_rec pre l post bs k o : o = Z.of_nat (length pre + k) -> (k + length bs <= length l)%nat ->
  stb o bs (pre ++ l ++ post) = (mret (pre ++ splice k bs l ++ post) : M St (list Z)).
Proof.
  intros -> Hk. unfold stb. rewrite in_buf_true by (rewrite ?length_app; lia).
  by rewrite Nat2Z.id, splice_mid.
Qed.
Lemma stf_rec pre l post n k v o : o = Z.of_nat (length pre + k) -> (k + n <= length l)%nat ->
  stf n o v (pre ++ l ++ post) = (mret (pre ++ set_field n k v l ++ post) : M St (list Z)).
Proof. intros. apply stb_rec; [done|by rewrite length_le_enc]. Qed.

Lemma memcmp_rec pre l post name : forall k o, o = Z.of_nat (length pre + k) ->
  (k + length name <= length l)%nat -> bytes_ok l ->
  memcmp_eq o name (pre ++ l ++ post) = (mret (bool_decide (slice k (length name) l = name)) : M St bool).
Proof.
  induction name as [|c name IH]; intros k o Ho Hk Hb; cbn [memcmp_eq]; [by rewrite bool_decide_true by done|].
  simpl in Hk. rewrite (ldf_rec pre l post 1 k o) by (done || lia).
  change (mbind' (mret ?x) ?f) with (f x). cbv beta.
  destruct (lookup_lt_is_Some_2 l k ltac:(lia)) as [b Eb].
  assert (slice k (length (c :: name)) l = b :: slice (S k) (length name) l) as Es.
  { unfold slice. rewrite (drop_S l b k Eb). done. }
  assert (field 1 k l = b) as Ef.
  { unfold field, slice. rewrite (drop_S l b k Eb). simpl. lia. }
  rewrite Ef, Es. destruct (Z.eqb_spec b c) as [->|Hne]; cbn [negb].
  - rewrite (IH (S k) (o + 1)) by (done || lia). f_equal. apply bool_decide_ext. split; congruence.
  - by rewrite bool_decide_false by congruence.
Qed.

Definition names (name l : list Z) : bool := negb (r_ino l =? 0) && bool_decide (r_name l = name).

Lemma entry_is_rec pre l post name : rec_ok l ->
  entry_is (Z.of_nat (length pre)) name (pre ++ l ++ post) = (mret (names name l) : M St bool).
Proof.
  intros Hl. pose proof (ro_min l Hl). pose proof (rec_name_fits l Hl). unfold entry_is, e_inode, names.
  rewrite (ldf_rec pre l post 4 0) by lia. change (mbind' (mret ?x) ?f) with (f x). cbv beta.
  fold (r_ino l). destruct (r_ino l =? 0); [done|]. cbn [negb andb]. unfold e_name_len.
  rewrite (ldf_rec pre l post 1 6) by lia. change (mbind' (mret ?x) ?f) with (f x). cbv beta. fold (r_nl l).
  destruct (Z.eqb_spec (r_nl l) (Z.of_nat (length name))) as [En|En]; cbn [negb].
  - unfold SIZEOF_DIRENT. rewrite (memcmp_rec pre l post name 8) by (apply Hl || lia).
    unfold r_name. by rewrite En, Nat2Z.id.
  - rewrite bool_decide_false; [done|]. intros E. apply En. rewrite <- E. unfold r_name.
    pose proof (r_nl_range l (ro_bytes l Hl)). rewrite length_slice; lia.
Qed.

Lemma put_entry_rec pre l post rl ino ty name :
  (8 + length name <= length l)%nat ->
  put_entry_at (Z.of_nat (length pre)) rl ino ty name (pre ++ l ++ post)
  = (mret (pre ++ put_rec rl ino ty name l ++ post) : M St (list Z)).
Proof.
  intros Hl. unfold put_entry_at, put_rec, SIZEOF_DIRENT. set (N := length l) in *.
  rewrite (stf_rec pre l post 4 0) by lia. change (mbind' (mret ?x) ?f) with (f x). cbv beta.
  set (l1 := set_field 4 0 ino l). assert (length l1 = N) as L1 by (apply length_set_field_eq; [done|lia]).
  assert ((match rl with
           | None => mret (pre ++ l1 ++ post)
           | Some r => stf 2 (Z.of_nat (length pre) + 4) r (pre ++ l1 ++ post)
           end : M St (list Z)) = mret (pre ++ match rl with None => l1 | Some r => set_field 2 4 r l1 end ++ post)) as ->.
  { destruct rl; [|done]. by rewrite (stf_rec pre l1 post 2 4) by lia. }
  set (l2 := match rl with None => l1 | Some r => set_field 2 4 r l1 end).
  assert (length l2 = N) as L2 by (unfold l2; destruct rl; [apply length_set_field_eq; [done|lia]|done]).
  change (mbind' (mret ?x) ?f) with (f x). cbv beta. rewrite (stf_rec pre l2 post 1 6) by lia.
  change (mbind' (mret ?x) ?f) with (f x). cbv beta.
  set (l3 := set_field 1 6 _ l2). assert (length l3 = N) as L3 by (apply length_set_field_eq; [done|lia]).
  rewrite (stf_rec pre l3 post 1 7) by lia. change (mbind' (mret ?x) ?f) with (f x). cbv beta.
  set (l4 := set_field 1 7 ty l3). assert (length l4 = N) as L4 by (apply length_set_field_eq; [done|lia]).
  by rewrite (stb_rec pre l4 post name 8) by lia.
Qed.
End Buffer.

(** ** Rules for the two loops *)
Section Loops.
Context {D H T : Type} `{DD : BlockDev D} `{HH : Heap H} `{BM : !BlockMap H T}.
Abbreviation St := (fs_state D H T).
Context (fs : ext2_fs_priv) (G : geom_ok fs).
Abbreviation rel := (reliable (D := D) (H := H)).
Abbreviation triple := (triple (D := D) (H := H) (T := T) fs).
Implicit Types (a : astate) (p : ext2_inode_priv).

Definition stop {A} (Q : scan A -> astate -> Prop) (C : Prop) a (r : scan A) a' : Prop :=
  match r with Continue => a' = a /\ C | r => Q r a' end.

Lemma entries_triple {A} a (body : Z -> Z -> M St (scan A)) (Q : scan A -> astate -> Prop) rs
    (Inv : list (list Z) -> Prop) :
  recs_ok rs -> Z.of_nat (length (concat rs)) = block_size fs ->
  Inv [] ->
  (forall done l todo, rs = done ++ l :: todo -> Inv done -> rec_ok l ->
     triple a (body (Z.of_nat (length (concat done))) (Z.of_nat (length l))) (stop Q (Inv (done ++ [l])) a)) ->
  (Inv rs -> Q Continue a) ->
  triple a (entries (dir_fuel fs) fs (concat rs) 0 body) Q.
Proof.
  intros Hok Hlen I0 Hb HQ. pose proof (bs_range fs (go_bs fs G)).
  assert (forall todo done fuel, rs = done ++ todo -> Inv done -> (length todo < fuel)%nat ->
    triple a (entries fuel fs (concat rs) (Z.of_nat (length (concat done))) body) Q) as Hgen.
  { induction todo as [|l todo IH]; intros done fuel E I Hf; (destruct fuel as [|fuel]; [lia|]); cbn [entries].
    - rewrite app_nil_r in E. subst done. unfold SIZEOF_DIRENT. rewrite (proj2 (Z.ltb_lt _ _)) by lia.
      apply triple_ret. auto.
    - assert (rec_ok l) as Hl by (rewrite E in Hok; by apply Forall_app in Hok as [_ [? _]%Forall_cons_iff]).
      pose proof (ro_min l Hl). assert (concat rs = concat done ++ l ++ concat todo) as Ec.
      { rewrite E, concat_app. done. }
      assert (Z.of_nat (length (concat done)) + Z.of_nat (length l) <= block_size fs) as Hle.
      { rewrite <- Hlen, Ec, !length_app. lia. }
      rewrite (proj2 (Z.ltb_ge _ _)) by (unfold SIZEOF_DIRENT; lia).
      unfold e_rec_len. rewrite Ec, (ldf_rec _ _ _ 2 4) by lia. change (mbind' (mret ?x) ?f) with (f x). cbv beta.
      fold (r_len l). rewrite (ro_len l Hl). rewrite (proj2 (Z.ltb_ge _ _)) by (unfold SIZEOF_DIRENT; lia).
      eapply triple_bind; [by eapply Hb|]. intros r a' Hr. destruct r as [|x|]; cbn [stop] in Hr.
      + destruct Hr as [-> I']. rewrite <- Ec.
        replace (Z.of_nat (length (concat done)) + Z.of_nat (length l))
          with (Z.of_nat (length (concat (done ++ [l])))).
        2:{ rewrite concat_app, length_app. simpl. rewrite app_nil_r. lia. }
        apply IH; [by rewrite <- app_assoc|done|simpl in Hf; lia].
      + by apply triple_ret.
      + by apply triple_ret. }
  apply (Hgen rs [] (dir_fuel fs)); [done|done|]. unfold dir_fuel. pose proof (recs_count rs Hok). lia.
Qed.

Lemma dir_blocks_triple {A} a p n (body : Z -> Z -> list Z -> M St (scan A)) (Q : scan A -> astate -> Prop)
    (Inv : Z -> Prop) : forall l0,
  tree_ok fs a p -> 0 <= l0 -> l0 + Z.of_nat n <= max_blocks fs -> Inv l0 ->
  (forall l, l0 <= l < l0 + Z.of_nat n -> Inv l -> nodeb fs a p l = 0 -> Inv (l + 1)) ->
  (~ rel -> Q Error a /\ forall l, Inv l) ->
  (forall l, l0 <= l < l0 + Z.of_nat n -> Inv l -> nodeb fs a p l <> 0 ->
     triple a (body l (nodeb fs a p l) (a_view a (nodeb fs a p l))) (stop Q (Inv (l + 1)) a)) ->
  (Inv (l0 + Z.of_nat n) -> Q Continue a) ->
  triple a (dir_blocks n fs p l0 body) Q.
Proof.
  induction n as [|n IH]; intros l0 Tr Hl0 Hmax I0 Hhole Hbad Hb HQ; cbn [dir_blocks].
  { apply triple_ret, HQ. by rewrite Z.add_0_r. }
  assert (forall I : Inv (l0 + 1), triple a (dir_blocks n fs p (l0 + 1) body) Q) as Hnext.
  { intros I1. apply IH; try done; try lia.
    - intros l Hl. apply Hhole. lia.
    - intros l Hl. apply Hb. lia.
    - intros I2. apply HQ. replace (l0 + Z.of_nat (S n)) with (l0 + 1 + Z.of_nat n) by lia. done. }
  eapply triple_bind; [by apply (get_block_look_ok fs G)|].
  intros [o p'] a' (-> & _ & _ & Hlook). cbn [fst snd] in Hlook |- *. specialize (Hlook ltac:(lia)).
  assert (key_ok fs l0) as Hk by (pose proof (ptrs_range fs G); unfold key_ok; lia).
  destruct Hlook as [->|[Hr [->| ->]]].
  - destruct (Z.eqb_spec (nodeb fs a p l0) 0) as [E|E]; [apply Hnext, Hhole; [lia|done|done]|].
    eapply triple_bind; [by apply triple_read_block, (to_good fs a p Tr)|].
    intros r a' (-> & [->|[-> Hr]]); [|apply triple_ret; by apply Hbad].
    eapply triple_bind; [apply Hb; [lia|done|done]|].
    intros r a' HR. destruct r as [|x|]; cbn [stop] in HR.
    + destruct HR as [-> I1]. by apply Hnext.
    + by apply triple_ret.
    + by apply triple_ret.
  - cbn [Z.eqb]. by apply Hnext, Hbad.
  - apply triple_ret. by apply Hbad.
Qed.
End Loops.

(** ** The abstract directory *)
Section AbsDir.
Context (fs : ext2_fs_priv).
Implicit Types (a : astate) (p : ext2_inode_priv).

Definition block_dents a p (l : Z) : list dentry :=
  if nodeb fs a p l =? 0 then [] else block_ents (a_view a (nodeb fs a p l)).
(** the entries of the first [n] blocks *)
Definition dents_to a p (n : Z) : list dentry := concat (block_dents a p <$> seqZ 0 n).
Definition dents a p : list dentry := dents_to a p (nblocks fs (p_size p)).

Record dir_ok a p : Prop := {
  do_size : p_size p = nblocks fs (p_size p) * block_size fs;
  do_room : 0 <= p_size p <= 2 ^ 32 - block_size fs;
  do_max : nblocks fs (p_size p) <= max_blocks fs;
  do_recs : forall l, 0 <= l < nblocks fs (p_size p) -> nodeb fs a p l <> 0 ->
    dir_block_ok (a_view a (nodeb fs a p l)) }.

Lemma dents_to_S a p n : 0 <= n -> dents_to a p (n + 1) = dents_to a p n ++ block_dents a p n.
Proof.
  intros Hn. unfold dents_to. rewrite seqZ_app by lia. rewrite fmap_app, concat_app. f_equal.
  rewrite Z.add_0_l, (seqZ_cons n 1) by lia. change (Z.pred 1) with 0. rewrite seqZ_nil by lia. simpl.
  apply app_nil_r.
Qed.

Lemma dents_to_ext a p a' p' n : (forall l, 0 <= l < n -> block_dents a' p' l = block_dents a p l) ->
  dents_to a' p' n = dents_to a p n.
Proof.
  intros E. unfold dents_to. f_equal. apply list_fmap_ext. intros i x Hx.
  apply lookup_seqZ in Hx as [-> Hi]. apply E. lia.
Qed.

(** one block of the first [n] changed *)
Lemma dents_to_change a p a' p' n l : 0 <= l < n ->
  (forall k, 0 <= k < n -> k <> l -> block_dents a' p' k = block_dents a p k) ->
  exists pre post, dents_to a p n = pre ++ block_dents a p l ++ post /\
    dents_to a' p' n = pre ++ block_dents a' p' l ++ post /\ pre = dents_to a p l.
Proof.
  intros Hl E. exists (dents_to a p l), (concat (block_dents a p <$> seqZ (l + 1) (n - l - 1))).
  assert (forall b q, dents_to b q n = dents_to b q l ++ block_dents b q l ++
    concat (block_dents b q <$> seqZ (l + 1) (n - l - 1))) as Hs.
  { intros b q. rewrite app_assoc, <- dents_to_S by lia. unfold dents_to.
    rewrite <- concat_app, <- fmap_app. do 2 f_equal. replace n with ((l + 1) + (n - l - 1)) at 1 by lia.
    by rewrite seqZ_app by lia. }
  split; [apply Hs|]. split; [|done]. rewrite Hs. f_equal; [|f_equal].
  - apply dents_to_ext. intros k Hk. apply E; lia.
  - f_equal. apply list_fmap_ext. intros i x Hx. apply lookup_seqZ in Hx as [-> Hi]. apply E; lia.
Qed.

(** the first entry with a name *)
Fixpoint dlookup (name : list Z) (l : list dentry) : option Z :=
  match l with
  | [] => None
  | (n, ino, _) :: l' => if decide (n = name) then Some ino else dlookup name l'
  end.
Fixpoint ddelete (name : list Z) (l : list dentry) : list dentry :=
  match l with
  | [] => []
  | e :: l' => if decide (e.1.1 = name) then l' else e :: ddelete name l'
  end.

Lemma dlookup_app name l l' : dlookup name l = None -> dlookup name (l ++ l') = dlookup name l'.
Proof.
  induction l as [|[[n i] t] l IH]; simpl; [done|]. case_decide; [done|]. auto.
Qed.
Lemma ddelete_app name l l' : dlookup name l = None -> ddelete name (l ++ l') = l ++ ddelete name l'.
Proof.
  induction l as [|[[n i] t] l IH]; simpl; [done|]. case_decide; [done|]. intros. by rewrite IH.
Qed.
Lemma dlookup_app_Some name l l' ino : dlookup name l = Some ino -> dlookup name (l ++ l') = Some ino.
Proof. induction l as [|[[n i] t] l IH]; simpl; [done|]. case_decide; [done|]. auto. Qed.
Lemma dlookup_None name l : dlookup name l = None <-> forall e, e ∈ l -> e.1.1 <> name.
Proof.
  induction l as [|[[n i] t] l IH]; simpl; [split; [|done]; intros _ e He; by apply elem_of_nil in He|].
  case_decide as Dq.
  - split; [done|]. intros Hall. exfalso. apply (Hall (n, i, t)); [left|done].
  - rewrite IH. split; intros Hall e.
    + intros [->|He]%elem_of_cons; [done|by apply Hall].
    + intros He. apply Hall. by right.
Qed.

Lemma names_ents name l :
  if names name l then rec_ents l = [(name, r_ino l, r_ty l)] else dlookup name (rec_ents l) = None.
Proof.
  unfold names, rec_ents. destruct (r_ino l =? 0); cbn [negb andb]; [done|].
  destruct (decide (r_name l = name)) as [E|E].
  - rewrite bool_decide_true by done. by rewrite E.
  - rewrite bool_decide_false by done. simpl. by rewrite decide_False.
Qed.
End AbsDir.

Section DirOps.
Context {D H T : Type} `{DD : BlockDev D} `{HH : Heap H} `{BM : !BlockMap H T}.
Abbreviation St := (fs_state D H T).
Context (fs : ext2_fs_priv) (G : geom_ok fs).
Context (TT : table_total (H := H) (T := T)).
Abbreviation rel := (reliable (D := D) (H := H)).
Abbreviation triple := (triple (D := D) (H := H) (T := T) fs).
Implicit Types (a : astate) (p : ext2_inode_priv).

Lemma nblocks_pos n : 0 <= nblocks fs n.
Proof.
  pose proof (bs_range fs (go_bs fs G)). unfold nblocks. apply Z.div_pos; [apply u32_range|lia].
Qed.
Lemma nblocks_mul n : 0 <= n -> n * block_size fs <= 2 ^ 32 - block_size fs -> nblocks fs (n * block_size fs) = n.
Proof.
  intros Hn Hs. pose proof (bs_range fs (go_bs fs G)). unfold nblocks. rewrite u32_small by nia.
  replace (n * block_size fs + block_size fs - 1) with (block_size fs - 1 + n * block_size fs) by lia.
  rewrite Z.div_add by lia. rewrite Z.div_small by lia. lia.
Qed.

(** the records of one block of a directory *)
Lemma dir_block_recs a p l : blocks_ok fs a -> tree_ok fs a p -> dir_ok fs a p ->
  0 <= l < nblocks fs (p_size p) -> nodeb fs a p l <> 0 ->
  exists rs, recs_ok rs /\ a_view a (nodeb fs a p l) = concat rs /\
    Z.of_nat (length (concat rs)) = block_size fs /\ block_dents fs a p l = ents_of rs.
Proof.
  intros Hok Tr Hd Hl Hn. destruct (do_recs fs a p Hd l Hl Hn) as (rs & Hrs & E).
  exists rs. split; [done|]. split; [done|]. pose proof (do_max fs a p Hd).
  assert (key_ok fs l) as Hk by (pose proof (ptrs_range fs G); unfold key_ok; lia).
  destruct (Hok (nodeb fs a p l)) as [Hlen _]; [by apply (to_good fs a p Tr)|].
  split; [by rewrite <- E|]. unfold block_dents. rewrite (proj2 (Z.eqb_neq _ _)) by done.
  rewrite E. by apply block_ents_concat.
Qed.

(** the loop over all blocks of a directory *)
Lemma dir_loop_triple {A} a p (body : Z -> Z -> list Z -> M St (scan A)) (Q : scan A -> astate -> Prop)
    (Inv : list dentry -> Prop) :
  tree_ok fs a p -> dir_ok fs a p -> Inv [] \/ ~ rel ->
  (~ rel -> Q Error a /\ Q Continue a) ->
  (forall l rs, 0 <= l < nblocks fs (p_size p) -> nodeb fs a p l <> 0 -> recs_ok rs ->
     a_view a (nodeb fs a p l) = concat rs -> Z.of_nat (length (concat rs)) = block_size fs ->
     block_dents fs a p l = ents_of rs -> Inv (dents_to fs a p l) \/ ~ rel ->
     triple a (body l (nodeb fs a p l) (concat rs)) (stop Q (Inv (dents_to fs a p l ++ ents_of rs) \/ ~ rel) a)) ->
  (Inv (dents fs a p) -> Q Continue a) ->
  triple a (dir_blocks (Z.to_nat (nblocks fs (p_size p))) fs p 0 body) Q.
Proof.
  intros Tr Hd I0 Hbad Hb HQ. apply triple_blocks; [done|]. intros Hok. pose proof (nblocks_pos (p_size p)).
  pose proof (do_max fs a p Hd).
  apply (dir_blocks_triple fs G) with (Inv := fun l => Inv (dents_to fs a p l) \/ ~ rel); [done|lia|lia|..].
  - done.
  - intros l Hl I Hn. rewrite dents_to_S by lia. unfold block_dents at 1. rewrite Hn. cbn [Z.eqb].
    by rewrite app_nil_r.
  - intros Hr. split; [by apply Hbad|]. auto.
  - intros l Hl I Hn. destruct (dir_block_recs a p l Hok Tr Hd ltac:(lia) Hn) as (rs & Hrs & E & Hlen & Ed).
    rewrite E, dents_to_S, Ed by lia. apply Hb; try done. lia.
  - replace (0 + Z.of_nat (Z.to_nat (nblocks fs (p_size p)))) with (nblocks fs (p_size p)) by lia.
    intros [?|?]; [by apply HQ|by apply Hbad].
Qed.

Lemma recs_bytes rs : recs_ok rs -> bytes_ok (concat rs).
Proof. induction 1 as [|l rs Hl _ IH]; simpl; [constructor|]. apply Forall_app. split; [apply Hl|done]. Qed.
Lemma recs_ok_last ds l : recs_ok (ds ++ [l]) -> recs_ok ds /\ rec_ok l.
Proof. intros [? [? _]%Forall_cons_iff]%Forall_app. done. Qed.
Lemma recs_snoc done l : ents_of (done ++ [l]) = ents_of done ++ rec_ents l.
Proof. rewrite ents_of_app. unfold ents_of at 2. simpl. by rewrite app_nil_r. Qed.

Lemma dir_find_ok a p name : tree_ok fs a p -> dir_ok fs a p ->
  triple a (ext2_dir_find fs p name) (fun r a' => a' = a /\ (r = dlookup name (dents fs a p) \/ ~ rel)).
Proof.
  intros Tr Hd. pose proof (bs_range fs (go_bs fs G)).
  apply triple_with_buf; [done|lia|by auto|]. eapply triple_bind.
  { apply dir_loop_triple with (Inv := fun es => dlookup name es = None)
      (Q := fun r a' => a' = a /\ (~ rel \/ match r with Found i => dlookup name (dents fs a p) = Some i
                            | Continue => dlookup name (dents fs a p) = None | Error => False end)); auto.
    intros l rs Hl Hn Hrs E Hlen Ed I.
    apply (entries_triple fs G) with (Inv := fun done => dlookup name (dents_to fs a p l ++ ents_of done) = None \/ ~ rel);
      [done|done|by rewrite app_nil_r| |by auto].
    intros done l0 todo Ers Hi Hl0. unfold find_entry. rewrite Ers, concat_app. cbn [concat].
    rewrite entry_is_rec by done. change (mbind' (mret ?x) ?f) with (f x). cbv beta.
    pose proof (names_ents name l0) as Hne. destruct (names name l0).
    - unfold e_inode. pose proof (ro_min l0 Hl0). rewrite (ldf_rec _ _ _ 4 0) by lia.
      change (mbind' (mret ?x) ?f) with (f x). cbv beta. apply triple_ret. split; [done|].
      destruct Hi as [Hi|?]; [right|by left]. fold (r_ino l0).
      destruct (dents_to_change fs a p a p (nblocks fs (p_size p)) l Hl ltac:(done)) as (pre & post & E1 & _ & Epre).
      unfold dents. rewrite E1, Epre, Ed, Ers, ents_of_app, ents_of_cons, Hne.
      rewrite <- app_assoc, app_assoc. rewrite dlookup_app by done. simpl. by rewrite decide_True.
    - apply triple_ret. split; [done|]. destruct Hi as [Hi|?]; [left|by right].
      rewrite recs_snoc, app_assoc. by rewrite dlookup_app. }
  intros r a' (-> & Hr). apply triple_ret. split; [done|].
  destruct Hr as [?|Hr]; [by right|left]. destruct r; done.
Qed.

(** names that an empty directory may hold *)
Definition dot_name (e : dentry) : Prop := e.1.1 = [DOT] \/ e.1.1 = [DOT; DOT].


#[global] Instance dot_name_dec e : Decision (dot_name e).
Proof. unfold dot_name. apply _. Defined.

Lemma slice_cons k n l : (k + S n <= length l)%nat -> slice k (S n) l = field 1 k l :: slice (S k) n l.
Proof.
  intros Hk. destruct (lookup_lt_is_Some_2 l k ltac:(lia)) as [b Eb].
  unfold field, slice. rewrite (drop_S l b k Eb). simpl. f_equal. lia.
Qed.

Lemma empty_entry_rec pre l post rec : rec_ok l ->
  empty_entry (pre ++ l ++ post) (Z.of_nat (length pre)) rec
  = (mret (if bool_decide (Forall dot_name (rec_ents l)) then Continue else Found tt) : M St (scan unit)).
Proof.
  intros Hl. pose proof (ro_min l Hl). pose proof (rec_name_fits l Hl). pose proof (r_nl_range l (ro_bytes l Hl)).
  unfold empty_entry, e_inode, e_name_len, SIZEOF_DIRENT, rec_ents.
  rewrite (ldf_rec _ _ _ 4 0) by lia. change (mbind' (mret ?x) ?f) with (f x). cbv beta. fold (r_ino l).
  destruct (r_ino l =? 0); [by rewrite bool_decide_true by constructor|].
  rewrite (ldf_rec _ _ _ 1 6) by lia. change (mbind' (mret ?x) ?f) with (f x). cbv beta. fold (r_nl l).
  assert (forall P : Prop, (P <-> dot_name (r_name l, r_ino l, r_ty l)) -> forall b, (Is_true b <-> P) ->
    (if negb b then mret (Found tt) else mret Continue : M St (scan unit)) =
    mret (if bool_decide (Forall dot_name [(r_name l, r_ino l, r_ty l)]) then Continue else Found tt)) as Hfin.
  { intros P HP b Hb. destruct b; simpl.
    - rewrite bool_decide_true; [done|]. constructor; [|constructor]. by apply HP, Hb.
    - rewrite bool_decide_false; [done|]. intros [Hq _]%Forall_cons_iff. by apply Hb, HP. }
  destruct (Z.eqb_spec (r_nl l) 1) as [E1|E1]; cbn [orb].
  { rewrite (ldf_rec _ _ _ 1 8) by lia. change (mbind' (mret ?x) ?f) with (f x). cbv beta.
    rewrite E1. cbn [Z.eqb andb negb Pos.eqb]. change (mbind' (mret ?x) ?f) with (f x). cbv beta.
    assert (r_name l = [field 1 8 l]) as En by (unfold r_name; rewrite E1; change (Z.to_nat 1) with 1%nat; by rewrite slice_cons by lia).
    rewrite andb_true_r. rewrite <- (Hfin (field 1 8 l = DOT)) with (b := field 1 8 l =? DOT).
    - by destruct (_ =? DOT).
    - unfold dot_name. simpl. rewrite En. split; [intros ->; by left|]. intros [[=]|[=]]; done.
    - destruct (Z.eqb_spec (field 1 8 l) DOT); simpl; tauto. }
  destruct (Z.eqb_spec (r_nl l) 2) as [E2|E2]; cbn [andb negb].
  { rewrite (ldf_rec _ _ _ 1 8) by lia. change (mbind' (mret ?x) ?f) with (f x). cbv beta.
    assert (r_name l = [field 1 8 l; field 1 9 l]) as En.
    { unfold r_name. rewrite E2. change (Z.to_nat 2) with 2%nat. by rewrite !slice_cons by lia. }
    assert ((field 1 8 l = DOT /\ field 1 9 l = DOT) <-> dot_name (r_name l, r_ino l, r_ty l)) as HP.
    { unfold dot_name. simpl. rewrite En. split; [intros [-> ->]; by right|]. intros [[=]|[=]]; done. }
    destruct (Z.eqb_spec (field 1 8 l) DOT) as [E3|E3].
    - rewrite (ldf_rec _ _ _ 1 9) by lia. change (mbind' (mret ?x) ?f) with (f x). cbv beta. cbn [andb].
      apply (Hfin _ HP). destruct (Z.eqb_spec (field 1 9 l) DOT); simpl; tauto.
    - change (mbind' (mret ?x) ?f) with (f x). cbv beta. cbn [andb].
      apply (Hfin _ HP false). simpl. tauto. }
  change (mbind' (mret ?x) ?f) with (f x). cbv beta. change (mbind' (mret ?x) ?f) with (f x). cbv beta.
  apply (Hfin False) with (b := false); [|done]. unfold dot_name. simpl. split; [done|].
  assert (length (r_name l) = Z.to_nat (r_nl l)) as Hlen by (unfold r_name; apply length_slice; lia).
  intros [E|E]; rewrite E in Hlen; simpl in Hlen; lia.
Qed.

Lemma dir_empty_ok a p : tree_ok fs a p -> dir_ok fs a p ->
  triple a (ext2_dir_empty fs p) (fun r a' => a' = a /\
    (~ rel \/ r = if bool_decide (Forall dot_name (dents fs a p)) then 1 else 0)).
Proof.
  intros Tr Hd. pose proof (bs_range fs (go_bs fs G)).
  apply triple_with_buf; [done|lia|by auto|]. eapply triple_bind.
  { apply dir_loop_triple with (Inv := Forall dot_name)
      (Q := fun r a' => a' = a /\ (~ rel \/ match r with Found _ => ~ Forall dot_name (dents fs a p)
                            | Continue => Forall dot_name (dents fs a p) | Error => False end)); auto.
    intros l rs Hl Hn Hrs E Hlen Ed I.
    apply (entries_triple fs G) with (Inv := fun done => Forall dot_name (dents_to fs a p l ++ ents_of done) \/ ~ rel);
      [done|done|by rewrite app_nil_r| |by auto].
    intros done l0 todo Ers Hi Hl0. rewrite Ers, concat_app. cbn [concat]. rewrite empty_entry_rec by done.
    apply triple_ret. case_bool_decide as Hb; split; try done.
    - destruct Hi as [Hi|?]; [left|by right]. rewrite recs_snoc, app_assoc. by apply Forall_app.
    - right. intros Hall. apply Hb.
      destruct (dents_to_change fs a p a p (nblocks fs (p_size p)) l Hl ltac:(done)) as (pre & post & E1 & _ & _).
      unfold dents in Hall. rewrite E1, Ed, Ers, ents_of_app, ents_of_cons in Hall.
      rewrite !Forall_app in Hall; tauto. }
  intros r a' (-> & Hr). apply triple_ret. split; [done|]. destruct Hr as [?|Hr]; [by left|right].
  destruct r; [by rewrite bool_decide_true|by rewrite bool_decide_false|done].
Qed.

(** ** Rewriting a block of a directory *)
Record dir_changed a p a' p' : Prop := {
  dc_layout : layout_ok fs a';
  dc_tree : tree_ok fs a' p';
  dc_dir : dir_ok fs a' p';
  dc_strip : strip p' = strip (set_p_size (p_size p') p);
  dc_frame : forall c, good fs a c -> ~ in_tree fs a p c -> a_view a' c = a_view a c;
  dc_good : forall c, good fs a c -> good fs a' c }.

Lemma dir_update a p l rs rs' :
  blocks_ok fs a -> layout_ok fs a -> tree_ok fs a p -> dir_ok fs a p ->
  0 <= l < nblocks fs (p_size p) -> nodeb fs a p l <> 0 ->
  block_dents fs a p l = ents_of rs -> recs_ok rs' ->
  let a' := a_write (nodeb fs a p l) (concat rs') a in
  dir_changed a p a' p /\
  exists post, dents fs a p = dents_to fs a p l ++ ents_of rs ++ post /\
               dents fs a' p = dents_to fs a p l ++ ents_of rs' ++ post.
Proof.
  intros Hok Lo Tr Hd Hl Hn Ed Hrs' a'. pose proof (do_max fs a p Hd).
  assert (key_ok fs l) as Hk by (pose proof (ptrs_range fs G); unfold key_ok; lia).
  pose proof (to_good fs a p Tr l Hk Hn) as Gl.
  destruct (tree_data_write fs G a p l (concat rs') Tr Hk ltac:(lia) Hn) as (Tr' & En & Hg). fold a' in Tr', En, Hg.
  assert (forall k, 0 <= k < nblocks fs (p_size p) -> nodeb fs a' p k = nodeb fs a p k /\
    (k <> l -> nodeb fs a p k <> 0 -> a_view a' (nodeb fs a p k) = a_view a (nodeb fs a p k))) as Hother.
  { intros k Hkr. assert (key_ok fs k) as Hkk by (pose proof (ptrs_range fs G); unfold key_ok; lia).
    split; [by apply En|]. intros Hne Hkn. apply a_write_ne. intros E. apply Hne.
    by apply (to_inj fs a p Tr). }
  assert (block_dents fs a' p l = ents_of rs') as Ed'.
  { unfold block_dents. destruct (Hother l Hl) as [-> _]. rewrite (proj2 (Z.eqb_neq _ _)) by done.
    unfold a'. rewrite a_write_eq. by apply block_ents_concat. }
  split.
  - split.
    + apply data_layout; [apply Gl|done].
    + done.
    + destruct Hd as [A1 B1 C1 R1]. split; [done|done|done|]. intros k Hkr. destruct (Hother k Hkr) as [-> Hv].
      intros Hkn. destruct (decide (k = l)) as [->|Hne].
      * unfold a'. rewrite a_write_eq. by exists rs'.
      * rewrite Hv by done. by apply R1.
    + by destruct p.
    + intros c Hc Hnt. apply a_write_ne. intros ->. apply Hnt. by exists l.
    + done.
  - destruct (dents_to_change fs a p a' p (nblocks fs (p_size p)) l Hl) as (pre & post & E1 & E2 & ->).
    { intros k Hkr Hne. destruct (Hother k Hkr) as [E Hv]. unfold block_dents. rewrite E.
      destruct (Z.eqb_spec (nodeb fs a p k) 0); [done|]. by rewrite Hv. }
    exists post. unfold dents. by rewrite E1, E2, Ed, Ed'.
Qed.

(** ** Removing *)
Lemma merge_prev_rec (rest : list Z) rec : forall ds pre l0 fuel off,
  recs_ok (ds ++ [l0]) -> (length ds < fuel)%nat ->
  off = Z.of_nat (length pre + length (concat ds) + length l0) ->
  merge_prev fuel (Z.of_nat (length pre)) off rec (pre ++ concat ds ++ l0 ++ rest)
  = (mret (pre ++ concat ds ++ set_field 2 4 (u16 (Z.of_nat (length l0) + rec)) l0 ++ rest) : M St (list Z)).
Proof.
  induction ds as [|d ds IH]; intros pre l0 fuel off Hok Hf Ho; (destruct fuel as [|fuel]; [lia|]); cbn [merge_prev].
  - destruct (recs_ok_last [] l0 Hok) as [_ Hl]. pose proof (ro_min l0 Hl). simpl in Ho |- *.
    rewrite (proj2 (Z.leb_gt _ _)) by lia. unfold e_rec_len. rewrite (ldf_rec _ _ _ 2 4) by lia.
    change (mbind' (mret ?x) ?f) with (f x). cbv beta. fold (r_len l0). rewrite (ro_len l0 Hl).
    rewrite (proj2 (Z.eqb_eq _ _)) by lia. by rewrite (stf_rec _ _ _ 2 4) by lia.
  - apply Forall_cons_iff in Hok as [Hdok Hok]. pose proof (ro_min d Hdok). cbn [concat].
    destruct (recs_ok_last ds l0 Hok) as [_ Hl]. pose proof (ro_min l0 Hl).
    cbn [concat] in Ho. rewrite length_app in Ho. rewrite <- !app_assoc.
    rewrite (proj2 (Z.leb_gt _ _)) by lia. unfold e_rec_len. rewrite (ldf_rec _ _ _ 2 4) by lia.
    change (mbind' (mret ?x) ?f) with (f x). cbv beta. fold (r_len d). rewrite (ro_len d Hdok).
    rewrite (proj2 (Z.eqb_neq _ _)) by lia.
    replace (Z.of_nat (length pre) + Z.of_nat (length d)) with (Z.of_nat (length (pre ++ d)))
      by (rewrite length_app; lia).
    rewrite (app_assoc pre d). rewrite (IH (pre ++ d)); [by rewrite <- app_assoc|done|simpl in Hf; lia|].
    rewrite length_app. lia.
Qed.

(** what removing the record [l] after [done] writes *)
Lemma remove_rec done l todo : recs_ok (done ++ l :: todo) ->
  Z.of_nat (length (concat (done ++ l :: todo))) = block_size fs ->
  exists rs', recs_ok rs' /\ ents_of rs' = ents_of done ++ ents_of todo /\
    length (concat rs') = length (concat (done ++ l :: todo)) /\
    mbind' (if Z.of_nat (length (concat done)) =? 0 then mret (concat (done ++ l :: todo))
            else merge_prev (dir_fuel fs) 0 (Z.of_nat (length (concat done))) (Z.of_nat (length l))
                   (concat (done ++ l :: todo)))
      (stf 4 (Z.of_nat (length (concat done))) 0) = (mret (concat rs') : M St (list Z)).
Proof.
  intros Hok Hlen. pose proof (bs_range fs (go_bs fs G)). pose proof Hok as Hok'.
  apply Forall_app in Hok' as [Hdone [Hl Htodo]%Forall_cons_iff]. pose proof (ro_min l Hl).
  destruct (kill_rec_ok l Hl) as [Kok Kents].
  assert (length (set_field 4 0 0 l) = length l) as Kl by (apply length_set_field; lia).
  assert (concat (done ++ l :: todo) = concat done ++ l ++ concat todo) as Ec by (by rewrite concat_app).
  rewrite Ec in *. rewrite !length_app in Hlen.
  destruct done as [|d ds] using rev_ind; [clear Hdone|clear IHds].
  - exists (set_field 4 0 0 l :: todo). cbn [concat length Z.of_nat Z.eqb app].
    split; [by constructor|]. split; [rewrite ents_of_cons, Kents; done|]. split; [rewrite !length_app; lia|].
    change (Z.of_nat 0) with 0. cbn [Z.eqb]. change (mbind' (mret ?x) ?f) with (f x). cbv beta.
    exact (stf_rec [] l (concat todo) 4 0 0 0 ltac:(done) ltac:(lia)).
  - destruct (recs_ok_last ds d Hdone) as [Hds Hd].
    pose proof (ro_min d Hd).
    assert (concat (ds ++ [d]) = concat ds ++ d) as Ed by (rewrite concat_app; simpl; by rewrite app_nil_r).
    rewrite Ed in *. rewrite length_app in Hlen.
    rewrite (proj2 (Z.eqb_neq _ _)) by (rewrite length_app; lia).
    exists (ds ++ set_field 2 4 (Z.of_nat (length (d ++ set_field 4 0 0 l))) (d ++ set_field 4 0 0 l) :: todo).
    destruct (absorb_ok d (set_field 4 0 0 l) Hd (ro_bytes _ Kok) ltac:(lia)) as [Aok Aents].
    assert (set_field 2 4 (Z.of_nat (length (d ++ set_field 4 0 0 l))) (d ++ set_field 4 0 0 l)
      = set_field 2 4 (u16 (Z.of_nat (length d) + Z.of_nat (length l))) d ++ set_field 4 0 0 l) as Em.
    { rewrite u16_small by lia. rewrite length_app, Kl, Nat2Z.inj_add.
      pose proof (set_field_mid [] d (set_field 4 0 0 l) 4 2 (Z.of_nat (length d) + Z.of_nat (length l)) ltac:(lia)) as E.
      exact E. }
    assert (length (set_field 2 4 (u16 (Z.of_nat (length d) + Z.of_nat (length l))) d) = length d) as Ld
      by (apply length_set_field; lia).
    split; [|split; [|split]].
    + apply Forall_app. split; [done|by constructor].
    + rewrite !ents_of_app, !ents_of_cons, Aents. unfold ents_of at 4. simpl. by rewrite <- !app_assoc.
    + rewrite concat_app. cbn [concat]. rewrite Em, !length_app. lia.
    + pose proof (merge_prev_rec (l ++ concat todo) (Z.of_nat (length l)) ds [] d (dir_fuel fs)
        (Z.of_nat (length (concat ds ++ d))) Hdone) as E. cbn [length app] in E. change (Z.of_nat 0) with 0 in E. rewrite <- (app_assoc (concat ds)). rewrite E; cycle 1.
      { pose proof (recs_count ds Hds). unfold dir_fuel. lia. }
      { rewrite length_app. done. }
      change (mbind' (mret ?x) ?f) with (f x). cbv beta.
      set (d' := set_field 2 4 _ d) in *.
      rewrite (app_assoc (concat ds) d'). rewrite (stf_rec (concat ds ++ d') l (concat todo) 4 0)
        by (rewrite ?length_app; lia).
      rewrite concat_app. cbn [concat]. rewrite Em, <- !app_assoc. done.
Qed.

Lemma triple_assoc {A B C} a (m : M St A) (f : A -> M St B) (k : B -> M St C) R :
  triple a (mbind' (mbind' m f) k) R -> triple a (mbind' m (fun x => mbind' (f x) k)) R.
Proof. intros W L st I Mo. apply wp_assoc. by apply W. Qed.

Lemma ddelete_mid name pre es x post : dlookup name (pre ++ es) = None -> x.1.1 = name ->
  ddelete name (pre ++ (es ++ [x]) ++ post) = pre ++ es ++ post.
Proof.
  intros Hn Hx. rewrite <- (app_assoc es), (app_assoc pre es), ddelete_app by done. simpl.
  rewrite decide_True by done. by rewrite <- app_assoc.
Qed.

Definition removed a p name (r : Z) a' : Prop :=
  (r = 0 /\ dir_changed a p a' p /\
   (~ rel \/ (dlookup name (dents fs a p) <> None /\ dents fs a' p = ddelete name (dents fs a p)))) \/
  (r = -1 /\ (~ rel \/ (a' = a /\ dlookup name (dents fs a p) = None))).

Lemma dir_remove_ok a p name : layout_ok fs a -> tree_ok fs a p -> dir_ok fs a p ->
  triple a (ext2_dir_remove fs p name) (removed a p name).
Proof.
  intros Lo Tr Hd. pose proof (bs_range fs (go_bs fs G)). apply triple_blocks; [done|]. intros Hok.
  apply triple_with_buf; [done|lia|right; auto|]. eapply triple_bind.
  { apply dir_loop_triple with (Inv := fun es => dlookup name es = None)
      (Q := fun r a' => removed a p name (match r with Found _ => 0 | _ => -1 end) a'); auto.
    - intros Hr. split; right; auto.
    - intros l rs Hl Hn Hrs E Hlen Ed I.
      apply (entries_triple fs G) with (Inv := fun done => dlookup name (dents_to fs a p l ++ ents_of done) = None \/ ~ rel);
        [done|done|by rewrite app_nil_r| |by auto].
      intros done l0 todo Ers Hi Hl0. unfold remove_entry. subst rs.
      destruct (remove_rec done l0 todo Hrs Hlen) as (rs' & Hrs' & Hents & Hlen' & Erun).
      rewrite concat_app. cbn [concat]. rewrite entry_is_rec by done. change (mbind' (mret ?x) ?f) with (f x).
      cbv beta. pose proof (names_ents name l0) as Hne. destruct (names name l0); cbn [negb].
      2:{ apply triple_ret. split; [done|]. destruct Hi as [Hi|?]; [left|by right].
          rewrite recs_snoc, app_assoc. by rewrite dlookup_app. }
      apply triple_assoc. rewrite concat_app in Erun. cbn [concat] in Erun. rewrite Erun.
      change (mbind' (mret ?x) ?f) with (f x). cbv beta.
      assert (key_ok fs l) as Hk by (pose proof (ptrs_range fs G); pose proof (do_max fs a p Hd); unfold key_ok; lia).
      eapply triple_bind.
      { apply triple_write_block; [done|done|by apply (to_good fs a p Tr)|]. split; [lia|].
        by apply recs_bytes. }
      intros w a' [(-> & -> & ->)|(-> & -> & NR & _)]%wrote_cases; apply triple_ret; [|right; auto].
      destruct (dir_update a p l _ rs' Hok Lo Tr Hd Hl Hn Ed Hrs') as (Hch & post & E1 & E2).
      left. split; [done|]. split; [done|]. destruct Hi as [Hi|?]; [right|by left].
      rewrite ents_of_app, ents_of_cons, Hne in E1. rewrite E1. split.
      + rewrite <- !app_assoc, (app_assoc _ (ents_of done)), dlookup_app by done. simpl. by rewrite decide_True.
      + rewrite E2, Hents. rewrite (app_assoc (ents_of done)), <- (app_assoc (_ ++ _) (ents_of todo)).
        rewrite ddelete_mid by done. by rewrite <- app_assoc.
    - intros Hn. right. auto. }
  intros r a' Hr. by apply triple_ret.
Qed.

(** ** Adding *)
Definition last_rec (ds : list (list Z)) : option (Z * Z) :=
  match reverse ds with
  | [] => None
  | l :: r => Some (Z.of_nat (length (concat (reverse r))), Z.of_nat (length l))
  end.
Lemma last_rec_snoc ds l : last_rec (ds ++ [l]) = Some (Z.of_nat (length (concat ds)), Z.of_nat (length l)).
Proof. unfold last_rec. rewrite reverse_app. simpl. by rewrite reverse_involutive. Qed.

(** an unused record of at least [need] bytes, or the last record *)
Definition scanned need rs (r : Z * Z + option (Z * Z)) : Prop :=
  match r with
  | inl (off, rec) => exists ds l todo, rs = ds ++ l :: todo /\ r_ino l = 0 /\ need <= Z.of_nat (length l) /\
      off = Z.of_nat (length (concat ds)) /\ rec = Z.of_nat (length l)
  | inr last => last = last_rec rs
  end.

Lemma add_scan_rec rs need : recs_ok rs -> Z.of_nat (length (concat rs)) = block_size fs ->
  exists r, add_scan (dir_fuel fs) fs (concat rs) 0 None need = (mret r : M St _) /\ scanned need rs r.
Proof.
  intros Hok Hlen. pose proof (bs_range fs (go_bs fs G)).
  assert (forall todo ds fuel, rs = ds ++ todo -> (length todo < fuel)%nat ->
    exists r, add_scan fuel fs (concat rs) (Z.of_nat (length (concat ds))) (last_rec ds) need
              = (mret r : M St _) /\ scanned need rs r) as Hgen.
  { induction todo as [|l todo IH]; intros ds fuel E Hf; (destruct fuel as [|fuel]; [lia|]); cbn [add_scan].
    - rewrite app_nil_r in E. subst ds. unfold SIZEOF_DIRENT. rewrite (proj2 (Z.ltb_lt _ _)) by lia.
      by eexists.
    - assert (rec_ok l) as Hl by (rewrite E in Hok; by apply Forall_app in Hok as [_ [? _]%Forall_cons_iff]).
      pose proof (ro_min l Hl). assert (concat rs = concat ds ++ l ++ concat todo) as Ec.
      { rewrite E, concat_app. done. }
      assert (Z.of_nat (length (concat ds)) + Z.of_nat (length l) <= block_size fs) as Hle.
      { rewrite <- Hlen, Ec, !length_app. lia. }
      rewrite (proj2 (Z.ltb_ge _ _)) by (unfold SIZEOF_DIRENT; lia). unfold e_rec_len, e_inode.
      rewrite Ec, (ldf_rec _ _ _ 2 4), (ldf_rec _ _ _ 4 0) by lia. change (mbind' (mret ?x) ?f) with (f x). cbv beta.
      fold (r_len l). rewrite (ro_len l Hl). rewrite (proj2 (Z.ltb_ge _ _)) by (unfold SIZEOF_DIRENT; lia).
      change (mbind' (mret ?x) ?f) with (f x). cbv beta. fold (r_ino l).
      destruct ((r_ino l =? 0) && (need <=? Z.of_nat (length l))) eqn:Hc.
      + apply andb_true_iff in Hc as [Hi Hn]. breflect. eexists. split; [done|]. by exists ds, l, todo.
      + rewrite <- last_rec_snoc, <- Ec.
        replace (Z.of_nat (length (concat ds)) + Z.of_nat (length l))
          with (Z.of_nat (length (concat (ds ++ [l])))).
        2:{ rewrite concat_app, length_app. simpl. rewrite app_nil_r. lia. }
        apply IH; [by rewrite <- app_assoc|simpl in Hf; lia]. }
  apply (Hgen rs [] (dir_fuel fs)); [done|]. unfold dir_fuel. pose proof (recs_count rs Hok). lia.
Qed.

Section NewEntry.
Context (name : list Z) (ino ty : Z) (He : entry_ok name ino ty).
Let need : Z := dirent_size (Z.of_nat (length name)).

Lemma need_range : Z.of_nat (length name) + 8 <= need <= 266.
Proof. destruct He as (Hn & _). pose proof (dirent_size_bounds (Z.of_nat (length name)) ltac:(lia)). unfold need. lia. Qed.

Lemma use_slot_rec pre l post : rec_ok l -> r_ino l = 0 -> need <= Z.of_nat (length l) < 2 ^ 16 ->
  exists rs', recs_ok rs' /\ ents_of rs' = [(name, ino, ty)] /\ length (concat rs') = length l /\
    use_slot (Z.of_nat (length pre)) (Z.of_nat (length l)) need ino ty name (pre ++ l ++ post)
    = (mret (pre ++ concat rs' ++ post) : M St (list Z)).
Proof.
  intros Hl Hi Hn. pose proof need_range as Hr. destruct He as (Hnl & _). unfold use_slot. cbv zeta.
  rewrite (u16_small (_ - need)) by lia. unfold SIZEOF_DIRENT.
  destruct (8 <=? Z.of_nat (length l) - need) eqn:E8; breflect.
  - set (x := take (Z.to_nat need) l). set (y := drop (Z.to_nat need) l).
    assert (l = x ++ y) as Exy by (symmetry; apply take_drop).
    assert (Z.of_nat (length x) = need) as Lx by (unfold x; rewrite length_take; lia).
    assert (Z.of_nat (length y) = Z.of_nat (length l) - need) as Ly by (unfold y; rewrite length_drop; lia).
    pose proof (ro_bytes l Hl) as Hb. rewrite Exy in Hb. apply Forall_app in Hb as [Hbx Hby].
    set (N := length l) in *.
    rewrite (stf_rec pre l post 2 4) by (fold N; lia). change (mbind' (mret ?x) ?f) with (f x). cbv beta.
    set (l1 := set_field 2 4 need l). assert (length l1 = N) as L1 by (apply length_set_field_eq; [done|lia]).
    rewrite (stf_rec pre l1 post 4 (Z.to_nat need)) by lia. change (mbind' (mret ?x) ?f) with (f x). cbv beta.
    set (l2 := set_field 4 _ _ l1). assert (length l2 = N) as L2 by (apply length_set_field_eq; [done|lia]).
    rewrite (stf_rec pre l2 post 2 (Z.to_nat (need + 4))) by lia. change (mbind' (mret ?x) ?f) with (f x). cbv beta.
    set (l3 := set_field 2 _ _ l2). assert (length l3 = N) as L3 by (apply length_set_field_eq; [done|lia]).
    rewrite (stf_rec pre l3 post 1 (Z.to_nat (need + 6))) by lia. change (mbind' (mret ?x) ?f) with (f x). cbv beta.
    set (l4 := set_field 1 _ _ l3). assert (length l4 = N) as L4 by (apply length_set_field_eq; [done|lia]).
    rewrite (stf_rec pre l4 post 1 (Z.to_nat (need + 7))) by lia. change (mbind' (mret ?x) ?f) with (f x). cbv beta.
    assert (set_field 1 (Z.to_nat (need + 7)) 0 l4 = split_free need (Z.of_nat (length y)) (x ++ y)) as Es.
    { rewrite <- Exy, Ly. done. }
    rewrite Es, split_free_eq by lia.
    destruct (zero_rec_ok y ltac:(lia) Hby) as [Zok Zents]. set (y1 := set_field 1 7 0 _) in *.
    set (x1 := set_field 2 4 need x). assert (length x1 = length x) as Lx1 by (apply length_set_field; lia).
    rewrite <- (app_assoc x1). rewrite (put_entry_rec pre x1 (y1 ++ post)) by lia.
    destruct (put_rec_ok None ino ty name x1 He) as [Pok Pents]; [lia| |fold need; lia| |].
    { apply splice_ok; [apply le_enc_ok|done]. }
    { unfold r_len, x1. rewrite field_set_same by lia. fold x1. rewrite Lx1, Lx. apply Z.mod_small. lia. }
    assert (length y1 = length y) as Ly1.
    { unfold y1. repeat (apply length_set_field_eq; [|lia]). done. }
    exists [put_rec None ino ty name x1; y1]. split; [constructor; [done|constructor; [done|constructor]]|]. split; [|split].
    + by rewrite !ents_of_cons, Pents, Zents.
    + cbn [concat]. rewrite app_nil_r, length_app, length_put_rec by lia. lia.
    + cbn [concat]. rewrite app_nil_r, <- app_assoc. done.
  - change (mbind' (mret ?x) ?f) with (f x). cbv beta. rewrite put_entry_rec by lia.
    destruct (put_rec_ok None ino ty name l He) as [Pok Pents]; [lia|apply Hl|fold need; lia|apply Hl|].
    exists [put_rec None ino ty name l]. split; [constructor; [done|constructor]|]. split; [|split].
    + by rewrite ents_of_cons, Pents.
    + cbn [concat]. rewrite app_nil_r. apply length_put_rec. lia.
    + cbn [concat]. by rewrite app_nil_r.
Qed.

Lemma use_tail_rec ds l : rec_ok l -> Z.of_nat (length l) < 2 ^ 16 ->
  exists o, use_tail (Some (Z.of_nat (length (concat ds)), Z.of_nat (length l))) need ino ty name (concat ds ++ l)
            = (mret (app (concat ds) <$> o) : M St (option (list Z))) /\
    match o with
    | Some m => exists rs', recs_ok rs' /\ m = concat rs' /\ length m = length l /\
                  ents_of rs' = rec_ents l ++ [(name, ino, ty)]
    | None => True
    end.
Proof.
  intros Hl Hlt. pose proof need_range as Hr. pose proof (ro_min l Hl). pose proof (ro_fit l Hl) as Hfit.
  pose proof (r_nl_range l (ro_bytes l Hl)) as Hnl. pose proof (dirent_size_bounds (r_nl l) Hnl) as Hds.
  unfold use_tail. rewrite <- (app_nil_r (concat ds ++ l)), <- app_assoc. unfold e_name_len.
  rewrite (ldf_rec _ _ _ 1 6) by lia. change (mbind' (mret ?x) ?f) with (f x). cbv beta zeta. fold (r_nl l).
  set (real := dirent_size (r_nl l)) in *. rewrite (u16_small (_ - real)) by lia.
  destruct (_ <? need) eqn:Et; breflect; [by exists None|].
  set (x := take (Z.to_nat real) l). set (y := drop (Z.to_nat real) l).
  assert (l = x ++ y) as Exy by (symmetry; apply take_drop).
  assert (Z.of_nat (length x) = real) as Lx by (unfold x; rewrite length_take; lia).
  assert (Z.of_nat (length y) = Z.of_nat (length l) - real) as Ly by (unfold y; rewrite length_drop; lia).
  pose proof (ro_bytes l Hl) as Hb. rewrite Exy in Hb. apply Forall_app in Hb as [Hbx Hby].
  destruct (cut_rec_ok l x y Hl Exy Lx) as [Cok Cents]. fold real in Cok, Cents.
  assert (concat ds ++ l ++ [] = concat ds ++ x ++ y) as -> by (rewrite app_nil_r, Exy; done).
  rewrite (stf_rec (concat ds) x y 2 4) by lia. change (mbind' (mret ?x) ?f) with (f x). cbv beta.
  set (x1 := set_field 2 4 real x) in *. assert (length x1 = length x) as Lx1 by (apply length_set_field; lia).
  replace (Z.of_nat (length (concat ds)) + real) with (Z.of_nat (length (concat ds ++ x1)))
    by (rewrite length_app; lia).
  rewrite <- (app_nil_r y), (app_assoc (concat ds) x1), put_entry_rec by lia.
  change (mbind' (mret ?x) ?f) with (f x). cbv beta.
  destruct (put_rec_ok (Some (Z.of_nat (length l) - real)) ino ty name y He) as [Pok Pents];
    [lia|done|fold need; lia|lia|].
  set (y1 := put_rec _ ino ty name y) in *.
  assert (length y1 = length y) as Ly1 by (apply length_put_rec; lia).
  exists (Some (x1 ++ y1)). split; [cbn [fmap option_fmap option_map]; by rewrite app_nil_r, <- app_assoc|].
  exists [x1; y1]. split; [constructor; [done|constructor; [done|constructor]]|]. split; [cbn [concat]; by rewrite app_nil_r|].
  split; [rewrite length_app; lia|]. by rewrite !ents_of_cons, Cents, Pents.
Qed.

Definition added a p a' p' : Prop :=
  dir_changed a p a' p' /\ dents fs a' p' ≡ₚ (name, ino, ty) :: dents fs a p.

(** an existing block gets the entry, or has no room *)
Lemma add_block_rec rs : recs_ok rs -> Z.of_nat (length (concat rs)) = block_size fs ->
  exists o, mbind' (add_scan (dir_fuel fs) fs (concat rs) 0 None need)
      (fun r => match r with
                | inl (off, rec) => let* b := use_slot off rec need ino ty name (concat rs) in mret (Some b)
                | inr last => use_tail last need ino ty name (concat rs)
                end) = (mret (@concat Z <$> o) : M St (option (list Z))) /\
    match o with
    | Some rs' => recs_ok rs' /\ length (concat rs') = length (concat rs) /\
                  ents_of rs' ≡ₚ (name, ino, ty) :: ents_of rs
    | None => True
    end.
Proof.
  intros Hok Hlen. pose proof (bs_range fs (go_bs fs G)).
  destruct (add_scan_rec rs need Hok Hlen) as (r & -> & Hr). change (mbind' (mret ?x) ?f) with (f x). cbv beta.
  destruct r as [[off rec]|last].
  - destruct Hr as (ds & l & todo & Ers & Hi & Hn & -> & ->). subst rs.
    pose proof Hok as [Hds [Hl Htodo]%Forall_cons_iff]%Forall_app.
    assert (concat (ds ++ l :: todo) = concat ds ++ l ++ concat todo) as Ec by (by rewrite concat_app).
    rewrite Ec in *. rewrite !length_app in Hlen.
    destruct (use_slot_rec (concat ds) l (concat todo) Hl Hi ltac:(lia)) as (rs' & Hrs' & Hents & Hl' & ->).
    change (mbind' (mret ?x) ?f) with (f x). cbv beta.
    exists (Some (ds ++ rs' ++ todo)). split; [cbn [fmap option_fmap option_map]; by rewrite !concat_app|].
    split; [unfold recs_ok; by rewrite !Forall_app|]. split; [rewrite !concat_app, !length_app; lia|].
    rewrite !ents_of_app, ents_of_cons, Hents. assert (rec_ents l = []) as -> by (unfold rec_ents; by rewrite Hi).
    simpl. by rewrite <- Permutation_middle.
  - simpl in Hr. subst last. destruct rs as [|l ds _] using rev_ind; [simpl in Hlen; lia|].
    rewrite last_rec_snoc. destruct (recs_ok_last ds l Hok) as [Hds Hl].
    assert (concat (ds ++ [l]) = concat ds ++ l) as Ec by (rewrite concat_app; simpl; by rewrite app_nil_r).
    rewrite Ec in *. rewrite length_app in Hlen.
    destruct (use_tail_rec ds l Hl ltac:(lia)) as (o & -> & Ho). destruct o as [m|]; [|by exists None].
    destruct Ho as (rs' & Hrs' & -> & Hl' & Hents). exists (Some (ds ++ rs')).
    split; [cbn [fmap option_fmap option_map]; by rewrite concat_app|]. split; [by apply Forall_app|].
    split; [rewrite concat_app, !length_app; lia|].
    rewrite !ents_of_app, Hents, ents_of_cons. change (ents_of []) with (@nil dentry). rewrite app_nil_r, app_assoc.
    by rewrite <- Permutation_cons_append.
Qed.

Lemma add_in_block_ok a p l rs : blocks_ok fs a -> layout_ok fs a -> tree_ok fs a p -> dir_ok fs a p ->
  0 <= l < nblocks fs (p_size p) -> nodeb fs a p l <> 0 -> recs_ok rs ->
  Z.of_nat (length (concat rs)) = block_size fs -> block_dents fs a p l = ents_of rs ->
  triple a (add_in_block fs need ino ty name (nodeb fs a p l) (concat rs))
    (fun r a' => match r with Continue => a' = a | Found _ => added a p a' p | Error => ~ rel end).
Proof.
  intros Hok Lo Tr Hd Hl Hn Hrs Hlen Ed. unfold add_in_block.
  destruct (add_block_rec rs Hrs Hlen) as (o & Eo & Ho). apply triple_assoc. rewrite Eo.
  change (mbind' (mret ?x) ?f) with (f x). cbv beta. destruct o as [rs'|]; cbn [fmap option_fmap option_map];
    [|by apply triple_ret]. destruct Ho as (Hrs' & Hl' & Hp).
  assert (key_ok fs l) as Hk by (pose proof (ptrs_range fs G); pose proof (do_max fs a p Hd); unfold key_ok; lia).
  eapply triple_bind.
  { apply triple_write_block; [done|done|by apply (to_good fs a p Tr)|]. split; [lia|by apply recs_bytes]. }
  intros w a' [(-> & -> & ->)|(-> & -> & NR & _)]%wrote_cases; apply triple_ret; [|done].
  destruct (dir_update a p l rs rs' Hok Lo Tr Hd Hl Hn Ed Hrs') as (Hch & post & E1 & E2).
  split; [done|]. rewrite E1, E2, Hp. simpl. by rewrite <- Permutation_middle.
Qed.

(** a new block at the end holds the entry *)
Lemma add_new_block a p a1 p1 rs' :
  let n := nblocks fs (p_size p) in
  layout_ok fs a -> tree_ok fs a p -> dir_ok fs a p -> p_size p + 2 * block_size fs <= 2 ^ 32 -> n < max_blocks fs ->
  mapped fs a p n a1 p1 -> recs_ok rs' -> ents_of rs' = [(name, ino, ty)] ->
  added a p (a_write (nodeb fs a1 p1 n) (concat rs') a1)
    (set_p_size (u32 (u32 (n + 1) * block_size fs)) p1).
Proof.
  intros n Lo Tr Hd Hsz Hmax Mp Hrs' Hents. pose proof (nblocks_pos (p_size p)) as Hn0. fold n in Hn0.
  pose proof (do_size fs a p Hd) as Es. fold n in Es. pose proof (bs_range fs (go_bs fs G)) as Hbs.
  assert (forall k, 0 <= k <= n -> key_ok fs k) as Hk by (intros; pose proof (ptrs_range fs G); unfold key_ok; lia).
  pose proof (mp_tree _ _ _ _ _ _ Mp) as Tr1. pose proof (mp_node _ _ _ _ _ _ Mp) as Hnz.
  set (b := nodeb fs a1 p1 n) in *. set (a2 := a_write b (concat rs') a1).
  set (p2 := set_p_size _ p1).
  assert (u32 (u32 (n + 1) * block_size fs) = (n + 1) * block_size fs) as Ews.
  { rewrite (u32_small (n + 1)) by nia. apply u32_small. nia. }
  assert (p_size p2 = (n + 1) * block_size fs) as Esz by done.
  assert (nblocks fs (p_size p2) = n + 1) as Enb by (rewrite Esz; apply nblocks_mul; lia).
  destruct (tree_data_write fs G a1 p1 n (concat rs') Tr1 ltac:(apply Hk; lia) ltac:(lia) Hnz) as (Tr2 & En & Hg2).
  fold b a2 in Tr2, En, Hg2.
  assert (forall k, 0 <= k < n -> nodeb fs a2 p2 k = nodeb fs a p k /\
    (nodeb fs a p k <> 0 -> a_view a2 (nodeb fs a p k) = a_view a (nodeb fs a p k))) as Hold.
  { intros k Hkr. assert (nodeb fs a1 p1 k = nodeb fs a p k) as E1 by (apply (mp_other _ _ _ _ _ _ Mp); [apply Hk; lia|lia|lia]).
    split; [rewrite (nodeb_slots fs a2 p1 p2) by done; rewrite En by (apply Hk; lia); done|]. intros Hkn.
    unfold a2. rewrite a_write_ne.
    - apply (mp_frame _ _ _ _ _ _ Mp); [apply (to_good fs a p Tr); [apply Hk; lia|done]|].
      intros k' Hk' Hneg Eq. assert (k' = k); [|lia]. apply (to_inj fs a p Tr); [apply Hk; lia|done|done|done].
    - intros Eq. assert (k = n); [|lia].
      apply (to_inj fs a1 p1 Tr1); [apply Hk; lia|apply Hk; lia|done|by rewrite E1]. }
  assert (nodeb fs a2 p2 n = b) as Eb by (rewrite (nodeb_slots fs a2 p1 p2) by done; by rewrite En by (apply Hk; lia)).
  assert (good fs a1 b) as Gb by (apply (to_good fs a1 p1 Tr1); [apply Hk; lia|done]).
  split.
  - split.
    + apply data_layout; [apply Gb|apply Mp].
    + by apply (tree_slots fs a2 p1).
    + split; [by rewrite Enb|rewrite Esz; lia|rewrite Enb; lia|].
      intros k Hkr Hkn. rewrite Enb in Hkr. destruct (decide (k = n)) as [->|Hne].
      * rewrite Eb. unfold a2. rewrite a_write_eq. by exists rs'.
      * destruct (Hold k ltac:(lia)) as [E Hv]. rewrite E in *. rewrite Hv by done.
        apply (do_recs fs a p Hd); [fold n; lia|done].
    + pose proof (mp_strip _ _ _ _ _ _ Mp) as Est. unfold strip in *. unfold p2. simpl.
      injection Est. intros. by f_equal.
    + intros c Hc Hnt. unfold a2. rewrite a_write_ne.
      * apply (mp_frame _ _ _ _ _ _ Mp); [done|]. intros k Hk' _ Eq. apply Hnt. by exists k.
      * intros ->. destruct (mp_ptr _ _ _ _ _ _ Mp n ltac:(apply Hk; lia)) as [Eq|Eq]; fold b in Eq; [|done].
        apply Hnt. exists n. split; [apply Hk; lia|done].
    + intros c Hc. by apply Hg2, (mp_good _ _ _ _ _ _ Mp).
  - unfold dents. rewrite Enb, dents_to_S by lia. fold n.
    rewrite (dents_to_ext fs a p a2 p2).
    2:{ intros k Hkr. destruct (Hold k Hkr) as [E Hv]. unfold block_dents. rewrite E.
        destruct (Z.eqb_spec (nodeb fs a p k) 0); [done|]. by rewrite Hv. }
    assert (block_dents fs a2 p2 n = [(name, ino, ty)]) as ->.
    { unfold block_dents. rewrite Eb, (proj2 (Z.eqb_neq _ _)) by done. unfold a2. rewrite a_write_eq.
      by rewrite block_ents_concat. }
    by rewrite <- Permutation_cons_append.
Qed.

Lemma dir_add_ok a p : layout_ok fs a -> tree_ok fs a p -> dir_ok fs a p ->
  p_size p + 2 * block_size fs <= 2 ^ 32 ->
  triple a (ext2_dir_add fs p name ino ty)
    (fun r a' => (r.1 = 0 /\ added a p a' r.2) \/
                 (r.1 = -1 /\ (no_room (D := D) (H := H) fs a' \/ max_blocks fs <= nblocks fs (p_size p)))).
Proof.
  intros Lo Tr Hd Hsz. pose proof (bs_range fs (go_bs fs G)) as Hbs. apply triple_blocks; [done|]. intros Hok.
  pose proof (nblocks_pos (p_size p)) as Hn0. unfold ext2_dir_add. cbv zeta. fold need.
  apply triple_with_buf; [done|lia|right; split; [done|by left; left]|]. eapply triple_bind.
  { apply dir_loop_triple with (Inv := fun _ => True)
      (Q := fun r a' => match r with Continue => a' = a | Found _ => added a p a' p | Error => ~ rel end); auto.
    intros l rs Hl Hn Hrs E Hlen Ed _. eapply triple_conseq; [by apply add_in_block_ok|].
    intros r a' Hr. destruct r; [|done..]. split; [done|by left]. }
  intros r a' Hr. destruct r as [|u|]; [|by apply triple_ret; left|apply triple_ret; right; split; [done|by left; left]].
  subst a'. eapply triple_bind; [by apply get_block_alloc_ok|].
  intros [[b|] p1] a1 Hg; [|apply triple_ret; right; split; [done|]; apply got_none in Hg as [?|?]; auto].
  destruct Hg as (Hlt & Mp & <-). cbn [fst snd] in Hlt, Mp |- *. set (n := nblocks fs (p_size p)) in *.
  rewrite (proj2 (Z.eqb_neq _ _) (mp_node _ _ _ _ _ _ Mp)).
  pose proof need_range as Hr. destruct (zero_block_ok fs G) as [Hzl Hzb].
  pose proof (put_entry_rec (D := D) (H := H) (T := T) [] (zero_block fs) [] (Some (u16 (block_size fs))) ino ty name ltac:(lia)) as Ep.
  rewrite (app_nil_r) in Ep. cbn [app length] in Ep. change (Z.of_nat 0) with 0 in Ep. rewrite app_nil_r in Ep. rewrite Ep.
  change (mbind' (mret ?x) ?f) with (f x). cbv beta.
  destruct (put_rec_ok (Some (u16 (block_size fs))) ino ty name (zero_block fs) He) as [Pok Pents];
    [lia|done|fold need; lia|rewrite u16_small; lia|].
  set (rec := put_rec _ ino ty name (zero_block fs)) in *.
  assert (Z.of_nat (length rec) = block_size fs) as Lr by (unfold rec; rewrite length_put_rec; lia).
  assert (key_ok fs n) as Hk by (pose proof (ptrs_range fs G); unfold key_ok; lia).
  assert (good fs a1 (nodeb fs a1 p1 n)) as Gb by (apply (to_good fs a1 p1 (mp_tree _ _ _ _ _ _ Mp)); [done|apply Mp]).
  eapply triple_bind; [apply triple_write_block; [done|done|apply Gb|split; [done|apply Pok]]|].
  intros w a2 [(-> & -> & ->)|(-> & -> & NR & _)]%wrote_cases; apply triple_ret; [left|right; split; [done|by left; left]].
  split; [done|]. cbn [snd]. pose proof (add_new_block a p a1 p1 [rec] Lo Tr Hd Hsz Hlt Mp) as Ha.
  cbn [concat] in Ha. rewrite app_nil_r in Ha. apply Ha; [constructor; [done|constructor]|by rewrite ents_of_cons, Pents].
Qed.
End NewEntry.
End DirOps.
