(* ===== verification/Ext2Theorems.v ===== *)
(** The main theorems about ext2: the cache as a store of blocks, allocation,
    inode records, the block map, file contents and directories. *)
From stdpp Require Import base gmap list numbers.
From Stdlib Require Import ZArith Lia.
From S2P Require Import Prelude Bytes HashMap BlockDev Ext2Cache Ext2CacheSpec Ext2 Ext2Logic Ext2Alloc Ext2Map Ext2Tree Ext2GetBlock Ext2Dir Ext2File Ext2Data Ext2Inode Ext2FileSpec Ext2Dirent Ext2DirSpec Strict Ext2Strict.
Open Scope Z_scope.

(** ** The cache refines an array of blocks *)

(** A client of the cache: what it may ask for, and what an array of blocks
    would answer. *)
Inductive cache_op : Type :=
| OpRead (b : Z)
| OpWrite (b : Z) (buf : list Z)
| OpFlush.
Inductive cache_ans : Type :=
| AnsRead (r : option (list Z))
| AnsCode (r : Z).

Definition op_ok (fs : ext2_fs_priv) (o : cache_op) : Prop :=
  match o with
  | OpRead b => u32_ok b
  | OpWrite b buf => u32_ok b /\ block_ok fs buf
  | OpFlush => True
  end.

(** the array: contents and answers *)
Fixpoint spec_ops (v : Z -> list Z) (ops : list cache_op) : list cache_ans * (Z -> list Z) :=
  match ops with
  | [] => ([], v)
  | OpRead b :: ops' => let r := spec_ops v ops' in (AnsRead (Some (v b)) :: r.1, r.2)
  | OpWrite b buf :: ops' =>
      let r := spec_ops (fun c => if decide (c = b) then buf else v c) ops' in (AnsCode 0 :: r.1, r.2)
  | OpFlush :: ops' => let r := spec_ops v ops' in (AnsCode 0 :: r.1, r.2)
  end.

Lemma spec_ops_ext ops : forall v v', (forall b, u32_ok b -> v b = v' b) ->
  Forall (fun o => match o with OpRead b => u32_ok b | _ => True end) ops ->
  (spec_ops v ops).1 = (spec_ops v' ops).1 /\
  forall b, u32_ok b -> (spec_ops v ops).2 b = (spec_ops v' ops).2 b.
Proof.
  induction ops as [|o ops IH]; intros v v' E Hok; [done|]. apply Forall_cons_iff in Hok as [Ho Hok].
  destruct o as [b|b buf|]; simpl.
  - destruct (IH v v' E Hok) as [-> H2]. by rewrite E.
  - destruct (IH (fun c => if decide (c = b) then buf else v c) (fun c => if decide (c = b) then buf else v' c)) as [-> H2];
      [|done|done]. intros c Hc. case_decide; [done|by apply E].
  - destruct (IH v v' E Hok) as [-> H2]. done.
Qed.

Section Cache.
Context {D H T : Type} `{DD : BlockDev D} `{HH : Heap H} `{BM : !BlockMap H T}.
Abbreviation St := (fs_state D H T).
Context (fs : ext2_fs_priv) (BS : block_size_ok fs).

Definition run_op (o : cache_op) : M St cache_ans :=
  match o with
  | OpRead b => let* r := ext2_read_block fs b in mret (AnsRead r)
  | OpWrite b buf => let* r := ext2_write_block fs b buf in mret (AnsCode r)
  | OpFlush => let* r := ext2_cache_flush fs in mret (AnsCode r)
  end.
Fixpoint run_ops (ops : list cache_op) : M St (list cache_ans) :=
  match ops with
  | [] => mret []
  | o :: ops' => let* r := run_op o in let* rs := run_ops ops' in mret (r :: rs)
  end.

(** With a device and a heap that do not fail, any sequence of reads,
    writes and flushes of cached blocks answers like an array of blocks and
    ends in a state that shows that array; the invariant of the cache (and so
    the set of heap objects of its clients) is kept. *)
Lemma cache_refines_array_rel L st ops :
  table_total (H := H) (T := T) -> dev_reliable (D := D) -> dev_writes (D := D) -> heap_reliable (H := H) ->
  fs_inv fs L st -> Forall (op_ok fs) ops ->
  wp (run_ops ops) (fun rs st' => fs_inv fs L st' /\ rs = (spec_ops (view fs st) ops).1 /\
    forall b, u32_ok b -> view fs st' b = (spec_ops (view fs st) ops).2 b) st.
Proof.
  intros TT RD WD RH. revert st. induction ops as [|o ops IH]; intros st I Hok; cbn [run_ops].
  { by apply wp_ret. }
  apply Forall_cons_iff in Hok as [Ho Hok].
  assert (Forall (fun o => match o with OpRead b => u32_ok b | _ => True end) ops) as Hrd.
  { clear -Hok. induction Hok as [|o ops Ho _ IHo]; constructor; [by destruct o|done]. }
  assert (forall (ans : cache_ans) st' v, fs_inv fs L st' -> (forall b, u32_ok b -> view fs st' b = v b) ->
    wp (let* rs := run_ops ops in mret (ans :: rs))
      (fun rs st'' => fs_inv fs L st'' /\ rs = ans :: (spec_ops v ops).1 /\
         forall b, u32_ok b -> view fs st'' b = (spec_ops v ops).2 b) st') as Hnext.
  { intros ans st' v I' E. destruct (spec_ops_ext ops _ _ E Hrd) as [E1 E2].
    apply wp_bind. eapply wp_conseq; [by apply (IH st')|]. intros rs s (I2 & -> & V2). apply wp_ret.
    split; [done|]. rewrite E1. split; [done|]. intros b Hb. by rewrite V2, E2. }
  destruct o as [b|b buf|]; cbn [run_op spec_ops fst snd]; apply wp_bind, wp_bind.
  - eapply wp_conseq; [by apply read_block_ok|]. intros r st' (I' & [V _] & R & Q). apply wp_ret.
    destruct R as [->| ->]; [by destruct (Q RD)|]. by apply (Hnext _ _ (view fs st)).
  - destruct Ho as [Hb Hbuf]. eapply wp_conseq; [by apply write_block_ok|].
    intros r st' (I' & [V _] & R & Q). apply wp_ret. destruct R as [->|[_ ?]]; [|done].
    destruct (Q eq_refl) as [E|[? _]]; [|done].
    apply (Hnext _ _ (fun c => if decide (c = b) then buf else view fs st c)); [done|].
    intros c Hc. case_decide as Dc; [by subst|]. by apply V.
  - eapply wp_conseq; [by apply cache_flush_ok|]. intros r st' (I' & [V _] & R & _). apply wp_ret.
    destruct R as [->|[_ ?]]; [|tauto]. by apply (Hnext _ _ (view fs st)).
Qed.

(** Flushing terminates whatever the device does, keeps what the cache
    shows, and when it answers 0 the device holds every block the cache shows;
    it answers 0 whenever device writes and allocations succeed. *)
Lemma cache_flush_durable_rel L st : fs_inv fs L st ->
  wp (ext2_cache_flush fs) (fun r st' => fs_inv fs L st' /\
    (forall b, u32_ok b -> view fs st' b = view fs st b) /\
    (dev_writes (D := D) -> heap_reliable (H := H) -> r = 0) /\
    (r = 0 -> forall b, u32_ok b -> disk_block fs (fs_dev st') b = view fs st b)) st.
Proof.
  intros I. eapply wp_conseq; [by apply cache_flush_ok|]. intros r st' (I' & [V _] & R & Q).
  split; [done|]. split; [done|]. split; [destruct R as [->|[_ ?]]; tauto|].
  intros Hr b Hb. rewrite (Q Hr b Hb). by apply V.
Qed.

Lemma wp_sfree_inv L st a : fs_inv fs L st -> a ∈ L ->
  wp (sfree a) (fun _ st' => fs_inv fs (L ∖ {[a]}) st' /\ fs_dev st' = fs_dev st /\ forall b, view fs st' b = view fs st b) st.
Proof.
  intros (t & m & I) Ha. eapply wp_conseq; [by apply (inv_free fs BS I)|].
  intros u st' (h & -> & I'). split; [by exists t, m|]. split; [done|]. done.
Qed.

(** after the cache is gone *)
Lemma wp_sfree_heap L st a : heap_inv (fs_heap st) L -> a ∈ L ->
  wp (sfree a) (fun _ (st' : St) => heap_inv (fs_heap st') (L ∖ {[a]}) /\ fs_dev st' = fs_dev st /\
    fs_cache st' = fs_cache st /\ fs_ents st' = fs_ents st) st.
Proof.
  intros I Ha. unfold sfree, on_heap. apply wp_zoom. unfold wp.
  destruct (hfree_ok (fs_heap st) L a I Ha) as (h' & -> & I'). done.
Qed.

(** the objects a mounted file system holds besides its cache *)
Definition mount_objs (sb : super_block) : list Z :=
  [in_priv_ptr (sb_root sb); in_ptr (sb_root sb); sb_priv_ptr sb; sb_ptr sb].

(** Unmounting releases the root inode, the cache, the private data and
    the superblock, and nothing else; when device writes and allocations
    succeed, every block shown before is on the device. *)
Lemma kill_sb_releases L st sb :
  NoDup (mount_objs sb) -> Forall (fun a => a <> 0 /\ (a ∉ L)) (mount_objs sb) ->
  fs_inv fs (list_to_set (mount_objs sb) ∪ L) st ->
  wp (ext2_kill_sb fs sb) (fun _ st' => heap_inv (fs_heap st') L /\ fs_cache st' = None /\ fs_ents st' = ∅ /\
    (dev_writes (D := D) -> heap_reliable (H := H) ->
     forall b, u32_ok b -> disk_block fs (fs_dev st') b = view fs st b)) st.
Proof.
  intros Hnd Hall I. unfold mount_objs in *.
  set (a1 := in_priv_ptr (sb_root sb)) in *. set (a2 := in_ptr (sb_root sb)) in *.
  set (a3 := sb_priv_ptr sb) in *. set (a4 := sb_ptr sb) in *.
  rewrite !Forall_cons_iff in Hall. destruct Hall as ([H1 N1] & [H2 N2] & [H3 N3] & [H4 N4] & _).
  apply list.NoDup_cons in Hnd as [D1 Hnd]. apply list.NoDup_cons in Hnd as [D2 Hnd].
  apply list.NoDup_cons in Hnd as [D3 _].
  rewrite !not_elem_of_cons in D1, D2, D3. cbn [list_to_set list_to_set] in I.
  unfold ext2_kill_sb, ext2_inode_destroy. fold a1 a2 a3 a4. rewrite (proj2 (Z.eqb_neq a1 0)) by done.
  apply wp_bind, wp_bind. eapply wp_conseq; [apply (wp_sfree_inv _ _ a1 I); set_solver|].
  intros [] st1 (I1 & _ & V1). eapply wp_conseq; [apply (wp_sfree_inv _ _ a2 I1); set_solver|].
  intros [] st2 (I2 & _ & V2). apply wp_bind. eapply wp_conseq; [by apply cache_flush_ok|].
  intros r st3 (I3 & [V3 _] & R3 & Q3). apply wp_bind. eapply wp_conseq; [by apply (cache_destroy_ok fs)|].
  intros [] st4 (I4 & C4 & E4 & D4). apply wp_bind. eapply wp_conseq; [apply (wp_sfree_heap _ _ a3 I4); set_solver|].
  intros [] st5 (I5 & D5 & C5 & E5). eapply wp_conseq; [apply (wp_sfree_heap _ _ a4 I5); set_solver|].
  intros [] st6 (I6 & D6 & C6 & E6). split; [|split; [congruence|split; [congruence|]]].
  - replace L with (({[a1]} ∪ ({[a2]} ∪ ({[a3]} ∪ ({[a4]} ∪ ∅))) ∪ L) ∖ {[a1]} ∖ {[a2]} ∖ {[a3]} ∖ {[a4]} : gset Z);
      [exact I6|set_solver].
  - intros WD RH b Hb. rewrite D6, D5, D4. destruct R3 as [->|[_ ?]]; [|tauto].
    rewrite (Q3 eq_refl b Hb), V3, V2, V1 by done. done.
Qed.
End Cache.

(** ** Taking a block and giving it back *)
Section Undo.
Context (fs : ext2_fs_priv) (G : geom_ok fs).
Implicit Types (a : astate).

Lemma count_back bg : length bg = 32%nat -> bytes_ok bg ->
  let bg1 := set_bg_free_blocks_count (bg_free_blocks_count bg - 1) bg in
  set_bg_free_blocks_count (bg_free_blocks_count bg1 + 1) bg1 = bg.
Proof.
  intros Hl Hb bg1. unfold bg1, set_bg_free_blocks_count, bg_free_blocks_count.
  rewrite field_set_same by lia. rewrite set_field_twice by lia.
  transitivity (set_field 2 12 (field 2 12 bg) bg); [|apply set_field_field; [done|lia]].
  f_equal. pose proof (field_range 2 12 bg Hb) as Hr. change (2 ^ (8 * Z.of_nat 2)) with (2 ^ 16) in *.
  unfold u16. rewrite Z.mod_mod by lia. rewrite Z.add_mod_idemp_l by lia.
  replace (field 2 12 bg - 1 + 1) with (field 2 12 bg) by lia. by apply Z.mod_small.
Qed.

Lemma free_alloc_view a g j c : blocks_ok fs a -> layout_ok fs a -> group_ok fs g -> 0 <= j < blocks_per_group fs ->
  used fs a g j = false -> a_view (free_eff fs (alloc_eff fs a g j) g j) c = a_view a c.
Proof.
  intros Hok Lo Hg Hj Hu. set (a1 := alloc_eff fs a g j).
  pose proof (length_bg_of fs G a g Hok) as Hlen. pose proof (bg_of_bytes fs a g Hok) as Hby.
  assert (bb fs a1 g = bb fs a g) as Ebb by (apply (same_ptrs_bb fs a a1 g (alloc_same_ptrs fs G a g j Hok Lo Hg Hj) Hg)).
  assert (bb fs a g <> bg_blk fs g) as Hne by by apply (lo_bb fs a Lo).
  assert (block_ok fs (a_view a (bb fs a g))) as Hbbok by by apply Hok, bb_u32.
  assert (0 <= j < 8 * block_size fs) as Hjr by (pose proof (go_bpg fs G); lia).
  assert (blocks_ok fs (a_write (bb fs a g) (set_bit (a_view a (bb fs a g)) j) a)) as Hok1.
  { apply blocks_ok_write; [done|by apply set_bit_ok]. }
  assert (bg_of fs a1 g = set_bg_free_blocks_count (bg_free_blocks_count (bg_of fs a g) - 1) (bg_of fs a g)) as Ebg.
  { unfold a1, alloc_eff. transitivity (bg_of fs (put_bg fs g (set_bg_free_blocks_count
      (bg_free_blocks_count (bg_of fs a g) - 1) (bg_of fs a g)) (a_write (bb fs a g) (set_bit (a_view a (bb fs a g)) j) a)) g); [done|].
    apply (bg_of_put_same fs G); [done|by apply length_set_count]. }
  unfold free_eff. rewrite Ebb, Ebg. change (a_view (a_set_fb ?n ?b) c) with (a_view b c). cbv zeta.
  rewrite count_back by done. unfold put_bg.
  destruct (decide (c = bg_blk fs g)) as [->|Hc].
  - rewrite a_write_eq, a_write_ne by done. unfold a1, alloc_eff, put_bg.
    change (a_view (a_set_fb ?n ?b) ?x) with (a_view b x). rewrite a_write_eq, a_write_ne by congruence.
    pose proof (bg_off_range fs G g) as Hoff. destruct (Hok (bg_blk fs g) (bg_blk_u32 fs g)) as [Hbl _].
    destruct (length_set_count (bg_of fs a g) (bg_free_blocks_count (bg_of fs a g) - 1) Hlen) as [Hl1 _].
    rewrite splice_splice by (rewrite ?Hl1, ?Hlen; lia). apply splice_slice. lia.
  - rewrite a_write_ne by done. destruct (decide (c = bb fs a g)) as [->|Hcb].
    + rewrite a_write_eq. unfold a1. rewrite (alloc_view_bitmap fs a g j Lo Hg). by apply (clear_set_bit fs).
    + rewrite a_write_ne by done. by apply alloc_view.
Qed.
End Undo.

Section Files.
Context {D H T : Type} `{DD : BlockDev D} `{HH : Heap H} `{BM : !BlockMap H T}.
Abbreviation St := (fs_state D H T).
Context (fs : ext2_fs_priv) (G : geom_ok fs).
Context (TT : table_total (H := H) (T := T)).
Abbreviation rel := (reliable (D := D) (H := H)).
Abbreviation triple := (triple (D := D) (H := H) (T := T) fs).
Implicit Types (a : astate) (p : ext2_inode_priv) (i : inode).

(** [ext2_alloc_block] takes the first free block in search order: the
    answer is below the block count, its bit was clear and every bit before it
    set; afterwards that bit is set, no other bit and no other block has
    changed.  It fails only when no block is free or the device or heap fail. *)
Lemma alloc_block_first_fit_rel a : layout_ok fs a ->
  triple a (ext2_alloc_block fs) (fun r a' => match r with
    | Some b => exists g j, group_ok fs g /\ 0 <= j < blocks_per_group fs /\ b = block_no fs g j /\
        b < blocks_count fs /\ used fs a g j = false /\
        (forall g' k, 0 <= g' -> 0 <= k < blocks_per_group fs -> before g' k g j ->
           block_no fs g' k < blocks_count fs -> used fs a g' k = true) /\
        (forall g' k, group_ok fs g' -> 0 <= k ->
           used fs a' g' k = ((g' =? g) && (k =? j)) || used fs a g' k) /\
        layout_ok fs a' /\ a_fb a' = u32 (a_fb a - 1) /\
        forall c, c <> bb fs a g -> c <> bg_blk fs g -> a_view a' c = a_view a c
    | None => ~ rel \/ (a' = a /\ block_full fs a)
    end).
Proof.
  intros Lo. apply triple_blocks; [done|]. intros Hok. eapply triple_conseq; [by apply alloc_block_ok|].
  intros [b|] a' Hr.
  - destruct Hr as (g & j & Hg & Hj & -> & Hlt & Hu & Hf & ->). exists g, j.
    repeat (split; [done|]). split; [intros; by apply (alloc_used fs G)|]. split; [by apply alloc_layout|].
    split; [done|]. intros c Hc1 Hc2. by apply alloc_view.
  - destruct Hr as [[-> [?|?]]|[? _]]; auto.
Qed.

Definition alloc_then_free : M St Z :=
  let* r := ext2_alloc_block fs in
  match r with Some b => ext2_free_block fs b | None => mret (-1) end.
Definition save_then_load p : M St (option (list Z)) :=
  let* w := ext2_priv_save fs p in
  if w <? 0 then mret None else ext2_inode_read fs (p_ino p).
(** Allocating a block and freeing it again restores every block of the
    store, the bitmap and the group descriptor included. *)
Lemma alloc_free_block_rel a : layout_ok fs a -> u32_ok (a_fb a) ->
  triple a alloc_then_free
    (fun r a' => (r = 0 /\ (forall c, a_view a' c = a_view a c) /\ a_fb a' = a_fb a) \/
                 (r = -1 /\ (~ rel \/ block_full fs a))).
Proof.
  intros Lo Hfb. apply triple_blocks; [done|]. intros Hok. eapply triple_bind; [by apply alloc_block_ok|].
  intros [b|] a1 Hr.
  2:{ apply triple_ret. right. split; [done|]. destruct Hr as [[_ ?]|[? _]]; auto. }
  destruct Hr as (g & j & Hg & Hj & -> & _ & Hu & _ & ->).
  eapply triple_conseq; [by apply free_block_ok|]. intros r a' [[-> ->]|(-> & ? & _)]; [left|right; auto].
  split; [done|]. split; [intros c; by apply (free_alloc_view fs G)|].
  cbn [free_eff alloc_eff a_set_fb a_fb]. unfold u32. rewrite Z.add_mod_idemp_l by lia.
  replace (a_fb a - 1 + 1) with (a_fb a) by lia. by apply Z.mod_small.
Qed.

(** Saving an in-memory inode and reading its record back gives the same
    inode, and the record of every other inode keeps its bytes; an error is
    possible only when the device or the heap fail. *)
Lemma inode_save_load_rel a p g j : layout_ok fs a -> priv_ok p -> inode_pos_ok fs g j -> p_ino p = inode_no fs g j ->
  triple a (save_then_load p)
    (fun r a' => ~ rel \/
       ((exists di, r = Some di /\ ext2_disk_to_priv di (p_ino p) = p) /\
        forall g' j', inode_pos_ok fs g' j' -> (g', j') <> (g, j) ->
          bg_inode_table (bg_of fs a g') + inodes_per_group fs < 2 ^ 32 ->
          (g' <> g -> inode_blk fs (bg_of fs a g') j' <> inode_blk fs (bg_of fs a g) j) ->
          di_of fs a' g' j' = di_of fs a g' j')).
Proof.
  intros Lo Hp Hpos Eino. apply triple_blocks; [done|]. intros Hok.
  destruct (priv_to_disk_ok p Hp) as [Hl Hb]. pose proof Hpos as (Hg & Hj & _).
  eapply triple_bind. { unfold ext2_priv_save. rewrite Eino. by apply (inode_write_ok fs G TT). }
  intros w a1 [[-> ->]|(-> & NR & _)]; cbn [Z.ltb Z.compare]; [|apply triple_ret; by left].
  rewrite Eino. eapply triple_conseq; [by apply inode_read_ok|].
  intros r a' (-> & [->|[-> NR]]); [right|by left]. rewrite (di_of_put fs G) by done. split.
  { eexists. split; [done|]. rewrite <- Eino. by apply disk_priv_roundtrip. }
  intros g' j' (Hg' & Hj' & _) Hne Hfit Hsep. unfold di_of.
  rewrite (same_ptrs_it fs a _ g' j' (put_di_same_ptrs fs a g j _ Lo Hg Hj) Hg').
  unfold put_di. destruct (decide (inode_blk fs (bg_of fs a g') j' = inode_blk fs (bg_of fs a g) j)) as [E|E].
  2:{ by rewrite a_write_ne. }
  destruct (decide (g' = g)) as [->|Hgn]; [|by destruct (Hsep Hgn)].
  rewrite E, a_write_eq. pose proof (inode_off_range fs G j Hj). pose proof (inode_off_range fs G j' Hj').
  pose proof (isz_range fs G) as [Hisz _]. destruct (Hok _ (inode_blk_u32 fs (bg_of fs a g) j)) as [Hlen _].
  assert (0 <= bg_inode_table (bg_of fs a g)) by (apply (field4_u32 8), bg_of_bytes; done).
  apply slice_splice_disjoint; [|rewrite Hl; lia]. rewrite Hl.
  destruct (inode_off_disjoint fs G (bg_of fs a g) j j') as [?|?]; try done; [congruence| |]; lia.
Qed.

(** [ext2_get_block] with allocation keeps the layout and the tree of the
    file sound and maps file block [l]: a mapped block is returned without any
    change, a missing one is a fresh zeroed block, and no other file block
    changes its place.  It fails only past the end of the tree, when no block
    is free, or when the device or heap fail. *)
Lemma get_block_allocates_rel a p l : layout_ok fs a -> tree_ok fs a p -> 0 <= l ->
  triple a (ext2_get_block p fs l true) (fun r a' => match r.1 with
    | Some b => l < max_blocks fs /\ layout_ok fs a' /\ tree_ok fs a' r.2 /\
        nodeb fs a' r.2 l = b /\ b <> 0 /\
        (nodeb fs a p l <> 0 -> a' = a /\ r.2 = p) /\
        (nodeb fs a p l = 0 -> a_view a' b = zero_block fs /\ ~ good fs a b) /\
        (forall k, 0 <= k < max_blocks fs -> k <> l -> nodeb fs a' r.2 k = nodeb fs a p k) /\
        (forall c, good fs a c -> ~ in_tree fs a p c -> a_view a' c = a_view a c)
    | None => (max_blocks fs <= l /\ a' = a /\ r.2 = p) \/ ~ rel \/ (kept fs a p a' r.2 /\ block_full fs a')
    end).
Proof.
  intros Lo Tr Hl. eapply triple_conseq; [by apply get_block_alloc_ok|]. intros [[b|] p'] a' Hr; [|done].
  destruct Hr as (Hlt & Mp & Eb). cbn [fst snd] in *. split; [done|]. split; [apply Mp|]. split; [apply Mp|].
  split; [done|]. subst b. split; [apply Mp|]. split; [apply Mp|]. split; [apply Mp|]. split.
  - intros k Hk Hne. apply (mp_other _ _ _ _ _ _ Mp); [|lia|done]. pose proof (ptrs_range fs G). unfold key_ok. lia.
  - intros c Hc Hn. apply (mp_frame _ _ _ _ _ _ Mp); [done|]. intros k Hk _ Eq. apply Hn. by exists k.
Qed.

(** A successful [ext2_write_data] replaces exactly the bytes it is given
    (holes read as zeros), sets the size to the larger of the old size and the
    end of the write, stores the inode record, and touches no block of any
    other file; it fails only when no block is free or the device or heap
    fail. *)
Lemma write_data_correct_rel clk a i g j pos buf :
  layout_ok fs a -> tree_ok fs a (in_private i) -> priv_ok (in_private i) -> inode_pos_ok fs g j ->
  p_ino (in_private i) = inode_no fs g j -> bytes_ok buf -> buf <> [] -> 0 <= pos -> 0 <= in_size i ->
  pos + Z.of_nat (length buf) <= max_bytes fs ->
  triple a (ext2_write_data clk fs i pos buf) (fun r a' => match r.1 with
    | Some n => n = Z.of_nat (length buf) /\ data_written fs a i g j pos buf a' r.2
    | None => no_room (D := D) (H := H) fs a'
    end).
Proof. intros. by apply write_data_ok. Qed.

Lemma fdata_written a i g j pos buf a' i' : data_written fs a i g j pos buf a' i' -> 0 <= pos ->
  pos + Z.of_nat (length buf) <= max_bytes fs ->
  fdata fs a' (in_private i') pos (Z.of_nat (length buf)) = buf.
Proof.
  intros W Hp Hm. apply list_eq. intros k. destruct (decide (k < length buf)%nat) as [Hk|Hk].
  - rewrite fdata_lookup by lia. rewrite (dw_data _ _ _ _ _ _ _ _ _ W) by lia. rewrite decide_True by lia.
    unfold byte_at. replace (Z.to_nat (pos + Z.of_nat k - pos)) with k by lia.
    destruct (lookup_lt_is_Some_2 buf k Hk) as [x ->]. done.
  - rewrite !lookup_ge_None_2; [done|lia|]. rewrite length_fdata. lia.
Qed.

(** a write, and the range read back *)
Definition write_then_read clk i (pos : Z) (buf : list Z) : M St (option (option (list Z))) :=
  let* r := ext2_write_data clk fs i pos buf in
  match r with
  | (Some n, i') => let* d := ext2_read_data fs i' pos n in mret (Some d)
  | (None, _) => mret None
  end.
Lemma write_read_data_rel clk a i g j pos buf :
  layout_ok fs a -> tree_ok fs a (in_private i) -> priv_ok (in_private i) -> inode_pos_ok fs g j ->
  p_ino (in_private i) = inode_no fs g j -> bytes_ok buf -> buf <> [] -> 0 <= pos ->
  0 <= in_size i <= max_bytes fs -> pos + Z.of_nat (length buf) <= max_bytes fs ->
  Z.of_nat (length buf) < 2 ^ 32 -> rel ->
  triple a (write_then_read clk i pos buf) (fun r a' => match r with
    | Some d => d = Some buf
    | None => block_full fs a'
    end).
Proof.
  intros Lo Tr Hp Hpos Eino Hb Hne H0 Hs Hmax Hlen Hr.
  eapply triple_bind; [by apply (write_data_ok fs G TT clk a i g j); try done; lia|].
  intros [[n|] i'] a1 Hw; cbn [fst snd] in Hw; [|apply triple_ret; by destruct Hw]. destruct Hw as [-> W].
  eapply triple_bind.
  { apply (read_data_ok fs G); [apply W|done|lia|]. rewrite (dw_size _ _ _ _ _ _ _ _ _ W). lia. }
  intros d a' (-> & [->|?]); [|done]. apply triple_ret. rewrite (dw_size _ _ _ _ _ _ _ _ _ W), Z.min_l by lia.
  f_equal. by eapply fdata_written.
Qed.

(** *** Directories *)
Lemma dlookup_fresh name ino ty es es' : dlookup name es = None -> es' ≡ₚ (name, ino, ty) :: es ->
  dlookup name es' = Some ino.
Proof.
  intros Hn Hp. destruct (Permutation_vs_cons_inv (Permutation_sym (Permutation_sym Hp))) as (l1 & l2 & ->).
  assert (l1 ++ l2 ≡ₚ es) as Hes.
  { apply (Permutation_cons_inv (a := (name, ino, ty))). rewrite <- Hp. apply Permutation_middle. }
  rewrite dlookup_app; [simpl; by rewrite decide_True|].
  apply dlookup_None. intros e He. apply (proj1 (dlookup_None name es) Hn).
  rewrite <- Hes. apply elem_of_app. by left.
Qed.

(** an entry added, and its name looked up *)
Definition add_then_find p name (ino ty : Z) : M St (option (option Z) * ext2_inode_priv) :=
  let* r := ext2_dir_add fs p name ino ty in
  if r.1 <? 0 then mret (None, r.2) else
  let* f := ext2_dir_find fs r.2 name in mret (Some f, r.2).

(** [ext2_dir_add] keeps the directory well formed and adds exactly one
    entry to its live entries, in an unused record, in the slack of the last
    record of a block, or in a new block; a name that was absent is found
    afterwards with its inode number.  It fails only when the directory cannot
    grow, when no block is free or when the device or heap fail. *)
Lemma dir_add_find_rel a p name ino ty :
  layout_ok fs a -> tree_ok fs a p -> dir_ok fs a p -> p_size p + 2 * block_size fs <= 2 ^ 32 ->
  entry_ok name ino ty ->
  triple a (add_then_find p name ino ty) (fun r a' => match r with
       | (Some f, p') => layout_ok fs a' /\ tree_ok fs a' p' /\ dir_ok fs a' p' /\
           dents fs a' p' ≡ₚ (name, ino, ty) :: dents fs a p /\
           (forall c, good fs a c -> ~ in_tree fs a p c -> a_view a' c = a_view a c) /\
           (~ rel \/ dlookup name (dents fs a p) <> None \/ f = Some ino)
       | (None, _) => no_room (D := D) (H := H) fs a' \/ max_blocks fs <= nblocks fs (p_size p)
       end).
Proof.
  intros Lo Tr Hd Hsz He. eapply triple_bind; [by apply dir_add_ok|].
  intros [r p1] a1 [[E Ha]|[E Hf]]; cbn [fst snd] in *; subst r; cbn [Z.ltb Z.compare]; [|by apply triple_ret].
  destruct Ha as [[L1 T1 D1 S1 F1 G1] Hp].
  eapply triple_bind; [by apply (dir_find_ok fs G)|]. intros f a' (-> & Hf). apply triple_ret.
  repeat (split; [done|]). destruct Hf as [->|?]; [right|by left].
  destruct (dlookup name (dents fs a p)) eqn:En; [by left|right]. by eapply dlookup_fresh.
Qed.

(** [ext2_dir_remove] deletes the first entry with the name and keeps the
    others in their order; when the name is absent it answers -1 and changes
    nothing. *)
Lemma dir_remove_correct_rel a p name : layout_ok fs a -> tree_ok fs a p -> dir_ok fs a p ->
  triple a (ext2_dir_remove fs p name) (fun r a' =>
    (r = 0 /\ layout_ok fs a' /\ tree_ok fs a' p /\ dir_ok fs a' p /\
     (forall c, good fs a c -> ~ in_tree fs a p c -> a_view a' c = a_view a c) /\
     (~ rel \/ (dlookup name (dents fs a p) <> None /\ dents fs a' p = ddelete name (dents fs a p)))) \/
    (r = -1 /\ (~ rel \/ (a' = a /\ dlookup name (dents fs a p) = None)))).
Proof.
  intros Lo Tr Hd. eapply triple_conseq; [by apply dir_remove_ok|].
  intros r a' [(-> & [L1 T1 D1 S1 F1 G1] & Hr)|Hr]; [left|by right]. by repeat (split; [done|]).
Qed.

(** [ext2_dir_find] answers the inode number of the first live entry with
    the name and [ext2_dir_empty] answers 1 exactly when only "." and ".." are
    left; both leave the store alone. *)
Lemma dir_find_empty_correct a p name : tree_ok fs a p -> dir_ok fs a p ->
  triple a (ext2_dir_find fs p name) (fun r a' => a' = a /\ (r = dlookup name (dents fs a p) \/ ~ rel)) /\
  triple a (ext2_dir_empty fs p) (fun r a' => a' = a /\
    (~ rel \/ r = if bool_decide (Forall dot_name (dents fs a p)) then 1 else 0)).
Proof. intros Tr Hd. split; [by apply dir_find_ok|by apply dir_empty_ok]. Qed.
End Files.

(** * Clean runs

    The theorems over the kernel's own table.  [etriple fs a m R]: in a run of
    [m] from a state that shows the blocks [a] in which no transfer and no
    allocation (of a cache entry, a buffer or a node of the table) fails, [m]
    keeps the invariant of the cache and ends with [R] of its result and the
    blocks shown.  Without this condition the cache may lose a write and answer
    0 (fs/ext2.c:412). *)
Section CleanRuns.
Context {D H : Type} `{DD : BlockDev D} `{HH : Heap H}.
Abbreviation St := (fs_state D H hash_table).
Abbreviation SD := (strict_dev DD).
Abbreviation SH := (strict_heap HH).
Abbreviation SB := (hash_block_map (HH := SH)).
Context (fs : ext2_fs_priv).
Implicit Types (a : astate) (p : ext2_inode_priv) (i : inode).

Lemma s_run_ops ops : refines (run_ops (DD := SD) (HH := SH) (BM := SB) fs ops) (run_ops (D := D) fs ops).
Proof. induction ops as [|o ops IH]; cbn [run_ops]; [apply refines_refl|]. destruct o; unfold run_op; refine_all. Qed.

Section Cache.
Context (BS : block_size_ok fs).

(** [C14] In a run where no transfer and no allocation fails, any sequence of
    reads, writes and flushes of cached blocks answers like an array of blocks
    and ends in a state that shows that array; the invariant of the cache (and so
    the set of heap objects of its clients) is kept. *)
Theorem cache_refines_array L (st : St) ops : fs_inv fs L st -> Forall (op_ok fs) ops ->
  clean (fun DD HH => run_ops (DD := DD) (HH := HH) fs ops) st ->
  wp (run_ops fs ops) (fun rs st' => fs_inv fs L st' /\ rs = (spec_ops (view fs st) ops).1 /\
    forall b, u32_ok b -> view fs st' b = (spec_ops (view fs st) ops).2 b) st.
Proof.
  intros I Hok Hc. apply (fun Hr => clean_wp _ _ _ Hr Hc); [apply s_run_ops|]. apply strict_inv in I.
  eapply wp_conseq; [apply (cache_refines_array_rel (DD := SD) (HH := SH) (BM := SB) fs BS L st ops strict_table strict_reads strict_writes strict_allocs I Hok)|].
  intros rs st' (I' & R). split; [by apply strict_inv|exact R].
Qed.

(** [C21] Flushing terminates whatever the device does, keeps what the cache
    shows, and when it answers 0 the device holds every block the cache shows;
    it answers 0 whenever no device write and no allocation of the run fails. *)
Theorem cache_flush_durable L (st : St) : fs_inv fs L st ->
  wp (ext2_cache_flush fs) (fun r st' => fs_inv fs L st' /\
    (forall b, u32_ok b -> view fs st' b = view fs st b) /\
    (clean (fun DD HH => ext2_cache_flush (DD := DD) (HH := HH) fs) st -> r = 0) /\
    (r = 0 -> forall b, u32_ok b -> disk_block fs (fs_dev st') b = view fs st b)) st.
Proof.
  intros I. pose proof (cache_flush_durable_rel fs BS L st I) as W.
  assert (clean (fun DD HH => ext2_cache_flush (DD := DD) (HH := HH) fs) st -> wp (ext2_cache_flush fs) (fun r _ => r = 0) st) as W0.
  { intros Hc. apply (fun Hr => clean_wp _ _ _ Hr Hc); [refine_all|]. apply strict_inv in I.
    eapply wp_conseq; [apply (cache_flush_durable_rel (DD := SD) (HH := SH) (BM := SB) fs BS L st I)|].
    intros r st' (_ & _ & Hr & _). apply Hr; [apply strict_writes|apply strict_allocs]. }
  unfold wp in *. destruct (ext2_cache_flush fs st) as [[r st']| | |]; try done. tauto.
Qed.
End Cache.

Section Files.
Context (G : geom_ok fs).

(** [ext2_alloc_block] takes the first free block in search order: the
    answer is below the block count, its bit was clear and every bit before it
    set; afterwards that bit is set, no other bit and no other block has
    changed.  In a run where nothing fails it finds one unless all are taken. *)
Theorem alloc_block_first_fit a : layout_ok fs a ->
  etriple fs a (fun DD HH => ext2_alloc_block (DD := DD) (HH := HH) fs) (fun r a' => match r with
    | Some b => exists g j, group_ok fs g /\ 0 <= j < blocks_per_group fs /\ b = block_no fs g j /\
        b < blocks_count fs /\ used fs a g j = false /\
        (forall g' k, 0 <= g' -> 0 <= k < blocks_per_group fs -> before g' k g j ->
           block_no fs g' k < blocks_count fs -> used fs a g' k = true) /\
        (forall g' k, group_ok fs g' -> 0 <= k ->
           used fs a' g' k = ((g' =? g) && (k =? j)) || used fs a g' k) /\
        layout_ok fs a' /\ a_fb a' = u32 (a_fb a - 1) /\
        forall c, c <> bb fs a g -> c <> bg_blk fs g -> a_view a' c = a_view a c
    | None => a' = a /\ block_full fs a
    end).
Proof.
  intros Lo. apply etriple_intro; [refine_all|]. eapply triple_conseq; [by apply (alloc_block_first_fit_rel (DD := SD) (HH := SH) (BM := SB) fs G strict_table)|].
  intros [b|] a' Hr; [done|]. destruct Hr as [NR|?]; [by destruct NR; apply strict_ext2|done].
Qed.

(** [C19] [ext2_get_block] with allocation, in a run where no transfer and no
    memory allocation fails, keeps the layout and the tree of the file sound,
    also when it fails, and maps file block [l]: a mapped block is returned
    without any change, a missing one is a fresh zeroed block, and no other file
    block changes its place.  It fails only past the end of the tree, with
    nothing changed, or when no block is free, with every file block in place. *)
Theorem get_block_allocates a p l : layout_ok fs a -> tree_ok fs a p -> 0 <= l ->
  etriple fs a (fun DD HH => ext2_get_block (DD := DD) (HH := HH) p fs l true) (fun r a' => match r.1 with
    | Some b => l < max_blocks fs /\ layout_ok fs a' /\ tree_ok fs a' r.2 /\
        nodeb fs a' r.2 l = b /\ b <> 0 /\
        (nodeb fs a p l <> 0 -> a' = a /\ r.2 = p) /\
        (nodeb fs a p l = 0 -> a_view a' b = zero_block fs /\ ~ good fs a b) /\
        (forall k, 0 <= k < max_blocks fs -> k <> l -> nodeb fs a' r.2 k = nodeb fs a p k) /\
        (forall c, good fs a c -> ~ in_tree fs a p c -> a_view a' c = a_view a c)
    | None => (max_blocks fs <= l /\ a' = a /\ r.2 = p) \/
        (block_full fs a' /\ layout_ok fs a' /\ tree_ok fs a' r.2 /\
         (forall k, 0 <= k < max_blocks fs -> nodeb fs a' r.2 k = nodeb fs a p k) /\
         (forall c, good fs a c -> ~ in_tree fs a p c -> a_view a' c = a_view a c))
    end).
Proof.
  intros Lo Tr Hl. apply etriple_intro; [refine_all|].
  eapply triple_conseq; [by apply (get_block_allocates_rel (DD := SD) (HH := SH) (BM := SB) fs G strict_table)|].
  intros [[b|] p'] a' Hr; [done|]. cbn [fst snd] in *. destruct Hr as [?|[NR|[K Hf]]]; [by left|by destruct NR; apply strict_ext2|right].
  split; [done|]. split; [apply K|]. split; [apply K|]. pose proof (ptrs_range fs G). split.
  - intros k Hk. apply (kp_data _ _ _ _ _ K); [unfold key_ok; lia|lia].
  - intros c Hc Hn. apply (kp_frame _ _ _ _ _ K); [done|]. intros k Hk _ E. apply Hn. by exists k.
Qed.

(** [C3] In a run where no transfer and no allocation fails, writing a buffer into
    a file and reading the same range back returns the buffer, unless the write
    fails, which it does only when no block of the volume is free. *)
Theorem write_read_data clk a i g j pos buf :
  layout_ok fs a -> tree_ok fs a (in_private i) -> priv_ok (in_private i) -> inode_pos_ok fs g j ->
  p_ino (in_private i) = inode_no fs g j -> bytes_ok buf -> buf <> [] -> 0 <= pos ->
  0 <= in_size i <= max_bytes fs -> pos + Z.of_nat (length buf) <= max_bytes fs ->
  Z.of_nat (length buf) < 2 ^ 32 ->
  etriple fs a (fun DD HH => write_then_read (DD := DD) (HH := HH) fs clk i pos buf) (fun r a' => match r with
    | Some d => d = Some buf
    | None => block_full fs a'
    end).
Proof.
  intros. apply etriple_intro; [unfold write_then_read; refine_all|].
  eapply (write_read_data_rel (DD := SD) (HH := SH) (BM := SB) fs G strict_table); (done || apply strict_ext2).
Qed.

(** In a run where nothing fails, allocating a block and freeing it again
    restores every block of the store, the bitmap and the group descriptor
    included, and the count of free blocks; there is nothing to restore only
    when no block is free. *)
Theorem alloc_free_block a : layout_ok fs a -> u32_ok (a_fb a) ->
  etriple fs a (fun DD HH => alloc_then_free (DD := DD) (HH := HH) fs)
    (fun r a' => (r = 0 /\ (forall c, a_view a' c = a_view a c) /\ a_fb a' = a_fb a) \/ (r = -1 /\ block_full fs a)).
Proof.
  intros Lo Hf. apply etriple_intro; [unfold alloc_then_free; refine_all|].
  eapply triple_conseq; [by apply (alloc_free_block_rel (DD := SD) (HH := SH) (BM := SB) fs G strict_table)|].
  intros r a' [?|(-> & [NR|?])]; [by left|by destruct NR; apply strict_ext2|by right].
Qed.

(** In a run where nothing fails, saving an in-memory inode and reading its
    record back gives the same inode, and the record of every other inode keeps
    its bytes. *)
Theorem inode_save_load a p g j : layout_ok fs a -> priv_ok p -> inode_pos_ok fs g j -> p_ino p = inode_no fs g j ->
  etriple fs a (fun DD HH => save_then_load (DD := DD) (HH := HH) fs p) (fun r a' =>
       (exists di, r = Some di /\ ext2_disk_to_priv di (p_ino p) = p) /\
        forall g' j', inode_pos_ok fs g' j' -> (g', j') <> (g, j) ->
          bg_inode_table (bg_of fs a g') + inodes_per_group fs < 2 ^ 32 ->
          (g' <> g -> inode_blk fs (bg_of fs a g') j' <> inode_blk fs (bg_of fs a g) j) ->
          di_of fs a' g' j' = di_of fs a g' j').
Proof.
  intros Lo Hp Hpos E. apply etriple_intro; [unfold save_then_load; refine_all|].
  eapply triple_conseq; [by apply (inode_save_load_rel (DD := SD) (HH := SH) (BM := SB) fs G strict_table)|].
  intros r a' [NR|?]; [by destruct NR; apply strict_ext2|done].
Qed.

(** [C37] [ext2_dir_remove], in a run where nothing fails, deletes the first entry
    with the name and keeps the others in their order; when the name is absent it
    answers -1 and changes nothing. *)
Theorem dir_remove_correct a p name : layout_ok fs a -> tree_ok fs a p -> dir_ok fs a p ->
  etriple fs a (fun DD HH => ext2_dir_remove (DD := DD) (HH := HH) fs p name) (fun r a' =>
    (r = 0 /\ layout_ok fs a' /\ tree_ok fs a' p /\ dir_ok fs a' p /\
     (forall c, good fs a c -> ~ in_tree fs a p c -> a_view a' c = a_view a c) /\
     dlookup name (dents fs a p) <> None /\ dents fs a' p = ddelete name (dents fs a p)) \/
    (r = -1 /\ a' = a /\ dlookup name (dents fs a p) = None)).
Proof.
  intros Lo Tr Hd. apply etriple_intro; [refine_all|].
  eapply triple_conseq; [by apply (dir_remove_correct_rel (DD := SD) (HH := SH) (BM := SB) fs G strict_table)|].
  pose proof (strict_ext2 (DD := DD) (HH := HH)) as R. intros r a' [(E & L1 & T1 & D1 & F1 & [NR|Hx])|(E & [NR|Hx])]; [done| |done|].
  - left. repeat (split; [done|]). exact Hx.
  - right. by split.
Qed.

(** [C18] In a run where no transfer and no allocation fails, [ext2_dir_add] of an
    absent name keeps the directory well formed and adds exactly one entry to its
    live entries, in an unused record, in the slack of the last record of a block,
    or in a new block; the name is found afterwards with its inode number.  It
    fails only when the directory cannot grow or no block is free. *)
Theorem dir_add_find a p name ino ty :
  layout_ok fs a -> tree_ok fs a p -> dir_ok fs a p -> p_size p + 2 * block_size fs <= 2 ^ 32 ->
  entry_ok name ino ty -> dlookup name (dents fs a p) = None ->
  etriple fs a (fun DD HH => add_then_find (DD := DD) (HH := HH) fs p name ino ty) (fun r a' => match r with
       | (Some f, p') => layout_ok fs a' /\ tree_ok fs a' p' /\ dir_ok fs a' p' /\
           dents fs a' p' ≡ₚ (name, ino, ty) :: dents fs a p /\
           (forall c, good fs a c -> ~ in_tree fs a p c -> a_view a' c = a_view a c) /\ f = Some ino
       | (None, _) => block_full fs a' \/ max_blocks fs <= nblocks fs (p_size p)
       end).
Proof.
  intros Lo Tr Hd Hs He Hn. apply etriple_intro; [unfold add_then_find; refine_all|].
  eapply triple_conseq; [by apply (dir_add_find_rel (DD := SD) (HH := SH) (BM := SB) fs G strict_table)|].
  pose proof (strict_ext2 (DD := DD) (HH := HH)) as R.
  intros [[f|] p'] a' Hr; cbn in Hr; [|destruct Hr as [[?|?]|?]; [done|by left|by right]].
  destruct Hr as (? & ? & ? & ? & ? & [?|[?|?]]); done.
Qed.
End Files.
End CleanRuns.
