(* ===== verification/Ext2Demo.v ===== *)
(** A small ext2 image on a RAM disk, with a bad sector, a heap that runs out of
    memory after 500 allocations and the hash table of the kernel as the cache's
    table: the instance on which the theorems of
    Ext2Theorems.v are applied, and a run in which a write is lost. *)
From stdpp Require Import base gmap list numbers.
From Stdlib Require Import ZArith Lia.
From S2P Require Import Prelude Bytes HashMap HashMapSpec BlockDev Ext2Cache Ext2CacheSpec Ext2 Ext2Logic Ext2Alloc Ext2Map Ext2Tree Ext2GetBlock Ext2Dir Ext2File Ext2Data Ext2Inode Ext2FileSpec Ext2Dirent Ext2DirSpec Strict Ext2Strict Ext2Theorems.
Open Scope Z_scope.

(** ** The image

    One group of 64 blocks of 1024 bytes with 8 inodes: superblock in block 1,
    descriptors in 2, bitmaps in 3 and 4, inode table in 5, the root directory
    in 6 with the entries "." and "..". *)
Definition demo_fs : ext2_fs_priv := mkPriv 1024 8 64 128 1 8 64 1 256.

Definition demo_bgdt : list Z := le_enc 4 3 ++ le_enc 4 4 ++ le_enc 4 5 ++ le_enc 2 58 ++ le_enc 2 6.
Definition demo_dir : list Z :=
  le_enc 4 2 ++ le_enc 2 12 ++ [1; 2; 46; 0; 0; 0] ++ le_enc 4 2 ++ le_enc 2 1012 ++ [2; 2; 46; 46].
Definition demo_disk : ramdisk :=
  mkDisk {[ 4 := demo_bgdt; 6 := [63]; 8 := [3]; 12 := demo_dir; 13 := [] ]} {[ 1000 ]}.

Definition demo_new (h : limited) : option hash_table * limited :=
  ok_or (None, h) (block_create h).
Definition demo_tbl (h : limited) : hash_table :=
  default (mkTable 0 0 [] 0 0 (fun _ _ => 0) (fun _ _ _ => false)) (demo_new h).1.
(** mounted, with an empty cache, on a heap that was [h] before *)
Definition demo_mount (h : limited) : fs_state ramdisk limited hash_table :=
  mkFs demo_disk (demo_new h).2 (Some (demo_tbl h)) ∅ 6 58.
Definition demo_st : fs_state ramdisk limited hash_table := demo_mount (mkLimited 500 (mkCounter 1 ∅)).

Lemma demo_new_ok h L : heap_inv h L -> bool_decide (is_Some (demo_new h).1) = true ->
  bm_rep (T := hash_table) L (demo_new h).2 (demo_tbl h) ∅.
Proof.
  intros I E. unfold demo_tbl, demo_new in *.
  pose proof (bm_create_ok (T := hash_table) L h) as W. unfold wp in W. simpl bm_create in W.
  destruct (block_create h) as [[[t|] h']| | |]; simpl in *; try done; by apply W.
Qed.

Lemma demo_geom : geom_ok demo_fs.
Proof.
  split; try (simpl; lia); [by left|done|]. exists 7. done.
Qed.

Lemma demo_mount_inv h L : heap_inv h L -> bool_decide (is_Some (demo_new h).1) = true ->
  fs_inv demo_fs L (demo_mount h).
Proof.
  intros I E. exists (demo_tbl h), ∅. split; [done|..].
  - change (list_to_set (owned (fs_ents (demo_mount h)))) with (∅ : gset Z). rewrite union_empty_r_L. by apply demo_new_ok.
  - constructor.
  - intros p Hp. by apply elem_of_nil in Hp.
  - intros b p Hb. by rewrite lookup_empty in Hb.
  - intros p e He. simpl in He. by rewrite lookup_empty in He.
Qed.
Lemma demo_inv : fs_inv demo_fs ∅ demo_st.
Proof. apply demo_mount_inv; [split; [done|set_solver]|]. vm_compute. reflexivity. Qed.

Definition demo_a : astate := mkA (view demo_fs demo_st) 6 58.
Lemma demo_models : models demo_fs demo_st demo_a.
Proof. split; [done|]. done. Qed.

(** *** Soundness of the image *)
Lemma demo_group g : group_ok demo_fs g -> g = 0.
Proof. unfold group_ok. simpl. lia. Qed.
Lemma demo_bg : bg_of demo_fs demo_a 0 = demo_bgdt ++ replicate 16 0.
Proof. vm_compute. reflexivity. Qed.
Lemma demo_bb : bb demo_fs demo_a 0 = 3 /\ ib demo_fs demo_a 0 = 4 /\ bg_inode_table (bg_of demo_fs demo_a 0) = 5 /\
  bg_blk demo_fs 0 = 2.
Proof. vm_compute. done. Qed.
Lemma demo_table_blk i : 0 <= i < 8 -> inode_blk demo_fs (bg_of demo_fs demo_a 0) i = 5.
Proof.
  intros Hi. unfold inode_blk. destruct demo_bb as (_ & _ & -> & _). simpl inode_size. simpl block_size.
  rewrite (u32_small (i * 128)) by lia. rewrite Z.div_small by lia. done.
Qed.
Lemma demo_used j : 0 <= j <= 5 -> used demo_fs demo_a 0 j = true.
Proof.
  intros Hj. assert (j = 0 \/ j = 1 \/ j = 2 \/ j = 3 \/ j = 4 \/ j = 5) as Hc by lia.
  destruct Hc as [->|[->|[->|[->|[->| ->]]]]]; vm_compute; reflexivity.
Qed.
Lemma demo_meta c : meta demo_fs demo_a c <-> c = 0 \/ 2 <= c <= 5.
Proof.
  destruct demo_bb as (E1 & E2 & E3 & E4). split.
  - intros [->|(g & Hg & Hc)]; [by left|right]. apply demo_group in Hg as ->. rewrite E1, E2, E4 in Hc.
    destruct Hc as [->|[->|[->|(i & Hi & ->)]]]; try lia. rewrite demo_table_blk by done. lia.
  - intros [->|Hc]; [by left|right]. exists 0. split; [unfold group_ok; simpl; lia|]. rewrite E1, E2, E4.
    assert (c = 2 \/ c = 3 \/ c = 4 \/ c = 5) as [->|[->|[->| ->]]] by lia; auto.
    right; right; right. exists 0. split; [simpl; lia|]. rewrite demo_table_blk by lia. reflexivity.
Qed.

Lemma demo_layout : layout_ok demo_fs demo_a.
Proof.
  destruct demo_bb as (E1 & E2 & E3 & E4).
  split; intros g; try (intros g' Hg Hg'; apply demo_group in Hg as ->; apply demo_group in Hg' as ->;
    rewrite ?E1, ?E2, ?E4; done).
  - intros g' i Hg Hg' Hi. apply demo_group in Hg as ->. apply demo_group in Hg' as ->.
    rewrite E1, E2, E4, demo_table_blk by exact Hi. split; [discriminate|split; discriminate].
  - intros j Hg Hj Hm. apply demo_group in Hg as ->. apply demo_meta in Hm. unfold block_no in Hm. simpl in Hm, Hj.
    apply demo_used. lia.
Qed.

(** a tree with at most one direct block *)
Definition demo_priv (ino size mode links b : Z) : ext2_inode_priv :=
  mkInodePriv ino 0 0 size mode links 0 0 0 0 (b :: replicate 14 0).

Lemma demo_nodeb ino size mode links b k : key_ok demo_fs k ->
  nodeb demo_fs demo_a (demo_priv ino size mode links b) k = if decide (k = 0) then b else 0.
Proof.
  intros Hk. unfold nodeb. assert (forall i, (i <> 0)%nat -> blk (demo_priv ino size mode links b) i = 0) as Hb.
  { intros [|i] Hi; [done|]. unfold blk, demo_priv. cbn [p_block]. rewrite lookup_cons.
    destruct (replicate 14 0 !! i) eqn:E; [|done]. by apply lookup_replicate in E as [-> _]. }
  rewrite !(Hb EXT2_DIND_BLOCK), !(Hb EXT2_IND_BLOCK) by done. rewrite !ptr_at_0.
  destruct (k <? -2) eqn:E1; breflect; [by rewrite decide_False by lia|].
  destruct (k =? -2) eqn:E2; breflect; [by rewrite decide_False by lia|].
  destruct (k =? -1) eqn:E3; breflect; [by rewrite decide_False by lia|].
  destruct (k <? 12) eqn:E4; breflect.
  - case_decide as E5; [by subst|]. apply Hb. lia.
  - rewrite decide_False by lia. by destruct (_ <? _).
Qed.

Lemma demo_good : good demo_fs demo_a 6.
Proof.
  split; [unfold u32_ok; lia|]. split; [rewrite demo_meta; lia|]. exists 0, 5. split; [unfold group_ok; simpl; lia|].
  split; [simpl; lia|]. split; [done|]. by apply demo_used.
Qed.

Lemma demo_tree ino size mode links b : b = 0 \/ b = 6 -> tree_ok demo_fs demo_a (demo_priv ino size mode links b).
Proof.
  intros Hb. split; [done|..].
  - intros k Hk. rewrite demo_nodeb by done. case_decide; [|done]. destruct Hb as [->| ->]; [done|]. intros _.
    apply demo_good.
  - intros k k' Hk Hk'. rewrite !demo_nodeb by done. repeat case_decide; try done; try congruence.
Qed.

Definition demo_file : inode := mkInode 90 91 3 33188 0 0 0 (demo_priv 3 0 33188 1 0).
Definition demo_root : ext2_inode_priv := demo_priv 2 1024 16877 2 6.

Lemma demo_priv_ok ino size mode links b : u32_ok ino -> u32_ok size -> 0 <= mode < 2 ^ 16 -> 0 <= links < 2 ^ 16 ->
  u32_ok b -> priv_ok (demo_priv ino size mode links b).
Proof.
  intros. split; try done; try (simpl; unfold u32_ok in *; lia).
  constructor; [done|]. apply Forall_replicate. unfold u32_ok. lia.
Qed.

Lemma demo_pos j : 0 <= j < 8 -> inode_pos_ok demo_fs 0 j.
Proof. intros Hj. split; [unfold group_ok; simpl; lia|]. split; [done|]. unfold inode_no. simpl. lia. Qed.

Definition demo_recs : list (list Z) :=
  [take 12 demo_dir; drop 12 demo_dir ++ replicate 1002 0].

Lemma demo_dir_block : a_view demo_a 6 = concat demo_recs.
Proof. vm_compute. reflexivity. Qed.
Lemma demo_recs_ok : recs_ok demo_recs.
Proof.
  constructor; [|constructor; [|constructor]]; split; try (vm_compute; (reflexivity || discriminate));
    (eapply bool_decide_unpack; vm_compute; reflexivity).
Qed.

Lemma demo_root_ok : dir_ok demo_fs demo_a demo_root.
Proof.
  split; [vm_compute; reflexivity|vm_compute; split; discriminate|vm_compute; discriminate|].
  intros l Hl Hn. unfold demo_root in *. assert (nblocks demo_fs 1024 = 1) as En by (vm_compute; reflexivity).
  simpl p_size in Hl. rewrite En in Hl. assert (l = 0) as -> by lia.
  change (nodeb demo_fs demo_a (demo_priv 2 1024 16877 2 6) 0) with 6. exists demo_recs.
  split; [apply demo_recs_ok|apply demo_dir_block].
Qed.

Lemma demo_root_dents : dents demo_fs demo_a demo_root = [([46], 2, 2); ([46; 46], 2, 2)].
Proof. vm_compute. reflexivity. Qed.

(** ** The theorems on the image *)
Definition hello : list Z := [104; 101; 108; 108; 111].
Definition demo_block : list Z := replicate 1024 7.

Lemma demo_block_ok : block_ok demo_fs demo_block.
Proof. split; [vm_compute; reflexivity|]. apply Forall_replicate. unfold byte_ok. lia. Qed.

Definition demo_ops : list cache_op := [OpWrite 9 demo_block; OpRead 9; OpFlush; OpRead 10].
Lemma demo_ops_ok : Forall (op_ok demo_fs) demo_ops.
Proof.
  constructor; [split; [unfold u32_ok; lia|apply demo_block_ok]|]. constructor; [unfold op_ok, u32_ok; lia|].
  constructor; [exact I|]. constructor; [unfold op_ok, u32_ok; lia|constructor].
Qed.
Lemma demo_ops_clean : clean (fun DD HH => run_ops (DD := DD) (HH := HH) demo_fs demo_ops) demo_st.
Proof. apply clean_run. vm_compute. reflexivity. Qed.
Lemma cache_refines_array_witness :
  wp (run_ops demo_fs demo_ops)
    (fun rs st' => fs_inv demo_fs ∅ st' /\ rs = (spec_ops (view demo_fs demo_st) demo_ops).1 /\
       forall b, u32_ok b -> view demo_fs st' b = (spec_ops (view demo_fs demo_st) demo_ops).2 b) demo_st.
Proof. apply (cache_refines_array demo_fs (go_bs _ demo_geom) ∅ demo_st demo_ops demo_inv demo_ops_ok demo_ops_clean). Defined.

Lemma cache_flush_durable_witness :
  wp (ext2_cache_flush demo_fs) (fun r st' => fs_inv demo_fs ∅ st' /\
    (forall b, u32_ok b -> view demo_fs st' b = view demo_fs demo_st b) /\
    (clean (fun DD HH => ext2_cache_flush (DD := DD) (HH := HH) demo_fs) demo_st -> r = 0) /\
    (r = 0 -> forall b, u32_ok b -> disk_block demo_fs (fs_dev st') b = view demo_fs demo_st b)) demo_st.
Proof. apply (cache_flush_durable demo_fs (go_bs _ demo_geom) ∅ demo_st demo_inv). Defined.

(** the four objects of a mount are 1 to 4, and 5 belongs to someone else *)
Definition demo_sb : super_block := mkSuper 4 3 (mkInode 2 1 2 16877 0 0 1024 demo_root).
Definition demo_heap5 : limited := mkLimited 500 (mkCounter 6 {[ 1; 2; 3; 4; 5 ]}).
Lemma kill_sb_releases_demo :
  wp (ext2_kill_sb demo_fs demo_sb) (fun _ st' => heap_inv (fs_heap st') {[ 5 ]} /\ fs_cache st' = None /\ fs_ents st' = ∅)
    (demo_mount demo_heap5).
Proof.
  eapply wp_conseq; [apply (kill_sb_releases demo_fs (go_bs _ demo_geom) {[ 5 ]} (demo_mount demo_heap5) demo_sb)|].
  - apply (bool_decide_unpack _). vm_compute. reflexivity.
  - repeat constructor; try discriminate; set_solver.
  - apply demo_mount_inv; [|vm_compute; reflexivity]. split; [vm_compute; reflexivity|].
    intros x Hx. simpl in *. set_unfold. lia.
  - intros u st' (I1 & I2 & I3 & _). done.
Qed.

(** a run of [m] from the image is clean, and as stated by [R] *)
Abbreviation demo_run m R :=
  (clean (D := ramdisk) (H := limited) m demo_st /\ etriple (D := ramdisk) (H := limited) demo_fs demo_a m R).

Lemma alloc_block_first_fit_witness :
  demo_run (fun DD HH => ext2_alloc_block (DD := DD) (HH := HH) demo_fs) (fun r a' => match r with
    | Some b => exists g j, group_ok demo_fs g /\ 0 <= j < blocks_per_group demo_fs /\ b = block_no demo_fs g j /\
        b < blocks_count demo_fs /\ used demo_fs demo_a g j = false /\
        (forall g' k, 0 <= g' -> 0 <= k < blocks_per_group demo_fs -> before g' k g j ->
           block_no demo_fs g' k < blocks_count demo_fs -> used demo_fs demo_a g' k = true) /\
        (forall g' k, group_ok demo_fs g' -> 0 <= k ->
           used demo_fs a' g' k = ((g' =? g) && (k =? j)) || used demo_fs demo_a g' k) /\
        layout_ok demo_fs a' /\ a_fb a' = u32 (a_fb demo_a - 1) /\
        forall c, c <> bb demo_fs demo_a g -> c <> bg_blk demo_fs g -> a_view a' c = a_view demo_a c
    | None => a' = demo_a /\ block_full demo_fs demo_a
    end).
Proof. split; [apply clean_run; vm_compute; reflexivity|]. apply (alloc_block_first_fit demo_fs demo_geom demo_a demo_layout). Defined.

Lemma alloc_free_block_witness :
  demo_run (fun DD HH => alloc_then_free (DD := DD) (HH := HH) demo_fs)
    (fun r a' => (r = 0 /\ (forall c, a_view a' c = a_view demo_a c) /\ a_fb a' = a_fb demo_a) \/
                 (r = -1 /\ block_full demo_fs demo_a)).
Proof. split; [apply clean_run; vm_compute; reflexivity|]. apply (alloc_free_block demo_fs demo_geom demo_a demo_layout). unfold u32_ok. simpl. lia. Defined.

Lemma inode_save_load_witness :
  demo_run (fun DD HH => save_then_load (DD := DD) (HH := HH) demo_fs demo_root)
    (fun r a' => (exists di, r = Some di /\ ext2_disk_to_priv di 2 = demo_root) /\
        forall g' j', inode_pos_ok demo_fs g' j' -> (g', j') <> (0, 1) ->
          bg_inode_table (bg_of demo_fs demo_a g') + inodes_per_group demo_fs < 2 ^ 32 ->
          (g' <> 0 -> inode_blk demo_fs (bg_of demo_fs demo_a g') j' <> inode_blk demo_fs (bg_of demo_fs demo_a 0) 1) ->
          di_of demo_fs a' g' j' = di_of demo_fs demo_a g' j').
Proof.
  split; [apply clean_run; vm_compute; reflexivity|]. apply (inode_save_load demo_fs demo_geom demo_a demo_root 0 1 demo_layout).
  - apply demo_priv_ok; unfold u32_ok; lia.
  - apply demo_pos. lia.
  - reflexivity.
Defined.

Lemma get_block_allocates_witness :
  demo_run (fun DD HH => ext2_get_block (DD := DD) (HH := HH) demo_root demo_fs 3 true) (fun r a' => match r.1 with
    | Some b => 3 < max_blocks demo_fs /\ layout_ok demo_fs a' /\ tree_ok demo_fs a' r.2 /\
        nodeb demo_fs a' r.2 3 = b /\ b <> 0 /\
        (nodeb demo_fs demo_a demo_root 3 <> 0 -> a' = demo_a /\ r.2 = demo_root) /\
        (nodeb demo_fs demo_a demo_root 3 = 0 -> a_view a' b = zero_block demo_fs /\ ~ good demo_fs demo_a b) /\
        (forall k, 0 <= k < max_blocks demo_fs -> k <> 3 -> nodeb demo_fs a' r.2 k = nodeb demo_fs demo_a demo_root k) /\
        (forall c, good demo_fs demo_a c -> ~ in_tree demo_fs demo_a demo_root c -> a_view a' c = a_view demo_a c)
    | None => (max_blocks demo_fs <= 3 /\ a' = demo_a /\ r.2 = demo_root) \/
        (block_full demo_fs a' /\ layout_ok demo_fs a' /\ tree_ok demo_fs a' r.2 /\
         (forall k, 0 <= k < max_blocks demo_fs -> nodeb demo_fs a' r.2 k = nodeb demo_fs demo_a demo_root k) /\
         (forall c, good demo_fs demo_a c -> ~ in_tree demo_fs demo_a demo_root c -> a_view a' c = a_view demo_a c))
    end).
Proof.
  split; [apply clean_run; vm_compute; reflexivity|]. apply (get_block_allocates demo_fs demo_geom demo_a demo_root 3 demo_layout); [|lia].
  apply demo_tree. by right.
Defined.

Lemma hello_fits : 5 + Z.of_nat (length hello) <= max_bytes demo_fs.
Proof. vm_compute. discriminate. Qed.
Lemma hello_ok : bytes_ok hello.
Proof. apply (bool_decide_unpack _). vm_compute. reflexivity. Qed.

Lemma write_read_data_witness :
  demo_run (fun DD HH => write_then_read (DD := DD) (HH := HH) demo_fs (fun _ => 0) demo_file 5 hello)
    (fun r a' => match r with Some d => d = Some hello | None => block_full demo_fs a' end).
Proof.
  split; [apply clean_run; vm_compute; reflexivity|]. apply (write_read_data demo_fs demo_geom (fun _ => 0) demo_a demo_file 0 2 5 hello demo_layout).
  - apply demo_tree. by left.
  - apply demo_priv_ok; unfold u32_ok; lia.
  - apply demo_pos. lia.
  - reflexivity.
  - apply hello_ok.
  - discriminate.
  - lia.
  - vm_compute. split; discriminate.
  - apply hello_fits.
  - simpl. lia.
Defined.

Lemma hello_entry : entry_ok hello 3 1.
Proof. split; [simpl; lia|]. split; [apply hello_ok|]. unfold u32_ok. lia. Qed.

Lemma dir_add_find_witness :
  demo_run (fun DD HH => add_then_find (DD := DD) (HH := HH) demo_fs demo_root hello 3 1) (fun r a' => match r with
       | (Some f, p') => layout_ok demo_fs a' /\ tree_ok demo_fs a' p' /\ dir_ok demo_fs a' p' /\
           dents demo_fs a' p' ≡ₚ (hello, 3, 1) :: dents demo_fs demo_a demo_root /\
           (forall c, good demo_fs demo_a c -> ~ in_tree demo_fs demo_a demo_root c -> a_view a' c = a_view demo_a c) /\ f = Some 3
       | (None, _) => block_full demo_fs a' \/ max_blocks demo_fs <= nblocks demo_fs (p_size demo_root)
       end).
Proof.
  split; [apply clean_run; vm_compute; reflexivity|]. apply (dir_add_find demo_fs demo_geom demo_a demo_root hello 3 1 demo_layout).
  - apply demo_tree. by right.
  - apply demo_root_ok.
  - vm_compute. discriminate.
  - apply hello_entry.
  - vm_compute. reflexivity.
Defined.

Lemma dir_remove_correct_witness :
  demo_run (fun DD HH => ext2_dir_remove (DD := DD) (HH := HH) demo_fs demo_root [46; 46]) (fun r a' =>
    (r = 0 /\ layout_ok demo_fs a' /\ tree_ok demo_fs a' demo_root /\ dir_ok demo_fs a' demo_root /\
     (forall c, good demo_fs demo_a c -> ~ in_tree demo_fs demo_a demo_root c -> a_view a' c = a_view demo_a c) /\
     dlookup [46; 46] (dents demo_fs demo_a demo_root) <> None /\
     dents demo_fs a' demo_root = ddelete [46; 46] (dents demo_fs demo_a demo_root)) \/
    (r = -1 /\ a' = demo_a /\ dlookup [46; 46] (dents demo_fs demo_a demo_root) = None)).
Proof.
  split; [apply clean_run; vm_compute; reflexivity|]. apply (dir_remove_correct demo_fs demo_geom demo_a demo_root [46; 46] demo_layout).
  - apply demo_tree. by right.
  - apply demo_root_ok.
Defined.

(** the same operations, run: ["hello"] in a file, and in the root directory *)
Example demo_write_read_runs :
  match (let* r := ext2_write_data (fun _ => 0) demo_fs demo_file 5 hello in
         match r with (Some n, i') => ext2_read_data demo_fs i' 0 n | (None, _) => mret None end) demo_st with
  | Ok (r, _) => r = Some [0; 0; 0; 0; 0]
  | _ => False
  end.
Proof. vm_compute. reflexivity. Qed.
Example demo_dir_runs :
  match (let* r := ext2_dir_add demo_fs demo_root hello 3 1 in
         let* f := ext2_dir_find demo_fs r.2 hello in
         let* d := ext2_dir_remove demo_fs r.2 hello in
         let* e := ext2_dir_empty demo_fs r.2 in mret (r.1, f, d, e)) demo_st with
  | Ok (r, _) => r = (0, Some 3, 0, 1)
  | _ => False
  end.
Proof. vm_compute. reflexivity. Qed.

(** ** A lost write *)

(** two allocations are left after the table was created: the cache entry and
    its buffer, but not the node of the table *)
Definition lost_new : option hash_table * limited :=
  ok_or (None, mkLimited 4 (mkCounter 1 ∅)) (block_create (mkLimited 4 (mkCounter 1 ∅))).
Definition lost_st : fs_state ramdisk limited hash_table :=
  mkFs demo_disk lost_new.2
    (Some (default (mkTable 0 0 [] 0 0 (fun _ _ => 0) (fun _ _ _ => false)) lost_new.1)) ∅ 6 58.

(** When the table of the cache cannot allocate a node, [ext2_write_block]
    answers 0 although the block was neither cached nor written: reading it
    back returns the old contents. *)
Theorem write_block_lost :
  exists st1 st2, ext2_write_block demo_fs 9 demo_block lost_st = Ok (0, st1) /\
    ext2_read_block demo_fs 9 st1 = Ok (Some (replicate 1024 0), st2) /\ replicate 1024 0 <> demo_block.
Proof.
  assert (match ext2_write_block demo_fs 9 demo_block lost_st with
          | Ok (r, st1) => r = 0 /\ match ext2_read_block demo_fs 9 st1 with
                                    | Ok (r, _) => r = Some (replicate 1024 0)
                                    | _ => False
                                    end
          | _ => False
          end) as W by (vm_compute; split; reflexivity).
  destruct (ext2_write_block demo_fs 9 demo_block lost_st) as [[r st1]| | |]; [|by destruct W..].
  destruct W as [-> W]. destruct (ext2_read_block demo_fs 9 st1) as [[r2 st2]| | |] eqn:E2; [|by destruct W..].
  exists st1, st2. split; [reflexivity|]. split; [by rewrite E2, W|]. vm_compute. discriminate.
Qed.
