(* ===== verification/Spinlock.v ===== *)
(** Spinlocks and the interrupt-disable nesting they rely on:
    kernel/spinlock.c, [struct spinlock] and the [noff]/[intena] half of
    [struct cpu] (include/kernel/type.h).

    [acquire] and [release] are programs of small steps, one per access to the
    shared lock word or holder field, that the harts interleave freely
    ([sstep]); the hart-local work between two such accesses belongs to the
    step it follows.  The atomic specification ([astep]) takes a lock in one
    step and gives it up in one step.  The file shows that every interleaving
    of the small steps is a run of the atomic locks, so the components above
    (Sched) may use [acquire] and [release] as single steps. *)
From stdpp Require Import base list option.
From Stdlib Require Import ZArith Lia.
From S2P Require Import Prelude.
Open Scope Z_scope.

(** Arrays indexed by hart, lock or task number. *)
Definition upd {I A} `{EqDecision I} (f : I -> A) (i : I) (x : A) : I -> A :=
  fun j => if decide (j = i) then x else f j.

Lemma upd_eq {I A} `{EqDecision I} (f : I -> A) i x : upd f i x i = x.
Proof. unfold upd. by rewrite decide_True. Qed.
Lemma upd_ne {I A} `{EqDecision I} (f : I -> A) i j x : j <> i -> upd f i x j = f j.
Proof. unfold upd. intros N. by rewrite decide_False. Qed.

(** Resolve every [upd f i x j] whose indices are known to agree or differ,
    and split on the others. *)
Ltac upd_simpl :=
  repeat match goal with
  | |- context [upd ?f ?i ?x ?i] => rewrite (upd_eq f i x)
  | H : context [upd ?f ?i ?x ?i] |- _ => rewrite (upd_eq f i x) in H
  | N : ?j <> ?i |- context [upd ?f ?i ?x ?j] => rewrite (upd_ne f i j x N)
  | N : ?j <> ?i, H : context [upd ?f ?i ?x ?j] |- _ => rewrite (upd_ne f i j x N) in H
  end.
Ltac upd_cases :=
  repeat (upd_simpl;
    match goal with
    | |- context [upd _ ?i _ ?j] => destruct (decide (j = i)) as [?|?]; [subst j|]
    | H : context [upd _ ?i _ ?j] |- _ => destruct (decide (j = i)) as [?|?]; [subst j|]
    end); upd_simpl.

(** ** Data *)

(** [struct spinlock]: the word that is exchanged and the hart that took it. *)
Record spinlock := mkLock { lk_val : Z; lk_holder : option nat }.

(** [struct cpu], with the hart's [sstatus.SIE] bit. *)
Record cpu := mkCpu { c_ts : option nat; c_noff : Z; c_intena : bool; c_sie : bool }.

Definition set_ts v c := mkCpu v (c_noff c) (c_intena c) (c_sie c).
Definition set_noff v c := mkCpu (c_ts c) v (c_intena c) (c_sie c).
Definition set_intena v c := mkCpu (c_ts c) (c_noff c) v (c_sie c).
Definition set_sie v c := mkCpu (c_ts c) (c_noff c) (c_intena c) v.

Definition init_spinlock : spinlock := mkLock 0 None.

(** ** Interrupt nesting *)
Definition intr_get (c : cpu) : bool := c_sie c.
Definition intr_on (c : cpu) : cpu := set_sie true c.
Definition intr_off (c : cpu) : cpu := set_sie false c.

Definition push_off (c : cpu) : cpu :=
  let old := intr_get c in
  let c := intr_off c in
  let c := if c_noff c =? 0 then set_intena old c else c in
  set_noff (c_noff c + 1) c.

Definition pop_off (c : cpu) : result cpu :=
  if intr_get c then Halt else
  if c_noff c <? 1 then Halt else
  let c := set_noff (c_noff c - 1) c in
  Ok (if (c_noff c =? 0) && c_intena c then intr_on c else c).

Definition is_holding (h : nat) (lk : spinlock) : bool :=
  match lk_holder lk with
  | None => false
  | Some now => Nat.eqb now h
  end.

(** ** The code, one shared access per step

    The locks are named by a type [L] with decidable equality. *)

(** Where a hart is inside [acquire] or [release]. *)
Inductive spc (L : Type) :=
| Idle                  (** in neither *)
| AcqCheck (l : L)    (** [acquire]: after [push_off], before [is_holding] *)
| AcqSpin (l : L)     (** the [while (__atomic_exchange_n(...))] loop *)
| AcqSet (l : L)      (** before [lk->holder = get_cpu()] *)
| RelCheck (l : L)    (** [release]: before [is_holding] *)
| RelClear (l : L)    (** before [lk->holder = 0] *)
| RelStore (l : L)    (** before [__atomic_store_n(&lk->val, 0)] *)
| RelPop.               (** before [pop_off] *)
Arguments Idle {L}.
Arguments AcqCheck {L} l.
Arguments AcqSpin {L} l.
Arguments AcqSet {L} l.
Arguments RelCheck {L} l.
Arguments RelClear {L} l.
Arguments RelStore {L} l.
Arguments RelPop {L}.

Record sst (L : Type) := mkSst { s_lk : L -> spinlock; s_cpu : nat -> cpu; s_pc : nat -> spc L }.
Arguments mkSst {L} _ _ _.
Arguments s_lk {L} _ _.
Arguments s_cpu {L} _ _.
Arguments s_pc {L} _ _.
Definition set_lk {L} v (s : sst L) := mkSst v (s_cpu s) (s_pc s).
Definition set_cpu {L} v (s : sst L) := mkSst (s_lk s) v (s_pc s).
Definition set_pc {L} v (s : sst L) := mkSst (s_lk s) (s_cpu s) v.

(** What a hart does next: call a function, touch its own interrupt state, or
    go on with the call it is in.  [OpSetIntena] is the
    [get_cpu()->intena = intena] of [sched]. *)
Inductive op (L : Type) :=
| OpAcquire (l : L)
| OpRelease (l : L)
| OpIntrOn
| OpIntrOff
| OpSetIntena (b : bool)
| OpGo.
Arguments OpAcquire {L} l.
Arguments OpRelease {L} l.
Arguments OpIntrOn {L}.
Arguments OpIntrOff {L}.
Arguments OpSetIntena {L} b.
Arguments OpGo {L}.

Inductive aev (L : Type) :=
| EvAcquire (h : nat) (l : L)
| EvRelease (h : nat) (l : L)
| EvIntr (h : nat) (o : op L).
Arguments EvAcquire {L} h l.
Arguments EvRelease {L} h l.
Arguments EvIntr {L} h o.

Record ast (L : Type) := mkAst { a_owner : L -> option nat; a_cpu : nat -> cpu }.
Arguments mkAst {L} _ _.
Arguments a_owner {L} _ _.
Arguments a_cpu {L} _ _.

Section Locks.
Context {L : Type} {EqL : EqDecision L}.
Implicit Types (l : L) (s : sst L) (a : ast L).

Definition goto (h : nat) (p : spc L) (s : sst L) : sst L := set_pc (upd (s_pc s) h p) s.

(** [acquire] past its [push_off], and [release] *)
Definition acquire_step (h : nat) (l : L) (p : spc L) (s : sst L) : result (sst L) :=
  let lk := s_lk s l in
  match p with
  | AcqCheck _ => if is_holding h lk then Halt else Ok (goto h (AcqSpin l) s)
  | AcqSpin _ =>
      let old := lk_val lk in
      let s := set_lk (upd (s_lk s) l (mkLock 1 (lk_holder lk))) s in
      Ok (if negb (old =? 0) then s else goto h (AcqSet l) s)
  | _ => Ok (goto h Idle (set_lk (upd (s_lk s) l (mkLock (lk_val lk) (Some h))) s))
  end.

Definition release_step (h : nat) (l : L) (p : spc L) (s : sst L) : result (sst L) :=
  let lk := s_lk s l in
  match p with
  | RelCheck _ => if negb (is_holding h lk) then Halt else Ok (goto h (RelClear l) s)
  | RelClear _ => Ok (goto h (RelStore l) (set_lk (upd (s_lk s) l (mkLock (lk_val lk) None)) s))
  | _ => Ok (goto h RelPop (set_lk (upd (s_lk s) l (mkLock 0 (lk_holder lk))) s))
  end.

(** A hart that is in a call cannot start another one: [None]. *)
Definition sstep (h : nat) (o : op L) (s : sst L) : option (result (sst L)) :=
  let c := s_cpu s h in
  match s_pc s h, o with
  | Idle, OpAcquire l => Some (Ok (goto h (AcqCheck l) (set_cpu (upd (s_cpu s) h (push_off c)) s)))
  | Idle, OpRelease l => Some (Ok (goto h (RelCheck l) s))
  | Idle, OpIntrOn => Some (Ok (set_cpu (upd (s_cpu s) h (intr_on c)) s))
  | Idle, OpIntrOff => Some (Ok (set_cpu (upd (s_cpu s) h (intr_off c)) s))
  | Idle, OpSetIntena b => Some (Ok (set_cpu (upd (s_cpu s) h (set_intena b c)) s))
  | AcqCheck l, OpGo => Some (acquire_step h l (AcqCheck l) s)
  | AcqSpin l, OpGo => Some (acquire_step h l (AcqSpin l) s)
  | AcqSet l, OpGo => Some (acquire_step h l (AcqSet l) s)
  | RelCheck l, OpGo => Some (release_step h l (RelCheck l) s)
  | RelClear l, OpGo => Some (release_step h l (RelClear l) s)
  | RelStore l, OpGo => Some (release_step h l (RelStore l) s)
  | RelPop, OpGo =>
      Some (match pop_off c with
            | Ok c' => Ok (goto h Idle (set_cpu (upd (s_cpu s) h c') s))
            | _ => Halt
            end)
  | _, _ => None
  end.

(** Interrupts are switched on only by code that holds no lock: the idle
    branch of [scheduler] and the system-call path of [user_trap_hanlder]. *)
Definition op_ok (h : nat) (o : op L) (s : sst L) : bool :=
  match o with OpIntrOn => c_noff (s_cpu s h) =? 0 | _ => true end.

(** ** The atomic specification *)
Definition acquire_atomic (h : nat) (l : L) (a : ast L) : option (ast L) :=
  match a_owner a l with
  | None => Some (mkAst (upd (a_owner a) l (Some h)) (upd (a_cpu a) h (push_off (a_cpu a h))))
  | Some _ => None
  end.

Definition release_atomic (h : nat) (l : L) (a : ast L) : option (ast L) :=
  match a_owner a l, pop_off (a_cpu a h) with
  | Some h', Ok c =>
      if Nat.eqb h' h then Some (mkAst (upd (a_owner a) l None) (upd (a_cpu a) h c)) else None
  | _, _ => None
  end.

Definition local_op (o : op L) (c : cpu) : cpu :=
  match o with
  | OpIntrOn => intr_on c
  | OpIntrOff => intr_off c
  | OpSetIntena b => set_intena b c
  | _ => c
  end.

Definition astep (e : aev L) (a : ast L) : option (ast L) :=
  match e with
  | EvAcquire h l => acquire_atomic h l a
  | EvRelease h l => release_atomic h l a
  | EvIntr h o =>
      if (match o with OpIntrOn => c_noff (a_cpu a h) =? 0 | _ => true end)
      then Some (mkAst (a_owner a) (upd (a_cpu a) h (local_op o (a_cpu a h))))
      else None
  end.

(** The step of the code at which a call takes effect: the successful
    exchange, the store of 0, or the local operation itself. *)
Definition effect (h : nat) (o : op L) (s : sst L) : list (aev L) :=
  match s_pc s h, o with
  | AcqSpin l, OpGo => if lk_val (s_lk s l) =? 0 then [EvAcquire h l] else []
  | RelStore l, OpGo => [EvRelease h l]
  | Idle, OpIntrOn | Idle, OpIntrOff | Idle, OpSetIntena _ => [EvIntr h o]
  | _, _ => []
  end.

(** Runs of the code with the effects they have, and runs of the
    specification. *)
Inductive sruns (s0 : sst L) : list (aev L) -> sst L -> Prop :=
| sruns_nil : sruns s0 [] s0
| sruns_step tr s h o s' :
    sruns s0 tr s -> op_ok h o s = true -> sstep h o s = Some (Ok s') ->
    sruns s0 (tr ++ effect h o s) s'.

Fixpoint aruns (tr : list (aev L)) (a : ast L) : option (ast L) :=
  match tr with
  | [] => Some a
  | e :: tr => match astep e a with Some a' => aruns tr a' | None => None end
  end.

(** [init_cpu] and [init_spinlock]; [sie] is what the boot code left. *)
Definition init_cpu (sie : bool) : cpu := mkCpu None 0 false sie.
Definition sinit (sie : nat -> bool) : sst L :=
  mkSst (fun _ => init_spinlock) (fun h => init_cpu (sie h)) (fun _ => Idle).
Definition ainit (sie : nat -> bool) : ast L := mkAst (fun _ => None) (fun h => init_cpu (sie h)).

(** ** The atomic locks *)

(** The nesting depth of a hart is the number of locks it owns, and a hart
    that owns one has its interrupts off. *)
Definition owned_by (a : ast L) (h : nat) (ls : list L) : Prop :=
  NoDup ls /\ forall l, l ∈ ls <-> a_owner a l = Some h.
Definition a_inv (a : ast L) : Prop :=
  forall h, exists ls, owned_by a h ls /\ c_noff (a_cpu a h) = Z.of_nat (length ls)
                  /\ (0 < c_noff (a_cpu a h) -> c_sie (a_cpu a h) = false).

Lemma push_off_noff c : c_noff (push_off c) = c_noff c + 1.
Proof. unfold push_off. destruct c as [? n ? ?]; simpl. by destruct (n =? 0). Qed.
Lemma push_off_sie c : c_sie (push_off c) = false.
Proof. unfold push_off. destruct c as [? n ? ?]; simpl. by destruct (n =? 0). Qed.
Lemma push_off_ts c : c_ts (push_off c) = c_ts c.
Proof. unfold push_off. destruct c as [? n ? ?]; simpl. by destruct (n =? 0). Qed.

Lemma pop_off_ok c : c_sie c = false -> 1 <= c_noff c ->
  exists c', pop_off c = Ok c' /\ c_noff c' = c_noff c - 1 /\ c_ts c' = c_ts c
        /\ c_sie c' = (c_noff c =? 1) && c_intena c /\ c_intena c' = c_intena c.
Proof.
  intros S N. unfold pop_off, intr_get. rewrite S.
  destruct (Z.ltb_spec (c_noff c) 1); [lia|].
  eexists; split; [reflexivity|]. simpl.
  destruct (Z.eqb_spec (c_noff c - 1) 0), (Z.eqb_spec (c_noff c) 1); try lia;
    destruct (c_intena c) eqn:I; simpl; repeat split; auto.
Qed.

(** A hart that owns a lock can leave its critical section. *)
Lemma owner_can_pop a h l : a_inv a -> a_owner a l = Some h ->
  c_sie (a_cpu a h) = false /\ 1 <= c_noff (a_cpu a h).
Proof.
  intros I O. destruct (I h) as (ls & [_ Hl] & N & S).
  apply Hl in O. destruct ls; [by apply elem_of_nil in O|].
  rewrite N in *. simpl length in *. split; [apply S|]; lia.
Qed.

Lemma owned_by_take a h l ls a' :
  owned_by a h ls -> a_owner a l = None -> a_owner a' = upd (a_owner a) l (Some h) ->
  owned_by a' h (l :: ls).
Proof.
  intros [ND Hl] O E. split.
  - apply list.NoDup_cons; split; [|done]. intros X. apply Hl in X. congruence.
  - intros l'. rewrite elem_of_cons, E, Hl. upd_cases; naive_solver.
Qed.

Lemma owned_by_drop a h l ls a' :
  owned_by a h ls -> a_owner a l = Some h -> a_owner a' = upd (a_owner a) l None ->
  exists ls', owned_by a' h ls' /\ length ls = S (length ls').
Proof.
  intros [ND Hl] O E. pose proof (proj2 (Hl l) O) as Lm.
  apply elem_of_Permutation in Lm as [ls' P]. exists ls'.
  pose proof (Permutation_length P) as PL. split; [|by rewrite PL].
  rewrite P in ND. apply list.NoDup_cons in ND as [Nl ND]. split; [done|].
  intros l'. rewrite E. upd_cases; [split; [done|discriminate]|].
  rewrite <- Hl, P, elem_of_cons. naive_solver.
Qed.

Lemma owned_by_other a h l v ls a' h' :
  owned_by a h ls -> a_owner a l = h' -> h' <> Some h -> v <> Some h ->
  a_owner a' = upd (a_owner a) l v -> owned_by a' h ls.
Proof.
  intros [ND Hl] O N1 N2 E. split; [done|]. intros l'. rewrite Hl, E.
  upd_cases; naive_solver.
Qed.

Lemma astep_inv e a a' : a_inv a -> astep e a = Some a' -> a_inv a'.
Proof.
  intros I E h. destruct (I h) as (ls & OB & N & S). destruct e as [k l|k l|k o]; simpl in E.
  - unfold acquire_atomic in E. destruct (a_owner a l) eqn:O; [done|]. injection E as <-.
    simpl. upd_cases.
    + exists (l :: ls). split; [by eapply owned_by_take|].
      rewrite push_off_noff, push_off_sie, N. simpl length. split; [lia|done].
    + exists ls. split; [|done]. eapply (owned_by_other a h l); try done; congruence.
  - unfold release_atomic in E. destruct (a_owner a l) as [k'|] eqn:O; [|done].
    destruct (pop_off (a_cpu a k)) as [c| | |] eqn:P; try done.
    destruct (Nat.eqb_spec k' k) as [->|]; [|done]. injection E as <-. simpl.
    pose proof (owner_can_pop _ _ _ I O) as [S1 N1].
    destruct (pop_off_ok _ S1 N1) as (c' & P' & N' & _ & S' & _). rewrite P in P'.
    injection P' as <-. upd_cases.
    + destruct (owned_by_drop a k l ls (mkAst (upd (a_owner a) l None) (upd (a_cpu a) k c)))
        as (ls' & OB' & Ln); try done.
      exists ls'. rewrite N', S'. split; [done|]. split; [lia|]. intros ?.
      destruct (Z.eqb_spec (c_noff (a_cpu a k)) 1); [lia|done].
    + exists ls. split; [|done]. eapply (owned_by_other a h l); try done; congruence.
  - destruct (match o with OpIntrOn => c_noff (a_cpu a k) =? 0 | _ => true end) eqn:G; [|done].
    injection E as <-. simpl. exists ls. split; [done|].
    upd_cases; [|done]. destruct o; simpl; try done; breflect; split; try done; try lia; auto.
Qed.

Lemma aruns_app tr1 tr2 a : aruns (tr1 ++ tr2) a =
  match aruns tr1 a with Some a' => aruns tr2 a' | None => None end.
Proof.
  revert a. induction tr1 as [|e tr1 IH]; intros a; simpl; [done|].
  by destruct (astep e a).
Qed.

Lemma aruns_inv tr a a' : a_inv a -> aruns tr a = Some a' -> a_inv a'.
Proof.
  revert a. induction tr as [|e tr IH]; simpl; intros a I E; [by injection E as <-|].
  destruct (astep e a) as [b|] eqn:S; [|done]. eauto using astep_inv.
Qed.

Lemma ainit_inv sie : a_inv (ainit sie).
Proof.
  intros h. exists []. simpl. split; [split|split]; [constructor|..]; try done.
  intros l; split; [by intros ?%elem_of_nil|done].
Qed.

(** ** The simulation *)

(** A hart owns a lock from its successful exchange to its store of 0. *)
Definition owns (s : sst L) (h : nat) (l : L) : Prop :=
  lk_holder (s_lk s l) = Some h \/ s_pc s h = AcqSet l \/ s_pc s h = RelStore l.

(** What the program counter of a hart says about its interrupt state (which
    [acquire] changes early and [release] late) and about the lock. *)
Definition pc_ok (s : sst L) (a : ast L) (h : nat) : Prop :=
  match s_pc s h with
  | Idle | RelCheck _ => s_cpu s h = a_cpu a h
  | AcqCheck _ | AcqSpin _ => s_cpu s h = push_off (a_cpu a h)
  | AcqSet l | RelStore l =>
      s_cpu s h = a_cpu a h /\ a_owner a l = Some h /\ lk_holder (s_lk s l) = None
  | RelClear l => s_cpu s h = a_cpu a h /\ lk_holder (s_lk s l) = Some h
  | RelPop => pop_off (s_cpu s h) = Ok (a_cpu a h)
  end.

Record matches (s : sst L) (a : ast L) : Prop := {
  m_val l : lk_val (s_lk s l) = match a_owner a l with Some _ => 1 | None => 0 end;
  m_hold l h : lk_holder (s_lk s l) = Some h -> a_owner a l = Some h;
  m_own l h : a_owner a l = Some h -> owns s h l;
  m_pc h : pc_ok s a h }.

(** A step of another hart that leaves the locks of [k] alone. *)
Record untouched (k : nat) (s : sst L) (a : ast L) (s' : sst L) (a' : ast L) : Prop := {
  u_pc : s_pc s' k = s_pc s k;
  u_cpu : s_cpu s' k = s_cpu s k;
  u_acpu : a_cpu a' k = a_cpu a k;
  u_lk l : a_owner a l = Some k ->
           a_owner a' l = Some k /\ lk_holder (s_lk s' l) = lk_holder (s_lk s l) }.

Lemma pc_ok_frame k s a s' a' : matches s a -> untouched k s a s' a' -> pc_ok s' a' k.
Proof.
  intros M [U1 U2 U3 U4]. pose proof (m_pc _ _ M k) as P.
  unfold pc_ok in *. rewrite U1, U2, U3. destruct (s_pc s k) as [|l|l|l|l|l|l|]; try done.
  - destruct P as (? & O & ?), (U4 l); try done. split_and!; congruence.
  - destruct P as (? & O). destruct (U4 l); [by apply (m_hold _ _ M)|]. split; congruence.
  - destruct P as (? & O & ?), (U4 l); try done. split_and!; congruence.
Qed.

Lemma owns_frame k l s a s' a' : matches s a -> untouched k s a s' a' ->
  a_owner a l = Some k -> owns s' k l.
Proof.
  intros M [U1 _ _ U4] O. destruct (U4 l O) as [_ H]. unfold owns. rewrite U1, H.
  by apply (m_own _ _ M).
Qed.

(** The new states match when the moving hart [h] does, the other harts are
    untouched and the lock words agree with the owners. *)
Lemma matches_step h s a s' a' :
  matches s a -> (forall k, k <> h -> untouched k s a s' a') ->
  (forall l, lk_val (s_lk s' l) = match a_owner a' l with Some _ => 1 | None => 0 end) ->
  (forall l k, lk_holder (s_lk s' l) = Some k -> a_owner a' l = Some k) ->
  (forall l k, a_owner a' l = Some k -> k <> h -> a_owner a l = Some k) ->
  (forall l, a_owner a' l = Some h -> owns s' h l) ->
  pc_ok s' a' h -> matches s' a'.
Proof.
  intros M U V H O Oh P. constructor; auto.
  - intros l k E. destruct (decide (k = h)) as [->|N]; [auto|].
    eapply owns_frame; eauto.
  - intros k. destruct (decide (k = h)) as [->|N]; [done|]. eapply pc_ok_frame; eauto.
Qed.

(** Steps of a hart that is not about to publish or give up a lock, and that
    change no lock. *)
Definition quiet (p : spc L) : Prop := match p with AcqSet _ | RelStore _ => False | _ => True end.

Lemma matches_local h s a s' a' :
  matches s a -> quiet (s_pc s h) ->
  (forall k, k <> h -> s_pc s' k = s_pc s k /\ s_cpu s' k = s_cpu s k /\ a_cpu a' k = a_cpu a k) ->
  s_lk s' = s_lk s -> a_owner a' = a_owner a -> pc_ok s' a' h -> matches s' a'.
Proof.
  intros M Q U Lk O P. apply (matches_step h s a); auto; rewrite ?Lk, ?O.
  - intros k N. destruct (U k N) as (? & ? & ?). constructor; auto. intros l.
    by rewrite Lk, O.
  - apply (m_val _ _ M).
  - apply (m_hold _ _ M).
  - done.
  - intros l E. unfold owns. rewrite Lk. left.
    destruct (m_own _ _ M l h E) as [|[E'|E']]; [done|..]; by rewrite E' in Q.
Qed.

Lemma sim_acquire_spin h l s a s' :
  matches s a -> s_pc s h = AcqSpin l -> acquire_step h l (AcqSpin l) s = Ok s' ->
  exists a', aruns (effect h OpGo s) a = Some a' /\ matches s' a'.
Proof.
  intros M E S. unfold effect. rewrite E. simpl in S. injection S as <-.
  pose proof (m_val _ _ M l) as V. pose proof (m_pc _ _ M h) as P.
  unfold pc_ok in P. rewrite E in P.
  destruct (Z.eqb_spec (lk_val (s_lk s l)) 0) as [Z|Z]; simpl.
  - unfold acquire_atomic. destruct (a_owner a l) as [k|] eqn:O; [lia|].
    eexists; split; [reflexivity|].
    assert (HN : lk_holder (s_lk s l) = None).
    { destruct (lk_holder (s_lk s l)) eqn:HH; [|done].
      apply (m_hold _ _ M) in HH. congruence. }
    apply (matches_step h s a); simpl; auto.
    + intros k N. constructor; simpl; upd_simpl; auto.
      intros l' O'. upd_cases; [congruence|auto].
    + intros l'. upd_cases; [done|]. apply (m_val _ _ M).
    + intros l' k. upd_cases; simpl; [congruence|]. apply (m_hold _ _ M).
    + intros l' k. upd_cases; [congruence|auto].
    + intros l'. unfold owns; simpl. upd_cases; [by auto|]. intros O'.
      destruct (m_own _ _ M l' h O') as [|[|]]; [by left|congruence..].
    + unfold pc_ok; simpl. upd_simpl. simpl. auto.
  - exists a. split; [done|]. assert (HV : lk_val (s_lk s l) = 1) by (destruct (a_owner a l); lia).
    apply (matches_step h s a); simpl; auto.
    + intros k N. constructor; simpl; auto. intros l' O'. split; [done|]. by upd_cases.
    + intros l'. upd_cases; simpl; [|apply (m_val _ _ M)]. by rewrite <- V.
    + intros l' k. upd_cases; simpl; apply (m_hold _ _ M).
    + intros l' O'. destruct (m_own _ _ M l' h O') as [|[|]]; [|congruence..].
      left. simpl. by upd_cases.
    + unfold pc_ok; simpl. by rewrite E.
Qed.

Lemma sim_acquire_set h l s a :
  matches s a -> s_pc s h = AcqSet l ->
  matches (goto h Idle (set_lk (upd (s_lk s) l (mkLock (lk_val (s_lk s l)) (Some h))) s)) a.
Proof.
  intros M E. pose proof (m_pc _ _ M h) as P. unfold pc_ok in P. rewrite E in P.
  destruct P as (P & O & H). apply (matches_step h s a); simpl; auto.
  - intros k N. constructor; simpl; upd_simpl; auto. intros l' O'. split; [done|].
    upd_cases; [congruence|done].
  - intros l'. upd_cases; simpl; apply (m_val _ _ M).
  - intros l' k. upd_cases; simpl; [congruence|]. apply (m_hold _ _ M).
  - intros l' O'. left. simpl. upd_cases; [done|].
    destruct (m_own _ _ M l' h O') as [|[|]]; congruence.
  - unfold pc_ok; simpl. by upd_simpl.
Qed.

Lemma sim_release_clear h l s a :
  matches s a -> s_pc s h = RelClear l ->
  matches (goto h (RelStore l) (set_lk (upd (s_lk s) l (mkLock (lk_val (s_lk s l)) None)) s)) a.
Proof.
  intros M E. pose proof (m_pc _ _ M h) as P. unfold pc_ok in P. rewrite E in P.
  destruct P as (P & H). pose proof (m_hold _ _ M _ _ H) as O.
  apply (matches_step h s a); simpl; auto.
  - intros k N. constructor; simpl; upd_simpl; auto. intros l' O'. split; [done|].
    upd_cases; [congruence|done].
  - intros l'. upd_cases; simpl; apply (m_val _ _ M).
  - intros l' k. upd_cases; simpl; [congruence|]. apply (m_hold _ _ M).
  - intros l' O'. unfold owns; simpl. upd_cases; [by auto|].
    destruct (m_own _ _ M l' h O') as [|[|]]; [by left|congruence..].
  - unfold pc_ok; simpl. upd_simpl. simpl. auto.
Qed.

Lemma sim_release_store h l s a :
  matches s a -> a_inv a -> s_pc s h = RelStore l ->
  exists a', release_atomic h l a = Some a' /\
    matches (goto h RelPop (set_lk (upd (s_lk s) l (mkLock 0 (lk_holder (s_lk s l)))) s)) a'.
Proof.
  intros M I E. pose proof (m_pc _ _ M h) as P. unfold pc_ok in P. rewrite E in P.
  destruct P as (P & O & H). unfold release_atomic. rewrite O.
  destruct (owner_can_pop _ _ _ I O) as [S N].
  destruct (pop_off_ok _ S N) as (c & PO & _). rewrite PO, Nat.eqb_refl.
  eexists; split; [reflexivity|]. apply (matches_step h s a); simpl; auto.
  - intros k Nk. constructor; simpl; upd_simpl; auto. intros l' O'.
    upd_cases; [congruence|auto].
  - intros l'. upd_cases; simpl; [done|]. apply (m_val _ _ M).
  - intros l' k. upd_cases; simpl; [congruence|]. apply (m_hold _ _ M).
  - intros l' k. upd_cases; [done|auto].
  - intros l'. unfold owns; simpl. upd_cases; [done|]. intros O'.
    destruct (m_own _ _ M l' h O') as [|[|]]; [by left|congruence..].
  - unfold pc_ok; simpl. upd_simpl. by rewrite P.
Qed.

Lemma is_holding_spec h lk : is_holding h lk = bool_decide (lk_holder lk = Some h).
Proof.
  unfold is_holding. destruct (lk_holder lk) as [k|]; [|done].
  destruct (Nat.eqb_spec k h) as [->|N]; [by rewrite bool_decide_true|].
  rewrite bool_decide_false; congruence.
Qed.

Ltac quiet_step h s a :=
  eapply (matches_local h s a); simpl; try done;
  [by unfold quiet; match goal with H : s_pc s h = _ |- _ => rewrite H end
  |by intros k N; rewrite ?upd_ne by done
  |unfold pc_ok; simpl; upd_simpl; try match goal with H : s_pc s h = _ |- _ => rewrite H end].

(** Every step of the code is simulated by its effect on the atomic locks. *)
Lemma sstep_sim h o s a s' :
  matches s a -> a_inv a -> op_ok h o s = true -> sstep h o s = Some (Ok s') ->
  exists a', aruns (effect h o s) a = Some a' /\ matches s' a'.
Proof.
  intros M I G E. pose proof (m_pc _ _ M h) as P. unfold pc_ok in P. unfold sstep in E.
  destruct (s_pc s h) as [|l|l|l|l|l|l|] eqn:PC; destruct o; try discriminate E;
    injection E as E; unfold effect; rewrite PC; simpl in *.
  - subst s'. exists a. split; [done|]. quiet_step h s a. by rewrite P.
  - subst s'. exists a. split; [done|]. quiet_step h s a. done.
  - subst s'. rewrite <- P, G. eexists; split; [done|]. by quiet_step h s a.
  - subst s'. eexists; split; [done|]. quiet_step h s a. by rewrite P.
  - subst s'. eexists; split; [done|]. quiet_step h s a. by rewrite P.
  - destruct (is_holding h (s_lk s l)); inv_ok. exists a. split; [done|]. by quiet_step h s a.
  - destruct (sim_acquire_spin h l s a s' M PC) as (a' & A & M'); [simpl; by rewrite E|].
    unfold effect in A. rewrite PC in A. eauto.
  - subst s'. exists a. split; [done|]. by apply sim_acquire_set.
  - destruct (is_holding h (s_lk s l)) eqn:H; simpl in E; inv_ok. exists a. split; [done|].
    quiet_step h s a. split; [done|]. rewrite is_holding_spec in H.
    by apply bool_decide_eq_true in H.
  - subst s'. exists a. split; [done|]. by apply sim_release_clear.
  - subst s'. destruct (sim_release_store h l s a) as (a' & -> & M'); eauto.
  - rewrite P in E. inv_ok. exists a. split; [done|]. by quiet_step h s a.
Qed.

Lemma sinit_matches sie : matches (sinit sie) (ainit sie).
Proof. constructor; try done. Qed.

Lemma sruns_sim sie tr s : sruns (sinit sie) tr s ->
  exists a, aruns tr (ainit sie) = Some a /\ matches s a /\ a_inv a.
Proof.
  induction 1 as [|tr s h o s' R (a & A & M & I) G E].
  - exists (ainit sie). eauto using sinit_matches, ainit_inv.
  - destruct (sstep_sim _ _ _ _ _ M I G E) as (a' & A' & M').
    exists a'. rewrite aruns_app, A. split_and!; [done|done|]. by eapply aruns_inv.
Qed.

Lemma matches_owns s a h l : matches s a -> owns s h l <-> a_owner a l = Some h.
Proof.
  intros M. split; [|apply (m_own _ _ M)].
  pose proof (m_pc _ _ M h) as P. unfold pc_ok in P.
  intros [H|[H|H]]; [by apply (m_hold _ _ M)|by rewrite H in P; apply P..].
Qed.

(** ** What callers rely on *)

(** [C13] Spinlocks are atomic: every interleaving of the steps of [acquire]
    and [release] on any number of harts and locks is a run of the atomic lock
    specification, in which a lock is taken in one step by a hart that finds
    it free and given up in one step by the hart that owns it.  The owner in
    the specification is exactly the hart between its successful exchange and
    its store of 0 — so there is never more than one — and a hart that is in
    neither function has the interrupt nesting the specification gives it. *)
Theorem spinlock_refines sie tr s : sruns (sinit sie) tr s ->
  exists a, aruns tr (ainit sie) = Some a
    /\ (forall h l, owns s h l <-> a_owner a l = Some h)
    /\ (forall h k l, owns s h l -> owns s k l -> h = k)
    /\ (forall h, s_pc s h = Idle -> s_cpu s h = a_cpu a h).
Proof.
  intros R. destruct (sruns_sim _ _ _ R) as (a & A & M & _). exists a.
  split_and!; [done|by intros; apply matches_owns|..].
  - intros h k l H K. apply (matches_owns _ _ _ _ M) in H, K. congruence.
  - intros h E. pose proof (m_pc _ _ M h) as P. unfold pc_ok in P. by rewrite E in P.
Qed.

(** The lock discipline: in every reachable state the panics of
    [acquire], [release] and [pop_off] fire exactly when a hart asks for a
    lock whose holder it already is or releases one it does not hold (the two
    checks of [pop_off] never do), and a hart outside the two functions has
    [noff] equal to the number of locks it holds and, when that is not 0, its
    interrupts off. *)
Theorem spinlock_discipline sie tr s h : sruns (sinit sie) tr s ->
  (forall o, sstep h o s = Some Halt <-> o = OpGo /\ exists l,
     s_pc s h = AcqCheck l /\ lk_holder (s_lk s l) = Some h \/
     s_pc s h = RelCheck l /\ lk_holder (s_lk s l) <> Some h)
  /\ (s_pc s h = Idle -> exists ls, NoDup ls
       /\ (forall l, l ∈ ls <-> lk_holder (s_lk s l) = Some h)
       /\ c_noff (s_cpu s h) = Z.of_nat (length ls)
       /\ (ls <> [] -> c_sie (s_cpu s h) = false)).
Proof.
  intros R. destruct (sruns_sim _ _ _ R) as (a & _ & M & I).
  pose proof (m_pc _ _ M h) as P. unfold pc_ok in P. split.
  - intros o. split.
    + intros E. unfold sstep in E. destruct (s_pc s h) as [|l|l|l|l|l|l|] eqn:PC; destruct o;
        try discriminate E; injection E as E; simpl in E; rewrite ?is_holding_spec in E;
        try case_bool_decide; simplify_eq/=; eauto 6.
      by rewrite P in E.
    + intros [-> (l & [[PC H]|[PC H]])]; unfold sstep; rewrite PC; simpl;
        rewrite is_holding_spec; by case_bool_decide.
  - intros E. rewrite E in P. destruct (I h) as (ls & [ND Hl] & N & S). exists ls.
    rewrite P. split_and!; [done| |done|].
    + intros l. rewrite Hl, <- (matches_owns _ _ _ _ M). unfold owns. rewrite E. naive_solver.
    + intros NE. apply S. rewrite N. destruct ls; [done|]. simpl. lia.
Qed.

(** The interrupt state of a hart since a moment at which it held nothing and
    had [SIE = b]: [b] is kept in [sstatus] or, while locks are held, in
    [intena]. *)
Definition keeps (b : bool) (c : cpu) : Prop :=
  0 <= c_noff c /\ (if c_noff c =? 0 then c_sie c = b else c_sie c = false /\ c_intena c = b).

Lemma push_off_keeps b c : keeps b c -> keeps b (push_off c).
Proof.
  intros [N K]. split; rewrite push_off_noff; [lia|].
  destruct (Z.eqb_spec (c_noff c + 1) 0); [lia|]. rewrite push_off_sie.
  split; [done|]. unfold push_off. simpl.
  destruct (c_noff c =? 0); simpl; [done|]. apply K.
Qed.

Lemma pop_off_keeps b c c' : keeps b c -> pop_off c = Ok c' -> keeps b c'.
Proof.
  intros [N K] E. unfold pop_off in E. destruct (intr_get c); [done|].
  destruct (Z.ltb_spec (c_noff c) 1); [done|]. injection E as <-.
  destruct (Z.eqb_spec (c_noff c) 0); [lia|]. destruct K as [S K].
  unfold keeps. simpl. destruct (Z.eqb_spec (c_noff c - 1) 0) as [Z|Z]; simpl.
  - rewrite K. destruct b; simpl; rewrite Z; simpl; split; try lia; done.
  - destruct (Z.eqb_spec (c_noff c - 1) 0); [lia|]. split; [lia|done].
Qed.

(** Nested locks leave the interrupt state as they found it: when a hart
    that holds no lock takes and releases any locks, in any order and
    interleaved with anything the other harts do, then as soon as it holds
    none again its [SIE] bit is what it was, and while it holds one the bit is
    off. *)
Theorem interrupts_restored s0 tr s h :
  c_noff (s_cpu s0 h) = 0 -> sruns s0 tr s -> (forall o, EvIntr h o ∉ tr) ->
  if c_noff (s_cpu s h) =? 0 then c_sie (s_cpu s h) = c_sie (s_cpu s0 h)
  else c_sie (s_cpu s h) = false.
Proof.
  intros Z R Q. assert (K : keeps (c_sie (s_cpu s0 h)) (s_cpu s h)).
  { induction R as [|tr s k o s' R IH G E].
    - split; rewrite Z; [lia|done].
    - assert (Q' : forall o, EvIntr h o ∉ tr).
      { intros o' H. apply (Q o'). apply elem_of_app. by left. }
      specialize (IH Q'). destruct (decide (k = h)) as [->|N].
      + assert (Qe : forall o', EvIntr h o' ∉ effect h o s).
        { intros o' H. apply (Q o'). apply elem_of_app. by right. }
        unfold sstep, effect in *. destruct (s_pc s h) as [|l|l|l|l|l|l|] eqn:PC; destruct o;
          try discriminate E; injection E as E; simpl in *;
          try (by exfalso; eapply Qe; apply elem_of_cons; left);
          repeat case_match; simplify_eq/=; upd_simpl;
          eauto using push_off_keeps, pop_off_keeps.
      + replace (s_cpu s' h) with (s_cpu s h); [done|]. clear - E N. unfold sstep in E.
        destruct (s_pc s k) as [|l|l|l|l|l|l|]; destruct o; try discriminate E;
          injection E as E; simpl in *; repeat case_match; simplify_eq/=;
          by rewrite ?upd_ne by done. }
  destruct K as [_ K]. destruct (c_noff (s_cpu s h) =? 0); [done|]. apply K.
Qed.

End Locks.

(** *** Witnesses: hart 1 spins on lock 7 while hart 0, which also takes lock
    3, is inside. *)
Fixpoint run_ops (ops : list (nat * op nat)) (s : sst nat) : option (list (aev nat) * sst nat) :=
  match ops with
  | [] => Some ([], s)
  | (h, o) :: ops =>
      match op_ok h o s, sstep h o s with
      | true, Some (Ok s') =>
          match run_ops ops s' with
          | Some (tr, s'') => Some (effect h o s ++ tr, s'')
          | None => None
          end
      | _, _ => None
      end
  end.

Lemma run_ops_sruns ops s0 tr0 s tr s' :
  sruns s0 tr0 s -> run_ops ops s = Some (tr, s') -> sruns s0 (tr0 ++ tr) s'.
Proof.
  revert s tr0 tr. induction ops as [|[h o] ops IH]; intros s tr0 tr R E; simpl in E.
  - injection E as <- <-. by rewrite app_nil_r.
  - destruct (op_ok h o s) eqn:G; [|done]. destruct (sstep h o s) as [[s1| | |]|] eqn:S; try done.
    destruct (run_ops ops s1) as [[tr1 s2]|] eqn:X; [|done]. injection E as <- <-.
    rewrite (assoc_L (++)). eapply IH; [|done]. by econstructor.
Qed.

Definition demo_contend : list (nat * op nat) :=
  [(0, OpAcquire 7); (0, OpGo); (0, OpGo); (1, OpAcquire 7); (1, OpGo); (1, OpGo); (0, OpGo);
   (1, OpGo); (0, OpAcquire 3); (0, OpGo); (0, OpGo); (0, OpGo)]%nat.
Definition demo_hand_over : list (nat * op nat) :=
  demo_contend ++
  [(0, OpRelease 7); (0, OpGo); (0, OpGo); (0, OpGo); (1, OpGo); (0, OpGo); (1, OpGo);
   (0, OpRelease 3); (0, OpGo); (0, OpGo); (0, OpGo); (0, OpGo)]%nat.
Definition demo_run (ops : list (nat * op nat)) : list (aev nat) * sst nat :=
  default ([], sinit (fun _ => true)) (run_ops ops (sinit (fun _ => true))).

Lemma demo_run_sruns ops :
  (if run_ops ops (sinit (fun _ => true)) is Some _ then true else false) = true ->
  sruns (sinit (fun _ => true)) (demo_run ops).1 (demo_run ops).2.
Proof.
  unfold demo_run. destruct (run_ops ops _) as [[tr s]|] eqn:E; [intros _; simpl|done].
  apply (run_ops_sruns ops _ [] (sinit (fun _ => true))); [constructor|done].
Qed.

Definition demo_trace : list (aev nat) :=
  [EvAcquire 0 7; EvAcquire 0 3; EvRelease 0 7; EvAcquire 1 7; EvRelease 0 3]%nat.
Lemma demo_hand_over_trace : (demo_run demo_hand_over).1 = demo_trace.
Proof. vm_compute; reflexivity. Qed.

Lemma spinlock_refines_witness :
  let s := (demo_run demo_hand_over).2 in
  lk_holder (s_lk s 7%nat) = Some 1%nat /\
  exists a, aruns demo_trace (ainit (fun _ => true)) = Some a /\ a_owner a 7%nat = Some 1%nat.
Proof.
  split; [vm_compute; reflexivity|].
  destruct (spinlock_refines (fun _ => true) (demo_run demo_hand_over).1
              (demo_run demo_hand_over).2) as (a & A & O & _).
  - apply demo_run_sruns. vm_compute; reflexivity.
  - exists a. rewrite demo_hand_over_trace in A. split; [exact A|].
    apply O. left. vm_compute; reflexivity.
Defined.

Lemma spinlock_discipline_witness :
  let s := (demo_run demo_contend).2 in
  s_pc s 1%nat = AcqSpin 7%nat /\ c_noff (s_cpu s 0%nat) = 2 /\
  exists ls : list nat, forall l, l ∈ ls <-> lk_holder (s_lk s l) = Some 0%nat.
Proof.
  split; [vm_compute; reflexivity|]. split; [vm_compute; reflexivity|].
  destruct (spinlock_discipline (fun _ => true) (demo_run demo_contend).1
              (demo_run demo_contend).2 0) as [_ D].
  - apply demo_run_sruns. vm_compute; reflexivity.
  - destruct D as (ls & _ & Hl & _); [vm_compute; reflexivity|]. exists ls. exact Hl.
Defined.

Lemma interrupts_restored_witness :
  let s := (demo_run demo_hand_over).2 in
  c_noff (s_cpu s 0%nat) = 0 /\ c_sie (s_cpu s 1%nat) = false /\ c_sie (s_cpu s 0%nat) = true.
Proof.
  assert (Z : c_noff (s_cpu (demo_run demo_hand_over).2 0%nat) = 0) by (vm_compute; reflexivity).
  split; [exact Z|]. split; [vm_compute; reflexivity|].
  pose proof (interrupts_restored (sinit (fun _ => true)) (demo_run demo_hand_over).1
    (demo_run demo_hand_over).2 0) as R. rewrite Z in R. apply R.
  - reflexivity.
  - apply demo_run_sruns. vm_compute; reflexivity.
  - rewrite demo_hand_over_trace. intros o H.
    repeat (apply elem_of_cons in H as [H|H]; [discriminate H|]). by apply elem_of_nil in H.
Defined.
