(* ===== verification/Sched.v ===== *)
(** The scheduler and the sleep locks: [yield], [sched], [scheduler] and the
    entry of [first_ret] (kernel/proc.c), kernel/sleeplock.c, and the timer
    interrupt of [kernel_trap_hanlder] (kernel/trap.c) that preempts a task in
    the kernel.

    Every task has a kernel stack, a list of frames that says where in which
    function it is; every hart runs either its scheduler loop or the stack of
    one task, and [swtch] changes which.  A step of a hart ([hstep]) is one
    [acquire], one [release], one [swtch] or the statements between two of
    them, so that the harts and the interrupts interleave at those points;
    that [acquire] and [release] are single steps is the refinement proved in
    Spinlock.  What a task does outside these functions is not fixed: at
    [FRun] it may call any of them and take or release other spinlocks. *)
From stdpp Require Import base list option.
From Stdlib Require Import ZArith Lia.
From S2P Require Import Prelude Spinlock.
Open Scope Z_scope.

(** ** Data *)

(** [enum TASK_STATE] *)
Inductive task_state := INITLIZED | USED | RUNNABLE | RUNNING | BLOCKED | SLEEP | ZOMBIE | DEAD.
#[export] Instance task_state_eq : EqDecision task_state.
Proof. solve_decision. Defined.

(** The spinlocks: [tasks[t].lk], the [spinlock] inside sleep lock [l], and
    the others of the kernel. *)
Inductive lock := LTask (t : nat) | LSleep (l : nat) | LOther (n : nat).
#[export] Instance lock_eq : EqDecision lock.
Proof. solve_decision. Defined.

(** A [struct wait_node *]: null, the sentinel of a sleep lock or the
    [sleep_node] of a task. *)
Inductive nref := NNull | NHead (l : nat) | NNode (t : nat).
#[export] Instance nref_eq : EqDecision nref.
Proof. solve_decision. Defined.

(** [struct wait_node] and [struct sleeplock] (its spinlock is [LSleep]). *)
Record wait_node := mkNode { wn_prev : nref; wn_next : nref; wn_task : option nat }.
Record sleeplock := mkSleep { sl_locked : bool; sl_holder : Z; sl_queue : wait_node }.

(** A kernel stack frame: the point of the function at which the task is. *)
Inductive frame :=
| FRun (held : list lock)   (** a system call, holding these spinlocks *)
| FFirst                    (** [first_ret], before [release(&ts->lk)] *)
| FIrq                      (** [kernel_trap_hanlder], after its [yield] *)
(* yield *)
| YAcq                      (** before [acquire(&ts->lk)] *)
| YBody                     (** the test of [ts->state] *)
| YSch                      (** before [sched()] *)
| YRel                      (** before [release(&ts->lk)] *)
(* sched *)
| SRet (intena : bool)      (** after [swtch], with the saved [intena] *)
(* acquire_sleep *)
| ASacq (l : nat)           (** before the first [acquire(&slk->spinlock)] *)
| ASown (l : nat)           (** the test of [slk->holder] *)
| ASwhile (l : nat)         (** the test of [slk->locked] *)
| ASlk (l : nat)            (** before [acquire(&ts->lk)] *)
| ASenq (l : nat)           (** [ts->state = SLEEP] and the queue insertion *)
| ASrel (l : nat)           (** before [release(&slk->spinlock)] *)
| ASsched (l : nat)         (** before [sched()] *)
| ASwake (l : nat)          (** before [release(&ts->lk)] *)
| ASagain (l : nat)         (** before the second [acquire(&slk->spinlock)] *)
| ASset (l : nat)           (** [slk->locked = 1; slk->holder = ts->pid] *)
| ASend (l : nat)           (** before the last [release(&slk->spinlock)] *)
(* _release_sleep_proto *)
| RSacq (l : nat) (all : bool)
| RSown (l : nat) (all : bool)      (** the test of [slk->holder] and the two stores *)
| RSone (l : nat)                   (** [wakeup]: the queue test and the removal *)
| RSall (l : nat) (pos : nref)      (** [wakeup_all]: the loop test and the removal *)
| RSlk (l u : nat) (nxt : option nref)  (** before [acquire(&ts->lk)] of the woken [u] *)
| RSrun (l u : nat) (nxt : option nref) (** [ts->state = RUNNABLE] *)
| RSrel (l u : nat) (nxt : option nref) (** before [release(&ts->lk)] *)
| RSend (l : nat).                  (** before [release(&slk->spinlock)] *)

(** The fields of [struct task_struct] these functions use;
    [utf->kernel_hartid] is [t_hartid], and the stack stands for [ctx]. *)
Record task := mkTask {
  t_state : task_state; t_pid : Z; t_hartid : nat; t_node : wait_node; t_stk : list frame }.
Definition set_state v t := mkTask v (t_pid t) (t_hartid t) (t_node t) (t_stk t).
Definition set_hartid v t := mkTask (t_state t) (t_pid t) v (t_node t) (t_stk t).
Definition set_tnode v t := mkTask (t_state t) (t_pid t) (t_hartid t) v (t_stk t).
Definition set_stk v t := mkTask (t_state t) (t_pid t) (t_hartid t) (t_node t) v.

(** Where a hart is in [scheduler]; [found] is the local of that name. *)
Inductive sframe :=
| SScan (i : nat) (found : bool)    (** the loop test and the unlocked test of [ts->state] *)
| SAcq (i : nat) (found : bool)     (** before [acquire(&ts->lk)] *)
| SChk (i : nat) (found : bool)     (** the test under the lock, up to [swtch] *)
| SBack (i : nat)                   (** after [swtch] returned *)
| SWfi.                             (** in [wfi], with interrupts on *)

(** [w_lk] holds the spinlocks and [cpus[]], [w_tp] the [tp] registers and
    [w_cur] the task whose stack a hart executes. *)
Record world := mkWorld {
  w_lk : ast lock; w_tp : nat -> nat; w_cur : nat -> option nat;
  w_sched : nat -> sframe; w_task : nat -> task; w_slk : nat -> sleeplock }.
Definition set_wlk v w := mkWorld v (w_tp w) (w_cur w) (w_sched w) (w_task w) (w_slk w).
Definition set_wtp v w := mkWorld (w_lk w) v (w_cur w) (w_sched w) (w_task w) (w_slk w).
Definition set_cur v w := mkWorld (w_lk w) (w_tp w) v (w_sched w) (w_task w) (w_slk w).
Definition set_sched v w := mkWorld (w_lk w) (w_tp w) (w_cur w) v (w_task w) (w_slk w).
Definition set_task v w := mkWorld (w_lk w) (w_tp w) (w_cur w) (w_sched w) v (w_slk w).
Definition set_slk v w := mkWorld (w_lk w) (w_tp w) (w_cur w) (w_sched w) (w_task w) v.

Definition own (w : world) (x : lock) : option nat := a_owner (w_lk w) x.
Definition cpu_of (w : world) (h : nat) : cpu := a_cpu (w_lk w) h.
Definition with_cpu (h : nat) (f : cpu -> cpu) (w : world) : world :=
  set_wlk (mkAst (a_owner (w_lk w)) (upd (a_cpu (w_lk w)) h (f (cpu_of w h)))) w.
Definition with_task (t : nat) (f : task -> task) (w : world) : world :=
  set_task (upd (w_task w) t (f (w_task w t))) w.
Definition with_slk (l : nat) (f : sleeplock -> sleeplock) (w : world) : world :=
  set_slk (upd (w_slk w) l (f (w_slk w l))) w.
Definition stack (w : world) (t : nat) : list frame := t_stk (w_task w t).
Definition state (w : world) (t : nat) : task_state := t_state (w_task w t).
(** continue task [t] at the frames [k] *)
Definition jump (t : nat) (k : list frame) (w : world) : world := with_task t (set_stk k) w.
Definition sjump (h : nat) (k : sframe) (w : world) : world := set_sched (upd (w_sched w) h k) w.

(** ** Spinlocks

    [None]: the hart spins.  A panic is [Halt]. *)
Definition acquire (h : nat) (x : lock) (w : world) : option (result world) :=
  if decide (own w x = Some h) then Some Halt else
  match acquire_atomic h x (w_lk w) with
  | Some a => Some (Ok (set_wlk a w))
  | None => None
  end.
Definition release (h : nat) (x : lock) (w : world) : result world :=
  match release_atomic h x (w_lk w) with
  | Some a => Ok (set_wlk a w)
  | None => Halt
  end.

(** the rest of the step, once the lock operation is done *)
Definition andthen (r : option (result world)) (k : world -> result world) : option (result world) :=
  match r with Some m => Some (rbind m k) | None => None end.
Definition okf (f : world -> world) (w : world) : result world := Ok (f w).

(** ** The wait queue *)
Definition node (w : world) (r : nref) : option wait_node :=
  match r with
  | NNull => None
  | NHead l => Some (sl_queue (w_slk w l))
  | NNode t => Some (t_node (w_task w t))
  end.
Definition with_node (r : nref) (f : wait_node -> wait_node) (w : world) : result world :=
  match r with
  | NNull => Fault
  | NHead l => Ok (with_slk l (fun s => mkSleep (sl_locked s) (sl_holder s) (f (sl_queue s))) w)
  | NNode t => Ok (with_task t (fun ts => set_tnode (f (t_node ts)) ts) w)
  end.
Definition set_prev v n := mkNode v (wn_next n) (wn_task n).
Definition set_next v n := mkNode (wn_prev n) v (wn_task n).
Definition set_ntask v n := mkNode (wn_prev n) (wn_next n) v.

Definition init_sleeplock (l : nat) : sleeplock :=
  mkSleep false 0 (mkNode (NHead l) (NHead l) None).

(** the insertion at the tail in [acquire_sleep] *)
Definition enqueue (t l : nat) (w : world) : result world :=
  rbind (with_node (NNode t) (set_ntask (Some t)) w) (fun w =>
  let tail := wn_prev (sl_queue (w_slk w l)) in
  rbind (with_node tail (set_next (NNode t)) w) (fun w =>
  rbind (with_node (NNode t) (set_prev tail) w) (fun w =>
  rbind (with_node (NNode t) (set_next (NHead l)) w) (fun w =>
  with_node (NHead l) (set_prev (NNode t)) w)))).

(** [pos->prev->next = pos->next; pos->next->prev = pos->prev] *)
Definition unlink (pos : nref) (w : world) : result world :=
  match node w pos with
  | None => Fault
  | Some n =>
      rbind (with_node (wn_prev n) (set_next (wn_next n)) w) (fun w =>
      match node w pos with
      | None => Fault
      | Some n => with_node (wn_next n) (set_prev (wn_prev n)) w
      end)
  end.

(** ** [sched] and [scheduler] *)
Definition sched (h t : nat) (k : list frame) (w : world) : result world :=
  let c := cpu_of w h in
  if negb (bool_decide (own w (LTask t) = Some h)) then Halt else
  if decide (state w t = RUNNING) then Halt else
  if intr_get c then Halt else
  if negb (c_noff c =? 1) then Halt else
  Ok (set_cur (upd (w_cur w) h None) (jump t (SRet (c_intena c) :: k) w)).

Definition NTASKS : nat := 128.

(** [hw] is the hart, [h] what its [tp] register says *)
Definition scheduler_step (hw : nat) (w : world) : option (result world) :=
  let h := w_tp w hw in
  match w_sched w hw with
  | SScan i found =>
      Some (Ok (
        if (i <? NTASKS)%nat
        then sjump hw (if decide (state w i = RUNNABLE) then SAcq i found else SScan (S i) found) w
        else if found then sjump hw (SScan 0 false) w
        else sjump hw SWfi (with_cpu h intr_on w)))
  | SAcq i found => andthen (acquire h (LTask i) w) (okf (sjump hw (SChk i found)))
  | SChk i found =>
      Some (
        if decide (state w i = RUNNABLE)
        then Ok (set_cur (upd (w_cur w) hw (Some i)) (sjump hw (SBack i)
               (with_task i (set_hartid h) (with_cpu h (set_ts (Some i))
               (with_task i (set_state RUNNING) w)))))
        else rbind (release h (LTask i) w) (okf (sjump hw (SScan (S i) found))))
  | SBack i =>
      Some (rbind (release h (LTask i) (with_cpu h (set_ts None) w))
                  (okf (sjump hw (SScan (S i) true))))
  | SWfi => Some (Ok (sjump hw (SScan 0 false) (with_cpu h intr_off w)))
  end.

(** ** Steps of a task *)

(** What happens next on a hart.  [CGo] continues the current function;
    [CIrq] is a timer interrupt; the others are calls and local operations of
    the code outside the modelled functions. *)
Inductive choice :=
| CGo
| CIrq
| CYield
| CAcquireSleep (l : nat)
| CReleaseSleep (l : nat) (all : bool)
| CAcquire (x : lock)
| CRelease (x : lock)
| CIntrOn
| CIntrOff.

(** the spinlock of a sleep lock is private to kernel/sleeplock.c *)
Definition client_lock (x : lock) : bool := match x with LSleep _ => false | _ => true end.

Definition run_step (h t : nat) (held : list lock) (k : list frame) (c : choice) (w : world)
    : option (result world) :=
  match c with
  | CYield => Some (Ok (jump t (YAcq :: FRun held :: k) w))
  | CAcquireSleep l => Some (Ok (jump t (ASacq l :: FRun held :: k) w))
  | CReleaseSleep l all => Some (Ok (jump t (RSacq l all :: FRun held :: k) w))
  | CAcquire x =>
      if client_lock x then andthen (acquire h x w) (okf (jump t (FRun (x :: held) :: k))) else None
  | CRelease x =>
      if client_lock x
      then Some (rbind (release h x w)
                   (okf (jump t (FRun (filter (fun y => y <> x) held) :: k))))
      else None
  | CIntrOn => match held with [] => Some (Ok (with_cpu h intr_on w)) | _ => None end
  | CIntrOff => Some (Ok (with_cpu h intr_off w))
  | _ => None
  end.

(** [yield], [first_ret], the return of [sched] and of the interrupt *)
Definition yield_step (h hw t : nat) (f : frame) (k : list frame) (w : world) : option (result world) :=
  match f with
  | FFirst => Some (rbind (release h (LTask t) w) (okf (jump t k)))
  | FIrq => Some (Ok (jump t k (with_cpu h intr_on w)))
  | YAcq => andthen (acquire h (LTask t) w) (okf (jump t (YBody :: k)))
  | YBody =>
      if decide (state w t = RUNNING)
      then Some (Ok (jump t (YSch :: k) (with_task t (set_state RUNNABLE) w)))
      else Some (rbind (release h (LTask t) w) (okf (jump t k)))
  | YSch => Some (sched h t (YRel :: k) w)
  | YRel => Some (rbind (release h (LTask t) w) (okf (jump t k)))
  | SRet intena =>
      let w := set_wtp (upd (w_tp w) hw (t_hartid (w_task w t))) w in
      Some (Ok (jump t k (with_cpu (w_tp w hw) (set_intena intena) w)))
  | _ => None
  end.

Definition acquire_sleep_step (h t l : nat) (f : frame) (k : list frame) (w : world)
    : option (result world) :=
  let slk := w_slk w l in
  let pid := t_pid (w_task w t) in
  match f with
  | ASacq _ => andthen (acquire h (LSleep l) w) (okf (jump t (ASown l :: k)))
  | ASown _ => Some (if sl_holder slk =? pid then Halt else Ok (jump t (ASwhile l :: k) w))
  | ASwhile _ => Some (Ok (jump t ((if sl_locked slk then ASlk l else ASset l) :: k) w))
  | ASlk _ => andthen (acquire h (LTask t) w) (okf (jump t (ASenq l :: k)))
  | ASenq _ => Some (rbind (enqueue t l (with_task t (set_state SLEEP) w)) (okf (jump t (ASrel l :: k))))
  | ASrel _ => Some (rbind (release h (LSleep l) w) (okf (jump t (ASsched l :: k))))
  | ASsched _ => Some (sched h t (ASwake l :: k) w)
  | ASwake _ => Some (rbind (release h (LTask t) w) (okf (jump t (ASagain l :: k))))
  | ASagain _ => andthen (acquire h (LSleep l) w) (okf (jump t (ASwhile l :: k)))
  | ASset _ => Some (Ok (jump t (ASend l :: k) (with_slk l (fun s => mkSleep true pid (sl_queue s)) w)))
  | ASend _ => Some (rbind (release h (LSleep l) w) (okf (jump t k)))
  | _ => None
  end.

(** take [pos] out of the queue and go on to wake its task *)
Definition remove_and_wake (t l : nat) (pos : nref) (nxt : option nref) (k : list frame) (w : world)
    : result world :=
  rbind (unlink pos w) (fun w =>
  match node w pos with
  | Some n => match wn_task n with
              | Some u => Ok (jump t (RSlk l u nxt :: k) w)
              | None => Fault
              end
  | None => Fault
  end).

Definition release_sleep_step (h t l : nat) (f : frame) (k : list frame) (w : world)
    : option (result world) :=
  let slk := w_slk w l in
  let pid := t_pid (w_task w t) in
  match f with
  | RSacq _ all => andthen (acquire h (LSleep l) w) (okf (jump t (RSown l all :: k)))
  | RSown _ all => Some (
      if sl_holder slk =? pid
      then Ok (jump t ((if all then RSall l (wn_next (sl_queue slk)) else RSone l) :: k)
                 (with_slk l (fun s => mkSleep false 0 (sl_queue s)) w))
      else Halt)
  | RSone _ => Some (
      if decide (wn_next (sl_queue slk) = NHead l) then Ok (jump t (RSend l :: k) w)
      else remove_and_wake t l (wn_next (sl_queue slk)) None k w)
  | RSall _ pos => Some (
      if decide (pos = NHead l)
      then Ok (jump t (RSend l :: k)
             (with_slk l (fun s => mkSleep (sl_locked s) (sl_holder s)
                                     (mkNode (NHead l) (NHead l) (wn_task (sl_queue s)))) w))
      else match node w pos with
           | Some n => remove_and_wake t l pos (Some (wn_next n)) k w
           | None => Fault
           end)
  | RSlk _ u nxt => andthen (acquire h (LTask u) w) (okf (jump t (RSrun l u nxt :: k)))
  | RSrun _ u nxt => Some (Ok (jump t (RSrel l u nxt :: k) (with_task u (set_state RUNNABLE) w)))
  | RSrel _ u nxt => Some (rbind (release h (LTask u) w)
      (okf (jump t ((match nxt with Some p => RSall l p | None => RSend l end) :: k))))
  | RSend _ => Some (rbind (release h (LSleep l) w) (okf (jump t k)))
  | _ => None
  end.

(** The function a frame belongs to, with its sleep lock. *)
Inductive kind := KRun (held : list lock) | KYield | KAcquire (l : nat) | KRelease (l : nat).
Definition kind_of (f : frame) : kind :=
  match f with
  | FRun held => KRun held
  | FFirst | FIrq | YAcq | YBody | YSch | YRel | SRet _ => KYield
  | ASacq l | ASown l | ASwhile l | ASlk l | ASenq l | ASrel l | ASsched l | ASwake l
  | ASagain l | ASset l | ASend l => KAcquire l
  | RSacq l _ | RSown l _ | RSone l | RSall l _ | RSlk l _ _ | RSrun l _ _ | RSrel l _ _
  | RSend l => KRelease l
  end.

Definition task_step (hw t : nat) (c : choice) (w : world) : option (result world) :=
  let h := w_tp w hw in
  match c, stack w t with
  | CIrq, k =>
      if intr_get (cpu_of w h)
      then Some (Ok (jump t (YAcq :: FIrq :: k) (with_cpu h intr_off w))) else None
  | CGo, f :: k =>
      match kind_of f with
      | KRun _ => None
      | KYield => yield_step h hw t f k w
      | KAcquire l => acquire_sleep_step h t l f k w
      | KRelease l => release_sleep_step h t l f k w
      end
  | _, FRun held :: k => run_step h t held k c w
  | _, _ => None
  end.

Definition hstep (hw : nat) (c : choice) (w : world) : option (result world) :=
  match w_cur w hw with
  | Some t => task_step hw t c w
  | None => match c with CGo => scheduler_step hw w | _ => None end
  end.

(** Start: every hart is at the top of its scheduler loop; the tasks that
    exist are ready to enter [first_ret], with distinct non-zero pids. *)
Record boot (w : world) : Prop := {
  b_lk x : own w x = None;
  b_cpu h : c_noff (cpu_of w h) = 0 /\ c_ts (cpu_of w h) = None;
  b_tp h : w_tp w h = h;
  b_cur h : w_cur w h = None;
  b_sched h : w_sched w h = SScan 0 false;
  b_task t : state w t = INITLIZED /\ stack w t = [] \/ state w t = RUNNABLE /\ stack w t = [FFirst; FRun []];
  b_pid t : state w t = RUNNABLE -> t_pid (w_task w t) <> 0;
  b_pid_inj t u : state w t = RUNNABLE -> state w u = RUNNABLE ->
                  t_pid (w_task w t) = t_pid (w_task w u) -> t = u;
  b_slk l : w_slk w l = init_sleeplock l }.

Inductive reach (w0 : world) : world -> Prop :=
| reach_boot : boot w0 -> reach w0 w0
| reach_step w hw c w' : reach w0 w -> hstep hw c w = Some (Ok w') -> reach w0 w'.
