(* ===== verification/SchedInv.v ===== *)
(** The invariant of the scheduler and of the sleep locks (Sched): who holds
    which spinlock, which hart runs which task, what the kernel stack of a
    task that is switched out looks like, and how the wait queues, the tasks
    in state [SLEEP] and the tasks that are waking others belong together. *)
From stdpp Require Import base list option.
From Stdlib Require Import ZArith Lia.
From S2P Require Import Prelude Spinlock Sched.
Open Scope Z_scope.

(** ** Locks along a stack *)

(** The spinlocks the function of frame [f] of task [t] has taken. *)
Definition fr_locks (t : nat) (f : frame) : list lock :=
  match f with
  | FRun held => held
  | FIrq | YAcq | SRet _ | ASacq _ | ASagain _ | RSacq _ _ => []
  | FFirst | YBody | YSch | YRel | ASsched _ | ASwake _ => [LTask t]
  | ASown l | ASwhile l | ASlk l | ASset l | ASend l | RSown l _ | RSone l | RSall l _
  | RSlk l _ _ | RSend l => [LSleep l]
  | ASenq l | ASrel l => [LTask t; LSleep l]
  | RSrun l u _ | RSrel l u _ => [LTask u; LSleep l]
  end.
Definition stk_locks (t : nat) (k : list frame) : list lock := concat (fr_locks t <$> k).
Definition sched_locks (f : sframe) : list lock :=
  match f with SChk i _ | SBack i => [LTask i] | _ => [] end.
Definition hart_locks (w : world) (h : nat) : list lock :=
  match w_cur w h with
  | Some t => stk_locks t (stack w t)
  | None => sched_locks (w_sched w h)
  end.

(** Hart [h] owns exactly the locks [hl h], each once, and has its interrupt
    nesting in step with them. *)
Definition lk_ok (a : ast lock) (h : nat) (ls : list lock) : Prop :=
  owned_by a h ls /\ c_noff (a_cpu a h) = Z.of_nat (length ls)
  /\ (ls <> [] -> c_sie (a_cpu a h) = false).
Definition lk_inv (a : ast lock) (hl : nat -> list lock) : Prop := forall h, lk_ok a h (hl h).

Lemma lk_inv_ext a hl hl' : lk_inv a hl -> (forall h, hl' h = hl h) -> lk_inv a hl'.
Proof. intros I E h. rewrite E. apply I. Qed.

Lemma acquire_ok a hl h x a' : lk_inv a hl -> acquire_atomic h x a = Some a' ->
  a_owner a x = None /\ (forall k, c_ts (a_cpu a' k) = c_ts (a_cpu a k)) /\
  forall hl', hl' h ≡ₚ x :: hl h -> (forall k, k <> h -> hl' k = hl k) -> lk_inv a' hl'.
Proof.
  intros I E. unfold acquire_atomic in E. destruct (a_owner a x) eqn:O; [done|].
  injection E as <-. split; [done|]. split.
  { intros k. simpl. upd_cases; [apply push_off_ts|done]. }
  intros hl' P Q k. destruct (I k) as (OB & N & S). destruct (decide (k = h)) as [->|Nk].
  - unfold lk_ok. simpl. upd_simpl. rewrite push_off_noff, push_off_sie, (Permutation_length P).
    simpl length. split_and!; [|lia|done].
    destruct (owned_by_take a h x (hl h) (mkAst (upd (a_owner a) x (Some h))
      (upd (a_cpu a) h (push_off (a_cpu a h))))) as [ND Hl]; try done.
    split; [by rewrite P|]. intros l. by rewrite P, Hl.
  - unfold lk_ok. simpl. upd_simpl. rewrite (Q k Nk). split; [|done].
    eapply (owned_by_other a k x); try done; congruence.
Qed.

Lemma release_ok a hl h x : lk_inv a hl -> x ∈ hl h ->
  exists a', release_atomic h x a = Some a' /\
    (forall k, c_ts (a_cpu a' k) = c_ts (a_cpu a k)) /\
    (forall hl', hl h ≡ₚ x :: hl' h -> (forall k, k <> h -> hl' k = hl k) -> lk_inv a' hl').
Proof.
  intros I X. destruct (I h) as (OB & N & S). pose proof (proj1 (proj2 OB x) X) as O.
  assert (Sf : c_sie (a_cpu a h) = false) by (apply S; intros E; by rewrite E in X; apply elem_of_nil in X).
  assert (Np : 1 <= c_noff (a_cpu a h)).
  { rewrite N. destruct (hl h); [by apply elem_of_nil in X|simpl; lia]. }
  destruct (pop_off_ok _ Sf Np) as (c & P & N' & T' & S' & _).
  unfold release_atomic. rewrite O, P, Nat.eqb_refl. eexists; split; [reflexivity|]. split.
  { intros k. simpl. by upd_cases. }
  intros hl' Pm Q k. destruct (decide (k = h)) as [->|Nk].
  - unfold lk_ok. simpl. upd_simpl. pose proof (Permutation_length Pm) as PL. simpl in PL.
    destruct OB as [ND Hl]. rewrite Pm in ND. apply list.NoDup_cons in ND as [Nx ND].
    split_and!; [split; [done|]|lia|].
    + intros l. simpl. upd_cases; [split; [done|discriminate]|].
      rewrite <- Hl, Pm, elem_of_cons. naive_solver.
    + intros NE. rewrite S'. destruct (Z.eqb_spec (c_noff (a_cpu a h)) 1); [|done].
      destruct (hl' h); [done|]. simpl in PL. lia.
  - unfold lk_ok. simpl. upd_simpl. rewrite (Q k Nk). destruct (I k) as (OBk & ?).
    split; [|done]. eapply (owned_by_other a k x); try done; congruence.
Qed.

(** A change to the interrupt state of a hart that holds nothing, or one that
    keeps nesting depth and [SIE]. *)
Lemma with_cpu_ok a hl h c : lk_inv a hl ->
  c_noff c = c_noff (a_cpu a h) -> (hl h <> [] -> c_sie c = false) ->
  lk_inv (mkAst (a_owner a) (upd (a_cpu a) h c)) hl.
Proof.
  intros I N S k. destruct (I k) as (OB & Nk & Sk). unfold lk_ok. simpl. upd_cases; [|done].
  split_and!; [done|congruence|done].
Qed.

Lemma lk_inv_unique a hl h k x : lk_inv a hl -> x ∈ hl h -> x ∈ hl k -> h = k.
Proof.
  intros I Xh Xk. apply (proj2 (proj1 (I h))) in Xh. apply (proj2 (proj1 (I k))) in Xk. congruence.
Qed.

(** ** Shapes of stacks *)

(** A system call at the bottom, at most one function of kernel/sleeplock.c on
    top of it; a [yield] runs on top of the system call or of an interrupt,
    and an interrupt on top of anything that holds no spinlock. *)
Definition all_client (held : list lock) : Prop := Forall (fun x => client_lock x = true) held.
Fixpoint wfs (t : nat) (k : list frame) : Prop :=
  match k with
  | [] => False
  | f :: k' =>
      match f with
      | FRun held => k' = [] /\ all_client held
      | FFirst => k' = [FRun []]
      | FIrq => wfs t k' /\ stk_locks t k' = []
      | YAcq | YBody | YSch | YRel =>
          wfs t k' /\ match k' with FIrq :: _ | FRun _ :: _ => True | _ => False end
      | SRet _ => wfs t k' /\ match k' with YRel :: _ | ASwake _ :: _ => True | _ => False end
      | _ => match k' with [FRun held] => all_client held | _ => False end
      end
  end.

(** The innermost frame that is not [yield], [sched] or an interrupt. *)
Fixpoint base (k : list frame) : option frame :=
  match k with
  | [] => None
  | f :: k' => match kind_of f with KYield => base k' | _ => Some f end
  end.

(** What a task is doing for a sleep lock: about to queue because it saw the
    lock taken, queued and on its way to sleep or asleep, on its way to test
    the lock again, about to take it because it saw it free, about to wake
    somebody, with a task it has taken out of the queue, or done with that
    task. *)
Inductive role :=
| RNone
| Busy (l : nat)
| Sleeper (l : nat)
| Comer (l : nat)
| Setter (l : nat)
| Waker (l : nat) (pos : option nref)
| Hand (l u : nat) (nxt : option nref)
| Past (l : nat) (nxt : option nref).
Definition frame_role (f : frame) : role :=
  match f with
  | ASrel l | ASsched l | ASwake l => Sleeper l
  | ASlk l | ASenq l => Busy l
  | ASagain l | ASwhile l => Comer l
  | ASset l => Setter l
  | RSone l => Waker l None
  | RSall l pos => Waker l (Some pos)
  | RSlk l u nxt | RSrun l u nxt => Hand l u nxt
  | RSrel l _ nxt => Past l nxt
  | _ => RNone
  end.
Definition role_of (k : list frame) : role :=
  match base k with Some f => frame_role f | None => RNone end.
Definition roleof (w : world) (t : nat) : role := role_of (stack w t).

(** the node of the queue [wakeup_all] will visit next *)
Definition role_next (r : role) : option (nat * nref) :=
  match r with
  | Waker l (Some p) | Hand l _ (Some p) | Past l (Some p) => Some (l, p)
  | _ => None
  end.

(** what the task has seen in [slk->locked] *)
Definition role_lock (r : role) : option (nat * bool) :=
  match r with Busy l => Some (l, true) | Setter l => Some (l, false) | _ => None end.

(** The state of a task that a hart executes, and of one it does not. *)
Definition run_ok (k : list frame) (st : task_state) : Prop :=
  match k with
  | YSch :: _ => st = RUNNABLE
  | ASrel _ :: _ | ASsched _ :: _ => st = SLEEP
  | _ => st = RUNNING
  end.
Definition saved_ok (t : nat) (k : list frame) (st : task_state) : Prop :=
  stk_locks t k = [LTask t] /\
  match k with
  | FFirst :: _ | SRet _ :: YRel :: _ => st = RUNNABLE
  | SRet _ :: ASwake _ :: _ => st = RUNNABLE \/ st = SLEEP
  | _ => False
  end.

(** ** Wait queues *)
Definition nxt (w : world) (r : nref) : nref := default NNull (wn_next <$> node w r).
Definition prv (w : world) (r : nref) : nref := default NNull (wn_prev <$> node w r).

(** The nodes of the tasks [q], linked both ways from [a] to [z]. *)
Fixpoint chain (w : world) (a : nref) (q : list nat) (z : nref) : Prop :=
  match q with
  | [] => nxt w a = z /\ prv w z = a
  | u :: q' => nxt w a = NNode u /\ prv w (NNode u) = a
               /\ wn_task (t_node (w_task w u)) = Some u /\ chain w (NNode u) q' z
  end.
Definition dll (w : world) (l : nat) (q : list nat) : Prop :=
  NoDup q /\ chain w (NHead l) q (NHead l).

(** Somebody will test the lock again, or is about to wake somebody. *)
Definition role_sup (r : role) (st : task_state) (l : nat) : Prop :=
  match r with
  | Comer l' | Setter l' | Waker l' _ | Hand l' _ _ => l' = l
  | Sleeper l' => l' = l /\ st <> SLEEP
  | _ => False
  end.
Definition supports (w : world) (u l : nat) : Prop := role_sup (roleof w u) (state w u) l.

(** ** The invariant *)

(** the harts and the tasks *)
Record sinv (w : world) : Prop := {
  i_tp h : w_tp w h = h;
  i_lk : lk_inv (w_lk w) (hart_locks w);
  i_ts h : c_ts (cpu_of w h) = match w_sched w h with SBack t => Some t | _ => None end;
  i_cur h t : w_cur w h = Some t -> w_sched w h = SBack t;
  i_one h k t : w_cur w h = Some t -> w_cur w k = Some t -> h = k;
  i_where t : (exists h, w_cur w h = Some t /\ t_hartid (w_task w t) = h
                 /\ wfs t (stack w t) /\ run_ok (stack w t) (state w t))
              \/ (forall h, w_cur w h <> Some t) /\
                 (state w t = INITLIZED /\ stack w t = []
                  \/ wfs t (stack w t) /\ saved_ok t (stack w t) (state w t)) }.

(** the sleep locks, with the contents [q] of their queues *)
Record inv (w : world) (q : nat -> list nat) : Prop := {
  i_s :> sinv w;
  i_pid t : state w t <> INITLIZED -> t_pid (w_task w t) <> 0;
  i_pid_inj t u : state w t <> INITLIZED -> state w u <> INITLIZED ->
                  t_pid (w_task w t) = t_pid (w_task w u) -> t = u;
  i_holder l : sl_locked (w_slk w l) = true <-> sl_holder (w_slk w l) <> 0;
  i_busy u l b : role_lock (roleof w u) = Some (l, b) -> sl_locked (w_slk w l) = b;
  i_dll l : dll w l (q l);
  i_q l t : t ∈ q l -> state w t = SLEEP /\ roleof w t = Sleeper l;
  i_sleep t : state w t = SLEEP ->
              exists l, roleof w t = Sleeper l /\
                        (t ∈ q l \/ exists u n, roleof w u = Hand l t n);
  i_hand u l t n : roleof w u = Hand l t n ->
                   state w t = SLEEP /\ roleof w t = Sleeper l /\ t ∉ q l;
  i_next u l p : role_next (roleof w u) = Some (l, p) -> p = nxt w (NHead l);
  i_wake l : q l <> [] -> sl_locked (w_slk w l) = true \/ exists u, supports w u l }.

(** ** Consequences *)

(** membership in an explicit list *)
Ltac in_list := cbn; rewrite ?elem_of_app, ?elem_of_cons; tauto.

Lemma stk_locks_cons t f k : stk_locks t (f :: k) = fr_locks t f ++ stk_locks t k.
Proof. done. Qed.

Lemma base_locks t k f x : base k = Some f -> x ∈ fr_locks t f -> x ∈ stk_locks t k.
Proof.
  induction k as [|g k IH]; [done|]. simpl. rewrite stk_locks_cons. intros B X.
  apply elem_of_app. destruct (kind_of g); [|right; by apply IH|..]; injection B as ->; by left.
Qed.

(** Roles that go with holding the spinlock of the sleep lock. *)
Definition lock_role (r : role) : option nat :=
  match r with Busy l | Setter l | Waker l _ | Hand l _ _ | Past l _ => Some l | _ => None end.

Lemma lock_role_head t k l : wfs t k -> lock_role (role_of k) = Some l ->
  exists f held, k = [f; FRun held] /\ frame_role f = role_of k /\ LSleep l ∈ stk_locks t k.
Proof.
  assert (B : forall k', stk_locks t k' = [] -> lock_role (role_of k') = Some l -> False).
  { intros k' E R. unfold role_of in R. destruct (base k') as [f|] eqn:Bf; [|done].
    assert (X : LSleep l ∈ stk_locks t k').
    { eapply base_locks; [done|]. destruct f; try discriminate R; injection R as ->;
        in_list. }
    rewrite E in X. by apply elem_of_nil in X. }
  induction k as [|f k IH]; [done|]. intros W R.
  destruct f; try discriminate R;
    try (simpl in W; destruct k as [|[] [|]]; try done; eexists _, _; split_and!; [done|done|];
         injection R as ->; in_list).
  all: exfalso; simpl in W.
  - subst k. discriminate R.
  - destruct W as [_ W]. by eapply B.
  - destruct W as [W X], k as [|[] k]; try done. simpl in W. destruct W. by eapply (B k).
  - destruct W as [W X], k as [|[] k]; try done. simpl in W. destruct W. by eapply (B k).
  - destruct W as [W X], k as [|[] k]; try done. simpl in W. destruct W. by eapply (B k).
  - destruct W as [W X], k as [|[] k]; try done. simpl in W. destruct W. by eapply (B k).
  - destruct W as [W X], k as [|[] k]; try done. simpl in W.
    destruct W as [W Y], k as [|[] k]; try done. destruct W. by eapply (B k).
Qed.

Section Facts.
Context (w : world) (q : nat -> list nat) (I : inv w q).

Lemma cur_info h t : w_cur w h = Some t ->
  t_hartid (w_task w t) = h /\ wfs t (stack w t) /\ run_ok (stack w t) (state w t).
Proof.
  intros C. destruct (i_where _ I t) as [(k & Ck & H & W & R)|[N _]]; [|by destruct (N h)].
  by rewrite (i_one _ I _ _ _ C Ck).
Qed.

(** a lock other than its own on a task's stack: the task is executing *)
Lemma holder_runs t x : x ∈ stk_locks t (stack w t) -> x <> LTask t -> exists h, w_cur w h = Some t.
Proof.
  intros X N. destruct (i_where _ I t) as [(h & C & _)|[_ [[_ E]|[_ [E _]]]]]; [eauto|..];
    rewrite E in X; cbn in X; [by apply elem_of_nil in X|].
  by apply elem_of_cons in X as [->|X%elem_of_nil].
Qed.

Lemma hart_locks_cur h t : w_cur w h = Some t -> hart_locks w h = stk_locks t (stack w t).
Proof. intros C. unfold hart_locks. by rewrite C. Qed.

Lemma sleep_owner_unique t u l :
  LSleep l ∈ stk_locks t (stack w t) -> LSleep l ∈ stk_locks u (stack w u) -> t = u.
Proof.
  intros T U. destruct (holder_runs t (LSleep l)) as [h Ch], (holder_runs u (LSleep l)) as [k Ck]; try done.
  rewrite <- (hart_locks_cur _ _ Ch) in T. rewrite <- (hart_locks_cur _ _ Ck) in U.
  pose proof (lk_inv_unique _ _ _ _ _ (i_lk _ I) T U) as ->. congruence.
Qed.

Lemma wfs_of t f k : stack w t = f :: k -> wfs t (stack w t).
Proof.
  intros E. destruct (i_where _ I t) as [(h & _ & _ & W & _)|[_ [[_ E']|[W _]]]]; try done.
  by rewrite E in E'.
Qed.

Lemma lock_role_owner t l : lock_role (roleof w t) = Some l -> LSleep l ∈ stk_locks t (stack w t).
Proof.
  unfold roleof. intros R. destruct (stack w t) as [|f k] eqn:E; [done|].
  rewrite <- E in *. destruct (lock_role_head t (stack w t) l) as (? & ? & ? & ? & ?); try done.
  by eapply wfs_of.
Qed.

(** The task whose spinlock another hart holds is not asleep on a hart. *)
Lemma sleeping_saved h u : state w u = SLEEP -> LTask u ∈ hart_locks w h ->
  (forall t, w_cur w h = Some t -> t <> u) -> forall k, w_cur w k <> Some u.
Proof.
  intros S L N k C. destruct (cur_info _ _ C) as (_ & W & R).
  assert (X : LTask u ∈ hart_locks w k).
  { rewrite (hart_locks_cur _ _ C). rewrite S in R. unfold run_ok in R.
    destruct (stack w u) as [|[] ?]; try discriminate R; in_list. }
  pose proof (lk_inv_unique _ _ _ _ _ (i_lk _ I) L X) as ->. by apply (N u).
Qed.
End Facts.

(** the queues depend only on the nodes *)
Lemma qchain_ext w w' a l z : (forall r, node w' r = node w r) -> chain w a l z -> chain w' a l z.
Proof.
  intros E. revert a. induction l as [|u l IH]; intros a; simpl; unfold nxt, prv; rewrite !E; [done|].
  intros (? & ? & T & C). split_and!; try done.
  - specialize (E (NNode u)). simpl in E. by injection E as ->.
  - by apply IH.
Qed.

(** The sleep-lock half depends on the roles, the queue nodes and on which
    tasks sleep or exist. *)
Lemma inv_ext w w' q : inv w q -> sinv w' ->
  (forall u, t_pid (w_task w' u) = t_pid (w_task w u)) ->
  (forall u, state w' u = SLEEP <-> state w u = SLEEP) ->
  (forall u, state w' u = INITLIZED <-> state w u = INITLIZED) ->
  (forall u, roleof w' u = roleof w u) -> (forall r, node w' r = node w r) ->
  (forall l, w_slk w' l = w_slk w l) -> inv w' q.
Proof.
  intros I SI PE ES EI RE NE EL. constructor; try setoid_rewrite EL; try done.
  - intros u. rewrite EI, PE. apply (i_pid _ _ I).
  - intros u v. rewrite !EI, !PE. apply (i_pid_inj _ _ I).
  - apply (i_holder _ _ I).
  - intros u l b. rewrite RE. apply (i_busy _ _ I).
  - intros l. destruct (i_dll _ _ I l) as [ND Ch]. split; [done|]. by eapply qchain_ext.
  - intros l u. rewrite ES, RE. apply (i_q _ _ I).
  - intros u. rewrite ES, RE. intros Su. destruct (i_sleep _ _ I u Su) as (l & R & [X|(v & n & X)]);
      exists l; split; try done; [by left|]. right. exists v, n. by rewrite RE.
  - intros u l v n. rewrite ES, !RE. apply (i_hand _ _ I).
  - intros u l p. rewrite RE. unfold nxt. rewrite NE. apply (i_next _ _ I).
  - intros l X. destruct (i_wake _ _ I l X) as [|[u Su]]; [by left|right]. exists u.
    unfold supports, role_sup in *. rewrite RE. by destruct (roleof w u); rewrite ?ES.
Qed.

(** ** Steps that move one task along its stack *)

(** [w'] differs from [w] in the stack of [t], in its state, in the spinlocks
    and in the sleep locks. *)
Record moved (w w' : world) (t : nat) (st : task_state) (k' : list frame) : Prop := {
  mv_tp h : w_tp w' h = w_tp w h;
  mv_cur : w_cur w' = w_cur w;
  mv_sched : w_sched w' = w_sched w;
  mv_ts h : c_ts (cpu_of w' h) = c_ts (cpu_of w h);
  mv_pid u : t_pid (w_task w' u) = t_pid (w_task w u);
  mv_hartid u : t_hartid (w_task w' u) = t_hartid (w_task w u);
  mv_state u : state w' u = if decide (u = t) then st else state w u;
  mv_stack u : stack w' u = if decide (u = t) then k' else stack w u }.

Record role_change (w : world) (q : nat -> list nat) (t : nat) (r r' : role) : Prop := {
  rc_sleep : state w t = SLEEP -> r' = r;
  rc_hand l u n : r' = Hand l u n <-> r = Hand l u n;
  rc_busy l b : role_lock r' = Some (l, b) -> sl_locked (w_slk w l) = b;
  rc_next l p : role_next r' = Some (l, p) -> p = nxt w (NHead l);
  rc_sup l : role_sup r (state w t) l -> q l <> [] ->
             sl_locked (w_slk w l) = true \/ role_sup r' (state w t) l }.

Section Moved.
Context (w w' : world) (t : nat) (st : task_state) (k' : list frame) (M : moved w w' t st k').

Lemma moved_state_eq : state w' t = st.
Proof. rewrite (mv_state _ _ _ _ _ M). by rewrite decide_True. Qed.
Lemma moved_state_ne u : u <> t -> state w' u = state w u.
Proof. intros N. rewrite (mv_state _ _ _ _ _ M). by rewrite decide_False. Qed.
Lemma moved_stack_eq : stack w' t = k'.
Proof. rewrite (mv_stack _ _ _ _ _ M). by rewrite decide_True. Qed.
Lemma moved_stack_ne u : u <> t -> stack w' u = stack w u.
Proof. intros N. rewrite (mv_stack _ _ _ _ _ M). by rewrite decide_False. Qed.
Lemma moved_role_eq : roleof w' t = role_of k'.
Proof. unfold roleof. by rewrite moved_stack_eq. Qed.
Lemma moved_role_ne u : u <> t -> roleof w' u = roleof w u.
Proof. intros N. unfold roleof. by rewrite moved_stack_ne. Qed.

(** the harts-and-tasks half of the invariant *)
Lemma sinv_move q h : inv w q -> w_cur w h = Some t -> lk_inv (w_lk w') (hart_locks w') ->
  wfs t k' -> run_ok k' st -> sinv w'.
Proof.
  intros I C L W R.
  constructor; rewrite ?(mv_cur _ _ _ _ _ M), ?(mv_sched _ _ _ _ _ M); try done.
  - intros k. rewrite (mv_tp _ _ _ _ _ M). apply (i_tp _ I).
  - intros k. rewrite (mv_ts _ _ _ _ _ M). apply (i_ts _ I).
  - apply (i_cur _ I).
  - apply (i_one _ I).
  - intros u. rewrite (mv_hartid _ _ _ _ _ M). destruct (decide (u = t)) as [->|N].
    + left. exists h. rewrite moved_stack_eq, moved_state_eq.
      destruct (cur_info _ _ I _ _ C) as (? & _). done.
    + rewrite moved_stack_ne, moved_state_ne by done. apply (i_where _ I).
Qed.
End Moved.

Lemma hart_locks_moved w w' q t st k' h : inv w q -> moved w w' t st k' -> w_cur w h = Some t ->
  hart_locks w' h = stk_locks t k' /\ forall k, k <> h -> hart_locks w' k = hart_locks w k.
Proof.
  intros I M C. unfold hart_locks. rewrite (mv_cur _ _ _ _ _ M), (mv_sched _ _ _ _ _ M). split.
  - by rewrite C, (moved_stack_eq _ _ _ _ _ M).
  - intros k N. destruct (w_cur w k) as [u|] eqn:Ck; [|done].
    rewrite (moved_stack_ne _ _ _ _ _ M); [done|]. intros ->. by apply N, (i_one _ I k h t).
Qed.

(** The new state is [SLEEP] or [INITLIZED] when the old one is. *)
Definition same_kind (st st' : task_state) : Prop :=
  (st' = SLEEP <-> st = SLEEP) /\ (st' = INITLIZED <-> st = INITLIZED).

Lemma inv_move w w' q h t st k' :
  inv w q -> w_cur w h = Some t -> moved w w' t st k' -> same_kind (state w t) st ->
  (forall r, node w' r = node w r) -> (forall l, w_slk w' l = w_slk w l) ->
  lk_inv (w_lk w') (hart_locks w') -> wfs t k' -> run_ok k' st ->
  role_change w q t (roleof w t) (role_of k') -> inv w' q.
Proof.
  intros I C M [KS KI] NE EL L W R RC. pose proof (mv_pid _ _ _ _ _ M) as EP.
  pose proof (moved_role_eq _ _ _ _ _ M) as ER. pose proof (moved_role_ne _ _ _ _ _ M) as NR.
  assert (ES : forall u, state w' u = SLEEP <-> state w u = SLEEP).
  { intros u. rewrite (mv_state _ _ _ _ _ M). by case_decide; [subst|]. }
  assert (EI : forall u, state w' u = INITLIZED <-> state w u = INITLIZED).
  { intros u. rewrite (mv_state _ _ _ _ _ M). by case_decide; [subst|]. }
  assert (HR : forall u l v n, roleof w' u = Hand l v n <-> roleof w u = Hand l v n).
  { intros u l v n. destruct (decide (u = t)) as [->|N]; [|by rewrite NR].
    rewrite ER. apply (rc_hand _ _ _ _ _ RC). }
  assert (SR : forall u l, state w u = SLEEP -> roleof w u = Sleeper l -> roleof w' u = Sleeper l).
  { intros u l S E. destruct (decide (u = t)) as [->|N]; [|by rewrite NR].
    rewrite ER, (rc_sleep _ _ _ _ _ RC); done. }
  constructor; [by eapply sinv_move|..].
  - intros u. rewrite EI, EP. apply (i_pid _ _ I).
  - intros u v. rewrite !EI, !EP. apply (i_pid_inj _ _ I).
  - intros l. rewrite EL. apply (i_holder _ _ I).
  - intros u l b. rewrite EL. destruct (decide (u = t)) as [->|N].
    + rewrite ER. apply (rc_busy _ _ _ _ _ RC).
    + rewrite NR by done. apply (i_busy _ _ I).
  - intros l. destruct (i_dll _ _ I l) as [ND Ch]. split; [done|]. by eapply qchain_ext.
  - intros l u X. rewrite ES. destruct (i_q _ _ I l u X) as [S E]. eauto.
  - intros u. rewrite ES. intros S. destruct (i_sleep _ _ I u S) as (l & E & H).
    exists l. split; [by apply SR|]. destruct H as [|(v & n & H)]; [by left|].
    right. exists v, n. by apply HR.
  - intros u l v n H. apply HR in H. rewrite ES.
    destruct (i_hand _ _ I u l v n H) as (S & E & Nq). eauto.
  - intros u l p E. unfold nxt. rewrite NE. destruct (decide (u = t)) as [->|N].
    + rewrite ER in E. by eapply (rc_next _ _ _ _ _ RC).
    + rewrite NR in E by done. by eapply (i_next _ _ I).
  - intros l X. rewrite EL. destruct (i_wake _ _ I l X) as [|[u S]]; [by left|].
    destruct (decide (u = t)) as [->|N].
    + destruct (rc_sup _ _ _ _ _ RC l S X) as [|S']; [by left|]. right. exists t.
      unfold supports. rewrite ER. unfold role_sup in *. by destruct (role_of k'); rewrite ?ES.
    + right. exists u. unfold supports in *. by rewrite NR, (moved_state_ne _ _ _ _ _ M).
Qed.

Lemma same_kind_refl st : same_kind st st.
Proof. done. Qed.
#[local] Hint Resolve same_kind_refl : core.

(** The common cases of a change of role. *)
Lemma rc_same w q t : inv w q -> role_change w q t (roleof w t) (roleof w t).
Proof.
  intros I. constructor; [done|done|..|by auto]; [intros l b; apply (i_busy _ _ I)|].
  intros l p. apply (i_next _ _ I).
Qed.

Definition plain (r : role) : Prop :=
  match r with RNone | Busy _ | Sleeper _ | Comer _ | Setter _ | Past _ None => True | _ => False end.

Lemma rc_plain w q t r r' : state w t <> SLEEP -> plain r -> plain r' ->
  (forall l b, role_lock r' = Some (l, b) -> sl_locked (w_slk w l) = b) ->
  (forall l, role_sup r (state w t) l -> q l <> [] ->
             sl_locked (w_slk w l) = true \/ role_sup r' (state w t) l) ->
  role_change w q t r r'.
Proof.
  intros S P P' B H. constructor; [done| |done|by destruct r' as [| | | | | | |? []]|done].
  intros l u n. by destruct r, r'.
Qed.

(** Show that an explicit update of the world is a move. *)
Ltac by_upd :=
  intros; unfold state, stack, cpu_of, node; simpl;
  try match goal with r : nref |- _ => destruct r end; simpl; unfold upd;
  repeat case_decide; subst; try done; simplify_eq/=; try done.

Lemma jump_moved w t k' a : (forall h, c_ts (a_cpu a h) = c_ts (cpu_of w h)) ->
  moved w (jump t k' (set_wlk a w)) t (state w t) k'.
Proof. intros T. constructor; by_upd. Qed.

Lemma inv_acquire w q h t x w1 k' :
  inv w q -> w_cur w h = Some t -> acquire h x w = Some (Ok w1) ->
  stk_locks t k' ≡ₚ x :: stk_locks t (stack w t) -> wfs t k' -> run_ok k' (state w t) ->
  role_change w q t (roleof w t) (role_of k') -> inv (jump t k' w1) q.
Proof.
  intros I C A P W R RC. unfold acquire in A. case_decide; [done|].
  destruct (acquire_atomic h x (w_lk w)) as [a|] eqn:E; [|done]. injection A as <-.
  destruct (acquire_ok _ _ _ _ _ (i_lk _ I) E) as (_ & T & L).
  pose proof (jump_moved w t k' a T) as M.
  destruct (hart_locks_moved _ _ _ _ _ _ _ I M C) as [Eh Ek].
  eapply inv_move; try done; [by_upd|]. apply L; [|done]. by rewrite Eh, (hart_locks_cur _ _ _ C).
Qed.

Lemma inv_release w q h t x w1 k' :
  inv w q -> w_cur w h = Some t -> release h x w = Ok w1 ->
  stk_locks t (stack w t) ≡ₚ x :: stk_locks t k' -> wfs t k' -> run_ok k' (state w t) ->
  role_change w q t (roleof w t) (role_of k') -> inv (jump t k' w1) q.
Proof.
  intros I C A P W R RC. unfold release in A.
  destruct (release_ok _ _ h x (i_lk _ I)) as (a & E & T & L).
  { rewrite (hart_locks_cur _ _ _ C), P. in_list. }
  rewrite E in A. injection A as <-.
  pose proof (jump_moved w t k' a T) as M.
  destruct (hart_locks_moved _ _ _ _ _ _ _ I M C) as [Eh Ek].
  eapply inv_move; try done; [by_upd|]. apply L; [|done]. by rewrite Eh, (hart_locks_cur _ _ _ C).
Qed.

(** a hart that has a lock on its list can release it *)
Lemma release_succeeds w q h x : inv w q -> x ∈ hart_locks w h -> exists w1, release h x w = Ok w1.
Proof.
  intros I X. destruct (release_ok _ _ h x (i_lk _ I) X) as (a & E & _).
  unfold release. rewrite E. eauto.
Qed.

Lemma inv_jump_cpu w q h t c k' :
  inv w q -> w_cur w h = Some t ->
  c_ts c = c_ts (cpu_of w h) -> c_noff c = c_noff (cpu_of w h) ->
  (stk_locks t k' <> [] -> c_sie c = false) ->
  stk_locks t k' ≡ₚ stk_locks t (stack w t) -> wfs t k' -> run_ok k' (state w t) ->
  role_change w q t (roleof w t) (role_of k') ->
  inv (jump t k' (with_cpu h (fun _ => c) w)) q.
Proof.
  intros I C T N S P W R RC.
  assert (M : moved w (jump t k' (with_cpu h (fun _ => c) w)) t (state w t) k').
  { constructor; by_upd. }
  destruct (hart_locks_moved _ _ _ _ _ _ _ I M C) as [Eh Ek].
  eapply inv_move; try done; [by_upd|]. simpl.
  apply (with_cpu_ok _ (hart_locks (jump t k' (with_cpu h (fun _ => c) w)))); [|done|by rewrite Eh].
  intros k. destruct (i_lk _ I k) as ([ND Hl] & Nk & Sk).
  destruct (decide (k = h)) as [->|Nkh]; [|by rewrite Ek].
  rewrite (hart_locks_cur _ _ _ C) in *. rewrite Eh.
  split_and!; [split; [by rewrite P|]|by rewrite (Permutation_length P)|].
  - intros x. rewrite P. apply Hl.
  - intros NE. apply Sk. intros E. apply NE. apply Permutation_nil_r. by rewrite P, E.
Qed.

Lemma inv_jump w q h t k' :
  inv w q -> w_cur w h = Some t ->
  stk_locks t k' ≡ₚ stk_locks t (stack w t) -> wfs t k' -> run_ok k' (state w t) ->
  role_change w q t (roleof w t) (role_of k') -> inv (jump t k' w) q.
Proof.
  intros I C P W R RC.
  assert (M : moved w (jump t k' w) t (state w t) k') by (constructor; by_upd).
  destruct (hart_locks_moved _ _ _ _ _ _ _ I M C) as [Eh Ek].
  eapply inv_move; try done; [by_upd|]. simpl. intros k. destruct (i_lk _ I k) as ([ND Hl] & Nk & Sk).
  destruct (decide (k = h)) as [->|Nkh]; [|by rewrite Ek].
  rewrite (hart_locks_cur _ _ _ C) in *. rewrite Eh.
  split_and!; [split; [by rewrite P|]|by rewrite (Permutation_length P)|].
  - intros x. rewrite P. apply Hl.
  - intros NE. apply Sk. intros E. apply NE. apply Permutation_nil_r. by rewrite P, E.
Qed.
