(* ===== verification/SchedSteps.v ===== *)
(** Every step of a hart preserves the invariant of SchedInv. *)
From stdpp Require Import base list option.
From Stdlib Require Import ZArith Lia.
From S2P Require Import Prelude Spinlock Sched SchedInv.
Open Scope Z_scope.

#[local] Hint Resolve same_kind_refl rc_same : core.

(** a step that performs a lock operation and then goes on *)
Lemma andthen_ok r f w' : andthen r (okf f) = Some (Ok w') -> exists w1, r = Some (Ok w1) /\ w' = f w1.
Proof. unfold andthen, okf. destruct r as [[w1| | |]|]; simpl; intros [=]. eauto. Qed.
Lemma rbind_ok r f w' : rbind r (okf f) = Ok w' -> exists w1, r = Ok w1 /\ w' = f w1.
Proof. unfold okf. destruct r as [w1| | |]; simpl; intros [=]. eauto. Qed.

Ltac step_ok E :=
  match type of E with
  | andthen _ (okf _) = Some (Ok _) => apply andthen_ok in E as (? & E & ->)
  | Some (rbind _ (okf _)) = Some (Ok _) =>
      injection E as E; apply rbind_ok in E as (? & E & ->)
  | Some (Ok _) = Some (Ok _) => injection E as <-
  end.

(** ** [sched]: a task leaves its hart *)
Lemma perm_singleton (x : lock) ls : x ∈ ls -> length ls = 1%nat -> ls = [x].
Proof.
  destruct ls as [|y [|]]; try done. intros X%elem_of_cons _.
  destruct X as [->|X%elem_of_nil]; done.
Qed.

Lemma sched_inv w q h t k w' :
  inv w q -> w_cur w h = Some t -> sched h t k w = Ok w' ->
  stk_locks t k = stk_locks t (stack w t) -> wfs t (SRet false :: k) ->
  role_of k = roleof w t ->
  (match k with YRel :: _ => state w t = RUNNABLE | ASwake _ :: _ => state w t = SLEEP | _ => False end) ->
  inv w' q.
Proof.
  intros I C E EL W ER K. unfold sched in E.
  case_bool_decide as O; [|done]. case_decide as NR; [done|]. simpl in E.
  destruct (intr_get (cpu_of w h)) eqn:SI; [done|].
  destruct (Z.eqb_spec (c_noff (cpu_of w h)) 1) as [N|]; [|done]. injection E as <-.
  destruct (i_lk _ I h) as ([ND Hl] & NL & _). rewrite (hart_locks_cur _ _ _ C) in *.
  assert (LT : stk_locks t (stack w t) = [LTask t]).
  { apply perm_singleton; [by apply Hl|]. unfold cpu_of in N. lia. }
  set (w' := set_cur _ _).
  assert (CH : w_cur w' h = None) by (simpl; by upd_simpl).
  assert (CN : forall j, j <> h -> w_cur w' j = w_cur w j) by (intros; simpl; by upd_simpl).
  assert (SE : forall u, state w' u = state w u) by (intros; unfold state; simpl; by upd_cases).
  assert (PE : forall u, t_pid (w_task w' u) = t_pid (w_task w u)) by (intros; simpl; by upd_cases).
  assert (NE : forall r, node w' r = node w r) by (intros []; simpl; by upd_cases).
  assert (KE : stack w' t = SRet (c_intena (cpu_of w h)) :: k) by (unfold stack; simpl; by upd_simpl).
  assert (KN : forall u, u <> t -> stack w' u = stack w u) by (intros; unfold stack; simpl; by upd_simpl).
  assert (TE : forall u, t_hartid (w_task w' u) = t_hartid (w_task w u)) by (intros; simpl; by upd_cases).
  assert (RE : forall u, roleof w' u = roleof w u).
  { intros u. unfold roleof, stack; simpl. upd_cases; [exact ER|done]. }
  assert (HL : forall j, hart_locks w' j = hart_locks w j).
  { intros j. unfold hart_locks. destruct (decide (j = h)) as [->|Nj].
    - rewrite CH, C, LT. simpl. by rewrite (i_cur _ I _ _ C).
    - rewrite CN by done. destruct (w_cur w j) as [u|] eqn:Cj; [|done].
      unfold stack; simpl. upd_cases; [|done]. by rewrite (i_one _ I _ _ _ C Cj) in Nj. }
  apply (inv_ext w); try done; [|by intros; rewrite SE..]. constructor.
  - apply (i_tp _ I).
  - eapply lk_inv_ext; [apply (i_lk _ I)|done].
  - apply (i_ts _ I).
  - intros j u Cj. destruct (decide (j = h)) as [->|Nj]; [congruence|].
    rewrite CN in Cj by done. by apply (i_cur _ I).
  - intros j j' u Cj Cj'. destruct (decide (j = h)) as [->|Nj]; [congruence|].
    destruct (decide (j' = h)) as [->|Nj']; [congruence|]. rewrite CN in * by done.
    by eapply (i_one _ I).
  - intros u. rewrite SE. destruct (decide (u = t)) as [->|Nu].
    + right. split.
      { intros j Cj. destruct (decide (j = h)) as [->|Nj]; [congruence|].
        rewrite CN in Cj by done. by rewrite (i_one _ I _ _ _ C Cj) in Nj. }
      right. rewrite KE. split; [done|]. split; [by rewrite <- LT, <- EL|]. destruct k as [|[] k']; try done. by right.
    + rewrite KN, TE by done.
      destruct (i_where _ I u) as [(j & Cj & ?)|[Nj ?]]; [left|right].
      * exists j. rewrite CN; [done|]. intros ->. congruence.
      * split; [|done]. intros j Cj. destruct (decide (j = h)) as [->|]; [by rewrite CH in Cj|].
        rewrite CN in Cj by done. by apply (Nj j).
Qed.

(** ** [yield], [first_ret], the end of [sched] and of an interrupt *)
Lemma yield_change_inv w q h t k :
  inv w q -> w_cur w h = Some t -> stack w t = YBody :: k -> state w t = RUNNING ->
  inv (jump t (YSch :: k) (with_task t (set_state RUNNABLE) w)) q.
Proof.
  intros I C E S. destruct (cur_info _ _ I _ _ C) as (_ & W & _). rewrite E in W.
  set (w' := jump _ _ _).
  assert (M : moved w w' t RUNNABLE (YSch :: k)).
  { constructor; by_upd. }
  destruct (hart_locks_moved _ _ _ _ _ _ _ I M C) as [Eh Ek].
  eapply inv_move; try done; [by rewrite S|by_upd| |].
  - eapply lk_inv_ext; [apply (i_lk _ I)|]. intros j.
    destruct (decide (j = h)) as [->|]; [|by apply Ek].
    rewrite Eh. unfold hart_locks. by rewrite C, E.
  - replace (role_of (YSch :: k)) with (roleof w t); [by auto|]. unfold roleof. by rewrite E.
Qed.

Lemma ret_inv w q h t b k :
  inv w q -> w_cur w h = Some t -> stack w t = SRet b :: k ->
  inv (jump t k (with_cpu h (set_intena b) (set_wtp (upd (w_tp w) h h) w))) q.
Proof.
  intros I C E. destruct (cur_info _ _ I _ _ C) as (H & W & R). rewrite E in W, R.
  destruct W as [W Hk]. set (w' := jump _ _ _).
  assert (M : moved w w' t (state w t) k).
  { constructor; by_upd. by rewrite (i_tp _ I). }
  destruct (hart_locks_moved _ _ _ _ _ _ _ I M C) as [Eh Ek].
  eapply inv_move; try done; [by_upd|..].
  - simpl. eapply with_cpu_ok; [|done|].
    + eapply lk_inv_ext; [apply (i_lk _ I)|]. intros j.
      destruct (decide (j = h)) as [->|]; [|by apply Ek].
      rewrite Eh. unfold hart_locks. by rewrite C, E.
    + intros NE. apply (i_lk _ I h). rewrite Eh in NE. by rewrite (hart_locks_cur _ _ _ C), E.
  - rewrite R. by destruct k as [|[] ?].
  - replace (role_of k) with (roleof w t); [by auto|]. unfold roleof. by rewrite E.
Qed.

Lemma yield_step_inv w q h t f k w' :
  inv w q -> w_cur w h = Some t -> stack w t = f :: k ->
  yield_step h h t f k w = Some (Ok w') -> inv w' q.
Proof.
  intros I C E S. destruct (cur_info _ _ I _ _ C) as (H & W & R). rewrite E in W, R.
  assert (Same : forall k', base k' = base (f :: k) -> role_change w q t (roleof w t) (role_of k')).
  { intros k' B. replace (role_of k') with (roleof w t); [by auto|].
    unfold roleof, role_of. by rewrite E, B. }
  assert (EL : stk_locks t (stack w t) = fr_locks t f ++ stk_locks t k) by (by rewrite E).
  destruct f; try discriminate S; simpl in S, W, R.
  - step_ok S. subst k. eapply inv_release; try done; [by rewrite EL|split; [done|]|by apply Same].
    by apply Forall_nil.
  - step_ok S. destruct W as [W L].
    eapply (inv_jump_cpu w q h t (intr_on (cpu_of w h)) k); try done.
    + by rewrite EL.
    + rewrite R. destruct k as [|[] ?]; try done; exfalso; rewrite stk_locks_cons in L;
        by simpl in L.
    + by apply Same.
  - step_ok S. eapply inv_acquire; try done; [by rewrite EL|by apply Same].
  - case_decide as D; step_ok S; [by eapply yield_change_inv|done].
  - injection S as S. eapply sched_inv; try done; first [by rewrite EL | unfold roleof; by rewrite E].
  - step_ok S. destruct W as [W Hk]. eapply inv_release; try done; [by rewrite EL| |by apply Same].
    rewrite R. by destruct k as [|[] ?].
  - step_ok S. rewrite upd_eq, H. by apply ret_inv.
Qed.

(** ** The code outside the modelled functions, and interrupts *)
Lemma inv_lk w q a : inv w q -> (forall h, c_ts (a_cpu a h) = c_ts (cpu_of w h)) ->
  lk_inv a (hart_locks w) -> inv (set_wlk a w) q.
Proof.
  intros I T L. apply (inv_ext w); try done. destruct (i_s _ _ I) as [? ? Ts].
  constructor; try assumption. intros h. transitivity (c_ts (cpu_of w h)); [apply T|apply Ts].
Qed.

Lemma inv_cpu w q h c : inv w q -> c_ts c = c_ts (cpu_of w h) -> c_noff c = c_noff (cpu_of w h) ->
  (hart_locks w h <> [] -> c_sie c = false) -> inv (with_cpu h (fun _ => c) w) q.
Proof.
  intros I T N S. apply inv_lk; [done| |].
  - intros k. simpl. by upd_cases.
  - by apply with_cpu_ok; [apply (i_lk _ I)|..].
Qed.

Lemma filter_out (x : lock) held : NoDup held -> x ∈ held ->
  held ≡ₚ x :: filter (fun y => y <> x) held.
Proof.
  intros ND X. apply NoDup_Permutation; [done| |].
  - apply list.NoDup_cons. split; [|by apply list.NoDup_filter]. rewrite list_elem_of_filter. tauto.
  - intros y. rewrite elem_of_cons, list_elem_of_filter. destruct (decide (y = x)); naive_solver.
Qed.

Lemma run_step_inv w q h t held k c w' :
  inv w q -> w_cur w h = Some t -> stack w t = FRun held :: k ->
  run_step h t held k c w = Some (Ok w') -> inv w' q.
Proof.
  intros I C E S. destruct (cur_info _ _ I _ _ C) as (H & W & R). rewrite E in W, R.
  destruct W as [-> AC]. simpl in R.
  assert (EL : stk_locks t (stack w t) = held) by (rewrite E; apply app_nil_r).
  assert (RN : roleof w t = RNone) by (unfold roleof; by rewrite E).
  assert (RC : role_change w q t (roleof w t) RNone) by (rewrite <- RN; auto).
  destruct c; simpl in S; try discriminate S.
  - step_ok S. eapply inv_jump; try done. by rewrite E.
  - step_ok S. eapply inv_jump; try done. by rewrite E.
  - step_ok S. eapply inv_jump; try done. by rewrite E.
  - destruct (client_lock x) eqn:CL; [|done]. step_ok S. eapply inv_acquire; try done.
    + by rewrite EL; cbn; rewrite app_nil_r.
    + split; [done|]. by apply Forall_cons_iff.
  - destruct (client_lock x) eqn:CL; [|done]. step_ok S.
    assert (X : x ∈ held).
    { unfold release, release_atomic in S. destruct (a_owner (w_lk w) x) as [o|] eqn:O; [|done].
      destruct (pop_off _); try done. destruct (Nat.eqb_spec o h) as [->|]; [|done].
      rewrite <- EL, <- (hart_locks_cur _ _ _ C). by apply (i_lk _ I h). }
    eapply inv_release; try done.
    + rewrite EL. cbn. rewrite app_nil_r. apply filter_out; [|done].
      rewrite <- EL, <- (hart_locks_cur _ _ _ C). apply (i_lk _ I h).
    + split; [done|]. apply list.Forall_forall. intros y [_ Y]%list_elem_of_filter.
      by eapply list.Forall_forall in AC.
  - destruct held; [|done]. step_ok S. apply inv_cpu; try done.
    by rewrite (hart_locks_cur _ _ _ C), EL.
  - step_ok S. by apply inv_cpu.
Qed.

Lemma irq_inv w q h t :
  inv w q -> w_cur w h = Some t -> intr_get (cpu_of w h) = true ->
  inv (jump t (YAcq :: FIrq :: stack w t) (with_cpu h intr_off w)) q.
Proof.
  intros I C SI. destruct (cur_info _ _ I _ _ C) as (H & W & R).
  destruct (i_lk _ I h) as (_ & _ & S). rewrite (hart_locks_cur _ _ _ C) in S.
  assert (L : stk_locks t (stack w t) = []).
  { destruct (stk_locks t (stack w t)); [done|]. unfold intr_get, cpu_of in SI.
    rewrite S in SI; done. }
  eapply (inv_jump_cpu w q h t (intr_off (cpu_of w h))); try done.
  - simpl. destruct (stack w t) as [|[] ?]; done.
  - apply rc_same; auto.
Qed.

(** ** [scheduler] *)

(** The scheduler of [h] goes to [f]; only the spinlocks change besides. *)
Record smoved (w w' : world) (h : nat) (f : sframe) : Prop := {
  sm_tp : w_tp w' = w_tp w;
  sm_cur : w_cur w' = w_cur w;
  sm_sched : w_sched w' = upd (w_sched w) h f;
  sm_task : w_task w' = w_task w;
  sm_slk : w_slk w' = w_slk w;
  sm_ts k : k <> h -> c_ts (cpu_of w' k) = c_ts (cpu_of w k);
  sm_ts_h : c_ts (cpu_of w' h) = match f with SBack t => Some t | _ => None end }.

Lemma smoved_locks w w' h f : smoved w w' h f -> w_cur w h = None ->
  hart_locks w' h = sched_locks f /\ forall k, k <> h -> hart_locks w' k = hart_locks w k.
Proof.
  intros M C. unfold hart_locks, stack.
  rewrite (sm_cur _ _ _ _ M), (sm_sched _ _ _ _ M), (sm_task _ _ _ _ M), C.
  upd_simpl. split; [done|]. intros k N. by upd_simpl.
Qed.

Lemma inv_smove w w' q h f : inv w q -> w_cur w h = None -> smoved w w' h f ->
  lk_inv (w_lk w') (hart_locks w') -> inv w' q.
Proof.
  intros I C M L. apply (inv_ext w); try done.
  - constructor; unfold state, stack in *;
      rewrite ?(sm_tp _ _ _ _ M), ?(sm_cur _ _ _ _ M), ?(sm_sched _ _ _ _ M), ?(sm_task _ _ _ _ M);
      try done; try apply I.
    + intros k. destruct (decide (k = h)) as [->|N]; upd_simpl.
      * apply (sm_ts_h _ _ _ _ M).
      * rewrite (sm_ts _ _ _ _ M) by done. apply (i_ts _ I).
    + intros k t Ck. destruct (decide (k = h)) as [->|N]; [congruence|]. upd_simpl.
      by apply (i_cur _ I).
  - intros u. by rewrite (sm_task _ _ _ _ M).
  - intros u. unfold state. by rewrite (sm_task _ _ _ _ M).
  - intros u. unfold state. by rewrite (sm_task _ _ _ _ M).
  - intros u. unfold roleof, stack. by rewrite (sm_task _ _ _ _ M).
  - intros []; simpl; by rewrite ?(sm_slk _ _ _ _ M), ?(sm_task _ _ _ _ M).
  - intros l. by rewrite (sm_slk _ _ _ _ M).
Qed.

(** a task that is switched out and runnable goes on hart [h] *)
Lemma dispatch_inv w q h i found w' :
  inv w q -> w_cur w h = None -> w_sched w h = SChk i found -> state w i = RUNNABLE ->
  w' = set_cur (upd (w_cur w) h (Some i)) (sjump h (SBack i)
         (with_task i (set_hartid h) (with_cpu h (set_ts (Some i))
         (with_task i (set_state RUNNING) w)))) ->
  inv w' q.
Proof.
  intros I C F S ->. set (w' := set_cur _ _).
  assert (LH : LTask i ∈ hart_locks w h).
  { unfold hart_locks. rewrite C, F. in_list. }
  destruct (i_where _ I i) as [(j & Cj & _ & _ & R)|[Nj [[S' _]|[W [LS SV]]]]]; [|congruence|].
  { exfalso. assert (X : LTask i ∈ hart_locks w j).
    { rewrite (hart_locks_cur _ _ _ Cj). rewrite S in R.
      destruct (stack w i) as [|[] ?]; try discriminate R; in_list. }
    pose proof (lk_inv_unique _ _ _ _ _ (i_lk _ I) LH X) as ->. congruence. }
  assert (CH : w_cur w' h = Some i) by (simpl; by upd_simpl).
  assert (CN : forall j, j <> h -> w_cur w' j = w_cur w j) by (intros; simpl; by upd_simpl).
  assert (SI : state w' i = RUNNING) by (unfold state; simpl; by upd_simpl).
  assert (SN : forall u, u <> i -> state w' u = state w u) by (intros; unfold state; simpl; by upd_simpl).
  assert (KE : forall u, stack w' u = stack w u) by (intros; unfold stack; simpl; by upd_cases).
  assert (RE : forall u, roleof w' u = roleof w u) by (intros; unfold roleof; by rewrite KE).
  assert (PE : forall u, t_pid (w_task w' u) = t_pid (w_task w u)) by (intros; simpl; by upd_cases).
  assert (NE : forall r, node w' r = node w r) by (intros []; simpl; by upd_cases).
  assert (ES : forall u, state w' u = SLEEP <-> state w u = SLEEP).
  { intros u. destruct (decide (u = i)) as [->|N]; [|by rewrite SN]. rewrite SI, S. done. }
  assert (EI : forall u, state w' u = INITLIZED <-> state w u = INITLIZED).
  { intros u. destruct (decide (u = i)) as [->|N]; [|by rewrite SN]. rewrite SI, S. done. }
  apply (inv_ext w); try done. constructor.
  - apply (i_tp _ I).
  - apply with_cpu_ok; [|done|].
    + eapply lk_inv_ext; [apply (i_lk _ I)|]. intros j. unfold hart_locks.
      destruct (decide (j = h)) as [->|N].
      * rewrite CH, KE, LS, C, F. done.
      * rewrite CN by done. destruct (w_cur w j); [by rewrite KE|]. simpl. by upd_simpl.
    + intros NN. apply (i_lk _ I h). intros EE. rewrite EE in LH. by apply elem_of_nil in LH.
  - intros j. unfold cpu_of; simpl. destruct (decide (j = h)) as [->|N]; upd_simpl; [done|].
    apply (i_ts _ I).
  - intros j t Cj. simpl. destruct (decide (j = h)) as [->|N]; upd_simpl; [congruence|].
    rewrite CN in Cj by done. by apply (i_cur _ I).
  - intros j k t Cj Ck. destruct (decide (j = h)) as [->|N1], (decide (k = h)) as [->|N2]; try done.
    + rewrite CN in Ck by done. rewrite CH in Cj. injection Cj as <-. by destruct (Nj k).
    + rewrite CN in Cj by done. rewrite CH in Ck. injection Ck as <-. by destruct (Nj j).
    + rewrite !CN in * by done. by eapply (i_one _ I).
  - intros u. rewrite KE. destruct (decide (u = i)) as [->|N].
    + left. exists h. split_and!; [done|simpl; by upd_simpl|done|]. rewrite SI.
      destruct (stack w i) as [|[] ?]; done.
    + rewrite SN by done. destruct (i_where _ I u) as [(j & Cj & ?)|[Nu ?]]; [left|right].
      * exists j. rewrite CN; [|intros ->; congruence]. simpl. by upd_simpl.
      * split; [|done]. intros j. destruct (decide (j = h)) as [->|]; [rewrite CH|by rewrite CN].
        congruence.
Qed.

Lemma inv_sjump w q h f a : inv w q -> w_cur w h = None ->
  (forall k, k <> h -> c_ts (a_cpu a k) = c_ts (cpu_of w k)) ->
  c_ts (a_cpu a h) = match f with SBack t => Some t | _ => None end ->
  (forall hl, hl h = sched_locks f -> (forall k, k <> h -> hl k = hart_locks w k) -> lk_inv a hl) ->
  inv (sjump h f (set_wlk a w)) q.
Proof.
  intros I C T Th L. assert (M : smoved w (sjump h f (set_wlk a w)) h f) by done.
  destruct (smoved_locks _ _ _ _ M C) as [Eh Ek]. eapply inv_smove; try done. by apply L.
Qed.

(** hart [h] keeps the locks it has *)
Lemma lk_same w q h a ls : inv w q -> lk_inv a (hart_locks w) -> hart_locks w h = ls ->
  forall hl, hl h = ls -> (forall k, k <> h -> hl k = hart_locks w k) -> lk_inv a hl.
Proof.
  intros I L E hl Eh Ek. eapply lk_inv_ext; [exact L|]. intros k.
  destruct (decide (k = h)) as [->|]; [congruence|auto].
Qed.

Lemma set_wlk_id w : set_wlk (w_lk w) w = w.
Proof. by destruct w. Qed.

Lemma scheduler_step_inv w q h w' :
  inv w q -> w_cur w h = None -> scheduler_step h w = Some (Ok w') -> inv w' q.
Proof.
  intros I C S. unfold scheduler_step in S. rewrite (i_tp _ I) in S.
  pose proof (i_ts _ I h) as T. assert (HL : hart_locks w h = sched_locks (w_sched w h)).
  { unfold hart_locks. by rewrite C. }
  destruct (w_sched w h) as [i found|i found|i found|i|] eqn:F; simpl in HL.
  - assert (J : forall f, sched_locks f = [] -> (match f with SBack t => Some t | _ => None end) = None ->
              inv (sjump h f w) q).
    { intros f Ef Tf. rewrite <- (set_wlk_id w) at 1. apply inv_sjump; try done; [by rewrite Tf|].
      rewrite Ef. by eapply lk_same; [|apply (i_lk _ I)|]. }
    step_ok S. destruct (i <? NTASKS)%nat; [case_decide; by apply J|]. destruct found; [by apply J|].
    apply (inv_sjump w q h SWfi); try done; [intros; simpl; by upd_simpl|simpl; by upd_simpl|].
    eapply lk_same; [done| |by rewrite HL]. apply with_cpu_ok; [apply (i_lk _ I)|done|by rewrite HL].
  - step_ok S. unfold acquire in S. case_decide; [done|].
    destruct (acquire_atomic h (LTask i) (w_lk w)) as [a|] eqn:E; [|done]. injection S as <-.
    destruct (acquire_ok _ _ _ _ _ (i_lk _ I) E) as (_ & Ta & L).
    apply inv_sjump; try done. { by rewrite Ta. }
    intros hl Eh Ek. apply L; [|done]. by rewrite Eh, HL.
  - case_decide as D; [injection S as <-; by eapply dispatch_inv|]. step_ok S. unfold release in S.
    destruct (release_ok _ _ h (LTask i) (i_lk _ I)) as (a & E & Ta & L); [rewrite HL; in_list|].
    rewrite E in S. injection S as <-. apply inv_sjump; try done. { by rewrite Ta. }
    intros hl Eh Ek. apply L; [|done]. by rewrite Eh, HL.
  - step_ok S. set (b := set_ts None (cpu_of w h)) in *.
    assert (LI : lk_inv (mkAst (a_owner (w_lk w)) (upd (a_cpu (w_lk w)) h (set_ts None (cpu_of w h))))
                        (hart_locks w)).
    { apply with_cpu_ok; [apply (i_lk _ I)|done|]. intros NE. by apply (i_lk _ I h). }
    destruct (release_ok _ _ h (LTask i) LI) as (a & E & Ta & L); [rewrite HL; in_list|].
    unfold release in S. simpl in S. unfold cpu_of in E. unfold cpu_of in S. rewrite E in S.
    injection S as <-. apply (inv_sjump w q h (SScan (S i) true) a); try done.
    + intros k N. rewrite Ta. simpl. by upd_simpl.
    + rewrite Ta. simpl. by upd_simpl.
    + intros hl Eh Ek. apply L; [|done]. by rewrite Eh, HL.
  - step_ok S. apply (inv_sjump w q h (SScan 0 false)); try done;
      [intros; simpl; by upd_simpl|simpl; by upd_simpl|].
    eapply lk_same; [done| |by rewrite HL]. apply with_cpu_ok; [apply (i_lk _ I)|done|by rewrite HL].
Qed.
