(* ===== verification/SchedSleep.v ===== *)
(** The steps of [acquire_sleep] and [_release_sleep_proto] preserve the
    invariant of SchedInv: the doubly linked wait queue as a list, and one
    lemma per step that changes it or wakes a task. *)
From stdpp Require Import base list option.
From Stdlib Require Import ZArith Lia.
From S2P Require Import Prelude Spinlock Sched SchedInv SchedSteps.
Open Scope Z_scope.

#[local] Hint Resolve same_kind_refl rc_same : core.

(** ** The wait queue as a list *)

(** A chain depends on the forward links of all its nodes but the last and on
    the backward links of all but the first. *)
Lemma chain_ext_on w w' a q z :
  (forall r, r = a \/ (exists u, u ∈ q /\ r = NNode u) -> nxt w' r = nxt w r) ->
  (forall r, r = z \/ (exists u, u ∈ q /\ r = NNode u) -> prv w' r = prv w r) ->
  (forall u, u ∈ q -> wn_task (t_node (w_task w' u)) = wn_task (t_node (w_task w u))) ->
  chain w a q z -> chain w' a q z.
Proof.
  revert a. induction q as [|u q IH]; intros a N P T; simpl.
  - rewrite N, P by auto. done.
  - assert (U : u ∈ u :: q) by in_list.
    intros (? & ? & ? & C). rewrite N, P, T by eauto. split_and!; try done.
    apply IH; try done.
    + intros r [->|(v & V & ->)]; apply N; right; [by exists u|exists v]. split; [by apply elem_of_cons; right|done].
    + intros r [->|(v & V & ->)]; apply P; [by left|right; exists v]. split; [by apply elem_of_cons; right|done].
    + intros v V. apply T. by apply elem_of_cons; right.
Qed.

(** the node before the end *)
Lemma chain_prv w a q z : chain w a q z ->
  prv w z = match list.last q with Some u => NNode u | None => a end.
Proof.
  revert a. induction q as [|u q IH]; intros a; [by intros [_ ?]|].
  simpl. intros (_ & _ & _ & C). rewrite (IH _ C). destruct q as [|v q]; [done|].
  change (list.last (u :: v :: q)) with (list.last (v :: q)).
  destruct (list.last (v :: q)) eqn:E; [done|]. by apply last_None in E.
Qed.

(** What an assignment to a node changes. *)
Record nodes_only (w w' : world) : Prop := {
  no_lk : w_lk w' = w_lk w;
  no_tp : w_tp w' = w_tp w;
  no_cur : w_cur w' = w_cur w;
  no_sched : w_sched w' = w_sched w;
  no_task u : t_state (w_task w' u) = t_state (w_task w u) /\ t_pid (w_task w' u) = t_pid (w_task w u)
              /\ t_hartid (w_task w' u) = t_hartid (w_task w u) /\ t_stk (w_task w' u) = t_stk (w_task w u);
  no_slk l : sl_locked (w_slk w' l) = sl_locked (w_slk w l) /\ sl_holder (w_slk w' l) = sl_holder (w_slk w l) }.

Lemma nodes_only_trans w1 w2 w3 : nodes_only w1 w2 -> nodes_only w2 w3 -> nodes_only w1 w3.
Proof.
  intros [A1 A2 A3 A4 A5 A6] [B1 B2 B3 B4 B5 B6]. constructor; try congruence.
  - intros u. destruct (A5 u) as (? & ? & ? & ?), (B5 u) as (? & ? & ? & ?). split_and!; congruence.
  - intros l. destruct (A6 l), (B6 l). split; congruence.
Qed.

Definition ntask (w : world) (u : nat) : option nat := wn_task (t_node (w_task w u)).

Lemma set_next_ok r v w : r <> NNull -> exists w', with_node r (set_next v) w = Ok w' /\ nodes_only w w'
  /\ (forall s, nxt w' s = if decide (s = r) then v else nxt w s)
  /\ (forall s, prv w' s = prv w s) /\ (forall u, ntask w' u = ntask w u).
Proof.
  intros N. destruct r as [|l|t]; [done|..]; (eexists; split; [reflexivity|]); split_and!;
    try (constructor; try done; by_upd); unfold nxt, prv, ntask; by_upd.
Qed.
Lemma set_prev_ok r v w : r <> NNull -> exists w', with_node r (set_prev v) w = Ok w' /\ nodes_only w w'
  /\ (forall s, prv w' s = if decide (s = r) then v else prv w s)
  /\ (forall s, nxt w' s = nxt w s) /\ (forall u, ntask w' u = ntask w u).
Proof.
  intros N. destruct r as [|l|t]; [done|..]; (eexists; split; [reflexivity|]); split_and!;
    try (constructor; try done; by_upd); unfold nxt, prv, ntask; by_upd.
Qed.
Lemma set_ntask_ok t v w : exists w', with_node (NNode t) (set_ntask v) w = Ok w' /\ nodes_only w w'
  /\ (forall s, prv w' s = prv w s) /\ (forall s, nxt w' s = nxt w s)
  /\ (forall u, ntask w' u = if decide (u = t) then v else ntask w u).
Proof.
  eexists; split; [reflexivity|]. split_and!; try (constructor; try done; by_upd);
    unfold nxt, prv, ntask; by_upd.
Qed.

(** ** Insertion and removal *)

(** the links after [t] was put between [tail] and the sentinel of [l] *)
Definition linked_last (w w' : world) (l t : nat) (tail : nref) : Prop :=
  (forall r, nxt w' r = if decide (r = NNode t) then NHead l
                        else if decide (r = tail) then NNode t else nxt w r) /\
  (forall r, prv w' r = if decide (r = NHead l) then NNode t
                        else if decide (r = NNode t) then tail else prv w r) /\
  (forall u, ntask w' u = if decide (u = t) then Some t else ntask w u).

Lemma chain_snoc w w' a q l t : chain w a q (NHead l) -> linked_last w w' l t (prv w (NHead l)) ->
  NoDup q -> t ∉ q -> a <> NNode t -> (forall u, u ∈ q -> a <> NNode u) ->
  chain w' a (q ++ [t]) (NHead l).
Proof.
  intros Ch (Nx & Pv & Tk). revert a Ch. induction q as [|u q IH]; intros a Ch ND Nt At Aq.
  - destruct Ch as [Ca Cz]. rewrite Cz in *. simpl. fold (ntask w' t).
    rewrite Tk, !Nx, !Pv. repeat (case_decide; try done).
  - pose proof (chain_prv _ _ _ _ Ch) as Lz. destruct Ch as (Ca & Cu & Cn & Ch).
    apply list.NoDup_cons in ND as [Nu ND]. rewrite elem_of_cons in Nt.
    assert (a <> prv w (NHead l)).
    { rewrite Lz. destruct (list.last (u :: q)) as [v|] eqn:E; [|by apply last_None in E].
      apply Aq. by apply last_Some_elem_of. }
    simpl. fold (ntask w' u). rewrite Tk, Nx, Pv.
    rewrite !decide_False by (try done; naive_solver). split_and!; try done.
    apply IH; try done; naive_solver.
Qed.

Lemma enqueue_ok w l q t : dll w l q -> t ∉ q ->
  exists w', enqueue t l w = Ok w' /\ nodes_only w w' /\ dll w' l (q ++ [t]) /\
    (forall l' q', l' <> l -> dll w l' q' -> t ∉ q' -> (forall u, u ∈ q -> u ∉ q') -> dll w' l' q') /\
    (forall l', l' <> l \/ q <> [] -> nxt w' (NHead l') = nxt w (NHead l')).
Proof.
  intros [ND Ch] Nt. unfold enqueue.
  destruct (set_ntask_ok t (Some t) w) as (w1 & -> & O1 & P1 & N1 & T1). cbn [rbind].
  set (tail := wn_prev (sl_queue (w_slk w1 l))).
  assert (Tl : tail = match list.last q with Some u => NNode u | None => NHead l end).
  { rewrite <- (chain_prv _ _ _ _ Ch), <- P1. done. }
  assert (Tq : forall u, tail = NNode u -> u ∈ q).
  { intros u. rewrite Tl. destruct (list.last q) eqn:E; [|done]. intros [= ->].
    by apply last_Some_elem_of. }
  assert (Tn : tail <> NNull) by (rewrite Tl; by destruct (list.last q)).
  destruct (set_next_ok tail (NNode t) w1 Tn) as (w2 & -> & O2 & N2 & P2 & T2). cbn [rbind].
  destruct (set_prev_ok (NNode t) tail w2) as (w3 & -> & O3 & P3 & N3 & T3); [done|]. cbn [rbind].
  destruct (set_next_ok (NNode t) (NHead l) w3) as (w4 & -> & O4 & N4 & P4 & T4); [done|]. cbn [rbind].
  destruct (set_prev_ok (NHead l) (NNode t) w4) as (w5 & -> & O5 & P5 & N5 & T5); [done|].
  exists w5. split; [done|]. split; [eauto using nodes_only_trans|].
  assert (LL : linked_last w w5 l t tail).
  { split_and!.
    - intros r. rewrite N5, N4. case_decide; [done|]. rewrite N3, N2. case_decide; [done|]. apply N1.
    - intros r. rewrite P5. case_decide; [done|]. rewrite P4, P3. case_decide; [done|].
      by rewrite P2, P1.
    - intros u. by rewrite T5, T4, T3, T2, T1. }
  assert (Tp : tail = prv w (NHead l)) by (by rewrite Tl, (chain_prv _ _ _ _ Ch)).
  clear - ND Ch Nt Tl Tq Tp LL. split_and!.
  - split; [|rewrite Tp in LL; by eapply chain_snoc].
    apply list.NoDup_app. split_and!; [done| |apply NoDup_singleton].
    intros u U X. apply list_elem_of_singleton in X as ->. done.
  - intros l' q' Nl [ND' Ch'] Nt' Dj. split; [done|]. destruct LL as (Nx & Pv & Tk).
    eapply chain_ext_on; [..|exact Ch'].
    + intros r [->|(v & V & ->)]; rewrite Nx, !decide_False; try done; try congruence.
      * rewrite Tl. destruct (list.last q); congruence.
      * intros E. symmetry in E. apply Tq in E. by eapply Dj.
    + intros r [->|(v & V & ->)]; rewrite Pv, !decide_False; try done; congruence.
    + intros v V. fold (ntask w5 v). rewrite Tk, decide_False; [done|congruence].
  - intros l' H. destruct LL as (Nx & _). rewrite Nx, !decide_False; try done.
    rewrite Tl. destruct (list.last q) eqn:E; [done|]. apply last_None in E as ->. naive_solver.
Qed.

Lemma node_links w r n : node w r = Some n -> wn_next n = nxt w r /\ wn_prev n = prv w r.
Proof. unfold nxt, prv. by intros ->. Qed.

Lemma qunlink_ok w l u q : dll w l (u :: q) ->
  exists w', unlink (NNode u) w = Ok w' /\ nodes_only w w' /\ dll w' l q /\
    (forall v, ntask w' v = ntask w v) /\
    nxt w' (NHead l) = nxt w (NNode u) /\
    (forall l' q', l' <> l -> dll w l' q' -> (forall v, v ∈ u :: q -> v ∉ q') -> dll w' l' q') /\
    (forall l', l' <> l -> nxt w' (NHead l') = nxt w (NHead l')).
Proof.
  intros [ND (Ca & Cu & Cn & Ch)]. unfold unlink. cbn [node].
  destruct (node_links w (NNode u) (t_node (w_task w u)) eq_refl) as [En Ep].
  rewrite En, Ep, Cu. set (nx := nxt w (NNode u)).
  assert (Nx : nx = match q with [] => NHead l | v :: _ => NNode v end).
  { destruct q as [|v q]; simpl in Ch; apply Ch. }
  destruct (set_next_ok (NHead l) nx w) as (w1 & -> & O1 & N1 & P1 & T1); [done|]. cbn [rbind].
  destruct (node_links w1 (NNode u) (t_node (w_task w1 u)) eq_refl) as [En1 Ep1].
  rewrite En1, Ep1, P1, Cu, N1, decide_False by done. fold nx.
  destruct (set_prev_ok nx (NHead l) w1) as (w2 & -> & O2 & P2 & N2 & T2); [by rewrite Nx; destruct q|].
  exists w2. split; [done|]. split; [eauto using nodes_only_trans|].
  apply list.NoDup_cons in ND as [Nu ND].
  assert (N' : forall r, nxt w2 r = if decide (r = NHead l) then nx else nxt w r).
  { intros r. by rewrite N2, N1. }
  assert (P' : forall r, prv w2 r = if decide (r = nx) then NHead l else prv w r).
  { intros r. by rewrite P2, P1. }
  assert (T' : forall v, ntask w2 v = ntask w v) by (intros v; by rewrite T2, T1).
  clear - Ca Cu Cn Ch Nx Nu ND N' P' T'. split_and!; auto.
  - split; [done|]. destruct q as [|v q]; simpl in Ch |- *.
    + rewrite N', P', Nx. rewrite !decide_True; done.
    + destruct Ch as (C1 & C2 & C3 & Ch). rewrite N', P', Nx, !decide_True by done.
      fold (ntask w2 v). rewrite T'. split_and!; try done.
      apply list.NoDup_cons in ND as [Nv ND].
      eapply chain_ext_on; [..|exact Ch].
      * intros r [->|(x & X & ->)]; by rewrite N', decide_False.
      * intros r [->|(x & X & ->)]; rewrite P', Nx, decide_False; try done. by intros [= ->].
      * intros x X. apply T'.
  - by rewrite N', decide_True.
  - intros l' q' Nl [ND' Ch'] Dj. split; [done|]. eapply chain_ext_on; [..|exact Ch'].
    + intros r [->|(x & X & ->)]; rewrite N', decide_False; try done; congruence.
    + intros r [->|(x & X & ->)]; rewrite P', decide_False; try done; rewrite Nx;
        destruct q as [|v q]; try done; [congruence|]. intros [= ->]. eapply (Dj v); [|done].
      in_list.
    + intros x X. apply T'.
  - intros l' Nl. rewrite N', decide_False; [done|congruence].
Qed.

(** the sentinel points to itself exactly when nobody waits *)
Lemma dll_empty w l q : dll w l q -> nxt w (NHead l) = NHead l <-> q = [].
Proof. intros [_ C]. destruct q as [|u q]; simpl in C; [by destruct C|]. destruct C as (-> & _). done. Qed.
Lemma dll_head w l u q : dll w l (u :: q) -> nxt w (NHead l) = NNode u /\ ntask w u = Some u.
Proof. intros [_ (? & _ & ? & _)]. done. Qed.

(** ** [slk->locked] and [slk->holder] *)
Lemma set_slk_inv w q l b pid : inv w q -> (b = true <-> pid <> 0) ->
  (forall u b', role_lock (roleof w u) = Some (l, b') -> b = b') ->
  (q l <> [] -> b = true \/ exists u, supports w u l) ->
  inv (with_slk l (fun s => mkSleep b pid (sl_queue s)) w) q.
Proof.
  intros I B RL Wk. set (w' := with_slk _ _ _).
  assert (NE : forall r, node w' r = node w r) by by_upd.
  constructor; try apply I.
  - destruct (i_s _ _ I). constructor; assumption.
  - intros l'. simpl. upd_cases; [done|]. apply (i_holder _ _ I).
  - intros u l' b'. simpl. upd_cases; [apply (RL u)|]. apply (i_busy _ _ I).
  - intros l'. destruct (i_dll _ _ I l') as [ND Ch]. split; [done|]. by eapply qchain_ext.
  - intros u l' p. unfold nxt. rewrite NE. apply (i_next _ _ I).
  - intros l' X. simpl. upd_cases; [auto|]. apply (i_wake _ _ I l' X).
Qed.

(** ** [acquire_sleep] *)

(** a move followed by assignments to queue nodes is a move *)
Lemma moved_nodes w w1 w' t st k1 k' :
  moved w w1 t st k1 -> nodes_only w1 w' -> moved w (jump t k' w') t st k'.
Proof.
  intros [M1 M2 M3 M4 M5 M6 M7 M8] [O1 O2 O3 O4 O5 O6].
  constructor; unfold cpu_of, state, stack in *; simpl.
  - intros x. by rewrite O2.
  - congruence.
  - congruence.
  - intros x. by rewrite O1.
  - intros x. destruct (O5 x) as (_ & P & _). rewrite <- M5. by upd_cases.
  - intros x. destruct (O5 x) as (_ & _ & P & _). rewrite <- M6. by upd_cases.
  - intros x. destruct (O5 x) as (P & _). rewrite <- M7. by upd_cases.
  - intros x. destruct (O5 x) as (_ & _ & _ & P). case_decide; [subst; by upd_simpl|]. upd_simpl.
    rewrite P, M8. by rewrite decide_False.
Qed.

Lemma enqueue_inv w q h t l k w' : inv w q -> w_cur w h = Some t -> stack w t = ASenq l :: k ->
  enqueue t l (with_task t (set_state SLEEP) w) = Ok w' ->
  inv (jump t (ASrel l :: k) w') (upd q l (q l ++ [t])).
Proof.
  intros I C E Q. destruct (cur_info _ _ I _ _ C) as (H & W & R). rewrite E in W, R. simpl in R.
  set (w1 := with_task t (set_state SLEEP) w) in *.
  assert (NT : forall l', t ∉ q l') by (intros l' [S _]%(i_q _ _ I); congruence).
  assert (D1 : forall l', dll w1 l' (q l')).
  { intros l'. destruct (i_dll _ _ I l') as [ND Ch]. split; [done|]. eapply qchain_ext; [|exact Ch].
    by_upd. }
  assert (BL : sl_locked (w_slk w l) = true).
  { apply (i_busy _ _ I t l). unfold roleof. by rewrite E. }
  assert (Dj : forall l' u, l' <> l -> u ∈ q l -> u ∉ q l').
  { intros l' u N U U'. apply (i_q _ _ I) in U as [_ U], U' as [_ U']. congruence. }
  destruct (enqueue_ok w1 l (q l) t (D1 l) (NT l)) as (w2 & Q' & O & Dl & Dn & Hn).
  rewrite Q in Q'. injection Q' as <-. set (w2 := jump _ _ _).
  assert (M : moved w w2 t SLEEP (ASrel l :: k)).
  { apply (moved_nodes w w1 w' t SLEEP (stack w t)); [constructor; by_upd|done]. }
  destruct (hart_locks_moved _ _ _ _ _ _ _ I M C) as [Eh Ek].
  assert (NE : forall r, node w2 r = node w' r) by by_upd.
  assert (NX : forall l', nxt w2 (NHead l') = nxt w' (NHead l')) by (intros; unfold nxt; by rewrite NE).
  assert (RT : roleof w2 t = Sleeper l) by (apply (moved_role_eq _ _ _ _ _ M)).
  assert (ST : state w2 t = SLEEP) by (apply (moved_state_eq _ _ _ _ _ M)).
  assert (RB : roleof w t = Busy l) by (unfold roleof; by rewrite E).
  pose proof (moved_role_ne _ _ _ _ _ M) as RN. pose proof (moved_state_ne _ _ _ _ _ M) as SN.
  assert (HR : forall u l' v n, roleof w2 u = Hand l' v n <-> roleof w u = Hand l' v n).
  { intros u l' v n. destruct (decide (u = t)) as [->|N]; [|by rewrite RN]. by rewrite RT, RB. }
  assert (EI : forall u, state w2 u = INITLIZED <-> state w u = INITLIZED).
  { intros u. destruct (decide (u = t)) as [->|N]; [by rewrite ST, R|by rewrite SN]. }
  assert (SL : forall l', sl_locked (w_slk w2 l') = sl_locked (w_slk w l')
                          /\ sl_holder (w_slk w2 l') = sl_holder (w_slk w l')).
  { intros l'. apply (no_slk _ _ O l'). }
  constructor.
  - eapply sinv_move; try done. change (w_lk w2) with (w_lk w'). rewrite (no_lk _ _ O).
    eapply lk_inv_ext; [apply (i_lk _ I)|]. intros j. destruct (decide (j = h)) as [->|]; [|auto].
    by rewrite Eh, (hart_locks_cur _ _ _ C), E.
  - intros u. rewrite EI, (mv_pid _ _ _ _ _ M). apply (i_pid _ _ I).
  - intros u v. rewrite !EI, !(mv_pid _ _ _ _ _ M). apply (i_pid_inj _ _ I).
  - intros l'. destruct (SL l') as [-> ->]. apply (i_holder _ _ I).
  - intros u l' b. destruct (SL l') as [-> _]. destruct (decide (u = t)) as [->|N]; [by rewrite RT|].
    rewrite RN by done. apply (i_busy _ _ I).
  - intros l'. assert (X : dll w' l' (upd q l (q l ++ [t]) l')).
    { destruct (decide (l' = l)) as [->|N]; upd_simpl; [done|]. apply Dn; auto. }
    destruct X as [ND Ch]. split; [done|]. by eapply qchain_ext.
  - intros l' u U. assert (X : u = t /\ l' = l \/ u ∈ q l').
    { revert U. upd_cases; [|by auto]. rewrite elem_of_app, list_elem_of_singleton. tauto. }
    destruct X as [[-> ->]|X]; [done|]. assert (N : u <> t) by (intros ->; by apply (NT l')).
    rewrite SN, RN by done. by apply (i_q _ _ I).
  - intros u S. destruct (decide (u = t)) as [->|N].
    + exists l. split; [done|]. left. upd_simpl. apply elem_of_app. right. by apply list_elem_of_singleton.
    + rewrite SN in S by done. destruct (i_sleep _ _ I u S) as (l' & E' & X). exists l'.
      rewrite RN by done. split; [done|]. destruct X as [X|(v & n & X)]; [left|right; exists v, n; by apply HR].
      upd_cases; [apply elem_of_app; by left|done].
  - intros u l' v n X. apply HR in X. destruct (i_hand _ _ I _ _ _ _ X) as (S & E' & NQ).
    assert (N : v <> t) by congruence. rewrite SN, RN by done. split_and!; try done.
    upd_cases; [|done]. rewrite elem_of_app, list_elem_of_singleton. tauto.
  - intros u l' p X. destruct (decide (u = t)) as [->|N]; [by rewrite RT in X|].
    rewrite RN in X by done. rewrite NX, Hn; [by eapply (i_next _ _ I)|].
    left. intros ->. apply N. eapply (sleep_owner_unique _ _ I u t l).
    + apply (lock_role_owner _ _ I). by destruct (roleof w u) as [| | | | |? []|? ? []|? []]; simplify_eq/=.
    + rewrite E. in_list.
  - intros l' X. destruct (SL l') as [-> _]. destruct (decide (l' = l)) as [->|N]; [by left|].
    rewrite upd_ne in X by done. destruct (i_wake _ _ I l' X) as [|[u S]]; [by left|right; exists u].
    unfold supports in *. destruct (decide (u = t)) as [->|Nu]; [by rewrite RB in S|].
    by rewrite RN, SN.
Qed.

(** a change between the roles that need no argument about the queue *)
Ltac set_plain :=
  apply rc_plain; [congruence|done|done|intros ? ? X; cbn in X; simplify_eq; auto
                  |intros ? X; cbn in X; try done; intros; cbn; subst; auto].

(** a task that saw the lock free under its spinlock takes it *)
Lemma take_inv w q h t l k :
  inv w q -> w_cur w h = Some t -> stack w t = ASset l :: k ->
  inv (jump t (ASend l :: k)
         (with_slk l (fun s => mkSleep true (t_pid (w_task w t)) (sl_queue s)) w)) q.
Proof.
  intros I C E. destruct (cur_info _ _ I _ _ C) as (H & W & R). rewrite E in W, R. simpl in R.
  assert (ER : roleof w t = Setter l) by (unfold roleof; by rewrite E).
  set (wA := jump t (ASwhile l :: k) w).
  assert (IA : inv wA q).
  { eapply inv_jump; try done; [by rewrite E|]. rewrite ER. set_plain. }
  assert (CA : w_cur wA h = Some t) by done.
  assert (KA : stack wA t = ASwhile l :: k) by (unfold stack; simpl; by upd_simpl).
  set (wB := with_slk l (fun s => mkSleep true (t_pid (w_task w t)) (sl_queue s)) wA).
  assert (IB : inv wB q).
  { apply set_slk_inv; [done| | |by left].
    - split; [|done]. intros _. apply (i_pid _ _ I). by rewrite R.
    - intros u b X. exfalso. assert (u = t).
      { eapply (sleep_owner_unique _ _ IA u t l); [|rewrite KA; in_list].
        apply (lock_role_owner _ _ IA). by destruct (roleof wA u); simplify_eq/=. }
      subst u. unfold roleof in X. by rewrite KA in X. }
  assert (CB : w_cur wB h = Some t) by done.
  set (w' := jump _ _ _).
  assert (M : moved wB w' t (state wB t) (ASend l :: k)) by (constructor; by_upd).
  destruct (hart_locks_moved _ _ _ _ _ _ _ IB M CB) as [Eh Ek].
  assert (KB : stack wB t = ASwhile l :: k) by (unfold stack; simpl; by upd_simpl).
  assert (SB : state wB t = RUNNING) by (unfold state; simpl; by upd_simpl).
  eapply inv_move; try done; [by_upd|..].
  - eapply lk_inv_ext; [apply (i_lk _ IB)|]. intros j. destruct (decide (j = h)) as [->|]; [|auto].
    by rewrite Eh, (hart_locks_cur _ _ _ CB), KB.
  - unfold roleof. rewrite KB. apply rc_plain; try done; [congruence|].
    intros l' X _. cbn in X. subst l'. left. simpl. by upd_simpl.
Qed.

(** ** [_release_sleep_proto] *)

(** the first waiting task is taken out of the queue *)
Lemma unlink_inv w q h t l u q0 f nxt0 k w' :
  inv w q -> w_cur w h = Some t -> stack w t = f :: k -> q l = u :: q0 ->
  (exists p, frame_role f = Waker l p) -> nxt0 = None \/ nxt0 = Some (nxt w (NNode u)) ->
  unlink (NNode u) w = Ok w' ->
  inv (jump t (RSlk l u nxt0 :: k) w') (upd q l q0).
Proof.
  intros I C E Eq [p0 Rf] Hn0 Q. destruct (cur_info _ _ I _ _ C) as (H & W & R). rewrite E in W, R.
  assert (RW : roleof w t = Waker l p0).
  { unfold roleof. rewrite E. by destruct f. }
  assert (Lt : LSleep l ∈ stk_locks t (stack w t)) by (apply (lock_role_owner _ _ I); by rewrite RW).
  pose proof (i_dll _ _ I l) as D. rewrite Eq in D.
  destruct (qunlink_ok w l u q0 D) as (w1 & Q' & O & Dl & Tk & Nh & Dn & Hn).
  rewrite Q in Q'. injection Q' as <-.
  assert (Uq : u ∈ q l) by (rewrite Eq; in_list).
  assert (Sub : forall l' v, v ∈ upd q l q0 l' -> v ∈ q l').
  { intros l' v. upd_cases; [rewrite Eq; intros; by apply elem_of_cons; right|done]. }
  assert (NU : u ∉ q0) by (by destruct D as [[]%list.NoDup_cons _]).
  set (w2 := jump _ _ _).
  assert (M : moved w w2 t (state w t) (RSlk l u nxt0 :: k)).
  { apply (moved_nodes w w w' t (state w t) (stack w t)); [constructor; by_upd|done]. }
  destruct (hart_locks_moved _ _ _ _ _ _ _ I M C) as [Eh Ek].
  assert (NE : forall r, node w2 r = node w' r) by by_upd.
  assert (NX : forall l', nxt w2 (NHead l') = nxt w' (NHead l')) by (intros; unfold nxt; by rewrite NE).
  assert (RT : roleof w2 t = Hand l u nxt0) by (apply (moved_role_eq _ _ _ _ _ M)).
  pose proof (moved_role_ne _ _ _ _ _ M) as RN.
  assert (SE : forall v, state w2 v = state w v).
  { intros v. rewrite (mv_state _ _ _ _ _ M). by case_decide; [subst|]. }
  assert (SL : forall l', sl_locked (w_slk w2 l') = sl_locked (w_slk w l')
                          /\ sl_holder (w_slk w2 l') = sl_holder (w_slk w l')).
  { intros l'. apply (no_slk _ _ O l'). }
  assert (ST : state w t <> SLEEP).
  { intros S. destruct (i_sleep _ _ I t S) as (l' & X & _). congruence. }
  assert (Rv : forall v l', state w v = SLEEP -> roleof w v = Sleeper l' -> roleof w2 v = Sleeper l').
  { intros v l' S X. rewrite RN; [done|]. by intros ->. }
  constructor.
  - eapply sinv_move; try done.
    + change (w_lk w2) with (w_lk w'). rewrite (no_lk _ _ O).
      eapply lk_inv_ext; [apply (i_lk _ I)|]. intros j. destruct (decide (j = h)) as [->|]; [|auto].
      rewrite Eh, (hart_locks_cur _ _ _ C), E. by destruct f; simplify_eq/=.
    + by destruct f.
    + by destruct f.
  - intros v. rewrite SE, (mv_pid _ _ _ _ _ M). apply (i_pid _ _ I).
  - intros v v'. rewrite !SE, !(mv_pid _ _ _ _ _ M). apply (i_pid_inj _ _ I).
  - intros l'. destruct (SL l') as [-> ->]. apply (i_holder _ _ I).
  - intros v l' b. destruct (SL l') as [-> _]. destruct (decide (v = t)) as [->|N]; [by rewrite RT|].
    rewrite RN by done. apply (i_busy _ _ I).
  - intros l'. assert (X : dll w' l' (upd q l q0 l')).
    { destruct (decide (l' = l)) as [->|N]; upd_simpl; [done|].
      apply Dn; [done|apply (i_dll _ _ I)|]. rewrite <- Eq. intros v V V'.
      apply (i_q _ _ I) in V as [_ V], V' as [_ V']. congruence. }
    destruct X as [ND Ch]. split; [done|]. by eapply qchain_ext.
  - intros l' v V. destruct (i_q _ _ I l' v (Sub _ _ V)) as [S X]. rewrite SE. auto.
  - intros v S. rewrite SE in S. destruct (i_sleep _ _ I v S) as (l' & X & Y). exists l'.
    split; [by apply Rv|]. destruct Y as [Y|(x & n & Y)].
    + destruct (decide (l' = l)) as [->|N]; upd_simpl; [|by left].
      rewrite Eq in Y. apply elem_of_cons in Y as [->|Y]; [right; eauto|by left].
    + right. exists x, n. rewrite RN; [done|]. intros ->. congruence.
  - intros x l' v n X. rewrite SE. destruct (decide (x = t)) as [->|N].
    + rewrite RT in X. injection X as <- <- <-. destruct (i_q _ _ I l u Uq) as [S Y].
      upd_simpl. auto.
    + rewrite RN in X by done. destruct (i_hand _ _ I _ _ _ _ X) as (S & Y & NQ).
      split_and!; [done|by apply Rv|]. intros V. by apply NQ, Sub.
  - intros x l' p X. rewrite NX. destruct (decide (x = t)) as [->|N].
    + rewrite RT in X. destruct Hn0 as [->| ->]; [done|]. injection X as <- <-. by rewrite Nh.
    + rewrite RN in X by done. rewrite Hn; [by eapply (i_next _ _ I)|]. intros ->. apply N.
      eapply (sleep_owner_unique _ _ I x t l); [|done]. apply (lock_role_owner _ _ I).
      by destruct (roleof w x) as [| | | | |? []|? ? []|? []]; simplify_eq/=.
  - intros l' X. destruct (SL l') as [-> _]. destruct (decide (l' = l)) as [->|N].
    + right. exists t. unfold supports. by rewrite RT.
    + rewrite upd_ne in X by done. destruct (i_wake _ _ I l' X) as [|[x S]]; [by left|right; exists x].
      unfold supports in *. destruct (decide (x = t)) as [->|Nu]; [by rewrite RW in S; simpl in S; congruence|].
      by rewrite RN, SE.
Qed.

(** the task in hand becomes runnable *)
Lemma wake_inv w q h t l u n k :
  inv w q -> w_cur w h = Some t -> stack w t = RSrun l u n :: k ->
  inv (jump t (RSrel l u n :: k) (with_task u (set_state RUNNABLE) w)) q.
Proof.
  intros I C E. destruct (cur_info _ _ I _ _ C) as (H & W & R). rewrite E in W, R. simpl in R.
  assert (RH : roleof w t = Hand l u n) by (unfold roleof; by rewrite E).
  destruct (i_hand _ _ I _ _ _ _ RH) as (Su & Ru & Nu).
  assert (Ut : u <> t) by congruence.
  assert (LU : LTask u ∈ hart_locks w h) by (rewrite (hart_locks_cur _ _ _ C), E; in_list).
  assert (NC : forall j, w_cur w j <> Some u).
  { apply (sleeping_saved _ _ I h); [done..|]. intros t' C' ->. congruence. }
  set (w' := jump _ _ _).
  assert (ST : forall v, state w' v = if decide (v = u) then RUNNABLE else state w v) by by_upd.
  assert (KT : forall v, stack w' v = if decide (v = t) then RSrel l u n :: k else stack w v) by by_upd.
  assert (PE : forall v, t_pid (w_task w' v) = t_pid (w_task w v)) by by_upd.
  assert (HE : forall v, t_hartid (w_task w' v) = t_hartid (w_task w v)) by by_upd.
  assert (NE : forall r, node w' r = node w r) by by_upd.
  assert (RT : roleof w' t = Past l n) by (unfold roleof; rewrite KT; by rewrite decide_True).
  assert (RN : forall v, v <> t -> roleof w' v = roleof w v).
  { intros v N. unfold roleof. rewrite KT. by rewrite decide_False. }
  assert (SN : forall v, v <> u -> state w' v = state w v).
  { intros v N. rewrite ST. by rewrite decide_False. }
  assert (SU : state w' u = RUNNABLE) by (rewrite ST; by rewrite decide_True).
  assert (EI : forall v, state w' v = INITLIZED <-> state w v = INITLIZED).
  { intros v. rewrite ST. case_decide; [subst; by rewrite Su|done]. }
  assert (HU : forall x v n', roleof w x = Hand l v n' -> x = t).
  { intros x v n' X. eapply (sleep_owner_unique _ _ I x t l); apply (lock_role_owner _ _ I);
      [by rewrite X|by rewrite RH]. }
  constructor.
  - constructor; try apply I.
    + eapply lk_inv_ext; [apply (i_lk _ I)|]. intros j. unfold hart_locks.
      change (w_cur w') with (w_cur w). change (w_sched w') with (w_sched w).
      destruct (w_cur w j) as [v|]; [|done]. rewrite KT. case_decide; [subst; by rewrite E|done].
    + intros v. rewrite HE, KT. change (w_cur w') with (w_cur w). destruct (decide (v = t)) as [->|Nt].
      * left. exists h. rewrite SN by done. by rewrite R.
      * destruct (decide (v = u)) as [->|Nv]; [|rewrite SN by done; apply (i_where _ I)].
        right. split; [done|]. right. rewrite SU.
        destruct (i_where _ I u) as [(j & Cj & _)|[_ [[X _]|[Wu [Lu Sv]]]]]; [by destruct (NC j)|congruence|].
        split; [done|]. split; [done|].
        destruct (stack w u) as [|[] [|[] ?]]; try done. by left.
  - intros v. rewrite EI, PE. apply (i_pid _ _ I).
  - intros v v'. rewrite !EI, !PE. apply (i_pid_inj _ _ I).
  - apply (i_holder _ _ I).
  - intros v l' b. destruct (decide (v = t)) as [->|N]; [by rewrite RT|]. rewrite RN by done.
    apply (i_busy _ _ I).
  - intros l'. destruct (i_dll _ _ I l') as [ND Ch]. split; [done|]. by eapply qchain_ext.
  - intros l' v V. destruct (i_q _ _ I l' v V) as [S X].
    assert (v <> u) by (intros ->; congruence). assert (v <> t) by congruence.
    by rewrite SN, RN.
  - intros v S. assert (Nv : v <> u) by congruence. rewrite SN in S by done.
    destruct (i_sleep _ _ I v S) as (l' & X & Y). exists l'.
    assert (v <> t) by congruence. rewrite RN by done. split; [done|].
    destruct Y as [Y|(x & n' & Y)]; [by left|right; exists x, n']. rewrite RN; [done|].
    intros ->. congruence.
  - intros x l' v n' X. destruct (decide (x = t)) as [->|N]; [by rewrite RT in X|].
    rewrite RN in X by done. destruct (i_hand _ _ I _ _ _ _ X) as (S & Y & NQ).
    assert (v <> u). { intros ->. rewrite Ru in Y. injection Y as <-. by apply N, (HU x u n'). }
    assert (v <> t) by congruence. by rewrite SN, RN.
  - intros x l' p X. unfold nxt. rewrite NE. destruct (decide (x = t)) as [->|N].
    + apply (i_next _ _ I t). rewrite RH. by rewrite RT in X.
    + rewrite RN in X by done. by eapply (i_next _ _ I).
  - intros l' X. destruct (i_wake _ _ I l' X) as [|[x S]]; [by left|right].
    destruct (decide (x = t)) as [->|N].
    + exists u. unfold supports in *. rewrite RH in S. simpl in S. subst l'.
      by rewrite RN, Ru, SU by done.
    + exists x. unfold supports in *. rewrite RN by done.
      destruct (decide (x = u)) as [->|Nx]; [|by rewrite SN].
      rewrite Ru, Su in S. by destruct S.
Qed.

Lemma acquire_sleep_step_inv w q h t f k l w' :
  inv w q -> w_cur w h = Some t -> stack w t = f :: k -> kind_of f = KAcquire l ->
  acquire_sleep_step h t l f k w = Some (Ok w') -> exists q', inv w' q'.
Proof.
  intros I C E K S. destruct (cur_info _ _ I _ _ C) as (H & W & R). rewrite E in W, R.
  assert (EL : stk_locks t (stack w t) = fr_locks t f ++ stk_locks t k) by (by rewrite E).
  assert (ER : roleof w t = frame_role f) by (unfold roleof; rewrite E; by destruct f).
  destruct f; try discriminate K; injection K as ->; simpl in S, R, ER;
    try step_ok S;
    [exists q|exists q|exists q|exists q|exists (upd q l (q l ++ [t]))|exists q..].
  - eapply inv_acquire; try done; [by rewrite EL|]. rewrite ER. set_plain.
  - injection S as S. case_match; [done|]. injection S as <-. eapply inv_jump; try done.
    + by rewrite EL.
    + rewrite ER. set_plain.
  - destruct (sl_locked (w_slk w l)) eqn:Lk; eapply inv_jump; try done; try (by rewrite EL);
      rewrite ER; set_plain.
  - eapply inv_acquire; try done; [by rewrite EL|]. rewrite ER. set_plain.
    by apply (i_busy _ _ I t); rewrite ER.
  - by eapply enqueue_inv.
  - eapply inv_release; try done; [rewrite EL; apply Permutation_swap|]. rewrite ER.
    cbn. rewrite <- ER. auto.
  - injection S as S. eapply sched_inv; try done; by rewrite EL.
  - eapply inv_release; try done; [by rewrite EL|]. rewrite ER. set_plain. naive_solver.
  - eapply inv_acquire; try done; [by rewrite EL|]. cbn. rewrite <- ER. auto.
  - by eapply take_inv.
  - eapply inv_release; try done; [by rewrite EL|..].
    + destruct k as [|[] [|]]; done.
    + destruct k as [|[] [|]]; done.
    + rewrite ER. by destruct k as [|[] [|]].
Qed.

(** the owner gives the lock up and turns to the queue *)
Lemma give_inv w q h t l all k :
  inv w q -> w_cur w h = Some t -> stack w t = RSown l all :: k ->
  inv (jump t ((if all then RSall l (wn_next (sl_queue (w_slk w l))) else RSone l) :: k)
         (with_slk l (fun s => mkSleep false 0 (sl_queue s)) w)) q.
Proof.
  intros I C E. destruct (cur_info _ _ I _ _ C) as (H & W & R). rewrite E in W, R. simpl in R.
  assert (ER : roleof w t = RNone) by (unfold roleof; by rewrite E).
  set (f := if all then _ else _).
  assert (Rf : frame_role f = Waker l (if all then Some (nxt w (NHead l)) else None)) by (by destruct all).
  set (wA := jump t (f :: k) w).
  assert (KA : stack wA t = f :: k) by (unfold stack; simpl; by upd_simpl).
  assert (RA : roleof wA t = frame_role f).
  { unfold roleof, role_of. rewrite KA. by destruct all. }
  assert (IA : inv wA q).
  { eapply inv_jump; try done; [by rewrite E; destruct all|by destruct all|by destruct all|].
    rewrite ER. replace (role_of (f :: k)) with (frame_role f) by (by destruct all). rewrite Rf.
    constructor; try done; [congruence|]. intros l' p. destruct all; [|done]. by intros [= <- <-]. }
  apply (set_slk_inv wA q l false 0 IA); [done| |].
  - intros u b X. exfalso. assert (u = t).
    { eapply (sleep_owner_unique _ _ IA u t l); [|rewrite KA; destruct all; in_list].
      apply (lock_role_owner _ _ IA). by destruct (roleof wA u); simplify_eq/=. }
    subst u. rewrite RA, Rf in X. done.
  - intros _. right. exists t. unfold supports. by rewrite RA, Rf.
Qed.

Lemma remove_and_wake_inv w q h t l f n k w' :
  inv w q -> w_cur w h = Some t -> stack w t = f :: k -> (exists p, frame_role f = Waker l p) ->
  nxt w (NHead l) <> NHead l -> n = None \/ n = Some (nxt w (nxt w (NHead l))) ->
  remove_and_wake t l (nxt w (NHead l)) n k w = Ok w' -> exists q', inv w' q'.
Proof.
  intros I C E Rf NE Hn S. pose proof (i_dll _ _ I l) as D.
  destruct (q l) as [|u q0] eqn:Eq; [by destruct NE; apply (dll_empty w l [])|].
  destruct (dll_head _ _ _ _ D) as [Hu Tu]. rewrite Hu in *.
  destruct (qunlink_ok w l u q0 D) as (w1 & Q & _ & _ & Tk & _).
  unfold remove_and_wake in S. rewrite Q in S. cbn [rbind node] in S.
  specialize (Tk u). unfold ntask in Tk, Tu. rewrite Tk, Tu in S. injection S as <-.
  exists (upd q l q0). by eapply unlink_inv.
Qed.

Lemma last_woken_inv w q h t l f k w1 :
  inv w q -> w_cur w h = Some t -> stack w t = f :: k -> (exists p, frame_role f = Waker l p) ->
  nxt w (NHead l) = NHead l -> inv w1 q -> roleof w1 = roleof w -> stack w1 = stack w ->
  w_cur w1 = w_cur w -> (forall u, state w1 u = state w u) -> inv (jump t (RSend l :: k) w1) q.
Proof.
  intros I C E [p Rf] Hn I1 RE KE CE SE.
  destruct (cur_info _ _ I _ _ C) as (H & W & R). rewrite E in W, R.
  assert (Q : q l = []) by (by apply (dll_empty w l (q l)); [apply (i_dll _ _ I)|]).
  assert (ER : roleof w t = Waker l p) by (unfold roleof; rewrite E; by destruct f).
  eapply inv_jump; try done; [by rewrite CE| | | |].
  - rewrite KE, E. by destruct f; simplify_eq/=.
  - by destruct f.
  - rewrite SE. by destruct f.
  - rewrite RE, ER. constructor; try done.
    + rewrite SE. intros S. destruct (i_sleep _ _ I t S) as (? & ? & _). congruence.
    + intros l' X. simpl in X. subst l'. by rewrite Q.
Qed.

Lemma release_sleep_step_inv w q h t f k l w' :
  inv w q -> w_cur w h = Some t -> stack w t = f :: k -> kind_of f = KRelease l ->
  release_sleep_step h t l f k w = Some (Ok w') -> exists q', inv w' q'.
Proof.
  intros I C E K S. destruct (cur_info _ _ I _ _ C) as (H & W & R). rewrite E in W, R.
  assert (EL : stk_locks t (stack w t) = fr_locks t f ++ stk_locks t k) by (by rewrite E).
  assert (ER : roleof w t = frame_role f) by (unfold roleof; rewrite E; by destruct f).
  destruct f; try discriminate K; injection K as ->; simpl in S, R, ER.
  - exists q. step_ok S. eapply inv_acquire; try done; [by rewrite EL|]. rewrite ER. set_plain.
  - injection S as S. case_match; [|done]. injection S as <-. exists q. by eapply give_inv.
  - injection S as S. change (wn_next (sl_queue (w_slk w l))) with (nxt w (NHead l)) in S.
    case_decide as D; [|eapply (remove_and_wake_inv w q h t l (RSone l) None); eauto].
    injection S as <-. exists q. eapply (last_woken_inv w q h t l (RSone l)); eauto.
  - assert (pos = nxt w (NHead l)) as -> by (apply (i_next _ _ I t l); by rewrite ER).
    injection S as S. case_decide as D.
    + injection S as <-. exists q. destruct (i_dll _ _ I l) as [_ Ch']. rewrite (proj1 (dll_empty w l _ (i_dll _ _ I l)) D) in Ch'.
      destruct Ch' as [Hn Hp]. eapply (last_woken_inv w q h t l (RSall l (nxt w (NHead l)))); eauto.
      apply (inv_ext w); try done.
      * destruct (i_s _ _ I). constructor; assumption.
      * intros [|l'|u]; try done. simpl. upd_cases; [|done]. simpl. f_equal.
        unfold nxt, prv in Hn, Hp. simpl in Hn, Hp.
        destruct (sl_queue (w_slk w l)); simpl in *. by subst.
      * intros l'. simpl. upd_cases; [|done]. unfold nxt, prv in Hn, Hp. simpl in Hn, Hp.
        destruct (w_slk w l) as [? ? []]; simpl in *. by subst.
    + destruct (node w (nxt w (NHead l))) as [n|] eqn:Nn; [|done].
      destruct (node_links _ _ _ Nn) as [Ne _]. rewrite Ne in S.
      eapply (remove_and_wake_inv w q h t l (RSall l (nxt w (NHead l)))
               (Some (nxt w (nxt w (NHead l))))); eauto.
  - exists q. step_ok S. eapply inv_acquire; try done; [by rewrite EL|]. cbn. rewrite <- ER. auto.
  - step_ok S. exists q. by eapply wake_inv.
  - exists q. step_ok S. eapply inv_release; try done; [by rewrite EL; destruct nxt|..].
    + by destruct nxt.
    + by destruct nxt.
    + rewrite ER. destruct nxt as [p|]; [|set_plain]. constructor; try done; [congruence|].
      intros l' p' [= <- <-]. apply (i_next _ _ I t). by rewrite ER.
  - exists q. step_ok S. eapply inv_release; try done; [by rewrite EL|..].
    + destruct k as [|[] [|]]; done.
    + destruct k as [|[] [|]]; done.
    + rewrite ER. by destruct k as [|[] [|]].
Qed.
