(* ===== verification/SchedTheorems.v ===== *)
(** What the scheduler and the sleep locks (Sched) guarantee in every state
    that any interleaving of harts, interrupts and system calls can reach. *)
From stdpp Require Import base list option.
From Stdlib Require Import ZArith Lia.
From S2P Require Import Prelude Spinlock Sched SchedInv SchedSteps SchedSleep.
Open Scope Z_scope.

(** ** The invariant holds *)
Lemma boot_inv w : boot w -> inv w (fun _ => []).
Proof.
  intros B.
  assert (R : forall t, roleof w t = RNone).
  { intros t. unfold roleof. destruct (b_task _ B t) as [[_ ->]|[_ ->]]; done. }
  assert (HL : forall h, hart_locks w h = []).
  { intros h. unfold hart_locks. by rewrite (b_cur _ B), (b_sched _ B). }
  assert (NS : forall t, state w t <> SLEEP).
  { intros t. destruct (b_task _ B t) as [[-> _]|[-> _]]; done. }
  constructor; [constructor|..].
  - apply (b_tp _ B).
  - intros h. rewrite HL. destruct (b_cpu _ B h) as [N _]. split_and!; [|done|done].
    split; [apply NoDup_nil_2|]. intros x. fold (own w x). rewrite (b_lk _ B).
    split; [by intros X%elem_of_nil|done].
  - intros h. rewrite (b_sched _ B). apply (b_cpu _ B).
  - intros h t. by rewrite (b_cur _ B).
  - intros h k t. by rewrite (b_cur _ B).
  - intros t. right. split; [intros h; by rewrite (b_cur _ B)|].
    destruct (b_task _ B t) as [|[S K]]; [by left|right]. rewrite K. by split.
  - intros t S. apply (b_pid _ B). destruct (b_task _ B t) as [[? _]|[? _]]; done.
  - intros t u S S'. apply (b_pid_inj _ B); [destruct (b_task _ B t) as [[]|[]]
      |destruct (b_task _ B u) as [[]|[]]]; done.
  - intros l. by rewrite (b_slk _ B).
  - intros u l b. by rewrite R.
  - intros l. split; [apply NoDup_nil_2|]. unfold chain, nxt, prv. simpl. by rewrite (b_slk _ B).
  - intros l t X. by apply elem_of_nil in X.
  - intros t S. by destruct (NS t).
  - intros u l t n. by rewrite R.
  - intros u l p. by rewrite R.
  - done.
Qed.

Lemma hstep_inv w q h c w' : inv w q -> hstep h c w = Some (Ok w') -> exists q', inv w' q'.
Proof.
  intros I S. unfold hstep in S. destruct (w_cur w h) as [t|] eqn:C.
  - unfold task_step in S. rewrite (i_tp _ I) in S. destruct c; destruct (stack w t) as [|f k] eqn:K;
      try discriminate S.
    + destruct (kind_of f) eqn:F; try discriminate S.
      * exists q. by eapply yield_step_inv.
      * by eapply acquire_sleep_step_inv.
      * by eapply release_sleep_step_inv.
    + destruct (intr_get (cpu_of w h)) eqn:G; [|done]. injection S as <-.
      exists q. rewrite <- K. by apply irq_inv.
    + destruct (intr_get (cpu_of w h)) eqn:G; [|done]. injection S as <-.
      exists q. rewrite <- K. by apply irq_inv.
    + destruct f; try discriminate S. exists q. by eapply run_step_inv.
    + destruct f; try discriminate S. exists q. by eapply run_step_inv.
    + destruct f; try discriminate S. exists q. by eapply run_step_inv.
    + destruct f; try discriminate S. exists q. by eapply run_step_inv.
    + destruct f; try discriminate S. exists q. by eapply run_step_inv.
    + destruct f; try discriminate S. exists q. by eapply run_step_inv.
    + destruct f; try discriminate S. exists q. by eapply run_step_inv.
  - destruct c; try discriminate S. exists q. by eapply scheduler_step_inv.
Qed.

Lemma reach_inv w0 w : reach w0 w -> exists q, inv w q.
Proof.
  induction 1 as [B|w hw c w' R [q I] S]; [eexists; by apply boot_inv|]. by eapply hstep_inv.
Qed.

(** ** Scheduling *)

(** [C15] A task runs on at most one hart.  In every reachable state no two
    harts execute the same kernel stack; a hart's [tp] register and its
    [cpus[tp].ts] — what [get_cpu()] and [get_task()] return — are the hart
    itself and the task it executes; a task in state [RUNNING] is executed by
    a hart; and a task that a hart executes in another state holds its own
    [lk] on that hart, which keeps every other hart from scheduling it until it
    has switched out. *)
Theorem sched_exclusive w0 w : reach w0 w ->
  (forall h k t, w_cur w h = Some t -> w_cur w k = Some t -> h = k)
  /\ (forall h t, w_cur w h = Some t -> w_tp w h = h /\ c_ts (cpu_of w (w_tp w h)) = Some t)
  /\ (forall t, state w t = RUNNING -> exists h, w_cur w h = Some t)
  /\ (forall h t, w_cur w h = Some t -> state w t = RUNNING \/ own w (LTask t) = Some h).
Proof.
  intros R. destruct (reach_inv _ _ R) as [q I]. split_and!.
  - apply (i_one _ I).
  - intros h t C. rewrite !(i_tp _ I). split; [done|]. by rewrite (i_ts _ I), (i_cur _ I _ _ C).
  - intros t S. destruct (i_where _ I t) as [(h & C & _)|[_ [[S' _]|[_ [_ V]]]]]; [eauto|congruence|].
    rewrite S in V. destruct (stack w t) as [|[] [|[] ?]]; naive_solver.
  - intros h t C. destruct (cur_info _ _ I _ _ C) as (_ & _ & K).
    assert (X : state w t = RUNNING \/ LTask t ∈ hart_locks w h).
    { rewrite (hart_locks_cur _ _ _ C). destruct (stack w t) as [|[] ?]; try (by left); right; in_list. }
    destruct X as [|X]; [by left|right]. by apply (i_lk _ I h).
Qed.

(** ** Sleep locks *)

(** the holder of a sleep lock, as steps that do not concern it leave it *)
Definition same_holder (w w' : world) : Prop := forall l, sl_holder (w_slk w' l) = sl_holder (w_slk w l).

Lemma acquire_slk h x w w1 : acquire h x w = Some (Ok w1) -> w_slk w1 = w_slk w.
Proof. unfold acquire. case_decide; [done|]. case_match; [|done]. by intros [= <-]. Qed.
Lemma release_slk h x w w1 : release h x w = Ok w1 -> w_slk w1 = w_slk w.
Proof. unfold release. case_match; [|done]. by intros [= <-]. Qed.
Lemma with_node_holder r f w w1 : with_node r f w = Ok w1 -> same_holder w w1.
Proof. destruct r; [done|..]; intros [= <-] l'; simpl; [|done]. by upd_cases. Qed.

Lemma unlink_holder r w w1 : unlink r w = Ok w1 -> same_holder w w1.
Proof.
  unfold unlink. destruct (node w r) as [n|]; [|done].
  destruct (with_node _ _ w) as [w2| | |] eqn:E; try done. simpl.
  destruct (node w2 r) as [n'|]; [|done]. intros E2 l.
  by rewrite (with_node_holder _ _ _ _ E2), (with_node_holder _ _ _ _ E).
Qed.

Lemma enqueue_holder t l w w1 : enqueue t l w = Ok w1 -> same_holder w w1.
Proof.
  unfold enqueue. intros E l'.
  repeat match type of E with rbind ?m _ = _ =>
    let E' := fresh "E" in destruct m as [?w| | |] eqn:E'; cbn [rbind] in E; try done end.
  repeat match goal with H : with_node _ _ _ = Ok _ |- _ => apply with_node_holder in H end.
  congruence.
Qed.

(** close the cases of a step that keep the holders *)
Ltac keep_holder S :=
  repeat case_match; try discriminate S;
  first [ by injection S as <-
        | apply andthen_ok in S as (? & S & ->); apply acquire_slk in S; simpl; by rewrite S
        | injection S as S; apply rbind_ok in S as (? & S & ->); apply release_slk in S;
          simpl; by rewrite S ].

Lemma scheduler_holder h w w' : scheduler_step h w = Some (Ok w') -> same_holder w w'.
Proof. intros S l. unfold scheduler_step in S. keep_holder S. Qed.
Lemma yield_holder h hw t f k w w' : yield_step h hw t f k w = Some (Ok w') -> same_holder w w'.
Proof. intros S l. unfold yield_step, sched in S. keep_holder S. Qed.
Lemma run_holder h t held k c w w' : run_step h t held k c w = Some (Ok w') -> same_holder w w'.
Proof. intros S l. unfold run_step in S. keep_holder S. Qed.

Lemma acquire_sleep_holder h t l0 f k w w' l : kind_of f = KAcquire l0 ->
  acquire_sleep_step h t l0 f k w = Some (Ok w') ->
  sl_holder (w_slk w' l) = sl_holder (w_slk w l) \/
  f = ASset l /\ sl_holder (w_slk w' l) = t_pid (w_task w t).
Proof.
  intros K S. destruct f; try discriminate K; injection K as ->; simpl in S.
  5:{ left. step_ok S. simpl. apply enqueue_holder in S. by rewrite S. }
  9:{ step_ok S. simpl. upd_cases; [by right|by left]. }
  all: left; unfold sched in S; keep_holder S.
Qed.

Lemma remove_holder t l0 p n k w w' : remove_and_wake t l0 p n k w = Ok w' -> same_holder w w'.
Proof.
  unfold remove_and_wake. destruct (unlink p w) as [w1| | |] eqn:E; try done. simpl.
  repeat case_match; try done. intros [= <-] l. simpl. by rewrite (unlink_holder _ _ _ E).
Qed.

Lemma release_sleep_holder h t l0 f k w w' l : kind_of f = KRelease l0 ->
  release_sleep_step h t l0 f k w = Some (Ok w') ->
  sl_holder (w_slk w' l) = sl_holder (w_slk w l) \/
  (exists all, f = RSown l all) /\ sl_holder (w_slk w l) = t_pid (w_task w t)
  /\ sl_holder (w_slk w' l) = 0.
Proof.
  intros K S. destruct f; try discriminate K; injection K as ->; simpl in S.
  2:{ injection S as S. destruct (Z.eqb_spec (sl_holder (w_slk w l0)) (t_pid (w_task w t))); [|done].
      injection S as <-. simpl. upd_cases; [right; eauto|by left]. }
  2:{ left. injection S as S. case_decide; [by injection S as <-|]. exact (remove_holder _ _ _ _ _ _ _ S l). }
  2:{ left. injection S as S. case_decide; [injection S as <-; simpl; by upd_cases|].
      case_match; [|done]. exact (remove_holder _ _ _ _ _ _ _ S l). }
  all: left; keep_holder S.
Qed.

Lemma hstep_holder h c w w' l : hstep h c w = Some (Ok w') ->
  sl_holder (w_slk w' l) = sl_holder (w_slk w l) \/
  exists t k, w_cur w h = Some t /\
    (stack w t = ASset l :: k /\ sl_holder (w_slk w' l) = t_pid (w_task w t)
     \/ (exists all, stack w t = RSown l all :: k) /\ sl_holder (w_slk w l) = t_pid (w_task w t)
        /\ sl_holder (w_slk w' l) = 0).
Proof.
  intros S. unfold hstep in S. destruct (w_cur w h) as [t|] eqn:C.
  2:{ left. destruct c; try discriminate S. exact (scheduler_holder _ _ _ S l). }
  unfold task_step in S. destruct c, (stack w t) as [|f k] eqn:K; try discriminate S;
    try (left; destruct f; try discriminate S; exact (run_holder _ _ _ _ _ _ _ S l));
    try (left; case_match; [|done]; by injection S as <-).
  destruct (kind_of f) as [held| |l0|l0] eqn:F; [done|left; exact (yield_holder _ _ _ _ _ _ _ S l)|..].
  - destruct (acquire_sleep_holder _ _ _ _ _ _ _ l F S) as [|[-> ?]]; [by left|right].
    exists t, k. auto.
  - destruct (release_sleep_holder _ _ _ _ _ _ _ l F S) as [|[[all ->] ?]]; [by left|right].
    exists t, k. eauto 6.
Qed.

(** Sleep locks exclude each other.  In every reachable state two tasks
    never hold the same sleep lock (no two live tasks have the pid that its
    [holder] names), [locked] says whether there is a holder, and a step
    changes the holder only in two ways: from none to the task that is
    completing [acquire_sleep] under the lock's spinlock, or from the task that
    is executing [release_sleep] itself to none. *)
Theorem sleeplock_exclusive w0 w l : reach w0 w ->
  (forall t u, state w t <> INITLIZED -> state w u <> INITLIZED ->
     t_pid (w_task w t) = sl_holder (w_slk w l) -> t_pid (w_task w u) = sl_holder (w_slk w l) -> t = u)
  /\ (sl_locked (w_slk w l) = true <-> sl_holder (w_slk w l) <> 0)
  /\ (forall h c w', hstep h c w = Some (Ok w') ->
        sl_holder (w_slk w' l) <> sl_holder (w_slk w l) ->
        exists t k, w_cur w h = Some t /\ own w (LSleep l) = Some h /\
          (stack w t = ASset l :: k /\ sl_holder (w_slk w l) = 0
             /\ sl_holder (w_slk w' l) = t_pid (w_task w t)
           \/ (exists all, stack w t = RSown l all :: k) /\ sl_holder (w_slk w l) = t_pid (w_task w t)
             /\ sl_holder (w_slk w' l) = 0)).
Proof.
  intros R. destruct (reach_inv _ _ R) as [q I]. split_and!.
  - intros t u T U E E'. apply (i_pid_inj _ _ I); congruence.
  - apply (i_holder _ _ I).
  - intros h c w' S N. destruct (hstep_holder _ _ _ _ l S) as [|(t & k & C & X)]; [done|].
    exists t, k. split; [done|]. assert (O : LSleep l ∈ hart_locks w h).
    { rewrite (hart_locks_cur _ _ _ C). destruct X as [[-> _]|[[all ->] _]]; in_list. }
    split; [by apply (i_lk _ I h)|]. destruct X as [[K E]|X]; [left|by right].
    split_and!; [done| |done]. destruct (decide (sl_holder (w_slk w l) = 0)) as [|Z]; [done|].
    apply (i_holder _ _ I) in Z. rewrite (i_busy _ _ I t l false) in Z; [done|].
    unfold roleof. by rewrite K.
Qed.

(** [C8] No wake-up is lost.  In every reachable state a task in state [SLEEP]
    is waiting in [acquire_sleep] for some sleep lock, and either that lock is
    taken, or another task that is not asleep is about to test it again, about
    to take it, or is the releaser that is about to wake a waiting task.  (A
    lock that is free with nobody on the way would leave its waiters asleep for
    ever.) *)
Theorem no_lost_wakeup w0 w t : reach w0 w -> state w t = SLEEP ->
  exists l, roleof w t = Sleeper l /\
    (sl_locked (w_slk w l) = true \/ exists u, u <> t /\ state w u <> SLEEP /\ supports w u l).
Proof.
  intros R S. destruct (reach_inv _ _ R) as [q I]. destruct (i_sleep _ _ I t S) as (l & Rt & X).
  exists l. split; [done|]. assert (Y : sl_locked (w_slk w l) = true \/ exists u, supports w u l).
  { destruct X as [X|(u & n & X)].
    - apply (i_wake _ _ I). intros E. rewrite E in X. by apply elem_of_nil in X.
    - right. exists u. unfold supports. by rewrite X. }
  destruct Y as [|[u Y]]; [by left|right]. exists u. unfold supports in Y.
  assert (NS : state w u <> SLEEP).
  { intros Su. destruct (i_sleep _ _ I u Su) as (l' & Ru & _). rewrite Ru in Y. by destruct Y. }
  split_and!; [congruence|done|done].
Qed.

(** ** Panics *)

(** The calls that the code answers with a panic: taking a spinlock one
    holds, releasing one one does not hold; calling [yield], [acquire_sleep]
    or [release_sleep] with the task's own [lk] — or, for the last, with the
    [lk] of the task to be woken — already held; having to give up the hart
    while holding a spinlock; taking a sleep lock one holds, and releasing one
    one does not hold. *)
Definition misuse (w : world) (t : nat) (c : choice) : Prop :=
  match stack w t with
  | FRun held :: _ =>
      match c with CAcquire x => x ∈ held | CRelease x => x ∉ held | _ => False end
  | YAcq :: k | ASlk _ :: k => LTask t ∈ stk_locks t k
  | YSch :: k | ASsched _ :: k => stk_locks t k <> []
  | RSlk _ u _ :: k => LTask u ∈ stk_locks t k
  | ASown l :: _ => sl_holder (w_slk w l) = t_pid (w_task w t)
  | RSown l _ :: _ => sl_holder (w_slk w l) <> t_pid (w_task w t)
  | _ => False
  end.

Definition fine (P : Prop) (r : result world) : Prop := (exists w', r = Ok w') \/ r = Halt /\ P.

Section Panics.
Context (w : world) (q : nat -> list nat) (I : inv w q).

Lemma own_locks h x : own w x = Some h <-> x ∈ hart_locks w h.
Proof. symmetry. apply (i_lk _ I h). Qed.

Lemma acquire_fine h x f r P : andthen (acquire h x w) (okf f) = Some r ->
  (x ∈ hart_locks w h -> P) -> fine P r.
Proof.
  unfold acquire. intros E Hp. case_decide as D; simpl in E.
  - injection E as <-. right. split; [done|]. by apply Hp, own_locks.
  - destruct (acquire_atomic h x (w_lk w)); [|done]. injection E as <-. left. by eexists.
Qed.

Lemma release_fine h x f r P : Some (rbind (release h x w) (okf f)) = Some r ->
  (x ∉ hart_locks w h -> P) -> fine P r.
Proof.
  intros [= <-] Hp. destruct (decide (x ∈ hart_locks w h)) as [X|X].
  - destruct (release_succeeds _ _ _ _ I X) as [w1 ->]. left. by eexists.
  - right. split; [|auto]. unfold release, release_atomic.
    destruct (a_owner (w_lk w) x) as [o|] eqn:O; [|done].
    destruct (pop_off _); try done. destruct (Nat.eqb_spec o h) as [->|]; [|done].
    destruct X. by apply own_locks.
Qed.

Lemma sched_fine h t k f k0 P : w_cur w h = Some t -> stack w t = f :: k0 ->
  fr_locks t f = [LTask t] -> state w t <> RUNNING ->
  (stk_locks t k0 <> [] -> P) -> fine P (sched h t k w).
Proof.
  intros C E F St Hp. destruct (i_lk _ I h) as (_ & N & Sf).
  assert (HL : hart_locks w h = LTask t :: stk_locks t k0).
  { by rewrite (hart_locks_cur _ _ _ C), E, stk_locks_cons, F. }
  assert (O : own w (LTask t) = Some h) by (apply own_locks; rewrite HL; in_list).
  rewrite HL in N, Sf. unfold sched. rewrite bool_decide_true by done. simpl.
  rewrite decide_False by done. unfold intr_get, cpu_of. rewrite Sf by done. rewrite N.
  destruct (stk_locks t k0) as [|x ls]; [left; by eexists|]. right.
  split; [|by apply Hp]. simpl length.
  destruct (Z.eqb_spec (Z.of_nat (S (S (length ls)))) 1); [lia|done].
Qed.

Section Current.
Context (h t : nat) (f : frame) (k : list frame) (C : w_cur w h = Some t) (K : stack w t = f :: k).

Lemma locks_here : hart_locks w h = fr_locks t f ++ stk_locks t k.
Proof. by rewrite (hart_locks_cur _ _ _ C), K. Qed.

(** a lock its own frame has taken can be released *)
Lemma release_own x g r P : x ∈ fr_locks t f ->
  Some (rbind (release h x w) (okf g)) = Some r -> fine P r.
Proof.
  intros X E. eapply release_fine; [done|]. intros N. destruct N. rewrite locks_here.
  apply elem_of_app. by left.
Qed.

(** a lock its own frame does not hold can be taken unless the caller holds it *)
Lemma acquire_own x g r P : x ∉ fr_locks t f -> (x ∈ stk_locks t k -> P) ->
  andthen (acquire h x w) (okf g) = Some r -> fine P r.
Proof.
  intros N Hp E. eapply acquire_fine; [done|]. rewrite locks_here, elem_of_app. tauto.
Qed.

(** the spinlock of a sleep lock is never on a caller's list *)
Lemma client_locks l : (exists l', kind_of f = KAcquire l' \/ kind_of f = KRelease l') ->
  LSleep l ∉ stk_locks t k.
Proof.
  intros [l' F] X. destruct (cur_info _ _ I _ _ C) as (_ & W & _). rewrite K in W.
  assert (Y : exists held, k = [FRun held] /\ all_client held).
  { clear X C K. destruct f; try (by destruct F); simpl in W; destruct k as [|[] [|]]; try done; eauto. }
  destruct Y as (held & -> & A). cbn in X. rewrite app_nil_r in X.
  unfold all_client in A. rewrite list.Forall_forall in A. by apply A in X.
Qed.

End Current.

Lemma yield_fine h t f k r : w_cur w h = Some t -> stack w t = f :: k ->
  yield_step h h t f k w = Some r -> fine (misuse w t CGo) r.
Proof.
  intros C K S. destruct (cur_info _ _ I _ _ C) as (_ & _ & R). rewrite K in R. unfold misuse. rewrite K.
  destruct f; try discriminate S; simpl in S, R.
  - eapply (release_own _ _ _ _ C K); [|done]. in_list.
  - injection S as <-. left. by eexists.
  - eapply (acquire_own _ _ _ _ C K); [|done..]. by intros X%elem_of_nil.
  - rewrite decide_True in S by done. injection S as <-. left. by eexists.
  - injection S as <-. eapply sched_fine; try done. by rewrite R.
  - eapply (release_own _ _ _ _ C K); [|done]. in_list.
  - injection S as <-. left. by eexists.
Qed.

Lemma enqueue_fine h t k l : w_cur w h = Some t -> stack w t = ASenq l :: k ->
  exists w', enqueue t l (with_task t (set_state SLEEP) w) = Ok w'.
Proof.
  intros C K. destruct (cur_info _ _ I _ _ C) as (_ & _ & R). rewrite K in R. simpl in R.
  destruct (enqueue_ok (with_task t (set_state SLEEP) w) l (q l) t) as (w' & E & _); [| |by eauto].
  - destruct (i_dll _ _ I l) as [ND Ch]. split; [done|]. eapply qchain_ext; [|exact Ch]. by_upd.
  - intros [S _]%(i_q _ _ I). congruence.
Qed.

Lemma acquire_sleep_fine h t f k l r : w_cur w h = Some t -> stack w t = f :: k -> kind_of f = KAcquire l ->
  acquire_sleep_step h t l f k w = Some r -> fine (misuse w t CGo) r.
Proof.
  intros C K F S. pose proof (client_locks _ _ _ _ C K l (ex_intro _ l (or_introl F))) as NL.
  destruct (cur_info _ _ I _ _ C) as (_ & _ & R). rewrite K in R. unfold misuse. rewrite K.
  destruct f; try discriminate F; injection F as ->; simpl in S, R.
  - eapply (acquire_own _ _ _ _ C K); [by intros X%elem_of_nil| |done]. done.
  - destruct (Z.eqb_spec (sl_holder (w_slk w l)) (t_pid (w_task w t))) as [|N]; injection S as <-;
      [by right|left; by eexists].
  - injection S as <-. left. by eexists.
  - eapply (acquire_own _ _ _ _ C K); [|done..]. cbn. rewrite elem_of_cons, elem_of_nil. naive_solver.
  - injection S as <-. destruct (enqueue_fine _ _ _ _ C K) as [w' ->]. left. by eexists.
  - eapply (release_own _ _ _ _ C K); [|done]. in_list.
  - injection S as <-. eapply sched_fine; try done. by rewrite R.
  - eapply (release_own _ _ _ _ C K); [|done]. in_list.
  - eapply (acquire_own _ _ _ _ C K); [by intros X%elem_of_nil| |done]. done.
  - injection S as <-. left. by eexists.
  - eapply (release_own _ _ _ _ C K); [|done]. in_list.
Qed.

Lemma remove_fine t l n k P : nxt w (NHead l) <> NHead l ->
  fine P (remove_and_wake t l (nxt w (NHead l)) n k w).
Proof.
  intros NE. pose proof (i_dll _ _ I l) as D.
  destruct (q l) as [|u q0] eqn:Eq; [by destruct NE; apply (dll_empty w l [])|].
  destruct (dll_head _ _ _ _ D) as [Hu Tu]. rewrite Hu.
  destruct (qunlink_ok w l u q0 D) as (w1 & Q & _ & _ & Tk & _).
  unfold remove_and_wake. rewrite Q. cbn [rbind node].
  specialize (Tk u). unfold ntask in Tk, Tu. rewrite Tk, Tu. left. by eexists.
Qed.

Lemma release_sleep_fine h t f k l r : w_cur w h = Some t -> stack w t = f :: k ->
  kind_of f = KRelease l -> release_sleep_step h t l f k w = Some r -> fine (misuse w t CGo) r.
Proof.
  intros C K F S. pose proof (client_locks _ _ _ _ C K l (ex_intro _ l (or_intror F))) as NL.
  destruct (cur_info _ _ I _ _ C) as (_ & _ & R). rewrite K in R. unfold misuse. rewrite K.
  assert (ER : roleof w t = frame_role f) by (unfold roleof; rewrite K; by destruct f).
  destruct f; try discriminate F; injection F as ->; simpl in S, R.
  - eapply (acquire_own _ _ _ _ C K); [by intros X%elem_of_nil| |done]. done.
  - destruct (Z.eqb_spec (sl_holder (w_slk w l)) (t_pid (w_task w t))) as [|N]; injection S as <-;
      [left; by eexists|by right].
  - injection S as <-. case_decide; [left; by eexists|]. by apply remove_fine.
  - injection S as <-. assert (pos = nxt w (NHead l)) as -> by (apply (i_next _ _ I t l); by rewrite ER).
    case_decide as D; [left; by eexists|]. pose proof (i_dll _ _ I l) as DL.
    destruct (q l) as [|u q0]; [by destruct D; apply (dll_empty w l [])|].
    destruct (dll_head _ _ _ _ DL) as [Hu _]. rewrite Hu at 1. cbn [node]. by apply remove_fine.
  - eapply (acquire_own _ _ _ _ C K); [|done..]. cbn. rewrite elem_of_cons, elem_of_nil. naive_solver.
  - injection S as <-. left. by eexists.
  - eapply (release_own _ _ _ _ C K); [|done]. in_list.
  - eapply (release_own _ _ _ _ C K); [|done]. in_list.
Qed.

Lemma run_fine h t held k c r : w_cur w h = Some t -> stack w t = FRun held :: k ->
  run_step h t held k c w = Some r -> fine (misuse w t c) r.
Proof.
  intros C K S. destruct (cur_info _ _ I _ _ C) as (_ & W & _). rewrite K in W. destruct W as [-> _].
  pose proof (locks_here _ _ _ _ C K) as HL. cbn in HL. rewrite app_nil_r in HL.
  unfold misuse. rewrite K. destruct c; simpl in S; try discriminate S;
    try (injection S as <-; left; by eexists).
  - case_match; [|done]. eapply acquire_fine; [done|]. by rewrite HL.
  - case_match; [|done]. eapply release_fine; [done|]. by rewrite HL.
  - case_match; [|done]. injection S as <-. left. by eexists.
Qed.

Lemma task_fine h t c r : w_cur w h = Some t -> task_step h t c w = Some r -> fine (misuse w t c) r.
Proof.
  intros C S. unfold task_step in S. rewrite (i_tp _ I) in S.
  destruct c; destruct (stack w t) as [|f k] eqn:K; try discriminate S;
    try (destruct f; try discriminate S; by eapply run_fine);
    try (case_match; [|done]; injection S as <-; left; by eexists).
  destruct (kind_of f) eqn:F; try discriminate S;
    eauto using yield_fine, acquire_sleep_fine, release_sleep_fine.
Qed.

Lemma scheduler_fine h r : w_cur w h = None -> scheduler_step h w = Some r -> fine False r.
Proof.
  intros C S. unfold scheduler_step in S. rewrite (i_tp _ I) in S.
  assert (HL : hart_locks w h = sched_locks (w_sched w h)) by (unfold hart_locks; by rewrite C).
  destruct (w_sched w h) as [i found|i found|i found|i|]; simpl in HL.
  - injection S as <-. left. by eexists.
  - eapply acquire_fine; [done|]. rewrite HL. by intros X%elem_of_nil.
  - case_decide; [injection S as <-; left; by eexists|]. eapply release_fine; [done|].
    rewrite HL. intros X. destruct X. in_list.
  - injection S as <-. destruct (release_ok (w_lk (with_cpu h (set_ts None) w)) (hart_locks w) h (LTask i))
      as (a & E & _).
    + apply with_cpu_ok; [apply (i_lk _ I)|done|]. apply (i_lk _ I h).
    + rewrite HL. in_list.
    + unfold release. rewrite E. left. by eexists.
  - injection S as <-. left. by eexists.
Qed.
End Panics.

(** [C32] The kernel panics only on misuse.  In every reachable state a step
    never follows a null pointer, and it halts only in the cases of [misuse]:
    the checks of [sched] (lock held, state not [RUNNING], interrupts off,
    [noff] = 1) fail only for a task that gives up its hart with a spinlock
    held, so a task that calls these functions without holding a spinlock,
    takes each sleep lock once and releases what it holds never meets a
    panic; neither do the scheduler loop and a timer interrupt, wherever it
    strikes. *)
Theorem panics_are_misuse w0 w h c r : reach w0 w -> hstep h c w = Some r ->
  (exists w', r = Ok w') \/ r = Halt /\ exists t, w_cur w h = Some t /\ misuse w t c.
Proof.
  intros R S. destruct (reach_inv _ _ R) as [q I]. unfold hstep in S.
  destruct (w_cur w h) as [t|] eqn:C.
  - destruct (task_fine w q I h t c r C S) as [|[-> M]]; eauto.
  - destruct c; try discriminate S. destruct (scheduler_fine w q I h r C S) as [|[_ []]]; eauto.
Qed.

(** ** Runs: three tasks on two harts, with a contended sleep lock *)

Definition no_node : wait_node := mkNode NNull NNull None.
Definition demo_world : world := mkWorld
  (mkAst (fun _ => None) (fun _ => init_cpu false)) (fun h => h) (fun _ => None)
  (fun _ => SScan 0 false)
  (fun t => if (t <? 3)%nat
            then mkTask RUNNABLE (Z.of_nat t + 1) 0 no_node [FFirst; FRun []]
            else mkTask INITLIZED 0 0 no_node [])
  init_sleeplock.

Lemma demo_boot : boot demo_world.
Proof.
  constructor; intros; unfold state, stack in *; simpl in *; try done.
  - destruct (Nat.ltb_spec t 3); [right|left]; done.
  - destruct (Nat.ltb_spec t 3); simpl in *; [lia|done].
  - destruct (Nat.ltb_spec t 3), (Nat.ltb_spec u 3); simpl in *; try done. lia.
Qed.

Fixpoint exec (cs : list (nat * choice)) (w : world) : option (result world) :=
  match cs with
  | [] => Some (Ok w)
  | (h, c) :: cs =>
      match hstep h c w with
      | Some (Ok w') => exec cs w'
      | r => r
      end
  end.

Lemma exec_reach w0 cs w w' : reach w0 w -> exec cs w = Some (Ok w') -> reach w0 w'.
Proof.
  revert w. induction cs as [|[h c] cs IH]; intros w R E; simpl in E; [by injection E as <-|].
  destruct (hstep h c w) as [[w1| | |]|] eqn:S; try done. eapply IH; [|done]. by econstructor.
Qed.

Definition after (cs : list (nat * choice)) : world :=
  match exec cs demo_world with Some (Ok w) => w | _ => demo_world end.
Definition runs (cs : list (nat * choice)) : bool :=
  match exec cs demo_world with Some (Ok _) => true | _ => false end.

Lemma after_reach cs : runs cs = true -> reach demo_world (after cs).
Proof.
  unfold runs, after. destruct (exec cs demo_world) as [[w| | |]|] eqn:E; try done. intros _.
  eapply exec_reach; [constructor; apply demo_boot|done].
Qed.

Definition go (h n : nat) : list (nat * choice) := replicate n (h, CGo).
(** hart 0 takes task 0, hart 1 task 1, and both leave [first_ret] *)
Definition dispatch : list (nat * choice) := go 0 4 ++ go 1 5.
(** task 1 takes sleep lock 5 *)
Definition task1_locks : list (nat * choice) := dispatch ++ (1%nat, CAcquireSleep 5) :: go 1 5.
(** task 0 finds it taken, queues and switches out *)
Definition task0_sleeps : list (nat * choice) := task1_locks ++ (0%nat, CAcquireSleep 5) :: go 0 8.
(** task 1 releases: it has taken task 0 out of the queue *)
Definition task1_wakes : list (nat * choice) := task0_sleeps ++ (1%nat, CReleaseSleep 5 false) :: go 1 3.
(** task 1 finishes; hart 0 runs task 2 until it yields, then task 0, which
    gets the lock *)
Definition task0_gets : list (nat * choice) :=
  task1_wakes ++ go 1 4 ++ go 0 5 ++ (0%nat, CYield) :: go 0 139.

Lemma sched_exclusive_witness :
  let w := after task0_gets in
  w_cur w 0%nat = Some 0%nat /\ w_cur w 1%nat = Some 1%nat /\
  c_ts (cpu_of w (w_tp w 0%nat)) = Some 0%nat.
Proof.
  assert (C : w_cur (after task0_gets) 0%nat = Some 0%nat) by (vm_compute; reflexivity).
  split; [exact C|]. split; [vm_compute; reflexivity|].
  apply (sched_exclusive demo_world (after task0_gets)); [|exact C].
  apply after_reach. vm_compute; reflexivity.
Defined.

Lemma sleeplock_exclusive_witness :
  let w := after task0_gets in
  sl_locked (w_slk w 5%nat) = true /\ sl_holder (w_slk w 5%nat) = 1 /\ sl_holder (w_slk w 5%nat) <> 0.
Proof.
  assert (L : sl_locked (w_slk (after task0_gets) 5%nat) = true) by (vm_compute; reflexivity).
  split; [exact L|]. split; [vm_compute; reflexivity|].
  apply (sleeplock_exclusive demo_world (after task0_gets) 5); [|exact L].
  apply after_reach. vm_compute; reflexivity.
Defined.

Lemma no_lost_wakeup_witness :
  let w := after task1_wakes in
  state w 0%nat = SLEEP /\ sl_locked (w_slk w 5%nat) = false /\
  exists u, u <> 0%nat /\ state w u <> SLEEP /\ supports w u 5.
Proof.
  assert (S : state (after task1_wakes) 0%nat = SLEEP) by (vm_compute; reflexivity).
  assert (L : sl_locked (w_slk (after task1_wakes) 5%nat) = false) by (vm_compute; reflexivity).
  split; [exact S|]. split; [exact L|].
  destruct (no_lost_wakeup demo_world (after task1_wakes) 0) as (l & R & X).
  - apply after_reach. vm_compute; reflexivity.
  - exact S.
  - assert (l = 5%nat) as ->.
    { assert (R' : roleof (after task1_wakes) 0%nat = Sleeper 5) by (vm_compute; reflexivity).
      rewrite R' in R. injection R as R. symmetry. exact R. }
    rewrite L in X. destruct X as [X|X]; [discriminate X|exact X].
Defined.

(** task 1 releases the lock that task 0 now holds *)
Definition not_owner : list (nat * choice) := task0_gets ++ (1%nat, CReleaseSleep 5 false) :: go 1 1.

Lemma panics_are_misuse_witness :
  hstep 1 CGo (after not_owner) = Some Halt /\
  exists t, w_cur (after not_owner) 1%nat = Some t /\ misuse (after not_owner) t CGo.
Proof.
  assert (H : hstep 1 CGo (after not_owner) = Some Halt) by (vm_compute; reflexivity).
  split; [exact H|].
  destruct (panics_are_misuse demo_world (after not_owner) 1 CGo Halt) as [[w' X]|[_ X]].
  - apply after_reach. vm_compute; reflexivity.
  - exact H.
  - discriminate X.
  - exact X.
Defined.

(** ** Two callers that panic

    [file_put] and [file_get] (fs/vfs.c) take the sleep lock of the file.
    [kexit] calls [exit_fs], and with it [file_put], between
    [acquire(&ts->lk)] and [release(&ts->lk)]; [kfork] calls [file_get] while
    it holds the [lk] of the new task (slot 7 here). *)
Definition exit_closes : list (nat * choice) :=
  task1_locks ++ (0%nat, CAcquire (LTask 0)) :: (0%nat, CAcquireSleep 5) :: go 0 3.
Definition fork_shares : list (nat * choice) :=
  task1_locks ++ (0%nat, CAcquire (LTask 7)) :: (0%nat, CAcquireSleep 5) :: go 0 6.

(** [kexit] and [kfork] panic when another task is using one of their
    files ([Proc] has the same panics in the steps of [kexit] and [kfork]).  From a state that is reachable, task 0 holds its own [lk] (as
    [kexit] does around [exit_fs]), asks for the sleep lock of a file that
    task 1 holds, and the [acquire(&ts->lk)] inside [acquire_sleep] panics; if
    instead it holds the [lk] of a task it is creating (as [kfork] does), the
    [noff] check of [sched] panics. *)
Example contended_file_panics :
  reach demo_world (after exit_closes) /\ reach demo_world (after fork_shares)
  /\ sl_holder (w_slk (after exit_closes) 5%nat) = t_pid (w_task (after exit_closes) 1%nat)
  /\ stack (after exit_closes) 0%nat = [ASlk 5; FRun [LTask 0]]
  /\ hstep 0 CGo (after exit_closes) = Some Halt
  /\ stack (after fork_shares) 0%nat = [ASsched 5; FRun [LTask 7]]
  /\ hstep 0 CGo (after fork_shares) = Some Halt.
Proof.
  split; [apply after_reach; vm_compute; reflexivity|].
  split; [apply after_reach; vm_compute; reflexivity|].
  split_and!; vm_compute; reflexivity.
Qed.
