(* ===== verification/Proc.v ===== *)
(** The life of processes: [alloc_task], [free_task], [kfork], [waitpid],
    [kexit] and what they call (kernel/proc.c), for any number of harts.

    Every slot of [tasks[]] has its lock, its fields and the point of the
    kernel at which its task is ([p_pc]).  A move of the system is a step of a
    task that a hart executes, or one of the two halves of [scheduler]: taking
    a RUNNABLE task up and releasing the lock of a task that has switched
    away.  A step is one critical section [acquire(x) ... release(x)] where the
    code holds no other task lock, and otherwise ends at every [acquire],
    [release] and [sched()], so that other tasks, harts and timer interrupts
    come in between; that a critical section is one step is what Spinlock
    proves.  The memory and the files of a process are the subject of Vm
    and VfsProc.  What the code here depends on is their outcome, which a move
    chooses: the allocations and the copies of memory succeed or not ([PMem]),
    and [acquire_sleep] on a file or an inode finds it free or has to wait
    ([PSleep]); [exit_fs] and [file_get] call it with a task lock held. *)
From stdpp Require Import base list option.
From Stdlib Require Import ZArith Lia.
From S2P Require Import Prelude Spinlock Sched.
Open Scope Z_scope.

(** [((void * )1)] *)
Definition SLEEP_CHAN_CHILD : Z := 1.

(** Where a task is.  A frame that holds a task lock says which. *)
Inductive pframe :=
| PUser                          (** user mode or a system call not listed here *)
| PFirst                         (** [first_ret], before [release(&ts->lk)] *)
| PYield (k : pframe)            (** [yield] after [sched()], interrupting [k] *)
| PBlock                         (** [acquire_sleep] after [sched()] *)
(* waitpid *)
| WScan (pid : Z) (i cnt : nat)  (** the loop at [tasks[i]], [child_count = cnt] *)
| WReap (pid : Z) (c : nat)      (** [zombie = c], holding its lock *)
| WSleep (pid : Z)               (** before [acquire(&ts->lk)] *)
| WWake (pid : Z)                (** after [sched()], holding [ts->lk] *)
(* kexit *)
| XFree (code : Z)               (** [exit_fs] and the memory, under [ts->lk] *)
| XOrphan (code : Z) (i : nat) (orphan_zombie : bool)  (** the loop over the children *)
| XInit (code : Z)               (** [wake_wait_parent(initask)] *)
| XZombie (code : Z)             (** [acquire(&ts->lk); ts->state = ZOMBIE] *)
| XWake (code : Z)               (** [wake_wait_parent(ts->parent)], holding [ts->lk] *)
| XSched (code : Z)              (** before [sched()], holding [ts->lk] *)
| XDead (code : Z)               (** after [sched()] *)
(* kfork *)
| KAlloc (i : nat)               (** the loop of [alloc_task] *)
| KBody (c : nat)                (** with [new_ts = c], holding its lock *)
| KFail (c : nat)                (** [free_task(new_ts)] after [release(&new_ts->lk)] *)
| KRet (c : nat).                (** [return new_ts->pid] *)

#[export] Instance pframe_eq : EqDecision pframe.
Proof. solve_decision. Defined.

(** The fields of [struct task_struct] that these functions use: [p_utf] tells
    whether the trap frame is allocated, [p_on] whether a hart executes the
    task. *)
Record proc := mkProc {
  p_state : task_state; p_pid : Z; p_parent : option nat; p_ret : Z; p_dead : bool;
  p_pending : bool; p_chan : Z; p_utf : bool; p_pc : pframe; p_on : bool }.
Definition pset_state v p := mkProc v (p_pid p) (p_parent p) (p_ret p) (p_dead p) (p_pending p) (p_chan p) (p_utf p) (p_pc p) (p_on p).
Definition pset_pid v p := mkProc (p_state p) v (p_parent p) (p_ret p) (p_dead p) (p_pending p) (p_chan p) (p_utf p) (p_pc p) (p_on p).
Definition pset_parent v p := mkProc (p_state p) (p_pid p) v (p_ret p) (p_dead p) (p_pending p) (p_chan p) (p_utf p) (p_pc p) (p_on p).
Definition pset_ret v p := mkProc (p_state p) (p_pid p) (p_parent p) v (p_dead p) (p_pending p) (p_chan p) (p_utf p) (p_pc p) (p_on p).
Definition pset_dead v p := mkProc (p_state p) (p_pid p) (p_parent p) (p_ret p) v (p_pending p) (p_chan p) (p_utf p) (p_pc p) (p_on p).
Definition pset_pending v p := mkProc (p_state p) (p_pid p) (p_parent p) (p_ret p) (p_dead p) v (p_chan p) (p_utf p) (p_pc p) (p_on p).
Definition pset_chan v p := mkProc (p_state p) (p_pid p) (p_parent p) (p_ret p) (p_dead p) (p_pending p) v (p_utf p) (p_pc p) (p_on p).
Definition pset_utf v p := mkProc (p_state p) (p_pid p) (p_parent p) (p_ret p) (p_dead p) (p_pending p) (p_chan p) v (p_pc p) (p_on p).
Definition pset_pc v p := mkProc (p_state p) (p_pid p) (p_parent p) (p_ret p) (p_dead p) (p_pending p) (p_chan p) (p_utf p) v (p_on p).
Definition pset_on v p := mkProc (p_state p) (p_pid p) (p_parent p) (p_ret p) (p_dead p) (p_pending p) (p_chan p) (p_utf p) (p_pc p) v.

(** Who holds a task lock: a task, or a scheduler that has just left it. *)
Inductive holder := HTask (t : nat) | HSched.
#[export] Instance holder_eq : EqDecision holder.
Proof. solve_decision. Defined.

Record ptable := mkPT {
  pt_proc : nat -> proc; pt_lk : nat -> option holder; pt_next : Z; pt_init : nat }.
Definition pwith (t : nat) (f : proc -> proc) (w : ptable) : ptable :=
  mkPT (upd (pt_proc w) t (f (pt_proc w t))) (pt_lk w) (pt_next w) (pt_init w).
Definition plock (x : nat) (o : option holder) (w : ptable) : ptable :=
  mkPT (pt_proc w) (upd (pt_lk w) x o) (pt_next w) (pt_init w).
Definition pgoto (t : nat) (k : pframe) (w : ptable) : ptable := pwith t (pset_pc k) w.
Definition pst (w : ptable) (t : nat) : task_state := p_state (pt_proc w t).

(** What a call returns to its process. *)
Inductive pevent :=
| ENone
| EWait (reaped status : Z)
| EFork (pid : Z)
| EExit (r : Z).

Abbreviation poutcome := (option (result (pevent * ptable))).

(** ** Locks: [None] spins, a panic is [Halt] *)
Definition pacquire (t x : nat) (k : ptable -> result (pevent * ptable)) (w : ptable) : poutcome :=
  match pt_lk w x with
  | None => Some (k (plock x (Some (HTask t)) w))
  | Some o => if decide (o = HTask t) then Some Halt else None
  end.
Definition prelease (t x : nat) (e : pevent) (w : ptable) : result (pevent * ptable) :=
  if decide (pt_lk w x = Some (HTask t)) then Ok (e, plock x None w) else Halt.
Definition pgo (w : ptable) : result (pevent * ptable) := Ok (ENone, w).

(** [sched()]: the checks, and [swtch] to the scheduler; [noff] is the number
    of locks that the hart holds *)
Definition pholds (w : ptable) (t x : nat) : bool := bool_decide (pt_lk w x = Some (HTask t)).
Definition psched (t : nat) (k : pframe) (w : ptable) : result (pevent * ptable) :=
  if negb (pholds w t t) then Halt
  else if decide (pst w t = RUNNING) then Halt
  else if negb (length (filter (pholds w t) (seq 0 NTASKS)) =? 1)%nat then Halt
  else pgo (plock t (Some HSched) (pwith t (fun p => pset_on false (pset_pc k p)) w)).

(** ** Operations on a slot *)

(** [ft->pid = alloc_pid()] *)
Definition alloc_pid (w : ptable) : Z * ptable :=
  (s32 (pt_next w), mkPT (pt_proc w) (pt_lk w) (u64 (pt_next w + 1)) (pt_init w)).

(** what [free_task] does to the slot *)
Definition free_task (p : proc) : proc :=
  pset_state INITLIZED (pset_dead false (pset_parent None (pset_pid 0 (pset_utf false p)))).

(** [ft->pid = alloc_pid(); ft->state = USED] *)
Definition alloc_begin (pid : Z) (p : proc) : proc := pset_state USED (pset_pid pid p).
(** the slot that [alloc_task] has filled *)
Definition alloc_slot (pid : Z) (p : proc) : proc :=
  pset_chan 0 (pset_pending false (pset_pc PFirst (pset_utf true (alloc_begin pid p)))).

(** one iteration of the loop of [alloc_task] for [t]; [ok] is whether
    [kalloc] and [create_task_pgtable] succeed *)
Definition alloc_task (t i : nat) (ok : bool) (w : ptable) : result (pevent * ptable) :=
  if decide (pst w i = INITLIZED) then
    let '(pid, w) := alloc_pid w in
    if ok then pgo (pgoto t (KBody i) (pwith i (alloc_slot pid) w))
    else prelease t i (EFork (-1)) (pgoto t PUser (pwith i free_task (pwith i (alloc_begin pid) w)))
  else prelease t i ENone (pgoto t (KAlloc (S i)) w).

(** the critical section of [wake_wait_parent] *)
Definition wake_wait_parent (p : proc) : proc :=
  let p := pset_pending true p in
  if decide (p_state p = SLEEP /\ p_chan p = SLEEP_CHAN_CHILD) then pset_state RUNNABLE p else p.

(** ** The steps of a task *)
Inductive pchoice :=
| PGo                  (** the current function goes on *)
| PMem (ok : bool)     (** the same, with the outcome of its allocations *)
| PIrq                 (** a timer interrupt, or [yield] *)
| PWait (pid : Z)      (** [waitpid] *)
| PExit (code : Z)     (** [kexit] *)
| PFork                (** [kfork] *)
| PKill                (** [to_kill(ts)], by a bad access *)
| PSleep               (** [acquire_sleep] has to wait *)
| PUnblock (u : nat).  (** [release_sleep] takes [u] off its queue *)

(** [yield] *)
Definition yield (t : nat) (w : ptable) : poutcome :=
  pacquire t t (fun w =>
    if decide (pst w t = RUNNING) then
      psched t (PYield (p_pc (pt_proc w t))) (pwith t (pset_state RUNNABLE) w)
    else prelease t t ENone w) w.

(** [acquire_sleep] of a lock that another task has *)
Definition sleep_wait (t : nat) (w : ptable) : poutcome :=
  pacquire t t (fun w => psched t PBlock (pwith t (pset_state SLEEP) w)) w.

(** system calls, from user mode *)
Definition user_step (t : nat) (c : pchoice) (w : ptable) : poutcome :=
  match c with
  | PWait pid => Some (pgo (pgoto t (WScan pid 0 0) w))
  | PExit code =>
      if p_pid (pt_proc w t) =? 1 then Some (Ok (EExit 0, w)) else Some (pgo (pgoto t (XFree code) w))
  | PFork => Some (pgo (pgoto t (KAlloc 0) w))
  | PKill => pacquire t t (fun w => prelease t t ENone (pwith t (pset_dead true) w)) w
  | PSleep => sleep_wait t w
  | PUnblock u =>
      if decide (pst w u = SLEEP /\ p_pc (pt_proc w u) = PBlock)
      then pacquire t u (fun w => prelease t u ENone (pwith u (pset_state RUNNABLE) w)) w
      else None
  | _ => None
  end.

(** does [waitpid(pid)] of [t] look at [c]? *)
Definition waits_for (w : ptable) (t : nat) (pid : Z) (c : nat) : bool :=
  bool_decide (p_parent (pt_proc w c) = Some t) && ((pid =? -1) || (p_pid (pt_proc w c) =? pid)).

Definition waitpid_step (t : nat) (w : ptable) : poutcome :=
  match p_pc (pt_proc w t) with
  | WScan pid i cnt =>
      if (i <? NTASKS)%nat then
        pacquire t i (fun w =>
          if waits_for w t pid i then
            if decide (pst w i = ZOMBIE) then pgo (pgoto t (WReap pid i) w)
            else prelease t i ENone (pgoto t (WScan pid (S i) (S cnt)) w)
          else prelease t i ENone (pgoto t (WScan pid (S i) cnt) w)) w
      else if (cnt =? 0)%nat then Some (Ok (EWait (-1) 0, pgoto t PUser w))
      else Some (pgo (pgoto t (WSleep pid) w))
  | WReap pid c =>
      let z := pt_proc w c in
      let free p := pset_state INITLIZED (pset_dead false (pset_parent None (pset_pid 0 (pset_utf false p)))) in
      Some (prelease t c (EWait (p_pid z) (p_ret z)) (pgoto t PUser (pwith c free w)))
  | WSleep pid =>
      pacquire t t (fun w =>
        if p_pending (pt_proc w t)
        then prelease t t ENone (pgoto t (WScan pid 0 0) (pwith t (pset_pending false) w))
        else psched t (WWake pid) (pwith t (pset_state SLEEP) (pwith t (pset_chan SLEEP_CHAN_CHILD) w))) w
  | WWake pid => Some (prelease t t ENone (pgoto t (WScan pid 0 0) (pwith t (pset_chan 0) w)))
  | _ => None
  end.

(** [exit_fs] runs with [ts->lk] held: with [PSleep] the [acquire_sleep] of
    [file_put] or [inode_put] has to wait there *)
Definition kexit_step (t : nat) (c : pchoice) (w : ptable) : poutcome :=
  match p_pc (pt_proc w t), c with
  | XFree code, PGo => pacquire t t (fun w => prelease t t ENone (pgoto t (XOrphan code 0 false) (pwith t (pset_ret code) w))) w
  | XFree code, PSleep => match pacquire t t pgo w with Some (Ok (_, w)) => sleep_wait t w | r => r end
  | XOrphan code i orphan, PGo =>
      if (i <? NTASKS)%nat then
        pacquire t i (fun w =>
          if decide (p_parent (pt_proc w i) = Some t) then
            prelease t i ENone (pgoto t (XOrphan code (S i) (orphan || bool_decide (pst w i = ZOMBIE)))
              (pwith i (pset_parent (Some (pt_init w))) w))
          else prelease t i ENone (pgoto t (XOrphan code (S i) orphan) w)) w
      else Some (pgo (pgoto t (if orphan then XInit code else XZombie code) w))
  | XInit code, PGo =>
      pacquire t (pt_init w) (fun w => prelease t (pt_init w) ENone (pgoto t (XZombie code) (pwith (pt_init w) wake_wait_parent w))) w
  | XZombie code, PGo =>
      pacquire t t (fun w => pgo (pgoto t (XWake code) (pwith t (fun p => pset_dead true (pset_state ZOMBIE p)) w))) w
  | XWake code, PGo =>
      match p_parent (pt_proc w t) with
      | None => Some (pgo (pgoto t (XSched code) w))
      | Some p => pacquire t p (fun w => prelease t p ENone (pgoto t (XSched code) (pwith p wake_wait_parent w))) w
      end
  | XSched code, PGo => Some (psched t (XDead code) w)
  | XDead _, PGo => Some Halt
  | _, _ => None
  end.

(** [KBody] is everything under [new_ts->lk]: the copies of memory, which fail
    or not, and [inode_get] and [file_get], which with [PSleep] have to wait *)
Definition kfork_step (t : nat) (c : pchoice) (w : ptable) : poutcome :=
  match p_pc (pt_proc w t), c with
  | KAlloc i, PMem ok =>
      if (i <? NTASKS)%nat then pacquire t i (alloc_task t i ok) w
      else Some (Ok (EFork (-1), pgoto t PUser w))
  | KBody c, PMem true =>
      Some (prelease t c ENone (pgoto t (KRet c) (pwith c (fun p => pset_state RUNNABLE (pset_parent (Some t) p)) w)))
  | KBody c, PSleep => sleep_wait t w
  | KBody c, PMem false => Some (prelease t c ENone (pgoto t (KFail c) w))
  | KFail c, PGo => Some (Ok (EFork (-1), pgoto t PUser (pwith c free_task w)))
  | KRet c, PGo => Some (Ok (EFork (p_pid (pt_proc w c)), pgoto t PUser w))
  | _, _ => None
  end.

(** the frames at which interrupts are on: no lock is held *)
Definition open_frame (k : pframe) : bool :=
  match k with
  | PUser | WScan _ _ _ | WSleep _ | XFree _ | XOrphan _ _ _ | XInit _ | XZombie _ | KAlloc _ | KFail _ | KRet _ => true
  | _ => false
  end.

Definition proc_step (t : nat) (c : pchoice) (w : ptable) : poutcome :=
  match c, p_pc (pt_proc w t) with
  | PIrq, k => if open_frame k then yield t w else None
  | PGo, PFirst => Some (prelease t t ENone (pgoto t PUser w))
  | PGo, PYield k => Some (prelease t t ENone (pgoto t k w))
  | PGo, PBlock => Some (prelease t t ENone (pgoto t PUser w))
  | PGo, (WScan _ _ _ | WReap _ _ | WSleep _ | WWake _) => waitpid_step t w
  | PGo, (XFree _ | XOrphan _ _ _ | XInit _ | XZombie _ | XWake _ | XSched _ | XDead _) => kexit_step t c w
  | PSleep, XFree _ => kexit_step t c w
  | _, (KAlloc _ | KBody _ | KFail _ | KRet _) => kfork_step t c w
  | _, PUser => user_step t c w
  | _, _ => None
  end.

(** ** The system *)
Inductive pmove :=
| MTask (t : nat) (c : pchoice)
| MPick (t : nat)    (** [scheduler]: [acquire], [ts->state = RUNNING], [swtch] *)
| MDrop (t : nat).   (** [scheduler]: [release] after [swtch] has returned *)

Definition pstep (m : pmove) (w : ptable) : poutcome :=
  match m with
  | MTask t c => if p_on (pt_proc w t) then proc_step t c w else None
  | MPick t =>
      if (t <? NTASKS)%nat && bool_decide (pst w t = RUNNABLE) && bool_decide (pt_lk w t = None)
      then Some (pgo (plock t (Some (HTask t)) (pwith t (fun p => pset_on true (pset_state RUNNING p)) w)))
      else None
  | MDrop t => if decide (pt_lk w t = Some HSched) then Some (pgo (plock t None w)) else None
  end.

(** after [init_tasks] *)
Definition init_tasks : ptable :=
  mkPT (fun _ => mkProc INITLIZED 0 None 0 false false 0 false PUser false) (fun _ => None) 1 0.
(** [init_user]: the first process is in slot 0 *)
Definition init_user : ptable :=
  let '(pid, w) := alloc_pid init_tasks in
  pwith 0 (fun p => pset_state RUNNABLE (alloc_slot pid p)) w.

Inductive preach : ptable -> Prop :=
| preach_boot : preach init_user
| preach_step w m e w' : preach w -> pstep m w = Some (Ok (e, w')) -> preach w'.
