(* ===== verification/ProcInv.v ===== *)
(** The invariant of processes.  First half: every lock is held by the task
    whose frame says so, and the state of a slot agrees with where its task
    is.  Second half: parents, the slots of [kfork], and what [waitpid] has
    seen.  Then the moves of the system, one rule for each path through the
    code. *)
From stdpp Require Import base list option.
From Stdlib Require Import ZArith Lia.
From S2P Require Import Prelude Spinlock Sched Proc.
Open Scope Z_scope.

(** ** Definitions *)

(** the task lock that frame [k] of task [t] holds while a hart executes it *)
Definition held (t : nat) (k : pframe) : option nat :=
  match k with
  | PFirst | PYield _ | PBlock | WWake _ | XWake _ | XSched _ => Some t
  | WReap _ c | KBody c => Some c
  | _ => None
  end.
(** the function a task is in, without the interrupt *)
Definition base (k : pframe) : pframe := match k with PYield k => k | _ => k end.

(** the frames in which a task continues when it is taken up again *)
Definition resumes (k : pframe) : Prop :=
  match k with PFirst | PBlock | WWake _ => True | PYield k => open_frame k = true | _ => False end.
(** the frames of a task that is alive *)
Definition living (k : pframe) : Prop :=
  match k with XWake _ | XSched _ | XDead _ => False | PYield k => open_frame k = true | _ => True end.

(** what the code of [kexit] has stored *)
Definition ret_ok (p : proc) : Prop :=
  match base (p_pc p) with
  | XOrphan code _ _ | XInit code | XZombie code | XWake code | XSched code | XDead code => p_ret p = code
  | _ => True
  end.
Definition chan_ok (p : proc) : Prop := p_chan p = SLEEP_CHAN_CHILD -> exists pid, p_pc p = WWake pid.

Definition shape (p : proc) : Prop :=
  match p_state p with
  | INITLIZED => p_on p = false /\ p_parent p = None
  | USED => p_on p = false /\ p_parent p = None /\ p_pc p = PFirst /\ chan_ok p
  | RUNNABLE => p_on p = false /\ resumes (p_pc p) /\ chan_ok p /\ ret_ok p
  | RUNNING => p_on p = true /\ living (p_pc p) /\ chan_ok p /\ ret_ok p
  | SLEEP => p_on p = false /\ ret_ok p /\
      (p_pc p = PBlock /\ p_chan p <> SLEEP_CHAN_CHILD \/
       (exists pid, p_pc p = WWake pid) /\ p_chan p = SLEEP_CHAN_CHILD /\ p_pending p = false)
  | ZOMBIE => ret_ok p /\
      (p_on p = true /\ (exists code, p_pc p = XWake code \/ p_pc p = XSched code) \/
       p_on p = false /\ exists code, p_pc p = XDead code)
  | _ => False
  end.

(** [held] for a task on a hart *)
Definition locks (w : ptable) (t : nat) : option nat :=
  if p_on (pt_proc w t) then held t (p_pc (pt_proc w t)) else None.

Definition alive (s : task_state) : bool := match s with RUNNABLE | RUNNING | SLEEP => true | _ => false end.
(** task [t] is at [k], or was interrupted there *)
Definition inside (w : ptable) (t : nat) (k : pframe) : Prop :=
  alive (pst w t) = true /\ base (p_pc (pt_proc w t)) = k.
(** [c] is the new slot of a [kfork] of [t] *)
Definition forking (w : ptable) (t c : nat) : Prop := inside w t (KBody c) \/ inside w t (KFail c).

(** somebody is about to wake [t] because of its child [c] *)
Definition waking (w : ptable) (t c : nat) : Prop :=
  (exists code, p_on (pt_proc w c) = true /\ p_pc (pt_proc w c) = XWake code) \/
  t = pt_init w /\ exists e code, (exists i, inside w e (XOrphan code i true)) \/ inside w e (XInit code).
(** [waitpid(pid)] of [t] has missed no child below [n] *)
Definition scanned (w : ptable) (t : nat) (pid : Z) (n : nat) : Prop :=
  forall c, (c < n)%nat -> waits_for w t pid c = true -> pst w c = ZOMBIE -> p_pending (pt_proc w t) = true \/ waking w t c.

Record pinv (w : ptable) : Prop := {
  (* locks and states *)
  li_lock x t : pt_lk w x = Some (HTask t) <-> locks w t = Some x;
  li_sched x : pt_lk w x = Some HSched -> p_on (pt_proc w x) = false;
  li_shape t : shape (pt_proc w t);
  li_small t : (NTASKS <= t)%nat -> pst w t = INITLIZED;
  (* parents *)
  pi_init : p_parent (pt_proc w (pt_init w)) = None /\ alive (pst w (pt_init w)) = true /\ p_pid (pt_proc w (pt_init w)) = 1;
  pi_stays : match base (p_pc (pt_proc w (pt_init w))) with XFree _ | XOrphan _ _ _ | XInit _ | XZombie _ => False | _ => True end;
  pi_parent c : alive (pst w c) = true \/ pst w c = ZOMBIE -> c <> pt_init w ->
    exists p, p_parent (pt_proc w c) = Some p /\ alive (pst w p) = true /\ p <> c;
  pi_orphan t code i o : inside w t (XOrphan code i o) -> forall c, (c < i)%nat -> p_parent (pt_proc w c) <> Some t;
  pi_childless t code : inside w t (XInit code) \/ inside w t (XZombie code) -> forall c, p_parent (pt_proc w c) <> Some t;
  (* kfork *)
  pi_used t c : forking w t c -> pst w c = USED;
  pi_forker t t' c : forking w t c -> forking w t' c -> t = t';
  pi_forked t c : inside w t (KRet c) -> p_parent (pt_proc w c) = Some t;
  (* waitpid *)
  pi_reap t pid c : inside w t (WReap pid c) -> pst w c = ZOMBIE /\ waits_for w t pid c = true;
  pi_scan t pid i cnt : inside w t (WScan pid i cnt) -> scanned w t pid i /\ (cnt <> 0%nat -> exists c, waits_for w t pid c = true);
  pi_sleepy t pid : inside w t (WSleep pid) \/ inside w t (WWake pid) ->
    scanned w t pid NTASKS /\ exists c, waits_for w t pid c = true }.

(** ** Simplification *)
Lemma proc_pwith t f w u : pt_proc (pwith t f w) u = if decide (u = t) then f (pt_proc w t) else pt_proc w u.
Proof. unfold pwith, upd. simpl. by case_decide; subst. Qed.
Lemma pst_pwith t f w u : pst (pwith t f w) u = if decide (u = t) then p_state (f (pt_proc w t)) else pst w u.
Proof. unfold pst. rewrite proc_pwith. by case_decide; subst. Qed.
Lemma proc_plock x o w u : pt_proc (plock x o w) u = pt_proc w u.
Proof. done. Qed.
Lemma lk_pwith t f w x : pt_lk (pwith t f w) x = pt_lk w x.
Proof. done. Qed.
Lemma lk_plock x o w y : pt_lk (plock x o w) y = if decide (y = x) then o else pt_lk w y.
Proof. unfold plock, upd. simpl. by case_decide; subst. Qed.
Lemma locks_plock x o w t : locks (plock x o w) t = locks w t.
Proof. done. Qed.

Lemma on_running w t : pinv w -> p_on (pt_proc w t) = true -> living (p_pc (pt_proc w t)) -> pst w t = RUNNING.
Proof.
  intros L Hon Hl. pose proof (li_shape w L t) as S. unfold shape in S. unfold pst.
  destruct (p_state (pt_proc w t)); try (destruct S as [S _]; congruence); try done.
  destruct S as (_ & [(_ & code & [E|E])|[E _]]); [by rewrite E in Hl..|congruence].
Qed.
Lemma running_on w t : pinv w -> pst w t = RUNNING -> p_on (pt_proc w t) = true.
Proof. intros L Hs. pose proof (li_shape w L t) as S. unfold shape in S. unfold pst in Hs. rewrite Hs in S. apply S. Qed.
Lemma on_small w t : pinv w -> p_on (pt_proc w t) = true -> (t < NTASKS)%nat.
Proof.
  intros L Hon. destruct (decide (t < NTASKS)%nat); [done|]. assert (pst w t = INITLIZED) as E by (apply (li_small w L); lia).
  pose proof (li_shape w L t) as S. unfold shape, pst in *. rewrite E in S. destruct S. congruence.
Qed.
Lemma free_lock w t : pinv w -> p_on (pt_proc w t) = true -> held t (p_pc (pt_proc w t)) = None ->
  forall x, pt_lk w x <> Some (HTask t).
Proof. intros L Hon Hh x E. apply (li_lock w L) in E. unfold locks in E. rewrite Hon in E. congruence. Qed.
Lemma has_lock w t x : pinv w -> p_on (pt_proc w t) = true -> held t (p_pc (pt_proc w t)) = Some x ->
  pt_lk w x = Some (HTask t).
Proof. intros L Hon Hh. apply (li_lock w L). unfold locks. by rewrite Hon. Qed.

(** ** How a step may change the locks *)

(** the tasks and locks other than [t] are where they were *)
Definition same_locks (t : nat) (w w' : ptable) : Prop := forall u, u <> t -> locks w' u = locks w u.

Lemma li_lock_same t w w' : pinv w -> same_locks t w w' -> locks w' t = locks w t ->
  (forall x, pt_lk w' x = pt_lk w x) -> forall x u, pt_lk w' x = Some (HTask u) <-> locks w' u = Some x.
Proof.
  intros L Ho Ht Hk x u. rewrite Hk. destruct (decide (u = t)) as [->|Hu]; [rewrite Ht|rewrite (Ho u Hu)]; apply L.
Qed.
Lemma li_lock_take t x w w' : pinv w -> same_locks t w w' -> locks w t = None -> locks w' t = Some x ->
  pt_lk w x = None -> (forall y, pt_lk w' y = if decide (y = x) then Some (HTask t) else pt_lk w y) ->
  forall y u, pt_lk w' y = Some (HTask u) <-> locks w' u = Some y.
Proof.
  intros L Ho Ht Ht' Hx Hk y u. rewrite Hk. destruct (decide (u = t)) as [->|Hu].
  - rewrite Ht'. case_decide as E; [subst; done|]. split; [|congruence]. intros E'%(li_lock w L). congruence.
  - rewrite (Ho u Hu). case_decide as E; [subst y|apply L]. split; [congruence|]. intros E'%(li_lock w L). congruence.
Qed.
(** the lock [x] of [t] goes: to nobody, or to the scheduler *)
Lemma li_lock_give t x o w w' : pinv w -> same_locks t w w' -> locks w t = Some x -> locks w' t = None ->
  (forall u, o <> Some (HTask u)) -> (forall y, pt_lk w' y = if decide (y = x) then o else pt_lk w y) ->
  forall y u, pt_lk w' y = Some (HTask u) <-> locks w' u = Some y.
Proof.
  intros L Ho Ht Ht' Hn Hk y u. rewrite Hk. destruct (decide (u = t)) as [->|Hu].
  - rewrite Ht'. split; [|done]. case_decide as E; [by intros ?%Hn|]. intros E'%(li_lock w L). congruence.
  - rewrite (Ho u Hu). case_decide as E; [subst y|apply L]. split; [by intros ?%Hn|].
    intros E'%(li_lock w L). assert (pt_lk w x = Some (HTask t)) by (by apply (li_lock w L)). congruence.
Qed.

(** ** The moves

    The same moves, one rule for each path through the code, without the lock
    operations that cancel out. *)
Inductive pgoes (w : ptable) (t : nat) : pframe -> pevent -> pframe -> Prop :=
| go_wait pid : pgoes w t PUser ENone (WScan pid 0 0)
| go_exit code : p_pid (pt_proc w t) <> 1 -> pgoes w t PUser ENone (XFree code)
| go_fork : pgoes w t PUser ENone (KAlloc 0)
| go_count pid i cnt : (i < NTASKS)%nat -> pt_lk w i = None -> waits_for w t pid i = true -> pst w i <> ZOMBIE ->
    pgoes w t (WScan pid i cnt) ENone (WScan pid (S i) (S cnt))
| go_skip pid i cnt : (i < NTASKS)%nat -> pt_lk w i = None -> waits_for w t pid i = false ->
    pgoes w t (WScan pid i cnt) ENone (WScan pid (S i) cnt)
| go_none pid i : (NTASKS <= i)%nat -> pgoes w t (WScan pid i 0) (EWait (-1) 0) PUser
| go_bed pid i cnt : (NTASKS <= i)%nat -> cnt <> 0%nat -> pgoes w t (WScan pid i cnt) ENone (WSleep pid)
| go_other code i o : (i < NTASKS)%nat -> pt_lk w i = None -> p_parent (pt_proc w i) <> Some t ->
    pgoes w t (XOrphan code i o) ENone (XOrphan code (S i) o)
| go_done code i (o : bool) : (NTASKS <= i)%nat -> pgoes w t (XOrphan code i o) ENone (if o then XInit code else XZombie code)
| go_taken i : (i < NTASKS)%nat -> pt_lk w i = None -> pst w i <> INITLIZED -> pgoes w t (KAlloc i) ENone (KAlloc (S i))
| go_full i : (NTASKS <= i)%nat -> pgoes w t (KAlloc i) (EFork (-1)) PUser
| go_ret c : pgoes w t (KRet c) (EFork (p_pid (pt_proc w c))) PUser.

(** [sched()]: [t] leaves its hart in state [f], to continue at [k] *)
Definition leave (t : nat) (k : pframe) (f : proc -> proc) (w : ptable) : ptable :=
  plock t (Some HSched) (pwith t (fun p => pset_on false (pset_pc k (f p))) w).
Definition fresh (i : nat) (w : ptable) : ptable := pwith i (alloc_slot (s32 (pt_next w))) (snd (alloc_pid w)).
Definition begun (i : nat) (w : ptable) : ptable := pwith i (alloc_begin (s32 (pt_next w))) (snd (alloc_pid w)).

(** a hart executes [t] at [k]; in the second case in the last part of [kexit] *)
Definition runs (w : ptable) (t : nat) (k : pframe) : Prop :=
  p_on (pt_proc w t) = true /\ p_pc (pt_proc w t) = k /\ pst w t = RUNNING.
Definition exits (w : ptable) (t : nat) (k : pframe) : Prop :=
  p_on (pt_proc w t) = true /\ p_pc (pt_proc w t) = k /\ pst w t = ZOMBIE.

Inductive pmoves (w : ptable) : pevent -> ptable -> Prop :=
| mv_goto t k e k' : runs w t k -> pgoes w t k e k' -> pmoves w e (pgoto t k' w)
| mv_stay t : runs w t PUser -> p_pid (pt_proc w t) = 1 -> pmoves w (EExit 0) w
| mv_kill t : runs w t PUser -> pmoves w ENone (pwith t (pset_dead true) w)
| mv_rescan t pid : runs w t (WSleep pid) -> pt_lk w t = None -> p_pending (pt_proc w t) = true ->
    pmoves w ENone (pwith t (fun p => pset_pc (WScan pid 0 0) (pset_pending false p)) w)
| mv_free t code : runs w t (XFree code) ->
    pmoves w ENone (pwith t (fun p => pset_pc (XOrphan code 0 false) (pset_ret code p)) w)
| mv_found t pid i cnt : runs w t (WScan pid i cnt) -> (i < NTASKS)%nat -> pt_lk w i = None ->
    waits_for w t pid i = true -> pst w i = ZOMBIE -> pmoves w ENone (plock i (Some (HTask t)) (pgoto t (WReap pid i) w))
| mv_zombie t code : runs w t (XZombie code) -> pt_lk w t = None ->
    t <> pt_init w ->
    pmoves w ENone (plock t (Some (HTask t)) (pwith t (fun p => pset_pc (XWake code) (pset_dead true (pset_state ZOMBIE p))) w))
| mv_alloc t i : runs w t (KAlloc i) -> (i < NTASKS)%nat -> pt_lk w i = None ->
    pst w i = INITLIZED -> i <> t ->
    pmoves w ENone (plock i (Some (HTask t)) (pgoto t (KBody i) (fresh i w)))
| mv_alloc_fail t i : runs w t (KAlloc i) -> (i < NTASKS)%nat -> pt_lk w i = None ->
    pst w i = INITLIZED -> i <> t ->
    pmoves w (EFork (-1)) (pgoto t PUser (pwith i free_task (begun i w)))
| mv_back t k k' : runs w t k ->
    (k = PFirst /\ k' = PUser \/ k = PYield k' \/ k = PBlock /\ k' = PUser) -> pmoves w ENone (plock t None (pgoto t k' w))
| mv_awake t pid : runs w t (WWake pid) ->
    pmoves w ENone (plock t None (pwith t (fun p => pset_pc (WScan pid 0 0) (pset_chan 0 p)) w))
| mv_reap t pid c : runs w t (WReap pid c) ->
    pst w c = ZOMBIE -> waits_for w t pid c = true -> p_on (pt_proc w c) = false -> c <> t ->
    pmoves w (EWait (p_pid (pt_proc w c)) (p_ret (pt_proc w c))) (plock c None (pgoto t PUser (pwith c free_task w)))
| mv_child t c : runs w t (KBody c) ->
    pst w c = USED -> c <> t ->
    pmoves w ENone (plock c None (pgoto t (KRet c) (pwith c (fun p => pset_state RUNNABLE (pset_parent (Some t) p)) w)))
| mv_child_fail t c : runs w t (KBody c) -> pst w c = USED -> c <> t ->
    pmoves w ENone (plock c None (pgoto t (KFail c) w))
| mv_unalloc t c : runs w t (KFail c) -> pst w c = USED -> c <> t ->
    pmoves w (EFork (-1)) (pgoto t PUser (pwith c free_task w))
| mv_yield t k : runs w t k -> open_frame k = true -> pt_lk w t = None ->
    pmoves w ENone (leave t (PYield k) (pset_state RUNNABLE) w)
| mv_block t : runs w t PUser -> pt_lk w t = None -> pmoves w ENone (leave t PBlock (pset_state SLEEP) w)
| mv_sleep t pid : runs w t (WSleep pid) -> pt_lk w t = None -> p_pending (pt_proc w t) = false ->
    pmoves w ENone (leave t (WWake pid) (fun p => pset_state SLEEP (pset_chan SLEEP_CHAN_CHILD p)) w)
| mv_dead t code : exits w t (XSched code) -> t <> pt_init w ->
    pmoves w ENone (leave t (XDead code) (fun p => p) w)
| mv_orphan t code i o : runs w t (XOrphan code i o) -> (i < NTASKS)%nat -> pt_lk w i = None ->
    p_parent (pt_proc w i) = Some t ->
    i <> t -> t <> pt_init w -> i <> pt_init w ->
    pmoves w ENone (pgoto t (XOrphan code (S i) (o || bool_decide (pst w i = ZOMBIE))) (pwith i (pset_parent (Some (pt_init w))) w))
| mv_wake_init t code : runs w t (XInit code) -> pt_lk w (pt_init w) = None ->
    t <> pt_init w ->
    pmoves w ENone (pgoto t (XZombie code) (pwith (pt_init w) wake_wait_parent w))
| mv_wake_parent t code p : exits w t (XWake code) -> p_parent (pt_proc w t) = Some p -> pt_lk w p = None ->
    p <> t -> t <> pt_init w ->
    pmoves w ENone (pgoto t (XSched code) (pwith p wake_wait_parent w))
| mv_unblock t u : runs w t PUser -> pst w u = SLEEP -> p_pc (pt_proc w u) = PBlock -> pt_lk w u = None ->
    u <> t ->
    pmoves w ENone (pwith u (pset_state RUNNABLE) w)
| mv_pick t : (t < NTASKS)%nat -> pst w t = RUNNABLE -> pt_lk w t = None ->
    pmoves w ENone (plock t (Some (HTask t)) (pwith t (fun p => pset_on true (pset_state RUNNING p)) w))
| mv_drop t : pt_lk w t = Some HSched -> pmoves w ENone (plock t None w).
