(* ===== verification/ProcMoves.v ===== *)
(** Every step of the code is one of the moves, and none panics. *)
From stdpp Require Import base list option.
From Stdlib Require Import ZArith Lia.
From S2P Require Import Prelude Spinlock Sched Proc ProcInv.
Open Scope Z_scope.

(** the same table, pointwise *)
Definition weq (w w' : ptable) : Prop :=
  (forall u, pt_proc w' u = pt_proc w u) /\ (forall x, pt_lk w' x = pt_lk w x) /\ pt_next w' = pt_next w /\ pt_init w' = pt_init w.

Ltac psimpl :=
  unfold pgoto, leave, fresh, begun in *;
  repeat (rewrite ?proc_pwith, ?proc_plock, ?lk_pwith, ?lk_plock in *; cbn [pt_proc pt_lk pt_next pt_init alloc_pid snd fst] in *).
Ltac weq_solve := split; [intros ?|split; [intros ?|split; [done|done]]]; psimpl; repeat (case_decide; subst; try congruence); try done.

(** the outcome of a move *)
Definition moved (w : ptable) (r : result (pevent * ptable)) : Prop :=
  exists e w1 w2, r = Ok (e, w1) /\ pmoves w e w2 /\ weq w2 w1.

Lemma moved_ok w e w1 w2 : pmoves w e w2 -> weq w2 w1 -> moved w (Ok (e, w1)).
Proof. intros M E. by exists e, w1, w2. Qed.

(** taking a lock and not giving it back *)
Lemma moved_acquire w t x k r : (forall y, pt_lk w y <> Some (HTask t)) ->
  (pt_lk w x = None -> moved w (k (plock x (Some (HTask t)) w))) -> pacquire t x k w = Some r -> moved w r.
Proof.
  intros Hf W. unfold pacquire. destruct (pt_lk w x) as [o|] eqn:E.
  - case_decide as D; [subst; by apply Hf in E|done].
  - intros [= <-]. by apply W.
Qed.
Lemma prelease_ok t x e w : pt_lk w x = Some (HTask t) -> prelease t x e w = Ok (e, plock x None w).
Proof. intros E. unfold prelease. by rewrite decide_True. Qed.
Ltac rel := rewrite prelease_ok by (psimpl; repeat case_decide; (done || congruence)).

Lemma filter_only (P : nat -> bool) n t : (t < n)%nat -> (forall x, (x < n)%nat -> P x = true <-> x = t) ->
  length (filter P (seq 0 n)) = 1%nat.
Proof.
  intros Hn HP. assert (filter P (seq 0 n) ≡ₚ [t]) as ->; [|done]. apply NoDup_Permutation.
  - apply list.NoDup_filter, NoDup_seq.
  - apply NoDup_singleton.
  - intros x. rewrite list_elem_of_filter, elem_of_seq, list_elem_of_singleton. split.
    + intros [Hx Hr]. apply HP; [lia|]. by apply Is_true_true.
    + intros ->. split; [apply Is_true_true, HP; lia|lia].
Qed.

(** [sched()] when [t] holds exactly its own lock *)
Lemma psched_ok t k w : (t < NTASKS)%nat -> (forall x, pt_lk w x = Some (HTask t) <-> x = t) -> pst w t <> RUNNING ->
  psched t k w = pgo (plock t (Some HSched) (pwith t (fun p => pset_on false (pset_pc k p)) w)).
Proof.
  intros Ht Hl Hs. unfold psched, pholds. rewrite (bool_decide_eq_true_2 (pt_lk w t = _)) by (by apply Hl). cbn [negb].
  rewrite decide_False by done.
  rewrite (filter_only _ _ t Ht); [done|]. intros x _. rewrite bool_decide_eq_true. apply Hl.
Qed.

Section Facts.
Context (w : ptable) (I : pinv w).

(** the state of a task that a hart executes *)
Lemma on_state t : p_on (pt_proc w t) = true -> living (p_pc (pt_proc w t)) ->
  p_state (pt_proc w t) = RUNNING /\ chan_ok (pt_proc w t) /\ ret_ok (pt_proc w t).
Proof.
  intros Hon Hl. pose proof (on_running w t I Hon Hl) as Hr. pose proof (li_shape w I t) as S. unfold shape, pst in *.
  rewrite Hr in S. by destruct S as (_ & _ & ? & ?).
Qed.
Lemma exiting_state t code : p_on (pt_proc w t) = true -> p_pc (pt_proc w t) = XWake code \/ p_pc (pt_proc w t) = XSched code ->
  p_state (pt_proc w t) = ZOMBIE /\ p_ret (pt_proc w t) = code.
Proof.
  intros Hon Hp. pose proof (li_shape w I t) as S. unfold shape, pst, ret_ok in *. rewrite Hon in S.
  destruct (p_state (pt_proc w t)); try done; try (by destruct S as [S _]).
  - destruct S as (_ & Hl & _). by destruct Hp as [E|E]; rewrite E in Hl.
  - destruct S as (Hr & _). split; [done|]. by destruct Hp as [E|E]; rewrite E in Hr.
Qed.
(** the child that [waitpid] reaps is not running *)
Lemma reaped_off t pid c : p_on (pt_proc w t) = true -> p_pc (pt_proc w t) = WReap pid c ->
  pst w c = ZOMBIE /\ waits_for w t pid c = true /\ p_on (pt_proc w c) = false /\ c <> t.
Proof.
  intros Hon Hp. assert (pst w t = RUNNING) as Hr by (apply on_running; [done..|by rewrite Hp]).
  destruct (pi_reap w I t pid c) as [Hz Hw]; [by split; [rewrite Hr|rewrite Hp]|]. do 2 (split; [done|]).
  assert (c <> t) as Hne by (intros ->; congruence). split; [|done].
  destruct (p_on (pt_proc w c)) eqn:Ec; [|done]. exfalso.
  pose proof (has_lock w t c I Hon ltac:(by rewrite Hp)) as Hl.
  pose proof (li_shape w I c) as S. unfold shape, pst in *. rewrite Hz, Ec in S.
  destruct S as (_ & [(_ & code & E)|[? _]]); [|done]. assert (pt_lk w c = Some (HTask c)) as Hl'.
  { apply (li_lock w I). unfold locks. rewrite Ec. by destruct E as [-> | ->]. }
  congruence.
Qed.
Lemma forking_on t c : p_on (pt_proc w t) = true -> p_pc (pt_proc w t) = KBody c \/ p_pc (pt_proc w t) = KFail c ->
  pst w c = USED /\ p_on (pt_proc w c) = false /\ c <> t.
Proof.
  intros Hon Hp. assert (pst w t = RUNNING) as Hr by (apply on_running; [done..|by destruct Hp as [-> | ->]]).
  assert (pst w c = USED) as Hu.
  { apply (pi_used w I t). unfold forking, inside. rewrite Hr. by destruct Hp as [-> | ->]; auto. }
  split; [done|]. split; [|intros ->; congruence]. pose proof (li_shape w I c) as S. unfold shape, pst in *. rewrite Hu in S. apply S.
Qed.

(** tasks that a move touches beside the one that makes it are others *)
Lemma run_ne t k u : p_on (pt_proc w t) = true -> p_pc (pt_proc w t) = k -> living k -> pst w u <> RUNNING -> u <> t.
Proof. intros Hon Hp Hl Hu ->. subst k. by destruct (on_state t Hon Hl) as [? _]. Qed.
Lemma exit_not_init t k : p_on (pt_proc w t) = true -> p_pc (pt_proc w t) = k ->
  match k with XFree _ | XOrphan _ _ _ | XInit _ | XZombie _ | XWake _ | XSched _ => True | _ => False end -> t <> pt_init w.
Proof.
  intros Hon Hp Hk ->. pose proof (pi_stays w I) as H. rewrite Hp in H. destruct k; try done.
  - destruct (exiting_state _ code Hon) as [Hz _]; [by left|]. destruct (pi_init w I) as (_ & Ha & _). unfold pst in Ha. by rewrite Hz in Ha.
  - destruct (exiting_state _ code Hon) as [Hz _]; [by right|]. destruct (pi_init w I) as (_ & Ha & _). unfold pst in Ha. by rewrite Hz in Ha.
Qed.
Lemma not_own_parent c : p_parent (pt_proc w c) <> Some c.
Proof.
  intros E. destruct (decide (c = pt_init w)) as [->|Hc]; [by rewrite (proj1 (pi_init w I)) in E|].
  destruct (decide (alive (pst w c) = true \/ pst w c = ZOMBIE)) as [Ha|Ha].
  - destruct (pi_parent w I c Ha Hc) as (p & Ep & _ & Hne). congruence.
  - pose proof (li_shape w I c) as S. unfold shape, pst in *. destruct (p_state _); simpl in *; intuition congruence.
Qed.
(** a slot with a parent is in use *)
Lemma child_used c p : p_parent (pt_proc w c) = Some p -> alive (pst w c) = true \/ pst w c = ZOMBIE.
Proof.
  intros E. pose proof (li_shape w I c) as S. unfold shape, pst in *. rewrite E in S.
  destruct (p_state _); simpl in *; intuition congruence.
Qed.
Lemma runs_of t k : p_on (pt_proc w t) = true -> p_pc (pt_proc w t) = k -> living k -> runs w t k.
Proof. intros Hon <- Hl. split; [done|]. split; [done|]. by apply on_running. Qed.
Lemma exits_of t code k : p_on (pt_proc w t) = true -> p_pc (pt_proc w t) = k -> k = XWake code \/ k = XSched code -> exits w t k.
Proof. intros Hon Hp Hk. split; [done|]. split; [done|]. apply (exiting_state t code Hon). by rewrite Hp. Qed.
End Facts.

Section Steps.
Context (w : ptable) (t : nat) (I : pinv w) (Hon : p_on (pt_proc w t) = true).

Lemma t_small : (t < NTASKS)%nat.
Proof. by eapply on_small. Qed.
Lemma t_free : held t (p_pc (pt_proc w t)) = None -> forall y, pt_lk w y <> Some (HTask t).
Proof. by apply free_lock. Qed.
(** the lock of [t] alone, after [acquire(&ts->lk)] *)
Lemma t_alone : held t (p_pc (pt_proc w t)) = None -> forall x, pt_lk (plock t (Some (HTask t)) w) x = Some (HTask t) <-> x = t.
Proof.
  intros Hh x. rewrite lk_plock. case_decide; [by subst|]. split; [|done]. intros E. by apply (t_free Hh) in E.
Qed.

Lemma yield_moves r : open_frame (p_pc (pt_proc w t)) = true -> yield t w = Some r -> moved w r.
Proof.
  intros Ho. assert (held t (p_pc (pt_proc w t)) = None) as Hh by (by destruct (p_pc (pt_proc w t))).
  apply moved_acquire; [by apply t_free|]. intros Hl.
  assert (pst w t = RUNNING) as Hr by (apply on_running; [done|done|]; by destruct (p_pc (pt_proc w t))).
  change (pst (plock t (Some (HTask t)) w) t) with (pst w t). rewrite decide_True by done.
  rewrite psched_ok; [|apply t_small|by apply t_alone|rewrite pst_pwith, decide_True by done; done].
  eapply moved_ok; [eapply mv_yield; [apply runs_of; [done..|by destruct (p_pc (pt_proc w t))]|done|done]|]. weq_solve.
Qed.

Lemma user_moves c r : p_pc (pt_proc w t) = PUser -> user_step t c w = Some r -> moved w r.
Proof.
  intros Hp. pose proof (fun x => t_free ltac:(by rewrite Hp)) as Hf. pose proof (runs_of w I t PUser Hon Hp Logic.I) as R. destruct c; cbn [user_step]; try done.
  - intros [= <-]. eapply moved_ok; [eapply mv_goto; [exact R|apply go_wait]|]. weq_solve.
  - destruct (_ =? 1) eqn:E; breflect; intros [= <-].
    + eapply moved_ok; [by eapply mv_stay|]. weq_solve.
    + eapply moved_ok; [eapply mv_goto; [exact R|by apply go_exit]|]. weq_solve.
  - intros [= <-]. eapply moved_ok; [eapply mv_goto; [exact R|apply go_fork]|]. weq_solve.
  - apply moved_acquire; [by apply Hf|]. intros Hl. rel.
    eapply moved_ok; [by eapply mv_kill|]. weq_solve.
  - apply moved_acquire; [by apply Hf|]. intros Hl.
    rewrite psched_ok; [|apply t_small|apply t_alone; by rewrite Hp|rewrite pst_pwith, decide_True by done; done].
    eapply moved_ok; [by eapply mv_block|]. weq_solve.
  - case_decide as D; [|done]. destruct D as [D1 D2]. apply moved_acquire; [by apply Hf|]. intros Hl.
    rel. eapply moved_ok; [eapply (mv_unblock w t u); [done..|]; eapply run_ne; [done|exact Hon|exact Hp|done|by rewrite D1]|]. weq_solve.
Qed.

Lemma waitpid_moves r : waitpid_step t w = Some r -> moved w r.
Proof.
  unfold waitpid_step. destruct (p_pc (pt_proc w t)) eqn:Hp; try done; pose proof t_free as Hf; rewrite Hp in Hf; pose proof (runs_of w I t _ Hon Hp) as R; try specialize (R Logic.I).
  - destruct (Nat.ltb_spec i NTASKS) as [Ei|Ei].
    + apply moved_acquire; [by apply Hf|]. intros Hl. change (waits_for (plock _ _ _) ?a ?b ?c) with (waits_for w a b c).
      change (pst (plock _ _ w) ?a) with (pst w a). destruct (waits_for w t pid i) eqn:Ew; [case_decide as Ez|].
      * eapply moved_ok; [by eapply mv_found|]. weq_solve.
      * rel. eapply moved_ok; [eapply mv_goto; [exact R|by apply go_count]|]. weq_solve.
      * rel. eapply moved_ok; [eapply mv_goto; [exact R|by apply go_skip]|]. weq_solve.
    + destruct (Nat.eqb_spec cnt 0) as [Ec|Ec]; intros [= <-].
      * subst. eapply moved_ok; [eapply mv_goto; [exact R|apply go_none; lia]|]. weq_solve.
      * eapply moved_ok; [eapply mv_goto; [exact R|eapply go_bed; [|done]; lia]|]. weq_solve.
  - intros [= <-]. pose proof (has_lock w t c I Hon ltac:(by rewrite Hp)) as Hl.
    destruct (reaped_off w I t pid c Hon Hp) as (? & ? & ? & ?). rel. eapply moved_ok; [by eapply mv_reap|]. weq_solve.
  - apply moved_acquire; [by apply Hf|]. intros Hl. psimpl. destruct (p_pending _) eqn:Ep.
    + rel. eapply moved_ok; [by eapply mv_rescan|]. weq_solve.
    + rewrite psched_ok; [|apply t_small| |rewrite pst_pwith, decide_True by done; done].
      * eapply moved_ok; [by eapply mv_sleep|]. weq_solve.
      * intros x. rewrite !lk_pwith. apply t_alone. by rewrite Hp.
  - intros [= <-]. pose proof (has_lock w t t I Hon ltac:(by rewrite Hp)) as Hl.
    rel. eapply moved_ok; [by eapply mv_awake|]. weq_solve.
Qed.

Lemma kexit_moves r : kexit_step t PGo w = Some r -> moved w r.
Proof.
  unfold kexit_step. destruct (p_pc (pt_proc w t)) eqn:Hp; try done; pose proof t_free as Hf; rewrite Hp in Hf; pose proof (runs_of w I t _ Hon Hp) as R; try specialize (R Logic.I).
  - apply moved_acquire; [by apply Hf|]. intros Hl. rel. eapply moved_ok; [by eapply mv_free|]. weq_solve.
  - destruct (Nat.ltb_spec i NTASKS) as [Ei|Ei].
    + apply moved_acquire; [by apply Hf|]. intros Hl. change (pst (plock _ _ w) ?a) with (pst w a). psimpl. case_decide as Ep.
      * assert (i <> t) as Hit by (intros ->; by apply (not_own_parent w I t)).
        assert (i <> pt_init w) as Hii by (intros ->; by rewrite (proj1 (pi_init w I)) in Ep).
        rel. eapply moved_ok; [eapply mv_orphan; [done..| |done]; eapply exit_not_init; [done|exact Hon|exact Hp|done]|]. weq_solve.
      * rel. eapply moved_ok; [eapply mv_goto; [exact R|by apply go_other]|]. weq_solve.
    + intros [= <-]. eapply moved_ok; [eapply mv_goto; [exact R|apply go_done; lia]|]. weq_solve.
  - apply moved_acquire; [by apply Hf|]. intros Hl. rel. eapply moved_ok; [eapply mv_wake_init; [done..|eapply exit_not_init; [done|exact Hon|exact Hp|done]]|]. weq_solve.
  - apply moved_acquire; [by apply Hf|]. intros Hl. eapply moved_ok; [eapply mv_zombie; [done..|eapply exit_not_init; [done|exact Hon|exact Hp|done]]|]. weq_solve.
  - assert (pst w t = ZOMBIE) as Hz.
    { pose proof (li_shape w I t) as S. unfold shape, pst in *. rewrite Hp, Hon in S.
      destruct (p_state _); try done; try (destruct S as [S _]; done). by destruct S as (_ & [] & _). }
    assert (t <> pt_init w) as Hti.
    { intros ->. destruct (pi_init w I) as (_ & Ha & _). by rewrite Hz in Ha. }
    destruct (pi_parent w I t (or_intror Hz) Hti) as (p & E & _ & Hne). rewrite E. unfold pacquire.
    pose proof (has_lock w t t I Hon ltac:(by rewrite Hp)) as Hl. destruct (pt_lk w p) as [o|] eqn:Ep.
    + case_decide as D; [|done]. subst o. apply (li_lock w I) in Ep, Hl. congruence.
    + intros [= <-]. rel. eapply moved_ok; [eapply mv_wake_parent; [eapply exits_of; [done|done|done|by left]|done..]|]. weq_solve.
  - intros [= <-]. pose proof (has_lock w t t I Hon ltac:(by rewrite Hp)) as Hl. rewrite psched_ok; [|apply t_small| |].
    + eapply moved_ok; [eapply mv_dead; [eapply exits_of; [done|done|done|by right]|eapply exit_not_init; [done|exact Hon|exact Hp|done]]|]. weq_solve.
    + intros x. split; [|by intros ->]. intros Hx. apply (li_lock w I) in Hx, Hl. congruence.
    + intros Hr. pose proof (li_shape w I t) as S. unfold shape, pst in *. rewrite Hr, Hp in S. by destruct S as (_ & [] & _).
  - exfalso. pose proof (li_shape w I t) as S. unfold shape in S. rewrite Hp, Hon in S.
    destruct (p_state _); try done; try (destruct S as [S _]; done); [by destruct S as (_ & [] & _)|].
    destruct S as (_ & [(_ & c & [E|E])|[E _]]); done.
Qed.

Lemma kfork_moves c r : c <> PSleep -> kfork_step t c w = Some r -> moved w r.
Proof.
  intros Hc. unfold kfork_step. destruct (p_pc (pt_proc w t)) eqn:Hp; try done; pose proof t_free as Hf; rewrite Hp in Hf; pose proof (runs_of w I t _ Hon Hp Logic.I) as R; destruct c; try done.
  - destruct (Nat.ltb_spec i NTASKS) as [Ei|Ei].
    + apply moved_acquire; [by apply Hf|]. intros Hl. unfold alloc_task. change (pst (plock _ _ w) ?a) with (pst w a).
      case_decide as Es.
      * assert (i <> t) as Hit by (eapply run_ne; [done|exact Hon|exact Hp|done|by rewrite Es]). cbn [alloc_pid]. destruct ok.
        -- eapply moved_ok; [by eapply mv_alloc|]. weq_solve.
        -- rel. eapply moved_ok; [by eapply mv_alloc_fail|]. weq_solve.
      * rel. eapply moved_ok; [eapply mv_goto; [exact R|by apply go_taken]|]. weq_solve.
    + intros [= <-]. eapply moved_ok; [eapply mv_goto; [exact R|by apply go_full]|]. weq_solve.
  - pose proof (has_lock w t c0 I Hon ltac:(by rewrite Hp)) as Hl. destruct (forking_on w I t c0 Hon (or_introl Hp)) as (? & _ & ?). destruct ok; intros [= <-]; rel.
    + eapply moved_ok; [by eapply mv_child|]. weq_solve.
    + eapply moved_ok; [by eapply mv_child_fail|]. weq_solve.
  - destruct (forking_on w I t c0 Hon (or_intror Hp)) as (? & _ & ?). intros [= <-]. eapply moved_ok; [by eapply mv_unalloc|]. weq_solve.
  - intros [= <-]. eapply moved_ok; [eapply mv_goto; [exact R|by apply go_ret]|]. weq_solve.
Qed.

Lemma back_moves k k' : p_pc (pt_proc w t) = k -> (k = PFirst /\ k' = PUser \/ k = PYield k' \/ k = PBlock /\ k' = PUser) ->
  moved w (prelease t t ENone (pgoto t k' w)).
Proof.
  intros Hp Hk. assert (pt_lk w t = Some (HTask t)) as Hl.
  { apply has_lock; [done..|]. rewrite Hp. by destruct Hk as [[-> _]|[->|[-> _]]]. }
  assert (living k) as Hk'.
  { destruct Hk as [[-> _]|[->|[-> _]]]; [done| |done]. pose proof (li_shape w I t) as S. unfold shape in S. rewrite Hp, Hon in S.
    destruct (p_state _); simpl in S; try done; try (by destruct S as [S _]); [by destruct S as (_ & ? & _)|].
    by destruct S as (_ & [(_ & c & [E|E])|[? _]]). }
  rel. eapply moved_ok; [eapply mv_back; [by apply runs_of|done]|]. weq_solve.
Qed.

(** [acquire_sleep] that has to wait, with a task lock held *)
Lemma exit_wait code r : p_pc (pt_proc w t) = XFree code -> kexit_step t PSleep w = Some r -> r = Halt.
Proof.
  intros Hp. unfold kexit_step, pacquire. rewrite Hp. destruct (pt_lk w t) as [o|] eqn:El; [case_decide; by intros [= <-]|].
  unfold pgo, sleep_wait, pacquire. rewrite lk_plock, decide_True by done. rewrite decide_True by done. by intros [= <-].
Qed.
Lemma psched_two x k v : pt_lk v t = Some (HTask t) -> pt_lk v x = Some (HTask t) -> x <> t -> (x < NTASKS)%nat ->
  pst v t <> RUNNING -> psched t k v = Halt.
Proof.
  intros Ht Hx Hne Hlt Hs. unfold psched. rewrite decide_False by done. destruct (negb (pholds v t t)); [done|].
  destruct (Nat.eqb_spec (length (filter (pholds v t) (seq 0 NTASKS))) 1) as [E|E]; [exfalso|done].
  assert (forall y, (y < NTASKS)%nat -> pt_lk v y = Some (HTask t) -> y ∈ filter (pholds v t) (seq 0 NTASKS)) as Hin.
  { intros y Hy Hl. apply list_elem_of_filter. split; [unfold pholds; by rewrite bool_decide_eq_true_2|].
    apply elem_of_seq. lia. }
  pose proof (Hin t t_small Ht) as H1. pose proof (Hin x Hlt Hx) as H2.
  destruct (filter _ _) as [|a [|b l]]; [done| |done]. apply list_elem_of_singleton in H1, H2. congruence.
Qed.
Lemma fork_wait c r : p_pc (pt_proc w t) = KBody c -> kfork_step t PSleep w = Some r -> r = Halt.
Proof.
  intros Hp. unfold kfork_step. rewrite Hp. pose proof (has_lock w t c I Hon ltac:(by rewrite Hp)) as Hl.
  destruct (forking_on w I t c Hon (or_introl Hp)) as (Hu & _ & Hct). unfold sleep_wait, pacquire.
  destruct (pt_lk w t) as [o|] eqn:El; [case_decide; [by intros [= <-]|done]|]. intros [= <-]. apply (psched_two c).
  - rewrite lk_pwith, lk_plock. by rewrite decide_True.
  - rewrite lk_pwith, lk_plock. by rewrite decide_False.
  - done.
  - destruct (decide (c < NTASKS)%nat); [done|]. rewrite (li_small w I c) in Hu by lia. done.
  - by rewrite pst_pwith, decide_True.
Qed.

(** the moves in which a file or an inode of [exit_fs] or [kfork] is in use *)
Definition file_busy (u : nat) (c : pchoice) : Prop :=
  c = PSleep /\ ((exists code, p_pc (pt_proc w u) = XFree code) \/ exists k, p_pc (pt_proc w u) = KBody k).

Lemma proc_moves c r : proc_step t c w = Some r -> moved w r \/ r = Halt /\ file_busy t c.
Proof.
  assert (c = PSleep \/ c <> PSleep) as [->|Hc] by (destruct c; auto; by right).
  all: unfold proc_step.
  { destruct (p_pc (pt_proc w t)) eqn:Hp; try done.
    - left. by eapply user_moves.
    - intros E. right. split; [by eapply exit_wait|]. split; [done|]. left. by eexists.
    - unfold kfork_step. by rewrite Hp.
    - intros E. right. split; [by eapply fork_wait|]. split; [done|]. right. by eexists.
    - unfold kfork_step. by rewrite Hp.
    - unfold kfork_step. by rewrite Hp. }
  intros E. left. revert E. destruct c; destruct (p_pc (pt_proc w t)) eqn:Hp; try done; try (by apply user_moves); try (by apply waitpid_moves);
    try (by apply kexit_moves); try (by apply kfork_moves); try (apply yield_moves; by rewrite Hp);
    intros [= <-]; (eapply back_moves; [exact Hp|]; auto).
Qed.
End Steps.

Lemma pstep_outcome m w r : pinv w -> pstep m w = Some r -> moved w r \/ r = Halt /\ exists t c, m = MTask t c /\ file_busy w t c.
Proof.
  intros I. destruct m; simpl.
  - destruct (p_on _) eqn:E; [|done]. intros [?|[? ?]]%proc_moves; [by left|right; eauto|done..].
  - destruct (_ && _) eqn:E; [|done]. apply andb_true_iff in E as [[E1 E2]%andb_true_iff E3].
    apply Nat.ltb_lt in E1. apply bool_decide_eq_true in E2, E3. intros [= <-]. left. eapply moved_ok; [by eapply mv_pick|]. weq_solve.
  - case_decide as E; [|done]. intros [= <-]. left. eapply moved_ok; [by eapply mv_drop|]. weq_solve.
Qed.
Lemma pstep_moves m w e w' : pinv w -> pstep m w = Some (Ok (e, w')) -> moved w (Ok (e, w')).
Proof. intros I E. by destruct (pstep_outcome m w _ I E) as [?|[? _]]. Qed.
