(* ===== verification/ProcSafe.v ===== *)
(** Every move keeps the first half of the invariant: locks and states. *)
From stdpp Require Import base list option.
From Stdlib Require Import ZArith Lia FunctionalExtensionality.
From S2P Require Import Prelude Spinlock Sched Proc ProcInv ProcMoves.
Open Scope Z_scope.

Lemma weq_eq w w' : weq w w' -> w' = w.
Proof.
  intros (Hp & Hl & Hn & Hi). destruct w, w'. simpl in *. subst. f_equal; apply functional_extensionality; auto.
Qed.

(** the cases of a move, under fixed names *)
Ltac moves M := destruct M as [t k e k' (Hon & Hp & Hr) G|t (Hon & Hp & Hr) Hpid|t (Hon & Hp & Hr)|t pid (Hon & Hp & Hr) Hl Hpe|
  t code (Hon & Hp & Hr)|t pid i cnt (Hon & Hp & Hr) Hi Hl Hw Hz|t code (Hon & Hp & Hr) Hl Hti|
  t i (Hon & Hp & Hr) Hi Hl Hs Hit|t i (Hon & Hp & Hr) Hi Hl Hs Hit|t k k' (Hon & Hp & Hr) Hk|t pid (Hon & Hp & Hr)|
  t pid c (Hon & Hp & Hr) Hz Hw Hoc Hct|t c (Hon & Hp & Hr) Hus Hct|t c (Hon & Hp & Hr) Hus Hct|t c (Hon & Hp & Hr) Hus Hct|
  t k (Hon & Hp & Hr) Ho Hl|t (Hon & Hp & Hr) Hl|t pid (Hon & Hp & Hr) Hl Hpe|t code (Hon & Hp & Hr) Hti|
  t code i o (Hon & Hp & Hr) Hi Hl Hpa Hit Hti Hii|t code (Hon & Hp & Hr) Hl Hti|t code p (Hon & Hp & Hr) Hpa Hl Hpt Hti|
  t v (Hon & Hp & Hr) Hs Hv Hl Hvt|t Hi Hs Hl|t Hl].
(** the slots that a move touches *)
Ltac slots := repeat (case_decide; subst; try congruence).

Section Step.
Context (w : ptable) (I : pinv w).

Lemma not_child t k : p_on (pt_proc w t) = true -> p_pc (pt_proc w t) = k -> living k -> (forall pid, k <> WWake pid) ->
  p_chan (pt_proc w t) <> SLEEP_CHAN_CHILD.
Proof. intros Hon <- Hl Hn E. destruct (on_state w I t Hon Hl) as (_ & [pid Hp]%(fun H => H E) & _). by apply Hn in Hp. Qed.
Lemma shape_run p : p_state p = RUNNING -> p_on p = true -> living (p_pc p) -> p_chan p <> SLEEP_CHAN_CHILD -> ret_ok p -> shape p.
Proof. intros Hs Ho Hl Hc Hr. unfold shape. rewrite Hs. do 2 (split; [done|]). split; [|done]. by intros E. Qed.
(** a task that goes on *)
Lemma shape_at t k k' : p_on (pt_proc w t) = true -> p_pc (pt_proc w t) = k -> living k -> living k' -> (forall pid, k <> WWake pid) ->
  (ret_ok (pt_proc w t) -> ret_ok (pset_pc k' (pt_proc w t))) -> shape (pset_pc k' (pt_proc w t)).
Proof.
  intros Hon Hp Hl Hl' Hn Hr. subst k. destruct (on_state w I t Hon Hl) as (Hs & _ & Hro).
  apply shape_run; [done..| |by apply Hr]. by eapply not_child.
Qed.
Lemma shape_goes t k e k' : p_on (pt_proc w t) = true -> p_pc (pt_proc w t) = k -> pgoes w t k e k' -> shape (pset_pc k' (pt_proc w t)).
Proof.
  intros Hon Hp G. eapply shape_at; [done|exact Hp|..]; unfold ret_ok; rewrite ?Hp; by destruct G; try destruct o.
Qed.
Lemma shape_free p : p_on p = false -> shape (free_task p).
Proof. intros. by split. Qed.
Lemma shape_wake p : shape p -> shape (wake_wait_parent p).
Proof.
  intros S. unfold wake_wait_parent. case_decide as D; simpl in D.
  - destruct D as [D1 D2]. unfold shape in *. simpl. rewrite D1 in S. destruct S as (Ho & Hr & [[_ ?]|((pid & E) & _)]); [done|].
    split; [done|]. rewrite E. split; [done|]. split; [|done]. intros _. simpl. by exists pid.
  - unfold shape in *. simpl. destruct (p_state p); try done. destruct S as (Ho & Hr & [?|(? & ? & _)]); [by auto|]. by destruct D.
Qed.
Lemma shape_parent q p : shape p -> alive (p_state p) = true \/ p_state p = ZOMBIE -> shape (pset_parent q p).
Proof. unfold shape. simpl. destruct (p_state p); simpl; intuition done. Qed.
Lemma shape_off c : pst w c = INITLIZED \/ pst w c = USED -> p_on (pt_proc w c) = false /\ p_parent (pt_proc w c) = None.
Proof. intros Hc. pose proof (li_shape w I c) as S. unfold shape, pst in *. by destruct Hc as [E|E]; rewrite E in S; destruct S as (? & ?); tauto. Qed.
Lemma ret_of t : p_on (pt_proc w t) = true -> living (p_pc (pt_proc w t)) -> ret_ok (pt_proc w t).
Proof. intros Hon Hl. apply (on_state w I t Hon Hl). Qed.

Lemma shape_leave t k s f : p_on (pt_proc w t) = true -> pst w t = RUNNING -> p_pc (pt_proc w t) = k -> living k -> (forall pid, k <> WWake pid) ->
  (s = RUNNABLE /\ f = PYield k /\ open_frame k = true \/ s = SLEEP /\ f = PBlock) ->
  shape (pset_on false (pset_pc f (pset_state s (pt_proc w t)))).
Proof.
  intros Hon Hr Hp Hl Hn Hs. pose proof (not_child t k Hon Hp Hl Hn) as Hc. pose proof (ret_of t Hon ltac:(by rewrite Hp)) as Hre.
  destruct Hs as [(-> & -> & Ho)|(-> & ->)]; unfold shape, ret_ok in *; simpl.
  - split; [done|]. split; [done|]. split; [by intros E|]. rewrite Hp in Hre. by destruct k.
  - auto.
Qed.

Lemma shape_back t k k' : p_on (pt_proc w t) = true -> p_pc (pt_proc w t) = k -> pst w t = RUNNING ->
  (k = PFirst /\ k' = PUser \/ k = PYield k' \/ k = PBlock /\ k' = PUser) -> shape (pset_pc k' (pt_proc w t)).
Proof.
  intros Hon Hp Hr Hk. pose proof (li_shape w I t) as S. unfold shape, pst in *. rewrite Hr in S. destruct S as (_ & Hl & Hc & Hre).
  rewrite Hp in Hl. assert (open_frame k' = true /\ (forall pid, k <> WWake pid) /\ base k = k' \/ k' = PUser /\ living k /\ (forall pid, k <> WWake pid)) as [(Hl' & Hn & Hb)|(-> & Hlk & Hn)].
  { destruct Hk as [[-> ->]|[->|[-> ->]]]; [by right|by left|by right]. }
  - eapply (shape_at t); [done|exact Hp|done|by destruct k'|done|]. unfold ret_ok. simpl. rewrite Hp, Hb. by destruct k'.
  - by eapply (shape_at t).
Qed.
Lemma shape_step e w' : pmoves w e w' -> forall u, shape (pt_proc w' u).
Proof.
  intros M u. pose proof (li_shape w I u) as Su.
  moves M; psimpl; slots; try done; try (by eapply shape_goes); try (by apply shape_free); try (by eapply (shape_at t); rewrite ?Hp);
    try (by apply shape_wake); try (apply shape_free; by apply shape_off; auto);
    try (apply shape_run; [done..|by eapply not_child|done]).
  - unfold shape, ret_ok. simpl. pose proof (ret_of t Hon ltac:(by rewrite Hp)) as H. unfold ret_ok in H. rewrite Hp in H. split; [exact H|]. left. split; [done|]. exists code. by left.
  - pose proof (shape_off i (or_introl Hs)) as [? ?]. by split.
  - by eapply shape_back.
  - pose proof (ret_of t Hon ltac:(by rewrite Hp)) as H. apply shape_run; [done..|by vm_compute|done].
  - pose proof (li_shape w I c) as S. unfold shape, pst in *. rewrite Hus in S. destruct S as (? & _ & E & Hc). simpl. unfold ret_ok. simpl.
    rewrite E. by repeat split.
  - eapply shape_leave; [done|done|reflexivity| | |by auto]; by destruct (p_pc (pt_proc w t)).
  - eapply shape_leave; [done|done|exact Hp|done..|by auto].
  - pose proof (ret_of t Hon ltac:(by rewrite Hp)) as H. unfold shape. simpl. split; [done|]. split; [done|]. right. split; [by exists pid|done].
  - destruct (exiting_state w I t code Hon (or_intror Hp)) as [Hz Hre]. unfold shape, ret_ok. simpl. rewrite Hz. split; [done|]. right. by split; [|exists code].
  - eapply (shape_at t); [done|exact Hp|done..|]. unfold ret_ok. by rewrite Hp.
  - eapply (shape_at t); [done|exact Hp|done..|]. unfold ret_ok. by rewrite Hp.
  - apply shape_parent; [done|]. by eapply child_used.
  - eapply (shape_at t); [done|exact Hp|done..|]. unfold ret_ok. by rewrite Hp.
  - destruct (exiting_state w I t code Hon (or_introl Hp)) as [Hz Hre]. unfold shape, ret_ok. simpl. rewrite Hz. split; [done|]. left. split; [done|]. exists code. by right.
  - unfold shape, pst in *. rewrite Hs in Su. simpl. destruct Su as (? & Hre & [[E ?]|((pid & E) & _)]); [|congruence].
    rewrite E. split; [done|]. split; [done|]. split; [by intros ?|done].
  - unfold shape, pst in *. rewrite Hs in Su. simpl. destruct Su as (? & H1 & H2 & H3). split; [done|]. split; [|done]. by destruct (p_pc _).
Qed.

(** ** Locks *)
Lemma locks_off t : p_on (pt_proc w t) = false -> locks w t = None.
Proof. intros E. unfold locks. by rewrite E. Qed.
Lemma locks_on t k : p_on (pt_proc w t) = true -> p_pc (pt_proc w t) = k -> locks w t = held t k.
Proof. intros E <-. unfold locks. by rewrite E. Qed.
Lemma on_wake p : p_on (wake_wait_parent p) = p_on p /\ p_pc (wake_wait_parent p) = p_pc p.
Proof. unfold wake_wait_parent. by case_decide. Qed.

Ltac others := intros u ?; unfold locks; psimpl; slots; try done; by rewrite ?(proj1 (on_wake _)), ?(proj2 (on_wake _)).
Ltac mine := unfold locks; psimpl; slots; simpl; try match goal with H : p_on _ = true |- _ => rewrite ?H end; done.

Lemma open_held t k : open_frame k = true -> held t k = None.
Proof. by destruct k. Qed.

(** the lock of [t] passes between nobody and the scheduler *)
Lemma li_lock_swap t w' : same_locks t w w' -> locks w t = None -> locks w' t = None -> (forall u, pt_lk w' t <> Some (HTask u)) ->
  (forall y, y <> t -> pt_lk w' y = pt_lk w y) -> (forall u, pt_lk w t <> Some (HTask u)) ->
  forall y u, pt_lk w' y = Some (HTask u) <-> locks w' u = Some y.
Proof.
  intros Ho Ht Ht' Hn Hk Hn0 y u. assert (locks w' u = locks w u) as -> by (destruct (decide (u = t)) as [->|Hu]; [congruence|by apply Ho]).
  destruct (decide (y = t)) as [->|Hy]; [|rewrite (Hk y Hy); apply I].
  split; [by intros ?%Hn|]. intros E%(li_lock w I). by apply Hn0 in E.
Qed.
Lemma runnable_off t : pst w t = RUNNABLE -> p_on (pt_proc w t) = false /\ resumes (p_pc (pt_proc w t)).
Proof. intros Hs. pose proof (li_shape w I t) as S. unfold shape, pst in *. rewrite Hs in S. by destruct S as (? & ? & _). Qed.
Lemma lock_step e w' : pmoves w e w' -> forall x t, pt_lk w' x = Some (HTask t) <-> locks w' t = Some x.
Proof.
  intros M. moves M.
  - apply (li_lock_same t w); [done|others| |done]. rewrite (locks_on t k) by done. destruct G; try destruct o; mine.
  - apply I.
  - apply (li_lock_same t w); [done|others|mine|done].
  - apply (li_lock_same t w); [done|others| |done]. rewrite (locks_on t (WSleep pid)) by done. mine.
  - apply (li_lock_same t w); [done|others| |done]. rewrite (locks_on t (XFree code)) by done. mine.
  - apply (li_lock_take t i w); [done|others|by rewrite (locks_on t (WScan pid i cnt))|mine|done|]. intros y. by psimpl.
  - apply (li_lock_take t t w); [done|others|by rewrite (locks_on t (XZombie code))|mine|done|]. intros y. by psimpl.
  - destruct (shape_off i (or_introl Hs)) as [Hoi _].
    apply (li_lock_take t i w); [done| |by rewrite (locks_on t (KAlloc i))|mine|done|]; [|intros y; by psimpl].
    intros u ?. unfold locks. psimpl. slots; simpl; by rewrite ?Hoi.
  - destruct (shape_off i (or_introl Hs)) as [Hoi _]. apply (li_lock_same t w); [done| | |done].
    + intros u ?. unfold locks. psimpl. slots; simpl; by rewrite ?Hoi.
    + rewrite (locks_on t (KAlloc i)) by done. mine.
  - assert (held t k = Some t /\ held t k' = None) as [H1 H2].
    { destruct Hk as [[-> ->]|[->|[-> ->]]]; [done| |done]. split; [done|]. apply open_held.
      pose proof (li_shape w I t) as S. unfold shape, pst in *. rewrite Hr, Hp in S. apply S. }
    apply (li_lock_give t t None w); [done|others|by rewrite (locks_on t k)| |done|intros y; by psimpl].
    unfold locks. psimpl. slots. simpl. by rewrite Hon.
  - apply (li_lock_give t t None w); [done|others|by rewrite (locks_on t (WWake pid))|mine|done|intros y; by psimpl].
  - apply (li_lock_give t c None w); [done|others|by rewrite (locks_on t (WReap pid c))|mine|done|intros y; by psimpl].
  - apply (li_lock_give t c None w); [done|others|by rewrite (locks_on t (KBody c))|mine|done|intros y; by psimpl].
  - apply (li_lock_give t c None w); [done|others|by rewrite (locks_on t (KBody c))|mine|done|intros y; by psimpl].
  - apply (li_lock_same t w); [done|others| |done]. rewrite (locks_on t (KFail c)) by done. mine.
  - apply (li_lock_swap t); [others|by rewrite (locks_on t k), open_held|mine|by psimpl; slots|intros y ?; psimpl; slots|by rewrite Hl].
  - apply (li_lock_swap t); [others|by rewrite (locks_on t PUser)|mine|by psimpl; slots|intros y ?; psimpl; slots|by rewrite Hl].
  - apply (li_lock_swap t); [others|by rewrite (locks_on t (WSleep pid))|mine|by psimpl; slots|intros y ?; psimpl; slots|by rewrite Hl].
  - apply (li_lock_give t t (Some HSched) w); [done|others|by rewrite (locks_on t (XSched code))|mine|done|intros y; by psimpl].
  - apply (li_lock_same t w); [done|others| |done]. rewrite (locks_on t (XOrphan code i o)) by done. mine.
  - apply (li_lock_same t w); [done|others| |done]. rewrite (locks_on t (XInit code)) by done. mine.
  - apply (li_lock_same t w); [done|others| |done]. rewrite (locks_on t (XWake code)) by done. mine.
  - apply (li_lock_same t w); [done|others|mine|done].
  - destruct (runnable_off t Hs) as [Ho Hk]. apply (li_lock_take t t w); [done|others|by apply locks_off| |done|intros y; by psimpl].
    unfold locks. psimpl. slots. simpl. by destruct (p_pc _).
  - apply (li_lock_swap t); [done|by apply locks_off, (li_sched w I)|by apply locks_off, (li_sched w I)|by psimpl; slots|intros y ?; psimpl; slots|by rewrite Hl].
Qed.

Lemma sched_step e w' : pmoves w e w' -> forall x, pt_lk w' x = Some HSched -> p_on (pt_proc w' x) = false.
Proof.
  intros M x. pose proof (li_sched w I x) as Hx. moves M; psimpl; slots; simpl; rewrite ?(proj1 (on_wake _)); try done; intros E;
    try (by apply Hx); by apply Hx in E.
Qed.
Lemma small_step e w' : pmoves w e w' -> forall u, (NTASKS <= u)%nat -> pst w' u = INITLIZED.
Proof.
  intros M u Hu. pose proof (li_small w I u Hu) as Hx. assert (Hwk : p_state (wake_wait_parent (pt_proc w u)) = INITLIZED).
  { unfold wake_wait_parent. rewrite decide_False; [done|]. simpl. unfold pst in Hx. rewrite Hx. by intros []. }
  unfold pst in *. moves M; unfold pst in *; psimpl; slots; simpl; (done || congruence || lia).
Qed.
End Step.
