(* ===== verification/ProcTree.v ===== *)
(** Every move keeps the second half of the invariant: parents, [kfork] and
    [waitpid].

    Most moves are quiet: nobody is born, dies or changes parents, and one task
    goes on to another frame.  Each clause is proved for quiet moves first and
    then for the six others. *)
From stdpp Require Import base list option.
From Stdlib Require Import ZArith Lia.
From S2P Require Import Prelude Spinlock Sched Proc ProcInv ProcMoves ProcSafe.
Open Scope Z_scope.

(** what the tree of processes sees of a state *)
Inductive phase := CFree | CUsed | CAlive | CZombie.
Definition phase_of (s : task_state) : phase :=
  match s with INITLIZED => CFree | USED => CUsed | RUNNABLE | RUNNING | SLEEP => CAlive | ZOMBIE => CZombie | _ => CFree end.
(** the function that a living task is in *)
Definition fr (w : ptable) (u : nat) : option pframe :=
  if alive (pst w u) then Some (base (p_pc (pt_proc w u))) else None.

Lemma inside_fr w u k : inside w u k <-> fr w u = Some k.
Proof. unfold inside, fr. destruct (alive _); split; [by intros [_ ->]|by intros [= ->]|by intros []|done]. Qed.
Lemma alive_phase s : alive s = true <-> phase_of s = CAlive.
Proof. by destruct s. Qed.
Lemma zombie_phase s : s = ZOMBIE <-> phase_of s = CZombie.
Proof. by destruct s. Qed.
Lemma used_phase s : s = USED <-> phase_of s = CUsed.
Proof. by destruct s. Qed.

Record quiet (t : nat) (k' : option pframe) (w w' : ptable) : Prop := {
  q_parent u : p_parent (pt_proc w' u) = p_parent (pt_proc w u);
  q_phase u : phase_of (pst w' u) = phase_of (pst w u);
  q_pid u : phase_of (pst w u) <> CFree -> p_pid (pt_proc w' u) = p_pid (pt_proc w u);
  q_init : pt_init w' = pt_init w;
  q_fr u : u <> t -> fr w' u = fr w u;
  q_at : fr w' t = k' }.

Lemma wake_fields p : p_parent (wake_wait_parent p) = p_parent p /\ p_pid (wake_wait_parent p) = p_pid p /\
  p_pc (wake_wait_parent p) = p_pc p /\ p_on (wake_wait_parent p) = p_on p /\ p_pending (wake_wait_parent p) = true /\
  phase_of (p_state (wake_wait_parent p)) = phase_of (p_state p) /\ alive (p_state (wake_wait_parent p)) = alive (p_state p).
Proof. unfold wake_wait_parent. case_decide as D; simpl in *; [|done]. destruct D as [-> _]. done. Qed.

Ltac wake_simpl := rewrite ?(proj1 (wake_fields _)), ?(proj1 (proj2 (wake_fields _))), ?(proj1 (proj2 (proj2 (wake_fields _)))),
  ?(proj1 (proj2 (proj2 (proj2 (proj2 (proj2 (wake_fields _))))))), ?(proj2 (proj2 (proj2 (proj2 (proj2 (proj2 (wake_fields _))))))).
Ltac states := repeat match goal with
  | H : p_state (pt_proc _ _) = _ |- _ => rewrite H in *
  | H : p_pc (pt_proc _ _) = _ |- _ => rewrite H in *
  end.
Ltac quiet_tac := split; [intros ?..|done|intros ? ?|]; unfold fr, pst in *; psimpl; slots; simpl; wake_simpl; states; try done.

(** the part of [kexit] before [ts->state = ZOMBIE] *)
Definition exit_frame (k : pframe) : bool :=
  match k with XFree _ | XOrphan _ _ _ | XInit _ | XZombie _ => true | _ => false end.

Section Step.
Context (w : ptable) (I : pinv w).

(** the moves that are not quiet *)
Definition loud (w' : ptable) : Prop :=
  (exists t code, fr w t = Some (XZombie code) /\ t <> pt_init w /\ p_on (pt_proc w t) = true /\
     w' = plock t (Some (HTask t)) (pwith t (fun p => pset_pc (XWake code) (pset_dead true (pset_state ZOMBIE p))) w)) \/
  (exists t i, fr w t = Some (KAlloc i) /\ pst w i = INITLIZED /\ i <> t /\
     w' = plock i (Some (HTask t)) (pgoto t (KBody i) (fresh i w))) \/
  (exists t pid c, fr w t = Some (WReap pid c) /\ pst w c = ZOMBIE /\ waits_for w t pid c = true /\ p_on (pt_proc w c) = false /\ c <> t /\
     w' = plock c None (pgoto t PUser (pwith c free_task w))) \/
  (exists t c, fr w t = Some (KBody c) /\ pst w c = USED /\ c <> t /\ alive (pst w t) = true /\
     w' = plock c None (pgoto t (KRet c) (pwith c (fun p => pset_state RUNNABLE (pset_parent (Some t) p)) w))) \/
  (exists t c, fr w t = Some (KFail c) /\ pst w c = USED /\ c <> t /\ w' = pgoto t PUser (pwith c free_task w)) \/
  (exists t code i o, fr w t = Some (XOrphan code i o) /\ p_parent (pt_proc w i) = Some t /\ i <> t /\ t <> pt_init w /\ i <> pt_init w /\
     w' = pgoto t (XOrphan code (S i) (o || bool_decide (pst w i = ZOMBIE))) (pwith i (pset_parent (Some (pt_init w))) w)).

Lemma run_fr t k : pst w t = RUNNING -> p_pc (pt_proc w t) = k -> fr w t = Some (base k).
Proof. intros Hr <-. unfold fr. by rewrite Hr. Qed.

(** how the frame of a task changes in a quiet move *)
Inductive turn (w' : ptable) (t : nat) : option pframe -> option pframe -> Prop :=
| turn_same k : turn w' t k k
| turn_go k e k' : pgoes w t k e k' -> turn w' t (Some k) (Some k')
| turn_free code : turn w' t (Some (XFree code)) (Some (XOrphan code 0 false))
| turn_found pid i cnt : pst w i = ZOMBIE -> waits_for w t pid i = true -> turn w' t (Some (WScan pid i cnt)) (Some (WReap pid i))
| turn_fail c : turn w' t (Some (KBody c)) (Some (KFail c))
| turn_zombie code : p_pending (pt_proc w' (pt_init w)) = true -> turn w' t (Some (XInit code)) (Some (XZombie code))
| turn_sleep pid : turn w' t (Some (WSleep pid)) (Some (WWake pid))
| turn_plain k k' : exit_frame k = false -> match k' with PUser | PBlock | WScan _ 0 0 => True | _ => False end -> turn w' t (Some k) (Some k').

Lemma moves_cases e w' : pmoves w e w' -> (exists t k', quiet t k' w w' /\ turn w' t (fr w t) k') \/ loud w'.
Proof.
  intros M. moves M; try (pose proof (run_fr t _ Hr Hp) as Hf; simpl in Hf).
  - left. exists t, (Some k'). rewrite Hf. assert (base k = k /\ base k' = k') as [-> Hb] by (by destruct G; try destruct o).
    split; [|by eapply turn_go]. quiet_tac. by rewrite Hb.
  - left. exists t, (fr w t). split; [|apply turn_same]. quiet_tac.
  - left. exists t, (fr w t). split; [|apply turn_same]. quiet_tac.
  - left. exists t, (Some (WScan pid 0 0)). rewrite Hf. split; [|by apply turn_plain]. quiet_tac.
  - left. exists t, (Some (XOrphan code 0 false)). rewrite Hf. split; [|by apply turn_free]. quiet_tac.
  - left. exists t, (Some (WReap pid i)). rewrite Hf. split; [|by apply turn_found]. quiet_tac.
  - right. left. by exists t, code.
  - right. right. left. by exists t, i.
  - left. exists t, (Some PUser). rewrite Hf. destruct (shape_off w I i (or_introl Hs)) as [_ Hpi]. split; [|by apply turn_plain]. quiet_tac.
  - left. exists t, (Some (base k')). rewrite Hf. split; [quiet_tac|].
    destruct Hk as [[-> ->]|[->|[-> ->]]]; [by apply turn_plain| |by apply turn_plain]. simpl.
    assert (base k' = k') as ->; [|apply turn_same]. pose proof (li_shape w I t) as S. unfold shape, pst in *. rewrite Hr, Hp in S.
    destruct S as (_ & Hl & _). by destruct k'.
  - left. exists t, (Some (WScan pid 0 0)). rewrite Hf. split; [|by apply turn_plain]. quiet_tac.
  - right. do 2 right. left. by exists t, pid, c.
  - right. do 3 right. left. exists t, c. by rewrite Hr.
  - left. exists t, (Some (KFail c)). rewrite Hf. split; [|by apply turn_fail]. quiet_tac.
  - right. do 4 right. left. by exists t, c.
  - left. exists t, (Some k). rewrite Hf. split; [quiet_tac|]. assert (base k = k) as -> by (by destruct k). apply turn_same.
  - left. exists t, (Some PBlock). rewrite Hf. split; [|by apply turn_plain]. quiet_tac.
  - left. exists t, (Some (WWake pid)). rewrite Hf. split; [|by apply turn_sleep]. quiet_tac.
  - left. exists t, (fr w t). split; [|apply turn_same]. quiet_tac.
  - right. do 5 right. by exists t, code, i, o.
  - left. exists t, (Some (XZombie code)). rewrite Hf. split; [quiet_tac|apply turn_zombie].
    psimpl. rewrite decide_False by done. rewrite decide_True by done. apply wake_fields.
  - left. exists t, (fr w t). split; [|apply turn_same]. quiet_tac.
  - left. exists v, (fr w v). split; [|apply turn_same]. quiet_tac.
  - left. exists t, (fr w t). split; [|apply turn_same]. quiet_tac.
  - left. exists t, (fr w t). split; [|apply turn_same]. quiet_tac.
Qed.

(** ** What the other moves change: task [t], and slot [c] *)
Record change (t c : nat) (w' : ptable) : Prop := {
  ch_parent u : u <> c -> p_parent (pt_proc w' u) = p_parent (pt_proc w u);
  ch_phase u : u <> c -> phase_of (pst w' u) = phase_of (pst w u);
  ch_pid u : u <> c -> p_pid (pt_proc w' u) = p_pid (pt_proc w u);
  ch_init : pt_init w' = pt_init w;
  ch_fr u : u <> t -> u <> c -> fr w' u = fr w u }.

Abbreviation ph u := (phase_of (pst w u)).
Abbreviation par u := (p_parent (pt_proc w u)).
Inductive event (w' : ptable) : Prop :=
| ev_zombie t code : change t t w' -> fr w t = Some (XZombie code) -> t <> pt_init w -> fr w' t = None -> phase_of (pst w' t) = CZombie ->
    p_parent (pt_proc w' t) = par t -> p_pid (pt_proc w' t) = p_pid (pt_proc w t) -> p_on (pt_proc w' t) = true -> p_pc (pt_proc w' t) = XWake code -> event w'
| ev_alloc t c : change t c w' -> c <> t -> fr w t = Some (KAlloc c) -> fr w' t = Some (KBody c) -> ph c = CFree -> phase_of (pst w' c) = CUsed ->
    p_parent (pt_proc w' c) = None -> event w'
| ev_reap t c pid : change t c w' -> c <> t -> fr w t = Some (WReap pid c) -> fr w' t = Some PUser -> ph c = CZombie -> par c = Some t ->
    phase_of (pst w' c) = CFree -> p_parent (pt_proc w' c) = None -> p_on (pt_proc w c) = false -> event w'
| ev_child t c : change t c w' -> c <> t -> fr w t = Some (KBody c) -> fr w' t = Some (KRet c) -> ph c = CUsed -> par c = None ->
    phase_of (pst w' c) = CAlive -> p_parent (pt_proc w' c) = Some t -> fr w' c = Some PFirst -> event w'
| ev_unalloc t c : change t c w' -> c <> t -> fr w t = Some (KFail c) -> fr w' t = Some PUser -> ph c = CUsed ->
    phase_of (pst w' c) = CFree -> p_parent (pt_proc w' c) = None -> event w'
| ev_orphan t c code o o' : change t c w' -> c <> t -> c <> pt_init w -> t <> pt_init w -> fr w t = Some (XOrphan code c o) ->
    fr w' t = Some (XOrphan code (S c) o') -> par c = Some t -> p_parent (pt_proc w' c) = Some (pt_init w) ->
    phase_of (pst w' c) = ph c -> fr w' c = fr w c -> p_pid (pt_proc w' c) = p_pid (pt_proc w c) ->
    (o' = true <-> o = true \/ ph c = CZombie) -> event w'.

(** the fields of the slots that a move does not touch *)
Ltac change_tac := split; try done; intros; unfold fr, pst in *; psimpl; slots; done.
Lemma loud_event w' : loud w' -> event w'.
Proof.
  intros [(t & code & Hf & Hi & Hl & ->)|[(t & i & Hf & Hs & Hn & ->)|[(t & pid & c & Hf & Hz & Hw & Ho & Hn & ->)|
    [(t & c & Hf & Hs & Hn & Ha & ->)|[(t & c & Hf & Hs & Hn & ->)|(t & code & i & o & Hf & Hpa & Hn & Hti & Hii & ->)]]]]];
    assert (alive (pst w t) = true) as Hal by (by unfold fr in Hf; destruct (alive _)).
  - apply (ev_zombie _ t code); try done; [change_tac|unfold fr, pst; psimpl; slots; done..].
  - destruct (shape_off w I i (or_introl Hs)) as [_ Hpi]. unfold pst in Hal, Hs.
    apply (ev_alloc _ t i); try done; [change_tac|unfold fr, pst; psimpl; slots; simpl; rewrite ?Hal, ?Hs; done..].
  - apply andb_true_iff in Hw as [Hw%bool_decide_eq_true _]. unfold pst in Hal, Hz.
    apply (ev_reap _ t c pid); try done; [change_tac|unfold fr, pst; psimpl; slots; simpl; rewrite ?Hal, ?Hz; done..].
  - destruct (shape_off w I c (or_intror Hs)) as [_ Hpc]. pose proof (li_shape w I c) as S. unfold shape in S. unfold pst in Hal, Hs.
    rewrite Hs in S. destruct S as (_ & _ & Hpf & _).
    apply (ev_child _ t c); try done; [change_tac|unfold fr, pst; psimpl; slots; simpl; rewrite ?Hal, ?Hs, ?Hpf; done..].
  - unfold pst in Hal, Hs.
    apply (ev_unalloc _ t c); try done; [change_tac|unfold fr, pst; psimpl; slots; simpl; rewrite ?Hal, ?Hs; done..].
  - apply (ev_orphan _ t i code o (o || bool_decide (pst w i = ZOMBIE))); try done; unfold pst in Hal;
      [change_tac|try (unfold fr, pst; psimpl; slots; simpl; rewrite ?Hal; done)..].
    rewrite orb_true_iff, bool_decide_eq_true. by rewrite zombie_phase.
Qed.

(** ** The clauses about parents and [kfork] *)
Lemma init_fr : exists k, fr w (pt_init w) = Some k /\ exit_frame k = false.
Proof.
  destruct (pi_init w I) as (_ & Ha & _). exists (base (p_pc (pt_proc w (pt_init w)))). unfold fr. rewrite Ha.
  split; [done|]. pose proof (pi_stays w I) as H. by destruct (base _).
Qed.
Lemma fr_alive w1 u k : fr w1 u = Some k -> phase_of (pst w1 u) = CAlive.
Proof. unfold fr. intros E. apply alive_phase. by destruct (alive _). Qed.
Lemma fr_phase w1 u k : phase_of (pst w1 u) <> CAlive -> fr w1 u <> Some k.
Proof. by intros H E%fr_alive. Qed.
Lemma init_alive : ph (pt_init w) = CAlive.
Proof. destruct init_fr as (k & E & _). by eapply fr_alive. Qed.
Lemma no_parent c : ph c = CFree \/ ph c = CUsed -> par c = None.
Proof.
  intros H. destruct (par c) eqn:E; [|done]. destruct (child_used w I c _ E) as [Ha%alive_phase|Hz%zombie_phase]; destruct H; congruence.
Qed.

(** the parts of a move that the clauses below look at *)
Definition moves_as (w' : ptable) : Prop := (exists t k', quiet t k' w w' /\ turn w' t (fr w t) k') \/ event w'.
Lemma moves_split e w' : pmoves w e w' -> moves_as w'.
Proof. intros [?|?%loud_event]%moves_cases; [by left|by right]. Qed.

Lemma init_step e w' : pmoves w e w' -> pt_init w' = pt_init w.
Proof. intros [(t & k' & Q & _)|[]]%moves_split; try (by eapply ch_init). apply Q. Qed.

(** the ways in which a frame is reached in a quiet move: [Ea] is the old one *)
Ltac turned T := match type of T with turn _ ?t _ _ =>
  inversion T; clear T; subst;
  match goal with H : _ = fr w t |- _ => symmetry in H; rename H into Ea | H : fr w t = _ |- _ => rename H into Ea end end.
Ltac went := match goal with G : pgoes _ _ _ _ _ |- _ => inversion G; clear G; simplify_eq end.

Section Clauses.
Context (w' : ptable) (M : moves_as w').
Abbreviation ph' u := (phase_of (pst w' u)).
Abbreviation par' u := (p_parent (pt_proc w' u)).

(** a move that changes slot [c] does not change [init] *)
Ltac cases := destruct M as [(t & k' & Q & T)|[t code0 C Hf Hti Hf' Hz Hpa Hpid Hon Hpc|t c0 C Hct Hf Hf' Hc Hc' Hpc|t c0 pid0 C Hct Hf Hf' Hc Hpa Hc' Hpc Ho|
  t c0 C Hct Hf Hf' Hc Hpa Hc' Hpc Hfc|t c0 C Hct Hf Hf' Hc Hc' Hpc|t c0 code0 o o' C Hct Hci Hti Hf Hf' Hpa Hpc Hc Hfc Hpid Ho]].

Lemma as_init : pt_init w' = pt_init w.
Proof. cases; [apply Q|by eapply ch_init..]. Qed.
Lemma step_init : par' (pt_init w') = None /\ alive (pst w' (pt_init w')) = true /\ p_pid (pt_proc w' (pt_init w')) = 1.
Proof.
  rewrite as_init, alive_phase. pose proof init_alive as Ha. destruct (pi_init w I) as (Hn & _ & Hp).
  cases; [by rewrite (q_parent _ _ _ _ Q), (q_phase _ _ _ _ Q), (q_pid _ _ _ _ Q) by congruence|..];
    rewrite (ch_parent _ _ _ C), (ch_phase _ _ _ C), (ch_pid _ _ _ C) by congruence; done.
Qed.

(** the frame of a task after a move *)
Lemma fr_from u k : fr w' u = Some k ->
  fr w u = Some k \/ (exists t, quiet t (Some k) w w' /\ turn w' t (fr w u) (Some k) /\ u = t) \/
  (exists c, fr w u = Some (KAlloc c) /\ k = KBody c /\ ph c = CFree /\ ph' c = CUsed /\
     forall v kv, v <> u -> fr w' v = Some kv -> fr w v = Some kv) \/
  k = PUser \/ (exists c, fr w u = Some (KBody c) /\ k = KRet c /\ par' c = Some u) \/ k = PFirst \/
  (exists code c o o', fr w u = Some (XOrphan code c o) /\ k = XOrphan code (S c) o' /\ par' c = Some (pt_init w) /\ u <> pt_init w /\
     (o' = true <-> o = true \/ ph c = CZombie)).
Proof.
  intros E. cases.
  - destruct (decide (u = t)) as [->|Hu]; [right; left|left; by rewrite <- (q_fr _ _ _ _ Q)]. exists t. rewrite (q_at _ _ _ _ Q) in E. by rewrite <- E.
  - destruct (decide (u = t)) as [->|Hu]; [congruence|left; by rewrite <- (ch_fr _ _ _ C)].
  - destruct (decide (u = t)) as [->|Hu]; [do 2 right; left; exists c0; split_and!; [done|congruence|done..|]|].
    { intros v kv Hv Ev. destruct (decide (v = c0)) as [->|Hvc]; [apply fr_alive in Ev; congruence|by rewrite <- (ch_fr _ _ _ C)]. }
    destruct (decide (u = c0)) as [->|Huc]; [apply fr_alive in E; congruence|left; by rewrite <- (ch_fr _ _ _ C)].
  - destruct (decide (u = t)) as [->|Hu]; [do 3 right; left; congruence|].
    destruct (decide (u = c0)) as [->|Huc]; [apply fr_alive in E; congruence|left; by rewrite <- (ch_fr _ _ _ C)].
  - destruct (decide (u = t)) as [->|Hu]; [do 4 right; left; exists c0; by split_and!; [|congruence|..]|].
    destruct (decide (u = c0)) as [->|Huc]; [do 5 right; left; congruence|left; by rewrite <- (ch_fr _ _ _ C)].
  - destruct (decide (u = t)) as [->|Hu]; [do 3 right; left; congruence|].
    destruct (decide (u = c0)) as [->|Huc]; [apply fr_alive in E; congruence|left; by rewrite <- (ch_fr _ _ _ C)].
  - destruct (decide (u = t)) as [->|Hu]; [do 6 right; exists code0, c0, o, o'; by split_and!; [|congruence|..]|].
    destruct (decide (u = c0)) as [->|Huc]; [left; congruence|left; by rewrite <- (ch_fr _ _ _ C)].
Qed.

(** the parent of a slot before and after a move *)
Lemma par_from c u : par' c = Some u -> par c = Some u \/ fr w' u = Some (KRet c) \/
  u = pt_init w /\ exists t code o, fr w t = Some (XOrphan code c o) /\ t <> u.
Proof.
  intros E. cases.
  - left. by rewrite <- (q_parent _ _ _ _ Q).
  - left. destruct (decide (c = t)) as [->|Hu]; [congruence|by rewrite <- (ch_parent _ _ _ C)].
  - left. destruct (decide (c = c0)) as [->|Hu]; [congruence|by rewrite <- (ch_parent _ _ _ C)].
  - left. destruct (decide (c = c0)) as [->|Hu]; [congruence|by rewrite <- (ch_parent _ _ _ C)].
  - destruct (decide (c = c0)) as [->|Hu]; [right; left; congruence|left; by rewrite <- (ch_parent _ _ _ C)].
  - left. destruct (decide (c = c0)) as [->|Hu]; [congruence|by rewrite <- (ch_parent _ _ _ C)].
  - destruct (decide (c = c0)) as [->|Hu]; [right; right|left; by rewrite <- (ch_parent _ _ _ C)].
    assert (u = pt_init w) as -> by congruence. split; [done|]. by exists t, code0, o.
Qed.
Lemma child_keep c u : par c = Some u ->
  par' c = Some u /\ p_pid (pt_proc w' c) = p_pid (pt_proc w c) \/ fr w' u = Some PUser /\ ph' c = CFree \/
  (exists code o, fr w u = Some (XOrphan code c o)) /\ par' c = Some (pt_init w).
Proof.
  intros E. assert (ph c <> CFree) as Hph by (intros H; rewrite no_parent in E; auto; congruence).
  assert (ph c <> CUsed) as Hpu by (intros H; rewrite no_parent in E; auto; congruence).
  cases; try (destruct (decide (c = c0)) as [->|Hu]; [try congruence|left; by rewrite (ch_parent _ _ _ C), (ch_pid _ _ _ C)]).
  - left. by rewrite (q_parent _ _ _ _ Q), (q_pid _ _ _ _ Q).
  - left. destruct (decide (c = t)) as [->|Hu]; [by rewrite Hpa, Hpid|by rewrite (ch_parent _ _ _ C), (ch_pid _ _ _ C)].
  - right. left. split; congruence.
  - right. right. split; [exists code0, o; congruence|done].
Qed.
Lemma zombie_keep c : ph c = CZombie -> ph' c = CZombie \/ exists u, par c = Some u /\ fr w' u = Some PUser.
Proof.
  intros E. cases; try (destruct (decide (c = c0)) as [->|Hu]; [try congruence|left; by rewrite (ch_phase _ _ _ C)]).
  - left. by rewrite (q_phase _ _ _ _ Q).
  - destruct (decide (c = t)) as [->|Hu]; [by left|left; by rewrite (ch_phase _ _ _ C)].
  - right. by exists t.
  - left. congruence.
Qed.

Lemma step_stays k : fr w' (pt_init w) = Some k -> exit_frame k = false.
Proof.
  intros E. destruct init_fr as (k0 & E0 & Hk0). destruct (fr_from _ _ E) as
    [?|[(t & Q & T & <-)|[(? & _ & -> & _)|[->|[(? & _ & -> & _)|[->|(? & ? & ? & ? & _ & _ & _ & ? & _)]]]]]]; try done; [congruence|].
  turned T; try done; try (rewrite E0 in Ea; simplify_eq; done); [|by destruct k].
  rewrite E0 in Ea. simplify_eq. went; try done; by destruct (pi_init w I) as (_ & _ & ?).
Qed.
Lemma step_stays' k : fr w' (pt_init w) = Some k -> match k with XFree _ | XOrphan _ _ _ | XInit _ | XZombie _ => False | _ => True end.
Proof. intros E%step_stays. by destruct k. Qed.

Lemma step_parent c : ph' c = CAlive \/ ph' c = CZombie -> c <> pt_init w -> exists p, par' c = Some p /\ ph' p = CAlive /\ p <> c.
Proof.
  intros Hal Hi.
  assert (Hold : ph c = CAlive \/ ph c = CZombie -> exists p, par c = Some p /\ ph p = CAlive /\ p <> c).
  { intros H. destruct (pi_parent w I c) as (p & ? & ?%alive_phase & ?); [by rewrite alive_phase, zombie_phase|done|by exists p]. }
  cases; try (destruct (decide (c = c0)) as [->|Hne]; [destruct Hal; congruence|]; rewrite (ch_phase _ _ _ C) in Hal by done;
    destruct (Hold Hal) as (p & ? & ? & ?); exists p; rewrite (ch_parent _ _ _ C), (ch_phase _ _ _ C) by congruence; done).
  - rewrite (q_phase _ _ _ _ Q) in Hal. destruct (Hold Hal) as (p & ? & ? & ?). exists p. by rewrite (q_parent _ _ _ _ Q), (q_phase _ _ _ _ Q).
  - assert (ph c = CAlive \/ ph c = CZombie) as Hal0.
    { destruct (decide (c = t)) as [->|Hne]; [left; by eapply fr_alive|by rewrite (ch_phase _ _ _ C) in Hal]. }
    destruct (Hold Hal0) as (p & Ep & ? & ?). assert (p <> t) as Hpt.
    { intros ->. by apply (pi_childless w I t code0) in Ep; [|rewrite !inside_fr; auto]. }
    exists p. rewrite (ch_phase _ _ _ C p) by done. destruct (decide (c = t)) as [->|Hne]; [by rewrite Hpa|by rewrite (ch_parent _ _ _ C)].
  - destruct (decide (c = c0)) as [->|Hne].
    + exists t. rewrite (ch_phase _ _ _ C) by done. split_and!; [done|by eapply fr_alive|done].
    + rewrite (ch_phase _ _ _ C) in Hal by done.
      destruct (Hold Hal) as (p & ? & ? & ?). exists p. rewrite (ch_parent _ _ _ C), (ch_phase _ _ _ C) by congruence. done.
  - destruct (decide (c = c0)) as [->|Hne].
    + exists (pt_init w). rewrite (ch_phase _ _ _ C) by done. split_and!; [done|apply init_alive|done].
    + rewrite (ch_phase _ _ _ C) in Hal by done. destruct (Hold Hal) as (p & ? & Hp & ?). exists p. rewrite (ch_parent _ _ _ C) by done.
      split_and!; [done| |done]. destruct (decide (p = c0)) as [->|?]; [congruence|by rewrite (ch_phase _ _ _ C)].
Qed.

Lemma step_orphan u code i o : fr w' u = Some (XOrphan code i o) -> forall c, (c < i)%nat -> par' c <> Some u.
Proof.
  intros E c Hc Ep. destruct (par_from _ _ Ep) as [Ep0|[?|(-> & _)]]; [|congruence|by apply step_stays in E].
  assert (Hold : forall i o, fr w u = Some (XOrphan code i o) -> ~ (c < i)%nat).
  { intros i0 o0 E0 Hlt. by apply (pi_orphan w I u code i0 o0) in Ep0; [|by apply inside_fr|]. }
  destruct (fr_from _ _ E) as [E0|[(t & Q & T & ->)|[(? & _ & ? & _)|[?|[(? & _ & ? & _)|[?|(? & j & ? & ? & E0 & [= <- -> <-] & Hj & Hu & _)]]]]]]; try done.
  - by apply Hold in E0.
  - turned T; try done; [by apply Hold in Ea| |lia]. went; [|by destruct o0]. apply Hold in Ea. destruct (decide (c = i0)) as [->|?]; [congruence|lia].
  - apply Hold in E0. destruct (decide (c = j)) as [->|?]; [congruence|lia].
Qed.

Lemma step_childless u code : fr w' u = Some (XInit code) \/ fr w' u = Some (XZombie code) -> forall c, par' c <> Some u.
Proof.
  intros E c Ep. assert (exists k, fr w' u = Some k /\ (k = XInit code \/ k = XZombie code)) as (k & Ek & Hk) by (destruct E; eauto).
  destruct (par_from _ _ Ep) as [Ep0|[?|(-> & _)]]; [|destruct Hk; congruence|by apply step_stays in Ek; destruct Hk; subst].
  assert (Hold : forall code, ~ (fr w u = Some (XInit code) \/ fr w u = Some (XZombie code))).
  { intros code0 E0. by apply (pi_childless w I u code0) in Ep0; [|by rewrite !inside_fr]. }
  destruct (fr_from _ _ Ek) as [E0|[(t & Q & T & ->)|[(? & _ & ? & _)|[?|[(? & _ & ? & _)|[?|(? & ? & ? & ? & _ & ? & _)]]]]]];
    try (destruct Hk; subst; done).
  - apply (Hold code). destruct Hk; subst; auto.
  - turned T; try (destruct Hk; subst; done).
    + apply (Hold code). destruct Hk; subst; auto.
    + assert (exists i o, fr w t = Some (XOrphan code i o) /\ (NTASKS <= i)%nat) as (i & o & Ei & Hi).
      { went; destruct Hk; try done; match goal with H : (if ?o then _ else _) = _ |- _ => destruct o end; simplify_eq; eauto. }
      destruct (decide (c < i)%nat) as [Hlt|Hge]; [by apply (pi_orphan w I t code i o) in Ep0; [|by apply inside_fr|]|].
      rewrite no_parent in Ep0; [done|]. left. by rewrite (li_small w I c) by lia.
    + eapply Hold. eauto.
Qed.

Definition forks (w1 : ptable) (u c : nat) : Prop := fr w1 u = Some (KBody c) \/ fr w1 u = Some (KFail c).
Lemma forking_fr w1 u c : forking w1 u c <-> forks w1 u c.
Proof. unfold forking, forks. by rewrite !inside_fr. Qed.
Lemma forks_from u c : forks w' u c -> forks w u c \/
  fr w u = Some (KAlloc c) /\ ph c = CFree /\ ph' c = CUsed /\ forall v kv, v <> u -> fr w' v = Some kv -> fr w v = Some kv.
Proof.
  intros E. assert (exists k, fr w' u = Some k /\ (k = KBody c \/ k = KFail c)) as (k & Ek & Hk) by (destruct E; eauto).
  destruct (fr_from _ _ Ek) as [E0|[(t & Q & T & ->)|[(c0 & E0 & -> & Hc)|[?|[(? & _ & ? & _)|[?|(? & ? & ? & ? & _ & ? & _)]]]]]];
    try (destruct Hk; subst; done).
  - left. unfold forks. rewrite E0. destruct Hk; subst; auto.
  - left. unfold forks. turned T; try (destruct Hk; subst; done); [rewrite Ea; destruct Hk; subst; auto| |].
    + went; destruct Hk; try done; by destruct o.
    + destruct Hk; simplify_eq. auto.
  - right. destruct Hk; simplify_eq. by split.
Qed.
Lemma used_fr u c : forks w u c -> ph c = CUsed.
Proof. intros H. apply used_phase, (pi_used w I u). by apply forking_fr. Qed.

Lemma step_used u c : forks w' u c -> ph' c = CUsed.
Proof.
  intros F'. destruct (forks_from u c F') as [F|(_ & _ & ? & _)]; [|done]. pose proof (used_fr u c F) as Hu.
  assert (Hone : forall v, forks w v c -> v = u) by (intros v Hv; by eapply (pi_forker w I); apply forking_fr).
  unfold forks in F', Hone. cases; try (destruct (decide (c = c0)) as [->|Hne]; [try congruence|by rewrite (ch_phase _ _ _ C)]).
  - by rewrite (q_phase _ _ _ _ Q).
  - destruct (decide (c = t)) as [->|Hne]; [apply fr_alive in Hf; congruence|by rewrite (ch_phase _ _ _ C)].
  - rewrite (Hone t) in Hf' by auto. destruct F'; congruence.
  - rewrite (Hone t) in Hf' by auto. destruct F'; congruence.
Qed.
Lemma step_forker u v c : forks w' u c -> forks w' v c -> u = v.
Proof.
  intros Fu Fv. destruct (decide (u = v)) as [|Hne]; [done|].
  destruct (forks_from u c Fu) as [Gu|(Eu & Hu & _ & Ou)], (forks_from v c Fv) as [Gv|(Ev & Hv & _ & Ov)].
  - by eapply (pi_forker w I); apply forking_fr.
  - apply used_fr in Gu. congruence.
  - apply used_fr in Gv. congruence.
  - exfalso. destruct Fv as [Fv|Fv]; apply Ou in Fv; congruence.
Qed.
Lemma step_forked u c : fr w' u = Some (KRet c) -> par' c = Some u.
Proof.
  intros E. destruct (fr_from _ _ E) as [E0|[(t & Q & T & ->)|[(? & _ & ? & _)|[?|[(? & _ & [= <-] & ?)|[?|(? & ? & ? & ? & _ & ? & _)]]]]]]; try done.
  - pose proof (pi_forked w I u c ltac:(by apply inside_fr)) as Hp.
    destruct (child_keep c u Hp) as [[? _]|[[? _]|[(? & ? & ?) _]]]; congruence.
  - turned T; try done; [|by went; destruct o]. rewrite (q_parent _ _ _ _ Q). apply (pi_forked w I). by apply inside_fr.
Qed.

Lemma waits_spec w1 u pid c : waits_for w1 u pid c = true <-> p_parent (pt_proc w1 c) = Some u /\ (pid = -1 \/ p_pid (pt_proc w1 c) = pid).
Proof. unfold waits_for. rewrite andb_true_iff, bool_decide_eq_true, orb_true_iff, !Z.eqb_eq. done. Qed.
Lemma waits_quiet t k u pid c : quiet t k w w' -> waits_for w' u pid c = waits_for w u pid c.
Proof.
  intros Q. unfold waits_for. rewrite (q_parent _ _ _ _ Q). destruct (decide (par c = Some u)) as [E|E].
  - rewrite (q_pid _ _ _ _ Q); [done|]. intros Hc. rewrite no_parent in E; auto; congruence.
  - by rewrite bool_decide_eq_false_2.
Qed.
Lemma step_reap u pid c : fr w' u = Some (WReap pid c) -> ph' c = CZombie /\ waits_for w' u pid c = true.
Proof.
  intros E. destruct (fr_from _ _ E) as [E0|[(t & Q & T & ->)|[(? & _ & ? & _)|[?|[(? & _ & ? & _)|[?|(? & ? & ? & ? & _ & ? & _)]]]]]]; try done.
  - destruct (pi_reap w I u pid c) as [Hz%zombie_phase Hw]; [by apply inside_fr|]. pose proof Hw as [Hp Hd]%waits_spec. split.
    + destruct (zombie_keep c Hz) as [|(v & Ev & ?)]; [done|]. congruence.
    + apply waits_spec. destruct (child_keep c u Hp) as [[-> ->]|[[? _]|[(? & ? & ?) _]]]; [done|congruence..].
  - rewrite (q_phase _ _ _ _ Q), (waits_quiet _ _ _ _ _ Q). turned T; try done.
    + rewrite <- zombie_phase. apply (pi_reap w I). by apply inside_fr.
    + by went; destruct o.
    + by rewrite <- zombie_phase.
Qed.

(** an exiting task with an orphan that is a zombie comes to wake [init] *)
Definition adopts (k : pframe) : Prop := match k with XOrphan _ _ o => o = true | XInit _ => True | _ => False end.
Lemma adopts_step u k : fr w u = Some k -> adopts k -> (exists k', fr w' u = Some k' /\ adopts k') \/ p_pending (pt_proc w' (pt_init w)) = true.
Proof.
  intros E Hk. assert (ph u = CAlive) as Hu by (by eapply fr_alive).
  cases; try (destruct (decide (u = t)) as [->|Hut]; [rewrite Hf in E; by simplify_eq|];
    destruct (decide (u = c0)) as [->|Huc]; [congruence|left; exists k; by rewrite (ch_fr _ _ _ C)]).
  - destruct (decide (u = t)) as [->|Hut]; [|left; exists k; by rewrite (q_fr _ _ _ _ Q)]. rewrite (q_at _ _ _ _ Q). turned T; simplify_eq; try done; eauto.
    + went; try done; left; eexists; (split; [done|]); try done. by simpl in Hk; subst.
    + by destruct k.
  - destruct (decide (u = t)) as [->|Hut]; [rewrite Hf in E; by simplify_eq|left; exists k; by rewrite (ch_fr _ _ _ C)].
  - destruct (decide (u = t)) as [->|Hut].
    + left. eexists. split; [done|]. rewrite Hf in E. simplify_eq. simpl in *. apply Ho. by left.
    + destruct (decide (u = c0)) as [->|Huc]; [left; exists k; by rewrite Hfc|left; exists k; by rewrite (ch_fr _ _ _ C)].
Qed.
End Clauses.

Lemma pending_step e w' u : pmoves w e w' -> alive (pst w u) = true -> p_pending (pt_proc w u) = true ->
  p_pending (pt_proc w' u) = true \/ exists pid, fr w' u = Some (WScan pid 0 0).
Proof.
  intros M Ha Hp'. unfold pst in Ha. moves M; unfold pst in *; psimpl; slots; simpl; try (by left); try (left; apply wake_fields); try (by rewrite Hs in Ha).
  right. exists pid. unfold fr, pst. psimpl. slots. simpl. by rewrite Ha.
Qed.
Lemma xwake_step e w' z cd q : pmoves w e w' -> p_on (pt_proc w z) = true -> p_pc (pt_proc w z) = XWake cd -> par z = Some q ->
  p_on (pt_proc w' z) = true /\ p_pc (pt_proc w' z) = XWake cd \/ p_pending (pt_proc w' q) = true.
Proof.
  intros M Hoz Hcz Hpar. destruct (exiting_state w I z cd Hoz (or_introl Hcz)) as [Hzz _].
  moves M; unfold pst in *; psimpl; slots; simpl; try (by left); try (left; by rewrite ?(proj1 (on_wake _)), ?(proj2 (on_wake _))).
  all: try (by right; apply wake_fields).
Qed.

(** ** [waitpid]: a zombie that the scan has passed is noticed *)
Definition noticed (w1 : ptable) (u c : nat) : Prop := p_pending (pt_proc w1 u) = true \/ waking w1 u c.
Lemma waking_fr w1 u c : waking w1 u c <->
  (exists code, p_on (pt_proc w1 c) = true /\ p_pc (pt_proc w1 c) = XWake code) \/ u = pt_init w1 /\ exists v k, fr w1 v = Some k /\ adopts k.
Proof.
  unfold waking. setoid_rewrite inside_fr. split; (intros [H|[-> H]]; [by left|right; split; [done|]]).
  - destruct H as (v & code & [[i E]|E]); exists v; eexists; by (split; [exact E|]).
  - destruct H as (v & k & E & Ha). exists v. destruct k; try done; eexists; [left|right; done]. simpl in Ha. subst. by eexists.
Qed.
Lemma notice_step e w' u c : pmoves w e w' -> par c = Some u -> alive (pst w u) = true -> noticed w u c ->
  noticed w' u c \/ exists pid, fr w' u = Some (WScan pid 0 0).
Proof.
  intros M Hp Ha. pose proof (moves_split e w' M) as MA. unfold noticed. rewrite !waking_fr, (as_init w' MA).
  intros [H|[(code & Ho & Hc)|[-> (v & k & Ev & Hk)]]].
  - destruct (pending_step e w' u M Ha H); auto.
  - destruct (xwake_step e w' c code u M Ho Hc Hp) as [[? ?]|?]; eauto 6.
  - destruct (adopts_step w' MA v k Ev Hk) as [(k' & ? & ?)|?]; eauto 9.
Qed.

Section Scan.
Context (w' : ptable) (e : pevent) (M : pmoves w e w').

Lemma zombie_from u pid c : waits_for w' u pid c = true -> phase_of (pst w' c) = CZombie ->
  noticed w' u c \/ waits_for w u pid c = true /\ ph c = CZombie.
Proof.
  pose proof (moves_split e w' M) as MA. intros Hw Hz. assert (Hsame : forall t c0, change t c0 w' -> c <> c0 -> waits_for w u pid c = true /\ ph c = CZombie).
  { intros t c0 C Hne. rewrite waits_spec, (ch_parent _ _ _ C), (ch_pid _ _ _ C) in Hw by done. by rewrite waits_spec, <- (ch_phase _ _ _ C). }
  unfold noticed. rewrite waking_fr, (as_init w' MA).
  destruct MA as [(t & k' & Q & _)|[t code C _ _ _ _ _ _ Ho Hpc|t c0 C|t c0 ? C|t c0 C|t c0 C|t c0 code o o' C _ _ _ _ Hf' _ Hpc Hc _ _ Ho]].
  - right. by rewrite <- (waits_quiet w' t k' u pid c Q), <- (q_phase _ _ _ _ Q).
  - destruct (decide (c = t)) as [->|Hne]; [left; right; left; eauto|right; by eapply Hsame].
  - destruct (decide (c = c0)) as [->|Hne]; [congruence|right; by eapply Hsame].
  - destruct (decide (c = c0)) as [->|Hne]; [congruence|right; by eapply Hsame].
  - destruct (decide (c = c0)) as [->|Hne]; [congruence|right; by eapply Hsame].
  - destruct (decide (c = c0)) as [->|Hne]; [congruence|right; by eapply Hsame].
  - destruct (decide (c = c0)) as [->|Hne]; [|right; by eapply Hsame]. left. right. right. apply waits_spec in Hw as [Hw _].
    split; [congruence|]. exists t. eexists. split; [exact Hf'|]. apply Ho. right. congruence.
Qed.
Lemma scan_step u pid n : scanned w u pid n -> alive (pst w u) = true -> scanned w' u pid n \/ exists q, fr w' u = Some (WScan q 0 0).
Proof.
  intros Hs Ha. destruct (decide (fr w' u = Some (WScan (match fr w' u with Some (WScan q _ _) => q | _ => 0 end) 0 0))) as [E|Hne].
  { right. by eexists. }
  left. intros c Hc Hw Hz%zombie_phase. destruct (zombie_from u pid c Hw Hz) as [?|[Hw0 Hz0]]; [done|].
  destruct (notice_step e w' u c M) as [?|(q & E)]; [by apply waits_spec in Hw0 as [? _]|done| |done|].
  - apply (Hs c Hc Hw0). by apply zombie_phase.
  - by rewrite E in Hne.
Qed.
Lemma waits_keep u pid c k : fr w u = Some k -> exit_frame k = false -> fr w' u <> Some PUser -> waits_for w u pid c = true ->
  waits_for w' u pid c = true.
Proof.
  intros Ek Hk Hu [Hp Hd]%waits_spec. apply waits_spec.
  destruct (child_keep w' (moves_split e w' M) c u Hp) as [[-> ->]|[[? _]|[(? & ? & E) _]]]; [done..|]. rewrite E in Ek. by simplify_eq.
Qed.

Lemma step_scan u pid i cnt : fr w' u = Some (WScan pid i cnt) ->
  scanned w' u pid i /\ (cnt <> 0%nat -> exists c, waits_for w' u pid c = true).
Proof.
  intros E. pose proof (moves_split e w' M) as MA.
  assert (Hz : i = 0%nat -> scanned w' u pid i) by (intros -> c ?; lia).
  assert (Hold : forall i0 cnt0, fr w u = Some (WScan pid i0 cnt0) ->
    (i = 0%nat \/ scanned w' u pid i0) /\ (cnt0 <> 0%nat -> exists c, waits_for w' u pid c = true)).
  { intros i0 cnt0 E0. destruct (pi_scan w I u pid i0 cnt0) as [Hs Hc]; [by apply inside_fr|]. split.
    - destruct (scan_step u pid i0 Hs) as [?|(q & ?)]; [apply alive_phase; by eapply fr_alive|by right|left; congruence].
    - intros [c Hw]%Hc. exists c. eapply waits_keep; [exact E0|done|by rewrite E|done]. }
  destruct (fr_from w' MA _ _ E) as [E0|[(t & Q & T & ->)|[(? & _ & ? & _)|[?|[(? & _ & ? & _)|[?|(? & ? & ? & ? & _ & ? & _)]]]]]]; try done.
  - destruct (Hold _ _ E0) as [[?|?] ?]; auto.
  - turned T; try done.
    + destruct (Hold _ _ Ea) as [[?|?] ?]; auto.
    + went; [split; [by apply Hz|done]| | |by destruct o]; destruct (Hold _ _ Ea) as [[?|Hs] Hc]; try done.
      * split; [|intros _; exists i0; by rewrite (waits_quiet w' _ _ _ _ _ Q)]. intros c Hlt Hw Hz'.
        destruct (decide (c = i0)) as [->|?]; [|apply Hs; [lia|done..]]. apply zombie_phase in Hz'. rewrite (q_phase _ _ _ _ Q), <- zombie_phase in Hz'. done.
      * split; [|done]. intros c Hlt Hw Hz'. destruct (decide (c = i0)) as [->|?]; [|apply Hs; [lia|done..]].
        rewrite (waits_quiet w' _ _ _ _ _ Q) in Hw. congruence.
    + destruct i; [|done]. destruct cnt; [|done]. split; [by apply Hz|done].
Qed.

Lemma step_sleepy u pid : fr w' u = Some (WSleep pid) \/ fr w' u = Some (WWake pid) ->
  scanned w' u pid NTASKS /\ exists c, waits_for w' u pid c = true.
Proof.
  intros E. pose proof (moves_split e w' M) as MA.
  assert (exists k, fr w' u = Some k /\ (k = WSleep pid \/ k = WWake pid)) as (k & Ek & Hk) by (destruct E; eauto).
  assert (Hkeep : forall n k0, scanned w u pid n -> fr w u = Some k0 -> exit_frame k0 = false -> (exists c, waits_for w u pid c = true) ->
    scanned w' u pid n /\ exists c, waits_for w' u pid c = true).
  { intros n k0 Hs E0 Hk0 [c Hc]. split.
    - destruct (scan_step u pid n Hs) as [?|(q & ?)]; [apply alive_phase; by eapply fr_alive|done|destruct Hk; congruence].
    - exists c. eapply waits_keep; [exact E0|done|destruct Hk; congruence|done]. }
  assert (Hold : forall k0, fr w u = Some k0 -> (k0 = WSleep pid \/ k0 = WWake pid) -> scanned w' u pid NTASKS /\ exists c, waits_for w' u pid c = true).
  { intros k0 E0 Hk0. destruct (pi_sleepy w I u pid) as [? ?]; [rewrite !inside_fr; destruct Hk0; subst; auto|].
    eapply Hkeep; [done|exact E0|destruct Hk0; by subst|done]. }
  destruct (fr_from w' MA _ _ Ek) as [E0|[(t & Q & T & ->)|[(? & _ & ? & _)|[?|[(? & _ & ? & _)|[?|(? & ? & ? & ? & _ & ? & _)]]]]]];
    try (destruct Hk; subst; done).
  - by eapply Hold.
  - turned T; try (destruct Hk; subst; done).
    + by eapply Hold.
    + went; destruct Hk; simplify_eq; try (by destruct o). destruct (pi_scan w I t pid i cnt) as [Hs Hc]; [by apply inside_fr|].
      eapply Hkeep; [|exact Ea|done|by apply Hc]. intros c ?. apply Hs. lia.
    + destruct Hk; simplify_eq. eapply Hold; [exact Ea|auto].
Qed.
End Scan.
End Step.
