(* ===== verification/ProcTheorems.v ===== *)
(** What the invariant of processes gives: the only panics are those of a file
    in use under a task lock, every process has a
    living parent, [waitpid] returns the status of a child of its own, and no
    child that exits is missed. *)
From stdpp Require Import base list option.
From Stdlib Require Import ZArith Lia.
From S2P Require Import Prelude Spinlock Sched Proc ProcInv ProcMoves ProcSafe ProcTree.
Open Scope Z_scope.

Lemma pinv_step w e w' : pinv w -> pmoves w e w' -> pinv w'.
Proof.
  intros I M. pose proof (moves_split w I e w' M) as MA. pose proof (as_init w w' MA) as Hi. constructor.
  - by eapply lock_step.
  - by eapply sched_step.
  - by eapply shape_step.
  - by eapply small_step.
  - by eapply step_init.
  - destruct (step_init w I w' MA) as (_ & Ha & _). rewrite Hi in *. apply (step_stays' w I w' MA). unfold fr. by rewrite Ha.
  - intros c Hc Hn. rewrite alive_phase, zombie_phase in Hc. rewrite Hi in Hn.
    destruct (step_parent w I w' MA c Hc Hn) as (p & ? & ?%alive_phase & ?). by exists p.
  - intros t code i o ?%inside_fr. by eapply step_orphan.
  - intros t code. rewrite !inside_fr. intros. by eapply step_childless.
  - intros t c ?%forking_fr. apply used_phase. by eapply step_used.
  - intros t t' c ?%forking_fr ?%forking_fr. by eapply (step_forker w I w' MA).
  - intros t c ?%inside_fr. by eapply step_forked.
  - intros t pid c ?%inside_fr. rewrite zombie_phase. by eapply step_reap.
  - intros t pid i cnt ?%inside_fr. by eapply step_scan.
  - intros t pid. rewrite !inside_fr. intros. by eapply step_sleepy.
Qed.

(** ** The first state *)
Lemma init_user_proc t : pt_proc init_user t = if decide (t = 0%nat) then mkProc RUNNABLE 1 None 0 false false 0 true PFirst false
  else mkProc INITLIZED 0 None 0 false false 0 false PUser false.
Proof. unfold init_user, pwith, upd. simpl. destruct (decide (t = 0%nat)) as [->|?]; [done|]. by destruct t. Qed.
Lemma init_user_fr t : fr init_user t = if decide (t = 0%nat) then Some PFirst else None.
Proof. unfold fr, pst. rewrite init_user_proc. by case_decide. Qed.
Lemma init_user_inv : pinv init_user.
Proof.
  assert (Hn : forall t k, inside init_user t k -> k = PFirst).
  { intros t k E%inside_fr. rewrite init_user_fr in E. case_decide; congruence. }
  constructor; try (intros *; intros ?%Hn; done).
  - intros x t. unfold locks. rewrite init_user_proc. by case_decide.
  - done.
  - intros t. rewrite init_user_proc. case_decide; unfold shape; simpl; [|done]. split; [done|]. split; [done|]. split; [|done]. by intros ?.
  - intros t Ht. unfold pst. rewrite init_user_proc. rewrite decide_False; [done|]. unfold NTASKS in Ht. lia.
  - done.
  - done.
  - intros c Hc Hne. unfold pst in Hc. rewrite init_user_proc, decide_False in Hc by done. simpl in Hc. by destruct Hc.
  - intros t code [?%Hn|?%Hn]; done.
  - intros t c [?%Hn|?%Hn]; done.
  - intros t t' c [?%Hn|?%Hn]; done.
  - intros t pid [?%Hn|?%Hn]; done.
Qed.

Lemma preach_inv w : preach w -> pinv w.
Proof.
  induction 1 as [|w m e w' _ IH E]; [apply init_user_inv|].
  destruct (pstep_moves m w _ _ IH E) as (e1 & w1 & w2 & [= <- <-] & M & ->%weq_eq). by eapply pinv_step.
Qed.

(** ** Runs *)

(** the moves [ms] one after the other *)
Fixpoint prun (ms : list pmove) (w : ptable) : option (list pevent * ptable) :=
  match ms with
  | [] => Some ([], w)
  | m :: ms =>
      match pstep m w with
      | Some (Ok (e, w')) => match prun ms w' with Some (es, w'') => Some (e :: es, w'') | None => None end
      | _ => None
      end
  end.
Lemma prun_reach ms : forall w es w', preach w -> prun ms w = Some (es, w') -> preach w'.
Proof.
  induction ms as [|m ms IH]; simpl; intros w es w' R E; [congruence|].
  destruct (pstep m w) as [[[e w1]| | |]|] eqn:Em; try done. destruct (prun ms w1) as [[es1 w2]|] eqn:Er; [|done].
  simplify_eq. eapply IH; [|exact Er]. by eapply preach_step.
Qed.

(** ** The tree of processes *)
Inductive rooted (w : ptable) : nat -> Prop :=
| rooted_init : rooted w (pt_init w)
| rooted_child c p : p_parent (pt_proc w c) = Some p -> rooted w p -> rooted w c.
(** a process: alive, or a zombie that nobody has waited for *)
Definition in_use (w : ptable) (c : nat) : Prop := alive (pst w c) = true \/ pst w c = ZOMBIE.
Lemma in_use_phase w c : in_use w c <-> phase_of (pst w c) = CAlive \/ phase_of (pst w c) = CZombie.
Proof. unfold in_use. by rewrite alive_phase, zombie_phase. Qed.

Lemma rooted_keep w e w' : pinv w -> pmoves w e w' -> forall c, rooted w c -> in_use w' c -> rooted w' c.
Proof.
  intros I M. pose proof (pinv_step w e w' I M) as I'. pose proof (moves_split w I e w' M) as MA. pose proof (as_init w w' MA) as Hi.
  induction 1 as [|c p Hp _ IH]; intros Hc; [rewrite <- Hi; constructor|].
  assert (in_use w' (pt_init w')) as Hiu by (left; apply I').
  destruct (child_keep w I w' MA c p Hp) as [[Hp' _]|[[_ Hf]|[_ Hp']]].
  - eapply rooted_child; [exact Hp'|]. apply IH. left. destruct (decide (c = pt_init w')) as [->|Hne].
    + destruct (pi_init w' I') as [E _]. congruence.
    + destruct (pi_parent w' I' c Hc Hne) as (q & Eq & ? & _). congruence.
  - apply in_use_phase in Hc. destruct Hc; congruence.
  - eapply rooted_child; [exact Hp'|]. rewrite <- Hi. constructor.
Qed.
Lemma rooted_step w e w' : pinv w -> pmoves w e w' -> (forall c, in_use w c -> rooted w c) -> forall c, in_use w' c -> rooted w' c.
Proof.
  intros I M Hr c Hc. pose proof (pinv_step w e w' I M) as I'. pose proof (moves_split w I e w' M) as MA. pose proof (as_init w w' MA) as Hi.
  destruct (decide (c = pt_init w')) as [->|Hne]; [constructor|]. destruct (pi_parent w' I' c Hc Hne) as (p & Ep & Ha & _).
  destruct (par_from w w' MA c p Ep) as [Ep0|[Ek|(-> & _)]].
  - eapply rooted_keep; [exact I|exact M| |exact Hc]. apply Hr. by eapply child_used.
  - eapply rooted_child; [exact Ep|]. eapply rooted_keep; [exact I|exact M| |by left]. apply Hr, in_use_phase. left.
    destruct (fr_from w w' MA p _ Ek) as [E0|[(t & Q & T & ->)|[(? & ? & ? & _)|[?|[(? & E0 & _)|[?|(? & ? & ? & ? & ? & ? & _)]]]]]]; try done; try (by eapply fr_alive).
    rewrite <- (q_phase _ _ _ _ Q). by apply alive_phase.
  - eapply rooted_child; [exact Ep|]. rewrite <- Hi. constructor.
Qed.
Lemma rooted_boot c : in_use init_user c -> rooted init_user c.
Proof.
  unfold in_use, pst. rewrite init_user_proc. case_decide as E; [subst; intros _; apply (rooted_init init_user)|]. simpl. by intros [|].
Qed.

(** [C9] The processes form a tree with init at its root, whatever is forked,
    exits and is waited for on any number of harts: init is alive, has pid 1 and
    no parent, and every other process, also a zombie, has a living parent that
    is not itself, from which parents lead to init. *)
Theorem process_tree w : preach w ->
  alive (pst w (pt_init w)) = true /\ p_pid (pt_proc w (pt_init w)) = 1 /\ p_parent (pt_proc w (pt_init w)) = None /\
  forall c, in_use w c -> rooted w c /\
    (c <> pt_init w -> exists p, p_parent (pt_proc w c) = Some p /\ alive (pst w p) = true /\ p <> c).
Proof.
  intros R. pose proof (preach_inv w R) as I. destruct (pi_init w I) as (? & ? & ?). split_and!; [done..|].
  intros c Hc. split; [|intros Hne; by apply (pi_parent w I)]. clear -R Hc. revert c Hc.
  induction R as [|w m e w' R IH E]; [apply rooted_boot|]. pose proof (preach_inv w R) as I.
  destruct (pstep_moves m w _ _ I E) as (e1 & w1 & w2 & [= <- <-] & M & ->%weq_eq). by eapply rooted_step.
Qed.


(** ** [waitpid] *)
Lemma preach_moves w m e w' : preach w -> pstep m w = Some (Ok (e, w')) -> pmoves w e w'.
Proof. intros R E. by destruct (pstep_moves m w _ _ (preach_inv w R) E) as (e1 & w1 & w2 & [= <- <-] & M & ->%weq_eq). Qed.

Lemma asleep_child w t pid : pinv w -> pst w t = SLEEP -> p_pc (pt_proc w t) = WWake pid ->
  p_on (pt_proc w t) = false /\ p_chan (pt_proc w t) = SLEEP_CHAN_CHILD /\ p_pending (pt_proc w t) = false.
Proof.
  intros I Hs Hp. pose proof (li_shape w I t) as S. unfold shape, pst in *. rewrite Hs in S.
  destruct S as (Ho & _ & [[E _]|(_ & ? & ?)]); [congruence|done].
Qed.

(** [C10] No exit is missed: a task that sleeps in [waitpid(pid)] has a child
    that matches [pid], and for every matching child that is a zombie somebody
    is on the way to wake it: the child itself, before its call of
    [wake_wait_parent], or the exiting parent that has given it to init. *)
Theorem no_child_missed w t pid : preach w -> pst w t = SLEEP -> p_pc (pt_proc w t) = WWake pid ->
  (exists c, waits_for w t pid c = true) /\
  forall c, waits_for w t pid c = true -> pst w c = ZOMBIE -> waking w t c.
Proof.
  intros R Hs Hp. pose proof (preach_inv w R) as I. destruct (asleep_child w t pid I Hs Hp) as (_ & _ & Hpe).
  destruct (pi_sleepy w I t pid) as [Hsc Hc]; [right; by split; [rewrite Hs|rewrite Hp]|]. split; [done|].
  intros c Hw Hz. assert (c < NTASKS)%nat as Hlt.
  { destruct (decide (c < NTASKS)%nat); [done|]. rewrite (li_small w I c) in Hz by lia. done. }
  destruct (Hsc c Hlt Hw Hz); [congruence|done].
Qed.

Lemma wake_asleep w t pid : pinv w -> pst w t = SLEEP -> p_pc (pt_proc w t) = WWake pid ->
  p_state (wake_wait_parent (pt_proc w t)) = RUNNABLE.
Proof.
  intros I Hs Hp. destruct (asleep_child w t pid I Hs Hp) as (_ & Hc & _). unfold wake_wait_parent. by rewrite decide_True.
Qed.

(** Whoever is on the way wakes: when its lock is free, one step of an
    exiting child, or of a task that has orphaned a zombie, takes a parent that
    sleeps in [waitpid] to RUNNABLE. *)
Theorem wakers_wake w t pid c code : preach w -> pst w t = SLEEP -> p_pc (pt_proc w t) = WWake pid -> pt_lk w t = None ->
  p_on (pt_proc w c) = true ->
  p_pc (pt_proc w c) = XWake code /\ p_parent (pt_proc w c) = Some t \/ p_pc (pt_proc w c) = XInit code /\ t = pt_init w ->
  exists w', pstep (MTask c PGo) w = Some (Ok (ENone, w')) /\ pst w' t = RUNNABLE.
Proof.
  intros R Hs Hp Hl Hon Hc. pose proof (preach_inv w R) as I. pose proof (wake_asleep w t pid I Hs Hp) as Hwk.
  assert (t <> c) as Hne by (intros <-; destruct Hc as [[? _]|[? _]]; congruence).
  unfold pstep. rewrite Hon. unfold proc_step, kexit_step. destruct Hc as [[Hpc Hpa]|[Hpc ->]]; rewrite Hpc; rewrite ?Hpa; unfold pacquire; rewrite Hl; rel.
  - eexists. split; [done|]. unfold pst. psimpl. slots.
  - eexists. split; [done|]. unfold pst. psimpl. slots. done.
Qed.

(** a task whose scan has counted nobody has no child that it has passed *)
Definition passed (w : ptable) : Prop := forall t pid i, t <> pt_init w -> fr w t = Some (WScan pid i 0) -> forall c, (c < i)%nat -> waits_for w t pid c = false.
Lemma passed_step w e w' : pinv w -> pmoves w e w' -> passed w -> passed w'.
Proof.
  intros I M H t pid i Hti E c Hc. pose proof (moves_split w I e w' M) as MA. rewrite (as_init w w' MA) in Hti.
  destruct (waits_for w' t pid c) eqn:Hw; [exfalso|done]. pose proof Hw as [Hp Hd]%waits_spec.
  destruct (par_from w w' MA c t Hp) as [Hp0|[?|(? & _)]]; [|congruence|done].
  assert (Hfrom : i = 0%nat \/ exists i0, fr w t = Some (WScan pid i0 0) /\ ((c < i0)%nat \/ waits_for w t pid c = false)).
  { destruct (fr_from w w' MA t _ E) as [E0|[(u & Q & T & ->)|[(? & ? & ? & _)|[?|[(? & ? & ? & _)|[?|(? & ? & ? & ? & ? & ? & _)]]]]]]; try done; [by eauto|].
    remember (fr w u) as a eqn:Ea. inversion T; subst; try done.
    - eauto.
    - match goal with G : pgoes _ _ _ _ _ |- _ => inversion G; subst end; [by left| |by destruct o].
      right. exists i0. split; [done|]. destruct (decide (c = i0)) as [->|?]; [by right|left; lia].
    - left. by destruct i. }
  destruct Hfrom as [->|(i0 & E0 & Hlt)]; [lia|].
  assert (waits_for w t pid c = true) as Hw0.
  { apply waits_spec. split; [done|]. destruct (child_keep w I w' MA c t Hp0) as [[_ <-]|[[? _]|[(? & ? & ?) _]]]; [done|congruence..]. }
  destruct Hlt as [Hlt|?]; [|congruence]. rewrite (H t pid i0 Hti E0 c Hlt) in Hw0. done.
Qed.
Lemma preach_passed w : preach w -> passed w.
Proof.
  induction 1 as [|w m e w' R IH E].
  - intros t pid i _ E. rewrite init_user_fr in E. case_decide; done.
  - eapply passed_step; [by apply preach_inv|by eapply preach_moves|done].
Qed.

(** which steps return from [waitpid] and [kfork] *)
Lemma pacquire_event t x k w e w' : pacquire t x k w = Some (Ok (e, w')) -> pt_lk w x = None /\ k (plock x (Some (HTask t)) w) = Ok (e, w').
Proof. unfold pacquire. destruct (pt_lk w x); [case_decide; done|]. by intros [= ->]. Qed.
Lemma prelease_event t x e0 w e w' : prelease t x e0 w = Ok (e, w') -> e = e0 /\ w' = plock x None w.
Proof. unfold prelease. case_decide; [|done]. by intros [= <- <-]. Qed.
Lemma psched_event t k w e w' : psched t k w = Ok (e, w') -> e = ENone.
Proof. unfold psched, pgo. repeat (case_match; try done). by intros [= <- _]. Qed.
Lemma sleep_event t w e w' : sleep_wait t w = Some (Ok (e, w')) -> e = ENone.
Proof. intros [_ E]%pacquire_event. by apply psched_event in E. Qed.
Lemma exit_sleep_event t w e w' :
  match pacquire t t pgo w with Some (Ok (_, w)) => sleep_wait t w | r => r end = Some (Ok (e, w')) -> e = ENone.
Proof.
  destruct (pacquire t t pgo w) as [[[e0 w0]| | |]|] eqn:E; try done. apply sleep_event.
Qed.
Ltac events := repeat match goal with
  | H : sleep_wait _ _ = Some (Ok _) |- _ => apply sleep_event in H
  | H : match pacquire _ _ pgo _ with Some _ => _ | None => _ end = _ |- _ => apply exit_sleep_event in H
  | H : pacquire _ _ _ _ = Some (Ok _) |- _ => apply pacquire_event in H as [? H]
  | H : prelease _ _ _ _ = Ok _ |- _ => apply prelease_event in H as [H ?]
  | H : psched _ _ _ = Ok _ |- _ => apply psched_event in H
  | H : Some _ = Some _ |- _ => injection H as H
  | H : Ok _ = Ok _ |- _ => injection H as H ?
  | H : (if ?b then _ else _) = _ |- _ => destruct b eqn:?
  | H : pgo _ = _ |- _ => unfold pgo in H
  end; try done.

Lemma returns_from w t ch e w' : pstep (MTask t ch) w = Some (Ok (e, w')) ->
  p_on (pt_proc w t) = true /\
  match e with
  | EWait r s =>
      (exists pid i, p_pc (pt_proc w t) = WScan pid i 0 /\ (NTASKS <= i)%nat /\ r = -1 /\ s = 0 /\ w' = pgoto t PUser w) \/
      (exists pid c, p_pc (pt_proc w t) = WReap pid c /\ r = p_pid (pt_proc w c) /\ s = p_ret (pt_proc w c) /\
         w' = plock c None (pgoto t PUser (pwith c free_task w)))
  | EFork r => r = -1 \/ exists c, p_pc (pt_proc w t) = KRet c /\ r = p_pid (pt_proc w c) /\ w' = pgoto t PUser w
  | _ => True
  end.
Proof.
  simpl. destruct (p_on _); [|done]. intros E. split; [done|]. destruct e as [|r s|r|r]; try done; revert E;
    unfold proc_step, yield, user_step, waitpid_step, kexit_step, kfork_step; destruct (p_pc (pt_proc w t)) eqn:Hp, ch; try done; intros E; events;
    unfold alloc_task, alloc_pid in *; try (destruct (p_parent _)); events; subst; simplify_eq; auto.
  - left. exists pid, i. apply Nat.eqb_eq in Heqb0. apply Nat.ltb_ge in Heqb. by subst.
  - right. by exists pid, c.
  - right. by exists c.
Qed.

(** [C16] [waitpid] returns -1 only when its caller has no child that matches
    (init apart, which may be given orphans during the scan).  Otherwise it
    returns the pid and the exit status of a matching child of its own that has
    called [kexit] with that status and left its hart for good, and frees the
    slot. *)
Theorem waitpid_returns w t ch r s w' : preach w -> pstep (MTask t ch) w = Some (Ok (EWait r s, w')) ->
  (r = -1 /\ s = 0 /\ w' = pgoto t PUser w /\
     exists pid i, p_pc (pt_proc w t) = WScan pid i 0 /\ (t <> pt_init w -> forall c, waits_for w t pid c = false)) \/
  (exists pid c code, p_pc (pt_proc w t) = WReap pid c /\ waits_for w t pid c = true /\
     pst w c = ZOMBIE /\ p_pc (pt_proc w c) = XDead code /\ p_on (pt_proc w c) = false /\
     r = p_pid (pt_proc w c) /\ s = code /\ w' = plock c None (pgoto t PUser (pwith c free_task w))).
Proof.
  intros R E. pose proof (preach_inv w R) as I. destruct (returns_from w t ch _ w' E) as [Hon [(pid & i & Hp & Hi & -> & -> & ->)|(pid & c & Hp & -> & -> & ->)]].
  - left. split_and!; [done..|]. exists pid, i. split; [done|]. intros Hti c.
    destruct (decide (c < i)%nat) as [Hlt|Hge].
    + eapply (preach_passed w R); [done| |exact Hlt]. unfold fr. rewrite (on_running w t I Hon) by (by rewrite Hp). by rewrite Hp.
    + destruct (waits_for w t pid c) eqn:Hw; [|done]. apply waits_spec in Hw as [Hw _].
      rewrite (no_parent w I c) in Hw; [done|]. left. by rewrite (li_small w I c) by lia.
  - right. destruct (reaped_off w I t pid c Hon Hp) as (Hz & Hw & Ho & _). pose proof (li_shape w I c) as S. unfold shape, ret_ok in S.
    unfold pst in Hz. rewrite Hz, Ho in S. destruct S as (Hr & [[? _]|(_ & code & Hd)]); [done|]. rewrite Hd in Hr. by exists pid, c, code.
Qed.

(** [C35] [kfork] returns -1, or the pid of a process that is a child of its
    caller: although the slot is read after its lock has been released, it
    cannot have been freed, because only its parent reaps it. *)
Theorem kfork_returns w t ch r w' : preach w -> pstep (MTask t ch) w = Some (Ok (EFork r, w')) ->
  r = -1 \/ exists c, p_pc (pt_proc w t) = KRet c /\ p_parent (pt_proc w c) = Some t /\ in_use w c /\ r = p_pid (pt_proc w c).
Proof.
  intros R E. pose proof (preach_inv w R) as I. destruct (returns_from w t ch _ w' E) as [Hon [?|(c & Hp & -> & _)]]; [by left|right].
  exists c. assert (p_parent (pt_proc w c) = Some t) as Hc.
  { apply (pi_forked w I). unfold inside. rewrite (on_running w t I Hon) by (by rewrite Hp). by rewrite Hp. }
  split_and!; [done..| |done]. by eapply child_used.
Qed.

(** ** Pids *)
Definition slot_used (w : ptable) (c : nat) : Prop := phase_of (pst w c) <> CFree.
Definition pids_distinct (w : ptable) : Prop :=
  (forall c, slot_used w c -> 0 < p_pid (pt_proc w c) < pt_next w) /\
  forall c d, slot_used w c -> slot_used w d -> p_pid (pt_proc w c) = p_pid (pt_proc w d) -> c = d.

Lemma pid_moves w e w' : pinv w -> pmoves w e w' ->
  pt_next w' = pt_next w /\ (forall u, slot_used w' u -> slot_used w u /\ p_pid (pt_proc w' u) = p_pid (pt_proc w u)) \/
  pt_next w' = u64 (pt_next w + 1) /\ exists x, forall u, slot_used w' u ->
    u = x /\ p_pid (pt_proc w' u) = s32 (pt_next w) \/ u <> x /\ slot_used w u /\ p_pid (pt_proc w' u) = p_pid (pt_proc w u).
Proof.
  intros I M. pose proof (exiting_state w I) as Hex. unfold slot_used, pst in *. moves M; unfold pst in *;
    try (left; split; [done|]; intros u; psimpl; slots; simpl; wake_simpl; states; try done; by intros);
    right; (split; [done|]); exists i; intros u; psimpl; slots; simpl; states; try done; auto.
Qed.

(** [C36] Pids are distinct as long as the counter has not passed 2^31: boot
    establishes it and every step keeps it, for zombies and slots under
    construction too. *)
Theorem pids_unique :
  pids_distinct init_user /\
  forall w m e w', preach w -> pids_distinct w -> pt_next w < 2 ^ 31 -> pstep m w = Some (Ok (e, w')) -> pids_distinct w'.
Proof.
  split.
  { assert (H : forall c, slot_used init_user c -> c = 0%nat).
    { intros c. unfold slot_used, pst. rewrite init_user_proc. by case_decide. }
    split; [by intros c ->%H|]. by intros c d ->%H ->%H. }
  intros w m e w' R [Hb Hd] Hn E. pose proof (preach_moves w m e w' R E) as M.
  assert (0 < pt_next w) as H0.
  { pose proof (preach_inv w R) as I. assert (slot_used w (pt_init w)) as Hi by (unfold slot_used; by rewrite (init_alive w I)).
    apply Hb in Hi. lia. }
  assert (s32 (pt_next w) = pt_next w) as Hs by (apply s32_small; lia).
  assert (u64 (pt_next w + 1) = pt_next w + 1) as Hu by (apply u64_small; lia).
  destruct (pid_moves w e w' (preach_inv w R) M) as [[Hn' Hk]|[Hn' (x & Hk)]]; rewrite ?Hs, ?Hu in *.
  - split.
    + intros c [Hc Hp]%Hk. rewrite Hp, Hn'. by apply Hb.
    + intros c d [Hc Hp]%Hk [Hc' Hp']%Hk. rewrite Hp, Hp'. by apply Hd.
  - split.
    + intros c Hc. rewrite Hn'. destruct (Hk c Hc) as [[-> ->]|(_ & Hc' & ->)]; [lia|]. apply Hb in Hc'. lia.
    + intros c d Hc Hd'. destruct (Hk c Hc) as [[-> ->]|(Hx & Hc0 & ->)], (Hk d Hd') as [[-> ->]|(Hy & Hd0 & ->)]; try done.
      * intros Eq. apply Hb in Hd0. lia.
      * intros Eq. apply Hb in Hc0. lia.
      * by apply Hd.
Qed.

(** ** A run: init forks a child and waits for it while the child exits with
    status 42 *)

(** the loop over [tasks[]] of task [t] *)
Definition scan_all (t : nat) : list pmove := repeat (MTask t PGo) NTASKS.
Definition fork_moves : list pmove :=
  [MPick 0; MTask 0 PGo; MTask 0 PFork; MTask 0 (PMem true); MTask 0 (PMem true); MTask 0 (PMem true)].
(** the child runs, init scans and falls asleep *)
Definition sleep_moves : list pmove :=
  [MTask 0 PGo; MPick 1; MTask 1 PGo; MTask 1 (PExit 42); MTask 0 (PWait (-1))] ++ scan_all 0 ++ [MTask 0 PGo; MTask 0 PGo; MDrop 0].
(** the child frees its memory, has no children of its own, and is a zombie *)
Definition exit_moves : list pmove := [MTask 1 PGo] ++ scan_all 1 ++ [MTask 1 PGo; MTask 1 PGo].
(** it wakes init, which finds it *)
Definition wake_moves : list pmove := [MTask 1 PGo; MPick 0; MTask 0 PGo; MTask 0 PGo; MTask 1 PGo; MDrop 1; MTask 0 PGo].

Definition after (ms : list pmove) : ptable := match prun ms init_user with Some (_, w) => w | None => init_user end.
Lemma after_preach ms : preach (after ms).
Proof.
  unfold after. destruct (prun ms init_user) as [[es w]|] eqn:E; [|constructor]. eapply prun_reach; [constructor|exact E].
Qed.

Definition w_forked : ptable := after fork_moves.
Definition w_zombie : ptable := after (fork_moves ++ sleep_moves ++ exit_moves).
Definition w_found : ptable := after (fork_moves ++ sleep_moves ++ exit_moves ++ wake_moves).

Example demo_events : option_map (fun r => omap (fun e => match e with ENone => None | _ => Some e end) (fst r))
    (prun (fork_moves ++ sleep_moves ++ exit_moves ++ wake_moves ++ [MTask 0 PGo]) init_user) = Some [EFork 2; EWait 2 42].
Proof. vm_compute. reflexivity. Qed.

Lemma process_tree_witness : preach w_zombie /\ in_use w_zombie 1 /\ rooted w_zombie 1 /\ pst w_zombie 1 = ZOMBIE.
Proof.
  pose proof (after_preach (fork_moves ++ sleep_moves ++ exit_moves)) as R.
  assert (in_use w_zombie 1) as U by (right; vm_compute; reflexivity).
  split; [exact R|]. split; [exact U|]. split; [|vm_compute; reflexivity].
  exact (proj1 (proj2 (proj2 (proj2 (process_tree w_zombie R))) 1%nat U)).
Defined.

Lemma no_child_missed_witness : waits_for w_zombie 0 (-1) 1 = true /\ waking w_zombie 0 1.
Proof.
  assert (waits_for w_zombie 0 (-1) 1 = true) as W by (vm_compute; reflexivity). split; [exact W|].
  apply (no_child_missed w_zombie 0 (-1)); [apply after_preach|vm_compute; reflexivity|vm_compute; reflexivity|exact W|vm_compute; reflexivity].
Defined.

Lemma wakers_wake_witness : exists w', pstep (MTask 1 PGo) w_zombie = Some (Ok (ENone, w')) /\ pst w' 0 = RUNNABLE.
Proof.
  apply (wakers_wake w_zombie 0 (-1) 1 42); [apply after_preach|vm_compute; reflexivity..|].
  left. split; vm_compute; reflexivity.
Defined.

(** the steps that return *)
Lemma reap_step w t pid c : p_on (pt_proc w t) = true -> p_pc (pt_proc w t) = WReap pid c -> pt_lk w c = Some (HTask t) ->
  pstep (MTask t PGo) w = Some (Ok (EWait (p_pid (pt_proc w c)) (p_ret (pt_proc w c)), plock c None (pgoto t PUser (pwith c free_task w)))).
Proof. intros E1 E2 E3. unfold pstep. rewrite E1. unfold proc_step, waitpid_step. rewrite E2. by rewrite prelease_ok. Qed.
Lemma ret_step w t c : p_on (pt_proc w t) = true -> p_pc (pt_proc w t) = KRet c ->
  pstep (MTask t PGo) w = Some (Ok (EFork (p_pid (pt_proc w c)), pgoto t PUser w)).
Proof. intros E1 E2. unfold pstep. rewrite E1. unfold proc_step, kfork_step. by rewrite E2. Qed.

(** what a state says of tasks 0 and 1, computed at once *)
Definition fields (w : ptable) : (bool * pframe) * option holder * (Z * Z) :=
  (p_on (pt_proc w 0), p_pc (pt_proc w 0), pt_lk w 1, (p_pid (pt_proc w 1), p_ret (pt_proc w 1))).
Lemma fields_inv w a b c d e : fields w = (a, b, c, (d, e)) ->
  p_on (pt_proc w 0) = a /\ p_pc (pt_proc w 0) = b /\ pt_lk w 1 = c /\ p_pid (pt_proc w 1) = d /\ p_ret (pt_proc w 1) = e.
Proof. unfold fields. by intros [= -> -> -> -> ->]. Qed.
Lemma found_fields : fields w_found = (true, WReap (-1) 1, Some (HTask 0), (2, 42)).
Proof. vm_compute. reflexivity. Qed.
Lemma waitpid_returns_witness : p_pid (pt_proc w_found 1) = 2 /\ exists code, p_ret (pt_proc w_found 1) = code /\ code = 42.
Proof.
  destruct (fields_inv _ _ _ _ _ _ found_fields) as (E1 & E2 & E3 & E4 & E5). split; [exact E4|].
  destruct (waitpid_returns w_found 0 PGo _ _ _ (after_preach _) (reap_step w_found 0 (-1) 1 E1 E2 E3)) as [(E & _)|(pid & c & code & _ & _ & _ & _ & _ & _ & Hc & _)].
  - rewrite E4 in E. discriminate E.
  - exists code. split; [exact Hc|]. rewrite <- Hc. exact E5.
Defined.

Lemma forked_fields : fields w_forked = (true, KRet 1, None, (2, 0)).
Proof. vm_compute. reflexivity. Qed.
Lemma kfork_returns_witness : exists c, p_parent (pt_proc w_forked c) = Some 0%nat /\ p_pid (pt_proc w_forked c) = 2.
Proof.
  destruct (fields_inv _ _ _ _ _ _ forked_fields) as (E1 & E2 & _ & E3 & _).
  destruct (kfork_returns w_forked 0 PGo _ _ (after_preach _) (ret_step w_forked 0 1 E1 E2)) as [E|(c & _ & Hp & _ & Hr)].
  - rewrite E3 in E. discriminate E.
  - exists c. split; [exact Hp|]. rewrite <- Hr. exact E3.
Defined.


Lemma pids_unique_witness : pids_distinct init_user /\ exists w', pstep (MPick 0) init_user = Some (Ok (ENone, w')) /\ pids_distinct w'.
Proof.
  destruct pids_unique as [H1 H2]. split; [exact H1|]. eexists. split; [reflexivity|].
  eapply (H2 init_user (MPick 0)); [constructor|exact H1|vm_compute; reflexivity|reflexivity].
Defined.
