(* ===== verification/VfsPath.v ===== *)
(** Path names: [do_build_user_path] of kernel/syscall.c and [vfs_normalize]
    of fs/vfs.c, with the reference definition they are equal to.

    A C string is the list of its bytes, without the terminating zero.  The
    output buffer of [do_build_user_path] is the list of the bytes written so
    far, last byte first, so that [wr] is its length and a loop that moves
    [wr] back drops bytes from its head.

    The reference ([follow]) knows nothing of bytes: an absolute path in
    normal form is a list of names, [.] keeps it, [..] drops its last name
    and any other name is added at the end.  The buffer bounds every path on
    the way ([all_fit]), not the last one only, as the comment in syscall.c says:
    a name that is too long gives the empty string even if [..] follows. *)
From stdpp Require Import base list sets strings.
From Stdlib Require Import ZArith Lia Ascii.
From S2P Require Import Prelude.
Open Scope Z_scope.

Definition BUFSZ : Z := 4096.
Definition VFS_MAX_PATH_LEN : Z := 128.
(** '/' and '.' *)
Definition slash : Z := 47.
Definition dot : Z := 46.
Definition strlen (s : list Z) : Z := Z.of_nat (length s).
(** the bytes of a string literal *)
Definition cstr (s : string) : list Z := (fun c => Z.of_nat (nat_of_ascii c)) <$> String.list_ascii_of_string s.

(** ** The code *)

(** [while ( *path == '/') path++] *)
Fixpoint skip_slashes (path : list Z) : list Z :=
  match path with
  | c :: path' => if c =? slash then skip_slashes path' else path
  | [] => []
  end.
(** [seg = path; while ( *path && *path != '/') path++]: the segment and the rest *)
Fixpoint take_seg (path : list Z) : list Z * list Z :=
  match path with
  | c :: path' => if c =? slash then ([], path) else let '(seg, rest) := take_seg path' in (c :: seg, rest)
  | [] => ([], [])
  end.
(** [while (wr > 1 && p(des_path[wr - 1])) wr--] *)
Fixpoint back_while (p : Z -> bool) (des : list Z) : list Z :=
  match des with
  | c :: ((_ :: _) as des') => if p c then back_while p des' else des
  | _ => des
  end.
(** the branch of [..]; it does nothing when [wr <= 1] *)
Definition pop_seg (des : list Z) : list Z :=
  if 1 <? strlen des then
    match back_while (fun c => negb (c =? slash)) des with
    | c :: ((_ :: _) as des') => if c =? slash then des' else c :: des'
    | des1 => des1
    end
  else des.
(** the branch of an ordinary segment; [None] is the early return that leaves
    the empty string *)
Definition push_seg (des seg : list Z) : option (list Z) :=
  if (1 <? strlen des) && (BUFSZ <=? strlen des + 1) then None
  else let des := if 1 <? strlen des then slash :: des else des in
       if BUFSZ <=? strlen des + strlen seg then None else Some (rev seg ++ des).

Definition is_dot (seg : list Z) : bool := bool_decide (seg = [dot]).
Definition is_dotdot (seg : list Z) : bool := bool_decide (seg = [dot; dot]).

(** the main loop; the outer option is [None] when the fuel runs out *)
Fixpoint build_loop (fuel : nat) (des path : list Z) : option (list Z) :=
  match fuel with
  | O => None
  | S fuel =>
    match skip_slashes path with
    | [] => Some (rev des)
    | (_ :: _) as path =>
      let '(seg, rest) := take_seg path in
      if is_dot seg then build_loop fuel des rest
      else if is_dotdot seg then build_loop fuel (pop_seg des) rest
      else match push_seg des seg with
           | Some des' => build_loop fuel des' rest
           | None => Some []
           end
    end
  end.

(** [do_build_user_path]: what the caller's buffer holds afterwards; a [None]
    argument is a null pointer *)
Definition do_build_user_path (u_path cwd : option (list Z)) : option (list Z) :=
  match cwd with
  | None => Some []
  | Some cwd =>
    match u_path with
    | None | Some [] => if BUFSZ <=? strlen cwd then Some [] else Some cwd
    | Some ((c :: _) as u_path) =>
      if c =? slash then
        let path := skip_slashes u_path in
        build_loop (S (length path)) [slash] path
      else
        if (strlen cwd =? 0) || negb (default 0 (head cwd) =? slash) then Some []
        else if BUFSZ <=? strlen cwd then Some []
        else build_loop (S (length u_path)) (back_while (Z.eqb slash) (rev cwd)) u_path
    end
  end.

(** [vfs_normalize]: [cwd] is the task's [cwd_path], [None] without a task *)
Definition vfs_normalize (cwd : option (list Z)) (path : list Z) : option (list Z) :=
  let cwd := match cwd with None | Some [] => [slash] | Some c => c end in
  match do_build_user_path (Some path) (Some cwd) with
  | Some ((_ :: _) as out) => if VFS_MAX_PATH_LEN <=? strlen out then None else Some out
  | _ => None
  end.

(** ** The reference *)

(** the names between the slashes of a path *)
Fixpoint split_slash (path : list Z) : list (list Z) :=
  match path with
  | [] => [[]]
  | c :: path' =>
    if c =? slash then [] :: split_slash path'
    else match split_slash path' with
         | seg :: l => (c :: seg) :: l
         | [] => [[c]]
         end
  end.
Definition components (path : list Z) : list (list Z) :=
  filter (fun seg => seg <> []) (split_slash path).

(** the absolute path that leads through the names [l] *)
Definition render (l : list (list Z)) : list Z :=
  match l with [] => [slash] | _ => concat ((fun n => slash :: n) <$> l) end.

Definition follow_name (l : list (list Z)) (n : list Z) : list (list Z) :=
  if is_dot n then l else if is_dotdot n then removelast l else l ++ [n].
Definition follow (l ns : list (list Z)) : list (list Z) := foldl follow_name l ns.
(** the paths on the way fit the buffer *)
Fixpoint all_fit (l ns : list (list Z)) : bool :=
  (strlen (render l) <? BUFSZ) && match ns with [] => true | n :: ns => all_fit (follow_name l n) ns end.

(** the same step by step *)
Definition step_name (l : list (list Z)) (n : list Z) : option (list (list Z)) :=
  if is_dot n then Some l
  else if is_dotdot n then Some (removelast l)
  else if strlen (render (l ++ [n])) <? BUFSZ then Some (l ++ [n]) else None.

(** follow [ns] from [l]; [None] when a path on the way does not fit the buffer *)
Fixpoint resolve (l ns : list (list Z)) : option (list (list Z)) :=
  match ns with
  | [] => Some l
  | n :: ns => match step_name l n with Some l' => resolve l' ns | None => None end
  end.

Definition start_of (u_path : list Z) (cwd : list (list Z)) : list (list Z) :=
  if bool_decide (head u_path = Some slash) then [] else cwd.

(** a name as a directory can hold it, and paths made of such names *)
Definition name_norm (n : list Z) : Prop :=
  n <> [] /\ (slash ∉ n) /\ n <> [dot] /\ n <> [dot; dot].
Definition path_norm (l : list (list Z)) : Prop := Forall name_norm l.

#[export] Instance name_norm_dec n : Decision (name_norm n).
Proof. unfold name_norm. apply _. Defined.
#[export] Instance path_norm_dec l : Decision (path_norm l).
Proof. unfold path_norm. apply _. Defined.

(** ** The loops of the code against the reference *)
Lemma skip_slashes_len path : (length (skip_slashes path) <= length path)%nat.
Proof. induction path as [|c path IH]; simpl; [lia|]. destruct (c =? slash); simpl; lia. Qed.

Lemma skip_slashes_head path c r : skip_slashes path = c :: r -> c <> slash.
Proof. induction path as [|d path IH]; simpl; [done|]. destruct (d =? slash) eqn:E; [auto|]. intros [= -> ->]. by breflect. Qed.

Lemma take_seg_app path seg rest : take_seg path = (seg, rest) ->
  path = seg ++ rest /\ (slash ∉ seg) /\ (rest = [] \/ head rest = Some slash).
Proof.
  revert seg. induction path as [|c path IH]; simpl; intros seg.
  { intros [= <- <-]. split; [done|]. split; [apply not_elem_of_nil|by left]. }
  destruct (c =? slash) eqn:E; breflect.
  { intros [= <- <-]. split; [done|]. split; [apply not_elem_of_nil|]. right. simpl. by rewrite E. }
  destruct (take_seg path) as [s r]. intros [= <- <-]. destruct (IH s eq_refl) as (-> & Hs & Hr).
  split; [done|]. split; [|done]. rewrite not_elem_of_cons. auto.
Qed.

Lemma split_slash_ne path : split_slash path <> [].
Proof. destruct path as [|c p]; simpl; [done|]. destruct (c =? slash); [done|]. by destruct (split_slash p). Qed.

Lemma components_slash path : components (slash :: path) = components path.
Proof. unfold components. simpl. rewrite filter_cons_False; [done|]. intros []. done. Qed.

Lemma components_skip path : components (skip_slashes path) = components path.
Proof.
  induction path as [|c path IH]; simpl; [done|]. destruct (c =? slash) eqn:E; [|done].
  breflect. subst c. by rewrite components_slash.
Qed.

Lemma split_slash_seg seg path : (slash ∉ seg) ->
  split_slash (seg ++ path) = match split_slash path with s :: l => (seg ++ s) :: l | [] => [] end.
Proof.
  induction seg as [|c seg IH]; simpl; intros Hs.
  { destruct (split_slash path) eqn:E; [by destruct (split_slash_ne path)|done]. }
  apply not_elem_of_cons in Hs as [Hc Hs]. destruct (c =? slash) eqn:E; breflect; [congruence|].
  rewrite IH by done. destruct (split_slash path) eqn:E'; [by destruct (split_slash_ne path)|done].
Qed.

Lemma components_seg seg rest : seg <> [] -> (slash ∉ seg) -> rest = [] \/ head rest = Some slash ->
  components (seg ++ rest) = seg :: components rest.
Proof.
  intros Hne Hs Hr. unfold components. rewrite split_slash_seg by done. destruct Hr as [->|Hr].
  - simpl. rewrite app_nil_r, filter_cons_True by done. by rewrite filter_cons_False by (intros []; done).
  - destruct rest as [|c rest]; simplify_eq/=. rewrite app_nil_r, filter_cons_True by done.
    by rewrite filter_cons_False by (intros []; done).
Qed.

Lemma render_snoc l n : render (l ++ [n]) = (if decide (l = []) then [] else render l) ++ slash :: n.
Proof.
  destruct (decide (l = [])) as [->|Hl]; simpl; [by rewrite app_nil_r|].
  unfold render. destruct l as [|x l]; [done|]. simpl. rewrite fmap_app, concat_app. simpl.
  by rewrite app_nil_r, app_assoc.
Qed.

Lemma render_ne l : render l <> [].
Proof. destruct l; simpl; discriminate. Qed.

Lemma render_long l : path_norm l -> (1 <? strlen (render l)) = negb (bool_decide (l = [])).
Proof.
  destruct l as [|n l]; [done|]. intros H. apply Forall_cons in H as [(Hn & _) _].
  rewrite bool_decide_eq_false_2 by done. apply Z.ltb_lt. unfold strlen. simpl. rewrite length_app.
  destruct n; [done|]. simpl. lia.
Qed.

Lemma strlen_rev s : strlen (rev s) = strlen s.
Proof. unfold strlen. by rewrite length_rev. Qed.
Lemma strlen_app s t : strlen (s ++ t) = strlen s + strlen t.
Proof. unfold strlen. rewrite length_app. lia. Qed.
Lemma strlen_cons c s : strlen (c :: s) = 1 + strlen s.
Proof. unfold strlen. simpl. lia. Qed.
Lemma strlen_nonneg s : 0 <= strlen s.
Proof. unfold strlen. lia. Qed.

Lemma push_seg_render l seg : path_norm l -> seg <> [] ->
  push_seg (rev (render l)) seg =
  if strlen (render (l ++ [seg])) <? BUFSZ then Some (rev (render (l ++ [seg]))) else None.
Proof.
  intros Hl Hs. unfold push_seg. rewrite strlen_rev, render_long by done. rewrite render_snoc.
  assert (0 < strlen seg) by (destruct seg; [done|rewrite strlen_cons; pose proof (strlen_nonneg seg); lia]).
  case_bool_decide as E; simpl; rewrite strlen_app, strlen_cons.
  - rewrite decide_True by done. subst l. simpl. unfold strlen at 1 3; simpl.
    destruct (Z.leb_spec BUFSZ (Z.of_nat 1 + strlen seg)),
      (Z.ltb_spec (Z.of_nat 0 + (1 + strlen seg)) BUFSZ); done || lia.
  - rewrite decide_False by done. rewrite strlen_cons, strlen_rev.
    destruct (Z.leb_spec BUFSZ (strlen (render l) + 1)).
    { by destruct (Z.ltb_spec (strlen (render l) + (1 + strlen seg)) BUFSZ); [lia|]. }
    destruct (Z.leb_spec BUFSZ (1 + strlen (render l) + strlen seg)),
      (Z.ltb_spec (strlen (render l) + (1 + strlen seg)) BUFSZ); try lia; [done|].
    rewrite rev_app_distr. simpl. by rewrite <- app_assoc.
Qed.

Lemma back_while_app p s t : t <> [] -> Forall (fun c => p c = true) s ->
  back_while p (s ++ t) = back_while p t.
Proof.
  intros Ht Hs. induction Hs as [|c s Hc Hs IH]; [done|]. simpl.
  destruct (s ++ t) eqn:E; [by apply app_nil in E as [_ ->]|]. by rewrite Hc.
Qed.

Lemma back_while_stop p c t : p c = false -> back_while p (c :: t) = c :: t.
Proof. intros E. simpl. destruct t; [done|]. by rewrite E. Qed.

Lemma not_slash_all n : (slash ∉ n) -> Forall (fun c => negb (c =? slash) = true) (rev n).
Proof.
  intros Hn. apply Forall_rev, list.Forall_forall. intros c Hc.
  apply negb_true_iff, Z.eqb_neq. intros ->. done.
Qed.

Lemma rev_ne (s : list Z) : s <> [] -> rev s <> [].
Proof. intros H E. apply H. by rewrite <- (rev_involutive s), E. Qed.

Lemma path_norm_snoc l n : path_norm (l ++ [n]) -> path_norm l /\ name_norm n.
Proof. intros H. apply Forall_app in H as [? H]. apply Forall_cons in H as [? _]. done. Qed.

Lemma pop_seg_render l : path_norm l -> pop_seg (rev (render l)) = rev (render (removelast l)).
Proof.
  intros Hl. unfold pop_seg. rewrite strlen_rev, render_long by done.
  destruct l as [|n l' _] using rev_ind; [done|].
  rewrite bool_decide_eq_false_2 by (by destruct l'). simpl. rewrite removelast_last.
  apply path_norm_snoc in Hl as [Hl (Hn & Hs & _)].
  rewrite render_snoc, rev_app_distr. simpl. rewrite <- app_assoc. simpl.
  rewrite back_while_app by (done || by apply not_slash_all).
  rewrite back_while_stop by done.
  destruct (decide (l' = [])) as [->|Hl']; [done|]. pose proof (rev_ne _ (render_ne l')) as H.
  by destruct (rev (render l')).
Qed.

Lemma strip_render l : path_norm l -> back_while (Z.eqb slash) (rev (render l)) = rev (render l).
Proof.
  destruct l as [|n l' _] using rev_ind; [done|]. intros Hl.
  apply path_norm_snoc in Hl as [Hl (Hn & Hs & _)]. rewrite render_snoc, rev_app_distr. simpl.
  destruct (rev n) as [|c r] eqn:E; [by destruct (rev_ne n Hn)|]. apply back_while_stop.
  apply Z.eqb_neq. intros <-. apply Hs, list_elem_of_In, in_rev. rewrite E. by left.
Qed.

Lemma step_name_norm l n l' : path_norm l -> n <> [] -> (slash ∉ n) -> step_name l n = Some l' -> path_norm l'.
Proof.
  unfold step_name, is_dot, is_dotdot. intros Hl Hn Hs.
  case_bool_decide; [by intros [= <-]|]. case_bool_decide.
  - intros [= <-]. destruct l as [|x l1 _] using rev_ind; [done|].
    rewrite removelast_last. by apply path_norm_snoc in Hl as [? _].
  - destruct (_ <? _); intros [= <-]. apply Forall_app. split; [done|]. apply Forall_cons. done.
Qed.

Lemma components_name path : Forall (fun n => n <> [] /\ (slash ∉ n)) (components path).
Proof.
  unfold components. induction path as [|c path IH]; simpl; [by constructor|].
  destruct (c =? slash) eqn:E; breflect; [by rewrite filter_cons_False by (intros []; done)|].
  destruct (split_slash path) as [|s l]; [apply Forall_cons; split; [|by constructor]; split; [done|set_solver]|].
  rewrite filter_cons_True by done. rewrite filter_cons in IH. destruct (decide (s <> [])) as [Hs|Hs].
  - apply Forall_cons in IH as [[_ H1] H2]. apply Forall_cons. split; [|done]. split; [done|]. set_solver.
  - apply dec_stable in Hs as ->. apply Forall_cons. split; [|done]. split; [done|set_solver].
Qed.

Lemma resolve_norm ns : forall l l', path_norm l -> Forall (fun n => n <> [] /\ (slash ∉ n)) ns ->
  resolve l ns = Some l' -> path_norm l'.
Proof.
  induction ns as [|n ns IH]; simpl; intros l l' Hl Hns; [by intros [= <-]|].
  apply Forall_cons in Hns as [[Hn Hs] Hns]. destruct (step_name l n) as [l1|] eqn:E; [|done].
  apply IH; [|done]. by eapply step_name_norm.
Qed.

(** the loop computes [resolve], with one unit of fuel per byte *)
Lemma build_loop_resolve fuel : forall path l, (length path < fuel)%nat -> path_norm l ->
  build_loop fuel (rev (render l)) path =
  Some (match resolve l (components path) with Some l' => render l' | None => [] end).
Proof.
  induction fuel as [|fuel IH]; intros path l Hf Hl; [lia|]. cbn [build_loop].
  rewrite <- components_skip. pose proof (skip_slashes_len path).
  destruct (skip_slashes path) as [|c r] eqn:E; [by rewrite rev_involutive|].
  destruct (take_seg (c :: r)) as [seg rest] eqn:T. apply take_seg_app in T as (T & Hs & Hr).
  assert (seg <> []) as Hne.
  { intros ->. simpl in T. subst rest. destruct Hr as [|[= ->]]; [done|]. by apply skip_slashes_head in E. }
  rewrite T, components_seg by done. cbn [resolve].
  assert (length rest < fuel)%nat.
  { apply (f_equal length) in T. rewrite length_app in T. destruct seg; [done|]. simpl in *. lia. }
  unfold step_name. destruct (is_dot seg) eqn:E1; [by apply IH|]. destruct (is_dotdot seg) eqn:E2.
  - rewrite pop_seg_render by done. apply IH; [done|].
    destruct l as [|x l1 _] using rev_ind; [done|]. rewrite removelast_last.
    by apply path_norm_snoc in Hl as [? _].
  - rewrite push_seg_render by done.
    destruct (strlen (render (l ++ [seg])) <? BUFSZ) eqn:Ef; [|done]. apply IH; [done|].
    apply (step_name_norm l seg); [done..|]. unfold step_name. by rewrite E1, E2, Ef.
Qed.

Lemma components_render l : path_norm l -> components (render l) = l.
Proof.
  destruct l as [|n l]; [done|]. revert n. unfold render. induction l as [|m l IH]; intros n H;
    apply Forall_cons in H as [(Hn & Hs & _) H]; cbn [fmap list_fmap concat]; rewrite <- app_comm_cons, components_slash.
  - rewrite components_seg by (done || by left). done.
  - rewrite components_seg by (done || by right). f_equal. by apply IH.
Qed.

Lemma render_concat l : l <> [] -> render l = concat (cons slash <$> l).
Proof. by destruct l. Qed.

Lemma resolve_self l : forall k, path_norm (k ++ l) -> strlen (render (k ++ l)) < BUFSZ ->
  resolve k l = Some (k ++ l).
Proof.
  induction l as [|n l IH]; intros k Hn Hl; [by rewrite app_nil_r|]. simpl.
  apply Forall_app in Hn as [Hk Hn]. pose proof Hn as Hn'. apply Forall_cons in Hn' as [(H1 & H2 & H3 & H4) _].
  assert (strlen (render (k ++ [n])) <= strlen (render (k ++ n :: l))) as Hle.
  { rewrite !render_concat by (by destruct k). rewrite !fmap_app, !concat_app, !strlen_app, !fmap_cons.
    cbn [concat app]. rewrite !strlen_cons, !strlen_app. pose proof (strlen_nonneg (concat (cons slash <$> l))).
    rewrite fmap_nil. cbn [concat]. change (strlen []) with 0. lia. }
  unfold step_name, is_dot, is_dotdot. rewrite !bool_decide_eq_false_2 by done.
  destruct (Z.ltb_spec (strlen (render (k ++ [n]))) BUFSZ); [|lia].
  replace (k ++ n :: l) with ((k ++ [n]) ++ l) in * by (by rewrite <- app_assoc).
  apply IH; [|done]. rewrite <- app_assoc. by apply Forall_app.
Qed.

Lemma head_render l : head (render l) = Some slash.
Proof. by destruct l. Qed.

(** [do_build_user_path] with the fuel resolved, for a working directory in
    normal form *)
Lemma build_path_resolve u cwd : path_norm cwd -> strlen (render cwd) < BUFSZ ->
  do_build_user_path (Some u) (Some (render cwd)) =
  Some (match resolve (start_of u cwd) (components u) with Some l => render l | None => [] end).
Proof.
  intros Hn Hl. unfold do_build_user_path, start_of. destruct u as [|c u].
  { rewrite bool_decide_eq_false_2 by done. destruct (Z.leb_spec BUFSZ (strlen (render cwd))); [lia|done]. }
  destruct (c =? slash) eqn:E; breflect.
  - subst c. rewrite bool_decide_eq_true_2 by done.
    rewrite (build_loop_resolve _ _ [] (Nat.lt_succ_diag_r _)) by constructor. by rewrite components_skip.
  - rewrite bool_decide_eq_false_2 by (simpl; congruence). rewrite head_render.
    change (negb (default 0 (Some slash) =? slash)) with false. rewrite orb_false_r.
    destruct (strlen (render cwd) =? 0) eqn:E0; breflect.
    { pose proof (render_ne cwd). destruct (render cwd); [done|]. rewrite strlen_cons in E0.
      pose proof (strlen_nonneg l). lia. }
    destruct (Z.leb_spec BUFSZ (strlen (render cwd))); [lia|].
    rewrite strip_render by done. apply build_loop_resolve; [lia|done].
Qed.

Lemma render_removelast l : strlen (render (removelast l)) <= strlen (render l).
Proof.
  destruct l as [|n l _] using rev_ind; [done|]. rewrite removelast_last, render_snoc, strlen_app, strlen_cons.
  pose proof (strlen_nonneg n). case_decide as El; [subst; change (strlen (render [])) with 1; change (strlen []) with 0|]; lia.
Qed.
Lemma resolve_follow ns : forall l, strlen (render l) < BUFSZ ->
  resolve l ns = if all_fit l ns then Some (follow l ns) else None.
Proof.
  induction ns as [|n ns IH]; intros l Hl; cbn [resolve all_fit]; rewrite (proj2 (Z.ltb_lt _ _) Hl); [done|].
  unfold step_name, follow. cbn [foldl andb]. unfold follow_name at 1 3.
  destruct (is_dot n); [by apply IH|]. destruct (is_dotdot n).
  - apply IH. pose proof (render_removelast l). lia.
  - destruct (strlen (render (l ++ [n])) <? BUFSZ) eqn:E; breflect; [by apply IH|].
    destruct ns; cbn [all_fit]; by rewrite (proj2 (Z.ltb_ge _ _)) by lia.
Qed.

(** [C20] Path resolution is the reference resolution: for every user path and
    every working directory in normal form, [do_build_user_path] terminates
    and leaves in the buffer exactly the printed form of the directory stack
    obtained by following the names of the path one by one ([.] stays, [..]
    pops and stays at the root, repeated slashes count once) if every path on
    the way fits [BUFSZ], and the empty string if one of them does not, whatever
    follows it. *)
Theorem build_path_equiv u cwd : path_norm cwd -> strlen (render cwd) < BUFSZ ->
  do_build_user_path (Some u) (Some (render cwd)) =
  Some (if all_fit (start_of u cwd) (components u) then render (follow (start_of u cwd) (components u)) else []).
Proof.
  intros Hn Hl. rewrite build_path_resolve by done. rewrite resolve_follow.
  - by destruct (all_fit _ _).
  - unfold start_of. by case_bool_decide.
Qed.

(** a task's [cwd_path]: none, not set, or a path in normal form *)
Definition cwd_ok (cwd : option (list Z)) : Prop :=
  match cwd with
  | None | Some [] => True
  | Some c => exists l, path_norm l /\ c = render l /\ strlen c < BUFSZ
  end.
Definition cwd_names (cwd : option (list Z)) : list (list Z) :=
  match cwd with None | Some [] => [] | Some c => components c end.

Lemma cwd_ok_names cwd : cwd_ok cwd -> path_norm (cwd_names cwd) /\ strlen (render (cwd_names cwd)) < BUFSZ /\
  match cwd with None | Some [] => [slash] | Some c => c end = render (cwd_names cwd).
Proof.
  destruct cwd as [[|c cwd]|]; simpl; [by intros; repeat split; [constructor..]| |by intros; repeat split; [constructor..]].
  intros (l & Hn & -> & Hl). by rewrite components_render.
Qed.

Lemma normalize_resolve cwd p : cwd_ok cwd ->
  vfs_normalize cwd p =
  match resolve (start_of p (cwd_names cwd)) (components p) with
  | Some l => if VFS_MAX_PATH_LEN <=? strlen (render l) then None else Some (render l)
  | None => None
  end.
Proof.
  intros H. apply cwd_ok_names in H as (Hn & Hl & E). unfold vfs_normalize. rewrite E.
  rewrite build_path_resolve by done. destruct (resolve _ _) as [l|]; [|done].
  pose proof (render_ne l). by destruct (render l).
Qed.

Lemma normalize_render cwd p q : cwd_ok cwd -> vfs_normalize cwd p = Some q ->
  exists l, path_norm l /\ q = render l /\ strlen q < VFS_MAX_PATH_LEN.
Proof.
  intros H. rewrite normalize_resolve by done. apply cwd_ok_names in H as (Hn & _ & _).
  destruct (resolve _ _) as [l|] eqn:E; [|done]. destruct (Z.leb_spec VFS_MAX_PATH_LEN (strlen (render l))); [done|].
  intros [= <-]. exists l. split; [|done]. eapply resolve_norm; [|apply components_name|done].
  unfold start_of. case_bool_decide; [constructor|done].
Qed.

(** a relative path has no meaning for a working directory that is not set *)
Lemma build_path_norm cwd p : cwd_ok (Some cwd) ->
  exists out, do_build_user_path (Some p) (Some cwd) = Some out /\ (out = [] \/ exists l, path_norm l /\ out = render l).
Proof.
  assert (forall l, path_norm l -> match resolve (start_of p l) (components p) with Some l => render l | None => [] end = [] \/
    exists k, path_norm k /\ match resolve (start_of p l) (components p) with Some l => render l | None => [] end = render k) as Hr.
  { intros l Hn. destruct (resolve _ _) as [k|] eqn:E; [right|by left]. exists k. split; [|done].
    eapply resolve_norm; [|apply components_name|done]. unfold start_of. case_bool_decide; [constructor|done]. }
  destruct cwd as [|c cwd]; intros Hc.
  - destruct p as [|a p]; [by exists []; auto|]. destruct (a =? slash) eqn:E; breflect.
    + subst a. pose proof (build_path_resolve (slash :: p) [] ltac:(constructor) ltac:(done)) as Hb.
      eexists. split; [exact Hb|]. apply Hr. constructor.
    + exists []. split; [|by left]. simpl. by rewrite (proj2 (Z.eqb_neq a slash) E).
  - destruct Hc as (l & Hn & El & Hl). rewrite El. eexists. split; [apply build_path_resolve; [done|by rewrite <- El]|by apply Hr].
Qed.

Lemma normalize_id cwd l : cwd_ok cwd -> path_norm l -> strlen (render l) < VFS_MAX_PATH_LEN ->
  vfs_normalize cwd (render l) = Some (render l).
Proof.
  intros H Hn Hl. rewrite normalize_resolve by done. unfold start_of.
  rewrite bool_decide_eq_true_2 by apply head_render. rewrite components_render by done.
  rewrite resolve_self; simpl; [|done|unfold VFS_MAX_PATH_LEN, BUFSZ in *; lia].
  by destruct (Z.leb_spec VFS_MAX_PATH_LEN (strlen (render l))); [lia|].
Qed.

(** What [vfs_normalize] accepts is a normal form: the result is the
    printed form of a list of proper names (none empty, [.], [..] or holding a
    slash), shorter than [VFS_MAX_PATH_LEN]; its components are those names;
    and normalising it again, from any working directory, changes nothing. *)
Theorem normalize_normal cwd p q : cwd_ok cwd -> vfs_normalize cwd p = Some q ->
  path_norm (components q) /\ q = render (components q) /\ strlen q < VFS_MAX_PATH_LEN /\
  forall cwd', cwd_ok cwd' -> vfs_normalize cwd' q = Some q.
Proof.
  intros H E. destruct (normalize_render _ _ _ H E) as (l & Hn & -> & Hl).
  rewrite components_render by done. repeat split; [done..|]. intros cwd' H'. by apply normalize_id.
Qed.

(** from [/usr/bin], [../lib//./x/] leads to [/usr/lib/x]; [..] stops at the root *)
Lemma build_path_equiv_witness :
  do_build_user_path (Some (cstr "../lib//./x/")) (Some (cstr "/usr/bin")) = Some (cstr "/usr/lib/x") /\
  do_build_user_path (Some (cstr "/../../a/..")) (Some (cstr "/usr/bin")) = Some (cstr "/") /\
  do_build_user_path (Some (replicate 4096 97 ++ cstr "/..")) (Some (cstr "/usr/bin")) = Some [].
Proof.
  split; [|split; [|vm_compute; reflexivity]].
  - etransitivity.
    + apply (build_path_equiv (cstr "../lib//./x/") [cstr "usr"; cstr "bin"]).
      * apply (bool_decide_unpack _). vm_compute. exact I.
      * reflexivity.
    + reflexivity.
  - reflexivity.
Defined.

Lemma normalize_normal_witness :
  vfs_normalize (Some (cstr "/usr")) (cstr "./a//b/../c") = Some (cstr "/usr/a/c") /\
  vfs_normalize None (cstr "/usr/a/c") = Some (cstr "/usr/a/c").
Proof.
  split; [reflexivity|].
  apply (normalize_normal (Some (cstr "/usr")) (cstr "./a//b/../c") (cstr "/usr/a/c")); [|reflexivity|exact I].
  exists [cstr "usr"]. split; [|by vm_compute]. apply (bool_decide_unpack _). vm_compute. exact I.
Defined.
