(* ===== verification/Vfs.v ===== *)
(** The virtual file system: fs/vfs.c, the character device table of
    fs/char_dev.c and the parts of kernel/proc.c that hold references to
    inodes and files (set_cwd, exit_fs, the descriptor copy of kfork).

    One call runs to its end here: the model is the sequential behaviour of
    the VFS functions, with every lock operation they make.  Locks are a list
    of the locks held; taking one out of the order [rank] (or twice) and
    releasing one that is not held are faults, and so is every access to an
    inode, a file or a super block that has been freed.  The theorems show
    that no call faults.

    What the VFS calls is behind three interfaces: [Heap] (slab_alloc and
    slab_free), [KvTable] (the hash tables), [FileSystem] (struct
    inode_operations, struct file_operations and struct filesystem of the
    mounted file system), [CharDriver] (struct char_device_ops).  A pointer is
    its address, 0 is NULL. *)
From stdpp Require Import base gmap list strings.
From Stdlib Require Import ZArith Lia.
From S2P Require Import Prelude HashMap VfsPath.
Open Scope Z_scope.

(** ** Constants of vfs.h *)
Definition VFS_ROOT_PARENT_SPECIAL : Z := 0xDEADBEEFCAFEBABE.
Definition VFS_INODE_CACHE_SIZE : Z := 128.
Definition VFS_NAME_MAX : Z := 255.
Definition VFS_STD_DEVICE : list Z := cstr "/dev/tty/gpu/0".
Definition MAY_READ : Z := 0x01.
Definition MAY_WRITE : Z := 0x02.
Definition MAY_EXEC : Z := 0x04.
Definition S_IFMT : Z := 0xF000.
Definition S_IFREG : Z := 0x8000.
Definition S_IFDIR : Z := 0x4000.
Definition O_RDONLY : Z := 0x0000.
Definition O_WRONLY : Z := 0x0001.
Definition O_RDWR : Z := 0x0002.
Definition O_ACCMODE : Z := 0x0003.
Definition O_CREAT : Z := 0x0004.
Definition O_EXCL : Z := 0x0008.
Definition O_TRUNC : Z := 0x0010.
Definition O_APPEND : Z := 0x0020.
Definition O_DIRECTORY : Z := 0x0040.
Definition NOFILE : Z := 64.
Definition NTASKS : Z := 128.
Definition SIZEOF_MOUNT : Z := 160.
Definition SIZEOF_CACHE_KEY : Z := 136.
Definition SIZEOF_FILE : Z := 96.
Definition SIZEOF_CHAR_DEVICE : Z := 24.

(** ** Data *)

(** [struct inode]; [i_parent] and [i_name] are its [cache_key]; [private] is
    state of the file system, under the inode's address *)
Record inode := mkInode {
  i_sb : Z;
  i_ino : Z;
  i_mode : Z;
  i_uid : Z;
  i_gid : Z;
  i_size : Z;
  i_iops : Z;
  i_fops : Z;
  i_refcount : Z;
  i_parent : Z;
  i_name : list Z }.
Definition set_refcount (n : Z) (i : inode) : inode :=
  mkInode (i_sb i) (i_ino i) (i_mode i) (i_uid i) (i_gid i) (i_size i) (i_iops i) (i_fops i) n (i_parent i) (i_name i).
Definition set_key (parent : Z) (name : list Z) (i : inode) : inode :=
  mkInode (i_sb i) (i_ino i) (i_mode i) (i_uid i) (i_gid i) (i_size i) (i_iops i) (i_fops i) (i_refcount i) parent name.
Definition set_owner (mode uid gid : Z) (i : inode) : inode :=
  mkInode (i_sb i) (i_ino i) mode uid gid (i_size i) (i_iops i) (i_fops i) (i_refcount i) (i_parent i) (i_name i).

(** [struct inode_cache_key] *)
Abbreviation ikey := (Z * list Z)%type.

Record super_block := mkSuper { sb_fs : Z; sb_root : Z }.

(** [file->fops]: NULL, the VFS's own for character devices, or a file system's *)
Inductive fops := NoFops | ChardevFops | FsFops (ops : Z).

Record file := mkFile {
  f_inode : Z;
  f_pos : Z;
  f_flags : Z;
  f_fops : fops;
  f_private : Z;
  f_refcount : Z }.
Definition set_fpos (pos : Z) (f : file) : file :=
  mkFile (f_inode f) pos (f_flags f) (f_fops f) (f_private f) (f_refcount f).
Definition set_frefcount (n : Z) (f : file) : file :=
  mkFile (f_inode f) (f_pos f) (f_flags f) (f_fops f) (f_private f) n.

(** [struct mount]: [m_child] is the list that [child] and [next] link, and
    [parent] is the node a mount hangs under *)
Inductive mount := Mount (m_ptr : Z) (m_path : list Z) (m_sb : Z) (m_child : list mount).
Definition m_ptr (m : mount) : Z := let '(Mount p _ _ _) := m in p.
Definition m_path (m : mount) : list Z := let '(Mount _ s _ _) := m in s.
Definition m_sb (m : mount) : Z := let '(Mount _ _ b _) := m in b.
Definition m_child (m : mount) : list mount := let '(Mount _ _ _ c) := m in c.

(** an entry of the file system registry: name and address of [struct filesystem] *)
Record filesystem := mkFs { fs_name : list Z; fs_ptr : Z }.

Record char_device := mkCdev { cd_ops : Z; cd_priv : Z }.

Record credentials := mkCred { c_uid : Z; c_gid : Z; c_groups : list Z; c_ngroups : nat }.

(** the fields of [struct task_struct] the VFS uses *)
Record task := mkTask { t_cwd : Z; t_cwd_path : list Z; t_ofile : list Z; t_cred : credentials }.
Definition set_ofile (l : list Z) (t : task) : task := mkTask (t_cwd t) (t_cwd_path t) l (t_cred t).
Definition set_tcwd (p : Z) (path : list Z) (t : task) : task := mkTask p path (t_ofile t) (t_cred t).

Record vfs_dirent := mkDirent { d_ino : Z; d_type : Z; d_name : list Z }.
Record vfs_kstat := mkStat {
  st_ino : Z; st_mode : Z; st_uid : Z; st_gid : Z; st_size : Z; st_nlink : Z; st_blocks : Z;
  st_blksize : Z; st_atime : Z; st_mtime : Z; st_ctime : Z }.

(** ** Locks and their order *)
Inductive lock :=
  LMeta | LMount | LRegistry | LTask (t : nat) | LFile (p : Z) | LIcache | LInode (p : Z).
#[export] Instance lock_eq : EqDecision lock.
Proof. solve_decision. Defined.
(** The order in which the code nests its locks.  [fd_alloc] and [fd_get] take
    the sleep lock of a file with the spinlock of the task held, so [LTask]
    comes before [LFile]: acquire_sleep panics there when another task holds
    the file, which cannot be while one call runs to its end.  Proc.v models
    the contended case for kexit and kfork. *)
Definition rank (l : lock) : nat :=
  match l with
  | LMeta => 0 | LMount | LRegistry => 1 | LTask _ => 2 | LFile _ => 3 | LIcache => 4 | LInode _ => 5
  end.

(** ** The interfaces *)

(** A hash table with keys of type [K]: [kt_rep t m] says that [t] holds [m].
    [kt_values] is the order in which [hash_table_foreach] visits. *)
Class KvTable (K T : Type) `{Countable K} := {
  kt_lookup : T -> K -> Z;
  kt_insert : K -> Z -> M T bool;
  kt_delete : K -> M T bool;
  kt_values : T -> list Z;
  kt_rep : T -> gmap K Z -> Prop;
  kt_lookup_ok : forall t m k, kt_rep t m -> kt_lookup t k = default 0 (m !! k);
  kt_insert_ok : forall t m k v, kt_rep t m -> wp (kt_insert k v)
    (fun r t' => kt_rep t' (if r then <[k := v]> m else m) /\ (r = true -> m !! k = None)) t;
  kt_delete_ok : forall t m k, kt_rep t m -> wp (kt_delete k)
    (fun r t' => kt_rep t' (delete k m) /\ r = bool_decide (is_Some (m !! k))) t;
  kt_values_ok : forall t m, kt_rep t m -> kt_values t ≡ₚ (map_to_list m).*2 }.

(** the members of [struct inode_operations] and [struct file_operations] *)
Inductive iop := OpLookup | OpCreate | OpMkdir | OpRmdir | OpUnlink | OpReaddir | OpGetattr | OpTruncate | OpDestroy.
Inductive fop := FopRead | FopWrite | FopSeek | FopClose.
Inductive cop := CopOpen | CopRead | CopWrite | CopClose.

(** what a file system reads and writes: the inodes and super blocks in
    memory, and its own state (the disk, its caches) *)
Record world (F : Type) := mkW { w_inodes : gmap Z inode; w_sbs : gmap Z super_block; w_fs : F }.
Arguments mkW {F} _ _ _.
Arguments w_inodes {F} w.
Arguments w_sbs {F} w.
Arguments w_fs {F} w.

(** the operations of file systems: [iops_has k op] tells whether the table at
    address [k] has the member [op]; results are the C results, new inodes and
    super blocks by address *)
Class FileSystem (F : Type) := {
  iops_has : Z -> iop -> bool;
  fops_has : Z -> fop -> bool;
  fs_get_super : Z -> Z -> M (world F) (Z * Z);
  fs_kill_super : Z -> M (world F) unit;
  fs_lookup : Z -> list Z -> M (world F) (Z * Z);
  fs_create : Z -> list Z -> Z -> M (world F) (Z * Z);
  fs_mkdir : Z -> list Z -> Z -> M (world F) (Z * Z);
  fs_rmdir : Z -> list Z -> M (world F) Z;
  fs_unlink : Z -> list Z -> M (world F) Z;
  fs_readdir : Z -> Z -> M (world F) (Z * Z * vfs_dirent);
  fs_getattr : Z -> M (world F) (Z * vfs_kstat);
  fs_truncate : Z -> Z -> M (world F) Z;
  fs_destroy : Z -> M (world F) unit;
  fs_read : file -> Z -> M (world F) (Z * list Z);
  fs_write : file -> list Z -> M (world F) Z;
  fs_seek : file -> Z -> Z -> M (world F) Z;
  fs_close : file -> M (world F) Z }.

(** the driver functions of a character device; [read] and [write] also give
    what they put in [*out_len] *)
Class CharDriver (C : Type) := {
  cops_has : Z -> cop -> bool;
  cd_open : Z -> Z -> M C Z;
  cd_read : Z -> Z -> M C (Z * list Z);
  cd_write : Z -> list Z -> M C (Z * Z);
  cd_close : Z -> M C Z }.

(** ** The state *)
Record vfs_state (F C T D H : Type) := mkV {
  v_heap : H;                   (* slab objects: buffers, files, mounts *)
  v_world : world F;
  v_icache : T;                 (* icache.table *)
  v_cdevs : D;                  (* char_dev_map, by address of the device *)
  v_devs : gmap Z char_device;
  v_drv : C;
  v_reg : list filesystem;      (* fs_registry *)
  v_root : option mount;        (* mount_table *)
  v_files : gmap Z file;
  v_tasks : list task;
  v_cur : option nat;           (* get_task() *)
  v_held : list lock }.
Arguments mkV {F C T D H} _ _ _ _ _ _ _ _ _ _ _ _.
Arguments v_heap {F C T D H} v.
Arguments v_world {F C T D H} v.
Arguments v_icache {F C T D H} v.
Arguments v_cdevs {F C T D H} v.
Arguments v_devs {F C T D H} v.
Arguments v_drv {F C T D H} v.
Arguments v_reg {F C T D H} v.
Arguments v_root {F C T D H} v.
Arguments v_files {F C T D H} v.
Arguments v_tasks {F C T D H} v.
Arguments v_cur {F C T D H} v.
Arguments v_held {F C T D H} v.

Section Ops.
Context {F C T D H : Type} `{FS : FileSystem F} `{CD : CharDriver C}.
Context `{IT : !KvTable ikey T} `{DT : !KvTable (list Z) D} `{HH : Heap H}.
Abbreviation St := (vfs_state F C T D H).
Implicit Types (s : St).

Definition with_heap (h : H) s : St := mkV h (v_world s) (v_icache s) (v_cdevs s) (v_devs s) (v_drv s) (v_reg s) (v_root s) (v_files s) (v_tasks s) (v_cur s) (v_held s).
Definition with_world (w : world F) s : St := mkV (v_heap s) w (v_icache s) (v_cdevs s) (v_devs s) (v_drv s) (v_reg s) (v_root s) (v_files s) (v_tasks s) (v_cur s) (v_held s).
Definition with_icache (t : T) s : St := mkV (v_heap s) (v_world s) t (v_cdevs s) (v_devs s) (v_drv s) (v_reg s) (v_root s) (v_files s) (v_tasks s) (v_cur s) (v_held s).
Definition with_cdevs (d : D) s : St := mkV (v_heap s) (v_world s) (v_icache s) d (v_devs s) (v_drv s) (v_reg s) (v_root s) (v_files s) (v_tasks s) (v_cur s) (v_held s).
Definition with_devs (d : gmap Z char_device) s : St := mkV (v_heap s) (v_world s) (v_icache s) (v_cdevs s) d (v_drv s) (v_reg s) (v_root s) (v_files s) (v_tasks s) (v_cur s) (v_held s).
Definition with_drv (c : C) s : St := mkV (v_heap s) (v_world s) (v_icache s) (v_cdevs s) (v_devs s) c (v_reg s) (v_root s) (v_files s) (v_tasks s) (v_cur s) (v_held s).
Definition with_reg (r : list filesystem) s : St := mkV (v_heap s) (v_world s) (v_icache s) (v_cdevs s) (v_devs s) (v_drv s) r (v_root s) (v_files s) (v_tasks s) (v_cur s) (v_held s).
Definition with_root (r : option mount) s : St := mkV (v_heap s) (v_world s) (v_icache s) (v_cdevs s) (v_devs s) (v_drv s) (v_reg s) r (v_files s) (v_tasks s) (v_cur s) (v_held s).
Definition with_files (f : gmap Z file) s : St := mkV (v_heap s) (v_world s) (v_icache s) (v_cdevs s) (v_devs s) (v_drv s) (v_reg s) (v_root s) f (v_tasks s) (v_cur s) (v_held s).
Definition with_tasks (t : list task) s : St := mkV (v_heap s) (v_world s) (v_icache s) (v_cdevs s) (v_devs s) (v_drv s) (v_reg s) (v_root s) (v_files s) t (v_cur s) (v_held s).
Definition with_held (l : list lock) s : St := mkV (v_heap s) (v_world s) (v_icache s) (v_cdevs s) (v_devs s) (v_drv s) (v_reg s) (v_root s) (v_files s) (v_tasks s) (v_cur s) l.

(** ** Memory, locks and the current task *)
Definition slab_alloc (n : Z) : M St Z := zoom v_heap with_heap (halloc n).
Definition slab_free (p : Z) : M St unit := zoom v_heap with_heap (hfree p).
Definition in_world {A} (m : M (world F) A) : M St A := zoom v_world with_world m.

Definition acquire (l : lock) : M St unit := fun s =>
  if forallb (fun k => (rank k <? rank l)%nat) (v_held s) then Ok (tt, with_held (l :: v_held s) s) else Fault.
Definition release (l : lock) : M St unit := fun s =>
  if decide (l ∈ v_held s) then Ok (tt, with_held (filter (fun k => k <> l) (v_held s)) s) else Fault.

(** dereferencing: a fault when the object is not there *)
Definition deref {A} (o : option A) : M St A := match o with Some a => mret a | None => fault end.
Definition ino (p : Z) : M St inode := let* w := gets v_world in deref (w_inodes w !! p).
Definition set_ino (p : Z) (i : inode) : M St unit :=
  modify (fun s => with_world (mkW (<[p := i]> (w_inodes (v_world s))) (w_sbs (v_world s)) (w_fs (v_world s))) s).
Definition sblk (p : Z) : M St super_block := let* w := gets v_world in deref (w_sbs w !! p).
Definition fil (p : Z) : M St file := let* l := gets v_files in deref (l !! p).
Definition set_fil (p : Z) (f : file) : M St unit := modify (fun s => with_files (<[p := f]> (v_files s)) s).
Definition get_task : M St (option (nat * task)) :=
  gets (fun s => match v_cur s with
                 | Some n => match v_tasks s !! n with Some t => Some (n, t) | None => None end
                 | None => None
                 end).
Definition set_task (n : nat) (f : task -> task) : M St unit :=
  modify (fun s => with_tasks (alter f n (v_tasks s)) s).

(** [inode->iops && inode->iops->op] *)
Definition has_iop (i : inode) (op : iop) : bool := negb (i_iops i =? 0) && iops_has (i_iops i) op.
Definition is_dir (i : inode) : bool := Z.land (i_mode i) S_IFMT =? S_IFDIR.

(** ** Permissions *)
Fixpoint group_loop (n : nat) (i : nat) (groups : list Z) (gid : Z) : bool :=
  match n with
  | O => false
  | S n => if default 0 (groups !! i) =? gid then true else group_loop n (S i) groups gid
  end.
Definition vfs_in_group (cred : credentials) (gid : Z) : bool :=
  if c_gid cred =? gid then true else group_loop (c_ngroups cred) 0 (c_groups cred) gid.

Definition bit_set (v m : Z) : bool := negb (Z.land v m =? 0).
Definition vfs_permission (i : inode) (cred : credentials) (mask : Z) : Z :=
  if c_uid cred =? 0 then 0
  else
    let perm :=
      if c_uid cred =? i_uid i then Z.land (Z.shiftr (i_mode i) 6) 7
      else if vfs_in_group cred (i_gid i) then Z.land (Z.shiftr (i_mode i) 3) 7
      else Z.land (i_mode i) 7 in
    if bit_set mask MAY_READ && negb (bit_set perm 4) then -1
    else if bit_set mask MAY_WRITE && negb (bit_set perm 2) then -1
    else if bit_set mask MAY_EXEC && negb (bit_set perm 1) then -1
    else 0.

(** ** References to inodes *)
Definition inode_get (p : Z) : M St unit :=
  if p =? 0 then mret tt
  else
    acquire (LInode p) ;;;
    let* i := ino p in
    set_ino p (set_refcount (u32 (i_refcount i + 1)) i) ;;;
    release (LInode p).

(** [slab_free(inode)] of an inode whose file system has no destroy *)
Definition drop_inode (p : Z) : M St unit :=
  modify (fun s => with_world (mkW (delete p (w_inodes (v_world s))) (w_sbs (v_world s)) (w_fs (v_world s))) s).

Definition inode_put (p : Z) : M St unit :=
  if p =? 0 then mret tt
  else
    acquire (LInode p) ;;;
    let* i := ino p in
    if i_refcount i =? 0 then release (LInode p)
    else
      let n := u32 (i_refcount i - 1) in
      set_ino p (set_refcount n i) ;;;
      release (LInode p) ;;;
      if n =? 0 then (if has_iop i OpDestroy then in_world (fs_destroy p) else drop_inode p)
      else mret tt.

(** ** The inode cache *)
Definition inode_cache_find (parent : Z) (name : list Z) : M St Z :=
  if (parent =? 0) || (strlen name =? 0) then mret 0
  else
    let* key := slab_alloc SIZEOF_CACHE_KEY in
    if key =? 0 then mret 0
    else if VFS_MAX_PATH_LEN <=? strlen name then slab_free key ;;; mret 0
    else
      acquire LIcache ;;;
      let* t := gets v_icache in
      let p := kt_lookup t (parent, name) in
      (if p =? 0 then mret tt
       else
         acquire (LInode p) ;;;
         let* i := ino p in
         set_ino p (set_refcount (u32 (i_refcount i + 1)) i) ;;;
         release (LInode p)) ;;;
      release LIcache ;;;
      slab_free key ;;;
      mret p.

Definition inode_cache_insert (p : Z) : M St Z :=
  if p =? 0 then mret (-1)
  else
    let* i := ino p in
    if (i_parent i =? 0) || (strlen (i_name i) =? 0) then mret (-1)
    else
      acquire LIcache ;;;
      inode_get p ;;;
      let* i := ino p in
      let* ok := zoom v_icache with_icache (kt_insert (i_parent i, i_name i) p) in
      if ok : bool then release LIcache ;;; mret 0
      else inode_put p ;;; release LIcache ;;; mret (-1).

Definition inode_cache_remove (p : Z) : M St unit :=
  if p =? 0 then mret tt
  else
    acquire LIcache ;;;
    let* i := ino p in
    let* removed := zoom v_icache with_icache (kt_delete (i_parent i, i_name i)) in
    release LIcache ;;;
    if removed : bool then
      let* i := ino p in
      inode_put p ;;;
      if i_parent i =? VFS_ROOT_PARENT_SPECIAL then mret tt else inode_put (i_parent i)
    else mret tt.

(** ** Mount points *)
Definition mount_path_match (mnt_path path : list Z) : bool :=
  bool_decide (take (length mnt_path) path = mnt_path) &&
  match drop (length mnt_path) path with [] => true | c :: _ => c =? slash end.

Fixpoint find_mount (m : mount) (path : list Z) : mount :=
  match m with
  | Mount _ _ _ cs =>
    (fix scan (cs : list mount) : mount :=
       match cs with
       | [] => m
       | c :: cs' => if mount_path_match (m_path c) path then find_mount c path else scan cs'
       end) cs
  end.
Definition vfs_find_mount (path : list Z) : M St (option mount) :=
  if negb (default 0 (head path) =? slash) then mret None
  else let* r := gets v_root in mret ((fun m => find_mount m path) <$> r).

Fixpoint vfs_find_mount_exact (node : mount) (path : list Z) : option mount :=
  match node with
  | Mount _ _ _ cs =>
    (fix scan (cs : list mount) : option mount :=
       match cs with
       | [] => None
       | c :: cs' =>
         if bool_decide (m_path c = path) then Some c
         else match vfs_find_mount_exact c path with Some r => Some r | None => scan cs' end
       end) cs
  end.

(** put [new] at the head of the children of the mount at address [p] *)
Fixpoint mount_add (p : Z) (new m : mount) : mount :=
  match m with
  | Mount q path sb cs =>
    let cs' := mount_add p new <$> cs in
    Mount q path sb (if q =? p then new :: cs' else cs')
  end.
(** take the mount at address [p] out of its parent's children *)
Fixpoint mount_unlink (p : Z) (m : mount) : mount :=
  match m with
  | Mount q path sb cs => Mount q path sb (filter (fun c => m_ptr c <> p) (mount_unlink p <$> cs))
  end.
(** the parent of the mount at address [p] *)
Fixpoint mount_parent (p : Z) (m : mount) : option Z :=
  match m with
  | Mount q _ _ cs =>
    (fix scan (cs : list mount) : option Z :=
       match cs with
       | [] => None
       | c :: cs' =>
         if m_ptr c =? p then Some q
         else match mount_parent p c with Some r => Some r | None => scan cs' end
       end) cs
  end.

(** ** File system types *)
Definition vfs_get_filesystem (name : list Z) : M St (option filesystem) :=
  acquire LRegistry ;;;
  let* l := gets v_reg in
  release LRegistry ;;;
  mret (find (fun f => bool_decide (fs_name f = name)) l).

Definition vfs_register_filesystem (fs : filesystem) : M St Z :=
  acquire LRegistry ;;;
  let* l := gets v_reg in
  if existsb (fun f => bool_decide (fs_name f = fs_name fs)) l then release LRegistry ;;; mret (-1)
  else
    modify (with_reg (fs :: l)) ;;;
    release LRegistry ;;;
    mret 0.

(** ** Path walks *)

(** the loop of [vfs_lookup_impl]; [name] is the address of the name buffer *)
Fixpoint lookup_loop (fuel : nat) (cred : credentials) (name current : Z) (relative : list Z) : M St (option Z) :=
  match fuel with
  | O => nofuel
  | S fuel =>
    match relative with
    | [] => slab_free name ;;; mret (Some current)
    | c :: relative' =>
      let '(seg, rest) := take_seg relative in
      if strlen seg =? 0 then lookup_loop fuel cred name current relative'
      else if VFS_MAX_PATH_LEN <=? strlen seg then slab_free name ;;; inode_put current ;;; mret None
      else
        let* ci := ino current in
        if vfs_permission ci cred MAY_EXEC <? 0 then slab_free name ;;; inode_put current ;;; mret None
        else
          let* next := inode_cache_find current seg in
          let* next :=
            if next =? 0 then
              let* ci := ino current in
              if negb (has_iop ci OpLookup) then slab_free name ;;; inode_put current ;;; mret None
              else
                let* r := in_world (fs_lookup current seg) in
                let next := r.2 in
                if (r.1 <? 0) || (next =? 0) then slab_free name ;;; inode_put current ;;; mret None
                else
                  let* ni := ino next in
                  set_ino next (set_key current seg ni) ;;;
                  inode_get current ;;;
                  let* ret := inode_cache_insert next in
                  if ret <? 0 then
                    inode_put current ;;; inode_put next ;;; slab_free name ;;; inode_put current ;;; mret None
                  else mret (Some next)
            else mret (Some next) in
          match next with
          | None => mret None
          | Some next =>
            inode_put current ;;;
            lookup_loop fuel cred name next
              (match rest with c :: rest' => if c =? slash then rest' else rest | [] => [] end)
          end
    end
  end.

Definition vfs_lookup_impl (path : list Z) : M St (option Z) :=
  let* start :=
    if default 0 (head path) =? slash then
      let* mnt := vfs_find_mount path in
      match mnt with
      | None => mret None
      | Some mnt =>
        if m_sb mnt =? 0 then mret None
        else
          let* sb := sblk (m_sb mnt) in
          if sb_root sb =? 0 then mret None
          else
            let relative := drop (length (m_path mnt)) path in
            mret (Some (sb_root sb, match relative with
                                    | c :: r => if c =? slash then r else relative
                                    | [] => []
                                    end))
      end
    else
      let* task := get_task in
      match task with
      | None => mret None
      | Some (_, t) => if t_cwd t =? 0 then mret None else mret (Some (t_cwd t, path))
      end in
  match start with
  | None => mret None
  | Some (current, relative) =>
    inode_get current ;;;
    match relative with
    | [] => mret (Some current)
    | _ =>
      let* name := slab_alloc VFS_MAX_PATH_LEN in
      if name =? 0 then inode_put current ;;; mret None
      else
        let* task := get_task in
        match task with
        | None => slab_free name ;;; inode_put current ;;; mret None
        | Some (_, t) => lookup_loop (S (length relative)) (t_cred t) name current relative
        end
    end
  end.

(** the [cwd_path] that [vfs_normalize] uses *)
Definition cwd_text : M St (option (list Z)) :=
  let* task := get_task in mret ((fun nt => t_cwd_path nt.2) <$> task).

Definition vfs_lookup (path : list Z) : M St (option Z) :=
  let* nbuf := slab_alloc BUFSZ in
  if nbuf =? 0 then mret None
  else
    let* cwd := cwd_text in
    match vfs_normalize cwd path with
    | None => slab_free nbuf ;;; mret None
    | Some norm =>
      let* ret := vfs_lookup_impl norm in
      slab_free nbuf ;;; mret ret
    end.

(** the last component and the path before it: the scan for the last slash
    runs over the reversed path *)
Definition vfs_lookup_parent_impl (path : list Z) : M St (option (Z * list Z)) :=
  if negb (default 0 (head path) =? slash) || (strlen path <=? 1) then mret None
  else
    let '(rname, rest) := take_seg (back_while (Z.eqb slash) (rev path)) in
    match rest with
    | [] => mret None
    | _ :: rparent =>
      let name := rev rname in
      if (strlen name =? 0) || (VFS_MAX_PATH_LEN <=? strlen name) then mret None
      else
        let* parent_path := slab_alloc VFS_MAX_PATH_LEN in
        if parent_path =? 0 then mret None
        else if negb (strlen rparent =? 0) && (VFS_MAX_PATH_LEN <=? strlen rparent) then
          slab_free parent_path ;;; mret None
        else
          let* ret := vfs_lookup (if strlen rparent =? 0 then [slash] else rev rparent) in
          slab_free parent_path ;;;
          mret ((fun p => (p, name)) <$> ret)
    end.

Definition vfs_lookup_parent (path : list Z) : M St (option (Z * list Z)) :=
  let* nbuf := slab_alloc BUFSZ in
  if nbuf =? 0 then mret None
  else
    let* cwd := cwd_text in
    match vfs_normalize cwd path with
    | None => slab_free nbuf ;;; mret None
    | Some norm =>
      let* ret := vfs_lookup_parent_impl norm in
      slab_free nbuf ;;; mret ret
    end.

(** ** Changing directories

    [with_parent op path body]: the common head of vfs_create, vfs_mkdir,
    vfs_unlink and vfs_rmdir.  [body] runs with the parent's reference and the
    name buffer and gives both back. *)
Definition with_parent {A} (op : iop) (fail : A) (path : list Z)
    (body : Z -> Z -> list Z -> credentials -> M St A) : M St A :=
  let* name := slab_alloc VFS_MAX_PATH_LEN in
  if name =? 0 then mret fail
  else
    let* r := vfs_lookup_parent path in
    match r with
    | None => slab_free name ;;; mret fail
    | Some (parent, last) =>
      let* pi := ino parent in
      if negb (has_iop pi op) then inode_put parent ;;; slab_free name ;;; mret fail
      else if negb (is_dir pi) then inode_put parent ;;; slab_free name ;;; mret fail
      else
        let* task := get_task in
        match task with
        | None => fault   (* &task->cred of a null pointer *)
        | Some (_, t) =>
          if vfs_permission pi (t_cred t) (Z.lor MAY_WRITE MAY_EXEC) <? 0 then
            inode_put parent ;;; slab_free name ;;; mret fail
          else body name parent last (t_cred t)
        end
    end.

(** the body that vfs_create and vfs_mkdir share: [mk] is the file system's
    create or mkdir; the result is the new inode, with the reference the file
    system returned it with *)
Definition make_entry (mk : Z -> list Z -> Z -> M (world F) (Z * Z)) (type : Z) (mode0 : Z)
    (name parent : Z) (last : list Z) (cred : credentials) : M St (option Z) :=
  let mode := Z.land mode0 0x1FF in
  acquire LMeta ;;;
  let* found := inode_cache_find parent last in
  if negb (found =? 0) then
    inode_put found ;;; release LMeta ;;; inode_put parent ;;; slab_free name ;;; mret None
  else
    let* r := in_world (mk parent last (Z.lor type mode)) in
    let new := r.2 in
    if (r.1 <? 0) || (new =? 0) then
      release LMeta ;;; inode_put parent ;;; slab_free name ;;; mret None
    else
      let* ni := ino new in
      set_ino new (set_key parent last (set_owner (Z.lor (Z.land (i_mode ni) S_IFMT) mode) (c_uid cred) (c_gid cred) ni)) ;;;
      inode_get parent ;;;
      let* ret := inode_cache_insert new in
      if ret <? 0 then
        inode_put parent ;;; inode_put new ;;; inode_put parent ;;; release LMeta ;;; slab_free name ;;; mret None
      else mret (Some new).

Definition vfs_create (path : list Z) (mode : Z) : M St (option Z) :=
  with_parent OpCreate None path (fun name parent last cred =>
    let* r := make_entry fs_create S_IFREG mode name parent last cred in
    match r with
    | None => mret None
    | Some new =>
      inode_get new ;;;
      inode_put new ;;;
      inode_put parent ;;;
      release LMeta ;;;
      slab_free name ;;;
      mret (Some new)
    end).

Definition vfs_mkdir (path : list Z) (mode : Z) : M St Z :=
  with_parent OpMkdir (-1) path (fun name parent last cred =>
    let* r := make_entry fs_mkdir S_IFDIR mode name parent last cred in
    match r with
    | None => mret (-1)
    | Some new =>
      inode_put new ;;;
      inode_put parent ;;;
      release LMeta ;;;
      slab_free name ;;;
      mret 0
    end).

(** the body that vfs_unlink and vfs_rmdir share: [dir] is the type that the
    entry must have *)
Definition remove_entry (rm : Z -> list Z -> M (world F) Z) (dir : bool)
    (name parent : Z) (last : list Z) (cred : credentials) : M St Z :=
  acquire LMeta ;;;
  let* p := inode_cache_find parent last in
  if p =? 0 then release LMeta ;;; inode_put parent ;;; slab_free name ;;; mret (-1)
  else
    let* i := ino p in
    if negb (Bool.eqb (is_dir i) dir) then
      inode_put p ;;; release LMeta ;;; inode_put parent ;;; slab_free name ;;; mret (-1)
    else
      let* ret := in_world (rm parent last) in
      if ret <? 0 then
        inode_put p ;;; release LMeta ;;; inode_put parent ;;; slab_free name ;;; mret (-1)
      else
        inode_cache_remove p ;;;
        inode_put p ;;;
        inode_put parent ;;;
        release LMeta ;;;
        slab_free name ;;;
        mret 0.

Definition vfs_unlink (path : list Z) : M St Z :=
  with_parent OpUnlink (-1) path (remove_entry fs_unlink false).
Definition vfs_rmdir (path : list Z) : M St Z :=
  with_parent OpRmdir (-1) path (remove_entry fs_rmdir true).

Definition vfs_truncate (p : Z) (size : Z) : M St Z :=
  if p =? 0 then mret (-1)
  else
    let* task := get_task in
    match task with
    | None => fault
    | Some (_, t) =>
      let* i := ino p in
      if vfs_permission i (t_cred t) MAY_WRITE <? 0 then mret (-1)
      else if negb (has_iop i OpTruncate) then mret (-1)
      else
        acquire LMeta ;;;
        let* ret := in_world (fs_truncate p size) in
        release LMeta ;;;
        mret ret
    end.

(** ** Open files *)
Definition has_fop (k : Z) (op : fop) : bool := negb (k =? 0) && fops_has k op.

Definition file_get (p : Z) : M St unit :=
  if p =? 0 then mret tt
  else
    acquire (LFile p) ;;;
    let* f := fil p in
    set_fil p (set_frefcount (u32 (f_refcount f + 1)) f) ;;;
    release (LFile p).

(** the character device a file stands for, when it has operation [op] *)
Definition cdev_of (f : file) (op : cop) : M St (option char_device) :=
  if f_private f =? 0 then mret None
  else
    let* l := gets v_devs in
    let* d := deref (l !! f_private f) in
    mret (if negb (cd_ops d =? 0) && cops_has (cd_ops d) op then Some d else None).
Definition in_drv {A} (m : M C A) : M St A := zoom v_drv with_drv m.

Definition chardev_file_read (f : file) (count : Z) : M St (Z * list Z) :=
  let* d := cdev_of f CopRead in
  match d with
  | None => mret (-1, [])
  | Some d =>
    let* r := in_drv (cd_read (cd_priv d) count) in
    if r.1 <? 0 then mret (-1, []) else mret (strlen r.2, r.2)
  end.
Definition chardev_file_write (f : file) (buf : list Z) : M St Z :=
  let* d := cdev_of f CopWrite in
  match d with
  | None => mret (-1)
  | Some d =>
    let* r := in_drv (cd_write (cd_priv d) buf) in
    if r.1 <? 0 then mret (-1) else mret r.2
  end.
Definition chardev_file_seek : Z := -1.
Definition chardev_file_close (f : file) : M St Z :=
  let* d := cdev_of f CopClose in
  match d with
  | None => mret 0
  | Some d => in_drv (cd_close (cd_priv d))
  end.

Definition file_put (p : Z) : M St unit :=
  if p =? 0 then mret tt
  else
    acquire (LFile p) ;;;
    let* f := fil p in
    let n := if 0 <? f_refcount f then f_refcount f - 1 else f_refcount f in
    set_fil p (set_frefcount n f) ;;;
    release (LFile p) ;;;
    if negb (n =? 0) then mret tt
    else
      let* f := fil p in
      (match f_fops f with
       | NoFops => mret tt
       | ChardevFops => chardev_file_close f ;;; mret tt
       | FsFops k => if has_fop k FopClose then in_world (fs_close f) ;;; mret tt else mret tt
       end) ;;;
      inode_put (f_inode f) ;;;
      modify (fun s => with_files (delete p (v_files s)) s) ;;;
      slab_free p.
Definition vfs_close (p : Z) : M St unit := file_put p.

Definition vfs_read (p : Z) (count : Z) : M St (Z * list Z) :=
  if p =? 0 then mret (-1, [])
  else
    let* f := fil p in
    let body rd : M St (Z * list Z) :=
      acquire (LFile p) ;;;
      let* f := fil p in
      let* r := rd f in
      (if 0 <? r.1 then
         let* f := fil p in set_fil p (set_fpos (u64 (f_pos f + r.1)) f)
       else mret tt) ;;;
      release (LFile p) ;;;
      mret r in
    match f_fops f with
    | NoFops => mret (-1, [])
    | ChardevFops => body (fun f => chardev_file_read f count)
    | FsFops k => if has_fop k FopRead then body (fun f => in_world (fs_read f count)) else mret (-1, [])
    end.

Definition vfs_write (p : Z) (buf : list Z) : M St Z :=
  if p =? 0 then mret (-1)
  else
    let* f := fil p in
    let body wr : M St Z :=
      acquire (LFile p) ;;;
      let* f := fil p in
      let* r := wr f in
      (if 0 <? r then
         let* f := fil p in set_fil p (set_fpos (u64 (f_pos f + r)) f)
       else mret tt) ;;;
      release (LFile p) ;;;
      mret r in
    match f_fops f with
    | NoFops => mret (-1)
    | ChardevFops => body (fun f => chardev_file_write f buf)
    | FsFops k => if has_fop k FopWrite then body (fun f => in_world (fs_write f buf)) else mret (-1)
    end.

Definition vfs_seek (p : Z) (offset whence : Z) : M St Z :=
  if p =? 0 then mret (-1)
  else
    let* f := fil p in
    let body sk : M St Z :=
      acquire (LFile p) ;;;
      let* f := fil p in
      let* r := sk f in
      (if 0 <=? r then
         let* f := fil p in set_fil p (set_fpos r f)
       else mret tt) ;;;
      release (LFile p) ;;;
      mret r in
    match f_fops f with
    | NoFops => mret (-1)
    | ChardevFops => body (fun _ => mret chardev_file_seek)
    | FsFops k => if has_fop k FopSeek then body (fun f => in_world (fs_seek f offset whence)) else mret (-1)
    end.

Definition vfs_fstat (p : Z) : M St (option vfs_kstat) :=
  if p =? 0 then mret None
  else
    let* f := fil p in
    if f_inode f =? 0 then mret None
    else
      let* i := ino (f_inode f) in
      if negb (has_iop i OpGetattr) then mret None
      else
        let* r := in_world (fs_getattr (f_inode f)) in
        mret (if r.1 <? 0 then None else Some r.2).

Definition vfs_readdir (p : Z) : M St (Z * vfs_dirent) :=
  let none := mkDirent 0 0 [] in
  if p =? 0 then mret (-1, none)
  else
    let* f := fil p in
    if f_inode f =? 0 then mret (-1, none)
    else
      let* i := ino (f_inode f) in
      if negb (is_dir i) then mret (-1, none)
      else if negb (has_iop i OpReaddir) then mret (-1, none)
      else
        acquire (LFile p) ;;;
        let* f := fil p in
        let* r := in_world (fs_readdir (f_inode f) (f_pos f)) in
        let* f := fil p in
        set_fil p (set_fpos r.1.2 f) ;;;
        release (LFile p) ;;;
        mret (r.1.1, r.2).

(** ** Descriptors *)
Fixpoint first_free (i : nat) (l : list Z) : option nat :=
  match l with
  | [] => None
  | p :: l' => if p =? 0 then Some i else first_free (S i) l'
  end.

Definition fd_alloc (p : Z) : M St Z :=
  if p =? 0 then mret (-1)
  else
    let* task := get_task in
    match task with
    | None => mret (-1)
    | Some (n, _) =>
      acquire (LTask n) ;;;
      let* task := get_task in
      match first_free 0 (match task with Some (_, t) => t_ofile t | None => [] end) with
      | Some i =>
        set_task n (fun t => set_ofile (<[i := p]> (t_ofile t)) t) ;;;
        file_get p ;;;
        release (LTask n) ;;;
        mret (Z.of_nat i)
      | None => release (LTask n) ;;; mret (-1)
      end
    end.

Definition fd_ok (fd : Z) : bool := (0 <=? fd) && (fd <? NOFILE).
Definition ofile (t : task) (fd : Z) : Z := default 0 (t_ofile t !! Z.to_nat fd).

Definition fd_get (fd : Z) : M St Z :=
  let* task := get_task in
  match task with
  | None => mret 0
  | Some (n, t) =>
    if negb (fd_ok fd) then mret 0
    else
      acquire (LTask n) ;;;
      let p := ofile t fd in
      (if p =? 0 then mret tt else file_get p) ;;;
      release (LTask n) ;;;
      mret p
  end.

Definition vfs_dup (oldfd : Z) : M St Z :=
  let* p := fd_get oldfd in
  if p =? 0 then mret (-1)
  else
    let* newfd := fd_alloc p in
    file_put p ;;;
    mret newfd.

Definition fd_close (fd : Z) : M St Z :=
  let* task := get_task in
  match task with
  | None => mret (-1)
  | Some (n, t) =>
    if negb (fd_ok fd) then mret (-1)
    else
      acquire (LTask n) ;;;
      let p := ofile t fd in
      if p =? 0 then release (LTask n) ;;; mret (-1)
      else
        set_task n (fun t => set_ofile (<[Z.to_nat fd := 0]> (t_ofile t)) t) ;;;
        release (LTask n) ;;;
        vfs_close p ;;;
        mret 0
  end.

Definition vfs_seek_fd (fd offset whence : Z) : M St Z :=
  let* p := fd_get fd in
  if p =? 0 then mret (-1)
  else
    let* ret := vfs_seek p offset whence in
    file_put p ;;;
    mret ret.

(** ** Character devices *)
Definition vfs_register_chardev (name : list Z) (ops priv : Z) : M St Z :=
  if ops =? 0 then mret (-1)
  else
    let* cdev := slab_alloc SIZEOF_CHAR_DEVICE in
    if cdev =? 0 then mret (-1)
    else
      modify (fun s => with_devs (<[cdev := mkCdev ops priv]> (v_devs s)) s) ;;;
      let* ok := zoom v_cdevs with_cdevs (kt_insert name cdev) in
      if ok : bool then mret 0
      else
        modify (fun s => with_devs (delete cdev (v_devs s)) s) ;;;
        slab_free cdev ;;;
        mret (-1).
Definition vfs_find_chardev (name : list Z) : M St Z :=
  let* t := gets v_cdevs in mret (kt_lookup t name).

(** ** Opening *)

(** allocate a [struct file] and give it a descriptor *)
Definition install_file (f : file) : M St Z :=
  let* p := slab_alloc SIZEOF_FILE in
  if p =? 0 then inode_put (f_inode f) ;;; mret (-1)
  else
    set_fil p f ;;;
    let* fd := fd_alloc p in
    if fd <? 0 then
      inode_put (f_inode f) ;;;
      modify (fun s => with_files (delete p (v_files s)) s) ;;;
      slab_free p ;;;
      mret (-1)
    else mret fd.

Definition open_chardev (path : list Z) (flags : Z) : M St Z :=
  let* cdev := vfs_find_chardev (drop 5 path) in
  if cdev =? 0 then mret (-1)
  else
    let* l := gets v_devs in
    let* d := deref (l !! cdev) in
    let* r := if negb (cd_ops d =? 0) && cops_has (cd_ops d) CopOpen
              then in_drv (cd_open (cd_priv d) (s32 flags)) else mret 0 in
    if r <? 0 then mret (-1)
    else install_file (mkFile 0 0 flags ChardevFops cdev 0).

(** the inode that [flags] ask for, with a reference *)
Definition open_inode (path : list Z) (flags : Z) : M St (option Z) :=
  if bit_set flags O_CREAT then
    let* r := vfs_lookup path in
    match r with
    | None => vfs_create path 0x1B6
    | Some p => if bit_set flags O_EXCL then inode_put p ;;; mret None else mret (Some p)
    end
  else vfs_lookup path.

(** [switch (flags & O_ACCMODE)] *)
Definition access_mask (flags : Z) : option Z :=
  let acc := Z.land flags O_ACCMODE in
  if acc =? O_RDONLY then Some MAY_READ
  else if acc =? O_WRONLY then Some MAY_WRITE
  else if acc =? O_RDWR then Some (Z.lor MAY_READ MAY_WRITE)
  else None.

(** the checks between lookup and [struct file], all of which put the inode
    when they fail *)
Definition open_checks (p : Z) (flags : Z) (cred : credentials) : M St bool :=
  let* i := ino p in
  if bit_set flags O_DIRECTORY && negb (is_dir i) then mret false
  else
    match access_mask flags with
    | None => mret false
    | Some permission =>
      if vfs_permission i cred permission <? 0 then mret false
      else if bit_set flags O_TRUNC then
        if Z.land flags O_ACCMODE =? O_RDONLY then mret false
        else let* r := vfs_truncate p 0 in mret (0 <=? r)
      else mret true
    end.

Definition vfs_open (path : list Z) (flags : Z) : M St Z :=
  let* task := get_task in
  match task with
  | None => mret (-1)
  | Some (_, t) =>
    if bool_decide (take 5 path = cstr "/dev/") then open_chardev path flags
    else
      let* r := open_inode path flags in
      match r with
      | None => mret (-1)
      | Some p =>
        let* ok := open_checks p flags (t_cred t) in
        if negb ok then inode_put p ;;; mret (-1)
        else
          let* i := ino p in
          install_file (mkFile p (if bit_set flags O_APPEND then i_size i else 0) flags (FsFops (i_fops i)) 0 0)
      end
  end.

(** fd 0, 1 and 2 of the first process *)
Definition init_vfs_std : M St unit :=
  for_loop 3 0 (fun _ =>
    let* fd := vfs_open VFS_STD_DEVICE O_RDWR in
    if fd <? 0 then halt else mret tt).

(** ** What processes hold (kernel/proc.c) *)
Definition set_cwd (n : nat) (path : list Z) : M St Z :=
  let* ts := gets (fun s => v_tasks s !! n) in
  let* t := deref ts in
  let* normalized := slab_alloc BUFSZ in
  if normalized =? 0 then mret (-1)
  else
    match do_build_user_path (Some path) (Some (t_cwd_path t)) with
    | None => nofuel
    | Some out =>
      if (strlen out =? 0) || (128 <=? strlen out) then slab_free normalized ;;; mret (-1)
      else
        let* r := vfs_lookup out in
        match r with
        | None => slab_free normalized ;;; mret (-1)
        | Some p =>
          let* i := ino p in
          if negb (is_dir i) then inode_put p ;;; slab_free normalized ;;; mret (-1)
          else
            acquire (LTask n) ;;;
            let* ts := gets (fun s => v_tasks s !! n) in
            let* t := deref ts in
            set_task n (set_tcwd p out) ;;;
            release (LTask n) ;;;
            inode_put (t_cwd t) ;;;
            slab_free normalized ;;;
            mret 0
        end
    end.

(** the loop of [exit_fs] over the descriptors [i .. NOFILE) *)
Fixpoint exit_files (k : nat) (i : nat) (n : nat) : M St unit :=
  match k with
  | O => mret tt
  | S k =>
    let* ts := gets (fun s => v_tasks s !! n) in
    let* t := deref ts in
    let p := default 0 (t_ofile t !! i) in
    set_task n (fun t => set_ofile (<[i := 0]> (t_ofile t)) t) ;;;
    file_put p ;;;
    exit_files k (S i) n
  end.
Definition exit_fs (n : nat) : M St unit :=
  exit_files (Z.to_nat NOFILE) 0 n ;;;
  let* ts := gets (fun s => v_tasks s !! n) in
  let* t := deref ts in
  (if t_cwd t =? 0 then mret tt
   else
     inode_put (t_cwd t) ;;;
     set_task n (fun t => set_tcwd 0 (t_cwd_path t) t)) ;;;
  set_task n (fun t => set_tcwd (t_cwd t) [] t).

(** steps 4 and 6 of [kfork]: the child [c] shares the parent's directory and
    open files *)
Fixpoint fork_files (k : nat) (i : nat) (p c : nat) : M St unit :=
  match k with
  | O => mret tt
  | S k =>
    let* ts := gets (fun s => v_tasks s !! p) in
    let* t := deref ts in
    let f := default 0 (t_ofile t !! i) in
    (if f =? 0 then set_task c (fun t => set_ofile (<[i := 0]> (t_ofile t)) t)
     else
       file_get f ;;;
       set_task c (fun t => set_ofile (<[i := f]> (t_ofile t)) t)) ;;;
    fork_files k (S i) p c
  end.
Definition fork_fs (p c : nat) : M St unit :=
  let* ts := gets (fun s => v_tasks s !! p) in
  let* t := deref ts in
  set_task c (set_tcwd (t_cwd t) (t_cwd_path t)) ;;;
  inode_get (t_cwd t) ;;;
  fork_files (Z.to_nat NOFILE) 0 p c.

(** ** Mounting *)

(** [fs->kill_sb]: ext2_kill_sb and fat32_kill_sb put the root and free the rest *)
Definition kill_sb (sb : Z) : M St unit :=
  let* b := sblk sb in
  inode_put (sb_root b) ;;;
  in_world (fs_kill_super sb).

(** the parent mount of a target other than "/", with its root inode *)
Definition mount_point (target : list Z) : M St (option (mount * Z)) :=
  let* mnt := vfs_find_mount target in
  match mnt with
  | None => mret None
  | Some m =>
    if m_sb m =? 0 then mret None
    else let* b := sblk (m_sb m) in if sb_root b =? 0 then mret None else mret (Some (m, sb_root b))
  end.

Definition vfs_mount (dev : Z) (target fs_type : list Z) : M St Z :=
  let* fs := vfs_get_filesystem fs_type in
  match fs with
  | None => mret (-1)
  | Some fs =>
    let* r := in_world (fs_get_super (fs_ptr fs) dev) in
    let sb := r.2 in
    if r.1 <? 0 then mret (-1)
    else if sb =? 0 then mret (-1)
    else
      let* b := sblk sb in
      let root := sb_root b in
      if root =? 0 then kill_sb sb ;;; mret (-1)
      else
        let at_root := bool_decide (target = [slash]) in
        let* parent := if at_root then mret (Some None) else
          let* mp := mount_point target in
          match mp with
          | None => mret None
          | Some (m, proot) => inode_get proot ;;; mret (Some (Some (m, proot)))
          end in
        match parent with
        | None => kill_sb sb ;;; mret (-1)
        | Some parent =>
          let* ri := ino root in
          set_ino root (set_key (match parent with None => VFS_ROOT_PARENT_SPECIAL | Some (_, q) => q end) [slash] ri) ;;;
          let* ret := inode_cache_insert root in
          if ret <? 0 then
            (match parent with None => mret tt | Some (_, q) => inode_put q end) ;;; kill_sb sb ;;; mret (-1)
          else
            let* mnt := slab_alloc SIZEOF_MOUNT in
            if mnt =? 0 then inode_cache_remove root ;;; kill_sb sb ;;; mret (-1)
            (* [strcpy] writes past [char path[VFS_MAX_PATH_LEN]] of the mount *)
            else if VFS_MAX_PATH_LEN <=? strlen target then fault
            else
              acquire LMount ;;;
              let* mt := gets v_root in
              match parent with
              | None =>
                match mt with
                | Some _ =>
                  release LMount ;;; inode_cache_remove root ;;; kill_sb sb ;;; slab_free mnt ;;; mret (-1)
                | None =>
                  modify (with_root (Some (Mount mnt target sb []))) ;;; release LMount ;;; mret 0
                end
              | Some (m, _) =>
                modify (with_root (mount_add (m_ptr m) (Mount mnt target sb []) <$> mt)) ;;;
                release LMount ;;; mret 0
              end
        end
  end.

(** [vfs_umount_collect_cb] over the cache: at most [max] inodes of [sb] *)
Fixpoint umount_collect (max : nat) (sb : Z) (l : list Z) : M St (list Z) :=
  match l with
  | [] => mret []
  | p :: l =>
    match max with
    | O => mret []
    | S max' =>
      let* i := ino p in
      if i_sb i =? sb then let* r := umount_collect max' sb l in mret (p :: r)
      else umount_collect max sb l
    end
  end.
Fixpoint remove_all (l : list Z) : M St unit :=
  match l with
  | [] => mret tt
  | p :: l => inode_cache_remove p ;;; remove_all l
  end.
Fixpoint umount_rounds (retry : nat) (sb : Z) : M St unit :=
  match retry with
  | O => mret tt
  | S retry =>
    let* t := gets v_icache in
    let* victims := umount_collect (Z.to_nat VFS_INODE_CACHE_SIZE) sb (kt_values t) in
    match victims with
    | [] => mret tt
    | _ => remove_all victims ;;; umount_rounds retry sb
    end
  end.

(** the scan over all processes: does one hold an inode of [sb]? *)
Fixpoint any_file (sb : Z) (l : list Z) : M St bool :=
  match l with
  | [] => mret false
  | p :: l =>
    if p =? 0 then any_file sb l
    else
      let* f := fil p in
      if f_inode f =? 0 then any_file sb l
      else let* i := ino (f_inode f) in if i_sb i =? sb then mret true else any_file sb l
  end.
Fixpoint sb_busy (sb : Z) (l : list task) : M St bool :=
  match l with
  | [] => mret false
  | t :: l =>
    let* c := if t_cwd t =? 0 then mret false
              else let* i := ino (t_cwd t) in mret (i_sb i =? sb) in
    if c : bool then mret true
    else
      let* b := any_file sb (t_ofile t) in
      if b : bool then mret true else sb_busy sb l
  end.

Definition vfs_umount (target : list Z) : M St Z :=
  if negb (default 0 (head target) =? slash) || bool_decide (target = [slash]) then mret (-1)
  else
    acquire LMount ;;;
    let* mt := gets v_root in
    match mt with
    | None => release LMount ;;; mret (-1)
    | Some tree =>
      match vfs_find_mount_exact tree target with
      | None => release LMount ;;; mret (-1)
      | Some m =>
        match m_child m with
        | _ :: _ => release LMount ;;; mret (-1)
        | [] =>
          if m_sb m =? 0 then release LMount ;;; mret (-1)
          else
            let* b := sblk (m_sb m) in
            if sb_fs b =? 0 then release LMount ;;; mret (-1)
            else
              let* ts := gets v_tasks in
              let* busy := sb_busy (m_sb m) ts in
              if busy : bool then release LMount ;;; mret (-1)
              else
                modify (with_root (Some (mount_unlink (m_ptr m) tree))) ;;;
                release LMount ;;;
                let* victims := slab_alloc (8 * VFS_INODE_CACHE_SIZE) in
                if victims =? 0 then
                  acquire LMount ;;;
                  let* mt := gets v_root in
                  modify (with_root (match mount_parent (m_ptr m) tree with
                                     | Some q => mount_add q m <$> mt
                                     | None => mt
                                     end)) ;;;
                  release LMount ;;;
                  mret (-1)
                else
                  umount_rounds 8 (m_sb m) ;;;
                  slab_free victims ;;;
                  kill_sb (m_sb m) ;;;
                  slab_free (m_ptr m) ;;;
                  mret 0
        end
      end
    end.
End Ops.
