(* ===== verification/VfsInv.v ===== *)
(** The invariant of the VFS.

    [FsLaws] is what the VFS relies on from a mounted file system.  [RI] is
    the rule at the top of vfs.c: the reference count of an inode is the
    number of references to it, an inode in memory is referenced, and a
    reference is to an inode in memory.  [vinv B C E m s] collects the state
    invariant: [B] are the slab objects that the running call has allocated
    for itself, [C] and [E] the inode and file references it holds, [m] the
    contents of the inode cache. *)
From stdpp Require Import base gmap list strings.
From Stdlib Require Import ZArith Lia.
From S2P Require Import Prelude HashMap VfsPath Vfs.
Open Scope Z_scope.

(** ** Counting *)
Definition occ (p : Z) (l : list Z) : Z := Z.of_nat (length (filter (fun q => q = p) l)).

Lemma occ_nil p : occ p [] = 0.
Proof. done. Qed.
Lemma occ_cons p q l : occ p (q :: l) = (if decide (q = p) then 1 else 0) + occ p l.
Proof. unfold occ. rewrite filter_cons. case_decide; simpl; lia. Qed.
Lemma occ_app p l k : occ p (l ++ k) = occ p l + occ p k.
Proof. unfold occ. rewrite filter_app, length_app. lia. Qed.
Lemma occ_nonneg p l : 0 <= occ p l.
Proof. unfold occ. lia. Qed.
Lemma occ_le p l : occ p l <= Z.of_nat (length l).
Proof. unfold occ. pose proof (length_filter (fun q => q = p) l). lia. Qed.
Lemma occ_pos p l : 0 < occ p l <-> p ∈ l.
Proof.
  induction l as [|q l IH]; [split; [rewrite occ_nil; lia|by intros ?%not_elem_of_nil]|].
  rewrite occ_cons, elem_of_cons. pose proof (occ_nonneg p l). case_decide; subst; intuition (auto; lia).
Qed.
#[export] Instance occ_proper p : Proper ((≡ₚ) ==> eq) (occ p).
Proof. intros l k E. unfold occ. by rewrite E. Qed.

(** [counted c R I]: the count [c] of every object in [I] is the number of
    references to it in [R], which is not zero, and [R] refers to nothing else *)
Definition counted {A} (c : A -> Z) (R : list Z) (I : gmap Z A) : Prop :=
  forall p, match I !! p with
            | Some i => c i = occ p R /\ p ∈ R
            | None => p ∉ R
            end.

Section Counted.
Context {A : Type} (c : A -> Z).
Implicit Types (R : list Z) (I : gmap Z A).

#[export] Instance counted_proper : Proper ((≡ₚ) ==> eq ==> iff) (counted c).
Proof.
  intros R R' E I ? <-. unfold counted.
  split; intros H p; specialize (H p); destruct (I !! p); by rewrite ?E in * || by rewrite <- ?E in *.
Qed.

Lemma counted_live R I p : counted c R I -> p ∈ R -> exists i, I !! p = Some i /\ c i = occ p R.
Proof. intros H Hp. specialize (H p). destruct (I !! p) as [i|]; [|done]. destruct H. eauto. Qed.

Lemma counted_get R I p i j : counted c R I -> I !! p = Some i -> c j = c i + 1 -> counted c (p :: R) (<[p := j]> I).
Proof.
  intros H E Ej q. destruct (decide (q = p)) as [->|Hq].
  - rewrite lookup_insert_eq, occ_cons, decide_True by done. specialize (H p). rewrite E in H. split; [lia|by left].
  - rewrite lookup_insert_ne by done. specialize (H q). destruct (I !! q) as [k|]; rewrite ?occ_cons, ?elem_of_cons.
    + rewrite decide_False by done. split; [lia|right; tauto].
    + tauto.
Qed.

Lemma counted_put R I p i j : counted c (p :: R) I -> I !! p = Some i -> c i <> 1 -> c j = c i - 1 ->
  counted c R (<[p := j]> I).
Proof.
  intros H E H1 Ej q. destruct (decide (q = p)) as [->|Hq].
  - rewrite lookup_insert_eq. specialize (H p). rewrite E, occ_cons, decide_True in H by done.
    split; [lia|]. apply occ_pos. pose proof (occ_nonneg p R). lia.
  - rewrite lookup_insert_ne by done. specialize (H q). destruct (I !! q) as [k|]; rewrite ?occ_cons, ?elem_of_cons in H.
    + rewrite decide_False in H by done. split; [lia|]. destruct H as [_ [?|?]]; [congruence|done].
    + tauto.
Qed.

Lemma counted_drop R I p i : counted c (p :: R) I -> I !! p = Some i -> c i = 1 -> counted c R (delete p I).
Proof.
  intros H E H1 q. destruct (decide (q = p)) as [->|Hq].
  - rewrite lookup_delete_eq. specialize (H p). rewrite E, occ_cons, decide_True in H by done.
    intros Hp%occ_pos. lia.
  - rewrite lookup_delete_ne by done. specialize (H q). destruct (I !! q) as [k|]; rewrite ?occ_cons, ?elem_of_cons in H.
    + rewrite decide_False in H by done. split; [lia|]. destruct H as [_ [?|?]]; [congruence|done].
    + tauto.
Qed.

Lemma counted_new R I p i : counted c R I -> I !! p = None -> c i = 1 -> counted c (p :: R) (<[p := i]> I).
Proof.
  intros H E H1 q. destruct (decide (q = p)) as [->|Hq].
  - rewrite lookup_insert_eq, occ_cons, decide_True by done. specialize (H p). rewrite E in H.
    split; [|by left]. assert (~ 0 < occ p R) by (by rewrite occ_pos). pose proof (occ_nonneg p R). lia.
  - rewrite lookup_insert_ne by done. specialize (H q). destruct (I !! q) as [k|]; rewrite ?occ_cons, ?elem_of_cons.
    + rewrite decide_False by done. split; [lia|right; tauto].
    + tauto.
Qed.

(** changes that do not touch the counts *)
Lemma counted_same R I I' : counted c R I -> (forall p, c <$> I' !! p = c <$> I !! p) -> counted c R I'.
Proof.
  intros H E p. specialize (H p). specialize (E p). destruct (I !! p), (I' !! p); simplify_eq/=; [|done].
  by rewrite E.
Qed.
Lemma counted_edit R I p i j : counted c R I -> I !! p = Some i -> c j = c i -> counted c R (<[p := j]> I).
Proof.
  intros H E Ej. eapply counted_same; [exact H|]. intros q. destruct (decide (q = p)) as [->|Hq].
  - rewrite lookup_insert_eq, E. simpl. by rewrite Ej.
  - by rewrite lookup_insert_ne.
Qed.
End Counted.

(** the inodes in memory and the list of all references to inodes; the open
    files and the list of all references to files *)
Abbreviation RI := (counted i_refcount).
Abbreviation FI := (counted f_refcount).

(** ** What the VFS relies on from a file system *)

(** the fields that identify an inode, which the VFS leaves alone *)
Definition same_file (i j : inode) : Prop :=
  i_sb j = i_sb i /\ i_ino j = i_ino i /\ i_iops j = i_iops i /\ i_fops j = i_fops i.
(** the fields that belong to the VFS, which a file system leaves alone *)
Definition same_vfs (i j : inode) : Prop :=
  same_file i j /\ i_mode j = i_mode i /\ i_uid j = i_uid i /\ i_gid j = i_gid i /\
  i_refcount j = i_refcount i /\ i_parent j = i_parent i /\ i_name j = i_name i.

(** the directory trees of a file system: the inode number that directory [d]
    of super block [sb] gives a name.  [fs_exact] stands for the file systems in
    which a file has one name and an operation that fails has changed no
    directory.  The laws about the trees are asked of those only; fat32 (names
    that differ in case) and ext2 (errors behind the change of the directory) are
    not among them, and safety does not need them. *)
Class FsView (F : Type) := { fs_entry : F -> Z -> Z -> list Z -> option Z; fs_exact : Prop }.

Section Laws.
Context {F : Type} `{FS : FileSystem F} `{FV : FsView F}.
Abbreviation W := (world F).
Implicit Types (w : W).

(** a step of the VFS on the inodes in memory *)
Definition vfs_edit w w' : Prop :=
  w_fs w' = w_fs w /\ w_sbs w' = w_sbs w /\
  forall p, match w_inodes w !! p, w_inodes w' !! p with
            | Some i, Some j => same_file i j
            | None, None => True
            | _, _ => False
            end.
(** a step of a file system that neither makes nor frees inodes, [p] apart *)
Definition keeps_but (p : Z) w w' : Prop :=
  w_sbs w' = w_sbs w /\
  forall q, q <> p -> match w_inodes w !! q, w_inodes w' !! q with
            | Some i, Some j => same_vfs i j
            | None, None => True
            | _, _ => False
            end.
Definition keeps w w' : Prop := forall p, keeps_but p w w'.
(** [q] is a new inode of super block [sb], with the caller's reference *)
Definition made (q sb : Z) w w' : Prop :=
  keeps_but q w w' /\ w_inodes w !! q = None /\
  exists i, w_inodes w' !! q = Some i /\ i_refcount i = 1 /\ i_sb i = sb.

Definition same_tree w w' : Prop := fs_exact -> forall sb d k, fs_entry (w_fs w') sb d k = fs_entry (w_fs w) sb d k.
(** the trees differ in what [dir] gives the name [n] *)
Definition tree_put (dir : inode) (n : list Z) (x : option Z) w w' : Prop := fs_exact -> forall sb d k,
  fs_entry (w_fs w') sb d k =
  if decide (sb = i_sb dir /\ d = i_ino dir /\ k = n) then x else fs_entry (w_fs w) sb d k.

(** an operation that reads or writes file contents *)
Definition harmless {A} (op : M W A) w (ok : W -> Prop) : Prop :=
  wp op (fun _ w' => ok w' /\ keeps w w' /\ same_tree w w') w.
(** create and mkdir make one inode, and an exact file system adds one entry,
    or they make none, and an exact file system changes nothing *)
Definition makes (op : M W (Z * Z)) (i : inode) (n : list Z) w (ok : W -> Prop) : Prop :=
  wp op (fun r w' => ok w' /\
    if (r.1 <? 0) || (r.2 =? 0) then keeps w w' /\ same_tree w w'
    else made r.2 (i_sb i) w w' /\ (fs_exact -> fs_entry (w_fs w) (i_sb i) (i_ino i) n = None) /\
         exists j, w_inodes w' !! r.2 = Some j /\ tree_put i n (Some (i_ino j)) w w') w.
(** unlink and rmdir leave the inodes in memory alone; an exact file system
    removes one entry, of a file without entries of its own, or changes nothing *)
Definition removes (op : M W Z) (i : inode) (n : list Z) w (ok : W -> Prop) : Prop :=
  wp op (fun r w' => ok w' /\ keeps w w' /\
    if r <? 0 then same_tree w w'
    else fs_exact -> exists x, fs_entry (w_fs w) (i_sb i) (i_ino i) n = Some x /\
         (forall k, fs_entry (w_fs w) (i_sb i) x k = None) /\ tree_put i n None w w') w.
End Laws.

Class FsLaws (F : Type) {FS : FileSystem F} {FV : FsView F} := {
  fs_ok : world F -> Prop;
  fs_ok_null : forall w, fs_ok w ->
    w_inodes w !! 0 = None /\ w_inodes w !! VFS_ROOT_PARENT_SPECIAL = None /\ w_sbs w !! 0 = None;
  (* what fits into memory *)
  fs_ok_few : forall w, fs_ok w ->
    Z.of_nat (size (w_inodes w)) <= 2 ^ 28 /\ Z.of_nat (size (w_sbs w)) <= 2 ^ 28;
  (* no hard links, and no entry for the root *)
  fs_ok_tree : fs_exact -> forall w sb d1 n1 d2 n2 x, fs_ok w ->
    fs_entry (w_fs w) sb d1 n1 = Some x -> fs_entry (w_fs w) sb d2 n2 = Some x -> d1 = d2 /\ n1 = n2;
  fs_ok_root : fs_exact -> forall w sb b i d n, fs_ok w -> w_sbs w !! sb = Some b -> w_inodes w !! sb_root b = Some i ->
    fs_entry (w_fs w) sb d n <> Some (i_ino i);
  fs_ok_edit : forall w w', fs_ok w -> vfs_edit w w' -> fs_ok w';
  fs_lookup_ok : forall w p i n, fs_ok w -> w_inodes w !! p = Some i -> name_norm n ->
    wp (fs_lookup p n) (fun r w' => fs_ok w' /\ same_tree w w' /\
      if (r.1 <? 0) || (r.2 =? 0) then keeps w w'
      else made r.2 (i_sb i) w w' /\
           exists j, w_inodes w' !! r.2 = Some j /\ (fs_exact -> fs_entry (w_fs w) (i_sb i) (i_ino i) n = Some (i_ino j))) w;
  fs_create_ok : forall w p i n mode, fs_ok w -> w_inodes w !! p = Some i -> name_norm n ->
    makes (fs_create p n mode) i n w fs_ok;
  fs_mkdir_ok : forall w p i n mode, fs_ok w -> w_inodes w !! p = Some i -> name_norm n ->
    makes (fs_mkdir p n mode) i n w fs_ok;
  fs_unlink_ok : forall w p i n, fs_ok w -> w_inodes w !! p = Some i -> name_norm n ->
    removes (fs_unlink p n) i n w fs_ok;
  fs_rmdir_ok : forall w p i n, fs_ok w -> w_inodes w !! p = Some i -> name_norm n ->
    removes (fs_rmdir p n) i n w fs_ok;
  fs_readdir_ok : forall w p i pos, fs_ok w -> w_inodes w !! p = Some i -> harmless (fs_readdir p pos) w fs_ok;
  fs_getattr_ok : forall w p i, fs_ok w -> w_inodes w !! p = Some i -> harmless (fs_getattr p) w fs_ok;
  fs_truncate_ok : forall w p i size, fs_ok w -> w_inodes w !! p = Some i -> harmless (fs_truncate p size) w fs_ok;
  fs_read_ok : forall w f i n, fs_ok w -> w_inodes w !! f_inode f = Some i -> harmless (fs_read f n) w fs_ok;
  fs_write_ok : forall w f i buf, fs_ok w -> w_inodes w !! f_inode f = Some i -> harmless (fs_write f buf) w fs_ok;
  fs_seek_ok : forall w f i off wh, fs_ok w -> w_inodes w !! f_inode f = Some i -> harmless (fs_seek f off wh) w fs_ok;
  fs_close_ok : forall w f i, fs_ok w -> w_inodes w !! f_inode f = Some i -> harmless (fs_close f) w fs_ok;
  (* freeing an inode, with the file system's function or without *)
  fs_destroy_ok : forall w p i, fs_ok w -> w_inodes w !! p = Some i ->
    wp (fs_destroy p) (fun _ w' => fs_ok w' /\ w_inodes w' = delete p (w_inodes w) /\
      w_sbs w' = w_sbs w /\ same_tree w w') w;
  fs_drop_ok : forall w p, fs_ok w -> fs_ok (mkW (delete p (w_inodes w)) (w_sbs w) (w_fs w));
  (* super blocks *)
  fs_get_super_ok : forall w fs dev, fs_ok w -> wp (fs_get_super fs dev) (fun r w' => fs_ok w' /\
    if (r.1 <? 0) || (r.2 =? 0) then keeps w w' /\ same_tree w w'
    else w_sbs w !! r.2 = None /\
         (forall p i, w_inodes w !! p = Some i -> i_sb i <> r.2) /\
         (fs_exact -> forall sb d k, sb <> r.2 -> fs_entry (w_fs w') sb d k = fs_entry (w_fs w) sb d k) /\
         exists b i, w_sbs w' = <[r.2 := b]> (w_sbs w) /\
           w_inodes w !! sb_root b = None /\ w_inodes w' = <[sb_root b := i]> (w_inodes w) /\
           i_refcount i = 1 /\ i_sb i = r.2) w;
  fs_kill_super_ok : forall w sb b, fs_ok w -> w_sbs w !! sb = Some b -> wp (fs_kill_super sb)
    (fun _ w' => fs_ok w' /\ w_inodes w' = w_inodes w /\ w_sbs w' = delete sb (w_sbs w) /\
      (fs_exact -> forall sb' d k, sb' <> sb -> fs_entry (w_fs w') sb' d k = fs_entry (w_fs w) sb' d k)) w }.

Section Inv.
Context {F C T D H : Type} `{FL : FsLaws F} `{CD : CharDriver C}.
Context `{IT : !KvTable ikey T} `{DT : !KvTable (list Z) D} `{HH : Heap H}.
Abbreviation St := (vfs_state F C T D H).
Implicit Types (s : St) (w : world F).

Abbreviation inodes s := (w_inodes (v_world s)).

(** ** Locks *)
Definition below (r : nat) (l : list lock) : Prop := Forall (fun k => (rank k < r)%nat) l.

Lemma below_mono r r' l : below r l -> (r <= r')%nat -> below r' l.
Proof. intros Hl Hr. eapply Forall_impl; [done|]. simpl. lia. Qed.

Lemma filter_held (k : lock) l : k ∉ l -> filter (fun x => x <> k) (k :: l) = l.
Proof.
  intros Hk. rewrite filter_cons_False by tauto. induction l as [|x l IH]; [done|].
  apply not_elem_of_cons in Hk as [Hx Hl]. rewrite filter_cons_True by congruence. by rewrite IH.
Qed.

Lemma below_notin k l : below (rank k) l -> k ∉ l.
Proof. intros Hb Hk. eapply list.Forall_forall in Hb; [|done]. simpl in Hb. lia. Qed.

Lemma wp_acquire {A} l (k : unit -> M St A) Q s : below (rank l) (v_held s) ->
  wp (k tt) Q (with_held (l :: v_held s) s) -> wp (mbind' (acquire l) k) Q s.
Proof.
  intros Hb W. apply wp_bind. unfold wp at 1, acquire.
  rewrite (proj2 (forallb_forall _ _)); [done|]. intros x Hx. apply Nat.ltb_lt.
  eapply list.Forall_forall in Hb; [done|]. by apply list_elem_of_In.
Qed.

Lemma wp_release {A} l h (k : unit -> M St A) Q s : v_held s = l :: h -> l ∉ h ->
  wp (k tt) Q (with_held h s) -> wp (mbind' (release l) k) Q s.
Proof.
  intros E Hl W. apply wp_bind. unfold wp at 1, release.
  rewrite decide_True by (rewrite E; by left). by rewrite E, filter_held.
Qed.

Lemma wp_release' l h (Q : unit -> St -> Prop) s : v_held s = l :: h -> l ∉ h ->
  Q tt (with_held h s) -> wp (release l) Q s.
Proof. intros E Hl W. unfold wp, release. rewrite decide_True by (rewrite E; by left). by rewrite E, filter_held. Qed.

Lemma wp_deref {A B} (o : option A) a (k : A -> M St B) Q s : o = Some a -> wp (k a) Q s -> wp (mbind' (deref o) k) Q s.
Proof. by intros ->. Qed.

Lemma wp_ino {B} p i (k : inode -> M St B) Q s : inodes s !! p = Some i ->
  wp (k i) Q s -> wp (mbind' (ino p) k) Q s.
Proof. intros E W. unfold ino. apply wp_bind, wp_gets. rewrite E. exact W. Qed.

(** ** Taking and giving back references

    [counts w w']: the two worlds differ in reference counts, and inodes of
    [w] may be gone. *)
Definition counts w w' : Prop :=
  fs_ok w' /\ w_sbs w' = w_sbs w /\ same_tree w w' /\
  forall q j, w_inodes w' !! q = Some j -> exists i, w_inodes w !! q = Some i /\ j = set_refcount (i_refcount j) i.

Lemma set_refcount_id i : set_refcount (i_refcount i) i = i.
Proof. by destruct i. Qed.

Lemma counts_refl w : fs_ok w -> counts w w.
Proof. intros. split; [done|]. split; [done|]. split; [done|]. intros q j E. exists j. by rewrite set_refcount_id. Qed.

Lemma counts_trans w1 w2 w3 : counts w1 w2 -> counts w2 w3 -> counts w1 w3.
Proof.
  intros (_ & S1 & T1 & I1) (O2 & S2 & T2 & I2). split; [done|]. split; [congruence|].
  split; [intros Hx sb d k; by rewrite T2, T1|]. intros q j E.
  destruct (I2 q j E) as (i & E2 & ->). destruct (I1 q i E2) as (i0 & E1 & ->). by exists i0.
Qed.

Lemma same_file_count n i : same_file i (set_refcount n i).
Proof. done. Qed.

Lemma edit_insert w p i j : w_inodes w !! p = Some i -> same_file i j ->
  vfs_edit w (mkW (<[p := j]> (w_inodes w)) (w_sbs w) (w_fs w)).
Proof.
  intros E Hs. split; [done|]. split; [done|]. intros q. simpl. destruct (decide (q = p)) as [->|Hq].
  - by rewrite lookup_insert_eq, E.
  - rewrite lookup_insert_ne by done. by destruct (w_inodes w !! q).
Qed.

Lemma counts_insert w p i n : fs_ok w -> w_inodes w !! p = Some i ->
  counts w (mkW (<[p := set_refcount n i]> (w_inodes w)) (w_sbs w) (w_fs w)).
Proof.
  intros Ok E. split; [eapply fs_ok_edit; [done|by apply (edit_insert w p i)]|].
  split; [done|]. split; [done|]. intros q j. simpl. destruct (decide (q = p)) as [->|Hq].
  - rewrite lookup_insert_eq. intros [= <-]. by exists i.
  - rewrite lookup_insert_ne by done. intros Eq. exists j. by rewrite set_refcount_id.
Qed.

Lemma counts_delete w w' p : fs_ok w' -> w_inodes w' = delete p (w_inodes w) -> w_sbs w' = w_sbs w ->
  same_tree w w' -> counts w w'.
Proof.
  intros Ok E S1 T1. split; [done|]. split; [done|]. split; [done|]. intros q j. rewrite E.
  destruct (decide (q = p)) as [->|Hq]; [by rewrite lookup_delete_eq|].
  rewrite lookup_delete_ne by done. intros Eq. exists j. by rewrite set_refcount_id.
Qed.

Lemma with_held_id s h : v_held s = h -> with_held h s = s.
Proof. intros <-. by destruct s. Qed.
Lemma with_world_id s : with_world (v_world s) s = s.
Proof. by destruct s. Qed.

(** the count in a step of [inode_get] *)
Definition bump (p : Z) (i : inode) w : world F :=
  mkW (<[p := set_refcount (i_refcount i + 1) i]> (w_inodes w)) (w_sbs w) (w_fs w).

Lemma count_room R w p i : RI R (w_inodes w) -> Z.of_nat (length R) < 2 ^ 32 - 1 -> w_inodes w !! p = Some i ->
  0 < i_refcount i < 2 ^ 32 - 1.
Proof.
  intros HR HL E. specialize (HR p). rewrite E in HR. destruct HR as [-> Hp%occ_pos].
  pose proof (occ_le p R). lia.
Qed.

(** the locked increment, followed by anything *)
Lemma wp_bump {A} R p i s (k : unit -> M St A) Q :
  RI R (inodes s) -> Z.of_nat (length R) < 2 ^ 32 - 1 -> inodes s !! p = Some i -> below 5 (v_held s) ->
  wp (k tt) Q (with_world (bump p i (v_world s)) s) ->
  wp (mbind' (acquire (LInode p) ;;;
              let* i := ino p in
              set_ino p (set_refcount (u32 (i_refcount i + 1)) i) ;;;
              release (LInode p)) k) Q s.
Proof.
  intros HR HL E Hb W. apply wp_bind, wp_acquire; [done|].
  eapply wp_ino; [exact E|]. unfold set_ino. apply wp_modify.
  apply (wp_release' (LInode p) (v_held s)); [done|by apply below_notin|].
  pose proof (count_room R _ p i HR HL E). rewrite u32_small by lia. exact W.
Qed.

Lemma wp_inode_get {A} R p s (k : unit -> M St A) Q :
  fs_ok (v_world s) -> RI R (inodes s) -> Z.of_nat (length R) < 2 ^ 32 - 1 -> p ∈ R -> below 5 (v_held s) ->
  (forall w', counts (v_world s) w' -> RI (p :: R) (w_inodes w') ->
     (forall q, w_inodes w' !! q = None -> inodes s !! q = None) -> wp (k tt) Q (with_world w' s)) ->
  wp (mbind' (inode_get p) k) Q s.
Proof.
  intros Ok HR HL Hp Hb W. unfold inode_get. destruct (counted_live _ R _ p HR Hp) as (i & E & _).
  destruct (p =? 0) eqn:E0; breflect.
  { subst p. by rewrite (proj1 (fs_ok_null _ Ok)) in E. }
  eapply wp_bump; [done..|]. apply W; [by apply counts_insert|by eapply counted_get|].
  intros q. simpl. destruct (decide (q = p)) as [->|Hq]; [by rewrite lookup_insert_eq|by rewrite lookup_insert_ne].
Qed.

Lemma wp_inode_put {A} R p s (k : unit -> M St A) Q :
  fs_ok (v_world s) -> RI (p :: R) (inodes s) -> Z.of_nat (length R) < 2 ^ 32 - 2 -> below 5 (v_held s) ->
  (forall w', counts (v_world s) w' -> RI R (w_inodes w') -> wp (k tt) Q (with_world w' s)) ->
  wp (mbind' (inode_put p) k) Q s.
Proof.
  intros Ok HR HL Hb W. destruct (counted_live _ _ _ p HR) as (i & E & Hi); [by left|].
  unfold inode_put. destruct (p =? 0) eqn:E0; breflect.
  { subst p. by rewrite (proj1 (fs_ok_null _ Ok)) in E. }
  pose proof (count_room (p :: R) _ p i HR ltac:(simpl; lia) E) as Hc.
  apply wp_bind, wp_acquire; [done|]. eapply wp_ino; [exact E|].
  destruct (i_refcount i =? 0) eqn:Ez; breflect; [lia|]. rewrite u32_small by lia.
  unfold set_ino. apply wp_modify. apply (wp_release (LInode p) (v_held s)); [done|by apply below_notin|].
  set (w1 := mkW (<[p := set_refcount (i_refcount i - 1) i]> (inodes s)) (w_sbs (v_world s)) (w_fs (v_world s))).
  assert (fs_ok w1) as Ok1 by (eapply fs_ok_edit; [exact Ok|by apply (edit_insert _ p i)]).
  assert (counts (v_world s) w1) as C1 by (by apply counts_insert).
  match goal with |- wp _ _ ?x => replace x with (with_world w1 s) by (by destruct s) end.
  destruct (i_refcount i - 1 =? 0) eqn:En; breflect.
  2:{ apply wp_ret, W; [done|]. eapply counted_put; [exact HR|done|lia|done]. }
  assert (RI R (delete p (w_inodes w1))) as HD.
  { simpl. rewrite delete_insert_eq. eapply counted_drop; [exact HR|done|lia]. }
  destruct (has_iop i OpDestroy).
  - unfold in_world. apply wp_zoom. simpl. eapply wp_conseq.
    { apply (fs_destroy_ok w1 p (set_refcount (i_refcount i - 1) i)); [done|]. simpl. by rewrite lookup_insert_eq. }
    intros [] w2 (Ok2 & E2 & S2 & T2). simpl. apply (W w2); [|by rewrite E2].
    eapply counts_trans; [exact C1|]. by eapply counts_delete.
  - unfold drop_inode. rewrite <- (with_world_id s) at 1. apply (W (mkW (delete p (w_inodes w1)) (w_sbs w1) (w_fs w1))).
    + eapply counts_trans; [exact C1|]. eapply (counts_delete _ _ p); [by apply fs_drop_ok|done..].
    + exact HD.
Qed.

(** ** The references of a state *)
Definition par (q : Z) : list Z := if decide (q = VFS_ROOT_PARENT_SPECIAL) then [] else [q].
(** the cache refers to its inodes and, through their keys, to the parents *)
Definition crefs (m : gmap ikey Z) : list Z :=
  (map_to_list m).*2 ++ concat ((fun kp : ikey * Z => par kp.1.1) <$> map_to_list m).
Definition roots w : list Z := sb_root <$> (map_to_list (w_sbs w)).*2.
Definition nonnull (l : list Z) : list Z := filter (fun p => p <> 0) l.
Definition finodes (fl : gmap Z file) : list Z := nonnull (f_inode <$> (map_to_list fl).*2).
Definition cwds (ts : list task) : list Z := nonnull (t_cwd <$> ts).
Definition refs (m : gmap ikey Z) s : list Z :=
  crefs m ++ roots (v_world s) ++ finodes (v_files s) ++ cwds (v_tasks s).
(** the references to open files *)
Definition slots (ts : list task) : list Z := nonnull (concat (t_ofile <$> ts)).

Fixpoint mount_list (m : mount) : list mount :=
  match m with Mount _ _ _ cs => m :: concat (mount_list <$> cs) end.
Definition mounts s : list mount := match v_root s with Some m => mount_list m | None => [] end.
(** the slab objects of the VFS *)
Definition mptrs s : gset Z := list_to_set (m_ptr <$> mounts s).
Definition objs s : gset Z := dom (v_files s) ∪ mptrs s ∪ dom (v_devs s).

Definition file_ok (devs : gmap Z char_device) (f : file) : Prop :=
  match f_fops f with
  | NoFops => True
  | ChardevFops => f_inode f = 0 /\ is_Some (devs !! f_private f)
  | FsFops _ => f_inode f <> 0
  end.
Definition task_ok (t : task) : Prop :=
  length (t_ofile t) = Z.to_nat NOFILE /\ cwd_ok (Some (t_cwd_path t)).

Record vinv (B : gset Z) (Cr E : list Z) (m : gmap ikey Z) s : Prop := {
  vi_fs : fs_ok (v_world s);
  vi_cache : kt_rep (v_icache s) m;
  vi_refs : RI (refs m s ++ Cr) (inodes s);
  vi_keys : forall q n p, m !! (q, n) = Some p -> exists i, inodes s !! p = Some i /\ i_parent i = q /\ i_name i = n;
  vi_files : FI (slots (v_tasks s) ++ E) (v_files s);
  vi_file : forall p f, v_files s !! p = Some f -> file_ok (v_devs s) f;
  vi_few : Z.of_nat (length (v_tasks s)) <= NTASKS;
  vi_tasks : Forall task_ok (v_tasks s);
  vi_cur : forall n, v_cur s = Some n -> (n < length (v_tasks s))%nat;
  vi_devs : exists md, kt_rep (v_cdevs s) md /\ forall k v, md !! k = Some v -> is_Some (v_devs s !! v);
  vi_heap : heap_inv (v_heap s) (B ∪ objs s);
  vi_disj : B ## objs s /\ dom (v_files s) ## mptrs s /\ dom (v_files s) ∪ mptrs s ## dom (v_devs s);
  vi_null : 0 ∉ B ∪ objs s;
  vi_mounts : NoDup (m_ptr <$> mounts s) /\ NoDup (m_sb <$> mounts s) /\ (forall x, x ∈ mounts s -> is_Some (w_sbs (v_world s) !! m_sb x));
  vi_top : forall t, v_root s = Some t -> m_path t = [slash] }.

(** what the calls below leave alone *)
Definition frame s s' : Prop := exists h w t, s' = with_heap h (with_world w (with_icache t s)).

Lemma frame_refl s : frame s s.
Proof. exists (v_heap s), (v_world s), (v_icache s). by destruct s. Qed.
Lemma frame_trans s1 s2 s3 : frame s1 s2 -> frame s2 s3 -> frame s1 s3.
Proof. intros (h & w & t & ->) (h' & w' & t' & ->). by exists h', w', t'. Qed.
Lemma frame_heap h s : frame s (with_heap h s).
Proof. exists h, (v_world s), (v_icache s). by destruct s. Qed.
Lemma frame_world w s : frame s (with_world w s).
Proof. exists (v_heap s), w, (v_icache s). by destruct s. Qed.
Lemma frame_icache t s : frame s (with_icache t s).
Proof. exists (v_heap s), (v_world s), t. by destruct s. Qed.
Lemma frame_held s s' : frame s s' -> v_held s' = v_held s.
Proof. by intros (h & w & t & ->). Qed.
End Inv.
