(* ===== verification/VfsCache.v ===== *)
(** Buffers, references and the inode cache under the invariant. *)
From stdpp Require Import base gmap list strings.
From Stdlib Require Import ZArith Lia.
From S2P Require Import Prelude HashMap VfsPath Vfs VfsInv.
Open Scope Z_scope.

Create HintDb vfs.
#[export] Hint Resolve frame_refl frame_heap frame_world frame_icache : vfs.

Section Cache.
Context {F C T D H : Type} `{FL : FsLaws F} `{CD : CharDriver C}.
Context `{IT : !KvTable ikey T} `{DT : !KvTable (list Z) D} `{HH : Heap H}.
Abbreviation St := (vfs_state F C T D H).
Implicit Types (s : St) (w : world F) (m : gmap ikey Z) (B : gset Z) (Cr E : list Z).
Abbreviation inodes s := (w_inodes (v_world s)).

(** ** Sizes *)
Lemma nonnull_app l k : nonnull (l ++ k) = nonnull l ++ nonnull k.
Proof. apply filter_app. Qed.
Lemma nonnull_len l : (length (nonnull l) <= length l)%nat.
Proof. apply length_filter. Qed.

Lemma crefs_len m : (length (crefs m) <= 2 * size m)%nat.
Proof.
  unfold crefs. rewrite length_app, length_fmap, length_map_to_list.
  assert (length (concat ((fun kp : ikey * Z => par kp.1.1) <$> map_to_list m)) <= size m)%nat; [|lia].
  rewrite <- length_map_to_list. induction (map_to_list m) as [|x l IH]; [done|].
  rewrite fmap_cons. cbn [concat length]. rewrite length_app. unfold par at 1. case_decide; simpl; lia.
Qed.

Lemma cache_values B Cr E m s : vinv B Cr E m s -> NoDup (map_to_list m).*2.
Proof.
  intros I. apply NoDup_fmap_2_strong; [|apply NoDup_map_to_list].
  intros [[q1 n1] p1] [[q2 n2] p2] H1%elem_of_map_to_list H2%elem_of_map_to_list. simpl. intros <-.
  apply (vi_keys _ _ _ _ _ I) in H1 as (i & Hi & <- & <-). apply (vi_keys _ _ _ _ _ I) in H2 as (j & Hj & <- & <-).
  congruence.
Qed.

Lemma cache_size B Cr E m s : vinv B Cr E m s -> (size m <= size (inodes s))%nat.
Proof.
  intros I. rewrite <- length_map_to_list, <- (length_fmap snd), <- size_dom.
  apply (submseteq_length _ (elements (dom (inodes s)))), NoDup_submseteq; [by eapply cache_values|].
  intros p ((k & p') & -> & Hm%elem_of_map_to_list)%list_elem_of_fmap. destruct k as [q n].
  apply (vi_keys _ _ _ _ _ I) in Hm as (i & Hi & _). apply elem_of_elements, elem_of_dom. by exists i.
Qed.

Lemma slots_len ts : Forall task_ok ts -> (length (slots ts) <= 64 * length ts)%nat.
Proof.
  intros Ht. unfold slots. etransitivity; [apply nonnull_len|].
  induction Ht as [|t ts [Hl _] _ IH]; [done|].
  rewrite fmap_cons. cbn [concat length]. rewrite length_app, Hl. change (Z.to_nat NOFILE) with 64%nat. lia.
Qed.

Lemma files_size B Cr E m s : vinv B Cr E m s -> (size (v_files s) <= 64 * length (v_tasks s) + length E)%nat.
Proof.
  intros I. rewrite <- size_dom. etransitivity; [apply (submseteq_length _ (slots (v_tasks s) ++ E)), NoDup_submseteq|].
  - apply NoDup_elements.
  - intros p [f Hf]%elem_of_elements%elem_of_dom. pose proof (vi_files _ _ _ _ _ I p) as Hp. rewrite Hf in Hp. tauto.
  - rewrite length_app. pose proof (slots_len _ (vi_tasks _ _ _ _ _ I)). lia.
Qed.

(** what the call holds of its own is small *)
Definition light (Cr E : list Z) : Prop := Z.of_nat (length Cr) + Z.of_nat (length E) <= 2 ^ 30.

Lemma refs_room B Cr E m s : vinv B Cr E m s -> light Cr E ->
  Z.of_nat (length (refs m s ++ Cr)) < 2 ^ 31 + 2 ^ 30.
Proof.
  intros I Hl. unfold refs, roots, finodes, cwds. rewrite !length_app, length_fmap.
  pose proof (cache_size _ _ _ _ _ I). pose proof (crefs_len m). pose proof (files_size _ _ _ _ _ I).
  pose proof (nonnull_len (f_inode <$> (map_to_list (v_files s)).*2)) as Ha.
  pose proof (nonnull_len (t_cwd <$> v_tasks s)) as Hb.
  rewrite !length_fmap in *. rewrite !length_map_to_list in *. pose proof (fs_ok_few _ (vi_fs _ _ _ _ _ I)).
  pose proof (vi_few _ _ _ _ _ I). unfold light, NTASKS in *. lia.
Qed.
(** ** Steps that change reference counts and the heap only *)
Definition vstep s s' : Prop := frame s s' /\ counts (v_world s) (v_world s').

Lemma vstep_trans s1 s2 s3 : vstep s1 s2 -> vstep s2 s3 -> vstep s1 s3.
Proof.
  intros (F1 & C1) (F2 & C2). split; [by eapply frame_trans|by eapply counts_trans].
Qed.
Lemma vstep_refl s : fs_ok (v_world s) -> vstep s s.
Proof. intros. split; [apply frame_refl|by apply counts_refl]. Qed.
Lemma vstep_heap h s : fs_ok (v_world s) -> vstep s (with_heap h s).
Proof. intros. split; [apply frame_heap|by apply counts_refl]. Qed.
Lemma vstep_world w s : counts (v_world s) w -> vstep s (with_world w s).
Proof. intros. split; [apply frame_world|done]. Qed.

Lemma refs_perm m s x Cr : refs m s ++ x :: Cr ≡ₚ x :: refs m s ++ Cr.
Proof. symmetry. apply Permutation_middle. Qed.

Lemma vinv_Cr B Cr Cr' E m s : Cr ≡ₚ Cr' -> vinv B Cr E m s -> vinv B Cr' E m s.
Proof. intros P I. destruct I as [? ? R]. split; try done. by rewrite <- P. Qed.

Lemma vinv_counts B Cr Cr' E m s w : vinv B Cr E m s -> counts (v_world s) w ->
  RI (refs m s ++ Cr') (w_inodes w) -> vinv B Cr' E m (with_world w s).
Proof.
  intros I (Ok & S1 & T1 & I1) R. destruct I as [? ? ? K ? ? ? ? ? ? ? ? ? Mo ?]. split; simpl; try done.
  - unfold refs, roots. simpl. by rewrite S1.
  - intros q n p Hm. destruct (K q n p Hm) as (i & Hi & <- & <-).
    assert (p ∈ refs m s ++ Cr') as Hp.
    { apply elem_of_app. left. apply elem_of_app. left. apply elem_of_app. left. apply list_elem_of_fmap.
      eexists (_, p). split; [done|]. by apply elem_of_map_to_list. }
    destruct (counted_live _ _ _ p R Hp) as (j & Hj & _). destruct (I1 p j Hj) as (i' & Hi' & Ej).
    exists j. simplify_eq. rewrite Ej. split; [congruence|done].
  - unfold mounts in *. simpl. by rewrite S1.
Qed.

Lemma wp_get {A} B Cr E m s p (k : unit -> M St A) Q :
  vinv B Cr E m s -> light Cr E -> p ∈ refs m s ++ Cr -> below 5 (v_held s) ->
  (forall s', vstep s s' -> vinv B (p :: Cr) E m s' -> wp (k tt) Q s') ->
  wp (mbind' (inode_get p) k) Q s.
Proof.
  intros I Hl Hp Hb W. pose proof (refs_room _ _ _ _ _ I Hl).
  eapply wp_inode_get; [by destruct I|by destruct I|lia|done|done|].
  intros w Hc HR _. apply W; [by apply vstep_world|]. eapply vinv_counts; [done|done|].
  by rewrite refs_perm.
Qed.

Lemma wp_put {A} B Cr E m s p (k : unit -> M St A) Q :
  vinv B (p :: Cr) E m s -> light (p :: Cr) E -> below 5 (v_held s) ->
  (forall s', vstep s s' -> vinv B Cr E m s' -> wp (k tt) Q s') ->
  wp (mbind' (inode_put p) k) Q s.
Proof.
  intros I Hl Hb W. pose proof (refs_room _ _ _ _ _ I Hl). rewrite refs_perm in *. simpl in *.
  eapply wp_inode_put; [by destruct I|rewrite <- refs_perm; by destruct I|lia|done|].
  intros w Hc HR. apply W; [by apply vstep_world|]. by eapply vinv_counts.
Qed.

(** a call in tail position *)
Lemma wp_tail (c : M St unit) Q s : wp (mbind' c (fun _ => mret tt)) Q s -> wp c Q s.
Proof. unfold wp, mbind'. by destruct (c s) as [[[] s']| | |]. Qed.

(** ** Temporary buffers *)
Lemma wp_valloc {A} B Cr E m s n (k : Z -> M St A) Q :
  vinv B Cr E m s -> 1 <= n <= 4096 ->
  (forall s', vstep s s' -> vinv B Cr E m s' -> wp (k 0) Q s') ->
  (forall a s', vstep s s' -> a <> 0 -> (a ∉ B) -> vinv ({[a]} ∪ B) Cr E m s' -> wp (k a) Q s') ->
  wp (mbind' (slab_alloc n) k) Q s.
Proof.
  intros I Hn W0 W1. pose proof I as I'. destruct I as [Ok ? ? ? ? ? ? ? ? ? Hh Hd H0 ? ?].
  apply wp_bind. unfold slab_alloc. apply wp_zoom. unfold wp.
  destruct (halloc_ok (v_heap s) (B ∪ objs s) n Hh Hn) as [(a & h & -> & Ha & Hf & Hi)|[(h & -> & Hi)| ->]]; [..|done].
  - apply W1; [by apply vstep_heap|done|set_solver|]. split; try done; simpl.
    + by rewrite <- (assoc_L (∪)).
    + change (objs (with_heap h s)) with (objs s). set_solver.
    + change (objs (with_heap h s)) with (objs s). set_solver.
  - apply W0; [by apply vstep_heap|]. by split.
Qed.

Lemma wp_vfree {A} B Cr E m s a (k : unit -> M St A) Q :
  vinv ({[a]} ∪ B) Cr E m s -> (a ∉ B) ->
  (forall s', vstep s s' -> vinv B Cr E m s' -> wp (k tt) Q s') ->
  wp (mbind' (slab_free a) k) Q s.
Proof.
  intros I Ha W. destruct I as [Ok ? ? ? ? ? ? ? ? ? Hh Hd H0 ? ?].
  apply wp_bind. unfold slab_free. apply wp_zoom. unfold wp.
  destruct (hfree_ok (v_heap s) ({[a]} ∪ B ∪ objs s) a Hh) as (h & -> & Hi); [set_solver|].
  apply W; [by apply vstep_heap|]. split; try done; simpl; change (objs (with_heap h s)) with (objs s).
  - replace (B ∪ objs s) with (({[a]} ∪ B ∪ objs s) ∖ {[a]}); [done|]. apply set_eq. set_solver.
  - set_solver.
  - set_solver.
Qed.
(** ** The cache *)
Lemma vinv_held B Cr E m s l : vinv B Cr E m s -> vinv B Cr E m (with_held l s).
Proof. intros I. destruct I. by split. Qed.

Lemma vstep_held s s' : vstep s s' -> v_held s' = v_held s.
Proof. intros [Hf _]. by apply frame_held. Qed.

Lemma below_step s s' r : vstep s s' -> below r (v_held s) -> below r (v_held s').
Proof. intros Hs. by rewrite (vstep_held s s' Hs). Qed.

Lemma cached_ref m s k p Cr : m !! k = Some p -> p ∈ refs m s ++ Cr.
Proof.
  intros Hm. apply elem_of_app. left. apply elem_of_app. left. apply elem_of_app. left.
  apply list_elem_of_fmap. exists (k, p). split; [done|]. by apply elem_of_map_to_list.
Qed.
Lemma parent_ref m s q n p Cr : m !! (q, n) = Some p -> q <> VFS_ROOT_PARENT_SPECIAL -> q ∈ refs m s ++ Cr.
Proof.
  intros Hm Hq. apply elem_of_app. left. apply elem_of_app. left. apply elem_of_app. right.
  apply list_elem_of_In, in_concat. exists (par q). split; [|unfold par; rewrite decide_False by done; by left].
  apply list_elem_of_In, list_elem_of_fmap. exists (q, n, p). split; [done|]. by apply elem_of_map_to_list.
Qed.
Lemma own_ref m s p Cr : p ∈ Cr -> p ∈ refs m s ++ Cr.
Proof. intros. apply elem_of_app. by right. Qed.

Lemma own_head m s p Cr : p ∈ refs m s ++ p :: Cr.
Proof. apply own_ref, elem_of_cons. by left. Qed.
Lemma own_second m s p q Cr : p ∈ refs m s ++ q :: p :: Cr.
Proof. apply own_ref. rewrite !elem_of_cons. auto. Qed.

Lemma ref_live B Cr E m s p : vinv B Cr E m s -> p ∈ refs m s ++ Cr -> exists i, inodes s !! p = Some i /\ p <> 0.
Proof.
  intros I Hp. destruct (counted_live _ _ _ p (vi_refs _ _ _ _ _ I) Hp) as (i & Hi & _). exists i. split; [done|].
  intros ->. by rewrite (proj1 (fs_ok_null _ (vi_fs _ _ _ _ _ I))) in Hi.
Qed.

Lemma wp_find {A} B Cr E m s q n (k : Z -> M St A) Q :
  vinv B Cr E m s -> light Cr E -> below 4 (v_held s) ->
  (forall p s', vstep s s' ->
     (p = 0 /\ vinv B Cr E m s') \/ (p <> 0 /\ m !! (q, n) = Some p /\ vinv B (p :: Cr) E m s') -> wp (k p) Q s') ->
  wp (mbind' (inode_cache_find q n) k) Q s.
Proof.
  intros I Hl Hb W. unfold inode_cache_find. apply wp_bind.
  assert (forall s', vstep s s' -> vinv B Cr E m s' -> wp (k 0) Q s') as W0 by (intros; apply W; auto).
  destruct ((q =? 0) || (strlen n =? 0)); [apply wp_ret, W0; [by apply vstep_refl, I|done]|].
  eapply wp_valloc; [done|unfold SIZEOF_CACHE_KEY; lia|intros s1 V1 I1; by apply wp_ret, W0|].
  intros a s1 V1 Ha Hf I1. rewrite (proj2 (Z.eqb_neq a 0)) by done.
  destruct (VFS_MAX_PATH_LEN <=? strlen n).
  { eapply wp_vfree; [done|done|]. intros s2 V2 I2. apply wp_ret, W0; [by eapply vstep_trans|done]. }
  pose proof (below_step _ _ _ V1 Hb) as Hb1.
  apply wp_acquire; [done|]. apply wp_gets. simpl. rewrite (kt_lookup_ok _ m) by apply I1.
  set (s2 := with_held (LIcache :: v_held s1) s1).
  assert (vinv ({[a]} ∪ B) Cr E m s2) as I2 by (by apply vinv_held).
  assert (forall p w, counts (v_world s1) w -> (p = 0 /\ vinv ({[a]} ∪ B) Cr E m (with_world w s1)) \/
            (p <> 0 /\ m !! (q, n) = Some p /\ vinv ({[a]} ∪ B) (p :: Cr) E m (with_world w s1)) ->
          wp (release LIcache ;;; slab_free a ;;; mret p) (fun a => wp (k a) Q) (with_world w s2)) as Wend.
  { intros p w Hc Hp. apply (wp_release LIcache (v_held s1)); [done|by apply below_notin|].
    replace (with_held (v_held s1) (with_world w s2)) with (with_world w s1) by (by destruct s1).
    destruct Hp as [[-> Hi]|(Hp & Hm & Hi)]; (eapply wp_vfree; [exact Hi|done|]); intros s3 V3 I3; apply wp_ret, W; auto;
      (eapply vstep_trans; [exact V1|]; eapply vstep_trans; [by apply vstep_world|done]). }
  destruct (m !! (q, n)) as [p|] eqn:Em; simpl.
  - destruct (ref_live _ _ _ _ _ p I2 (cached_ref _ _ _ _ _ Em)) as (i & Hi & Hp0).
    rewrite (proj2 (Z.eqb_neq p 0)) by done.
    pose proof (refs_room _ _ _ _ _ I2 Hl).
    eapply (wp_bump (refs m s2 ++ Cr)); [by destruct I2|lia|done| |].
    { constructor; [simpl; lia|]. eapply below_mono; [done|lia]. }
    apply Wend; [by apply counts_insert; [apply I1|]|]. right. split; [done|]. split; [done|].
    eapply vinv_counts; [exact I1|by apply counts_insert; [apply I1|]|]. rewrite refs_perm.
    eapply counted_get; [by destruct I2|done|done].
  - rewrite <- (with_world_id s2). apply Wend; [by apply counts_refl, I1|]. left. split; [done|].
    change (v_world s2) with (v_world s1). by rewrite with_world_id.
Qed.

(** *** Adding and removing an entry *)
Lemma crefs_insert m k p : m !! k = None -> crefs (<[k := p]> m) ≡ₚ p :: par k.1 ++ crefs m.
Proof.
  intros Hm. unfold crefs. rewrite (map_to_list_insert m k p Hm). simpl.
  apply perm_skip. rewrite Permutation_app_swap_app. done.
Qed.
Lemma crefs_delete m k p : m !! k = Some p -> crefs m ≡ₚ p :: par k.1 ++ crefs (delete k m).
Proof. intros Hm. rewrite <- (insert_delete_id m k p Hm) at 1. apply crefs_insert, lookup_delete_eq. Qed.

Lemma refs_insert m s k p Cr : m !! k = None ->
  refs (<[k := p]> m) s ++ Cr ≡ₚ refs m s ++ p :: par k.1 ++ Cr.
Proof.
  intros Hm. unfold refs. rewrite (crefs_insert m k p Hm). set (x := roots _ ++ _).
  simpl. rewrite <- !app_assoc. solve_Permutation.
Qed.

Lemma frame_unheld s s' l : frame (with_held l s) s' -> frame s (with_held (v_held s) s').
Proof. intros (h & w & t & ->). by exists h, w, t. Qed.
Lemma frame_icache' s s' t : frame s s' -> frame s (with_icache t s').
Proof. intros (h & w & t' & ->). by exists h, w, t. Qed.
Lemma vinv_icache B Cr E m s t : vinv B Cr E m s -> kt_rep t m -> vinv B Cr E m (with_icache t s).
Proof. intros I Ht. destruct I. by split. Qed.

(** a new entry, by the key of an inode that the caller can reach; the parent's
    reference goes to the cache *)
Lemma wp_insert_ref {A} B Cr E m s p i (k : Z -> M St A) Q :
  vinv B (par (i_parent i) ++ Cr) E m s -> light (p :: par (i_parent i) ++ Cr) E -> below 4 (v_held s) ->
  p ∈ refs m s ++ par (i_parent i) ++ Cr -> inodes s !! p = Some i -> i_parent i <> 0 -> i_name i <> [] ->
  (forall s', vstep s s' -> vinv B (par (i_parent i) ++ Cr) E m s' -> wp (k (-1)) Q s') ->
  (forall s', vstep s s' -> m !! (i_parent i, i_name i) = None ->
     vinv B Cr E (<[(i_parent i, i_name i) := p]> m) s' -> wp (k 0) Q s') ->
  wp (mbind' (inode_cache_insert p) k) Q s.
Proof.
  intros I Hl Hb Href Hi Hq Hn Wf Ws. set (C1 := par (i_parent i) ++ Cr) in *.
  destruct (ref_live _ _ _ _ _ p I Href) as (? & ? & Hp0).
  unfold inode_cache_insert. rewrite (proj2 (Z.eqb_neq p 0)) by done. apply wp_bind.
  eapply wp_ino; [exact Hi|]. rewrite (proj2 (Z.eqb_neq _ 0)) by done.
  destruct (strlen (i_name i) =? 0) eqn:En; breflect.
  { destruct (i_name i); [done|]. rewrite strlen_cons in En. pose proof (strlen_nonneg l). lia. }
  simpl. apply wp_acquire; [done|]. set (s1 := with_held _ s).
  assert (below 5 (v_held s1)) as Hb1 by (constructor; [simpl; lia|]; eapply below_mono; [done|lia]).
  assert (light C1 E) as Hl1 by (unfold light in *; simpl in *; lia).
  eapply (wp_get B C1); [by apply vinv_held|done|exact Href|done|].
  intros s2 V2 I2. destruct (ref_live _ _ _ _ _ p I2) as (j & Hj & _); [apply own_head|].
  assert (i_parent j = i_parent i /\ i_name j = i_name i) as [E1 E2].
  { destruct V2 as (_ & _ & _ & _ & Hc). destruct (Hc p j Hj) as (i' & Hi' & Ej). simpl in Hi'. simplify_eq.
    rewrite Ej. done. }
  eapply wp_ino; [exact Hj|]. rewrite E1, E2. apply wp_bind, wp_zoom.
  eapply wp_conseq; [apply (kt_insert_ok _ m); apply I2|].
  intros ok t (Ht & Hnew). destruct ok.
  - specialize (Hnew eq_refl).
    apply (wp_release LIcache (v_held s)); [simpl; by rewrite (vstep_held _ _ V2)|by apply below_notin|].
    apply wp_ret, Ws; [|done|].
    { destruct V2 as (Hf & Hc). split; [|exact Hc]. by apply frame_unheld with (LIcache :: v_held s), frame_icache'. }
    apply vinv_held. destruct I2 as [? ? R K ? ? ? ? ? ? ? ? ? ? ?]. split; simpl; try done.
    + change (refs (<[(i_parent i, i_name i):=p]> m) (with_icache t s2)) with (refs (<[(i_parent i, i_name i):=p]> m) s2).
      rewrite refs_insert by done. simpl. exact R.
    + intros q n y. destruct (decide ((q, n) = (i_parent i, i_name i))) as [Ek|Ek].
      * rewrite Ek, lookup_insert_eq. intros [= <-]. simplify_eq. exists j. done.
      * rewrite lookup_insert_ne by done. apply K.
  - apply wp_put with (B := B) (Cr := C1) (E := E) (m := m); [by apply vinv_icache|done|simpl; by rewrite (vstep_held _ _ V2)|].
    intros s3 V3 I3. pose proof (vstep_held _ _ V3) as Eh. simpl in Eh. rewrite (vstep_held _ _ V2) in Eh.
    apply (wp_release LIcache (v_held s)); [exact Eh|by apply below_notin|].
    apply wp_ret, Wf; [|by apply vinv_held].
    split; [|destruct V2 as (_ & Hc2), V3 as (_ & Hc3); by eapply counts_trans].
    apply frame_unheld with (LIcache :: v_held s). eapply frame_trans; [|apply V3]. apply frame_icache', V2.
Qed.

(** the same for an inode that the caller holds *)
Lemma wp_insert {A} B Cr E m s p i (k : Z -> M St A) Q :
  vinv B (p :: par (i_parent i) ++ Cr) E m s -> light (p :: p :: par (i_parent i) ++ Cr) E -> below 4 (v_held s) ->
  inodes s !! p = Some i -> i_parent i <> 0 -> i_name i <> [] ->
  (forall s', vstep s s' -> vinv B (p :: par (i_parent i) ++ Cr) E m s' -> wp (k (-1)) Q s') ->
  (forall s', vstep s s' -> m !! (i_parent i, i_name i) = None ->
     vinv B (p :: Cr) E (<[(i_parent i, i_name i) := p]> m) s' -> wp (k 0) Q s') ->
  wp (mbind' (inode_cache_insert p) k) Q s.
Proof.
  intros I Hl Hb Hi Hq Hn Wf Ws.
  assert (par (i_parent i) ++ p :: Cr ≡ₚ p :: par (i_parent i) ++ Cr) as HP by (symmetry; apply Permutation_middle).
  apply (wp_insert_ref B (p :: Cr) E m s p i); [by eapply vinv_Cr; [symmetry; exact HP|]| |done| |done|done|done| |done].
  - unfold light in *. rewrite (Permutation_length (perm_skip p HP)). exact Hl.
  - apply own_ref. rewrite HP. apply elem_of_cons. by left.
  - intros s' V I'. apply Wf; [done|]. by eapply vinv_Cr; [exact HP|].
Qed.

Lemma refs_delete m s k p Cr : m !! k = Some p ->
  refs m s ++ Cr ≡ₚ refs (delete k m) s ++ p :: par k.1 ++ Cr.
Proof.
  intros Hm. unfold refs. rewrite (crefs_delete m k p Hm) at 1. simpl. rewrite <- !app_assoc. solve_Permutation.
Qed.

Lemma wp_remove {A} B Cr E m s p i (k : unit -> M St A) Q :
  vinv B Cr E m s -> light (p :: i_parent i :: Cr) E -> below 4 (v_held s) ->
  inodes s !! p = Some i -> m !! (i_parent i, i_name i) = Some p ->
  (forall s', vstep s s' -> vinv B Cr E (delete (i_parent i, i_name i) m) s' -> wp (k tt) Q s') ->
  wp (mbind' (inode_cache_remove p) k) Q s.
Proof.
  intros I Hl Hb Hi Hm W. destruct (ref_live _ _ _ _ _ p I (cached_ref _ _ _ _ _ Hm)) as (i' & Hi' & Hp0).
  unfold inode_cache_remove. rewrite (proj2 (Z.eqb_neq p 0)) by done. apply wp_bind, wp_acquire; [done|].
  eapply wp_ino; [exact Hi|]. apply wp_bind, wp_zoom. eapply wp_conseq; [apply (kt_delete_ok _ m); apply I|].
  intros r t (Ht & ->). rewrite bool_decide_eq_true_2 by (rewrite Hm; by eexists).
  apply (wp_release LIcache (v_held s)); [done|by apply below_notin|].
  replace (with_held (v_held s) _) with (with_icache t s) by (by destruct s).
  assert (vinv B (p :: par (i_parent i) ++ Cr) E (delete (i_parent i, i_name i) m) (with_icache t s)) as I1.
  { destruct I as [? ? R K ? ? ? ? ? ? ? ? ? ? ?]. split; simpl; try done.
    - change (refs ?m' (with_icache t s)) with (refs m' s).
      by rewrite <- (refs_delete m s (i_parent i, i_name i) p Cr Hm).
    - intros q n y [_ Hy]%lookup_delete_Some. by apply K. }
  assert (v_held (with_icache t s) = v_held s) as Eh by done.
  assert (vstep s (with_icache t s)) as V1.
  { split; [apply frame_icache|]. apply counts_refl. by destruct I. }
  eapply wp_ino; [exact Hi|]. apply (wp_put B (par (i_parent i) ++ Cr) E (delete (i_parent i, i_name i) m)); [done| |eapply below_mono; [done|lia]|].
  { unfold light, par in *. case_decide; simpl in *; lia. }
  intros s2 V2 I2. unfold par in I2. destruct (i_parent i =? VFS_ROOT_PARENT_SPECIAL) eqn:Es; breflect.
  - rewrite decide_True in I2 by done. apply wp_ret, W; [exact (vstep_trans _ _ _ V1 V2)|done].
  - rewrite decide_False in I2 by done. apply wp_tail.
    eapply wp_put; [exact I2| | |].
    + unfold light in *. simpl in *. lia.
    + rewrite (vstep_held _ _ V2). eapply below_mono; [done|lia].
    + intros s3 V3 I3. apply wp_ret, W; [|done]. exact (vstep_trans _ _ _ V1 (vstep_trans _ _ _ V2 V3)).
Qed.
End Cache.
