(* ===== verification/VfsWalk.v ===== *)
(** Path walks: the inode cache shows the directory tree.

    [TI m w]: every entry of the cache [m] is an entry of a directory, by a
    parent that is itself in the tree, and no file has two inodes in memory.
    A walk that finds an inode has followed the directory entries of the path
    from the root of the mount, and every directory on the way may be
    searched ([cwalk], [cwalk_walk]). *)
From stdpp Require Import base gmap list strings.
From Stdlib Require Import ZArith Lia.
From S2P Require Import Prelude HashMap VfsPath Vfs VfsInv VfsCache.
Open Scope Z_scope.

(** [split_slash] and [components] at a slash *)
Lemma split_slash_app a b : split_slash (a ++ slash :: b) = split_slash a ++ split_slash b.
Proof.
  induction a as [|c a IH]; [done|]. simpl. destruct (c =? slash); [by rewrite IH|].
  rewrite IH. pose proof (split_slash_ne a). by destruct (split_slash a).
Qed.
Lemma components_app a b : components (a ++ slash :: b) = components a ++ components b.
Proof. unfold components. by rewrite split_slash_app, filter_app. Qed.

Section Walk.
Context {F C T D H : Type} `{FL : FsLaws F} `{CD : CharDriver C}.
Context `{IT : !KvTable ikey T} `{DT : !KvTable (list Z) D} `{HH : Heap H}.
Abbreviation St := (vfs_state F C T D H).
Implicit Types (s : St) (w : world F) (m : gmap ikey Z) (B : gset Z) (Cr E : list Z).
Abbreviation inodes s := (w_inodes (v_world s)).

(** ** The tree of inodes in memory *)
Definition is_root w p : Prop := exists sb b, w_sbs w !! sb = Some b /\ sb_root b = p.
(** a root, or the inode of a directory entry in the cache *)
Definition in_tree m w p : Prop := is_root w p \/ exists q n, m !! (q, n) = Some p /\ name_norm n.
(** the directory of an entry in the cache; a file system that is not exact can
    remove it before the entry *)
Definition linked m p : Prop := p <> VFS_ROOT_PARENT_SPECIAL /\ exists n q, m !! (p, n) = Some q /\ name_norm n.
Definition attached m w p : Prop := in_tree m w p \/ linked m p.

Lemma attached_root m w sb b : w_sbs w !! sb = Some b -> attached m w (sb_root b).
Proof. intros Hb. left. left. by exists sb, b. Qed.
Lemma attached_cached m w q n p : m !! (q, n) = Some p -> name_norm n -> attached m w p.
Proof. intros Hm Hn. left. right. by exists q, n. Qed.
Lemma attached_weaken m m' w w' p : m ⊆ m' -> w_sbs w' = w_sbs w -> attached m w p -> attached m' w' p.
Proof.
  intros Hm Es [[Hr|(q & n & Hq & Hn)]|(Hp & n & q & Hq & Hn)].
  - left. left. unfold is_root. by rewrite Es.
  - eapply attached_cached; [by eapply lookup_weaken|done].
  - right. split; [done|]. exists n, q. split; [by eapply lookup_weaken|done].
Qed.

Record TI m w : Prop := {
  ti_entry : forall q n p qi pi, m !! (q, n) = Some p -> name_norm n ->
    w_inodes w !! q = Some qi -> w_inodes w !! p = Some pi ->
    i_sb pi = i_sb qi /\ (fs_exact -> fs_entry (w_fs w) (i_sb qi) (i_ino qi) n = Some (i_ino pi));
  ti_parent : forall q n p, m !! (q, n) = Some p -> name_norm n -> attached m w q;
  ti_tree : fs_exact -> forall q n p, m !! (q, n) = Some p -> name_norm n -> in_tree m w q;
  ti_mount : forall q n p, m !! (q, n) = Some p -> ~ name_norm n -> n = [slash] /\ is_root w p;
  ti_unique : fs_exact -> forall p1 p2 i1 i2, attached m w p1 -> attached m w p2 ->
    w_inodes w !! p1 = Some i1 -> w_inodes w !! p2 = Some i2 ->
    i_sb i1 = i_sb i2 -> i_ino i1 = i_ino i2 -> p1 = p2;
  ti_root : forall sb b i, w_sbs w !! sb = Some b -> w_inodes w !! sb_root b = Some i -> i_sb i = sb }.

(** the attributes of an inode that a walk depends on *)
Definition same_attr (i j : inode) : Prop :=
  i_sb j = i_sb i /\ i_ino j = i_ino i /\ i_mode j = i_mode i /\ i_uid j = i_uid i /\ i_gid j = i_gid i.

Lemma TI_same m w w' : TI m w -> w_sbs w' = w_sbs w -> same_tree w w' ->
  (forall p j, attached m w p -> w_inodes w' !! p = Some j ->
     exists i, w_inodes w !! p = Some i /\ i_sb j = i_sb i /\ i_ino j = i_ino i) ->
  TI m w'.
Proof.
  intros [T1 T2 TT T3 T4 T5] Es Et Hi.
  assert (forall p, attached m w' p <-> attached m w p) as Ha by (unfold attached, in_tree, is_root; by rewrite Es).
  split.
  - intros q n p qi pi Hm Hn Hq Hp. destruct (Hi q qi (T2 _ _ _ Hm Hn) Hq) as (qi' & Hq' & -> & ->).
    destruct (Hi p pi) as (pi' & Hp' & -> & ->); [by left; right; exists q, n|done|].
    destruct (T1 _ _ _ _ _ Hm Hn Hq' Hp') as [Es' Ee]. split; [done|]. intros Hx. rewrite Et by done. by apply Ee.
  - intros q n p Hm Hn. apply Ha. by eapply T2.
  - intros Hx q n p Hm Hn. unfold in_tree, is_root. rewrite Es. by eapply TT.
  - intros q n p Hm Hn. unfold is_root. rewrite Es. by eapply T3.
  - intros Hx p1 p2 i1 i2 H1%Ha H2%Ha I1 I2 E1 E2. destruct (Hi _ _ H1 I1) as (j1 & J1 & ? & ?).
    destruct (Hi _ _ H2 I2) as (j2 & J2 & ? & ?). eapply T4; [done|done|done|done|done|congruence|congruence].
  - intros sb b i Hb Hr. rewrite Es in Hb.
    destruct (Hi (sb_root b) i) as (i' & Hi' & -> & _); [by left; left; exists sb, b|done|]. by eapply T5.
Qed.

Lemma attached_ref m s p Cr : attached m (v_world s) p -> p ∈ refs m s ++ Cr.
Proof.
  intros [[(sb & b & Hb & <-)|(q & n & Hm & _)]|(Hp & n & q & Hm & _)]; [|by eapply cached_ref|by eapply parent_ref].
  apply elem_of_app. left. apply elem_of_app. right. apply elem_of_app. left.
  apply list_elem_of_fmap. exists b. split; [done|]. apply list_elem_of_fmap. exists (sb, b).
  split; [done|]. by apply elem_of_map_to_list.
Qed.

Lemma attached_live B Cr E m s p : vinv B Cr E m s -> attached m (v_world s) p ->
  exists i, inodes s !! p = Some i /\ p <> 0.
Proof. intros I Ha. by eapply ref_live, attached_ref. Qed.

(** the step of a call that may add inodes and entries but changes no file *)
Definition lstep m s m' s' : Prop :=
  frame s s' /\ fs_ok (v_world s') /\ w_sbs (v_world s') = w_sbs (v_world s) /\
  same_tree (v_world s) (v_world s') /\ m ⊆ m' /\
  forall p j, attached m (v_world s) p -> inodes s' !! p = Some j ->
    exists i, inodes s !! p = Some i /\ same_attr i j.

Lemma attached_mono m s m' s' p : lstep m s m' s' -> attached m (v_world s) p -> attached m' (v_world s') p.
Proof. intros (_ & _ & Es & _ & Hm & _). by apply attached_weaken. Qed.

Lemma lstep_trans m1 s1 m2 s2 m3 s3 : lstep m1 s1 m2 s2 -> lstep m2 s2 m3 s3 -> lstep m1 s1 m3 s3.
Proof.
  intros L1 L2. pose proof (fun p => attached_mono _ _ _ _ p L1) as Ha.
  destruct L1 as (F1 & O1 & S1 & T1 & M1 & I1), L2 as (F2 & O2 & S2 & T2 & M2 & I2).
  split; [by eapply frame_trans|]. split; [done|]. split; [congruence|].
  split; [intros Hx sb d k; by rewrite T2, T1|]. split; [by etrans|].
  intros p j Hp Hj. destruct (I2 p j (Ha p Hp) Hj) as (i2 & Hi2 & ? & ? & ? & ? & ?).
  destruct (I1 p i2 Hp Hi2) as (i1 & Hi1 & ? & ? & ? & ? & ?). exists i1. split; [done|].
  unfold same_attr. repeat split; congruence.
Qed.

Lemma vstep_lstep m s s' : vstep s s' -> lstep m s m s'.
Proof.
  intros [Hf (Ok & Es & Et & Hi)]. do 5 (split; [done|]). intros p j _ Hj.
  destruct (Hi p j Hj) as (i & Hi' & ->). by exists i.
Qed.

Lemma TI_lstep m s s' : TI m (v_world s) -> lstep m s m s' -> TI m (v_world s').
Proof.
  intros HT (_ & _ & Es & Et & _ & Hi). eapply TI_same; [done..|].
  intros p j Ha Hj. destruct (Hi p j Ha Hj) as (i & Hi' & ? & ? & _). by exists i.
Qed.

Lemma TI_vstep m s s' : TI m (v_world s) -> vstep s s' -> TI m (v_world s').
Proof. intros HT V. by eapply TI_lstep, vstep_lstep. Qed.

(** a new entry of the cache shows a directory entry *)
Lemma TI_insert m w q n p qi pi : TI m w -> fs_ok w ->
  (forall x, attached m w x -> is_Some (w_inodes w !! x)) ->
  m !! (q, n) = None -> name_norm n -> attached m w q -> ~ attached m w p ->
  w_inodes w !! q = Some qi -> w_inodes w !! p = Some pi ->
  i_sb pi = i_sb qi -> (fs_exact -> fs_entry (w_fs w) (i_sb qi) (i_ino qi) n = Some (i_ino pi)) ->
  TI (<[(q, n) := p]> m) w.
Proof.
  intros [T1 T2 TT T3 T4 T5] Ok Hl Hm Hn Hq Hp Hqi Hpi Esb Ee.
  assert (forall x y z, m !! (x, y) = Some z -> <[(q, n) := p]> m !! (x, y) = Some z) as Hold.
  { intros x y z Hx. rewrite lookup_insert_ne; [done|]. congruence. }
  assert (forall x, in_tree (<[(q, n) := p]> m) w x <-> in_tree m w x \/ x = p) as Hin.
  { intros x. split.
    - intros [Hr|(q' & n' & Hx & Hn')]; [by left; left|].
      apply lookup_insert_Some in Hx as [[_ <-]|[_ Hx]]; [by right|]. left. right. eauto.
    - intros [[Hr|(q' & n' & Hx & Hn')]| ->]; [by left| |].
      + right. exists q', n'. auto.
      + right. exists q, n. split; [apply lookup_insert_eq|done]. }
  assert (forall x, attached (<[(q, n) := p]> m) w x <-> attached m w x \/ x = p) as Ha.
  { intros x. unfold attached. rewrite Hin. split.
    - intros [[?|?]|(Hs & n' & q' & Hx & Hn')]; [auto..|]. left.
      apply lookup_insert_Some in Hx as [[[= <- _] _]|[_ Hx]]; [done|]. right. split; [done|]. eauto.
    - intros [[?|(Hs & n' & q' & Hx & Hn')]| ->]; [auto| |auto]. right. split; [done|]. eauto 10. }
  assert (fs_exact -> forall x, attached m w x -> in_tree m w x) as Hat.
  { intros Hx0 x [?|(_ & n' & q' & Hx & Hn')]; [done|by eapply TT]. }
  assert (fs_exact -> forall x i, attached m w x -> w_inodes w !! x = Some i -> i_sb i = i_sb pi -> i_ino i = i_ino pi -> False) as Hu.
  { intros Hx0. specialize (Ee Hx0). intros x i [(sb & b & Hb & <-)|(q' & n' & Hx & Hn')]%(Hat Hx0) Hi E1 E2.
    - apply (fs_ok_root Hx0 w sb b i (i_ino qi) n Ok Hb Hi). rewrite <- (T5 _ _ _ Hb Hi), E1, Esb, Ee. congruence.
    - destruct (Hl q') as [qi' Hqi']; [by eapply T2|]. destruct (T1 _ _ _ _ _ Hx Hn' Hqi' Hi) as [Es' Ee']. specialize (Ee' Hx0).
      rewrite <- Es', E1, Esb, E2 in Ee'. destruct (fs_ok_tree Hx0 w _ _ _ _ _ _ Ok Ee Ee') as [Ei <-].
      assert (q = q') as <-; [|congruence]. eapply T4; [done|done|by eapply T2|done|done|congruence|done]. }
  split.
  - intros q' n' p' qi' pi'. intros [[[= <- <-] <-]|[_ Hx]]%lookup_insert_Some Hn' Hqi' Hpi'.
    + simplify_eq. done.
    + by eapply T1.
  - intros q' n' p' Hx Hn'. apply Ha. left. apply lookup_insert_Some in Hx as [[[= <- <-] _]|[_ Hx]]; [done|by eapply T2].
  - intros Hx0 q' n' p' Hx Hn'. apply Hin. left. apply lookup_insert_Some in Hx as [[[= <- <-] _]|[_ Hx]]; [by apply Hat|by eapply TT].
  - intros q' n' p' [[[= <- <-] _]|[_ Hx]]%lookup_insert_Some Hn'; [done|by eapply T3].
  - intros Hx0 p1 p2 i1 i2 [H1| ->]%Ha [H2| ->]%Ha I1 I2 E1 E2; [by eapply T4| | |done]; exfalso; simplify_eq.
    + by eapply (Hu Hx0 p1 i1).
    + by eapply (Hu Hx0 p2 i2).
  - done.
Qed.

(** ** Steps of the file system *)
Lemma keeps_inode w w' p j : keeps w w' -> w_inodes w' !! p = Some j -> exists i, w_inodes w !! p = Some i /\ same_vfs i j.
Proof.
  intros Hk Hj. destruct (Hk (p + 1)) as [_ Hp]. specialize (Hp p ltac:(lia)). rewrite Hj in Hp.
  destruct (w_inodes w !! p) as [i|]; [by exists i|done].
Qed.
Lemma keeps_inode' w w' p i : keeps w w' -> w_inodes w !! p = Some i -> exists j, w_inodes w' !! p = Some j /\ same_vfs i j.
Proof.
  intros Hk Hi. destruct (Hk (p + 1)) as [_ Hp]. specialize (Hp p ltac:(lia)). rewrite Hi in Hp.
  destruct (w_inodes w' !! p) as [j|]; [by exists j|done].
Qed.

Lemma RI_keeps R w w' : RI R (w_inodes w) -> keeps w w' -> RI R (w_inodes w').
Proof.
  intros HR Hk. eapply counted_same; [done|]. intros p. destruct (Hk (p + 1)) as [_ Hp]. specialize (Hp p ltac:(lia)).
  destruct (w_inodes w !! p), (w_inodes w' !! p); [|done..]. simpl. f_equal. apply Hp.
Qed.

Lemma refs_world m s w : w_sbs w = w_sbs (v_world s) -> refs m (with_world w s) = refs m s.
Proof. intros Es. unfold refs, roots. simpl. by rewrite Es. Qed.

Lemma vinv_keeps B Cr E m s w : vinv B Cr E m s -> keeps (v_world s) w -> fs_ok w -> vinv B Cr E m (with_world w s).
Proof.
  intros I Hk Ok. pose proof (proj1 (Hk 0)) as Es. destruct I as [? ? R K ? ? ? ? ? ? ? ? ? Mo ?]. split; simpl; try done.
  - rewrite refs_world by done. by eapply RI_keeps.
  - intros q n p Hm. destruct (K q n p Hm) as (i & Hi & <- & <-). destruct (keeps_inode' _ _ _ _ Hk Hi) as (j & Hj & Hs).
    exists j. split; [done|]. split; apply Hs.
  - unfold mounts in *. simpl. by rewrite Es.
Qed.

Lemma lstep_keeps m s w : keeps (v_world s) w -> fs_ok w -> same_tree (v_world s) w -> lstep m s m (with_world w s).
Proof.
  intros Hk Ok Ht. split; [apply frame_world|]. split; [done|]. split; [apply (Hk 0)|]. split; [done|]. split; [done|].
  intros p j _ Hj. destruct (keeps_inode _ _ _ _ Hk Hj) as (i & Hi & (? & ? & _) & ? & ? & ? & _). by exists i.
Qed.

Lemma made_inode q sb w w' p j : made q sb w w' -> p <> q -> w_inodes w' !! p = Some j ->
  exists i, w_inodes w !! p = Some i /\ same_vfs i j.
Proof.
  intros ((_ & Hk) & _) Hp Hj. specialize (Hk p Hp). rewrite Hj in Hk. destruct (w_inodes w !! p) as [i|]; [by exists i|done].
Qed.
Lemma made_inode' q sb w w' p i : made q sb w w' -> w_inodes w !! p = Some i ->
  p <> q /\ exists j, w_inodes w' !! p = Some j /\ same_vfs i j.
Proof.
  intros ((_ & Hk) & Hq & _) Hi. assert (p <> q) as Hp by congruence. split; [done|].
  specialize (Hk p Hp). rewrite Hi in Hk. destruct (w_inodes w' !! p) as [j|]; [by exists j|done].
Qed.

Lemma RI_made R q sb w w' : RI R (w_inodes w) -> made q sb w w' -> RI (q :: R) (w_inodes w').
Proof.
  intros HR ((_ & Hk) & Hq & i & Hi & H1 & _). eapply counted_same; [by apply (counted_new _ R (w_inodes w) q i)|].
  intros p. destruct (decide (p = q)) as [->|Hp]; [by rewrite lookup_insert_eq, Hi|].
  rewrite lookup_insert_ne by done. specialize (Hk p Hp).
  destruct (w_inodes w !! p), (w_inodes w' !! p); [|done..]. simpl. f_equal. apply Hk.
Qed.

Lemma vinv_made B Cr E m s w q sb : vinv B Cr E m s -> made q sb (v_world s) w -> fs_ok w ->
  vinv B (q :: Cr) E m (with_world w s).
Proof.
  intros I Hk Ok. pose proof (proj1 (proj1 Hk)) as Es. destruct I as [? ? R K ? ? ? ? ? ? ? ? ? Mo ?]. split; simpl; try done.
  - rewrite refs_world by done. rewrite refs_perm. by eapply RI_made.
  - intros p n x Hm. destruct (K p n x Hm) as (i & Hi & <- & <-).
    destruct (made_inode' _ _ _ _ _ _ Hk Hi) as (_ & j & Hj & Hs). exists j. split; [done|]. split; apply Hs.
  - unfold mounts in *. simpl. by rewrite Es.
Qed.

Lemma lstep_made B Cr E m s w q sb : vinv B Cr E m s -> made q sb (v_world s) w -> fs_ok w ->
  same_tree (v_world s) w -> lstep m s m (with_world w s).
Proof.
  intros I Hk Ok Ht. split; [apply frame_world|]. split; [done|]. split; [apply Hk|]. split; [done|]. split; [done|].
  intros p j Ha Hj. destruct (attached_live _ _ _ _ _ _ I Ha) as (i & Hi & _).
  destruct (made_inode' _ _ _ _ _ _ Hk Hi) as (_ & j' & Hj' & (? & ? & _) & ? & ? & ? & _). simpl in Hj. simplify_eq.
  by exists i.
Qed.
(** ** A new inode enters the cache *)
Definition spare Cr E : Prop := Z.of_nat (length Cr) + Z.of_nat (length E) <= 2 ^ 29.
Ltac lite := unfold spare, light in *; simpl in *; lia.

Definition put_inode p j w : world F := mkW (<[p := j]> (w_inodes w)) (w_sbs w) (w_fs w).

Lemma vinv_edit B Cr E m s p i j : vinv B Cr E m s -> inodes s !! p = Some i -> same_file i j ->
  i_refcount j = i_refcount i -> (forall k, m !! k <> Some p) ->
  vinv B Cr E m (with_world (put_inode p j (v_world s)) s).
Proof.
  intros I Hi Hs Hc Hm. destruct I as [Ok ? R K ? ? ? ? ? ? ? ? ? Mo ?]. split; try done.
  - eapply fs_ok_edit; [exact Ok|]. by eapply edit_insert.
  - rewrite refs_world by done. by eapply counted_edit.
  - intros q n x Hx. simpl. rewrite lookup_insert_ne; [by apply K|]. intros <-. by apply Hm in Hx.
Qed.

Lemma lstep_edit m s p i j : fs_ok (v_world s) -> inodes s !! p = Some i -> same_file i j -> ~ attached m (v_world s) p ->
  lstep m s m (with_world (put_inode p j (v_world s)) s).
Proof.
  intros Ok Hi Hs Hp. split; [apply frame_world|]. split; [eapply fs_ok_edit; [exact Ok|by eapply edit_insert]|].
  do 3 (split; [done|]). intros x y Ha. simpl. rewrite lookup_insert_ne by (intros <-; done). intros Hy. by exists y.
Qed.

Lemma cached_name m w k p : TI m w -> m !! k = Some p -> attached m w p.
Proof.
  intros HT Hm. destruct k as [q n]. destruct (decide (name_norm n)) as [Hn|Hn].
  - by eapply attached_cached.
  - left. left. by apply (ti_mount _ _ HT _ _ _ Hm).
Qed.

Lemma par_real B Cr E m s q i : vinv B Cr E m s -> inodes s !! q = Some i -> par q = [q].
Proof.
  intros I Hq. unfold par. rewrite decide_False; [done|]. intros ->.
  destruct (fs_ok_null _ (vi_fs _ _ _ _ _ I)) as (_ & Hn & _). congruence.
Qed.

Lemma wp_link {A} B Cr E m s p q n qi ni j (k : Z -> M St A) Q :
  vinv B (p :: q :: Cr) E m s -> spare Cr E -> below 4 (v_held s) -> TI m (v_world s) ->
  attached m (v_world s) q -> ~ attached m (v_world s) p -> name_norm n ->
  inodes s !! q = Some qi -> inodes s !! p = Some ni -> p <> q ->
  i_sb ni = i_sb qi -> (fs_exact -> fs_entry (w_fs (v_world s)) (i_sb qi) (i_ino qi) n = Some (i_ino ni)) ->
  same_file ni j -> i_refcount j = i_refcount ni -> i_parent j = q -> i_name j = n ->
  (forall s', lstep m s m s' -> vinv B (q :: p :: q :: Cr) E m s' -> TI m (v_world s') -> wp (k (-1)) Q s') ->
  (forall s', lstep m s (<[(q, n) := p]> m) s' -> vinv B (p :: q :: Cr) E (<[(q, n) := p]> m) s' ->
     TI (<[(q, n) := p]> m) (v_world s') -> m !! (q, n) = None -> 
     (exists i, inodes s' !! p = Some i /\ same_attr j i) -> wp (k 0) Q s') ->
  wp (set_ino p j ;;; inode_get q ;;; mbind' (inode_cache_insert p) k) Q s.
Proof.
  intros I Hl Hb HT Hq Hp Hn Hqi Hni Hpq Esb Ee Hs Hc Hpar Hname Wf Ws.
  assert (forall k, m !! k <> Some p) as Hm by (intros x Hx; by apply Hp, (cached_name _ _ x)).
  unfold set_ino. apply wp_modify. set (s1 := with_world _ s).
  assert (vinv B (p :: q :: Cr) E m s1) as I1 by (by eapply vinv_edit).
  assert (lstep m s m s1) as L1 by (eapply lstep_edit; [by destruct I|done..]).
  eapply wp_get; [exact I1|lite|apply own_second|eapply below_mono; [done|lia]|].
  intros s2 V2 I2. pose proof (lstep_trans _ _ _ _ _ _ L1 (vstep_lstep m _ _ V2)) as L2.
  pose proof (TI_lstep _ _ _ HT L2) as HT2.
  destruct (ref_live _ _ _ _ _ p I2) as (j2 & Hj2 & _); [apply own_second|].
  assert (j2 = set_refcount (i_refcount j2) j) as Ej.
  { destruct V2 as (_ & _ & _ & _ & V2). destruct (V2 p j2 Hj2) as (i' & Hi' & ->). simpl in Hi'.
    rewrite lookup_insert_eq in Hi'. by simplify_eq. }
  assert (i_parent j2 = q /\ i_name j2 = n /\ i_sb j2 = i_sb ni /\ i_ino j2 = i_ino ni) as (P1 & P2 & P3 & P4).
  { rewrite Ej. destruct Hs as (? & ? & _). done. }
  assert (par q = [q]) as Pq by (by eapply (par_real _ _ _ _ s)).
  assert (q <> 0) by (intros ->; by rewrite (proj1 (fs_ok_null _ (vi_fs _ _ _ _ _ I))) in Hqi).
  eapply (wp_insert B (q :: Cr) E m s2 p j2); rewrite ?P1, ?P2, ?Pq.
  - eapply vinv_Cr; [|exact I2]. simpl. solve_Permutation.
  - lite.
  - by rewrite (vstep_held _ _ V2).
  - done.
  - done.
  - apply Hn.
  - intros s3 V3 I3. apply Wf.
    + eapply lstep_trans; [exact L2|by apply vstep_lstep].
    + eapply vinv_Cr; [|exact I3]. simpl. solve_Permutation.
    + by eapply TI_vstep.
  - intros s3 V3 Hmn I3. pose proof (TI_vstep _ _ _ HT2 V3) as HT3.
    pose proof (lstep_trans _ _ _ _ _ _ L2 (vstep_lstep m _ _ V3)) as L3.
    destruct (ref_live _ _ _ _ _ p I3 (own_head _ _ _ _)) as (j3 & Hj3 & _).
    destruct V3 as (_ & _ & _ & _ & V3). destruct (V3 p j3 Hj3) as (i' & Hi' & Ej3). rewrite Hj2 in Hi'. injection Hi' as <-.
    destruct (ref_live _ _ _ _ _ q I3 (own_second _ _ _ _ _)) as (q3 & Hq3 & _).
    destruct L3 as (Lf & Lo & Ls & Lt & _ & Li). destruct (Li q q3 Hq Hq3) as (qi' & Hqi' & A1 & A2 & A3).
    rewrite Hqi in Hqi'. injection Hqi' as <-.
    assert (forall x, attached m (v_world s3) x <-> attached m (v_world s) x) as Ha by (unfold attached, in_tree, is_root; by rewrite Ls).
    apply Ws; [|done| |done|].
    + split; [done|]. do 3 (split; [done|]). split; [by apply insert_subseteq|]. exact Li.
    + eapply (TI_insert m _ _ _ p q3 j3); [done|done| |done|done|by apply Ha|by rewrite Ha|done|done| |].
      * intros x Hx. destruct (attached_live _ _ _ _ _ x I3) as (? & ? & _); [|by eexists].
        apply (attached_weaken m _ (v_world s3)); [by apply insert_subseteq|done|exact Hx].
      * rewrite Ej3. simpl. congruence.
      * intros Hx. rewrite (Lt Hx), Ej3. simpl. rewrite A1, A2, P4. by apply Ee.
    + exists j3. split; [done|]. rewrite Ej3, Ej. done.
Qed.
(** ** Walks *)
Definition exec_ok w cred q : Prop :=
  exists i, w_inodes w !! q = Some i /\ vfs_permission i cred MAY_EXEC = 0.

(** the cache leads from [q] through [names] to [p], through directories that
    satisfy [ok] *)
Fixpoint cwalk m (ok : Z -> Prop) q (names : list (list Z)) p : Prop :=
  match names with
  | [] => p = q
  | n :: ns => ok q /\ exists x, m !! (q, n) = Some x /\ cwalk m ok x ns p
  end.

Lemma perm_value i cred mask : vfs_permission i cred mask = 0 \/ vfs_permission i cred mask = -1.
Proof. unfold vfs_permission. destruct (c_uid cred =? 0); [by left|]. repeat case_match; auto. Qed.

Lemma perm_same i j cred mask : same_attr i j -> vfs_permission j cred mask = vfs_permission i cred mask.
Proof. unfold vfs_permission. by intros (_ & _ & -> & -> & ->). Qed.

Lemma exec_ok_lstep B Cr E m s m' s' cred q : lstep m s m' s' -> vinv B Cr E m' s' -> attached m (v_world s) q ->
  exec_ok (v_world s) cred q -> exec_ok (v_world s') cred q.
Proof.
  intros L I Ha (i & Hi & Hp). destruct (attached_live _ _ _ _ _ _ I (attached_mono _ _ _ _ _ L Ha)) as (j & Hj & _).
  destruct L as (_ & _ & _ & _ & _ & Li). destruct (Li q j Ha Hj) as (i' & Hi' & Hs). simplify_eq.
  exists j. split; [done|]. by rewrite (perm_same _ _ _ _ Hs).
Qed.

Definition lookup_post B Cr E m s cred cur names (r : option Z) s' : Prop :=
  exists m', lstep m s m' s' /\ TI m' (v_world s') /\
    match r with
    | None => vinv B Cr E m' s'
    | Some p => vinv B (p :: Cr) E m' s' /\ attached m' (v_world s') p /\
                cwalk m' (exec_ok (v_world s') cred) cur names p
    end.

Lemma walk_fail B Cr E m0 s0 m s cred c0 names name cur (R : option Z -> St -> Prop) :
  (forall s', lookup_post B Cr E m0 s0 cred c0 names None s' -> R None s') ->
  lstep m0 s0 m s -> TI m (v_world s) -> vinv ({[name]} ∪ B) (cur :: Cr) E m s -> name ∉ B -> spare Cr E ->
  below 4 (v_held s) ->
  wp (slab_free name ;;; inode_put cur ;;; mret None) R s.
Proof.
  intros HR L HT I Hn Hl Hb. eapply wp_vfree; [done|done|]. intros s1 V1 I1.
  eapply wp_put; [exact I1|lite|rewrite (vstep_held _ _ V1); eapply below_mono; [done|lia]|].
  intros s2 V2 I2. apply wp_ret, HR. exists m. pose proof (vstep_trans _ _ _ V1 V2) as V.
  split; [eapply lstep_trans; [exact L|by apply vstep_lstep]|]. split; [by eapply TI_vstep|done].
Qed.

Lemma strlen_zero n : strlen n = 0 -> n = [].
Proof. destruct n; [done|]. rewrite strlen_cons. pose proof (strlen_nonneg n). lia. Qed.

(** the failed insertion of [vfs_lookup_impl] *)
Lemma walk_undo B Cr E m0 s0 m s cred c0 names name cur next (R : option Z -> St -> Prop) :
  (forall s', lookup_post B Cr E m0 s0 cred c0 names None s' -> R None s') ->
  lstep m0 s0 m s -> TI m (v_world s) -> vinv ({[name]} ∪ B) (cur :: next :: cur :: Cr) E m s -> name ∉ B -> spare Cr E ->
  below 4 (v_held s) ->
  wp (inode_put cur ;;; inode_put next ;;; slab_free name ;;; inode_put cur ;;; mret None) R s.
Proof.
  intros HR L HT I Hn Hl Hb. eapply wp_put; [exact I|lite|eapply below_mono; [done|lia]|]. intros s1 V1 I1.
  eapply wp_put; [exact I1|lite|rewrite (vstep_held _ _ V1); eapply below_mono; [done|lia]|]. intros s2 V2 I2.
  pose proof (vstep_trans _ _ _ V1 V2) as V.
  apply (walk_fail B Cr E m0 s0 m s2 cred c0 names); [done| |by eapply TI_vstep|done|done|done|by rewrite (vstep_held _ _ V)].
  eapply lstep_trans; [exact L|by apply vstep_lstep].
Qed.

Lemma lookup_loop_ok fuel : forall B Cr E m s cred name cur rel,
  (length rel < fuel)%nat -> vinv ({[name]} ∪ B) (cur :: Cr) E m s -> name ∉ B -> spare Cr E -> below 4 (v_held s) ->
  TI m (v_world s) -> attached m (v_world s) cur -> Forall name_norm (components rel) ->
  wp (lookup_loop fuel cred name cur rel) (lookup_post B Cr E m s cred cur (components rel)) s.
Proof.
  induction fuel as [|fuel IH]; intros B Cr E m s cred name cur rel Hf I Hn Hl Hb HT Ha Hc; [lia|].
  assert (lstep m s m s) as L0 by (apply vstep_lstep, vstep_refl; by destruct I).
  cbn [lookup_loop]. destruct rel as [|c rel].
  { eapply wp_vfree; [done|done|]. intros s1 V1 I1. apply wp_ret. exists m.
    split; [by apply vstep_lstep|]. split; [by eapply TI_vstep|]. split; [done|]. split; [|done].
    eapply attached_mono; [by apply vstep_lstep|done]. }
  destruct (take_seg (c :: rel)) as [seg rest] eqn:Et. apply take_seg_app in Et as (Et & Hs & Hr).
  destruct (strlen seg =? 0) eqn:E0; breflect.
  { apply strlen_zero in E0 as ->. simpl in Et. subst rest. destruct Hr as [|[= ->]]; [done|].
    rewrite components_slash in *. apply IH; [simpl in Hf; lia|done..]. }
  assert (seg <> []) as Hne by (intros ->; done).
  rewrite Et, components_seg in * by done. apply Forall_cons in Hc as [Hsn Hc].
  destruct (VFS_MAX_PATH_LEN <=? strlen seg); [by eapply walk_fail; [intros s' HP; exact HP|..]|].
  destruct (ref_live _ _ _ _ _ cur I (own_head _ _ _ _)) as (ci & Hci & Hc0).
  eapply wp_ino; [exact Hci|]. destruct (perm_value ci cred MAY_EXEC) as [Hp|Hp]; rewrite Hp; [|by eapply walk_fail; [intros s' HP; exact HP|..]].
  change (0 <? 0) with false. cbn iota.
  set (rest' := match rest with [] => [] | _ => _ end).
  assert (components rest' = components rest) as Er.
  { unfold rest'. destruct rest as [|d rest]; [done|]. destruct (d =? slash) eqn:Ed; [|done]. breflect. subst d.
    by rewrite components_slash. }
  assert (length rest' < fuel)%nat as Hf'.
  { rewrite length_app in Hf. destruct seg; [done|]. simpl in Hf.
    assert (length rest' <= length rest)%nat; [|lia].
    unfold rest'. destruct rest as [|d rest]; [done|]. destruct (d =? slash); simpl; lia. }
  assert (forall m1 s1 next, lstep m s m1 s1 -> TI m1 (v_world s1) -> m1 !! (cur, seg) = Some next ->
    vinv ({[name]} ∪ B) (next :: cur :: Cr) E m1 s1 ->
    wp (inode_put cur ;;; lookup_loop fuel cred name next rest')
       (lookup_post B Cr E m s cred cur (seg :: components rest)) s1) as Hnext.
  { intros m1 s1 next L1 HT1 Hm I1. eapply (wp_put ({[name]} ∪ B) (next :: Cr) E m1).
    - eapply vinv_Cr; [|exact I1]. solve_Permutation.
    - lite.
    - rewrite (frame_held _ _ (proj1 L1)). eapply below_mono; [done|lia].
    - intros s2 V2 I2. pose proof (lstep_trans _ _ _ _ _ _ L1 (vstep_lstep m1 _ _ V2)) as L2.
      assert (attached m1 (v_world s2) next) as Hnx by (by eapply attached_cached).
      eapply wp_conseq.
      { eapply (IH B Cr E m1 s2 cred name next rest'); [done|done|done|done| |by eapply TI_vstep|done|by rewrite Er].
        rewrite (frame_held _ _ (proj1 L2)). done. }
      intros r s3 (m' & L3 & HT3 & HR). exists m'. pose proof (lstep_trans _ _ _ _ _ _ L2 L3) as L.
      split; [done|]. split; [done|]. destruct r as [p|]; [|done]. destruct HR as (I3 & Hp3 & Hw).
      split; [done|]. split; [done|]. simpl. split.
      + eapply (exec_ok_lstep _ _ _ _ _ _ _ _ _ L I3 Ha). by exists ci.
      + exists next. rewrite <- Er. split; [|done]. eapply lookup_weaken; [done|apply L3]. }
  eapply wp_find; [exact I|lite|done|]. intros p s1 V1 [[-> I1]|(Hp0 & Hm & I1)].
  2:{ rewrite (proj2 (Z.eqb_neq p 0)) by done. apply wp_bind, wp_ret. apply (Hnext m); [by apply vstep_lstep|by eapply TI_vstep|done..]. }
  pose proof (vstep_lstep m _ _ V1) as L1. pose proof (TI_vstep _ _ _ HT V1) as HT1.
  assert (below 4 (v_held s1)) as Hb1 by (by rewrite (vstep_held _ _ V1)).
  destruct (ref_live _ _ _ _ _ cur I1 (own_head _ _ _ _)) as (c1 & Hc1 & _).
  change (0 =? 0) with true. cbn iota. apply wp_bind. eapply wp_ino; [exact Hc1|].
  match goal with |- wp _ ?X _ => set (R := X) end.
  assert (forall s', lookup_post B Cr E m s cred cur (seg :: components rest) None s' -> R None s') as HR by (intros s' HP; exact HP).
  destruct (has_iop c1 OpLookup); simpl negb; cbn iota; [|by eapply walk_fail].
  apply wp_bind. unfold in_world at 1. apply wp_zoom.
  eapply wp_conseq; [apply (fs_lookup_ok _ cur c1 seg); [by destruct I1|done|done]|].
  intros [r next] w2 (Ok2 & Ht2 & H2). cbn [fst snd] in *.
  destruct ((r <? 0) || (next =? 0)) eqn:Er2.
  { apply (walk_fail B Cr E m s m _ cred cur (seg :: components rest)); [done| | |by eapply vinv_keeps|done|done|done].
    - eapply lstep_trans; [exact L1|by apply lstep_keeps].
    - eapply TI_lstep; [exact HT1|by apply lstep_keeps]. }
  destruct H2 as (Hmade & ni & Hni & Hent).
  set (s2 := with_world w2 s1).
  assert (vinv ({[name]} ∪ B) (next :: cur :: Cr) E m s2) as I2 by (by eapply vinv_made).
  assert (lstep m s1 m s2) as L2 by (by eapply lstep_made).
  destruct (made_inode' _ _ _ _ _ _ Hmade Hc1) as (Hne2 & c2 & Hc2 & ((E1 & E2 & _) & _)).
  assert (i_sb ni = i_sb c1) as Esb by (destruct Hmade as (_ & _ & i' & Hi' & _ & Hsb); congruence).
  assert (attached m (v_world s2) cur) as Ha2 by (eapply attached_mono; [eapply lstep_trans; [exact L1|exact L2]|done]).
  assert (~ attached m (v_world s2) next) as Hna.
  { intros Hx. assert (attached m (v_world s1) next) as Hy.
    { eapply attached_weaken; [reflexivity|symmetry; apply L2|exact Hx]. }
    destruct (attached_live _ _ _ _ _ _ I1 Hy) as (? & Hi & _). destruct Hmade as (_ & Hnone & _). simpl in *. congruence. }
  pose proof (lstep_trans _ _ _ _ _ _ L1 L2) as L02. pose proof (TI_lstep _ _ _ HT1 L2) as HT2.
  eapply wp_ino; [exact Hni|].
  eapply (wp_link ({[name]} ∪ B) Cr E m s2 next cur seg c2 ni (set_key cur seg ni)); try done.
  - congruence.
  - intros Hx. rewrite E1, E2. rewrite (Ht2 Hx). by apply Hent.
  - intros s3 L3 I3 HT3. change (-1 <? 0) with true. cbn iota.
    eapply (walk_undo B Cr E m s m _ cred cur (seg :: components rest)); [done| |done|done|done|done|].
    + eapply lstep_trans; [exact L02|done].
    + rewrite (frame_held _ _ (proj1 L3)). done.
  - intros s3 L3 I3 HT3 Hm3 _. change (0 <? 0) with false. cbn iota. apply wp_ret. unfold R.
    apply (Hnext (<[(cur, seg) := next]> m)); [eapply lstep_trans; [exact L02|done]|done|apply lookup_insert_eq|done].
Qed.
#[local] Arguments lookup_loop : simpl never.

(** ** Mount points *)
Lemma mount_ind' (P : mount -> Prop) :
  (forall p path sb cs, Forall P cs -> P (Mount p path sb cs)) -> forall t, P t.
Proof.
  intros IH. fix go 1. intros [p path sb cs]. apply IH. induction cs as [|c cs IHcs]; constructor; [apply go|exact IHcs].
Qed.

Lemma find_mount_cases t path : find_mount t path = t \/
  exists c, c ∈ m_child t /\ mount_path_match (m_path c) path = true /\ find_mount t path = find_mount c path.
Proof.
  destruct t as [p mp sb cs]. simpl. generalize (Mount p mp sb cs) as t. intros t.
  induction cs as [|c cs IH]; [by left|]. destruct (mount_path_match (m_path c) path) eqn:Em.
  - right. exists c. split; [apply elem_of_cons; by left|done].
  - destruct IH as [->|(d & Hd & ? & ->)]; [by left|]. right. exists d. rewrite elem_of_cons. auto.
Qed.

Lemma mount_list_child t c x : c ∈ m_child t -> x ∈ mount_list c -> x ∈ mount_list t.
Proof.
  destruct t as [p mp sb cs]. simpl. intros Hc Hx. apply elem_of_cons. right.
  apply list_elem_of_In, in_concat. exists (mount_list c). split; [|by apply list_elem_of_In].
  apply list_elem_of_In, list_elem_of_fmap. by exists c.
Qed.
Lemma mount_list_self t : t ∈ mount_list t.
Proof. destruct t. apply elem_of_cons. by left. Qed.

Lemma find_mount_in t path : find_mount t path ∈ mount_list t /\
  (find_mount t path = t \/ mount_path_match (m_path (find_mount t path)) path = true).
Proof.
  induction t as [p mp sb cs IH] using mount_ind'.
  destruct (find_mount_cases (Mount p mp sb cs) path) as [E|(c & Hc & Hm & E)]; rewrite E.
  - split; [apply mount_list_self|by left].
  - rewrite Forall_forall in IH. destruct (IH c Hc) as [H1 H2]. split; [by eapply mount_list_child|].
    right. destruct H2 as [->|H2]; done.
Qed.

(** the names of a path below a mount point *)
Definition names_below (mnt path : list Z) : list (list Z) := components (drop (length mnt) path).

Lemma match_below mnt path : mount_path_match mnt path = true ->
  components path = components mnt ++ names_below mnt path.
Proof.
  unfold mount_path_match, names_below. intros [Ht Hd]%andb_true_iff. apply bool_decide_eq_true in Ht.
  rewrite <- (take_drop (length mnt) path) at 1. rewrite Ht.
  destruct (drop (length mnt) path) as [|c r]; [by rewrite !app_nil_r|]. breflect. subst c.
  by rewrite components_app, components_slash.
Qed.

Lemma below_norm t l : m_path t = [slash] -> path_norm l ->
  Forall name_norm (names_below (m_path (find_mount t (render l))) (render l)).
Proof.
  intros Ht Hl. destruct (find_mount_in t (render l)) as [_ [->|Hm%match_below]].
  - rewrite Ht. unfold names_below. rewrite <- (components_render l Hl) in Hl.
    destruct l as [|n l]; [constructor|]. simpl in *. by rewrite components_slash in Hl.
  - rewrite components_render in Hm by done. unfold path_norm in Hl. rewrite Hm in Hl. by apply Forall_app in Hl as [_ ?].
Qed.

(** where the walk for an absolute path starts, and the names it follows *)
Definition walk_start s (path : list Z) : option (Z * list (list Z)) :=
  match v_root s with
  | None => None
  | Some t =>
    let mnt := find_mount t path in
    match w_sbs (v_world s) !! m_sb mnt with
    | Some b => Some (sb_root b, names_below (m_path mnt) path)
    | None => None
    end
  end.
Definition cur_task s : option task := match v_cur s with Some n => v_tasks s !! n | None => None end.
Definition cur_cred s : credentials := match cur_task s with Some t => t_cred t | None => mkCred 0 0 [] 0 end.

(** the walk of [path] ends in [p] *)
Definition found m s path p : Prop :=
  exists start names, walk_start s path = Some (start, names) /\
    cwalk m (exec_ok (v_world s) (cur_cred s)) start names p.

Definition walk_post B Cr E m s path (r : option Z) s' : Prop :=
  exists m', lstep m s m' s' /\ TI m' (v_world s') /\
    match r with
    | None => vinv B Cr E m' s'
    | Some p => vinv B (p :: Cr) E m' s' /\ attached m' (v_world s') p /\ found m' s' path p
    end.

Lemma walk_start_frame m s m' s' path : lstep m s m' s' -> walk_start s' path = walk_start s path.
Proof. intros ((h & w & t & ->) & _ & Es & _). unfold walk_start. simpl in *. by rewrite Es. Qed.
Lemma cur_cred_frame s s' : frame s s' -> cur_cred s' = cur_cred s /\ cur_task s' = cur_task s.
Proof. by intros (h & w & t & ->). Qed.

Lemma wp_get_task {A} (k : option (nat * task) -> M St A) Q s :
  (cur_task s = None -> wp (k None) Q s) ->
  (forall n t, v_cur s = Some n -> v_tasks s !! n = Some t -> cur_task s = Some t -> wp (k (Some (n, t))) Q s) ->
  wp (mbind' get_task k) Q s.
Proof.
  intros W0 W1. unfold get_task. apply wp_gets. unfold cur_task in *.
  destruct (v_cur s) as [n|]; [|by apply W0]. destruct (v_tasks s !! n) as [t|] eqn:Et; [by apply W1|by apply W0].
Qed.

Lemma walk_post_none B Cr E m s path m1 s1 : lstep m s m1 s1 -> TI m1 (v_world s1) -> vinv B Cr E m1 s1 ->
  walk_post B Cr E m s path None s1.
Proof. intros. by exists m1. Qed.

Lemma vfs_lookup_impl_ok B Cr E m s l : vinv B Cr E m s -> TI m (v_world s) -> spare Cr E -> below 4 (v_held s) ->
  path_norm l -> wp (vfs_lookup_impl (render l)) (walk_post B Cr E m s (render l)) s.
Proof.
  intros I HT Hl Hb Hn. assert (lstep m s m s) as L0 by (apply vstep_lstep, vstep_refl; by destruct I).
  assert (walk_post B Cr E m s (render l) None s) as Hnone by (by exists m).
  unfold vfs_lookup_impl. rewrite head_render. change (default 0 (Some slash) =? slash) with true. cbn iota.
  apply wp_bind. unfold vfs_find_mount. rewrite head_render. change (negb (default 0 (Some slash) =? slash)) with false. cbn iota.
  apply wp_bind, wp_gets, wp_ret. destruct (v_root s) as [t|] eqn:Er; [|by do 2 apply wp_ret]. simpl.
  set (mnt := find_mount t (render l)).
  destruct (vi_mounts _ _ _ _ _ I) as (_ & _ & Hmo). destruct (Hmo mnt) as [b Hsb].
  { unfold mounts. rewrite Er. apply find_mount_in. }
  destruct (m_sb mnt =? 0); [by do 2 apply wp_ret|]. unfold sblk. apply wp_bind, wp_gets. rewrite Hsb. apply wp_ret.
  destruct (sb_root b =? 0); [by do 2 apply wp_ret|]. apply wp_ret.
  assert (attached m (v_world s) (sb_root b)) as Ha by (by eapply attached_root).
  set (rel := match drop (length (m_path mnt)) (render l) with [] => [] | _ => _ end).
  assert (components rel = names_below (m_path mnt) (render l)) as Ec.
  { unfold rel, names_below. destruct (drop _ _) as [|c r]; [done|]. destruct (c =? slash) eqn:E1; [|done]. breflect.
    subst c. by rewrite components_slash. }
  assert (walk_start s (render l) = Some (sb_root b, components rel)) as Ews.
  { unfold walk_start. rewrite Er. fold mnt. by rewrite Hsb, Ec. }
  eapply wp_get; [exact I|lite|by apply attached_ref|eapply below_mono; [done|lia]|]. intros s1 V1 I1.
  pose proof (vstep_lstep m _ _ V1) as L1. pose proof (TI_vstep _ _ _ HT V1) as HT1.
  assert (below 4 (v_held s1)) as Hb1 by (by rewrite (vstep_held _ _ V1)).
  destruct rel as [|c rel'] eqn:Erel.
  { apply wp_ret. exists m. split; [done|]. split; [done|]. split; [done|]. split; [by eapply attached_mono|].
    exists (sb_root b), []. by rewrite (walk_start_frame _ _ _ _ _ L1). }
  eapply wp_valloc; [exact I1|unfold VFS_MAX_PATH_LEN; lia| |].
  { intros s2 V2 I2. change (0 =? 0) with true. cbn iota. pose proof (vstep_trans _ _ _ V1 V2) as V.
    eapply wp_put; [exact I2|lite|rewrite (vstep_held _ _ V); eapply below_mono; [done|lia]|].
    intros s3 V3 I3. pose proof (vstep_trans _ _ _ V V3) as V'. apply wp_ret. 
    exact (walk_post_none _ _ _ _ _ _ _ _ (vstep_lstep m _ _ V') (TI_vstep _ _ _ HT V') I3). }
  intros name s2 V2 Hn0 HnB I2. rewrite (proj2 (Z.eqb_neq name 0)) by done.
  pose proof (lstep_trans _ _ _ _ _ _ L1 (vstep_lstep m _ _ V2)) as L2. pose proof (TI_vstep _ _ _ HT1 V2) as HT2.
  assert (below 4 (v_held s2)) as Hb2 by (by rewrite (vstep_held _ _ V2)).
  apply wp_get_task.
  - intros _. eapply (walk_fail B Cr E m s m s2 (cur_cred s) 0 [[]]); [|done|done|done|done|done|done].
    intros s' (m' & L & HT' & I'). by exists m'.
  - intros n ts _ _ Et. eapply wp_conseq.
    { eapply (lookup_loop_ok _ B Cr E m s2 (t_cred ts) name (sb_root b) (c :: rel')); [lia|done|done|done|done|done| |].
      - by eapply attached_mono.
      - rewrite Ec. apply below_norm; [|done]. by apply (vi_top _ _ _ _ _ I). }
    intros r s3 (m' & L3 & HT3 & HR). pose proof (lstep_trans _ _ _ _ _ _ L2 L3) as L. exists m'. split; [done|]. split; [done|].
    destruct r as [p|]; [|done]. destruct HR as (I3 & Ha3 & Hw). split; [done|]. split; [done|].
    exists (sb_root b), (components (c :: rel')). rewrite (walk_start_frame _ _ _ _ _ L). split; [done|].
    destruct (cur_cred_frame s2 s3) as [-> _]; [apply L3|]. unfold cur_cred. by rewrite Et.
Qed.

Lemma wp_cwd_text {A} (k : option (list Z) -> M St A) Q s :
  wp (k (t_cwd_path <$> cur_task s)) Q s -> wp (mbind' cwd_text k) Q s.
Proof.
  intros W. unfold cwd_text. apply wp_bind, wp_get_task.
  - intros E. apply wp_ret. by rewrite E in W.
  - intros n t _ _ E. apply wp_ret. by rewrite E in W.
Qed.

Lemma cur_cwd_ok B Cr E m s : vinv B Cr E m s -> cwd_ok (t_cwd_path <$> cur_task s).
Proof.
  intros I. unfold cur_task. destruct (v_cur s) as [n|]; [|done]. destruct (v_tasks s !! n) as [t|] eqn:Et; [|done].
  pose proof (vi_tasks _ _ _ _ _ I) as Ht. rewrite Forall_lookup in Ht. apply (Ht n t Et).
Qed.

(** the walk that a path stands for *)
Definition norm_path s path : option (list Z) := vfs_normalize (t_cwd_path <$> cur_task s) path.

Lemma norm_path_frame s s' path : frame s s' -> norm_path s' path = norm_path s path.
Proof. intros Hf. unfold norm_path. by destruct (cur_cred_frame _ _ Hf) as [_ ->]. Qed.

Definition vlookup_post B Cr E m s path (r : option Z) s' : Prop :=
  exists m', lstep m s m' s' /\ TI m' (v_world s') /\
    match r with
    | None => vinv B Cr E m' s'
    | Some p => vinv B (p :: Cr) E m' s' /\ attached m' (v_world s') p /\
                exists norm, norm_path s path = Some norm /\ found m' s' norm p
    end.

(** a walk stays where it was while the files and mounts on its way do *)
Lemma found_mono B Cr E m s m' s' path p : v_root s' = v_root s -> cur_cred s' = cur_cred s -> w_sbs (v_world s') = w_sbs (v_world s) -> m ⊆ m' ->
  (forall q j, attached m (v_world s) q -> inodes s' !! q = Some j -> exists i, inodes s !! q = Some i /\ same_attr i j) ->
  vinv B Cr E m' s' -> TI m (v_world s) -> found m s path p -> found m' s' path p.
Proof.
  intros Hr Hcr Es Hm Hi I HT (start & names & Hs & Hw). exists start, names.
  assert (walk_start s' path = walk_start s path) as -> by (unfold walk_start; by rewrite Hr, Es).
  split; [done|]. rewrite Hcr.
  assert (attached m (v_world s) start) as Ha.
  { unfold walk_start in Hs. destruct (v_root s) as [t|]; [|done]. destruct (_ !! _) as [b|] eqn:Eb; [|done].
    simplify_eq. by eapply attached_root. }
  clear Hs. revert start Ha Hw. induction names as [|n names IH]; intros start Ha; simpl; [done|].
  intros ((i & Hsi & Hp) & x & Hx & Hw).
  assert (attached m' (v_world s') start) as Ha' by (by eapply attached_weaken).
  split.
  - destruct (attached_live _ _ _ _ _ _ I Ha') as (j & Hj & _). destruct (Hi start j Ha Hj) as (i' & Hi' & Hs).
    simplify_eq. exists j. split; [done|]. by rewrite (perm_same _ _ _ _ Hs).
  - exists x. split; [by eapply lookup_weaken|]. apply IH; [|done]. by eapply cached_name.
Qed.

Lemma found_vstep B Cr E m s s' path p : vstep s s' -> vinv B Cr E m s' -> TI m (v_world s) -> found m s path p ->
  found m s' path p.
Proof.
  intros V I HT. destruct (vstep_lstep m _ _ V) as (Hf & _ & ? & _ & ? & ?).
  eapply found_mono; [|by apply cur_cred_frame|done..]. by destruct Hf as (h & w & t & ->).
Qed.

Lemma vfs_lookup_ok B Cr E m s path : vinv B Cr E m s -> TI m (v_world s) -> spare Cr E -> below 4 (v_held s) ->
  wp (vfs_lookup path) (vlookup_post B Cr E m s path) s.
Proof.
  intros I HT Hl Hb. unfold vfs_lookup.
  eapply wp_valloc; [exact I|unfold BUFSZ; lia| |].
  { intros s1 V1 I1. apply wp_ret. exists m. split; [by apply vstep_lstep|]. split; [by eapply TI_vstep|done]. }
  intros nbuf s1 V1 Hn0 HnB I1. rewrite (proj2 (Z.eqb_neq nbuf 0)) by done.
  pose proof (TI_vstep _ _ _ HT V1) as HT1. pose proof (vstep_lstep m _ _ V1) as L1.
  apply wp_cwd_text. destruct (vfs_normalize _ path) as [norm|] eqn:En.
  - destruct (normalize_render _ _ _ (cur_cwd_ok _ _ _ _ _ I1) En) as (l & Hnl & -> & _).
    apply wp_bind. eapply wp_conseq.
    { eapply vfs_lookup_impl_ok; [exact I1|done|done|by rewrite (vstep_held _ _ V1)|done]. }
    intros r s2 (m' & L2 & HT2 & HR). destruct r as [p|].
    + destruct HR as (I2 & Ha2 & Hf). eapply wp_vfree; [exact I2|done|]. intros s3 V3 I3. apply wp_ret. exists m'.
      split; [eapply lstep_trans; [exact L1|]; eapply lstep_trans; [exact L2|by apply vstep_lstep]|].
      split; [by eapply TI_vstep|]. split; [done|]. split; [eapply attached_mono; [by apply vstep_lstep|done]|].
      exists (render l). split; [by rewrite <- (norm_path_frame _ _ _ (proj1 V1))|].
      by eapply found_vstep.
    + eapply wp_vfree; [exact HR|done|]. intros s3 V3 I3. apply wp_ret. exists m'.
      split; [eapply lstep_trans; [exact L1|]; eapply lstep_trans; [exact L2|by apply vstep_lstep]|].
      split; [by eapply TI_vstep|done].
  - eapply wp_vfree; [exact I1|done|]. intros s2 V2 I2. apply wp_ret. exists m.
    split; [eapply lstep_trans; [exact L1|by apply vstep_lstep]|]. split; [by eapply TI_vstep|done].
Qed.
End Walk.
