(* ===== verification/VfsDir.v ===== *)
(** Creating and removing directory entries: vfs_lookup_parent, vfs_create,
    vfs_mkdir, vfs_unlink, vfs_rmdir and vfs_truncate under the invariant. *)
From stdpp Require Import base gmap list strings.
From Stdlib Require Import ZArith Lia.
From S2P Require Import Prelude HashMap VfsPath Vfs VfsInv VfsCache VfsWalk.
Open Scope Z_scope.

Lemma take_seg_slash a b : slash ∉ a -> take_seg (a ++ slash :: b) = (a, slash :: b).
Proof.
  induction a as [|c a IH]; simpl; [done|]. intros [Hc Ha]%not_elem_of_cons.
  rewrite (proj2 (Z.eqb_neq c slash)) by done. by rewrite IH.
Qed.

Section Dir.
Context {F C T D H : Type} `{FL : FsLaws F} `{CD : CharDriver C}.
Context `{IT : !KvTable ikey T} `{DT : !KvTable (list Z) D} `{HH : Heap H}.
Abbreviation St := (vfs_state F C T D H).
Implicit Types (s : St) (w : world F) (m : gmap ikey Z) (B : gset Z) (Cr E : list Z).
Abbreviation inodes s := (w_inodes (v_world s)).
Ltac lite := unfold spare, light in *; simpl in *; lia.

(** ** The directory tree that a walk follows *)
Fixpoint walk (f : F) (sb d : Z) (names : list (list Z)) : option Z :=
  match names with
  | [] => Some d
  | n :: ns => match fs_entry f sb d n with Some x => walk f sb x ns | None => None end
  end.

Lemma cwalk_walk B Cr E m s ok names : fs_exact -> vinv B Cr E m s -> TI m (v_world s) -> Forall name_norm names ->
  forall q p qi, cwalk m ok q names p -> inodes s !! q = Some qi ->
  exists pi, inodes s !! p = Some pi /\ i_sb pi = i_sb qi /\ walk (w_fs (v_world s)) (i_sb qi) (i_ino qi) names = Some (i_ino pi).
Proof.
  intros Hx0 I HT Hn. induction Hn as [|n names Hn _ IH]; intros q p qi; simpl.
  - intros -> Hq. by exists qi.
  - intros (_ & x & Hx & Hw) Hq. destruct (ref_live _ _ _ _ _ x I (cached_ref _ _ _ _ _ Hx)) as (xi & Hxi & _).
    destruct (ti_entry _ _ HT _ _ _ _ _ Hx Hn Hq Hxi) as [E1 E2]. rewrite (E2 Hx0). clear E2.
    destruct (IH x p xi Hw Hxi) as (pi & Hp & E2 & E3). exists pi. rewrite E1 in *. done.
Qed.

(** ** The parent of a path *)
Lemma split_last l n : path_norm (l ++ [n]) ->
  take_seg (back_while (Z.eqb slash) (rev (render (l ++ [n])))) =
  (rev n, slash :: rev (if decide (l = []) then [] else render l)).
Proof.
  intros Hl. rewrite strip_render by done. apply path_norm_snoc in Hl as [_ (_ & Hs & _)].
  rewrite render_snoc, rev_app_distr. simpl. rewrite <- app_assoc. simpl. apply take_seg_slash.
  intros Hx. apply Hs, list_elem_of_In, in_rev. by apply list_elem_of_In.
Qed.

Lemma render_prefix l n : strlen (render l) <= strlen (render (l ++ [n])) /\ strlen n < strlen (render (l ++ [n])).
Proof.
  rewrite render_snoc, strlen_app, strlen_cons. pose proof (strlen_nonneg n). case_decide as El; [subst|].
  - change (strlen (render [])) with 1. change (strlen []) with 0. lia.
  - pose proof (strlen_nonneg (render l)). lia.
Qed.

Definition parent_post B Cr E m s path (r : option (Z * list Z)) s' : Prop :=
  exists m', lstep m s m' s' /\ TI m' (v_world s') /\
    match r with
    | None => vinv B Cr E m' s'
    | Some (p, n) => vinv B (p :: Cr) E m' s' /\ attached m' (v_world s') p /\ name_norm n /\
        strlen n < VFS_MAX_PATH_LEN /\
        exists l, norm_path s path = Some (render (l ++ [n])) /\ path_norm l /\ found m' s' (render l) p
    end.

Lemma norm_path_render B Cr E m s l : vinv B Cr E m s -> path_norm l -> strlen (render l) < VFS_MAX_PATH_LEN ->
  norm_path s (render l) = Some (render l).
Proof. intros I Hn Hl. apply normalize_id; [by eapply cur_cwd_ok|done..]. Qed.

Lemma parent_none B Cr E m s path s1 : TI m (v_world s) -> vstep s s1 -> vinv B Cr E m s1 ->
  parent_post B Cr E m s path None s1.
Proof. intros HT V I. exists m. split; [by apply vstep_lstep|]. split; [by eapply TI_vstep|done]. Qed.

Lemma lookup_parent_impl_ok B Cr E m s path l : vinv B Cr E m s -> TI m (v_world s) -> spare Cr E -> below 4 (v_held s) ->
  norm_path s path = Some (render l) -> path_norm l -> strlen (render l) < VFS_MAX_PATH_LEN ->
  wp (vfs_lookup_parent_impl (render l)) (parent_post B Cr E m s path) s.
Proof.
  intros I HT Hl Hb Enp Hn Hlen. assert (parent_post B Cr E m s path None s) as Hnone.
  { apply parent_none; [done|by apply vstep_refl; destruct I|done]. }
  unfold vfs_lookup_parent_impl. destruct (_ || _) eqn:Eg; [by apply wp_ret|].
  destruct l as [|n l' _] using rev_ind; [by apply wp_ret|].
  rewrite split_last by done. cbn iota beta. rewrite rev_involutive.
  destruct (render_prefix l' n) as [Hp1 Hp2].
  destruct ((strlen n =? 0) || (VFS_MAX_PATH_LEN <=? strlen n)) eqn:En; [by apply wp_ret|].
  eapply wp_valloc; [exact I|unfold VFS_MAX_PATH_LEN; lia| |].
  { intros s1 V1 I1. apply wp_ret. by apply parent_none. }
  intros pp s1 V1 Hp0 HpB I1. rewrite (proj2 (Z.eqb_neq pp 0)) by done.
  pose proof (TI_vstep _ _ _ HT V1) as HT1. pose proof (vstep_lstep m _ _ V1) as L1.
  set (rp := rev (if decide (l' = []) then [] else render l')).
  destruct (negb (strlen rp =? 0) && (VFS_MAX_PATH_LEN <=? strlen rp)).
  { eapply wp_vfree; [exact I1|done|]. intros s2 V2 I2. apply wp_ret. apply parent_none; [done| |done].
    by eapply vstep_trans. }
  pose proof (path_norm_snoc _ _ Hn) as [Hn' Hnn].
  replace (if strlen rp =? 0 then [slash] else rev rp) with (render l').
  2:{ unfold rp. case_decide as El; [by subst l'|]. rewrite strlen_rev, rev_involutive.
      pose proof (render_ne l'). destruct (strlen (render l') =? 0) eqn:Ez; [|done]. breflect. by apply strlen_zero in Ez. }
  apply wp_bind. eapply wp_conseq.
  { eapply vfs_lookup_ok; [exact I1|done|done|by rewrite (vstep_held _ _ V1)]. }
  intros r s2 (m' & L2 & HT2 & HR). pose proof (lstep_trans _ _ _ _ _ _ L1 L2) as L.
  destruct r as [p|].
  - destruct HR as (I2 & Ha2 & norm & En2 & Hf2). rewrite (norm_path_render _ _ _ _ _ _ I1 Hn') in En2 by lia.
    injection En2 as <-. eapply wp_vfree; [exact I2|done|]. intros s3 V3 I3. apply wp_ret. exists m'.
    split; [eapply lstep_trans; [exact L|by apply vstep_lstep]|]. split; [by eapply TI_vstep|]. simpl.
    split; [done|]. split; [eapply attached_mono; [by apply vstep_lstep|done]|]. split; [done|]. split; [lia|].
    exists l'. split; [done|]. split; [done|]. by eapply found_vstep.
  - eapply wp_vfree; [exact HR|done|]. intros s3 V3 I3. apply wp_ret. exists m'.
    split; [eapply lstep_trans; [exact L|by apply vstep_lstep]|]. split; [by eapply TI_vstep|done].
Qed.

Lemma vfs_lookup_parent_ok B Cr E m s path : vinv B Cr E m s -> TI m (v_world s) -> spare Cr E -> below 4 (v_held s) ->
  wp (vfs_lookup_parent path) (parent_post B Cr E m s path) s.
Proof.
  intros I HT Hl Hb. unfold vfs_lookup_parent.
  eapply wp_valloc; [exact I|unfold BUFSZ; lia| |].
  { intros s1 V1 I1. apply wp_ret. by apply parent_none. }
  intros nbuf s1 V1 Hn0 HnB I1. rewrite (proj2 (Z.eqb_neq nbuf 0)) by done.
  pose proof (TI_vstep _ _ _ HT V1) as HT1. pose proof (vstep_lstep m _ _ V1) as L1.
  apply wp_cwd_text. destruct (vfs_normalize _ path) as [norm|] eqn:En.
  - destruct (normalize_render _ _ _ (cur_cwd_ok _ _ _ _ _ I1) En) as (l & Hnl & -> & Hlen).
    apply wp_bind. eapply wp_conseq.
    { eapply lookup_parent_impl_ok; [exact I1|done|done|by rewrite (vstep_held _ _ V1)|exact En|done|done]. }
    intros r s2 (m' & L2 & HT2 & HR). destruct r as [[p n]|].
    + destruct HR as (I2 & Ha2 & Hnn & Hln & l' & Enp & Hnl' & Hf). eapply wp_vfree; [exact I2|done|]. intros s3 V3 I3.
      apply wp_ret. exists m'.
      split; [eapply lstep_trans; [exact L1|]; eapply lstep_trans; [exact L2|by apply vstep_lstep]|].
      split; [by eapply TI_vstep|]. split; [done|]. split; [eapply attached_mono; [by apply vstep_lstep|done]|].
      split; [done|]. split; [done|]. exists l'. split; [by rewrite <- (norm_path_frame _ _ _ (proj1 V1))|].
      split; [done|]. by eapply found_vstep.
    + eapply wp_vfree; [exact HR|done|]. intros s3 V3 I3. apply wp_ret. exists m'.
      split; [eapply lstep_trans; [exact L1|]; eapply lstep_trans; [exact L2|by apply vstep_lstep]|].
      split; [by eapply TI_vstep|done].
  - eapply wp_vfree; [exact I1|done|]. intros s2 V2 I2. apply wp_ret. apply parent_none; [done| |done].
    by eapply vstep_trans.
Qed.
(** ** Changes of the tree *)
Lemma TI_put m w w' dir n x : TI m w -> w_sbs w' = w_sbs w -> tree_put dir n x w w' ->
  (forall p j, attached m w p -> w_inodes w' !! p = Some j ->
     exists i, w_inodes w !! p = Some i /\ i_sb j = i_sb i /\ i_ino j = i_ino i) ->
  (fs_exact -> forall q k p qi, m !! (q, k) = Some p -> name_norm k -> w_inodes w !! q = Some qi ->
     ~ (i_sb qi = i_sb dir /\ i_ino qi = i_ino dir /\ k = n)) ->
  TI m w'.
Proof.
  intros HT Es Ht Hi Hk. destruct (TI_same m w (mkW (w_inodes w') (w_sbs w') (w_fs w)) HT Es) as [T1 T2 TT T3 T4 T5];
    [done|done|].
  split; [|done|done|done|done|done]. intros q k p qi pi Hm Hn Hq Hp. destruct (T1 _ _ _ _ _ Hm Hn Hq Hp) as [E1 E2].
  split; [done|]. intros Hx. rewrite (Ht Hx), decide_False; [by apply E2|].
  destruct (Hi q qi) as (qi' & Hq' & -> & ->); [by eapply ti_parent|done|]. by eapply Hk.
Qed.

(** an entry leaves the cache and the directory, with nothing below it *)
Lemma TI_delete m w w' q n p qi pi : TI m w -> w_sbs w' = w_sbs w -> m !! (q, n) = Some p -> name_norm n ->
  w_inodes w !! q = Some qi -> w_inodes w !! p = Some pi ->
  (forall x, attached m w x -> is_Some (w_inodes w !! x)) -> w_inodes w !! VFS_ROOT_PARENT_SPECIAL = None ->
  (fs_exact -> forall k, fs_entry (w_fs w) (i_sb qi) (i_ino pi) k = None) -> tree_put qi n None w w' ->
  (forall x j, attached m w x -> w_inodes w' !! x = Some j ->
     exists i, w_inodes w !! x = Some i /\ i_sb j = i_sb i /\ i_ino j = i_ino i) ->
  TI (delete (q, n) m) w'.
Proof.
  intros HT Es Hm Hn Hq Hp Hl Hns Hempty Ht Hi.
  assert (forall x, attached (delete (q, n) m) w' x -> attached m w x) as Ha.
  { intros x Hx. eapply attached_weaken; [apply delete_subseteq|symmetry; exact Es|exact Hx]. }
  destruct HT as [T1 T2 TT T3 T4 T5]. destruct (T1 _ _ _ _ _ Hm Hn Hq Hp) as [Esp _]. split.
  - intros q' n' p' qi' pi' [Hne Hm']%lookup_delete_Some Hn' Hq' Hp'.
    destruct (Hi q' qi') as (qj & Hqj & -> & ->); [by eapply T2|done|].
    destruct (Hi p' pi') as (pj & Hpj & -> & ->); [by eapply attached_cached|done|].
    destruct (T1 _ _ _ _ _ Hm' Hn' Hqj Hpj) as [E1 E2]. split; [done|]. intros Hx. rewrite (Ht Hx), decide_False; [by apply E2|].
    intros (E3 & E4 & ->). apply Hne. f_equal. eapply (T4 Hx); [by eapply T2|by eapply T2|done..].
  - intros q' n' p' Hd Hn'. right. pose proof Hd as [_ Hm']%lookup_delete_Some. split; [|by exists n', p'].
    intros ->. destruct (Hl VFS_ROOT_PARENT_SPECIAL) as [y Hy]; [by eapply T2|]. congruence.
  - intros Hx q' n' p' [Hne Hm']%lookup_delete_Some Hn'. destruct (TT Hx _ _ _ Hm' Hn') as [(sb & b & Hb & Hr)|(a & c & Hr & Hc)].
    + left. exists sb, b. by rewrite Es.
    + right. exists a, c. split; [|done]. apply lookup_delete_Some. split; [|done]. intros [= <- <-].
      rewrite Hm in Hr. injection Hr as <-. destruct (Hl p') as [pj Hpj]; [by eapply attached_cached|]. destruct (T1 _ _ _ _ _ Hm' Hn' Hp Hpj) as [_ E2].
      specialize (E2 Hx). rewrite Esp, (Hempty Hx) in E2. done.
  - intros q' n' p' [_ Hm']%lookup_delete_Some Hn'. destruct (T3 _ _ _ Hm' Hn') as [-> (sb & b & Hb & Hx)].
    split; [done|]. exists sb, b. by rewrite Es.
  - intros Hx p1 p2 i1 i2 H1%Ha H2%Ha I1 I2 E1 E2. destruct (Hi _ _ H1 I1) as (j1 & J1 & ? & ?).
    destruct (Hi _ _ H2 I2) as (j2 & J2 & ? & ?). eapply (T4 Hx); [done|done|done|done|congruence|congruence].
  - intros sb b i Hb Hr. rewrite Es in Hb.
    destruct (Hi (sb_root b) i) as (i' & Hi' & -> & _); [by eapply attached_root|done|]. by eapply T5.
Qed.

(** ** The common head of the four operations *)
Lemma parent_fail {A} B Cr E m s name p (fail : A) (Q : A -> St -> Prop) :
  vinv ({[name]} ∪ B) (p :: Cr) E m s -> name ∉ B -> light (p :: Cr) E -> below 4 (v_held s) ->
  (forall s', vstep s s' -> vinv B Cr E m s' -> Q fail s') ->
  wp (inode_put p ;;; slab_free name ;;; mret fail) Q s.
Proof.
  intros I Hn Hl Hb W. eapply wp_put; [exact I|lite|eapply below_mono; [done|lia]|]. intros s1 V1 I1.
  eapply wp_vfree; [exact I1|done|]. intros s2 V2 I2. apply wp_ret, W; [by eapply vstep_trans|done].
Qed.

Lemma wp_with_parent {A} op (fail : A) path body B Cr E m s (Q : A -> St -> Prop) :
  vinv B Cr E m s -> TI m (v_world s) -> spare Cr E -> v_held s = [] -> is_Some (cur_task s) ->
  (forall m' s', lstep m s m' s' -> TI m' (v_world s') -> vinv B Cr E m' s' -> Q fail s') ->
  (forall name p n pi m' s' l, lstep m s m' s' -> TI m' (v_world s') -> vinv ({[name]} ∪ B) (p :: Cr) E m' s' ->
     name ∉ B -> attached m' (v_world s') p -> inodes s' !! p = Some pi -> name_norm n -> strlen n < VFS_MAX_PATH_LEN ->
     is_dir pi = true -> has_iop pi op = true -> vfs_permission pi (cur_cred s) (Z.lor MAY_WRITE MAY_EXEC) = 0 ->
     norm_path s path = Some (render (l ++ [n])) -> path_norm l -> found m' s' (render l) p ->
     wp (body name p n (cur_cred s)) Q s') ->
  wp (with_parent op fail path body) Q s.
Proof.
  intros I HT Hl Hh [tk Htk] Wf Wb. unfold with_parent.
  eapply wp_valloc; [exact I|unfold VFS_MAX_PATH_LEN; lia| |].
  { intros s1 V1 I1. apply wp_ret, (Wf m); [by apply vstep_lstep|by eapply TI_vstep|done]. }
  intros name s1 V1 Hn0 HnB I1. rewrite (proj2 (Z.eqb_neq name 0)) by done.
  pose proof (TI_vstep _ _ _ HT V1) as HT1. pose proof (vstep_lstep m _ _ V1) as L1.
  assert (v_held s1 = []) as Hh1 by (by rewrite (vstep_held _ _ V1)).
  apply wp_bind. eapply wp_conseq.
  { eapply vfs_lookup_parent_ok; [exact I1|done|done|rewrite Hh1; constructor]. }
  intros r s2 (m' & L2 & HT2 & HR). pose proof (lstep_trans _ _ _ _ _ _ L1 L2) as L.
  assert (v_held s2 = []) as Hh2 by (by rewrite (frame_held _ _ (proj1 L2))).
  destruct r as [[p n]|].
  2:{ eapply wp_vfree; [exact HR|done|]. intros s3 V3 I3. apply wp_ret, (Wf m'); [|by eapply TI_vstep|done].
      eapply lstep_trans; [exact L|by apply vstep_lstep]. }
  destruct HR as (I2 & Ha2 & Hnn & Hln & l & Enp & Hnl & Hf).
  destruct (ref_live _ _ _ _ _ p I2 (own_head _ _ _ _)) as (pi & Hpi & _).
  assert (forall s', vstep s2 s' -> vinv B Cr E m' s' -> Q fail s') as Wf'.
  { intros s' V' I'. apply (Wf m'); [|by eapply TI_vstep|done]. eapply lstep_trans; [exact L|by apply vstep_lstep]. }
  assert (below 4 (v_held s2)) as Hb2 by (rewrite Hh2; constructor).
  eapply wp_ino; [exact Hpi|].
  destruct (has_iop pi op) eqn:Eop; simpl negb; cbn iota; [|eapply parent_fail; [exact I2|done|lite|done|done]].
  destruct (is_dir pi) eqn:Ed; simpl negb; cbn iota; [|eapply parent_fail; [exact I2|done|lite|done|done]].
  apply wp_get_task.
  { destruct (cur_cred_frame s s2 (proj1 L)) as [_ ->]. by rewrite Htk. }
  intros k t _ _ Et. destruct (cur_cred_frame s s2 (proj1 L)) as [Ec Ect].
  assert (t_cred t = cur_cred s) as -> by (rewrite <- Ec; unfold cur_cred; by rewrite Et).
  destruct (perm_value pi (cur_cred s) (Z.lor MAY_WRITE MAY_EXEC)) as [Hp|Hp]; rewrite Hp; [|eapply parent_fail; [exact I2|done|lite|done|done]].
  change (0 <? 0) with false. cbn iota. eapply Wb; try done.
  by rewrite <- (norm_path_frame _ _ _ (proj1 V1)).
Qed.
(** ** Adding an entry *)

(** a call that changes the tree by [Tr] and no file that is in it *)
Definition dstep (Tr : world F -> world F -> Prop) m s s' : Prop :=
  frame s s' /\ fs_ok (v_world s') /\ w_sbs (v_world s') = w_sbs (v_world s) /\ Tr (v_world s) (v_world s') /\
  forall p j, attached m (v_world s) p -> inodes s' !! p = Some j -> exists i, inodes s !! p = Some i /\ same_attr i j.

Lemma lstep_dstep m s m' s' : lstep m s m' s' -> dstep same_tree m s s'.
Proof. intros (? & ? & ? & ? & _ & ?). done. Qed.

(** between two steps that leave the tree alone *)
Lemma dstep_around Tr m s m1 s1 s2 m2 s3 :
  (forall w w1 w2 w3, same_tree w w1 -> Tr w1 w2 -> same_tree w2 w3 -> Tr w w3) ->
  lstep m s m1 s1 -> dstep Tr m1 s1 s2 -> lstep m1 s2 m2 s3 -> dstep Tr m s s3.
Proof.
  intros HTr L1 D2 L3. pose proof (fun p => attached_mono _ _ _ _ p L1) as Ha.
  destruct L1 as (F1 & O1 & S1 & T1 & M1 & I1), D2 as (F2 & O2 & S2 & T2 & I2), L3 as (F3 & O3 & S3 & T3 & M3 & I3).
  split; [eapply frame_trans; [exact F1|by eapply frame_trans]|]. split; [done|]. split; [congruence|].
  split; [by eapply HTr|]. intros p j Hp Hj.
  assert (attached m1 (v_world s2) p) as Hp2.
  { eapply attached_weaken; [reflexivity|exact S2|by apply Ha]. }
  destruct (I3 p j Hp2 Hj) as (i3 & Hi3 & ? & ? & ? & ? & ?). destruct (I2 p i3 (Ha p Hp) Hi3) as (i2 & Hi2 & ? & ? & ? & ? & ?).
  destruct (I1 p i2 Hp Hi2) as (i1 & Hi1 & ? & ? & ? & ? & ?).
  exists i1. split; [done|]. unfold same_attr. repeat split; congruence.
Qed.

Lemma tree_put_around dir n x (w w1 w2 w3 : world F) :
  same_tree w w1 -> tree_put dir n x w1 w2 -> same_tree w2 w3 -> tree_put dir n x w w3.
Proof. intros S1 T2 S3 Hx sb d k. by rewrite (S3 Hx), (T2 Hx), (S1 Hx). Qed.

Lemma same_tree_around (w w1 w2 w3 : world F) : same_tree w w1 -> same_tree w1 w2 -> same_tree w2 w3 -> same_tree w w3.
Proof. intros S1 S2 S3 Hx sb d k. by rewrite (S3 Hx), (S2 Hx), (S1 Hx). Qed.

Lemma lstep_unheld m s l m' s' : lstep m (with_held l s) m' s' -> lstep m s m' (with_held (v_held s) s').
Proof. intros (Hf & HL). split; [by eapply frame_unheld|]. exact HL. Qed.
Lemma dstep_unheld Tr m s l s' : dstep Tr m (with_held l s) s' -> dstep Tr m s (with_held (v_held s) s').
Proof. intros (Hf & HL). split; [by eapply frame_unheld|]. exact HL. Qed.

Lemma release_tail {A} B Cr E m s name p (r : A) (Q : A -> St -> Prop) :
  vinv ({[name]} ∪ B) (p :: Cr) E m s -> name ∉ B -> light (p :: Cr) E -> v_held s = [LMeta] ->
  (forall s', vstep (with_held [] s) s' -> vinv B Cr E m s' -> Q r s') ->
  wp (release LMeta ;;; inode_put p ;;; slab_free name ;;; mret r) Q s.
Proof.
  intros I Hn Hl Hh W. apply (wp_release LMeta []); [done|by apply not_elem_of_nil|].
  eapply parent_fail; [by apply vinv_held|done|done|constructor|done].
Qed.

Lemma vstep_with_held l s s' : vstep s s' -> vstep (with_held l s) (with_held l s').
Proof. intros ((h & w & t & ->) & Hc). split; [by exists h, w, t|exact Hc]. Qed.

Lemma put_release_tail {A} B Cr E m s name p (r : A) (Q : A -> St -> Prop) :
  vinv ({[name]} ∪ B) (p :: Cr) E m s -> name ∉ B -> light (p :: Cr) E -> v_held s = [LMeta] ->
  (forall s', vstep (with_held [] s) s' -> vinv B Cr E m s' -> Q r s') ->
  wp (inode_put p ;;; release LMeta ;;; slab_free name ;;; mret r) Q s.
Proof.
  intros I Hn Hl Hh W. eapply wp_put; [exact I|lite|rewrite Hh; repeat constructor|].
  intros s1 V1 I1. apply (wp_release LMeta []); [by rewrite (vstep_held _ _ V1)|by apply not_elem_of_nil|].
  eapply wp_vfree; [by apply vinv_held|done|]. intros s2 V2 I2. apply wp_ret, W; [|done].
  eapply vstep_trans; [by apply vstep_with_held|done].
Qed.

(** what the file system's create and mkdir promise *)
Definition maker (mk : Z -> list Z -> Z -> M (world F) (Z * Z)) : Prop := forall w p i n mode,
  fs_ok w -> w_inodes w !! p = Some i -> name_norm n -> makes (mk p n mode) i n w fs_ok.

(** the result of [make_entry] *)
Definition made_post Cr E m s B name p n cred mode (r : option Z) s' : Prop :=
  exists m', TI m' (v_world s') /\ m ⊆ m' /\
  match r with
  | None => v_held s' = [] /\ vinv B Cr E m' s' /\
      (dstep same_tree m s s' \/ exists pi x, inodes s !! p = Some pi /\ dstep (tree_put pi n (Some x)) m s s')
  | Some q => v_held s' = [LMeta] /\ vinv ({[name]} ∪ B) (q :: p :: Cr) E m' s' /\ m' !! (p, n) = Some q /\
      exists pi qi, inodes s !! p = Some pi /\ inodes s' !! q = Some qi /\
        i_sb qi = i_sb pi /\ (fs_exact -> fs_entry (w_fs (v_world s)) (i_sb pi) (i_ino pi) n = None) /\
        Z.land (i_mode qi) 0xFFF = Z.land mode 0x1FF /\ i_uid qi = c_uid cred /\ i_gid qi = c_gid cred /\
        dstep (tree_put pi n (Some (i_ino qi))) m s (with_held [] s')
  end.

Lemma mode_bits x mode : Z.land (Z.lor (Z.land x S_IFMT) (Z.land mode 0x1FF)) 0xFFF = Z.land mode 0x1FF.
Proof.
  rewrite Z.land_lor_distr_l, <- !Z.land_assoc. change (Z.land S_IFMT 0xFFF) with 0.
  change (Z.land 0x1FF 0xFFF) with 0x1FF. by rewrite Z.land_0_r, Z.lor_0_l.
Qed.

Lemma make_entry_ok mk type mode B Cr E m s name p n cred : maker mk ->
  vinv ({[name]} ∪ B) (p :: Cr) E m s -> TI m (v_world s) -> name ∉ B -> spare Cr E -> v_held s = [] ->
  attached m (v_world s) p -> name_norm n ->
  wp (make_entry mk type mode name p n cred) (made_post Cr E m s B name p n cred mode) s.
Proof.
  intros Hmk I HT HnB Hl Hh Ha Hn. unfold make_entry. apply wp_acquire; [rewrite Hh; constructor|].
  rewrite Hh. set (s1 := with_held [LMeta] s).
  assert (forall s', vstep s1 s' -> vstep s (with_held [] s')) as Hun.
  { intros s' (Hf & Hc). split; [|exact Hc]. rewrite <- Hh. by eapply frame_unheld. }
  assert (forall s' s'', vstep s1 s' -> vstep (with_held [] s') s'' -> vinv B Cr E m s'' ->
            made_post Cr E m s B name p n cred mode None s'') as Hnone.
  { intros s' s'' V1 V2 I2. pose proof (vstep_trans _ _ _ (Hun _ V1) V2) as V. exists m. split; [by eapply TI_vstep|].
    split; [done|]. split; [by rewrite (vstep_held _ _ V)|]. split; [done|]. left. eapply lstep_dstep, vstep_lstep, V. }
  eapply wp_find; [by apply vinv_held|lite|by repeat constructor|]. intros f s2 V2 [[-> I2]|(Hf0 & Hf & I2)].
  2:{ rewrite (proj2 (Z.eqb_neq f 0)) by done. simpl negb. cbn iota.
      eapply wp_put; [exact I2|lite|rewrite (vstep_held _ _ V2); by repeat constructor|]. intros s3 V3 I3.
      eapply release_tail; [exact I3|done|lite|by rewrite (vstep_held _ _ V3), (vstep_held _ _ V2)|].
      intros s4 V4 I4. eapply (Hnone s3); [by eapply vstep_trans|done|done]. }
  change (negb (0 =? 0)) with false. cbn iota. destruct (ref_live _ _ _ _ _ p I2 (own_head _ _ _ _)) as (pi & Hpi & _).
  assert (v_held s2 = [LMeta]) as Hh2 by (by rewrite (vstep_held _ _ V2)).
  pose proof (TI_vstep _ _ _ (HT : TI m (v_world s1)) V2) as HT2.
  assert (attached m (v_world s2) p) as Ha2 by (eapply attached_mono; [by apply vstep_lstep|exact Ha]).
  apply wp_bind. unfold in_world at 1. apply wp_zoom.
  eapply wp_conseq; [apply (Hmk _ p pi n); [by destruct I2|done|done]|].
  intros [r q] w3 (Ok3 & H3). cbn [fst snd] in *. destruct ((r <? 0) || (q =? 0)).
  { destruct H3 as [Hk Ht]. eapply release_tail; [by eapply vinv_keeps|done|lite|done|]. intros s4 V4 I4.
    pose proof (lstep_keeps m s2 w3 Hk Ok3 Ht) as L3.
    pose proof (lstep_trans _ _ _ _ _ _ (vstep_lstep m _ _ V2) L3) as L13. apply (lstep_unheld m s) in L13. rewrite Hh in L13.
    pose proof (lstep_trans _ _ _ _ _ _ L13 (vstep_lstep m _ _ V4)) as L. exists m.
    split; [exact (TI_lstep _ _ _ HT L)|]. split; [done|]. split; [by rewrite (frame_held _ _ (proj1 L))|]. split; [done|].
    left. by eapply lstep_dstep. }
  destruct H3 as (Hmade & Hnew & qi & Hqi & Hput). set (s3 := with_world w3 s2).
  destruct (made_inode' _ _ _ _ _ _ Hmade Hpi) as (Hpq & pi3 & Hpi3 & ((E1 & E2 & _) & _)).
  assert (i_sb qi = i_sb pi) as Esb by (destruct Hmade as (_ & _ & i' & Hi' & _ & Hsb); congruence).
  assert (vinv ({[name]} ∪ B) (q :: p :: Cr) E m s3) as I3 by (by eapply vinv_made).
  assert (forall x j, attached m (v_world s2) x -> w_inodes w3 !! x = Some j ->
     exists i, inodes s2 !! x = Some i /\ same_vfs i j) as Hattr.
  { intros x j Hx Hj. destruct (attached_live _ _ _ _ _ _ I2 Hx) as (i & Hi & _).
    destruct (made_inode' _ _ _ _ _ _ Hmade Hi) as (_ & j' & Hj' & Hs). simplify_eq. by exists i. }
  assert (w_sbs w3 = w_sbs (v_world s2)) as Es3 by apply Hmade.
  assert (dstep (tree_put pi n (Some (i_ino qi))) m s2 s3) as D3.
  { split; [apply frame_world|]. split; [done|]. split; [done|]. split; [done|]. intros x j Hx Hj.
    destruct (Hattr x j Hx Hj) as (i & Hi & (? & ? & _) & ? & ? & ? & _). by exists i. }
  assert (TI m (v_world s3)) as HT3.
  { eapply TI_put; [exact HT2|done|exact Hput| |].
    - intros x j Hx Hj. destruct (Hattr x j Hx Hj) as (i & Hi & (? & ? & _) & _). by exists i.
    - intros Hx0 a k x ai Hx Hk Hai (F1 & F2 & ->).
      destruct (ref_live _ _ _ _ _ x I2 (cached_ref _ _ _ _ _ Hx)) as (xi & Hxi & _).
      destruct (ti_entry _ _ HT2 _ _ _ _ _ Hx Hk Hai Hxi) as [_ F3]. specialize (F3 Hx0). rewrite F1, F2, (Hnew Hx0) in F3. done. }
  assert (~ attached m (v_world s3) q) as Hna.
  { intros Hx. assert (attached m (v_world s2) q) as Hy.
    { eapply attached_weaken; [reflexivity|symmetry; exact Es3|exact Hx]. }
    destruct (attached_live _ _ _ _ _ _ I2 Hy) as (? & Hi & _). destruct Hmade as (_ & Hno & _). simpl in *. congruence. }
  pose proof (lstep_trans _ _ _ _ _ _ (vstep_lstep m _ _ (vstep_refl s1 (vi_fs _ _ _ _ _ I))) (vstep_lstep m _ _ V2)) as L12.
  assert (exists ps, inodes s !! p = Some ps /\ i_sb ps = i_sb pi /\ i_ino ps = i_ino pi) as (ps & Hps & P1 & P2).
  { destruct V2 as (_ & _ & _ & _ & V2). destruct (V2 p pi Hpi) as (ps & Hps & Ep). exists ps. by rewrite Ep. }
  assert (forall x w w', tree_put pi n x w w' -> tree_put ps n x w w') as Hps_put.
  { intros x w w' Hx Hx0 sb d k. rewrite (Hx Hx0), P1, P2. done. }
  eapply wp_ino; [exact Hqi|].
  eapply (wp_link ({[name]} ∪ B) Cr E m s3 q p n pi3 qi); try done.
  - change (v_held s3) with (v_held s2). rewrite Hh2. by repeat constructor.
  - eapply attached_weaken; [reflexivity|exact Es3|exact Ha2].
  - congruence.
  - intros Hx0. rewrite E1, E2. simpl. rewrite (Hput Hx0 _ _ _), decide_True; done.
  - intros s4 L4 I4 HT4. change (-1 <? 0) with true. cbn iota.
    assert (v_held s4 = [LMeta]) as Hh4 by (rewrite (frame_held _ _ (proj1 L4)); done).
    eapply wp_put; [exact I4|lite|rewrite Hh4; by repeat constructor|]. intros s5 V5 I5.
    eapply wp_put; [exact I5|lite|rewrite (vstep_held _ _ V5), Hh4; by repeat constructor|]. intros s6 V6 I6.
    eapply put_release_tail; [exact I6|done|lite|by rewrite (vstep_held _ _ V6), (vstep_held _ _ V5)|]. intros s7 V7 I7.
    pose proof (lstep_trans _ _ _ _ _ _ L4 (vstep_lstep m _ _ (vstep_trans _ _ _ V5 V6))) as L46.
    pose proof (dstep_around _ _ _ _ _ _ _ _ (tree_put_around pi n (Some (i_ino qi))) L12 D3 L46) as DD.
    apply (dstep_unheld _ m s) in DD. rewrite Hh in DD.
    pose proof (TI_vstep _ _ _ HT4 (vstep_trans _ _ _ V5 V6)) as HT6.
    pose proof (TI_vstep m (with_held [] s6) s7 HT6 V7) as HT7.
    exists m. split; [done|]. split; [done|]. split; [by rewrite (vstep_held _ _ V7)|]. split; [done|]. right.
    exists ps, (i_ino qi). split; [done|].
    eapply (dstep_around _ m s m s _ m s7); [apply tree_put_around|apply vstep_lstep, vstep_refl, I| |by apply vstep_lstep].
    destruct DD as (D1 & D2 & D4 & D5 & D6). split; [done|]. split; [done|]. split; [done|]. split; [by apply Hps_put|done].
  - intros s4 L4 I4 HT4 Hmn (i4 & Hi4 & (A1 & A2 & A3 & A4 & A5)). change (0 <? 0) with false. cbn iota. apply wp_ret.
    exists (<[(p, n) := q]> m). split; [done|]. split; [by apply insert_subseteq|].
    split; [rewrite (frame_held _ _ (proj1 L4)); done|]. split; [done|]. split; [apply lookup_insert_eq|].
    exists ps, i4. split; [done|]. split; [done|]. split; [simpl in A1; congruence|].
    split; [intros Hx0; rewrite P1, P2; destruct V2 as (_ & _ & _ & Ht & _); rewrite <- (Ht Hx0 _ _ _); by apply Hnew|].
    split; [rewrite A3; apply mode_bits|]. split; [done|]. split; [done|].
    pose proof (dstep_around _ _ _ _ _ _ _ _ (tree_put_around pi n (Some (i_ino qi))) L12 D3 L4) as DD.
    apply (dstep_unheld _ m s) in DD. rewrite Hh in DD. simpl in A2. rewrite A2.
    destruct DD as (D1 & D2 & D4 & D5 & D6). split; [done|]. split; [done|]. split; [done|]. split; [by apply Hps_put|done].
Qed.
(** [q] is the new file [path]: in the directory that the walk of its parent
    finds and that the caller may write, under a name that was free, with the
    caller as its owner and the permissions asked for *)
Definition new_file m s m' s' path mode q : Prop :=
  exists l n p pi qi, norm_path s path = Some (render (l ++ [n])) /\ found m' s' (render l) p /\ m' !! (p, n) = Some q /\
    inodes s' !! p = Some pi /\ is_dir pi = true /\ vfs_permission pi (cur_cred s) (Z.lor MAY_WRITE MAY_EXEC) = 0 /\
    inodes s' !! q = Some qi /\ i_sb qi = i_sb pi /\
    (fs_exact -> fs_entry (w_fs (v_world s)) (i_sb pi) (i_ino pi) n = None) /\
    Z.land (i_mode qi) 0xFFF = Z.land mode 0x1FF /\ i_uid qi = c_uid (cur_cred s) /\ i_gid qi = c_gid (cur_cred s) /\
    dstep (tree_put pi n (Some (i_ino qi))) m s s'.
(** a failed call leaves the tree alone, or leaves the entry behind *)
Definition not_made m s s' : Prop :=
  dstep same_tree m s s' \/ exists pi n x, dstep (tree_put pi n (Some x)) m s s'.

Definition create_post B Cr E m s path mode (r : option Z) s' : Prop :=
  exists m', TI m' (v_world s') /\ m ⊆ m' /\ v_held s' = [] /\
  match r with
  | None => vinv B Cr E m' s' /\ not_made m s s'
  | Some q => vinv B (q :: Cr) E m' s' /\ new_file m s m' s' path mode q
  end.
Definition mkdir_post B Cr E m s path mode (r : Z) s' : Prop :=
  exists m', TI m' (v_world s') /\ m ⊆ m' /\ v_held s' = [] /\ vinv B Cr E m' s' /\
  ((r = -1 /\ not_made m s s') \/ (r = 0 /\ exists q, new_file m s m' s' path mode q)).

Lemma tree_put_same dir dir' n x (w w' : world F) : i_sb dir' = i_sb dir -> i_ino dir' = i_ino dir ->
  tree_put dir n x w w' -> tree_put dir' n x w w'.
Proof. intros E1 E2 Ht Hx sb d k. by rewrite (Ht Hx), E1, E2. Qed.

Lemma dstep_impl (Tr Tr' : world F -> world F -> Prop) m s s' :
  (forall w w', Tr w w' -> Tr' w w') -> dstep Tr m s s' -> dstep Tr' m s s'.
Proof. intros HTr (? & ? & ? & ? & ?). repeat split; auto. Qed.

(** from the parent's lookup through [make_entry] to the end of the call *)
Lemma make_finish B Cr E Cr' m s path mode l n name p m1 s1 pi m2 s2 q s3 :
  lstep m s m1 s1 -> TI m1 (v_world s1) -> inodes s1 !! p = Some pi -> attached m1 (v_world s1) p ->
  is_dir pi = true -> vfs_permission pi (cur_cred s) (Z.lor MAY_WRITE MAY_EXEC) = 0 ->
  norm_path s path = Some (render (l ++ [n])) -> found m1 s1 (render l) p ->
  made_post Cr E m1 s1 B name p n (cur_cred s) mode (Some q) s2 -> m1 ⊆ m2 -> m2 !! (p, n) = Some q ->
  vstep (with_held [] s2) s3 -> vinv B Cr' E m2 s3 -> new_file m s m2 s3 path mode q.
Proof.
  intros L1 HT1 Hpi Ha1 Hd Hperm Hnorm Hfound (m2' & HT2 & Hsub & Hh2 & I2 & Hm2 & pi' & qi & Hpi' & Hqi & R1 & R2 & R3 & R4 & R5 & R6)
    Hsub2 Hm3 V3 I3.
  simplify_eq.
  pose proof (dstep_around _ m s m1 s1 (with_held [] s2) m1 s3 (tree_put_around pi n (Some (i_ino qi))) L1 R6
                (vstep_lstep m1 _ _ V3)) as DD.
  destruct (attached_live _ _ _ _ _ p I3) as (pi3 & Hpi3 & _).
  { eapply attached_weaken; [done| |exact Ha1].
    destruct V3 as (_ & _ & Es & _), R6 as (_ & _ & Es2 & _). simpl in *. by rewrite Es, Es2. }
  destruct (ref_live _ _ _ _ _ q I3 (cached_ref _ _ _ _ _ Hm3)) as (q3 & Hq3 & _).
  assert (same_attr pi pi3) as Hsp.
  { destruct (dstep_around _ m1 s1 m1 s1 (with_held [] s2) m1 s3 (tree_put_around pi n (Some (i_ino qi)))
      (vstep_lstep m1 _ _ (vstep_refl s1 ltac:(apply L1))) R6 (vstep_lstep m1 _ _ V3)) as (_ & _ & _ & _ & Hi).
    destruct (Hi p pi3 Ha1 Hpi3) as (i & Hi' & Hs). by simplify_eq. }
  assert (q3 = set_refcount (i_refcount q3) qi) as Eq3.
  { destruct V3 as (_ & _ & _ & _ & V3). destruct (V3 q q3 Hq3) as (i & Hi & ->). simpl in Hi. by simplify_eq. }
  destruct Hsp as (S1 & S2 & S3 & S4 & S5).
  exists l, n, p, pi3, q3. split; [done|]. split.
  { assert (frame s1 s3) as Hf13 by (destruct R6 as (Hf & _); eapply frame_trans; [exact Hf|apply V3]).
    eapply (found_mono _ _ _ m1 s1 m2 s3); [|by apply cur_cred_frame| |done| |exact I3|done|exact Hfound].
    - by destruct Hf13 as (h & w & t & ->).
    - destruct V3 as (_ & _ & Es & _), R6 as (_ & _ & Es2 & _). simpl in *. congruence.
    - apply (dstep_around _ m1 s1 m1 s1 (with_held [] s2) m1 s3 (tree_put_around pi n (Some (i_ino qi)))
        (vstep_lstep m1 _ _ (vstep_refl s1 ltac:(apply L1))) R6 (vstep_lstep m1 _ _ V3)). }
  split; [done|]. split; [done|]. split; [unfold is_dir in *; by rewrite S3|].
  split; [by rewrite (perm_same pi pi3)|]. split; [done|]. rewrite S1, S2, Eq3. simpl.
  split; [done|]. split; [intros Hx0; destruct L1 as (_ & _ & _ & Ht & _); rewrite <- (Ht Hx0 _ _ _); by apply R2|].
  do 3 (split; [done|]). eapply dstep_impl; [|exact DD]. intros w w'. by apply tree_put_same.
Qed.

Lemma fs_create_maker : maker fs_create.
Proof. intros w p i n mode. apply fs_create_ok. Qed.
Lemma fs_mkdir_maker : maker fs_mkdir.
Proof. intros w p i n mode. apply fs_mkdir_ok. Qed.

Lemma not_made_lstep m s m1 s1 s2 : lstep m s m1 s1 ->
  (dstep same_tree m1 s1 s2 \/ exists n pi x, dstep (tree_put pi n (Some x)) m1 s1 s2) -> not_made m s s2.
Proof.
  intros L1 HD. assert (forall Tr, dstep Tr m1 s1 s2 -> lstep m1 s2 m1 s2) as Hr.
  { intros Tr (_ & Ok & _). by apply vstep_lstep, vstep_refl. }
  destruct HD as [HD|(n & pi & x & HD)]; [left|right; exists pi, n, x].
  - eapply dstep_around; [apply same_tree_around|exact L1|exact HD|by eapply Hr].
  - eapply dstep_around; [apply tree_put_around|exact L1|exact HD|by eapply Hr].
Qed.

Lemma vfs_create_ok B Cr E m s path mode : vinv B Cr E m s -> TI m (v_world s) -> spare Cr E -> v_held s = [] ->
  is_Some (cur_task s) -> wp (vfs_create path mode) (create_post B Cr E m s path mode) s.
Proof.
  intros I HT Hl Hh Ht. eapply wp_with_parent; [done..| |].
  { intros m' s' L HT' I'. exists m'. split; [done|]. split; [apply L|]. split; [by rewrite (frame_held _ _ (proj1 L))|].
    split; [done|]. left. by eapply lstep_dstep. }
  intros name p n pi m1 s1 l L1 HT1 I1 HnB Ha1 Hpi Hnn Hln Hd Hop Hperm Hnorm Hnl Hfound.
  apply wp_bind. eapply wp_conseq.
  { eapply make_entry_ok; [exact fs_create_maker|exact I1|done|done|done|by rewrite (frame_held _ _ (proj1 L1))|done|done]. }
  intros [q|] s2 HP; pose proof HP as (m2 & HT2 & Hsub & HP2).
  - destruct HP2 as (Hh2 & I2 & Hm2 & _).
    eapply wp_get; [exact I2|lite|apply own_head|rewrite Hh2; by repeat constructor|]. intros s3 V3 I3.
    eapply wp_put; [exact I3|lite|rewrite (vstep_held _ _ V3), Hh2; by repeat constructor|]. intros s4 V4 I4.
    pose proof (vstep_trans _ _ _ V3 V4) as V34.
    eapply (put_release_tail B (q :: Cr) E m2 s4); [eapply vinv_Cr; [|exact I4]; solve_Permutation|done|lite|by rewrite (vstep_held _ _ V34)|].
    intros s5 V5 I5. pose proof (vstep_trans _ _ _ (vstep_with_held [] _ _ V34) V5) as V.
    exists m2. split; [exact (TI_vstep m2 (with_held [] s2) s5 HT2 V)|]. split; [etrans; [apply L1|done]|].
    split; [by rewrite (vstep_held _ _ V)|]. split; [done|]. by eapply (make_finish B Cr E (q :: Cr) m s path mode l n name p m1 s1 pi m2 s2 q s5).
  - destruct HP2 as (Hh2 & I2 & HD). apply wp_ret. exists m2. split; [done|]. split; [etrans; [apply L1|done]|].
    split; [done|]. split; [done|]. eapply not_made_lstep; [exact L1|].
    destruct HD as [HD|(pi' & x & _ & HD)]; [by left|]. right. by exists n, pi', x.
Qed.

Lemma vfs_mkdir_ok B Cr E m s path mode : vinv B Cr E m s -> TI m (v_world s) -> spare Cr E -> v_held s = [] ->
  is_Some (cur_task s) -> wp (vfs_mkdir path mode) (mkdir_post B Cr E m s path mode) s.
Proof.
  intros I HT Hl Hh Ht. eapply wp_with_parent; [done..| |].
  { intros m' s' L HT' I'. exists m'. split; [done|]. split; [apply L|]. split; [by rewrite (frame_held _ _ (proj1 L))|].
    split; [done|]. left. split; [done|]. left. by eapply lstep_dstep. }
  intros name p n pi m1 s1 l L1 HT1 I1 HnB Ha1 Hpi Hnn Hln Hd Hop Hperm Hnorm Hnl Hfound.
  apply wp_bind. eapply wp_conseq.
  { eapply make_entry_ok; [exact fs_mkdir_maker|exact I1|done|done|done|by rewrite (frame_held _ _ (proj1 L1))|done|done]. }
  intros [q|] s2 HP; pose proof HP as (m2 & HT2 & Hsub & HP2).
  - destruct HP2 as (Hh2 & I2 & Hm2 & _).
    eapply wp_put; [exact I2|lite|rewrite Hh2; by repeat constructor|]. intros s3 V3 I3.
    eapply (put_release_tail B Cr E m2 s3); [exact I3|done|lite|by rewrite (vstep_held _ _ V3)|].
    intros s5 V5 I5. pose proof (vstep_trans _ _ _ (vstep_with_held [] _ _ V3) V5) as V.
    exists m2. split; [exact (TI_vstep m2 (with_held [] s2) s5 HT2 V)|]. split; [etrans; [apply L1|done]|].
    split; [by rewrite (vstep_held _ _ V)|]. split; [done|]. right. split; [done|]. exists q.
    by eapply (make_finish B Cr E Cr m s path mode l n name p m1 s1 pi m2 s2 q s5).
  - destruct HP2 as (Hh2 & I2 & HD). apply wp_ret. exists m2. split; [done|]. split; [etrans; [apply L1|done]|].
    split; [done|]. split; [done|]. left. split; [done|]. eapply not_made_lstep; [exact L1|].
    destruct HD as [HD|(pi' & x & _ & HD)]; [by left|]. right. by exists n, pi', x.
Qed.
(** ** Removing an entry *)
Definition remover (rm : Z -> list Z -> M (world F) Z) : Prop := forall w p i n,
  fs_ok w -> w_inodes w !! p = Some i -> name_norm n -> removes (rm p n) i n w fs_ok.

(** the entry [n] of [p] is gone from the directory and from the cache *)
Definition removed m s m' s' (dir : bool) p n : Prop :=
  exists q pi qi, m !! (p, n) = Some q /\ inodes s !! p = Some pi /\ inodes s !! q = Some qi /\ is_dir qi = dir /\
    (fs_exact -> fs_entry (w_fs (v_world s)) (i_sb pi) (i_ino pi) n = Some (i_ino qi) /\
      forall k, fs_entry (w_fs (v_world s)) (i_sb pi) (i_ino qi) k = None) /\
    m' = delete (p, n) m /\ dstep (tree_put pi n None) m s s'.

Definition remove_post B Cr E m s dir p n (r : Z) s' : Prop :=
  exists m', TI m' (v_world s') /\ v_held s' = [] /\ vinv B Cr E m' s' /\
  ((r = -1 /\ m' = m /\ dstep same_tree m s s') \/ (r = 0 /\ removed m s m' s' dir p n)).

Lemma remove_entry_ok rm dir B Cr E m s name p n cred : remover rm ->
  vinv ({[name]} ∪ B) (p :: Cr) E m s -> TI m (v_world s) -> name ∉ B -> spare Cr E -> v_held s = [] ->
  attached m (v_world s) p -> name_norm n ->
  wp (remove_entry rm dir name p n cred) (remove_post B Cr E m s dir p n) s.
Proof.
  intros Hrm I HT HnB Hl Hh Ha Hn. unfold remove_entry. apply wp_acquire; [rewrite Hh; constructor|].
  rewrite Hh. set (s1 := with_held [LMeta] s).
  assert (forall s' s'', lstep m s1 m s' -> vstep (with_held [] s') s'' -> vinv B Cr E m s'' ->
            remove_post B Cr E m s dir p n (-1) s'') as Hnone.
  { intros s' s'' L1 V2 I2. apply (lstep_unheld m s) in L1. rewrite Hh in L1.
    pose proof (lstep_trans _ _ _ _ _ _ L1 (vstep_lstep m _ _ V2)) as L. exists m.
    split; [exact (TI_lstep _ _ _ HT L)|]. split; [by rewrite (frame_held _ _ (proj1 L))|]. split; [done|]. left.
    split; [done|]. split; [done|]. by eapply lstep_dstep. }
  eapply wp_find; [by apply vinv_held|lite|by repeat constructor|].
  intros q s2 V2 Hq. assert (v_held s2 = [LMeta]) as Hh2 by (by rewrite (vstep_held _ _ V2)).
  pose proof (vstep_lstep m _ _ V2) as L2. destruct Hq as [[-> I2]|(Hq0 & Hmq & I2)].
  { change (0 =? 0) with true. cbn iota. eapply release_tail; [exact I2|done|lite|done|].
    intros s3 V3 I3. by eapply Hnone. }
  rewrite (proj2 (Z.eqb_neq q 0)) by done.
  destruct (ref_live _ _ _ _ _ q I2 (own_head _ _ _ _)) as (qi & Hqi & _).
  destruct (ref_live _ _ _ _ _ p I2 (own_second _ _ _ _ _)) as (pi & Hpi & _).
  assert (forall m' s3, vstep s2 s3 \/ lstep m s2 m s3 -> v_held s3 = [LMeta] -> m' = m -> vinv ({[name]} ∪ B) (q :: p :: Cr) E m s3 ->
    wp (inode_put q ;;; release LMeta ;;; inode_put p ;;; slab_free name ;;; mret (-1)) (remove_post B Cr E m s dir p n) s3) as Hfail.
  { intros m' s3 Hs Hh3 -> I3. eapply wp_put; [exact I3|lite|rewrite Hh3; by repeat constructor|]. intros s4 V4 I4.
    eapply release_tail; [exact I4|done|lite|by rewrite (vstep_held _ _ V4)|]. intros s5 V5 I5.
    eapply (Hnone s4); [|done|done]. eapply lstep_trans; [exact L2|].
    destruct Hs as [V3|L3]; [apply vstep_lstep; by eapply vstep_trans|]. eapply lstep_trans; [exact L3|by apply vstep_lstep]. }
  eapply wp_ino; [exact Hqi|]. destruct (Bool.eqb (is_dir qi) dir) eqn:Ed; simpl negb; cbn iota.
  2:{ apply (Hfail m s2); [left; apply vstep_refl, I2|done..]. }
  apply Bool.eqb_prop in Ed. apply wp_bind. unfold in_world at 1. apply wp_zoom.
  eapply wp_conseq; [apply (Hrm _ p pi n); [by destruct I2|done|done]|].
  intros r w3 (Ok3 & Hk & H3). destruct (r <? 0).
  { apply (Hfail m (with_world w3 s2)); [right; by apply lstep_keeps|done|done|by eapply vinv_keeps]. }
  set (s3 := with_world w3 s2).
  assert (vinv ({[name]} ∪ B) (q :: p :: Cr) E m s3) as I3 by (by eapply vinv_keeps).
  destruct (ti_entry _ _ (TI_lstep _ _ _ (HT : TI m (v_world s1)) L2) _ _ _ _ _ Hmq Hn Hpi Hqi) as [Esq Eeq].
  assert (fs_exact -> forall k, fs_entry (w_fs (v_world s2)) (i_sb pi) (i_ino qi) k = None) as Hempty.
  { intros Hx0. destruct (H3 Hx0) as (x & Hx & He & _). rewrite (Eeq Hx0) in Hx. by injection Hx as <-. }
  assert (tree_put pi n None (v_world s2) w3) as Hput.
  { intros Hx0. destruct (H3 Hx0) as (x & _ & _ & He). by apply He. }
  destruct (ref_live _ _ _ _ _ q I3 (own_head _ _ _ _)) as (q3 & Hq3 & _).
  destruct (vi_keys _ _ _ _ _ I3 _ _ _ Hmq) as (q3' & Hq3' & K1 & K2). assert (q3' = q3) as -> by congruence.
  eapply (wp_remove _ (q :: p :: Cr) E m s3 q q3); [exact I3|lite| |done|by rewrite K1, K2|].
  { change (v_held s3) with (v_held s2). rewrite Hh2. by repeat constructor. }
  rewrite K1, K2. intros s4 V4 I4. assert (v_held s4 = [LMeta]) as Hh4 by (by rewrite (vstep_held _ _ V4)).
  eapply wp_put; [exact I4|lite|rewrite Hh4; by repeat constructor|]. intros s5 V5 I5.
  eapply put_release_tail; [exact I5|done|lite|by rewrite (vstep_held _ _ V5)|]. intros s6 V6 I6.
  assert (dstep (tree_put pi n None) m s2 s3) as D3.
  { split; [apply frame_world|]. split; [done|]. split; [apply (Hk 0)|]. split; [done|]. intros y j _ Hj.
    destruct (keeps_inode _ _ _ _ Hk Hj) as (i & Hi & (? & ? & _) & ? & ? & ? & _). by exists i. }
  assert (lstep m s3 m s5) as L35 by (apply vstep_lstep; by eapply vstep_trans).
  pose proof (dstep_around _ _ _ _ _ _ _ _ (tree_put_around pi n None) L2 D3 L35) as DD.
  apply (dstep_unheld _ m s) in DD. rewrite Hh in DD.
  pose proof (dstep_around _ m s m s _ m s6 (tree_put_around pi n None)
    (vstep_lstep m _ _ (vstep_refl s (vi_fs _ _ _ _ _ I))) DD (vstep_lstep m _ _ V6)) as D6.
  destruct V2 as (_ & _ & _ & Ht2 & V2). destruct (V2 p pi Hpi) as (ps & Hps & Ep). destruct (V2 q qi Hqi) as (qs & Hqs & Eq).
  assert (dstep (tree_put ps n None) m s s6) as D6'.
  { eapply dstep_impl; [|exact D6]. intros w w'. apply tree_put_same; by rewrite Ep. }
  assert (fs_exact -> forall k, fs_entry (w_fs (v_world s)) (i_sb ps) (i_ino qs) k = None) as Hemp.
  { intros Hx0 k. rewrite Ep, Eq in Hempty. rewrite <- (Ht2 Hx0 _ _ _). by apply Hempty. }
  assert (removed m s (delete (p, n) m) s6 dir p n) as Hgone.
  { exists q, ps, qs. do 3 (split; [done|]). rewrite Ep, Eq in Eeq. rewrite Eq in Ed.
    split; [exact Ed|]. split; [|done]. intros Hx0. split; [rewrite <- (Ht2 Hx0 _ _ _); by apply Eeq|by apply Hemp]. }
  exists (delete (p, n) m). split; [|split; [by rewrite (vstep_held _ _ V6)|split; [done|right; by split]]].
  destruct D6' as (_ & _ & Es6 & Tr6 & Hi6).
  eapply (TI_delete m (v_world s) _ p n q ps qs); [done|done|done|done|done|done| |apply (fs_ok_null _ (vi_fs _ _ _ _ _ I))|done|done|].
  - intros y Hy. destruct (attached_live _ _ _ _ _ _ I Hy) as (? & ? & _). by eexists.
  - intros y j Hy Hj. destruct (Hi6 y j Hy Hj) as (i & Hi & ? & ? & _). by exists i.
Qed.

(** the whole call: the parent's walk, then the removal *)
Definition unlink_post B Cr E m s path dir (r : Z) s' : Prop :=
  exists m', TI m' (v_world s') /\ v_held s' = [] /\ vinv B Cr E m' s' /\
  ((r = -1 /\ m ⊆ m' /\ dstep same_tree m s s') \/
   (r = 0 /\ exists m1 s1 l n p pi, lstep m s m1 s1 /\ norm_path s path = Some (render (l ++ [n])) /\
      found m1 s1 (render l) p /\ inodes s1 !! p = Some pi /\ is_dir pi = true /\
      vfs_permission pi (cur_cred s) (Z.lor MAY_WRITE MAY_EXEC) = 0 /\ removed m1 s1 m' s' dir p n)).

Lemma remove_call_ok rm dir op B Cr E m s path : remover rm -> vinv B Cr E m s -> TI m (v_world s) -> spare Cr E ->
  v_held s = [] -> is_Some (cur_task s) ->
  wp (with_parent op (-1) path (remove_entry rm dir)) (unlink_post B Cr E m s path dir) s.
Proof.
  intros Hrm I HT Hl Hh Ht. eapply wp_with_parent; [done..| |].
  { intros m' s' L HT' I'. exists m'. split; [done|]. split; [by rewrite (frame_held _ _ (proj1 L))|]. split; [done|].
    left. split; [done|]. split; [apply L|by eapply lstep_dstep]. }
  intros name p n pi m1 s1 l L1 HT1 I1 HnB Ha1 Hpi Hnn Hln Hd Hop Hperm Hnorm Hnl Hfound.
  eapply wp_conseq.
  { eapply remove_entry_ok; [exact Hrm|exact I1|done|done|done|by rewrite (frame_held _ _ (proj1 L1))|done|done]. }
  intros r s2 (m2 & HT2 & Hh2 & I2 & HR). exists m2. do 3 (split; [done|]).
  destruct HR as [(-> & -> & HD)|(-> & HR)]; [left|right].
  - split; [done|]. split; [apply L1|]. eapply dstep_around; [apply same_tree_around|exact L1|exact HD|].
    destruct HD as (_ & Ok & _). by apply (vstep_lstep m1), vstep_refl.
  - split; [done|]. by exists m1, s1, l, n, p, pi.
Qed.

Lemma vfs_unlink_ok B Cr E m s path : vinv B Cr E m s -> TI m (v_world s) -> spare Cr E -> v_held s = [] ->
  is_Some (cur_task s) -> wp (vfs_unlink path) (unlink_post B Cr E m s path false) s.
Proof. apply remove_call_ok. intros w p i n. apply fs_unlink_ok. Qed.

Lemma vfs_rmdir_ok B Cr E m s path : vinv B Cr E m s -> TI m (v_world s) -> spare Cr E -> v_held s = [] ->
  is_Some (cur_task s) -> wp (vfs_rmdir path) (unlink_post B Cr E m s path true) s.
Proof. apply remove_call_ok. intros w p i n. apply fs_rmdir_ok. Qed.

(** ** Truncation *)
Lemma wp_harmless {A X} (op : M (world F) X) B Cr E m s (k : X -> M St A) Q :
  vinv B Cr E m s -> TI m (v_world s) -> harmless op (v_world s) fs_ok ->
  (forall x s', lstep m s m s' -> TI m (v_world s') -> vinv B Cr E m s' -> (exists w, s' = with_world w s) -> wp (k x) Q s') ->
  wp (mbind' (in_world op) k) Q s.
Proof.
  intros I HT Hop W. apply wp_bind. unfold in_world. apply wp_zoom. eapply wp_conseq; [exact Hop|].
  intros x w (Ok & Hk & Ht). pose proof (lstep_keeps m s w Hk Ok Ht) as L.
  apply W; [done|by eapply TI_lstep|by eapply vinv_keeps|by exists w].
Qed.

Lemma vfs_truncate_ok B Cr E m s p size : vinv B Cr E m s -> TI m (v_world s) -> v_held s = [] ->
  is_Some (cur_task s) -> p ∈ refs m s ++ Cr ->
  wp (vfs_truncate p size) (fun r s' => lstep m s m s' /\ TI m (v_world s') /\ vinv B Cr E m s') s.
Proof.
  intros I HT Hh [tk Htk] Hp. destruct (ref_live _ _ _ _ _ p I Hp) as (i & Hi & Hp0).
  assert (lstep m s m s) as L0 by (apply vstep_lstep, vstep_refl, I).
  unfold vfs_truncate. rewrite (proj2 (Z.eqb_neq p 0)) by done. apply wp_get_task; [by rewrite Htk|].
  intros n t _ _ _. eapply wp_ino; [exact Hi|]. destruct (_ <? 0); [by apply wp_ret|].
  destruct (negb _); [by apply wp_ret|]. apply wp_acquire; [rewrite Hh; constructor|]. rewrite Hh.
  eapply wp_harmless; [by apply vinv_held|exact HT|eapply fs_truncate_ok; [apply I|done]|].
  intros r s1 L1 HT1 I1 _. apply (wp_release LMeta []); [by rewrite (frame_held _ _ (proj1 L1))|by apply not_elem_of_nil|].
  apply wp_ret. apply (lstep_unheld m s) in L1. rewrite Hh in L1. split; [done|]. split; [done|by apply vinv_held].
Qed.
End Dir.
