(* ===== verification/VfsFile.v ===== *)
(** Open files and descriptors under the invariant.

    The reference count of a [struct file] is the number of descriptor slots
    of all processes that hold it, plus the references [E] of the running
    call; the file is freed, its inode put and its device closed when the last
    one goes. *)
From stdpp Require Import base gmap list strings.
From Stdlib Require Import ZArith Lia.
From S2P Require Import Prelude HashMap VfsPath Vfs VfsInv VfsCache VfsWalk VfsDir.
Open Scope Z_scope.

(** the functions of a driver end *)
Class CharLaws (C : Type) {CD : CharDriver C} := {
  cd_open_ok : forall c p fl, wp (cd_open p fl) (fun _ _ => True) c;
  cd_read_ok : forall c p n, wp (cd_read p n) (fun _ _ => True) c;
  cd_write_ok : forall c p buf, wp (cd_write p buf) (fun _ _ => True) c;
  cd_close_ok : forall c p, wp (cd_close p) (fun _ _ => True) c }.

(** ** Lists of slots *)
Lemma alter_insert_list {A} (f : A -> A) n x (l : list A) : l !! n = Some x -> alter f n l = <[n := f x]> l.
Proof. revert n. induction l as [|y l IH]; intros [|n]; simpl; [done..|by intros [= ->]|]. intros E. f_equal. by apply IH. Qed.

#[export] Instance nonnull_perm : Proper ((≡ₚ) ==> (≡ₚ)) nonnull.
Proof. intros l k E. unfold nonnull. by rewrite E. Qed.
Lemma nonnull_cons p l : nonnull (p :: l) = nonnull [p] ++ nonnull l.
Proof. apply (nonnull_app [p] l). Qed.
Lemma nonnull_one p : p <> 0 -> nonnull [p] = [p].
Proof. intros. unfold nonnull. by rewrite filter_cons_True. Qed.
Lemma nonnull_zero : nonnull [0] = [].
Proof. done. Qed.
Lemma nonnull_in p l : p ∈ nonnull l <-> p <> 0 /\ p ∈ l.
Proof. unfold nonnull. by rewrite list_elem_of_filter. Qed.

Lemma nonnull_insert l i old p : l !! i = Some old ->
  nonnull [old] ++ nonnull (<[i := p]> l) ≡ₚ nonnull [p] ++ nonnull l.
Proof.
  intros Hi. assert (i < length l)%nat by (by eapply lookup_lt_Some).
  rewrite insert_take_drop by done. rewrite <- (take_drop_middle l i old Hi) at 3.
  rewrite !nonnull_app, !(nonnull_cons _ (drop _ _)). solve_Permutation.
Qed.

Lemma slots_insert ts n t t' : ts !! n = Some t ->
  nonnull (t_ofile t) ++ slots (<[n := t']> ts) ≡ₚ nonnull (t_ofile t') ++ slots ts.
Proof.
  intros Hn. assert (n < length ts)%nat by (by eapply lookup_lt_Some).
  rewrite insert_take_drop by done. rewrite <- (take_drop_middle ts n t Hn) at 3.
  unfold slots. rewrite !fmap_app, !concat_app, !nonnull_app. simpl. rewrite !nonnull_app. solve_Permutation.
Qed.

Lemma cwds_insert ts n t t' : ts !! n = Some t ->
  nonnull [t_cwd t] ++ cwds (<[n := t']> ts) ≡ₚ nonnull [t_cwd t'] ++ cwds ts.
Proof.
  intros Hn. unfold cwds. rewrite list_fmap_insert. apply nonnull_insert. by rewrite list_lookup_fmap, Hn.
Qed.

Lemma finodes_insert fl p f f' : fl !! p = Some f -> f_inode f' = f_inode f -> finodes (<[p := f']> fl) ≡ₚ finodes fl.
Proof.
  intros Hp Ef. rewrite <- (insert_delete_id fl p f Hp) at 2. rewrite <- insert_delete_eq. unfold finodes.
  rewrite !map_to_list_insert by apply lookup_delete_eq. rewrite !fmap_cons. cbn [snd]. by rewrite Ef.
Qed.
Lemma finodes_new fl p f : fl !! p = None -> finodes (<[p := f]> fl) ≡ₚ nonnull [f_inode f] ++ finodes fl.
Proof. intros Hp. unfold finodes. rewrite map_to_list_insert by done. rewrite !fmap_cons. by rewrite nonnull_cons. Qed.
Lemma finodes_delete fl p f : fl !! p = Some f -> finodes fl ≡ₚ nonnull [f_inode f] ++ finodes (delete p fl).
Proof. intros Hp. rewrite <- (insert_delete_id fl p f Hp) at 1. apply finodes_new, lookup_delete_eq. Qed.


Section File.
Context {F C T D H : Type} `{FL : FsLaws F} `{CL : CharLaws C}.
Context `{IT : !KvTable ikey T} `{DT : !KvTable (list Z) D} `{HH : Heap H}.
Abbreviation St := (vfs_state F C T D H).
Implicit Types (s : St) (w : world F) (m : gmap ikey Z) (B : gset Z) (Cr E : list Z).
Abbreviation inodes s := (w_inodes (v_world s)).
Ltac lite := unfold spare, light in *; simpl in *; lia.

(** what no file operation changes *)
Definition calm s s' : Prop :=
  v_root s' = v_root s /\ v_reg s' = v_reg s /\ v_cur s' = v_cur s /\ v_held s' = v_held s /\
  v_devs s' = v_devs s /\ v_cdevs s' = v_cdevs s.
Lemma calm_refl s : calm s s.
Proof. done. Qed.
Lemma calm_trans s1 s2 s3 : calm s1 s2 -> calm s2 s3 -> calm s1 s3.
Proof. intros (? & ? & ? & ? & ? & ?) (? & ? & ? & ? & ? & ?). repeat split; congruence. Qed.
Lemma calm_frame s s' : frame s s' -> calm s s'.
Proof. by intros (h & w & t & ->). Qed.
Lemma calm_held s s' : calm s s' -> v_held s' = v_held s.
Proof. by intros (_ & _ & _ & ? & _). Qed.

Lemma wp_fil {A} p f (k : file -> M St A) Q s : v_files s !! p = Some f -> wp (k f) Q s -> wp (mbind' (fil p) k) Q s.
Proof. intros E W. unfold fil. apply wp_bind, wp_gets. rewrite E. exact W. Qed.

(** a file changes in position or count *)
Lemma vinv_fil B Cr E E' m s p f f' : vinv B Cr E m s -> v_files s !! p = Some f ->
  f_inode f' = f_inode f -> f_fops f' = f_fops f -> f_private f' = f_private f ->
  FI (slots (v_tasks s) ++ E') (<[p := f']> (v_files s)) ->
  vinv B Cr E' m (with_files (<[p := f']> (v_files s)) s).
Proof.
  intros I Hf Hi Ho Hpr HF. assert (dom (<[p := f']> (v_files s)) = dom (v_files s)) as Ed.
  { rewrite dom_insert_L. assert (p ∈ dom (v_files s)) by (apply elem_of_dom; by exists f). set_solver. }
  destruct I as [? ? R K ? Hok ? ? ? ? Hh Hd Hn ? ?].
  split; unfold objs, mptrs, mounts in *; simpl in *; rewrite ?Ed; try done.
  - eapply counted_proper; [|reflexivity|exact R]. unfold refs. simpl. by rewrite (finodes_insert _ _ _ _ Hf Hi).
  - intros q g [[<- <-]|[_ Hg]]%lookup_insert_Some; [|by eapply Hok]. specialize (Hok p f Hf). unfold file_ok in *.
    by rewrite Ho, Hi, Hpr.
Qed.

Lemma file_room B Cr E m s p f : vinv B Cr E m s -> light Cr E -> v_files s !! p = Some f -> 0 < f_refcount f < 2 ^ 32 - 1.
Proof.
  intros I Hl Hf. pose proof (vi_files _ _ _ _ _ I p) as Hp. rewrite Hf in Hp. destruct Hp as [-> Hp%occ_pos].
  pose proof (occ_le p (slots (v_tasks s) ++ E)) as Ho. rewrite length_app in Ho.
  pose proof (slots_len _ (vi_tasks _ _ _ _ _ I)). pose proof (vi_few _ _ _ _ _ I). unfold light, NTASKS in *. lia.
Qed.

Lemma file_live B Cr E m s p : vinv B Cr E m s -> p ∈ slots (v_tasks s) ++ E -> exists f, v_files s !! p = Some f /\ p <> 0.
Proof.
  intros I Hp. destruct (counted_live _ _ _ p (vi_files _ _ _ _ _ I) Hp) as (f & Hf & _). exists f. split; [done|].
  intros ->. apply (vi_null _ _ _ _ _ I). unfold objs. assert (0 ∈ dom (v_files s)) by (apply elem_of_dom; by exists f).
  set_solver.
Qed.

Lemma wp_file_get {A} B Cr E m s p (k : unit -> M St A) Q :
  vinv B Cr E m s -> light Cr E -> p ∈ slots (v_tasks s) ++ E -> below 3 (v_held s) ->
  (forall fl, vinv B Cr (p :: E) m (with_files fl s) -> wp (k tt) Q (with_files fl s)) ->
  wp (mbind' (file_get p) k) Q s.
Proof.
  intros I Hl Hp Hb W. destruct (file_live _ _ _ _ _ _ I Hp) as (f & Hf & Hp0).
  unfold file_get. rewrite (proj2 (Z.eqb_neq p 0)) by done. apply wp_bind, wp_acquire; [done|].
  eapply wp_fil; [exact Hf|]. unfold set_fil. apply wp_modify.
  apply (wp_release' (LFile p) (v_held s)); [done|by apply below_notin|].
  pose proof (file_room _ _ _ _ _ _ _ I Hl Hf). rewrite u32_small by lia.
  match goal with |- wp _ _ ?x => replace x with (with_files (<[p := set_frefcount (f_refcount f + 1) f]> (v_files s)) s) by (by destruct s) end.
  apply W. eapply vinv_fil; [exact I|exact Hf|done|done|done|].
  eapply counted_proper; [symmetry; apply Permutation_middle|reflexivity|]. by eapply counted_get; [apply I|..].
Qed.

Lemma wp_eta {A} (c : M St A) Q s : wp (mbind' c mret) Q s -> wp c Q s.
Proof. unfold wp, mbind'. by destruct (c s) as [[a s']| | |]. Qed.

(** *** Drivers and file systems at work on a file *)
Lemma vinv_drv B Cr E m s c : vinv B Cr E m s -> vinv B Cr E m (with_drv c s).
Proof. intros I. destruct I. by split. Qed.

Lemma wp_drv {A X} (op : M C X) (k : X -> M St A) Q s : (forall c, wp op (fun _ _ => True) c) ->
  (forall x c, wp (k x) Q (with_drv c s)) -> wp (mbind' (in_drv op) k) Q s.
Proof.
  intros Hop W. apply wp_bind. unfold in_drv. apply wp_zoom. eapply wp_conseq; [apply Hop|]. intros x c _. apply W.
Qed.

Lemma wp_cdev {A} f op (k : option char_device -> M St A) Q s : is_Some (v_devs s !! f_private f) ->
  (forall d, wp (k d) Q s) -> wp (mbind' (cdev_of f op) k) Q s.
Proof.
  intros [d Hd] W. unfold cdev_of. apply wp_bind. destruct (f_private f =? 0); [by apply wp_ret|].
  apply wp_gets. rewrite Hd. apply wp_ret. apply W.
Qed.

(** the worlds differ in what a walk does not depend on *)
Definition wkeep m w w' : Prop :=
  fs_ok w' /\ w_sbs w' = w_sbs w /\ same_tree w w' /\
  forall p j, attached m w p -> w_inodes w' !! p = Some j -> exists i, w_inodes w !! p = Some i /\ same_attr i j.

Lemma wkeep_refl m w : fs_ok w -> wkeep m w w.
Proof. intros Ok. do 3 (split; [done|]). intros p j _ Hj. by exists j. Qed.
Lemma wkeep_trans m w1 w2 w3 : wkeep m w1 w2 -> wkeep m w2 w3 -> wkeep m w1 w3.
Proof.
  intros (O1 & S1 & T1 & I1) (O2 & S2 & T2 & I2). split; [done|]. split; [congruence|].
  split; [intros Hx sb d k; by rewrite (T2 Hx), (T1 Hx)|]. intros p j Ha Hj.
  destruct (I2 p j) as (i2 & Hi2 & ? & ? & ? & ? & ?); [|done|].
  { by eapply attached_weaken. }
  destruct (I1 p i2 Ha Hi2) as (i1 & Hi1 & ? & ? & ? & ? & ?). exists i1. split; [done|].
  unfold same_attr. repeat split; congruence.
Qed.
Lemma wkeep_counts m w w' : counts w w' -> wkeep m w w'.
Proof. intros (? & ? & ? & Hi). do 3 (split; [done|]). intros p j _ Hj. destruct (Hi p j Hj) as (i & ? & ->). by exists i. Qed.
Lemma wkeep_lstep m s m' s' : lstep m s m' s' -> wkeep m (v_world s) (v_world s').
Proof. by intros (_ & ? & ? & ? & _ & ?). Qed.
Lemma TI_wkeep m w w' : TI m w -> wkeep m w w' -> TI m w'.
Proof.
  intros HT (_ & Es & Et & Hi). eapply TI_same; [done..|]. intros p j Ha Hj.
  destruct (Hi p j Ha Hj) as (i & Hi' & ? & ? & _). by exists i.
Qed.

(** the file's own operation: close *)
Lemma file_inode_ref m s p f Cr : v_files s !! p = Some f -> f_inode f <> 0 -> f_inode f ∈ refs m s ++ Cr.
Proof.
  intros Hf Hi. apply elem_of_app. left. do 2 (apply elem_of_app; right). apply elem_of_app. left.
  apply nonnull_in. split; [done|]. apply list_elem_of_fmap. exists f. split; [done|]. apply list_elem_of_fmap.
  exists (p, f). split; [done|]. by apply elem_of_map_to_list.
Qed.

(** a harmless operation of the file system, on the inode of an open file *)
Lemma wp_fs_op {A X} (op : M (world F) X) m s (k : X -> M St A) Q :
  harmless op (v_world s) fs_ok ->
  (forall x w, keeps (v_world s) w -> wkeep m (v_world s) w -> wp (k x) Q (with_world w s)) ->
  wp (mbind' (in_world op) k) Q s.
Proof.
  intros Hop W. apply wp_bind. unfold in_world. apply wp_zoom. eapply wp_conseq; [exact Hop|].
  intros x w (Ok & Hk & Ht). apply W; [done|]. split; [done|]. split; [apply (Hk 0)|]. split; [done|].
  intros p j _ Hj. destruct (keeps_inode _ _ _ _ Hk Hj) as (i & Hi & (? & ? & _) & ? & ? & ? & _). by exists i.
Qed.

(** the file's close operation, whatever the file's fields say of counts *)
Definition close_op (f : file) : M St unit :=
  match f_fops f with
  | NoFops => mret tt
  | ChardevFops => chardev_file_close f ;;; mret tt
  | FsFops k => if has_fop k FopClose then in_world (fs_close f) ;;; mret tt else mret tt
  end.

Lemma wp_close_op {A} f m s (k : unit -> M St A) Q :
  fs_ok (v_world s) -> file_ok (v_devs s) f -> (f_inode f <> 0 -> is_Some (inodes s !! f_inode f)) ->
  (forall w c, keeps (v_world s) w -> wkeep m (v_world s) w -> wp (k tt) Q (with_world w (with_drv c s))) ->
  wp (mbind' (close_op f) k) Q s.
Proof.
  intros Ok Hf Hi W. apply wp_bind. unfold close_op, file_ok in *.
  assert (keeps (v_world s) (v_world s)) as Hk.
  { intros p. split; [done|]. intros q _. destruct (inodes s !! q); done. }
  assert (wp (k tt) Q s) as W0.
  { specialize (W (v_world s) (v_drv s) Hk (wkeep_refl _ _ Ok)). by destruct s. }
  destruct (f_fops f) as [| |ops].
  - by apply wp_ret.
  - destruct Hf as [_ Hd]. apply wp_bind. unfold chardev_file_close. apply wp_cdev; [done|]. intros [d|].
    + apply wp_eta, wp_drv; [intros; apply cd_close_ok|]. intros x c.
      do 2 apply wp_ret. specialize (W (v_world s) c Hk (wkeep_refl _ _ Ok)). by destruct s.
    + by do 2 apply wp_ret.
  - destruct (has_fop ops FopClose); [|by apply wp_ret]. destruct (Hi Hf) as [i Hi'].
    eapply (wp_fs_op _ m); [by eapply fs_close_ok|]. intros x w Hk' Hw. apply wp_ret.
    specialize (W w (v_drv s) Hk' Hw). by destruct s.
Qed.
Lemma objs_drop s fl p : v_files s !! p = Some fl -> (dom (v_files s) ## mptrs s) ->
  (dom (v_files s) ∪ mptrs s ## dom (v_devs s)) ->
  objs (with_files (delete p (v_files s)) s) = objs s ∖ {[p]} .
Proof.
  intros Hf H1 H2. assert (p ∈ dom (v_files s)) by (apply elem_of_dom; by exists fl).
  unfold objs, mptrs, mounts in *. simpl. rewrite dom_delete_L. apply set_eq. intros x.
  rewrite !elem_of_union, !elem_of_difference, !elem_of_union, elem_of_singleton. set_solver.
Qed.

(** a file without references left: its slot in the heap and its inode reference go *)
Lemma vinv_drop_file B Cr E m s p f w h : vinv B Cr (p :: E) m s -> v_files s !! p = Some f -> f_refcount f = 1 ->
  counts (v_world s) w -> RI (refs m (with_files (delete p (v_files s)) s) ++ Cr) (w_inodes w) ->
  heap_inv h ((B ∪ objs s) ∖ {[p]}) ->
  vinv B Cr E m (with_heap h (with_files (delete p (v_files s)) (with_world w s))).
Proof.
  intros I Hf Hc Hw HR Hh. pose proof I as I0. destruct I as [? ? R K HF Hok ? ? ? ? _ (Hd1 & Hd2 & Hd3) Hn Mo ?].
  pose proof (vinv_counts B Cr Cr (p :: E) m s w) as Hvc.
  pose proof (objs_drop s f p Hf Hd2 Hd3) as Eo.
  assert (p ∈ objs s) as Hp by (unfold objs; assert (p ∈ dom (v_files s)) by (apply elem_of_dom; by exists f); set_solver).
  assert (objs (with_heap h (with_files (delete p (v_files s)) (with_world w s))) = objs s ∖ {[p]}) as Eo'
    by (rewrite <- Eo; done).
  destruct Hw as (Ok & Es & Et & Hi).
  split; try done.
  - unfold refs, roots. simpl. rewrite Es. exact HR.
  - intros q n x Hx. destruct (K q n x Hx) as (i & Hi0 & <- & <-).
    destruct (counted_live _ _ _ x HR) as (j & Hj & _); [by eapply cached_ref|].
    destruct (Hi x j Hj) as (i' & Hi' & Ej). exists j. simplify_eq. rewrite Ej. split; [simpl; congruence|done].
  - simpl. eapply counted_drop; [|exact Hf|done]. eapply counted_proper; [|reflexivity|exact HF]. solve_Permutation.
  - intros q g. simpl. intros [_ Hg]%lookup_delete_Some. by eapply Hok.
  - rewrite Eo'. simpl. replace (B ∪ objs s ∖ {[p]}) with ((B ∪ objs s) ∖ {[p]}); [done|].
    apply set_eq. intros x. set_solver.
  - rewrite Eo'. unfold mptrs, mounts in *. simpl. rewrite dom_delete_L. set_solver.
  - rewrite Eo'. set_solver.
  - unfold mounts in *. simpl. by rewrite Es.
Qed.

(** what the last reference's end leaves alone *)
Definition fput m s s' : Prop :=
  calm s s' /\ v_tasks s' = v_tasks s /\ wkeep m (v_world s) (v_world s').

Lemma wp_file_put {A} B Cr E m s p (k : unit -> M St A) Q :
  vinv B Cr (p :: E) m s -> light Cr (p :: E) -> below 3 (v_held s) ->
  (forall s', fput m s s' -> (forall q, q <> p -> v_files s' !! q = v_files s !! q) -> vinv B Cr E m s' -> wp (k tt) Q s') ->
  wp (mbind' (file_put p) k) Q s.
Proof.
  intros I Hl Hb W. destruct (file_live _ _ _ _ _ p I) as (f & Hf & Hp0); [apply elem_of_app; right; by left|].
  pose proof (file_room _ _ _ _ _ _ _ I Hl Hf) as Hrc.
  unfold file_put. rewrite (proj2 (Z.eqb_neq p 0)) by done. apply wp_bind, wp_acquire; [done|].
  eapply wp_fil; [exact Hf|]. destruct (0 <? f_refcount f) eqn:Ez; breflect; [|lia].
  unfold set_fil. apply wp_modify. apply (wp_release (LFile p) (v_held s)); [done|by apply below_notin|].
  set (f1 := set_frefcount (f_refcount f - 1) f).
  match goal with |- wp _ _ ?x => replace x with (with_files (<[p := f1]> (v_files s)) s) by (by destruct s) end.
  destruct (f_refcount f - 1 =? 0) eqn:En; breflect; simpl negb; cbn iota.
  2:{ apply wp_ret, W; [|intros q Hq; simpl; by rewrite lookup_insert_ne|].
      - split; [done|]. split; [done|]. apply wkeep_refl, I.
      - eapply vinv_fil; [exact I|exact Hf|done|done|done|]. eapply counted_put; [|exact Hf|lia|done].
        eapply counted_proper; [|reflexivity|apply I]. solve_Permutation. }
  set (s1 := with_files (<[p := f1]> (v_files s)) s).
  eapply wp_fil; [apply lookup_insert_eq|]. fold (close_op f1).
  assert (f_inode f <> 0 -> exists i, inodes s !! f_inode f = Some i) as Hin.
  { intros Hi. destruct (ref_live _ _ _ _ _ _ I (file_inode_ref m s p f Cr Hf Hi)) as (i & ? & _). by exists i. }
  apply (wp_close_op f1 m); [apply I|apply (vi_file _ _ _ _ _ I p f Hf)|intros Hi; destruct (Hin Hi) as [i ?]; by exists i|].
  intros w c Hk Hw. set (s2 := with_world w (with_drv c s)).
  assert (vinv B Cr (p :: E) m s2) as I2 by (apply (vinv_keeps _ _ _ _ (with_drv c s)); [by apply vinv_drv|done|apply Hw]).
  set (R := refs m (with_files (delete p (v_files s2)) s2) ++ Cr).
  assert (RI (nonnull [f_inode f] ++ R) (inodes s2)) as HR.
  { eapply counted_proper; [|reflexivity|apply I2]. unfold R, refs. simpl.
    rewrite (finodes_delete _ _ _ Hf). solve_Permutation. }
  assert (forall w3, counts (v_world s2) w3 -> RI R (w_inodes w3) ->
    wp (modify (fun s => with_files (delete p (v_files s)) s) ;;; slab_free p) (fun a => wp (k a) Q)
       (with_world w3 (with_world w (with_drv c s1)))) as Hend.
  { intros w3 Hc3 HR3. apply wp_modify. unfold slab_free. apply wp_zoom. unfold wp. simpl.
    assert (p ∈ objs s) as Hpo by (unfold objs; assert (p ∈ dom (v_files s)) by (apply elem_of_dom; by exists f); set_solver).
    destruct (hfree_ok (v_heap s) (B ∪ objs s) p) as (h & -> & Hh); [apply I|set_solver|].
    replace (with_heap h _) with (with_heap h (with_files (delete p (v_files s2)) (with_world w3 s2))).
    2:{ destruct s. simpl. f_equal. by rewrite delete_insert_eq. }
    apply W.
    - split; [done|]. split; [done|]. eapply wkeep_trans; [exact Hw|by apply wkeep_counts].
    - intros q Hq. simpl. by rewrite lookup_delete_ne.
    - eapply vinv_drop_file; [exact I2|exact Hf|lia|done|done|done]. }
  destruct (decide (f_inode f = 0)) as [E0|E0].
  - unfold inode_put. change (f_inode f1) with (f_inode f). rewrite E0. change (0 =? 0) with true. cbn iota.
    apply wp_bind, wp_ret. rewrite E0 in HR. specialize (Hend w (counts_refl _ (vi_fs _ _ _ _ _ I2)) HR). exact Hend.
  - change (f_inode f1) with (f_inode f). rewrite nonnull_one in HR by done.
    eapply (wp_inode_put R); [apply I2|exact HR| | |].
    + pose proof (refs_room _ _ _ _ _ I2 Hl) as Hr.
      assert (length (refs m s2 ++ Cr) = S (length R)) as El.
      { unfold R, refs. simpl. rewrite !length_app.
        rewrite (Permutation_length (finodes_delete _ _ _ Hf)), nonnull_one by done. simpl. lia. }
      lia.
    + simpl. eapply below_mono; [done|lia].
    + intros w3 Hc3 HR3. by apply Hend.
Qed.
(** ** Descriptors *)
Lemma first_free_spec l : forall k i, first_free k l = Some i ->
  exists j, i = (k + j)%nat /\ l !! j = Some 0 /\ forall x, (x < j)%nat -> exists p, l !! x = Some p /\ p <> 0.
Proof.
  induction l as [|p l IH]; intros k i; simpl; [done|]. destruct (p =? 0) eqn:E0; breflect.
  - intros [= <-]. exists 0%nat. split; [lia|]. split; [by rewrite E0|]. lia.
  - intros Hi. destruct (IH _ _ Hi) as (j & -> & Hj & Hx). exists (S j). split; [lia|]. split; [done|].
    intros [|x] Hlt; [by exists p|]. apply Hx. lia.
Qed.
Lemma first_free_none l : forall k, first_free k l = None -> Forall (fun p => p <> 0) l.
Proof.
  induction l as [|p l IH]; intros k; simpl; [constructor|]. destruct (p =? 0) eqn:E0; breflect; [done|].
  intros Hn. constructor; [done|by eapply IH].
Qed.

(** the table of task [n] with [p] at descriptor [i] *)
Definition put_fd n t i p s : St := with_tasks (<[n := set_ofile (<[i := p]> (t_ofile t)) t]> (v_tasks s)) s.

Lemma fd_alloc_run {A} s n t p f (k : Z -> M St A) Q :
  v_cur s = Some n -> v_tasks s !! n = Some t -> v_files s !! p = Some f -> p <> 0 -> below 2 (v_held s) ->
  0 <= f_refcount f < 2 ^ 32 - 1 ->
  (forall i, first_free 0 (t_ofile t) = Some i ->
     wp (k (Z.of_nat i)) Q (with_files (<[p := set_frefcount (f_refcount f + 1) f]> (v_files s)) (put_fd n t i p s))) ->
  (first_free 0 (t_ofile t) = None -> wp (k (-1)) Q s) ->
  wp (mbind' (fd_alloc p) k) Q s.
Proof.
  intros Hc Ht Hf Hp Hb Hr Ws Wn. unfold fd_alloc. rewrite (proj2 (Z.eqb_neq p 0)) by done. apply wp_bind.
  apply wp_get_task; [unfold cur_task; by rewrite Hc, Ht|]. intros n' t' En Et _.
  assert (n' = n) as -> by congruence. assert (t' = t) as -> by congruence. clear En Et. apply wp_acquire; [done|]. unfold get_task. apply wp_gets. simpl. rewrite Hc, Ht.
  destruct (first_free 0 (t_ofile t)) as [i|] eqn:Ef.
  - specialize (Ws i eq_refl). unfold set_task. apply wp_modify. simpl. rewrite (alter_insert_list _ n t _ Ht).
    unfold file_get. rewrite (proj2 (Z.eqb_neq p 0)) by done.
    apply wp_bind, wp_acquire; [constructor; [simpl; lia|eapply below_mono; [done|simpl; lia]]|].
    eapply wp_fil; [exact Hf|]. unfold set_fil. apply wp_modify.
    apply (wp_release' (LFile p) (LTask n :: v_held s)); [done| |].
    { rewrite not_elem_of_cons. split; [done|]. apply below_notin. eapply below_mono; [done|simpl; lia]. }
    apply (wp_release (LTask n) (v_held s)); [done|by apply below_notin|]. apply wp_ret.
    rewrite u32_small by lia. destruct s. exact Ws.
  - apply (wp_release (LTask n) (v_held s)); [done|by apply below_notin|]. apply wp_ret.
    specialize (Wn eq_refl). by destruct s.
Qed.

(** a file moves into a free slot, with a reference of its own *)
Lemma task_ok_ofile t i p : task_ok t -> task_ok (set_ofile (<[i := p]> (t_ofile t)) t).
Proof. intros [Hl Hc]. split; [|done]. simpl. by rewrite length_insert. Qed.

(** one task changes: its references and the caller's change hands *)
Lemma vinv_task B Cr Cr' E E' m s n t t' : vinv B Cr E m s -> v_tasks s !! n = Some t -> task_ok t' ->
  nonnull [t_cwd t'] ++ Cr' ≡ₚ nonnull [t_cwd t] ++ Cr -> nonnull (t_ofile t') ++ E' ≡ₚ nonnull (t_ofile t) ++ E ->
  vinv B Cr' E' m (with_tasks (<[n := t']> (v_tasks s)) s).
Proof.
  intros I Ht Hok HC HE. assert (n < length (v_tasks s))%nat by (by eapply lookup_lt_Some).
  pose proof (slots_insert _ _ _ t' Ht) as Hs. pose proof (cwds_insert _ _ _ t' Ht) as Hcw.
  destruct I as [? ? R K HF Hfo ? Hto Hcu ? ? ? ? ? ?]. split; try done.
  - eapply counted_proper; [|reflexivity|exact R]. unfold refs. simpl. rewrite <- !app_assoc. do 3 apply Permutation_app_head.
    apply (Permutation_app_inv_l (nonnull [t_cwd t])). rewrite app_assoc, Hcw, <- app_assoc.
    rewrite (Permutation_app_swap_app (nonnull [t_cwd t'])), HC. solve_Permutation.
  - simpl. eapply counted_proper; [|reflexivity|exact HF].
    apply (Permutation_app_inv_l (nonnull (t_ofile t))). rewrite app_assoc, Hs, <- app_assoc.
    rewrite (Permutation_app_swap_app (nonnull (t_ofile t'))), HE. solve_Permutation.
  - simpl. by rewrite length_insert.
  - simpl. by apply Forall_insert.
  - intros k Hk. simpl. rewrite length_insert. by apply Hcu.
Qed.

Lemma nonnull_slot l i old p E E' : l !! i = Some old -> nonnull [p] ++ E' ≡ₚ nonnull [old] ++ E ->
  nonnull (<[i := p]> l) ++ E' ≡ₚ nonnull l ++ E.
Proof.
  intros Hi HE. pose proof (nonnull_insert l i old p Hi) as Hn. apply (Permutation_app_inv_l (nonnull [old])).
  rewrite app_assoc, Hn, <- app_assoc, (Permutation_app_swap_app (nonnull [p])), HE. solve_Permutation.
Qed.

Lemma vinv_put_fd B Cr E E' m s n t i old p : vinv B Cr E m s -> v_tasks s !! n = Some t -> t_ofile t !! i = Some old ->
  nonnull [p] ++ E' ≡ₚ nonnull [old] ++ E -> vinv B Cr E' m (put_fd n t i p s).
Proof.
  intros I Ht Hi HE. eapply (vinv_task B Cr Cr E E'); [done|done| |done|by eapply nonnull_slot].
  apply task_ok_ofile. pose proof (vi_tasks _ _ _ _ _ I) as Hto. rewrite Forall_lookup in Hto. by eapply Hto.
Qed.

Lemma slot_ref s n t fd p E : v_tasks s !! n = Some t -> t_ofile t !! fd = Some p -> p <> 0 -> p ∈ slots (v_tasks s) ++ E.
Proof.
  intros Ht Hp H0. apply elem_of_app. left. apply nonnull_in. split; [done|].
  apply list_elem_of_In, in_concat. exists (t_ofile t). split; apply list_elem_of_In; [|by eapply list_elem_of_lookup_2].
  apply list_elem_of_fmap. exists t. split; [done|]. by eapply list_elem_of_lookup_2.
Qed.

Lemma ofile_slot B Cr E m s n t fd : vinv B Cr E m s -> v_tasks s !! n = Some t -> fd_ok fd = true ->
  t_ofile t !! Z.to_nat fd = Some (ofile t fd).
Proof.
  intros I Ht Hfd. unfold fd_ok in Hfd. breflect. pose proof (vi_tasks _ _ _ _ _ I) as Hto.
  rewrite Forall_lookup in Hto. destruct (Hto n t Ht) as [Hl _]. unfold ofile.
  destruct (t_ofile t !! Z.to_nat fd) as [p|] eqn:Ep; [done|]. apply lookup_ge_None in Ep. unfold NOFILE in *. lia.
Qed.

Lemma cur_task_some B Cr E m s n : vinv B Cr E m s -> v_cur s = Some n -> exists t, v_tasks s !! n = Some t.
Proof. intros I Hc. apply lookup_lt_is_Some. by apply (vi_cur _ _ _ _ _ I). Qed.

(** [fd_get]: the file at the descriptor, with a reference for the caller *)
Lemma wp_fd_get {A} B Cr E m s fd (k : Z -> M St A) Q :
  vinv B Cr E m s -> light Cr E -> below 2 (v_held s) ->
  ((forall n t, v_cur s = Some n -> v_tasks s !! n = Some t -> fd_ok fd = true -> ofile t fd = 0) -> wp (k 0) Q s) ->
  (forall n t p fl, v_cur s = Some n -> v_tasks s !! n = Some t -> fd_ok fd = true -> ofile t fd = p -> p <> 0 ->
     vinv B Cr (p :: E) m (with_files fl s) -> wp (k p) Q (with_files fl s)) ->
  wp (mbind' (fd_get fd) k) Q s.
Proof.
  intros I Hl Hb W0 W1. unfold fd_get. apply wp_bind, wp_get_task.
  { intros Hno. apply wp_ret, W0. intros n t Hn Ht. unfold cur_task in Hno. by rewrite Hn, Ht in Hno. }
  intros n t Hn Ht _. destruct (fd_ok fd) eqn:Efd; simpl negb; cbn iota; [|by apply wp_ret, W0].
  apply wp_acquire; [done|]. pose proof (ofile_slot _ _ _ _ _ _ _ _ I Ht Efd) as Hs.
  destruct (ofile t fd =? 0) eqn:E0; breflect.
  - rewrite E0. apply wp_bind, wp_ret. apply (wp_release (LTask n) (v_held s)); [done|by apply below_notin|].
    apply wp_ret. replace (with_held (v_held s) _) with s by (by destruct s). apply W0. intros. congruence.
  - eapply wp_file_get; [by apply vinv_held|done|by eapply slot_ref| |].
    { constructor; [simpl; lia|]. eapply below_mono; [done|lia]. }
    intros fl I1. apply (wp_release (LTask n) (v_held s)); [done|by apply below_notin|]. apply wp_ret.
    replace (with_held (v_held s) _) with (with_files fl s) by (by destruct s).
    apply (W1 n t); [done|done|done|done|done|]. apply (vinv_held _ _ _ _ _ (v_held s)) in I1. by destruct s.
Qed.
(** [fd_alloc] for a file that the caller holds *)
Lemma wp_fd_alloc {A} B Cr E m s n t p (k : Z -> M St A) Q :
  vinv B Cr (p :: E) m s -> light Cr (p :: E) -> below 2 (v_held s) -> v_cur s = Some n -> v_tasks s !! n = Some t ->
  (forall i fl, first_free 0 (t_ofile t) = Some i -> vinv B Cr (p :: E) m (with_files fl (put_fd n t i p s)) ->
     (forall q, q <> p -> fl !! q = v_files s !! q) ->
     wp (k (Z.of_nat i)) Q (with_files fl (put_fd n t i p s))) ->
  (first_free 0 (t_ofile t) = None -> wp (k (-1)) Q s) ->
  wp (mbind' (fd_alloc p) k) Q s.
Proof.
  intros I Hl Hb Hc Ht Ws Wn. destruct (file_live _ _ _ _ _ p I) as (f & Hf & Hp0); [apply elem_of_app; right; by left|].
  pose proof (file_room _ _ _ _ _ _ _ I Hl Hf) as Hr.
  eapply (fd_alloc_run s n t p f); [done..|lia| |done]. intros i Hi. apply Ws; [done| |].
  - destruct (first_free_spec _ _ _ Hi) as (j & -> & Hj & _). simpl in *.
    assert (vinv B Cr E m (put_fd n t j p s)) as I1.
    { eapply vinv_put_fd; [exact I|done|exact Hj|]. by rewrite nonnull_one. }
    eapply (vinv_fil B Cr E (p :: E) m (put_fd n t j p s) p f); [exact I1|done|done|done|done|].
    eapply counted_proper; [symmetry; apply Permutation_middle|reflexivity|]. eapply counted_get; [apply I1|done|done].
  - intros q Hq. by rewrite lookup_insert_ne.
Qed.

(** the descriptor tables of all processes *)
Definition fd_tables s : list (list Z) := t_ofile <$> v_tasks s.
Definition set_table n i p (l : list (list Z)) : list (list Z) := alter (fun tab => <[i := p]> tab) n l.

Lemma put_fd_tables n t i p s : v_tasks s !! n = Some t -> fd_tables (put_fd n t i p s) = set_table n i p (fd_tables s).
Proof.
  intros Ht. unfold fd_tables, put_fd, set_table. simpl. rewrite list_fmap_insert. symmetry.
  rewrite (alter_insert_list _ n (t_ofile t)); [done|]. by rewrite list_lookup_fmap, Ht.
Qed.

(** what a descriptor call leaves: the invariant, and the tables as given *)
Definition fd_post B Cr E m s tabs s' : Prop :=
  vinv B Cr E m s' /\ TI m (v_world s') /\ calm s s' /\ wkeep m (v_world s) (v_world s') /\
  fd_tables s' = tabs /\ (set_ofile [] <$> v_tasks s') = (set_ofile [] <$> v_tasks s).

Lemma fd_post_refl B Cr E m s : vinv B Cr E m s -> TI m (v_world s) -> fd_post B Cr E m s (fd_tables s) s.
Proof. intros I HT. do 3 (split; [done|]). split; [apply wkeep_refl, I|done]. Qed.

Lemma fd_post_put B Cr E m s n t i p s' : v_tasks s !! n = Some t -> TI m (v_world s) -> vinv B Cr E m s' -> calm s s' ->
  v_tasks s' = v_tasks (put_fd n t i p s) -> wkeep m (v_world s) (v_world s') ->
  fd_post B Cr E m s (set_table n i p (fd_tables s)) s'.
Proof.
  intros Ht HT I Hc Htk Hw. split; [done|]. split; [by eapply TI_wkeep|]. do 2 (split; [done|]).
  rewrite <- (put_fd_tables n t i p s Ht). unfold fd_tables. rewrite Htk. split; [done|].
  simpl. rewrite list_fmap_insert. apply list_insert_id. by rewrite list_lookup_fmap, Ht.
Qed.

Lemma vfs_dup_ok B Cr E m s n t oldfd : vinv B Cr E m s -> TI m (v_world s) -> spare Cr E -> v_held s = [] ->
  v_cur s = Some n -> v_tasks s !! n = Some t ->
  wp (vfs_dup oldfd) (fun r s' =>
    (r = -1 /\ fd_post B Cr E m s (fd_tables s) s' /\
       (fd_ok oldfd = true -> ofile t oldfd <> 0 -> Forall (fun p => p <> 0) (t_ofile t))) \/
    exists i, r = Z.of_nat i /\ fd_ok oldfd = true /\ ofile t oldfd <> 0 /\ first_free 0 (t_ofile t) = Some i /\
      fd_post B Cr E m s (set_table n i (ofile t oldfd) (fd_tables s)) s') s.
Proof.
  intros I HT Hl Hh Hc Ht. unfold vfs_dup. assert (below 2 (v_held s)) as Hb by (rewrite Hh; constructor).
  eapply wp_fd_get; [exact I|lite|done| |].
  { intros Hz. apply wp_ret. left. split; [done|]. split; [by apply fd_post_refl|]. intros E1 E2. by destruct E2; eapply Hz. }
  intros n' t' p fl Hn Ht' Efd Ep Hp0 I1. simplify_eq. rewrite (proj2 (Z.eqb_neq _ 0)) by done.
  eapply (wp_fd_alloc B Cr E m (with_files fl s) n t); [exact I1|lite|done|done|done| |].
  - intros i fl' Hi I2 _. eapply wp_file_put; [exact I2|lite|simpl; rewrite Hh; constructor|].
    intros s3 (Hcalm & Htk & Hw) _ I3. apply wp_ret. right. exists i. do 4 (split; [done|]).
    by eapply fd_post_put.
  - intros Hno. eapply wp_file_put; [exact I1|lite|simpl; rewrite Hh; constructor|].
    intros s3 (Hcalm & Htk & Hw) _ I3. apply wp_ret. left. split; [done|]. split; [|intros _ _; by eapply first_free_none].
    split; [done|]. split; [by eapply TI_wkeep|]. split; [done|]. split; [done|]. unfold fd_tables. by rewrite Htk.
Qed.

Lemma fd_close_ok B Cr E m s n t fd : vinv B Cr E m s -> TI m (v_world s) -> spare Cr E -> v_held s = [] ->
  v_cur s = Some n -> v_tasks s !! n = Some t ->
  wp (fd_close fd) (fun r s' =>
    if fd_ok fd && negb (ofile t fd =? 0)
    then r = 0 /\ fd_post B Cr E m s (set_table n (Z.to_nat fd) 0 (fd_tables s)) s'
    else r = -1 /\ s' = s) s.
Proof.
  intros I HT Hl Hh Hc Ht. unfold fd_close. assert (below 2 (v_held s)) as Hb by (rewrite Hh; constructor).
  apply wp_get_task; [unfold cur_task; by rewrite Hc, Ht|]. intros n' t' Hn' Ht' _. simplify_eq.
  destruct (fd_ok fd) eqn:Efd; simpl; [|by apply wp_ret]. apply wp_acquire; [done|].
  pose proof (ofile_slot _ _ _ _ _ _ _ _ I Ht Efd) as Hs.
  destruct (ofile t fd =? 0) eqn:E0; breflect; simpl.
  { apply (wp_release (LTask n) (v_held s)); [done|by apply below_notin|]. apply wp_ret. split; [done|]. by destruct s. }
  unfold set_task. apply wp_modify. apply (wp_release (LTask n) (v_held s)); [done|by apply below_notin|].
  replace (with_held (v_held s) _) with (put_fd n t (Z.to_nat fd) 0 s).
  2:{ destruct s. unfold put_fd. simpl in *. by rewrite (alter_insert_list _ n t _ Ht). }
  assert (vinv B Cr (ofile t fd :: E) m (put_fd n t (Z.to_nat fd) 0 s)) as I1.
  { eapply vinv_put_fd; [exact I|done|exact Hs|]. by rewrite (nonnull_one (ofile t fd)). }
  eapply wp_file_put; [exact I1|lite|simpl; rewrite Hh; constructor|].
  intros s3 (Hcalm & Htk & Hw) _ I3. apply wp_ret. split; [done|].
  by eapply fd_post_put.
Qed.
End File.
