(* ===== verification/VfsOpen.v ===== *)
(** Reading, writing and seeking through open files, and vfs_open, under the
    invariant. *)
From stdpp Require Import base gmap list strings.
From Stdlib Require Import ZArith Lia.
From S2P Require Import Prelude HashMap VfsPath Vfs VfsInv VfsCache VfsWalk VfsDir VfsFile.
Open Scope Z_scope.

Section Open.
Context {F C T D H : Type} `{FL : FsLaws F} `{CL : CharLaws C}.
Context `{IT : !KvTable ikey T} `{DT : !KvTable (list Z) D} `{HH : Heap H}.
Abbreviation St := (vfs_state F C T D H).
Implicit Types (s : St) (w : world F) (m : gmap ikey Z) (B : gset Z) (Cr E : list Z).
Abbreviation inodes s := (w_inodes (v_world s)).
Ltac lite := unfold spare, light in *; simpl in *; lia.

(** ** Operations on the contents of a file *)

(** [op] runs in the driver or in the file system and leaves the tree alone *)
Definition quiet {X} m (op : M St X) s : Prop :=
  wp op (fun _ s' => exists w c, s' = with_world w (with_drv c s) /\ keeps (v_world s) w /\ wkeep m (v_world s) w) s.

Lemma keeps_refl w : keeps w w.
Proof. intros p. split; [done|]. intros q _. by destruct (w_inodes w !! q). Qed.

Lemma quiet_ret {X} m (x : X) s : fs_ok (v_world s) -> quiet m (mret x) s.
Proof. intros Ok. exists (v_world s), (v_drv s). split; [by destruct s|]. split; [apply keeps_refl|by apply wkeep_refl]. Qed.

Lemma quiet_drv {X Y} m (op : M C X) (g : X -> Y) s : fs_ok (v_world s) -> (forall c, wp op (fun _ _ => True) c) ->
  quiet m (let* x := in_drv op in mret (g x)) s.
Proof.
  intros Ok Hop. unfold quiet. apply wp_drv; [done|]. intros x c. apply wp_ret. exists (v_world s), c.
  split; [by destruct s|]. split; [apply keeps_refl|by apply wkeep_refl].
Qed.

Lemma quiet_fs {X} m (op : M (world F) X) s : harmless op (v_world s) fs_ok -> quiet m (in_world op) s.
Proof.
  intros Hop. unfold quiet. apply wp_eta. eapply (wp_fs_op _ m); [done|]. intros x w Hk Hw. apply wp_ret.
  exists w, (v_drv s). split; [by destruct s|done].
Qed.

Lemma quiet_cdev {X} m f op (k : option char_device -> M St X) s : is_Some (v_devs s !! f_private f) ->
  (forall d, quiet m (k d) s) -> quiet m (mbind' (cdev_of f op) k) s.
Proof. intros Hd Hk. by apply wp_cdev. Qed.

Lemma quiet_if {X} m (b : bool) (c1 c2 : M St X) s : quiet m c1 s -> quiet m c2 s -> quiet m (if b then c1 else c2) s.
Proof. by destruct b. Qed.

Lemma quiet_chardev_read m f n s : fs_ok (v_world s) -> is_Some (v_devs s !! f_private f) -> quiet m (chardev_file_read f n) s.
Proof.
  intros Ok Hd. apply quiet_cdev; [done|]. intros [d|]; [|by apply quiet_ret]. unfold quiet.
  apply wp_drv; [intros; apply cd_read_ok|]. intros x c.
  destruct (x.1 <? 0); apply wp_ret; exists (v_world s), c; (split; [by destruct s|]; split; [apply keeps_refl|by apply wkeep_refl]).
Qed.
Lemma quiet_chardev_write m f buf s : fs_ok (v_world s) -> is_Some (v_devs s !! f_private f) -> quiet m (chardev_file_write f buf) s.
Proof.
  intros Ok Hd. apply quiet_cdev; [done|]. intros [d|]; [|by apply quiet_ret]. unfold quiet.
  apply wp_drv; [intros; apply cd_write_ok|]. intros x c.
  destruct (x.1 <? 0); apply wp_ret; exists (v_world s), c; (split; [by destruct s|]; split; [apply keeps_refl|by apply wkeep_refl]).
Qed.

(** what an operation on file [p] leaves: only the file's position moves *)
Definition rw_post B Cr E m s p f pos s' : Prop :=
  vinv B Cr E m s' /\ TI m (v_world s') /\ calm s s' /\ v_tasks s' = v_tasks s /\ wkeep m (v_world s) (v_world s') /\
  v_files s' = <[p := set_fpos pos f]> (v_files s).

Lemma set_fpos_id f : set_fpos (f_pos f) f = f.
Proof. by destruct f. Qed.

Lemma rw_post_refl B Cr E m s p f : vinv B Cr E m s -> TI m (v_world s) -> v_files s !! p = Some f ->
  rw_post B Cr E m s p f (f_pos f) s.
Proof.
  intros I HT Hf. do 4 (split; [done|]). split; [apply wkeep_refl, I|]. by rewrite set_fpos_id, insert_id.
Qed.

(** the locked body that vfs_read, vfs_write and vfs_seek share *)
Lemma wp_locked_op {X} B Cr E m s p f (op : file -> M St X) (moves : X -> bool) (np : file -> X -> Z) :
  vinv B Cr E m s -> TI m (v_world s) -> below 3 (v_held s) -> v_files s !! p = Some f ->
  quiet m (op f) (with_held (LFile p :: v_held s) s) ->
  wp (acquire (LFile p) ;;;
      let* f := fil p in
      let* r := op f in
      (if moves r then let* f := fil p in set_fil p (set_fpos (np f r) f) else mret tt) ;;;
      release (LFile p) ;;;
      mret r)
     (fun r => rw_post B Cr E m s p f (if moves r then np f r else f_pos f)) s.
Proof.
  intros I HT Hb Hf Hop. apply wp_acquire; [done|]. eapply wp_fil; [exact Hf|].
  apply wp_bind. eapply wp_conseq; [exact Hop|]. intros r s1 (w & c & -> & Hk & Hw). apply wp_bind.
  assert (vinv B Cr E m (with_world w (with_drv c s))) as I1.
  { apply (vinv_keeps _ _ _ _ (with_drv c s)); [by apply vinv_drv|done|apply Hw]. }
  assert (forall fl, vinv B Cr E m (with_files fl (with_world w (with_drv c s))) ->
     fl = <[p := set_fpos (if moves r then np f r else f_pos f) f]> (v_files s) ->
     wp (release (LFile p) ;;; mret r) (fun r => rw_post B Cr E m s p f (if moves r then np f r else f_pos f))
        (with_files fl (with_world w (with_drv c (with_held (LFile p :: v_held s) s))))) as Hend.
  { intros fl If Efl. apply (wp_release (LFile p) (v_held s)); [done|by apply below_notin|]. apply wp_ret.
    replace (with_held (v_held s) _) with (with_files fl (with_world w (with_drv c s))) by (by destruct s).
    split; [done|]. split; [eapply TI_wkeep; [exact HT|exact Hw]|]. split; [done|]. split; [done|]. split; [exact Hw|done]. }
  destruct (moves r).
  - eapply wp_fil; [exact Hf|]. unfold set_fil.
    match goal with |- wp (modify ?g) ?R ?x => change (R tt (g x)) end. refine (Hend _ _ eq_refl).
    apply (vinv_fil B Cr E E m (with_world w (with_drv c s)) p f); [exact I1|exact Hf|done|done|done|]. eapply counted_edit; [apply I1|exact Hf|done].
  - apply wp_ret. rewrite set_fpos_id in Hend. specialize (Hend (v_files s)). rewrite insert_id in Hend by done.
    specialize (Hend I1 eq_refl). exact Hend.
Qed.
(** the file that a reference [p] stands for, and its inode *)
Lemma fs_file B Cr E m s p f k : vinv B Cr E m s -> v_files s !! p = Some f -> f_fops f = FsFops k ->
  exists i, inodes s !! f_inode f = Some i.
Proof.
  intros I Hf Ho. pose proof (vi_file _ _ _ _ _ I p f Hf) as Hok. unfold file_ok in Hok. rewrite Ho in Hok.
  destruct (ref_live _ _ _ _ _ _ I (file_inode_ref m s p f Cr Hf Hok)) as (i & ? & _). by exists i.
Qed.
Lemma dev_file B Cr E m s p f : vinv B Cr E m s -> v_files s !! p = Some f -> f_fops f = ChardevFops ->
  is_Some (v_devs s !! f_private f).
Proof.
  intros I Hf Ho. pose proof (vi_file _ _ _ _ _ I p f Hf) as Hok. unfold file_ok in Hok. rewrite Ho in Hok. apply Hok.
Qed.

Section Ops.
Context (B : gset Z) (Cr E : list Z) (m : gmap ikey Z) (s : St) (p : Z) (f : file).
Context (I : vinv B Cr E m s) (HT : TI m (v_world s)) (Hb : below 3 (v_held s)).
Context (Hp : p ∈ slots (v_tasks s) ++ E) (Hf : v_files s !! p = Some f).

Lemma file_nonnull : (p =? 0) = false.
Proof. destruct (file_live _ _ _ _ _ _ I Hp) as (? & _ & ?). by apply Z.eqb_neq. Qed.

Lemma vfs_read_ok count : wp (vfs_read p count)
  (fun r => rw_post B Cr E m s p f (if 0 <? r.1 then u64 (f_pos f + r.1) else f_pos f)) s.
Proof.
  unfold vfs_read. rewrite file_nonnull. eapply wp_fil; [exact Hf|].
  assert (rw_post B Cr E m s p f (f_pos f) s) as Hno by (by apply rw_post_refl).
  destruct (f_fops f) as [| |k] eqn:Ho; [by apply wp_ret| |].
  - apply (wp_locked_op B Cr E m s p f (fun f => chardev_file_read f count) (fun r => 0 <? r.1) (fun f r => u64 (f_pos f + r.1)));
      [done..|]. apply quiet_chardev_read; [apply I|by eapply (dev_file _ _ _ _ s)].
  - destruct (has_fop k FopRead); [|by apply wp_ret].
    apply (wp_locked_op B Cr E m s p f (fun f => in_world (fs_read f count)) (fun r => 0 <? r.1) (fun f r => u64 (f_pos f + r.1)));
      [done..|]. destruct (fs_file _ _ _ _ _ _ _ _ I Hf Ho) as [i Hi]. eapply quiet_fs, fs_read_ok; [apply I|done].
Qed.

Lemma vfs_write_ok buf : wp (vfs_write p buf)
  (fun r => rw_post B Cr E m s p f (if 0 <? r then u64 (f_pos f + r) else f_pos f)) s.
Proof.
  unfold vfs_write. rewrite file_nonnull. eapply wp_fil; [exact Hf|].
  assert (rw_post B Cr E m s p f (f_pos f) s) as Hno by (by apply rw_post_refl).
  destruct (f_fops f) as [| |k] eqn:Ho; [by apply wp_ret| |].
  - apply (wp_locked_op B Cr E m s p f (fun f => chardev_file_write f buf) (fun r => 0 <? r) (fun f r => u64 (f_pos f + r)));
      [done..|]. apply quiet_chardev_write; [apply I|by eapply (dev_file _ _ _ _ s)].
  - destruct (has_fop k FopWrite); [|by apply wp_ret].
    apply (wp_locked_op B Cr E m s p f (fun f => in_world (fs_write f buf)) (fun r => 0 <? r) (fun f r => u64 (f_pos f + r)));
      [done..|]. destruct (fs_file _ _ _ _ _ _ _ _ I Hf Ho) as [i Hi]. eapply quiet_fs, fs_write_ok; [apply I|done].
Qed.

Lemma vfs_seek_ok off wh : wp (vfs_seek p off wh)
  (fun r => rw_post B Cr E m s p f (if 0 <=? r then r else f_pos f)) s.
Proof.
  unfold vfs_seek. rewrite file_nonnull. eapply wp_fil; [exact Hf|].
  assert (rw_post B Cr E m s p f (f_pos f) s) as Hno by (by apply rw_post_refl).
  destruct (f_fops f) as [| |k] eqn:Ho; [by apply wp_ret| |].
  - apply (wp_locked_op B Cr E m s p f (fun _ => mret chardev_file_seek) (fun r => 0 <=? r) (fun f r => r)); [done..|].
    apply quiet_ret, I.
  - destruct (has_fop k FopSeek); [|by apply wp_ret].
    apply (wp_locked_op B Cr E m s p f (fun f => in_world (fs_seek f off wh)) (fun r => 0 <=? r) (fun f r => r)); [done..|].
    destruct (fs_file _ _ _ _ _ _ _ _ I Hf Ho) as [i Hi]. eapply quiet_fs, fs_seek_ok; [apply I|done].
Qed.

Lemma vfs_readdir_ok : wp (vfs_readdir p) (fun _ s' => exists pos, rw_post B Cr E m s p f pos s') s.
Proof.
  unfold vfs_readdir. rewrite file_nonnull. eapply wp_fil; [exact Hf|].
  assert (rw_post B Cr E m s p f (f_pos f) s) as Hno by (by apply rw_post_refl).
  destruct (f_inode f =? 0) eqn:E0; breflect; [apply wp_ret; by exists (f_pos f)|].
  destruct (ref_live _ _ _ _ _ _ I (file_inode_ref m s p f Cr Hf E0)) as (i & Hi & _).
  eapply wp_ino; [exact Hi|]. destruct (negb (is_dir i)); [apply wp_ret; by exists (f_pos f)|].
  destruct (negb (has_iop i OpReaddir)); [apply wp_ret; by exists (f_pos f)|].
  pose proof (wp_locked_op B Cr E m s p f (fun f => in_world (fs_readdir (f_inode f) (f_pos f))) (fun _ => true)
    (fun _ r => r.1.2) I HT Hb Hf) as W.
  assert (quiet m (in_world (fs_readdir (f_inode f) (f_pos f))) (with_held (LFile p :: v_held s) s)) as Hq.
  { eapply quiet_fs, fs_readdir_ok; [apply I|done]. }
  specialize (W Hq). unfold wp, mbind' in *. destruct (acquire (LFile p) s) as [[[] s1]| | |]; [|done..].
  destruct (fil p s1) as [[f1 s2]| | |]; [|done..].
  destruct (in_world (fs_readdir (f_inode f1) (f_pos f1)) s2) as [[r s3]| | |]; [|done..].
  destruct (fil p s3) as [[f2 s4]| | |]; [|done..]. destruct (set_fil p (set_fpos r.1.2 f2) s4) as [[[] s5]| | |]; [|done..].
  destruct (release (LFile p) s5) as [[[] s6]| | |]; [|done..]. simpl in *. by exists r.1.2.
Qed.

Lemma vfs_fstat_ok : wp (vfs_fstat p) (fun _ s' => vinv B Cr E m s' /\ TI m (v_world s') /\ calm s s' /\
  v_tasks s' = v_tasks s /\ v_files s' = v_files s /\ wkeep m (v_world s) (v_world s')) s.
Proof.
  unfold vfs_fstat. rewrite file_nonnull. eapply wp_fil; [exact Hf|].
  assert (wkeep m (v_world s) (v_world s)) as Hw by apply wkeep_refl, I.
  destruct (f_inode f =? 0) eqn:E0; breflect; [by apply wp_ret|].
  destruct (ref_live _ _ _ _ _ _ I (file_inode_ref m s p f Cr Hf E0)) as (i & Hi & _).
  eapply wp_ino; [exact Hi|]. destruct (negb _); [by apply wp_ret|].
  eapply (wp_fs_op _ m); [eapply fs_getattr_ok; [apply I|done]|]. intros r w Hk Hw'. apply wp_ret.
  split; [eapply vinv_keeps; [done|done|apply Hw']|]. split; [by eapply TI_wkeep|done].
Qed.
End Ops.
(** ** A new open file *)

(** a fresh [struct file] takes over its buffer and the reference to its inode *)
Lemma vinv_new_file B Cr E m s p f : vinv ({[p]} ∪ B) (nonnull [f_inode f] ++ Cr) E m s -> p ∉ B ->
  file_ok (v_devs s) f -> f_refcount f = 1 -> vinv B Cr (p :: E) m (with_files (<[p := f]> (v_files s)) s).
Proof.
  intros I HB Hok Hc. destruct I as [? ? R K HF Hfo ? ? ? ? Hh (Hd1 & Hd2 & Hd3) Hn Mo ?].
  assert (p ∉ objs s) as Hp by set_solver. assert (v_files s !! p = None) as Hf.
  { apply not_elem_of_dom. intros ?. apply Hp. unfold objs. set_solver. }
  assert (objs (with_files (<[p := f]> (v_files s)) s) = {[p]} ∪ objs s) as Eo.
  { unfold objs, mptrs, mounts. simpl. rewrite dom_insert_L. set_solver. }
  split; try done.
  - eapply counted_proper; [|reflexivity|exact R]. unfold refs. simpl. rewrite (finodes_new _ _ _ Hf). solve_Permutation.
  - eapply counted_proper; [symmetry; apply Permutation_middle|reflexivity|]. by apply counted_new.
  - intros q g. simpl. intros [[<- <-]|[_ Hg]]%lookup_insert_Some; [done|by eapply Hfo].
  - rewrite Eo. simpl. by replace (B ∪ ({[p]} ∪ objs s)) with ({[p]} ∪ B ∪ objs s) by set_solver.
  - rewrite Eo. unfold mptrs, mounts, objs in *. simpl. rewrite dom_insert_L. set_solver.
  - rewrite Eo. set_solver.
Qed.


Lemma wp_put_null {A} B Cr E m s q (k : unit -> M St A) Q :
  vinv B (nonnull [q] ++ Cr) E m s -> light (q :: Cr) E -> below 5 (v_held s) ->
  (forall s', vstep s s' -> vinv B Cr E m s' -> wp (k tt) Q s') ->
  wp (mbind' (inode_put q) k) Q s.
Proof.
  intros I Hl Hb W. destruct (decide (q = 0)) as [->|Hq].
  - apply wp_bind. apply wp_ret, W; [apply vstep_refl, I|done].
  - rewrite (nonnull_one q) in I by done. by eapply wp_put.
Qed.

Lemma fd_post_vstep B Cr E m s s' : vinv B Cr E m s' -> TI m (v_world s) -> vstep s s' -> fd_post B Cr E m s (fd_tables s) s'.
Proof.
  intros I HT V. split; [done|]. split; [by eapply TI_vstep|]. destruct V as [Hf Hc]. split; [by apply calm_frame|].
  split; [by apply wkeep_counts|]. by destruct Hf as (h & w & t & ->).
Qed.

(** no descriptor: the file's inode and memory go back *)
Lemma install_undo B Cr E m s p f (Q : Z -> St -> Prop) :
  vinv ({[p]} ∪ B) (nonnull [f_inode f] ++ Cr) E m s -> p ∉ B -> light (f_inode f :: Cr) E -> v_held s = [] ->
  (forall s', vstep s s' -> vinv B Cr E m s' -> Q (-1) s') ->
  wp (inode_put (f_inode f) ;;; modify (fun s => with_files (delete p (v_files s)) s) ;;; slab_free p ;;; mret (-1)) Q
     (with_files (<[p := f]> (v_files s)) s).
Proof.
  intros I HB Hl Hh W. assert (v_files s !! p = None) as Hnew.
  { apply not_elem_of_dom. intros Hin. pose proof (proj1 (vi_disj _ _ _ _ _ I)). unfold objs in *. set_solver. }
  assert (forall w, counts (v_world s) w -> vinv ({[p]} ∪ B) Cr E m (with_world w s) ->
    wp (modify (fun s => with_files (delete p (v_files s)) s) ;;; slab_free p ;;; mret (-1)) Q
       (with_world w (with_files (<[p := f]> (v_files s)) s))) as Hend.
  { intros w Hw Iw. apply wp_modify. simpl. rewrite delete_insert_id by done.
    replace (with_files _ _) with (with_world w s) by (by destruct s).
    eapply wp_vfree; [exact Iw|done|]. intros s2 V2 I2. apply wp_ret, W; [|done].
    eapply vstep_trans; [by apply vstep_world|exact V2]. }
  destruct (decide (f_inode f = 0)) as [E0|E0].
  - rewrite E0 in *. apply wp_bind, wp_ret. specialize (Hend (v_world s)). rewrite with_world_id in Hend.
    specialize (Hend (counts_refl _ (vi_fs _ _ _ _ _ I)) I). by destruct s.
  - rewrite (nonnull_one (f_inode f)) in I by done. pose proof (refs_room _ _ _ _ _ I Hl) as Hr. simpl in *.
    rewrite refs_perm in Hr. simpl in Hr.
    eapply (wp_inode_put (refs m s ++ Cr)); [apply I|eapply counted_proper; [symmetry; apply refs_perm|reflexivity|apply I]|lia|simpl; rewrite Hh; constructor|].
    intros w Hw HR. apply Hend; [done|]. by eapply vinv_counts.
Qed.

(** what opening leaves: the invariant, and a new file in the lowest free slot *)
Definition opened B Cr E m s n t f (r : Z) s' : Prop :=
  (r = -1 /\ fd_post B Cr E m s (fd_tables s) s') \/
  exists i p, r = Z.of_nat i /\ first_free 0 (t_ofile t) = Some i /\ v_files s !! p = None /\
    v_files s' = <[p := set_frefcount 1 f]> (v_files s) /\ counts (v_world s) (v_world s') /\
    fd_post B Cr E m s (set_table n i p (fd_tables s)) s'.

Lemma install_file_ok B Cr E m s n t f : vinv B (nonnull [f_inode f] ++ Cr) E m s -> TI m (v_world s) -> spare Cr E ->
  v_held s = [] -> v_cur s = Some n -> v_tasks s !! n = Some t -> file_ok (v_devs s) f -> f_refcount f = 0 ->
  wp (install_file f) (opened B Cr E m s n t f) s.
Proof.
  intros I HT Hl Hh Hc Ht Hok Hr. unfold install_file. assert (light (f_inode f :: Cr) E) as Hl1 by lite.
  eapply wp_valloc; [exact I|unfold SIZEOF_FILE; lia| |].
  { intros s1 V1 I1. eapply wp_put_null; [exact I1|done|rewrite (vstep_held _ _ V1), Hh; constructor|].
    intros s2 V2 I2. apply wp_ret. left. split; [done|]. apply fd_post_vstep; [done..|exact (vstep_trans _ _ _ V1 V2)]. }
  intros p s1 V1 Hp0 HB I1. rewrite (proj2 (Z.eqb_neq p 0)) by done. unfold set_fil. apply wp_modify.
  pose proof (vstep_held _ _ V1) as Hh1. rewrite Hh in Hh1.
  pose proof V1 as [(h & w & tb & E1) Hw]. assert (v_files s1 !! p = None) as Hnew.
  { apply not_elem_of_dom. intros Hin. pose proof (proj1 (vi_disj _ _ _ _ _ I1)). unfold objs in *. set_solver. }
  assert (v_files s1 = v_files s) as Ef by (by subst s1). assert (v_tasks s1 = v_tasks s) as Etk by (by subst s1).
  eapply (fd_alloc_run (with_files (<[p := f]> (v_files s1)) s1) n t p f);
    [by subst s1|by subst s1|apply lookup_insert_eq|done|simpl; rewrite Hh1; constructor|lia| |].
  - intros i Hi. destruct (Z.of_nat i <? 0) eqn:E0; breflect; [lia|]. apply wp_ret. right. exists i, p.
    split; [done|]. split; [done|]. split; [by rewrite <- Ef|]. simpl. rewrite Hr, insert_insert_eq, Ef. split; [done|].
    split; [done|].
    destruct (first_free_spec _ _ _ Hi) as (j & -> & Hj & _). simpl in *.
    eapply fd_post_put; [done|done| |by subst s1|simpl; by rewrite Etk|by apply wkeep_counts].
    assert (vinv B Cr (p :: E) m (with_files (<[p := set_frefcount 1 f]> (v_files s1)) s1)) as I2.
    { apply vinv_new_file; [exact I1|done|by subst s1|done]. }
    eapply vinv_put_fd in I2; [|by rewrite <- Etk in Ht|exact Hj|]; [by rewrite <- Ef; exact I2|].
    by rewrite (nonnull_one p).
  - intros _. eapply install_undo; [exact I1|done|done|by rewrite Hh1|]. intros s2 V2 I2. left. split; [done|].
    apply fd_post_vstep; [done..|exact (vstep_trans _ _ _ V1 V2)].
Qed.
Lemma opened_drv B Cr E m s n t f c r s' : opened B Cr E m (with_drv c s) n t f r s' -> opened B Cr E m s n t f r s'.
Proof. done. Qed.

Lemma open_chardev_ok B Cr E m s n t path flags : vinv B Cr E m s -> TI m (v_world s) -> spare Cr E ->
  v_held s = [] -> v_cur s = Some n -> v_tasks s !! n = Some t ->
  wp (open_chardev path flags)
     (opened B Cr E m s n t (mkFile 0 0 flags ChardevFops (kt_lookup (v_cdevs s) (drop 5 path)) 0)) s.
Proof.
  intros I HT Hl Hh Hc Ht. unfold open_chardev, vfs_find_chardev. apply wp_bind, wp_gets, wp_ret.
  set (cdev := kt_lookup _ _). assert (opened B Cr E m s n t (mkFile 0 0 flags ChardevFops cdev 0) (-1) s) as Hno.
  { left. split; [done|by apply fd_post_refl]. }
  destruct (cdev =? 0) eqn:E0; breflect; [by apply wp_ret|].
  assert (is_Some (v_devs s !! cdev)) as [d Hd].
  { destruct (vi_devs _ _ _ _ _ I) as (md & Hmd & Hdev). unfold cdev in *. rewrite (kt_lookup_ok _ md) in * by done.
    destruct (md !! drop 5 path) as [x|] eqn:Ex; [by eapply Hdev|done]. }
  apply wp_gets. eapply wp_deref; [exact Hd|].
  assert (forall c, wp (install_file (mkFile 0 0 flags ChardevFops cdev 0))
    (opened B Cr E m s n t (mkFile 0 0 flags ChardevFops cdev 0)) (with_drv c s)) as Hin.
  { intros c. eapply wp_conseq; [apply (install_file_ok B Cr E m (with_drv c s) n t); try done|].
    - by apply vinv_drv.
    - intros r s'. apply opened_drv. }
  destruct (_ && _).
  - apply wp_drv; [intros; apply cd_open_ok|]. intros x c. destruct (x <? 0); [apply wp_ret|apply Hin].
    left. split; [done|]. apply (fd_post_refl B Cr E m (with_drv c s)); [by apply vinv_drv|done].
  - apply wp_bind, wp_ret. simpl. specialize (Hin (v_drv s)). by destruct s.
Qed.

(** ** The inode to open *)
Definition tree_grew (flags : Z) w w' : Prop :=
  same_tree w w' \/ (bit_set flags O_CREAT = true /\ exists pi n x, tree_put pi n (Some x) w w').

(** [p] is the file that [path] names, perhaps just created *)
Definition target m s path flags p : Prop := exists norm, norm_path s path = Some norm /\
  (found m s norm p \/
   bit_set flags O_CREAT = true /\ exists l n q, norm = render (l ++ [n]) /\ found m s (render l) q /\ m !! (q, n) = Some p).

Definition inode_post B Cr E m s path flags (r : option Z) s' : Prop :=
  exists m', frame s s' /\ TI m' (v_world s') /\ m ⊆ m' /\ tree_grew flags (v_world s) (v_world s') /\
    match r with
    | None => vinv B Cr E m' s'
    | Some p => vinv B (p :: Cr) E m' s' /\ target m' s' path flags p
    end.

Lemma not_made_grew m s s' flags : not_made m s s' -> bit_set flags O_CREAT = true ->
  frame s s' /\ tree_grew flags (v_world s) (v_world s').
Proof.
  intros [(? & _ & _ & ? & _)|(pi & n & x & ? & _ & _ & ? & _)] Hf; split; try done; [by left|].
  right. split; [done|]. by exists pi, n, x.
Qed.

Lemma open_inode_ok B Cr E m s path flags : vinv B Cr E m s -> TI m (v_world s) -> spare Cr E ->
  v_held s = [] -> is_Some (cur_task s) -> wp (open_inode path flags) (inode_post B Cr E m s path flags) s.
Proof.
  intros I HT Hl Hh Ht. unfold open_inode. assert (below 4 (v_held s)) as Hb by (rewrite Hh; constructor).
  pose proof (vfs_lookup_ok B Cr E m s path I HT Hl Hb) as HL.
  assert (forall r s1, vlookup_post B Cr E m s path r s1 -> inode_post B Cr E m s path flags r s1) as Hfound.
  { intros r s1 (m1 & L & HT1 & HR). exists m1. split; [apply L|]. split; [done|]. split; [apply L|]. split; [left; apply L|].
    destruct r as [p|]; [|done]. destruct HR as (I1 & _ & norm & Hn & Hf). split; [done|]. exists norm.
    rewrite (norm_path_frame _ _ _ (proj1 L)). split; [done|by left]. }
  destruct (bit_set flags O_CREAT) eqn:Ec; [|eapply wp_conseq; [exact HL|exact Hfound]].
  apply wp_bind. eapply wp_conseq; [exact HL|]. intros [p|] s1 HR; pose proof HR as (m1 & L & HT1 & HR1).
  - destruct HR1 as (I1 & _). destruct (bit_set flags O_EXCL); [|by apply wp_ret, Hfound].
    eapply wp_put; [exact I1|lite|rewrite (frame_held _ _ (proj1 L)), Hh; constructor|]. intros s2 V2 I2. apply wp_ret.
    exists m1. pose proof (lstep_trans _ _ _ _ _ _ L (vstep_lstep m1 _ _ V2)) as L2. split; [apply L2|].
    split; [by eapply TI_vstep|]. split; [apply L2|]. split; [left; apply L2|done].
  - eapply wp_conseq; [apply (vfs_create_ok B Cr E m1 s1 path 0x1B6 HR1); [done|done|by rewrite (frame_held _ _ (proj1 L))|]|].
    { by destruct (cur_cred_frame _ _ (proj1 L)) as [_ ->]. }
    intros r s2 (m2 & HT2 & Hm2 & _ & HR2). exists m2. destruct r as [q|]; simpl.
    + destruct HR2 as (I2 & l & n & p & pi & qi & Hn & Hf & Hq & _ & _ & _ & _ & _ & _ & _ & _ & _ & HD).
      destruct (not_made_lstep m s m1 s1 s2 L) as [HD'|(pi' & n' & x & HD')]; [right; by exists n, pi, (i_ino qi)|..].
      1: destruct (not_made_grew m s s2 flags (or_introl HD') Ec).
      2: destruct (not_made_grew m s s2 flags (or_intror (ex_intro _ pi' (ex_intro _ n' (ex_intro _ x HD')))) Ec).
      all: split; [done|]; split; [done|]; split; [etrans; [apply L|done]|]; split; [done|]; split; [done|].
      all: exists (render (l ++ [n])); destruct HD as (Fr & _).
      all: split; [by rewrite (norm_path_frame _ _ _ Fr)|]; right; split; [done|]; by exists l, n, p.
    + destruct HR2 as (I2 & HD). assert (not_made m s s2) as HN.
      { eapply not_made_lstep; [exact L|]. destruct HD as [HD|(pi & n & x & HD)]; [by left|right; by exists n, pi, x]. }
      destruct (not_made_grew _ _ _ _ HN Ec). split; [done|]. split; [done|]. split; [etrans; [apply L|done]|]. done.
Qed.
(** ** The checks, and the whole call *)
Definition access_ok (i : inode) cred flags : Prop :=
  (bit_set flags O_DIRECTORY = true -> is_dir i = true) /\
  (bit_set flags O_TRUNC = true -> Z.land flags O_ACCMODE <> O_RDONLY) /\
  exists mask, access_mask flags = Some mask /\ vfs_permission i cred mask = 0.

Lemma access_same i j cred flags : same_attr i j -> access_ok i cred flags -> access_ok j cred flags.
Proof.
  intros Ha (H1 & H2 & mask & H3 & H4). pose proof Ha as (_ & _ & Hm & _). unfold access_ok, is_dir. rewrite Hm.
  do 2 (split; [done|]). exists mask. by rewrite (perm_same i j).
Qed.

Lemma open_checks_ok B Cr E m s p i flags cred : vinv B (p :: Cr) E m s -> TI m (v_world s) -> v_held s = [] ->
  is_Some (cur_task s) -> inodes s !! p = Some i ->
  wp (open_checks p flags cred) (fun r s' => lstep m s m s' /\ TI m (v_world s') /\ vinv B (p :: Cr) E m s' /\
    (r = true -> access_ok i cred flags)) s.
Proof.
  intros I HT Hh Ht Hi. unfold open_checks, access_ok. eapply wp_ino; [exact Hi|].
  assert (lstep m s m s) as L0 by (apply vstep_lstep, vstep_refl, I).
  destruct (bit_set flags O_DIRECTORY), (is_dir i); simpl; try (by apply wp_ret).
  all: destruct (access_mask flags) as [mask|]; [|by apply wp_ret].
  all: destruct (perm_value i cred mask) as [Hp|Hp]; rewrite Hp; simpl; [|by apply wp_ret].
  all: assert (exists k, Some mask = Some k /\ vfs_permission i cred k = 0) as Hm by (by exists mask).
  all: destruct (bit_set flags O_TRUNC); [|by apply wp_ret].
  all: destruct (Z.land flags O_ACCMODE =? O_RDONLY) eqn:Er; breflect; [by apply wp_ret|].
  all: apply wp_bind; (eapply wp_conseq; [eapply vfs_truncate_ok; [exact I|done|done|done|apply own_head]|]).
  all: intros r s1 (L1 & HT1 & I1); by apply wp_ret.
Qed.

Lemma fd_post_task B Cr E m s n t tabs s' : fd_post B Cr E m s tabs s' -> v_cur s = Some n -> v_tasks s !! n = Some t ->
  exists t', cur_task s' = Some t' /\ t_cred t' = t_cred t /\ t_cwd_path t' = t_cwd_path t.
Proof.
  intros (_ & _ & (_ & _ & Hc & _) & _ & _ & Hs) Hn Ht. unfold cur_task. rewrite Hc, Hn.
  apply (f_equal (lookup n)) in Hs. rewrite !list_lookup_fmap, Ht in Hs.
  destruct (v_tasks s' !! n) as [t'|]; simplify_eq/=. exists t'. split; [done|]. split; congruence.
Qed.

(** an inode a walk found stays found while descriptors and contents change *)
Lemma target_keep B Cr E m s s' path flags p : v_root s' = v_root s -> cur_cred s' = cur_cred s ->
  norm_path s' path = norm_path s path -> wkeep m (v_world s) (v_world s') -> vinv B Cr E m s' -> TI m (v_world s) ->
  target m s path flags p -> target m s' path flags p.
Proof.
  intros Hr Hcr Hn (Ok & Es & Et & Hi) I HT (norm & Hnorm & Hf).
  assert (forall norm q, found m s norm q -> found m s' norm q) as Hmono by (intros nm q; by apply (found_mono B Cr E)).
  exists norm. split; [by rewrite Hn|]. destruct Hf as [Hf|(Hc & l & k & q & -> & Hf & Hq)].
  - left. by apply Hmono.
  - right. split; [done|]. exists l, k, q. split; [done|]. split; [by apply Hmono|done].
Qed.
Lemma target_lstep B Cr E m s s' path flags p : lstep m s m s' -> vinv B Cr E m s' -> TI m (v_world s) ->
  target m s path flags p -> target m s' path flags p.
Proof.
  intros L. pose proof (proj1 L) as Hf. apply target_keep; [by destruct Hf as (h & w & t & ->)|by apply cur_cred_frame|
    by apply norm_path_frame|by apply wkeep_lstep in L].
Qed.
Lemma target_fd_post B Cr E m s n t tabs s' path flags p : fd_post B Cr E m s tabs s' -> TI m (v_world s) ->
  v_cur s = Some n -> v_tasks s !! n = Some t -> target m s path flags p -> target m s' path flags p.
Proof.
  intros HP HT Hn Ht. destruct (fd_post_task _ _ _ _ _ _ _ _ _ HP Hn Ht) as (t' & Ht' & Hcr & Hcw).
  destruct HP as (I & _ & (Hr & _) & Hw & _). assert (cur_task s = Some t) as Hct by (unfold cur_task; by rewrite Hn, Ht).
  apply (target_keep B Cr E); [done| | |done|done|done].
  - unfold cur_cred. by rewrite Ht', Hct, Hcr.
  - unfold norm_path. rewrite Ht', Hct. simpl. by rewrite Hcw.
Qed.

Lemma target_live m s path flags p : TI m (v_world s) -> target m s path flags p -> attached m (v_world s) p.
Proof.
  intros HT (norm & _ & [Hf|(_ & l & n & q & -> & _ & Hq)]); [|by eapply cached_name].
  destruct Hf as (st & names & Hs & Hw). assert (attached m (v_world s) st) as Ha.
  { unfold walk_start in Hs. destruct (v_root s) as [t|]; [|done]. destruct (_ !! _) as [b|] eqn:Eb; [|done].
    simplify_eq. by eapply attached_root. }
  clear Hs. revert st Ha Hw. induction names as [|n names IH]; intros st Ha; simpl; [by intros <-|].
  intros (_ & x & Hx & Hw). apply (IH x); [by eapply cached_name|done].
Qed.

(** a successful open: the new file, at the lowest free descriptor, for a
    device or for the inode of the path, which the caller may access *)
Definition open_file m' s s' t path flags f : Prop :=
  f_refcount f = 1 /\ f_flags f = flags /\
  match f_fops f with
  | NoFops => False
  | ChardevFops => take 5 path = cstr "/dev/" /\ f_private f = kt_lookup (v_cdevs s) (drop 5 path)
  | FsFops k => exists i, inodes s' !! f_inode f = Some i /\ k = i_fops i /\ target m' s' path flags (f_inode f) /\
                access_ok i (t_cred t) flags /\ f_pos f = (if bit_set flags O_APPEND then i_size i else 0)
  end.

Definition open_post B Cr E m s n t path flags (r : Z) s' : Prop :=
  exists m', vinv B Cr E m' s' /\ TI m' (v_world s') /\ m ⊆ m' /\ calm s s' /\
    tree_grew flags (v_world s) (v_world s') /\ (set_ofile [] <$> v_tasks s') = (set_ofile [] <$> v_tasks s) /\
    ((r = -1 /\ fd_tables s' = fd_tables s) \/
     exists i p f, r = Z.of_nat i /\ first_free 0 (t_ofile t) = Some i /\ v_files s !! p = None /\
       v_files s' = <[p := f]> (v_files s) /\ fd_tables s' = set_table n i p (fd_tables s) /\
       open_file m' s s' t path flags f).
Lemma calm_frame_trans s1 s2 s3 : frame s1 s2 -> calm s2 s3 -> calm s1 s3.
Proof. intros Hf. apply calm_trans. by apply calm_frame. Qed.

Lemma tree_grew_same flags (w w1 w2 : world F) : tree_grew flags w w1 -> same_tree w1 w2 -> tree_grew flags w w2.
Proof.
  intros [Ht|(Hc & pi & n & x & Ht)] Hs; [left; intros Hx sb d k; by rewrite (Hs Hx), (Ht Hx)|].
  right. split; [done|]. exists pi, n, x. intros Hx sb d k. by rewrite (Hs Hx), (Ht Hx).
Qed.

(** from the inode on: every step keeps the tree and the cache *)
Lemma open_fail B Cr E m s m1 s1 n t path flags : frame s s1 -> m ⊆ m1 -> tree_grew flags (v_world s) (v_world s1) ->
  TI m1 (v_world s1) -> vinv B Cr E m1 s1 -> open_post B Cr E m s n t path flags (-1) s1.
Proof.
  intros Hf Hm Ht HT I. exists m1. do 3 (split; [done|]). split; [by apply calm_frame|]. split; [done|].
  destruct Hf as (h & w & tb & ->). split; [done|by left].
Qed.

Lemma open_done B Cr E m s m1 s1 n t path flags p i r s2 : frame s s1 -> m ⊆ m1 ->
  tree_grew flags (v_world s) (v_world s1) -> TI m1 (v_world s1) -> v_cur s = Some n -> v_tasks s !! n = Some t ->
  inodes s1 !! p = Some i -> p <> 0 -> target m1 s1 path flags p -> access_ok i (t_cred t) flags ->
  opened B Cr E m1 s1 n t (mkFile p (if bit_set flags O_APPEND then i_size i else 0) flags (FsFops (i_fops i)) 0 0) r s2 ->
  open_post B Cr E m s n t path flags r s2.
Proof.
  intros Hf Hm Htr HT Hc Ht Hi Hp0 Htg Hac HO. pose proof Hf as (h & w & tb & E1).
  assert (forall tabs, fd_post B Cr E m1 s1 tabs s2 -> vinv B Cr E m1 s2 /\ TI m1 (v_world s2) /\ m ⊆ m1 /\ calm s s2 /\
    tree_grew flags (v_world s) (v_world s2) /\ (set_ofile [] <$> v_tasks s2) = (set_ofile [] <$> v_tasks s) /\
    fd_tables s2 = tabs) as Hpost.
  { intros tabs (I2 & HT2 & Hc2 & (_ & _ & Hs2 & _) & Htab & Hso). do 3 (split; [done|]).
    split; [by eapply calm_frame_trans|]. split; [by eapply tree_grew_same|]. split; [by rewrite Hso, E1|done]. }
  assert (fd_tables s1 = fd_tables s /\ v_files s1 = v_files s /\ v_cdevs s1 = v_cdevs s) as (Etab & Efil & Ecd) by (by subst s1).
  assert (v_cur s1 = Some n /\ v_tasks s1 !! n = Some t) as [Hc1 Ht1] by (by subst s1).
  exists m1. destruct HO as [(-> & HP)|(fd & q & -> & Hfd & Hq & Hfl & Hcn & HP)].
  - destruct (Hpost _ HP) as (? & ? & ? & ? & ? & ? & Htab). do 6 (split; [done|]). left. by rewrite Htab.
  - destruct (Hpost _ HP) as (I2 & ? & ? & ? & ? & ? & Htab). do 6 (split; [done|]). right.
    eexists fd, q, _. split; [done|]. split; [done|]. split; [by rewrite <- Efil|]. split; [by rewrite <- Efil|].
    split; [by rewrite <- Etab|]. do 2 (split; [done|]). simpl.
    assert (exists j, inodes s2 !! p = Some j) as [j Hj].
    { destruct (ref_live _ _ _ _ _ p I2) as (j & ? & _); [|by exists j].
      assert (v_files s2 !! q = Some (set_frefcount 1 (mkFile p (if bit_set flags O_APPEND then i_size i else 0) flags (FsFops (i_fops i)) 0 0))) as Hq2
        by (rewrite Hfl; apply lookup_insert_eq). exact (file_inode_ref m1 s2 q _ Cr Hq2 Hp0). }
    destruct Hcn as (_ & _ & _ & Hcn). destruct (Hcn p j Hj) as (i' & Hi' & Ej). simplify_eq.
    exists j. split; [done|]. split; [by rewrite Ej|]. split; [by eapply target_fd_post|].
    split; [|by rewrite Ej]. eapply access_same; [|exact Hac]. by rewrite Ej.
Qed.

Lemma vfs_open_ok B Cr E m s n t path flags : vinv B Cr E m s -> TI m (v_world s) -> spare Cr E -> v_held s = [] ->
  v_cur s = Some n -> v_tasks s !! n = Some t -> wp (vfs_open path flags) (open_post B Cr E m s n t path flags) s.
Proof.
  intros I HT Hl Hh Hc Ht. assert (cur_task s = Some t) as Hct by (unfold cur_task; by rewrite Hc, Ht).
  unfold vfs_open. apply wp_get_task; [by rewrite Hct|]. intros n' t' Hc' Ht' _. assert (t' = t) as -> by congruence.
  assert (n' = n) as -> by congruence. clear Hc' Ht'. case_bool_decide as Hdev.
  { eapply wp_conseq; [by eapply open_chardev_ok|]. intros r s1 HO. exists m.
    destruct HO as [(-> & HP)|(fd & q & -> & Hfd & Hq & Hfl & Hcn & HP)]; pose proof HP as (I1 & HT1 & Hcm & Hw & Htab & Hso).
    all: do 4 (split; [done|]); (split; [left; apply Hw|]); (split; [done|]).
    - by left.
    - right. eexists fd, q, _. do 5 (split; [done|]). done. }
  apply wp_bind. eapply wp_conseq; [eapply open_inode_ok; [exact I|done|done|done|by rewrite Hct]|].
  intros [p|] s1 (m1 & Hf & HT1 & Hm & Htr & HR); [|by apply wp_ret, (open_fail _ _ _ _ _ m1)].
  destruct HR as (I1 & Htg). destruct (ref_live _ _ _ _ _ p I1) as (i & Hi & Hp0); [apply own_head|].
  assert (v_held s1 = []) as Hh1 by (by rewrite (frame_held _ _ Hf)).
  assert (cur_task s1 = Some t) as Hct1 by (destruct (cur_cred_frame _ _ Hf) as [_ ->]; done).
  apply wp_bind. eapply wp_conseq; [eapply open_checks_ok; [exact I1|done|done|by rewrite Hct1|exact Hi]|].
  intros ok s2 (L2 & HT2 & I2 & Hok). pose proof (frame_trans _ _ _ Hf (proj1 L2)) as Hf2.
  assert (tree_grew flags (v_world s) (v_world s2)) as Htr2 by (eapply tree_grew_same; [exact Htr|apply L2]).
  assert (v_held s2 = []) as Hh2 by (by rewrite (frame_held _ _ Hf2)).
  destruct ok; simpl.
  2:{ eapply wp_put; [exact I2|lite|rewrite Hh2; constructor|]. intros s3 V3 I3. apply wp_ret.
      apply (open_fail _ _ _ _ _ m1); [by eapply frame_trans; [|apply V3]|done|eapply tree_grew_same; [exact Htr2|apply V3]|by eapply TI_vstep|done]. }
  destruct (ref_live _ _ _ _ _ p I2) as (j & Hj & _); [apply own_head|]. eapply wp_ino; [exact Hj|].
  assert (same_attr i j) as Hsa.
  { destruct L2 as (_ & _ & _ & _ & _ & Hat). destruct (Hat p j (target_live _ _ _ _ _ HT1 Htg) Hj) as (i' & ? & ?). by simplify_eq. }
  eapply wp_conseq; [eapply (install_file_ok B Cr E m1 s2 n t)|].
  all: try done.
  - simpl. by rewrite (nonnull_one p).
  - by destruct Hf2 as (h & w & tb & ->).
  - by destruct Hf2 as (h & w & tb & ->).
  - intros r s3 HO. eapply (open_done B Cr E m s m1 s2 n t path flags p j r s3); try done.
    + by eapply target_lstep.
    + eapply access_same; [exact Hsa|]. by apply Hok.
Qed.
End Open.
