(* ===== verification/VfsProc.v ===== *)
(** What processes hold: the working directory (set_cwd), the end of a process
    (exit_fs) and the sharing at kfork, under the invariant. *)
From stdpp Require Import base gmap list strings.
From Stdlib Require Import ZArith Lia.
From S2P Require Import Prelude HashMap VfsPath Vfs VfsInv VfsCache VfsWalk VfsDir VfsFile VfsOpen.
Open Scope Z_scope.

Section Proc.
Context {F C T D H : Type} `{FL : FsLaws F} `{CL : CharLaws C}.
Context `{IT : !KvTable ikey T} `{DT : !KvTable (list Z) D} `{HH : Heap H}.
Abbreviation St := (vfs_state F C T D H).
Implicit Types (s : St) (w : world F) (m : gmap ikey Z) (B : gset Z) (Cr E : list Z).
Abbreviation inodes s := (w_inodes (v_world s)).
Ltac lite := unfold spare, light in *; simpl in *; lia.

Lemma wp_task {A} n t (k : task -> M St A) Q s : v_tasks s !! n = Some t -> wp (k t) Q s ->
  wp (let* ts := gets (fun s => v_tasks s !! n) in let* t := deref ts in k t) Q s.
Proof. intros Ht W. apply wp_gets. eapply wp_deref; [exact Ht|exact W]. Qed.

Lemma wp_set_task {A} n t g (k : unit -> M St A) Q s : v_tasks s !! n = Some t ->
  wp (k tt) Q (with_tasks (<[n := g t]> (v_tasks s)) s) -> wp (mbind' (set_task n g) k) Q s.
Proof. intros Ht W. unfold set_task. apply wp_modify. by rewrite (alter_insert_list _ n t _ Ht). Qed.

Lemma task_ok_at B Cr E m s n t : vinv B Cr E m s -> v_tasks s !! n = Some t -> task_ok t.
Proof. intros I Ht. pose proof (vi_tasks _ _ _ _ _ I) as Hto. rewrite Forall_lookup in Hto. by eapply Hto. Qed.

Lemma frame_tasks s s' : frame s s' -> v_tasks s' = v_tasks s.
Proof. by intros (h & w & t & ->). Qed.

(** ** The working directory *)

(** what [set_cwd] leaves: the old directory, or a directory that the
    normalised path names *)
Definition cwd_post B Cr E m s n t path (r : Z) s' : Prop :=
  exists m', vinv B Cr E m' s' /\ TI m' (v_world s') /\ m ⊆ m' /\ calm s s' /\ same_tree (v_world s) (v_world s') /\
    ((r = -1 /\ v_tasks s' = v_tasks s) \/
     (r = 0 /\ exists l p i, do_build_user_path (Some path) (Some (t_cwd_path t)) = Some (render l) /\ path_norm l /\
        v_tasks s' = <[n := set_tcwd p (render l) t]> (v_tasks s) /\ inodes s' !! p = Some i /\ is_dir i = true /\
        (strlen (render l) < VFS_MAX_PATH_LEN -> found m' s' (render l) p))).

Lemma cwd_fail B Cr E m s m1 s1 name n t path (Q : Z -> St -> Prop) :
  lstep m s m1 s1 -> TI m1 (v_world s1) -> vinv ({[name]} ∪ B) Cr E m1 s1 -> name ∉ B ->
  (forall s', cwd_post B Cr E m s n t path (-1) s' -> Q (-1) s') ->
  wp (slab_free name ;;; mret (-1)) Q s1.
Proof.
  intros L HT I HB W. eapply wp_vfree; [exact I|done|]. intros s2 V I2. apply wp_ret, W.
  pose proof (lstep_trans _ _ _ _ _ _ L (vstep_lstep m1 _ _ V)) as L2. exists m1. split; [done|].
  split; [by eapply TI_vstep|]. split; [apply L2|]. split; [apply calm_frame, L2|]. split; [apply L2|].
  left. split; [done|]. apply frame_tasks, L2.
Qed.

Lemma set_cwd_ok B Cr E m s n t path : vinv B Cr E m s -> TI m (v_world s) -> spare Cr E -> v_held s = [] ->
  v_tasks s !! n = Some t -> wp (set_cwd n path) (cwd_post B Cr E m s n t path) s.
Proof.
  intros I HT Hl Hh Ht. unfold set_cwd. apply (wp_task n t); [done|].
  eapply wp_valloc; [exact I|unfold BUFSZ; lia| |].
  { intros s1 V1 I1. apply wp_ret. exists m. split; [done|]. split; [by eapply TI_vstep|]. split; [done|].
    split; [apply calm_frame, V1|]. split; [apply V1|]. left. split; [done|apply frame_tasks, V1]. }
  intros nb s1 V1 Hn0 HB I1. rewrite (proj2 (Z.eqb_neq nb 0)) by done.
  destruct (build_path_norm (t_cwd_path t) path) as (out & Eout & Hout); [apply (task_ok_at B Cr E m s n t I Ht)|]. rewrite Eout.
  pose proof (vstep_lstep m _ _ V1) as L1. pose proof (TI_vstep _ _ _ HT V1) as HT1.
  destruct ((strlen out =? 0) || (128 <=? strlen out)) eqn:Elen.
  { by eapply cwd_fail. }
  breflect. destruct Hout as [->|(l & Hnl & ->)]; [done|].
  apply wp_bind. eapply wp_conseq; [eapply vfs_lookup_ok; [exact I1|done|done|rewrite (vstep_held _ _ V1), Hh; constructor]|].
  intros r s2 (m2 & L2 & HT2 & HR). pose proof (lstep_trans _ _ _ _ _ _ L1 L2) as L12. destruct r as [p|].
  2:{ by eapply cwd_fail. }
  destruct HR as (I2 & Ha2 & norm & Hnorm & Hfound). destruct (ref_live _ _ _ _ _ p I2) as (i & Hi & Hp0); [apply own_head|].
  assert (v_held s2 = []) as Hh2 by (by rewrite (frame_held _ _ (proj1 L12))).
  eapply wp_ino; [exact Hi|]. destruct (is_dir i) eqn:Ed; simpl.
  2:{ eapply wp_put; [exact I2|lite|rewrite Hh2; constructor|]. intros s3 V3 I3.
      eapply cwd_fail; [exact (lstep_trans _ _ _ _ _ _ L12 (vstep_lstep m2 _ _ V3))|by eapply TI_vstep|exact I3|done|done]. }
  assert (v_tasks s2 = v_tasks s) as Etk by apply frame_tasks, L12.
  apply wp_acquire; [rewrite Hh2; constructor|]. apply (wp_task n t); [simpl; by rewrite Etk|].
  apply (wp_set_task n t); [simpl; by rewrite Etk|].
  apply (wp_release (LTask n) []); [simpl; by rewrite Hh2|by apply not_elem_of_nil|].
  set (s3 := with_tasks (<[n := set_tcwd p (render l) t]> (v_tasks s2)) s2).
  match goal with |- wp _ _ ?x => replace x with s3 by (destruct s2; simpl in *; by subst) end.
  assert (vinv ({[nb]} ∪ B) (nonnull [t_cwd t] ++ Cr) E m2 s3) as I3.
  { eapply vinv_task; [exact I2|by rewrite Etk| |simpl; rewrite (nonnull_one p) by done; solve_Permutation|done].
    split; [apply (task_ok_at B Cr E m s n t I Ht)|]. simpl. pose proof (render_ne l). destruct (render l) eqn:El; [done|].
    rewrite <- El. exists l. split; [done|]. split; [done|]. rewrite El. unfold BUFSZ. lia. }
  eapply (wp_put_null _ _ _ m2); [exact I3|lite|simpl; rewrite Hh2; constructor|]. intros s4 V4 I4.
  eapply wp_vfree; [exact I4|done|]. intros s5 V5 I5. apply wp_ret.
  pose proof (vstep_trans _ _ _ V4 V5) as V. exists m2. split; [done|]. split; [exact (TI_vstep m2 s3 s5 HT2 V)|].
  split; [apply L12|]. split; [eapply calm_trans; [apply calm_frame, L12|]; apply (calm_trans _ s3); [done|apply calm_frame, V]|].
  split. { destruct L12 as (_ & _ & _ & Ts & _), V as (_ & _ & _ & Tv & _). intros Hx sb d k. rewrite (Tv Hx _ _ _). by apply Ts. }
  right. split; [done|]. destruct (ref_live _ _ _ _ _ p I5) as (j & Hj & _).
  { apply elem_of_app. left. do 3 (apply elem_of_app; right). apply nonnull_in. split; [done|].
    apply list_elem_of_fmap. exists (set_tcwd p (render l) t). split; [done|]. rewrite (frame_tasks _ _ (proj1 V)). simpl.
    apply list_elem_of_lookup_2 with n. rewrite list_lookup_insert_eq; [done|]. rewrite Etk. by eapply lookup_lt_Some. }
  exists l, p, j. split; [done|]. split; [done|].
  split; [rewrite (frame_tasks _ _ (proj1 V)); simpl; by rewrite Etk|]. split; [done|].
  pose proof V as (_ & _ & _ & _ & Hv). destruct (Hv p j Hj) as (i' & Hi' & Ej). simpl in Hi'. simplify_eq.
  split; [unfold is_dir in *; by rewrite Ej|]. intros Hlen. rewrite (norm_path_render _ _ _ _ _ l I1 Hnl Hlen) in Hnorm.
  injection Hnorm as <-. destruct (vstep_lstep m2 _ _ V) as (Hf & _ & Es & _ & _ & Hat).
  eapply (found_mono B Cr E m2 s2); [by destruct Hf as (h & w & tb & ->)| |done|done|done|done|done|done].
  unfold cur_cred, cur_task. rewrite (frame_tasks _ _ Hf). destruct Hf as (h & w & tb & ->). simpl.
  destruct (v_cur s2) as [k|]; [|done]. destruct (decide (k = n)) as [->|Hk]; [|by rewrite list_lookup_insert_ne].
  rewrite list_lookup_insert_eq by (rewrite Etk; by eapply lookup_lt_Some). by rewrite Etk, Ht.
Qed.

(** ** The end of a process *)
Definition proc_post B Cr E m s n t' s' : Prop :=
  vinv B Cr E m s' /\ TI m (v_world s') /\ calm s s' /\ wkeep m (v_world s) (v_world s') /\
  v_tasks s' = <[n := t']> (v_tasks s).

Lemma proc_post_trans B Cr E m s n t1 t2 s1 s2 : proc_post B Cr E m s n t1 s1 -> proc_post B Cr E m s1 n t2 s2 ->
  proc_post B Cr E m s n t2 s2.
Proof.
  intros (_ & _ & C1 & W1 & T1) (I2 & HT2 & C2 & W2 & T2). do 2 (split; [done|]). split; [by eapply calm_trans|].
  split; [by eapply wkeep_trans|]. by rewrite T2, T1, list_insert_insert_eq.
Qed.

(** a task of which only the references change *)
Lemma proc_post_put B Cr E m s n t1 s1 s2 : fput m s1 s2 -> vinv B Cr E m s2 -> TI m (v_world s) ->
  calm s s1 -> v_world s1 = v_world s -> v_tasks s1 = <[n := t1]> (v_tasks s) -> proc_post B Cr E m s n t1 s2.
Proof.
  intros (Hc & Ht & Hw) I HT Hc1 Ew Et. rewrite Ew in Hw. split; [done|]. split; [by eapply TI_wkeep|].
  split; [by eapply calm_trans|]. split; [done|]. by rewrite Ht.
Qed.

Lemma fput_null B Cr E m s p (k : unit -> M St unit) Q : vinv B Cr (nonnull [p] ++ E) m s -> light Cr (p :: E) ->
  below 3 (v_held s) -> (forall s', fput m s s' -> vinv B Cr E m s' -> wp (k tt) Q s') ->
  wp (mbind' (file_put p) k) Q s.
Proof.
  intros I Hl Hb W. destruct (decide (p = 0)) as [->|Hp].
  - apply wp_bind, wp_ret, W; [|done]. split; [done|]. split; [done|]. apply wkeep_refl, I.
  - rewrite (nonnull_one p) in I by done. eapply wp_file_put; [exact I|done|done|]. intros s' ? _ ?. by apply W.
Qed.

Lemma exit_files_ok k : forall B Cr E m s n t i, vinv B Cr E m s -> TI m (v_world s) -> light Cr (0 :: E) -> v_held s = [] ->
  v_tasks s !! n = Some t -> (i + k)%nat = Z.to_nat NOFILE ->
  wp (exit_files k i n) (fun _ => proc_post B Cr E m s n (set_ofile (take i (t_ofile t) ++ replicate k 0) t)) s.
Proof.
  induction k as [|k IH]; intros B Cr E m s n t i I HT Hl Hh Ht Hik; cbn [exit_files].
  - apply wp_ret. split; [done|]. split; [done|]. split; [done|]. split; [apply wkeep_refl, I|].
    destruct (task_ok_at _ _ _ _ _ _ _ I Ht) as [Hlen _]. simpl. rewrite app_nil_r, take_ge by lia.
    rewrite list_insert_id; [done|]. rewrite Ht. by destruct t.
  - destruct (task_ok_at _ _ _ _ _ _ _ I Ht) as [Hlen Hcw]. assert (i < length (t_ofile t))%nat as Hlt by lia.
    destruct (lookup_lt_is_Some_2 _ _ Hlt) as [p Hp]. apply (wp_task n t); [done|]. rewrite Hp. simpl.
    apply (wp_set_task n t); [done|]. set (t1 := set_ofile (<[i := 0]> (t_ofile t)) t).
    set (s1 := with_tasks _ s). assert (vinv B Cr (nonnull [p] ++ E) m s1) as I1.
    { apply (vinv_put_fd B Cr E (nonnull [p] ++ E) m s n t i p 0); [done|done|done|]. done. }
    eapply fput_null; [exact I1|lite|simpl; rewrite Hh; constructor|]. intros s2 P2 I2.
    assert (proc_post B Cr E m s n t1 s2) as P1 by (by eapply proc_post_put).
    pose proof P1 as (_ & HT2 & Hc2 & _ & Ht2). eapply wp_conseq; [apply (IH B Cr E m s2 n t1 (S i) I2 HT2 Hl)|].
    + by rewrite (calm_held _ _ Hc2).
    + rewrite Ht2. rewrite list_lookup_insert_eq; [done|]. by eapply lookup_lt_Some.
    + lia.
    + intros [] s3 P3. pose proof (proc_post_trans _ _ _ _ _ _ _ _ _ _ P1 P3) as P.
      subst t1. cbn [t_ofile set_ofile] in P. rewrite (take_S_r _ _ 0) in P by (by apply list_lookup_insert_eq).
      rewrite take_insert_ge in P by lia. rewrite <- app_assoc in P. exact P.
Qed.

Lemma exit_fs_ok B Cr E m s n t : vinv B Cr E m s -> TI m (v_world s) -> spare Cr E -> v_held s = [] ->
  v_tasks s !! n = Some t ->
  wp (exit_fs n) (fun _ => proc_post B Cr E m s n (mkTask 0 [] (replicate (Z.to_nat NOFILE) 0) (t_cred t))) s.
Proof.
  intros I HT Hl Hh Ht. unfold exit_fs. apply wp_bind.
  eapply wp_conseq; [apply (exit_files_ok _ B Cr E m s n t 0 I HT); [lite|done|done|done]|].
  intros [] s1 P1. pose proof P1 as (I1 & HT1 & Hc1 & _ & Ht1). set (t1 := set_ofile _ t) in *.
  assert (v_tasks s1 !! n = Some t1) as Hn1.
  { rewrite Ht1. apply list_lookup_insert_eq. by eapply lookup_lt_Some. }
  apply (wp_task n t1); [done|].
  assert (forall s2, vinv B Cr E m s2 -> calm s1 s2 -> wkeep m (v_world s1) (v_world s2) ->
    v_tasks s2 = <[n := set_tcwd 0 (t_cwd_path t) t1]> (v_tasks s1) ->
    wp (set_task n (fun t => set_tcwd (t_cwd t) [] t))
       (fun _ => proc_post B Cr E m s n (mkTask 0 [] (replicate (Z.to_nat NOFILE) 0) (t_cred t))) s2) as Hend.
  { intros s2 I2 Hc2 Hw2 Ht2. apply wp_tail. apply (wp_set_task n (set_tcwd 0 (t_cwd_path t) t1)).
    { rewrite Ht2. apply list_lookup_insert_eq. by eapply lookup_lt_Some. }
    apply wp_ret. eapply proc_post_trans; [exact P1|]. split; [|split; [|split; [exact Hc2|split; [exact Hw2|]]]].
    - eapply (vinv_task B Cr Cr E E m s2 n (set_tcwd 0 (t_cwd_path t) t1)); [exact I2| |split; [apply (task_ok_at _ _ _ _ _ _ _ I1 Hn1)|done]|done|done]. rewrite Ht2. apply list_lookup_insert_eq. by eapply lookup_lt_Some.
    - by eapply TI_wkeep.
    - simpl. by rewrite Ht2, list_insert_insert_eq. }
  apply wp_bind. destruct (t_cwd t1 =? 0) eqn:E0; breflect.
  - apply wp_ret, Hend; [done|done|apply wkeep_refl, I1|]. rewrite list_insert_id; [done|].
    rewrite Hn1. f_equal. unfold t1, set_tcwd, set_ofile. simpl. f_equal. exact E0.
  - set (s1' := with_tasks (<[n := set_tcwd 0 (t_cwd_path t) t1]> (v_tasks s1)) s1).
    assert (vinv B (t_cwd t1 :: Cr) E m s1') as I0.
    { eapply vinv_task; [exact I1|done|exact (task_ok_at _ _ _ _ _ _ _ I1 Hn1)| |done].
      by rewrite (nonnull_one (t_cwd t1)). }
    pose proof (refs_room _ _ _ _ _ I0 ltac:(lite)) as Hr. rewrite refs_perm in Hr. simpl in Hr.
    eapply (wp_inode_put (refs m s1' ++ Cr)); [apply I1|eapply counted_proper; [symmetry; apply refs_perm|reflexivity|apply I0]|lia|rewrite (calm_held _ _ Hc1), Hh; constructor|].
    intros w Hw HR. apply wp_tail, (wp_set_task n t1); [done|]. apply wp_ret. simpl.
    apply (Hend (with_world w s1')); [by eapply vinv_counts|done|by apply wkeep_counts|done].
Qed.

(** ** Sharing at fork *)
Lemma fork_files_ok k : forall B Cr E m s p c tp tc i, vinv B Cr E m s -> TI m (v_world s) -> light Cr (0 :: E) -> v_held s = [] ->
  v_tasks s !! p = Some tp -> v_tasks s !! c = Some tc -> p <> c -> (i + k)%nat = Z.to_nat NOFILE ->
  drop i (t_ofile tc) = replicate k 0 ->
  wp (fork_files k i p c) (fun _ => proc_post B Cr E m s c (set_ofile (take i (t_ofile tc) ++ drop i (t_ofile tp)) tc)) s.
Proof.
  induction k as [|k IH]; intros B Cr E m s p c tp tc i I HT Hl Hh Hp Hc Hpc Hik Hz; cbn [fork_files];
    destruct (task_ok_at _ _ _ _ _ _ _ I Hp) as [Hlp _]; destruct (task_ok_at _ _ _ _ _ _ _ I Hc) as [Hlc _].
  - apply wp_ret. split; [done|]. split; [done|]. split; [done|]. split; [apply wkeep_refl, I|].
    simpl. rewrite drop_ge, app_nil_r, take_ge by lia. rewrite list_insert_id; [done|]. rewrite Hc. by destruct tc.
  - assert (i < length (t_ofile tp))%nat as Hlt by lia. destruct (lookup_lt_is_Some_2 _ _ Hlt) as [f Hf].
    assert (t_ofile tc !! i = Some 0) as H0.
    { rewrite <- (Nat.add_0_r i), <- lookup_drop, Hz. done. }
    apply (wp_task p tp); [done|]. rewrite Hf. simpl.
    set (tc1 := set_ofile (<[i := f]> (t_ofile tc)) tc).
    assert (forall s1, proc_post B Cr E m s c tc1 s1 -> wp (fork_files k (S i) p c) (fun _ => proc_post B Cr E m s c
      (set_ofile (take i (t_ofile tc) ++ drop i (t_ofile tp)) tc)) s1) as Hend.
    { intros s1 P1. pose proof P1 as (I1 & HT1 & Hc1 & _ & Ht1). eapply wp_conseq.
      - apply (IH B Cr E m s1 p c tp tc1 (S i) I1 HT1 Hl).
        + by rewrite (calm_held _ _ Hc1).
        + rewrite Ht1. by rewrite list_lookup_insert_ne.
        + rewrite Ht1. apply list_lookup_insert_eq. by eapply lookup_lt_Some.
        + done.
        + lia.
        + subst tc1. cbn [t_ofile set_ofile]. rewrite drop_insert_lt by lia.
          apply (f_equal (drop 1)) in Hz. rewrite drop_drop, Nat.add_1_r in Hz. exact Hz.
      - intros [] s3 P3. pose proof (proc_post_trans _ _ _ _ _ _ _ _ _ _ P1 P3) as P. subst tc1. cbn [t_ofile set_ofile] in P.
        rewrite (take_S_r _ _ f) in P by (apply list_lookup_insert_eq; lia). rewrite take_insert_ge in P by lia.
        rewrite <- app_assoc in P. rewrite (drop_S _ f i) by done. exact P. }
    apply wp_bind. destruct (f =? 0) eqn:E0; breflect.
    + apply wp_tail, (wp_set_task c tc); [done|]. apply wp_ret, Hend. subst f. split; [|do 2 (split; [done|]); split; [apply wkeep_refl, I|done]].
      by eapply (vinv_put_fd B Cr E E m s c tc i 0 0).
    + eapply wp_file_get; [exact I|lite|exact (slot_ref s p tp i f E Hp Hf E0)|rewrite Hh; constructor|]. intros fl I1.
      apply wp_tail, (wp_set_task c tc); [done|]. apply wp_ret, Hend. split; [|do 2 (split; [done|]); split; [apply wkeep_refl, I|done]].
      eapply (vinv_put_fd B Cr (f :: E) E m (with_files fl s) c tc i 0 f); [done..|]. by rewrite (nonnull_one f).
Qed.
Lemma fork_fs_ok B Cr E m s p c tp tc : vinv B Cr E m s -> TI m (v_world s) -> spare Cr E -> v_held s = [] ->
  v_tasks s !! p = Some tp -> v_tasks s !! c = Some tc -> p <> c -> t_cwd tc = 0 ->
  t_ofile tc = replicate (Z.to_nat NOFILE) 0 ->
  wp (fork_fs p c) (fun _ => proc_post B Cr E m s c (mkTask (t_cwd tp) (t_cwd_path tp) (t_ofile tp) (t_cred tc))) s.
Proof.
  intros I HT Hl Hh Hp Hc Hpc Hcw Hof. unfold fork_fs. apply (wp_task p tp); [done|]. apply (wp_set_task c tc); [done|].
  set (tc1 := set_tcwd _ _ tc). set (s1 := with_tasks _ s).
  assert (task_ok tc1) as Hok1.
  { split; [apply (task_ok_at _ _ _ _ _ _ _ I Hc)|]. apply (task_ok_at _ _ _ _ _ _ _ I Hp). }
  assert (forall w, counts (v_world s) w -> vinv B Cr E m (with_world w s1) ->
    wp (fork_files (Z.to_nat NOFILE) 0 p c) (fun _ => proc_post B Cr E m s c
      (mkTask (t_cwd tp) (t_cwd_path tp) (t_ofile tp) (t_cred tc))) (with_world w s1)) as Hend.
  { intros w Hw I1. assert (proc_post B Cr E m s c tc1 (with_world w s1)) as P1.
    { split; [done|]. split; [by eapply TI_wkeep, wkeep_counts|]. split; [done|]. split; [by apply wkeep_counts|done]. }
    pose proof P1 as (_ & HT1 & _). eapply wp_conseq; [apply (fork_files_ok _ B Cr E m (with_world w s1) p c tp tc1 0 I1 HT1)|].
    - lite.
    - done.
    - simpl. by rewrite list_lookup_insert_ne.
    - simpl. apply list_lookup_insert_eq. by eapply lookup_lt_Some.
    - done.
    - done.
    - simpl. by rewrite Hof.
    - intros [] s2 P2. exact (proc_post_trans _ _ _ _ _ _ _ _ _ _ P1 P2). }
  destruct (decide (t_cwd tp = 0)) as [E0|E0].
  - assert (inode_get (t_cwd tp) = mret tt :> M St unit) as -> by (unfold inode_get; by rewrite E0). apply wp_bind, wp_ret. rewrite <- (with_world_id s1). apply Hend; [by apply counts_refl, I|].
    rewrite with_world_id. eapply vinv_task; [exact I|done|done| |done]. simpl. by rewrite E0, Hcw.
  - assert (t_cwd tp ∈ refs m s ++ Cr) as Hin.
    { apply elem_of_app. left. do 3 (apply elem_of_app; right). apply nonnull_in. split; [done|].
      apply list_elem_of_fmap. exists tp. split; [done|]. by eapply list_elem_of_lookup_2. }
    pose proof (refs_room _ _ _ _ _ I ltac:(lite)).
    eapply (wp_inode_get (refs m s ++ Cr)); [apply I|apply I|lia|done|simpl; rewrite Hh; constructor|].
    intros w Hw HR _. apply Hend; [done|].
    assert (vinv B (t_cwd tp :: Cr) E m (with_world w s)) as I1.
    { eapply vinv_counts; [exact I|done|]. eapply counted_proper; [apply refs_perm|reflexivity|exact HR]. }
    eapply (vinv_task B _ Cr E E m (with_world w s) c tc tc1) in I1; [exact I1|done|done| |done].
    simpl. by rewrite (nonnull_one (t_cwd tp)), Hcw.
Qed.
End Proc.
