(* ===== verification/VfsMount.v ===== *)
(** The mount tree as [vfs_mount] and [vfs_umount] change it, and mounting and
    unmounting under the invariant. *)
From stdpp Require Import base gmap list strings.
From Stdlib Require Import ZArith Lia.
From S2P Require Import Prelude HashMap VfsPath Vfs VfsInv VfsCache VfsWalk VfsDir VfsFile VfsOpen.
Open Scope Z_scope.

(** ** The mount tree *)

(** what identifies a mount *)
Definition minfo (t : mount) : Z * list Z * Z := (m_ptr t, m_path t, m_sb t).
Definition infos (t : mount) : list (Z * list Z * Z) := minfo <$> mount_list t.

Lemma infos_eq p path sb cs : infos (Mount p path sb cs) = (p, path, sb) :: concat (infos <$> cs).
Proof.
  unfold infos. cbn [mount_list]. rewrite fmap_cons. f_equal.
  induction cs as [|c cs IH]; [done|]. rewrite !fmap_cons. cbn [concat]. by rewrite fmap_app, IH.
Qed.
Lemma infos_ptr t : m_ptr <$> mount_list t = (fun x => x.1.1) <$> infos t.
Proof. unfold infos. by rewrite <- list_fmap_compose. Qed.
Lemma infos_sb t : m_sb <$> mount_list t = (fun x => x.2) <$> infos t.
Proof. unfold infos. by rewrite <- list_fmap_compose. Qed.
Definition ptrs (t : mount) : list Z := (fun x => x.1.1) <$> infos t.
Lemma ptrs_eq p path sb cs : ptrs (Mount p path sb cs) = p :: concat (ptrs <$> cs).
Proof.
  unfold ptrs. rewrite infos_eq, fmap_cons. f_equal.
  induction cs as [|c cs IH]; [done|]. rewrite !fmap_cons. cbn [concat]. by rewrite fmap_app, IH.
Qed.
Lemma ptrs_self t : m_ptr t ∈ ptrs t.
Proof. destruct t as [p path sb cs]. rewrite ptrs_eq. apply elem_of_cons. by left. Qed.
Lemma ptrs_child t c p : c ∈ m_child t -> p ∈ ptrs c -> p ∈ concat (ptrs <$> m_child t).
Proof.
  intros Hc Hp. apply list_elem_of_In, in_concat. exists (ptrs c). split; [|by apply list_elem_of_In].
  apply list_elem_of_In, list_elem_of_fmap. by exists c.
Qed.

Lemma mount_in_ptrs p x cs : m_ptr x = p -> x ∈ concat (mount_list <$> cs) -> p ∈ concat (ptrs <$> cs).
Proof.
  intros Ep Hx. induction cs as [|c cs IH]; [by apply not_elem_of_nil in Hx|]. rewrite fmap_cons in *. cbn [concat] in *.
  apply elem_of_app. apply elem_of_app in Hx as [Hx|Hx]; [left|right; auto].
  unfold ptrs. rewrite <- infos_ptr. rewrite <- Ep. apply list_elem_of_fmap. by exists x.
Qed.

Lemma NoDup_concat_inv {A} (l : list A) ls : NoDup (concat ls) -> l ∈ ls -> NoDup l.
Proof.
  induction ls as [|k ls IH]; simpl; [by intros _ ?%not_elem_of_nil|].
  intros (H1 & _ & H2)%NoDup_app [->|Hl]%elem_of_cons; auto.
Qed.

(** *** Adding *)
Lemma mount_add_none p new t : p ∉ ptrs t -> mount_add p new t = t.
Proof.
  induction t as [q path sb cs IH] using mount_ind'. rewrite ptrs_eq, not_elem_of_cons. intros [Hq Hp]. simpl.
  rewrite (proj2 (Z.eqb_neq q p)) by congruence. f_equal.
  induction IH as [|c cs Hc _ IHcs]; [done|]. simpl in *. rewrite elem_of_app in Hp.
  rewrite Hc by tauto. f_equal. apply IHcs. tauto.
Qed.
Lemma mount_add_map_none p new cs : p ∉ concat (ptrs <$> cs) -> mount_add p new <$> cs = cs.
Proof.
  induction cs as [|c cs IH]; [done|]. simpl. rewrite elem_of_app. intros Hp.
  rewrite mount_add_none by tauto. f_equal. apply IH. tauto.
Qed.

Lemma mount_add_infos p new t : NoDup (ptrs t) -> p ∈ ptrs t -> infos (mount_add p new t) ≡ₚ infos new ++ infos t.
Proof.
  induction t as [q path sb cs IH] using mount_ind'. rewrite ptrs_eq. intros [Hq Hd]%NoDup_cons Hp. cbn [mount_add].
  destruct (q =? p) eqn:E; breflect.
  - subst q. rewrite mount_add_map_none by done. rewrite !infos_eq, fmap_cons. cbn [concat]. apply Permutation_middle.
  - apply elem_of_cons in Hp as [?|Hp]; [congruence|]. rewrite !infos_eq. rewrite <- Permutation_middle. apply perm_skip.
    clear Hq. induction IH as [|c cs Hc _ IHcs]; [by apply not_elem_of_nil in Hp|].
    rewrite fmap_cons in Hp, Hd. cbn [concat] in Hp, Hd. rewrite !fmap_cons. cbn [concat].
    apply NoDup_app in Hd as (Hd1 & Hd2 & Hd3). apply elem_of_app in Hp as [Hp|Hp].
    + rewrite Hc by done. rewrite (mount_add_map_none p new cs) by (by apply Hd2). by rewrite app_assoc.
    + rewrite (mount_add_none p new c) by (intros ?; by eapply Hd2). rewrite IHcs by done. solve_Permutation.
Qed.

Lemma mount_add_top p new t : m_path (mount_add p new t) = m_path t.
Proof. by destruct t. Qed.

(** a path that leads to [find_mount t path] leads to a mount added there *)
Lemma find_mount_eq q mp sb cs path : find_mount (Mount q mp sb cs) path =
  match find (fun c => mount_path_match (m_path c) path) cs with Some c => find_mount c path | None => Mount q mp sb cs end.
Proof.
  simpl. generalize (Mount q mp sb cs) as t. intros t. induction cs as [|c cs IH]; [done|]. simpl.
  by destruct (mount_path_match (m_path c) path).
Qed.
Lemma find_fmap {A} (P : A -> bool) (f : A -> A) l : (forall x, P (f x) = P x) -> find P (f <$> l) = f <$> find P l.
Proof. intros Hf. induction l as [|x l IH]; [done|]. simpl. rewrite Hf. by destruct (P x). Qed.
Lemma find_mount_ptr t path : m_ptr (find_mount t path) ∈ ptrs t.
Proof.
  unfold ptrs. rewrite <- infos_ptr. apply list_elem_of_fmap. eexists. split; [done|]. apply find_mount_in.
Qed.

Lemma find_mount_add new t path : NoDup (ptrs t) -> mount_path_match (m_path new) path = true ->
  find_mount (mount_add (m_ptr (find_mount t path)) new t) path = find_mount new path.
Proof.
  intros Hd Hm. induction t as [q mp sb cs IH] using mount_ind'. rewrite ptrs_eq in Hd. apply NoDup_cons in Hd as [Hq Hd].
  rewrite (find_mount_eq q). destruct (find _ cs) as [c|] eqn:Ef.
  - pose proof (find_some _ _ Ef) as [Hc Hcm]. apply list_elem_of_In in Hc.
    assert (m_ptr (find_mount c path) ∈ concat (ptrs <$> cs)) as Hp.
    { apply (ptrs_child (Mount q mp sb cs) c); [done|apply find_mount_ptr]. }
    cbn [mount_add]. rewrite (proj2 (Z.eqb_neq q _)) by congruence.
    rewrite find_mount_eq, find_fmap by (intros x; by rewrite mount_add_top). rewrite Ef. simpl.
    rewrite Forall_forall in IH. apply IH; [done|]. eapply NoDup_concat_inv; [exact Hd|].
    apply list_elem_of_fmap. by exists c.
  - cbn [mount_add m_ptr]. rewrite Z.eqb_refl, find_mount_eq. simpl. by rewrite Hm.
Qed.

(** *** Removing a mount without children *)
Lemma mount_unlink_none p t : p ∉ ptrs t -> mount_unlink p t = t.
Proof.
  induction t as [q path sb cs IH] using mount_ind'. rewrite ptrs_eq, not_elem_of_cons. intros [Hq Hp]. simpl. f_equal.
  induction IH as [|c cs Hc _ IHcs]; [done|]. rewrite fmap_cons in Hp. cbn [concat] in Hp. rewrite elem_of_app in Hp.
  rewrite fmap_cons, Hc by tauto. rewrite filter_cons_True by (intros <-; apply Hp; left; apply ptrs_self).
  f_equal. apply IHcs. tauto.
Qed.
Lemma unlink_map_none p cs : p ∉ concat (ptrs <$> cs) -> filter (fun c => m_ptr c <> p) (mount_unlink p <$> cs) = cs.
Proof.
  intros Hp. pose proof (mount_unlink_none p (Mount (p + 1) [] 0 cs)) as Hn. rewrite ptrs_eq in Hn. simpl in Hn.
  injection Hn; [done|]. rewrite not_elem_of_cons. split; [lia|done].
Qed.
Lemma mount_unlink_ptr p t : m_ptr (mount_unlink p t) = m_ptr t /\ m_path (mount_unlink p t) = m_path t.
Proof. by destruct t. Qed.

Lemma mount_unlink_infos p t x : NoDup (ptrs t) -> m_ptr t <> p -> x ∈ mount_list t -> m_ptr x = p -> m_child x = [] ->
  infos t ≡ₚ minfo x :: infos (mount_unlink p t).
Proof.
  induction t as [q path sb cs IH] using mount_ind'. rewrite ptrs_eq. intros [Hq Hd]%NoDup_cons Htp Hx Hxp Hxc.
  simpl in Htp. cbn [mount_list] in Hx. apply elem_of_cons in Hx as [->|Hx]; [done|]. cbn [mount_unlink].
  rewrite !infos_eq. rewrite perm_swap. apply perm_skip. clear Hq Htp.
  induction IH as [|c cs Hc _ IHcs]; [by apply not_elem_of_nil in Hx|]. rewrite fmap_cons in Hx. rewrite fmap_cons in Hd. cbn [concat] in Hx, Hd.
  apply NoDup_app in Hd as (Hd1 & Hd2 & Hd3).
  assert (forall c', x ∈ mount_list c' -> p ∈ ptrs c') as Hin.
  { intros c' Hx'. unfold ptrs. rewrite <- infos_ptr, <- Hxp. apply list_elem_of_fmap. by exists x. }
  rewrite !fmap_cons. cbn [concat]. apply elem_of_app in Hx as [Hx|Hx].
  - assert (p ∉ concat (ptrs <$> cs)) as Hn by (apply Hd2; auto).
    rewrite filter_cons. destruct (mount_unlink_ptr p c) as [-> _]. case_decide as Hcp.
    + rewrite (unlink_map_none p cs Hn), fmap_cons. cbn [concat]. by rewrite (Hc Hd1 Hcp Hx Hxp Hxc).
    + rewrite (unlink_map_none p cs Hn). assert (m_ptr c = p) as Ecp by (destruct (decide (m_ptr c = p)); [done|by destruct Hcp]).
      destruct c as [q' path' sb' cs']. simpl in Ecp. subst q'. rewrite ptrs_eq in Hd1. apply NoDup_cons in Hd1 as [Hd1 _].
      cbn [mount_list] in Hx. apply elem_of_cons in Hx as [->|Hx].
      * simpl in Hxc. subst cs'. by rewrite infos_eq.
      * destruct Hd1. by apply mount_in_ptrs with x.
  - assert (p ∉ ptrs c) as Hn by (intros ?; by eapply Hd2, mount_in_ptrs).
    rewrite mount_unlink_none by done. rewrite filter_cons_True by (intros <-; apply Hn, ptrs_self).
    rewrite fmap_cons. cbn [concat]. rewrite (IHcs Hd3 Hx). solve_Permutation.
Qed.

(** *** The parent, and the mount at a path *)
Lemma mount_parent_sound p t q : NoDup (ptrs t) -> mount_parent p t = Some q -> q ∈ ptrs t /\ q <> p.
Proof.
  induction t as [r path sb cs IH] using mount_ind'. rewrite ptrs_eq. intros [Hr Hd]%NoDup_cons. cbn [mount_parent].
  assert (forall l, l ⊆ cs -> Forall (fun t => NoDup (ptrs t) -> mount_parent p t = Some q -> q ∈ ptrs t /\ q <> p) l ->
    (fix scan (cs : list mount) : option Z :=
       match cs with
       | [] => None
       | c :: cs' => if m_ptr c =? p then Some r else match mount_parent p c with Some r0 => Some r0 | None => scan cs' end
       end) l = Some q -> q ∈ r :: concat (ptrs <$> cs) /\ q <> p) as Hl.
  { intros l Hs HF. induction HF as [|c l Hc _ IHl]; [done|]. assert (c ∈ cs) as Hin by (apply Hs; by left).
    assert (forall x, x ∈ ptrs c -> x ∈ concat (ptrs <$> cs)) as Hsub by (intros x; by apply (ptrs_child (Mount r path sb cs))).
    destruct (m_ptr c =? p) eqn:E; breflect.
    - intros [= <-]. split; [by left|]. intros ->. apply Hr, Hsub. rewrite <- E. apply ptrs_self.
    - destruct (mount_parent p c) as [r'|]; [|apply IHl; intros y Hy; apply Hs; by right].
      intros [= ->]. destruct Hc as [H1 H2]; [|done|split; [right; by apply Hsub|done]].
      eapply NoDup_concat_inv; [exact Hd|]. apply list_elem_of_fmap. by exists c. }
  by apply Hl.
Qed.

Lemma mount_parent_complete p t : p ∈ concat (ptrs <$> m_child t) -> is_Some (mount_parent p t).
Proof.
  induction t as [r path sb cs IH] using mount_ind'. cbn [mount_parent m_child]. induction IH as [|c cs Hc _ IHcs].
  { by intros ?%not_elem_of_nil. }
  rewrite fmap_cons. cbn [concat]. rewrite elem_of_app. destruct (m_ptr c =? p) eqn:E; breflect; [by eexists|].
  intros [Hp|Hp]; [|by destruct (mount_parent p c); [eexists|apply IHcs]].
  destruct (mount_parent p c) as [q|]; [by eexists|]. destruct Hc as [? ?]; [|done].
  destruct c as [pc pathc sbc csc]. rewrite ptrs_eq in Hp. apply elem_of_cons in Hp as [?|Hp]; [by subst|done].
Qed.

Lemma find_exact_in t path x : vfs_find_mount_exact t path = Some x -> x ∈ concat (mount_list <$> m_child t) /\ m_path x = path.
Proof.
  induction t as [r mp sb cs IH] using mount_ind'. cbn [vfs_find_mount_exact m_child]. induction IH as [|c cs Hc _ IHcs]; [done|].
  rewrite fmap_cons. cbn [concat]. rewrite elem_of_app. case_bool_decide as E.
  - intros [= <-]. split; [left; apply mount_list_self|done].
  - destruct (vfs_find_mount_exact c path) as [y|].
    + intros [= ->]. destruct Hc as [H1 H2]; [done|]. split; [left|done]. destruct c. cbn [mount_list] in *. by right.
    + intros Hx. destruct (IHcs Hx). auto.
Qed.

Section Mount.
Context {F C T D H : Type} `{FL : FsLaws F} `{CL : CharLaws C}.
Context `{IT : !KvTable ikey T} `{DT : !KvTable (list Z) D} `{HH : Heap H}.
Abbreviation St := (vfs_state F C T D H).
Implicit Types (s : St) (w : world F) (m : gmap ikey Z) (B : gset Z) (Cr E : list Z).
Abbreviation inodes s := (w_inodes (v_world s)).
Ltac lite := unfold spare, light in *; simpl in *; lia.

(** ** The mount tree in the invariant *)
Definition minfos (r : option mount) : list (Z * list Z * Z) := match r with Some t => infos t | None => [] end.

Lemma mounts_ptr s : m_ptr <$> mounts s = (fun x => x.1.1) <$> minfos (v_root s).
Proof. unfold mounts, minfos. destruct (v_root s); [apply infos_ptr|done]. Qed.
Lemma mounts_sb s : m_sb <$> mounts s = (fun x => x.2) <$> minfos (v_root s).
Proof. unfold mounts, minfos. destruct (v_root s); [apply infos_sb|done]. Qed.

Lemma mounts_live s : (forall x, x ∈ mounts s -> is_Some (w_sbs (v_world s) !! m_sb x)) <->
  (forall sb, sb ∈ (fun x => x.2) <$> minfos (v_root s) -> is_Some (w_sbs (v_world s) !! sb)).
Proof.
  rewrite <- mounts_sb. split.
  - intros Hx sb (x & -> & Hin)%list_elem_of_fmap. by apply Hx.
  - intros Hx x Hin. apply Hx. apply list_elem_of_fmap. by exists x.
Qed.

(** the tree loses a node, which becomes the caller's object *)
Lemma vinv_unmount B Cr E m s r p path sb : vinv B Cr E m s -> minfos (v_root s) ≡ₚ (p, path, sb) :: minfos r ->
  (forall t, r = Some t -> m_path t = [slash]) ->
  vinv ({[p]} ∪ B) Cr E m (with_root r s) /\ (p ∉ B) /\ (sb ∉ m_sb <$> mounts (with_root r s)).
Proof.
  intros I HP Htop. destruct I as [? ? R K HF Hok ? ? ? ? Hh (Hd1 & Hd2 & Hd3) Hn (Mo1 & Mo2 & Mo3) ?].
  rewrite mounts_ptr, HP in Mo1. rewrite mounts_sb, HP in Mo2. rewrite mounts_live in Mo3.
  rewrite fmap_cons in Mo1. rewrite fmap_cons in Mo2. apply NoDup_cons in Mo1 as [Mo1 Mo1']. apply NoDup_cons in Mo2 as [Mo2 Mo2'].
  assert (mptrs s = {[p]} ∪ mptrs (with_root r s)) as Em.
  { unfold mptrs. rewrite !mounts_ptr. cbn [v_root with_root]. rewrite (list_to_set_perm_L _ _ (fmap_Permutation _ _ _ HP)).
    rewrite fmap_cons. by rewrite list_to_set_cons. }
  assert (p ∉ mptrs (with_root r s)) as Hp.
  { unfold mptrs. rewrite mounts_ptr. by rewrite elem_of_list_to_set. }
  assert (objs s = {[p]} ∪ objs (with_root r s)) as Eo.
  { unfold objs. rewrite Em. simpl. set_solver. }
  assert (p ∈ objs s) as Hpo by (rewrite Eo; set_solver).
  split; [|split; [set_solver|by rewrite mounts_sb]]. split; try done.
  - simpl. replace ({[p]} ∪ B ∪ objs (with_root r s)) with (B ∪ objs s); [done|]. rewrite Eo. set_solver.
  - rewrite Em in *. simpl. split; [|set_solver]. rewrite disjoint_union_l. split; [|rewrite Eo in Hd1; set_solver].
    unfold objs. simpl. set_solver.
  - simpl. rewrite Eo in Hn. set_solver.
  - rewrite mounts_ptr, mounts_sb, mounts_live. do 2 (split; [done|]). intros x Hx. simpl. apply Mo3. rewrite HP, fmap_cons. by right.
Qed.

(** the tree gains a node, which was the caller's object *)
Lemma vinv_mount B Cr E m s r p path sb : vinv ({[p]} ∪ B) Cr E m s -> p ∉ B -> minfos r ≡ₚ (p, path, sb) :: minfos (v_root s) ->
  is_Some (w_sbs (v_world s) !! sb) -> (sb ∉ m_sb <$> mounts s) -> (forall t, r = Some t -> m_path t = [slash]) ->
  vinv B Cr E m (with_root r s).
Proof.
  intros I HB HP Hsb Hnew Htop. destruct I as [? ? R K HF Hok ? ? ? ? Hh (Hd1 & Hd2 & Hd3) Hn (Mo1 & Mo2 & Mo3) ?].
  assert (mptrs (with_root r s) = {[p]} ∪ mptrs s) as Em.
  { unfold mptrs. rewrite !mounts_ptr. cbn [v_root with_root]. rewrite (list_to_set_perm_L _ _ (fmap_Permutation _ _ _ HP)).
    rewrite fmap_cons. by rewrite list_to_set_cons. }
  assert (objs (with_root r s) = {[p]} ∪ objs s) as Eo.
  { unfold objs. rewrite Em. simpl. set_solver. }
  assert (p ∉ objs s) as Hpo by set_solver. split; try done.
  - simpl. rewrite Eo. by replace (B ∪ ({[p]} ∪ objs s)) with ({[p]} ∪ B ∪ objs s) by set_solver.
  - rewrite Eo, Em. simpl. unfold objs in Hpo. set_solver.
  - rewrite Eo. set_solver.
  - rewrite mounts_ptr, mounts_sb, mounts_live. cbn [v_root with_root v_world]. rewrite HP, !fmap_cons.
    rewrite !NoDup_cons, <- mounts_ptr, <- mounts_sb. split; [|split].
    + split; [|done]. intros Hin. apply Hpo. unfold objs, mptrs. rewrite !elem_of_union, elem_of_list_to_set. auto.
    + done.
    + intros x. rewrite HP, fmap_cons. intros [->|Hx]%elem_of_cons; [done|]. by apply (proj1 (mounts_live s) Mo3).
Qed.

(** ** The end of a super block *)
Definition sb_at w p : option Z := i_sb <$> w_inodes w !! p.
(** no inode in the cache belongs to [sb] *)
Definition uncached m w sb : Prop := forall k p, m !! k = Some p -> sb_at w p <> Some sb.

Lemma sb_at_counts w w' p : counts w w' -> is_Some (w_inodes w' !! p) -> sb_at w' p = sb_at w p.
Proof.
  intros (_ & _ & _ & Hi) [j Hj]. destruct (Hi p j Hj) as (i & Hi' & E). unfold sb_at. rewrite Hj, Hi', E. done.
Qed.

Lemma TI_kill m w w' sb : TI m w -> uncached m w sb -> (forall k p, m !! k = Some p -> is_Some (w_inodes w !! p)) ->
  (forall q n p, m !! (q, n) = Some p -> name_norm n -> is_Some (w_inodes w !! q)) ->
  w_sbs w' = delete sb (w_sbs w) -> (forall p j, w_inodes w' !! p = Some j -> exists i, w_inodes w !! p = Some i /\ same_attr i j) ->
  (fs_exact -> forall sb' d k, sb' <> sb -> fs_entry (w_fs w') sb' d k = fs_entry (w_fs w) sb' d k) -> TI m w'.
Proof.
  intros [T1 T2 TT T3 T4 T5] Hun Hlive Hpar Es Hi He.
  assert (forall p, is_root w' p -> is_root w p) as Hr.
  { intros p (sb' & b & Hb & Ep). rewrite Es in Hb. apply lookup_delete_Some in Hb as [_ Hb]. by exists sb', b. }
  assert (forall p, attached m w' p -> attached m w p) as Ha.
  { intros p [[?|?]|?]; [left; left; auto|left; by right|by right]. }
  assert (forall p, is_root w p -> sb_at w p <> Some sb -> is_Some (w_inodes w !! p) -> is_root w' p) as Hr'.
  { intros p (sb' & b & Hb & Ep) Hne [i Hpi]. exists sb', b. split; [|done]. rewrite Es. rewrite lookup_delete_ne; [done|].
    intros <-. apply Hne. unfold sb_at. rewrite Hpi. simpl. f_equal. eapply T5; [exact Hb|by rewrite Ep]. }
  assert (forall q n p qi, m !! (q, n) = Some p -> name_norm n -> w_inodes w !! q = Some qi -> i_sb qi <> sb) as Hq.
  { intros q n p qi Hm Hn Hqi E. destruct (Hlive _ _ Hm) as [pi Hpi]. destruct (T1 _ _ _ _ _ Hm Hn Hqi Hpi) as [E1 _].
    apply (Hun _ _ Hm). unfold sb_at. rewrite Hpi. simpl. congruence. }
  assert (forall q n p, m !! (q, n) = Some p -> name_norm n -> in_tree m w q -> in_tree m w' q) as Hin.
  { intros q n p Hm Hn [Hrt|Hc]; [left|by right]. destruct (Hpar _ _ _ Hm Hn) as [qi Hqi].
    apply Hr'; [done| |by exists qi]. unfold sb_at. rewrite Hqi. simpl. intros [= E]. by eapply Hq. }
  split.
  - intros q n p qi pi Hm Hn Hqi Hpi. destruct (Hi _ _ Hqi) as (qi' & Hq' & -> & -> & _), (Hi _ _ Hpi) as (pi' & Hp' & -> & -> & _).
    destruct (T1 _ _ _ _ _ Hm Hn Hq' Hp') as [E1 E2]. split; [done|]. intros Hx. rewrite (He Hx) by (by eapply Hq). by apply E2.
  - intros q n p Hm Hn. destruct (T2 _ _ _ Hm Hn) as [Hc|?]; [left; by eapply Hin|by right].
  - intros Hx q n p Hm Hn. eapply Hin; [done|done|by eapply TT].
  - intros q n p Hm Hn. destruct (T3 _ _ _ Hm Hn) as [E Hrt]. split; [done|]. apply Hr'; [done|by eapply Hun|by eapply Hlive].
  - intros Hx p1 p2 i1 i2 H1%Ha H2%Ha I1 I2 E1 E2. destruct (Hi _ _ I1) as (j1 & J1 & ? & ? & _), (Hi _ _ I2) as (j2 & J2 & ? & ? & _).
    eapply (T4 Hx); [done|done|done|done|congruence|congruence].
  - intros sb' b i Hb Hbi. rewrite Es in Hb. apply lookup_delete_Some in Hb as [_ Hb].
    destruct (Hi _ _ Hbi) as (j & Hj & -> & _). by eapply T5.
Qed.

(** what the end of [sb] leaves *)
Definition sb_gone s sb s' : Prop :=
  frame s s' /\ w_sbs (v_world s') = delete sb (w_sbs (v_world s)) /\
  (fs_exact -> forall sb' d k, sb' <> sb -> fs_entry (w_fs (v_world s')) sb' d k = fs_entry (w_fs (v_world s)) sb' d k) /\
  (forall p j, inodes s' !! p = Some j -> exists i, inodes s !! p = Some i /\ j = set_refcount (i_refcount j) i).

Lemma roots_delete w sb b : w_sbs w !! sb = Some b ->
  sb_root <$> (map_to_list (w_sbs w)).*2 ≡ₚ sb_root b :: (sb_root <$> (map_to_list (delete sb (w_sbs w))).*2).
Proof. intros Hb. by rewrite <- (map_to_list_delete (w_sbs w) sb b Hb). Qed.

Lemma wp_kill_sb {A} B Cr E m s sb b (k : unit -> M St A) Q : vinv B Cr E m s -> TI m (v_world s) -> light Cr E ->
  below 5 (v_held s) -> w_sbs (v_world s) !! sb = Some b -> (sb ∉ m_sb <$> mounts s) -> uncached m (v_world s) sb ->
  (forall s', sb_gone s sb s' -> vinv B Cr E m s' -> TI m (v_world s') -> wp (k tt) Q s') ->
  wp (mbind' (kill_sb sb) k) Q s.
Proof.
  intros I HT Hl Hb Hsb Hmo Hun W. unfold kill_sb, sblk. apply wp_bind, wp_bind, wp_gets. rewrite Hsb. apply wp_ret.
  set (w0 := mkW (inodes s) (delete sb (w_sbs (v_world s))) (w_fs (v_world s))).
  set (R := refs m (with_world w0 s) ++ Cr).
  assert (sb_root b :: R ≡ₚ refs m s ++ Cr) as HR.
  { unfold R, refs, roots. simpl. rewrite (roots_delete _ _ _ Hsb). solve_Permutation. }
  pose proof (refs_room _ _ _ _ _ I Hl) as Hroom. rewrite <- HR in Hroom. simpl in Hroom.
  eapply (wp_inode_put R); [apply I|eapply counted_proper; [exact HR|reflexivity|apply I]|lia|done|].
  intros w1 Hw1 HR1. unfold in_world. apply wp_zoom. simpl.
  eapply wp_conseq; [apply (fs_kill_super_ok w1 sb b); [apply Hw1|by rewrite (proj1 (proj2 Hw1))]|].
  intros [] w2 (Ok2 & Ei & Es & He). pose proof Hw1 as (_ & Es1 & Ht1 & Hi1).
  assert (w_sbs w2 = delete sb (w_sbs (v_world s))) as Es2 by (by rewrite Es, Es1).
  assert (fs_exact -> forall sb' d k, sb' <> sb -> fs_entry (w_fs w2) sb' d k = fs_entry (w_fs (v_world s)) sb' d k) as He2.
  { intros Hx sb' d k' Hne. rewrite (He Hx) by done. by apply Ht1. }
  assert (forall p j, w_inodes w2 !! p = Some j -> exists i, inodes s !! p = Some i /\ j = set_refcount (i_refcount j) i) as Hi2.
  { intros p j. rewrite Ei. apply Hi1. }
  apply (W (with_world w2 s)).
  - split; [apply frame_world|done].
  - destruct I as [? ? ? K ? ? ? ? ? ? ? ? ? (Mo1 & Mo2 & Mo3) ?]. split; simpl; try done.
    + rewrite Ei. unfold R, refs, roots in *. simpl in *. by rewrite Es2.
    + intros q n p Hm. destruct (K q n p Hm) as (i & Hi & <- & <-). rewrite Ei.
      destruct (counted_live _ _ _ p HR1) as (j & Hj & _); [by eapply cached_ref|].
      destruct (Hi1 p j Hj) as (i' & Hi' & Ej). exists j. simplify_eq. rewrite Ej. split; [congruence|done].
    + do 2 (split; [done|]). intros x Hx. simpl. rewrite Es2, lookup_delete_ne; [by apply Mo3|].
      intros ->. apply Hmo, list_elem_of_fmap. by exists x.
  - eapply (TI_kill m (v_world s) _ sb); [done|done| | |done| |done].
    + intros k' p Hm. destruct (ref_live _ _ _ _ _ p I (cached_ref _ _ _ _ _ Hm)) as (i & ? & _). by exists i.
    + intros q n p Hm Hn. destruct (attached_live _ _ _ _ _ q I) as (i & ? & _); [by eapply ti_parent|by exists i].
    + intros p j Hj. destruct (Hi2 p j Hj) as (i & Hi & ->). by exists i.
Qed.

(** ** Emptying the cache of a super block *)
Definition of_sb w sb p : Prop := sb_at w p = Some sb.
#[local] Instance of_sb_dec w sb p : Decision (of_sb w sb p).
Proof. unfold of_sb. apply _. Defined.

Lemma umount_collect_ok sb l : forall max s, (forall p, p ∈ l -> is_Some (inodes s !! p)) ->
  wp (umount_collect max sb l) (fun r s' => s' = s /\ r = take max (filter (of_sb (v_world s) sb) l)) s.
Proof.
  induction l as [|p l IH]; intros max s Hl; cbn [umount_collect].
  { apply wp_ret. by destruct max. }
  destruct max as [|max]; [by apply wp_ret|]. destruct (Hl p) as [i Hi]; [by left|]. eapply wp_ino; [exact Hi|].
  assert (forall q, q ∈ l -> is_Some (inodes s !! q)) as Hl' by (intros; apply Hl; by right).
  destruct (i_sb i =? sb) eqn:E; breflect.
  - apply wp_bind. eapply wp_conseq; [by apply IH|]. intros r s' [-> ->]. apply wp_ret.
    rewrite filter_cons_True; [done|]. unfold of_sb, sb_at. rewrite Hi. simpl. by rewrite E.
  - rewrite filter_cons_False; [by apply IH|]. unfold of_sb, sb_at. rewrite Hi. simpl. congruence.
Qed.

Lemma remove_all_ok l : forall B Cr E m s, vinv B Cr E m s -> spare Cr E -> below 4 (v_held s) -> NoDup l ->
  (forall p, p ∈ l -> exists k, m !! k = Some p) ->
  wp (remove_all l) (fun _ s' => vstep s s' /\ vinv B Cr E (filter (fun kp => kp.2 ∉ l) m) s') s.
Proof.
  induction l as [|p l IH]; intros B Cr E m s I Hl Hb Hd Hin; cbn [remove_all].
  { apply wp_ret. split; [apply vstep_refl, I|]. rewrite map_filter_id; [done|]. intros k x _. by apply not_elem_of_nil. }
  apply NoDup_cons in Hd as [Hp Hd]. destruct (Hin p) as [[q n] Hk]; [by left|].
  destruct (vi_keys _ _ _ _ _ I q n p Hk) as (i & Hi & E1 & E2). pose proof Hk as Hk'. rewrite <- E1, <- E2 in Hk'.
  eapply wp_remove; [exact I|lite|done|exact Hi|exact Hk'|]. intros s1 V1 I1. rewrite E1, E2 in I1.
  eapply wp_conseq; [apply (IH _ _ _ _ _ I1 Hl)|].
  - by rewrite (vstep_held _ _ V1).
  - done.
  - intros x Hx. destruct (Hin x) as [k Hkx]; [by right|]. exists k. rewrite lookup_delete_ne; [done|]. intros <-. congruence.
  - intros [] s2 [V2 I2]. split; [by eapply vstep_trans|].
    replace (filter (fun kp : ikey * Z => kp.2 ∉ p :: l) m) with (filter (fun kp : ikey * Z => kp.2 ∉ l) (delete (q, n) m)); [done|].
    apply map_eq. intros k. apply option_eq. intros x. rewrite !map_lookup_filter_Some, lookup_delete_Some, not_elem_of_cons. simpl.
    split; [intros [[? Hkx] ?]; split; [done|]; split; [|done]|intros [Hkx [? ?]]; split; [split|]; [|done..]].
    + intros ->. destruct k as [q' n'], (vi_keys _ _ _ _ _ I q' n' p Hkx) as (j & Hj & <- & <-). congruence.
    + intros <-. congruence.
Qed.

(** the cached inodes of [sb] *)
Definition pending m w sb : list Z := filter (of_sb w sb) (map_to_list m).*2.

Lemma map_to_list_filter' (P : ikey * Z -> Prop) `{!forall x, Decision (P x)} m :
  map_to_list (filter P m) ≡ₚ filter P (map_to_list m).
Proof.
  rewrite map_filter_alt. apply map_to_list_to_map. eapply sublist_NoDup; [apply (NoDup_fst_map_to_list m)|].
  apply fmap_sublist, sublist_filter.
Qed.
Lemma filter_ext_in {A} (P Q : A -> Prop) `{!forall x, Decision (P x), !forall x, Decision (Q x)} (l : list A) :
  (forall x, x ∈ l -> P x <-> Q x) -> filter P l = filter Q l.
Proof.
  induction l as [|x l IH]; intros Hx; [done|]. rewrite !filter_cons. rewrite IH by (intros; apply Hx; by right).
  specialize (Hx x ltac:(by left)). repeat case_decide; tauto.
Qed.
Lemma filter_all {A} (P : A -> Prop) `{!forall x, Decision (P x)} (l : list A) : (forall x, x ∈ l -> P x) -> filter P l = l.
Proof.
  induction l as [|x l IH]; intros Hx; [done|]. rewrite filter_cons_True by (apply Hx; by left).
  by rewrite IH by (intros; apply Hx; by right).
Qed.
Lemma fmap_filter_snd (l : list Z) (L : list (ikey * Z)) :
  (filter (fun kp : ikey * Z => kp.2 ∉ l) L).*2 = filter (fun p => p ∉ l) L.*2.
Proof.
  induction L as [|[k p] L IH]; [done|]. rewrite fmap_cons, !filter_cons. cbn [snd].
  case_decide; [rewrite fmap_cons; by f_equal|done].
Qed.

Lemma filter_drop (n : nat) (X : list Z) : NoDup X -> filter (fun p => p ∉ take n X) X = drop n X.
Proof.
  revert n. induction X as [|x X IH]; intros n Hd; [by destruct n|]. apply NoDup_cons in Hd as [Hx Hd]. destruct n as [|n].
  - apply filter_all. intros y _. apply not_elem_of_nil.
  - cbn [take drop]. rewrite filter_cons_False by (intros Hn; apply Hn; by left). rewrite <- (IH n Hd).
    apply filter_ext_in. intros y Hy. rewrite not_elem_of_cons. split; [tauto|]. split; [congruence|done].
Qed.

Lemma pending_live B Cr E m s k p : vinv B Cr E m s -> m !! k = Some p -> is_Some (inodes s !! p).
Proof. intros I Hm. destruct (ref_live _ _ _ _ _ p I (cached_ref _ _ _ _ _ Hm)) as (i & ? & _). by exists i. Qed.

Lemma value_in m p : p ∈ (map_to_list m).*2 <-> exists k, m !! k = Some p.
Proof.
  rewrite list_elem_of_fmap. split; [intros ([k q] & -> & Hk%elem_of_map_to_list); by exists k|].
  intros [k Hk]. exists (k, p). split; [done|]. by apply elem_of_map_to_list.
Qed.

Lemma pending_none m w sb : pending m w sb = [] -> filter (fun kp => ~ of_sb w sb kp.2) m = m.
Proof.
  intros Hp. apply map_filter_id. intros k p Hm Hs. simpl in Hs. assert (p ∈ pending m w sb) as Hin.
  { apply list_elem_of_filter. split; [done|]. apply value_in. by exists k. }
  rewrite Hp in Hin. by apply not_elem_of_nil in Hin.
Qed.

Lemma of_sb_counts B Cr E m s w sb k p : vinv B Cr E m s -> counts w (v_world s) -> m !! k = Some p ->
  of_sb (v_world s) sb p <-> of_sb w sb p.
Proof. intros I Hw Hm. unfold of_sb. rewrite (sb_at_counts _ _ _ Hw); [done|]. by eapply pending_live. Qed.

Lemma pending_counts B Cr E m s w sb : vinv B Cr E m s -> counts w (v_world s) ->
  pending m (v_world s) sb = pending m w sb /\
  filter (fun kp => ~ of_sb (v_world s) sb kp.2) m = filter (fun kp => ~ of_sb w sb kp.2) m.
Proof.
  intros I Hw. split.
  - apply filter_ext_in. intros p [k Hk]%value_in. by eapply of_sb_counts.
  - apply map_filter_ext. intros k p Hm. simpl. by rewrite (of_sb_counts _ _ _ _ _ _ sb k p I Hw Hm).
Qed.

(** what one round leaves of the inodes of [sb] *)
Lemma pending_round B Cr E m s s1 sb X : vinv B Cr E m s -> NoDup X -> X ≡ₚ pending m (v_world s) sb ->
  counts (v_world s) (v_world s1) -> vinv B Cr E (filter (fun kp => kp.2 ∉ take 128 X) m) s1 ->
  length (pending (filter (fun kp => kp.2 ∉ take 128 X) m) (v_world s1) sb) = (length X - 128)%nat /\
  filter (fun kp => ~ of_sb (v_world s1) sb kp.2) (filter (fun kp => kp.2 ∉ take 128 X) m) =
  filter (fun kp => ~ of_sb (v_world s) sb kp.2) m.
Proof.
  intros I Hd HX Hw I1. set (m1 := filter (fun kp : ikey * Z => kp.2 ∉ take 128 X) m) in *.
  assert (forall k p, m1 !! k = Some p -> of_sb (v_world s1) sb p <-> of_sb (v_world s) sb p) as Heq.
  { intros k p Hm. by eapply of_sb_counts. }
  split.
  - unfold pending. rewrite (filter_ext_in _ (of_sb (v_world s) sb)).
    2:{ intros p [k Hk]%value_in. by eapply Heq. }
    assert ((map_to_list m1).*2 ≡ₚ filter (fun p => p ∉ take 128 X) (map_to_list m).*2) as Hv.
    { unfold m1. rewrite map_to_list_filter'. by rewrite fmap_filter_snd. }
    rewrite Hv, list_filter_filter. erewrite list_filter_iff; [|intros; apply and_comm]. rewrite <- list_filter_filter.
    change (filter (of_sb (v_world s) sb) _) with (pending m (v_world s) sb). rewrite <- HX, filter_drop by done.
    apply length_drop.
  - apply map_eq. intros k. apply option_eq. intros p. rewrite (map_lookup_filter_Some _ m1), (map_lookup_filter_Some _ m). unfold m1. rewrite (map_lookup_filter_Some _ m). simpl. split.
    + intros [[Hk Hx] Hs]. split; [done|]. rewrite <- (Heq k p); [done|]. by apply map_lookup_filter_Some.
    + intros [Hk Hs]. assert (p ∉ take 128 X) as Hx.
      { intros Hx. apply Hs. assert (p ∈ pending m (v_world s) sb) as Hin by (rewrite <- HX; by eapply subseteq_take).
        by apply list_elem_of_filter in Hin as [? _]. }
      split; [done|]. rewrite (Heq k p); [done|]. by apply map_lookup_filter_Some.
Qed.

Lemma umount_rounds_ok sb k : forall B Cr E m s, vinv B Cr E m s -> spare Cr E -> below 4 (v_held s) ->
  (length (pending m (v_world s) sb) <= 128 * k)%nat ->
  wp (umount_rounds k sb) (fun _ s' => vstep s s' /\ vinv B Cr E (filter (fun kp => ~ of_sb (v_world s) sb kp.2) m) s') s.
Proof.
  induction k as [|k IH]; intros B Cr E m s I Hl Hb Hlen; cbn [umount_rounds].
  { apply wp_ret. rewrite pending_none; [split; [apply vstep_refl, I|done]|]. apply length_zero_iff_nil. lia. }
  apply wp_gets. pose proof (kt_values_ok _ _ (vi_cache _ _ _ _ _ I)) as HV. set (vals := kt_values _) in *.
  set (X := filter (of_sb (v_world s) sb) vals).
  assert (X ≡ₚ pending m (v_world s) sb) as HX by (unfold X, pending; by rewrite HV).
  assert (NoDup X) as Hd.
  { rewrite HX. apply NoDup_filter. by eapply cache_values. }
  apply wp_bind. eapply wp_conseq; [apply umount_collect_ok|].
  { intros p Hp. rewrite HV in Hp. apply value_in in Hp as [k' Hk]. by eapply pending_live. }
  intros vs s0 [-> ->]. change (Z.to_nat VFS_INODE_CACHE_SIZE) with 128%nat. fold X.
  destruct (take 128 X) as [|v vs] eqn:Ev.
  - apply wp_ret. rewrite pending_none; [split; [apply vstep_refl, I|done]|].
    assert (X = []) as EX by (by destruct X). apply Permutation_nil. by rewrite <- HX, EX.
  - rewrite <- Ev. apply wp_bind. eapply wp_conseq; [apply (remove_all_ok _ B Cr E m s I Hl Hb)|].
    + eapply sublist_NoDup; [exact Hd|]. apply sublist_take.
    + intros p Hp%subseteq_take. rewrite HX in Hp. apply list_elem_of_filter in Hp as [_ Hp]. by apply value_in.
    + intros [] s1 [V1 I1]. destruct (pending_round _ _ _ _ _ _ _ _ I Hd HX (proj2 V1) I1) as [HL HF].
      eapply wp_conseq; [apply (IH _ _ _ _ _ I1 Hl)|].
      * by rewrite (vstep_held _ _ V1).
      * rewrite HL, (Permutation_length HX). lia.
      * intros [] s2 [V2 I2]. rewrite HF in I2. split; [by eapply vstep_trans|done].
Qed.
Lemma TI_restrict B Cr E m s sb : vinv B Cr E m s -> TI m (v_world s) ->
  TI (filter (fun kp => ~ of_sb (v_world s) sb kp.2) m) (v_world s).
Proof.
  intros I [T1 T2 TT T3 T4 T5]. set (m1 := filter _ m).
  assert (forall k p, m1 !! k = Some p -> m !! k = Some p /\ ~ of_sb (v_world s) sb p) as Hm1.
  { intros k p Hk. by apply map_lookup_filter_Some in Hk. }
  assert (forall p, attached m1 (v_world s) p -> attached m (v_world s) p) as Ha.
  { intros p Hp. eapply (attached_weaken m1); [apply map_filter_subseteq|reflexivity|exact Hp]. }
  split; [..|done].
  - intros q n p qi pi [Hm _]%Hm1. by apply T1.
  - intros q n p Hk Hn. pose proof Hk as [Hm _]%Hm1. right. split; [|by exists n, p]. intros ->.
    destruct (attached_live _ _ _ _ _ _ I (T2 _ _ _ Hm Hn)) as (i & Hi & _).
    destruct (fs_ok_null _ (vi_fs _ _ _ _ _ I)) as (_ & Hnu & _). congruence.
  - intros Hx q n p [Hm Hs]%Hm1 Hn. destruct (TT Hx _ _ _ Hm Hn) as [?|(q' & n' & Hq & Hn')]; [by left|right].
    exists q', n'. split; [|done]. apply map_lookup_filter_Some. split; [done|]. simpl. intros Hof. apply Hs.
    destruct (pending_live _ _ _ _ _ _ _ I Hq) as [qi Hqi], (pending_live _ _ _ _ _ _ _ I Hm) as [pi Hpi].
    destruct (T1 _ _ _ _ _ Hm Hn Hqi Hpi) as [Es _]. unfold of_sb, sb_at in *. rewrite Hqi in Hof. rewrite Hpi. simpl in *. congruence.
  - intros q n p [Hm _]%Hm1. by eapply T3.
  - intros Hx p1 p2 i1 i2 H1%Ha H2%Ha. by apply T4.
Qed.

(** ** Is a super block in use? *)
Lemma any_file_ok sb l : forall s, (forall p, p ∈ l -> p <> 0 -> exists f, v_files s !! p = Some f /\
    (f_inode f <> 0 -> is_Some (inodes s !! f_inode f))) ->
  wp (any_file sb l) (fun r s' => s' = s /\ (r = false -> forall p f, p ∈ l -> v_files s !! p = Some f -> p <> 0 -> f_inode f <> 0 ->
    ~ of_sb (v_world s) sb (f_inode f))) s.
Proof.
  induction l as [|p l IH]; intros s Hl; cbn [any_file].
  { apply wp_ret. split; [done|]. by intros _ p f ?%not_elem_of_nil. }
  assert (forall q, q ∈ l -> q <> 0 -> exists f, v_files s !! q = Some f /\ (f_inode f <> 0 -> is_Some (inodes s !! f_inode f))) as Hl'
    by (intros; apply Hl; [by right|done]).
  assert ((p <> 0 -> forall f, v_files s !! p = Some f -> f_inode f <> 0 -> ~ of_sb (v_world s) sb (f_inode f)) ->
    wp (any_file sb l) (fun r s' => s' = s /\ (r = false -> forall q f, q ∈ p :: l -> v_files s !! q = Some f -> q <> 0 -> f_inode f <> 0 ->
      ~ of_sb (v_world s) sb (f_inode f))) s) as Hskip.
  { intros Hp. eapply wp_conseq; [by apply IH|]. intros r s' [-> Hr]. split; [done|]. intros Er q f [->|Hq]%elem_of_cons; [|by apply Hr].
    intros Hf Hq0. by apply Hp. }
  destruct (p =? 0) eqn:E0; breflect; [by apply Hskip|]. destruct (Hl p) as (f & Hf & Hi); [by left|done|].
  eapply wp_fil; [exact Hf|]. destruct (f_inode f =? 0) eqn:Ef; breflect.
  { apply Hskip. intros _ g Hg. by simplify_eq. }
  destruct (Hi Ef) as [i Hi']. eapply wp_ino; [exact Hi'|]. destruct (i_sb i =? sb) eqn:Es; breflect; [by apply wp_ret|].
  apply Hskip. intros _ g Hg _. simplify_eq. unfold of_sb, sb_at. rewrite Hi'. simpl. congruence.
Qed.

(** no process holds an inode of [sb], by its directory or by an open file *)
Definition unused s sb (ts : list task) : Prop := forall t, t ∈ ts ->
  (t_cwd t <> 0 -> ~ of_sb (v_world s) sb (t_cwd t)) /\
  forall p f, p ∈ t_ofile t -> p <> 0 -> v_files s !! p = Some f -> f_inode f <> 0 -> ~ of_sb (v_world s) sb (f_inode f).

Lemma sb_busy_ok B Cr E m s sb ts : vinv B Cr E m s -> (forall t, t ∈ ts -> t ∈ v_tasks s) ->
  wp (sb_busy sb ts) (fun r s' => s' = s /\ (r = false -> unused s sb ts)) s.
Proof.
  intros I. induction ts as [|t ts IH]; intros Hts; cbn [sb_busy].
  { apply wp_ret. split; [done|]. by intros _ t ?%not_elem_of_nil. }
  assert (t ∈ v_tasks s) as Ht by (apply Hts; by left). apply wp_bind.
  assert (t_cwd t <> 0 -> exists i, inodes s !! t_cwd t = Some i) as Hcwd.
  { intros H0. destruct (ref_live _ _ _ _ _ (t_cwd t) I) as (i & ? & _); [|by exists i].
    apply elem_of_app. left. do 3 (apply elem_of_app; right). apply nonnull_in. split; [done|]. apply list_elem_of_fmap. by exists t. }
  eapply (wp_conseq _ (fun r s' => s' = s /\ (r = false -> t_cwd t <> 0 -> ~ of_sb (v_world s) sb (t_cwd t)))).
  { destruct (t_cwd t =? 0) eqn:E0; breflect; [by apply wp_ret|]. destruct (Hcwd E0) as [i Hi].
    eapply wp_ino; [exact Hi|]. apply wp_ret. split; [done|]. intros Es _. breflect. unfold of_sb, sb_at. rewrite Hi. simpl. congruence. }
  intros c s0 [-> Hc]. destruct c; [by apply wp_ret|]. apply wp_bind. eapply wp_conseq; [apply any_file_ok|].
  { intros p Hp Hp0. destruct (file_live _ _ _ _ _ p I) as (f & Hf & _).
    - apply list_elem_of_lookup in Ht as [n Hn]. apply list_elem_of_lookup in Hp as [fd Hfd]. by eapply slot_ref.
    - exists f. split; [done|]. intros Hi. destruct (ref_live _ _ _ _ _ _ I (file_inode_ref m s p f Cr Hf Hi)) as (i & ? & _). by exists i. }
  intros b s0 [-> Hb]. destruct b; [by apply wp_ret|]. eapply wp_conseq; [apply IH; intros; apply Hts; by right|].
  intros r s0 [-> Hr]. split; [done|]. intros Er t' [->|Ht']%elem_of_cons; [|by apply Hr]. split; [by apply Hc|].
  intros p f Hp Hp0 Hf. by apply (Hb eq_refl p f).
Qed.
(** ** vfs_umount *)
Definition umount_post B Cr E m s target (r : Z) s' : Prop :=
  v_held s' = [] /\ v_files s' = v_files s /\ v_tasks s' = v_tasks s /\ v_cur s' = v_cur s /\
  ((r = -1 /\ vinv B Cr E m s' /\ TI m (v_world s') /\ counts (v_world s) (v_world s') /\ minfos (v_root s') ≡ₚ minfos (v_root s)) \/
   (r = 0 /\ exists t x, v_root s = Some t /\ vfs_find_mount_exact t target = Some x /\ m_child x = [] /\
      v_root s' = Some (mount_unlink (m_ptr x) t) /\ minfos (v_root s) ≡ₚ minfo x :: minfos (v_root s') /\
      let m' := filter (fun kp => ~ of_sb (v_world s) (m_sb x) kp.2) m in
      vinv B Cr E m' s' /\ TI m' (v_world s') /\ unused s (m_sb x) (v_tasks s) /\
      w_sbs (v_world s') = delete (m_sb x) (w_sbs (v_world s)) /\
      (fs_exact -> forall sb d k, sb <> m_sb x -> fs_entry (w_fs (v_world s')) sb d k = fs_entry (w_fs (v_world s)) sb d k) /\
      (forall p j, inodes s' !! p = Some j -> exists i, inodes s !! p = Some i /\ j = set_refcount (i_refcount j) i))).

Lemma umount_same B Cr E m s target s' : vinv B Cr E m s -> TI m (v_world s) -> v_held s = [] ->
  s' = with_held [] s -> umount_post B Cr E m s target (-1) s'.
Proof.
  intros I HT Hh ->. do 4 (split; [done|]). left. split; [done|]. split; [by apply vinv_held|].
  split; [done|]. split; [apply counts_refl, I|done].
Qed.

Lemma minfos_some t : minfos (Some t) = infos t.
Proof. done. Qed.

(** the part after the checks *)
Lemma umount_finish B Cr E m s target t x b : vinv B Cr E m s -> TI m (v_world s) -> spare Cr E -> v_held s = [] ->
  v_root s = Some t -> vfs_find_mount_exact t target = Some x -> m_child x = [] -> w_sbs (v_world s) !! m_sb x = Some b ->
  unused s (m_sb x) (v_tasks s) -> (length (pending m (v_world s) (m_sb x)) <= 1024)%nat ->
  wp (modify (with_root (Some (mount_unlink (m_ptr x) t))) ;;;
      release LMount ;;;
      let* victims := slab_alloc (8 * VFS_INODE_CACHE_SIZE) in
      if victims =? 0 then
        acquire LMount ;;;
        let* mt := gets v_root in
        modify (with_root (match mount_parent (m_ptr x) t with Some q => mount_add q x <$> mt | None => mt end)) ;;;
        release LMount ;;;
        mret (-1)
      else
        umount_rounds 8 (m_sb x) ;;;
        slab_free victims ;;;
        kill_sb (m_sb x) ;;;
        slab_free (m_ptr x) ;;;
        mret 0)
     (umount_post B Cr E m s target) (with_held [LMount] s).
Proof.
  intros I HT Hl Hh Hroot Hx Hch Hb Hun Hlen. pose proof (find_exact_in _ _ _ Hx) as [Hxin _].
  pose proof (vi_mounts _ _ _ _ _ I) as (Hnd & _ & _). rewrite mounts_ptr, Hroot in Hnd. change (NoDup (ptrs t)) in Hnd.
  assert (m_ptr x ∈ concat (ptrs <$> m_child t)) as Hxp by (by eapply mount_in_ptrs).
  assert (m_ptr t <> m_ptr x) as Htx.
  { intros Et. destruct t as [pt path sb cs]. rewrite ptrs_eq in Hnd. apply NoDup_cons in Hnd as [Hnd _]. simpl in *. congruence. }
  assert (x ∈ mount_list t) as Hxl by (destruct t; cbn [mount_list]; by right).
  pose proof (mount_unlink_infos (m_ptr x) t x Hnd Htx Hxl eq_refl Hch) as HP. set (t1 := mount_unlink (m_ptr x) t) in *.
  assert (forall y, Some t1 = Some y -> m_path y = [slash]) as Htop.
  { intros y [= <-]. unfold t1. rewrite (proj2 (mount_unlink_ptr _ _)). by apply (vi_top _ _ _ _ _ I). }
  apply wp_modify. apply (wp_release LMount []); [done|by apply not_elem_of_nil|].
  set (s1 := with_root (Some t1) s).
  match goal with |- wp _ _ ?y => replace y with s1 by (unfold s1; destruct s; simpl in *; by subst) end.
  destruct (vinv_unmount B Cr E m s (Some t1) (m_ptr x) (m_path x) (m_sb x) I) as (I1 & HxB & Hsb1); [by rewrite Hroot|done|].
  fold s1 in I1, Hsb1.
  eapply wp_valloc; [exact I1|unfold VFS_INODE_CACHE_SIZE; lia| |].
  - intros s2 V2 I2. pose proof (vstep_held _ _ V2) as Hh2. simpl in Hh2. rewrite Hh in Hh2.
    pose proof V2 as [(h & w & tb & E2) Hw2]. simpl in Hw2.
    apply wp_acquire; [rewrite Hh2; constructor|]. apply wp_gets. apply wp_modify.
    apply (wp_release LMount []); [simpl; by rewrite Hh2|by apply not_elem_of_nil|]. apply wp_ret.
    destruct (mount_parent_complete _ _ Hxp) as [q Hq]. rewrite Hq. destruct (mount_parent_sound _ _ _ Hnd Hq) as [Hqt Hqx].
    assert (NoDup (ptrs t1) /\ q ∈ ptrs t1) as [Hnd1 Hq1].
    { pose proof (fmap_Permutation (fun y => y.1.1) _ _ HP) as HPp. rewrite fmap_cons in HPp. change (ptrs t ≡ₚ m_ptr x :: ptrs t1) in HPp.
      rewrite HPp in Hnd, Hqt. apply NoDup_cons in Hnd as [_ ?]. by apply elem_of_cons in Hqt as [?|?]. }
    assert (minfos (Some (mount_add q x t1)) ≡ₚ (m_ptr x, m_path x, m_sb x) :: minfos (Some t1)) as HA.
    { simpl. rewrite (mount_add_infos q x t1 Hnd1 Hq1). destruct x as [px pathx sbx csx]. simpl in Hch. subst csx. by rewrite infos_eq. }
    assert (v_root s2 = Some t1) as Er2 by (by subst s2). simpl. rewrite Er2. simpl.
    assert (vinv B Cr E m (with_root (Some (mount_add q x t1)) s2)) as I3.
    { eapply vinv_mount; [exact I2|done|by rewrite Er2| | |].
      - rewrite (proj1 (proj2 Hw2)). by exists b.
      - by subst s2.
      - intros y [= <-]. rewrite mount_add_top. by apply Htop. }
    split; [done|]. split; [by subst s2|]. split; [by subst s2|]. split; [by subst s2|]. left. split; [done|].
    split; [exact (vinv_held B Cr E m _ [] I3)|]. split; [exact (TI_vstep m s1 s2 HT V2)|]. split; [exact Hw2|].
    simpl. rewrite Hroot. simpl in *. by rewrite HA, HP.
  - intros vb s2 V2 Hv0 HvB I2. rewrite (proj2 (Z.eqb_neq vb 0)) by done. apply wp_bind.
    assert (v_held s2 = []) as Hh2 by (by rewrite (vstep_held _ _ V2)).
    destruct (pending_counts _ _ _ _ _ _ (m_sb x) I2 (proj2 V2)) as [Hp2 Hf2].
    eapply wp_conseq; [apply (umount_rounds_ok (m_sb x) 8 _ _ _ _ _ I2 Hl)|].
    { rewrite Hh2. constructor. }
    { rewrite Hp2. simpl. lia. }
    intros [] s3 [V3 I3]. rewrite Hf2 in I3. set (m' := filter (fun kp : ikey * Z => ~ of_sb (v_world s) (m_sb x) kp.2) m).
    change (vinv ({[vb]} ∪ ({[m_ptr x]} ∪ B)) Cr E m' s3) in I3.
    eapply wp_vfree; [exact I3|done|]. intros s4 V4 I4.
    pose proof (vstep_trans _ _ _ V2 (vstep_trans _ _ _ V3 V4)) as V24. pose proof V24 as [(h & w & tb & E4) Hw4]. simpl in Hw4.
    assert (TI m' (v_world s4)) as HT4.
    { refine (TI_vstep m' s1 s4 _ V24). exact (TI_restrict B Cr E m s (m_sb x) I HT). }
    eapply wp_kill_sb; [exact I4|exact HT4|lite|by rewrite (vstep_held _ _ V24); simpl; rewrite Hh; constructor|
      rewrite (proj1 (proj2 Hw4)); exact Hb|by subst s4| |].
    { intros k p Hk. rewrite (sb_at_counts _ _ _ Hw4) by (by eapply pending_live). by apply map_lookup_filter_Some in Hk as [_ ?]. }
    intros s5 (Hf5 & Es5 & He5 & Hi5) I5 HT5. eapply wp_vfree; [exact I5|done|]. intros s6 V6 I6. apply wp_ret.
    pose proof V6 as [Hf6 (_ & Es6 & He6 & Hi6)]. pose proof (frame_trans _ _ _ Hf5 Hf6) as (h6 & w6 & t6 & E6).
    assert (v_files s6 = v_files s /\ v_tasks s6 = v_tasks s /\ v_cur s6 = v_cur s /\ v_held s6 = [] /\ v_root s6 = Some t1) as (Q1 & Q2 & Q3 & Q4 & Q5).
    { subst s6 s4. simpl. auto. }
    do 4 (split; [done|]). right. split; [done|]. exists t, x. do 3 (split; [done|]). split; [done|].
    split; [by rewrite Q5, Hroot|]. split; [done|]. split; [by eapply TI_vstep|]. split; [done|].
    split; [by rewrite Es6, Es5, (proj1 (proj2 Hw4))|]. split.
    + intros Hx0 sb d k Hne. rewrite (He6 Hx0 _ _ _), (He5 Hx0) by done. by apply Hw4.
    + intros p j Hj. destruct (Hi6 p j Hj) as (i6 & Hi6' & ->). destruct (Hi5 p i6 Hi6') as (i5 & Hi5' & ->).
      destruct (proj2 (proj2 (proj2 Hw4)) p i5 Hi5') as (i4 & Hi4' & ->). by exists i4.
Qed.
Lemma vfs_umount_ok B Cr E m s target : vinv B Cr E m s -> TI m (v_world s) -> spare Cr E -> v_held s = [] ->
  (forall t x, v_root s = Some t -> vfs_find_mount_exact t target = Some x ->
     (length (pending m (v_world s) (m_sb x)) <= 1024)%nat) ->
  wp (vfs_umount target) (umount_post B Cr E m s target) s.
Proof.
  intros I HT Hl Hh Hlen. unfold vfs_umount.
  assert (umount_post B Cr E m s target (-1) s) as Hno.
  { apply umount_same; [done..|]. destruct s. simpl in *. by subst. }
  destruct (_ || _); [by apply wp_ret|]. apply wp_acquire; [rewrite Hh; constructor|]. rewrite Hh. apply wp_gets. simpl.
  assert (wp (release LMount ;;; mret (-1)) (umount_post B Cr E m s target) (with_held [LMount] s)) as Hrel.
  { apply (wp_release LMount []); [done|by apply not_elem_of_nil|]. apply wp_ret. by apply umount_same. }
  destruct (v_root s) as [t|] eqn:Er; [|done]. destruct (vfs_find_mount_exact t target) as [x|] eqn:Ex; [|done].
  destruct (m_child x) as [|c cs] eqn:Ec; [|done]. destruct (m_sb x =? 0); [done|].
  pose proof (vi_mounts _ _ _ _ _ I) as (_ & _ & Hsb). unfold mounts in Hsb. rewrite Er in Hsb.
  pose proof (proj1 (find_exact_in _ _ _ Ex)) as Hin.
  destruct (Hsb x) as [b Hb]; [destruct t; cbn [mount_list]; by right|].
  unfold sblk. apply wp_bind, wp_gets. simpl. rewrite Hb. apply wp_ret. destruct (sb_fs b =? 0); [done|].
  apply wp_gets. apply wp_bind. eapply wp_conseq; [apply (sb_busy_ok B Cr E m); [by apply vinv_held|done]|].
  intros busy s0 [-> Hun]. destruct busy; [done|]. eapply umount_finish; try done; [|by eapply Hlen]. by apply Hun.
Qed.
End Mount.
