(* ===== verification/VfsAttach.v ===== *)
(** vfs_mount under the invariant. *)
From stdpp Require Import base gmap list strings.
From Stdlib Require Import ZArith Lia.
From S2P Require Import Prelude HashMap VfsPath Vfs VfsInv VfsCache VfsWalk VfsDir VfsFile VfsOpen VfsMount.
Open Scope Z_scope.

Section Attach.
Context {F C T D H : Type} `{FL : FsLaws F} `{CL : CharLaws C}.
Context `{IT : !KvTable ikey T} `{DT : !KvTable (list Z) D} `{HH : Heap H}.
Abbreviation St := (vfs_state F C T D H).
Implicit Types (s : St) (w : world F) (m : gmap ikey Z) (B : gset Z) (Cr E : list Z).
Abbreviation inodes s := (w_inodes (v_world s)).
Ltac lite := unfold spare, light in *; simpl in *; lia.

(** a file system has come up: super block [sb] with root inode [i] is new *)
Definition sb_new w sb b i w' : Prop :=
  fs_ok w' /\ w_sbs w !! sb = None /\ (forall p j, w_inodes w !! p = Some j -> i_sb j <> sb) /\
  (fs_exact -> forall sb' d k, sb' <> sb -> fs_entry (w_fs w') sb' d k = fs_entry (w_fs w) sb' d k) /\
  w_sbs w' = <[sb := b]> (w_sbs w) /\ w_inodes w !! sb_root b = None /\ w_inodes w' = <[sb_root b := i]> (w_inodes w) /\
  i_refcount i = 1 /\ i_sb i = sb.

Lemma vinv_super B Cr E m s sb b i w : vinv B Cr E m s -> sb_new (v_world s) sb b i w -> vinv B Cr E m (with_world w s).
Proof.
  intros I (Ok & Hsb & _ & _ & Es & Hi0 & Ei & Hc & _). destruct I as [? ? R K ? ? ? ? ? ? ? ? ? (? & ? & Mo) ?].
  split; simpl; try done.
  - rewrite Ei. apply (counted_new i_refcount _ _ _ i R Hi0) in Hc. eapply counted_proper; [|reflexivity|exact Hc].
    unfold refs, roots. simpl. rewrite Es, map_to_list_insert by done. rewrite !fmap_cons. cbn [snd]. solve_Permutation.
  - intros q n p Hm. destruct (K q n p Hm) as (j & Hj & ?). exists j. rewrite Ei, lookup_insert_ne; [done|]. congruence.
  - do 2 (split; [done|]). intros x Hx. simpl. rewrite Es. destruct (decide (m_sb x = sb)) as [->|Hne].
    + rewrite lookup_insert_eq. by eexists.
    + rewrite lookup_insert_ne by done. by apply Mo.
Qed.

Lemma TI_super B Cr E m s sb b i w : vinv B Cr E m s -> TI m (v_world s) -> sb_new (v_world s) sb b i w -> TI m w.
Proof.
  intros I HT (Ok & Hsb & Hold & He & Es & Hi0 & Ei & Hc & Hisb).
  assert (forall p, attached m (v_world s) p -> p <> sb_root b /\ exists j, inodes s !! p = Some j) as Hlive.
  { intros p Ha. destruct (attached_live _ _ _ _ _ p I Ha) as (j & Hj & _). split; [congruence|by exists j]. }
  assert (forall p, attached m w p -> p = sb_root b \/ attached m (v_world s) p) as Ha.
  { intros p [[(sb' & b' & Hb' & Ep)|Hc']|Hc']; [|right; left; by right|right; by right]. rewrite Es in Hb'.
    apply lookup_insert_Some in Hb' as [[<- <-]|[_ Hb']]; [by left|right; left; left; by exists sb', b']. }
  assert (forall p, is_root (v_world s) p -> is_root w p) as Hr.
  { intros p (sb' & b' & Hb' & Ep). exists sb', b'. split; [|done]. rewrite Es, lookup_insert_ne; [done|]. congruence. }
  assert (forall p j, attached m (v_world s) p -> w_inodes w !! p = Some j -> inodes s !! p = Some j) as Hsame.
  { intros p j Hp Hj. rewrite Ei, lookup_insert_ne in Hj; [done|]. intros Eq. by apply (proj1 (Hlive p Hp)). }
  assert (forall p, in_tree m (v_world s) p -> in_tree m w p) as Hin by (intros p [?|?]; [left; auto|by right]).
  destruct HT as [T1 T2 TT T3 T4 T5]. split.
  - intros q n p qi pi Hm Hn Hq Hp. pose proof (T2 _ _ _ Hm Hn) as Haq. apply Hsame in Hq; [|done].
    apply Hsame in Hp; [|by eapply attached_cached]. destruct (T1 _ _ _ _ _ Hm Hn Hq Hp) as [E1 E2]. split; [done|].
    intros Hx. rewrite (He Hx) by (by eapply Hold). by apply E2.
  - intros q n p Hm Hn. destruct (T2 _ _ _ Hm Hn) as [?|?]; [left; auto|by right].
  - intros Hx q n p Hm Hn. apply Hin. by eapply TT.
  - intros q n p Hm Hn. destruct (T3 _ _ _ Hm Hn) as [? ?]. split; [done|auto].
  - intros Hx p1 p2 i1 i2 H1 H2 I1 I2 E1 E2.
    assert (forall p j, attached m w p -> w_inodes w !! p = Some j -> i_sb j = sb -> p = sb_root b) as Hnew.
    { intros p j Hp Hj Ej. destruct (Ha p Hp) as [|Hp']; [done|]. apply Hsame in Hj; [|done]. by apply Hold in Hj. }
    destruct (decide (i_sb i1 = sb)) as [Eb|Eb].
    + rewrite (Hnew p1 i1) by done. symmetry. eapply Hnew; [done|done|congruence].
    + assert (forall p j, attached m w p -> w_inodes w !! p = Some j -> i_sb j <> sb -> attached m (v_world s) p) as Hao.
      { intros p j Hp Hj Ej. destruct (Ha p Hp) as [->|]; [|done]. rewrite Ei, lookup_insert_eq in Hj. simplify_eq. }
      assert (attached m (v_world s) p1) by (by eapply Hao). assert (attached m (v_world s) p2) by (eapply Hao; [done|done|congruence]).
      eapply (T4 Hx); [done|done|by apply Hsame|by apply Hsame|done|done].
  - intros sb' b' j Hb' Hj. rewrite Es in Hb'. apply lookup_insert_Some in Hb' as [[<- <-]|[Hne Hb']].
    + rewrite Ei, lookup_insert_eq in Hj. by simplify_eq.
    + apply Hsame in Hj; [by eapply T5|]. by eapply attached_root.
Qed.

(** a mounted root enters the cache under a name that no walk uses *)
Lemma slash_not_norm : ~ name_norm [slash].
Proof. intros (_ & Hs & _). apply Hs. by left. Qed.
Lemma TI_mount m w q p : TI m w -> is_root w p -> m !! (q, [slash]) = None -> TI (<[(q, [slash]) := p]> m) w.
Proof.
  intros [T1 T2 TT T3 T4 T5] Hr Hnew.
  assert (forall q' n x, <[(q, [slash]) := p]> m !! (q', n) = Some x -> name_norm n -> m !! (q', n) = Some x) as Hm.
  { intros q' n x Hx Hn. rewrite lookup_insert_ne in Hx; [done|]. intros [= <- <-]. by apply slash_not_norm. }
  assert (forall q' n x, m !! (q', n) = Some x -> name_norm n -> <[(q, [slash]) := p]> m !! (q', n) = Some x) as Hm'.
  { intros q' n x Hx Hn. rewrite lookup_insert_ne; [done|]. intros [= <- <-]. by apply slash_not_norm. }
  assert (forall x, in_tree (<[(q, [slash]) := p]> m) w x <-> in_tree m w x) as Hin.
  { intros x. split; (intros [?|(q' & n & Hx & Hn)]; [by left|right; exists q', n]); auto. }
  assert (forall x, attached (<[(q, [slash]) := p]> m) w x <-> attached m w x) as Ha.
  { intros x. unfold attached. rewrite Hin. split; (intros [?|(Hs & n & q' & Hx & Hn)]; [by left|right; split; [done|]; exists n, q']); auto. }
  split; [..|done].
  - intros q' n x qi pi Hx Hn. apply T1; [by apply Hm|done].
  - intros q' n x Hx Hn. apply Ha. eapply T2; [by apply Hm|done].
  - intros Hx0 q' n x Hx Hn. apply Hin. eapply TT; [done|by apply Hm|done].
  - intros q' n x Hx Hn. apply lookup_insert_Some in Hx as [[[= <- <-] <-]|[_ Hx]]; [done|by eapply T3].
  - intros Hx p1 p2 i1 i2 H1%Ha H2%Ha. by apply T4.
Qed.
(** while the call runs: the new super block, and nothing else, is added *)
Definition during s sb b s' : Prop :=
  frame s s' /\ w_sbs (v_world s') = <[sb := b]> (w_sbs (v_world s)) /\
  (fs_exact -> forall sb' d k, sb' <> sb -> fs_entry (w_fs (v_world s')) sb' d k = fs_entry (w_fs (v_world s)) sb' d k).
(** when it has failed: nothing is added *)
Definition restored s s' : Prop :=
  frame s s' /\ w_sbs (v_world s') = w_sbs (v_world s) /\
  (fs_exact -> forall sb d k, is_Some (w_sbs (v_world s) !! sb) -> fs_entry (w_fs (v_world s')) sb d k = fs_entry (w_fs (v_world s)) sb d k).

Lemma during_vstep s sb b s1 s2 : during s sb b s1 -> vstep s1 s2 -> during s sb b s2.
Proof.
  intros (Hf & Es & He) [Hf' (_ & Es' & Ht' & _)]. split; [by eapply frame_trans|]. split; [congruence|].
  intros Hx sb' d k Hne. rewrite (Ht' Hx _ _ _). by apply He.
Qed.
Lemma restored_vstep s s1 s2 : restored s s1 -> vstep s1 s2 -> restored s s2.
Proof.
  intros (Hf & Es & He) [Hf' (_ & Es' & Ht' & _)]. split; [by eapply frame_trans|]. split; [congruence|].
  intros Hx sb' d k Hne. rewrite (Ht' Hx _ _ _). by apply He.
Qed.
Lemma uncached_vstep B Cr E m s s' sb : uncached m (v_world s) sb -> vstep s s' -> vinv B Cr E m s' -> uncached m (v_world s') sb.
Proof.
  intros Hu V I k p Hk. rewrite (sb_at_counts _ _ _ (proj2 V)); [by eapply Hu|]. by eapply pending_live.
Qed.

Lemma wp_undo {A} B Cr E m s sb b s1 (k : unit -> M St A) Q : during s sb b s1 -> w_sbs (v_world s) !! sb = None ->
  vinv B Cr E m s1 -> TI m (v_world s1) -> light Cr E -> below 5 (v_held s1) -> (sb ∉ m_sb <$> mounts s) ->
  uncached m (v_world s1) sb ->
  (forall s', restored s s' -> vinv B Cr E m s' -> TI m (v_world s') -> wp (k tt) Q s') ->
  wp (mbind' (kill_sb sb) k) Q s1.
Proof.
  intros (Hf & Es & He) Hsb I HT Hl Hb Hmo Hu W. eapply wp_kill_sb; [exact I|done|done|done|by rewrite Es, lookup_insert_eq| |done|].
  { by destruct Hf as (h & w & t & ->). }
  intros s2 (Hf2 & Es2 & He2 & _) I2 HT2. apply W; [|done|done]. split; [by eapply frame_trans|].
  split; [by rewrite Es2, Es, delete_insert_id|]. intros Hx sb' d k' [b' Hb']. assert (sb' <> sb) by congruence.
  by rewrite (He2 Hx), (He Hx).
Qed.

(** the root is in the cache: take it out and give the super block back *)
Lemma wp_abort {A} B Cr E m s sb b s1 P ri (k : unit -> M St A) Q : during s sb b s1 -> w_sbs (v_world s) !! sb = None ->
  m !! (P, [slash]) = None -> inodes s1 !! sb_root b = Some ri -> i_parent ri = P -> i_name ri = [slash] ->
  vinv B Cr E (<[(P, [slash]) := sb_root b]> m) s1 -> (forall s', vstep s1 s' -> TI m (v_world s')) -> spare Cr E -> v_held s1 = [] ->
  (sb ∉ m_sb <$> mounts s) -> (forall k p, m !! k = Some p -> sb_at (v_world s1) p <> Some sb) ->
  (forall s', restored s s' -> vinv B Cr E m s' -> TI m (v_world s') -> wp (k tt) Q s') ->
  wp (inode_cache_remove (sb_root b) ;;; mbind' (kill_sb sb) k) Q s1.
Proof.
  intros Hd Hsb Hnew Hri EP En I HT Hl Hh Hmo Hu W.
  eapply wp_remove; [exact I|lite|rewrite Hh; constructor|exact Hri|rewrite EP, En; apply lookup_insert_eq|].
  intros s2 V2 I2. rewrite EP, En, delete_insert_id in I2 by done.
  eapply wp_undo; [by eapply during_vstep|done|exact I2|by apply HT|lite|rewrite (vstep_held _ _ V2), Hh; constructor|done| |done].
  by eapply uncached_vstep.
Qed.
(** ** The whole call *)
Definition mount_post B Cr E m s target (r : Z) s' : Prop :=
  v_held s' = [] /\ v_files s' = v_files s /\ v_tasks s' = v_tasks s /\ v_cur s' = v_cur s /\
  ((r = -1 /\ v_root s' = v_root s /\ vinv B Cr E m s' /\ TI m (v_world s') /\ w_sbs (v_world s') = w_sbs (v_world s) /\
    (fs_exact -> forall sb d k, is_Some (w_sbs (v_world s) !! sb) -> fs_entry (w_fs (v_world s')) sb d k = fs_entry (w_fs (v_world s)) sb d k)) \/
   (r = 0 /\ exists sb b P mnt, w_sbs (v_world s) !! sb = None /\ w_sbs (v_world s') = <[sb := b]> (w_sbs (v_world s)) /\
      (fs_exact -> forall sb' d k, sb' <> sb -> fs_entry (w_fs (v_world s')) sb' d k = fs_entry (w_fs (v_world s)) sb' d k) /\
      m !! (P, [slash]) = None /\
      vinv B Cr E (<[(P, [slash]) := sb_root b]> m) s' /\ TI (<[(P, [slash]) := sb_root b]> m) (v_world s') /\
      minfos (v_root s') ≡ₚ (mnt, target, sb) :: minfos (v_root s) /\
      walk_start s' target = Some (sb_root b, []))).

Lemma mount_fail B Cr E m s target s' : restored s s' -> vinv B Cr E m s' -> TI m (v_world s') -> v_held s = [] ->
  mount_post B Cr E m s target (-1) s'.
Proof.
  intros (Hf & Es & He) I HT Hh. pose proof Hf as (h & w & t & E1).
  split; [by rewrite (frame_held _ _ Hf)|]. do 3 (split; [by subst s'|]). left. split; [done|]. split; [by subst s'|]. done.
Qed.

(** the parent's side: where the new mount will hang *)
Definition hangs s target (parent : option (mount * Z)) : Prop :=
  match parent with
  | None => target = [slash]
  | Some (x, q) => target <> [slash] /\ par q = [q] /\ q <> 0 /\ exists t, v_root s = Some t /\ x = find_mount t target
  end.
Definition pkey (parent : option (mount * Z)) : Z := match parent with None => VFS_ROOT_PARENT_SPECIAL | Some (_, q) => q end.
Definition pref (parent : option (mount * Z)) : list Z := match parent with None => [] | Some (_, q) => [q] end.

Lemma match_self path : mount_path_match path path = true.
Proof. unfold mount_path_match. rewrite take_ge, drop_ge by lia. by rewrite bool_decide_eq_true_2. Qed.

(** the tree with the new node *)
Lemma mount_tree B Cr E m s target parent sb b mnt : vinv B Cr E m s -> hangs s target parent ->
  match parent with None => v_root s = None | Some _ => True end ->
  w_sbs (v_world s) !! sb = Some b ->
  let r := match parent with
           | None => Some (Mount mnt target sb [])
           | Some (x, _) => mount_add (m_ptr x) (Mount mnt target sb []) <$> v_root s
           end in
  minfos r ≡ₚ (mnt, target, sb) :: minfos (v_root s) /\ (forall t, r = Some t -> m_path t = [slash]) /\
  walk_start (with_root r s) target = Some (sb_root b, []).
Proof.
  intros I Hh Hno Hb. assert (components [] = []) as Hc by done.
  destruct parent as [[x q]|]; simpl.
  - destruct Hh as (_ & _ & _ & t & Er & ->). rewrite Er. simpl.
    pose proof (vi_mounts _ _ _ _ _ I) as (Hnd & _). rewrite mounts_ptr, Er in Hnd. change (NoDup (ptrs t)) in Hnd.
    split; [|split].
    + rewrite mount_add_infos by (done || apply find_mount_ptr). by rewrite infos_eq.
    + intros t' [= <-]. rewrite mount_add_top. by apply (vi_top _ _ _ _ _ I).
    + unfold walk_start. simpl. rewrite find_mount_add by (done || apply match_self). simpl. rewrite Hb.
      unfold names_below. by rewrite drop_ge by lia.
  - simpl in Hh. subst target. rewrite Hno. split; [by rewrite infos_eq|]. split; [by intros t [= <-]|].
    unfold walk_start. simpl. by rewrite Hb.
Qed.
(** the part after the parent is known *)
Definition mount_link (target : list Z) (sb root : Z) (parent : option (mount * Z)) : M St Z :=
  let* ri := ino root in
  set_ino root (set_key (match parent with None => VFS_ROOT_PARENT_SPECIAL | Some (_, q) => q end) [slash] ri) ;;;
  let* ret := inode_cache_insert root in
  if ret <? 0 then
    (match parent with None => mret tt | Some (_, q) => inode_put q end) ;;; kill_sb sb ;;; mret (-1)
  else
    let* mnt := slab_alloc SIZEOF_MOUNT in
    if mnt =? 0 then inode_cache_remove root ;;; kill_sb sb ;;; mret (-1)
    else if VFS_MAX_PATH_LEN <=? strlen target then fault
    else
      acquire LMount ;;;
      let* mt := gets v_root in
      match parent with
      | None =>
        match mt with
        | Some _ =>
          release LMount ;;; inode_cache_remove root ;;; kill_sb sb ;;; slab_free mnt ;;; mret (-1)
        | None =>
          modify (with_root (Some (Mount mnt target sb []))) ;;; release LMount ;;; mret 0
        end
      | Some (m, _) =>
        modify (with_root (mount_add (m_ptr m) (Mount mnt target sb []) <$> mt)) ;;;
        release LMount ;;; mret 0
      end.

(** the node is linked in *)
Lemma mount_done B Cr E m s target sb b parent s1 mnt : during s sb b s1 -> w_sbs (v_world s) !! sb = None -> v_held s = [] ->
  hangs s target parent -> match parent with None => v_root s = None | Some _ => True end -> m !! (pkey parent, [slash]) = None ->
  vinv ({[mnt]} ∪ B) Cr E (<[(pkey parent, [slash]) := sb_root b]> m) s1 -> mnt ∉ B ->
  TI (<[(pkey parent, [slash]) := sb_root b]> m) (v_world s1) -> (sb ∉ m_sb <$> mounts s) ->
  mount_post B Cr E m s target 0 (with_root (match parent with
           | None => Some (Mount mnt target sb [])
           | Some (x, _) => mount_add (m_ptr x) (Mount mnt target sb []) <$> v_root s1
           end) s1).
Proof.
  intros (Hf & Es & He) Hsb Hh Hhg Hno Hnew I HB HT Hmo. pose proof Hf as (h & w & tb & E1).
  assert (v_root s1 = v_root s) as Er by (by subst s1).
  assert (hangs s1 target parent) as Hhg1 by (unfold hangs; by rewrite Er).
  destruct (mount_tree _ _ _ _ s1 target parent sb b mnt I Hhg1) as (Hm & Htop & Hws); [by rewrite Er|by rewrite Es, lookup_insert_eq|].
  split; [simpl; by rewrite (frame_held _ _ Hf)|]. do 3 (split; [by subst s1|]). right. split; [done|].
  exists sb, b, (pkey parent), mnt. do 4 (split; [done|]). split.
  { eapply vinv_mount; [exact I|done|exact Hm|rewrite Es, lookup_insert_eq; by eexists| |exact Htop]. by subst s1. }
  split; [done|]. split; [simpl; by rewrite <- Er|done].
Qed.

Lemma mount_link_ok B Cr E m s target sb b parent s2 ri : during s sb b s2 -> w_sbs (v_world s) !! sb = None -> v_held s = [] ->
  vinv B (pref parent ++ Cr) E m s2 -> TI m (v_world s2) -> spare Cr E -> uncached m (v_world s2) sb ->
  (sb ∉ m_sb <$> mounts s) -> inodes s2 !! sb_root b = Some ri -> i_sb ri = sb -> hangs s target parent ->
  strlen target < VFS_MAX_PATH_LEN ->
  wp (mount_link target sb (sb_root b) parent) (mount_post B Cr E m s target) s2.
Proof.
  intros Hd Hsb Hh I HT Hl Hu Hmo Hri Eri Hhg Hlen. unfold mount_link. fold (pkey parent). eapply wp_ino; [exact Hri|].
  set (rj := set_key (pkey parent) [slash] ri). unfold set_ino. apply wp_modify.
  change (mkW _ _ _) with (put_inode (sb_root b) rj (v_world s2)). set (s3 := with_world _ s2).
  assert (sb_at (v_world s2) (sb_root b) = Some sb) as Hsbr by (unfold sb_at; by rewrite Hri, <- Eri).
  assert (vinv B (pref parent ++ Cr) E m s3) as I3.
  { eapply vinv_edit; [exact I|exact Hri|done|done|]. intros k Hk. by apply (Hu _ _ Hk). }
  assert (TI m (v_world s3)) as HT3.
  { eapply TI_same; [exact HT|done|done|]. intros p j _. simpl. intros [[<- <-]|[_ Hj]]%lookup_insert_Some; [by exists ri|by exists j]. }
  assert (uncached m (v_world s3) sb) as Hu3.
  { intros k p Hk. unfold sb_at. simpl. rewrite lookup_insert_ne; [by eapply Hu|]. intros <-. by apply (Hu _ _ Hk). }
  assert (during s sb b s3) as Hd3 by (destruct Hd as (Hf & ? & ?); split; [by eapply frame_trans, frame_world|done]).
  assert (par (pkey parent) = pref parent /\ pkey parent <> 0) as [Ep Hk0] by (destruct parent as [[x q]|]; simpl; [by destruct Hhg as (_ & ? & ? & _)|done]).
  assert (v_held s3 = []) as Hh3 by (by rewrite (frame_held _ _ (proj1 Hd3))).
  assert (is_root (v_world s3) (sb_root b)) as Hroot by (exists sb, b; by rewrite (proj1 (proj2 Hd3)), lookup_insert_eq).
  change (pkey parent) with (i_parent rj) in Ep, Hk0.
  assert (light (sb_root b :: pref parent ++ Cr) E) as Hl3.
  { assert (length (pref parent) <= 1)%nat by (destruct parent as [[? ?]|]; simpl; lia). unfold light, spare in *. simpl. rewrite length_app. lia. }
  eapply (wp_insert_ref B Cr E m s3 (sb_root b) rj); rewrite ?Ep; try done.
  - rewrite Hh3. constructor.
  - eapply attached_ref. left. by left.
  - simpl. apply lookup_insert_eq.
  - intros s4 V4 I4. change (-1 <? 0) with true. cbn iota.
    assert (forall s5 : St, vstep s3 s5 -> vinv B Cr E m s5 ->
      wp (kill_sb sb ;;; mret (-1)) (mount_post B Cr E m s target) s5) as Hend.
    { intros s5 V5 I5. eapply (wp_undo B Cr E m s sb b s5); [by eapply during_vstep|done|done|exact (TI_vstep m s3 s5 HT3 V5)|lite|
        rewrite (vstep_held _ _ V5), Hh3; constructor|done|by eapply uncached_vstep|].
      intros s6 Hr6 I6 HT6. apply wp_ret. by apply mount_fail. }
    destruct parent as [[x q]|]; simpl in I4.
    + eapply wp_put; [exact I4|lite|rewrite (vstep_held _ _ V4), Hh3; constructor|]. intros s5 V5 I5.
      apply Hend; [by eapply vstep_trans|done].
    + apply wp_bind, wp_ret. by apply Hend.
  - intros s4 V4 Hnew I4. change (0 <? 0) with false. cbn iota. change (i_parent rj, i_name rj) with (pkey parent, [slash]) in *.
    set (m1 := <[(pkey parent, [slash]) := sb_root b]> m) in *.
    assert (forall s' : St, vstep s3 s' -> TI m (v_world s')) as HTv by (intros s' V; exact (TI_vstep m s3 s' HT3 V)).
    assert (forall s' : St, vstep s3 s' -> TI m1 (v_world s')) as HTv1.
    { intros s' V. refine (TI_vstep m1 s3 s' _ V). by apply TI_mount. }
    (* the state before an abort *)
    assert (forall B' s5 (k : unit -> M St Z) Q, vstep s3 s5 -> vinv B' Cr E m1 s5 ->
      (forall s', restored s s' -> vinv B' Cr E m s' -> TI m (v_world s') -> wp (k tt) Q s') ->
      wp (inode_cache_remove (sb_root b) ;;; mbind' (kill_sb sb) k) Q s5) as Habort.
    { intros B' s5 k Q V5 I5 W. destruct (vi_keys _ _ _ _ _ I5 (pkey parent) [slash] (sb_root b)) as (rk & Hrk & E1 & E2); [apply lookup_insert_eq|].
      eapply (wp_abort B' Cr E m s sb b s5 (pkey parent) rk); try done.
      - by eapply during_vstep.
      - intros s' V'. apply HTv. by eapply vstep_trans.
      - by rewrite (vstep_held _ _ V5).
      - intros k' p Hk. rewrite (sb_at_counts _ _ _ (proj2 V5)); [by eapply Hu3|]. eapply (pending_live B' Cr E m1); [exact I5|].
        unfold m1. rewrite lookup_insert_ne; [exact Hk|]. congruence. }
    eapply wp_valloc; [exact I4|unfold SIZEOF_MOUNT; lia| |].
    + intros s5 V5 I5. change (0 =? 0) with true. cbn iota. eapply (Habort B s5); [by eapply vstep_trans|exact I5|].
      intros s6 Hr6 I6 HT6. apply wp_ret. by apply mount_fail.
    + intros mnt s5 V5 Hm0 HmB I5. rewrite (proj2 (Z.eqb_neq mnt 0)), (proj2 (Z.leb_gt _ _)) by done. pose proof (vstep_trans _ _ _ V4 V5) as V35.
      pose proof (during_vstep _ _ _ _ _ Hd3 V35) as Hd5. pose proof (vstep_held _ _ V35) as Hh5. rewrite Hh3 in Hh5.
      apply wp_acquire; [rewrite Hh5; constructor|]. rewrite Hh5. apply wp_gets. simpl.
      assert (v_root s5 = v_root s) as Er5 by (destruct Hd5 as ((h & w & tb & ->) & _); done).
      pose proof (HTv1 s5 V35) as HT5.
      destruct parent as [[x q]|].
      * apply wp_modify. apply (wp_release LMount []); [done|by apply not_elem_of_nil|]. apply wp_ret.
        pose proof (mount_done B Cr E m s target sb b (Some (x, q)) s5 mnt Hd5 Hsb Hh Hhg Logic.I Hnew I5 HmB HT5 Hmo) as HD.
        replace (with_held [] _) with (with_root (mount_add (m_ptr x) (Mount mnt target sb []) <$> v_root s5) s5); [done|].
        destruct s5. simpl in *. by subst.
      * destruct (v_root s5) as [t|] eqn:Et.
        { apply (wp_release LMount []); [done|by apply not_elem_of_nil|].
          replace (with_held [] _) with s5 by (destruct s5; simpl in *; by subst).
          eapply (Habort ({[mnt]} ∪ B) s5); [done|exact I5|]. intros s6 Hr6 I6 HT6.
          eapply wp_vfree; [exact I6|done|]. intros s7 V7 I7. apply wp_ret.
          apply mount_fail; [by eapply restored_vstep|done|by eapply TI_vstep|done]. }
        apply wp_modify. apply (wp_release LMount []); [done|by apply not_elem_of_nil|]. apply wp_ret.
        pose proof (mount_done B Cr E m s target sb b None s5 mnt Hd5 Hsb Hh Hhg ltac:(done) Hnew I5 HmB HT5 Hmo) as HD.
        replace (with_held [] _) with (with_root (Some (Mount mnt target sb [])) s5); [done|].
        destruct s5. simpl in *. by subst.
Qed.
(** where a target other than "/" hangs *)
Lemma mount_point_ok B Cr E m s target s1 sb b : vinv B Cr E m s -> during s sb b s1 -> vinv B Cr E m s1 ->
  (sb ∉ m_sb <$> mounts s) -> target <> [slash] ->
  wp (mount_point target) (fun r s' => s' = s1 /\
    match r with None => True | Some (x, q) => hangs s target (Some (x, q)) /\ q ∈ refs m s1 ++ Cr end) s1.
Proof.
  intros I (Hf & Es & _) I1 Hmo Ht. unfold mount_point, vfs_find_mount. apply wp_bind.
  destruct (negb _); [by do 2 apply wp_ret|]. apply wp_gets, wp_ret.
  assert (v_root s1 = v_root s) as Er by (by destruct Hf as (h & w & tb & ->)). rewrite Er.
  destruct (v_root s) as [t|] eqn:Et; simpl; [|by apply wp_ret]. destruct (m_sb _ =? 0); [by apply wp_ret|].
  pose proof (vi_mounts _ _ _ _ _ I) as (_ & _ & Hsb). unfold mounts in Hsb. rewrite Et in Hsb.
  destruct (Hsb (find_mount t target)) as [b' Hb']; [apply find_mount_in|].
  assert (w_sbs (v_world s1) !! m_sb (find_mount t target) = Some b') as Hb1.
  { rewrite Es, lookup_insert_ne; [done|]. intros Eq. apply Hmo. apply list_elem_of_fmap. exists (find_mount t target).
    split; [done|]. unfold mounts. rewrite Et. apply find_mount_in. }
  unfold sblk. apply wp_bind, wp_gets. rewrite Hb1. apply wp_ret. destruct (sb_root b' =? 0) eqn:E0; breflect; [by apply wp_ret|].
  apply wp_ret. split; [done|].
  assert (sb_root b' ∈ refs m s1 ++ Cr) as Hin by (by eapply attached_ref, attached_root).
  split; [|done]. split; [done|]. destruct (ref_live _ _ _ _ _ _ I1 Hin) as (i & Hi & _).
  split; [by eapply par_real|]. split; [done|]. exists t. by rewrite Et.
Qed.

Lemma vfs_mount_ok B Cr E m s dev target fs_type : vinv B Cr E m s -> TI m (v_world s) -> spare Cr E -> v_held s = [] ->
  strlen target < VFS_MAX_PATH_LEN ->
  wp (vfs_mount dev target fs_type) (mount_post B Cr E m s target) s.
Proof.
  intros I HT Hl Hh Hlen. unfold vfs_mount, vfs_get_filesystem. apply wp_bind.
  apply wp_acquire; [rewrite Hh; constructor|]. apply wp_gets. apply (wp_release LRegistry []); [simpl; by rewrite Hh|by apply not_elem_of_nil|].
  replace (with_held [] _) with s by (destruct s; simpl in *; by subst). apply wp_ret.
  assert (mount_post B Cr E m s target (-1) s) as Hno by (apply mount_fail; [split; [apply frame_refl|done]|done..]).
  destruct (find _ _) as [fs|]; [|by apply wp_ret]. apply wp_bind. unfold in_world. apply wp_zoom.
  eapply wp_conseq; [apply fs_get_super_ok, I|]. intros [rc sb] w (Ok & Hres). cbn [fst snd] in *.
  assert ((rc <? 0) || (sb =? 0) = true -> keeps (v_world s) w -> same_tree (v_world s) w ->
    mount_post B Cr E m s target (-1) (with_world w s)) as Hkeep.
  { intros _ Hk Hs. apply mount_fail; [split; [apply frame_world|split; [apply (Hk 0)|intros Hx ? ? ? _; by apply Hs]]|by apply vinv_keeps| |done].
    eapply (TI_lstep m s (with_world w s) HT). by apply lstep_keeps. }
  destruct (rc <? 0) eqn:Erc; simpl in *; [destruct Hres; apply wp_ret; by apply Hkeep|].
  destruct (sb =? 0) eqn:Esb; [destruct Hres; apply wp_ret; by apply Hkeep|].
  destruct Hres as (Hsb & Hold & He & b & i & Es & Hi0 & Ei & Hc & Hisb).
  assert (sb_new (v_world s) sb b i w) as Hnew by done. set (s1 := with_world w s).
  pose proof (vinv_super _ _ _ _ _ _ _ _ _ I Hnew) as I1. pose proof (TI_super _ _ _ _ _ _ _ _ _ I HT Hnew) as HT1.
  assert (during s sb b s1) as Hd by (split; [apply frame_world|done]).
  assert (sb ∉ m_sb <$> mounts s) as Hmo.
  { intros (x & -> & Hx)%list_elem_of_fmap. destruct (vi_mounts _ _ _ _ _ I) as (_ & _ & Hl'). destruct (Hl' x Hx) as [? ?]. congruence. }
  assert (uncached m w sb) as Hu.
  { intros k p Hk. destruct (pending_live _ _ _ _ _ _ _ I Hk) as [j Hj]. unfold sb_at. rewrite Ei, lookup_insert_ne by congruence.
    rewrite Hj. simpl. intros [= Ej]. by apply (Hold _ _ Hj). }
  unfold sblk. apply wp_bind, wp_gets. simpl. rewrite Es, lookup_insert_eq. apply wp_ret.
  assert (w_inodes w !! sb_root b = Some i) as Hri by (rewrite Ei; apply lookup_insert_eq).
  destruct (sb_root b =? 0) eqn:E0; breflect.
  { rewrite E0 in Hri. by rewrite (proj1 (fs_ok_null _ Ok)) in Hri. }
  apply wp_bind. case_bool_decide as Htg.
  - apply wp_ret. eapply (mount_link_ok B Cr E m s target sb b None s1 i); try done.
  - apply wp_bind. eapply wp_conseq; [by apply (mount_point_ok B Cr E m s target s1 sb b)|].
    intros r s1' [-> Hr]. destruct r as [[x q]|].
    + destruct Hr as [Hhg Hq]. eapply wp_get; [exact I1|lite|exact Hq|simpl; rewrite Hh; constructor|]. intros s2 V2 I2. apply wp_ret.
      destruct (attached_live _ _ _ _ _ (sb_root b) I2) as (ri & Hri2 & _).
      { apply (attached_root _ _ sb). rewrite (proj1 (proj2 (proj2 V2))). simpl. by rewrite Es, lookup_insert_eq. }
      eapply (mount_link_ok B Cr E m s target sb b (Some (x, q)) s2 ri); try done.
      * by eapply during_vstep.
      * exact (TI_vstep m s1 s2 HT1 V2).
      * by eapply (uncached_vstep _ _ _ m s1 s2).
      * destruct V2 as (_ & _ & _ & _ & Hv). destruct (Hv _ _ Hri2) as (i' & Hi' & ->). simpl in Hi'. by simplify_eq.
    + apply wp_ret. eapply (wp_undo B Cr E m s sb b s1); try done; [lite|simpl; rewrite Hh; constructor|].
      intros s2 Hr2 I2 HT2. apply wp_ret. by apply mount_fail.
Qed.
End Attach.
