(* ===== verification/VfsTable.v ===== *)
(** The hash table of utils/hashmap.c as the inode cache and as the table of
    character devices: the instances of [KvTable] that vfs.c and char_dev.c
    create, with their hash and comparison functions.

    A key is passed as a pointer to memory that holds it as long as the entry
    lives; [ptr_of] represents such a pointer by the key it points to.  The
    nodes of a table are slab objects; they are counted in a heap of the
    table's own. *)
From stdpp Require Import base gmap list strings.
From Stdlib Require Import ZArith Lia.
From S2P Require Import Prelude Bytes HashMap HashMapSpec BlockDev VfsPath Vfs.
Open Scope Z_scope.

(** ** Pointers to keys *)
Section Ptr.
Context {K : Type} `{Countable K}.
Definition ptr_of (k : K) : Z := Z.pos (encode k).
Definition key_at (p : Z) : option K := match p with Z.pos q => decode q | _ => None end.
Lemma key_at_ptr k : key_at (ptr_of k) = Some k.
Proof. unfold key_at, ptr_of. apply decode_encode. Qed.
Lemma ptr_of_nonnull k : ptr_of k <> 0.
Proof. done. Qed.
End Ptr.

Lemma cons_eq_inv {A} (x y : A) l k : x :: l = y :: k -> x = y /\ l = k.
Proof. by intros [=]. Qed.

(** ** Strings in memory *)

(** the bytes of [s] before the first NUL, [n] at most *)
Fixpoint upto (n : nat) (s : list Z) : list Z :=
  match n, s with
  | S n, c :: s => if c =? 0 then [] else c :: upto n s
  | _, _ => []
  end.
(** [strncmp(a, b, n) == 0] *)
Fixpoint strncmp_eq (n : nat) (a b : list Z) : bool :=
  match n with
  | O => true
  | S n =>
    let x := default 0 (head a) in
    let y := default 0 (head b) in
    if negb (x =? y) then false else if x =? 0 then true else strncmp_eq n (tail a) (tail b)
  end.

Lemma upto_head n s : upto (S n) s = if default 0 (head s) =? 0 then [] else default 0 (head s) :: upto n (tail s).
Proof. by destruct s as [|c s]. Qed.
Lemma strncmp_upto n a b : strncmp_eq n a b = true <-> upto n a = upto n b.
Proof.
  revert a b. induction n as [|n IH]; intros a b; [done|]. rewrite !upto_head. cbn [strncmp_eq].
  destruct (default 0 (head a) =? default 0 (head b)) eqn:E; breflect; simpl.
  - rewrite <- E. destruct (_ =? 0); [done|]. rewrite IH. split; [congruence|by intros [=]].
  - split; [done|]. destruct (default 0 (head a) =? 0) eqn:Ea, (default 0 (head b) =? 0) eqn:Eb; breflect; [congruence|done|done|].
    intros [=]. congruence.
Qed.
Lemma upto_id n s : (0 ∉ s) -> (length s <= n)%nat -> upto n s = s.
Proof.
  revert n. induction s as [|c s IH]; intros n Hz Hl; [by destruct n|]. destruct n as [|n]; simpl in *; [lia|].
  rewrite not_elem_of_cons in Hz. rewrite (proj2 (Z.eqb_neq c 0)) by (intros ->; tauto). f_equal. apply IH; [tauto|lia].
Qed.

(** ** The keys of the inode cache *)
Definition NAME : nat := Z.to_nat VFS_MAX_PATH_LEN.
Definition ikey_at (p : Z) : ikey := default (0, []) (key_at p).

Definition inode_cache_hash (p len : Z) : Z :=
  let k := ikey_at p in
  fnv_bytes (upto NAME k.2) (fnv_bytes (le_enc 8 k.1) 2166136261).
Definition inode_cache_key_equal (p q len : Z) : bool :=
  let a := ikey_at p in
  let b := ikey_at q in
  if negb (a.1 =? b.1) then false else strncmp_eq NAME a.2 b.2.

Definition ikv (p len : Z) : list Z := len :: (ikey_at p).1 :: upto NAME (ikey_at p).2.
Lemma ikv_eq p q len : ikv p len = ikv q len <->
  (ikey_at p).1 = (ikey_at q).1 /\ upto NAME (ikey_at p).2 = upto NAME (ikey_at q).2.
Proof.
  unfold ikv. generalize (upto NAME (ikey_at p).2), (upto NAME (ikey_at q).2), (ikey_at p).1, (ikey_at q).1.
  intros l k a b. split; [|by intros [-> ->]]. intros [_ E]%cons_eq_inv. by apply cons_eq_inv in E.
Qed.
Lemma ikey_laws : key_laws inode_cache_hash inode_cache_key_equal ikv.
Proof.
  split.
  - intros p q len _ _. rewrite ikv_eq. unfold inode_cache_key_equal. destruct (_ =? _) eqn:E; breflect; cbn [negb].
    + rewrite strncmp_upto. tauto.
    + split; [done|]. intros [? _]. congruence.
  - intros p q l1 l2 _ _. unfold ikv. by intros [? _]%cons_eq_inv.
  - intros p q len. rewrite ikv_eq. unfold inode_cache_hash. by intros [-> ->].
  - intros p len. unfold inode_cache_hash. do 2 apply fnv_bytes_range. lia.
Qed.

(** ** The keys of the device table: strings, compared and hashed with their
    terminating NUL *)
Definition skey_at (p : Z) : list Z := default [] (key_at p).
Definition chars (s : list Z) (len : Z) : list Z := take (Z.to_nat len) (s ++ replicate (Z.to_nat len) 0).
Definition cdev_hash (p len : Z) : Z := fnv_bytes (chars (skey_at p) len) 2166136261.
Definition cdev_equal (p q len : Z) : bool := bool_decide (chars (skey_at p) len = chars (skey_at q) len).
Definition cdev_key_len (name : list Z) : Z := u32 (strlen name + 1).
Definition skv (p len : Z) : list Z := len :: chars (skey_at p) len.
Lemma skey_laws : key_laws cdev_hash cdev_equal skv.
Proof.
  split.
  - intros p q len _ _. unfold cdev_equal, skv. rewrite bool_decide_eq_true. split; [congruence|by intros [=]].
  - intros p q l1 l2 _ _. unfold skv. by intros [=].
  - intros p q len. unfold skv, cdev_hash. by intros [= ->].
  - intros p len. apply fnv_bytes_range. lia.
Qed.

(** ** Tables *)
Section Table.
Context {K H : Type} `{CK : Countable K} `{HH : Heap H}.
(** the content a key is stored with, its length, and the keys that fit *)
Context (kv : Z -> Z -> list Z) (klen : K -> Z) (fits : K -> Prop) `{fits_dec : !forall k, Decision (fits k)}.
Context (klen_pos : forall k, fits k -> 0 < klen k).
Context (kv_inj : forall a b, fits a -> fits b -> kv (ptr_of a) (klen a) = kv (ptr_of b) (klen b) -> a = b).

Abbreviation T := (hash_table * H)%type.
Definition ek (k : K) : list Z := kv (ptr_of k) (klen k).

Definition tb_lookup (t : T) (k : K) : Z := if decide (fits k) then hash_table_lookup t.1 (ptr_of k) (klen k) else 0.
(** an operation on the table and its heap *)
Definition on_table (c : hash_table -> M H (bool * hash_table)) : M T bool := fun t =>
  match c t.1 t.2 with
  | Ok ((r, t'), h') => Ok (r, (t', h'))
  | Halt => Halt
  | NoFuel => NoFuel
  | Fault => Fault
  end.
Definition tb_insert (k : K) (v : Z) : M T bool :=
  if decide (fits k) then on_table (fun t => hash_table_insert_if_absent t (ptr_of k) (klen k) v) else mret false.
Definition tb_delete (k : K) : M T bool :=
  if decide (fits k) then on_table (fun t => hash_table_delete t (ptr_of k) (klen k)) else mret false.
Definition tb_values (t : T) : list Z := n_value <$> nodes t.1.

Definition tb_rep (t : T) (m : gmap K Z) : Prop :=
  ht_inv kv ∅ t.2 t.1 /\
  (forall x v, abs kv t.1 !! x = Some v <-> exists k, fits k /\ x = ek k /\ m !! k = Some v) /\
  (forall k v, m !! k = Some v -> fits k).
Lemma tb_find t m k : tb_rep t m -> fits k -> abs kv t.1 !! ek k = m !! k.
Proof.
  intros (_ & R & _) Hk. destruct (m !! k) as [v|] eqn:E.
  - apply R. by exists k.
  - destruct (abs kv t.1 !! ek k) as [v|] eqn:E'; [|done].
    apply R in E' as (c & Hc & Ek & Em). apply kv_inj in Ek; [|done..]. congruence.
Qed.
Lemma tb_unfit t m k : tb_rep t m -> ~ fits k -> m !! k = None.
Proof. intros (_ & _ & Hf) Hk. destruct (m !! k) eqn:E; [|done]. by apply Hf in E. Qed.

Lemma tb_lookup_ok t m k : tb_rep t m -> tb_lookup t k = default 0 (m !! k).
Proof.
  intros R. unfold tb_lookup. case_decide as Hk; [|by rewrite (tb_unfit t m)].
  rewrite (hash_table_lookup_spec kv) by (apply R || apply ptr_of_nonnull || by apply klen_pos).
  change (kv _ _) with (ek k). by rewrite (tb_find t m).
Qed.

Lemma tb_same t m t' h' : tb_rep t m -> ht_inv kv ∅ h' t' -> abs kv t' = abs kv t.1 -> tb_rep (t', h') m.
Proof. intros (_ & R & Hf) I E. split; [done|]. simpl. by rewrite E. Qed.

Lemma tb_add t m k v t' h' : tb_rep t m -> fits k -> ht_inv kv ∅ h' t' -> abs kv t' = <[ek k := v]> (abs kv t.1) ->
  tb_rep (t', h') (<[k := v]> m).
Proof.
  intros (_ & R & Hf) Hk I E. split; [done|]. simpl. split.
  - intros x y. rewrite E, lookup_insert_Some, R. split.
    + intros [[<- <-]|[Hx (c & Hc & -> & Ev)]]; [exists k; by rewrite lookup_insert_eq|].
      exists c. rewrite lookup_insert_ne; [done|]. congruence.
    + intros (c & Hc & -> & Ev). apply lookup_insert_Some in Ev as [[<- <-]|[Hne Ev]]; [by left|right].
      split; [intros Ek; by apply kv_inj in Ek|]. by exists c.
  - intros c y [[<- _]|[_ Hc]]%lookup_insert_Some; [done|by eapply Hf].
Qed.

Lemma tb_insert_ok t m k v : tb_rep t m -> wp (tb_insert k v)
  (fun r t' => tb_rep t' (if r then <[k := v]> m else m) /\ (r = true -> m !! k = None)) t.
Proof.
  intros R. unfold tb_insert. case_decide as Hk; [|by apply wp_ret]. unfold wp, on_table.
  pose proof (insert_if_absent_spec kv ∅ t.2 t.1 (ptr_of k) (klen k) v (proj1 R) (ptr_of_nonnull k) (klen_pos k Hk)) as W.
  change (kv _ _) with (ek k) in W. rewrite (tb_find t m k R Hk) in W.
  destruct (hash_table_insert_if_absent _ _ _ _ _) as [[[r t'] h']| | |]; [|done..].
  destruct W as [I W]. destruct (m !! k) as [x|].
  - destruct W as (-> & -> & ->). split; [|done]. eapply tb_same; [exact R|apply R|done].
  - split; [|done]. destruct r; [by eapply tb_add|by eapply tb_same].
Qed.

Lemma tb_delete_ok t m k : tb_rep t m -> wp (tb_delete k)
  (fun r t' => tb_rep t' (delete k m) /\ r = bool_decide (is_Some (m !! k))) t.
Proof.
  intros R. unfold tb_delete. case_decide as Hk.
  2:{ apply wp_ret. rewrite (tb_unfit t m k R Hk), delete_id by (by eapply tb_unfit). split; [done|].
      by rewrite bool_decide_eq_false_2 by (by intros []). }
  unfold wp, on_table. pose proof (delete_spec kv ∅ t.2 t.1 (ptr_of k) (klen k) (proj1 R) (ptr_of_nonnull k) (klen_pos k Hk)) as W.
  change (kv _ _) with (ek k) in W. rewrite (tb_find t m k R Hk) in W.
  destruct (hash_table_delete _ _ _ _) as [[[r t'] h']| | |]; [|done..].
  destruct W as (I & E & ->). split; [|done]. destruct R as (_ & R & Hf). split; [done|]. simpl. split.
  - intros x y. rewrite E, lookup_delete_Some, R. split.
    + intros (Hx & c & Hc & -> & Ev). exists c. rewrite lookup_delete_ne; [done|]. congruence.
    + intros (c & Hc & -> & [Hne Ev]%lookup_delete_Some). split; [intros Ek; by apply kv_inj in Ek|by exists c].
  - intros c y [_ Hc]%lookup_delete_Some. by eapply Hf.
Qed.

Lemma tb_values_ok t m : tb_rep t m -> tb_values t ≡ₚ (map_to_list m).*2.
Proof.
  intros (I & R & Hf). assert (tb_values t ≡ₚ (map_to_list (abs kv t.1)).*2) as P.
  { unfold tb_values, abs. rewrite map_to_list_to_map; [by rewrite <- list_fmap_compose|]. rewrite nodes_keys_fst. apply I. }
  rewrite P. clear P I. revert R Hf. generalize (abs kv t.1) as A. clear t. induction m as [|k v m Hm IH] using map_ind; intros A R Hf.
  - assert (A = ∅) as ->; [|by rewrite !map_to_list_empty]. apply map_eq. intros x. rewrite lookup_empty.
    destruct (A !! x) eqn:E; [|done]. apply R in E as (b & _ & _ & Hb). by rewrite lookup_empty in Hb.
  - assert (fits k) as Hk by (apply (Hf k v); by rewrite lookup_insert_eq).
    assert (A !! ek k = Some v) as EA by (apply R; exists k; by rewrite lookup_insert_eq).
    rewrite <- (insert_delete_id A (ek k) v EA). rewrite !map_to_list_insert by (done || by rewrite lookup_delete_eq).
    rewrite !fmap_cons. f_equiv. apply IH.
    + intros x w. rewrite lookup_delete_Some, R. split.
      * intros (Hx & c & Hc & -> & Ev). exists c. rewrite lookup_insert_ne in Ev; [done|]. congruence.
      * intros (c & Hc & -> & Ev). assert (c <> k) by congruence.
        split; [intros Ek; by apply kv_inj in Ek|]. exists c. by rewrite lookup_insert_ne.
    + intros c w Hc. apply (Hf c w). rewrite lookup_insert_ne; [done|]. congruence.
Qed.

Definition hash_kv : KvTable K T := {|
  kt_lookup := tb_lookup; kt_insert := tb_insert; kt_delete := tb_delete; kt_values := tb_values; kt_rep := tb_rep;
  kt_lookup_ok := tb_lookup_ok; kt_insert_ok := tb_insert_ok; kt_delete_ok := tb_delete_ok; kt_values_ok := tb_values_ok |}.

(** a new table is empty *)
Lemma tb_create h n hf eqf : heap_inv h ∅ -> 0 <= n <= 2 ^ 31 -> key_laws hf eqf kv ->
  wp (hash_table_create ∅ n (Some hf) (Some eqf)) (fun o h' => match o with Some t => tb_rep (t, h') ∅ | None => heap_inv h' ∅ end) h.
Proof.
  intros I Hn Hk. unfold wp.
  destruct (ht_create_spec kv ∅ h ∅ n (Some hf) (Some eqf) I Hn Hk) as [(t & h' & -> & I' & A & _)|[(h' & -> & I')| ->]]; [|done|done].
  split; [done|]. simpl. rewrite A. split; [|by intros k v ?]. intros k v. rewrite lookup_empty. split; [done|].
  intros (b & _ & _ & Hb). by rewrite lookup_empty in Hb.
Qed.
End Table.

(** ** The inode cache and the device table *)
Definition ikey_fits (k : ikey) : Prop := (0 ∉ k.2) /\ strlen k.2 < VFS_MAX_PATH_LEN.
#[export] Instance ikey_fits_dec k : Decision (ikey_fits k).
Proof. unfold ikey_fits. apply _. Defined.

Lemma ikey_at_ptr (k : ikey) : ikey_at (ptr_of k) = k.
Proof. unfold ikey_at. by rewrite key_at_ptr. Qed.

Lemma ikv_inj (a b : ikey) : ikey_fits a -> ikey_fits b ->
  ikv (ptr_of a) SIZEOF_CACHE_KEY = ikv (ptr_of b) SIZEOF_CACHE_KEY -> a = b.
Proof.
  intros [Ha1 Ha2] [Hb1 Hb2]. rewrite ikv_eq, !ikey_at_ptr. unfold strlen, VFS_MAX_PATH_LEN, NAME in *.
  rewrite !upto_id by (done || unfold VFS_MAX_PATH_LEN; lia). destruct a, b. simpl. by intros [-> ->].
Qed.

Definition skey_fits (k : list Z) : Prop := (0 ∉ k) /\ strlen k + 1 < 2 ^ 32.
#[export] Instance skey_fits_dec k : Decision (skey_fits k).
Proof. unfold skey_fits. apply _. Defined.

Lemma cdev_key_len_eq k : skey_fits k -> cdev_key_len k = strlen k + 1.
Proof. intros [_ Hk]. unfold cdev_key_len. pose proof (strlen_nonneg k). by rewrite u32_small by lia. Qed.
Lemma cdev_key_len_pos k : skey_fits k -> 0 < cdev_key_len k.
Proof. intros Hk. rewrite cdev_key_len_eq by done. pose proof (strlen_nonneg k). lia. Qed.
Lemma chars_str (k : list Z) : chars k (strlen k + 1) = k ++ [0].
Proof.
  unfold chars, strlen. replace (Z.to_nat (Z.of_nat (length k) + 1)) with (length k + 1)%nat by lia.
  rewrite take_app_add, Nat.add_1_r. done.
Qed.
Lemma skv_inj (a b : list Z) : skey_fits a -> skey_fits b ->
  skv (ptr_of a) (cdev_key_len a) = skv (ptr_of b) (cdev_key_len b) -> a = b.
Proof.
  intros Ha Hb. unfold skv, skey_at. rewrite !key_at_ptr, !cdev_key_len_eq by done. cbn [default from_option]. rewrite !chars_str.
  intros [_ E]%cons_eq_inv. by apply app_inj_2 in E as [? _].
Qed.
(** the default functions of the table, on memory that holds the names *)
Lemma cdev_key_default mem p q a b len : p <> 0 -> q <> 0 ->
  ldbytes mem p (Z.to_nat len) = chars a len -> ldbytes mem q (Z.to_nat len) = chars b len ->
  default_hash_func mem p len = cdev_hash (ptr_of a) len /\
  default_key_equal mem p q len = cdev_equal (ptr_of a) (ptr_of b) len.
Proof.
  intros Hp Hq Ea Eb. unfold cdev_hash, cdev_equal, skey_at. rewrite !key_at_ptr. cbn [default from_option]. split.
  - unfold default_hash_func. by rewrite fnv_bytes_loop, Ea.
  - apply Bool.eq_true_iff_eq. rewrite bool_decide_eq_true, (kl_equal _ _ _ (default_key_laws mem) p q len Hp Hq).
    unfold key_bytes. by rewrite Ea, Eb.
Qed.

Section Instances.
Context {H : Type} `{HH : Heap H}.
#[export] Instance cdev_table : KvTable (list Z) (hash_table * H) :=
  hash_kv skv cdev_key_len skey_fits cdev_key_len_pos skv_inj.

(** [init_char_dev] *)
Definition MAX_CHAR_DEV : Z := 16.
Definition init_char_dev : M H (option hash_table) :=
  hash_table_create ∅ MAX_CHAR_DEV (Some cdev_hash) (Some cdev_equal).
Lemma char_dev_init_ok (h : H) : heap_inv h ∅ ->
  wp init_char_dev (fun o h' => match o with Some t => kt_rep (t, h') ∅ | None => heap_inv h' ∅ end) h.
Proof. intros I. apply tb_create; [done|unfold MAX_CHAR_DEV; lia|apply skey_laws]. Qed.

#[export] Instance icache_table : KvTable ikey (hash_table * H) :=
  hash_kv ikv (fun _ => SIZEOF_CACHE_KEY) ikey_fits (fun _ _ => eq_refl) ikv_inj.

(** [vfs_inode_cache_init] *)
Definition vfs_inode_cache_init : M H (option hash_table) :=
  hash_table_create ∅ VFS_INODE_CACHE_SIZE (Some inode_cache_hash) (Some inode_cache_key_equal).
Lemma inode_cache_init_ok (h : H) : heap_inv h ∅ ->
  wp vfs_inode_cache_init (fun o h' => match o with Some t => kt_rep (t, h') ∅ | None => heap_inv h' ∅ end) h.
Proof. intros I. apply tb_create; [done|unfold VFS_INODE_CACHE_SIZE; lia|apply ikey_laws]. Qed.
End Instances.
