(* ===== verification/Syscall.v ===== *)
(** The system calls on files: kernel/syscall_file.c, sys_chdir of
    kernel/syscall_impl.c and the dispatcher of kernel/syscall.c.

    A call runs on the state of the VFS, the memory of the calling process and
    the kernel's page allocator.  The process memory is the interface
    [UserMem] (the copy functions of mm/vm.c, which Vm.v models), the page
    allocator the interface [Heap] with objects of one page.  Arguments are
    the registers a0, a1, a2 of the trap frame. *)
From stdpp Require Import base gmap list strings.
From Stdlib Require Import ZArith Lia.
From S2P Require Import Prelude HashMap VfsPath Vfs.
Open Scope Z_scope.

Definition PAGE : Z := 4096.
Definition MAX_PATH_LEN : Z := 128.
(** [sizeof(struct dirent)] *)
Definition SIZEOF_DIRENT : Z := 280.
(** [ARR_LEN(syscalls)] *)
Definition NSYSCALLS : Z := 18.
(** [return -1] from a function that returns [uint64_t] *)
Definition ERR : Z := u64 (-1).

(** [struct stat] and [struct dirent] of the user *)
Record ustat := mkUstat {
  ust_ino : Z; ust_mode : Z; ust_nlink : Z; ust_uid : Z; ust_gid : Z; ust_size : Z; ust_blksize : Z;
  ust_blocks : Z; ust_atime : Z; ust_mtime : Z; ust_ctime : Z }.
Record udirent := mkUdirent { ud_ino : Z; ud_off : Z; ud_reclen : Z; ud_type : Z; ud_name : list Z }.
Inductive udata := UBytes (l : list Z) | UStat (st : ustat) | UDirents (l : list udirent).

(** [um_out addr x] writes [x] at a user address, [um_in addr n] reads [n]
    bytes, [um_str addr max] reads a string; a negative result is a failure *)
Class UserMem (U : Type) := {
  um_out : Z -> udata -> M U Z;
  um_in : Z -> Z -> M U (Z * list Z);
  um_str : Z -> Z -> M U (Z * list Z) }.

(** [IFTODT] *)
Definition IFTODT (mode : Z) : Z := Z.shiftr (Z.land mode 0xF000) 12.

Definition to_ustat (st : vfs_kstat) : ustat :=
  mkUstat (st_ino st) (st_mode st) (st_nlink st) (st_uid st) (st_gid st) (s64 (st_size st)) (s64 (st_blksize st))
    (s64 (st_blocks st)) (s64 (st_atime st)) (s64 (st_mtime st)) (s64 (st_ctime st)).
Definition to_udirent (vd : vfs_dirent) : udirent :=
  mkUdirent (d_ino vd) (s64 (d_ino vd)) SIZEOF_DIRENT (u8 (IFTODT (d_type vd))) (take (Z.to_nat VFS_NAME_MAX) (d_name vd)).

Section Sys.
Context {F C T D H U G : Type} `{FS : FileSystem F} `{CD : CharDriver C}.
Context `{IT : !KvTable ikey T} `{DT : !KvTable (list Z) D} `{HH : Heap H} `{UM : UserMem U} `{HG : Heap G}.
Abbreviation St := (vfs_state F C T D H).

Record kstate := mkK { k_vfs : St; k_user : U; k_pages : G }.
Definition with_vfs (s : St) (k : kstate) : kstate := mkK s (k_user k) (k_pages k).
Definition with_user (u : U) (k : kstate) : kstate := mkK (k_vfs k) u (k_pages k).
Definition with_pages (g : G) (k : kstate) : kstate := mkK (k_vfs k) (k_user k) g.

Definition in_vfs {A} (c : M St A) : M kstate A := zoom k_vfs with_vfs c.
Definition in_user {A} (c : M U A) : M kstate A := zoom k_user with_user c.
Definition kalloc : M kstate Z := zoom k_pages with_pages (halloc PAGE).
Definition kfree (p : Z) : M kstate unit := zoom k_pages with_pages (hfree p).

(** [count > PG_4K_SIZE ? PG_4K_SIZE : count] *)
Definition at_most_page (count : Z) : Z := if PAGE <? count then PAGE else count.

Definition sys_read (a0 a1 a2 : Z) : M kstate Z :=
  let fd := s32 a0 in
  let max := at_most_page a2 in
  let* kbuf := kalloc in
  if kbuf =? 0 then mret ERR
  else
    let* file := in_vfs (fd_get fd) in
    if file =? 0 then kfree kbuf ;;; mret ERR
    else
      let* r := in_vfs (vfs_read file max) in
      in_vfs (file_put file) ;;;
      if r.1 <? 0 then kfree kbuf ;;; mret ERR
      else
        let* c := in_user (um_out a1 (UBytes r.2)) in
        if c <? 0 then kfree kbuf ;;; mret ERR
        else kfree kbuf ;;; mret (u64 r.1).

Definition sys_write (a0 a1 a2 : Z) : M kstate Z :=
  let fd := s32 a0 in
  let max := at_most_page a2 in
  let* kbuf := kalloc in
  if kbuf =? 0 then mret ERR
  else
    let* c := in_user (um_in a1 max) in
    if c.1 <? 0 then kfree kbuf ;;; mret ERR
    else
      let* file := in_vfs (fd_get fd) in
      if file =? 0 then kfree kbuf ;;; mret ERR
      else
        let* ret := in_vfs (vfs_write file c.2) in
        in_vfs (file_put file) ;;;
        kfree kbuf ;;;
        mret (u64 ret).

Definition sys_close (a0 : Z) : M kstate Z :=
  let* r := in_vfs (fd_close (s32 a0)) in
  mret (u64 r).

Definition sys_lseek (a0 a1 a2 : Z) : M kstate Z :=
  let* file := in_vfs (fd_get (s32 a0)) in
  if file =? 0 then mret ERR
  else
    let* ret := in_vfs (vfs_seek file (s32 a1) (s32 a2)) in
    in_vfs (file_put file) ;;;
    mret (u64 ret).

Definition sys_fstat (a0 a1 : Z) : M kstate Z :=
  let* file := in_vfs (fd_get (s32 a0)) in
  if file =? 0 then mret ERR
  else
    let* ret := in_vfs (vfs_fstat file) in
    in_vfs (file_put file) ;;;
    match ret with
    | None => mret ERR
    | Some st =>
      let* c := in_user (um_out a1 (UStat (to_ustat st))) in
      if c <? 0 then mret ERR else mret 0
    end.

(** the loop of [sys_getdents]: the records in order, while another one fits *)
Fixpoint dirents_loop (fuel : nat) (file max offset : Z) : M kstate (list udirent) :=
  match fuel with
  | O => mret []
  | S fuel =>
    if max <? offset + SIZEOF_DIRENT then mret []
    else
      let* r := in_vfs (vfs_readdir file) in
      if r.1 <? 0 then mret []
      else
        let* l := dirents_loop fuel file max (offset + SIZEOF_DIRENT) in
        mret (to_udirent r.2 :: l)
  end.

Definition sys_getdents (a0 a1 a2 : Z) : M kstate Z :=
  if a1 =? 0 then mret ERR
  else
    let max := at_most_page a2 in
    let* kbuf := kalloc in
    if kbuf =? 0 then mret ERR
    else
      let* file := in_vfs (fd_get (s32 a0)) in
      if file =? 0 then kfree kbuf ;;; mret ERR
      else
        let* l := dirents_loop (Z.to_nat (max / SIZEOF_DIRENT)) file max 0 in
        in_vfs (file_put file) ;;;
        let offset := SIZEOF_DIRENT * Z.of_nat (length l) in
        let* c := if 0 <? offset then in_user (um_out a1 (UDirents l)) else mret 0 in
        if c <? 0 then kfree kbuf ;;; mret ERR
        else kfree kbuf ;;; mret offset.

(** the calls that take a path: [body] runs with the path in a slab buffer *)
Definition with_path (a0 : Z) (body : list Z -> M St Z) : M kstate Z :=
  let* path := in_vfs (slab_alloc MAX_PATH_LEN) in
  if path =? 0 then mret ERR
  else
    let* r := in_user (um_str a0 MAX_PATH_LEN) in
    if r.1 <? 0 then in_vfs (slab_free path) ;;; mret ERR
    else
      let* ret := in_vfs (body r.2) in
      in_vfs (slab_free path) ;;;
      mret (u64 ret).

Definition sys_open (a0 a1 : Z) : M kstate Z := with_path a0 (fun path => vfs_open path (u32 a1)).
Definition sys_mkdir (a0 : Z) : M kstate Z := with_path a0 (fun path => vfs_mkdir path 0x1ED).
Definition sys_chdir (a0 : Z) : M kstate Z := with_path a0 (fun path =>
  let* task := get_task in
  match task with
  | Some (n, _) => set_cwd n path
  | None => mret (-1)
  end).

(** [syscall]: the table is read at [sys_id] before [sys_id] is compared with
    its length; [other] stands for the calls that are not about files *)
Definition syscall (other : Z -> M kstate Z) (a7 a0 a1 a2 : Z) : M kstate Z :=
  let sys_id := s32 a7 in
  if sys_id <=? 0 then mret ERR
  else if NSYSCALLS <=? sys_id then fault
  else if sys_id =? 2 then sys_write a0 a1 a2
  else if sys_id =? 9 then sys_read a0 a1 a2
  else if sys_id =? 10 then sys_chdir a0
  else if sys_id =? 11 then sys_mkdir a0
  else if sys_id =? 12 then sys_open a0 a1
  else if sys_id =? 13 then sys_close a0
  else if sys_id =? 14 then sys_fstat a0 a1
  else if sys_id =? 15 then sys_getdents a0 a1 a2
  else other sys_id.
End Sys.
Arguments kstate : clear implicits.
