(* ===== verification/SyscallSpec.v ===== *)
(** The system calls on files keep the invariant and give back what they took:
    inode and file references, slab buffers and kernel pages. *)
From stdpp Require Import base gmap list strings.
From Stdlib Require Import ZArith Lia.
From S2P Require Import Prelude HashMap VfsPath Vfs VfsInv VfsCache VfsWalk VfsDir VfsFile VfsOpen VfsProc Syscall.
Open Scope Z_scope.

(** the copy functions end *)
Class UserLaws (U : Type) {UM : UserMem U} := {
  um_out_ok : forall u a x, wp (um_out a x) (fun _ _ => True) u;
  um_in_ok : forall u a n, wp (um_in a n) (fun _ _ => True) u;
  um_str_ok : forall u a n, wp (um_str a n) (fun _ _ => True) u }.

Section Spec.
Context {F C T D H U G : Type} `{FL : FsLaws F} `{CL : CharLaws C}.
Context `{IT : !KvTable ikey T} `{DT : !KvTable (list Z) D} `{HH : Heap H} `{UL : UserLaws U} `{HG : Heap G}.
Abbreviation St := (vfs_state F C T D H).
Abbreviation K := (kstate F C T D H U G).
Implicit Types (s : St) (k : K) (m : gmap ikey Z) (P : gset Z).
Abbreviation inodes s := (w_inodes (v_world s)).
Ltac lite := unfold spare, light in *; simpl in *; lia.

(** a state between calls of process [n], and one in which the call holds the
    file [p]: every count is exact, no lock is held, [P] are the pages in use *)
Definition kholds n P (E : list Z) k : Prop :=
  (exists m, vinv ∅ [] E m (k_vfs k) /\ TI m (v_world (k_vfs k))) /\ v_held (k_vfs k) = [] /\
  v_cur (k_vfs k) = Some n /\ heap_inv (k_pages k) P.
Abbreviation kgood n P := (kholds n P []).

Lemma wp_in_vfs {A X} (c : M St X) (kont : X -> M K A) Q k :
  wp c (fun x s => wp (kont x) Q (with_vfs s k)) (k_vfs k) -> wp (mbind' (in_vfs c) kont) Q k.
Proof. intros W. apply wp_bind. unfold in_vfs. by apply wp_zoom. Qed.

Lemma wp_user {A X} (c : M U X) (kont : X -> M K A) Q k : (forall u, wp c (fun _ _ => True) u) ->
  (forall x u, wp (kont x) Q (with_user u k)) -> wp (mbind' (in_user c) kont) Q k.
Proof. intros Hc W. apply wp_bind. unfold in_user. apply wp_zoom. eapply wp_conseq; [apply Hc|]. intros x u _. apply W. Qed.

Lemma kholds_user n P E k u : kholds n P E k -> kholds n P E (with_user u k).
Proof. done. Qed.

Lemma wp_kalloc {A} n P E k (kont : Z -> M K A) Q : kholds n P E k ->
  (forall k', kholds n P E k' -> wp (kont 0) Q k') ->
  (forall a k', a <> 0 -> (a ∉ P) -> kholds n ({[a]} ∪ P) E k' -> wp (kont a) Q k') ->
  wp (mbind' kalloc kont) Q k.
Proof.
  intros (Hm & Hh & Hc & Hp) W0 W1. apply wp_bind. unfold kalloc. apply wp_zoom. unfold wp.
  destruct (halloc_ok (k_pages k) P PAGE Hp ltac:(unfold PAGE; lia)) as [(a & g & -> & Ha & Hf & Hi)|[(g & -> & Hi)| ->]]; [..|done].
  - by apply W1.
  - by apply W0.
Qed.

Lemma wp_kfree {A} n P E k a (kont : unit -> M K A) Q : kholds n ({[a]} ∪ P) E k -> (a ∉ P) ->
  (forall k', kholds n P E k' -> wp (kont tt) Q k') -> wp (mbind' (kfree a) kont) Q k.
Proof.
  intros (Hm & Hh & Hc & Hp) Ha W. apply wp_bind. unfold kfree. apply wp_zoom. unfold wp.
  destruct (hfree_ok (k_pages k) ({[a]} ∪ P) a Hp ltac:(set_solver)) as (g & -> & Hi). apply W.
  do 3 (split; [done|]). simpl. replace P with (({[a]} ∪ P) ∖ {[a]}); [done|]. apply set_eq. set_solver.
Qed.

Lemma wp_kfd_get {A} n P k fd (kont : Z -> M K A) Q : kgood n P k ->
  (forall k', kgood n P k' -> wp (kont 0) Q k') ->
  (forall p k', p <> 0 -> kholds n P [p] k' -> wp (kont p) Q k') ->
  wp (mbind' (in_vfs (fd_get fd)) kont) Q k.
Proof.
  intros ((m & I & HT) & Hh & Hc & Hp) W0 W1. apply wp_in_vfs, wp_eta.
  eapply wp_fd_get; [exact I|unfold light; simpl; lia|rewrite Hh; constructor| |].
  - intros _. apply wp_ret, W0. split; [by exists m|done].
  - intros n' t p fl Hn Ht _ _ Hp0 I'. apply wp_ret, W1; [done|]. split; [by exists m|done].
Qed.

Lemma wp_kput {A} n P k p (kont : unit -> M K A) Q : kholds n P [p] k ->
  (forall k', kgood n P k' -> wp (kont tt) Q k') -> wp (mbind' (in_vfs (file_put p)) kont) Q k.
Proof.
  intros ((m & I & HT) & Hh & Hc & Hp) W. apply wp_in_vfs, wp_eta.
  eapply wp_file_put; [exact I|unfold light; simpl; lia|rewrite Hh; constructor|].
  intros s' ((? & ? & Ecur & Eh & _) & _ & Hw) _ I'. apply wp_ret, W. split; [exists m; split; [done|by eapply TI_wkeep]|].
  simpl. rewrite Eh, Ecur. done.
Qed.

(** an operation on the file that the call holds *)
Definition file_op {X} (op : M St X) p : Prop := forall m s f, vinv ∅ [] [p] m s -> TI m (v_world s) -> v_held s = [] ->
  v_files s !! p = Some f -> wp op (fun _ s' => vinv ∅ [] [p] m s' /\ TI m (v_world s') /\ calm s s') s.

Lemma wp_kop {A X} n P k p (op : M St X) (kont : X -> M K A) Q : kholds n P [p] k -> file_op op p ->
  (forall x k', kholds n P [p] k' -> wp (kont x) Q k') -> wp (mbind' (in_vfs op) kont) Q k.
Proof.
  intros ((m & I & HT) & Hh & Hc & Hp) Hop W. apply wp_in_vfs.
  destruct (file_live _ _ _ _ _ p I) as (f & Hf & _); [apply elem_of_app; right; by left|].
  eapply wp_conseq; [by eapply Hop|]. intros x s' (I' & HT' & (_ & _ & Ecur & Eh & _)). apply W.
  split; [by exists m|]. simpl. rewrite Eh, Ecur. done.
Qed.

Lemma rw_file_op {X} (op : M St X) p (pos : file -> X -> Z) :
  (forall B Cr E m s f, vinv B Cr E m s -> TI m (v_world s) -> below 3 (v_held s) -> p ∈ slots (v_tasks s) ++ E ->
     v_files s !! p = Some f -> wp op (fun x => rw_post B Cr E m s p f (pos f x)) s) -> file_op op p.
Proof.
  intros Hop m s f I HT Hh Hf. eapply wp_conseq; [apply (Hop ∅ [] [p] m s f I HT)|].
  - rewrite Hh. constructor.
  - apply elem_of_app. right. by left.
  - done.
  - intros x s' (I' & HT' & Hc & _). done.
Qed.
Lemma read_op p count : file_op (vfs_read p count) p.
Proof.
  apply (rw_file_op _ p (fun f r => if 0 <? r.1 then u64 (f_pos f + r.1) else f_pos f)).
  intros B Cr E m s f I HT Hb Hp Hf. by apply vfs_read_ok.
Qed.
Lemma write_op p buf : file_op (vfs_write p buf) p.
Proof.
  apply (rw_file_op _ p (fun f r => if 0 <? r then u64 (f_pos f + r) else f_pos f)).
  intros B Cr E m s f I HT Hb Hp Hf. by apply vfs_write_ok.
Qed.
Lemma seek_op p off wh : file_op (vfs_seek p off wh) p.
Proof.
  apply (rw_file_op _ p (fun f r => if 0 <=? r then r else f_pos f)).
  intros B Cr E m s f I HT Hb Hp Hf. by apply vfs_seek_ok.
Qed.
Lemma readdir_op p : file_op (vfs_readdir p) p.
Proof.
  intros m s f I HT Hh Hf. eapply wp_conseq; [eapply vfs_readdir_ok; [exact I|done|rewrite Hh; constructor| |exact Hf]|].
  - apply elem_of_app. right. by left.
  - intros x s' (pos & I' & HT' & Hc & _). done.
Qed.
Lemma fstat_op p : file_op (vfs_fstat p) p.
Proof.
  intros m s f I HT Hh Hf. eapply wp_conseq; [eapply vfs_fstat_ok; [exact I|done| |exact Hf]|].
  - apply elem_of_app. right. by left.
  - intros x s' (I' & HT' & Hc & _). done.
Qed.

(** ** The calls *)
Ltac knull := match goal with |- context [?x =? 0] => rewrite (proj2 (Z.eqb_neq x 0)) by done end.
Ltac kfree_ret := eapply wp_kfree; [eassumption|assumption|intros; by apply wp_ret].

Definition keeps_good n P (c : M K Z) : Prop := forall k, kgood n P k -> wp c (fun _ k' => kgood n P k') k.

Lemma sys_read_ok n P a0 a1 a2 : keeps_good n P (sys_read a0 a1 a2).
Proof.
  intros k Hk. unfold sys_read. eapply wp_kalloc; [exact Hk|intros; by apply wp_ret|]. intros kb k1 H0 HP Hk1. knull.
  eapply wp_kfd_get; [exact Hk1|intros k2 Hk2; simpl; kfree_ret|]. intros p k2 Hp0 Hk2. knull.
  eapply wp_kop; [exact Hk2|apply read_op|]. intros r k3 Hk3. eapply wp_kput; [exact Hk3|]. intros k4 Hk4.
  destruct (r.1 <? 0); [kfree_ret|]. apply wp_user; [intros; apply um_out_ok|]. intros c u.
  apply (kholds_user _ _ _ _ u) in Hk4. destruct (c <? 0); kfree_ret.
Qed.

Lemma sys_write_ok n P a0 a1 a2 : keeps_good n P (sys_write a0 a1 a2).
Proof.
  intros k Hk. unfold sys_write. eapply wp_kalloc; [exact Hk|intros; by apply wp_ret|]. intros kb k1 H0 HP Hk1. knull.
  apply wp_user; [intros; apply um_in_ok|]. intros c u. apply (kholds_user _ _ _ _ u) in Hk1. destruct (c.1 <? 0); [kfree_ret|].
  eapply wp_kfd_get; [exact Hk1|intros k2 Hk2; simpl; kfree_ret|]. intros p k2 Hp0 Hk2. knull.
  eapply wp_kop; [exact Hk2|apply write_op|]. intros r k3 Hk3. eapply wp_kput; [exact Hk3|]. intros k4 Hk4. kfree_ret.
Qed.

Lemma sys_lseek_ok n P a0 a1 a2 : keeps_good n P (sys_lseek a0 a1 a2).
Proof.
  intros k Hk. unfold sys_lseek. eapply wp_kfd_get; [exact Hk|intros; by apply wp_ret|]. intros p k2 Hp0 Hk2. knull.
  eapply wp_kop; [exact Hk2|apply seek_op|]. intros r k3 Hk3. eapply wp_kput; [exact Hk3|]. intros; by apply wp_ret.
Qed.

Lemma sys_fstat_ok n P a0 a1 : keeps_good n P (sys_fstat a0 a1).
Proof.
  intros k Hk. unfold sys_fstat. eapply wp_kfd_get; [exact Hk|intros; by apply wp_ret|]. intros p k2 Hp0 Hk2. knull.
  eapply wp_kop; [exact Hk2|apply fstat_op|]. intros r k3 Hk3. eapply wp_kput; [exact Hk3|]. intros k4 Hk4.
  destruct r as [st|]; [|by apply wp_ret]. apply wp_user; [intros; apply um_out_ok|]. intros c u.
  destruct (c <? 0); by apply wp_ret.
Qed.

Lemma dirents_loop_ok n P p fuel : forall max off k, kholds n P [p] k ->
  wp (dirents_loop fuel p max off) (fun l k' => kholds n P [p] k' /\ (length l <= fuel)%nat) k.
Proof.
  induction fuel as [|fuel IH]; intros max off k Hk; cbn [dirents_loop]; [by apply wp_ret|].
  destruct (_ <? _); [apply wp_ret; split; [done|simpl; lia]|]. eapply wp_kop; [exact Hk|apply readdir_op|].
  intros r k1 Hk1. destruct (r.1 <? 0); [apply wp_ret; split; [done|simpl; lia]|].
  apply wp_bind. eapply wp_conseq; [by apply IH|]. intros l k2 [Hk2 Hl]. apply wp_ret. split; [done|simpl; lia].
Qed.

Lemma sys_getdents_ok n P a0 a1 a2 : keeps_good n P (sys_getdents a0 a1 a2).
Proof.
  intros k Hk. unfold sys_getdents. destruct (a1 =? 0); [by apply wp_ret|].
  eapply wp_kalloc; [exact Hk|intros; by apply wp_ret|]. intros kb k1 H0 HP Hk1. knull.
  eapply wp_kfd_get; [exact Hk1|intros k2 Hk2; simpl; kfree_ret|]. intros p k2 Hp0 Hk2. knull.
  apply wp_bind. eapply wp_conseq; [by apply dirents_loop_ok|]. intros l k3 [Hk3 _]. eapply wp_kput; [exact Hk3|].
  intros k4 Hk4. destruct (0 <? _).
  - apply wp_user; [intros; apply um_out_ok|]. intros c u. apply (kholds_user _ _ _ _ u) in Hk4. destruct (c <? 0); kfree_ret.
  - apply wp_bind, wp_ret. simpl. kfree_ret.
Qed.

Lemma kgood_task n P E k : kholds n P E k -> exists t, v_tasks (k_vfs k) !! n = Some t.
Proof. intros ((m & I & _) & _ & Hc & _). by eapply cur_task_some. Qed.

Lemma sys_close_ok n P a0 : keeps_good n P (sys_close a0).
Proof.
  intros k Hk. destruct (kgood_task _ _ _ _ Hk) as [t Ht]. destruct Hk as ((m & I & HT) & Hh & Hc & Hp). unfold sys_close.
  apply wp_in_vfs. eapply wp_conseq; [eapply fd_close_ok; [exact I|done|unfold spare; simpl; lia|done|done|exact Ht]|].
  intros r s' Hr. apply wp_ret. destruct (_ && _).
  - destruct Hr as (_ & I' & HT' & (_ & _ & Ecur & Eh & _) & _). split; [by exists m|]. simpl. rewrite Ecur, Eh. done.
  - destruct Hr as (_ & ->). split; [by exists m|done].
Qed.

(** the calls with a path: what the body must keep, with the path's buffer *)
Lemma with_path_ok n P a0 body :
  (forall b path m s t, vinv b [] [] m s -> TI m (v_world s) -> v_held s = [] -> v_cur s = Some n -> v_tasks s !! n = Some t ->
     wp (body path) (fun _ s' => exists m', vinv b [] [] m' s' /\ TI m' (v_world s') /\ v_held s' = [] /\ v_cur s' = Some n) s) ->
  keeps_good n P (with_path a0 body).
Proof.
  intros Hbody k Hk. destruct (kgood_task _ _ _ _ Hk) as [t Ht]. destruct Hk as ((m & I & HT) & Hh & Hc & Hp). unfold with_path.
  apply wp_in_vfs, wp_eta. eapply wp_valloc; [exact I|unfold MAX_PATH_LEN; lia| |].
  - intros s1 V1 I1. do 2 apply wp_ret. split; [exists m; split; [done|exact (TI_vstep m _ _ HT V1)]|].
    destruct V1 as [(h & w & tb & ->) _]. done.
  - intros a s1 V1 Ha _ I1. apply wp_ret. knull. apply wp_user; [intros; apply um_str_ok|]. intros r u.
    pose proof (TI_vstep m _ _ HT V1) as HT1. pose proof V1 as [(h & w & tb & E1) _].
    assert (v_held s1 = [] /\ v_cur s1 = Some n /\ v_tasks s1 !! n = Some t) as (Hh1 & Hc1 & Ht1) by (by subst s1).
    assert (forall m2 s2 k2 (x : Z), vinv ({[a]} ∪ ∅) [] [] m2 s2 -> TI m2 (v_world s2) -> v_held s2 = [] -> v_cur s2 = Some n ->
      k_vfs k2 = s2 -> k_pages k2 = k_pages k -> wp (in_vfs (slab_free a) ;;; mret x) (fun _ k' => kgood n P k') k2) as Hfree.
    { intros m2 s2 k2 x I2 HT2 Hh2 Hc2 <- Ep. apply wp_in_vfs, wp_eta. eapply wp_vfree; [exact I2|set_solver|].
      intros s3 V3 I3. do 2 apply wp_ret. split; [exists m2; split; [done|exact (TI_vstep m2 _ _ HT2 V3)]|]. simpl. rewrite Ep.
      destruct V3 as [(h3 & w3 & tb3 & ->) _]. done. }
    destruct (r.1 <? 0); [by eapply Hfree|]. apply wp_in_vfs. simpl. eapply wp_conseq; [by eapply Hbody|].
    intros ret s2 (m2 & I2 & HT2 & Hh2 & Hc2). by eapply Hfree.
Qed.

Lemma sys_open_ok n P a0 a1 : keeps_good n P (sys_open a0 a1).
Proof.
  apply with_path_ok. intros b path m s t I HT Hh Hc Ht.
  eapply wp_conseq; [eapply vfs_open_ok; [exact I|done|unfold spare; simpl; lia|done|done|done]|].
  intros r s' (m' & I' & HT' & _ & (_ & _ & Ecur & Eh & _) & _). exists m'. rewrite Ecur, Eh. done.
Qed.

Lemma sys_mkdir_ok n P a0 : keeps_good n P (sys_mkdir a0).
Proof.
  apply with_path_ok. intros b path m s t I HT Hh Hc Ht.
  eapply wp_conseq; [eapply vfs_mkdir_ok; [exact I|done|unfold spare; simpl; lia|done|unfold cur_task; by rewrite Hc, Ht]|].
  intros r s' (m' & HT' & _ & Hh' & I' & HR). exists m'. do 3 (split; [done|]).
  assert (frame s s') as (h & w & tb & ->); [|done].
  destruct HR as [(_ & [HD|(pi & x & y & HD)])|(_ & q & HN)]; [apply HD..|].
  destruct HN as (l & nm & p & pi & qi & _ & _ & _ & _ & _ & _ & _ & _ & _ & _ & _ & _ & HD). apply HD.
Qed.

Lemma sys_chdir_ok n P a0 : keeps_good n P (sys_chdir a0).
Proof.
  apply with_path_ok. intros b path m s t I HT Hh Hc Ht. apply wp_get_task.
  { intros _. apply wp_ret. by exists m. }
  intros n' t' Hn' Ht' _. assert (n' = n) as -> by congruence.
  eapply wp_conseq; [eapply set_cwd_ok; [exact I|done|unfold spare; simpl; lia|done|exact Ht]|].
  intros r s' (m' & I' & HT' & _ & (_ & _ & Ecur & Eh & _) & _). exists m'. rewrite Ecur, Eh. done.
Qed.

(** the numbers of the calls on files, and those that no table entry serves *)
Definition file_call (id : Z) : bool := (id <=? 0) || (id =? 2) || ((9 <=? id) && (id <=? 15)).

Lemma syscall_ok n P other a7 a0 a1 a2 : file_call (s32 a7) = true -> keeps_good n P (syscall other a7 a0 a1 a2).
Proof.
  unfold file_call. intros Hid k Hk. unfold syscall. destruct (s32 a7 <=? 0) eqn:E0; [by apply wp_ret|]. simpl in Hid.
  destruct (NSYSCALLS <=? s32 a7) eqn:E; [exfalso; unfold NSYSCALLS in E; apply orb_prop in Hid as [?|[? ?]%andb_prop]; breflect; lia|].
  repeat case_match; [by apply sys_write_ok|by apply sys_read_ok|by apply sys_chdir_ok|by apply sys_mkdir_ok|by apply sys_open_ok|
    by apply sys_close_ok|by apply sys_fstat_ok|by apply sys_getdents_ok|].
  exfalso. apply orb_prop in Hid as [?|[? ?]%andb_prop]; breflect; lia.
Qed.
End Spec.
