(* ===== verification/VfsTheorems.v ===== *)
(** The theorems of the VFS and of the system calls on files. *)
From stdpp Require Import base gmap list strings.
From Stdlib Require Import ZArith Lia.
From S2P Require Import Prelude HashMap VfsPath Vfs VfsInv VfsCache VfsWalk VfsDir VfsFile VfsOpen VfsProc VfsMount VfsAttach Syscall SyscallSpec.
Open Scope Z_scope.

(** ** Permissions *)
Lemma bit_set_testbit v k : 0 <= k -> bit_set v (2 ^ k) = Z.testbit v k.
Proof.
  intros Hk. unfold bit_set. assert (Z.land v (2 ^ k) = if Z.testbit v k then 2 ^ k else 0) as ->.
  { apply Z.bits_inj'. intros n Hn. rewrite Z.land_spec, Z.pow2_bits_eqb by lia.
    destruct (Z.eqb_spec k n) as [->|Hne].
    - destruct (Z.testbit v n); [by rewrite Z.pow2_bits_true by lia|by rewrite Z.bits_0].
    - rewrite andb_false_r. destruct (Z.testbit v k); [by rewrite Z.pow2_bits_false by lia|by rewrite Z.bits_0]. }
  destruct (Z.testbit v k); [|done]. pose proof (Z.pow_pos_nonneg 2 k ltac:(lia) Hk).
  by rewrite (proj2 (Z.eqb_neq _ 0)) by lia.
Qed.
Lemma class_bit mode cls b : 0 <= cls -> 0 <= b < 3 -> Z.testbit (Z.land (Z.shiftr mode cls) 7) b = Z.testbit mode (cls + b).
Proof.
  intros Hc Hb. change 7 with (Z.ones 3). rewrite Z.land_spec, Z.ones_spec_low, andb_true_r, Z.shiftr_spec by lia.
  f_equal. lia.
Qed.
Lemma group_loop_spec n groups gid : forall i, (i + n <= length groups)%nat ->
  group_loop n i groups gid = bool_decide (gid ∈ take n (drop i groups)).
Proof.
  induction n as [|n IH]; intros i Hi; cbn [group_loop].
  { rewrite bool_decide_eq_false_2; [done|]. apply not_elem_of_nil. }
  destruct (lookup_lt_is_Some_2 groups i ltac:(lia)) as [g Hg]. rewrite Hg, (drop_S _ g i Hg). cbn [take default from_option id].
  destruct (g =? gid) eqn:E; breflect.
  - rewrite bool_decide_eq_true_2; [done|]. subst. apply elem_of_cons. by left.
  - rewrite IH by lia. apply bool_decide_ext. rewrite elem_of_cons. split; [auto|]. intros [?|?]; [congruence|done].
Qed.
Lemma in_group_spec c gid : (c_ngroups c <= length (c_groups c))%nat ->
  vfs_in_group c gid = bool_decide (gid = c_gid c \/ gid ∈ take (c_ngroups c) (c_groups c)).
Proof.
  intros Hn. unfold vfs_in_group. destruct (c_gid c =? gid) eqn:E; breflect.
  - rewrite bool_decide_eq_true_2; auto.
  - rewrite group_loop_spec by done. apply bool_decide_ext. split; [auto|]. intros [?|?]; [congruence|done].
Qed.

(** [C38] The permission check is the Unix rule: root may do anything; anyone
    else is judged by one class only, the owner's if the uids match, otherwise
    the group's if the inode's group is the primary or one of the first
    [ngroups] supplementary groups, otherwise the others'; access is granted
    exactly when every right of [mask] (read 1, write 2, execute 4) has its
    bit (4, 2, 1) in that class. *)
Theorem vfs_permission_equiv (i : inode) (c : credentials) (mask : Z) :
  (c_ngroups c <= length (c_groups c))%nat ->
  vfs_permission i c mask =
  let class := if bool_decide (c_uid c = i_uid i) then 6
               else if bool_decide (i_gid i = c_gid c \/ i_gid i ∈ take (c_ngroups c) (c_groups c)) then 3 else 0 in
  let right r bit := negb (Z.testbit mask r) || Z.testbit (i_mode i) (class + bit) in
  if bool_decide (c_uid c = 0) || (right 0 2 && right 1 1 && right 2 0) then 0 else -1.
Proof.
  intros Hn. unfold vfs_permission. rewrite in_group_spec by done.
  destruct (c_uid c =? 0) eqn:E0; breflect; [by rewrite (bool_decide_eq_true_2 (c_uid c = 0))|].
  rewrite (bool_decide_eq_false_2 (c_uid c = 0)) by done.
  assert (forall cls, 0 <= cls -> (let perm := Z.land (Z.shiftr (i_mode i) cls) 7 in
    if bit_set mask MAY_READ && negb (bit_set perm 4) then -1
    else if bit_set mask MAY_WRITE && negb (bit_set perm 2) then -1
    else if bit_set mask MAY_EXEC && negb (bit_set perm 1) then -1 else 0) =
    let right r bit := negb (Z.testbit mask r) || Z.testbit (i_mode i) (cls + bit) in
    if false || (right 0 2 && right 1 1 && right 2 0) then 0 else -1) as Hcls.
  { intros cls Hc. cbv zeta. set (perm := Z.land (Z.shiftr (i_mode i) cls) 7).
    rewrite (bit_set_testbit mask 0 ltac:(lia) : bit_set mask MAY_READ = _), (bit_set_testbit mask 1 ltac:(lia) : bit_set mask MAY_WRITE = _),
      (bit_set_testbit mask 2 ltac:(lia) : bit_set mask MAY_EXEC = _), (bit_set_testbit perm 2 ltac:(lia) : bit_set perm 4 = _),
      (bit_set_testbit perm 1 ltac:(lia) : bit_set perm 2 = _), (bit_set_testbit perm 0 ltac:(lia) : bit_set perm 1 = _).
    unfold perm. rewrite !class_bit by lia.
    destruct (Z.testbit mask 0), (Z.testbit mask 1), (Z.testbit mask 2), (Z.testbit (i_mode i) (cls + 2)),
      (Z.testbit (i_mode i) (cls + 1)), (Z.testbit (i_mode i) (cls + 0)); done. }
  destruct (c_uid c =? i_uid i) eqn:E1; breflect; [rewrite (bool_decide_eq_true_2 (c_uid c = i_uid i)) by done; by apply Hcls|].
  rewrite (bool_decide_eq_false_2 (c_uid c = i_uid i)) by done. case_bool_decide; [by apply Hcls|]. specialize (Hcls 0 ltac:(lia)). rewrite Z.shiftr_0_r in Hcls. exact Hcls.
Qed.

Section Theorems.
Context {F C T D H : Type} `{FL : FsLaws F} `{CL : CharLaws C}.
Context `{IT : !KvTable ikey T} `{DT : !KvTable (list Z) D} `{HH : Heap H}.
Abbreviation St := (vfs_state F C T D H).
Implicit Types (s : St) (w : world F) (m : gmap ikey Z).
Abbreviation inodes s := (w_inodes (v_world s)).

(** a state between calls: no call holds a buffer, a reference or a lock *)
Definition vgood m s : Prop := vinv ∅ [] [] m s /\ TI m (v_world s) /\ v_held s = [].

Lemma spare_nil : spare [] [].
Proof. unfold spare. simpl. lia. Qed.

(** ** Walks *)

(** [vfs_lookup] over an exact file system refines the walk of the directory trees: it never
    faults, leaves trees, mounts and descriptors as they were, and an inode it
    returns is the one that the on-disk directories give the normalised path,
    name by name, starting at the root of the deepest mount covering it, every
    directory on the way being searchable by the caller; the reference that
    comes with it is the only thing the caller then holds. *)
Theorem vfs_lookup_refines m s path : fs_exact -> vgood m s ->
  wp (vfs_lookup path) (fun r s' => exists m', m ⊆ m' /\ frame s s' /\ same_tree (v_world s) (v_world s') /\ v_held s' = [] /\
    match r with
    | None => vgood m' s'
    | Some p => vinv ∅ [p] [] m' s' /\ TI m' (v_world s') /\
        exists norm start names si pi, norm_path s path = Some norm /\ walk_start s norm = Some (start, names) /\
          cwalk m' (exec_ok (v_world s') (cur_cred s)) start names p /\
          inodes s' !! start = Some si /\ inodes s' !! p = Some pi /\ i_sb pi = i_sb si /\
          walk (w_fs (v_world s')) (i_sb si) (i_ino si) names = Some (i_ino pi)
    end) s.
Proof.
  intros Hx (I & HT & Hh). eapply wp_conseq; [eapply vfs_lookup_ok; [exact I|done|apply spare_nil|rewrite Hh; constructor]|].
  intros r s' (m' & L & HT' & HR). pose proof L as (Hf & _ & Es & Ht & Hm & _). exists m'. do 3 (split; [done|]).
  assert (v_held s' = []) as Hh' by (by rewrite (frame_held _ _ Hf)). split; [done|].
  destruct r as [p|]; [|by split]. destruct HR as (I' & Ha & norm & Hnorm & start & names & Hs & Hw).
  do 2 (split; [done|]). assert (walk_start s norm = Some (start, names)) as Hs0 by (by rewrite <- (walk_start_frame _ _ _ _ norm L)).
  assert (Forall name_norm names) as Hnn.
  { destruct (normalize_render _ _ _ (cur_cwd_ok _ _ _ _ _ I) Hnorm) as (l & Hl & -> & _). unfold walk_start in Hs0.
    destruct (v_root s) as [t|] eqn:Er; [|done]. destruct (w_sbs _ !! _); [|done]. simplify_eq.
    apply below_norm; [|done]. by apply (vi_top _ _ _ _ _ I). }
  assert (exists si, inodes s' !! start = Some si) as [si Hsi].
  { destruct (attached_live _ _ _ _ _ start I') as (si & ? & _); [|by exists si]. unfold walk_start in Hs.
    destruct (v_root s') as [t|]; [|done]. destruct (w_sbs _ !! _) as [b|] eqn:Eb; [|done]. simplify_eq. by eapply attached_root. }
  destruct (cwalk_walk _ _ _ _ _ _ _ Hx I' HT' Hnn start p si Hw Hsi) as (pi & Hpi & E1 & E2).
  destruct (cur_cred_frame _ _ Hf) as [<- _]. by exists norm, start, names, si, pi.
Qed.

(** ** Changing directories *)

(** [vfs_create] on success; what is said of the trees holds for exact file systems: the name was free in the directory that the
    path's parent resolves to, the caller may write and search it, the trees
    differ in that one entry, which names the new file, and the new inode is
    cached, belongs to the caller and has the permissions asked for; on
    failure the trees are the same, or the entry was made but not cached. *)
Theorem vfs_create_functional m s path mode : vgood m s -> is_Some (cur_task s) ->
  wp (vfs_create path mode) (fun r s' => exists m', m ⊆ m' /\ TI m' (v_world s') /\ v_held s' = [] /\
    match r with
    | None => vinv ∅ [] [] m' s' /\ not_made m s s'
    | Some q => vinv ∅ [q] [] m' s' /\ new_file m s m' s' path mode q
    end) s.
Proof.
  intros (I & HT & Hh) Ht. eapply wp_conseq; [by eapply vfs_create_ok; [..|apply spare_nil| |]|].
  intros r s' (m' & HT' & Hm & Hh' & HR). by exists m'.
Qed.

(** [vfs_unlink] and [vfs_rmdir] on success; what is said of the trees holds for exact file systems: the trees differ in exactly
    the named entry, which stood for a file (a directory for [vfs_rmdir]) with
    no entries of its own, in a directory the caller may write; the inode
    leaves the cache; on failure the trees and the cached names are as before. *)
Theorem vfs_remove_functional m s path (dir : bool) : vgood m s -> is_Some (cur_task s) ->
  wp (if dir then vfs_rmdir path else vfs_unlink path) (fun r s' => exists m', vgood m' s' /\
    ((r = -1 /\ m ⊆ m' /\ dstep same_tree m s s') \/
     (r = 0 /\ exists m1 s1 l n p pi, lstep m s m1 s1 /\ norm_path s path = Some (render (l ++ [n])) /\
        found m1 s1 (render l) p /\ inodes s1 !! p = Some pi /\ is_dir pi = true /\
        vfs_permission pi (cur_cred s) (Z.lor MAY_WRITE MAY_EXEC) = 0 /\ removed m1 s1 m' s' dir p n))) s.
Proof.
  intros (I & HT & Hh) Ht.
  assert (wp (if dir then vfs_rmdir path else vfs_unlink path) (unlink_post ∅ [] [] m s path dir) s) as W.
  { destruct dir; [eapply vfs_rmdir_ok|eapply vfs_unlink_ok]; (done || apply spare_nil). }
  eapply wp_conseq; [exact W|]. intros r s' (m' & HT' & Hh' & I' & HR). by exists m'.
Qed.

(** ** Descriptors *)

(** [C23] [vfs_open] on success puts a new file with one reference into the
    lowest free descriptor of the caller and changes no other descriptor of
    any process; the file stands for the device of that name or for the inode
    the path resolves to (just created with [O_CREAT]), on which the caller has
    the access that the flags ask for, with position 0 or, with [O_APPEND], the
    size.  On failure no descriptor of any process and no file count changes and
    no reference, buffer or lock stays behind; a file that was created or
    truncated before the failure stays so, and a device stays open. *)
Theorem vfs_open_functional m s n t path flags : vgood m s -> v_cur s = Some n -> v_tasks s !! n = Some t ->
  wp (vfs_open path flags) (open_post ∅ [] [] m s n t path flags) s.
Proof. intros (I & HT & Hh) Hc Ht. eapply vfs_open_ok; [exact I|done|apply spare_nil|done..]. Qed.

(** [vfs_dup] gives the lowest free descriptor the same open file and
    leaves every other descriptor alone; it fails only when [oldfd] is not
    open or all [NOFILE] descriptors are in use. *)
Theorem vfs_dup_functional m s n t oldfd : vgood m s -> v_cur s = Some n -> v_tasks s !! n = Some t ->
  wp (vfs_dup oldfd) (fun r s' =>
    (r = -1 /\ fd_post ∅ [] [] m s (fd_tables s) s' /\
       (fd_ok oldfd = true -> ofile t oldfd <> 0 -> Forall (fun p => p <> 0) (t_ofile t))) \/
    exists i, r = Z.of_nat i /\ fd_ok oldfd = true /\ ofile t oldfd <> 0 /\ first_free 0 (t_ofile t) = Some i /\
      fd_post ∅ [] [] m s (set_table n i (ofile t oldfd) (fd_tables s)) s') s.
Proof. intros (I & HT & Hh) Hc Ht. eapply vfs_dup_ok; [exact I|done|apply spare_nil|done..]. Qed.

(** [fd_close] empties exactly the given descriptor and drops its
    reference (the file goes with the last one); a descriptor that is out of
    range or not open gives -1 and changes nothing at all. *)
Theorem fd_close_functional m s n t fd : vgood m s -> v_cur s = Some n -> v_tasks s !! n = Some t ->
  wp (fd_close fd) (fun r s' =>
    if fd_ok fd && negb (ofile t fd =? 0)
    then r = 0 /\ fd_post ∅ [] [] m s (set_table n (Z.to_nat fd) 0 (fd_tables s)) s'
    else r = -1 /\ s' = s) s.
Proof. intros (I & HT & Hh) Hc Ht. eapply fd_close_ok; [exact I|done|apply spare_nil|done..]. Qed.

(** ** Processes *)

(** The file side of [kfork] and of process exit: a child without open
    files gets the parent's working directory and the parent's descriptor
    table, each file and inode counting the new references; an exiting process
    ends with no working directory and 64 empty descriptors, every reference
    it held having been given back. *)
Theorem fork_exit_references m s p c tp tc : vgood m s -> v_tasks s !! p = Some tp -> v_tasks s !! c = Some tc -> p <> c ->
  t_cwd tc = 0 -> t_ofile tc = replicate (Z.to_nat NOFILE) 0 ->
  wp (fork_fs p c) (fun _ => proc_post ∅ [] [] m s c (mkTask (t_cwd tp) (t_cwd_path tp) (t_ofile tp) (t_cred tc))) s /\
  wp (exit_fs p) (fun _ => proc_post ∅ [] [] m s p (mkTask 0 [] (replicate (Z.to_nat NOFILE) 0) (t_cred tp))) s.
Proof.
  intros (I & HT & Hh) Hp Hc Hpc H1 H2. split.
  - eapply fork_fs_ok; [exact I|done|apply spare_nil|done..].
  - eapply exit_fs_ok; [exact I|done|apply spare_nil|done..].
Qed.

(** ** Mounting *)

(** [C39] [vfs_mount] with a target that fits into [mnt->path] (shorter than 128
    bytes): on success it adds one super block and one mount, at the deepest mount
    covering the target, and a walk of the target as it was given starts and ends
    at the new root ([walk_start]; the paths of calls are normalised, so a target
    with a trailing slash is never reached by them); on failure super blocks,
    mounts and the inode cache are as before, and so are the trees of the mounted
    file systems if these are exact. *)
Theorem vfs_mount_functional m s dev target fs_type : vgood m s -> strlen target < VFS_MAX_PATH_LEN ->
  wp (vfs_mount dev target fs_type) (mount_post ∅ [] [] m s target) s.
Proof. intros (I & HT & Hh) Hl. eapply vfs_mount_ok; [exact I|done|apply spare_nil|done|done]. Qed.

(** [C40] [vfs_umount] of a file system with at most 1024 cached inodes, on success: the mount had no mounts below it and no
    process held one of its inodes, by working directory or open file; it and
    its super block are gone, no inode of it is left in the cache, all other
    cached inodes (and all other trees, if the file systems are exact) are as
    before.  The 8 rounds of 128 victims are what sets the bound; beyond it
    inodes would stay cached that point to the freed super block. *)
Theorem vfs_umount_functional m s target : vgood m s ->
  (forall t x, v_root s = Some t -> vfs_find_mount_exact t target = Some x ->
     (length (pending m (v_world s) (m_sb x)) <= 1024)%nat) ->
  wp (vfs_umount target) (umount_post ∅ [] [] m s target) s.
Proof. intros (I & HT & Hh) Hl. eapply vfs_umount_ok; [exact I|done|apply spare_nil|done|done]. Qed.
End Theorems.
