(* ===== verification/SyscallTheorems.v ===== *)
(** Any sequence of calls: system calls on files, the VFS calls of the kernel
    itself, fork, exit and process switches. *)
From stdpp Require Import base gmap list strings.
From Stdlib Require Import ZArith Lia.
From S2P Require Import Prelude HashMap VfsPath Vfs VfsInv VfsCache VfsWalk VfsDir VfsFile VfsOpen VfsProc VfsMount VfsAttach Syscall SyscallSpec.
Open Scope Z_scope.

Inductive kcall :=
  | KSys (a7 a0 a1 a2 : Z)
  | KLseek (a0 a1 a2 : Z)
  | KDup (fd : Z)
  | KUnlink (path : list Z)
  | KRmdir (path : list Z)
  | KFork (p c : nat)
  | KExit (n : nat)
  | KMount (dev : Z) (target fs_type : list Z)
  | KUmount (target : list Z)
  | KSwitch (n : nat).

Section Calls.
Context {F C T D H U G : Type} `{FL : FsLaws F} `{CL : CharLaws C}.
Context `{IT : !KvTable ikey T} `{DT : !KvTable (list Z) D} `{HH : Heap H} `{UL : UserLaws U} `{HG : Heap G}.
Abbreviation St := (vfs_state F C T D H).
Abbreviation K := (kstate F C T D H U G).
Implicit Types (s : St) (k : K) (m : gmap ikey Z) (P : gset Z).

Definition set_cur (n : nat) s : St :=
  mkV (v_heap s) (v_world s) (v_icache s) (v_cdevs s) (v_devs s) (v_drv s) (v_reg s) (v_root s) (v_files s) (v_tasks s) (Some n) (v_held s).

(** one call, from its start to its end, while no other process runs in the
    kernel; [other] calls are not run here ([fork] and [exit] enter by their
    part on files, [exec] does not enter) *)
Definition run_call (c : kcall) : M K Z :=
  match c with
  | KSys a7 a0 a1 a2 => syscall (fun _ => fault) a7 a0 a1 a2
  | KLseek a0 a1 a2 => sys_lseek a0 a1 a2
  | KDup fd => in_vfs (vfs_dup fd)
  | KUnlink path => in_vfs (vfs_unlink path)
  | KRmdir path => in_vfs (vfs_rmdir path)
  | KFork p c => in_vfs (fork_fs p c) ;;; mret 0
  | KExit n => in_vfs (exit_fs n) ;;; mret 0
  | KMount dev target fs_type => in_vfs (vfs_mount dev target fs_type)
  | KUmount target => in_vfs (vfs_umount target)
  | KSwitch n => modify (fun k => with_vfs (set_cur n (k_vfs k)) k) ;;; mret 0
  end.

(** The calls of a run.  The kernel makes [fork] with a fresh child, and [exit]
    and a switch for an existing process.  Three limits are not in the code:
    system calls have the number of a call on files or none at all
    ([syscall_checks_late] shows what a number from 18 on does), a mount target
    fits into [mnt->path], and an unmounted file system has at most 1024
    cached inodes, which is all that [vfs_umount] removes. *)
Definition allowed k (c : kcall) : Prop :=
  match c with
  | KSys a7 _ _ _ => file_call (s32 a7) = true
  | KFork p c => exists tp tc, v_tasks (k_vfs k) !! p = Some tp /\ v_tasks (k_vfs k) !! c = Some tc /\ p <> c /\
      t_cwd tc = 0 /\ t_ofile tc = replicate (Z.to_nat NOFILE) 0
  | KExit n | KSwitch n => is_Some (v_tasks (k_vfs k) !! n)
  | KMount _ target _ => strlen target < VFS_MAX_PATH_LEN
  | KUmount target => forall m t x, kt_rep (v_icache (k_vfs k)) m -> v_root (k_vfs k) = Some t ->
      vfs_find_mount_exact t target = Some x -> (length (pending m (v_world (k_vfs k)) (m_sb x)) <= 1024)%nat
  | _ => True
  end.

(** between calls: counts exact, no lock held, the pages [P] in use *)
Definition kinv P k : Prop := exists n, kholds n P [] k.

Inductive kreach k0 : K -> Prop :=
  | kr_start : kreach k0 k0
  | kr_step k c r k' : kreach k0 k -> allowed k c -> run_call c k = Ok (r, k') -> kreach k0 k'.

(** a VFS call as a call of the kernel *)
Lemma vfs_call_ok {X} n P k (c : M St X) :
  (forall m t, vinv ∅ [] [] m (k_vfs k) -> TI m (v_world (k_vfs k)) -> v_held (k_vfs k) = [] -> v_cur (k_vfs k) = Some n ->
     v_tasks (k_vfs k) !! n = Some t ->
     wp c (fun _ s' => exists m', vinv ∅ [] [] m' s' /\ TI m' (v_world s') /\ v_held s' = [] /\ v_cur s' = Some n) (k_vfs k)) ->
  kholds n P [] k -> wp (in_vfs c) (fun _ k' => kholds n P [] k') k.
Proof.
  intros Hc Hk. destruct (kgood_task _ _ _ _ Hk) as [t Ht]. destruct Hk as ((m & I & HT) & Hh & Hcur & Hp).
  unfold in_vfs. apply wp_zoom. eapply wp_conseq; [by eapply Hc|]. intros x s' (m' & I' & HT' & Hh' & Hc').
  split; [by exists m'|done].
Qed.
Lemma vfs_call_ret {X} n P k (c : M St X) (r : Z) : wp (in_vfs c) (fun _ k' => kholds n P [] k') k ->
  wp (in_vfs c ;;; mret r) (fun _ k' => kinv P k') k.
Proof. intros W. apply wp_bind. eapply wp_conseq; [exact W|]. intros x k' Hk. apply wp_ret. by exists n. Qed.

Lemma calm_cur s s' n : calm s s' -> v_cur s = Some n -> v_held s = [] -> v_held s' = [] /\ v_cur s' = Some n.
Proof. intros (_ & _ & -> & -> & _) -> ->. done. Qed.

Lemma spare0 : spare [] [].
Proof. unfold spare. simpl. lia. Qed.

Lemma remove_call_good n P k dir path : kholds n P [] k ->
  wp (in_vfs (if dir : bool then vfs_rmdir path else vfs_unlink path)) (fun _ k' => kholds n P [] k') k.
Proof.
  apply vfs_call_ok. intros m t I HT Hh Hc Ht. assert (is_Some (cur_task (k_vfs k))) as Hct by (unfold cur_task; by rewrite Hc, Ht).
  assert (wp (if dir then vfs_rmdir path else vfs_unlink path) (unlink_post ∅ [] [] m (k_vfs k) path dir) (k_vfs k)) as W.
  { destruct dir; [eapply vfs_rmdir_ok|eapply vfs_unlink_ok]; (done || apply spare0). }
  eapply wp_conseq; [exact W|]. intros r s' (m' & HT' & Hh' & I' & HR). exists m'. do 3 (split; [done|]).
  assert (frame (k_vfs k) s') as (h & w & tb & ->); [|done].
  destruct HR as [(_ & _ & HD)|(_ & m1 & s1 & l & nm & p & pi & L & _ & _ & _ & _ & _ & q & pi' & qi & _ & _ & _ & _ & _ & _ & HD)]; [apply HD|].
  eapply frame_trans; [apply L|apply HD].
Qed.

Lemma call_ok P k c : kinv P k -> allowed k c -> wp (run_call c) (fun _ k' => kinv P k') k.
Proof.
  intros [n Hk] Ha. assert (forall Q, (forall r k', kholds n P [] k' -> Q r k') -> forall (c : M K Z), wp c (fun _ k' => kholds n P [] k') k -> wp c Q k) as Hmono.
  { intros Q HQ c0 W. eapply wp_conseq; [exact W|]. intros r k'. apply HQ. }
  destruct c; cbn [run_call].
  - apply Hmono; [intros; by exists n|]. by apply syscall_ok.
  - apply Hmono; [intros; by exists n|]. by apply sys_lseek_ok.
  - apply Hmono; [intros; by exists n|]. eapply vfs_call_ok; [|exact Hk]. intros m t I HT Hh Hc Ht.
    eapply wp_conseq; [eapply vfs_dup_ok; [exact I|done|apply spare0|done..]|]. intros r s' HR. exists m.
    destruct HR as [(_ & (I' & HT' & Hcm & _) & _)|(i & _ & _ & _ & _ & I' & HT' & Hcm & _)]; do 2 (split; [done|]); by eapply calm_cur.
  - apply Hmono; [intros; by exists n|]. by apply (remove_call_good n P k false).
  - apply Hmono; [intros; by exists n|]. by apply (remove_call_good n P k true).
  - destruct Ha as (tp & tc & Hp & Hc' & Hpc & H1 & H2). eapply vfs_call_ret, vfs_call_ok; [|exact Hk]. intros m t I HT Hh Hc Ht.
    eapply wp_conseq; [eapply fork_fs_ok; [exact I|done|apply spare0|done..]|]. intros [] s' (I' & HT' & Hcm & _). exists m.
    do 2 (split; [done|]). by eapply calm_cur.
  - destruct Ha as [t0 Ht0]. eapply vfs_call_ret, vfs_call_ok; [|exact Hk]. intros m t I HT Hh Hc Ht.
    eapply wp_conseq; [eapply exit_fs_ok; [exact I|done|apply spare0|done..]|]. intros [] s' (I' & HT' & Hcm & _). exists m.
    do 2 (split; [done|]). by eapply calm_cur.
  - apply Hmono; [intros; by exists n|]. eapply vfs_call_ok; [|exact Hk]. intros m t I HT Hh Hc Ht.
    eapply wp_conseq; [eapply vfs_mount_ok; [exact I|done|apply spare0|done|done]|]. intros r s' (Hh' & _ & _ & Hcur & HR).
    destruct HR as [(_ & _ & I' & HT' & _)|(_ & sb & b & Pk & mnt & _ & _ & _ & _ & I' & HT' & _)]; eexists; (split; [exact I'|]);
      by rewrite Hcur.
  - apply Hmono; [intros; by exists n|]. eapply vfs_call_ok; [|exact Hk]. intros m t I HT Hh Hc Ht.
    eapply wp_conseq; [eapply vfs_umount_ok; [exact I|done|apply spare0|done|]|].
    { intros t0 x. apply (Ha m), I. }
    intros r s' (Hh' & _ & _ & Hcur & HR).
    destruct HR as [(_ & I' & HT' & _)|(_ & t0 & x & _ & _ & _ & _ & _ & I' & HT' & _)]; eexists; (split; [exact I'|]); by rewrite Hcur.
  - apply wp_modify, wp_ret. destruct Ha as [t0 Ht0]. destruct Hk as ((m & I & HT) & Hh & Hc & Hp). exists n0.
    split; [exists m; split; [|done]|done]. destruct I. split; try done. intros x. simpl. intros [= <-]. by eapply lookup_lt_Some.
Qed.

Lemma reach_good P k0 k : kinv P k0 -> kreach k0 k -> kinv P k.
Proof.
  intros H0 HR. induction HR as [|k c r k' _ IH Ha Hrun]; [done|].
  exact (wp_ok _ _ _ _ _ (call_ok P k c IH Ha) Hrun).
Qed.

(** [C4] Memory safety of the VFS, over any file system with the laws of
    [FsLaws] that concern inodes in memory ([fs_exact] is not assumed): after any
    sequence of calls that [allowed] admits (system calls on files, the file side
    of fork and exit, mounts of targets shorter than 128 bytes, unmounts of file
    systems with at most 1024 cached inodes, process switches between calls)
    from a good state, every further such call, run without contention, ends without touching a freed inode, file, super block
    or device, without taking a lock out of order or twice and without
    releasing one that is not held, and leaves a good state: every reference
    count exact, every lock free, every buffer and kernel page given back. *)
Theorem calls_safe P k0 k c : kinv P k0 -> kreach k0 k -> allowed k c -> wp (run_call c) (fun _ k' => kinv P k') k.
Proof. intros H0 HR. apply call_ok. by eapply reach_good. Qed.

(** [C22] Descriptor tables are well formed in every reachable state: each
    process has [NOFILE] slots, a slot that is not empty holds a live file,
    the count of a file is the number of slots of all processes that hold it,
    no live file is without a slot, and the inode of a file is live. *)
Theorem descriptors_wf P k0 k : kinv P k0 -> kreach k0 k ->
  let s := k_vfs k in
  Forall (fun t => length (t_ofile t) = Z.to_nat NOFILE) (v_tasks s) /\
  (forall t p, t ∈ v_tasks s -> p ∈ t_ofile t -> p <> 0 -> is_Some (v_files s !! p)) /\
  (forall p f, v_files s !! p = Some f ->
     f_refcount f = occ p (concat (t_ofile <$> v_tasks s)) /\ 0 < f_refcount f /\
     (f_inode f <> 0 -> is_Some (w_inodes (v_world s) !! f_inode f))).
Proof.
  intros H0 HR. destruct (reach_good P k0 k H0 HR) as (n & (m & I & HT) & _). simpl. split; [|split].
  - eapply Forall_impl; [apply I|]. by intros t [? _].
  - intros t p Ht Hp H0'. apply list_elem_of_lookup in Ht as [i Hi]. apply list_elem_of_lookup in Hp as [fd Hfd].
    destruct (file_live _ _ _ _ _ p I) as (f & ? & _); [by eapply slot_ref|by exists f].
  - intros p f Hf. pose proof (vi_files _ _ _ _ _ I p) as Hp. rewrite Hf, app_nil_r in Hp. destruct Hp as [Ec Hin].
    assert (p <> 0) as Hp0 by (by apply nonnull_in in Hin as [? _]).
    split; [|split].
    + rewrite Ec. unfold slots, nonnull, occ. rewrite list_filter_filter. do 2 f_equal. apply list_filter_iff. intros x. split; [tauto|].
      intros ->. done.
    + rewrite Ec. by apply occ_pos.
    + intros Hi. destruct (ref_live _ _ _ _ _ _ I (file_inode_ref m (k_vfs k) p f [] Hf Hi)) as (i & ? & _). by exists i.
Qed.

(** One inode per file, over an exact file system: in every reachable state two inodes in memory
    that are attached to the tree (roots of mounted file systems and inodes the
    cache holds under a name) and stand for the same file of the same file
    system are the same inode; so processes that open a file by different
    paths share its lock, size and reference count. *)
Theorem one_inode_per_file P k0 k : fs_exact -> kinv P k0 -> kreach k0 k ->
  let w := v_world (k_vfs k) in
  exists m, kt_rep (v_icache (k_vfs k)) m /\
    forall p1 p2 i1 i2, attached m w p1 -> attached m w p2 -> w_inodes w !! p1 = Some i1 -> w_inodes w !! p2 = Some i2 ->
      i_sb i1 = i_sb i2 -> i_ino i1 = i_ino i2 -> p1 = p2.
Proof.
  intros Hx H0 HR. destruct (reach_good P k0 k H0 HR) as (n & (m & I & HT) & _). exists m.
  split; [apply I|by apply (ti_unique _ _ HT)].
Qed.

(** A process can make [syscall] read outside its table: the entry is
    loaded before the number is compared with the table's length, so every
    number from 18 on is an access beyond [syscalls]. *)
Theorem syscall_checks_late (other : Z -> M K Z) a7 a0 a1 a2 k : NSYSCALLS <= s32 a7 -> syscall other a7 a0 a1 a2 k = Fault.
Proof.
  intros Hid. unfold syscall. destruct (s32 a7 <=? 0) eqn:E; breflect; [unfold NSYSCALLS in *; lia|].
  by rewrite (proj2 (Z.leb_le _ _) Hid).
Qed.
End Calls.
