(* ===== verification/VfsDemo.v ===== *)
(** A file system in memory that meets [FsLaws], a device driver and a process
    memory: the interfaces of the VFS have a model, and the theorems apply to
    states that the calls themselves produce. *)
From stdpp Require Import base gmap list strings.
From Stdlib Require Import ZArith Lia.
From S2P Require Import Prelude HashMap VfsPath Vfs VfsInv VfsCache VfsWalk VfsDir VfsFile VfsOpen VfsProc VfsMount VfsAttach VfsTable VfsTheorems Syscall SyscallSpec SyscallTheorems Strict.
Open Scope Z_scope.

(** ** The file system

    Directory entries and file modes by super block and inode number; addresses
    and inode numbers come from one counter. *)
Record ramfs := mkRam { rf_tree : gmap (Z * Z * list Z) Z; rf_mode : gmap (Z * Z) Z; rf_next : Z }.
Definition RF_MAX : Z := 2 ^ 20.
Definition RF_OPS : Z := 1.
Definition ROOT_INO : Z := 0.

Abbreviation W := (world ramfs).
Implicit Types (w : W) (f : ramfs).

Definition rf_inode (f : ramfs) (sb x : Z) : inode :=
  mkInode sb x (default 0 (rf_mode f !! (sb, x))) 0 0 0 RF_OPS RF_OPS 1 0 [].
Definition fail_op {X} (x : X) : M W (Z * X) := mret (-1, x).

Definition rf_get_super (fs dev : Z) : M W (Z * Z) := fun w =>
  let f := w_fs w in
  let a := rf_next f in
  if a + 2 <? RF_MAX then
    let f' := mkRam (rf_tree f) (<[(a, ROOT_INO) := Z.lor S_IFDIR 0x1FF]> (rf_mode f)) (a + 2) in
    Ok ((0, a), mkW (<[a + 1 := rf_inode f' a ROOT_INO]> (w_inodes w)) (<[a := mkSuper fs (a + 1)]> (w_sbs w)) f')
  else Ok ((-1, 0), w).
Definition rf_kill_super (sb : Z) : M W unit := fun w => Ok (tt, mkW (w_inodes w) (delete sb (w_sbs w)) (w_fs w)).

Definition rf_lookup (p : Z) (n : list Z) : M W (Z * Z) := fun w =>
  let f := w_fs w in
  match w_inodes w !! p with
  | None => Fault
  | Some i =>
    match rf_tree f !! (i_sb i, i_ino i, n) with
    | None => Ok ((-1, 0), w)
    | Some x =>
      let a := rf_next f in
      if a + 1 <? RF_MAX then
        Ok ((0, a), mkW (<[a := rf_inode f (i_sb i) x]> (w_inodes w)) (w_sbs w) (mkRam (rf_tree f) (rf_mode f) (a + 1)))
      else Ok ((-1, 0), w)
    end
  end.

Definition rf_make (p : Z) (n : list Z) (mode : Z) : M W (Z * Z) := fun w =>
  let f := w_fs w in
  match w_inodes w !! p with
  | None => Fault
  | Some i =>
    match rf_tree f !! (i_sb i, i_ino i, n) with
    | Some _ => Ok ((-1, 0), w)
    | None =>
      let a := rf_next f in
      if a + 2 <? RF_MAX then
        let f' := mkRam (<[(i_sb i, i_ino i, n) := a]> (rf_tree f)) (<[(i_sb i, a) := mode]> (rf_mode f)) (a + 2) in
        Ok ((0, a + 1), mkW (<[a + 1 := rf_inode f' (i_sb i) a]> (w_inodes w)) (w_sbs w) f')
      else Ok ((-1, 0), w)
    end
  end.

Definition rf_remove (p : Z) (n : list Z) : M W Z := fun w =>
  let f := w_fs w in
  match w_inodes w !! p with
  | None => Fault
  | Some i =>
    match rf_tree f !! (i_sb i, i_ino i, n) with
    | None => Ok (-1, w)
    | Some x =>
      if bool_decide (map_Forall (fun k _ => ~ (k.1.1 = i_sb i /\ k.1.2 = x)) (rf_tree f)) then
        Ok (0, mkW (w_inodes w) (w_sbs w) (mkRam (delete (i_sb i, i_ino i, n) (rf_tree f)) (rf_mode f) (rf_next f)))
      else Ok (-1, w)
    end
  end.

#[export] Instance ramfs_fs : FileSystem ramfs := {|
  iops_has := fun _ op => match op with OpTruncate | OpReaddir => false | _ => true end;
  fops_has := fun _ op => match op with FopSeek => false | _ => true end;
  fs_get_super := rf_get_super;
  fs_kill_super := rf_kill_super;
  fs_lookup := rf_lookup;
  fs_create := rf_make;
  fs_mkdir := rf_make;
  fs_rmdir := rf_remove;
  fs_unlink := rf_remove;
  fs_readdir := fun _ pos => mret (-1, pos, mkDirent 0 0 []);
  fs_getattr := fun _ => mret (-1, mkStat 0 0 0 0 0 0 0 0 0 0 0);
  fs_truncate := fun _ _ => mret (-1);
  fs_destroy := fun p w => Ok (tt, mkW (delete p (w_inodes w)) (w_sbs w) (w_fs w));
  fs_read := fun _ n => mret (Z.min n 4, [104; 105; 33; 10]);
  fs_write := fun _ buf => mret (strlen buf);
  fs_seek := fun _ _ _ => mret (-1);
  fs_close := fun _ => mret 0 |}.

#[export] Instance ramfs_view : FsView ramfs := {| fs_entry := fun f sb d n => rf_tree f !! (sb, d, n); fs_exact := True |}.

Record rf_ok w : Prop := {
  ro_next : 1 < rf_next (w_fs w) <= RF_MAX;
  ro_inodes : forall p i, w_inodes w !! p = Some i -> 1 < p < rf_next (w_fs w) /\ i_sb i < rf_next (w_fs w);
  ro_sbs : forall sb b, w_sbs w !! sb = Some b -> 1 < sb < rf_next (w_fs w) /\ sb_root b < rf_next (w_fs w);
  ro_tree : forall sb d n x, rf_tree (w_fs w) !! (sb, d, n) = Some x -> sb < rf_next (w_fs w) /\ 0 < x < rf_next (w_fs w);
  ro_uniq : forall sb d1 n1 d2 n2 x, rf_tree (w_fs w) !! (sb, d1, n1) = Some x -> rf_tree (w_fs w) !! (sb, d2, n2) = Some x ->
    d1 = d2 /\ n1 = n2;
  ro_root : forall sb b i, w_sbs w !! sb = Some b -> w_inodes w !! sb_root b = Some i -> i_ino i = ROOT_INO }.

Lemma few_keys {A} (g : gmap Z A) n : 0 <= n -> (forall p x, g !! p = Some x -> 0 <= p < n) -> Z.of_nat (size g) <= n.
Proof.
  intros Hn Hg. rewrite <- size_dom.
  assert (dom g ⊆ (list_to_set (seqZ 0 n) : gset Z)) as Hs.
  { intros p [x Hx]%elem_of_dom. apply elem_of_list_to_set, elem_of_seqZ. specialize (Hg _ _ Hx). lia. }
  apply subseteq_size in Hs. rewrite size_list_to_set in Hs by apply NoDup_seqZ. rewrite length_seqZ in Hs. lia.
Qed.

(** one more inode, under the address and number [a] or above *)
Lemma rf_ok_new w a i f' : rf_ok w -> rf_next (w_fs w) <= a < rf_next f' -> rf_next f' <= RF_MAX -> i_sb i < rf_next f' ->
  (forall sb d n x, rf_tree f' !! (sb, d, n) = Some x -> sb < rf_next f' /\ 0 < x < rf_next f') ->
  (forall sb d1 n1 d2 n2 x, rf_tree f' !! (sb, d1, n1) = Some x -> rf_tree f' !! (sb, d2, n2) = Some x -> d1 = d2 /\ n1 = n2) ->
  rf_ok (mkW (<[a := i]> (w_inodes w)) (w_sbs w) f').
Proof.
  intros [R1 R2 R3 R4 R5 R6] Ha Hm Hi Ht Hu. split; simpl; [lia| | |done|done|].
  - intros p j [[<- <-]|[_ Hj]]%lookup_insert_Some; [lia|]. specialize (R2 _ _ Hj). lia.
  - intros sb b Hb. specialize (R3 _ _ Hb). lia.
  - intros sb b j Hb. rewrite lookup_insert_ne; [by eapply R6|]. specialize (R3 _ _ Hb). lia.
Qed.
Lemma keeps_but_new w a i f' : keeps_but a w (mkW (<[a := i]> (w_inodes w)) (w_sbs w) f').
Proof.
  split; [done|]. intros q Hq. simpl. rewrite lookup_insert_ne by done. by destruct (w_inodes w !! q).
Qed.
Lemma made_new w a i f' : w_inodes w !! a = None -> i_refcount i = 1 ->
  made a (i_sb i) w (mkW (<[a := i]> (w_inodes w)) (w_sbs w) f').
Proof.
  intros Ha Hc. split; [apply keeps_but_new|]. split; [done|]. exists i. simpl. by rewrite lookup_insert_eq.
Qed.
Lemma rf_fresh w p : rf_ok w -> rf_next (w_fs w) <= p -> w_inodes w !! p = None.
Proof. intros R Hp. destruct (w_inodes w !! p) eqn:E; [|done]. apply (ro_inodes _ R) in E. lia. Qed.

Lemma rf_keeps w : keeps w w.
Proof. intros p. split; [done|]. intros q _. by destruct (w_inodes w !! q). Qed.
Lemma keeps_fs w f' : keeps w (mkW (w_inodes w) (w_sbs w) f').
Proof. intros p. split; [done|]. intros q _. simpl. by destruct (w_inodes w !! q). Qed.
Lemma harmless_ret {X} (x : X) w : rf_ok w -> harmless (mret x) w rf_ok.
Proof. intros R. apply wp_ret. split; [done|]. split; [apply rf_keeps|done]. Qed.

Lemma rf_lookup_ok w p i n : rf_ok w -> w_inodes w !! p = Some i ->
  wp (rf_lookup p n) (fun r w' => rf_ok w' /\ same_tree w w' /\
      if (r.1 <? 0) || (r.2 =? 0) then keeps w w'
      else made r.2 (i_sb i) w w' /\
           exists j, w_inodes w' !! r.2 = Some j /\ (fs_exact -> fs_entry (w_fs w) (i_sb i) (i_ino i) n = Some (i_ino j))) w.
Proof.
  intros R Hi. unfold wp, rf_lookup. rewrite Hi. destruct (rf_tree (w_fs w) !! _) as [x|] eqn:Et.
  2:{ split; [done|]. split; [done|]. apply rf_keeps. }
  destruct (_ <? RF_MAX) eqn:Eb; breflect; [|split; [done|split; [done|apply rf_keeps]]].
  pose proof R as [R1 R2 R3 R4 R5 R6]. specialize (R2 _ _ Hi). simpl. split; [|split; [done|]].
  - apply (rf_ok_new w); simpl; [done|lia|lia|lia| |done]. intros sb d k y Hy. specialize (R4 _ _ _ _ Hy). lia.
  - rewrite (proj2 (Z.eqb_neq _ 0)) by lia. simpl. split; [apply (made_new w _ (rf_inode (w_fs w) (i_sb i) x)); [apply rf_fresh; [done|lia]|done]|].
    rewrite lookup_insert_eq. eexists. split; [done|]. by rewrite Et.
Qed.

Lemma rf_make_ok w p i n mode : rf_ok w -> w_inodes w !! p = Some i -> makes (rf_make p n mode) i n w rf_ok.
Proof.
  intros R Hi. unfold makes, wp, rf_make. rewrite Hi. destruct (rf_tree (w_fs w) !! _) as [x|] eqn:Et.
  { split; [done|]. split; [apply rf_keeps|done]. }
  destruct (_ <? RF_MAX) eqn:Eb; breflect; [|split; [done|split; [apply rf_keeps|done]]].
  pose proof R as [R1 R2 R3 R4 R5 R6]. specialize (R2 _ _ Hi). simpl. split.
  - apply (rf_ok_new w); simpl; [done|lia|lia|lia| |].
    + intros sb d k y [[[= <- <- <-] <-]|[_ Hy]]%lookup_insert_Some; [lia|]. specialize (R4 _ _ _ _ Hy). lia.
    + intros sb d1 n1 d2 n2 x [[E1 E1']|[_ H1]]%lookup_insert_Some [[E2 E2']|[_ H2]]%lookup_insert_Some; simplify_eq; [done|..].
      * specialize (R4 _ _ _ _ H2). lia.
      * specialize (R4 _ _ _ _ H1). lia.
      * by eapply R5.
  - rewrite (proj2 (Z.eqb_neq _ 0)) by lia. simpl. split; [apply (made_new w _ (rf_inode _ (i_sb i) _)); [apply rf_fresh; [done|lia]|done]|].
    split; [done|]. rewrite lookup_insert_eq. eexists. split; [done|]. intros _ sb d k. simpl. case_decide as E.
    + destruct E as (-> & -> & ->). by rewrite lookup_insert_eq.
    + rewrite lookup_insert_ne; [done|]. intros [= <- <- <-]. tauto.
Qed.

Lemma rf_remove_ok w p i n : rf_ok w -> w_inodes w !! p = Some i -> removes (rf_remove p n) i n w rf_ok.
Proof.
  intros R Hi. unfold removes, wp, rf_remove. rewrite Hi. destruct (rf_tree (w_fs w) !! _) as [x|] eqn:Et.
  2:{ split; [done|]. split; [apply rf_keeps|done]. }
  case_bool_decide as Hc; [|split; [done|split; [apply rf_keeps|done]]]. pose proof R as [R1 R2 R3 R4 R5 R6]. split; [|split; [apply keeps_fs|]].
  - split; simpl; [done|done|done| |..].
    + intros sb d k y [_ Hy]%lookup_delete_Some. by eapply R4.
    + intros sb d1 n1 d2 n2 y [_ H1]%lookup_delete_Some [_ H2]%lookup_delete_Some. by eapply R5.
    + done.
  - intros _. exists x. split; [done|]. split.
    + intros k. simpl. destruct (rf_tree (w_fs w) !! (i_sb i, x, k)) as [y|] eqn:Ey; [|done]. destruct (Hc _ _ Ey). done.
    + intros _ sb d k. simpl. case_decide as E.
      * destruct E as (-> & -> & ->). by rewrite lookup_delete_eq.
      * rewrite lookup_delete_ne; [done|]. intros [= <- <- <-]. tauto.
Qed.

Lemma rf_ok_drop w p : rf_ok w -> rf_ok (mkW (delete p (w_inodes w)) (w_sbs w) (w_fs w)).
Proof.
  intros [R1 R2 R3 R4 R5 R6]. split; simpl; try done.
  - intros q i [_ Hi]%lookup_delete_Some. by eapply R2.
  - intros sb b i Hb [_ Hi]%lookup_delete_Some. by eapply R6.
Qed.

Definition super_made (sb : Z) w w' : Prop :=
  w_sbs w !! sb = None /\ (forall p i, w_inodes w !! p = Some i -> i_sb i <> sb) /\
  (fs_exact -> forall sb' d k, sb' <> sb -> fs_entry (w_fs w') sb' d k = fs_entry (w_fs w) sb' d k) /\
  exists b i, w_sbs w' = <[sb := b]> (w_sbs w) /\ w_inodes w !! sb_root b = None /\
    w_inodes w' = <[sb_root b := i]> (w_inodes w) /\ i_refcount i = 1 /\ i_sb i = sb.
Lemma rf_super_ok w fs dev : rf_ok w -> wp (rf_get_super fs dev) (fun r w' => rf_ok w' /\
  if (r.1 <? 0) || (r.2 =? 0) then keeps w w' /\ same_tree w w' else super_made r.2 w w') w.
Proof.
  intros R. unfold wp, rf_get_super. destruct (_ <? RF_MAX) eqn:Eb; breflect; [|split; [done|split; [apply rf_keeps|done]]].
  pose proof R as [R1 R2 R3 R4 R5 R6]. simpl. split.
  - split; simpl; [lia|..|done|].
    + intros p i [[<- <-]|[_ Hi]]%lookup_insert_Some; [simpl; lia|]. specialize (R2 _ _ Hi). lia.
    + intros sb b [[<- <-]|[_ Hb]]%lookup_insert_Some; [simpl; lia|]. specialize (R3 _ _ Hb). lia.
    + intros sb d n x Hx. specialize (R4 _ _ _ _ Hx). lia.
    + intros sb b i [[<- <-]|[_ Hb]]%lookup_insert_Some; simpl.
      * rewrite lookup_insert_eq. by intros [= <-].
      * rewrite lookup_insert_ne; [by eapply R6|]. specialize (R3 _ _ Hb). lia.
  - rewrite (proj2 (Z.eqb_neq _ 0)) by lia. split; [|split; [|split; [done|]]].
    + destruct (w_sbs w !! _) eqn:E; [|done]. specialize (R3 _ _ E). lia.
    + intros p i Hi E. specialize (R2 _ _ Hi). lia.
    + eexists _, _. split; [done|]. split; [apply rf_fresh; [done|simpl; lia]|done].
Qed.
Lemma rf_ok_kill w sb : rf_ok w -> rf_ok (mkW (w_inodes w) (delete sb (w_sbs w)) (w_fs w)).
Proof.
  intros [R1 R2 R3 R4 R5 R6]. split; simpl; try done.
  - intros q b [_ Hb]%lookup_delete_Some. by eapply R3.
  - intros q b i [_ Hb]%lookup_delete_Some. by eapply R6.
Qed.

#[export] Program Instance ramfs_laws : FsLaws ramfs := {| fs_ok := rf_ok |}.
Next Obligation.
  intros w R. pose proof R as [R1 R2 R3 _ _ _]. split; [|split].
  - destruct (w_inodes w !! 0) eqn:E; [|done]. specialize (R2 _ _ E). lia.
  - destruct (w_inodes w !! VFS_ROOT_PARENT_SPECIAL) eqn:E; [|done]. specialize (R2 _ _ E). unfold RF_MAX, VFS_ROOT_PARENT_SPECIAL in *. lia.
  - destruct (w_sbs w !! 0) eqn:E; [|done]. specialize (R3 _ _ E). lia.
Qed.
Next Obligation.
  intros w R. pose proof R as [R1 R2 R3 _ _ _]. unfold RF_MAX in *.
  pose proof (few_keys (w_inodes w) (rf_next (w_fs w)) ltac:(lia)) as H1. pose proof (few_keys (w_sbs w) (rf_next (w_fs w)) ltac:(lia)) as H2.
  split; [etrans; [apply H1|lia]|etrans; [apply H2|lia]]; intros p x Hx; [specialize (R2 _ _ Hx)|specialize (R3 _ _ Hx)]; lia.
Qed.
Next Obligation. intros _ w sb d1 n1 d2 n2 x R. apply (ro_uniq _ R). Qed.
Next Obligation.
  intros _ w sb b i d n R Hb Hi E. rewrite (ro_root _ R _ _ _ Hb Hi) in E. apply (ro_tree _ R) in E. unfold ROOT_INO in E. lia.
Qed.
Next Obligation.
  intros w w' R (Ef & Es & Hi). pose proof R as [R1 R2 R3 R4 R5 R6]. split; rewrite ?Ef, ?Es; try done.
  - intros p j Hj. specialize (Hi p). rewrite Hj in Hi. destruct (w_inodes w !! p) as [i|] eqn:E; [|done].
    destruct Hi as (-> & _). by eapply R2.
  - intros sb b j Hb Hj. specialize (Hi (sb_root b)). rewrite Hj in Hi. destruct (w_inodes w !! _) as [i|] eqn:E; [|done].
    destruct Hi as (_ & -> & _). by eapply R6.
Qed.
Next Obligation. intros w p i n R Hi _. by apply rf_lookup_ok. Qed.
Next Obligation. intros w p i n mode R Hi _. by apply rf_make_ok. Qed.
Next Obligation. intros w p i n mode R Hi _. by apply rf_make_ok. Qed.
Next Obligation. intros w p i n R Hi _. by apply rf_remove_ok. Qed.
Next Obligation. intros w p i n R Hi _. by apply rf_remove_ok. Qed.
Next Obligation. intros. by apply harmless_ret. Qed.
Next Obligation. intros. by apply harmless_ret. Qed.
Next Obligation. intros. by apply harmless_ret. Qed.
Next Obligation. intros. by apply harmless_ret. Qed.
Next Obligation. intros. by apply harmless_ret. Qed.
Next Obligation. intros. by apply harmless_ret. Qed.
Next Obligation. intros. by apply harmless_ret. Qed.
Next Obligation. intros w p i R Hi. unfold wp. simpl. split; [by apply rf_ok_drop|done]. Qed.
Next Obligation. intros w p R. by apply rf_ok_drop. Qed.
Next Obligation. intros w fs dev R. by apply rf_super_ok. Qed.
Next Obligation. intros w sb b R Hb. unfold wp. simpl. split; [by apply rf_ok_kill|done]. Qed.

(** ** A device driver, a process memory and the tables *)
#[export] Instance null_driver : CharDriver unit := {|
  cops_has := fun _ _ => true;
  cd_open := fun _ _ => mret 0;
  cd_read := fun _ _ => mret (0, []);
  cd_write := fun _ buf => mret (0, strlen buf);
  cd_close := fun _ => mret 0 |}.
#[export] Program Instance null_laws : CharLaws unit.
Next Obligation. intros. by apply wp_ret. Qed.
Next Obligation. intros. by apply wp_ret. Qed.
Next Obligation. intros. by apply wp_ret. Qed.
Next Obligation. intros. by apply wp_ret. Qed.

(** the strings in a process's memory, by address *)
Abbreviation strings := (gmap Z (list Z)).
#[export] Instance string_memory : UserMem strings := {|
  um_out := fun a x u => Ok (0, match x with UBytes l => <[a := l]> u | _ => u end);
  um_in := fun a n u => Ok ((0, take (Z.to_nat n) (default [] (u !! a))), u);
  um_str := fun a n u => Ok (match u !! a with Some l => (strlen l, l) | None => (-1, []) end, u) |}.
#[export] Instance string_laws : UserLaws strings.
Proof. by split. Qed.

Abbreviation table := (hash_table * counter)%type.
Abbreviation DS := (vfs_state ramfs unit table table counter).
Abbreviation DK := (kstate ramfs unit table table counter strings counter).

Definition new_table (c : M counter (option hash_table)) : option table :=
  match c (mkCounter 1 ∅) with Ok (Some t, h) => Some (t, h) | _ => None end.
Definition start_world : world ramfs := mkW ∅ ∅ (mkRam ∅ ∅ 2).
Definition new_task (uid : Z) : task := mkTask 0 [] (replicate (Z.to_nat NOFILE) 0) (mkCred uid uid [7; 8] 2).

(** the first process runs, a second one is free; the file system "ram" is
    registered and nothing is mounted *)
Definition booted : option DS :=
  match new_table vfs_inode_cache_init, new_table init_char_dev with
  | Some ic, Some cd =>
    Some (mkV (mkCounter 1 ∅) start_world ic cd ∅ tt [mkFs (cstr "ram") 1] None ∅ [new_task 0; new_task 0] (Some 0%nat) [])
  | _, _ => None
  end.
Definition DIR_D : Z := 100.
Definition FILE_D_F : Z := 200.
Definition DIR_MNT : Z := 300.
Definition user_strings : strings := {[ DIR_D := cstr "/d"; FILE_D_F := cstr "/d/./f"; DIR_MNT := cstr "/mnt" ]}.
Definition start : option DK := (fun s => mkK s user_strings (mkCounter 1 ∅)) <$> booted.

(** ** Runs *)

(** [allowed], decided *)
Definition may (k : DK) (c : kcall) : bool :=
  let tasks := v_tasks (k_vfs k) in
  match c with
  | KSys a7 _ _ _ => file_call (s32 a7)
  | KFork p c =>
    match tasks !! p, tasks !! c with
    | Some _, Some tc => negb (p =? c)%nat && (t_cwd tc =? 0) && bool_decide (t_ofile tc = replicate (Z.to_nat NOFILE) 0)
    | _, _ => false
    end
  | KExit n | KSwitch n => match tasks !! n with Some _ => true | None => false end
  | KMount _ target _ => strlen target <? VFS_MAX_PATH_LEN
  | KUmount _ => (length (kt_values (v_icache (k_vfs k))) <=? 1024)%nat
  | _ => true
  end.
Fixpoint play (cs : list kcall) (k : DK) : option DK :=
  match cs with
  | [] => Some k
  | c :: cs => if may k c then match run_call c k with Ok (_, k') => play cs k' | _ => None end else None
  end.

Lemma pending_few (k : DK) m sb : kt_rep (v_icache (k_vfs k)) m ->
  (length (pending m (v_world (k_vfs k)) sb) <= length (kt_values (v_icache (k_vfs k))))%nat.
Proof. intros R. rewrite (kt_values_ok _ _ R). apply length_filter. Qed.
Lemma may_allowed k c : may k c = true -> allowed k c.
Proof.
  destruct c; simpl; try done.
  - destruct (_ !! p) as [tp|] eqn:Ep; [|done]. destruct (_ !! c) as [tc|] eqn:Ec; [|done]. intros H. exists tp, tc.
    do 2 (split; [done|]). apply andb_true_iff in H as [[H1 H2]%andb_true_iff H3%bool_decide_eq_true].
    apply negb_true_iff, Nat.eqb_neq in H1. breflect. done.
  - destruct (_ !! n); [by eexists|done].
  - by intros ?%Z.ltb_lt.
  - intros H%Nat.leb_le m t x R _ _. etrans; [by apply pending_few|exact H].
  - destruct (_ !! n); [by eexists|done].
Qed.
Lemma play_reach k0 cs : forall k k', kreach k0 k -> play cs k = Some k' -> kreach k0 k'.
Proof.
  induction cs as [|c cs IH]; intros k k' Hk; simpl; [by intros [= <-]|]. destruct (may k c) eqn:Em; [|done].
  destruct (run_call c k) as [[r k1]| | |] eqn:E; [|done..]. apply IH. eapply kr_step; [done|by apply may_allowed|done].
Qed.

Lemma new_table_ok (c : M counter (option hash_table)) t (R : table -> Prop) :
  wp c (fun o h' => match o with Some t => R (t, h') | None => heap_inv h' ∅ end) (mkCounter 1 ∅) -> new_table c = Some t -> R t.
Proof.
  unfold new_table, wp. destruct (c _) as [[[x|] h]| | |]; [|done..]. by intros W [= <-].
Qed.
Lemma counter_start : counter_inv (mkCounter 1 ∅) ∅.
Proof. split; [done|]. set_solver. Qed.
Lemma start_rf_ok : rf_ok start_world.
Proof. split; simpl; [unfold RF_MAX; lia|by intros..]. Qed.

Lemma start_good k0 : start = Some k0 -> kinv ∅ k0.
Proof.
  unfold start, booted. destruct (new_table vfs_inode_cache_init) as [ic|] eqn:Ei; [|done].
  destruct (new_table init_char_dev) as [cd|] eqn:Ed; [|done]. intros [= <-]. exists 0%nat.
  assert (kt_rep ic (∅ : gmap ikey Z)) as Hi.
  { revert Ei. apply (new_table_ok _ ic (fun t => kt_rep t (∅ : gmap ikey Z))). apply inode_cache_init_ok, counter_start. }
  assert (kt_rep cd (∅ : gmap (list Z) Z)) as Hd.
  { revert Ed. apply (new_table_ok _ cd (fun t => kt_rep t (∅ : gmap (list Z) Z))). apply char_dev_init_ok, counter_start. }
  split; [exists ∅; split|].
  - split; simpl; [apply start_rf_ok|done|..].
    + intros p. rewrite lookup_empty. vm_compute. by intros ?%elem_of_nil.
    + done.
    + intros p. rewrite lookup_empty. vm_compute. by intros ?%elem_of_nil.
    + done.
    + by vm_compute.
    + repeat constructor.
    + simpl. intros n [= <-]. lia.
    + by exists ∅.
    + apply counter_start.
    + split; [set_solver|split; set_solver].
    + set_solver.
    + simpl. split; [constructor|split; [constructor|set_solver]].
    + done.
  - by split.
  - split; [done|]. split; [done|apply counter_start].
Qed.

Definition session (cs : list kcall) : option DK := match start with Some k => play cs k | None => None end.

(** a state after calls, with a fact about it *)
Lemma session_reach cs k : session cs = Some k -> exists k0, kinv ∅ k0 /\ kreach k0 k.
Proof.
  unfold session. destruct start as [k0|] eqn:E; [|done]. intros Hp. exists k0.
  split; [by apply start_good|]. eapply play_reach; [apply kr_start|done].
Qed.
Lemma session_with cs (P : DK -> Prop) `{!forall k, Decision (P k)} :
  match session cs with Some k => bool_decide (P k) | None => false end = true ->
  exists k m, session cs = Some k /\ P k /\ vgood m (k_vfs k).
Proof.
  destruct (session cs) as [k|] eqn:E; [|done]. intros HP%bool_decide_eq_true.
  destruct (session_reach cs k E) as (k0 & H0 & HR). destruct (reach_good ∅ k0 k H0 HR) as (n & (m & I & HT) & Hh & _).
  by exists k, m.
Qed.

(** two directories, a file that two processes have open, and a second mount *)
Definition mounted : list kcall := [KMount 0 (cstr "/") (cstr "ram"); KSys 11 DIR_D 0 0; KSys 11 DIR_MNT 0 0].
Definition with_file : list kcall := mounted ++ [KSys 12 FILE_D_F (Z.lor O_CREAT O_RDWR) 0; KSys 10 DIR_D 0 0].
Definition with_mnt : list kcall := with_file ++ [KMount 0 (cstr "/mnt") (cstr "ram"); KSys 12 DIR_MNT 0 0; KSys 13 1 0 0].

(** ** The theorems at these states *)
Definition alice : credentials := mkCred 5 6 [7; 8] 2.
Lemma vfs_permission_equiv_witness : (c_ngroups alice <= length (c_groups alice))%nat /\
  vfs_permission (mkInode 1 2 0x1E8 0 8 0 1 1 1 0 []) alice (Z.lor MAY_READ MAY_EXEC) = 0 /\
  vfs_permission (mkInode 1 2 0x1E8 0 8 0 1 1 1 0 []) alice MAY_WRITE = -1.
Proof. split; [simpl; lia|]. split; (rewrite vfs_permission_equiv; [vm_compute; reflexivity|simpl; lia]). Defined.

Lemma vfs_lookup_refines_witness : exists (k : DK) m, session with_file = Some k /\ vgood m (k_vfs k) /\
  exists p s', vfs_lookup (cstr "f") (k_vfs k) = Ok (Some p, s') /\
    exists m', vinv ∅ [p] [] m' s' /\ TI m' (v_world s') /\ same_tree (v_world (k_vfs k)) (v_world s').
Proof.
  destruct (session_with with_file (fun k => match vfs_lookup (cstr "f") (k_vfs k) with Ok (Some _, _) => true | _ => false end = true))
    as (k & m & Hk & Hp & G); [vm_compute; reflexivity|].
  exists k, m. split; [done|]. split; [done|]. pose proof (vfs_lookup_refines m (k_vfs k) (cstr "f") Logic.I G) as W.
  destruct (vfs_lookup (cstr "f") (k_vfs k)) as [[[p|] s']| | |] eqn:E; [|done..]. exists p, s'. split; [done|].
  apply (wp_ok _ _ _ _ _ W) in E as (m' & _ & _ & Ht & _ & I & HT & _). exists m'. exact (conj I (conj HT Ht)).
Defined.

(** process 0 runs, in state [t] *)
Definition runs0 (k : DK) : bool :=
  match v_cur (k_vfs k), v_tasks (k_vfs k) !! 0%nat with Some O, Some _ => true | _, _ => false end.
Lemma runs0_task k : runs0 k = true -> exists t, v_cur (k_vfs k) = Some 0%nat /\ v_tasks (k_vfs k) !! 0%nat = Some t.
Proof. unfold runs0. destruct (v_cur _) as [[|]|]; [|done..]. destruct (_ !! _) as [t|]; [|done]. by exists t. Qed.
(** a call that returns [r] *)
Definition gives {A} `{EqDecision A} (c : M DS A) (r : A) (k : DK) : bool :=
  match c (k_vfs k) with Ok (a, _) => bool_decide (a = r) | _ => false end.
Lemma gives_ok {A} `{EqDecision A} (c : M DS A) r k : gives c r k = true -> exists s', c (k_vfs k) = Ok (r, s').
Proof. unfold gives. destruct (c _) as [[a s']| | |]; [|done..]. intros ->%bool_decide_eq_true. by exists s'. Qed.

Lemma vfs_create_functional_witness : exists (k : DK) m, session mounted = Some k /\ vgood m (k_vfs k) /\
  is_Some (cur_task (k_vfs k)) /\ exists q s', vfs_create (cstr "/d/new") 0x1A4 (k_vfs k) = Ok (Some q, s') /\
    exists m', vinv ∅ [q] [] m' s' /\ new_file m (k_vfs k) m' s' (cstr "/d/new") 0x1A4 q.
Proof.
  destruct (session_with mounted (fun k => match cur_task (k_vfs k), vfs_create (cstr "/d/new") 0x1A4 (k_vfs k) with
    Some _, Ok (Some _, _) => true | _, _ => false end = true)) as (k & m & Hk & Hp & G); [vm_compute; reflexivity|].
  destruct (cur_task (k_vfs k)) as [t|] eqn:Et; [|discriminate].
  exists k, m. do 2 (split; [assumption|]). split; [exists t; exact Et|].
  pose proof (vfs_create_functional m (k_vfs k) (cstr "/d/new") 0x1A4 G (ex_intro _ t Et)) as W.
  destruct (vfs_create _ _ (k_vfs k)) as [[[q|] s']| | |] eqn:E; [|discriminate..]. exists q, s'. split; [reflexivity|].
  apply (wp_ok _ _ _ _ _ W) in E as (m' & _ & _ & _ & I & HN). exists m'. exact (conj I HN).
Defined.

Lemma vfs_remove_functional_witness : exists (k : DK) m, session with_file = Some k /\ vgood m (k_vfs k) /\
  is_Some (cur_task (k_vfs k)) /\ exists s', vfs_unlink (cstr "/d/f") (k_vfs k) = Ok (0, s') /\
    exists m' m1 s1 l n p, vgood m' s' /\ norm_path (k_vfs k) (cstr "/d/f") = Some (render (l ++ [n])) /\
      found m1 s1 (render l) p /\ removed m1 s1 m' s' false p n.
Proof.
  destruct (session_with with_file (fun k => match cur_task (k_vfs k), vfs_unlink (cstr "/d/f") (k_vfs k) with
    Some _, Ok (0, _) => true | _, _ => false end = true)) as (k & m & Hk & Hp & G); [vm_compute; reflexivity|].
  destruct (cur_task (k_vfs k)) as [t|] eqn:Et; [|discriminate].
  exists k, m. do 2 (split; [assumption|]). split; [exists t; exact Et|].
  pose proof (vfs_remove_functional m (k_vfs k) (cstr "/d/f") false G (ex_intro _ t Et)) as W. cbv iota in W.
  destruct (vfs_unlink _ (k_vfs k)) as [[[| |] s']| | |] eqn:E; [|discriminate..]. exists s'. split; [reflexivity|].
  apply (wp_ok _ _ _ _ _ W) in E as (m' & G' & [(Er & _)|(_ & m1 & s1 & l & n & p & pi & _ & Hn & Hf & _ & _ & _ & HR)]); [discriminate|].
  exists m', m1, s1, l, n, p. exact (conj G' (conj Hn (conj Hf HR))).
Defined.

Lemma vfs_open_functional_witness : exists (k : DK) m t, session with_file = Some k /\ vgood m (k_vfs k) /\
  v_tasks (k_vfs k) !! 0%nat = Some t /\ exists s', vfs_open (cstr "/d/f") O_RDONLY (k_vfs k) = Ok (1, s') /\
    open_post ∅ [] [] m (k_vfs k) 0 t (cstr "/d/f") O_RDONLY 1 s'.
Proof.
  destruct (session_with with_file (fun k => runs0 k && gives (vfs_open (cstr "/d/f") O_RDONLY) 1 k = true))
    as (k & m & Hk & [Hr Hg]%andb_true_iff & G); [vm_compute; reflexivity|].
  destruct (runs0_task k Hr) as (t & Hc & Ht). destruct (gives_ok _ _ _ Hg) as [s' E]. exists k, m, t. do 3 (split; [assumption|]).
  exists s'. split; [exact E|]. exact (wp_ok _ _ _ _ _ (vfs_open_functional m (k_vfs k) 0 t (cstr "/d/f") O_RDONLY G Hc Ht) E).
Defined.

Lemma vfs_dup_functional_witness : exists (k : DK) m t, session with_file = Some k /\ vgood m (k_vfs k) /\
  v_tasks (k_vfs k) !! 0%nat = Some t /\ exists s', vfs_dup 0 (k_vfs k) = Ok (1, s') /\ first_free 0 (t_ofile t) = Some 1%nat /\
    fd_post ∅ [] [] m (k_vfs k) (set_table 0 1 (ofile t 0) (fd_tables (k_vfs k))) s'.
Proof.
  destruct (session_with with_file (fun k => runs0 k && gives (vfs_dup 0) 1 k = true))
    as (k & m & Hk & [Hr Hg]%andb_true_iff & G); [vm_compute; reflexivity|].
  destruct (runs0_task k Hr) as (t & Hc & Ht). destruct (gives_ok _ _ _ Hg) as [s' E]. exists k, m, t. do 3 (split; [assumption|]).
  exists s'. split; [exact E|].
  destruct (wp_ok _ _ _ _ _ (vfs_dup_functional m (k_vfs k) 0 t 0 G Hc Ht) E) as [(Er & _)|(i & Er & _ & _ & Hf & HP)]; [discriminate|].
  assert (i = 1%nat) as -> by lia. exact (conj Hf HP).
Defined.

Lemma fd_close_functional_witness : exists (k : DK) m t, session with_file = Some k /\ vgood m (k_vfs k) /\
  v_tasks (k_vfs k) !! 0%nat = Some t /\ exists s', fd_close 0 (k_vfs k) = Ok (0, s') /\
    fd_post ∅ [] [] m (k_vfs k) (set_table 0 0 0 (fd_tables (k_vfs k))) s'.
Proof.
  destruct (session_with with_file (fun k => runs0 k && gives (fd_close 0) 0 k = true))
    as (k & m & Hk & [Hr Hg]%andb_true_iff & G); [vm_compute; reflexivity|].
  destruct (runs0_task k Hr) as (t & Hc & Ht). destruct (gives_ok _ _ _ Hg) as [s' E]. exists k, m, t. do 3 (split; [assumption|]).
  exists s'. split; [exact E|]. pose proof (wp_ok _ _ _ _ _ (fd_close_functional m (k_vfs k) 0 t 0 G Hc Ht) E) as HP. cbv beta in HP.
  destruct (fd_ok 0 && _); [exact (proj2 HP)|discriminate (proj1 HP)].
Defined.

Lemma fork_exit_references_witness : exists (k : DK) m tp tc, session with_file = Some k /\ vgood m (k_vfs k) /\
  v_tasks (k_vfs k) !! 0%nat = Some tp /\ v_tasks (k_vfs k) !! 1%nat = Some tc /\ ofile tp 0 <> 0 /\
  wp (fork_fs 0 1) (fun _ => proc_post ∅ [] [] m (k_vfs k) 1 (mkTask (t_cwd tp) (t_cwd_path tp) (t_ofile tp) (t_cred tc))) (k_vfs k).
Proof.
  destruct (session_with with_file (fun k => match v_tasks (k_vfs k) !! 0%nat, v_tasks (k_vfs k) !! 1%nat with
    | Some tp, Some tc => negb (ofile tp 0 =? 0) && (t_cwd tc =? 0) && bool_decide (t_ofile tc = replicate (Z.to_nat NOFILE) 0)
    | _, _ => false end = true)) as (k & m & Hk & Hp & G); [vm_compute; reflexivity|].
  destruct (v_tasks (k_vfs k) !! 0%nat) as [tp|] eqn:E0; [|discriminate].
  destruct (v_tasks (k_vfs k) !! 1%nat) as [tc|] eqn:E1; [|discriminate].
  apply andb_true_iff in Hp as [[H1%negb_true_iff%Z.eqb_neq H2%Z.eqb_eq]%andb_true_iff H3%bool_decide_eq_true].
  exists k, m, tp, tc. do 5 (split; [assumption|]).
  exact (proj1 (fork_exit_references m (k_vfs k) 0 1 tp tc G E0 E1 (Nat.neq_0_succ 0) H2 H3)).
Defined.

Lemma vfs_mount_functional_witness : exists (k : DK) m, session with_file = Some k /\ vgood m (k_vfs k) /\
  strlen (cstr "/mnt") < VFS_MAX_PATH_LEN /\ exists s', vfs_mount 0 (cstr "/mnt") (cstr "ram") (k_vfs k) = Ok (0, s') /\
    mount_post ∅ [] [] m (k_vfs k) (cstr "/mnt") 0 s'.
Proof.
  destruct (session_with with_file (fun k => gives (vfs_mount 0 (cstr "/mnt") (cstr "ram")) 0 k = true))
    as (k & m & Hk & Hg & G); [vm_compute; reflexivity|].
  destruct (gives_ok _ _ _ Hg) as [s' E]. exists k, m. do 2 (split; [assumption|]). split; [vm_compute; reflexivity|].
  exists s'. split; [exact E|].
  exact (wp_ok _ _ _ _ _ (vfs_mount_functional m (k_vfs k) 0 (cstr "/mnt") (cstr "ram") G ltac:(vm_compute; reflexivity)) E).
Defined.

Lemma vfs_umount_functional_witness : exists (k : DK) m, session with_mnt = Some k /\ vgood m (k_vfs k) /\
  exists s', vfs_umount (cstr "/mnt") (k_vfs k) = Ok (0, s') /\ umount_post ∅ [] [] m (k_vfs k) (cstr "/mnt") 0 s'.
Proof.
  destruct (session_with with_mnt (fun k => gives (vfs_umount (cstr "/mnt")) 0 k &&
    (length (kt_values (v_icache (k_vfs k))) <=? 1024)%nat = true)) as (k & m & Hk & [Hg Hl%Nat.leb_le]%andb_true_iff & G); [vm_compute; reflexivity|].
  destruct (gives_ok _ _ _ Hg) as [s' E]. exists k, m. do 2 (split; [assumption|]). exists s'. split; [exact E|].
  refine (wp_ok _ _ _ _ _ (vfs_umount_functional m (k_vfs k) (cstr "/mnt") G _) E).
  intros t x _ _. exact (Nat.le_trans _ _ _ (pending_few k m (m_sb x) (vi_cache _ _ _ _ _ (proj1 G))) Hl).
Defined.

Lemma calls_safe_witness : exists k0 k : DK, start = Some k0 /\ kreach k0 k /\ k <> k0 /\
  allowed k (KUmount (cstr "/mnt")) /\ wp (run_call (KUmount (cstr "/mnt"))) (fun _ k' => kinv ∅ k') k.
Proof.
  destruct (session_with with_mnt (fun k => may k (KUmount (cstr "/mnt")) && negb (bool_decide (v_files (k_vfs k) = ∅)) = true))
    as (k & m & Hk & [Hm Hd%negb_true_iff%bool_decide_eq_false]%andb_true_iff & G); [vm_compute; reflexivity|].
  pose proof (may_allowed _ _ Hm) as Ha. unfold session in Hk. destruct start as [k0|] eqn:E; [|discriminate].
  pose proof (play_reach k0 with_mnt k0 k (kr_start k0) Hk) as HR. exists k0, k. split; [reflexivity|]. split; [exact HR|]. split; [|split; [exact Ha|]].
  - intros ->. apply Hd. revert E. unfold start, booted. destruct (new_table vfs_inode_cache_init); [|discriminate].
    destruct (new_table init_char_dev); [|discriminate]. intros [= <-]. reflexivity.
  - exact (calls_safe ∅ k0 k (KUmount (cstr "/mnt")) (start_good k0 E) HR Ha).
Defined.

(** after the fork two processes share the file *)
Lemma descriptors_wf_witness : exists k0 k : DK, kinv ∅ k0 /\ kreach k0 k /\
  match v_tasks (k_vfs k) with [tp; tc] => ofile tp 0 = ofile tc 0 /\ ofile tp 0 <> 0 | _ => False end /\
  Forall (fun t => length (t_ofile t) = Z.to_nat NOFILE) (v_tasks (k_vfs k)).
Proof.
  destruct (session_with (with_mnt ++ [KFork 0 1]) (fun k => match v_tasks (k_vfs k) with
    | [tp; tc] => (ofile tp 0 =? ofile tc 0) && negb (ofile tp 0 =? 0) | _ => false end = true)) as (k & m & Hk & Hp & G); [vm_compute; reflexivity|].
  destruct (session_reach _ k Hk) as (k0 & H0 & HR). exists k0, k. do 2 (split; [assumption|]).
  split; [|exact (proj1 (descriptors_wf ∅ k0 k H0 HR))].
  destruct (v_tasks (k_vfs k)) as [|tp [|tc [|]]]; [discriminate|discriminate| |discriminate].
  apply andb_true_iff in Hp as [H1%Z.eqb_eq H2%negb_true_iff%Z.eqb_neq]. exact (conj H1 H2).
Defined.

Lemma syscall_checks_late_witness : NSYSCALLS <= s32 18 /\
  forall k : DK, syscall (fun _ => mret 0) 18 0 0 0 k = Fault.
Proof. split; [vm_compute; discriminate|]. intros k. apply syscall_checks_late. vm_compute; discriminate. Defined.

(** the cache holds three inodes below the root *)
Lemma one_inode_per_file_witness : exists k0 k : DK, kinv ∅ k0 /\ kreach k0 k /\
  length (kt_values (v_icache (k_vfs k))) = 4%nat /\
  exists m, kt_rep (v_icache (k_vfs k)) m /\ forall p1 p2 i, attached m (v_world (k_vfs k)) p1 -> attached m (v_world (k_vfs k)) p2 ->
    w_inodes (v_world (k_vfs k)) !! p1 = Some i -> w_inodes (v_world (k_vfs k)) !! p2 = Some i -> p1 = p2.
Proof.
  destruct (session_with with_file (fun k => (length (kt_values (v_icache (k_vfs k))) =? 4)%nat = true)) as (k & m & Hk & Hp%Nat.eqb_eq & G);
    [vm_compute; reflexivity|].
  destruct (session_reach _ k Hk) as (k0 & H0 & HR). exists k0, k. do 3 (split; [assumption|]).
  destruct (one_inode_per_file ∅ k0 k (Logic.I : @fs_exact ramfs ramfs_view) H0 HR) as (m' & Hm & Hu). exists m'. split; [exact Hm|].
  intros p1 p2 i H1 H2 H3 H4. exact (Hu p1 p2 i i H1 H2 H3 H4 eq_refl eq_refl).
Defined.
