(* ===== verification/Fat.v ===== *)
(** FAT32 (fs/fat32.c), first part: sectors, the allocation table, cluster
    chains, time stamps, 8.3 names and directory entries.

    The driver transfers 512-byte sectors ([BlockDev]) and buffers come from
    the slab allocator ([Heap]).  A directory entry ([struct fat32_dirent32])
    stays a list of 32 bytes with the offsets of the packed struct.  Functions
    that return -1 and leave their output alone return [None].  [uint32_t]
    arithmetic is wrapped where the C expression may wrap. *)
From stdpp Require Import base gmap list.
From Stdlib Require Import ZArith Lia.
From S2P Require Import Prelude Bytes HashMap BlockDev.
Open Scope Z_scope.

Definition FAT32_SECTOR_SIZE : Z := 512.
Definition FAT32_DIRENT_SIZE : Z := 32.
Definition FAT32_EOF_MARK : Z := 0x0FFFFFF8.
Definition FAT32_EOF_MASK : Z := 0x0FFFFFF8.
Definition FAT32_FREE_MARK : Z := 0.
Definition FAT32_BAD_MARK : Z := 0x0FFFFFF7.
Definition FAT32_ATTR_READ_ONLY : Z := 0x01.
Definition FAT32_ATTR_VOLUME_ID : Z := 0x08.
Definition FAT32_ATTR_DIRECTORY : Z := 0x10.
Definition FAT32_ATTR_ARCHIVE : Z := 0x20.
Definition FAT32_ATTR_LONG_NAME : Z := 0x0F.

(** [struct fat32_fs_priv], without the device *)
Record fat32_fs_priv := mkFatPriv {
  bytes_per_sector : Z; sectors_per_cluster : Z; reserved_sectors : Z; num_fats : Z;
  fat_sectors : Z; total_sectors : Z; fat_start : Z; data_start : Z; root_cluster : Z; cluster_count : Z }.

Record fat32_inode_priv := mkFatInodePriv {
  first_cluster : Z; attr : Z; dir_cluster : Z; dirent_off : Z; is_root : bool }.
Definition set_first (c : Z) (p : fat32_inode_priv) : fat32_inode_priv :=
  mkFatInodePriv c (attr p) (dir_cluster p) (dirent_off p) (is_root p).

(** ** Small helpers *)
Implicit Types fs : fat32_fs_priv.
Definition fat32_cluster_bytes fs : Z := u32 (bytes_per_sector fs * sectors_per_cluster fs).
Definition fat32_cluster_to_sector fs (cluster : Z) : Z :=
  u32 (data_start fs + u32 (u32 (cluster - 2) * sectors_per_cluster fs)).
Definition fat32_is_valid_cluster fs (cluster : Z) : bool :=
  (2 <=? cluster) && (cluster <? u32 (cluster_count fs + 2)) && (cluster <? FAT32_EOF_MASK).
Definition fat32_is_chain_end (v : Z) : bool := (FAT32_EOF_MASK <=? v) || (v =? FAT32_BAD_MARK) || (v =? 0).

(** ** Time stamps *)
Record fat32_fat_time := mkFatTime { ft_date : Z; ft_time : Z }.

Definition leap (year : Z) : bool :=
  ((year mod 4 =? 0) && negb (year mod 100 =? 0)) || (year mod 400 =? 0).
Fixpoint year_loop (fuel : nat) (days year : Z) : option (Z * Z) :=
  match fuel with
  | O => None
  | S fuel' =>
      let ydays := if leap year then 366 else 365 in
      if ydays <=? days then year_loop fuel' (days - ydays) (u16 (year + 1)) else Some (days, year)
  end.
(** the loop over [days_in_month], from index [m] on *)
Fixpoint month_loop (year : Z) (mds : list Z) (m : Z) (days month : Z) : Z * Z :=
  match mds with
  | [] => (days, month)
  | md :: mds' =>
      let md := if (m =? 1) && leap year then 29 else md in
      if md <=? days then month_loop year mds' (m + 1) (days - md) (u8 (month + 1)) else (days, month)
  end.
Definition days_in_month : list Z := [31; 28; 31; 30; 31; 30; 31; 31; 30; 31; 30; 31].

(** a [uint32_t] holds less than 137 years *)
Definition year_fuel : nat := 138.
Definition fat32_unix_to_fat (ux_sec : Z) : option fat32_fat_time :=
  let sec := ux_sec mod 60 in
  let min := (ux_sec / 60) mod 60 in
  let hour := (ux_sec / 60 / 60) mod 24 in
  let days := ux_sec / 60 / 60 / 24 in
  match year_loop year_fuel days 1970 with
  | None => None
  | Some (days, year) =>
      let '(days, month) := month_loop year days_in_month 0 days 1 in
      let '(year, month, days) := if year <? 1980 then (1980, 1, 0) else (year, month, days) in
      Some (mkFatTime
        (u16 (Z.lor (Z.lor (Z.shiftl (year - 1980) 9) (Z.shiftl month 5)) (days + 1)))
        (u16 (Z.lor (Z.lor (Z.shiftl hour 11) (Z.shiftl min 5)) (sec / 2))))
  end.

Definition clamp (lo hi x : Z) : Z := if x <? lo then lo else if hi <? x then hi else x.
Definition fat32_fat_to_unix (t : fat32_fat_time) : Z :=
  let year := 1980 + Z.land (Z.shiftr (ft_date t) 9) 0x7F in
  let month := clamp 1 12 (Z.land (Z.shiftr (ft_date t) 5) 0xF) in
  let day := clamp 1 31 (Z.land (ft_date t) 0x1F) in
  let hour := Z.land (Z.shiftr (ft_time t) 11) 0x1F in
  let min := Z.land (Z.shiftr (ft_time t) 5) 0x3F in
  let sec := Z.land (ft_time t) 0x1F * 2 in
  let y := u32 (year - (if month <=? 2 then 1 else 0)) in
  let era := y / 400 in
  let yoe := u32 (y - era * 400) in
  let doy := u32 (u32 (153 * u32 (month + (if 2 <? month then -3 else 9)) + 2) / 5 + day - 1) in
  let doe := u32 (yoe * 365 + yoe / 4 - yoe / 100 + doy) in
  let days := u64 (era * 146097 + doe - 719468) in
  u64 (days * 86400 + u32 (hour * 3600) + u32 (min * 60) + sec).

Definition fat32_now (ticks : Z) : option fat32_fat_time :=
  fat32_unix_to_fat (u32 (u32 (ticks / 100) + 1700000000)).

(** ** Names *)
Definition between (lo hi c : Z) : bool := (lo <=? c) && (c <=? hi).
(** the characters of the string literal in [fat32_char_ok] *)
Definition punct : list Z := [33; 35; 36; 37; 38; 39; 40; 41; 45; 64; 94; 95; 96; 123; 125; 126].
Definition fat32_char_ok (u : Z) : bool :=
  between 65 90 u || between 97 122 u || between 48 57 u || (128 <=? u) || bool_decide (u ∈ punct).

(** the loop over the characters: [dot] is the index of the dot *)
Fixpoint scan_name (name : list Z) (i : nat) (dot : option nat) : option (option nat) :=
  match name with
  | [] => Some dot
  | c :: rest =>
      if c =? 46 then match dot with Some _ => None | None => scan_name rest (S i) (Some i) end
      else if fat32_char_ok c then scan_name rest (S i) dot else None
  end.
Definition to_upper (c : Z) : Z := if between 97 122 c then c - 97 + 65 else c.
Definition to_lower (c : Z) : Z := if between 65 90 c then c - 65 + 97 else c.
Definition pad (n : nat) (l : list Z) : list Z := l ++ replicate (n - length l) 32.

Definition fat32_name_to_dos (name : list Z) : option (list Z) :=
  let len := length name in
  if (len =? 0)%nat || (12 <? len)%nat then None else
  if default 0 (name !! 0%nat) =? 46 then None else
  match scan_name name 0 None with
  | None => None
  | Some dot =>
      let base_len := default len dot in
      let ext_len := match dot with Some d => (len - d - 1)%nat | None => 0%nat end in
      if (base_len =? 0)%nat || (8 <? base_len)%nat then None else
      if match dot with Some _ => (3 <? ext_len)%nat | None => false end then None else
      let base := to_upper <$> take base_len name in
      let ext := match dot with Some d => to_upper <$> take ext_len (drop (S d) name) | None => [] end in
      Some (pad 8 base ++ pad 3 ext)
  end.

(** the characters before the first space *)
Fixpoint until_space (l : list Z) : list Z :=
  match l with [] => [] | c :: l' => if c =? 32 then [] else c :: until_space l' end.
Definition fat32_dos_to_name (raw : list Z) (ntres : Z) : list Z :=
  let base := until_space (take 8 raw) in
  let ext := until_space (take 3 (drop 8 raw)) in
  let low b l := if negb (Z.land ntres b =? 0) then to_lower <$> l else l in
  low 0x08 base ++ match ext with [] => [] | _ => 46 :: low 0x10 ext end.

(** ** Directory entries *)
Definition dir_name (e : list Z) : list Z := slice 0 11 e.
Definition dir_attr (e : list Z) : Z := field 1 11 e.
Definition dir_nt_reserved (e : list Z) : Z := field 1 12 e.
Definition dir_create_time (e : list Z) : Z := field 2 14 e.
Definition dir_create_date (e : list Z) : Z := field 2 16 e.
Definition dir_last_access_date (e : list Z) : Z := field 2 18 e.
Definition dir_first_cluster_high (e : list Z) : Z := field 2 20 e.
Definition dir_write_time (e : list Z) : Z := field 2 22 e.
Definition dir_write_date (e : list Z) : Z := field 2 24 e.
Definition dir_first_cluster_low (e : list Z) : Z := field 2 26 e.
Definition dir_file_size (e : list Z) : Z := field 4 28 e.
Definition first_byte (e : list Z) : Z := default 0 (e !! 0%nat).
Definition dirent_first (e : list Z) : Z :=
  Z.lor (u32 (Z.shiftl (dir_first_cluster_high e) 16)) (dir_first_cluster_low e).

Definition fat32_dirent_basic (e : list Z) : bool :=
  negb ((first_byte e =? 0x00) || (first_byte e =? 0xE5)) &&
  negb (dir_attr e =? FAT32_ATTR_LONG_NAME) &&
  negb (negb (Z.land (dir_attr e) FAT32_ATTR_VOLUME_ID =? 0) && (Z.land (dir_attr e) FAT32_ATTR_DIRECTORY =? 0)).
Definition fat32_dirent_dot (e : list Z) : bool := first_byte e =? 46.

(** ** State *)
Record fat_state (D H : Type) := mkFat { fat_dev : D; fat_heap : H }.
Arguments mkFat {D H}.
Arguments fat_dev {D H}.
Arguments fat_heap {D H}.

Section Fat.
Context {D H : Type} `{DD : BlockDev D} `{HH : Heap H}.
Abbreviation St := (fat_state D H).

Definition f_dev {A} (m : M D A) : M St A := zoom fat_dev (fun d s => mkFat d (fat_heap s)) m.
Definition falloc (n : Z) : M St Z := zoom fat_heap (fun h s => mkFat (fat_dev s) h) (halloc n).
Definition ffree (p : Z) : M St unit := zoom fat_heap (fun h s => mkFat (fat_dev s) h) (hfree p).
(** [buf = slab_alloc(n); if (buf == NULL) return fail; ...; slab_free(buf)],
    the free on every return of the body *)
Definition with_fbuf {A} (n : Z) (fail : A) (body : M St A) : M St A :=
  let* buf := falloc n in
  if buf =? 0 then mret fail else
  let* r := body in
  ffree buf ;;; mret r.

(** accesses to a buffer, a [Fault] outside of what the driver filled *)
Definition fin_buf (off n : Z) (buf : list Z) : bool := (0 <=? off) && (off + n <=? Z.of_nat (length buf)).
Definition fld (off n : Z) (buf : list Z) : M St (list Z) :=
  if fin_buf off n buf then mret (slice (Z.to_nat off) (Z.to_nat n) buf) else fault.
Definition fput (off : Z) (bs buf : list Z) : M St (list Z) :=
  if fin_buf off (Z.of_nat (length bs)) buf then mret (splice (Z.to_nat off) bs buf) else fault.

Definition fat32_read_sector (sector : Z) : M St (Z * list Z) := f_dev (dev_read sector).
Definition fat32_write_sector (sector : Z) (buf : list Z) : M St Z := f_dev (dev_write sector buf).

(** ** The allocation table *)
Definition fat32_fat_get fs (cluster : Z) : M St (option Z) :=
  if (cluster <? 2) || (u32 (cluster_count fs + 2) <=? cluster) then mret None else
  let sec := u32 (fat_start fs + u32 (cluster * 4) / bytes_per_sector fs) in
  let off := u32 (cluster * 4) mod bytes_per_sector fs in
  with_fbuf (bytes_per_sector fs) None
    (let* r := fat32_read_sector sec in
     if r.1 <? 0 then mret None else
     let* v := fld off 4 r.2 in
     mret (Some (Z.land (le_dec v) 0x0FFFFFFF))).

Definition fat32_fat_set fs (cluster value : Z) : M St Z :=
  if (cluster <? 2) || (u32 (cluster_count fs + 2) <=? cluster) then mret (-1) else
  let sec := u32 (fat_start fs + u32 (cluster * 4) / bytes_per_sector fs) in
  let off := u32 (cluster * 4) mod bytes_per_sector fs in
  with_fbuf (bytes_per_sector fs) (-1)
    (let* r := fat32_read_sector sec in
     if r.1 <? 0 then mret (-1) else
     let* v := fld off 4 r.2 in
     let v := Z.lor (Z.land (le_dec v) 0xF0000000) (Z.land value 0x0FFFFFFF) in
     let* buf := fput off (le_enc 4 v) r.2 in
     fat32_write_sector sec buf).

(** the loop that clears the sectors of a new cluster, from sector [i] on *)
Fixpoint zero_loop fs (n : nat) (c i : Z) (zero : list Z) : M St bool :=
  match n with
  | O => mret true
  | S n' =>
      let* w := fat32_write_sector (u32 (fat32_cluster_to_sector fs c + i)) zero in
      if w <? 0 then mret false else zero_loop fs n' c (i + 1) zero
  end.
Fixpoint alloc_loop fs (n : nat) (c : Z) (zero : list Z) : M St (option Z) :=
  match n with
  | O => mret None
  | S n' =>
      let* v := fat32_fat_get fs c in
      match v with
      | None => mret None
      | Some v =>
          if negb (v =? 0) then alloc_loop fs n' (c + 1) zero else
          let* w := fat32_fat_set fs c FAT32_EOF_MARK in
          if w <? 0 then mret None else
          let* ok := zero_loop fs (Z.to_nat (sectors_per_cluster fs)) c 0 zero in
          if ok : bool then mret (Some c) else
          let* _ := fat32_fat_set fs c FAT32_FREE_MARK in mret None
      end
  end.
Definition fat32_alloc_cluster fs : M St (option Z) :=
  with_fbuf (bytes_per_sector fs) None
    (alloc_loop fs (Z.to_nat (u32 (cluster_count fs + 2) - 2)) 2 (replicate (Z.to_nat (bytes_per_sector fs)) 0)).

(** ** Chains: [guard] is [fs->cluster_count] minus the C variable *)
Fixpoint free_chain_loop fs (guard : nat) (c : Z) : M St Z :=
  if negb (fat32_is_valid_cluster fs c) then mret 0 else
  match guard with
  | O => mret 0
  | S guard' =>
      let* next := fat32_fat_get fs c in
      match next with
      | None => mret (-1)
      | Some next =>
          let* w := fat32_fat_set fs c FAT32_FREE_MARK in
          if w <? 0 then mret (-1) else
          if fat32_is_chain_end next then mret 0 else free_chain_loop fs guard' next
      end
  end.
Definition fat32_free_chain fs (start : Z) : M St Z := free_chain_loop fs (Z.to_nat (cluster_count fs)) start.

Fixpoint chain_len_loop fs (guard : nat) (c n : Z) : M St Z :=
  if negb (fat32_is_valid_cluster fs c) then mret n else
  match guard with
  | O => mret n
  | S guard' =>
      let* next := fat32_fat_get fs c in
      match next with
      | None => mret n
      | Some next => if fat32_is_chain_end next then mret (n + 1) else chain_len_loop fs guard' next (n + 1)
      end
  end.
Definition fat32_chain_len fs (start : Z) : M St Z := chain_len_loop fs (Z.to_nat (cluster_count fs)) start 0.

(** [*first] and [*tail] after the call *)
Fixpoint append_loop fs (n : nat) (first tail : Z) : M St (option (Z * Z)) :=
  match n with
  | O => mret (Some (first, tail))
  | S n' =>
      let* c := fat32_alloc_cluster fs in
      match c with
      | None => mret None
      | Some c =>
          if tail =? 0 then append_loop fs n' c c
          else let* _ := fat32_fat_set fs tail c in append_loop fs n' first c
      end
  end.
Definition fat32_append_clusters fs (first tail n : Z) : M St (option (Z * Z)) := append_loop fs (Z.to_nat n) first tail.

(** ** Locating a directory entry *)
Definition dirent_sector fs (p : fat32_inode_priv) : Z :=
  u32 (fat32_cluster_to_sector fs (dir_cluster p) + dirent_off p / bytes_per_sector fs).
Definition fat32_dirent_load fs (p : fat32_inode_priv) : M St (option (list Z)) :=
  if is_root p then mret None else
  with_fbuf (bytes_per_sector fs) None
    (let* r := fat32_read_sector (dirent_sector fs p) in
     if r.1 <? 0 then mret None else
     let* e := fld (dirent_off p mod bytes_per_sector fs) 32 r.2 in
     mret (Some e)).
Definition fat32_dirent_store fs (p : fat32_inode_priv) (e : list Z) : M St Z :=
  if is_root p then mret (-1) else
  with_fbuf (bytes_per_sector fs) (-1)
    (let* r := fat32_read_sector (dirent_sector fs p) in
     if r.1 <? 0 then mret (-1) else
     let* buf := fput (dirent_off p mod bytes_per_sector fs) e r.2 in
     fat32_write_sector (dirent_sector fs p) buf).

(** [fat32_now(&now)] as a step: [ticks] is the system tick counter *)
Definition now_at (ticks : Z) : M St fat32_fat_time :=
  match fat32_now ticks with Some t => mret t | None => nofuel end.
Definition fat32_dirent_update_size (ticks : Z) fs (p : fat32_inode_priv) (size : Z) : M St Z :=
  if is_root p then mret 0 else
  let* e := fat32_dirent_load fs p in
  match e with
  | None => mret (-1)
  | Some e =>
      let e := set_field 4 28 size e in
      let* now := now_at ticks in
      let e := set_field 2 24 (ft_date now) (set_field 2 22 (ft_time now) e) in
      fat32_dirent_store fs p e
  end.
End Fat.
