(* ===== verification/FatDir.v ===== *)
(** FAT32 (fs/fat32.c), second part: directories and inodes.

    A callback of [fat32_dir_walk] is a function from the entry, its place and
    the state of its argument to the value it returns and the new state.  The
    null-pointer guards have no counterpart: arguments are values. *)
From stdpp Require Import base gmap list.
From Stdlib Require Import ZArith Lia.
From S2P Require Import Prelude Bytes HashMap BlockDev Fat.
Open Scope Z_scope.

Definition F_IFMT : Z := 0xF000.
Definition F_IFREG : Z := 0x8000.
Definition F_IFDIR : Z := 0x4000.
Definition f_type (mode ty : Z) : bool := Z.land mode F_IFMT =? ty.
Definition SIZEOF_FAT_INODE : Z := 224.
Definition SIZEOF_FAT_INODE_PRIV : Z := 20.

(** [struct inode] as FAT32 fills it, with the addresses of its two objects *)
Record finode := mkFinode {
  fi_ptr : Z; fi_priv_ptr : Z; fi_ino : Z; fi_mode : Z; fi_size : Z; fi_private : fat32_inode_priv }.
Definition fi_set_size (n : Z) (i : finode) : finode :=
  mkFinode (fi_ptr i) (fi_priv_ptr i) (fi_ino i) (fi_mode i) n (fi_private i).
Definition fi_set_first (c : Z) (i : finode) : finode :=
  mkFinode (fi_ptr i) (fi_priv_ptr i) (fi_ino i) (fi_mode i) (fi_size i) (set_first c (fi_private i)).

Definition fat_callback (A : Type) : Type := list Z -> Z -> Z -> A -> Z * A.

(** ** Callbacks *)
Record fat32_find_arg := mkFind { fa_dos : list Z; fa_e : list Z; fa_cluster : Z; fa_off : Z; fa_found : bool }.
Definition fat32_cb_find : fat_callback fat32_find_arg := fun e cluster off a =>
  if negb (fat32_dirent_basic e) || fat32_dirent_dot e then (0, a)
  else if bool_decide (dir_name e = fa_dos a) then (1, mkFind (fa_dos a) e cluster off true)
  else (0, a).

Record fat32_slot_arg := mkSlot { sl_cluster : Z; sl_off : Z; sl_found : bool }.
Definition fat32_cb_free_slot : fat_callback fat32_slot_arg := fun e cluster off a =>
  if (first_byte e =? 0x00) || (first_byte e =? 0xE5) then (1, mkSlot cluster off true) else (0, a).

(** [a->has_entries] *)
Definition fat32_cb_empty : fat_callback bool := fun e _ _ a =>
  if negb (fat32_dirent_basic e) then (0, a) else if fat32_dirent_dot e then (0, a) else (1, true).

(** [ra_out] is what has been stored in [*a->out]: name, inode number, type *)
Record fat32_readdir_arg := mkReaddir { ra_offset : Z; ra_out : option (list Z * Z * Z); ra_pos : Z }.
Definition fat32_cb_readdir : fat_callback fat32_readdir_arg := fun e cluster off a =>
  match ra_out a with
  | Some _ => (1, a)
  | None =>
      let pos' := u64 (ra_pos a + FAT32_DIRENT_SIZE) in
      if ra_pos a <? ra_offset a then (0, mkReaddir (ra_offset a) None pos')
      else if negb (fat32_dirent_basic e) || fat32_dirent_dot e then (0, mkReaddir pos' None pos')
      else
        let ty := if negb (Z.land (dir_attr e) FAT32_ATTR_DIRECTORY =? 0) then F_IFDIR else F_IFREG in
        (1, mkReaddir pos' (Some (fat32_dos_to_name (dir_name e) (dir_nt_reserved e), cluster * 512 + off, ty)) pos')
  end.

Section FatDir.
Context {D H : Type} `{DD : BlockDev D} `{HH : Heap H}.
Abbreviation St := (fat_state D H).
Implicit Types fs : fat32_fs_priv.

(** ** Walking *)
Section Walk.
Context {A : Type} (cb : fat_callback A).
(** the entries of a sector from [i] on *)
Fixpoint walk_entries fs (n : nat) (i s cluster : Z) (buf : list Z) (a : A) : M St (Z * A) :=
  match n with
  | O => mret (0, a)
  | S n' =>
      let* e := fld (i * FAT32_DIRENT_SIZE) FAT32_DIRENT_SIZE buf in
      let off := u32 (s * bytes_per_sector fs + i * FAT32_DIRENT_SIZE) in
      let '(r, a) := cb e cluster off a in
      if negb (r =? 0) then mret (r, a) else walk_entries fs n' (i + 1) s cluster buf a
  end.
(** the sectors of a cluster from [s] on *)
Fixpoint walk_sectors fs (n : nat) (s cluster : Z) (a : A) : M St (Z * A) :=
  match n with
  | O => mret (0, a)
  | S n' =>
      let* r := fat32_read_sector (u32 (fat32_cluster_to_sector fs cluster + s)) in
      if r.1 <? 0 then mret (-1, a) else
      let* x := walk_entries fs (Z.to_nat (bytes_per_sector fs / FAT32_DIRENT_SIZE)) 0 s cluster r.2 a in
      if negb (x.1 =? 0) then mret x else walk_sectors fs n' (s + 1) cluster x.2
  end.
Fixpoint walk_clusters fs (guard : nat) (cluster : Z) (a : A) : M St (Z * A) :=
  if negb (fat32_is_valid_cluster fs cluster) then mret (0, a) else
  match guard with
  | O => mret (0, a)
  | S guard' =>
      let* x := walk_sectors fs (Z.to_nat (sectors_per_cluster fs)) 0 cluster a in
      if negb (x.1 =? 0) then mret x else
      let* next := fat32_fat_get fs cluster in
      match next with None => mret (-1, x.2) | Some next => walk_clusters fs guard' next x.2 end
  end.
Definition dir_first fs (dp : fat32_inode_priv) : Z := if is_root dp then root_cluster fs else first_cluster dp.
Definition fat32_dir_walk fs (dp : fat32_inode_priv) (a : A) : M St (Z * A) :=
  with_fbuf (bytes_per_sector fs) (-1, a) (walk_clusters fs (Z.to_nat (cluster_count fs)) (dir_first fs dp) a).
End Walk.

Definition fat32_dir_find fs (dp : fat32_inode_priv) (dos : list Z) : M St (option fat32_find_arg) :=
  let* x := fat32_dir_walk fat32_cb_find fs dp (mkFind dos (replicate 32 0) 0 0 false) in
  mret (if x.1 =? 1 then Some x.2 else None).

(** the loop of [fat32_dir_extend]: [None] on an error *)
Fixpoint tail_loop fs (guard : nat) (tail : Z) : M St (option Z) :=
  if negb (fat32_is_valid_cluster fs tail) then mret (Some tail) else
  match guard with
  | O => mret (Some tail)
  | S guard' =>
      let* next := fat32_fat_get fs tail in
      match next with
      | None => mret None
      | Some next => if fat32_is_chain_end next then mret (Some tail) else tail_loop fs guard' next
      end
  end.
Definition fat32_dir_extend fs (dp : fat32_inode_priv) : M St (option Z) :=
  let* tail := tail_loop fs (Z.to_nat (cluster_count fs)) (dir_first fs dp) in
  match tail with
  | None => mret None
  | Some tail =>
      if negb (fat32_is_valid_cluster fs tail) then mret None else
      let* c := fat32_alloc_cluster fs in
      match c with
      | None => mret None
      | Some c =>
          let* w := fat32_fat_set fs tail c in
          if w <? 0 then let* _ := fat32_free_chain fs c in mret None else mret (Some c)
      end
  end.

(** ** Inodes *)
Definition two_objects {A} (fail : A) (k : Z -> Z -> M St A) : M St A :=
  let* i := falloc SIZEOF_FAT_INODE in
  let* q := falloc SIZEOF_FAT_INODE_PRIV in
  if (i =? 0) || (q =? 0) then
    (if i =? 0 then mret tt else ffree i) ;;; (if q =? 0 then mret tt else ffree q) ;;; mret fail
  else k i q.
Definition fat32_inode_create fs (e : list Z) (cluster off : Z) : M St (option finode) :=
  two_objects None (fun i q =>
    let first := dirent_first e in
    let ino := u32 (u32 (cluster * bytes_per_sector fs) + off) in
    let p := mkFatInodePriv first (dir_attr e) cluster off false in
    if negb (Z.land (dir_attr e) FAT32_ATTR_DIRECTORY =? 0) then
      let* n := fat32_chain_len fs first in
      mret (Some (mkFinode i q ino (Z.lor F_IFDIR 0x1ED) (u32 (n * fat32_cluster_bytes fs)) p))
    else
      let perm := if negb (Z.land (dir_attr e) FAT32_ATTR_READ_ONLY =? 0) then 0x124 else 0x1A4 in
      mret (Some (mkFinode i q ino (Z.lor F_IFREG perm) (dir_file_size e) p))).
Definition fat32_root_inode fs : M St (option finode) :=
  two_objects None (fun i q =>
    let* n := fat32_chain_len fs (root_cluster fs) in
    mret (Some (mkFinode i q (root_cluster fs) (Z.lor F_IFDIR 0x1ED) (u32 (n * fat32_cluster_bytes fs))
      (mkFatInodePriv (root_cluster fs) 0 0 0 true)))).
Definition fat32_inode_destroy (i : finode) : M St unit :=
  (if fi_priv_ptr i =? 0 then mret tt else ffree (fi_priv_ptr i)) ;;; ffree (fi_ptr i).

(** ** Operations on directories *)
Definition fat32_lookup fs (dir : finode) (name : list Z) : M St (option finode) :=
  if negb (f_type (fi_mode dir) F_IFDIR) then mret None else
  if bool_decide (name = [46]) || bool_decide (name = [46; 46]) then mret None else
  match fat32_name_to_dos name with
  | None => mret None
  | Some dos =>
      let* found := fat32_dir_find fs (fi_private dir) dos in
      match found with
      | None => mret None
      | Some a => fat32_inode_create fs (fa_e a) (fa_cluster a) (fa_off a)
      end
  end.

(** the flags for lower case: [0x08] for the name, [0x10] for the extension *)
Fixpoint before_dot (name : list Z) : option (list Z * list Z) :=
  match name with
  | [] => None
  | c :: rest =>
      if c =? 46 then Some ([], rest)
      else match before_dot rest with Some (b, x) => Some (c :: b, x) | None => None end
  end.
Definition nt_flags (name : list Z) : Z :=
  match before_dot name with
  | None => 0
  | Some (b, x) =>
      Z.lor (if existsb (between 97 122) b then 0x08 else 0) (if existsb (between 97 122) x then 0x10 else 0)
  end.
(** the entry that [fat32_dir_add] builds *)
Definition new_dirent (dos name : list Z) (is_dir : bool) (now : fat32_fat_time) (cluster : Z) : list Z :=
  dos ++ [if is_dir then FAT32_ATTR_DIRECTORY else FAT32_ATTR_ARCHIVE; nt_flags name; 0] ++
  le_enc 2 (ft_time now) ++ le_enc 2 (ft_date now) ++ le_enc 2 (ft_date now) ++
  le_enc 2 (Z.shiftr cluster 16) ++ le_enc 2 (ft_time now) ++ le_enc 2 (ft_date now) ++
  le_enc 2 (Z.land cluster 0xFFFF) ++ le_enc 4 0.

(** [if (is_dir) fat32_free_chain(fs, cluster); return -1;] *)
Definition undo_dir {A} fs (is_dir : bool) (cluster : Z) : M St (option A) :=
  (if is_dir then let* _ := fat32_free_chain fs cluster in mret tt else mret tt) ;;; mret None.
(** the first free place, or the first one of a new cluster *)
Definition find_slot fs (dp : fat32_inode_priv) : M St (option (Z * Z)) :=
  let* x := fat32_dir_walk fat32_cb_free_slot fs dp (mkSlot 0 0 false) in
  if x.1 =? 1 then mret (Some (sl_cluster x.2, sl_off x.2)) else
  let* nc := fat32_dir_extend fs dp in mret ((fun c => (c, 0)) <$> nc).
(** the part of [fat32_dir_add] that has the place *)
Definition add_at (ticks : Z) fs (dos name : list Z) (is_dir : bool) (cluster dc doff : Z) : M St (option finode) :=
  let* now := now_at ticks in
  let e := new_dirent dos name is_dir now cluster in
  let* w := fat32_dirent_store fs (mkFatInodePriv 0 0 dc doff false) e in
  if w <? 0 then undo_dir fs is_dir cluster else
  let* ni := fat32_inode_create fs e dc doff in
  match ni with
  | None => undo_dir fs is_dir cluster
  | Some ni => mret (Some ni)
  end.
Definition fat32_dir_add (ticks : Z) fs (dir : finode) (name : list Z) (mode : Z) : M St (option finode) :=
  let is_dir := f_type mode F_IFDIR in
  if negb (f_type (fi_mode dir) F_IFDIR) then mret None else
  match fat32_name_to_dos name with
  | None => mret None
  | Some dos =>
      let* found := fat32_dir_find fs (fi_private dir) dos in
      match found with
      | Some _ => mret None
      | None =>
          let* cluster := (if is_dir then fat32_alloc_cluster fs else mret (Some 0)) in
          match cluster with
          | None => mret None
          | Some cluster =>
              let* slot := find_slot fs (fi_private dir) in
              match slot with
              | None => undo_dir fs is_dir cluster
              | Some (dc, doff) => add_at ticks fs dos name is_dir cluster dc doff
              end
          end
      end
  end.
Definition fat32_create (ticks : Z) fs (dir : finode) (name : list Z) (mode : Z) : M St (option finode) :=
  if negb (f_type mode F_IFREG) then mret None else fat32_dir_add ticks fs dir name mode.
Definition fat32_mkdir (ticks : Z) fs (dir : finode) (name : list Z) (mode : Z) : M St (option finode) :=
  if negb (f_type mode F_IFDIR) then mret None else fat32_dir_add ticks fs dir name mode.

(** the deleted form of an entry *)
Definition erase (e : list Z) : list Z :=
  set_field 4 28 0 (set_field 2 26 0 (set_field 2 20 0 (set_field 1 0 0xE5 e))).
(** [e = found.e; e.dir_name[0] = 0xE5; ...; fat32_dirent_store(fs, &tmp, &e)] *)
Definition remove_found fs (a : fat32_find_arg) : M St Z :=
  let* w := fat32_dirent_store fs (mkFatInodePriv 0 0 (fa_cluster a) (fa_off a) false) (erase (fa_e a)) in
  mret (if w <? 0 then -1 else 0).
Definition fat32_unlink fs (dir : finode) (name : list Z) : M St Z :=
  if negb (f_type (fi_mode dir) F_IFDIR) then mret (-1) else
  match fat32_name_to_dos name with
  | None => mret (-1)
  | Some dos =>
      let* found := fat32_dir_find fs (fi_private dir) dos in
      match found with
      | None => mret (-1)
      | Some a =>
          if negb (Z.land (dir_attr (fa_e a)) FAT32_ATTR_DIRECTORY =? 0) then mret (-1) else
          let* f := fat32_free_chain fs (dirent_first (fa_e a)) in
          if f <? 0 then mret (-1) else remove_found fs a
      end
  end.
Definition fat32_rmdir fs (dir : finode) (name : list Z) : M St Z :=
  if negb (f_type (fi_mode dir) F_IFDIR) then mret (-1) else
  match fat32_name_to_dos name with
  | None => mret (-1)
  | Some dos =>
      let* found := fat32_dir_find fs (fi_private dir) dos in
      match found with
      | None => mret (-1)
      | Some a =>
          if Z.land (dir_attr (fa_e a)) FAT32_ATTR_DIRECTORY =? 0 then mret (-1) else
          let first := dirent_first (fa_e a) in
          if first =? 0 then mret (-1) else
          let* x := fat32_dir_walk fat32_cb_empty fs (mkFatInodePriv first 0 0 0 false) false in
          if x.1 <? 0 then mret (-1) else
          if x.2 : bool then mret (-1) else
          let* f := fat32_free_chain fs first in
          if f <? 0 then mret (-1) else remove_found fs a
      end
  end.

(** the new [*offset], and [*dirent] when an entry was found *)
Definition fat32_readdir fs (dir : finode) (offset : Z) : M St (Z * option (list Z * Z * Z)) :=
  if negb (f_type (fi_mode dir) F_IFDIR) then mret (offset, None) else
  let offset := offset / FAT32_DIRENT_SIZE * FAT32_DIRENT_SIZE in
  let* x := fat32_dir_walk fat32_cb_readdir fs (fi_private dir) (mkReaddir offset None 0) in
  mret (ra_offset x.2, ra_out x.2).

(** [struct vfs_kstat]; the times only when the entry could be read *)
Record fstat := mkFstat {
  fs_ino : Z; fs_mode : Z; fs_size : Z; fs_nlink : Z; fs_blocks : Z; fs_blksize : Z;
  fs_atime : Z; fs_mtime : Z; fs_ctime : Z }.
Definition fat32_getattr fs (i : finode) : M St fstat :=
  let blocks := u64 (fi_size i + bytes_per_sector fs - 1) / bytes_per_sector fs in
  let st a m c := mkFstat (fi_ino i) (fi_mode i) (fi_size i) 1 blocks (bytes_per_sector fs) a m c in
  if is_root (fi_private i) then mret (st 0 0 0) else
  let* e := fat32_dirent_load fs (fi_private i) in
  match e with
  | None => mret (st 0 0 0)
  | Some e =>
      mret (st (fat32_fat_to_unix (mkFatTime (dir_last_access_date e) 0))
               (fat32_fat_to_unix (mkFatTime (dir_write_date e) (dir_write_time e)))
               (fat32_fat_to_unix (mkFatTime (dir_create_date e) (dir_create_time e))))
  end.
End FatDir.
