(* ===== verification/FatFile.v ===== *)
(** FAT32 (fs/fat32.c), third part: file data and mounting.

    [fat32_write_data] and [fat32_truncate] return the inode they have updated,
    also when they fail.  The memory of [scratch] is freed where the C code
    frees it. *)
From stdpp Require Import base gmap list.
From Stdlib Require Import ZArith Lia.
From S2P Require Import Prelude Bytes HashMap BlockDev Fat FatDir.
Open Scope Z_scope.

Definition SIZEOF_FAT_FS_PRIV : Z := 48.
Definition SIZEOF_FAT_SUPER : Z := 32.
(** [uint64_t] positions are taken modulo the cluster size, a [uint32_t] *)
Definition fat_data_fuel (count : Z) : nat := Z.to_nat (count / 512 + 3).

Record fsuper := mkFsuper { fsb_ptr : Z; fsb_priv_ptr : Z; fsb_priv : fat32_fs_priv; fsb_root : finode }.

Section FatFile.
Context {D H : Type} `{DD : BlockDev D} `{HH : Heap H}.
Abbreviation St := (fat_state D H).
Implicit Types fs : fat32_fs_priv.

(** ** Reading *)

(** the loop that goes [n] clusters ahead; [None] is the error *)
Fixpoint skip_read fs (n : nat) (cluster : Z) : M St (option Z) :=
  match n with
  | O => mret (Some cluster)
  | S n' =>
      if negb (fat32_is_valid_cluster fs cluster) then mret None else
      let* c := fat32_fat_get fs cluster in
      match c with None => mret None | Some c => skip_read fs n' c end
  end.
(** the bytes copied, or [None] on an error *)
Fixpoint read_data_loop fs (fuel : nat) (cluster coff remaining : Z) : M St (option (list Z)) :=
  match fuel with
  | O => nofuel
  | S fuel' =>
      if remaining <=? 0 then mret (Some []) else
      if negb (fat32_is_valid_cluster fs cluster) then mret (Some []) else
      let sec := u32 (fat32_cluster_to_sector fs cluster + coff / bytes_per_sector fs) in
      let soff := coff mod bytes_per_sector fs in
      let n := if remaining <? u32 (bytes_per_sector fs - soff) then remaining else u32 (bytes_per_sector fs - soff) in
      let* r := fat32_read_sector sec in
      if r.1 <? 0 then mret None else
      let* chunk := fld soff n r.2 in
      let coff := u32 (coff + n) in
      let* rest :=
        (if fat32_cluster_bytes fs <=? coff then
           let* c := fat32_fat_get fs cluster in
           match c with None => mret None | Some c => read_data_loop fs fuel' c 0 (remaining - n) end
         else read_data_loop fs fuel' cluster coff (remaining - n)) in
      mret (app chunk <$> rest)
  end.
Definition fat32_read_data fs (i : finode) (pos count : Z) : M St (option (list Z)) :=
  let cb := fat32_cluster_bytes fs in
  if fi_size i <=? pos then mret (Some []) else
  let avail := fi_size i - pos in
  let count := if avail <? count then u32 avail else count in
  with_fbuf (bytes_per_sector fs) None
    (let* c := skip_read fs (Z.to_nat (pos / cb)) (first_cluster (fi_private i)) in
     match c with
     | None => mret None
     | Some cluster => read_data_loop fs (fat_data_fuel count) cluster (pos mod cb) count
     end).

(** ** Writing *)
Fixpoint skip_write fs (n : nat) (cur : Z) : M St (option Z) :=
  match n with
  | O => mret (Some cur)
  | S n' =>
      if (cur =? 0) || fat32_is_chain_end cur then mret None else
      let* c := fat32_fat_get fs cur in
      match c with None => mret None | Some c => skip_write fs n' c end
  end.
(** the loop over [n] bytes at file offset [f]: zero before [pos], then [ub] *)
Definition source (pos : Z) (ub : list Z) (f n : Z) : list Z :=
  (fun k => let fo := f + Z.of_nat k in if fo <? pos then 0 else default 0 (ub !! Z.to_nat (fo - pos))) <$> seq 0 (Z.to_nat n).
(** [cur] and [priv->first_cluster] once there is a cluster to write to *)
Definition want_cluster fs (cur prev first : Z) : M St (option (Z * Z)) :=
  if (cur =? 0) || fat32_is_chain_end cur || negb (fat32_is_valid_cluster fs cur) then
    let* nc := fat32_alloc_cluster fs in
    match nc with
    | None => mret None
    | Some nc =>
        if prev =? 0 then mret (Some (nc, nc))
        else let* _ := fat32_fat_set fs prev nc in mret (Some (nc, first))
    end
  else mret (Some (cur, first)).
Definition put_sector fs (sec soff n pos f : Z) (ub : list Z) : M St Z :=
  if (soff =? 0) && (n =? bytes_per_sector fs) && (pos <=? f)
  then fat32_write_sector sec (slice (Z.to_nat (f - pos)) (Z.to_nat n) ub)
  else
    let* r := fat32_read_sector sec in
    if r.1 <? 0 then mret (-1) else
    let* scratch := fput soff (source pos ub f n) r.2 in
    fat32_write_sector sec scratch.
(** whether it succeeded, and [priv->first_cluster] *)
Fixpoint write_data_loop fs (fuel : nat) (pos end_ : Z) (ub : list Z) (f cur prev coff first : Z) : M St (bool * Z) :=
  match fuel with
  | O => nofuel
  | S fuel' =>
      if end_ <=? f then mret (true, first) else
      let* x := want_cluster fs cur prev first in
      match x with
      | None => mret (false, first)
      | Some (cur, first) =>
          let sec := u32 (fat32_cluster_to_sector fs cur + coff / bytes_per_sector fs) in
          let soff := coff mod bytes_per_sector fs in
          let room := u32 (bytes_per_sector fs - soff) in
          let n := if end_ - f <? room then end_ - f else room in
          let* w := put_sector fs sec soff n pos f ub in
          if w <? 0 then mret (false, first) else
          let f := f + n in
          let coff := u32 (coff + n) in
          if fat32_cluster_bytes fs <=? coff then
            let* c := fat32_fat_get fs cur in
            match c with
            | None => mret (false, first)
            | Some c =>
                let c := if fat32_is_chain_end c && (f <? end_) then 0 else c in
                write_data_loop fs fuel' pos end_ ub f c cur 0 first
            end
          else write_data_loop fs fuel' pos end_ ub f cur cur coff first
      end
  end.
(** everything after the allocation of [scratch] *)
Definition write_body (ticks : Z) fs (i : finode) (pos : Z) (buf : list Z) : M St (bool * finode) :=
  if FAT32_SECTOR_SIZE <? bytes_per_sector fs then mret (false, i) else
  let cb := fat32_cluster_bytes fs in
  let old_size := fi_size i in
  let end_ := u64 (pos + Z.of_nat (length buf)) in
  let start := if pos <? old_size then pos else old_size in
  let* c := skip_write fs (Z.to_nat (start / cb)) (first_cluster (fi_private i)) in
  match c with
  | None => mret (false, i)
  | Some cur =>
      let* x := write_data_loop fs (fat_data_fuel (end_ - start)) pos end_ buf start cur 0 (start mod cb)
                  (first_cluster (fi_private i)) in
      let i := fi_set_first x.2 i in
      if negb x.1 then mret (false, i) else
      if fi_size i <? end_ then
        let i := fi_set_size end_ i in
        let* u := fat32_dirent_update_size ticks fs (fi_private i) (u32 end_) in
        mret (negb (u <? 0), i)
      else mret (true, i)
  end.
Definition fat32_write_data (ticks : Z) fs (i : finode) (pos : Z) (buf : list Z) : M St (option Z * finode) :=
  let* scratch := falloc (bytes_per_sector fs) in
  if scratch =? 0 then mret (None, i) else
  let* x := write_body ticks fs i pos buf in
  if x.1 then mret (Some (Z.of_nat (length buf)), x.2) else ffree scratch ;;; mret (None, x.2).

(** ** Truncation *)

(** the loop without a guard that looks for the tail *)
Fixpoint find_tail fs (fuel : nat) (tail : Z) : M St (option Z) :=
  if negb (fat32_is_valid_cluster fs tail) then mret (Some tail) else
  match fuel with
  | O => nofuel
  | S fuel' =>
      let* next := fat32_fat_get fs tail in
      match next with
      | None => mret None
      | Some next => if fat32_is_chain_end next then mret (Some tail) else find_tail fs fuel' next
      end
  end.
Fixpoint go_along fs (n : nat) (c : Z) : M St (option Z) :=
  match n with
  | O => mret (Some c)
  | S n' => let* x := fat32_fat_get fs c in match x with None => mret None | Some c => go_along fs n' c end
  end.
(** [priv->first_cluster] after the chain has been cut or extended *)
Definition resize_chain fs (old_first old_n new_n : Z) : M St (option Z) :=
  if new_n =? 0 then
    if old_first =? 0 then mret (Some 0) else
    let* f := fat32_free_chain fs old_first in mret (if f <? 0 then None else Some 0)
  else if old_n <? new_n then
    let* tail := find_tail fs (Z.to_nat (cluster_count fs)) old_first in
    match tail with
    | None => mret None
    | Some tail =>
        if negb (fat32_is_valid_cluster fs tail) && negb (old_first =? 0) then mret None else
        let* x := fat32_append_clusters fs old_first tail (new_n - old_n) in mret (Datatypes.fst <$> x)
    end
  else if new_n <? old_n then
    let* c := go_along fs (Z.to_nat (new_n - 1)) old_first in
    match c with
    | None => mret None
    | Some c =>
        let* next := fat32_fat_get fs c in
        match next with
        | None => mret None
        | Some next =>
            let* w := fat32_fat_set fs c FAT32_EOF_MARK in
            if w <? 0 then mret None else
            let* f := fat32_free_chain fs next in mret (if f <? 0 then None else Some old_first)
        end
    end
  else mret (Some old_first).
Definition fat32_truncate (ticks : Z) fs (i : finode) (size : Z) : M St (Z * finode) :=
  if negb (f_type (fi_mode i) F_IFREG) then mret (-1, i) else
  if 0xFFFFFFFF <? size then mret (-1, i) else
  let cb := fat32_cluster_bytes fs in
  let old_first := first_cluster (fi_private i) in
  let* old_n := (if old_first =? 0 then mret 0 else fat32_chain_len fs old_first) in
  let new_n := u32 (u64 (size + cb - 1) / cb) in
  let* x := resize_chain fs old_first old_n new_n in
  match x with
  | None => mret (-1, i)
  | Some first =>
      let i := fi_set_size size (fi_set_first first i) in
      let* r := fat32_dirent_update_size ticks fs (fi_private i) size in
      mret (r, i)
  end.

(** ** File operations: [file->pos] is a parameter *)
Definition fat32_read fs (i : finode) (pos count : Z) : M St (option (list Z)) :=
  if negb (f_type (fi_mode i) F_IFREG) then mret None else
  if count =? 0 then mret (Some []) else
  fat32_read_data fs i pos (if 0xFFFFFFFF <? count then 0xFFFFFFFF else count).
Definition fat32_write (ticks : Z) fs (i : finode) (pos : Z) (buf : list Z) : M St (option Z * finode) :=
  if negb (f_type (fi_mode i) F_IFREG) then mret (None, i) else
  if negb (Z.land (fi_mode i) 0x124 =? 0) && (Z.land (fi_mode i) 0x92 =? 0) then mret (None, i) else
  if (length buf =? 0)%nat then mret (Some 0, i) else
  fat32_write_data ticks fs i pos (take (Z.to_nat 0xFFFFFFFF) buf).
Definition fat32_seek (i : finode) (pos offset whence : Z) : Z :=
  let npos := if whence =? 0 then Some offset
              else if whence =? 1 then Some (s64 (s64 pos + offset))
              else if whence =? 2 then Some (s64 (s64 (fi_size i) + offset)) else None in
  match npos with
  | None => -1
  | Some npos => if npos <? 0 then -1 else if fi_size i <? npos then fi_size i else npos
  end.
Definition fat32_close : Z := 0.

(** ** Mounting *)
Definition bpb_bytes_per_sector (b : list Z) : Z := field 2 11 b.
Definition bpb_sectors_per_cluster (b : list Z) : Z := field 1 13 b.
Definition bpb_reserved_sectors (b : list Z) : Z := field 2 14 b.
Definition bpb_num_fats (b : list Z) : Z := field 1 16 b.
Definition bpb_root_entries (b : list Z) : Z := field 2 17 b.
Definition bpb_total_sectors (b : list Z) : Z := field 2 19 b.
Definition bpb_sectors_per_fat (b : list Z) : Z := field 2 22 b.
Definition bpb_total_sectors_large (b : list Z) : Z := field 4 32 b.
Definition bpb_sectors_per_fat32 (b : list Z) : Z := field 4 36 b.
Definition bpb_root_cluster (b : list Z) : Z := field 4 44 b.

(** the checks of [fat32_get_super] and the layout it computes *)
Definition parse_bpb (b : list Z) : option fat32_fs_priv :=
  let bps := bpb_bytes_per_sector b in
  let spc := bpb_sectors_per_cluster b in
  if negb (bpb_root_entries b =? 0) || negb (bpb_sectors_per_fat b =? 0) then None else
  if (bps <? 512) || (4096 <? bps) || negb (Z.land bps (bps - 1) =? 0) then None else
  if (spc =? 0) || negb (Z.land spc (spc - 1) =? 0) then None else
  if (bpb_reserved_sectors b =? 0) || (bpb_num_fats b =? 0) then None else
  let total := if bpb_total_sectors b =? 0 then bpb_total_sectors_large b else bpb_total_sectors b in
  if (total =? 0) || (bpb_sectors_per_fat32 b =? 0) then None else
  let fats := u32 (bpb_num_fats b * bpb_sectors_per_fat32 b) in
  let count := u32 (total - bpb_reserved_sectors b - fats) / spc in
  if (count <? 65525) || (bpb_root_cluster b <? 2) then None else
  Some (mkFatPriv bps spc (bpb_reserved_sectors b) (bpb_num_fats b) (bpb_sectors_per_fat32 b) total
    (bpb_reserved_sectors b) (u32 (bpb_reserved_sectors b + fats)) (bpb_root_cluster b) count).
(** the part of [fat32_get_super] that has the layout *)
Definition build_super (fs : fat32_fs_priv) : M St (option fsuper) :=
  let* q := falloc SIZEOF_FAT_FS_PRIV in
  if q =? 0 then mret None else
  let* sb := falloc SIZEOF_FAT_SUPER in
  if sb =? 0 then ffree q ;;; mret None else
  let* root := fat32_root_inode fs in
  match root with
  | None => ffree sb ;;; ffree q ;;; mret None
  | Some root => mret (Some (mkFsuper sb q fs root))
  end.
Definition fat32_get_super : M St (option fsuper) :=
  with_fbuf FAT32_SECTOR_SIZE None
    (let* r := f_dev (dev_read 0) in
     if r.1 <? 0 then mret None else
     match parse_bpb r.2 with
     | None => mret None
     | Some fs => build_super fs
     end).
(** [inode_put(sb->root)] drops the last reference *)
Definition fat32_kill_sb (sb : fsuper) : M St unit :=
  fat32_inode_destroy (fsb_root sb) ;;;
  (if fsb_priv_ptr sb =? 0 then mret tt else ffree (fsb_priv_ptr sb)) ;;;
  ffree (fsb_ptr sb).
End FatFile.
