(* ===== verification/FatTable.v ===== *)
(** A FAT32 volume: the program logic of the FAT32 proofs, the allocation table
    and the clusters, and the chains of clusters that files and directories are. *)
From stdpp Require Import base gmap list.
From Stdlib Require Import ZArith Lia.
From S2P Require Import Prelude Bytes HashMap BlockDev Fat FatDir FatFile.
Open Scope Z_scope.

(** * Program logic *)
Definition vol : Type := Z -> list Z.
Definition vset (x : Z) (bs : list Z) (v : vol) : vol := fun y => if decide (y = x) then bs else v y.

Section Logic.
Context {D H : Type} `{DD : BlockDev D} `{HH : Heap H}.
Abbreviation St := (fat_state D H).

(** nothing fails *)
Definition fat_reliable : Prop := dev_reliable (D := D) /\ dev_writes (D := D) /\ heap_reliable (H := H).
Definition shows (s : St) (v : vol) : Prop := forall x, sector_data (fat_dev s) x = v x.
Definition vol_ok (v : vol) : Prop := forall x, length (v x) = 512%nat /\ bytes_ok (v x).

Definition ftriple {A} (v : vol) (m : M St A) (R : A -> vol -> Prop) : Prop :=
  forall L s, heap_inv (fat_heap s) L -> shows s v ->
    wp m (fun r s' => heap_inv (fat_heap s') L /\ exists v', shows s' v' /\ R r v') s.

Lemma ft_vol {A} v (m : M St A) R : (vol_ok v -> ftriple v m R) -> ftriple v m R.
Proof.
  intros W L s I Sh. apply W; [|done|done]. intros x. rewrite <- Sh. split; [apply sector_len|apply sector_ok].
Qed.
Lemma ft_ret {A} v (a : A) (R : A -> vol -> Prop) : R a v -> ftriple v (mret a) R.
Proof. intros HR L s I Sh. apply wp_ret. split; [done|]. by exists v. Qed.
Lemma ft_bind {A B} v (m : M St A) (k : A -> M St B) R R' :
  ftriple v m R -> (forall a v', R a v' -> ftriple v' (k a) R') -> ftriple v (mbind' m k) R'.
Proof.
  intros W1 W2 L s I Sh. apply wp_bind. eapply wp_conseq; [by apply W1|].
  intros a s' (I' & v' & Sh' & HR). by apply (W2 a v').
Qed.
Lemma ft_conseq {A} v (m : M St A) (R R' : A -> vol -> Prop) :
  ftriple v m R -> (forall a v', R a v' -> R' a v') -> ftriple v m R'.
Proof.
  intros W HR L s I Sh. eapply wp_conseq; [by apply W|]. intros a s' (I' & v' & Sh' & Ha). split; [done|]. exists v'. auto.
Qed.

Lemma falloc_ok L s n : heap_inv (fat_heap s) L -> 1 <= n <= 4096 ->
  wp (falloc n) (fun a (s' : St) => fat_dev s' = fat_dev s /\
    ((a <> 0 /\ (a ∉ L) /\ heap_inv (fat_heap s') ({[a]} ∪ L)) \/ (a = 0 /\ heap_inv (fat_heap s') L /\ ~ fat_reliable))) s.
Proof.
  intros I Hn. unfold wp, falloc, zoom.
  destruct (halloc_ok (fat_heap s) L n I Hn) as [(a & h' & E & Ha & Hf & I')|[(h' & E & I')|E]]; rewrite E; [..|done].
  - split; [done|]. left. done.
  - split; [done|]. right. split_and!; [done|done|]. intros (_ & _ & R). by apply (R _ _ _ Hn E).
Qed.
Lemma ffree_ok L s a : heap_inv (fat_heap s) ({[a]} ∪ L) -> a ∉ L ->
  wp (ffree a) (fun _ (s' : St) => fat_dev s' = fat_dev s /\ heap_inv (fat_heap s') L) s.
Proof.
  intros I Ha. unfold wp, ffree, zoom. destruct (hfree_ok (fat_heap s) _ a I) as (h' & E & I'); [set_solver|].
  rewrite E. split; [done|]. simpl. by replace L with (({[a]} ∪ L) ∖ {[a]}) by set_solver.
Qed.
Lemma ft_with_buf {A} v n (fail : A) body (R : A -> vol -> Prop) :
  1 <= n <= 4096 -> (~ fat_reliable -> R fail v) -> ftriple v body R -> ftriple v (with_fbuf n fail body) R.
Proof.
  intros Hn Hf W L s I Sh. unfold with_fbuf. apply wp_bind. eapply wp_conseq; [by apply falloc_ok|].
  intros a s1 (Ed & [(Ha & HaL & I1)|(-> & I1 & Hr)]).
  - rewrite (proj2 (Z.eqb_neq _ _) Ha). apply wp_bind. eapply wp_conseq; [apply (W ({[a]} ∪ L) s1 I1); intros x; by rewrite Ed|].
    intros r s2 (I2 & v' & Sh2 & HR). apply wp_bind. eapply wp_conseq; [by apply (ffree_ok L)|].
    intros [] s3 [Ed3 I3]. apply wp_ret. split; [done|]. exists v'. split; [intros x; by rewrite Ed3|done].
  - apply wp_ret. split; [done|]. exists v. split; [intros x; by rewrite Ed|auto].
Qed.

(** ** Sectors *)
Lemma ft_read v x : ftriple v (fat32_read_sector x)
  (fun r v' => v' = v /\ ((0 <= r.1 /\ r.2 = v x) \/ (r.1 < 0 /\ ~ fat_reliable))).
Proof.
  intros L s I Sh. unfold fat32_read_sector, f_dev. apply wp_zoom.
  eapply wp_conseq; [exact (wp_and _ _ _ _ (dev_read_ok (fat_dev s) x) (dev_read_rel (fat_dev s) x))|].
  intros [r bs] d' [[S1 E1] R1]. simpl in *. split; [done|]. exists v. split; [intros y; simpl; by rewrite S1|].
  split; [done|]. destruct (decide (0 <= r)) as [Hr|Hr]; [left; split; [done|]; rewrite <- Sh; by apply E1|right].
  split; [lia|]. intros (R & _). specialize (R1 R). lia.
Qed.
Lemma ft_write v x bs : length bs = 512%nat -> bytes_ok bs -> ftriple v (fat32_write_sector x bs)
  (fun r v' => exists bs', v' = vset x bs' v /\ ((0 <= r /\ bs' = bs) \/ (r < 0 /\ ~ fat_reliable))).
Proof.
  intros Hl Hb L s I Sh. unfold fat32_write_sector, f_dev. apply wp_zoom.
  eapply wp_conseq; [exact (wp_and _ _ _ _ (dev_write_ok (fat_dev s) x bs Hl Hb) (dev_write_rel (fat_dev s) x bs Hl Hb))|].
  intros r d' [[S1 E1] R1]. simpl in *. split; [done|]. exists (vset x (sector_data d' x) v). split.
  - intros y. unfold vset. simpl. case_decide as Ey; [by subst|]. by rewrite S1, Sh.
  - exists (sector_data d' x). split; [done|]. destruct (decide (0 <= r)) as [Hr|Hr]; [left; by rewrite E1|right].
    split; [lia|]. intros (_ & R & _). specialize (R1 R). lia.
Qed.
Lemma ft_fld {A} v off n buf (k : list Z -> M St A) R :
  0 <= off -> off + n <= Z.of_nat (length buf) -> ftriple v (k (slice (Z.to_nat off) (Z.to_nat n) buf)) R ->
  ftriple v (mbind' (fld off n buf) k) R.
Proof.
  intros H1 H2 W. unfold fld, fin_buf. rewrite (proj2 (Z.leb_le _ _) H1), (proj2 (Z.leb_le _ _) H2). exact W.
Qed.
Lemma ft_fput {A} v off bs buf (k : list Z -> M St A) R :
  0 <= off -> off + Z.of_nat (length bs) <= Z.of_nat (length buf) -> ftriple v (k (splice (Z.to_nat off) bs buf)) R ->
  ftriple v (mbind' (fput off bs buf) k) R.
Proof.
  intros H1 H2 W. unfold fput, fin_buf. rewrite (proj2 (Z.leb_le _ _) H1), (proj2 (Z.leb_le _ _) H2). exact W.
Qed.
End Logic.

(** * The allocation table *)
Record fgeom (fs : fat32_fs_priv) : Prop := {
  g_bps : bytes_per_sector fs = 512;
  g_spc : 1 <= sectors_per_cluster fs <= 128;
  g_count : 1 <= cluster_count fs <= 0x0FFFFFF5;
  g_start : 0 <= fat_start fs;
  g_table : fat_start fs + (cluster_count fs + 1) * 4 / 512 < data_start fs;
  g_end : data_start fs + cluster_count fs * sectors_per_cluster fs <= 2 ^ 32 }.

Section Table.
Context {D H : Type} `{DD : BlockDev D} `{HH : Heap H}.
Abbreviation St := (fat_state D H).
Abbreviation rel := (fat_reliable (D := D) (H := H)).
Context (fs : fat32_fs_priv) (G : fgeom fs).

(** the cluster numbers of the volume *)
Definition cl (c : Z) : Prop := 2 <= c < cluster_count fs + 2.
Definition fat_sec (c : Z) : Z := fat_start fs + c * 4 / 512.
(** the low 28 bits of the entry of [c] *)
Definition fat (v : vol) (c : Z) : Z := Z.land (field 4 (Z.to_nat (c * 4 mod 512)) (v (fat_sec c))) 0x0FFFFFFF.

Lemma cl_sec c : cl c -> u32 (fat_start fs + u32 (c * 4) / bytes_per_sector fs) = fat_sec c /\
  u32 (c * 4) mod bytes_per_sector fs = c * 4 mod 512 /\ 0 <= c * 4 mod 512 <= 508 /\ (c * 4 mod 512) mod 4 = 0 /\ fat_sec c < data_start fs.
Proof.
  intros Hc. destruct G as [-> Hs Hn H0 Ht He]. unfold cl in Hc. rewrite (u32_small (c * 4)) by lia.
  assert (0 <= c * 4 / 512 <= (cluster_count fs + 1) * 4 / 512) as Hq.
  { split; [apply Z.div_pos; lia|apply Z.div_le_mono; lia]. }
  assert ((c * 4 mod 512) mod 4 = 0) as Hm.
  { rewrite Z.mod_mod_divide by (by exists 128). apply Z.mod_mul; lia. }
  pose proof (Z.mod_pos_bound (c * 4) 512 ltac:(lia)) as Hb.
  assert (data_start fs < 2 ^ 32) by nia.
  unfold fat_sec. rewrite u32_small by lia. split_and!; try lia.
  pose proof (Z.div_mod (c * 4 mod 512) 4 ltac:(lia)). lia.
Qed.
Lemma cl_guard c : cl c -> (c <? 2) || (u32 (cluster_count fs + 2) <=? c) = false.
Proof.
  intros Hc. destruct G as [_ _ Hn _ _ _]. unfold cl in Hc. rewrite u32_small by lia.
  apply orb_false_iff. split; [apply Z.ltb_ge; lia|apply Z.leb_gt; lia].
Qed.
Lemma valid_iff c : fat32_is_valid_cluster fs c = true <-> cl c.
Proof.
  destruct G as [_ _ Hn _ _ _]. unfold fat32_is_valid_cluster, cl, FAT32_EOF_MASK. rewrite u32_small by lia.
  rewrite !andb_true_iff, Z.leb_le, !Z.ltb_lt. lia.
Qed.
Lemma cl_not_end c : cl c -> fat32_is_chain_end c = false.
Proof.
  destruct G as [_ _ Hn _ _ _]. unfold fat32_is_chain_end, cl, FAT32_EOF_MASK, FAT32_BAD_MARK. intros Hc.
  rewrite (proj2 (Z.leb_gt _ _)) by lia. rewrite !(proj2 (Z.eqb_neq _ _)) by lia. done.
Qed.
Lemma bps_ok : 1 <= bytes_per_sector fs <= 4096.
Proof. rewrite (g_bps fs G). lia. Qed.

Lemma fat_range v c : 0 <= fat v c < 2 ^ 28.
Proof.
  unfold fat. change 0x0FFFFFFF with (Z.ones 28). rewrite Z.land_ones by lia. apply Z.mod_pos_bound. lia.
Qed.

(** ** One entry *)
Lemma fat_get_ok v c : cl c -> ftriple (D := D) (H := H) v (fat32_fat_get fs c)
  (fun r v' => v' = v /\ (r = Some (fat v c) \/ (r = None /\ ~ rel))).
Proof.
  intros Hc. apply ft_vol. intros Hv. unfold fat32_fat_get. rewrite (cl_guard c Hc). destruct (cl_sec c Hc) as (-> & -> & Hb & _ & _).
  apply ft_with_buf; [apply bps_ok|by auto|]. eapply ft_bind; [apply ft_read|]. intros [r bs] v' (-> & [[Hr Eb]|[Hr Hn]]); cbn [fst snd] in *.
  - rewrite (proj2 (Z.ltb_ge _ _) Hr), Eb. apply ft_fld; [lia|rewrite (proj1 (Hv _)); lia|]. apply ft_ret. split; [done|]. by left.
  - rewrite (proj2 (Z.ltb_lt _ _) Hr). apply ft_ret. auto.
Qed.
Lemma fat_get_bad v c : ~ cl c -> ftriple (D := D) (H := H) v (fat32_fat_get fs c) (fun r v' => v' = v /\ r = None).
Proof.
  intros Hc. unfold fat32_fat_get. destruct ((c <? 2) || _) eqn:E; [by apply ft_ret|]. exfalso. apply Hc.
  apply orb_false_iff in E as [E1 E2]. destruct G as [_ _ Hn _ _ _]. rewrite u32_small in E2 by lia. breflect. unfold cl. lia.
Qed.

(** [v'] is [v] with entry [c] set to [x]; sectors outside the table stay *)
Definition fat_upd (c x : Z) (v v' : vol) : Prop :=
  (forall c', cl c' -> fat v' c' = if decide (c' = c) then x else fat v c') /\
  (forall y, y < fat_start fs \/ data_start fs <= y -> v' y = v y).

Lemma low_bits old x : 0 <= x < 2 ^ 28 ->
  Z.land (Z.lor (Z.land old 0xF0000000) (Z.land x 0x0FFFFFFF) mod 2 ^ (8 * Z.of_nat 4)) 0x0FFFFFFF = x.
Proof.
  intros Hx. change 0x0FFFFFFF with (Z.ones 28). rewrite Z.land_ones by lia.
  rewrite Z.mod_mod_divide by (by exists 16). rewrite <- Z.land_ones by lia.
  rewrite Z.land_lor_distr_l, <- !Z.land_assoc. change (Z.land 0xF0000000 (Z.ones 28)) with 0.
  rewrite Z.land_0_r, Z.lor_0_l, Z.land_diag, Z.land_ones by lia. by apply Z.mod_small.
Qed.
Lemma sector_index a b : 0 <= a -> 0 <= b -> a mod 512 = b mod 512 -> a / 512 = b / 512 -> a = b.
Proof. intros Ha Hb E1 E2. rewrite (Z.div_mod a 512), (Z.div_mod b 512) by lia. lia. Qed.
Lemma set_entry v c x : vol_ok v -> cl c -> 0 <= x < 2 ^ 28 ->
  fat_upd c x v (vset (fat_sec c) (set_field 4 (Z.to_nat (c * 4 mod 512))
    (Z.lor (Z.land (field 4 (Z.to_nat (c * 4 mod 512)) (v (fat_sec c))) 0xF0000000) (Z.land x 0x0FFFFFFF)) (v (fat_sec c))) v).
Proof.
  intros Hv Hc Hx. destruct (cl_sec c Hc) as (_ & _ & Hb & Hm & Hd). split.
  - intros c' Hc'. destruct (cl_sec c' Hc') as (_ & _ & Hb' & Hm' & _). unfold fat, vset. case_decide as E; case_decide as E'; try done.
    + subst c'. rewrite field_set_same by (rewrite (proj1 (Hv _)); lia). by apply low_bits.
    + rewrite field_set_disjoint; [by rewrite E| |rewrite (proj1 (Hv _)); lia].
      assert (c' * 4 mod 512 <> c * 4 mod 512) as Hne.
      { intros Eo. apply E'. unfold fat_sec in E. unfold cl in *. pose proof (sector_index (c' * 4) (c * 4)) as X. lia. }
      pose proof (Z.div_mod (c * 4 mod 512) 4 ltac:(lia)). pose proof (Z.div_mod (c' * 4 mod 512) 4 ltac:(lia)). lia.
    + subst c'. done.
  - intros y Hy. unfold vset. rewrite decide_False; [done|]. intros ->.
    assert (fat_start fs <= fat_sec c); [|lia]. unfold fat_sec, cl in *. pose proof (Z.div_pos (c * 4) 512). lia.
Qed.

Lemma fat_set_ok v c x : cl c -> 0 <= x < 2 ^ 28 -> ftriple (D := D) (H := H) v (fat32_fat_set fs c x)
  (fun r v' => (0 <= r /\ fat_upd c x v v') \/ (r < 0 /\ ~ rel)).
Proof.
  intros Hc Hx. apply ft_vol. intros Hv. unfold fat32_fat_set. rewrite (cl_guard c Hc). destruct (cl_sec c Hc) as (-> & -> & Hb & _ & _).
  apply ft_with_buf; [apply bps_ok|right; by split; [lia|]|]. eapply ft_bind; [apply ft_read|].
  intros [r bs] v' (-> & [[Hr Eb]|[Hr Hn]]); cbn [fst snd] in *.
  - rewrite (proj2 (Z.ltb_ge _ _) Hr), Eb. apply ft_fld; [lia|rewrite (proj1 (Hv _)); lia|].
    apply ft_fput; [lia|rewrite (proj1 (Hv _)), length_le_enc; lia|]. eapply ft_conseq; [apply ft_write|].
    + rewrite length_splice; [apply Hv|]. rewrite length_le_enc, (proj1 (Hv _)). lia.
    + apply splice_ok; [apply le_enc_ok|apply Hv].
    + intros w v' (bs' & -> & [[Hw ->]|[Hw Hn]]); [left|by right]. split; [done|]. by apply (set_entry v c x).
  - rewrite (proj2 (Z.ltb_lt _ _) Hr). apply ft_ret. right. split; [lia|done].
Qed.

(** ** Clusters *)
Abbreviation spc := (sectors_per_cluster fs).
Definition csec (c : Z) : Z := data_start fs + (c - 2) * spc.
Fixpoint secs (n : nat) (x : Z) (v : vol) : list Z :=
  match n with O => [] | S n' => v x ++ secs n' (x + 1) v end.
(** the bytes of cluster [c] *)
Definition cdata (v : vol) (c : Z) : list Z := secs (Z.to_nat spc) (csec c) v.
(** sector [y] belongs to cluster [c] *)
Definition in_cluster (c y : Z) : Prop := csec c <= y < csec c + spc.

Lemma csec_ok c i : cl c -> 0 <= i < spc ->
  fat32_cluster_to_sector fs c = csec c /\ u32 (csec c + i) = csec c + i /\ data_start fs <= csec c + i.
Proof.
  intros Hc Hi. destruct G as [_ Hs Hn H0 Ht He]. unfold cl in Hc. unfold fat32_cluster_to_sector, csec.
  assert (0 <= data_start fs) by (pose proof (Z.div_pos ((cluster_count fs + 1) * 4) 512); lia).
  rewrite (u32_small (c - 2)), (u32_small ((c - 2) * spc)) by nia. rewrite !u32_small by nia. split_and!; [done..|nia].
Qed.
Lemma in_cluster_inj c c' y : in_cluster c y -> in_cluster c' y -> c = c'.
Proof. destruct G as [_ Hs _ _ _ _]. unfold in_cluster, csec. intros. nia. Qed.
Lemma in_cluster_data c y : cl c -> in_cluster c y -> data_start fs <= y.
Proof. destruct G as [_ Hs _ _ _ _]. unfold in_cluster, csec, cl. intros. nia. Qed.

Lemma secs_ext n x v v' : (forall y, x <= y < x + Z.of_nat n -> v' y = v y) -> secs n x v' = secs n x v.
Proof.
  revert x; induction n as [|n IH]; intros x E; [done|]. cbn [secs]. rewrite E by lia. f_equal. apply IH. intros. apply E. lia.
Qed.
Lemma secs_const n x v bs : (forall y, x <= y < x + Z.of_nat n -> v y = bs) -> secs n x v = mjoin (replicate n bs).
Proof.
  revert x; induction n as [|n IH]; intros x E; [done|]. cbn [secs replicate]. rewrite E by lia. simpl. f_equal. apply IH. intros. apply E. lia.
Qed.
Lemma cdata_ext c v v' : (forall y, in_cluster c y -> v' y = v y) -> cdata v' c = cdata v c.
Proof. intros E. apply secs_ext. intros y Hy. apply E. unfold in_cluster. pose proof (g_spc fs G). lia. Qed.

(** every sector outside the table and the clusters [cs] is unchanged *)
Definition data_same (cs : list Z) (v v' : vol) : Prop :=
  forall y, y < fat_start fs \/ data_start fs <= y -> (forall c, c ∈ cs -> ~ in_cluster c y) -> v' y = v y.
Lemma data_same_refl cs v : data_same cs v v.
Proof. done. Qed.
Lemma data_same_trans cs v1 v2 v3 : data_same cs v1 v2 -> data_same cs v2 v3 -> data_same cs v1 v3.
Proof. intros H1 H2 y Hy Hc. rewrite H2 by done. by apply H1. Qed.
Lemma data_same_sub cs cs' v v' : (forall c, c ∈ cs -> c ∈ cs') -> data_same cs v v' -> data_same cs' v v'.
Proof. intros Hs E y Hy Hc. apply E; [done|]. intros c ?%Hs. by apply Hc. Qed.
Lemma upd_same c x v v' : fat_upd c x v v' -> data_same [] v v'.
Proof. intros [_ E] y Hy _. by apply E. Qed.
Lemma data_same_cdata cs c v v' : data_same cs v v' -> cl c -> c ∉ cs -> cdata v' c = cdata v c.
Proof.
  intros E Hc Hn. apply cdata_ext. intros y Hy. apply E; [right; by eapply in_cluster_data|].
  intros c' Hc' Hy'. by rewrite (in_cluster_inj c c' y Hy Hy') in Hn.
Qed.

(** ** Allocation *)
Abbreviation zeros := (replicate (Z.to_nat 512) 0).
Lemma zeros_ok : length zeros = 512%nat /\ bytes_ok zeros.
Proof. split; [by rewrite length_replicate|]. apply Forall_replicate. unfold byte_ok. lia. Qed.

Lemma zero_loop_ok c n : cl c -> forall v i, 0 <= i -> i + Z.of_nat n = spc ->
  ftriple (D := D) (H := H) v (zero_loop fs n c i zeros) (fun r v' =>
    (r = true /\ forall y, v' y = if decide (csec c + i <= y < csec c + spc) then zeros else v y) \/ (r = false /\ ~ rel)).
Proof.
  intros Hc. induction n as [|n IH]; intros v i H0 Hn; cbn [zero_loop].
  { apply ft_ret. left. split; [done|]. intros y. rewrite decide_False by lia. done. }
  destruct (csec_ok c i Hc ltac:(lia)) as (-> & -> & _). eapply ft_bind; [apply ft_write; apply zeros_ok|].
  intros w v' (bs & -> & [[Hw ->]|[Hw Hr]]).
  - rewrite (proj2 (Z.ltb_ge _ _) Hw). eapply ft_conseq; [apply IH; lia|]. intros r v' [[-> E]|?]; [left|by right].
    split; [done|]. intros y. rewrite E. unfold vset. repeat case_decide; try done; lia.
  - rewrite (proj2 (Z.ltb_lt _ _) Hw). apply ft_ret. by right.
Qed.

(** cluster [c] was free and is now a chain of its own, full of zeros *)
Record allocated (c : Z) (v v' : vol) : Prop := {
  al_cl : cl c;
  al_free : fat v c = 0;
  al_fat c' : cl c' -> fat v' c' = if decide (c' = c) then FAT32_EOF_MARK else fat v c';
  al_zero : cdata v' c = mjoin (replicate (Z.to_nat spc) zeros);
  al_same : data_same [c] v v' }.

Lemma fat_ext v v' c : cl c -> (forall y, y < data_start fs -> v' y = v y) -> fat v' c = fat v c.
Proof. intros Hc E. unfold fat. rewrite E; [done|]. apply (cl_sec c Hc). Qed.
Lemma allocated_intro c v v1 v2 : cl c -> fat v c = 0 -> fat_upd c FAT32_EOF_MARK v v1 ->
  (forall y, v2 y = if decide (csec c + 0 <= y < csec c + spc) then zeros else v1 y) -> allocated c v v2.
Proof.
  intros Hc Hf [U1 U2] E. split; [done|done|..].
  - intros c' Hc'. rewrite (fat_ext v1 v2 c' Hc'); [by apply U1|]. intros y Hy. rewrite E, decide_False; [done|].
    intros Hy'. assert (data_start fs <= y); [|lia]. apply (in_cluster_data c); [done|]. unfold in_cluster. lia.
  - apply secs_const. intros y Hy. rewrite E, decide_True; [done|]. pose proof (g_spc fs G). lia.
  - intros y Hy Hn. rewrite E, decide_False; [by apply U2|]. intros Hy'. apply (Hn c); [by left|]. unfold in_cluster. lia.
Qed.

Definition alloc_post (v : vol) (r : option Z) (v' : vol) : Prop :=
  match r with
  | Some c => allocated c v v' /\ forall c', 2 <= c' < c -> fat v c' <> 0
  | None => (v' = v /\ forall c, cl c -> fat v c <> 0) \/ ~ rel
  end.
Lemma alloc_loop_ok n : forall v c, 2 <= c -> c + Z.of_nat n = cluster_count fs + 2 -> (forall c', 2 <= c' < c -> fat v c' <> 0) ->
  ftriple (D := D) (H := H) v (alloc_loop fs n c zeros) (alloc_post v).
Proof.
  induction n as [|n IH]; intros v c H2 Hn Hb; cbn [alloc_loop].
  { apply ft_ret. left. split; [done|]. intros c' [? ?]. apply Hb. lia. }
  assert (cl c) as Hc by (split; lia). eapply ft_bind; [by apply fat_get_ok|]. intros r v' (-> & [->|[-> Hr]]); [|apply ft_ret; by right].
  destruct (fat v c =? 0) eqn:E; breflect; simpl negb; cbn [negb].
  - eapply ft_bind; [apply fat_set_ok; [done|unfold FAT32_EOF_MARK; lia]|]. intros w v1 [[Hw U]|[Hw Hr]].
    + rewrite (proj2 (Z.ltb_ge _ _) Hw). eapply ft_bind; [apply zero_loop_ok; [done|lia|pose proof (g_spc fs G); lia]|].
      intros ok v2 [[-> E2]|[-> Hr]].
      * apply ft_ret. split; [by eapply allocated_intro|done].
      * eapply ft_bind; [apply fat_set_ok; [done|unfold FAT32_FREE_MARK; lia]|]. intros ? ? _. apply ft_ret. by right.
    + rewrite (proj2 (Z.ltb_lt _ _) Hw). apply ft_ret. by right.
  - apply IH; [lia|lia|]. intros c' Hc'. destruct (decide (c' = c)) as [->|?]; [done|apply Hb; lia].
Qed.
(** [fat32_alloc_cluster] takes the first free cluster *)
Lemma alloc_cluster_ok v : ftriple (D := D) (H := H) v (fat32_alloc_cluster fs) (alloc_post v).
Proof.
  unfold fat32_alloc_cluster. apply ft_with_buf; [apply bps_ok|by right|]. rewrite (g_bps fs G).
  destruct G as [_ _ Hn _ _ _]. apply alloc_loop_ok; [lia|rewrite u32_small; lia|intros; lia].
Qed.
End Table.

(** * Chains *)
Section Chain.
Context {D H : Type} `{DD : BlockDev D} `{HH : Heap H}.
Abbreviation St := (fat_state D H).
Abbreviation rel := (fat_reliable (D := D) (H := H)).
Context (fs : fat32_fs_priv) (G : fgeom fs).
Abbreviation cl := (cl fs).
Abbreviation fat := (fat fs).

(** the clusters [cs] follow each other in table [F] and the last one ends *)
Fixpoint chain (F : Z -> Z) (cs : list Z) : Prop :=
  match cs with
  | [] => True
  | c :: cs' => cl c /\ match cs' with [] => fat32_is_chain_end (F c) = true | c' :: _ => F c = c' end /\ chain F cs'
  end.

Lemma chain_cl F cs c : chain F cs -> c ∈ cs -> cl c.
Proof.
  induction cs as [|d cs IH]; intros Hc Hi; [by apply elem_of_nil in Hi|]. destruct Hc as (Hd & _ & Hc).
  apply elem_of_cons in Hi as [->|Hi]; [done|by apply IH].
Qed.
Lemma fchain_ext F F' cs : (forall c, c ∈ cs -> F' c = F c) -> chain F cs -> chain F' cs.
Proof.
  induction cs as [|c cs IH]; intros E Hc; [done|]. destruct Hc as (Hd & Hn & Hc). split; [done|]. split.
  - rewrite E by left. done.
  - apply IH; [|done]. intros d Hi. apply E. by right.
Qed.
Lemma chain_next F c c' cs : chain F (c :: c' :: cs) -> cl c' /\ F c = c' /\ fat32_is_chain_end (F c) = false.
Proof. intros (_ & E & Hc & _). split; [done|]. split; [done|]. rewrite E. by apply (cl_not_end fs G). Qed.
(** a table has one chain from a cluster, so a chain does not repeat *)
Lemma chain_det F c a b : chain F (c :: a) -> chain F (c :: b) -> a = b.
Proof.
  revert c b; induction a as [|x a IH]; intros c [|y b] Ha Hb; [done|..].
  - destruct (chain_next _ _ _ _ Hb) as (_ & _ & E). destruct Ha as (_ & E' & _). congruence.
  - destruct (chain_next _ _ _ _ Ha) as (_ & _ & E). destruct Hb as (_ & E' & _). congruence.
  - destruct Ha as (_ & <- & Ha), Hb as (_ & E & Hb). rewrite <- E in Hb. rewrite <- E. f_equal. by eapply IH.
Qed.
Lemma chain_suffix F a b : chain F (a ++ b) -> chain F b.
Proof. induction a as [|x a IH]; [done|]. intros (_ & _ & Hc). by apply IH. Qed.
Lemma chain_NoDup F cs : chain F cs -> NoDup cs.
Proof.
  induction cs as [|c cs IH]; intros Hc; [constructor|]. apply NoDup_cons. split; [|by apply IH, Hc].
  intros (a & b & ->)%list_elem_of_split. pose proof (chain_suffix F (c :: a) (c :: b) Hc) as Hs.
  pose proof (chain_det F c _ _ Hc Hs) as E. apply (f_equal length) in E. rewrite length_app in E. simpl in E. lia.
Qed.
Lemma chain_length F cs : chain F cs -> (length cs <= Z.to_nat (cluster_count fs))%nat.
Proof.
  intros Hc. pose proof (g_count fs G). rewrite <- (length_seqZ 2 (cluster_count fs)). apply submseteq_length, NoDup_submseteq; [by eapply chain_NoDup|].
  intros c Hi. apply elem_of_seqZ. pose proof (chain_cl F cs c Hc Hi) as Hr. unfold FatTable.cl in Hr. lia.
Qed.
Lemma chain_app F a c : chain F (a ++ [c]) -> forall F' x, fat32_is_chain_end (F' x) = true -> cl x -> F' c = x -> (forall d, d ∈ a -> F' d = F d) ->
  chain F' (a ++ [c; x]).
Proof.
  induction a as [|d a IH]; simpl; intros Hc F' x He Hx Ec Ea.
  - destruct Hc as (Hc & _). done.
  - destruct Hc as (Hd & Hn & Hc). split; [done|]. split; [|apply IH; [done..|intros; apply Ea; by right]].
    rewrite (Ea d) by left. destruct a; [|done]. simpl in *. done.
Qed.

(** ** Freeing *)
Definition freed (cs : list Z) (v v' : vol) : Prop :=
  (forall c, cl c -> fat v' c = if decide (c ∈ cs) then 0 else fat v c) /\ data_same fs [] v v'.

Lemma free_loop_ok cs : forall v c g, chain (fat v) (c :: cs) -> (length cs < g)%nat ->
  ftriple (D := D) (H := H) v (free_chain_loop fs g c) (fun r v' => (r = 0 /\ freed (c :: cs) v v') \/ (r < 0 /\ ~ rel)).
Proof.
  induction cs as [|c' cs IH]; intros v c g Hc Hg; (destruct g as [|g]; [simpl in Hg; lia|]); cbn [free_chain_loop];
    pose proof (proj1 Hc) as Hcl; rewrite (proj2 (valid_iff fs G c) Hcl); cbn [negb];
    (eapply ft_bind; [by apply (fat_get_ok fs G)|]); intros r v0 (-> & [->|[-> Hr]]); try (apply ft_ret; right; split; [lia|done]);
    (eapply ft_bind; [apply (fat_set_ok fs G); [done|unfold FAT32_FREE_MARK; lia]|]); intros w v1 [[Hw U]|[Hw Hr]];
    try (rewrite (proj2 (Z.ltb_lt _ _) Hw); apply ft_ret; right; split; [lia|done]); rewrite (proj2 (Z.ltb_ge _ _) Hw).
  - destruct Hc as (_ & -> & _). apply ft_ret. left. split; [done|]. split; [|by eapply upd_same].
    intros d Hd. rewrite (proj1 U d Hd). unfold FAT32_FREE_MARK. repeat case_decide; try done; set_solver.
  - destruct (chain_next _ _ _ _ Hc) as (_ & E & ->). rewrite E. pose proof (chain_NoDup _ _ Hc) as Hnd. apply NoDup_cons in Hnd as [Hn _].
    destruct Hc as (_ & _ & Hc). assert (chain (fat v1) (c' :: cs)) as Hc1.
    { eapply fchain_ext; [|exact Hc]. intros d Hd. rewrite (proj1 U d) by (by eapply chain_cl). rewrite decide_False; [done|]. by intros ->. }
    eapply ft_conseq; [apply IH; [exact Hc1|simpl in Hg; lia]|]. intros r v' [[-> [F1 F2]]|?]; [left|by right]. split; [done|]. split.
    + intros d Hd. rewrite F1 by done. rewrite (proj1 U d Hd). unfold FAT32_FREE_MARK. repeat case_decide; try done; set_solver.
    + eapply data_same_trans; [by eapply upd_same|done].
Qed.
(** [fat32_free_chain] frees exactly the clusters of the chain *)
Lemma free_chain_ok v c cs : chain (fat v) (c :: cs) ->
  ftriple (D := D) (H := H) v (fat32_free_chain fs c) (fun r v' => (r = 0 /\ freed (c :: cs) v v') \/ (r < 0 /\ ~ rel)).
Proof. intros Hc. apply free_loop_ok; [done|]. apply chain_length in Hc. simpl in Hc. lia. Qed.
Lemma free_invalid v c : ~ cl c -> ftriple (D := D) (H := H) v (fat32_free_chain fs c) (fun r v' => r = 0 /\ v' = v).
Proof.
  intros Hc. unfold fat32_free_chain. destruct (Z.to_nat (cluster_count fs)); cbn [free_chain_loop];
    (destruct (fat32_is_valid_cluster fs c) eqn:E; [by apply (valid_iff fs G) in E|]); by apply ft_ret.
Qed.

(** ** Measuring *)
Lemma len_loop_ok cs : forall v c g n, chain (fat v) (c :: cs) -> (length cs < g)%nat ->
  ftriple (D := D) (H := H) v (chain_len_loop fs g c n) (fun r v' => v' = v /\ (r = n + Z.of_nat (length (c :: cs)) \/ ~ rel)).
Proof.
  induction cs as [|c' cs IH]; intros v c g n Hc Hg; (destruct g as [|g]; [simpl in Hg; lia|]); cbn [chain_len_loop];
    pose proof (proj1 Hc) as Hcl; rewrite (proj2 (valid_iff fs G c) Hcl); cbn [negb];
    (eapply ft_bind; [by apply (fat_get_ok fs G)|]); intros r v0 (-> & [->|[-> Hr]]); try (apply ft_ret; split; [done|by right]).
  - destruct Hc as (_ & -> & _). apply ft_ret. split; [done|]. left. simpl. lia.
  - destruct (chain_next _ _ _ _ Hc) as (_ & E & ->). rewrite E. destruct Hc as (_ & _ & Hc).
    eapply ft_conseq; [apply IH; [exact Hc|simpl in Hg; lia]|]. intros r v' (-> & [->|?]); (split; [done|]); [left; simpl; lia|by right].
Qed.
Lemma chain_len_ok v c cs : chain (fat v) (c :: cs) ->
  ftriple (D := D) (H := H) v (fat32_chain_len fs c) (fun r v' => v' = v /\ (r = Z.of_nat (length (c :: cs)) \/ ~ rel)).
Proof.
  intros Hc. eapply ft_conseq; [apply (len_loop_ok cs); [done|]|done]. apply chain_length in Hc. simpl in Hc. lia.
Qed.

(** the tail: [fat32_dir_extend] and [fat32_truncate] *)
Lemma tail_loop_ok cs : forall v c g, chain (fat v) (c :: cs) -> (length cs < g)%nat ->
  ftriple (D := D) (H := H) v (tail_loop fs g c) (fun r v' => v' = v /\ (r = last (c :: cs) \/ (r = None /\ ~ rel))).
Proof.
  induction cs as [|c' cs IH]; intros v c g Hc Hg; (destruct g as [|g]; [simpl in Hg; lia|]); cbn [tail_loop];
    pose proof (proj1 Hc) as Hcl; rewrite (proj2 (valid_iff fs G c) Hcl); cbn [negb];
    (eapply ft_bind; [by apply (fat_get_ok fs G)|]); intros r v0 (-> & [->|[-> Hr]]); try (apply ft_ret; split; [done|by right]).
  - destruct Hc as (_ & -> & _). apply ft_ret. split; [done|]. by left.
  - destruct (chain_next _ _ _ _ Hc) as (_ & E & ->). rewrite E. destruct Hc as (_ & _ & Hc).
    eapply ft_conseq; [apply IH; [exact Hc|simpl in Hg; lia]|]. intros r v' (-> & [->|?]); (split; [done|]); [by left|by right].
Qed.

(** going [n] clusters along a chain: to the cluster there, or beyond the end *)
Lemma skip_read_ok n : forall v c cs, chain (fat v) (c :: cs) -> (n <= length cs)%nat ->
  ftriple (D := D) (H := H) v (skip_read fs n c) (fun r v' => v' = v /\ (r = (c :: cs) !! n \/ (r = None /\ ~ rel))).
Proof.
  induction n as [|n IH]; intros v c cs Hc Hn; cbn [skip_read]; [apply ft_ret; split; [done|]; by left|].
  rewrite (proj2 (valid_iff fs G c) (proj1 Hc)). cbn [negb]. destruct cs as [|c' cs]; [simpl in Hn; lia|].
  eapply ft_bind; [apply (fat_get_ok fs G), Hc|]. intros r v0 (-> & [->|[-> Hr]]); [|apply ft_ret; split; [done|by right]].
  destruct Hc as (_ & -> & Hc). eapply ft_conseq; [apply (IH v c' cs Hc); simpl in Hn; lia|]. done.
Qed.
Lemma skip_write_ok n : forall v c cs, chain (fat v) (c :: cs) -> (n <= length cs)%nat ->
  ftriple (D := D) (H := H) v (skip_write fs n c) (fun r v' => v' = v /\ (r = (c :: cs) !! n \/ (r = None /\ ~ rel))).
Proof.
  induction n as [|n IH]; intros v c cs Hc Hn; cbn [skip_write]; [apply ft_ret; split; [done|]; by left|].
  rewrite (cl_not_end fs G c (proj1 Hc)). rewrite (proj2 (Z.eqb_neq c 0)) by (destruct (proj1 Hc); lia). cbn [orb].
  destruct cs as [|c' cs]; [simpl in Hn; lia|].
  eapply ft_bind; [apply (fat_get_ok fs G), Hc|]. intros r v0 (-> & [->|[-> Hr]]); [|apply ft_ret; split; [done|by right]].
  destruct Hc as (_ & -> & Hc). eapply ft_conseq; [apply (IH v c' cs Hc); simpl in Hn; lia|]. done.
Qed.
(** one step more: the mark that ends the chain *)
Lemma skip_write_end : forall cs v c, chain (fat v) (c :: cs) ->
  ftriple (D := D) (H := H) v (skip_write fs (S (length cs)) c) (fun r v' => v' = v /\
    ((exists cur, r = Some cur /\ fat32_is_chain_end cur = true) \/ (r = None /\ ~ rel))).
Proof.
  induction cs as [|c' cs IH]; intros v c Hc; cbn [length]; cbn [skip_write];
    rewrite (cl_not_end fs G c (proj1 Hc)), (proj2 (Z.eqb_neq c 0)) by (destruct (proj1 Hc); lia); cbn [orb];
    (eapply ft_bind; [apply (fat_get_ok fs G), Hc|]); intros r v0 (-> & [->|[-> Hr]]); try (apply ft_ret; split; [done|by right]).
  - apply ft_ret. split; [done|]. left. eexists. split; [done|]. apply Hc.
  - destruct Hc as (_ & -> & Hc). by apply (IH v c').
Qed.
End Chain.
