(* ===== verification/FatRead.v ===== *)
(** Reading the data of a FAT32 file: the bytes of its clusters, in the order
    of its chain. *)
From stdpp Require Import base gmap list.
From Stdlib Require Import ZArith Lia.
From S2P Require Import Prelude Bytes HashMap BlockDev Fat FatDir FatFile FatTable.
Open Scope Z_scope.

Section Read.
Context {D H : Type} `{DD : BlockDev D} `{HH : Heap H}.
Abbreviation St := (fat_state D H).
Abbreviation rel := (fat_reliable (D := D) (H := H)).
Context (fs : fat32_fs_priv) (G : fgeom fs).
Abbreviation cl := (cl fs).
Abbreviation fat := (fat fs).
Abbreviation spc := (sectors_per_cluster fs).
Abbreviation csec := (csec fs).
Abbreviation cdata := (cdata fs).

(** bytes of a cluster, and of a list of clusters *)
Definition csize : nat := (512 * Z.to_nat spc)%nat.
Definition fbytes (v : vol) (cs : list Z) : list Z := mjoin (cdata v <$> cs).

Lemma cluster_bytes_ok : fat32_cluster_bytes fs = Z.of_nat csize /\ 512 <= Z.of_nat csize <= 65536.
Proof.
  unfold fat32_cluster_bytes, csize. rewrite (g_bps fs G). pose proof (g_spc fs G). rewrite u32_small by lia. split; lia.
Qed.
Lemma length_secs n : forall x v, vol_ok v -> length (secs n x v) = (512 * n)%nat.
Proof. induction n as [|n IH]; intros x v Hv; [done|]. cbn [secs]. rewrite length_app, IH, (proj1 (Hv x)) by done. lia. Qed.
Lemma length_cdata v c : vol_ok v -> length (cdata v c) = csize.
Proof. intros. by apply length_secs. Qed.
Lemma fbytes_cons v c cs : fbytes v (c :: cs) = cdata v c ++ fbytes v cs.
Proof. done. Qed.
Lemma length_fbytes v cs : vol_ok v -> length (fbytes v cs) = (length cs * csize)%nat.
Proof. intros Hv. induction cs as [|c cs IH]; [done|]. rewrite fbytes_cons, length_app, IH, length_cdata by done. simpl. lia. Qed.

(** a piece of one sector *)
Lemma secs_slice n : forall k x v s m, vol_ok v -> (k < n)%nat -> (s + m <= 512)%nat ->
  slice (512 * k + s) m (secs n x v) = slice s m (v (x + Z.of_nat k)).
Proof.
  induction n as [|n IH]; intros k x v s m Hv Hk Hs; [lia|]. cbn [secs]. unfold slice. destruct k as [|k].
  - rewrite drop_app_le, take_app_le by (rewrite ?length_drop, (proj1 (Hv x)); lia).
    replace (512 * 0 + s)%nat with s by lia. by replace (x + Z.of_nat 0) with x by lia.
  - rewrite drop_app_ge by (rewrite (proj1 (Hv x)); lia). rewrite (proj1 (Hv x)).
    replace (512 * S k + s - 512)%nat with (512 * k + s)%nat by lia. specialize (IH k (x + 1) v s m Hv ltac:(lia) Hs).
    unfold slice in IH. rewrite IH. by replace (x + 1 + Z.of_nat k) with (x + Z.of_nat (S k)) by lia.
Qed.
Lemma cdata_slice v c coff n : vol_ok v -> 0 <= coff -> coff mod 512 + n <= 512 -> coff < Z.of_nat csize -> 0 <= n ->
  slice (Z.to_nat (coff mod 512)) (Z.to_nat n) (v (csec c + coff / 512)) = slice (Z.to_nat coff) (Z.to_nat n) (cdata v c).
Proof.
  intros Hv H0 Hn Hc Hn0. unfold FatTable.cdata. pose proof (Z.div_mod coff 512 ltac:(lia)) as E.
  pose proof (Z.mod_pos_bound coff 512 ltac:(lia)). assert (0 <= coff / 512 < spc) as Hq.
  { split; [apply Z.div_pos; lia|]. apply Z.div_lt_upper_bound; [lia|]. unfold csize in Hc. pose proof (g_spc fs G). lia. }
  replace (Z.to_nat coff) with (512 * Z.to_nat (coff / 512) + Z.to_nat (coff mod 512))%nat by lia.
  rewrite secs_slice; [|done|lia|lia]. by rewrite Z2Nat.id by lia.
Qed.
Lemma slice_left a b off n : (off + n <= length a)%nat -> slice off n (a ++ b) = slice off n a.
Proof. intros Hl. unfold slice. rewrite drop_app_le, take_app_le by (rewrite ?length_drop; lia). done. Qed.
Lemma slice_split (l : list Z) off n m : (n <= m)%nat -> slice off m l = slice off n l ++ slice (off + n) (m - n) l.
Proof.
  intros Hn. unfold slice. rewrite <- drop_drop. rewrite <- (take_drop n (take m (drop off l))) at 1.
  rewrite take_take, skipn_firstn_comm. f_equal; f_equal; lia.
Qed.
Lemma slice_app_r a b n : slice (length a) n (a ++ b) = slice 0 n b.
Proof. unfold slice. by rewrite drop_app_length, drop_0. Qed.

(** the sectors that are left to transfer *)
Definition rounds (soff left : Z) : Z := if left =? 0 then 0 else (soff + left + 511) / 512.
Lemma frounds_step soff left n : 0 <= soff < 512 -> 0 < left -> n = Z.min left (512 - soff) ->
  rounds ((soff + n) mod 512) (left - n) = rounds soff left - 1 /\ 1 <= rounds soff left.
Proof.
  intros Hs Hl ->. unfold rounds. rewrite (proj2 (Z.eqb_neq left 0)) by lia. destruct (Z.min_spec left (512 - soff)) as [[? ->]|[? ->]].
  - rewrite Z.sub_diag. simpl. assert ((soff + left + 511) / 512 = 1) as -> by (symmetry; apply (Z.div_unique _ _ _ (soff + left - 1)); lia). lia.
  - replace (soff + (512 - soff)) with 512 by lia. change (512 mod 512) with 0. destruct (left - (512 - soff) =? 0) eqn:E; breflect.
    + replace (soff + left + 511) with (511 + 2 * 512 - 512) by lia. split; done.
    + replace (soff + left + 511) with (0 + (left - (512 - soff)) + 511 + 1 * 512) by lia. rewrite Z.div_add by lia.
      assert (0 <= (0 + (left - (512 - soff)) + 511) / 512) by (apply Z.div_pos; lia). lia.
Qed.
Lemma rounds_nonneg soff left : 0 <= soff -> 0 <= left -> 0 <= rounds soff left.
Proof. intros. unfold rounds. case_match; [lia|]. apply Z.div_pos; lia. Qed.
Lemma fuel_rounds soff left : 0 <= soff < 512 -> 0 <= left -> rounds soff left < Z.of_nat (fat_data_fuel left).
Proof.
  intros Hs Hl. unfold rounds, fat_data_fuel. assert (0 <= left / 512) by (apply Z.div_pos; lia). rewrite Z2Nat.id by lia. case_match; [lia|].
  assert ((soff + left + 511) / 512 <= (left + 2 * 512) / 512) by (apply Z.div_le_mono; lia). rewrite Z.div_add in * by lia. lia.
Qed.

Lemma fread_loop_ok fuel : forall v c cs coff left, chain fs (fat v) (c :: cs) -> 0 <= coff < Z.of_nat csize -> 0 <= left ->
  coff + left <= Z.of_nat (length (c :: cs) * csize) -> rounds (coff mod 512) left < Z.of_nat fuel ->
  ftriple (D := D) (H := H) v (read_data_loop fs fuel c coff left) (fun r v' => v' = v /\
    (r = Some (slice (Z.to_nat coff) (Z.to_nat left) (fbytes v (c :: cs))) \/ (r = None /\ ~ rel))).
Proof.
  induction fuel as [|fuel IH]; intros v c cs coff left Hc Hcoff Hl Hle Hf.
  { pose proof (Z.mod_pos_bound coff 512 ltac:(lia)). pose proof (rounds_nonneg (coff mod 512) left). lia. }
  apply ft_vol. intros Hv. cbn [read_data_loop]. destruct (left <=? 0) eqn:E0; breflect.
  { apply ft_ret. split; [done|]. left. replace left with 0 by lia. done. }
  rewrite (proj2 (valid_iff fs G c) (proj1 Hc)). cbn [negb]. rewrite (g_bps fs G).
  destruct cluster_bytes_ok as [Ecb Hcb]. rewrite Ecb. pose proof (Z.mod_pos_bound coff 512 ltac:(lia)) as Hm.
  pose proof (Z.div_mod coff 512 ltac:(lia)) as Edm. pose proof (g_spc fs G) as Hspc.
  assert (0 <= coff / 512 < spc) as Hq.
  { split; [apply Z.div_pos; lia|]. apply Z.div_lt_upper_bound; [lia|]. unfold csize in Hcoff. lia. }
  destruct (csec_ok fs G c (coff / 512) (proj1 Hc) Hq) as (-> & -> & _). rewrite (u32_small (512 - coff mod 512)) by lia.
  set (n := if left <? 512 - coff mod 512 then left else 512 - coff mod 512).
  assert (n = Z.min left (512 - coff mod 512)) as En by (subst n; case_match; breflect; lia). clearbody n.
  destruct (frounds_step (coff mod 512) left n Hm ltac:(lia) En) as [Er Er1].
  assert (coff + n <= Z.of_nat csize) as Hcn.
  { unfold csize in *. enough (coff + n <= 512 * (coff / 512 + 1)) by lia. lia. }
  eapply ft_bind; [apply ft_read|]. intros [r bs] v' (-> & [[Hr Eb]|[Hr Hn]]); cbn [fst snd] in *;
    [|rewrite (proj2 (Z.ltb_lt _ _) Hr); apply ft_ret; split; [done|by right]].
  rewrite (proj2 (Z.ltb_ge _ _) Hr), Eb. apply ft_fld; [lia|rewrite (proj1 (Hv _)); lia|].
  rewrite (cdata_slice v c coff n) by (done || lia). rewrite (u32_small (coff + n)) by lia.
  rewrite (slice_split (fbytes v (c :: cs)) (Z.to_nat coff) (Z.to_nat n)) by lia. rewrite fbytes_cons, (slice_left _ _ (Z.to_nat coff)) by (rewrite length_cdata; [lia|done]).
  replace (Z.to_nat coff + Z.to_nat n)%nat with (Z.to_nat (coff + n)) by lia. replace (Z.to_nat left - Z.to_nat n)%nat with (Z.to_nat (left - n)) by lia.
  destruct (Z.of_nat csize <=? coff + n) eqn:E1; breflect.
  - assert (coff + n = Z.of_nat csize) as -> by lia. rewrite Nat2Z.id, <- (length_cdata v c Hv), slice_app_r.
    assert (rounds 0 (left - n) < Z.of_nat fuel) as Hf'.
    { replace ((coff mod 512 + n) mod 512) with 0 in Er; [lia|]. symmetry. rewrite Z.add_mod_idemp_l by lia.
      replace (coff + n) with (Z.of_nat csize) by lia. unfold csize. rewrite Nat2Z.inj_mul, Z.mul_comm. apply Z.mod_mul. lia. }
    apply ft_bind with (R := fun o v' => v' = v /\ (o = Some (slice 0 (Z.to_nat (left - n)) (fbytes v cs)) \/ (o = None /\ ~ rel))).
    { eapply ft_bind; [apply (fat_get_ok fs G), Hc|]. intros o v' (-> & [->|[-> Hn]]); [|apply ft_ret; by auto].
      destruct cs as [|c' cs].
      - replace (left - n) with 0 by (simpl in Hle; lia). destruct fuel; [unfold rounds in Hf'; simpl in Hf'; lia|]. apply ft_ret. split; [done|]. left. done.
      - destruct Hc as (_ & -> & Hc). apply (IH v c' cs 0 (left - n) Hc); [lia|lia|simpl in *; lia|exact Hf']. }
    intros o v' (-> & [->|[-> Hn]]); apply ft_ret; (split; [done|]); [by left|by right].
  - eapply ft_bind.
    { apply (IH v c cs (coff + n) (left - n) Hc); [lia|lia|lia|]. rewrite Z.add_mod_idemp_l in Er by lia. lia. }
    intros o v' (-> & [->|[-> Hn]]); apply ft_ret; (split; [done|]); [by left|by right].
Qed.

(** ** Files *)

(** the data of inode [i] is in the clusters [cs] *)
Record fat_file (v : vol) (i : finode) (cs : list Z) : Prop := {
  ff_chain : chain fs (fat v) cs;
  ff_first : first_cluster (fi_private i) = default 0 (head cs);
  ff_size : 0 <= fi_size i <= Z.of_nat (length cs * csize);
  ff_max : fi_size i < 2 ^ 32 }.
Definition fcontents (v : vol) (i : finode) (cs : list Z) : list Z := take (Z.to_nat (fi_size i)) (fbytes v cs).

Lemma fbytes_app v a b : fbytes v (a ++ b) = fbytes v a ++ fbytes v b.
Proof. unfold fbytes. by rewrite fmap_app, join_app. Qed.
Lemma slice_app_shift (a b : list Z) off n : slice (length a + off) n (a ++ b) = slice off n b.
Proof. unfold slice. rewrite <- drop_drop, drop_app_length. done. Qed.
(** the suffix of a chain at a position *)
Lemma chain_at v cs pos : vol_ok v -> chain fs (fat v) cs -> 0 <= pos < Z.of_nat (length cs * csize) ->
  exists c rest, cs = take (Z.to_nat (pos / Z.of_nat csize)) cs ++ c :: rest /\ cs !! Z.to_nat (pos / Z.of_nat csize) = Some c /\
    chain fs (fat v) (c :: rest) /\ (Z.to_nat (pos / Z.of_nat csize) < length cs)%nat /\
    length (fbytes v (take (Z.to_nat (pos / Z.of_nat csize)) cs)) = (Z.to_nat (pos / Z.of_nat csize) * csize)%nat.
Proof.
  intros Hv Hc Hp. destruct cluster_bytes_ok as [_ Hcb]. set (k := Z.to_nat (pos / Z.of_nat csize)).
  assert (k < length cs)%nat as Hk.
  { subst k. assert (pos / Z.of_nat csize < Z.of_nat (length cs)); [apply Z.div_lt_upper_bound; lia|]. pose proof (Z.div_pos pos (Z.of_nat csize)). lia. }
  destruct (lookup_lt_is_Some_2 cs k Hk) as [c Ec]. exists c, (drop (S k) cs).
  assert (cs = take k cs ++ c :: drop (S k) cs) as E by (by rewrite take_drop_middle). split_and!; [done..| |done|].
  - rewrite E in Hc. by apply chain_suffix in Hc.
  - rewrite length_fbytes by done. rewrite length_take. f_equal. lia.
Qed.

Lemma fread_data_ok v i cs pos count : fat_file v i cs -> 0 <= pos -> 0 <= count < 2 ^ 32 ->
  ftriple (D := D) (H := H) v (fat32_read_data fs i pos count) (fun r v' => v' = v /\
    (r = Some (slice (Z.to_nat pos) (Z.to_nat count) (fcontents v i cs)) \/ (r = None /\ ~ rel))).
Proof.
  intros [Hc Hfi Hsz Hmax] Hp Hn. apply ft_vol. intros Hv. unfold fat32_read_data. destruct cluster_bytes_ok as [-> Hcb].
  destruct (fi_size i <=? pos) eqn:E; breflect.
  { apply ft_ret. split; [done|]. left. unfold slice, fcontents. rewrite drop_ge, take_nil; [done|]. rewrite length_take. lia. }
  set (n := if fi_size i - pos <? count then u32 (fi_size i - pos) else count).
  assert (n = Z.min count (fi_size i - pos)) as En by (subst n; case_match; breflect; rewrite ?u32_small by lia; lia). clearbody n.
  assert (slice (Z.to_nat pos) (Z.to_nat count) (fcontents v i cs) = slice (Z.to_nat pos) (Z.to_nat n) (fbytes v cs)) as ->.
  { unfold slice, fcontents. rewrite skipn_firstn_comm, take_take. f_equal. lia. }
  destruct (chain_at v cs pos Hv Hc ltac:(lia)) as (c & rest & Ecs & Ec & Hch & Hk & Hl).
  set (k := Z.to_nat (pos / Z.of_nat csize)) in *. pose proof (Z.div_mod pos (Z.of_nat csize) ltac:(lia)) as Ed.
  pose proof (Z.mod_pos_bound pos (Z.of_nat csize) ltac:(lia)) as Hm. assert (0 <= pos / Z.of_nat csize) as Hq by (apply Z.div_pos; lia).
  destruct cs as [|c0 cs]; [simpl in Hk; lia|]. rewrite Hfi. cbn [head default].
  apply ft_with_buf; [apply (bps_ok fs G)|by auto|]. eapply ft_bind; [apply (skip_read_ok fs G k v c0 cs Hc); simpl in Hk; lia|].
  intros o v' (-> & [->|[-> Hr]]); [|apply ft_ret; by auto]. rewrite Ec.
  assert (slice (Z.to_nat pos) (Z.to_nat n) (fbytes v (c0 :: cs)) = slice (Z.to_nat (pos mod Z.of_nat csize)) (Z.to_nat n) (fbytes v (c :: rest))) as ->.
  { rewrite <- (slice_app_shift (fbytes v (take k (c0 :: cs))) (fbytes v (c :: rest))), <- fbytes_app, <- Ecs, Hl. f_equal. lia. }
  apply (fread_loop_ok _ v c rest); [done|lia|lia| |].
  - rewrite Ecs in Hsz. rewrite length_app, length_take in Hsz. lia.
  - apply fuel_rounds; [apply Z.mod_pos_bound; lia|lia].
Qed.
End Read.
