(* ===== verification/FatWrite.v ===== *)
(** Writing the data of a FAT32 file: a write replaces exactly the bytes it is
    given, fills a gap with zeros and takes fresh clusters at the end. *)
From stdpp Require Import base gmap list.
From Stdlib Require Import ZArith Lia.
From S2P Require Import Prelude Bytes HashMap BlockDev Fat FatDir FatFile FatTable FatRead.
Open Scope Z_scope.

(** ** Splices *)
Lemma splice_app_l off bs a b : (off + length bs <= length a)%nat -> splice off bs (a ++ b) = splice off bs a ++ b.
Proof.
  intros Hl. unfold splice. rewrite take_app_le, drop_app_le by lia. by rewrite <- !app_assoc.
Qed.
Lemma splice_app_r off bs a b : splice (length a + off) bs (a ++ b) = a ++ splice off bs b.
Proof.
  unfold splice. rewrite take_app_add, <- app_assoc. f_equal. f_equal. f_equal. by rewrite <- Nat.add_assoc, drop_app_add.
Qed.
Lemma splice_here p m bs r : length m = length bs -> splice (length p) bs (p ++ m ++ r) = p ++ bs ++ r.
Proof.
  intros Hm. unfold splice. rewrite take_app_length. do 2 f_equal. rewrite drop_app_add, <- Hm. apply drop_app_length.
Qed.
(** a buffer cut at [off] and [off + n] *)
Lemma cut off n (l : list Z) : (off + n <= length l)%nat ->
  exists p m r, l = p ++ m ++ r /\ length p = off /\ length m = n /\ m = slice off n l.
Proof.
  intros Hl. exists (take off l), (slice off n l), (drop (off + n) l). split_and!; [|rewrite length_take; lia|by apply length_slice|done].
  unfold slice. rewrite <- drop_drop, take_drop. by rewrite take_drop.
Qed.
Lemma splice_seq off a b l : (off + length a + length b <= length l)%nat ->
  splice (off + length a) b (splice off a l) = splice off (a ++ b) l.
Proof.
  intros Hl. destruct (cut off (length a + length b) l ltac:(lia)) as (p & m & r & -> & <- & Hm & _).
  destruct (cut 0 (length a) m ltac:(lia)) as (z & m1 & m2 & -> & Hz & Hm1 & _). destruct z; [|done]. simpl in *. rewrite length_app in Hm.
  rewrite <- app_assoc, splice_here by done. rewrite (app_assoc p a), <- length_app, splice_here by lia.
  rewrite (app_assoc m1), splice_here by (rewrite !length_app; lia). by rewrite <- !app_assoc.
Qed.
(** writing a piece of a sector is writing a piece of the bytes around it *)
Lemma splice_inner off n soff bs l : (off + n <= length l)%nat -> (soff + length bs <= n)%nat ->
  splice off (splice soff bs (slice off n l)) l = splice (off + soff) bs l.
Proof.
  intros Hl Hs. destruct (cut off n l Hl) as (p & m & r & E & <- & Hn & Em). rewrite <- Em. rewrite E.
  assert (length (splice soff bs m) = n) as Hsn by (rewrite length_splice; lia).
  rewrite splice_here by lia. rewrite splice_app_r, splice_app_l by lia. done.
Qed.

Section Write.
Context {D H : Type} `{DD : BlockDev D} `{HH : Heap H}.
Abbreviation St := (fat_state D H).
Abbreviation rel := (fat_reliable (D := D) (H := H)).
Context (fs : fat32_fs_priv) (G : fgeom fs).
Abbreviation cl := (cl fs).
Abbreviation fat := (fat fs).
Abbreviation spc := (sectors_per_cluster fs).
Abbreviation csec := (csec fs).
Abbreviation cdata := (cdata fs).
Abbreviation csize := (csize fs).
Abbreviation fbytes := (fbytes fs).
Abbreviation chain := (chain fs).

(** ** One sector *)
Lemma secs_vset_ne n x v y bs : y < x \/ x + Z.of_nat n <= y -> secs n x (vset y bs v) = secs n x v.
Proof. intros Hy. apply secs_ext. intros z Hz. unfold vset. rewrite decide_False by lia. done. Qed.
Lemma secs_vset n : forall k x v bs, vol_ok v -> (k < n)%nat -> length bs = 512%nat ->
  secs n x (vset (x + Z.of_nat k) bs v) = splice (512 * k) bs (secs n x v).
Proof.
  induction n as [|n IH]; intros k x v bs Hv Hk Hb; [lia|]. cbn [secs]. destruct k as [|k].
  - unfold vset at 1. rewrite decide_True by lia. rewrite secs_vset_ne by lia.
    replace (512 * 0)%nat with 0%nat by lia. rewrite splice_app_l by (rewrite (proj1 (Hv x)); lia). f_equal.
    symmetry. apply splice_all. by rewrite (proj1 (Hv x)).
  - unfold vset at 1. rewrite decide_False by lia.
    replace (512 * S k)%nat with (length (v x) + 512 * k)%nat by (rewrite (proj1 (Hv x)); lia). rewrite splice_app_r. f_equal.
    replace (x + Z.of_nat (S k)) with (x + 1 + Z.of_nat k) by lia. apply IH; [done|lia|done].
Qed.
(** the sector of cluster [c] at offset [coff], with [bs] put in it *)
Definition put_at (c coff : Z) (bs : list Z) (v : vol) : vol :=
  vset (csec c + coff / 512) (splice (Z.to_nat (coff mod 512)) bs (v (csec c + coff / 512))) v.

Lemma coff_sector coff : 0 <= coff < Z.of_nat csize -> 0 <= coff / 512 < spc /\ 0 <= coff mod 512 < 512 /\
  Z.to_nat coff = (512 * Z.to_nat (coff / 512) + Z.to_nat (coff mod 512))%nat.
Proof.
  intros Hc. pose proof (Z.div_mod coff 512 ltac:(lia)) as E. pose proof (Z.mod_pos_bound coff 512 ltac:(lia)).
  assert (0 <= coff / 512 < spc) as Hq.
  { split; [apply Z.div_pos; lia|]. apply Z.div_lt_upper_bound; [lia|]. unfold FatRead.csize in Hc. pose proof (g_spc fs G). lia. }
  split_and!; lia.
Qed.
Lemma put_at_cdata c coff bs v : vol_ok v -> 0 <= coff < Z.of_nat csize -> coff mod 512 + Z.of_nat (length bs) <= 512 ->
  cdata (put_at c coff bs v) c = splice (Z.to_nat coff) bs (cdata v c).
Proof.
  intros Hv Hc Hb. destruct (coff_sector coff Hc) as (Hq & Hm & ->). unfold put_at, FatTable.cdata.
  rewrite <- (Z2Nat.id (coff / 512)) at 1 by lia. rewrite secs_vset; [|done|lia|rewrite length_splice; [apply Hv|rewrite (proj1 (Hv _)); lia]].
  assert (v (csec c + coff / 512) = slice (512 * Z.to_nat (coff / 512)) 512 (secs (Z.to_nat spc) (csec c) v)) as ->.
  { pose proof (secs_slice (Z.to_nat spc) (Z.to_nat (coff / 512)) (csec c) v 0 512 Hv ltac:(lia) ltac:(lia)) as E.
    rewrite Nat.add_0_r, Z2Nat.id in E by lia. rewrite E. symmetry. rewrite <- (proj1 (Hv (csec c + coff / 512))) at 1. apply slice_all. }
  apply splice_inner; [rewrite length_secs by done; lia|lia].
Qed.
Lemma put_at_other c c' coff bs v : cl c -> c' <> c -> 0 <= coff < Z.of_nat csize -> cdata (put_at c coff bs v) c' = cdata v c'.
Proof.
  intros Hc Hne Hco. destruct (coff_sector coff Hco) as (Hq & _ & _). apply (cdata_ext fs G). intros y Hy. unfold put_at, vset.
  rewrite decide_False; [done|]. intros ->. apply Hne. apply (in_cluster_inj fs G c' c (csec c + coff / 512)); [done|]. unfold in_cluster. lia.
Qed.
Lemma put_at_fat c c' coff bs v : cl c -> cl c' -> 0 <= coff < Z.of_nat csize -> fat (put_at c coff bs v) c' = fat v c'.
Proof.
  intros Hc Hc' Hco. destruct (coff_sector coff Hco) as (Hq & _ & _). apply (fat_ext fs G); [done|]. intros y Hy. unfold put_at, vset.
  rewrite decide_False; [done|]. intros ->. destruct (csec_ok fs G c (coff / 512) Hc Hq). lia.
Qed.
Lemma put_at_same c coff bs v : 0 <= coff < Z.of_nat csize -> data_same fs [c] v (put_at c coff bs v).
Proof.
  intros Hco y Hy Hn. destruct (coff_sector coff Hco) as (Hq & _ & _). unfold put_at, vset. rewrite decide_False; [done|]. intros ->.
  apply (Hn c); [by left|]. unfold in_cluster. lia.
Qed.
(** the bytes of a list of clusters *)
Lemma put_at_fbytes pre c rest coff bs v : vol_ok v -> (forall d, d ∈ pre ++ c :: rest -> cl d) -> NoDup (pre ++ c :: rest) -> 0 <= coff < Z.of_nat csize ->
  coff mod 512 + Z.of_nat (length bs) <= 512 ->
  fbytes (put_at c coff bs v) (pre ++ c :: rest) = splice (length pre * csize + Z.to_nat coff) bs (fbytes v (pre ++ c :: rest)).
Proof.
  intros Hv Hcl Hnd Hco Hb. assert (cl c) as Hc by (apply Hcl; set_solver). destruct (coff_sector coff Hco) as (Hq & Hm & E).
  assert (forall l, c ∉ l -> fbytes (put_at c coff bs v) l = fbytes v l) as Hoth.
  { intros l Hl. unfold FatRead.fbytes. f_equal. apply list_fmap_ext. intros j d Hd. apply put_at_other; [done| |done].
    intros ->. apply Hl. by eapply list_elem_of_lookup_2. }
  apply NoDup_app in Hnd as (_ & Hp & Hnd). apply NoDup_cons in Hnd as [Hr _].
  rewrite !fbytes_app, !fbytes_cons, Hoth, put_at_cdata, Hoth by (done || (intros Hi; by apply (Hp c Hi); left)).
  rewrite <- (length_fbytes fs v pre Hv), splice_app_r, splice_app_l; [done|]. rewrite length_cdata by done. unfold FatRead.csize. lia.
Qed.

(** ** The source of the bytes *)
Lemma length_source pos ub f n : length (source pos ub f n) = Z.to_nat n.
Proof. unfold source. by rewrite length_fmap, length_seq. Qed.
Lemma source_app pos ub f a b : 0 <= a -> 0 <= b -> source pos ub f (a + b) = source pos ub f a ++ source pos ub (f + a) b.
Proof.
  intros Ha Hb. unfold source. rewrite Z2Nat.inj_add, seq_app, fmap_app by lia. f_equal.
  rewrite Nat.add_0_l, <- (Nat.add_0_r (Z.to_nat a)) at 1. rewrite <- fmap_add_seq, <- list_fmap_compose. apply list_fmap_ext.
  intros _ k _. simpl. replace (f + a + Z.of_nat k) with (f + Z.of_nat (Z.to_nat a + k)) by lia. done.
Qed.
Lemma source_ok pos ub f n : bytes_ok ub -> bytes_ok (source pos ub f n).
Proof.
  intros Hb. apply Forall_fmap, Forall_true. intros k. simpl. case_match; [unfold byte_ok; lia|].
  destruct (ub !! _) as [x|] eqn:E; simpl; [|unfold byte_ok; lia]. by eapply Forall_lookup_1.
Qed.
Lemma source_slice pos ub f n : pos <= f -> 0 <= n -> f + n <= pos + Z.of_nat (length ub) ->
  source pos ub f n = slice (Z.to_nat (f - pos)) (Z.to_nat n) ub.
Proof.
  intros Hp Hn Hl. apply list_eq. intros k. unfold source. rewrite list_lookup_fmap. unfold slice.
  destruct (decide (k < Z.to_nat n)%nat) as [Hk|Hk].
  - rewrite lookup_seq_lt by lia. rewrite lookup_take_lt, lookup_drop by lia. simpl. rewrite (proj2 (Z.ltb_ge _ _)) by lia.
    replace (Z.to_nat (f + Z.of_nat k - pos)) with (Z.to_nat (f - pos) + k)%nat by lia.
    destruct (lookup_lt_is_Some_2 ub (Z.to_nat (f - pos) + k)) as [x ->]; [lia|done].
  - rewrite lookup_seq_ge by lia. rewrite lookup_take_ge by lia. done.
Qed.

Lemma put_sector_ok v c coff n pos f ub : cl c -> 0 <= coff < Z.of_nat csize -> 0 < n -> coff mod 512 + n <= 512 -> bytes_ok ub ->
  0 <= pos -> f + n <= pos + Z.of_nat (length ub) ->
  ftriple (D := D) (H := H) v (put_sector fs (csec c + coff / 512) (coff mod 512) n pos f ub)
    (fun r v' => (0 <= r /\ v' = put_at c coff (source pos ub f n) v) \/ (r < 0 /\ ~ rel)).
Proof.
  intros Hc Hco Hn Hs Hb Hp Hl. apply ft_vol. intros Hv. destruct (coff_sector coff Hco) as (_ & Hm & _). unfold put_sector. rewrite (g_bps fs G).
  destruct ((_ =? 0) && _ && _) eqn:E; breflect.
  - rewrite <- source_slice by lia. eapply ft_conseq; [apply ft_write; [rewrite length_source; lia|by apply source_ok]|].
    intros r v' (bs & -> & [[Hr ->]|?]); [left|by right]. split; [done|]. unfold put_at. f_equal.
    replace (coff mod 512) with 0 by lia. symmetry. apply splice_all. rewrite length_source, (proj1 (Hv _)). lia.
  - eapply ft_bind; [apply ft_read|]. intros [r bs] v' (-> & [[Hr ->]|[Hr Hn']]); cbn [fst snd] in *.
    + rewrite (proj2 (Z.ltb_ge _ _) Hr). apply ft_fput; [lia|rewrite (proj1 (Hv _)), length_source; lia|].
      eapply ft_conseq; [apply ft_write|].
      * rewrite length_splice; [apply Hv|]. rewrite length_source, (proj1 (Hv _)). lia.
      * apply splice_ok; [by apply source_ok|apply Hv].
      * intros w v' (bs' & -> & [[Hw ->]|?]); [by left|by right].
    + rewrite (proj2 (Z.ltb_lt _ _) Hr). apply ft_ret. right. split; [lia|done].
Qed.

(** ** Growing a file *)
Record grown (v v' : vol) (cs cs' new : list Z) : Prop := {
  gr_eq : cs' = cs ++ new;
  gr_chain : chain (fat v') cs';
  gr_used c : c ∈ cs' -> fat v' c <> 0;
  gr_fat c : cl c -> c ∉ cs' -> fat v' c = fat v c;
  gr_new c : c ∈ new -> cl c /\ fat v c = 0;
  gr_same : data_same fs cs' v v' }.

Lemma grown_refl v cs : chain (fat v) cs -> (forall c, c ∈ cs -> fat v c <> 0) -> grown v v cs cs [].
Proof. intros Hc Hu. split; [by rewrite app_nil_r|done..| |done]. intros c []%elem_of_nil. Qed.
Lemma grown_trans v v1 v2 cs cs1 cs2 n1 n2 : grown v v1 cs cs1 n1 -> grown v1 v2 cs1 cs2 n2 -> grown v v2 cs cs2 (n1 ++ n2).
Proof.
  intros G1 G2. pose proof (gr_eq _ _ _ _ _ G1) as E1. pose proof (gr_eq _ _ _ _ _ G2) as E2.
  split; [by rewrite E2, E1, app_assoc|apply G2|apply G2|..].
  - intros c Hc Hn. rewrite (gr_fat _ _ _ _ _ G2), (gr_fat _ _ _ _ _ G1); [done|done| |done|done]. intros Hi. apply Hn. rewrite E2. set_solver.
  - intros c Hi. apply elem_of_app in Hi as [Hi|Hi]; [by apply (gr_new _ _ _ _ _ G1)|].
    destruct (gr_new _ _ _ _ _ G2 c Hi) as [Hc Hz]. split; [done|]. rewrite <- (gr_fat _ _ _ _ _ G1 c Hc); [done|].
    intros Hc1. by apply (gr_used _ _ _ _ _ G1) in Hc1.
  - eapply data_same_trans; [|apply G2]. eapply data_same_sub; [|apply G1]. intros c Hc. rewrite E2. set_solver.
Qed.
Lemma grown_put v cs c coff bs : chain (fat v) cs -> (forall d, d ∈ cs -> fat v d <> 0) -> c ∈ cs -> 0 <= coff < Z.of_nat csize ->
  grown v (put_at c coff bs v) cs cs [].
Proof.
  intros Hc Hu Hi Hco. pose proof (chain_cl fs _ _ c Hc Hi) as Hcl.
  assert (forall d, cl d -> fat (put_at c coff bs v) d = fat v d) as E by (intros; by apply put_at_fat).
  split; [by rewrite app_nil_r|..| |].
  - eapply fchain_ext; [|exact Hc]. intros d Hd. apply E. by eapply chain_cl.
  - intros d Hd. rewrite E by (by eapply chain_cl). by apply Hu.
  - intros d Hd _. by apply E.
  - intros d []%elem_of_nil.
  - eapply data_same_sub; [|by apply put_at_same]. intros d ->%list_elem_of_singleton. done.
Qed.

Lemma join_zeros n : mjoin (replicate n (replicate (Z.to_nat 512) 0)) = replicate (512 * n) 0.
Proof.
  induction n as [|n IH]; [done|]. cbn [replicate]. change (mjoin (?a :: ?b)) with (a ++ mjoin b). rewrite IH, <- replicate_add. f_equal. lia.
Qed.
Lemma alloc_zero c v v' : allocated fs c v v' -> cdata v' c = replicate csize 0.
Proof. intros A. rewrite (al_zero _ _ _ _ A). apply join_zeros. Qed.

Definition full (v : vol) : Prop := forall c, cl c -> fat v c <> 0.

Lemma want_have v cur prev first R : cl cur -> R (Some (cur, first)) v -> ftriple (D := D) (H := H) v (want_cluster fs cur prev first) R.
Proof.
  intros Hc HR. unfold want_cluster. rewrite (cl_not_end fs G cur Hc), (proj2 (valid_iff fs G cur) Hc), (proj2 (Z.eqb_neq cur 0)) by (destruct Hc; lia).
  by apply ft_ret.
Qed.
Lemma want_bad cur : ~ cl cur -> (cur =? 0) || fat32_is_chain_end cur || negb (fat32_is_valid_cluster fs cur) = true.
Proof.
  intros Hc. destruct (fat32_is_valid_cluster fs cur) eqn:E; [by apply (valid_iff fs G) in E|]. by rewrite orb_true_r.
Qed.
(** a fresh cluster behind the last one *)
Lemma grown_alloc v v1 v2 cs prev nc : chain (fat v) (cs ++ [prev]) -> (forall c, c ∈ cs ++ [prev] -> fat v c <> 0) ->
  allocated fs nc v v1 -> fat_upd fs prev nc v1 v2 ->
  grown v v2 (cs ++ [prev]) (cs ++ [prev; nc]) [nc] /\ fbytes v2 (cs ++ [prev; nc]) = fbytes v (cs ++ [prev]) ++ replicate csize 0.
Proof.
  intros Hc Hu A U. pose proof (al_cl _ _ _ _ A) as Hnc. assert (forall d, d ∈ cs ++ [prev] -> d <> nc) as Hne.
  { intros d Hd ->. apply (Hu nc Hd), (al_free _ _ _ _ A). }
  assert (cl prev) as Hpr by (eapply (chain_cl fs _ _ prev Hc); set_solver).
  assert (prev ∉ cs) as Hpn by (pose proof (chain_NoDup fs G _ _ Hc) as Hnd; apply NoDup_app in Hnd as (_ & Hd & _); intros Hi; apply (Hd prev Hi); set_solver).
  assert (Hold : forall d, d ∈ cs -> fat v2 d = fat v d).
  { intros d Hd. assert (cl d) as Hdc by (eapply (chain_cl fs _ _ d Hc); set_solver). rewrite (proj1 U d Hdc), decide_False by (by intros ->).
    rewrite (al_fat _ _ _ _ A d Hdc), decide_False; [done|]. apply Hne. set_solver. }
  assert (fat v2 nc = FAT32_EOF_MARK) as Enc.
  { rewrite (proj1 U nc Hnc), decide_False by (intros ->; apply (Hne prev); set_solver). by rewrite (al_fat _ _ _ _ A nc Hnc), decide_True. }
  assert (fat v2 prev = nc) as Epr by (by rewrite (proj1 U prev Hpr), decide_True). split.
  - split; [by rewrite <- app_assoc|..].
    + apply (chain_app fs (fat v)); [done|by rewrite Enc|done|done|done].
    + intros c Hi. assert (c ∈ cs \/ c = prev \/ c = nc) as [Hi'|[->| ->]] by set_solver; [|rewrite Epr; destruct Hnc; lia|by rewrite Enc].
      rewrite Hold by done. apply Hu. set_solver.
    + intros c Hcc Hn. rewrite (proj1 U c Hcc), decide_False by set_solver. rewrite (al_fat _ _ _ _ A c Hcc), decide_False by set_solver. done.
    + intros c ->%list_elem_of_singleton. split; [done|apply A].
    + eapply data_same_trans; [eapply data_same_sub; [|apply A]; set_solver|]. eapply data_same_sub; [|by eapply upd_same]. set_solver.
  - assert (forall d, cl d -> cdata v2 d = cdata v1 d) as E2.
    { intros d Hd. eapply data_same_cdata; [done|by eapply upd_same|done|set_solver]. }
    replace (cs ++ [prev; nc]) with ((cs ++ [prev]) ++ [nc]) by (by rewrite <- app_assoc). rewrite fbytes_app. f_equal.
    + unfold FatRead.fbytes. f_equal. apply list_fmap_ext. intros j d Hd%list_elem_of_lookup_2. assert (cl d) by (by eapply chain_cl).
      rewrite E2 by done. eapply data_same_cdata; [done|apply A|done|]. intros ->%list_elem_of_singleton. by apply (Hne nc).
    + unfold FatRead.fbytes. simpl. rewrite E2 by done. rewrite app_nil_r. by eapply alloc_zero.
Qed.
Lemma grown_first v v1 nc : allocated fs nc v v1 -> grown v v1 [] [nc] [nc] /\ fbytes v1 [nc] = replicate csize 0.
Proof.
  intros A. pose proof (al_cl _ _ _ _ A) as Hnc. assert (fat v1 nc = FAT32_EOF_MARK) as E by (by rewrite (al_fat _ _ _ _ A nc Hnc), decide_True). split.
  - split; [done|..].
    + split; [done|]. by rewrite E.
    + intros c ->%list_elem_of_singleton. by rewrite E.
    + intros c Hc Hn. rewrite (al_fat _ _ _ _ A c Hc), decide_False; [done|set_solver].
    + intros c ->%list_elem_of_singleton. split; [done|apply A].
    + apply A.
  - unfold FatRead.fbytes. simpl. rewrite app_nil_r. by eapply alloc_zero.
Qed.

Definition want_post (v : vol) (cs : list Z) (r : option (Z * Z)) (v' : vol) : Prop :=
  match r with
  | None => full v'
  | Some (c, first) => first = default 0 (head (cs ++ [c])) /\ grown v v' cs (cs ++ [c]) [c] /\ fbytes v' (cs ++ [c]) = fbytes v cs ++ replicate csize 0
  end.
Lemma want_new v cs cur first : chain (fat v) cs -> (forall c, c ∈ cs -> fat v c <> 0) -> ~ cl cur -> first = default 0 (head cs) ->
  ftriple (D := D) (H := H) v (want_cluster fs cur (default 0 (last cs)) first) (fun r v' =>
    match r with Some (c, _) => cl c | None => True end /\ (want_post v cs r v' \/ ~ rel)).
Proof.
  intros Hc Hu Hcur ->. unfold want_cluster. rewrite (want_bad cur Hcur). eapply ft_bind; [apply (alloc_cluster_ok fs G)|].
  intros [nc|] v1; [intros [A _]|intros [[-> Hf]|Hr]; apply ft_ret; split; [done|by left|done|by right]].
  pose proof (al_cl _ _ _ _ A) as Hnc. destruct (last cs) as [prev|] eqn:El; cbn [default from_option id].
  - apply last_Some in El as [pre ->]. assert (cl prev) as Hpr by (eapply (chain_cl fs _ _ prev Hc); set_solver).
    rewrite (proj2 (Z.eqb_neq prev 0)) by (destruct Hpr; lia). eapply ft_bind; [apply (fat_set_ok fs G); [done|]|].
    { destruct Hnc. pose proof (g_count fs G). lia. }
    intros w v2 [[_ U]|[_ Hr]]; apply ft_ret; (split; [done|]); [left|by right].
    destruct (grown_alloc v v1 v2 pre prev nc Hc Hu A U) as [G1 E1]. unfold want_post. rewrite <- app_assoc. split; [by destruct pre|done].
  - apply last_None in El as ->. rewrite Z.eqb_refl. apply ft_ret. split; [done|]. left. destruct (grown_first v v1 nc A). done.
Qed.
Lemma want_safe v cur prev first : prev = 0 \/ cl prev ->
  ftriple (D := D) (H := H) v (want_cluster fs cur prev first) (fun r _ => match r with Some (c, _) => cl c | None => True end).
Proof.
  intros Hp. destruct (decide (fat32_is_valid_cluster fs cur = true)) as [Hv%(valid_iff fs G)|Hv]; [by apply want_have|].
  unfold want_cluster. rewrite (want_bad cur) by (by rewrite <- (valid_iff fs G)). eapply ft_bind; [apply (alloc_cluster_ok fs G)|].
  intros [nc|] v1; [intros [A _]|intros _; by apply ft_ret]. pose proof (al_cl _ _ _ _ A) as Hnc. destruct (prev =? 0) eqn:E; breflect; [by apply ft_ret|].
  destruct Hp as [?|Hp]; [done|]. eapply ft_bind; [apply (fat_set_ok fs G); [done|destruct Hnc; pose proof (g_count fs G); lia]|].
  intros w v2 _. by apply ft_ret.
Qed.

(** ** The loop *)
Section Loop.
Context (pos end_ : Z) (ub : list Z).
Context (Hpos : 0 <= pos) (Hub : bytes_ok ub) (Hend : end_ = pos + Z.of_nat (length ub)).

(** the cluster of position [f] is [cur], or the next one to be allocated *)
Definition wplace (cs : list Z) (cur prev f : Z) : Prop :=
  (exists pre rest, cs = pre ++ cur :: rest /\ f / Z.of_nat csize = Z.of_nat (length pre)) \/
  (~ cl cur /\ f = Z.of_nat (length cs * csize) /\ prev = default 0 (last cs)).
Record wstate (v : vol) (cs : list Z) (cur prev first f : Z) : Prop := {
  ws_chain : chain (fat v) cs;
  ws_used c : c ∈ cs -> fat v c <> 0;
  ws_first : first = default 0 (head cs);
  ws_place : wplace cs cur prev f }.
Definition wpost (v : vol) (cs : list Z) (f : Z) (r : bool * Z) (v' : vol) : Prop :=
  match r with
  | (true, first) => exists cs' new, grown v v' cs cs' new /\ first = default 0 (head cs') /\ end_ <= Z.of_nat (length cs' * csize) /\
      fbytes v' cs' = splice (Z.to_nat f) (source pos ub f (end_ - f)) (fbytes v cs ++ replicate (length new * csize) 0)
  | (false, _) => full v'
  end.

Lemma place_bound cs cur prev f : 0 <= f -> wplace cs cur prev f -> f <= Z.of_nat (length cs * csize).
Proof.
  intros Hf [(pre & rest & -> & E)|(_ & -> & _)]; [|lia]. destruct (cluster_bytes_ok fs G) as [_ Hcb].
  pose proof (Z.div_mod f (Z.of_nat csize) ltac:(lia)). pose proof (Z.mod_pos_bound f (Z.of_nat csize) ltac:(lia)).
  rewrite E in *. rewrite length_app. simpl. nia.
Qed.
Lemma wpost_end v cs cur prev first : 0 <= end_ -> wstate v cs cur prev first end_ -> wpost v cs end_ (true, first) v.
Proof.
  intros He W. exists cs, []. split; [apply grown_refl; apply W|]. split; [apply W|]. split; [eapply place_bound; [done|apply W]|].
  rewrite Z.sub_diag, app_nil_r. unfold splice, source. simpl. rewrite Nat.add_0_r. by rewrite take_drop.
Qed.
(** one round and the rest *)
Lemma wpost_step v v1 v2 cs cs1 n1 f n r v' : vol_ok v -> 0 <= f -> 0 < n -> f + n <= end_ -> grown v v1 cs cs1 n1 -> grown v1 v2 cs1 cs1 [] ->
  f + n <= Z.of_nat (length cs1 * csize) ->
  fbytes v2 cs1 = splice (Z.to_nat f) (source pos ub f n) (fbytes v cs ++ replicate (length n1 * csize) 0) ->
  wpost v2 cs1 (f + n) r v' -> wpost v cs f r v'.
Proof.
  intros Hv Hf Hn He G1 G2 Hle E W. destruct r as [[|] first]; [|done]. destruct W as (cs' & new & G3 & Hfi & Hen & E'). exists cs', (n1 ++ new).
  split; [eapply grown_trans; [done|]; by apply (grown_trans v1 v2 v' cs1 cs1 cs' [] new)|]. split; [done|]. split; [done|].
  rewrite E', E. pose proof (gr_eq _ _ _ _ _ G1) as Ec1. pose proof (gr_eq _ _ _ _ _ G3) as Ec3.
  assert (length (fbytes v cs ++ replicate (length n1 * csize) 0) = (length cs1 * csize)%nat) as L1.
  { rewrite length_app, (length_fbytes fs v cs Hv), length_replicate, Ec1, length_app. lia. }
  rewrite <- splice_app_l by (rewrite length_source, L1; lia). rewrite <- app_assoc, <- replicate_add.
  replace (length n1 * csize + length new * csize)%nat with (length (n1 ++ new) * csize)%nat by (rewrite length_app; lia).
  replace (end_ - f) with (n + (end_ - (f + n))) by lia. rewrite source_app by lia.
  rewrite <- splice_seq; rewrite !length_source; [f_equal; lia|].
  rewrite length_app, (length_fbytes fs v cs Hv), length_replicate. rewrite Ec3, Ec1, !length_app in Hen. rewrite length_app. lia.
Qed.

(** where the loop is after a round in cluster [c] at offset [coff] *)
Lemma wstate_next v cs pre c rest first f coff n prev : chain (fat v) cs -> (forall d, d ∈ cs -> fat v d <> 0) -> first = default 0 (head cs) ->
  cs = pre ++ c :: rest -> 0 <= f -> f / Z.of_nat csize = Z.of_nat (length pre) -> coff = f mod Z.of_nat csize -> 0 < n -> coff + n < Z.of_nat csize ->
  wstate v cs c prev first (f + n) /\ (f + n) mod Z.of_nat csize = coff + n.
Proof.
  intros Hc Hu Hfi E Hf Hd Hco Hn Hlt. destruct (cluster_bytes_ok fs G) as [_ Hcb].
  pose proof (Z.div_mod f (Z.of_nat csize) ltac:(lia)) as Ed. pose proof (Z.mod_pos_bound f (Z.of_nat csize) ltac:(lia)).
  assert (f + n = Z.of_nat csize * Z.of_nat (length pre) + (coff + n)) as Efn by (rewrite <- Hd; lia). split.
  - split; [done..|]. left. exists pre, rest. split; [done|]. symmetry. apply (Z.div_unique _ _ _ (coff + n)); lia.
  - symmetry. apply (Z.mod_unique _ _ (Z.of_nat (length pre))); lia.
Qed.
Lemma wstate_over v cs pre c rest first f coff n : chain (fat v) cs -> (forall d, d ∈ cs -> fat v d <> 0) -> first = default 0 (head cs) ->
  cs = pre ++ c :: rest -> 0 <= f -> f / Z.of_nat csize = Z.of_nat (length pre) -> coff = f mod Z.of_nat csize -> coff + n = Z.of_nat csize ->
  f + n <= end_ ->
  wstate v cs (if fat32_is_chain_end (fat v c) && (f + n <? end_) then 0 else fat v c) c first (f + n) /\ (f + n) mod Z.of_nat csize = 0.
Proof.
  intros Hc Hu Hfi E Hf Hd Hco Hn Hle. destruct (cluster_bytes_ok fs G) as [_ Hcb].
  pose proof (Z.div_mod f (Z.of_nat csize) ltac:(lia)) as Ed.
  rewrite Hd, <- Hco in Ed. assert (f + n = Z.of_nat csize * Z.of_nat (S (length pre)) + 0) as Efn by lia. split.
  - split; [done..|]. destruct rest as [|d rest].
    + right. assert (fat32_is_chain_end (fat v c) = true) as He by (rewrite E in Hc; apply chain_suffix in Hc; apply Hc). rewrite He.
      split_and!.
      * case_match; [intros [? _]; lia|]. intros Hcl. rewrite (cl_not_end fs G _ Hcl) in He. done.
      * rewrite E, length_app. simpl. lia.
      * by rewrite E, last_snoc.
    + left. assert (chain (fat v) (c :: d :: rest)) as Hs by (rewrite E in Hc; by apply chain_suffix in Hc).
      destruct (chain_next fs G _ _ _ _ Hs) as (_ & Ed' & ->). rewrite Ed'. simpl. exists (pre ++ [c]), rest. rewrite <- app_assoc. split; [done|].
      rewrite length_app. simpl. symmetry. apply (Z.div_unique _ _ _ 0); lia.
  - symmetry. apply (Z.mod_unique _ _ (Z.of_nat (S (length pre)))); lia.
Qed.

(** a place to write to: old or new *)
Lemma want_ok v cs cur prev first f : wstate v cs cur prev first f -> 0 <= f ->
  ftriple (D := D) (H := H) v (want_cluster fs cur prev first) (fun r v' => match r with Some (c, _) => cl c | None => True end /\
    (~ rel \/ match r with
      | None => full v'
      | Some (c, first') => exists cs1 n1 pre rest, grown v v' cs cs1 n1 /\ first' = default 0 (head cs1) /\ cs1 = pre ++ c :: rest /\
          f / Z.of_nat csize = Z.of_nat (length pre) /\ fbytes v' cs1 = fbytes v cs ++ replicate (length n1 * csize) 0
      end)).
Proof.
  intros [Hc Hu Hfi Hpl] Hf. destruct (cluster_bytes_ok fs G) as [_ Hcb]. destruct Hpl as [(pre & rest & E & Ed)|(Hcl & Ef & ->)].
  - assert (cl cur) as Hcl by (eapply (chain_cl fs _ _ cur Hc); set_solver). apply want_have; [done|]. split; [done|]. right. exists cs, [], pre, rest.
    split; [by apply grown_refl|]. split_and!; [done..|]. by rewrite app_nil_r.
  - eapply ft_conseq; [by apply want_new|]. intros [[c first']|] v' [Hc' [W|Hr]]; (split; [done|]); try (by left); right; [|done].
    destruct W as (Hfi' & Gr & E). exists (cs ++ [c]), [c], cs, []. split_and!; [done..| |].
    + rewrite Ef, Nat2Z.inj_mul. apply Z.div_mul. lia.
    + rewrite E. do 2 f_equal. simpl. lia.
Qed.

(** what one round does to the bytes of the file *)
Lemma write_round v v1 cs cs1 c coff f n n1 pre rest : vol_ok v1 -> 0 <= coff < Z.of_nat csize -> 0 <= f -> 0 < n -> coff mod 512 + n <= 512 -> coff + n <= Z.of_nat csize ->
  grown v v1 cs cs1 n1 -> cs1 = pre ++ c :: rest -> f / Z.of_nat csize = Z.of_nat (length pre) ->
  fbytes v1 cs1 = fbytes v cs ++ replicate (length n1 * csize) 0 -> coff = f mod Z.of_nat csize ->
  grown v1 (put_at c coff (source pos ub f n) v1) cs1 cs1 [] /\ f + n <= Z.of_nat (length cs1 * csize) /\
  fbytes (put_at c coff (source pos ub f n) v1) cs1 = splice (Z.to_nat f) (source pos ub f n) (fbytes v cs ++ replicate (length n1 * csize) 0).
Proof.
  intros Hv1 Hco Hf Hn Hs Hcn Gr E Ed Eb Eco. pose proof (gr_chain _ _ _ _ _ Gr) as Hc1. destruct (cluster_bytes_ok fs G) as [_ Hcb].
  pose proof (Z.div_mod f (Z.of_nat csize) ltac:(lia)) as X. rewrite Ed, <- Eco in X. split; [|split].
  - apply grown_put; [done|apply Gr|rewrite E; set_solver|done].
  - rewrite E, length_app. simpl. lia.
  - rewrite <- Eb. rewrite E. rewrite put_at_fbytes; [|done| | |done|rewrite length_source; lia].
    + f_equal. lia.
    + intros d Hd. eapply (chain_cl fs _ _ d Hc1). by rewrite E.
    + rewrite <- E. by eapply (chain_NoDup fs G).
Qed.

(** the cluster for position [f], whatever the devices do *)
Definition want_at (v : vol) (cs : list Z) (f coff : Z) (r : option (Z * Z)) (v' : vol) : Prop :=
  match r with Some (c, _) => cl c | None => True end /\
  (~ rel \/ match r with
    | None => full v'
    | Some (c, first') => exists cs1 n1 pre rest, grown v v' cs cs1 n1 /\ first' = default 0 (head cs1) /\ cs1 = pre ++ c :: rest /\
        f / Z.of_nat csize = Z.of_nat (length pre) /\ fbytes v' cs1 = fbytes v cs ++ replicate (length n1 * csize) 0 /\ coff = f mod Z.of_nat csize
    end).
Lemma want_step v cs cur prev first f coff : prev = 0 \/ cl prev -> 0 <= f ->
  ~ rel \/ (wstate v cs cur prev first f /\ coff = f mod Z.of_nat csize) ->
  ftriple (D := D) (H := H) v (want_cluster fs cur prev first) (want_at v cs f coff).
Proof.
  intros Hprev Hf [Hr|[W ->]].
  - eapply ft_conseq; [by apply want_safe|]. intros r v' ?. split; [done|]. by left.
  - eapply ft_conseq; [apply (want_ok v cs); [done|lia]|].
    intros [[c first']|] v' [Hc [Hr|X]]; (split; [done|]); [by left| |by left|by right]. right.
    destruct X as (cs1 & n1 & pre & rest & X). exists cs1, n1, pre, rest. tauto.
Qed.
Lemma fwrite_loop_ok fuel : forall v cs f cur prev coff first, 0 <= f <= end_ -> 0 <= coff < Z.of_nat csize -> prev = 0 \/ cl prev ->
  rounds (coff mod 512) (end_ - f) < Z.of_nat fuel -> ~ rel \/ (wstate v cs cur prev first f /\ coff = f mod Z.of_nat csize) ->
  ftriple (D := D) (H := H) v (write_data_loop fs fuel pos end_ ub f cur prev coff first) (fun r v' => ~ rel \/ wpost v cs f r v').
Proof.
  induction fuel as [|fuel IH]; intros v cs f cur prev coff first Hf Hco Hprev Hfu W.
  { pose proof (Z.mod_pos_bound coff 512 ltac:(lia)). pose proof (rounds_nonneg (coff mod 512) (end_ - f)). lia. }
  apply ft_vol. intros Hv. cbn [write_data_loop]. destruct (end_ <=? f) eqn:E0; breflect.
  { apply ft_ret. destruct W as [?|[W _]]; [by left|right]. assert (f = end_) as -> by lia. eapply wpost_end; [lia|done]. }
  destruct (cluster_bytes_ok fs G) as [Ecb Hcb]. rewrite Ecb, (g_bps fs G).
  destruct (coff_sector coff Hco) as (Hq & Hm & Edm). rewrite (u32_small (512 - coff mod 512)) by lia.
  set (n := if end_ - f <? 512 - coff mod 512 then end_ - f else 512 - coff mod 512).
  assert (n = Z.min (end_ - f) (512 - coff mod 512)) as En by (subst n; case_match; breflect; lia). clearbody n.
  destruct (frounds_step (coff mod 512) (end_ - f) n Hm ltac:(lia) En) as [Er Er1].
  assert (coff + n <= Z.of_nat csize) as Hcn.
  { unfold FatRead.csize in *. pose proof (Z.div_mod coff 512 ltac:(lia)). enough (coff + n <= 512 * (coff / 512 + 1)) by lia. lia. }
  rewrite (u32_small (coff + n)) by lia. rewrite Z.add_mod_idemp_l in Er by lia. replace (end_ - f - n) with (end_ - (f + n)) in Er by lia.
  eapply ft_bind; [apply (want_step v cs cur prev first f coff Hprev); [lia|exact W]|].
  clear W. intros [[c first']|] v1 [Hc W]; [|apply ft_ret; destruct W; [by left|by right]].
  destruct (csec_ok fs G c (coff / 512) Hc Hq) as (-> & -> & _). apply ft_vol. intros Hv1.
  eapply ft_bind; [apply put_sector_ok; [done..|lia|lia|done|done|lia]|]. intros w v2 [[Hw ->]|[Hw Hr]];
    [rewrite (proj2 (Z.ltb_ge _ _) Hw)|rewrite (proj2 (Z.ltb_lt _ _) Hw); apply ft_ret; by left].
  set (v2 := put_at c coff (source pos ub f n) v1). pose proof (fun cs1 => write_round v v1 cs cs1 c coff f n) as Hstep.
  destruct (Z.of_nat csize <=? coff + n) eqn:E1; breflect.
  - assert (coff + n = Z.of_nat csize) as Efull by lia. eapply ft_bind; [by apply (fat_get_ok fs G)|].
    intros o v3 (-> & [->|[-> Hr]]); [|apply ft_ret; by left].
    assert (rounds (0 mod 512) (end_ - (f + n)) < Z.of_nat fuel) as Hf'.
    { rewrite Efull in Er. unfold FatRead.csize in Er. rewrite Nat2Z.inj_mul, Z.mul_comm, Z.mod_mul in Er by lia. change (0 mod 512) with 0. lia. }
    destruct W as [Hr|(cs1 & n1 & pre & rest & Gr & Hfi & E & Ed & Eb & Eco)].
    { eapply ft_conseq; [apply (IH v2 cs (f + n)); [lia|lia|by right|done|by left]|]. intros r v' _. by left. }
    destruct (Hstep cs1 n1 pre rest Hv1 Hco ltac:(lia) ltac:(lia) ltac:(lia) Hcn Gr E Ed Eb Eco) as (Gp & Hle & Ebp).
    destruct (wstate_over v2 cs1 pre c rest first' f coff n) as [W' Em]; [apply Gp|apply Gp|done|done|lia|done|done|done|lia|].
    eapply ft_conseq; [apply (IH v2 cs1 (f + n)); [lia|lia|by right|done|right; split; [exact W'|by rewrite Em]]|].
    intros r v' [?|X]; [by left|right]. apply (wpost_step v v1 v2 cs cs1 n1 f n r v'); (done || lia).
  - destruct W as [Hr|(cs1 & n1 & pre & rest & Gr & Hfi & E & Ed & Eb & Eco)].
    { eapply ft_conseq; [apply (IH v2 cs (f + n)); [lia|lia|by right|lia|by left]|]. intros r v' _. by left. }
    destruct (Hstep cs1 n1 pre rest Hv1 Hco ltac:(lia) ltac:(lia) ltac:(lia) Hcn Gr E Ed Eb Eco) as (Gp & Hle & Ebp).
    destruct (wstate_next v2 cs1 pre c rest first' f coff n c) as [W' Em]; [apply Gp|apply Gp|done|done|lia|done|done|lia|lia|].
    eapply ft_conseq; [apply (IH v2 cs1 (f + n)); [lia|lia|by right|lia|right; split; [exact W'|by rewrite Em]]|].
    intros r v' [?|X]; [by left|right]. apply (wpost_step v v1 v2 cs cs1 n1 f n r v'); (done || lia).
Qed.
End Loop.

(** ** Starting over

    The loop reads positions only relative to one another, and the first
    cluster it is given only if it fails or finds a cluster to start from. *)
Lemma mbind_ext {S A B} (m : M S A) (k k' : A -> M S B) s : (forall a s', k a s' = k' a s') -> mbind' m k s = mbind' m k' s.
Proof. intros E. unfold mbind'. destruct (m s) as [[a s']| | |]; [apply E|done..]. Qed.
Lemma source_shift b pos ub f n : source (pos - b) ub (f - b) n = source pos ub f n.
Proof.
  unfold source. apply list_fmap_ext. intros _ k _. cbv zeta. replace (f - b + Z.of_nat k <? pos - b) with (f + Z.of_nat k <? pos).
  - by replace (f - b + Z.of_nat k - (pos - b)) with (f + Z.of_nat k - pos) by lia.
  - apply Bool.eq_true_iff_eq. rewrite !Z.ltb_lt. lia.
Qed.
Lemma put_sector_shift b sec soff n pos f ub : put_sector (D := D) (H := H) fs sec soff n (pos - b) (f - b) ub = put_sector fs sec soff n pos f ub.
Proof.
  unfold put_sector. rewrite source_shift. replace (f - b - (pos - b)) with (f - pos) by lia. replace (pos - b <=? f - b) with (pos <=? f); [done|].
  apply Bool.eq_true_iff_eq. rewrite !Z.leb_le. lia.
Qed.
Lemma loop_shift b pos end_ ub fuel : forall f cur prev coff first (s : St),
  write_data_loop fs fuel (pos - b) (end_ - b) ub (f - b) cur prev coff first s = write_data_loop fs fuel pos end_ ub f cur prev coff first s.
Proof.
  induction fuel as [|fuel IH]; intros f cur prev coff first s; [done|]. cbn [write_data_loop]. replace (end_ - b - (f - b)) with (end_ - f) by lia.
  replace (end_ - b <=? f - b) with (end_ <=? f) by (apply Bool.eq_true_iff_eq; rewrite !Z.leb_le; lia). case_match; [done|].
  apply mbind_ext. intros [[c first']|] s1; [|done]. cbv zeta. rewrite put_sector_shift. apply mbind_ext. intros w s2. case_match; [done|].
  set (n := if end_ - f <? _ then _ else _). replace (f - b + n) with (f + n - b) by lia.
  replace (f + n - b <? end_ - b) with (f + n <? end_) by (apply Bool.eq_true_iff_eq; rewrite !Z.ltb_lt; lia).
  case_match; [|apply IH]. apply mbind_ext. intros [c'|] s3; [apply IH|done].
Qed.
(** the old first cluster is not looked at *)
Lemma loop_first pos end_ ub fuel f cur coff first first' (Q : bool * Z -> St -> Prop) s : ~ cl cur -> f < end_ ->
  (forall x y s', Q (false, x) s' -> Q (false, y) s') ->
  wp (write_data_loop fs fuel pos end_ ub f cur 0 coff first) Q s -> wp (write_data_loop fs fuel pos end_ ub f cur 0 coff first') Q s.
Proof.
  intros Hc Hf HQ. destruct fuel as [|fuel]; [done|]. cbn [write_data_loop]. rewrite (proj2 (Z.leb_gt _ _) Hf).
  unfold want_cluster. rewrite (want_bad cur Hc). cbn [Z.eqb]. unfold wp, mbind'.
  destruct (fat32_alloc_cluster fs s) as [[[nc|] s1]| | |]; cbn; [done|apply HQ|done..].
Qed.
(** so that a write that has no cluster to start from builds a new chain *)
Lemma loop_restart pos end_ ub fuel v b cur first : 0 <= b <= pos -> b < end_ -> bytes_ok ub -> end_ = pos + Z.of_nat (length ub) -> ~ cl cur ->
  rounds 0 (end_ - b) < Z.of_nat fuel ->
  ftriple (D := D) (H := H) v (write_data_loop fs fuel pos end_ ub b cur 0 0 first) (fun r v' => ~ rel \/ wpost (pos - b) (end_ - b) ub v [] 0 r v').
Proof.
  intros Hb Hlt Hub He Hc Hfu L s I Sh. destruct (cluster_bytes_ok fs G) as [_ Hcb].
  apply (loop_first _ _ _ _ _ _ _ 0); [done|done|intros x y s' HQ; exact HQ|].
  assert (wp (write_data_loop fs fuel (pos - b) (end_ - b) ub (b - b) cur 0 0 0) (fun r s' => heap_inv (fat_heap s') L /\
    exists v', shows s' v' /\ (~ rel \/ wpost (pos - b) (end_ - b) ub v [] 0 r v')) s) as W; [|unfold wp in *; by rewrite loop_shift in W].
  replace (b - b) with 0 by lia.
  refine (fwrite_loop_ok (pos - b) (end_ - b) ub _ Hub _ fuel v [] 0 cur 0 0 0 _ _ _ _ _ L s I Sh); try lia.
  - change (0 mod 512) with 0. by replace (end_ - b - 0) with (end_ - b) by lia.
  - right. split; [|by rewrite Z.mod_0_l by lia]. split; [done| |done|]; [by intros c []%elem_of_nil|]. right. split_and!; [done|simpl; lia|done].
Qed.
End Write.
