(* ===== verification/FatEntry.v ===== *)
(** The formats of a FAT32 directory entry: time stamps (what [fat32_unix_to_fat]
    packs, [fat32_fat_to_unix] unpacks, to the two seconds a stamp can hold), names
    (what [fat32_name_to_dos] accepts, [fat32_dos_to_name] undoes), and the fields
    of a new or erased entry. *)
From stdpp Require Import base gmap list.
From Stdlib Require Import ZArith Lia.
From S2P Require Import Prelude Bytes HashMap BlockDev Fat FatDir.
Open Scope Z_scope.

(** * Time stamps *)
(** ** The clock *)
Lemma year_loop_some fuel : forall days year, 0 <= days < 365 * Z.of_nat fuel -> is_Some (year_loop fuel days year).
Proof.
  induction fuel as [|fuel IH]; intros days year Hd.
  - lia.
  - cbn [year_loop]. destruct (leap year); case_match; breflect; try (by eexists); apply IH; lia.
Qed.
Lemma now_some ticks : is_Some (fat32_now ticks).
Proof.
  unfold fat32_now, fat32_unix_to_fat. set (u := u32 _). assert (0 <= u < 2 ^ 32) as Hu by apply u32_range.
  destruct (year_loop_some year_fuel (u / 60 / 60 / 24) 1970) as [[days year] E].
  - rewrite !Z.div_div by lia. split; [apply Z.div_pos; lia|]. apply Z.div_lt_upper_bound; [lia|]. unfold year_fuel. lia.
  - rewrite E. destruct (month_loop _ _ _ _ _) as [d m]. destruct (year <? 1980); by eexists.
Qed.

(** ** Packing *)

(** [a << (m + n) | b << n | c] and its fields *)
Lemma pack3 a b c m n : 0 <= m -> 0 <= n -> 0 <= a -> 0 <= b < 2 ^ m -> 0 <= c < 2 ^ n ->
  let w := Z.lor (Z.lor (Z.shiftl a (m + n)) (Z.shiftl b n)) c in
  w = (a * 2 ^ m + b) * 2 ^ n + c /\ Z.shiftr w (m + n) = a /\ Z.land (Z.shiftr w n) (Z.ones m) = b /\ Z.land w (Z.ones n) = c.
Proof.
  intros Hm Hn Ha Hb Hc w. assert (w = (a * 2 ^ m + b) * 2 ^ n + c) as E.
  { unfold w. rewrite !Z.shiftl_mul_pow2 by lia. rewrite Z.pow_add_r, Z.mul_assoc by lia.
    replace (Z.lor (a * 2 ^ m * 2 ^ n) (b * 2 ^ n)) with (Z.lor (a * 2 ^ m) b * 2 ^ n).
    - rewrite (lor_low a b m) by lia. by apply lor_low.
    - rewrite <- !Z.shiftl_mul_pow2 by lia. by rewrite Z.shiftl_lor. }
  clearbody w. pose proof (Z.pow_pos_nonneg 2 m ltac:(lia) Hm). pose proof (Z.pow_pos_nonneg 2 n ltac:(lia) Hn).
  assert (Z.shiftr w n = a * 2 ^ m + b) as E1.
  { rewrite Z.shiftr_div_pow2 by lia. rewrite E, Z.add_comm, Z.div_add, Z.div_small by lia. lia. }
  split; [done|]. split; [|split].
  - rewrite Z.add_comm, <- Z.shiftr_shiftr, E1, Z.shiftr_div_pow2 by lia. rewrite Z.add_comm, Z.div_add, Z.div_small by lia. lia.
  - rewrite E1, Z.land_ones, Z.add_comm, Z.mod_add by lia. by apply Z.mod_small.
  - rewrite Z.land_ones, E, Z.add_comm, Z.mod_add by lia. by apply Z.mod_small.
Qed.

(** ** The calendar *)
Definition year_len (y : Z) : Z := if leap y then 366 else 365.
(** the days of [n] years from [y] on *)
Fixpoint years_len (n : nat) (y : Z) : Z := match n with O => 0 | S n' => year_len y + years_len n' (y + 1) end.
Definition month_len (y m : Z) (md : Z) : Z := if (m =? 1) && leap y then 29 else md.
(** the days of the first [n] of the months [mds], the first of which is number [m] *)
Fixpoint months_len (y : Z) (mds : list Z) (m : Z) (n : nat) : Z :=
  match n, mds with S n', md :: mds' => month_len y m md + months_len y mds' (m + 1) n' | _, _ => 0 end.

Lemma year_loop_spec fuel : forall days y r, 0 <= days -> 0 <= y -> y + Z.of_nat fuel < 2 ^ 16 -> year_loop fuel days y = Some r ->
  exists n, r.2 = y + Z.of_nat n /\ days = years_len n y + r.1 /\ 0 <= r.1 < year_len r.2 /\ (n < fuel)%nat.
Proof.
  induction fuel as [|fuel IH]; intros days y r Hd Hy Hf; [done|]. cbn [year_loop]. change (if leap y then 366 else 365) with (year_len y).
  destruct (year_len y <=? days) eqn:E; breflect.
  - rewrite u16_small by lia. intros (n & E1 & E2 & E3 & E4)%IH; [|lia..]. exists (S n). cbn [years_len]. split_and!; try lia; apply E3.
  - intros [= <-]. exists 0%nat. cbn [fst snd years_len]. split_and!; lia.
Qed.
Lemma month_loop_spec y mds : forall m days month, 0 <= days < months_len y mds m (length mds) -> 0 <= month -> month + Z.of_nat (length mds) < 256 ->
  exists n, (n < length mds)%nat /\ (month_loop y mds m days month).2 = month + Z.of_nat n /\
    days = months_len y mds m n + (month_loop y mds m days month).1 /\ 0 <= (month_loop y mds m days month).1 <
      month_len y (m + Z.of_nat n) (default 0 (mds !! n)).
Proof.
  induction mds as [|md mds IH]; intros m days month Hd Hm Hl; [cbn in Hd; lia|]. cbn [month_loop]. cbn [length months_len] in *.
  change (if (m =? 1) && leap y then 29 else md) with (month_len y m md). destruct (month_len y m md <=? days) eqn:E; breflect.
  - rewrite u8_small by lia. destruct (IH (m + 1) (days - month_len y m md) (month + 1)) as (n & Hn & E1 & E2 & E3); [lia..|].
    exists (S n). split; [lia|]. split; [rewrite E1; lia|]. split; [lia|]. replace (m + Z.of_nat (S n)) with (m + 1 + Z.of_nat n) by lia. done.
  - exists 0%nat. cbn [fst snd]. split_and!; try lia. replace (m + Z.of_nat 0) with m by lia. simpl. lia.
Qed.

(** ** The day number of a date, as [fat32_fat_to_unix] computes it *)
Definition doy0 (m : Z) : Z := u32 (153 * u32 (m + (if 2 <? m then -3 else 9)) + 2) / 5.
Definition era_of (y m : Z) : Z := u32 (y - (if m <=? 2 then 1 else 0)) / 400.
Definition yoe_of (y m : Z) : Z := u32 (u32 (y - (if m <=? 2 then 1 else 0)) - era_of y m * 400).
Definition doe0 (y m : Z) : Z := yoe_of y m * 365 + yoe_of y m / 4 - yoe_of y m / 100.
(** the number of the first day of a month *)
Definition first_day (y m : Z) : Z := era_of y m * 146097 + doe0 y m + doy0 m - 719468.

Definition month_checks (y : Z) (k : nat) : bool :=
  let m := Z.of_nat k + 1 in
  (0 <=? doy0 m) && (doy0 m <? 400) && (0 <=? doe0 y m) && (doe0 y m <? 2 ^ 20) &&
  (first_day y m =? first_day y 1 + months_len y days_in_month 0 k).
Definition year_checks (i : nat) : bool :=
  let y := 1970 + Z.of_nat i in
  (first_day (y + 1) 1 =? first_day y 1 + year_len y) && (months_len y days_in_month 0 12 =? year_len y) &&
  forallb (month_checks y) (seq 0 12).
Lemma calendar : forallb year_checks (seq 0 138) = true.
Proof. vm_compute. reflexivity. Qed.

Lemma year_ok n : (n < 138)%nat -> let y := 1970 + Z.of_nat n in
  first_day (y + 1) 1 = first_day y 1 + year_len y /\ months_len y days_in_month 0 12 = year_len y /\ forallb (month_checks y) (seq 0 12) = true.
Proof.
  intros Hn. pose proof (proj1 (forallb_forall _ _) calendar n) as E. unfold year_checks in E.
  rewrite !andb_true_iff, !Z.eqb_eq in E. destruct E as [[? ?] ?]; [apply in_seq; lia|]. done.
Qed.
Lemma month_ok n k : (n < 138)%nat -> (k < 12)%nat -> let y := 1970 + Z.of_nat n in let m := Z.of_nat k + 1 in
  0 <= doy0 m < 400 /\ 0 <= doe0 y m < 2 ^ 20 /\ first_day y m = first_day y 1 + months_len y days_in_month 0 k.
Proof.
  intros Hn Hk. destruct (year_ok n Hn) as (_ & _ & E). pose proof (proj1 (forallb_forall _ _) E k) as E'. unfold month_checks in E'.
  rewrite !andb_true_iff, !Z.eqb_eq, !Z.ltb_lt, !Z.leb_le in E'. cbv zeta. destruct E' as [[[[? ?] ?] ?] ?]; [apply in_seq; lia|]. done.
Qed.
Lemma years_snoc n : forall y, years_len (S n) y = years_len n y + year_len (y + Z.of_nat n).
Proof.
  induction n as [|n IH]; intros y; [cbn [years_len]; replace (y + Z.of_nat 0) with y by lia; lia|].
  change (years_len (S (S n)) y) with (year_len y + years_len (S n) (y + 1)). rewrite IH. cbn [years_len].
  replace (y + Z.of_nat (S n)) with (y + 1 + Z.of_nat n) by lia. lia.
Qed.
Lemma years_first n : (n <= 138)%nat -> years_len n 1970 = first_day (1970 + Z.of_nat n) 1.
Proof.
  induction n as [|n IH]; intros Hn; [by vm_compute|]. rewrite years_snoc, IH by lia. destruct (year_ok n) as (E & _); [lia|].
  replace (1970 + Z.of_nat (S n)) with (1970 + Z.of_nat n + 1) by lia. lia.
Qed.

(** what a date of the years 1980 to 2107 unpacks to *)
Definition stamp (y m d h mi s : Z) : fat32_fat_time :=
  mkFatTime (u16 (Z.lor (Z.lor (Z.shiftl (y - 1980) 9) (Z.shiftl m 5)) d)) (u16 (Z.lor (Z.lor (Z.shiftl h 11) (Z.shiftl mi 5)) s)).
Lemma unpack n k d h mi s : (10 <= n < 138)%nat -> (k < 12)%nat -> 1 <= d <= 31 -> 0 <= h < 24 -> 0 <= mi < 60 -> 0 <= s < 30 ->
  let y := 1970 + Z.of_nat n in let m := Z.of_nat k + 1 in 0 <= first_day y m + d - 1 < 2 ^ 30 ->
  fat32_fat_to_unix (stamp y m d h mi s) = (first_day y m + d - 1) * 86400 + h * 3600 + mi * 60 + s * 2.
Proof.
  intros Hn Hk Hd Hh Hmi Hs y m Hf. destruct (month_ok n k) as (B1 & B2 & _); [lia..|]. fold y m in B1, B2.
  destruct (pack3 (y - 1980) m d 4 5) as (W1 & F1 & F2 & F3); [lia..|]. destruct (pack3 h mi s 6 5) as (W2 & F4 & F5 & F6); [lia..|].
  change (4 + 5) with 9 in *. change (6 + 5) with 11 in *. change (Z.ones 4) with 0xF in *. change (Z.ones 5) with 0x1F in *. change (Z.ones 6) with 0x3F in *.
  unfold fat32_fat_to_unix, stamp. cbn [ft_date ft_time]. rewrite !u16_small by (rewrite ?W1, ?W2; lia). rewrite F1, F2, F3, F4, F5, F6.
  replace (Z.land (y - 1980) 0x7F) with (y - 1980) by (change 0x7F with (Z.ones 7); rewrite Z.land_ones by lia; rewrite Z.mod_small; lia).
  replace (Z.land h 0x1F) with h by (change 0x1F with (Z.ones 5); rewrite Z.land_ones by lia; rewrite Z.mod_small; lia).
  replace (1980 + (y - 1980)) with y by lia. replace (clamp 1 12 m) with m by (unfold clamp; repeat case_match; breflect; lia).
  replace (clamp 1 31 d) with d by (unfold clamp; repeat case_match; breflect; lia). cbv zeta.
  fold (doy0 m). fold (era_of y m). fold (yoe_of y m). fold (doe0 y m). rewrite (u32_small (doy0 m + d - 1)) by lia.
  rewrite (u32_small (doe0 y m + _)) by lia. rewrite (u32_small (h * 3600)), (u32_small (mi * 60)) by lia.
  unfold first_day in *. rewrite u64_small; rewrite u64_small; lia.
Qed.

Lemma month_31 y m k : month_len y m (default 0 (days_in_month !! k)) <= 31.
Proof.
  unfold month_len. destruct (_ && _); [lia|]. destruct (days_in_month !! k) as [md|] eqn:E; [|cbn; lia]. cbn [default from_option id].
  assert (Forall (fun md => md <= 31) days_in_month) as F by (repeat constructor; lia). by apply (Forall_lookup_1 _ _ _ _ F E).
Qed.
Lemma from_1980 n d1 : 3652 <= years_len n 1970 + d1 -> d1 < year_len (1970 + Z.of_nat n) -> (10 <= n)%nat.
Proof.
  intros Hd H1. destruct (decide (10 <= n)%nat); [done|exfalso]. assert (years_len (S n) 1970 <= 3652) as B; [|rewrite years_snoc in B; lia].
  clear -n0. do 10 (destruct n as [|n]; [vm_compute; congruence|]). lia.
Qed.

(** a time from 1980 on survives, to the even second below *)
Lemma time_there_and_back t : 315532800 <= t < 2 ^ 32 ->
  exists ft, fat32_unix_to_fat t = Some ft /\ fat32_fat_to_unix ft = t - t mod 2.
Proof.
  intros Ht. unfold fat32_unix_to_fat. set (days := t / 60 / 60 / 24).
  assert (days = t / 86400) as Ed by (unfold days; rewrite !Z.div_div by lia; done).
  assert (3652 <= days < 49711) as Hd by (rewrite Ed; split; [apply Z.div_le_lower_bound|apply Z.div_lt_upper_bound]; lia).
  destruct (year_loop_some year_fuel days 1970) as [[d1 y] Ey]; [unfold year_fuel; lia|]. rewrite Ey.
  apply year_loop_spec in Ey as (n & En & Edays & Hd1 & Hn); [|unfold year_fuel; lia..]. cbn [fst snd] in *. subst y.
  destruct (year_ok n) as (_ & E12 & _); [done|].
  destruct (month_loop_spec (1970 + Z.of_nat n) days_in_month 0 d1 1) as (k & Hk & Em & Ed1 & Hd2); [change (length days_in_month) with 12%nat; lia..|].
  destruct (month_loop _ _ _ _ _) as [d2 mo]. cbn [fst snd] in *. subst mo. pose proof (month_31 (1970 + Z.of_nat n) (0 + Z.of_nat k) k). change (length days_in_month) with 12%nat in Hk.
  assert (10 <= n)%nat as Hn10 by (apply (from_1980 n d1); lia). rewrite (proj2 (Z.ltb_ge _ _)) by lia. eexists. split; [done|].
  replace (1 + Z.of_nat k) with (Z.of_nat k + 1) by lia. destruct (month_ok n k) as (_ & _ & Em); [done..|]. unfold year_fuel in Hn. rewrite years_first in Edays by lia.
  fold (stamp (1970 + Z.of_nat n) (Z.of_nat k + 1) (d2 + 1) ((t / 60 / 60) mod 24) ((t / 60) mod 60) (t mod 60 / 2)).
  pose proof (Z.mod_pos_bound (t / 60 / 60) 24 ltac:(lia)). pose proof (Z.mod_pos_bound (t / 60) 60 ltac:(lia)). pose proof (Z.mod_pos_bound t 60 ltac:(lia)).
  rewrite unpack; [|lia..|split; [apply Z.div_pos; lia|apply Z.div_lt_upper_bound; lia]|lia].
  replace (first_day _ _ + (d2 + 1) - 1) with days by lia. unfold days. clear.
  assert (t mod 2 = (t mod 60) mod 2) as -> by (rewrite Z.mod_mod_divide; [done|by exists 30]).
  pose proof (Z.div_mod t 60 ltac:(lia)). pose proof (Z.div_mod (t / 60) 60 ltac:(lia)). pose proof (Z.div_mod (t / 60 / 60) 24 ltac:(lia)).
  pose proof (Z.div_mod (t mod 60) 2 ltac:(lia)). lia.
Qed.

(** * Names and entries *)
(** ** Characters *)
(** a name is a C string: no byte is 0 *)
Definition name_ok (name : list Z) : Prop := Forall (fun c => 0 < c < 256) name.

Lemma upper_ok c : 0 < c < 256 -> 0 < to_upper c < 256 /\ (c <> 46 -> to_upper c <> 46) /\ (c <> 32 -> to_upper c <> 32) /\ (c <> 0xE5 -> to_upper c <> 0xE5).
Proof. intros Hc. unfold to_upper, between. destruct (97 <=? c) eqn:E1, (c <=? 122) eqn:E2; cbn [andb]; breflect; lia. Qed.
Lemma char_ok_not c : fat32_char_ok c = true -> c <> 32 /\ c <> 46 /\ 0 < c.
Proof.
  unfold fat32_char_ok, between. rewrite !orb_true_iff, !andb_true_iff, !Z.leb_le, bool_decide_eq_true.
  intros [[[[?|?]|?]|?]|Hp]; [lia..|]. assert (Forall (fun c => c <> 32 /\ c <> 46 /\ 0 < c) punct) as F by (repeat constructor; lia).
  by apply (proj1 (Forall_forall _ _) F).
Qed.

(** ** Splitting at the dot *)
Definition good (l : list Z) : Prop := Forall (fun c => fat32_char_ok c = true) l.
Lemma scan_after name : forall i d o, scan_name name i (Some d) = Some o -> o = Some d /\ good name.
Proof.
  induction name as [|c name IH]; intros i d o; cbn [scan_name]; [intros [= <-]; by repeat constructor|].
  destruct (c =? 46); [done|]. destruct (fat32_char_ok c) eqn:E; [|done]. intros [-> ?]%IH. split; [done|by constructor].
Qed.
Lemma scan_spec name : forall i o, scan_name name i None = Some o ->
  match o with
  | None => good name
  | Some d => exists b x, name = b ++ 46 :: x /\ d = (i + length b)%nat /\ good b /\ good x
  end.
Proof.
  induction name as [|c name IH]; intros i o; cbn [scan_name]; [intros [= <-]; constructor|]. destruct (c =? 46) eqn:E; breflect.
  - intros [-> ?]%scan_after. exists [], name. subst c. split_and!; [done|simpl; lia|constructor|done].
  - destruct (fat32_char_ok c) eqn:Ec; [|done]. intros Hs%IH. destruct o as [d|]; [|by constructor].
    destruct Hs as (b & x & -> & -> & ? & ?). exists (c :: b), x. split_and!; [done|simpl; lia|by constructor|done].
Qed.

(** what an accepted name looks like, and its entry *)
Inductive dos_name : list Z -> list Z -> Prop :=
| dos_plain b : good b -> (1 <= length b <= 8)%nat -> dos_name b (pad 8 (to_upper <$> b) ++ pad 3 [])
| dos_ext b x : good b -> good x -> (1 <= length b <= 8)%nat -> (length x <= 3)%nat ->
    dos_name (b ++ 46 :: x) (pad 8 (to_upper <$> b) ++ pad 3 (to_upper <$> x)).
Lemma to_dos_spec name dos : fat32_name_to_dos name = Some dos -> dos_name name dos.
Proof.
  unfold fat32_name_to_dos. destruct (_ || _) eqn:El; [done|]. destruct (_ =? 46) eqn:E0; [done|].
  destruct (scan_name name 0 None) as [dot|] eqn:Es; [|done]. clear El E0. apply scan_spec in Es. destruct dot as [d|]; cbn [default from_option id].
  - destruct Es as (b & x & -> & -> & Hb & Hx). rewrite length_app. simpl length. rewrite Nat.add_0_l.
    replace (length b + S (length x) - length b - 1)%nat with (length x) by lia.
    destruct (_ || _) eqn:Eb; [done|].
    case_match eqn:Ex; [done|].
    intros [= <-].
    apply orb_false_iff in Eb as [Eb1%Nat.eqb_neq Eb2%Nat.ltb_ge]. apply Nat.ltb_ge in Ex.
    rewrite take_app_length. rewrite (drop_app_ge b) by lia. replace (S (length b) - length b)%nat with 1%nat by lia. cbn [drop].
    rewrite (take_ge x) by lia. constructor; (done || lia).
  - destruct (_ || _) eqn:Eb; [done|]. intros [= <-]. apply orb_false_iff in Eb as [Eb1%Nat.eqb_neq Eb2%Nat.ltb_ge].
    rewrite take_ge by lia. constructor; (done || lia).
Qed.
Lemma length_pad n l : (length l <= n)%nat -> length (pad n l) = n.
Proof. intros Hl. unfold pad. rewrite length_app, length_replicate. lia. Qed.
Lemma dos_length name dos : dos_name name dos -> length dos = 11%nat.
Proof. intros []; rewrite length_app, !length_pad; rewrite ?length_fmap; simpl; lia. Qed.
Lemma dos_first name dos : dos_name name dos -> name_ok name -> first_byte dos = to_upper (default 0 (name !! 0%nat)) /\
  fat32_char_ok (default 0 (name !! 0%nat)) = true /\ name <> [].
Proof.
  intros Hn _. destruct Hn as [b Hb Hl|b x Hb Hx Hl]; (destruct b as [|c b]; [simpl in Hl; lia|]); apply Forall_cons in Hb as [Hc _]; split_and!; done.
Qed.
Lemma upper_bytes l : name_ok l -> bytes_ok (to_upper <$> l).
Proof. intros Hl. apply Forall_fmap. eapply Forall_impl; [exact Hl|]. intros c Hc. simpl. destruct (upper_ok c Hc). unfold byte_ok. lia. Qed.
Lemma pad_bytes n l : bytes_ok l -> bytes_ok (pad n l).
Proof. intros Hl. apply Forall_app. split; [done|]. apply Forall_replicate. unfold byte_ok. lia. Qed.
Lemma dos_bytes name dos : dos_name name dos -> name_ok name -> bytes_ok dos.
Proof.
  intros [b Hb Hl|b x Hb Hx Hl] Hn; apply Forall_app.
  - split; apply pad_bytes; [by apply upper_bytes|constructor].
  - apply Forall_app in Hn as [Nb Nx]. apply Forall_cons in Nx as [_ Nx]. split; by apply pad_bytes, upper_bytes.
Qed.

(** ** Round trip of names *)
Lemma until_pad n l : Forall (fun c => c <> 32) l -> until_space (pad n l) = l.
Proof.
  intros Hl. unfold pad. generalize (n - length l)%nat. intros k. induction Hl as [|c l Hc Hl IH]; [by destruct k|].
  simpl. rewrite (proj2 (Z.eqb_neq _ _) Hc). by rewrite IH.
Qed.
Lemma upper_no_space l : good l -> name_ok l -> Forall (fun c => c <> 32) (to_upper <$> l).
Proof.
  intros Hg Hn. apply Forall_fmap. apply Forall_forall. intros c Hi. simpl.
  apply (upper_ok c); [by apply (proj1 (Forall_forall _ _) Hn)|]. by apply char_ok_not, (proj1 (Forall_forall _ _) Hg).
Qed.
Lemma lower_upper l : Forall (fun c => between 65 90 c = false) l -> to_lower <$> (to_upper <$> l) = l.
Proof.
  intros Hl. rewrite <- list_fmap_compose. rewrite <- (list_fmap_id l) at 2. apply list_fmap_ext. intros k c Hk%list_elem_of_lookup_2.
  pose proof (proj1 (Forall_forall _ _) Hl c Hk) as Hc. simpl. clear -Hc. unfold to_upper, to_lower, between in *.
  destruct (97 <=? c) eqn:E1, (c <=? 122) eqn:E2; cbn [andb]; breflect.
  - rewrite (proj2 (Z.leb_le _ _)), (proj2 (Z.leb_le _ _)) by lia. simpl. lia.
  - by rewrite Hc.
  - by rewrite Hc.
  - by rewrite Hc.
Qed.
Lemma upper_id l : Forall (fun c => between 97 122 c = false) l -> to_upper <$> l = l.
Proof.
  intros Hl. rewrite <- (list_fmap_id l) at 2. apply list_fmap_ext. intros k c Hk%list_elem_of_lookup_2.
  unfold to_upper. by rewrite (proj1 (Forall_forall _ _) Hl c Hk).
Qed.

(** the accepted names are exactly these *)
Lemma scan_after_good name : forall i d, good name -> scan_name name i (Some d) = Some (Some d).
Proof.
  induction name as [|c name IH]; intros i d Hg; [done|]. apply Forall_cons in Hg as [Hc Hg]. cbn [scan_name].
  rewrite (proj2 (Z.eqb_neq c 46)), Hc by (by apply char_ok_not). by apply IH.
Qed.
Lemma scan_good b : forall i, good b -> scan_name b i None = Some None.
Proof.
  induction b as [|c b IH]; intros i Hg; [done|]. apply Forall_cons in Hg as [Hc Hg]. cbn [scan_name].
  rewrite (proj2 (Z.eqb_neq c 46)), Hc by (by apply char_ok_not). by apply IH.
Qed.
Lemma scan_dot b x : forall i, good b -> good x -> scan_name (b ++ 46 :: x) i None = Some (Some (i + length b)%nat).
Proof.
  induction b as [|c b IH]; intros i Hg Hx; cbn [scan_name app length].
  - rewrite Z.eqb_refl, scan_after_good by done. by rewrite Nat.add_0_r.
  - apply Forall_cons in Hg as [Hc Hg]. rewrite (proj2 (Z.eqb_neq c 46)), Hc by (by apply char_ok_not). rewrite IH by done. do 2 f_equal. lia.
Qed.
Lemma dos_name_to name dos : dos_name name dos -> fat32_name_to_dos name = Some dos.
Proof.
  intros Hd. assert ((length name =? 0)%nat || (12 <? length name)%nat = false) as El.
  { destruct Hd; rewrite ?length_app; simpl; apply orb_false_iff; (split; [apply Nat.eqb_neq|apply Nat.ltb_ge]); lia. }
  unfold fat32_name_to_dos. rewrite El. destruct Hd as [b Hb Hl|b x Hb Hx Hl Hlx]; (destruct b as [|c b]; [simpl in Hl; lia|]).
  - assert (c <> 46) as Hc by (by apply Forall_cons in Hb as [(_ & ? & _)%char_ok_not _]). cbn [lookup list_lookup default from_option id].
    rewrite (proj2 (Z.eqb_neq _ _) Hc), scan_good by done. cbn [default from_option id]. rewrite take_ge by lia.
    rewrite (proj2 (Nat.eqb_neq _ _)), (proj2 (Nat.ltb_ge _ _)) by lia. done.
  - assert (c <> 46) as Hc by (by apply Forall_cons in Hb as [(_ & ? & _)%char_ok_not _]). rewrite scan_dot by done.
    cbn [app lookup list_lookup default from_option id]. rewrite (proj2 (Z.eqb_neq _ _) Hc). rewrite Nat.add_0_l.
    rewrite (proj2 (Nat.eqb_neq (length (c :: b)) 0)), (proj2 (Nat.ltb_ge _ _)) by lia. cbn [orb].
    change (c :: b ++ 46 :: x) with ((c :: b) ++ 46 :: x). rewrite length_app. cbn [length].
    replace (S (length b) + S (length x) - S (length b) - 1)%nat with (length x) by lia. rewrite (proj2 (Nat.ltb_ge 3 (length x))) by lia.
    rewrite (take_app_length' (c :: b)) by done. rewrite (drop_app_ge (c :: b)) by (simpl; lia). cbn [length].
    replace (S (S (length b)) - S (length b))%nat with 1%nat by lia. cbn [drop]. by rewrite (take_ge x) by lia.
Qed.

(** [l] after upper case, shown with or without the lower-case flag *)
Definition shown (low : bool) (l : list Z) : list Z := if low then to_lower <$> (to_upper <$> l) else to_upper <$> l.
Lemma char_cases c : fat32_char_ok c = true -> fat32_char_ok (to_upper c) = true /\ fat32_char_ok (to_lower (to_upper c)) = true /\
  to_upper (to_upper c) = to_upper c /\ to_upper (to_lower (to_upper c)) = to_upper c.
Proof.
  intros Hc. unfold to_upper at 1 2 4 5 7 8. destruct (between 97 122 c) eqn:E.
  - assert (97 <= c <= 122) as B by (unfold between in E; rewrite andb_true_iff, !Z.leb_le in E; done).
    assert (between 65 90 (c - 97 + 65) = true) as E1 by (unfold between; rewrite andb_true_iff, !Z.leb_le; lia).
    assert (between 97 122 (c - 97 + 65) = false) as E2 by (unfold between; rewrite andb_false_iff, !Z.leb_gt; lia).
    unfold to_lower, to_upper. rewrite E1, E2. replace (c - 97 + 65 - 65 + 97) with c by lia. rewrite E, Hc. unfold fat32_char_ok at 1. by rewrite E1.
  - unfold to_lower, to_upper. destruct (between 65 90 c) eqn:E1; [|by rewrite E, Hc].
    assert (65 <= c <= 90) as B by (unfold between in E1; rewrite andb_true_iff, !Z.leb_le in E1; done).
    assert (between 97 122 (c - 65 + 97) = true) as E2 by (unfold between; rewrite andb_true_iff, !Z.leb_le; lia).
    rewrite E, E2, Hc. split_and!; [done| |done|lia]. unfold fat32_char_ok. by rewrite E2, orb_true_r.
Qed.
Lemma shown_ok low l : good l -> good (shown low l) /\ to_upper <$> shown low l = to_upper <$> l /\ length (shown low l) = length l.
Proof.
  intros Hl. assert (forall c, c ∈ l -> fat32_char_ok c = true) as Hl' by (by apply Forall_forall). unfold shown, good. destruct low; rewrite ?length_fmap, ?Forall_fmap.
  - split_and!; [|rewrite <- !list_fmap_compose|done].
    + apply Forall_forall. intros c Hc. simpl. by apply char_cases, Hl'.
    + apply list_fmap_ext. intros k c Hc%list_elem_of_lookup_2. simpl. by apply char_cases, Hl'.
  - split_and!; [|rewrite <- !list_fmap_compose|done].
    + apply Forall_forall. intros c Hc. simpl. by apply char_cases, Hl'.
    + apply list_fmap_ext. intros k c Hc%list_elem_of_lookup_2. simpl. by apply char_cases, Hl'.
Qed.
Definition low_base (nt : Z) : bool := negb (Z.land nt 0x08 =? 0).
Definition low_ext (nt : Z) : bool := negb (Z.land nt 0x10 =? 0).
Lemma dos_to_name_eq b x nt : good b -> good x -> name_ok b -> name_ok x -> (length b <= 8)%nat -> (length x <= 3)%nat ->
  fat32_dos_to_name (pad 8 (to_upper <$> b) ++ pad 3 (to_upper <$> x)) nt =
    shown (low_base nt) b ++ match x with [] => [] | _ => 46 :: shown (low_ext nt) x end.
Proof.
  intros Hb Hx Nb Nx Lb Lx. unfold fat32_dos_to_name.
  assert (length (pad 8 (to_upper <$> b)) = 8%nat) as L8 by (apply length_pad; by rewrite length_fmap).
  assert (length (pad 3 (to_upper <$> x)) = 3%nat) as L3 by (apply length_pad; by rewrite length_fmap).
  rewrite take_app_length' by done. rewrite drop_app_length' by done. rewrite take_ge by lia. rewrite !until_pad by (by apply upper_no_space).
  fold (low_base nt). fold (low_ext nt). unfold shown. destruct (low_base nt), (low_ext nt), x; done.
Qed.
(** a name that is listed is found again *)
Lemma listed_name_found name dos nt : name_ok name -> fat32_name_to_dos name = Some dos ->
  fat32_name_to_dos (fat32_dos_to_name dos nt) = Some dos.
Proof.
  intros Hn Hd%to_dos_spec. apply dos_name_to. destruct Hd as [b Hb Hl|b x Hb Hx Hl Hlx].
  - change (pad 3 []) with (pad 3 (to_upper <$> [])). rewrite (dos_to_name_eq b [] nt) by (done || lia || apply Forall_nil_2 || (simpl; lia)). rewrite app_nil_r.
    destruct (shown_ok (low_base nt) b Hb) as (G1 & G2 & G3). rewrite <- G2. apply dos_plain; [done|lia].
  - apply Forall_app in Hn as [Nb Nx]. apply Forall_cons in Nx as [_ Nx]. rewrite dos_to_name_eq by (done || lia).
    destruct (shown_ok (low_base nt) b Hb) as (G1 & G2 & G3). rewrite <- G2. destruct x as [|c x].
    + rewrite app_nil_r. apply dos_plain; [done|lia].
    + destruct (shown_ok (low_ext nt) (c :: x) Hx) as (G4 & G5 & G6). rewrite <- G5. apply dos_ext; (done || lia).
Qed.

(** the case survives where one flag can hold it *)
Definition one_case (l : list Z) : Prop := Forall (fun c => between 65 90 c = false) l \/ Forall (fun c => between 97 122 c = false) l.
Lemma no_lower l : existsb (between 97 122) l = false <-> Forall (fun c => between 97 122 c = false) l.
Proof.
  induction l as [|c l IH]; simpl; [by split|]. rewrite orb_false_iff, IH, Forall_cons. done.
Qed.
Lemma shown_one_case l : one_case l -> shown (existsb (between 97 122) l) l = l.
Proof.
  intros Hl. unfold shown. destruct (existsb _ l) eqn:E; [|by apply upper_id, no_lower].
  apply lower_upper. destruct Hl as [?|Hl%no_lower]; [done|congruence].
Qed.
Lemma before_dot_good b x : good b -> before_dot (b ++ 46 :: x) = Some (b, x).
Proof.
  induction b as [|c b IH]; intros Hb; cbn [before_dot app]; [done|]. apply Forall_cons in Hb as [Hc Hb].
  rewrite (proj2 (Z.eqb_neq c 46)), IH by (done || by apply char_ok_not). done.
Qed.
Lemma flags_low b x : good b -> low_base (nt_flags (b ++ 46 :: x)) = existsb (between 97 122) b /\ low_ext (nt_flags (b ++ 46 :: x)) = existsb (between 97 122) x.
Proof. intros Hb. unfold nt_flags. rewrite before_dot_good by done. by destruct (existsb _ b), (existsb _ x). Qed.
Lemma name_case_kept b x dos : name_ok (b ++ 46 :: x) -> x <> [] -> one_case b -> one_case x -> fat32_name_to_dos (b ++ 46 :: x) = Some dos ->
  fat32_dos_to_name dos (nt_flags (b ++ 46 :: x)) = b ++ 46 :: x.
Proof.
  intros Hn Hx0 Cb Cx Hd%to_dos_spec. assert (exists b' x', b ++ 46 :: x = b' ++ 46 :: x' /\ good b' /\ good x' /\ (length b' <= 8)%nat /\ (length x' <= 3)%nat /\
    dos = pad 8 (to_upper <$> b') ++ pad 3 (to_upper <$> x')) as (b' & x' & E & Gb & Gx & Lb & Lx & ->).
  { inversion Hd as [b' Hb' Hl' E|b' x' Hb' Hx' Hl' Hlx' E]; subst; [|exists b', x'; split_and!; (done || lia)].
    apply Forall_app in Hb' as [_ Hb']. apply Forall_cons in Hb' as [Hb' _]. by apply char_ok_not in Hb' as (_ & ? & _). }
  assert (b = b' /\ x = x') as [-> ->].
  { clear -E Gb Gx. revert b E. induction b' as [|c b' IH]; intros [|d b] E; simpl in E; injection E; intros; subst; try done.
    - exfalso. apply (Forall_app _ b (46 :: x)) in Gx as [_ Gx]. apply Forall_cons in Gx as [Gx _]. by apply char_ok_not in Gx as (_ & ? & _).
    - apply Forall_cons in Gb as [Gb _]. by apply char_ok_not in Gb as (_ & ? & _).
    - apply Forall_cons in Gb as [_ Gb]. destruct (IH Gb b) as [-> ->]; done. }
  apply Forall_app in Hn as [Nb Nx]. apply Forall_cons in Nx as [_ Nx]. rewrite dos_to_name_eq by done.
  destruct (flags_low b' x' Gb) as [-> ->]. rewrite !shown_one_case by done. by destruct x'.
Qed.

(** ** Entries *)
(** a free place, and an entry that [fat32_cb_find] compares *)
Definition free_entry (e : list Z) : bool := (first_byte e =? 0x00) || (first_byte e =? 0xE5).
Definition live_entry (e : list Z) : bool := fat32_dirent_basic e && negb (fat32_dirent_dot e).
Definition is_named (dos e : list Z) : bool := live_entry e && bool_decide (dir_name e = dos).
Lemma free_not_live e : free_entry e = true -> live_entry e = false.
Proof. unfold free_entry, live_entry, fat32_dirent_basic. intros ->. done. Qed.
Lemma first_byte_slice e : first_byte e = first_byte (slice 0 11 e).
Proof. unfold first_byte, slice. by destruct e. Qed.

(** the fields of an entry, cut from the concatenation *)
Lemma slice_app_skip (a b : list Z) off n : (length a <= off)%nat -> slice off n (a ++ b) = slice (off - length a) n b.
Proof. intros Hl. unfold slice. by rewrite drop_app_ge by lia. Qed.
Lemma slice_app_here (a b : list Z) n : length a = n -> slice 0 n (a ++ b) = a.
Proof. intros <-. unfold slice. by rewrite drop_0, take_app_length. Qed.

Section New.
Context (dos name : list Z) (dir : bool) (now : fat32_fat_time) (cluster : Z).
Context (Hd : length dos = 11%nat) (Hc : 0 <= cluster < 2 ^ 32).
Abbreviation e := (new_dirent dos name dir now cluster).
Lemma new_length : length e = 32%nat.
Proof. unfold new_dirent. rewrite !length_app, Hd, !length_le_enc. done. Qed.
Lemma new_name : dir_name e = dos.
Proof. unfold dir_name, new_dirent. by apply slice_app_here. Qed.
Lemma new_field n off : (11 <= off)%nat -> field n off e = field n (off - 11) (drop 11 e).
Proof.
  intros Ho. unfold field, slice. rewrite drop_drop. do 3 f_equal. lia.
Qed.
Lemma new_attr : dir_attr e = if dir then FAT32_ATTR_DIRECTORY else FAT32_ATTR_ARCHIVE.
Proof.
  unfold dir_attr. rewrite new_field by lia. unfold new_dirent. rewrite drop_app_length' by done. unfold field, slice. simpl. destruct dir; done.
Qed.
Lemma new_size : dir_file_size e = 0.
Proof. unfold dir_file_size. rewrite new_field by lia. unfold new_dirent. by rewrite drop_app_length' by done. Qed.
Lemma new_first : dirent_first e = cluster.
Proof.
  unfold dirent_first, dir_first_cluster_high, dir_first_cluster_low. rewrite !new_field by lia. unfold new_dirent. rewrite !drop_app_length' by done.
  unfold field. set (l := _ ++ le_enc 2 (ft_time now) ++ _). change (slice (20 - 11) 2 l) with (le_enc 2 (Z.shiftr cluster 16)).
  change (slice (26 - 11) 2 l) with (le_enc 2 (Z.land cluster 0xFFFF)). rewrite !le_dec_enc. change (2 ^ (8 * Z.of_nat 2)) with (2 ^ 16).
  change 0xFFFF with (Z.ones 16). rewrite Z.land_ones, Z.mod_mod, Z.shiftr_div_pow2, Z.shiftl_mul_pow2 by lia.
  assert (0 <= cluster / 2 ^ 16 < 2 ^ 16) as B by (split; [apply Z.div_pos; lia|apply Z.div_lt_upper_bound; lia]).
  rewrite (Z.mod_small (cluster / 2 ^ 16)) by done. rewrite u32_small by lia. pose proof (Z.mod_pos_bound cluster (2 ^ 16) ltac:(lia)).
  rewrite (lor_low _ _ 16) by lia. pose proof (Z.div_mod cluster (2 ^ 16) ltac:(lia)). lia.
Qed.
Lemma new_bytes : bytes_ok dos -> bytes_ok e.
Proof.
  intros Hb. unfold new_dirent. repeat (apply Forall_app; split); try apply le_enc_ok; [done|].
  assert (byte_ok (nt_flags name)); [|apply Forall_cons_2; [unfold byte_ok; destruct dir; vm_compute; split; congruence|apply Forall_cons_2; [done|apply Forall_singleton; unfold byte_ok; lia]]].
  unfold nt_flags, byte_ok. destruct (before_dot name) as [[b x]|]; [|lia]. destruct (existsb _ b), (existsb _ x); vm_compute; split; congruence.
Qed.
(** a name that does not start with the byte of a deleted entry can be found *)
Lemma new_live : first_byte dos <> 0 -> first_byte dos <> 0xE5 -> first_byte dos <> 46 -> is_named dos e = true.
Proof.
  intros H0 H1 H2. unfold is_named, live_entry, fat32_dirent_basic, fat32_dirent_dot. rewrite new_name, new_attr, bool_decide_true by done.
  rewrite (first_byte_slice e). change (slice 0 11 e) with (dir_name e). rewrite new_name.
  rewrite (proj2 (Z.eqb_neq _ _) H0), (proj2 (Z.eqb_neq _ _) H1), (proj2 (Z.eqb_neq _ _) H2). by destruct dir.
Qed.
End New.

Lemma erase_free e : length e = 32%nat -> free_entry (erase e) = true.
Proof.
  intros Hl. unfold free_entry, erase. destruct e as [|b e]; [done|].
  rewrite first_byte_slice. unfold set_field. repeat (rewrite slice_splice_before by (rewrite ?length_splice; rewrite ?length_le_enc; simpl in *; lia)). done.
Qed.
Lemma erase_length e : length e = 32%nat -> length (erase e) = 32%nat.
Proof. intros Hl. unfold erase. do 4 (apply length_set_field_eq; [|lia]). done. Qed.
Lemma erase_bytes e : bytes_ok e -> bytes_ok (erase e).
Proof. intros He. unfold erase, set_field. repeat (apply splice_ok; [apply le_enc_ok|]). done. Qed.
