(* ===== verification/FatData.v ===== *)
(** FAT32 files as a whole: the directory entry, what [fat32_write_data] and
    [fat32_truncate] do to the contents of a file and to its chain. *)
From stdpp Require Import base gmap list.
From Stdlib Require Import ZArith Lia.
From S2P Require Import Prelude Bytes HashMap BlockDev Fat FatDir FatFile FatTable FatRead FatWrite FatEntry.
Open Scope Z_scope.

(** ** Contents *)
Lemma splice_agree off bs l l' : take off l = take off l' -> drop (off + length bs) l = drop (off + length bs) l' -> splice off bs l = splice off bs l'.
Proof. intros E1 E2. unfold splice. by rewrite E1, E2. Qed.
Lemma take_splice off bs l n : (off + length bs <= n)%nat -> (off + length bs <= length l)%nat -> take n (splice off bs l) = splice off bs (take n l).
Proof.
  intros Hn Hl. unfold splice. rewrite take_take, skipn_firstn_comm. replace (off `min` n)%nat with off by lia.
  rewrite take_app_ge by (rewrite length_take; lia). rewrite take_app_ge by (rewrite length_take; lia). do 2 f_equal.
  rewrite length_take. f_equal. lia.
Qed.

Section Data.
Context {D H : Type} `{DD : BlockDev D} `{HH : Heap H}.
Abbreviation St := (fat_state D H).
Abbreviation rel := (fat_reliable (D := D) (H := H)).
Context (fs : fat32_fs_priv) (G : fgeom fs).
Abbreviation cl := (cl fs).
Abbreviation fat := (fat fs).
Abbreviation spc := (sectors_per_cluster fs).
Abbreviation csec := (csec fs).
Abbreviation cdata := (cdata fs).
Abbreviation csize := (csize fs).
Abbreviation fbytes := (fbytes fs).
Abbreviation chain := (chain fs).
Abbreviation put_at := (put_at fs).

Definition contents_after (pos : Z) (buf old : list Z) : list Z :=
  splice (Z.to_nat pos) buf (old ++ replicate (Z.to_nat (pos + Z.of_nat (length buf)) - length old) 0).

Lemma written_contents pos buf size end_ start (fb X : list Z) : 0 <= pos -> 0 <= size -> end_ = pos + Z.of_nat (length buf) ->
  start = Z.min pos size -> (Z.to_nat size <= length fb)%nat -> (Z.to_nat (Z.max size end_) <= length X)%nat ->
  take (length fb) X = fb ->
  take (Z.to_nat (Z.max size end_)) (splice (Z.to_nat start) (source pos buf start (end_ - start)) X) = contents_after pos buf (take (Z.to_nat size) fb).
Proof.
  intros Hp Hs He Est Hfb HX EX. assert (length (source pos buf start (end_ - start)) = Z.to_nat (end_ - start)) as Ls by apply length_source.
  rewrite take_splice by (rewrite ?Ls; lia). unfold contents_after. rewrite length_take, Nat.min_l by lia. rewrite <- He.
  set (Y := take (Z.to_nat size) fb ++ replicate (Z.to_nat end_ - Z.to_nat size) 0).
  assert (take (Z.to_nat size) X = take (Z.to_nat size) fb) as Efb by (rewrite <- EX, take_take; f_equal; lia).
  trans (splice (Z.to_nat start) (source pos buf start (end_ - start)) Y).
  - apply splice_agree.
    + rewrite take_take. replace (Z.to_nat start `min` Z.to_nat (Z.max size end_))%nat with (Z.to_nat start) by lia.
      unfold Y. rewrite take_app_le, take_take by (rewrite length_take; lia). rewrite <- EX, take_take. f_equal. lia.
    + rewrite Ls. unfold Y. destruct (decide (end_ <= size)).
      * replace (Z.to_nat end_ - Z.to_nat size)%nat with 0%nat by lia. rewrite app_nil_r, <- Efb. do 2 f_equal. lia.
      * rewrite !drop_ge; [done| |]; rewrite ?length_app, ?length_replicate, !length_take; lia.
  - destruct (decide (pos < size)) as [Hlt|Hge].
    + replace start with pos by lia. rewrite source_slice by lia. f_equal. replace (end_ - pos) with (Z.of_nat (length buf)) by lia.
      rewrite Z.sub_diag, Nat2Z.id. apply slice_all.
    + replace start with size in * by lia. replace (end_ - size) with ((pos - size) + Z.of_nat (length buf)) by lia. rewrite source_app by lia.
      replace (size + (pos - size)) with pos by lia. rewrite (source_slice pos buf pos) by lia. rewrite Z.sub_diag, Nat2Z.id, slice_all.
      assert (source pos buf size (pos - size) = slice (Z.to_nat size) (Z.to_nat (pos - size)) Y) as ->.
      { unfold Y, slice. rewrite drop_app_length' by (rewrite length_take; lia). rewrite take_replicate, Nat.min_l by lia.
        apply list_eq. intros k. unfold source. rewrite list_lookup_fmap. destruct (decide (k < Z.to_nat (pos - size))%nat).
        - rewrite lookup_seq_lt, lookup_replicate_2 by lia. simpl. by rewrite (proj2 (Z.ltb_lt _ _)) by lia.
        - rewrite lookup_seq_ge by lia. symmetry. apply lookup_replicate_None. lia. }
      assert (length Y = Z.to_nat (Z.max size end_)) as LY.
      { unfold Y. rewrite length_app, length_replicate, length_take. lia. }
      assert (length (slice (Z.to_nat size) (Z.to_nat (pos - size)) Y) = Z.to_nat (pos - size)) as Lsl by (apply length_slice; lia).
      rewrite <- splice_seq by lia. rewrite splice_slice by lia. f_equal. lia.
Qed.

(** ** The entry of a file in its directory *)
Record place_ok (c off : Z) : Prop := { pl_cl : cl c; pl_off : 0 <= off < Z.of_nat csize; pl_align : off mod 32 = 0 }.
Definition entry (v : vol) (c off : Z) : list Z := slice (Z.to_nat off) 32 (cdata v c).

Lemma place_sector c off : place_ok c off -> 0 <= off / 512 < spc /\ 0 <= off mod 512 /\ off mod 512 + 32 <= 512.
Proof.
  intros [Hc Ho Ha]. destruct (coff_sector fs G off Ho) as (Hq & Hm & _). split; [done|]. split; [lia|].
  assert ((off mod 512) mod 32 = 0) as E by (rewrite Z.mod_mod_divide; [done|by exists 16]).
  pose proof (Z.div_mod (off mod 512) 32 ltac:(lia)). assert (off mod 512 / 32 < 16); [|lia]. apply Z.div_lt_upper_bound; lia.
Qed.
Lemma sector_of p : place_ok (dir_cluster p) (dirent_off p) -> dirent_sector fs p = csec (dir_cluster p) + dirent_off p / 512.
Proof.
  intros Pl. destruct (place_sector _ _ Pl) as (Hq & _). unfold dirent_sector. rewrite (g_bps fs G).
  by destruct (csec_ok fs G _ _ (pl_cl _ _ Pl) Hq) as (-> & -> & _).
Qed.
Lemma dirent_load_ok v p : is_root p = false -> place_ok (dir_cluster p) (dirent_off p) ->
  ftriple (D := D) (H := H) v (fat32_dirent_load fs p) (fun r v' => v' = v /\ (r = Some (entry v (dir_cluster p) (dirent_off p)) \/ (r = None /\ ~ rel))).
Proof.
  intros Hr Pl. apply ft_vol. intros Hv. unfold fat32_dirent_load. rewrite Hr, (sector_of p Pl). destruct (place_sector _ _ Pl) as (_ & Hm & Hs).
  apply ft_with_buf; [apply (bps_ok fs G)|by auto|]. rewrite (g_bps fs G). eapply ft_bind; [apply ft_read|].
  intros [r bs] v' (-> & [[Hge ->]|[Hlt Hn]]); cbn [fst snd] in *.
  - rewrite (proj2 (Z.ltb_ge _ _) Hge). apply ft_fld; [done|rewrite (proj1 (Hv _)); lia|]. apply ft_ret. split; [done|]. left. f_equal.
    apply (cdata_slice fs G); [done|apply Pl|lia|apply Pl|lia].
  - rewrite (proj2 (Z.ltb_lt _ _) Hlt). apply ft_ret. auto.
Qed.
Lemma dirent_store_ok v p e : is_root p = false -> place_ok (dir_cluster p) (dirent_off p) -> length e = 32%nat -> bytes_ok e ->
  ftriple (D := D) (H := H) v (fat32_dirent_store fs p e)
    (fun r v' => (0 <= r /\ v' = put_at (dir_cluster p) (dirent_off p) e v) \/ (r < 0 /\ ~ rel)).
Proof.
  intros Hr Pl Hl Hb. apply ft_vol. intros Hv. unfold fat32_dirent_store. rewrite Hr, (sector_of p Pl). destruct (place_sector _ _ Pl) as (_ & Hm & Hs).
  apply ft_with_buf; [apply (bps_ok fs G)|right; by split; [lia|]|]. rewrite (g_bps fs G). eapply ft_bind; [apply ft_read|].
  intros [r bs] v' (-> & [[Hge ->]|[Hlt Hn]]); cbn [fst snd] in *.
  - rewrite (proj2 (Z.ltb_ge _ _) Hge). apply ft_fput; [done|rewrite (proj1 (Hv _)); lia|]. eapply ft_conseq; [apply ft_write|].
    + rewrite length_splice; [apply Hv|rewrite (proj1 (Hv _)); lia].
    + apply splice_ok; [done|apply Hv].
    + intros w v' (bs' & -> & [[Hw ->]|?]); [by left|by right].
  - rewrite (proj2 (Z.ltb_lt _ _) Hlt). apply ft_ret. right. split; [lia|done].
Qed.
Lemma entry_len v c off : vol_ok v -> place_ok c off -> length (entry v c off) = 32%nat /\ bytes_ok (entry v c off).
Proof.
  intros Hv Pl. destruct (place_sector _ _ Pl) as (_ & Hm & Hs). destruct (pl_off _ _ Pl).
  replace (entry v c off) with (slice (Z.to_nat (off mod 512)) (Z.to_nat 32) (v (csec c + off / 512))); [|apply (cdata_slice fs G); [done|lia..]].
  split; [apply length_slice; rewrite (proj1 (Hv _)); lia|apply slice_ok, Hv].
Qed.
Lemma put_entry_same v c off e : vol_ok v -> place_ok c off -> length e = 32%nat -> entry (put_at c off e v) c off = e.
Proof.
  intros Hv Pl Hl. destruct (place_sector _ _ Pl) as (_ & Hm & Hs). destruct (pl_off _ _ Pl). unfold entry.
  rewrite (put_at_cdata fs G) by (done || lia). rewrite <- Hl at 1. apply slice_splice_same. rewrite length_cdata by done. lia.
Qed.

Lemma set_time_fields size t d e : length e = 32%nat -> 0 <= size < 2 ^ 32 ->
  let e' := set_field 2 24 d (set_field 2 22 t (set_field 4 28 size e)) in
  length e' = 32%nat /\ dir_file_size e' = size /\ dirent_first e' = dirent_first e /\ dir_name e' = dir_name e /\ dir_attr e' = dir_attr e.
Proof.
  intros Hl Hs e'. set (e1 := set_field 4 28 size e) in *. set (e2 := set_field 2 22 t e1) in *.
  assert (length e1 = 32%nat) as L1 by (apply length_set_field_eq; [done|lia]). assert (length e2 = 32%nat) as L2 by (apply length_set_field_eq; [done|lia]).
  assert (forall n off, (off + n <= 22 \/ 26 <= off)%nat -> field n off e' = field n off e1) as E.
  { intros n off Ho. unfold e', e2. rewrite !(field_set_disjoint_len 32) by (done || lia). done. }
  assert (forall n off, (off + n <= 22)%nat \/ (off = 26 /\ n = 2)%nat -> field n off e' = field n off e) as E'.
  { intros n off Ho. rewrite E by lia. unfold e1. by rewrite (field_set_disjoint_len 32) by (done || lia). }
  split; [apply length_set_field_eq; [done|lia]|]. unfold dir_file_size, dirent_first, dir_first_cluster_high, dir_first_cluster_low, dir_attr.
  rewrite (E 4%nat 28%nat), !E' by lia. unfold e1 at 1. rewrite (field_set_same_len 32), Z.mod_small by (done || lia).
  split_and!; try done. unfold dir_name. trans (slice 0 11 e2); [apply slice_splice_before; lia|].
  trans (slice 0 11 e1); apply slice_splice_before; lia.
Qed.

(** [e'] is entry [e] with a new size and time *)
Definition resized (size : Z) (e e' : list Z) : Prop :=
  length e' = 32%nat /\ dir_file_size e' = size /\ dirent_first e' = dirent_first e /\ dir_name e' = dir_name e /\ dir_attr e' = dir_attr e.
Lemma update_size_ok ticks v p size : is_root p = false -> place_ok (dir_cluster p) (dirent_off p) -> 0 <= size < 2 ^ 32 ->
  ftriple (D := D) (H := H) v (fat32_dirent_update_size ticks fs p size) (fun r v' =>
    (0 <= r /\ exists e', resized size (entry v (dir_cluster p) (dirent_off p)) e' /\ v' = put_at (dir_cluster p) (dirent_off p) e' v) \/ (r < 0 /\ ~ rel)).
Proof.
  intros Hr Pl Hs. apply ft_vol. intros Hv. destruct (entry_len v _ _ Hv Pl) as [Le Be]. unfold fat32_dirent_update_size. rewrite Hr.
  eapply ft_bind; [by apply dirent_load_ok|]. intros o v' (-> & [->|[-> Hn]]); [|apply ft_ret; right; split; [lia|done]].
  unfold now_at. destruct (now_some ticks) as [now ->]. eapply ft_bind; [by apply (ft_ret v now (fun t v' => t = now /\ v' = v))|].
  intros t v' [-> ->]. destruct (set_time_fields size (ft_time now) (ft_date now) (entry v (dir_cluster p) (dirent_off p)) Le Hs) as (L & F).
  eapply ft_conseq; [apply dirent_store_ok; [done|done|exact L|]|].
  - repeat (apply splice_ok; [apply le_enc_ok|]). done.
  - intros r v' [[Hge ->]|?]; [left|by right]. split; [done|]. eexists. split; [|done]. by split.
Qed.

(** ** Writing *)
Record entry_ok (v : vol) (p : fat32_inode_priv) (cs : list Z) : Prop := {
  en_root : is_root p = false;
  en_place : place_ok (dir_cluster p) (dirent_off p);
  en_apart : dir_cluster p ∉ cs;
  en_used : fat v (dir_cluster p) <> 0 }.

(** what a successful write leaves: [i'] has the new contents in the clusters
    [cs'], its entry the new size but the old first cluster, and no other
    cluster has changed *)
Record written (pos : Z) (buf : list Z) (v v' : vol) (i i' : finode) (cs cs' : list Z) : Prop := {
  wr_file : fat_file fs v' i' cs';
  wr_grown : exists new, cs' = cs ++ new /\ forall c, c ∈ new -> fat v c = 0;
  wr_used c : c ∈ cs' -> fat v' c <> 0;
  wr_size : fi_size i' = Z.max (fi_size i) (pos + Z.of_nat (length buf));
  wr_bytes : fcontents fs v' i' cs' = contents_after pos buf (fcontents fs v i cs);
  wr_fat c : cl c -> c ∉ cs' -> fat v' c = fat v c;
  wr_data c : cl c -> c ∉ cs' -> c <> dir_cluster (fi_private i) -> cdata v' c = cdata v c;
  wr_entry : dirent_first (entry v' (dir_cluster (fi_private i)) (dirent_off (fi_private i))) =
             dirent_first (entry v (dir_cluster (fi_private i)) (dirent_off (fi_private i))) }.

Section Body.
Context (v : vol) (i : finode) (cs : list Z) (pos : Z) (buf : list Z).
Context (Hff : fat_file fs v i cs) (Hu : forall c, c ∈ cs -> fat v c <> 0) (He : entry_ok v (fi_private i) cs).
Context (Hp : 0 <= pos) (Hb : bytes_ok buf) (Hmax : pos + Z.of_nat (length buf) < 2 ^ 32).
Abbreviation p := (fi_private i).
Abbreviation end_ := (pos + Z.of_nat (length buf)).
Abbreviation start := (Z.min pos (fi_size i)).
(** the first byte to write lies in a cluster of the file, or the file is empty *)
Context (Hroom : cs = [] \/ start / Z.of_nat csize < Z.of_nat (length cs)).

(** the chain and the bytes after the loop, before the entry is updated *)
Lemma written_loop v' cs' new first : vol_ok v -> vol_ok v' -> grown fs v v' cs cs' new -> first = default 0 (head cs') ->
  end_ <= Z.of_nat (length cs' * csize) ->
  fbytes v' cs' = splice (Z.to_nat start) (source pos buf start (end_ - start)) (fbytes v cs ++ replicate (length new * csize) 0) ->
  forall i', i' = fi_set_size (Z.max (fi_size i) end_) (fi_set_first first i) ->
  fat_file fs v' i' cs' /\ fcontents fs v' i' cs' = contents_after pos buf (fcontents fs v i cs).
Proof.
  intros Hv Hv' Gr Hfi Hen Eb i' ->. destruct Hff as [Hc Hf1 Hs Hm]. pose proof (gr_eq _ _ _ _ _ _ Gr) as Ec. split.
  - split; [apply Gr|done| |simpl; lia]. simpl. rewrite Ec, length_app in *. lia.
  - unfold fcontents. simpl fi_size. rewrite Eb. apply written_contents; try done; try lia.
    + rewrite length_fbytes by done. lia.
    + rewrite length_app, length_replicate, (length_fbytes fs v cs Hv). rewrite Ec, length_app in Hen. lia.
    + by rewrite take_app_length.
Qed.

Lemma written_plain v' cs' new i' : grown fs v v' cs cs' new -> fi_size i' = Z.max (fi_size i) end_ ->
  fat_file fs v' i' cs' -> fcontents fs v' i' cs' = contents_after pos buf (fcontents fs v i cs) -> written pos buf v v' i i' cs cs'.
Proof.
  intros Gr Es F E. pose proof (gr_eq _ _ _ _ _ _ Gr) as Ec. assert (dir_cluster p ∉ cs') as Hd.
  { rewrite Ec. intros [Hi|Hi]%elem_of_app; [by apply (en_apart _ _ _ He)|]. apply (gr_new _ _ _ _ _ _ Gr) in Hi as [_ Hi]. by apply (en_used _ _ _ He). }
  split; [done|..].
  - exists new. split; [done|]. intros c Hi. by apply (gr_new _ _ _ _ _ _ Gr).
  - apply Gr.
  - done.
  - done.
  - apply Gr.
  - intros c Hc Hn _. by eapply (data_same_cdata fs G); [apply Gr|..].
  - unfold entry. f_equal. f_equal. eapply (data_same_cdata fs G); [apply Gr|apply (en_place _ _ _ He)|done].
Qed.
Lemma written_entry v1 cs' i' e' : vol_ok v1 -> written pos buf v v1 i i' cs cs' ->
  length e' = 32%nat -> dirent_first e' = dirent_first (entry v1 (dir_cluster p) (dirent_off p)) ->
  written pos buf v (put_at (dir_cluster p) (dirent_off p) e' v1) i i' cs cs'.
Proof.
  intros Hv1 W Le Ef. pose proof (en_place _ _ _ He) as Pl. pose proof (pl_cl _ _ Pl) as Hdc. destruct (place_sector _ _ Pl) as (_ & Hm0 & Hs0).
  destruct (wr_grown _ _ _ _ _ _ _ _ W) as (new & Ec & Hnew). assert (dir_cluster p ∉ cs') as Hd.
  { rewrite Ec. intros [Hi|Hi]%elem_of_app; [by apply (en_apart _ _ _ He)|]. by apply (en_used _ _ _ He), Hnew. }
  set (v2 := put_at (dir_cluster p) (dirent_off p) e' v1).
  assert (forall c, cl c -> fat v2 c = fat v1 c) as Ef2 by (intros; by apply (put_at_fat fs G), Pl).
  assert (forall c, c <> dir_cluster p -> cdata v2 c = cdata v1 c) as Ed2 by (intros; by apply (put_at_other fs G), Pl).
  pose proof (wr_file _ _ _ _ _ _ _ _ W) as [Hc Hf1 Hsz Hmx]. assert (forall c, c ∈ cs' -> cl c) as Hcl by (intros; by eapply chain_cl).
  assert (fbytes v2 cs' = fbytes v1 cs') as Eb.
  { unfold FatRead.fbytes. f_equal. apply list_fmap_ext. intros k c Hc'%list_elem_of_lookup_2. apply Ed2. by intros ->. }
  split; [|by exists new|..].
  - split; [|done..]. eapply fchain_ext; [|exact Hc]. intros c Hi. by apply Ef2, Hcl.
  - intros c Hi. rewrite Ef2 by (by apply Hcl). by apply (wr_used _ _ _ _ _ _ _ _ W).
  - apply W.
  - unfold fcontents. rewrite Eb. apply W.
  - intros c Hcc Hn. rewrite Ef2 by done. by apply (wr_fat _ _ _ _ _ _ _ _ W).
  - intros c Hcc Hn Hne. rewrite Ed2 by done. by apply (wr_data _ _ _ _ _ _ _ _ W).
  - unfold v2. rewrite put_entry_same by done. rewrite Ef. apply W.
Qed.

Lemma skip_ok : ftriple (D := D) (H := H) v (skip_write fs (Z.to_nat (start / Z.of_nat csize)) (first_cluster p))
  (fun r v' => v' = v /\ ((exists cur, r = Some cur /\ wstate fs v cs cur 0 (first_cluster p) start) \/ (r = None /\ ~ rel))).
Proof.
  destruct Hff as [Hc Hf1 Hs Hm]. destruct (cluster_bytes_ok fs G) as [_ Hcb]. assert (0 <= start / Z.of_nat csize) by (apply Z.div_pos; lia). destruct cs as [|c0 cs0].
  - assert (start = 0) as -> by (simpl in Hs; lia). rewrite Z.div_0_l by lia. apply ft_ret. split; [done|]. left. eexists. split; [done|].
    split; [done| |done|]; [by intros c []%elem_of_nil|]. right. rewrite Hf1. split_and!; [intros [? _]; simpl in *; lia|done..].
  - destruct Hroom as [?|Hro]; [done|]. rewrite Hf1. cbn [head default from_option id].
    eapply ft_conseq; [apply (skip_write_ok fs G _ v c0 cs0 Hc); simpl in Hro; lia|]. intros r v' (-> & [->|?]); (split; [done|]); [left|by right].
    destruct (lookup_lt_is_Some_2 (c0 :: cs0) (Z.to_nat (start / Z.of_nat csize))) as [cur Ecur]; [simpl in *; lia|]. exists cur. split; [done|].
    split; [done|done|done|]. left. exists (take (Z.to_nat (start / Z.of_nat csize)) (c0 :: cs0)), (drop (S (Z.to_nat (start / Z.of_nat csize))) (c0 :: cs0)).
    split; [by rewrite take_drop_middle|]. apply lookup_lt_Some in Ecur. rewrite length_take. lia.
Qed.

Lemma write_body_ok ticks : ftriple (D := D) (H := H) v (write_body ticks fs i pos buf) (fun x v' =>
  ~ rel \/ match x with (true, i') => exists cs', written pos buf v v' i i' cs cs' | (false, _) => full fs v' end).
Proof.
  apply ft_vol. intros Hv. pose proof Hff as [Hc Hf1 Hs Hm]. destruct (cluster_bytes_ok fs G) as [Ecb Hcb]. unfold write_body. rewrite (g_bps fs G), Ecb.
  change (FAT32_SECTOR_SIZE <? 512) with false. cbv iota. rewrite (u64_small end_) by lia.
  replace (if pos <? fi_size i then pos else fi_size i) with start by (case_match; breflect; lia).
  eapply ft_bind; [apply skip_ok|]. intros r v1 (-> & [(cur & -> & W)|[-> Hr]]); [|apply ft_ret; by left].
  eapply ft_bind.
  { eapply (fwrite_loop_ok fs G pos end_ buf Hp Hb eq_refl _ v cs start cur 0 _ _); [lia|apply Z.mod_pos_bound; lia|by left| |by right].
    apply fuel_rounds; [apply Z.mod_pos_bound; lia|lia]. }
  intros [ok first] v1 Hpost. cbn [fst snd]. destruct ok; cbn [negb]; [|apply ft_ret; destruct Hpost; [by left|by right]].
  apply ft_vol. intros Hv1. cbn [fi_size fi_set_first]. destruct (fi_size i <? end_) eqn:E; breflect.
  - eapply ft_bind; [apply (update_size_ok ticks v1); [apply He|apply (en_place _ _ _ He)|rewrite u32_small; lia]|].
    intros u v2 [[Hu0 (e' & Re & ->)]|[Hu0 Hr]]; apply ft_ret; [|by left]. rewrite (proj2 (Z.ltb_ge _ _) Hu0). cbn [negb].
    destruct Hpost as [?|(cs' & new & Gr & Hfi & Hen & Eb)]; [by left|right]. exists cs'.
    destruct (written_loop v1 cs' new first Hv Hv1 Gr Hfi Hen Eb _ eq_refl) as [F1 F2]. rewrite Z.max_r in F1, F2 by lia.
    apply (written_entry v1 cs'); [done| |apply Re|apply Re]. eapply written_plain; [exact Gr|simpl; lia|exact F1|exact F2].
  - apply ft_ret. destruct Hpost as [?|(cs' & new & Gr & Hfi & Hen & Eb)]; [by left|right]. exists cs'.
    assert (fi_set_size (Z.max (fi_size i) end_) (fi_set_first first i) = fi_set_first first i) as Ei by (rewrite Z.max_l by lia; by destruct i).
    destruct (written_loop v1 cs' new first Hv Hv1 Gr Hfi Hen Eb _ eq_refl) as [F1 F2]. rewrite Ei in F1, F2.
    eapply written_plain; [exact Gr|simpl; lia|exact F1|exact F2].
Qed.
End Body.

(** *** A write that starts right behind the last cluster

    [skip_write] then ends at the mark of the table, the loop has no previous
    cluster to link the new one to, and the file starts over in new clusters. *)
Record restarted (pos : Z) (buf : list Z) (v v' : vol) (i i' : finode) (cs cs' : list Z) : Prop := {
  rs_chain : chain (fat v') cs';
  rs_first : first_cluster (fi_private i') = default 0 (head cs');
  rs_fresh c : c ∈ cs' -> fat v c = 0 /\ c ∉ cs;
  rs_size : fi_size i' = pos + Z.of_nat (length buf);
  rs_bytes : take (Z.to_nat (pos + Z.of_nat (length buf) - fi_size i)) (fbytes v' cs') = replicate (Z.to_nat (pos - fi_size i)) 0 ++ buf;
  rs_old : chain (fat v') cs;
  rs_fat c : cl c -> c ∉ cs' -> fat v' c = fat v c;
  rs_data c : cl c -> c ∉ cs' -> c <> dir_cluster (fi_private i) -> cdata v' c = cdata v c;
  rs_entry : dirent_first (entry v' (dir_cluster (fi_private i)) (dirent_off (fi_private i))) =
             dirent_first (entry v (dir_cluster (fi_private i)) (dirent_off (fi_private i))) }.

Section Restart.
Context (v : vol) (i : finode) (cs : list Z) (pos : Z) (buf : list Z).
Context (Hff : fat_file fs v i cs) (Hu : forall c, c ∈ cs -> fat v c <> 0) (He : entry_ok v (fi_private i) cs).
Context (Hb : bytes_ok buf) (Hmax : pos + Z.of_nat (length buf) < 2 ^ 32) (Hne : buf <> []).
Context (Hcs : cs <> []) (Hsize : fi_size i = Z.of_nat (length cs * csize)) (Hpos : fi_size i <= pos).
Abbreviation p := (fi_private i).
Abbreviation b := (fi_size i).
Abbreviation end_ := (pos + Z.of_nat (length buf)).

Lemma end_behind : 0 < Z.of_nat (length buf).
Proof. destruct buf; [done|simpl; lia]. Qed.
Lemma zeros_then n m (l : list Z) : (n + length l <= m)%nat ->
  take (n + length l) (splice 0 (replicate n 0 ++ l) (replicate m 0)) = replicate n 0 ++ l.
Proof.
  intros Hm. unfold splice. rewrite take_0, app_nil_l, take_app_le by (rewrite length_app, length_replicate; lia).
  apply take_ge. rewrite length_app, length_replicate. lia.
Qed.
Lemma restart_source : source (pos - b) buf 0 (end_ - b) = replicate (Z.to_nat (pos - b)) 0 ++ buf.
Proof.
  pose proof end_behind. replace (end_ - b) with ((pos - b) + Z.of_nat (length buf)) by lia. rewrite source_app by lia. f_equal.
  - unfold source. apply list_eq. intros k. rewrite list_lookup_fmap. destruct (decide (k < Z.to_nat (pos - b))%nat).
    + rewrite lookup_seq_lt, lookup_replicate_2 by lia. simpl. by rewrite (proj2 (Z.ltb_lt _ _)) by lia.
    + rewrite lookup_seq_ge by lia. symmetry. apply lookup_replicate_None. lia.
  - rewrite source_slice by lia. replace (Z.to_nat (0 + (pos - b) - (pos - b))) with 0%nat by lia. rewrite Nat2Z.id. apply slice_all.
Qed.

(** the new chain, with the entry [e'] put in its place *)
Lemma restarted_entry v1 cs' first e' : vol_ok v1 -> grown fs v v1 [] cs' cs' -> first = default 0 (head cs') -> end_ - b <= Z.of_nat (length cs' * csize) ->
  fbytes v1 cs' = splice 0 (source (pos - b) buf 0 (end_ - b)) (replicate (length cs' * csize) 0) ->
  length e' = 32%nat -> dirent_first e' = dirent_first (entry v1 (dir_cluster p) (dirent_off p)) ->
  restarted pos buf v (put_at (dir_cluster p) (dirent_off p) e' v1) i (fi_set_size end_ (fi_set_first first i)) cs cs'.
Proof.
  intros Hv1 Gr Hfi Hen Eb Le Ee. pose proof (en_place _ _ _ He) as Pl. pose proof (pl_cl _ _ Pl) as Hdc. pose proof end_behind.
  assert (forall c, c ∈ cs' -> cl c /\ fat v c = 0) as Hnew by apply Gr.
  assert (dir_cluster p ∉ cs') as Hd by (intros [_ ?]%Hnew; by apply (en_used _ _ _ He)).
  set (v2 := put_at (dir_cluster p) (dirent_off p) e' v1).
  assert (forall c, cl c -> fat v2 c = fat v1 c) as Ef by (intros; by apply (put_at_fat fs G), Pl).
  assert (forall c, c <> dir_cluster p -> cdata v2 c = cdata v1 c) as Ed by (intros; by apply (put_at_other fs G), Pl).
  assert (forall c, c ∈ cs -> c ∉ cs') as Hold by (intros c Hc [_ ?]%Hnew; by apply (Hu c)).
  assert (forall c, cl c -> c ∉ cs' -> fat v2 c = fat v c) as Efat by (intros; rewrite Ef by done; by apply Gr).
  split; [|done| |done| | |done| |].
  - eapply fchain_ext; [|apply Gr]. intros c [Hc _]%Hnew. by apply Ef.
  - intros c Hc. split; [by apply Hnew|]. intros Hi. by apply (Hold c).
  - replace (fbytes v2 cs') with (fbytes v1 cs').
    2:{ unfold FatRead.fbytes. f_equal. apply list_fmap_ext. intros k c Hc%list_elem_of_lookup_2. symmetry. apply Ed. by intros ->. }
    rewrite Eb, restart_source. replace (Z.to_nat (end_ - b)) with (Z.to_nat (pos - b) + length buf)%nat by lia. apply zeros_then. lia.
  - eapply fchain_ext; [|apply Hff]. intros c Hc. apply Efat; [by eapply (chain_cl fs), Hc; apply Hff|by apply Hold].
  - intros c Hc Hn Hx. rewrite Ed by done. by eapply (data_same_cdata fs G); [apply Gr|..].
  - unfold v2. rewrite (put_entry_same v1), Ee by done. unfold entry. do 2 f_equal.
    eapply (data_same_cdata fs G); [apply Gr|apply Pl|done].
Qed.

Lemma restart_body_ok ticks : ftriple (D := D) (H := H) v (write_body ticks fs i pos buf) (fun x v' =>
  ~ rel \/ match x with (true, i') => exists cs', restarted pos buf v v' i i' cs cs' | (false, _) => full fs v' end).
Proof.
  pose proof Hff as [Hc Hf1 Hs Hm]. pose proof end_behind. destruct (cluster_bytes_ok fs G) as [Ecb Hcb]. unfold write_body. rewrite (g_bps fs G), Ecb.
  change (FAT32_SECTOR_SIZE <? 512) with false. cbv iota. rewrite (u64_small end_) by lia. rewrite (proj2 (Z.ltb_ge pos b)) by lia.
  assert (b / Z.of_nat csize = Z.of_nat (length cs) /\ b mod Z.of_nat csize = 0) as [-> ->].
  { rewrite Hsize, Nat2Z.inj_mul. split; [apply Z.div_mul; lia|apply Z.mod_mul; lia]. }
  assert (exists c0 cs0, cs = c0 :: cs0) as (c0 & cs0 & Ecs) by (clear -Hcs; destruct cs; [done|eauto]).
  rewrite Nat2Z.id. replace (length cs) with (S (length cs0)) by (by rewrite Ecs). replace (first_cluster p) with c0 by (by rewrite Hf1, Ecs).
  eapply ft_bind; [apply (skip_write_end fs G); by rewrite <- Ecs|]. intros r v1 (-> & [(cur & -> & Hcur)|[-> Hr]]); [|apply ft_ret; by left].
  eapply ft_bind.
  { apply (loop_restart fs G); [lia|lia|done|done| |].
    - intros Hcl. by rewrite (cl_not_end fs G _ Hcl) in Hcur.
    - apply fuel_rounds; lia. }
  intros [ok first] v1 Hpost. cbn [fst snd]. destruct ok; cbn [negb]; [|apply ft_ret; destruct Hpost; [by left|by right]].
  apply ft_vol. intros Hv1. cbn [fi_size fi_set_first]. rewrite (proj2 (Z.ltb_lt b end_)) by lia.
  eapply ft_bind; [apply (update_size_ok ticks v1); [apply He|apply (en_place _ _ _ He)|rewrite u32_small; lia]|].
  intros u v2 [[Hu0 (e' & Re & ->)]|[Hu0 Hr]]; apply ft_ret; [|by left]. rewrite (proj2 (Z.ltb_ge _ _) Hu0). cbn [negb].
  destruct Hpost as [?|(cs' & new & Gr & Hfi & Hen & Eb)]; [by left|right]. exists cs'. pose proof (gr_eq _ _ _ _ _ _ Gr) as En. simpl in En. subst new.
  rewrite Z.sub_0_r in Eb. apply (restarted_entry v1 cs'); [done|done|done|done|exact Eb|apply Re|apply Re].
Qed.
End Restart.
End Data.

(** * Truncation *)
Section Trunc.
Context {D H : Type} `{DD : BlockDev D} `{HH : Heap H}.
Abbreviation St := (fat_state D H).
Abbreviation rel := (fat_reliable (D := D) (H := H)).
Context (fs : fat32_fs_priv) (G : fgeom fs) (Hrel : rel).
Abbreviation cl := (cl fs).
Abbreviation fat := (fat fs).
Abbreviation cdata := (cdata fs).
Abbreviation csize := (csize fs).
Abbreviation fbytes := (fbytes fs).
Abbreviation chain := (chain fs).
Abbreviation grown := (grown fs).

(** ** Walking to the end, and to a given cluster *)
Lemma find_tail_ok cs : forall v c fuel, chain (fat v) (c :: cs) -> (length cs < fuel)%nat ->
  ftriple (D := D) (H := H) v (find_tail fs fuel c) (fun r v' => v' = v /\ r = last (c :: cs)).
Proof.
  induction cs as [|c' cs IH]; intros v c fuel Hc Hg; (destruct fuel as [|fuel]; [simpl in Hg; lia|]); cbn [find_tail];
    pose proof (proj1 Hc) as Hcl; rewrite (proj2 (valid_iff fs G c) Hcl); cbn [negb];
    (eapply ft_bind; [by apply (fat_get_ok fs G)|]); intros r v0 (-> & [->|[-> Hr]]); try done.
  - destruct Hc as (_ & -> & _). by apply ft_ret.
  - destruct (chain_next fs G _ _ _ _ Hc) as (_ & E & ->). rewrite E. destruct Hc as (_ & _ & Hc).
    eapply ft_conseq; [apply IH; [exact Hc|simpl in Hg; lia]|]. done.
Qed.
Lemma go_along_ok n : forall v c cs, chain (fat v) (c :: cs) -> (n <= length cs)%nat ->
  ftriple (D := D) (H := H) v (go_along fs n c) (fun r v' => v' = v /\ r = (c :: cs) !! n).
Proof.
  induction n as [|n IH]; intros v c cs Hc Hn; cbn [go_along]; [by apply ft_ret|]. destruct cs as [|c' cs]; [simpl in Hn; lia|].
  eapply ft_bind; [apply (fat_get_ok fs G), Hc|]. intros r v0 (-> & [->|[-> Hr]]); [|done].
  destruct Hc as (_ & -> & Hc). eapply ft_conseq; [apply (IH v c' cs Hc); simpl in Hn; lia|]. done.
Qed.

(** ** Extending *)
Definition appended (v v' : vol) (cs : list Z) (n : nat) (r : option (Z * Z)) : Prop :=
  match r with
  | Some (first, tail) => exists new, length new = n /\ grown v v' cs (cs ++ new) new /\ first = default 0 (head (cs ++ new)) /\
      fbytes v' (cs ++ new) = fbytes v cs ++ replicate (n * csize) 0
  | None => full fs v'
  end.
Lemma appended_step v v1 v' cs c n r : grown v v1 cs (cs ++ [c]) [c] -> fbytes v1 (cs ++ [c]) = fbytes v cs ++ replicate csize 0 ->
  appended v1 v' (cs ++ [c]) n r -> appended v v' cs (S n) r.
Proof.
  intros G1 E1. destruct r as [[first tail]|]; [|done]. intros (new & Hl & G2 & Hf & E2). rewrite <- app_assoc in G2, Hf, E2. exists (c :: new). split; [simpl; lia|].
  split; [exact (grown_trans fs G _ _ _ _ _ _ _ _ G1 G2)|]. split; [done|]. cbn [app] in E2. rewrite E2, E1, <- app_assoc, <- replicate_add. done.
Qed.
Lemma append_ok n : forall v cs, chain (fat v) cs -> (forall c, c ∈ cs -> fat v c <> 0) ->
  ftriple (D := D) (H := H) v (append_loop fs n (default 0 (head cs)) (default 0 (last cs))) (fun r v' => appended v v' cs n r).
Proof.
  induction n as [|n IH]; intros v cs Hc Hu; cbn [append_loop].
  { apply ft_ret. exists []. rewrite !app_nil_r. split_and!; [done|by apply grown_refl|done|done]. }
  eapply ft_bind; [apply (alloc_cluster_ok fs G)|]. intros [c|] v1 A; [|apply ft_ret; destruct A as [[-> ?]|?]; done].
  destruct A as [A _]. destruct (last cs) as [tail|] eqn:El; cbn [default from_option id].
  - apply last_Some in El as [pre ->]. assert (cl tail) as Ht by (apply (chain_cl fs _ _ tail Hc); set_solver).
    rewrite (proj2 (Z.eqb_neq tail 0)) by (destruct Ht; lia). pose proof (al_cl _ _ _ _ A) as [? ?]. pose proof (g_count fs G).
    eapply ft_bind; [apply (fat_set_ok fs G); [done|lia]|]. intros w v2 [[_ U]|[_ ?]]; [|done].
    destruct (grown_alloc fs G v v1 v2 pre tail c Hc Hu A U) as [Gr E]. change [tail; c] with ([tail] ++ [c]) in Gr, E. rewrite app_assoc in Gr, E.
    pose proof (IH v2 ((pre ++ [tail]) ++ [c]) (gr_chain _ _ _ _ _ _ Gr) (gr_used _ _ _ _ _ _ Gr)) as W.
    rewrite last_snoc in W. replace (head ((pre ++ [tail]) ++ [c])) with (head (pre ++ [tail])) in W by (by destruct pre).
    eapply ft_conseq; [exact W|]. intros r v' Hr. by apply (appended_step v v2 v' _ c).
  - apply last_None in El as ->. cbn [Z.eqb head default from_option id]. destruct (grown_first fs G v v1 c A) as [Gr E].
    pose proof (IH v1 [c] (gr_chain _ _ _ _ _ _ Gr) (gr_used _ _ _ _ _ _ Gr)) as W. cbn [head last default from_option id] in W.
    eapply ft_conseq; [exact W|]. intros r v' Hr. by apply (appended_step v v1 v' [] c).
Qed.

(** ** The chain after the cut or the extension *)
Record rechained (n : nat) (v v' : vol) (cs cs' new : list Z) : Prop := {
  rc_eq : cs' = take n cs ++ new;
  rc_len : length cs' = n;
  rc_chain : chain (fat v') cs';
  rc_new c : c ∈ new -> cl c /\ fat v c = 0;
  rc_bytes : fbytes v' cs' = fbytes v (take n cs) ++ replicate (length new * csize) 0;
  rc_freed c : c ∈ drop n cs -> fat v' c = 0;
  rc_used c : c ∈ cs' -> fat v' c <> 0;
  rc_fat c : cl c -> c ∉ cs -> c ∉ cs' -> fat v' c = fat v c;
  rc_data c : cl c -> c ∉ cs' -> cdata v' c = cdata v c }.

Lemma fbytes_same v v' cs : (forall c, c ∈ cs -> cdata v' c = cdata v c) -> fbytes v' cs = fbytes v cs.
Proof. intros E. unfold FatRead.fbytes. f_equal. apply list_fmap_ext. intros k c Hc%list_elem_of_lookup_2. by apply E. Qed.
Lemma chain_prefix F F' n cs c : chain F cs -> cs !! n = Some c -> fat32_is_chain_end (F' c) = true -> (forall d, d ∈ take n cs -> F' d = F d) ->
  chain F' (take (S n) cs).
Proof.
  revert cs; induction n as [|n IH]; intros [|d cs] Hc Hn He Ht; try done.
  - injection Hn as ->. cbn [take]. rewrite take_0. split; [apply Hc|done].
  - destruct Hc as (Hd & Hnx & Hc). change (take (S (S n)) (d :: cs)) with (d :: take (S n) cs). split; [done|]. split; [|apply IH; [done..|intros x Hx; apply Ht; by right]].
    destruct cs as [|d' cs]; [done|]. cbn [take]. rewrite (Ht d) by left. done.
Qed.
Lemma cut_chain v v1 v2 cs n c next rest : chain (fat v) cs -> (forall d, d ∈ cs -> fat v d <> 0) -> cs !! n = Some c -> drop (S n) cs = next :: rest ->
  fat_upd fs c FAT32_EOF_MARK v v1 -> freed fs (next :: rest) v1 v2 -> rechained (S n) v v2 cs (take (S n) cs) [].
Proof.
  intros Hc Hu Hn Hd U [F1 F2]. pose proof (chain_NoDup fs G _ _ Hc) as Hnd. pose proof (take_drop (S n) cs) as Etd.
  assert (forall d, d ∈ take (S n) cs -> d ∉ next :: rest) as Hdis.
  { intros d Hi Hi'. rewrite <- Etd, Hd in Hnd. apply NoDup_app in Hnd as (_ & Hx & _). by apply (Hx d). }
  assert (forall d, d ∈ cs -> cl d) as Hcl by (intros; by apply (chain_cl fs (fat v) cs)).
  assert (take (S n) cs = take n cs ++ [c]) as Et by (by apply take_S_r).
  assert (c ∉ take n cs) as Hcn by (rewrite <- Etd, Et in Hnd; apply NoDup_app in Hnd as (Hx & _); apply NoDup_app in Hx as (_ & Hx & _); intros Hi; apply (Hx c Hi); by left).
  assert (forall d, d ∈ take (S n) cs -> d ∈ cs) as Hsub by (intros d Hi; rewrite <- Etd; set_solver).
  assert (fat v2 c = FAT32_EOF_MARK) as Ec.
  { assert (c ∈ take (S n) cs) as Hi by (rewrite Et; set_solver). rewrite F1, decide_False by auto. by rewrite (proj1 U c (Hcl _ (Hsub _ Hi))), decide_True. }
  assert (forall d, d ∈ take n cs -> fat v2 d = fat v d) as Eo.
  { intros d Hi. assert (d ∈ take (S n) cs) as Hi' by (rewrite Et; set_solver). rewrite F1, decide_False by auto. rewrite (proj1 U d (Hcl _ (Hsub _ Hi'))), decide_False; [done|by intros ->]. }
  assert (forall d, cl d -> cdata v2 d = cdata v d) as Ed.
  { intros d Hdc. rewrite (data_same_cdata fs G [] d v1 v2 F2) by (done || by intros ?%elem_of_nil). apply (data_same_cdata fs G []); [by apply (upd_same fs c FAT32_EOF_MARK)|done|by intros ?%elem_of_nil]. }
  split.
  - by rewrite app_nil_r.
  - apply lookup_lt_Some in Hn. rewrite length_take. lia.
  - apply (chain_prefix (fat v) _ n cs c); [done|done|by rewrite Ec|done].
  - by intros d []%elem_of_nil.
  - rewrite app_nil_r. apply fbytes_same. intros d Hi. by apply Ed, Hcl, Hsub.
  - intros d Hi. rewrite F1, decide_True; [done|by rewrite <- Hd|]. apply Hcl. rewrite <- Etd. set_solver.
  - rewrite Et. intros d [Hi| ->%list_elem_of_singleton]%elem_of_app; [|by rewrite Ec]. rewrite Eo by done. apply Hu, Hsub. rewrite Et. set_solver.
  - intros d Hdc Hi _. rewrite F1, decide_False by (done || (intros Hx; apply Hi; rewrite <- Etd, Hd; set_solver)). rewrite (proj1 U d Hdc), decide_False; [done|].
    intros ->. apply Hi, Hsub. rewrite Et. set_solver.
  - intros d Hdc _. by apply Ed.
Qed.
Lemma free_all v v' cs : chain (fat v) cs -> freed fs cs v v' -> rechained 0 v v' cs [] [].
Proof.
  intros Hc [F1 F2]. assert (forall d, d ∈ cs -> cl d) as Hcl by (intros; by apply (chain_cl fs (fat v) cs)). split; try done; try (by intros d []%elem_of_nil).
  - intros d Hi. rewrite drop_0 in Hi. by rewrite F1, decide_True by auto.
  - intros d Hd Hi _. by rewrite F1, decide_False.
  - intros d Hd _. apply (data_same_cdata fs G []); [done|done|by intros ?%elem_of_nil].
Qed.
Lemma grow_chain v v' cs new : chain (fat v) cs -> grown v v' cs (cs ++ new) new -> fbytes v' (cs ++ new) = fbytes v cs ++ replicate (length new * csize) 0 ->
  rechained (length cs + length new) v v' cs (cs ++ new) new.
Proof.
  intros Hc Gr E. split.
  - by rewrite take_ge by lia.
  - by rewrite length_app.
  - apply Gr.
  - apply Gr.
  - by rewrite take_ge by lia.
  - intros c. rewrite drop_ge by lia. by intros []%elem_of_nil.
  - apply Gr.
  - intros c Hcl _ Hn. by apply (gr_fat _ _ _ _ _ _ Gr).
  - intros c Hcl Hn. by apply (data_same_cdata fs G (cs ++ new)); [apply Gr|..].
Qed.

(** the value of [resize_chain] *)
Definition resize_post (v : vol) (cs : list Z) (n : nat) (r : option Z) (v' : vol) : Prop :=
  match r with Some first => exists cs' new, rechained n v v' cs cs' new /\ first = default 0 (head cs') | None => full fs v' end.
Section Resize.
Context (v : vol) (cs : list Z) (Hc : chain (fat v) cs) (Hu : forall c, c ∈ cs -> fat v c <> 0).
Lemma member_cl c : c ∈ cs -> cl c.
Proof. by apply (chain_cl fs (fat v) cs). Qed.
Lemma tail_ok : ftriple (D := D) (H := H) v (find_tail fs (Z.to_nat (cluster_count fs)) (default 0 (head cs))) (fun r v' => v' = v /\ r = Some (default 0 (last cs))).
Proof.
  destruct cs as [|c cs'].
  - assert (fat32_is_valid_cluster fs 0 = false) as Ev.
    { destruct (fat32_is_valid_cluster fs 0) eqn:Ev; [|done]. apply (valid_iff fs G) in Ev as [? _]. lia. }
    destruct (Z.to_nat (cluster_count fs)); cbn [find_tail head default from_option id]; rewrite Ev; by apply ft_ret.
  - eapply ft_conseq; [apply (find_tail_ok cs'); [done|]; pose proof (chain_length fs G _ _ Hc); simpl in *; lia|]. intros r v' [-> ->]. split; [done|].
    destruct (last (c :: cs')) eqn:El; [done|by apply last_None in El].
Qed.
Lemma tail_guard : negb (fat32_is_valid_cluster fs (default 0 (last cs))) && negb (default 0 (head cs) =? 0) = false.
Proof.
  destruct (last cs) as [t|] eqn:El; [|apply last_None in El; subst cs; by rewrite andb_false_r]. apply last_Some in El as [pre El].
  cbn [default from_option id]. rewrite (proj2 (valid_iff fs G t)); [done|]. apply member_cl. rewrite El. set_solver.
Qed.
Lemma resize_grow n : (length cs < n)%nat -> ftriple (D := D) (H := H) v (resize_chain fs (default 0 (head cs)) (Z.of_nat (length cs)) (Z.of_nat n)) (resize_post v cs n).
Proof.
  intros Hn. unfold resize_chain. rewrite (proj2 (Z.eqb_neq _ _)), (proj2 (Z.ltb_lt _ _)) by lia.
  eapply ft_bind; [apply tail_ok|]. intros r v' [-> ->]. rewrite tail_guard. unfold fat32_append_clusters.
  eapply ft_bind; [by apply append_ok|]. intros [[first tail]|] v' Ha; apply ft_ret; [|done].
  destruct Ha as (new & Hl & Gr & Hf & Eb). exists (cs ++ new), new. split; [|done]. rewrite <- Hl in Eb.
  replace n with (length cs + length new)%nat by lia. by apply grow_chain.
Qed.
Lemma resize_zero : ftriple (D := D) (H := H) v (resize_chain fs (default 0 (head cs)) (Z.of_nat (length cs)) 0) (resize_post v cs 0).
Proof.
  unfold resize_chain. cbn [Z.eqb]. destruct cs as [|c cs'].
  - apply ft_ret. exists [], []. split; [|done]. apply free_all; [done|]. split; [|by intros ? ? ?]. intros d _. rewrite decide_False; [done|by intros ?%elem_of_nil].
  - cbn [head default from_option id]. rewrite (proj2 (Z.eqb_neq c 0)) by (destruct (proj1 Hc); lia).
    eapply ft_bind; [by apply (free_chain_ok fs G)|]. intros r v' [[-> Hf]|[_ ?]]; [|done]. apply ft_ret. exists [], []. split; [by apply free_all|done].
Qed.
Lemma cut_point n : (S n < length cs)%nat -> exists c next rest, cs !! n = Some c /\ drop (S n) cs = next :: rest /\ chain (fat v) (c :: next :: rest).
Proof.
  intros Hn. destruct (cs !! n) as [c|] eqn:Ec; [|apply lookup_ge_None in Ec; lia]. destruct (drop (S n) cs) as [|next rest] eqn:Ed.
  { apply (f_equal length) in Ed. rewrite length_drop in Ed. simpl in *. lia. }
  exists c, next, rest. split_and!; [done..|]. pose proof (take_drop_middle _ _ _ Ec) as Em. rewrite Ed in Em. apply (chain_suffix fs _ (take n cs)). by rewrite Em.
Qed.
Lemma resize_shrink n : (S n < length cs)%nat -> ftriple (D := D) (H := H) v (resize_chain fs (default 0 (head cs)) (Z.of_nat (length cs)) (Z.of_nat (S n))) (resize_post v cs (S n)).
Proof.
  intros Hn. unfold resize_chain. rewrite (proj2 (Z.eqb_neq _ _)), (proj2 (Z.ltb_ge _ _)), (proj2 (Z.ltb_lt _ _)) by lia.
  destruct (cut_point n Hn) as (c & next & rest & Ec & Ed & Hcr). replace (Z.to_nat (Z.of_nat (S n) - 1)) with n by lia.
  assert (ftriple (D := D) (H := H) v (go_along fs n (default 0 (head cs))) (fun r v' => v' = v /\ r = Some c)) as Hgo.
  { rewrite <- Ec. destruct cs as [|c0 cs']; [simpl in Hn; lia|]. apply go_along_ok; [done|simpl in Hn; lia]. }
  eapply ft_bind; [exact Hgo|]. intros r v' [-> ->]. assert (cl c) as Hcc by apply Hcr.
  eapply ft_bind; [by apply (fat_get_ok fs G)|]. intros r v' (-> & [->|[_ ?]]); [|done]. destruct (chain_next fs G _ _ _ _ Hcr) as (Hnx & -> & _).
  eapply ft_bind; [apply (fat_set_ok fs G); [done|unfold FAT32_EOF_MARK; lia]|]. intros w v1 [[Hw U]|[_ ?]]; [|done]. rewrite (proj2 (Z.ltb_ge _ _) Hw).
  assert (chain (fat v1) (next :: rest)) as Hc1.
  { eapply fchain_ext; [|apply Hcr]. intros d Hi. pose proof (chain_NoDup fs G _ _ Hcr) as Hnd. rewrite (proj1 U d), decide_False; [done| |].
    - intros ->. apply NoDup_cons in Hnd as [? _]. done.
    - apply (chain_cl fs (fat v) (c :: next :: rest)); [done|by right]. }
  eapply ft_bind; [by apply (free_chain_ok fs G)|]. intros r v2 [[-> Hf]|[_ ?]]; [|done]. apply ft_ret. exists (take (S n) cs), [].
  split; [by apply (cut_chain v v1 v2 cs n c next rest)|]. by destruct cs.
Qed.
Lemma resize_chain_ok n : ftriple (D := D) (H := H) v (resize_chain fs (default 0 (head cs)) (Z.of_nat (length cs)) (Z.of_nat n)) (resize_post v cs n).
Proof.
  destruct (decide (length cs < n)%nat) as [?|?]; [by apply resize_grow|]. destruct n as [|n]; [apply resize_zero|].
  destruct (decide (S n < length cs)%nat) as [?|?]; [by apply resize_shrink|]. unfold resize_chain.
  rewrite (proj2 (Z.eqb_neq _ _)), !(proj2 (Z.ltb_ge _ _)) by lia. apply ft_ret. exists cs, []. split; [|done].
  replace (S n) with (length cs + length (@nil Z))%nat by (simpl; lia).
  rewrite <- (app_nil_r cs) at 3. apply grow_chain; [done|rewrite app_nil_r; by apply grown_refl|by rewrite !app_nil_r].
Qed.
End Resize.

(** ** The file afterwards *)
Record truncated (size : Z) (v v' : vol) (i i' : finode) (cs cs' new : list Z) : Prop := {
  tr_file : fat_file fs v' i' cs';
  tr_size : fi_size i' = size;
  tr_least : Z.of_nat (length cs' * csize) < size + Z.of_nat csize;
  tr_eq : cs' = take (length cs') cs ++ new;
  tr_new c : c ∈ new -> cl c /\ fat v c = 0;
  tr_bytes : fcontents fs v' i' cs' = take (Z.to_nat size) (fbytes v cs ++ replicate (length new * csize) 0);
  tr_freed c : c ∈ drop (length cs') cs -> fat v' c = 0;
  tr_fat c : cl c -> c ∉ cs -> c ∉ cs' -> fat v' c = fat v c;
  tr_data c : cl c -> c ∉ cs' -> c <> dir_cluster (fi_private i) -> cdata v' c = cdata v c;
  tr_entry : dir_file_size (entry fs v' (dir_cluster (fi_private i)) (dirent_off (fi_private i))) = size }.

Lemma take_bytes v n k size cs : vol_ok v -> (Z.to_nat size <= n * csize)%nat -> (n < length cs -> k = 0)%nat ->
  take (Z.to_nat size) (fbytes v (take n cs) ++ replicate k 0) = take (Z.to_nat size) (fbytes v cs ++ replicate k 0).
Proof.
  intros Hv Hs Hk. destruct (decide (n < length cs)%nat) as [Hn|Hn]; [|by rewrite (take_ge cs) by lia]. rewrite Hk by done. rewrite !app_nil_r.
  rewrite <- (take_drop n cs) at 2. rewrite fbytes_app, take_app_le; [done|]. rewrite length_fbytes, length_take by done. rewrite Nat.min_l by lia. done.
Qed.
Section Op.
Context (v : vol) (i : finode) (cs : list Z) (size : Z).
Context (Hff : fat_file fs v i cs) (Hu : forall c, c ∈ cs -> fat v c <> 0) (He : entry_ok fs v (fi_private i) cs) (Hs : 0 <= size < 2 ^ 32).
Definition need : nat := Z.to_nat ((size + Z.of_nat csize - 1) / Z.of_nat csize).
Lemma need_ok : u32 (u64 (size + Z.of_nat csize - 1) / Z.of_nat csize) = Z.of_nat need /\ size <= Z.of_nat (need * csize) < size + Z.of_nat csize.
Proof.
  destruct (cluster_bytes_ok fs G) as [_ Hcb]. rewrite u64_small by lia. set (q := (size + Z.of_nat csize - 1) / Z.of_nat csize).
  assert (0 <= q < 2 ^ 32) as Hq by (split; [apply Z.div_pos; lia|apply Z.div_lt_upper_bound; nia]).
  rewrite u32_small by lia. unfold need. fold q. split; [lia|]. pose proof (Z.div_mod (size + Z.of_nat csize - 1) (Z.of_nat csize) ltac:(lia)) as E.
  pose proof (Z.mod_pos_bound (size + Z.of_nat csize - 1) (Z.of_nat csize) ltac:(lia)). fold q in E. split; nia.
Qed.
Lemma old_len : ftriple (D := D) (H := H) v (if first_cluster (fi_private i) =? 0 then mret 0 else fat32_chain_len fs (first_cluster (fi_private i)))
  (fun r v' => v' = v /\ r = Z.of_nat (length cs)).
Proof.
  destruct Hff as [Hc Hf _ _]. rewrite Hf. destruct cs as [|c cs']; [by apply ft_ret|]. cbn [head default from_option id].
  rewrite (proj2 (Z.eqb_neq c 0)) by (destruct (proj1 Hc); lia). eapply ft_conseq; [by apply (chain_len_ok fs G)|]. intros r v' (-> & [->|?]); done.
Qed.
Lemma truncated_intro v1 cs' new e' : vol_ok v -> vol_ok v1 -> rechained need v v1 cs cs' new ->
  resized size (entry fs v1 (dir_cluster (fi_private i)) (dirent_off (fi_private i))) e' ->
  truncated size v (put_at fs (dir_cluster (fi_private i)) (dirent_off (fi_private i)) e' v1) i
    (fi_set_size size (fi_set_first (default 0 (head cs')) i)) cs cs' new.
Proof.
  intros Hv Hv1 R [Le [Es _]]. set (p := fi_private i) in *. pose proof (en_place _ _ _ _ He) as Pl. pose proof (pl_cl _ _ _ Pl) as Hdc. fold p in Pl, Hdc.
  set (v2 := put_at fs (dir_cluster p) (dirent_off p) e' v1). destruct need_ok as [_ Hneed].
  assert (forall c, cl c -> fat v2 c = fat v1 c) as Ef by (intros; by apply (put_at_fat fs G), Pl).
  assert (forall c, c <> dir_cluster p -> cdata v2 c = cdata v1 c) as Ed by (intros; by apply (put_at_other fs G), Pl).
  assert (forall c, c ∈ cs' -> cl c) as Hcl by (intros; apply (chain_cl fs (fat v1) cs'); [apply R|done]).
  assert (dir_cluster p ∉ cs') as Hdn.
  { rewrite (rc_eq _ _ _ _ _ _ R). intros [Hi|Hi]%elem_of_app; [|by apply (en_used _ _ _ _ He), (rc_new _ _ _ _ _ _ R)].
    apply (en_apart _ _ _ _ He). rewrite <- (take_drop need cs). set_solver. }
  pose proof (rc_len _ _ _ _ _ _ R) as Hl. split.
  - split; [|done|simpl; rewrite Hl; lia|simpl; lia]. eapply fchain_ext; [|apply R]. intros c Hi. by apply Ef, Hcl.
  - done.
  - rewrite Hl. apply Hneed.
  - rewrite Hl. apply R.
  - apply R.
  - unfold fcontents. cbn [fi_size fi_set_size]. rewrite (fbytes_same v1 v2 cs') by (intros c Hi; apply Ed; by intros ->). rewrite (rc_bytes _ _ _ _ _ _ R).
    apply take_bytes; [done|lia|]. intros Hn. pose proof (rc_eq _ _ _ _ _ _ R) as E. apply (f_equal length) in E. rewrite length_app, length_take, Hl in E. nia.
  - intros c Hi. rewrite Hl in Hi. rewrite Ef; [by apply (rc_freed _ _ _ _ _ _ R)|]. apply (chain_cl fs (fat v) cs); [apply Hff|]. rewrite <- (take_drop need cs). set_solver.
  - intros c Hc Hn Hn'. rewrite Ef by done. by apply (rc_fat _ _ _ _ _ _ R).
  - intros c Hc Hn Hne. rewrite Ed by done. by apply (rc_data _ _ _ _ _ _ R).
  - unfold v2. by rewrite (put_entry_same fs G).
Qed.
Lemma ftruncate_ok ticks : f_type (fi_mode i) F_IFREG = true ->
  ftriple (D := D) (H := H) v (fat32_truncate ticks fs i size) (fun x v' =>
    match x with (r, i') => (0 <= r /\ exists cs' new, truncated size v v' i i' cs cs' new) \/ (r = -1 /\ i' = i /\ full fs v') end).
Proof.
  intros Hm. apply ft_vol. intros Hv. pose proof Hff as [Hc Hf _ _]. unfold fat32_truncate. rewrite Hm. cbn [negb]. rewrite (proj2 (Z.ltb_ge _ _)) by lia.
  destruct (cluster_bytes_ok fs G) as [-> _]. eapply ft_bind; [apply old_len|]. intros r v' [-> ->]. rewrite (proj1 need_ok), Hf.
  eapply ft_bind; [by apply resize_chain_ok|]. intros [first|] v1 Hr; [|apply ft_ret; by right]. destruct Hr as (cs' & new & R & ->).
  apply ft_vol. intros Hv1. eapply ft_bind; [apply (update_size_ok fs G ticks v1); [apply He|apply (en_place _ _ _ _ He)|done]|].
  intros r v2 [[Hr (e' & Re & ->)]|[_ ?]]; [|done]. apply ft_ret. left. split; [done|]. exists cs', new. by apply truncated_intro.
Qed.
Lemma shrunk_bytes v' i' cs' new : truncated size v v' i i' cs cs' new -> size <= fi_size i ->
  new = [] /\ fcontents fs v' i' cs' = take (Z.to_nat size) (fcontents fs v i cs).
Proof.
  intros T Hle. destruct Hff as [_ _ Hsz _]. pose proof (tr_least _ _ _ _ _ _ _ _ T). destruct (cluster_bytes_ok fs G) as [_ Hcb].
  assert (length cs' <= length cs)%nat by nia. assert (new = []) as ->.
  { pose proof (tr_eq _ _ _ _ _ _ _ _ T) as E. apply (f_equal length) in E. rewrite length_app, length_take in E. apply length_zero_iff_nil. lia. }
  split; [done|]. rewrite (tr_bytes _ _ _ _ _ _ _ _ T). unfold fcontents. rewrite app_nil_r, take_take. f_equal. lia.
Qed.
End Op.
End Trunc.
