(* ===== verification/FatLookup.v ===== *)
(** Finding FAT32 names: [fat32_dir_walk] folds its callback over the entries of
    a chain, what each callback computes, the inode that [fat32_lookup] makes of the
    entry it finds, what [fat32_readdir] lists, and mounting. *)
From stdpp Require Import base gmap list.
From Stdlib Require Import ZArith Lia.
From S2P Require Import Prelude Bytes HashMap BlockDev Fat FatDir FatFile FatTable FatRead FatWrite FatEntry FatData.
Open Scope Z_scope.

(** * Walking a directory *)
Section Walk.
Context {D H : Type} `{DD : BlockDev D} `{HH : Heap H}.
Abbreviation St := (fat_state D H).
Abbreviation rel := (fat_reliable (D := D) (H := H)).
Context (fs : fat32_fs_priv) (G : fgeom fs).
Abbreviation cl := (cl fs).
Abbreviation fat := (fat fs).
Abbreviation spc := (sectors_per_cluster fs).
Abbreviation csec := (csec fs).
Abbreviation cdata := (cdata fs).
Abbreviation csize := (csize fs).
Abbreviation entry := (entry fs).

(** the places of the entries of a cluster from number [k] on, and of a chain *)
Definition places (c : Z) (k n : nat) : list (Z * Z) := (fun j => (c, 32 * Z.of_nat j)) <$> seq k n.
Definition slots (cs : list Z) : list (Z * Z) := mjoin ((fun c => places c 0 (16 * Z.to_nat spc)) <$> cs).

Lemma slots_spec cs c off : (c, off) ∈ slots cs <-> c ∈ cs /\ 0 <= off < Z.of_nat csize /\ off mod 32 = 0.
Proof.
  unfold slots, FatRead.csize. rewrite list_elem_of_join. split.
  - intros (l & Hl & (d & -> & Hd)%list_elem_of_fmap). unfold places in Hl. apply list_elem_of_fmap in Hl as (j & [= -> ->] & Hj).
    apply elem_of_seq in Hj. rewrite Z.mul_comm, Z.mod_mul by lia. split_and!; [done|lia..].
  - intros (Hc & Ho & Hm). eexists. split; [|apply list_elem_of_fmap; by exists c]. unfold places. apply list_elem_of_fmap. exists (Z.to_nat (off / 32)).
    pose proof (Z.div_mod off 32 ltac:(lia)). assert (0 <= off / 32) by (apply Z.div_pos; lia). split; [f_equal; lia|]. apply elem_of_seq. lia.
Qed.
Lemma slot_place F cs c off : chain fs F cs -> (c, off) ∈ slots cs -> place_ok fs c off.
Proof. intros Hc (Hi & Ho & Hm)%slots_spec. split; [by eapply chain_cl|done..]. Qed.
Lemma slots_cons c cs : slots (c :: cs) = places c 0 (16 * Z.to_nat spc) ++ slots cs.
Proof. done. Qed.
Lemma slots_app a b : slots (a ++ b) = slots a ++ slots b.
Proof. unfold slots. by rewrite fmap_app, join_app. Qed.

Section Callback.
Context {A : Type} (cb : fat_callback A).

Fixpoint wfold (v : vol) (l : list (Z * Z)) (a : A) : Z * A :=
  match l with
  | [] => (0, a)
  | (c, off) :: l' =>
      let '(r, a) := cb (entry v c off) c off a in
      if negb (r =? 0) then (r, a) else wfold v l' a
  end.
Lemma wfold_app v l1 l2 a : wfold v (l1 ++ l2) a =
  let x := wfold v l1 a in if negb (x.1 =? 0) then x else wfold v l2 x.2.
Proof.
  revert a; induction l1 as [|[c off] l1 IH]; intros a; simpl; [done|]. destruct (cb _ _ _ _) as [r a'].
  destruct (negb (r =? 0)) eqn:E; simpl; [by rewrite E|apply IH].
Qed.

Lemma walk_entries_ok v c s n : forall k a, vol_ok v -> cl c -> 0 <= s < spc -> (Z.of_nat k + Z.of_nat n = 16 * s + 16) -> 16 * s <= Z.of_nat k ->
  ftriple (D := D) (H := H) v (walk_entries cb fs n (Z.of_nat k - 16 * s) s c (v (csec c + s)) a)
    (fun r v' => v' = v /\ r = wfold v (places c k n) a).
Proof.
  induction n as [|n IH]; intros k a Hv Hc Hs Hk Hk0; cbn [walk_entries]; [by apply ft_ret|].
  pose proof (g_spc fs G). unfold FAT32_DIRENT_SIZE. apply ft_fld; [lia|rewrite (proj1 (Hv _)); lia|].
  rewrite (g_bps fs G). rewrite u32_small by lia. replace (s * 512 + (Z.of_nat k - 16 * s) * 32) with (32 * Z.of_nat k) by lia.
  assert (slice (Z.to_nat ((Z.of_nat k - 16 * s) * 32)) (Z.to_nat 32) (v (csec c + s)) = entry v c (32 * Z.of_nat k)) as ->.
  { assert (32 * Z.of_nat k = s * 512 + (Z.of_nat k - 16 * s) * 32) as E by lia.
    assert (32 * Z.of_nat k / 512 = s) as E1 by (rewrite E, Z.div_add_l, Z.div_small; lia).
    assert ((32 * Z.of_nat k) mod 512 = (Z.of_nat k - 16 * s) * 32) as E2 by (rewrite Z.mod_eq, E1; lia).
    unfold FatData.entry. change 32%nat with (Z.to_nat 32). rewrite <- (cdata_slice fs G); [by rewrite E1, E2|done|lia|lia| |lia]. unfold FatRead.csize. lia. }
  cbn [places seq fmap list_fmap wfold]. destruct (cb _ _ _ _) as [r a']. destruct (negb (r =? 0)); [by apply ft_ret|].
  replace (Z.of_nat k - 16 * s + 1) with (Z.of_nat (S k) - 16 * s) by lia. apply IH; (done || lia).
Qed.
Lemma walk_sectors_ok v c n : forall s a, vol_ok v -> cl c -> Z.of_nat s + Z.of_nat n = spc ->
  ftriple (D := D) (H := H) v (walk_sectors cb fs n (Z.of_nat s) c a)
    (fun r v' => v' = v /\ (r = wfold v (places c (16 * s) (16 * n)) a \/ (r.1 = -1 /\ ~ rel))).
Proof.
  induction n as [|n IH]; intros s a Hv Hc Hs; cbn [walk_sectors]; [apply ft_ret; by rewrite Nat.mul_0_r; auto|].
  destruct (csec_ok fs G c (Z.of_nat s)) as (-> & -> & _); [done|lia|]. eapply ft_bind; [apply ft_read|].
  intros [r bs] v' (-> & [[Hr Eb]|[Hr Hn]]); cbn [fst snd] in *.
  2: { rewrite (proj2 (Z.ltb_lt _ _) Hr). apply ft_ret. auto. }
  rewrite (proj2 (Z.ltb_ge _ _) Hr). subst bs. rewrite (g_bps fs G). change (Z.to_nat (512 / FAT32_DIRENT_SIZE)) with 16%nat.
  pose proof (walk_entries_ok v c (Z.of_nat s) 16 (16 * s) a Hv Hc ltac:(lia) ltac:(lia) ltac:(lia)) as W.
  replace (Z.of_nat (16 * s) - 16 * Z.of_nat s) with 0 in W by lia. eapply ft_bind; [exact W|]. intros x v' (-> & ->).
  assert (places c (16 * s) (16 * S n) = places c (16 * s) 16 ++ places c (16 * S s) (16 * n)) as ->.
  { unfold places. rewrite <- fmap_app. f_equal. replace (16 * S s)%nat with (16 * s + 16)%nat by lia. rewrite <- seq_app. f_equal; lia. }
  rewrite wfold_app. cbv zeta. destruct (negb _); [apply ft_ret; auto|].
  replace (Z.of_nat s + 1) with (Z.of_nat (S s)) by lia. apply IH; [done|done|lia].
Qed.
Lemma walk_clusters_ok cs : forall v c g a, vol_ok v -> chain fs (fat v) (c :: cs) -> (length cs < g)%nat ->
  ftriple (D := D) (H := H) v (walk_clusters cb fs g c a)
    (fun r v' => v' = v /\ (r = wfold v (slots (c :: cs)) a \/ (r.1 = -1 /\ ~ rel))).
Proof.
  induction cs as [|c' cs IH]; intros v c g a Hv Hc Hg; (destruct g as [|g]; [simpl in Hg; lia|]); cbn [walk_clusters];
    pose proof (proj1 Hc) as Hcl; rewrite (proj2 (valid_iff fs G c) Hcl); cbn [negb];
    (eapply ft_bind; [apply (walk_sectors_ok v c (Z.to_nat spc) 0 a Hv Hcl); pose proof (g_spc fs G); lia|]);
    intros x v' (-> & [->|[Ex Hr]]); try (rewrite Ex; apply ft_ret; by auto).
  all: rewrite Nat.mul_0_r, slots_cons, wfold_app; cbv zeta; destruct (negb _) eqn:E; [apply ft_ret; by auto|].
  all: (eapply ft_bind; [apply (fat_get_ok fs G v c Hcl)|]); intros r v' (-> & [->|[-> Hr]]); [|apply ft_ret; by auto].
  - destruct Hc as (_ & He & _). assert (fat32_is_valid_cluster fs (fat v c) = false) as Ev.
    { destruct (fat32_is_valid_cluster fs (fat v c)) eqn:Ev; [|done]. apply (valid_iff fs G) in Ev. by rewrite (cl_not_end fs G) in He. }
    apply negb_false_iff, Z.eqb_eq in E. destruct g; cbn [walk_clusters]; rewrite Ev; apply ft_ret; auto.
  - destruct (chain_next fs G _ _ _ _ Hc) as (Hc' & -> & _). apply IH; [done|apply Hc|simpl in Hg; lia].
Qed.
Lemma dir_walk_ok v dp a c cs : dir_first fs dp = c -> chain fs (fat v) (c :: cs) ->
  ftriple (D := D) (H := H) v (fat32_dir_walk cb fs dp a)
    (fun r v' => v' = v /\ (r = wfold v (slots (c :: cs)) a \/ (r.1 = -1 /\ ~ rel))).
Proof.
  intros Ef Hc. apply ft_vol. intros Hv. unfold fat32_dir_walk. apply ft_with_buf; [apply (bps_ok fs G)|by auto|].
  rewrite Ef. apply walk_clusters_ok; [done|done|]. pose proof (chain_length fs G _ _ Hc). simpl in *. lia.
Qed.
End Callback.
End Walk.

(** * Lookup and listing *)
Section Lookup.
Context {D H : Type} `{DD : BlockDev D} `{HH : Heap H}.
Abbreviation St := (fat_state D H).
Abbreviation rel := (fat_reliable (D := D) (H := H)).
Context (fs : fat32_fs_priv) (G : fgeom fs).
Abbreviation cl := (cl fs).
Abbreviation fat := (fat fs).
Abbreviation csize := (csize fs).
Abbreviation entry := (entry fs).
Abbreviation slots := (slots fs).

(** ** Callbacks *)
Definition at_ (v : vol) (p : list Z -> bool) (s : Z * Z) : bool := p (entry v s.1 s.2).
(** the first entry with the name [dos], and the first free place *)
Definition finds (v : vol) (cs : list Z) (dos : list Z) : option (Z * Z) := List.find (at_ v (is_named dos)) (slots cs).
Definition free_place (v : vol) (cs : list Z) : option (Z * Z) := List.find (at_ v free_entry) (slots cs).

Lemma fold_find v l dos : forall e c o f, wfold fs fat32_cb_find v l (mkFind dos e c o f) =
  match List.find (at_ v (is_named dos)) l with
  | Some (c', off) => (1, mkFind dos (entry v c' off) c' off true)
  | None => (0, mkFind dos e c o f)
  end.
Proof.
  induction l as [|[c' off] l IH]; intros e c o f; [done|]. cbn [wfold List.find]. unfold at_ at 1. cbn [fst snd]. unfold is_named, live_entry, fat32_cb_find at 1. cbn [fa_dos].
  destruct (fat32_dirent_basic _), (fat32_dirent_dot _); cbn [negb orb andb]; try apply IH. case_bool_decide; [done|apply IH].
Qed.
Lemma fold_slot v l : forall a, wfold fs fat32_cb_free_slot v l a =
  match List.find (at_ v free_entry) l with Some (c, off) => (1, mkSlot c off true) | None => (0, a) end.
Proof.
  induction l as [|[c off] l IH]; intros a; [done|]. cbn [wfold List.find]. unfold at_ at 1, fat32_cb_free_slot at 1. cbn [fst snd]. unfold free_entry.
  destruct (_ || _); [done|apply IH].
Qed.
Lemma fold_empty v l : wfold fs fat32_cb_empty v l false = if existsb (at_ v live_entry) l then (1, true) else (0, false).
Proof.
  induction l as [|[c off] l IH]; [done|]. cbn [wfold existsb]. unfold at_ at 1, fat32_cb_empty at 1, live_entry at 1. cbn [fst snd].
  destruct (fat32_dirent_basic _), (fat32_dirent_dot _); cbn [negb andb orb]; (apply IH || done).
Qed.

Lemma fdir_find_ok v dp dos c cs : dir_first fs dp = c -> chain fs (fat v) (c :: cs) ->
  ftriple (D := D) (H := H) v (fat32_dir_find fs dp dos) (fun r v' => v' = v /\
    (r = (fun s => mkFind dos (entry v s.1 s.2) s.1 s.2 true) <$> finds v (c :: cs) dos \/ (r = None /\ ~ rel))).
Proof.
  intros Hf Hc. unfold fat32_dir_find. eapply ft_bind; [by apply (dir_walk_ok fs G)|]. intros x v' (-> & [->|[Ex Hr]]); apply ft_ret; (split; [done|]).
  - left. rewrite fold_find. unfold finds. by destruct (List.find _ _) as [[c' off]|].
  - right. by rewrite Ex.
Qed.

(** ** Inodes *)
(** a function that returns an inode leaves its two objects in the heap *)
Definition holds (L : gset Z) (r : option finode) (h : H) : Prop :=
  match r with
  | Some i => (fi_ptr i ∉ L) /\ (fi_priv_ptr i ∉ L) /\ fi_ptr i <> fi_priv_ptr i /\ fi_priv_ptr i <> 0 /\ heap_inv h ({[fi_ptr i; fi_priv_ptr i]} ∪ L)
  | None => heap_inv h L
  end.
Definition itriple (v : vol) (m : M St (option finode)) (R : option finode -> vol -> Prop) : Prop :=
  forall L s, heap_inv (fat_heap s) L -> shows s v ->
    wp m (fun r s' => holds L r (fat_heap s') /\ exists v', shows s' v' /\ R r v') s.
Lemma it_none v (R : option finode -> vol -> Prop) : R None v -> itriple v (mret None) R.
Proof. intros HR L s Hh Hs. apply wp_ret. split; [done|]. by exists v. Qed.
Lemma it_bind {A} v (m : M St A) (k : A -> M St (option finode)) R R' :
  ftriple v m R -> (forall a v', R a v' -> itriple v' (k a) R') -> itriple v (mbind' m k) R'.
Proof.
  intros Hm Hk L s Hh Hs. apply wp_bind. eapply wp_conseq; [by apply (Hm L)|]. intros a s' (Hh' & v' & Hs' & HR). by apply (Hk a v').
Qed.
Lemma it_conseq v (m : M St (option finode)) (R R' : option finode -> vol -> Prop) :
  itriple v m R -> (forall a v', R a v' -> R' a v') -> itriple v m R'.
Proof.
  intros Hm HR L s Hh Hs. eapply wp_conseq; [by apply (Hm L)|]. intros a s' (Hh' & v' & Hs' & HRa). split; [done|]. exists v'. auto.
Qed.
Lemma it_vol v (m : M St (option finode)) R : (vol_ok v -> itriple v m R) -> itriple v m R.
Proof.
  intros Hm L s Hh Hs. apply Hm; [|done..]. intros x. rewrite <- Hs. split; [apply sector_len|apply sector_ok].
Qed.

Lemma two_objects_ok v (mk : Z -> Z -> M St (option finode)) (R : option finode -> vol -> Prop) :
  (~ rel -> R None v) ->
  (forall p q, ftriple v (mk p q) (fun r v' => (exists i, r = Some i /\ fi_ptr i = p /\ fi_priv_ptr i = q) /\ R r v')) ->
  itriple v (two_objects None mk) R.
Proof.
  clear fs G. intros H0 Hk L s Hh Hs. unfold two_objects. apply wp_bind. eapply wp_conseq; [apply (falloc_ok L s _ Hh); unfold SIZEOF_FAT_INODE; lia|].
  intros p s1 [E1 Hp]. apply wp_bind. destruct Hp as [(Hp0 & HpL & I1)|(-> & I1 & Hr)].
  - eapply wp_conseq; [apply (falloc_ok _ s1 _ I1); unfold SIZEOF_FAT_INODE_PRIV; lia|]. intros q s2 [E2 Hq].
    assert (shows s2 v) as Hs2 by (intros x; rewrite E2, E1; apply Hs). rewrite (proj2 (Z.eqb_neq _ _) Hp0). cbn [orb].
    destruct Hq as [(Hq0 & HqL & I2)|(-> & I2 & Hr)].
    + rewrite (proj2 (Z.eqb_neq _ _) Hq0). eapply wp_conseq; [by apply (Hk p q _ s2 I2)|].
      intros r s3 (I3 & v' & Hs3 & (i & -> & <- & <-) & HR). split; [|by exists v']. simpl.
      split_and!; [done|set_solver|set_solver|done|]. by replace ({[fi_ptr i; fi_priv_ptr i]} ∪ L) with ({[fi_priv_ptr i]} ∪ ({[fi_ptr i]} ∪ L)) by set_solver.
    + cbn [Z.eqb]. apply wp_bind. eapply wp_conseq; [by apply (ffree_ok L)|]. intros [] s3 [E3 I3]. apply wp_bind, wp_ret, wp_ret.
      split; [done|]. exists v. split; [intros x; by rewrite E3|auto].
  - eapply wp_conseq; [apply (falloc_ok _ s1 _ I1); unfold SIZEOF_FAT_INODE_PRIV; lia|]. intros q s2 [E2 Hq].
    assert (shows s2 v) as Hs2 by (intros x; rewrite E2, E1; apply Hs). cbn [Z.eqb orb]. apply wp_bind, wp_ret, wp_bind.
    destruct Hq as [(Hq0 & HqL & I2)|(-> & I2 & _)].
    + rewrite (proj2 (Z.eqb_neq _ _) Hq0). eapply wp_conseq; [by apply (ffree_ok L)|]. intros [] s3 [E3 I3]. apply wp_ret.
      split; [done|]. exists v. split; [intros x; by rewrite E3|auto].
    + apply wp_ret, wp_ret. split; [done|]. exists v. auto.
Qed.

(** the inode of entry [e] at [(c, off)] *)
Definition is_dir (e : list Z) : bool := negb (Z.land (dir_attr e) FAT32_ATTR_DIRECTORY =? 0).
Definition entry_mode (e : list Z) : Z :=
  if is_dir e then Z.lor F_IFDIR 0x1ED
  else Z.lor F_IFREG (if negb (Z.land (dir_attr e) FAT32_ATTR_READ_ONLY =? 0) then 0x124 else 0x1A4).
Record inode_of (v : vol) (e : list Z) (c off : Z) (i : finode) : Prop := {
  io_priv : fi_private i = mkFatInodePriv (dirent_first e) (dir_attr e) c off false;
  io_mode : fi_mode i = entry_mode e;
  io_ino : fi_ino i = u32 (u32 (c * 512) + off);
  io_file : is_dir e = false -> fi_size i = dir_file_size e;
  io_dir cs : is_dir e = true -> chain fs (fat v) (dirent_first e :: cs) -> fi_size i = u32 (Z.of_nat (length (dirent_first e :: cs) * csize)) }.

Lemma chain_len_any v g : forall c n, ftriple (D := D) (H := H) v (chain_len_loop fs g c n) (fun r v' => v' = v /\
  forall cs, chain fs (fat v) (c :: cs) -> (length cs < g)%nat -> r = n + Z.of_nat (length (c :: cs)) \/ ~ rel).
Proof.
  induction g as [|g IH]; intros c n; cbn [chain_len_loop].
  { destruct (negb _); apply ft_ret; (split; [done|]); intros; lia. }
  destruct (fat32_is_valid_cluster fs c) eqn:E; cbn [negb]; [apply (valid_iff fs G) in E|].
  2: { apply ft_ret. split; [done|]. intros cs [Hc%(valid_iff fs G) _]. congruence. }
  eapply ft_bind; [by apply (fat_get_ok fs G v c)|]. intros r v' (-> & [->|[-> Hr]]); [|apply ft_ret; by auto].
  destruct (fat32_is_chain_end (fat v c)) eqn:Ee.
  - apply ft_ret. split; [done|]. intros [|c' cs] Hc Hg; [left; simpl; lia|]. apply (chain_next fs G) in Hc as (_ & _ & ?). congruence.
  - eapply ft_conseq; [apply IH|]. intros r v' (-> & Hr). split; [done|]. intros [|c' cs] Hc Hg; [destruct Hc as (_ & ? & _); congruence|].
    apply (chain_next fs G) in Hc as Hn. destruct Hn as (_ & En & _). rewrite En in Hr. destruct (Hr cs) as [->|?]; [apply Hc|simpl in Hg; lia|left; simpl; lia|by right].
Qed.
Lemma inode_create_ok v e c off : itriple v (fat32_inode_create fs e c off) (fun r v' => v' = v /\
  match r with Some i => rel -> inode_of v e c off i | None => ~ rel end).
Proof.
  unfold fat32_inode_create. apply two_objects_ok; [done|]. intros p q. rewrite (g_bps fs G). fold (is_dir e). destruct (is_dir e) eqn:Ed.
  - eapply ft_bind; [apply chain_len_any|]. intros n v' (-> & Hn). apply ft_ret. split; [by eexists|]. split; [done|]. intros Hr.
    split; [done|unfold entry_mode; by rewrite Ed|done|congruence|]. intros cs _ Hc. simpl fi_size. destruct (cluster_bytes_ok fs G) as [-> _].
    destruct (Hn cs Hc) as [->|?]; [|f_equal; lia|done]. pose proof (chain_length fs G _ _ Hc). simpl in *. lia.
  - apply ft_ret. split; [by eexists|]. split; [done|]. intros _. split; [done|unfold entry_mode; by rewrite Ed|done|done|congruence].
Qed.

Lemma inode_destroy_ok L (s : St) i : holds L (Some i) (fat_heap s) ->
  wp (fat32_inode_destroy i) (fun _ s' => fat_dev s' = fat_dev s /\ heap_inv (fat_heap s') L) s.
Proof.
  clear fs G. intros (H1 & H2 & H3 & H4 & I). unfold fat32_inode_destroy. rewrite (proj2 (Z.eqb_neq _ _) H4). apply wp_bind.
  eapply wp_conseq; [apply (ffree_ok ({[fi_ptr i]} ∪ L)); [|set_solver]|].
  { by replace ({[fi_priv_ptr i]} ∪ ({[fi_ptr i]} ∪ L)) with ({[fi_ptr i; fi_priv_ptr i]} ∪ L) by set_solver. }
  intros [] s' [E I']. eapply wp_conseq; [by apply (ffree_ok L)|]. intros [] s2 [E2 I2]. split; [congruence|done].
Qed.

(** ** Lookup *)
(** [dir] is the directory with the clusters [cs] *)
Record fat_dir (v : vol) (dir : finode) (cs : list Z) : Prop := {
  fd_mode : f_type (fi_mode dir) F_IFDIR = true;
  fd_chain : chain fs (fat v) cs;
  fd_first : head cs = Some (dir_first fs (fi_private dir)) }.
Lemma fd_cons v dir cs : fat_dir v dir cs -> exists c cs', cs = c :: cs' /\ dir_first fs (fi_private dir) = c /\ chain fs (fat v) (c :: cs').
Proof. intros [_ Hc Hf]. destruct cs as [|c cs]; [done|]. exists c, cs. split; [done|]. split; [simpl in Hf; congruence|done]. Qed.

(** the place a name denotes in a directory *)
Definition lookup_name (v : vol) (cs : list Z) (name : list Z) : option (Z * Z) :=
  if bool_decide (name = [46]) || bool_decide (name = [46; 46]) then None else
  match fat32_name_to_dos name with Some dos => finds v cs dos | None => None end.
Lemma flookup_ok v dir cs name : fat_dir v dir cs -> itriple v (fat32_lookup fs dir name) (fun r v' => v' = v /\
  match r, lookup_name v cs name with
  | Some i, Some (c, off) => rel -> inode_of v (entry v c off) c off i
  | None, None => True
  | None, Some _ => ~ rel
  | Some _, None => False
  end).
Proof.
  intros Fd. destruct (fd_cons _ _ _ Fd) as (c & cs' & -> & Ef & Hc). unfold fat32_lookup, lookup_name. rewrite (fd_mode _ _ _ Fd). cbn [negb].
  destruct (_ || _); [by apply it_none|]. destruct (fat32_name_to_dos name) as [dos|]; [|by apply it_none].
  eapply it_bind; [by apply (fdir_find_ok v _ dos c cs')|]. intros r v' (-> & [->|[-> Hr]]); [|apply it_none; split; [done|]; case_match; done].
  destruct (finds v (c :: cs') dos) as [[c' off]|]; simpl; [|by apply it_none]. apply inode_create_ok.
Qed.

(** ** Listing *)
(** what [fat32_readdir] reports of an entry *)
Definition listed (v : vol) (s : Z * Z) : list Z * Z * Z :=
  let e := entry v s.1 s.2 in
  (fat32_dos_to_name (dir_name e) (dir_nt_reserved e), s.1 * 512 + s.2, if is_dir e then F_IFDIR else F_IFREG).
(** the live entries of [l] from number [j] on *)
Definition lives (v : vol) (l : list (Z * Z)) (j : nat) : list (Z * Z) := List.filter (at_ v live_entry) (drop j l).
Definition next_of (v : vol) (l : list (Z * Z)) (k j : nat) (x : Z * fat32_readdir_arg) : Prop :=
  match lives v l (j - k) with
  | [] => ra_out x.2 = None
  | s :: rest => exists m, (k <= m)%nat /\ ra_out x.2 = Some (listed v s) /\ ra_offset x.2 = 32 * (Z.of_nat m + 1) /\ lives v l (m + 1 - k) = rest
  end.
Lemma fold_readdir v l : forall k j, 32 * Z.of_nat (k + length l) < 2 ^ 64 ->
  next_of v l k j (wfold fs fat32_cb_readdir v l (mkReaddir (32 * Z.of_nat j) None (32 * Z.of_nat k))).
Proof.
  induction l as [|[c off] l IH]; intros k j Hb; [unfold next_of, lives; by rewrite drop_nil|]. cbn [length] in Hb.
  cbn [wfold]. unfold fat32_cb_readdir at 1. cbn [ra_out ra_pos ra_offset]. unfold FAT32_DIRENT_SIZE. rewrite u64_small by lia.
  replace (32 * Z.of_nat k + 32) with (32 * Z.of_nat (S k)) by lia. destruct (32 * Z.of_nat k <? 32 * Z.of_nat j) eqn:E; breflect.
  - specialize (IH (S k) j ltac:(lia)). cbn [Z.eqb negb]. unfold next_of, lives in *. replace (j - k)%nat with (S (j - S k)) by lia. cbn [drop].
    destruct (List.filter _ _) as [|s rest]; [done|]. destruct IH as (m & Hm & E1 & E2 & E3). exists m. split_and!; [lia|done|done|].
    by replace (m + 1 - k)%nat with (S (m + 1 - S k)) by lia.
  - unfold next_of, lives in *. replace (j - k)%nat with 0%nat by lia. rewrite drop_0. cbn [List.filter]. unfold at_ at 1, live_entry at 1. cbn [fst snd].
    destruct (negb (fat32_dirent_basic (entry v c off)) || fat32_dirent_dot (entry v c off)) eqn:El.
    + assert (fat32_dirent_basic (entry v c off) && negb (fat32_dirent_dot (entry v c off)) = false) as ->.
      { apply orb_true_iff in El as [->%negb_true_iff| ->]; [done|apply andb_false_r]. }
      cbn [Z.eqb negb]. specialize (IH (S k) (S k) ltac:(lia)). rewrite Nat.sub_diag, drop_0 in IH. destruct (List.filter _ _) as [|s rest]; [done|].
      destruct IH as (m & Hm & E1 & E2 & E3). exists m. split_and!; [lia|done|done|]. by replace (m + 1 - k)%nat with (S (m + 1 - S k)) by lia.
    + apply orb_false_iff in El as [->%negb_false_iff ->]. cbn [negb andb Z.eqb]. exists k. cbn [fst snd ra_out ra_offset]. split_and!; [lia|done|lia|].
      replace (k + 1 - k)%nat with 1%nat by lia. done.
Qed.
Lemma length_slots cs : length (slots cs) = (length cs * (16 * Z.to_nat (sectors_per_cluster fs)))%nat.
Proof. induction cs as [|c cs IH]; [done|]. rewrite slots_cons, length_app, IH. unfold places. rewrite length_fmap, length_seq. simpl. lia. Qed.
(** each call reports the next live entry and moves the offset behind it *)
Lemma freaddir_ok v dir cs j : fat_dir v dir cs ->
  ftriple (D := D) (H := H) v (fat32_readdir fs dir (32 * Z.of_nat j)) (fun r v' => v' = v /\ (~ rel \/
    match lives v (slots cs) j with
    | [] => r.2 = None
    | s :: rest => exists m, r = (32 * Z.of_nat (S m), Some (listed v s)) /\ lives v (slots cs) (S m) = rest
    end)).
Proof.
  intros Fd. destruct (fd_cons _ _ _ Fd) as (c & cs' & -> & Ef & Hc). unfold fat32_readdir. rewrite (fd_mode _ _ _ Fd). cbn [negb].
  unfold FAT32_DIRENT_SIZE. rewrite (Z.mul_comm 32), Z.div_mul by lia. rewrite (Z.mul_comm _ 32).
  eapply ft_bind; [by apply (dir_walk_ok fs G)|]. intros x v' (-> & Hx). apply ft_ret. split; [done|]. destruct Hx as [->|[_ ?]]; [right|by left].
  pose proof (fold_readdir v (slots (c :: cs')) 0 j) as N. unfold next_of in N. change (32 * Z.of_nat 0) with 0 in N. rewrite Nat.sub_0_r in N.
  assert (32 * Z.of_nat (0 + length (slots (c :: cs'))) < 2 ^ 64) as Hb.
  { rewrite length_slots. pose proof (chain_length fs G _ _ Hc). pose proof (g_count fs G). pose proof (g_spc fs G). nia. }
  specialize (N Hb). destruct (lives v (slots (c :: cs')) j) as [|s rest]; [done|]. destruct N as (m & _ & -> & -> & N). exists m.
  rewrite Nat.sub_0_r, Nat.add_1_r in N. split; [|done]. f_equal. lia.
Qed.
End Lookup.

(** * Mounting *)
(** ** The boot sector *)
Lemma boot_field_range n off b : bytes_ok b -> (off + n <= length b)%nat -> 0 <= field n off b < 2 ^ (8 * Z.of_nat n).
Proof. intros Hb Hl. pose proof (le_dec_bound (slice off n b) (slice_ok off n b Hb)) as B. by rewrite length_slice in B by lia. Qed.
Definition pow2_checks (x : nat) : bool := (x =? 0)%nat || negb (Z.land (Z.of_nat x) (Z.of_nat x - 1) =? 0) || (Z.of_nat x <=? 128).
Lemma pow2_byte x : 0 <= x < 256 -> x <> 0 -> Z.land x (x - 1) = 0 -> 1 <= x <= 128.
Proof.
  intros Hx H0 Hl. assert (forallb pow2_checks (seq 0 256) = true) as F by (vm_compute; reflexivity).
  rewrite forallb_forall in F. specialize (F (Z.to_nat x)). unfold pow2_checks in F. rewrite !Z2Nat.id, Hl in F by lia.
  rewrite (proj2 (Nat.eqb_neq _ _)) in F by lia. cbn [orb negb Z.eqb] in F. rewrite Z.leb_le in F. split; [lia|]. apply F. apply in_seq. lia.
Qed.

(** the next check of a chain of them *)
Ltac next_check E := match goal with |- (if ?b then None else _) = Some _ -> _ => destruct b eqn:E; [done|] end.

(** the conditions on a boot sector that [fat32_get_super] relies on without
    checking them: sectors of 512 bytes, sectors enough for the reserved area
    and the tables, and a table that has an entry for every cluster *)
Record boot_ok (b : list Z) : Prop := {
  bo_len : length b = 512%nat;
  bo_bytes : bytes_ok b;
  bo_sector : bpb_bytes_per_sector b = 512;
  bo_fats : bpb_num_fats b * bpb_sectors_per_fat32 b < 2 ^ 32;
  bo_total : bpb_reserved_sectors b + bpb_num_fats b * bpb_sectors_per_fat32 b <=
    (if bpb_total_sectors b =? 0 then bpb_total_sectors_large b else bpb_total_sectors b);
  bo_table : forall fs, parse_bpb b = Some fs ->
    cluster_count fs <= 0x0FFFFFF5 /\ (cluster_count fs + 1) * 4 / 512 < bpb_num_fats b * bpb_sectors_per_fat32 b }.
Lemma parse_geometry b fs : boot_ok b -> parse_bpb b = Some fs -> fgeom fs /\ 2 <= root_cluster fs /\ 65525 <= cluster_count fs.
Proof.
  intros [Hl Hb Es Hf Ht Htab] E. destruct (Htab fs E) as [Hc Hft]. clear Htab. revert E. unfold parse_bpb. rewrite Es.
  assert (forall n off, (off + n <= 512)%nat -> 0 <= field n off b < 2 ^ (8 * Z.of_nat n)) as R by (intros; apply boot_field_range; [done|lia]).
  pose proof (R 1%nat 13%nat ltac:(lia)) as R1. pose proof (R 2%nat 14%nat ltac:(lia)) as R2. pose proof (R 1%nat 16%nat ltac:(lia)) as R3.
  pose proof (R 4%nat 36%nat ltac:(lia)) as R4. pose proof (R 2%nat 19%nat ltac:(lia)) as R5. pose proof (R 4%nat 32%nat ltac:(lia)) as R6.
  fold (bpb_sectors_per_cluster b) in R1. fold (bpb_reserved_sectors b) in R2. fold (bpb_num_fats b) in R3. fold (bpb_sectors_per_fat32 b) in R4.
  fold (bpb_total_sectors b) in R5. fold (bpb_total_sectors_large b) in R6. set (total := if bpb_total_sectors b =? 0 then _ else _) in *.
  assert (0 <= total < 2 ^ 32) as Rt by (unfold total; case_match; lia). clearbody total.
  next_check E0. next_check E3. next_check E1. next_check E4. next_check E5. next_check E2. clear E0 E3 E4 E5. intros [= <-]. cbn [cluster_count root_cluster] in *.
  apply orb_false_iff in E1 as [E1 E1'], E2 as [E2 E2']. apply negb_false_iff in E1'. breflect.
  destruct (pow2_byte (bpb_sectors_per_cluster b)) as [P1 P2]; [lia|done|done|]. rewrite (u32_small (_ * _)) in * by lia. rewrite (u32_small (total - _ - _)) in * by lia.
  split; [|split; [done|done]]. split; cbn [bytes_per_sector sectors_per_cluster cluster_count fat_start data_start]; try done; try lia.
  - rewrite u32_small by lia. lia.
  - rewrite u32_small by lia. pose proof (Z.mul_div_le (total - bpb_reserved_sectors b - bpb_num_fats b * bpb_sectors_per_fat32 b) (bpb_sectors_per_cluster b) ltac:(lia)). lia.
Qed.

(** ** Mounting *)
Section Mount.
Context {D H : Type} `{DD : BlockDev D} `{HH : Heap H}.
Abbreviation St := (fat_state D H).
Abbreviation rel := (fat_reliable (D := D) (H := H)).

Lemma root_inode_ok fs v : fgeom fs -> itriple (D := D) (H := H) v (fat32_root_inode fs) (fun r v' => v' = v /\
  match r with Some i => fi_private i = mkFatInodePriv (root_cluster fs) 0 0 0 true /\ f_type (fi_mode i) F_IFDIR = true | None => ~ rel end).
Proof.
  intros G. unfold fat32_root_inode. apply two_objects_ok; [done|]. intros p q. eapply ft_bind; [apply (chain_len_any fs G)|].
  intros n v' (-> & _). apply ft_ret. split; [by eexists|done].
Qed.

(** the four objects of a mount *)
Definition mounted (L : gset Z) (sb : fsuper) (h : H) : Prop :=
  (fsb_ptr sb ∉ L) /\ (fsb_priv_ptr sb ∉ {[fsb_ptr sb]} ∪ L) /\ fsb_priv_ptr sb <> 0 /\
  holds ({[fsb_priv_ptr sb]} ∪ ({[fsb_ptr sb]} ∪ L)) (Some (fsb_root sb)) h.
Lemma build_super_ok fs v L (s : St) : fgeom fs -> heap_inv (fat_heap s) L -> shows s v ->
  wp (build_super fs) (fun r s' => shows s' v /\
    match r with Some sb => fsb_priv sb = fs /\ mounted L sb (fat_heap s') | None => ~ rel /\ heap_inv (fat_heap s') L end) s.
Proof.
  intros G Hh Hs. unfold build_super. apply wp_bind. eapply wp_conseq; [apply (falloc_ok L s _ Hh); unfold SIZEOF_FAT_FS_PRIV; lia|].
  intros q s1 (E1 & [(Hq & HqL & I1)|(-> & I1 & Hr)]); [|apply wp_ret; split; [intros x; rewrite E1; apply Hs|done]].
  rewrite (proj2 (Z.eqb_neq _ _) Hq). apply wp_bind. eapply wp_conseq; [apply (falloc_ok _ s1 _ I1); unfold SIZEOF_FAT_SUPER; lia|].
  intros p s2 (E2 & [(Hp & HpL & I2)|(-> & I2 & Hr)]); assert (shows s2 v) as Hs2 by (intros x; rewrite E2, E1; apply Hs).
  - rewrite (proj2 (Z.eqb_neq _ _) Hp). apply wp_bind. replace ({[p]} ∪ ({[q]} ∪ L)) with ({[q]} ∪ ({[p]} ∪ L)) in I2 by set_solver.
    eapply wp_conseq; [by apply (root_inode_ok fs v G _ s2 I2)|]. intros [root|] s3 (Hh3 & v3 & Hs3 & -> & Hi).
    + apply wp_ret. split; [done|]. split; [done|]. split_and!; [set_solver|set_solver|done|done].
    + apply wp_bind. eapply wp_conseq; [apply (ffree_ok ({[q]} ∪ L)); [|set_solver]|].
      { by replace ({[p]} ∪ ({[q]} ∪ L)) with ({[q]} ∪ ({[p]} ∪ L)) by set_solver. }
      intros [] s4 [E4 I4]. apply wp_bind. eapply wp_conseq; [by apply (ffree_ok L)|]. intros [] s5 [E5 I5]. apply wp_ret.
      split; [intros x; rewrite E5, E4; apply Hs3|done].
  - cbn [Z.eqb]. apply wp_bind. eapply wp_conseq; [by apply (ffree_ok L)|]. intros [] s4 [E4 I4]. apply wp_ret. split; [intros x; rewrite E4; apply Hs2|done].
Qed.
(** the sector buffer goes, the mount stays *)
Lemma release_buf L b sb (s : St) : b ∉ L -> mounted ({[b]} ∪ L) sb (fat_heap s) ->
  wp (ffree b) (fun _ s' => fat_dev s' = fat_dev s /\ mounted L sb (fat_heap s')) s.
Proof.
  intros Hb (H1 & H2 & H3 & H4 & H5 & H6 & H7 & I). set (i := fsb_root sb) in *. set (M := {[fi_ptr i; fi_priv_ptr i]} ∪ ({[fsb_priv_ptr sb]} ∪ ({[fsb_ptr sb]} ∪ L))).
  eapply wp_conseq; [apply (ffree_ok M); [|unfold M; set_solver]|].
  { by replace ({[b]} ∪ M) with ({[fi_ptr i; fi_priv_ptr i]} ∪ ({[fsb_priv_ptr sb]} ∪ ({[fsb_ptr sb]} ∪ ({[b]} ∪ L)))) by (unfold M; set_solver). }
  intros [] s' [E I']. split; [done|]. split_and!; [set_solver|set_solver|done|]. fold i. split_and!; [set_solver|set_solver|done|done|done].
Qed.
Lemma get_super_ok v L (s : St) : boot_ok (v 0) -> heap_inv (fat_heap s) L -> shows s v ->
  wp fat32_get_super (fun r s' => shows s' v /\
    match r with
    | Some sb => parse_bpb (v 0) = Some (fsb_priv sb) /\ mounted L sb (fat_heap s')
    | None => (parse_bpb (v 0) = None \/ ~ rel) /\ heap_inv (fat_heap s') L
    end) s.
Proof.
  intros Hbo Hh Hs. unfold fat32_get_super, with_fbuf. apply wp_bind. eapply wp_conseq; [apply (falloc_ok L s _ Hh); unfold FAT32_SECTOR_SIZE; lia|].
  intros b s1 (E1 & [(Hb & HbL & I1)|(-> & I1 & Hr)]); [|apply wp_ret; split; [intros x; rewrite E1; apply Hs|auto]].
  assert (shows s1 v) as Hs1 by (intros x; rewrite E1; apply Hs). rewrite (proj2 (Z.eqb_neq _ _) Hb). apply wp_bind, wp_bind.
  change (f_dev (dev_read 0)) with (fat32_read_sector (D := D) (H := H) 0). eapply wp_conseq; [by apply (ft_read v 0 _ s1 I1)|].
  intros [r bs] s2 (I2 & v2 & Hs2 & -> & Hr). cbn [fst snd] in *.
  assert (forall (x : option fsuper) (s' : St), shows s' v -> match x with Some sb => parse_bpb (v 0) = Some (fsb_priv sb) /\ mounted ({[b]} ∪ L) sb (fat_heap s')
    | None => (parse_bpb (v 0) = None \/ ~ rel) /\ heap_inv (fat_heap s') ({[b]} ∪ L) end -> wp (ffree b ;;; mret x) (fun r s' => shows s' v /\
    match r with Some sb => parse_bpb (v 0) = Some (fsb_priv sb) /\ mounted L sb (fat_heap s') | None => (parse_bpb (v 0) = None \/ ~ rel) /\ heap_inv (fat_heap s') L end) s') as Hend.
  { intros x s' Hs' Hx. apply wp_bind. destruct x as [sb|].
    - destruct Hx as [Ep Hm]. eapply wp_conseq; [by apply release_buf|]. intros [] s3 [E3 Hm3]. apply wp_ret. split; [intros y; rewrite E3; apply Hs'|done].
    - destruct Hx as [Ep Hm]. eapply wp_conseq; [by apply (ffree_ok L)|]. intros [] s3 [E3 I3]. apply wp_ret. split; [intros y; rewrite E3; apply Hs'|done]. }
  destruct Hr as [[Hr ->]|[Hr Hn]]; [|rewrite (proj2 (Z.ltb_lt _ _) Hr); apply wp_ret, Hend; [done|auto]]. rewrite (proj2 (Z.ltb_ge _ _) Hr).
  destruct (parse_bpb (v 0)) as [fs|] eqn:Ep; [|apply wp_ret, Hend; [done|auto]]. destruct (parse_geometry _ _ Hbo Ep) as [G _].
  eapply wp_conseq; [by apply (build_super_ok fs v _ s2 G I2)|]. intros [sb|] s3 [Hs3 Hx]; apply Hend; try done.
  - destruct Hx as [<- ?]. done.
  - destruct Hx as [? ?]. auto.
Qed.
(** [fat32_kill_sb] frees what [fat32_get_super] has allocated, and nothing else *)
Lemma kill_sb_ok L (s : St) sb : mounted L sb (fat_heap s) -> wp (fat32_kill_sb sb) (fun _ s' => fat_dev s' = fat_dev s /\ heap_inv (fat_heap s') L) s.
Proof.
  intros (H1 & H2 & H3 & Hh). unfold fat32_kill_sb. apply wp_bind. eapply wp_conseq; [by apply (inode_destroy_ok _ s (fsb_root sb) Hh)|].
  intros [] s1 [E1 I1]. apply wp_bind. rewrite (proj2 (Z.eqb_neq _ _) H3). eapply wp_conseq; [by apply (ffree_ok ({[fsb_ptr sb]} ∪ L))|].
  intros [] s2 [E2 I2]. eapply wp_conseq; [by apply (ffree_ok L)|]. intros [] s3 [E3 I3]. split; [congruence|done].
Qed.
End Mount.
