(* ===== verification/FatStrict.v ===== *)
(** The operations of fs/fat32.c in runs where nothing fails: every operation
    on the strict device and heap refines the same operation on the device and
    the heap themselves, and [ctriple] is [ftriple] for clean runs. *)
From stdpp Require Import base gmap list.
From Stdlib Require Import ZArith Lia.
From S2P Require Import Prelude Bytes HashMap BlockDev Strict Fat FatDir FatFile FatTable FatRead FatWrite FatEntry FatData FatLookup.
Open Scope Z_scope.

Section Strict.
Context {D H : Type} {DD : BlockDev D} {HH : Heap H}.
Abbreviation St := (fat_state D H).
Abbreviation SD := (strict_dev DD).
Abbreviation SH := (strict_heap HH).

Lemma s_read_sector s : refines (fat32_read_sector (D := D) (H := H) (DD := SD) s) (fat32_read_sector (D := D) (H := H) s).
Proof. unfold fat32_read_sector, f_dev. refine_all. Qed.
#[local] Hint Resolve s_read_sector : strict.
Lemma s_write_sector s buf : refines (fat32_write_sector (D := D) (H := H) (DD := SD) s buf) (fat32_write_sector (D := D) (H := H) s buf).
Proof. unfold fat32_write_sector, f_dev. refine_all. Qed.
#[local] Hint Resolve s_write_sector : strict.
Lemma s_falloc n : refines (falloc (D := D) (H := H) (HH := SH) n) (falloc (D := D) (H := H) n).
Proof. unfold falloc. refine_all. Qed.
#[local] Hint Resolve s_falloc : strict.
Lemma s_ffree p : refines (ffree (D := D) (H := H) (HH := SH) p) (ffree (D := D) (H := H) p).
Proof. unfold ffree. refine_all. Qed.
#[local] Hint Resolve s_ffree : strict.
Lemma s_with_fbuf {A} n (fail : A) (b1 b2 : M St A) : refines b1 b2 -> refines (with_fbuf (HH := SH) n fail b1) (with_fbuf n fail b2).
Proof. intros Hb. unfold with_fbuf. refine_all. Qed.
#[local] Hint Extern 2 (refines (with_fbuf _ _ _) _) => apply s_with_fbuf; refine_all : strict.
Lemma s_fat_get fs c : refines (fat32_fat_get (DD := SD) (HH := SH) fs c) (fat32_fat_get fs c).
Proof. unfold fat32_fat_get. refine_all. Qed.
#[local] Hint Resolve s_fat_get : strict.
Lemma s_fat_set fs c v : refines (fat32_fat_set (DD := SD) (HH := SH) fs c v) (fat32_fat_set fs c v).
Proof. unfold fat32_fat_set. refine_all. Qed.
#[local] Hint Resolve s_fat_set : strict.
Lemma s_zero_loop fs n c i zero : refines (zero_loop (D := D) (H := H) (DD := SD) fs n c i zero) (zero_loop (D := D) (H := H) fs n c i zero).
Proof. revert c i; induction n as [|n IH]; intros; cbn [zero_loop]; refine_all. Qed.
#[local] Hint Resolve s_zero_loop : strict.
Lemma s_alloc_loop fs n c zero : refines (alloc_loop (DD := SD) (HH := SH) fs n c zero) (alloc_loop fs n c zero).
Proof. revert c; induction n as [|n IH]; intros; cbn [alloc_loop]; refine_all. Qed.
#[local] Hint Resolve s_alloc_loop : strict.
Lemma s_alloc_cluster fs : refines (fat32_alloc_cluster (DD := SD) (HH := SH) fs) (fat32_alloc_cluster fs).
Proof. unfold fat32_alloc_cluster. refine_all. Qed.
#[local] Hint Resolve s_alloc_cluster : strict.
Lemma s_free_chain_loop fs n c : refines (free_chain_loop (DD := SD) (HH := SH) fs n c) (free_chain_loop fs n c).
Proof. revert c; induction n as [|n IH]; intros; cbn [free_chain_loop]; refine_all. Qed.
#[local] Hint Resolve s_free_chain_loop : strict.
Lemma s_free_chain fs c : refines (fat32_free_chain (DD := SD) (HH := SH) fs c) (fat32_free_chain fs c).
Proof. unfold fat32_free_chain. refine_all. Qed.
#[local] Hint Resolve s_free_chain : strict.
Lemma s_chain_len_loop fs n c k : refines (chain_len_loop (DD := SD) (HH := SH) fs n c k) (chain_len_loop fs n c k).
Proof. revert c k; induction n as [|n IH]; intros; cbn [chain_len_loop]; refine_all. Qed.
#[local] Hint Resolve s_chain_len_loop : strict.
Lemma s_chain_len fs c : refines (fat32_chain_len (DD := SD) (HH := SH) fs c) (fat32_chain_len fs c).
Proof. unfold fat32_chain_len. refine_all. Qed.
#[local] Hint Resolve s_chain_len : strict.
Lemma s_append_loop fs n first tail : refines (append_loop (DD := SD) (HH := SH) fs n first tail) (append_loop fs n first tail).
Proof. revert first tail; induction n as [|n IH]; intros; cbn [append_loop]; refine_all. Qed.
#[local] Hint Resolve s_append_loop : strict.
Lemma s_append_clusters fs first tail n : refines (fat32_append_clusters (DD := SD) (HH := SH) fs first tail n) (fat32_append_clusters fs first tail n).
Proof. unfold fat32_append_clusters. refine_all. Qed.
#[local] Hint Resolve s_append_clusters : strict.
Lemma s_dirent_load fs p : refines (fat32_dirent_load (DD := SD) (HH := SH) fs p) (fat32_dirent_load fs p).
Proof. unfold fat32_dirent_load. refine_all. Qed.
#[local] Hint Resolve s_dirent_load : strict.
Lemma s_dirent_store fs p e : refines (fat32_dirent_store (DD := SD) (HH := SH) fs p e) (fat32_dirent_store fs p e).
Proof. unfold fat32_dirent_store. refine_all. Qed.
#[local] Hint Resolve s_dirent_store : strict.
Lemma s_dirent_update_size ticks fs p size : refines (fat32_dirent_update_size (DD := SD) (HH := SH) ticks fs p size) (fat32_dirent_update_size ticks fs p size).
Proof. unfold fat32_dirent_update_size. refine_all. Qed.
#[local] Hint Resolve s_dirent_update_size : strict.
Lemma s_walk_sectors {A} (cb : fat_callback A) fs n s c a : refines (walk_sectors (D := D) (H := H) (DD := SD) cb fs n s c a) (walk_sectors (D := D) (H := H) cb fs n s c a).
Proof. revert s c a; induction n as [|n IH]; intros; cbn [walk_sectors]; refine_all. Qed.
#[local] Hint Resolve s_walk_sectors : strict.
Lemma s_walk_clusters {A} (cb : fat_callback A) fs n c a : refines (walk_clusters (DD := SD) (HH := SH) cb fs n c a) (walk_clusters cb fs n c a).
Proof. revert c a; induction n as [|n IH]; intros; cbn [walk_clusters]; refine_all. Qed.
#[local] Hint Resolve s_walk_clusters : strict.
Lemma s_dir_walk {A} (cb : fat_callback A) fs dp a : refines (fat32_dir_walk (DD := SD) (HH := SH) cb fs dp a) (fat32_dir_walk cb fs dp a).
Proof. unfold fat32_dir_walk. refine_all. Qed.
#[local] Hint Resolve s_dir_walk : strict.
Lemma s_fat_dir_find fs dp dos : refines (fat32_dir_find (DD := SD) (HH := SH) fs dp dos) (fat32_dir_find fs dp dos).
Proof. unfold fat32_dir_find. refine_all. Qed.
#[local] Hint Resolve s_fat_dir_find : strict.
Lemma s_tail_loop fs n tail : refines (tail_loop (DD := SD) (HH := SH) fs n tail) (tail_loop fs n tail).
Proof. revert tail; induction n as [|n IH]; intros; cbn [tail_loop]; refine_all. Qed.
#[local] Hint Resolve s_tail_loop : strict.
Lemma s_dir_extend fs dp : refines (fat32_dir_extend (DD := SD) (HH := SH) fs dp) (fat32_dir_extend fs dp).
Proof. unfold fat32_dir_extend. refine_all. Qed.
#[local] Hint Resolve s_dir_extend : strict.
Lemma s_two_objects {A} (fail : A) (k1 k2 : Z -> Z -> M St A) : (forall i q, refines (k1 i q) (k2 i q)) ->
  refines (two_objects (HH := SH) fail k1) (two_objects fail k2).
Proof. intros Hk. unfold two_objects. refine_all. Qed.
#[local] Hint Extern 2 (refines (two_objects _ _) _) => apply s_two_objects; refine_all : strict.
Lemma s_inode_create fs e c off : refines (fat32_inode_create (DD := SD) (HH := SH) fs e c off) (fat32_inode_create fs e c off).
Proof. unfold fat32_inode_create. refine_all. Qed.
#[local] Hint Resolve s_inode_create : strict.
Lemma s_lookup fs dir name : refines (fat32_lookup (DD := SD) (HH := SH) fs dir name) (fat32_lookup fs dir name).
Proof. unfold fat32_lookup. refine_all. Qed.
#[local] Hint Resolve s_lookup : strict.
Lemma s_undo_dir {A} fs b c : refines (undo_dir (A := A) (DD := SD) (HH := SH) fs b c) (undo_dir (A := A) fs b c).
Proof. unfold undo_dir. refine_all. Qed.
#[local] Hint Resolve s_undo_dir : strict.
Lemma s_find_slot fs dp : refines (find_slot (DD := SD) (HH := SH) fs dp) (find_slot fs dp).
Proof. unfold find_slot. refine_all. Qed.
#[local] Hint Resolve s_find_slot : strict.
Lemma s_add_at ticks fs dos name b c dc doff : refines (add_at (DD := SD) (HH := SH) ticks fs dos name b c dc doff) (add_at ticks fs dos name b c dc doff).
Proof. unfold add_at. refine_all. Qed.
#[local] Hint Resolve s_add_at : strict.
Lemma s_fat_dir_add ticks fs dir name mode : refines (fat32_dir_add (DD := SD) (HH := SH) ticks fs dir name mode) (fat32_dir_add ticks fs dir name mode).
Proof. unfold fat32_dir_add. refine_all. Qed.
#[local] Hint Resolve s_fat_dir_add : strict.
Lemma s_remove_found fs a : refines (remove_found (DD := SD) (HH := SH) fs a) (remove_found fs a).
Proof. unfold remove_found. refine_all. Qed.
#[local] Hint Resolve s_remove_found : strict.
Lemma s_unlink fs dir name : refines (fat32_unlink (DD := SD) (HH := SH) fs dir name) (fat32_unlink fs dir name).
Proof. unfold fat32_unlink. refine_all. Qed.
#[local] Hint Resolve s_unlink : strict.
Lemma s_rmdir fs dir name : refines (fat32_rmdir (DD := SD) (HH := SH) fs dir name) (fat32_rmdir fs dir name).
Proof. unfold fat32_rmdir. refine_all. Qed.
#[local] Hint Resolve s_rmdir : strict.
Lemma s_readdir fs dir off : refines (fat32_readdir (DD := SD) (HH := SH) fs dir off) (fat32_readdir fs dir off).
Proof. unfold fat32_readdir. refine_all. Qed.
#[local] Hint Resolve s_readdir : strict.
Lemma s_skip_read fs n c : refines (skip_read (DD := SD) (HH := SH) fs n c) (skip_read fs n c).
Proof. revert c; induction n as [|n IH]; intros; cbn [skip_read]; refine_all. Qed.
#[local] Hint Resolve s_skip_read : strict.
Lemma s_read_data_loop fs n c coff r : refines (read_data_loop (DD := SD) (HH := SH) fs n c coff r) (read_data_loop fs n c coff r).
Proof. revert c coff r; induction n as [|n IH]; intros; cbn [read_data_loop]; refine_all. Qed.
#[local] Hint Resolve s_read_data_loop : strict.
Lemma s_fat_read_data fs i pos count : refines (fat32_read_data (DD := SD) (HH := SH) fs i pos count) (fat32_read_data fs i pos count).
Proof. unfold fat32_read_data. refine_all. Qed.
#[local] Hint Resolve s_fat_read_data : strict.
Lemma s_skip_write fs n c : refines (skip_write (DD := SD) (HH := SH) fs n c) (skip_write fs n c).
Proof. revert c; induction n as [|n IH]; intros; cbn [skip_write]; refine_all. Qed.
#[local] Hint Resolve s_skip_write : strict.
Lemma s_want_cluster fs cur prev first : refines (want_cluster (DD := SD) (HH := SH) fs cur prev first) (want_cluster fs cur prev first).
Proof. unfold want_cluster. refine_all. Qed.
#[local] Hint Resolve s_want_cluster : strict.
Lemma s_put_sector fs sec soff n pos f ub : refines (put_sector (D := D) (H := H) (DD := SD) fs sec soff n pos f ub) (put_sector (D := D) (H := H) fs sec soff n pos f ub).
Proof. unfold put_sector. refine_all. Qed.
#[local] Hint Resolve s_put_sector : strict.
Lemma s_write_data_loop fs n pos end_ ub f cur prev coff first : refines (write_data_loop (DD := SD) (HH := SH) fs n pos end_ ub f cur prev coff first) (write_data_loop fs n pos end_ ub f cur prev coff first).
Proof. revert f cur prev coff first; induction n as [|n IH]; intros; cbn [write_data_loop]; refine_all. Qed.
#[local] Hint Resolve s_write_data_loop : strict.
Lemma s_write_body ticks fs i pos buf : refines (write_body (DD := SD) (HH := SH) ticks fs i pos buf) (write_body ticks fs i pos buf).
Proof. unfold write_body. refine_all. Qed.
#[local] Hint Resolve s_write_body : strict.
Lemma s_fat_write_data ticks fs i pos buf : refines (fat32_write_data (DD := SD) (HH := SH) ticks fs i pos buf) (fat32_write_data ticks fs i pos buf).
Proof. unfold fat32_write_data. refine_all. Qed.
#[local] Hint Resolve s_fat_write_data : strict.
Lemma s_find_tail fs n tail : refines (find_tail (DD := SD) (HH := SH) fs n tail) (find_tail fs n tail).
Proof. revert tail; induction n as [|n IH]; intros; cbn [find_tail]; refine_all. Qed.
#[local] Hint Resolve s_find_tail : strict.
Lemma s_go_along fs n c : refines (go_along (DD := SD) (HH := SH) fs n c) (go_along fs n c).
Proof. revert c; induction n as [|n IH]; intros; cbn [go_along]; refine_all. Qed.
#[local] Hint Resolve s_go_along : strict.
Lemma s_resize_chain fs a b c : refines (resize_chain (DD := SD) (HH := SH) fs a b c) (resize_chain fs a b c).
Proof. unfold resize_chain. refine_all. Qed.
#[local] Hint Resolve s_resize_chain : strict.
Lemma s_truncate ticks fs i size : refines (fat32_truncate (DD := SD) (HH := SH) ticks fs i size) (fat32_truncate ticks fs i size).
Proof. unfold fat32_truncate. refine_all. Qed.
#[local] Hint Resolve s_truncate : strict.

(** ** The logic on clean runs

    As [ftriple] and [itriple], of the run from a state that shows [v], if it
    is clean. *)
Definition ctriple {A} (v : vol) (m : BlockDev D -> Heap H -> M St A) (R : A -> vol -> Prop) : Prop :=
  forall L s, heap_inv (fat_heap s) L -> shows s v -> clean m s ->
    wp (m DD HH) (fun r s' => heap_inv (fat_heap s') L /\ exists v', shows s' v' /\ R r v') s.
Definition ictriple (v : vol) (m : BlockDev D -> Heap H -> M St (option finode)) (R : option finode -> vol -> Prop) : Prop :=
  forall L s, heap_inv (fat_heap s) L -> shows s v -> clean m s ->
    wp (m DD HH) (fun r s' => holds L r (fat_heap s') /\ exists v', shows s' v' /\ R r v') s.

Lemma ctriple_intro {A} v (m : BlockDev D -> Heap H -> M St A) R : refines (m SD SH) (m DD HH) ->
  ftriple (DD := SD) (HH := SH) v (m SD SH) R -> ctriple v m R.
Proof. intros Hr W L s Hh Hs Hc. eapply clean_wp; [done|done|]. by apply (W L s). Qed.
Lemma ictriple_intro v (m : BlockDev D -> Heap H -> M St (option finode)) R : refines (m SD SH) (m DD HH) ->
  itriple (DD := SD) (HH := SH) v (m SD SH) R -> ictriple v m R.
Proof. intros Hr W L s Hh Hs Hc. eapply clean_wp; [done|done|]. by apply (W L s). Qed.

(** nothing fails on the strict instances *)
Lemma strict_fat : @fat_reliable D H SD SH.
Proof. split; [apply strict_reads|]. split; [apply strict_writes|apply strict_allocs]. Qed.
End Strict.
#[export] Hint Resolve s_alloc_cluster s_free_chain s_lookup s_fat_dir_add s_unlink s_rmdir s_readdir s_fat_read_data s_fat_write_data s_truncate : strict.
