(* ===== verification/FatAdd.v ===== *)
(** Adding and removing FAT32 names: what [fat32_dir_add], [fat32_unlink] and
    [fat32_rmdir] do to the names of a directory; they stay distinct, and every
    operation acts on the one name it is given. *)
From stdpp Require Import base gmap list.
From Stdlib Require Import ZArith Lia.
From S2P Require Import Prelude Bytes HashMap BlockDev Fat FatDir FatFile FatTable FatRead FatWrite FatEntry FatData FatLookup.
Open Scope Z_scope.

(** * Adding *)
(** ** Searching *)
Lemma find_unique {A} (p : A -> bool) l x : x ∈ l -> p x = true -> (forall y, y ∈ l -> p y = true -> y = x) -> List.find p l = Some x.
Proof.
  induction l as [|y l IH]; intros Hx Hp Hu; [by apply elem_of_nil in Hx|]. cbn [List.find]. destruct (p y) eqn:E; [f_equal; apply Hu; [by left|done]|].
  apply IH; [|done|]; [apply elem_of_cons in Hx as [->|?]; [congruence|done]|]. intros z Hz. apply Hu. by right.
Qed.
Lemma find_ext {A} (p q : A -> bool) l : (forall x, x ∈ l -> p x = q x) -> List.find p l = List.find q l.
Proof.
  induction l as [|y l IH]; intros E; [done|]. cbn [List.find]. rewrite (E y) by left. case_match; [done|]. apply IH. intros x Hx. apply E. by right.
Qed.
Lemma find_none_all {A} (p : A -> bool) l : List.find p l = None <-> forall x, x ∈ l -> p x = false.
Proof.
  induction l as [|y l IH]; cbn [List.find]; [split; [|done]; by intros _ x []%elem_of_nil|]. destruct (p y) eqn:E; split.
  - done.
  - intros Hp. specialize (Hp y (list_elem_of_here _ _)). congruence.
  - intros Hn x [->|Hx]%elem_of_cons; [done|by apply IH].
  - intros Hp. apply IH. intros x Hx. apply Hp. by right.
Qed.
Lemma find_some_in {A} (p : A -> bool) l x : List.find p l = Some x -> x ∈ l /\ p x = true.
Proof. intros E. apply List.find_some in E as [? ?]. split; [by apply list_elem_of_In|done]. Qed.
Lemma find_app_some {A} (p : A -> bool) l l' x : List.find p l = Some x -> List.find p (l ++ l') = Some x.
Proof. induction l as [|y l IH]; cbn [List.find app]; [done|]. by case_match. Qed.

Section Add.
Context {D H : Type} `{DD : BlockDev D} `{HH : Heap H}.
Abbreviation St := (fat_state D H).
Abbreviation rel := (fat_reliable (D := D) (H := H)).
Context (fs : fat32_fs_priv) (G : fgeom fs).
Abbreviation cl := (cl fs).
Abbreviation fat := (fat fs).
Abbreviation cdata := (cdata fs).
Abbreviation csize := (csize fs).
Abbreviation entry := (entry fs).
Abbreviation slots := (slots fs).
Abbreviation finds := (finds fs).
Abbreviation chain := (chain fs).
Abbreviation put_at := (put_at fs).

Lemma put_entry_other v c off c' off' e : vol_ok v -> place_ok fs c off -> place_ok fs c' off' -> (c', off') <> (c, off) -> length e = 32%nat ->
  entry (put_at c off e v) c' off' = entry v c' off'.
Proof.
  intros Hv Pl Pl' Hne Hl. destruct (place_sector fs G _ _ Pl) as (_ & Hm & Hs). unfold FatData.entry. destruct (decide (c' = c)) as [->|Hc].
  - pose proof (pl_off _ _ _ Pl). pose proof (pl_off _ _ _ Pl'). pose proof (pl_align _ _ _ Pl) as A1. pose proof (pl_align _ _ _ Pl') as A2.
    pose proof (Z.div_mod off 32 ltac:(lia)). pose proof (Z.div_mod off' 32 ltac:(lia)). assert (off / 32 <> off' / 32) by (intros E; apply Hne; f_equal; lia).
    rewrite (put_at_cdata fs G) by (done || lia). apply slice_splice_disjoint; rewrite ?Hl, ?length_cdata by done; unfold FatRead.csize in *; lia.
  - by rewrite (put_at_other fs G) by (done || apply Pl).
Qed.

(** ** A name put into a directory *)

(** [e] has been put at [(c, off)], which was free or lies in a new cluster
    [cs'] has behind [cs]; the clusters [ex] have been allocated as well *)
Record dir_put (v v' : vol) (cs cs' ex : list Z) (c off : Z) (e : list Z) : Prop := {
  dp_cs : exists new, cs' = cs ++ new /\ forall d, d ∈ new -> cl d /\ fat v d = 0;
  dp_chain : chain (fat v') cs';
  dp_used d : d ∈ cs' -> fat v' d <> 0;
  dp_slot : (c, off) ∈ slots cs';
  dp_entry : entry v' c off = e;
  dp_free : (c, off) ∈ slots cs -> free_entry (entry v c off) = true;
  dp_old s : s ∈ slots cs -> s <> (c, off) -> entry v' s.1 s.2 = entry v s.1 s.2;
  dp_new s : s ∈ slots cs' -> s ∉ slots cs -> s <> (c, off) -> free_entry (entry v' s.1 s.2) = true;
  dp_fat d : cl d -> d ∉ cs' -> d ∉ ex -> fat v' d = fat v d;
  dp_data d : cl d -> d ∉ cs' -> d ∉ ex -> cdata v' d = cdata v d;
  dp_ex d : d ∈ ex -> (d ∉ cs') /\ cl d /\ fat v d = 0 /\ fat v' d = FAT32_EOF_MARK /\ cdata v' d = replicate csize 0 }.

Lemma free_not_named dos e : free_entry e = true -> is_named dos e = false.
Proof. intros Hf%free_not_live. unfold is_named. by rewrite Hf. Qed.
Lemma named_name dos e : is_named dos e = true -> dir_name e = dos.
Proof. unfold is_named. intros [_ Hb]%andb_true_iff. by apply bool_decide_eq_true in Hb. Qed.

Section Put.
Context (v v' : vol) (cs cs' ex : list Z) (c off : Z) (e dos : list Z).
Context (P : dir_put v v' cs cs' ex c off e) (Hnew : is_named dos e = true).
Lemma put_named_old s dos' : s ∈ slots cs' -> s <> (c, off) -> is_named dos' (entry v' s.1 s.2) = true -> s ∈ slots cs /\ is_named dos' (entry v s.1 s.2) = true.
Proof.
  intros Hs Hne Hn. destruct (decide (s ∈ slots cs)) as [Hi|Hi].
  - split; [done|]. by rewrite <- (dp_old _ _ _ _ _ _ _ _ P).
  - by rewrite free_not_named in Hn by (by apply (dp_new _ _ _ _ _ _ _ _ P)).
Qed.
Lemma put_finds : finds v cs dos = None -> finds v' cs' dos = Some (c, off).
Proof.
  intros Hf. unfold FatLookup.finds. apply find_unique.
  - apply P.
  - unfold at_. cbn [fst snd]. by rewrite (dp_entry _ _ _ _ _ _ _ _ P).
  - intros s Hs Hn. destruct (decide (s = (c, off))) as [|Hne]; [done|]. destruct (put_named_old s dos Hs Hne Hn) as [Hi Ho].
    unfold FatLookup.finds in Hf. rewrite find_none_all in Hf. specialize (Hf s Hi). unfold at_ in Hf. congruence.
Qed.
Lemma put_finds_other dos' : dos' <> dos -> finds v' cs' dos' = finds v cs dos'.
Proof.
  intros Hne. assert (is_named dos' e = false) as He.
  { destruct (is_named dos' e) eqn:E; [|done]. apply named_name in E, Hnew. congruence. }
  destruct (dp_cs _ _ _ _ _ _ _ _ P) as (new & Ec & _). unfold FatLookup.finds. rewrite Ec at 1. rewrite slots_app.
  assert (forall s, s ∈ slots cs' -> at_ fs v' (is_named dos') s = true -> s ∈ slots cs) as Hold.
  { intros s Hs Hn. destruct (decide (s = (c, off))) as [->|Hd]; [|by apply (put_named_old s dos')].
    unfold at_ in Hn. cbn [fst snd] in Hn. rewrite (dp_entry _ _ _ _ _ _ _ _ P) in Hn. congruence. }
  trans (List.find (at_ fs v' (is_named dos')) (slots cs)).
  - destruct (List.find (at_ fs v' (is_named dos')) (slots cs)) as [s|] eqn:E; [by rewrite find_app_some with (x := s)|].
    apply find_none_all. rewrite find_none_all in E. intros s [Hs|Hs]%elem_of_app; [by apply E|].
    destruct (at_ fs v' (is_named dos') s) eqn:En; [|done]. rewrite <- (E s); [done|]. apply Hold; [|done]. rewrite Ec, slots_app. set_solver.
  - apply find_ext. intros s Hs. unfold at_. destruct (decide (s = (c, off))) as [->|Hd]; [|by rewrite (dp_old _ _ _ _ _ _ _ _ P)]. cbn [fst snd].
    rewrite (dp_entry _ _ _ _ _ _ _ _ P), He. by rewrite free_not_named by (by apply (dp_free _ _ _ _ _ _ _ _ P)).
Qed.
End Put.

(** ** A new cluster for a directory *)
Record extended (v v' : vol) (cs : list Z) (nc : Z) : Prop := {
  ex_cl : cl nc;
  ex_free : fat v nc = 0;
  ex_chain : chain (fat v') (cs ++ [nc]);
  ex_used d : d ∈ cs ++ [nc] -> fat v' d <> 0;
  ex_fat d : cl d -> d ∉ cs ++ [nc] -> fat v' d = fat v d;
  ex_data d : cl d -> d <> nc -> cdata v' d = cdata v d;
  ex_zero : cdata v' nc = replicate csize 0 }.
Lemma extended_intro v v1 v2 cs prev nc : chain (fat v) (cs ++ [prev]) -> (forall c, c ∈ cs ++ [prev] -> fat v c <> 0) ->
  allocated fs nc v v1 -> fat_upd fs prev nc v1 v2 -> extended v v2 (cs ++ [prev]) nc.
Proof.
  intros Hc Hu A U. destruct (grown_alloc fs G v v1 v2 cs prev nc Hc Hu A U) as [Gr _]. pose proof (al_cl _ _ _ _ A) as Hnc.
  assert (forall d, cl d -> cdata v2 d = cdata v1 d) as E2.
  { intros d Hd. apply (data_same_cdata fs G []); [by apply (upd_same fs prev nc)|done|by intros ?%elem_of_nil]. }
  change [prev; nc] with ([prev] ++ [nc]) in Gr. rewrite app_assoc in Gr. split; [done|apply A|apply Gr|apply Gr|apply Gr|..].
  - intros d Hd Hne. rewrite E2 by done. apply (data_same_cdata fs G [nc]); [apply A|done|]. by intros ->%list_elem_of_singleton.
  - rewrite E2 by done. by apply (alloc_zero fs nc v).
Qed.
Lemma free_chain_safe v c : ftriple (D := D) (H := H) v (fat32_free_chain fs c) (fun _ _ => True).
Proof.
  unfold fat32_free_chain. revert v c. induction (Z.to_nat (cluster_count fs)) as [|g IH]; intros v c; cbn [free_chain_loop];
    (destruct (fat32_is_valid_cluster fs c) eqn:E; cbn [negb]; [|by apply ft_ret]); [by apply ft_ret|]. apply (valid_iff fs G) in E.
  eapply ft_bind; [by apply (fat_get_ok fs G v c)|]. intros r v' (-> & [->|[-> _]]); [|by apply ft_ret].
  eapply ft_bind; [apply (fat_set_ok fs G); [done|unfold FAT32_FREE_MARK; lia]|]. intros w v1 _. destruct (w <? 0); [by apply ft_ret|].
  destruct (fat32_is_chain_end _); [by apply ft_ret|apply IH].
Qed.
Lemma dir_extend_ok v dp c cs : dir_first fs dp = c -> chain (fat v) (c :: cs) -> (forall d, d ∈ c :: cs -> fat v d <> 0) ->
  ftriple (D := D) (H := H) v (fat32_dir_extend fs dp) (fun r v' =>
    match r with Some nc => extended v v' (c :: cs) nc | None => ~ rel \/ (v' = v /\ full fs v) end).
Proof.
  intros Hf Hc Hu. unfold fat32_dir_extend. rewrite Hf. eapply ft_bind; [apply (tail_loop_ok fs G cs); [done|]; pose proof (chain_length fs G _ _ Hc); simpl in *; lia|].
  intros r v' (-> & [->|[-> Hr]]); [|apply ft_ret; by left]. destruct (last (c :: cs)) as [tail|] eqn:El; [|by apply last_None in El].
  apply last_Some in El as [pre Ep]. assert (cl tail) as Ht by (apply (chain_cl fs (fat v) (c :: cs)); [done|rewrite Ep; set_solver]).
  rewrite (proj2 (valid_iff fs G tail) Ht). cbn [negb]. eapply ft_bind; [apply (alloc_cluster_ok fs G)|]. intros [nc|] v1 A.
  2: { apply ft_ret. destruct A as [[-> ?]|?]; [by right|by left]. }
  destruct A as [A _]. pose proof (al_cl _ _ _ _ A) as [? ?]. pose proof (g_count fs G). eapply ft_bind; [apply (fat_set_ok fs G); [done|lia]|].
  intros w v2 [[Hw U]|[Hw Hr]].
  - rewrite (proj2 (Z.ltb_ge _ _) Hw). apply ft_ret. rewrite Ep in *. by apply (extended_intro v v1 v2).
  - rewrite (proj2 (Z.ltb_lt _ _) Hw). eapply ft_bind; [apply free_chain_safe|]. intros ? ? _. apply ft_ret. by left.
Qed.

(** ** Putting an entry *)
Lemma put_here v cs c off e : vol_ok v -> chain (fat v) cs -> (forall d, d ∈ cs -> fat v d <> 0) -> (c, off) ∈ slots cs ->
  free_entry (entry v c off) = true -> length e = 32%nat -> dir_put v (put_at c off e v) cs cs [] c off e.
Proof.
  intros Hv Hc Hu Hs Hf Hl. pose proof (slot_place fs _ _ _ _ Hc Hs) as Pl. pose proof (pl_cl _ _ _ Pl) as Hcc.
  assert (forall d, cl d -> fat (put_at c off e v) d = fat v d) as Ef by (intros; by apply (put_at_fat fs G), Pl).
  apply slots_spec in Hs as Hs'. destruct Hs' as (Hin & _). split; [|..].
  - exists []. split; [by rewrite app_nil_r|]. by intros d []%elem_of_nil.
  - eapply fchain_ext; [|exact Hc]. intros d Hd. apply Ef. by apply (chain_cl fs (fat v) cs).
  - intros d Hd. rewrite Ef by (by apply (chain_cl fs (fat v) cs)). by apply Hu.
  - done.
  - by apply (put_entry_same fs G).
  - done.
  - intros [c' off'] Hs' Hne. apply put_entry_other; try done. by apply (slot_place fs (fat v) cs).
  - done.
  - intros d Hd _ _. by apply Ef.
  - intros d Hd Hn _. apply (put_at_other fs G); [done| |apply Pl]. by intros ->.
  - by intros d []%elem_of_nil.
Qed.
Lemma zero_free a n : free_entry (slice a 32 (replicate n 0)) = true.
Proof.
  unfold free_entry, first_byte, slice. rewrite drop_replicate, take_replicate. by destruct (32 `min` (n - a))%nat.
Qed.
Lemma put_extended v v1 cs nc e : vol_ok v1 -> extended v v1 cs nc -> (forall d, d ∈ cs -> fat v d <> 0) -> length e = 32%nat ->
  dir_put v (put_at nc 0 e v1) cs (cs ++ [nc]) [] nc 0 e.
Proof.
  intros Hv X Hu Hl. assert (nc ∉ cs) as Hni by (intros Hi; by apply (Hu _ Hi), (ex_free _ _ _ _ X)).
  destruct (cluster_bytes_ok fs G) as [_ Hcb]. assert ((nc, 0) ∈ slots (cs ++ [nc])) as Hs by (apply slots_spec; split_and!; (lia || done || set_solver)).
  assert (forall d, d ∈ cs -> cl d) as Hcl by (intros; apply (chain_cl fs (fat v1) (cs ++ [nc])); [apply X|set_solver]).
  pose proof (slot_place fs _ _ _ _ (ex_chain _ _ _ _ X) Hs) as Pl.
  assert (free_entry (entry v1 nc 0) = true) as Hz by (unfold FatData.entry; rewrite (ex_zero _ _ _ _ X); apply zero_free).
  pose proof (put_here v1 (cs ++ [nc]) nc 0 e Hv (ex_chain _ _ _ _ X) (ex_used _ _ _ _ X) Hs Hz Hl) as P. split.
  - exists [nc]. split; [done|]. intros d ->%list_elem_of_singleton. split; apply X.
  - apply P.
  - apply P.
  - done.
  - apply P.
  - intros (? & _)%slots_spec. done.
  - intros [c' off'] Hs' Hne. apply slots_spec in Hs' as Hs''. destruct Hs'' as [Hc' _]. rewrite (dp_old _ _ _ _ _ _ _ _ P); [|rewrite slots_app; set_solver|done].
    unfold FatData.entry. cbn [fst snd]. by rewrite (ex_data _ _ _ _ X) by (by apply Hcl || by intros ->).
  - intros [c' off'] Hs' Hn Hne. rewrite (dp_old _ _ _ _ _ _ _ _ P) by done. rewrite slots_app in Hs'. apply elem_of_app in Hs' as [?|Hs']; [done|].
    apply slots_spec in Hs' as (->%list_elem_of_singleton & _). cbn [fst snd]. unfold FatData.entry. rewrite (ex_zero _ _ _ _ X). apply zero_free.
  - intros d Hd Hn _. rewrite (dp_fat _ _ _ _ _ _ _ _ P) by (done || by intros ?%elem_of_nil). by apply (ex_fat _ _ _ _ X).
  - intros d Hd Hn _. rewrite (dp_data _ _ _ _ _ _ _ _ P) by (done || by intros ?%elem_of_nil). apply (ex_data _ _ _ _ X); [done|set_solver].
  - by intros d []%elem_of_nil.
Qed.
Lemma put_alloc v v1 v' cs cs' n c off e : allocated fs n v v1 -> chain (fat v) cs -> (forall d, d ∈ cs -> fat v d <> 0) ->
  dir_put v1 v' cs cs' [] c off e -> dir_put v v' cs cs' [n] c off e.
Proof.
  intros A Hc Hu P. pose proof (al_cl _ _ _ _ A) as Hn. assert (n ∉ cs) as Hni by (intros Hi; by apply (Hu _ Hi), (al_free _ _ _ _ A)).
  assert (fat v1 n = FAT32_EOF_MARK) as En by (by rewrite (al_fat _ _ _ _ A), decide_True).
  assert (forall d, cl d -> d <> n -> fat v1 d = fat v d) as Ef by (intros; by rewrite (al_fat _ _ _ _ A), decide_False).
  assert (forall d, cl d -> d <> n -> cdata v1 d = cdata v d) as Ed.
  { intros d Hd Hne. apply (data_same_cdata fs G [n]); [apply A|done|]. by intros ->%list_elem_of_singleton. }
  assert (forall s, s ∈ slots cs -> entry v1 s.1 s.2 = entry v s.1 s.2) as Ee.
  { intros [d o] (Hd & _)%slots_spec. unfold FatData.entry. cbn [fst snd]. rewrite Ed; [done|by apply (chain_cl fs (fat v) cs)|by intros ->]. }
  destruct (dp_cs _ _ _ _ _ _ _ _ P) as (new & Ec & Hnew). assert (n ∉ cs') as Hni'.
  { rewrite Ec. intros [?|Hi]%elem_of_app; [done|]. destruct (Hnew _ Hi) as [_ Hz]. rewrite En in Hz. discriminate Hz. }
  split.
  - exists new. split; [done|]. intros d Hd. destruct (Hnew _ Hd) as [Hdc Hz]. split; [done|]. rewrite <- Ef; [done..|]. intros ->. rewrite Ec in Hni'. set_solver.
  - apply P.
  - apply P.
  - apply P.
  - apply P.
  - intros Hs. pose proof (Ee _ Hs) as E. cbn [fst snd] in E. rewrite <- E. by apply (dp_free _ _ _ _ _ _ _ _ P).
  - intros s Hs Hne. rewrite <- Ee by done. by apply (dp_old _ _ _ _ _ _ _ _ P).
  - apply P.
  - intros d Hd Hdn He. rewrite (dp_fat _ _ _ _ _ _ _ _ P) by (done || by intros ?%elem_of_nil). apply Ef; [done|]. set_solver.
  - intros d Hd Hdn He. rewrite (dp_data _ _ _ _ _ _ _ _ P) by (done || by intros ?%elem_of_nil). apply Ed; [done|]. set_solver.
  - intros d ->%list_elem_of_singleton. split_and!; [done|done|apply A|..].
    + by rewrite (dp_fat _ _ _ _ _ _ _ _ P) by (done || by intros ?%elem_of_nil).
    + rewrite (dp_data _ _ _ _ _ _ _ _ P) by (done || by intros ?%elem_of_nil). by apply (alloc_zero fs n v).
Qed.

(** the table and every cluster in use are as before *)
Definition untouched (v v' : vol) : Prop :=
  (forall d, cl d -> fat v' d = fat v d) /\ (forall d, cl d -> fat v d <> 0 -> cdata v' d = cdata v d).
Lemma untouched_refl v : untouched v v.
Proof. by split. Qed.

(** the place an entry goes to *)
Definition ready (v v2 : vol) (cs : list Z) (c off : Z) : Prop :=
  place_ok fs c off /\ exists cs', forall e, length e = 32%nat -> vol_ok v2 -> dir_put v (put_at c off e v2) cs cs' [] c off e.
Lemma find_slot_ok v dp c cs : dir_first fs dp = c -> chain (fat v) (c :: cs) -> (forall d, d ∈ c :: cs -> fat v d <> 0) ->
  ftriple (D := D) (H := H) v (find_slot fs dp) (fun r v2 => match r with Some (c', off) => ready v v2 (c :: cs) c' off | None => ~ rel \/ (v2 = v /\ full fs v) end).
Proof.
  intros Hf Hc Hu. unfold find_slot. eapply ft_bind; [by apply (dir_walk_ok fs G)|]. intros x v' (-> & Hx).
  assert (x.1 <> 1 \/ exists c' off, x = (1, mkSlot c' off true) /\ (c', off) ∈ slots (c :: cs) /\ free_entry (entry v c' off) = true) as [Hx1|(c' & off & -> & Hs & Hfr)].
  { destruct Hx as [->|[-> _]]; [|by left]. rewrite fold_slot. destruct (List.find _ _) as [[c' off]|] eqn:E; [|by left].
    right. exists c', off. apply find_some_in in E as [? ?]. done. }
  - rewrite (proj2 (Z.eqb_neq _ _) Hx1). eapply ft_bind; [by apply (dir_extend_ok v dp c cs)|]. intros [nc|] v2 X; apply ft_ret; simpl; [|done].
    split; [|exists ((c :: cs) ++ [nc]); intros e He Hv2; by apply (put_extended v v2)]. apply (slot_place fs (fat v2) ((c :: cs) ++ [nc])); [apply X|].
    destruct (cluster_bytes_ok fs G) as [_ Hcb]. apply slots_spec. split_and!; (lia || done || set_solver).
  - apply ft_ret. split; [by apply (slot_place fs (fat v) (c :: cs))|]. exists (c :: cs). intros e He Hv2. by apply put_here.
Qed.

(** ** [fat32_dir_add] *)
Definition isdir (mode : Z) : bool := f_type mode F_IFDIR.
(** the clusters allocated for a new directory *)
Definition dir_cluster_of (mode cluster : Z) (ex : list Z) : Prop := if isdir mode then ex = [cluster] else ex = [] /\ cluster = 0.

Lemma undo_safe v (b : bool) c : itriple (D := D) (H := H) v (undo_dir fs b c) (fun r _ => r = None).
Proof.
  unfold undo_dir. eapply it_bind; [|intros ? v' _; by apply it_none]. instantiate (1 := fun _ _ => True).
  destruct b; [|by apply ft_ret]. eapply ft_bind; [apply free_chain_safe|]. intros ? ? _. by apply ft_ret.
Qed.
Lemma undo_alloc v v1 n : allocated fs n v v1 -> itriple (D := D) (H := H) v1 (undo_dir fs true n) (fun r v' => r = None /\ (~ rel \/ untouched v v')).
Proof.
  intros A. pose proof (al_cl _ _ _ _ A) as Hn. assert (chain (fat v1) [n]) as Hc by (split; [done|]; by rewrite (al_fat _ _ _ _ A), decide_True).
  unfold undo_dir. eapply (it_bind _ _ _ (fun _ v' => ~ rel \/ freed fs [n] v1 v')).
  { eapply ft_bind; [by apply (free_chain_ok fs G v1 n [])|]. intros r v' [[_ ?]|[_ ?]]; apply ft_ret; auto. }
  intros _ v' [?|[F1 F2]]; apply it_none; (split; [done|]); [by left|right]. split.
  - intros d Hd. rewrite F1 by done. destruct (decide (d ∈ [n])) as [->%list_elem_of_singleton|Hne]; [by rewrite (al_free _ _ _ _ A)|].
    rewrite (al_fat _ _ _ _ A), decide_False; [done|set_solver|done].
  - intros d Hd Hu. assert (d <> n) as Hne by (intros ->; by apply Hu, (al_free _ _ _ _ A)).
    rewrite (data_same_cdata fs G [] d v1 v' F2) by (done || by intros ?%elem_of_nil). apply (data_same_cdata fs G [n]); [apply A|done|]. by intros ->%list_elem_of_singleton.
Qed.

(** what [fat32_dir_add] leaves when it succeeds *)
Definition named_put (ticks : Z) (v v' : vol) (cs : list Z) (name : list Z) (mode : Z) (i : finode) : Prop :=
  exists dos now cluster cs' ex c off, let e := new_dirent dos name (isdir mode) now cluster in
    fat32_name_to_dos name = Some dos /\ finds v cs dos = None /\ fat32_now ticks = Some now /\ dir_cluster_of mode cluster ex /\
    dir_put v v' cs cs' ex c off e /\ (rel -> inode_of fs v' e c off i).
Lemma add_at_ok ticks v1 v2 cs name dos mode cluster c off : name_ok name -> fat32_name_to_dos name = Some dos ->
  0 <= cluster < 2 ^ 32 -> ready v1 v2 cs c off ->
  itriple (D := D) (H := H) v2 (add_at ticks fs dos name (isdir mode) cluster c off) (fun r v' =>
    match r with
    | Some i => exists now cs', let e := new_dirent dos name (isdir mode) now cluster in
        fat32_now ticks = Some now /\ dir_put v1 v' cs cs' [] c off e /\ (rel -> inode_of fs v' e c off i)
    | None => ~ rel
    end).
Proof.
  intros Hn Hd Hcl [Pl [cs' Hp]]. apply it_vol. intros Hv2. pose proof (to_dos_spec _ _ Hd) as Hds. unfold add_at.
  destruct (now_some ticks) as [now En]. unfold now_at. rewrite En. eapply it_bind; [by apply (ft_ret _ now (fun r v' => r = now /\ v' = v2))|]. intros ? ? [-> ->].
  set (e := new_dirent dos name (isdir mode) now cluster). assert (length e = 32%nat) as Le by (by apply new_length, (dos_length name)).
  eapply it_bind; [apply (dirent_store_ok fs G v2); [done|exact Pl|exact Le|apply (new_bytes dos name _ now cluster); [by apply (dos_length name)|by apply (dos_bytes name)]]|]. cbn [dir_cluster dirent_off].
  intros w v3 [[Hw ->]|[Hw Hr]].
  - rewrite (proj2 (Z.ltb_ge _ _) Hw). intros L s Hh Hs. apply wp_bind.
    eapply wp_conseq; [by apply (inode_create_ok fs G (put_at c off e v2) e c off L)|]. intros [i|] s' (Hh' & v' & Hs' & -> & Hi).
    + apply wp_ret. split; [done|]. eexists. split; [exact Hs'|]. exists now, cs'. cbv zeta. fold e. split_and!; [done|by apply Hp|done].
    + eapply wp_conseq; [by apply (undo_safe (put_at c off e v2) (isdir mode) cluster L)|]. intros r s'' (Hh'' & v'' & Hs'' & ->). split; [done|]. by exists v''.
  - rewrite (proj2 (Z.ltb_lt _ _) Hw). eapply it_conseq; [apply undo_safe|]. by intros ? ? ->.
Qed.

Lemma fdir_add_ok ticks v dir cs name mode : fat_dir fs v dir cs -> (forall d, d ∈ cs -> fat v d <> 0) -> name_ok name ->
  itriple (D := D) (H := H) v (fat32_dir_add ticks fs dir name mode) (fun r v' => ~ rel \/
    match r with
    | Some i => named_put ticks v v' cs name mode i
    | None => untouched v v' /\ match fat32_name_to_dos name with
        | None => True | Some dos => finds v cs dos <> None \/ exists n, forall d, cl d -> d <> n -> fat v d <> 0 end
    end).
Proof.
  intros Fd Hu Hnm. destruct (fd_cons _ _ _ _ Fd) as (c & cs' & -> & Ef & Hc). unfold fat32_dir_add. rewrite (fd_mode _ _ _ _ Fd). cbn [negb].
  pose proof (untouched_refl v) as U0. destruct (fat32_name_to_dos name) as [dos|] eqn:Ed; [|apply it_none; by right].
  eapply it_bind; [by apply (fdir_find_ok fs G v _ dos c cs')|]. intros r v' (-> & Hr).
  assert (~ rel \/ r = (fun s => mkFind dos (entry v s.1 s.2) s.1 s.2 true) <$> finds v (c :: cs') dos) as Hr' by tauto. clear Hr.
  destruct r as [a|].
  { apply it_none. destruct Hr' as [?|E]; [by left|right]. split; [done|]. left. by destruct (finds v (c :: cs') dos). }
  assert (~ rel \/ finds v (c :: cs') dos = None) as Hnone by (destruct Hr' as [?|E]; [by left|right]; by destruct (finds v (c :: cs') dos)). clear Hr'.
  fold (isdir mode). destruct (isdir mode) eqn:Em.
  - eapply it_bind; [apply (alloc_cluster_ok fs G)|]. intros [n|] v1 A.
    2: { apply it_none. destruct A as [[-> Hfull]|?]; [right|by left]. split; [done|]. right. exists 0. intros d Hd _. by apply Hfull. }
    destruct A as [A _]. pose proof (al_cl _ _ _ _ A) as Hn. assert (n ∉ c :: cs') as Hni by (intros Hi; by apply (Hu _ Hi), (al_free _ _ _ _ A)).
    assert (forall d, d ∈ c :: cs' -> fat v1 d = fat v d) as Ef1.
    { intros d Hd. rewrite (al_fat _ _ _ _ A), decide_False; [done|by intros ->|by apply (chain_cl fs (fat v) (c :: cs'))]. }
    eapply it_bind; [apply (find_slot_ok v1 _ c cs' Ef); [by eapply fchain_ext|intros d Hd; rewrite Ef1; auto]|]. intros [[c' off]|] v2 Hsl.
    + eapply it_conseq; [rewrite <- Em; apply (add_at_ok ticks v1 v2 (c :: cs')); [done|done| |exact Hsl]|].
      { destruct Hn. pose proof (g_count fs G). lia. }
      intros [i|] v' Hi; [|by left]. destruct Hnone as [?|Hnone]; [by left|right]. destruct Hi as (now & cs2 & En & P & Hi).
      exists dos, now, n, cs2, [n], c', off. split_and!; try done; [unfold dir_cluster_of; by rewrite Em|by apply (put_alloc v v1)].
    + destruct Hsl as [?|[-> Hfull]]; [eapply it_conseq; [apply undo_safe|]; by left|].
      eapply it_conseq; [by apply (undo_alloc v v1)|]. intros r v' (-> & [?|U]); [by left|right].
      split; [done|]. right. exists n. intros d Hd Hne. specialize (Hfull d Hd). by rewrite (al_fat _ _ _ _ A), decide_False in Hfull.
  - eapply it_bind; [by apply (ft_ret _ (Some 0) (fun r v' => r = Some 0 /\ v' = v))|]. intros ? ? [-> ->].
    eapply it_bind; [by apply (find_slot_ok v _ c cs' Ef)|]. intros [[c' off]|] v2 Hsl.
    + eapply it_conseq; [rewrite <- Em; by apply (add_at_ok ticks v v2 (c :: cs'))|].
      intros [i|] v' Hi; [|by left]. destruct Hnone as [?|Hnone]; [by left|right]. destruct Hi as (now & cs2 & En & P & Hi).
      exists dos, now, 0, cs2, [], c', off. split_and!; try done. unfold dir_cluster_of. by rewrite Em.
    + eapply it_bind; [by apply (ft_ret _ tt (fun _ v' => v' = v2))|]. intros ? ? ->. apply it_none. destruct Hsl as [?|[-> Hfull]]; [by left|right].
      split; [done|]. right. exists 0. intros d Hd _. by apply Hfull.
Qed.
End Add.

(** * Removing *)
Section Cut.
Context {D H : Type} `{DD : BlockDev D} `{HH : Heap H}.
Abbreviation St := (fat_state D H).
Abbreviation rel := (fat_reliable (D := D) (H := H)).
Context (fs : fat32_fs_priv) (G : fgeom fs).
Abbreviation cl := (cl fs).
Abbreviation fat := (fat fs).
Abbreviation cdata := (cdata fs).
Abbreviation entry := (entry fs).
Abbreviation slots := (slots fs).
Abbreviation finds := (finds fs).
Abbreviation chain := (chain fs).

(** the clusters [fcs] of what an entry denotes: none, or the chain from its first cluster *)
Definition file_chain (v : vol) (first : Z) (fcs : list Z) : Prop :=
  (fcs = [] /\ ~ cl first) \/ (head fcs = Some first /\ chain (fat v) fcs).

(** the entry at [(c, off)] is gone and the clusters [fcs] are free *)
Record dir_cut (v v' : vol) (cs fcs : list Z) (c off : Z) : Prop := {
  dc_free : free_entry (entry v' c off) = true;
  dc_old s : s ∈ slots cs -> s <> (c, off) -> entry v' s.1 s.2 = entry v s.1 s.2;
  dc_fat d : cl d -> fat v' d = if decide (d ∈ fcs) then 0 else fat v d;
  dc_chain : chain (fat v') cs;
  dc_data d : cl d -> d ∉ cs -> cdata v' d = cdata v d }.

Lemma free_file_ok v first fcs : file_chain v first fcs ->
  ftriple (D := D) (H := H) v (fat32_free_chain fs first) (fun r v' => (r = 0 /\ freed fs fcs v v') \/ (r < 0 /\ ~ rel)).
Proof.
  intros [[-> Hn]|[Hf Hc]].
  - eapply ft_conseq; [by apply (free_invalid fs G)|]. intros r v' [-> ->]. left. split; [done|]. split; [|by intros ? ? ?].
    intros d _. rewrite decide_False; [done|by intros ?%elem_of_nil].
  - destruct fcs as [|c fcs]; [done|]. injection Hf as ->. by apply (free_chain_ok fs G).
Qed.
Lemma cut_intro v v1 cs fcs c off : vol_ok v1 -> chain (fat v) cs -> cs ## fcs -> (c, off) ∈ slots cs -> freed fs fcs v v1 ->
  length (entry v c off) = 32%nat -> dir_cut v (put_at fs c off (erase (entry v c off)) v1) cs fcs c off.
Proof.
  intros Hv1 Hc Hd Hs [F1 F2] Hl. pose proof (slot_place fs _ _ _ _ Hc Hs) as Pl. pose proof (pl_cl _ _ _ Pl) as Hcc.
  assert (forall d, cl d -> cdata v1 d = cdata v d) as E1 by (intros d Hdc; apply (data_same_cdata fs G []); [done|done|by intros ?%elem_of_nil]).
  assert (length (erase (entry v c off)) = 32%nat) as Le by (by apply erase_length).
  assert (forall d, cl d -> fat (put_at fs c off (erase (entry v c off)) v1) d = fat v1 d) as Ef by (intros; by apply (put_at_fat fs G), Pl). split.
  - rewrite (put_entry_same fs G) by done. by apply erase_free.
  - intros [c' off'] Hs' Hne. pose proof (slot_place fs _ _ _ _ Hc Hs') as Pl'. rewrite (put_entry_other fs G) by done. unfold FatData.entry. by rewrite E1 by apply Pl'.
  - intros d Hdc. rewrite Ef by done. by apply F1.
  - eapply fchain_ext; [|exact Hc]. intros d Hi. pose proof (chain_cl fs _ _ d Hc Hi) as Hdc. rewrite Ef, F1 by done. rewrite decide_False; [done|]. set_solver.
  - intros d Hdc Hn. rewrite (put_at_other fs G); [by apply E1|done| |apply Pl]. intros ->. apply slots_spec in Hs as [? _]. done.
Qed.
Lemma remove_ok v v1 cs fcs c off dos : vol_ok v -> chain (fat v) cs -> cs ## fcs -> (c, off) ∈ slots cs -> freed fs fcs v v1 ->
  ftriple (D := D) (H := H) v1 (remove_found fs (mkFind dos (entry v c off) c off true)) (fun r v' => (r = 0 /\ dir_cut v v' cs fcs c off) \/ ~ rel).
Proof.
  intros Hv Hc Hd Hs Hf. pose proof (slot_place fs _ _ _ _ Hc Hs) as Pl. destruct (entry_len fs G v c off Hv Pl) as [Le Be].
  apply ft_vol. intros Hv1. unfold remove_found. cbn [fa_cluster fa_off fa_e].
  eapply ft_bind; [apply (dirent_store_ok fs G v1); [done|exact Pl|by apply erase_length|by apply erase_bytes]|]. cbn [dir_cluster dirent_off].
  intros w v' [[Hw ->]|[Hw Hr]]; apply ft_ret; [left|by right]. rewrite (proj2 (Z.ltb_ge _ _) Hw). split; [done|]. by apply cut_intro.
Qed.

(** ** [fat32_unlink] and [fat32_rmdir] *)
(** the clusters of the entries of a directory are not those of the directory *)
Definition apart (v : vol) (cs : list Z) (s : Z * Z) (fcs : list Z) : Prop :=
  file_chain v (dirent_first (entry v s.1 s.2)) fcs /\ cs ## fcs.
Section Remove.
Context (v : vol) (dir : finode) (cs : list Z) (name dos : list Z) (fcs : list Z).
Context (Fd : fat_dir fs v dir cs) (Hdos : fat32_name_to_dos name = Some dos) (Hap : forall s, finds v cs dos = Some s -> apart v cs s fcs).

Lemma funlink_ok : ftriple (D := D) (H := H) v (fat32_unlink fs dir name) (fun r v' => ~ rel \/
  match finds v cs dos with
  | Some (c, off) => if is_dir (entry v c off) then r = -1 /\ v' = v else r = 0 /\ dir_cut v v' cs fcs c off
  | None => r = -1 /\ v' = v
  end).
Proof.
  apply ft_vol. intros Hv. destruct (fd_cons _ _ _ _ Fd) as (c0 & cs' & Ecs & Ef & Hc). unfold fat32_unlink. rewrite (fd_mode _ _ _ _ Fd), Hdos. cbn [negb].
  eapply ft_bind; [by apply (fdir_find_ok fs G v _ dos c0 cs')|]. rewrite <- Ecs in *. intros r v' (-> & [->|[-> Hr]]); [|apply ft_ret; by left].
  destruct (finds v cs dos) as [[c off]|] eqn:Efi; simpl; [|apply ft_ret; by right]. fold (is_dir (entry v c off)).
  destruct (is_dir (entry v c off)); [apply ft_ret; by right|]. destruct (Hap _ eq_refl) as [Hfc Hdis]. cbn [fst snd] in Hfc.
  eapply ft_bind; [by apply (free_file_ok v _ fcs)|]. intros r v1 [[-> Hfr]|[Hr Hn]]; [|rewrite (proj2 (Z.ltb_lt _ _) Hr); apply ft_ret; by left].
  cbn [Z.ltb Z.compare]. apply find_some_in in Efi as [Hs _]. eapply ft_conseq; [by apply (remove_ok v v1 cs fcs c off dos)|]. intros r v' [?|?]; [by right|by left].
Qed.
Lemma frmdir_ok : ftriple (D := D) (H := H) v (fat32_rmdir fs dir name) (fun r v' => ~ rel \/
  match finds v cs dos with
  | Some (c, off) =>
      let e := entry v c off in
      if negb (is_dir e) || (dirent_first e =? 0) || existsb (at_ fs v live_entry) (slots fcs) then r = -1 /\ v' = v
      else r = 0 /\ dir_cut v v' cs fcs c off
  | None => r = -1 /\ v' = v
  end).
Proof.
  apply ft_vol. intros Hv. destruct (fd_cons _ _ _ _ Fd) as (c0 & cs' & Ecs & Ef & Hc). unfold fat32_rmdir. rewrite (fd_mode _ _ _ _ Fd), Hdos. cbn [negb].
  eapply ft_bind; [by apply (fdir_find_ok fs G v _ dos c0 cs')|]. rewrite <- Ecs in *. intros r v' (-> & [->|[-> Hr]]); [|apply ft_ret; by left].
  destruct (finds v cs dos) as [[c off]|] eqn:Efi; simpl; [|apply ft_ret; by right]. unfold is_dir.
  destruct (Z.land (dir_attr (entry v c off)) FAT32_ATTR_DIRECTORY =? 0); cbn [negb orb]; [apply ft_ret; by right|].
  destruct (dirent_first (entry v c off) =? 0); cbn [orb]; [apply ft_ret; by right|]. destruct (Hap _ eq_refl) as [Hfc Hdis]. cbn [fst snd] in Hfc.
  eapply (ft_bind _ _ _ (fun x v' => v' = v /\ (x = wfold fs fat32_cb_empty v (slots fcs) false \/ (x.1 = -1 /\ ~ rel)))).
  { destruct Hfc as [[-> Hn]|[Hh Hfc]].
    - unfold fat32_dir_walk. apply ft_with_buf; [apply (bps_ok fs G)|by auto|].
      assert (fat32_is_valid_cluster fs (dirent_first (entry v c off)) = false) as Ev.
      { destruct (fat32_is_valid_cluster fs _) eqn:Ev; [|done]. by apply (valid_iff fs G) in Ev. }
      destruct (Z.to_nat (cluster_count fs)); cbn [walk_clusters]; change (dir_first fs _) with (dirent_first (entry v c off)); rewrite Ev; apply ft_ret; auto.
    - destruct fcs as [|f fcs']; [done|]. injection Hh as ->. by apply (dir_walk_ok fs G). }
  intros x v1 (-> & [->|[Ex Hr]]); [|rewrite Ex; apply ft_ret; by left]. rewrite fold_empty.
  destruct (existsb _ _); cbn [fst snd Z.ltb Z.compare]; [apply ft_ret; by right|].
  eapply ft_bind; [by apply (free_file_ok v _ fcs)|]. intros r v1 [[-> Hfr]|[Hr Hn]]; [|rewrite (proj2 (Z.ltb_lt _ _) Hr); apply ft_ret; by left].
  cbn [Z.ltb Z.compare]. apply find_some_in in Efi as [Hs _]. eapply ft_conseq; [by apply (remove_ok v v1 cs fcs c off dos)|]. intros r v' [?|?]; [by right|by left].
Qed.
End Remove.

(** ** The names of a directory *)
Definition names_unique (v : vol) (cs : list Z) : Prop :=
  forall dos s s', s ∈ slots cs -> s' ∈ slots cs -> is_named dos (entry v s.1 s.2) = true -> is_named dos (entry v s'.1 s'.2) = true -> s = s'.
Lemma put_unique v v' cs cs' ex c off e dos : dir_put fs v v' cs cs' ex c off e -> is_named dos e = true -> finds v cs dos = None ->
  names_unique v cs -> names_unique v' cs'.
Proof.
  intros P Hn Hf Hu dos' s s' Hs Hs' H1 H2.
  assert (forall s, s ∈ slots cs' -> s <> (c, off) -> is_named dos' (entry v' s.1 s.2) = true -> dos' <> dos) as Hne.
  { intros x Hx Hxn Hxx ->. destruct (put_named_old fs v v' cs cs' ex c off e P x dos Hx Hxn Hxx) as [Hi Ho].
    unfold FatLookup.finds in Hf. rewrite find_none_all in Hf. specialize (Hf x Hi). unfold at_ in Hf. congruence. }
  assert (is_named dos' (entry v' c off) = true -> dos' = dos) as Heq.
  { rewrite (dp_entry _ _ _ _ _ _ _ _ _ P). intros E%named_name. apply named_name in Hn. congruence. }
  destruct (decide (s = (c, off))) as [->|Hsn], (decide (s' = (c, off))) as [->|Hsn']; [done|..].
  - exfalso. by apply (Hne s'); [..|apply Heq].
  - exfalso. by apply (Hne s); [..|apply Heq].
  - destruct (put_named_old fs v v' cs cs' ex c off e P s dos' Hs Hsn H1), (put_named_old fs v v' cs cs' ex c off e P s' dos' Hs' Hsn' H2). by apply (Hu dos').
Qed.
Section Names.
Context (v v' : vol) (cs fcs : list Z) (c off : Z) (C : dir_cut v v' cs fcs c off).
Lemma cut_named s dos : s ∈ slots cs -> is_named dos (entry v' s.1 s.2) = true -> s <> (c, off) /\ is_named dos (entry v s.1 s.2) = true.
Proof.
  intros Hs Hn. destruct (decide (s = (c, off))) as [->|Hne].
  - cbn [fst snd] in Hn. by rewrite free_not_named in Hn by apply C.
  - split; [done|]. by rewrite <- (dc_old _ _ _ _ _ _ C).
Qed.
Lemma cut_unique : names_unique v cs -> names_unique v' cs.
Proof. intros Hu dos s s' Hs Hs' [_ H1]%cut_named [_ H2]%cut_named; [|done..]. by apply (Hu dos). Qed.
Lemma cut_finds dos : names_unique v cs -> finds v cs dos = Some (c, off) -> finds v' cs dos = None.
Proof.
  intros Hu [Hs Hn]%find_some_in. apply find_none_all. intros s Hi. unfold at_. destruct (is_named dos (entry v' s.1 s.2)) eqn:E; [|done].
  apply cut_named in E as [Hne E]; [|done]. exfalso. apply Hne. by apply (Hu dos).
Qed.
Lemma cut_finds_other dos dos' : finds v cs dos = Some (c, off) -> dos' <> dos -> finds v' cs dos' = finds v cs dos'.
Proof.
  intros [Hs Hn]%find_some_in Hne. apply find_ext. intros s Hi. unfold at_. destruct (decide (s = (c, off))) as [->|Hd]; [|by rewrite (dc_old _ _ _ _ _ _ C)].
  cbn [fst snd]. rewrite free_not_named by apply C. unfold at_ in Hn. cbn [fst snd] in Hn. symmetry. apply not_true_is_false. intros E%named_name. apply named_name in Hn. congruence.
Qed.
End Names.
End Cut.
