(* ===== verification/FatTheorems.v ===== *)
(** The theorems about FAT32: reading and writing files, allocating clusters,
    creating, looking up, listing and removing names, and time stamps. *)
From stdpp Require Import base gmap list.
From Stdlib Require Import ZArith Lia.
From S2P Require Import Prelude Bytes HashMap BlockDev Fat FatDir FatFile FatTable FatRead FatWrite FatEntry FatData FatLookup FatAdd Strict FatStrict.
Open Scope Z_scope.

(** [C30] A time from 1980 on survives the two-field format of a directory entry,
    to the even second below. *)
Theorem fat_time_roundtrip t : 315532800 <= t < 2 ^ 32 ->
  exists ft, fat32_unix_to_fat t = Some ft /\ fat32_fat_to_unix ft = t - t mod 2.
Proof. apply time_there_and_back. Qed.
Lemma fat_time_roundtrip_witness : 315532800 <= 1700000001 < 2 ^ 32 /\
  exists ft, fat32_unix_to_fat 1700000001 = Some ft /\ fat32_fat_to_unix ft = 1700000001 - 1700000001 mod 2.
Proof. split; [lia|apply fat_time_roundtrip; lia]. Defined.

(** [C31] The name that is listed for an accepted name denotes the same directory
    entry, whatever its case flags; the case itself is kept when the name has an
    extension and neither part mixes cases. *)
Theorem fat_names_roundtrip name dos : name_ok name -> fat32_name_to_dos name = Some dos ->
  (forall nt, fat32_name_to_dos (fat32_dos_to_name dos nt) = Some dos) /\
  (forall b x, name = b ++ 46 :: x -> x <> [] -> one_case b -> one_case x -> fat32_dos_to_name dos (nt_flags name) = name).
Proof.
  intros Hn Hd. split; [intros nt; by apply (listed_name_found name)|]. intros b x -> Hx Cb Cx. by apply name_case_kept.
Qed.
(** "Readme.txt" *)
Definition demo_name : list Z := [82; 101; 97; 100; 109; 101; 46; 116; 120; 116].
Lemma fat_names_roundtrip_witness : exists dos, fat32_name_to_dos demo_name = Some dos /\
  forall nt, fat32_name_to_dos (fat32_dos_to_name dos nt) = Some dos.
Proof.
  eexists. split; [vm_compute; reflexivity|]. apply (fat_names_roundtrip demo_name); [|vm_compute; reflexivity].
  unfold name_ok, demo_name. repeat constructor; lia.
Defined.

Section Theorems.
Context {D H : Type} `{DD : BlockDev D} `{HH : Heap H}.
Abbreviation St := (fat_state D H).
Abbreviation rel := (fat_reliable (D := D) (H := H)).
Context (fs : fat32_fs_priv) (G : fgeom fs).
Abbreviation cl := (cl fs).
Abbreviation fat := (fat fs).
Abbreviation csize := (csize fs).
Abbreviation fcontents := (fcontents fs).
Abbreviation entry := (entry fs).
Abbreviation slots := (slots fs).
Abbreviation finds := (finds fs).

(** ** Files *)

(** The first byte to write lies right behind the last cluster of the file:
    writing starts at the position, or at the end of a shorter file. *)
Definition behind_last (i : finode) (cs : list Z) (pos : Z) : bool :=
  negb (bool_decide (cs = [])) && (Z.of_nat (length cs) <=? Z.min pos (fi_size i) / Z.of_nat csize).
Definition write_post (v v' : vol) (i i' : finode) (cs : list Z) (pos : Z) (buf : list Z) : Prop :=
  exists cs', if behind_last i cs pos then restarted fs pos buf v v' i i' cs cs' else written fs pos buf v v' i i' cs cs'.

Lemma write_data_body (P : vol -> finode -> Prop) ticks v i pos buf L (s : St) :
  ftriple (D := D) (H := H) v (write_body ticks fs i pos buf) (fun x v' =>
    ~ rel \/ match x with (true, i') => P v' i' | (false, _) => full fs v' end) ->
  heap_inv (fat_heap s) L -> shows s v -> rel ->
  wp (fat32_write_data ticks fs i pos buf) (fun r s' => exists v', shows s' v' /\
    match r with
    | (Some n, i') => n = Z.of_nat (length buf) /\ (exists a, (a ∉ L) /\ heap_inv (fat_heap s') ({[a]} ∪ L)) /\ P v' i'
    | (None, _) => heap_inv (fat_heap s') L /\ full fs v'
    end) s.
Proof.
  intros W Hh Hs Hr. unfold fat32_write_data. apply wp_bind. eapply wp_conseq; [apply (falloc_ok L s _ Hh), (bps_ok fs G)|].
  intros a s1 (Ed & [(Ha & HaL & I1)|(-> & I1 & ?)]); [|done]. rewrite (proj2 (Z.eqb_neq _ _) Ha). apply wp_bind.
  eapply wp_conseq; [apply (W _ s1 I1); intros x; by rewrite Ed|]. intros [[|] i'] s2 (I2 & v' & Hs2 & [?|HR]); cbn [fst snd]; try done.
  - apply wp_ret. exists v'. split; [done|]. split; [done|]. split; [by exists a|done].
  - apply wp_bind. eapply wp_conseq; [by apply (ffree_ok L)|]. intros [] s3 [Ed3 I3]. apply wp_ret. exists v'. split; [intros x; by rewrite Ed3|done].
Qed.

Lemma write_body_post ticks v i cs pos buf : fat_file fs v i cs -> (forall c, c ∈ cs -> fat v c <> 0) -> entry_ok fs v (fi_private i) cs ->
  0 <= pos -> bytes_ok buf -> buf <> [] -> pos + Z.of_nat (length buf) < 2 ^ 32 ->
  ftriple (D := D) (H := H) v (write_body ticks fs i pos buf) (fun x v' =>
    ~ rel \/ match x with (true, i') => write_post v v' i i' cs pos buf | (false, _) => full fs v' end).
Proof.
  intros Hff Hu He Hp Hb Hne Hm. unfold write_post. destruct (behind_last i cs pos) eqn:E.
  - apply andb_true_iff in E as [E1 E2]. apply negb_true_iff, bool_decide_eq_false in E1. apply Z.leb_le in E2.
    destruct (cluster_bytes_ok fs G) as [_ Hcb]. pose proof (ff_size _ _ _ _ Hff) as Hs.
    assert (Z.of_nat (length cs) * Z.of_nat csize <= Z.min pos (fi_size i)) as Hle.
    { etrans; [by apply Z.mul_le_mono_nonneg_r; [lia|exact E2]|]. rewrite Z.mul_comm. apply Z.mul_div_le. lia. }
    apply (restart_body_ok fs G); (done || lia).
  - apply (write_body_ok fs G); try done. apply andb_false_iff in E as [E|E]; [left|right; by apply Z.leb_gt].
    by apply negb_false_iff, bool_decide_eq_true in E.
Qed.

Lemma slice_contents_after pos buf old : 0 <= pos -> slice (Z.to_nat pos) (length buf) (contents_after pos buf old) = buf.
Proof.
  intros Hp. unfold contents_after. apply slice_splice_same. rewrite length_app, length_replicate. lia.
Qed.

(** a write, and the range read back *)
Definition write_then_read ticks (i : finode) (pos : Z) (buf : list Z) : M St (option (option (list Z))) :=
  let* x := fat32_write_data ticks fs i pos buf in
  match x with
  | (Some n, i') => let* r := fat32_read_data fs i' pos n in mret (Some r)
  | (None, _) => mret None
  end.
Lemma write_then_read_ok ticks v i cs pos buf L (s : St) :
  fat_file fs v i cs -> (forall c, c ∈ cs -> fat v c <> 0) -> entry_ok fs v (fi_private i) cs ->
  0 <= pos -> bytes_ok buf -> buf <> [] -> pos + Z.of_nat (length buf) < 2 ^ 32 -> behind_last i cs pos = false ->
  heap_inv (fat_heap s) L -> shows s v -> rel ->
  wp (write_then_read ticks i pos buf) (fun r s' => match r with
    | Some r => r = Some buf
    | None => exists v', shows s' v' /\ full fs v'
    end) s.
Proof.
  intros Hff Hu He Hp Hb Hne Hm Hl Hh Hs Hr. unfold write_then_read. apply wp_bind.
  eapply wp_conseq; [by eapply write_data_body; [apply write_body_post|..]|].
  intros [[n|] i'] s' (v' & Hs' & Hpost); [|apply wp_ret; exists v'; tauto].
  destruct Hpost as (-> & (a & Ha & I') & cs' & W). rewrite Hl in W. apply wp_bind.
  eapply wp_conseq; [apply (fread_data_ok fs G v' i' cs' pos (Z.of_nat (length buf)) (wr_file _ _ _ _ _ _ _ _ _ W) Hp ltac:(lia) _ s' I' Hs')|].
  intros r s2 (_ & v2 & _ & -> & [->|[_ ?]]); [|done]. apply wp_ret. f_equal.
  rewrite (wr_bytes _ _ _ _ _ _ _ _ _ W), Nat2Z.id. by apply slice_contents_after.
Qed.

(** [fat32_alloc_cluster] takes the free cluster with the least number, marks
    it as the end of a chain, clears it and changes nothing else; it fails only
    when no cluster is free. *)
Lemma alloc_first_fit_rel v : rel -> ftriple (D := D) (H := H) v (fat32_alloc_cluster fs) (fun r v' =>
  match r with
  | Some c => allocated fs c v v' /\ forall c', 2 <= c' < c -> fat v c' <> 0
  | None => v' = v /\ full fs v
  end).
Proof.
  intros Hr. eapply ft_conseq; [apply (alloc_cluster_ok fs G)|]. intros [c|] v' A; [done|]. by destruct A as [?|?].
Qed.

(** [fat32_free_chain] frees exactly the clusters of the chain and leaves every
    sector outside of the table as it is. *)
Lemma free_exact_rel v c cs : chain fs (fat v) (c :: cs) -> rel ->
  ftriple (D := D) (H := H) v (fat32_free_chain fs c) (fun r v' => r = 0 /\ freed fs (c :: cs) v v').
Proof.
  intros Hc Hr. eapply ft_conseq; [by apply (free_chain_ok fs G)|]. intros r v' [?|[_ ?]]; done.
Qed.

(** *** On a device and a heap that do not fail

    [fat32_truncate] sets the size in the inode and in the directory entry,
    keeps the clusters the new size needs, frees exactly the others and appends
    zeroed free ones: a shorter file keeps its first bytes, a longer one all of
    its clusters.  It fails only when the volume is full. *)
Lemma truncate_correct_rel ticks v i cs size : fat_file fs v i cs -> (forall c, c ∈ cs -> fat v c <> 0) -> entry_ok fs v (fi_private i) cs ->
  f_type (fi_mode i) F_IFREG = true -> 0 <= size < 2 ^ 32 -> rel ->
  ftriple (D := D) (H := H) v (fat32_truncate ticks fs i size) (fun x v' =>
    match x with
    | (r, i') => (0 <= r /\ exists cs' new, truncated fs size v v' i i' cs cs' new /\
          (size <= fi_size i -> new = [] /\ fcontents v' i' cs' = take (Z.to_nat size) (fcontents v i cs))) \/
        (r = -1 /\ i' = i /\ full fs v')
    end).
Proof.
  intros Hff Hu He Hm Hs Hr. eapply ft_conseq; [by apply (ftruncate_ok fs G Hr v i cs size Hff Hu He Hs ticks)|].
  intros [r i'] v' [[? (cs' & new & T)]|?]; [left|by right]. split; [done|]. exists cs', new. split; [done|]. by apply (shrunk_bytes fs G).
Qed.

(** Mounting and unmounting gives back the memory and leaves the volume as it
    is; mounting fails only for a boot sector that does not pass the checks. *)
Lemma mount_umount_rel v L (s : St) : boot_ok (v 0) -> heap_inv (fat_heap s) L -> shows s v -> rel ->
  wp (let* r := fat32_get_super in
      match r with Some sb => fat32_kill_sb sb ;;; mret (Some (fsb_priv sb)) | None => mret None end)
    (fun r s' => r = parse_bpb (v 0) /\ heap_inv (fat_heap s') L /\ shows s' v) s.
Proof.
  intros Hb Hh Hs Hr. apply wp_bind. eapply wp_conseq; [by apply (get_super_ok v L s)|]. intros [sb|] s1 [Hs1 Hx].
  - destruct Hx as [Ep Hm]. apply wp_bind. eapply wp_conseq; [by apply (kill_sb_ok L)|]. intros [] s2 [E2 I2]. apply wp_ret.
    split; [by rewrite Ep|]. split; [done|]. intros x. rewrite E2. apply Hs1.
  - destruct Hx as [[->|?] ?]; [|done]. by apply wp_ret.
Qed.

(** ** Names *)

(** [fat32_lookup] finds exactly what the directory holds: the inode of the
    first live entry with the name, or nothing when there is none. *)
Lemma lookup_exact_rel v dir cs name : fat_dir fs v dir cs -> rel ->
  itriple (D := D) (H := H) v (fat32_lookup fs dir name) (fun r v' => v' = v /\
    match r, lookup_name fs v cs name with
    | Some i, Some (c, off) => inode_of fs v (entry v c off) c off i
    | None, None => True
    | _, _ => False
    end).
Proof.
  intros Fd Hr. eapply it_conseq; [by apply (flookup_ok fs G)|]. intros r v' [-> Hl]. split; [done|]. destruct r, (lookup_name fs v cs name) as [[]|]; try done. by apply Hl.
Qed.

(** the state a successful creation leaves, as its callers see it *)
Record created (v v' : vol) (cs : list Z) (name : list Z) (mode : Z) (i : finode) (cs' : list Z) : Prop := {
  cr_dir dir : fat_dir fs v dir cs -> fat_dir fs v' dir cs';
  cr_found : exists c off, lookup_name fs v' cs' name = Some (c, off) /\ inode_of fs v' (entry v' c off) c off i;
  cr_empty : exists c off, lookup_name fs v' cs' name = Some (c, off) /\ dir_file_size (entry v' c off) = 0 /\ is_dir (entry v' c off) = isdir mode;
  cr_others dos : Some dos <> fat32_name_to_dos name -> finds v' cs' dos = finds v cs dos;
  cr_unique : names_unique fs v cs -> names_unique fs v' cs' }.
Lemma not_dots name dos : fat32_name_to_dos name = Some dos -> bool_decide (name = [46]) || bool_decide (name = [46; 46]) = false.
Proof. intros E. apply orb_false_iff. split; apply bool_decide_eq_false; intros ->; vm_compute in E; discriminate E. Qed.
Lemma named_put_created ticks v v' cs name mode i : name_ok name -> default 0 (name !! 0%nat) <> 0xE5 -> cs <> [] ->
  rel -> named_put (D := D) (H := H) fs ticks v v' cs name mode i -> exists cs', created v v' cs name mode i cs'.
Proof.
  intros Hn H5 Hne Hr (dos & now & cluster & cs' & ex & c & off & Hd & Hf & En & Hex & P & Hi). exists cs'.
  pose proof (to_dos_spec _ _ Hd) as Hds. destruct (dos_first _ _ Hds Hn) as (E1 & E2 & E3).
  set (e := new_dirent dos name (isdir mode) now cluster) in *. pose proof (dos_length _ _ Hds) as Ld.
  assert (0 < default 0 (name !! 0%nat) < 256) as Hb0.
  { destruct name as [|x name]; [done|]. by apply Forall_cons in Hn as [? _]. }
  destruct (char_ok_not _ E2) as (_ & H46 & _). destruct (upper_ok _ Hb0) as (B1 & B2 & _ & B4).
  assert (is_named dos e = true) as Hnm by (apply new_live; [done|rewrite E1; lia|rewrite E1; auto|rewrite E1; auto]).
  assert (lookup_name fs v' cs' name = Some (c, off)) as El.
  { unfold lookup_name. rewrite (not_dots _ _ Hd), Hd. by apply (put_finds fs v v' cs cs' ex c off e dos P). }
  pose proof (dp_entry _ _ _ _ _ _ _ _ _ P) as Ee. destruct (dp_cs _ _ _ _ _ _ _ _ _ P) as (new & Ecs & _). split.
  - intros dir [F1 F2 F3]. split; [done|apply P|]. rewrite Ecs. by destruct cs.
  - exists c, off. split; [done|]. rewrite Ee. by apply Hi.
  - exists c, off. split; [done|]. rewrite Ee. split; [by apply new_size|]. unfold is_dir, e. rewrite new_attr by done. by destruct (isdir mode).
  - intros dos' Hne'. apply (put_finds_other fs G v v' cs cs' ex c off e dos P Hnm). intros ->. by apply Hne'.
  - apply (put_unique fs v v' cs cs' ex c off e dos P Hnm Hf).
Qed.

(** A file or directory that [fat32_dir_add] creates is found by name as the
    empty inode returned, every other name denotes what it denoted, and names
    stay distinct; it fails, with the volume as before, only for a name that is
    malformed or taken, or with at most one free cluster left. *)
Lemma create_found_rel ticks v dir cs name mode : fat_dir fs v dir cs -> (forall d, d ∈ cs -> fat v d <> 0) -> name_ok name ->
  default 0 (name !! 0%nat) <> 0xE5 -> rel ->
  itriple (D := D) (H := H) v (fat32_dir_add ticks fs dir name mode) (fun r v' =>
    match r with
    | Some i => exists cs', created v v' cs name mode i cs'
    | None => untouched fs v v' /\ match fat32_name_to_dos name with
        | None => True | Some dos => finds v cs dos <> None \/ exists n, forall d, cl d -> d <> n -> fat v d <> 0 end
    end).
Proof.
  intros Fd Hu Hn H5 Hr. eapply it_conseq; [by apply (fdir_add_ok fs G ticks)|]. intros [i|] v' [?|HR]; try done.
  eapply named_put_created; try done. pose proof (fd_first _ _ _ _ Fd) as Hh. by destruct cs.
Qed.

(** [fat32_unlink] and [fat32_rmdir] remove exactly the named entry, of the
    right type and, for a directory, without live entries of its own, free exactly
    its clusters, and leave every other name and cluster as they are. *)
Lemma remove_exact_rel v dir cs name dos fcs : fat_dir fs v dir cs -> fat32_name_to_dos name = Some dos -> names_unique fs v cs ->
  (forall s, finds v cs dos = Some s -> apart fs v cs s fcs) -> rel ->
  let gone v' := names_unique fs v' cs /\ finds v' cs dos = None /\ (forall dos', dos' <> dos -> finds v' cs dos' = finds v cs dos') /\
    exists s, finds v cs dos = Some s /\ dir_cut fs v v' cs fcs s.1 s.2 in
  ftriple (D := D) (H := H) v (fat32_unlink fs dir name) (fun r v' =>
    (r = 0 /\ gone v') \/ (r = -1 /\ v' = v /\ forall s, finds v cs dos = Some s -> is_dir (entry v s.1 s.2) = true)) /\
  ftriple (D := D) (H := H) v (fat32_rmdir fs dir name) (fun r v' =>
    (r = 0 /\ gone v') \/ (r = -1 /\ v' = v /\ forall s, finds v cs dos = Some s ->
      is_dir (entry v s.1 s.2) = false \/ dirent_first (entry v s.1 s.2) = 0 \/ existsb (at_ fs v live_entry) (slots fcs) = true)).
Proof.
  intros Fd Hd Hun Hap Hr gone.
  assert (forall v' c off, finds v cs dos = Some (c, off) -> dir_cut fs v v' cs fcs c off -> gone v') as Hgone.
  { intros v' c off Hs C. split_and!; [by apply (cut_unique fs v v' cs fcs c off)|by apply (cut_finds fs v v' cs fcs c off C)| |by exists (c, off)].
    intros dos' Hne. by apply (cut_finds_other fs v v' cs fcs c off C dos). }
  split.
  - eapply ft_conseq; [by apply (funlink_ok fs G v dir cs name dos fcs)|]. intros r v' [?|Hpost]; [done|].
    destruct (finds v cs dos) as [[c off]|] eqn:Ef.
    + destruct (is_dir (entry v c off)) eqn:Ed; [right|left]; destruct Hpost as [-> Hp]; [|split; [done|by apply (Hgone v' c off)]].
      split_and!; [done|done|]. by intros s [= <-].
    + right. destruct Hpost as [-> ->]. done.
  - eapply ft_conseq; [by apply (frmdir_ok fs G v dir cs name dos fcs)|]. intros r v' [?|Hpost]; [done|].
    destruct (finds v cs dos) as [[c off]|] eqn:Ef; [|right; destruct Hpost as [-> ->]; done]. cbv zeta in Hpost.
    destruct (_ || _) eqn:Eo; destruct Hpost as [-> Hp]; [right|left; split; [done|by apply (Hgone v' c off)]].
    split_and!; [done|done|]. intros s [= <-]. cbn [fst snd]. rewrite !orb_true_iff, negb_true_iff, Z.eqb_eq in Eo. tauto.
Qed.

(** Each call of [fat32_readdir] reports the next live entry and moves the
    offset behind it, so that calls from offset 0 on list every live entry once,
    in order, and then nothing. *)
Lemma readdir_lists_rel v dir cs j : fat_dir fs v dir cs -> rel ->
  ftriple (D := D) (H := H) v (fat32_readdir fs dir (32 * Z.of_nat j)) (fun r v' => v' = v /\
    match lives fs v (slots cs) j with
    | [] => r.2 = None
    | s :: rest => exists m, r = (32 * Z.of_nat (S m), Some (listed fs v s)) /\ lives fs v (slots cs) (S m) = rest
    end).
Proof. intros Fd Hr. eapply ft_conseq; [by apply (freaddir_ok fs G)|]. intros r v' [-> [?|?]]; done. Qed.
End Theorems.

(** * Clean runs

    [ctriple v m R]: in a run of [m] from a state that shows the volume [v] in
    which no transfer and no allocation fails, [m] gives back the memory it
    takes and ends with [R] of its result and the volume. *)
Section CleanRuns.
Context {D H : Type} `{DD : BlockDev D} `{HH : Heap H}.
Abbreviation St := (fat_state D H).
Context (fs : fat32_fs_priv) (G : fgeom fs).
Abbreviation cl := (cl fs).
Abbreviation fat := (fat fs).
Abbreviation csize := (csize fs).
Abbreviation fcontents := (fcontents fs).
Abbreviation entry := (entry fs).
Abbreviation slots := (slots fs).
Abbreviation finds := (finds fs).
Abbreviation SD := (strict_dev DD).
Abbreviation SH := (strict_heap HH).

(** [C6] [fat32_write_data], in a run where no transfer and no allocation fails,
    replaces exactly the bytes it is given (zeros up to a position beyond the
    end), extends the chain by free clusters only and touches no other cluster
    but that of the directory entry; it fails only when the volume is full.  If
    writing starts right behind the last cluster of the file, the file is instead
    started over in new clusters that hold only what was written, while the old
    ones stay allocated and nothing but the directory entry names them.  In both
    cases the first cluster in the entry stays the old one, and the scratch
    buffer stays allocated after a success. *)
Theorem fat_write_correct ticks v i cs pos buf L (s : St) :
  fat_file fs v i cs -> (forall c, c ∈ cs -> fat v c <> 0) -> entry_ok fs v (fi_private i) cs ->
  0 <= pos -> bytes_ok buf -> buf <> [] -> pos + Z.of_nat (length buf) < 2 ^ 32 ->
  heap_inv (fat_heap s) L -> shows s v -> clean (fun DD HH => fat32_write_data (DD := DD) (HH := HH) ticks fs i pos buf) s ->
  wp (fat32_write_data ticks fs i pos buf) (fun r s' => exists v', shows s' v' /\
    match r with
    | (Some n, i') => n = Z.of_nat (length buf) /\ (exists a, (a ∉ L) /\ heap_inv (fat_heap s') ({[a]} ∪ L)) /\
        exists cs', if behind_last fs i cs pos then restarted fs pos buf v v' i i' cs cs' else written fs pos buf v v' i i' cs cs'
    | (None, _) => heap_inv (fat_heap s') L /\ full fs v'
    end) s.
Proof.
  intros Hff Hu He Hp Hb Hne Hm Hh Hs Hc. apply (fun Hr => clean_wp _ _ _ Hr Hc); [refine_all|].
  exact (write_data_body (DD := SD) (HH := SH) fs G _ ticks v i pos buf L s
    (write_body_post (DD := SD) (HH := SH) fs G ticks v i cs pos buf Hff Hu He Hp Hb Hne Hm) Hh Hs strict_fat).
Qed.

(** [C26] In a run where no transfer and no allocation fails, writing a buffer
    into a FAT32 file and reading the range back returns the buffer, unless the
    write fails, which it does only on a full volume.  The write must not start
    right behind the last cluster of the file. *)
Theorem fat_write_read ticks v i cs pos buf L (s : St) :
  fat_file fs v i cs -> (forall c, c ∈ cs -> fat v c <> 0) -> entry_ok fs v (fi_private i) cs ->
  0 <= pos -> bytes_ok buf -> buf <> [] -> pos + Z.of_nat (length buf) < 2 ^ 32 -> behind_last fs i cs pos = false ->
  heap_inv (fat_heap s) L -> shows s v -> clean (fun DD HH => write_then_read (DD := DD) (HH := HH) fs ticks i pos buf) s ->
  wp (write_then_read fs ticks i pos buf) (fun r s' => match r with
    | Some r => r = Some buf
    | None => exists v', shows s' v' /\ full fs v'
    end) s.
Proof.
  intros Hff Hu He Hp Hb Hne Hm Hl Hh Hs Hc. apply (fun Hr => clean_wp _ _ _ Hr Hc); [unfold write_then_read; refine_all|].
  exact (write_then_read_ok (DD := SD) (HH := SH) fs G ticks v i cs pos buf L s Hff Hu He Hp Hb Hne Hm Hl Hh Hs strict_fat).
Qed.

(** [C27] [fat32_truncate], in a run where no transfer and no allocation fails,
    sets the size in the inode and in the directory entry, keeps the clusters the
    new size needs, frees exactly the others and appends zeroed free ones: a
    shorter file keeps its first bytes, a longer one all of its clusters.  It
    fails only when the volume is full. *)
Theorem fat_truncate_correct ticks v i cs size : fat_file fs v i cs -> (forall c, c ∈ cs -> fat v c <> 0) -> entry_ok fs v (fi_private i) cs ->
  f_type (fi_mode i) F_IFREG = true -> 0 <= size < 2 ^ 32 ->
  ctriple v (fun DD HH => fat32_truncate (DD := DD) (HH := HH) ticks fs i size) (fun x v' =>
    match x with
    | (r, i') => (0 <= r /\ exists cs' new, truncated fs size v v' i i' cs cs' new /\
          (size <= fi_size i -> new = [] /\ fcontents v' i' cs' = take (Z.to_nat size) (fcontents v i cs))) \/
        (r = -1 /\ i' = i /\ full fs v')
    end).
Proof. intros. apply ctriple_intro; [refine_all|]. apply (truncate_correct_rel (DD := SD) (HH := SH) fs G); (done || apply strict_fat). Qed.

(** [fat32_alloc_cluster] takes the free cluster with the least number, marks
    it as the end of a chain, clears it and changes nothing else; it fails only
    when no cluster is free. *)
Theorem fat_alloc_first_fit v : ctriple v (fun DD HH => fat32_alloc_cluster (DD := DD) (HH := HH) fs) (fun r v' =>
  match r with
  | Some c => allocated fs c v v' /\ forall c', 2 <= c' < c -> fat v c' <> 0
  | None => v' = v /\ full fs v
  end).
Proof. apply ctriple_intro; [refine_all|]. apply (alloc_first_fit_rel (DD := SD) (HH := SH) fs G), strict_fat. Qed.

(** [fat32_lookup] finds exactly what the directory holds: the inode of the
    first live entry with the name, or nothing when there is none. *)
Theorem fat_lookup_exact v dir cs name : fat_dir fs v dir cs ->
  ictriple v (fun DD HH => fat32_lookup (DD := DD) (HH := HH) fs dir name) (fun r v' => v' = v /\
    match r, lookup_name fs v cs name with
    | Some i, Some (c, off) => inode_of fs v (entry v c off) c off i
    | None, None => True
    | _, _ => False
    end).
Proof. intros. apply ictriple_intro; [refine_all|]. apply (lookup_exact_rel (DD := SD) (HH := SH) fs G); (done || apply strict_fat). Qed.

(** [C5] In a run where no transfer and no allocation fails, a file or directory
    that [fat32_dir_add] creates is found by name as the empty inode returned,
    every other name denotes what it denoted, and names stay distinct; it fails,
    with the volume as before, only for a name that is malformed or taken, or with
    at most one free cluster left.  The name must not start with byte 0xE5, which
    marks a deleted entry. *)
Theorem fat_create_found ticks v dir cs name mode : fat_dir fs v dir cs -> (forall d, d ∈ cs -> fat v d <> 0) -> name_ok name ->
  default 0 (name !! 0%nat) <> 0xE5 ->
  ictriple v (fun DD HH => fat32_dir_add (DD := DD) (HH := HH) ticks fs dir name mode) (fun r v' =>
    match r with
    | Some i => exists cs', created fs v v' cs name mode i cs'
    | None => untouched fs v v' /\ match fat32_name_to_dos name with
        | None => True | Some dos => finds v cs dos <> None \/ exists n, forall d, cl d -> d <> n -> fat v d <> 0 end
    end).
Proof. intros. apply ictriple_intro; [refine_all|]. apply (create_found_rel (DD := SD) (HH := SH) fs G); (done || apply strict_fat). Qed.

(** [C28] [fat32_unlink] and [fat32_rmdir], in a run where no transfer and no
    allocation fails, remove exactly the named entry, of the right type and, for
    a directory, without live entries of its own, free exactly its clusters, and
    leave every other name and cluster as they are. *)
Theorem fat_remove_exact v dir cs name dos fcs : fat_dir fs v dir cs -> fat32_name_to_dos name = Some dos -> names_unique fs v cs ->
  (forall s, finds v cs dos = Some s -> apart fs v cs s fcs) ->
  let gone v' := names_unique fs v' cs /\ finds v' cs dos = None /\ (forall dos', dos' <> dos -> finds v' cs dos' = finds v cs dos') /\
    exists s, finds v cs dos = Some s /\ dir_cut fs v v' cs fcs s.1 s.2 in
  ctriple v (fun DD HH => fat32_unlink (DD := DD) (HH := HH) fs dir name) (fun r v' =>
    (r = 0 /\ gone v') \/ (r = -1 /\ v' = v /\ forall s, finds v cs dos = Some s -> is_dir (entry v s.1 s.2) = true)) /\
  ctriple v (fun DD HH => fat32_rmdir (DD := DD) (HH := HH) fs dir name) (fun r v' =>
    (r = 0 /\ gone v') \/ (r = -1 /\ v' = v /\ forall s, finds v cs dos = Some s ->
      is_dir (entry v s.1 s.2) = false \/ dirent_first (entry v s.1 s.2) = 0 \/ existsb (at_ fs v live_entry) (slots fcs) = true)).
Proof.
  intros Fd Hd Hun Hap gone.
  destruct (remove_exact_rel (DD := SD) (HH := SH) fs G v dir cs name dos fcs Fd Hd Hun Hap strict_fat) as [Hu Hr].
  split; (apply ctriple_intro; [refine_all|done]).
Qed.

(** [C29] In a run where no transfer and no allocation fails, each call of
    [fat32_readdir] reports the next live entry and moves the offset behind it, so
    that calls from offset 0 on list every live entry once, in order, and then
    nothing. *)
Theorem fat_readdir_lists v dir cs j : fat_dir fs v dir cs ->
  ctriple v (fun DD HH => fat32_readdir (DD := DD) (HH := HH) fs dir (32 * Z.of_nat j)) (fun r v' => v' = v /\
    match lives fs v (slots cs) j with
    | [] => r.2 = None
    | s :: rest => exists m, r = (32 * Z.of_nat (S m), Some (listed fs v s)) /\ lives fs v (slots cs) (S m) = rest
    end).
Proof. intros. apply ctriple_intro; [refine_all|]. apply (readdir_lists_rel (DD := SD) (HH := SH) fs G); (done || apply strict_fat). Qed.
End CleanRuns.
