(* ===== verification/FatDemo.v ===== *)
(** A small FAT32 volume on a RAM disk with a bad sector and a heap that runs
    out of memory after 200 allocations: the instance on which the theorems of
    FatTheorems.v are applied, and runs that show what is lost when a file is
    extended at a cluster boundary, or written for the first time. *)
From stdpp Require Import base gmap list numbers.
From Stdlib Require Import ZArith Lia.
From S2P Require Import Prelude Bytes HashMap BlockDev Fat FatDir FatFile FatTable FatRead FatWrite FatEntry FatData FatLookup FatAdd Strict FatStrict FatTheorems.
Open Scope Z_scope.

(** one table sector, eight clusters of one sector, the root directory in
    cluster 2 with the files A.TXT (cluster 3, full) and B.TXT (empty) *)
Definition vol_fs : fat32_fs_priv := mkFatPriv 512 1 1 1 1 10 1 2 2 8.
(** "A.TXT" and "B.TXT" *)
Definition name_a : list Z := [65; 46; 84; 88; 84].
Definition name_b : list Z := [66; 46; 84; 88; 84].
Definition dos_of (name : list Z) : list Z := default [] (fat32_name_to_dos name).
Definition raw_entry (name : list Z) (first size : Z) : list Z :=
  dos_of name ++ [FAT32_ATTR_ARCHIVE] ++ replicate 14 0 ++ le_enc 2 first ++ le_enc 4 size.
Definition vol_disk : ramdisk :=
  mkDisk {[ 1 := replicate 8 0 ++ le_enc 4 FAT32_EOF_MARK ++ le_enc 4 FAT32_EOF_MARK;
           2 := raw_entry name_a 3 512 ++ raw_entry name_b 0 0;
           3 := replicate 512 7 ]} {[ 100 ]}.
Definition vol_st : fat_state ramdisk limited := mkFat vol_disk (mkLimited 200 (mkCounter 1 ∅)).
Definition vol_v : vol := rd_data vol_disk.

Lemma vol_geom : fgeom vol_fs.
Proof. split; vm_compute; (done || (split; congruence) || congruence). Qed.
Lemma vol_heap : heap_inv (fat_heap vol_st) ∅.
Proof. split; [done|]. set_solver. Qed.
Lemma vol_shows : shows vol_st vol_v.
Proof. intros x. done. Qed.
Lemma vol_fat2 : fat vol_fs vol_v 2 = FAT32_EOF_MARK.
Proof. vm_compute. reflexivity. Qed.
Lemma vol_fat3 : fat vol_fs vol_v 3 = FAT32_EOF_MARK.
Proof. vm_compute. reflexivity. Qed.

(** the inodes *)
Definition root : finode := mkFinode 100 101 2 (Z.lor F_IFDIR 0x1ED) 512 (mkFatInodePriv 2 0 0 0 true).
Definition file_a : finode := mkFinode 102 103 1024 (Z.lor F_IFREG 0x1A4) 512 (mkFatInodePriv 3 FAT32_ATTR_ARCHIVE 2 0 false).
Definition file_b : finode := mkFinode 104 105 1056 (Z.lor F_IFREG 0x1A4) 0 (mkFatInodePriv 0 FAT32_ATTR_ARCHIVE 2 32 false).

Lemma root_chain : chain vol_fs (fat vol_fs vol_v) [2].
Proof. split; [split; cbn; lia|]. rewrite vol_fat2. done. Qed.
Lemma root_dir : fat_dir vol_fs vol_v root [2].
Proof. split; [done|apply root_chain|done]. Qed.
Lemma root_used d : d ∈ [2] -> fat vol_fs vol_v d <> 0.
Proof. intros ->%list_elem_of_singleton. by rewrite vol_fat2. Qed.
Lemma a_chain : chain vol_fs (fat vol_fs vol_v) [3].
Proof. split; [split; cbn; lia|]. rewrite vol_fat3. done. Qed.
Lemma a_file : fat_file vol_fs vol_v file_a [3].
Proof. split; [apply a_chain|done|vm_compute; by split|done]. Qed.
Lemma a_used c : c ∈ [3] -> fat vol_fs vol_v c <> 0.
Proof. intros ->%list_elem_of_singleton. by rewrite vol_fat3. Qed.
Lemma a_entry : entry_ok vol_fs vol_v (fi_private file_a) [3].
Proof. split; [done|split; [split; cbn; lia|by vm_compute|done]|set_solver|]. change (dir_cluster (fi_private file_a)) with 2. by rewrite vol_fat2. Qed.

(** ** The theorems on this volume *)
(** "hi", over the first two bytes of A.TXT *)
Definition hi : list Z := [104; 105].
Lemma hi_ok : bytes_ok hi.
Proof. repeat constructor; lia. Qed.
Lemma hi_room : behind_last vol_fs file_a [3] 0 = false.
Proof. vm_compute. reflexivity. Qed.

(** the runs are clean, although the disk has a bad sector and the heap an end *)
Lemma write_clean : clean (fun DD HH => fat32_write_data (DD := DD) (HH := HH) 0 vol_fs file_a 0 hi) vol_st.
Proof. apply clean_run. vm_compute. reflexivity. Qed.
Lemma write_read_clean : clean (fun DD HH => write_then_read (DD := DD) (HH := HH) vol_fs 0 file_a 0 hi) vol_st.
Proof. apply clean_run. vm_compute. reflexivity. Qed.
Lemma bad_sector_not_clean : ~ clean (fun DD (HH : Heap limited) => fat32_read_sector (H := limited) (DD := DD) 100) vol_st.
Proof. intros Hc. apply Hc. vm_compute. reflexivity. Qed.

Lemma fat_write_correct_witness : wp (fat32_write_data 0 vol_fs file_a 0 hi) (fun r s' => exists v', shows s' v' /\
    match r with
    | (Some n, i') => n = Z.of_nat (length hi) /\ (exists a, (a ∉ (∅ : gset Z)) /\ heap_inv (fat_heap s') ({[a]} ∪ ∅)) /\
        exists cs', if behind_last vol_fs file_a [3] 0 then restarted vol_fs 0 hi vol_v v' file_a i' [3] cs' else written vol_fs 0 hi vol_v v' file_a i' [3] cs'
    | (None, _) => heap_inv (fat_heap s') ∅ /\ full vol_fs v'
    end) vol_st.
Proof.
  exact (fat_write_correct vol_fs vol_geom 0 vol_v file_a [3] 0 hi ∅ vol_st a_file a_used a_entry (Z.le_refl 0) hi_ok ltac:(done) eq_refl vol_heap vol_shows write_clean).
Defined.
Lemma fat_write_read_witness : wp (write_then_read vol_fs 0 file_a 0 hi) (fun r s' => match r with
    | Some r => r = Some hi
    | None => exists v', shows s' v' /\ full vol_fs v'
    end) vol_st.
Proof.
  exact (fat_write_read vol_fs vol_geom 0 vol_v file_a [3] 0 hi ∅ vol_st a_file a_used a_entry (Z.le_refl 0) hi_ok ltac:(done) eq_refl hi_room vol_heap vol_shows write_read_clean).
Defined.

Lemma fat_truncate_correct_witness : clean (fun (DD : BlockDev ramdisk) (HH : Heap limited) => fat32_truncate (DD := DD) (HH := HH) 0 vol_fs file_a 100) vol_st /\
  ctriple vol_v (fun (DD : BlockDev ramdisk) (HH : Heap limited) => fat32_truncate (DD := DD) (HH := HH) 0 vol_fs file_a 100) (fun x v' =>
    match x with
    | (r, i') => (0 <= r /\ exists cs' new, truncated vol_fs 100 vol_v v' file_a i' [3] cs' new /\
          (100 <= fi_size file_a -> new = [] /\ fcontents vol_fs v' i' cs' = take (Z.to_nat 100) (fcontents vol_fs vol_v file_a [3]))) \/
        (r = -1 /\ i' = file_a /\ full vol_fs v')
    end).
Proof. split; [apply clean_run; vm_compute; reflexivity|]. exact (fat_truncate_correct vol_fs vol_geom 0 vol_v file_a [3] 100 a_file a_used a_entry eq_refl ltac:(lia)). Defined.

Lemma a_found : finds vol_fs vol_v [2] (dos_of name_a) = Some (2, 0).
Proof. vm_compute. reflexivity. Qed.
Lemma fat_lookup_exact_witness : lookup_name vol_fs vol_v [2] name_a = Some (2, 0) /\
  ictriple vol_v (fun (DD : BlockDev ramdisk) (HH : Heap limited) => fat32_lookup (DD := DD) (HH := HH) vol_fs root name_a) (fun r v' => v' = vol_v /\
    match r, lookup_name vol_fs vol_v [2] name_a with
    | Some i, Some (c, off) => inode_of vol_fs vol_v (entry vol_fs vol_v c off) c off i
    | None, None => True
    | _, _ => False
    end).
Proof. split; [vm_compute; reflexivity|]. exact (fat_lookup_exact vol_fs vol_geom vol_v root [2] name_a root_dir). Defined.
(** "C.TXT" *)
Definition name_c : list Z := [67; 46; 84; 88; 84].
Lemma name_c_ok : name_ok name_c.
Proof. repeat constructor; lia. Qed.
Lemma fat_create_found_witness : clean (fun (DD : BlockDev ramdisk) (HH : Heap limited) => fat32_dir_add (DD := DD) (HH := HH) 0 vol_fs root name_c (Z.lor F_IFREG 0x1A4)) vol_st /\
  ictriple vol_v (fun (DD : BlockDev ramdisk) (HH : Heap limited) => fat32_dir_add (DD := DD) (HH := HH) 0 vol_fs root name_c (Z.lor F_IFREG 0x1A4)) (fun r v' =>
    match r with
    | Some i => exists cs', created vol_fs vol_v v' [2] name_c (Z.lor F_IFREG 0x1A4) i cs'
    | None => untouched vol_fs vol_v v' /\ match fat32_name_to_dos name_c with
        | None => True | Some dos => finds vol_fs vol_v [2] dos <> None \/ exists n, forall d, cl vol_fs d -> d <> n -> fat vol_fs vol_v d <> 0 end
    end).
Proof.
  split; [apply clean_run; vm_compute; reflexivity|]. exact (fat_create_found (D := ramdisk) (H := limited) vol_fs vol_geom 0 vol_v root [2] name_c (Z.lor F_IFREG 0x1A4) root_dir root_used name_c_ok ltac:(by vm_compute)).
Defined.
(** the only named entries are those of the two files *)
Lemma vol_names : names_unique vol_fs vol_v [2].
Proof.
  assert (forall s, s ∈ slots vol_fs [2] -> live_entry (entry vol_fs vol_v s.1 s.2) = true -> s = (2, 0) \/ s = (2, 32)) as Hl.
  { assert (forallb (fun s => negb (live_entry (entry vol_fs vol_v s.1 s.2)) || bool_decide (s = (2, 0)) || bool_decide (s = (2, 32))) (slots vol_fs [2]) = true) as F by (vm_compute; reflexivity).
    intros s Hs Hn. rewrite forallb_forall in F. specialize (F s (proj1 (list_elem_of_In _ _) Hs)). rewrite Hn in F. cbn [negb orb] in F.
    apply orb_true_iff in F as [F|F]; apply bool_decide_eq_true in F; auto. }
  intros dos s s' Hs Hs' N1 N2. pose proof (named_name _ _ N1) as E1. pose proof (named_name _ _ N2) as E2.
  apply andb_true_iff in N1 as [L1 _], N2 as [L2 _]. destruct (Hl s Hs L1) as [-> | ->], (Hl s' Hs' L2) as [-> | ->]; try done; subst dos; exfalso; vm_compute in E2; discriminate E2.
Qed.
Lemma a_apart s : finds vol_fs vol_v [2] (dos_of name_a) = Some s -> apart vol_fs vol_v [2] s [3].
Proof.
  rewrite a_found. intros [= <-]. split; [|set_solver]. right. split; [vm_compute; reflexivity|apply a_chain].
Qed.
Lemma fat_remove_exact_witness : exists dos, fat32_name_to_dos name_a = Some dos /\ clean (fun (DD : BlockDev ramdisk) (HH : Heap limited) => fat32_unlink (DD := DD) (HH := HH) vol_fs root name_a) vol_st /\
  ctriple vol_v (fun (DD : BlockDev ramdisk) (HH : Heap limited) => fat32_unlink (DD := DD) (HH := HH) vol_fs root name_a) (fun r v' =>
    (r = 0 /\ names_unique vol_fs v' [2] /\ finds vol_fs v' [2] dos = None /\
      (forall dos', dos' <> dos -> finds vol_fs v' [2] dos' = finds vol_fs vol_v [2] dos') /\
      exists s, finds vol_fs vol_v [2] dos = Some s /\ dir_cut vol_fs vol_v v' [2] [3] s.1 s.2) \/
    (r = -1 /\ v' = vol_v /\ forall s, finds vol_fs vol_v [2] dos = Some s -> is_dir (entry vol_fs vol_v s.1 s.2) = true)).
Proof.
  exists (dos_of name_a). split; [vm_compute; reflexivity|]. split; [apply clean_run; vm_compute; reflexivity|].
  exact (proj1 (fat_remove_exact vol_fs vol_geom vol_v root [2] name_a (dos_of name_a) [3] root_dir eq_refl vol_names a_apart)).
Defined.
Lemma fat_readdir_lists_witness : clean (fun (DD : BlockDev ramdisk) (HH : Heap limited) => fat32_readdir (DD := DD) (HH := HH) vol_fs root (32 * Z.of_nat 0)) vol_st /\
  ctriple vol_v (fun (DD : BlockDev ramdisk) (HH : Heap limited) => fat32_readdir (DD := DD) (HH := HH) vol_fs root (32 * Z.of_nat 0)) (fun r v' => v' = vol_v /\
    match lives vol_fs vol_v (slots vol_fs [2]) 0 with
    | [] => r.2 = None
    | s :: rest => exists m, r = (32 * Z.of_nat (S m), Some (listed vol_fs vol_v s)) /\ lives vol_fs vol_v (slots vol_fs [2]) (S m) = rest
    end).
Proof. split; [apply clean_run; vm_compute; reflexivity|]. exact (fat_readdir_lists vol_fs vol_geom vol_v root [2] 0 root_dir). Defined.

(** ** Runs *)
Definition run_value {A} (m : M (fat_state ramdisk limited) A) : option A :=
  match m vol_st with Ok (x, _) => Some x | _ => None end.
(** one byte behind the end of A.TXT, which fills its cluster: the byte goes to
    cluster 4, which becomes the first one of the file, and its old bytes are gone *)
Definition append_run : M (fat_state ramdisk limited) (Z * Z * option (list Z)) :=
  let* x := fat32_write_data 0 vol_fs file_a 512 [9] in
  let* r := fat32_read_data vol_fs x.2 0 2 in
  mret (first_cluster (fi_private x.2), fi_size x.2, r).
Example append_at_boundary : run_value append_run = Some (4, 513, Some [9; 0]).
Proof. vm_compute. reflexivity. Qed.
(** B.TXT is written, found again and read: the entry has the size but not the
    cluster *)
Definition reopen_run : M (fat_state ramdisk limited) (option (Z * Z * option (list Z))) :=
  let* _ := fat32_write_data 0 vol_fs file_b 0 hi in
  let* i := fat32_lookup vol_fs root name_b in
  match i with
  | None => mret None
  | Some i => let* r := fat32_read_data vol_fs i 0 2 in mret (Some (first_cluster (fi_private i), fi_size i, r))
  end.
Example written_then_reopened : run_value reopen_run = Some (Some (0, 2, Some [])).
Proof. vm_compute. reflexivity. Qed.
(** a name that starts with byte 0xE5 is created and cannot be found *)
Definition e5_run : M (fat_state ramdisk limited) (bool * bool) :=
  let* i := fat32_create 0 vol_fs root [0xE5; 46; 84] (Z.lor F_IFREG 0x1A4) in
  let* j := fat32_lookup vol_fs root [0xE5; 46; 84] in
  mret (bool_decide (is_Some i), bool_decide (is_Some j)).
Example created_not_found : run_value e5_run = Some (true, false).
Proof. vm_compute. reflexivity. Qed.
